(* ===== verification/_CoqProject ===== *)
-Q . S2P
Prelude.v
GoStrings.v
GoNet.v
Sha256.v
Digest.v
BalloonPlan.v
BalloonManager.v
RouterFrames.v
Router.v
Cluster.v
Subnet.v
HelperState.v
LinuxNet.v
Dhcp.v
Dns.v
Config.v
HostPressure.v
Bgp.v
NodePhase.v
NodeTrackers.v
Hints.v
DaemonBalloon.v
TalosVersion.v
UpDown.v
Snapshot.v
Preempt.v
Resolvers.v
Utilities.v
HelperServer.v
Effects.v
Suspend.v
ImageCache.v
MachineConfig.v
Provision.v
ProvisionTasks.v
Mirror.v
Authority.v
MirrorManager.v
Upstream.v
Warm.v
Qemu.v
QemuMachine.v
QemuSuspend.v
ClusterOps.v
Lifecycle.v
DaemonOps.v
