(* ===== verification/Prelude.v ===== *)
(** * talosbox: a verification development

    talosbox runs Talos Linux clusters as virtual machines on one machine.  The
    daemon [tbxd] keeps the clusters, balloons guest memory and answers DNS; the
    privileged helper owns the host network: it attaches segments, routes frames
    between them, reserves addresses and serves DHCP; the command [tbx] reads
    talosbox.yaml and talks to the daemon.  This library models the parts that
    decide something, from the Go sources under src/, and proves what makes them
    correct.  Sockets, files, processes and third-party libraries are parameters.

    ** Files, in dependency order

    - [Prelude]: the [result] type of fallible Go functions, 64-bit wrap-around
      ([wrap64]), sums, sorting, the tactics and the hint database shared below.
    - [GoStrings], [GoNet], [Sha256]: what the program uses of Go's strings,
      strconv, net, encoding/binary, crypto/sha256 and hash/fnv, executable.
    - [Digest] (internal/mirror: the references of mirror.go and check.go): SHA-512,
      references by digest, the request paths of the registry protocol.
    - [BalloonPlan] (internal/balloon/plan.go): [PlanTargets], which shares a
      memory deficit over the guests, and [Overcommit].
    - [BalloonManager] (internal/balloon/manager.go, internal/hostmem/hostmem.go):
      the pressure latch, planning of one poll, retry windows, holds, and the
      sweep that applies targets.  Guests are the class [Balloonable].
    - [RouterFrames], [Router] (internal/helper/router.go, router_darwin.go): header
      parsing, checksum, frame rewriting; then the ports, the learned address
      tables and routing as a step relation in which frames stay in flight between
      the unlocked lookup and the send.
    - [Cluster] (internal/cluster: cluster.go, node.go, reservation.go,
      provisioning.go, lease.go and the migration part of store.go): creation,
      adding and removing nodes, address reservation, the reservation table, the
      provisioning intent.
    - [Subnet] (internal/cluster/subnet.go): which /24 a cluster may claim.
    - [HelperState] (internal/helper/state.go): reservations pushed by the daemons
      of several users, and their persistence.
    - [LinuxNet] (internal/helper/linux_network_model.go, linux_nftables_model.go):
      link names and ownership, preflight, convergence of bridges, taps and the
      firewall.  The back ends are a class over a host state.
    - [Dhcp] (internal/helper/dhcp.go, dhcp_linux.go): replies and listeners.
    - [Dns] (internal/dns): wire codec, authority, cluster lookup, forwarding.
    - [Config] (internal/config, internal/domain): the description file.
    - [HostPressure] (internal/hostpressure): the two gates in front of a start.
    - [Bgp] (internal/bgp/reconcile.go): routes learned over BGP into the host
      table, an interface class with its laws.
    - [NodePhase], [NodeTrackers], [Hints] (internal/daemon: phase.go, node_stall.go,
      reboot.go, readiness_log.go, the status records of operations.go): how a node's
      phase and services are read off its probes, the four logs the daemon keeps
      about nodes, with probes begun and completed in any order, and the hints a
      status gives.
    - [DaemonBalloon] (internal/daemon/balloon.go): the daemon's side of ballooning,
      on top of [BalloonManager] and [HostPressure].
    - [TalosVersion], [UpDown] (internal/talosversion, internal/daemon: reconcile.go,
      updown.go): which versions are accepted, and tbx up and tbx down from the
      description file to the stored clusters.
    - [Snapshot] (internal/cluster: snapshot.go, disk.go; internal/daemon: snapshot.go,
      snapshot_restore_gate.go): the files of a cluster in a monad whose calls fail by
      a schedule that the theorems quantify over.
    - [Preempt] (internal/daemon/preempt.go): the handover of a cluster's lock, as a
      step relation over all interleavings.
    - [Resolvers] (internal/resolverset, internal/helper/resolver_darwin.go): the
      resolver files of custom domains.
    - [Utilities] (internal/hypervisor/ring.go, internal/extensions,
      internal/shellquote), a Module each.
    - [HelperServer] (internal/helper: server.go, dns.go, bgp_linux.go): the helper's
      requests and its shutdown, on top of [HelperState] and [Dhcp].
    - [Effects]: the state monad of the files below, [runs] and its rules.
    - [Suspend] (internal/daemon: suspend.go, node_runstate.go, the start and stop paths
      of operations.go and server.go): suspend and resume over save files, machines and
      versioned disks.
    - [ImageCache] (internal/imagecache: cache.go, pin.go; internal/daemon:
      cache_reference.go and the prune handler): filling, listing and pruning the cache
      of disk images.
    - [MachineConfig] (internal/provision/reconcile.go, internal/manifests): the Talos
      configs generated for a role, and how a running node's config is patched.
    - [Provision] (internal/provision: reconcile.go, gate.go): one provisioning pass.
    - [ProvisionTasks] (internal/daemon: provision.go, bgp.go): the passes the daemon
      has under way, as a step relation.
    - [Mirror] (internal/mirror: mirror.go, completeness.go, manifest.go, check.go): the
      pull-through registry mirror and the completeness of a cached image.
    - [Authority] (internal/mirror: the registry names and addresses of manager.go): how
      a registry is named, the directory of its cache, and which addresses may be dialed.
    - [MirrorManager] (internal/mirror/manager.go): the servers of the configured
      registries, those made for registries named in a request, and the catch-all port.
    - [Upstream] (internal/mirror/upstream.go): challenges, bearer tokens and retries of
      the requests to a registry.
    - [Warm] (internal/mirror: warm.go, warm_pool.go): fetching the images of a list.
    - [Qemu] (internal/hypervisor: qemu_config.go, qemu_probe.go): the command line of a
      guest, its firmware and its variables.
    - [QemuMachine] (internal/hypervisor: qemu_backend.go, qemu_save.go, qemu_process.go,
      spec.go): the machines of the QEMU back end, their processes, and the machines kept
      for saves; every call may fail and every process may exit, by a schedule.
    - [QemuSuspend]: what a suspend leaves and what a launch brings up.
    - [ClusterOps] (internal/cluster/store.go; internal/daemon: operations.go, server.go):
      the store of cluster records, the push of reservations to the helper, and the
      handlers that create, start, stop, resume, suspend and destroy clusters and add,
      start, stop and remove nodes, over one state of the daemon.
    - [Lifecycle]: what each of these operations does, on every branch.
    - [DaemonOps]: the daemon as a machine of requests, guest exits and restarts, and the
      theorems about it.

    A struct is a [Record], an enumeration or an error family an [Inductive] with a
    constructor per site, a map a [gmap], a slice a list, a pointer shared between
    structures an address into a heap field.  Definitions keep the names of the
    functions they translate; a loop body that is a definition of its own has a
    lower-case name with underscores.

    ** How the parts meet

    [Cluster.New] and [AddNode] give nodes addresses; [NewReservationTable] turns
    clusters into the table [HelperState] stores per user and [Dhcp] answers from;
    [Subnet] picks the index all of them share and the bridge names of [LinuxNet]
    are derived from; [Dns.Resolve] reads the same clusters, under domains [Config]
    keeps distinct; [Router] classifies addresses of the same subnets.  [HelperServer]
    runs the operations of [HelperState] and [Dhcp] for its peers; [DaemonBalloon]
    drives [BalloonManager]; [UpDown] compares the specs of [Config] with stored
    clusters of [Cluster]; the gate of [Snapshot] judges the restore of the same file.
    [Provision] applies the configs of [MachineConfig]; what a pass comes to is an
    argument of the steps of [ProvisionTasks].  [ImageCache] counts the clusters of
    [Cluster] as references; [Mirror] names what it keeps by the digests of [Digest].
    [MirrorManager] runs the server of [Mirror] on the cache [Authority] names, which asks
    its registry the way of [Upstream]; [Warm] fills the same cache through the same
    requests.  [ClusterOps] creates the clusters of [Cluster] on
    the subnet of [Subnet], and runs the handlers of [Suspend] on the slice of the daemon's
    state they share.

    Libraries the code calls are classes with the laws it relies on ([Yaml] and the Talos
    generator in [MachineConfig], [Wire] in [Mirror]).  A remote API is a function from
    the number of the call to its answer, a failing call a schedule, and where other
    requests share the state an environment acts between any two calls; the theorems
    quantify over all three.

    ** What the theorems show

    - Memory: [PlanTargets] stays within bounds, reclaims what it can and is
      independent of the order of the guests; a latched poll never gives memory
      back; targets stay in range; a refused guest is left alone for its retry
      window; a hold settles the ledger in one poll.
    - Frames: every frame a segment receives comes from an address its source port
      owns, in every interleaving; the address tables stay consistent; a closed
      port stays silent; another port cannot take a node's address; valid traffic
      is delivered, with a correct checksum and one hop less.
    - Addresses: allocation gives distinct addresses of the subnet and keeps a
      cluster well formed on error paths too; the table is injective and answers
      for every node; the chosen subnet is the lowest that collides with nothing.
    - Helper: a push is atomic, users never share a name, MAC or address, a restart
      restores the state; convergence keeps what is owned and configured; after
      DHCP convergence exactly the wanted listeners run; a client is only ever
      offered its own reservation.
    - Names: queries round-trip, hits and the two kinds of miss are told apart, the
      longest domain owns a name, local names are not sent upstream.
    - Files: an accepted talosbox.yaml is consistent and survives being printed.
    - Starts: guests are refused exactly under the stated memory and swap rules, the
      memory to reclaim first is exactly what is missing, and a refusal does not go
      away when the host gets worse.
    - Routes: reconciliation reaches the desired table, reports what it could not
      add, and leaves foreign routes alone.
    - Snapshots and disks, whatever call fails: a snapshot appears whole or not at all;
      a restore replaces and deletes nothing before every captured disk is staged and
      never leaves part of a disk; the nodes whose disks it deletes are those its gate
      watched; a snapshot restores what it captured; node disks are made whole.
    - The daemon: starting guests keeps the memory reserve, a hold lives as long as its
      operation; the reboot log is exact although probes overlap and nodes are
      forgotten meanwhile; hints do not contradict each other; up is idempotent in
      what it stores and changes of an intent only what may change; an announcement
      reaches the holder of a lock in every interleaving.
    - The helper's server: every interface is accounted for after every request,
      delivered or not; no user touches another's; a push is a transaction; shutdown
      ends.  Resolver files: the user's own are never touched, no reload is lost.
    - Suspend and resume, whatever call fails: a save is only ever taken, kept or restored
      with the disk it belongs to; a failed resume consumes no save; a node that boots
      afresh loses its save; suspending and resuming is the identity on running nodes.
    - Disk images: an image appears whole; a prune removes all it announces and nothing
      that a cluster, a pin or the kept versions need, and a listing previews it.
    - Provisioning: patching a config reaches a target that further passes leave alone
      and keeps what the user wrote; a pass follows an abstract plan, applies only configs
      generated for the addresses observed, bootstraps after every repair, and returns.
      Under every interleaving of passes, probes and cancellations the daemon's memo is
      coherent, a superseded pass changes nothing, a terminal failure stays, and the
      waiters of a pass are released exactly once.
    - The mirror, with any upstream and concurrent requests: what a successful request
      returns has the digest it asked for; offline, a tag is served exactly when the
      image is complete, and then every request of its pull is served.
      Names of registries have caches of their own; connections are only made to public
      addresses; the servers kept are those most recently used; a request on the catch-all
      port only touches the cache of the registry it names.  The requests and the sleeps of
      a fill are bounded, a bearer token serves only the repository it was obtained for,
      and a challenge is read as it was written.  An image that was warmed can be pulled
      without the upstream, all of it.
    - The life of clusters, whatever call fails: the daemon's records, directories,
      machines and reservations stay consistent through any sequence of requests, guest
      exits and restarts; a create is complete or leaves a stopped cluster or nothing; no
      machine is launched before its reservation was delivered; a request only touches the
      cluster it names; a destroy that succeeds leaves nothing; what a create is charged is
      what it stores.
    - QEMU: the command line of a guest is read back as what was asked for, whatever its
      paths hold; the variables of a guest appear whole, whatever fails; no process outlives
      its machine; a save is complete or as it was; a guest that was suspended is resumed
      with the memory it had.
    - Utilities: the ring buffer is a window on what was written, the table of the
      suggestion is the edit distance, a quoted name is read back as itself.

    ** Fuel and bounds

    Recursions that are not structural take fuel, and each has a lemma that the
    fuel chosen is enough: [plan_loop] S (number of guests), since each round
    clamps one at least; [checksum_fold] 3, since the sum of a frame's words needs
    two folds; [dhcp_options] and [parse_labels] S (length of the payload), since
    each round consumes a byte.  The fuel of [shutdown_loop] is the source's own bound
    on attempts.  The polling loops of [Provision] take fuel beyond the deadline of their
    context; the descent of [Mirror] into indexes is bounded by the source's own
    [maxSelectedIndexDepth]; the walk of [Warm] through indexes, which the source does not
    bound, takes fuel and ends with [TooNested] without, and more fuel changes nothing
    where it ended ([warmManifestGraph_more]).  Runs of [Preempt] are shorter than 2^64 steps, so that the sequence
    counter does not wrap.  Integers are unbounded where the source cannot
    overflow and [wrap64] or [wrapu] where it computes at a width; theorems that
    need a range say so.

    ** Limits

    strings.ToLower is exact on ASCII and leaves other bytes alone.  The order in
    which Go runs goroutines or iterates a map is either quantified over or
    irrelevant to the result.  JSON and YAML text, log messages, timers and
    deadlines are not modelled.

    In [Snapshot] directories hold regular files and modes are not modelled; in
    [HelperServer] and [Resolvers] calls into the host are outcomes given per request.
    The temporary files of the mirror are not part of its state: nobody reads them.

    [Upstream] takes requests one after another, where the source may interleave those of
    several guests at the lock of the token cache; [DaemonOps] takes each request as one
    step, since the source holds the daemon's operation lock while its handler runs.

    Not modelled: the command line of tbx; the daemon's socket server and its status
    handlers, which only report; the reconcilers of Cilium, Longhorn and MetalLB, which
    drive the Kubernetes API through client libraries; requests to the Image Factory; the
    limit on the references of a list warmed at once; the messages of the
    QEMU monitor, the console and the Virtualization.framework back end (the daemon's
    [Suspend] takes the machines of a back end by a schedule); the platform glue of the
    helper (netlink, vmnet, cgo) and its client; host memory probes.  Next on the plan: the
    helper's client and protocol handshake. *)

From stdpp Require Import base list sorting strings gmap.
From Stdlib Require Import ZArith Lia.

Local Open Scope Z_scope.

(** ** Errors as values

    A Go function returning [(T, error)] is modelled by a [result]; every
    [fmt.Errorf] or [errors.New] site is a constructor of the component's own
    error type, carrying the values the message interpolates. *)

Inductive result (E A : Type) : Type :=
| Ok (a : A)
| Err (e : E).
Arguments Ok {E A} a.
Arguments Err {E A} e.

#[global] Instance result_ret (E : Type) : MRet (result E) := fun A a => Ok a.
#[global] Instance result_bind (E : Type) : MBind (result E) :=
  fun A B k r => match r with Ok a => k a | Err e => Err e end.
#[global] Instance result_fmap (E : Type) : FMap (result E) :=
  fun A B f r => match r with Ok a => Ok (f a) | Err e => Err e end.

Definition is_ok {E A} (r : result E A) : bool :=
  match r with Ok _ => true | Err _ => false end.

(** [fmt.Errorf("...: %w", err)]: re-tag the error of a callee. *)
Definition map_err {E F A} (f : E -> F) (r : result E A) : result F A :=
  match r with Ok a => Ok a | Err e => Err (f e) end.

(** ** Machine integers

    Go's [int] is 64 bits wide on every platform talosbox supports. *)

Definition int64_max : Z := 2 ^ 63 - 1.
Definition int64_min : Z := - 2 ^ 63.
Definition wrap64 (z : Z) : Z := (z + 2 ^ 63) mod 2 ^ 64 - 2 ^ 63.
Definition wrapu (w z : Z) : Z := z mod 2 ^ w.

(** Arithmetic at that width; Go division truncates toward zero. *)
Declare Scope int64_scope.
Delimit Scope int64_scope with int64.
Notation "x +! y" := (wrap64 (x + y)) (at level 50, left associativity) : int64_scope.
Notation "x -! y" := (wrap64 (x - y)) (at level 50, left associativity) : int64_scope.
Notation "x *! y" := (wrap64 (x * y)) (at level 40, left associativity) : int64_scope.
Notation "x /! y" := (wrap64 (Z.quot x y)) (at level 40, left associativity) : int64_scope.


(** The values a 64-bit [int] can hold. *)
Definition in_int64 (z : Z) : Prop := int64_min <= z <= int64_max.

(** ** Sums over lists *)

Definition zsum {A} (f : A -> Z) (l : list A) : Z := foldr (fun x acc => f x + acc) 0 l.
Arguments zsum : simpl never.

(** ** Sorted string lists, [sort.Strings] and [slices.Sort] *)

Definition sort_strings (l : list string) : list string := merge_sort String.le l.
Definition sort_ints (l : list Z) : list Z := merge_sort Z.le l.

(** [slices.Compact]: drop consecutive duplicates. *)
Fixpoint compact {A} `{EqDecision A} (l : list A) : list A :=
  match l with
  | [] => []
  | x :: l' =>
      match l' with
      | [] => [x]
      | y :: _ => if decide (x = y) then compact l' else x :: compact l'
      end
  end.

(** ** Proof automation *)

Create HintDb tbx.
Create Rewrite HintDb tbx.

(** Invert an equation between [result]s. *)
Ltac inv_result :=
  repeat match goal with
    | H : Ok _ = Ok _ |- _ => injection H as H; subst
    | H : Err _ = Err _ |- _ => injection H as H; subst
    | H : Ok _ = Err _ |- _ => discriminate H
    | H : Err _ = Ok _ |- _ => discriminate H
    end.

(** Split the boolean guards of a goal or hypothesis into propositions. *)
Ltac bool_to_prop :=
  repeat match goal with
    | H : _ && _ = true |- _ => apply andb_true_iff in H; destruct H
    | H : _ || _ = false |- _ => apply orb_false_iff in H; destruct H
    | H : negb _ = true |- _ => apply negb_true_iff in H
    | H : negb _ = false |- _ => apply negb_false_iff in H
    | H : bool_decide _ = true |- _ => apply bool_decide_eq_true in H
    | H : bool_decide _ = false |- _ => apply bool_decide_eq_false in H
    | H : (_ <? _) = true |- _ => apply Z.ltb_lt in H
    | H : (_ <? _) = false |- _ => apply Z.ltb_ge in H
    | H : (_ <=? _) = true |- _ => apply Z.leb_le in H
    | H : (_ <=? _) = false |- _ => apply Z.leb_gt in H
    | H : (_ =? _) = true |- _ => apply Z.eqb_eq in H
    | H : (_ =? _) = false |- _ => apply Z.eqb_neq in H
    end.

(** Case on the head [match] or [if] of the goal, keeping the equation. *)
Ltac case_head :=
  match goal with
  | |- context [match ?x with _ => _ end] => destruct x eqn:?
  end.

(** Case on the head [match] of a hypothesis, keeping the equation. *)
Ltac case_head_in H :=
  match type of H with
  | context [match ?x with _ => _ end] => destruct x eqn:?
  end.

(** Linear arithmetic with division and remainder by constants. *)
Ltac div_lia := intros; zify; Z.to_euclidean_division_equations; lia.

(** ** Lemmas on machine integers *)

Lemma wrap64_id (z : Z) : in_int64 z -> wrap64 z = z.
Proof.
  unfold in_int64, int64_min, int64_max, wrap64. intros H.
  rewrite Z.mod_small; lia.
Qed.

Lemma wrap64_range (z : Z) : in_int64 (wrap64 z).
Proof.
  unfold in_int64, int64_min, int64_max, wrap64.
  pose proof (Z.mod_pos_bound (z + 2 ^ 63) (2 ^ 64)). lia.
Qed.

Lemma in_int64_small (z : Z) : - 2 ^ 62 <= z <= 2 ^ 62 -> in_int64 z.
Proof. unfold in_int64, int64_min, int64_max. lia. Qed.

#[export] Hint Resolve wrap64_range in_int64_small : tbx.

(** Discharge [in_int64] side conditions by linear arithmetic. *)
Ltac int64_lia := apply in_int64_small; lia.

(** ** Lemmas on sums *)

Lemma zsum_nil {A} (f : A -> Z) : zsum f [] = 0.
Proof. reflexivity. Qed.

Lemma zsum_cons {A} (f : A -> Z) x l : zsum f (x :: l) = f x + zsum f l.
Proof. reflexivity. Qed.

Lemma zsum_app {A} (f : A -> Z) l1 l2 : zsum f (l1 ++ l2) = zsum f l1 + zsum f l2.
Proof. induction l1; [done|]. rewrite <- app_comm_cons, !zsum_cons. lia. Qed.

Lemma zsum_nonneg {A} (f : A -> Z) l : (forall x, x ∈ l -> 0 <= f x) -> 0 <= zsum f l.
Proof.
  induction l as [|a l IH]; intros H; [done|]. rewrite zsum_cons.
  assert (0 <= f a) by set_solver. assert (0 <= zsum f l) by (apply IH; set_solver). lia.
Qed.

Lemma zsum_ext {A} (f g : A -> Z) l : (forall x, x ∈ l -> f x = g x) -> zsum f l = zsum g l.
Proof.
  induction l as [|a l IH]; intros H; [done|]. rewrite !zsum_cons.
  rewrite H, IH; set_solver.
Qed.

Lemma zsum_le {A} (f g : A -> Z) l : (forall x, x ∈ l -> f x <= g x) -> zsum f l <= zsum g l.
Proof.
  induction l as [|a l IH]; intros H; [done|]. rewrite !zsum_cons.
  assert (f a <= g a) by set_solver. assert (zsum f l <= zsum g l) by set_solver. lia.
Qed.

Lemma zsum_elem_le {A} (f : A -> Z) l x :
  (forall y, y ∈ l -> 0 <= f y) -> x ∈ l -> f x <= zsum f l.
Proof.
  induction l as [|a l IH]; intros Hp Hx; [set_solver|]. rewrite zsum_cons.
  apply elem_of_cons in Hx as [->|Hx].
  - assert (0 <= zsum f l) by (apply zsum_nonneg; set_solver). lia.
  - assert (f x <= zsum f l) by (apply IH; set_solver). assert (0 <= f a) by set_solver. lia.
Qed.

#[global] Instance zsum_perm {A} (f : A -> Z) : Proper ((≡ₚ) ==> (=)) (zsum f).
Proof. intros l1 l2 H. induction H; rewrite ?zsum_cons; lia. Qed.

Lemma zsum_submseteq {A} (f : A -> Z) l1 l2 :
  (forall x, x ∈ l2 -> 0 <= f x) -> l1 ⊆+ l2 -> zsum f l1 <= zsum f l2.
Proof.
  intros Hp [l Hl]%submseteq_Permutation. rewrite Hl, zsum_app.
  assert (0 <= zsum f l); [|lia]. apply zsum_nonneg. intros x Hx. apply Hp.
  rewrite Hl, elem_of_app. by right.
Qed.

(** Summing with wrap-around is exact while the total fits. *)
Lemma foldr_wrap_sum {A} (f : A -> Z) l :
  (forall x, x ∈ l -> 0 <= f x) -> zsum f l <= int64_max ->
  foldr (fun x acc => wrap64 (acc + f x)) 0 l = zsum f l.
Proof.
  induction l as [|a l IH]; intros Hp Hb; [done|]. rewrite zsum_cons in *.
  assert (0 <= zsum f l) by (apply zsum_nonneg; set_solver).
  assert (0 <= f a) by set_solver. simpl. rewrite IH by (set_solver || lia).
  rewrite wrap64_id; [lia|]. unfold in_int64, int64_min. lia.
Qed.

Lemma zsum_map {A B} (f : B -> Z) (g : A -> B) l : zsum f (g <$> l) = zsum (fun x => f (g x)) l.
Proof. induction l; [done|]. rewrite fmap_cons, !zsum_cons. lia. Qed.

Lemma zsum_add {A} (f g : A -> Z) l : zsum (fun x => f x + g x) l = zsum f l + zsum g l.
Proof. induction l; simpl; [done|]. rewrite !zsum_cons. lia. Qed.

Lemma zsum_sub {A} (f g : A -> Z) l : zsum (fun x => f x - g x) l = zsum f l - zsum g l.
Proof. induction l; simpl; [done|]. rewrite !zsum_cons. lia. Qed.

(** ** Lemmas on sorting *)

#[global] Instance sort_strings_perm_proper : Proper ((≡ₚ) ==> (=)) sort_strings.
Proof.
  intros l1 l2 H. unfold sort_strings.
  apply (StronglySorted_unique String.le); [apply StronglySorted_merge_sort; apply _..|].
  rewrite !merge_sort_Permutation. done.
Qed.

Lemma sort_strings_perm l : sort_strings l ≡ₚ l.
Proof. apply merge_sort_Permutation. Qed.

Lemma sort_ints_perm l : sort_ints l ≡ₚ l.
Proof. apply merge_sort_Permutation. Qed.

Lemma sort_ints_sorted l : StronglySorted Z.le (sort_ints l).
Proof. apply StronglySorted_merge_sort; apply _. Qed.

#[export] Hint Resolve sort_strings_perm sort_ints_perm sort_ints_sorted : tbx.

Lemma elem_of_sort_strings x l : x ∈ sort_strings l <-> x ∈ l.
Proof. by rewrite sort_strings_perm. Qed.

Lemma elem_of_sort_ints x l : x ∈ sort_ints l <-> x ∈ l.
Proof. by rewrite sort_ints_perm. Qed.

Lemma NoDup_sort_strings l : NoDup l -> NoDup (sort_strings l).
Proof. by rewrite sort_strings_perm. Qed.

Lemma elem_of_compact {A} `{EqDecision A} (x : A) l : x ∈ compact l <-> x ∈ l.
Proof.
  induction l as [|a l IH]; [done|]. destruct l as [|b l]; [done|].
  change (compact (a :: b :: l)) with
    (if decide (a = b) then compact (b :: l) else a :: compact (b :: l)).
  case_decide as E; rewrite ?elem_of_cons, IH, ?elem_of_cons; [subst|]; tauto.
Qed.

Lemma compact_head {A} `{EqDecision A} (x : A) l : exists l', compact (x :: l) = x :: l'.
Proof.
  revert x. induction l as [|y l IH]; intros x; [by exists []|].
  change (compact (x :: y :: l)) with
    (if decide (x = y) then compact (y :: l) else x :: compact (y :: l)).
  case_decide; [subst; apply IH|eauto].
Qed.

(** Compacting a sorted list leaves no duplicate at all. *)
Lemma compact_sorted (l : list Z) : StronglySorted Z.le l -> StronglySorted Z.lt (compact l).
Proof.
  induction l as [|x l IH]; intros H; [constructor|].
  apply StronglySorted_inv in H as [Hl Hx]. destruct l as [|y l]; [repeat constructor|].
  change (compact (x :: y :: l)) with
    (if decide (x = y) then compact (y :: l) else x :: compact (y :: l)).
  case_decide; [auto|]. constructor; [auto|].
  apply Forall_forall. intros z Hz. rewrite elem_of_compact in Hz.
  apply StronglySorted_inv in Hl as [_ Hy]. rewrite Forall_forall in Hx, Hy.
  assert (x <= y) by (apply Hx; left).
  apply elem_of_cons in Hz as [->|Hz]; [lia|]. specialize (Hy z Hz). lia.
Qed.

Lemma sorted_lt_NoDup (l : list Z) : StronglySorted Z.lt l -> NoDup l.
Proof.
  induction 1 as [|x l _ IH Hx]; constructor; [|done].
  intros Hin. rewrite Forall_forall in Hx. specialize (Hx x Hin). lia.
Qed.

(** Two strictly sorted integer lists with the same members are equal. *)
Lemma sorted_lt_ext (l1 l2 : list Z) :
  StronglySorted Z.lt l1 -> StronglySorted Z.lt l2 -> (forall x, x ∈ l1 <-> x ∈ l2) -> l1 = l2.
Proof.
  intros H1 H2 Hx. eapply StronglySorted_unique_strong; [|exact H1|exact H2|].
  - intros x y _ _ Hxy Hyx. lia.
  - apply NoDup_Permutation; auto using sorted_lt_NoDup.
Qed.
