(* ===== verification/GoStrings.v ===== *)
(** * Go's [strings], [strconv] and [fmt] as talosbox uses them

    A Go string is a byte sequence, modelled by [string] (a list of 8-bit
    [ascii] values).  [strings.ToLower] is modelled on ASCII letters; bytes from
    0x80 up are left alone.  Everything else is byte-exact. *)

From stdpp Require Import base list strings pretty.
From Stdlib Require Import Ascii ZArith Lia.
From S2P Require Import Prelude.

Local Open Scope Z_scope.

(** ** Bytes *)

Definition byte_val (c : ascii) : Z := Z.of_N (N_of_ascii c).
Definition ascii_of_byte (z : Z) : ascii := ascii_of_N (Z.to_N z).

Definition is_digit (c : ascii) : bool := (48 <=? byte_val c) && (byte_val c <=? 57).
Definition is_lower (c : ascii) : bool := (97 <=? byte_val c) && (byte_val c <=? 122).
Definition is_upper (c : ascii) : bool := (65 <=? byte_val c) && (byte_val c <=? 90).

(** ** Package [strings] *)

Fixpoint has_prefix (s p : string) : bool :=
  match p, s with
  | EmptyString, _ => true
  | String a p', String b s' => if decide (a = b) then has_prefix s' p' else false
  | String _ _, EmptyString => false
  end.

Fixpoint drop_string (n : nat) (s : string) : string :=
  match n, s with
  | O, _ => s
  | S n', String _ s' => drop_string n' s'
  | S _, EmptyString => EmptyString
  end.

Fixpoint take_string (n : nat) (s : string) : string :=
  match n, s with
  | S n', String c s' => String c (take_string n' s')
  | _, _ => EmptyString
  end.

Definition trim_prefix (s p : string) : string :=
  if has_prefix s p then drop_string (String.length p) s else s.

Definition has_suffix (s p : string) : bool :=
  bool_decide (String.length p <= String.length s)%nat &&
  bool_decide (drop_string (String.length s - String.length p) s = p).

Definition trim_suffix (s p : string) : string :=
  if has_suffix s p then take_string (String.length s - String.length p) s else s.

(** [strings.Cut] at a one-byte separator: before, after, found. *)
Fixpoint cut (sep : ascii) (s : string) : option (string * string) :=
  match s with
  | EmptyString => None
  | String c s' =>
      if decide (c = sep) then Some (EmptyString, s')
      else match cut sep s' with
           | Some (l, r) => Some (String c l, r)
           | None => None
           end
  end.

(** [strings.Split] on a one-byte separator; the result is never empty. *)
Fixpoint split_on (sep : ascii) (s : string) : list string :=
  match s with
  | EmptyString => [EmptyString]
  | String c s' =>
      if decide (c = sep) then EmptyString :: split_on sep s'
      else match split_on sep s' with
           | w :: ws => String c w :: ws
           | [] => [String c EmptyString]
           end
  end.

(** [strings.Join] *)
Fixpoint join (sep : string) (l : list string) : string :=
  match l with
  | [] => EmptyString
  | [w] => w
  | w :: l' => (w +:+ sep +:+ join sep l')%string
  end.

Definition to_lower_ascii (c : ascii) : ascii :=
  if is_upper c then ascii_of_byte (byte_val c + 32) else c.

Fixpoint to_lower (s : string) : string :=
  match s with
  | EmptyString => EmptyString
  | String c s' => String (to_lower_ascii c) (to_lower s')
  end.

(** [strings.LastIndex(s, c)] followed by a split there: before, after. *)
Fixpoint cut_last (sep : ascii) (s : string) : option (string * string) :=
  match s with
  | EmptyString => None
  | String c s' =>
      match cut_last sep s' with
      | Some (l, r) => Some (String c l, r)
      | None => if decide (c = sep) then Some (EmptyString, s') else None
      end
  end.

(** The UTF-8 encodings of the runes [unicode.IsSpace] accepts, as byte lists. *)
Definition space_encodings : list (list Z) :=
  [[9]; [10]; [11]; [12]; [13]; [32]; [194; 133]; [194; 160]; [225; 154; 128]] ++
  ((fun i => [226; 128; 128 + i]) <$> [0; 1; 2; 3; 4; 5; 6; 7; 8; 9; 10]) ++
  [[226; 128; 168]; [226; 128; 169]; [226; 128; 175]; [226; 129; 159]; [227; 128; 128]].

Definition string_of_bytes (l : list Z) : string := foldr (fun z s => String (ascii_of_byte z) s) EmptyString l.

Fixpoint bytes_of_string (s : string) : list Z :=
  match s with
  | EmptyString => []
  | String c s' => byte_val c :: bytes_of_string s'
  end.

Definition spaces : list string := string_of_bytes <$> space_encodings.

(** Each round strips one rune, so the string's length bounds the rounds. *)
Fixpoint trim_left_n (n : nat) (s : string) : string :=
  match n with
  | O => s
  | S n' => match list_find (fun w => has_prefix s w = true) spaces with
            | Some (_, w) => trim_left_n n' (trim_prefix s w)
            | None => s
            end
  end.

Fixpoint trim_right_n (n : nat) (s : string) : string :=
  match n with
  | O => s
  | S n' => match list_find (fun w => has_suffix s w = true) spaces with
            | Some (_, w) => trim_right_n n' (trim_suffix s w)
            | None => s
            end
  end.

(** [strings.TrimSpace] *)
Definition trim_space (s : string) : string :=
  let l := trim_left_n (String.length s) s in trim_right_n (String.length l) l.

(** ** Package [strconv] *)

(** Decimal digits onto an accumulator; [None] on any other byte. *)
Fixpoint parse_digits (acc : Z) (s : string) : option Z :=
  match s with
  | EmptyString => Some acc
  | String c s' => if is_digit c then parse_digits (acc * 10 + (byte_val c - 48)) s' else None
  end.

(** [strconv.Atoi]: optional sign, at least one digit, within [int64]. *)
Definition atoi (s : string) : option Z :=
  let in_range z := if (int64_min <=? z) && (z <=? int64_max) then Some z else None in
  match s with
  | EmptyString => None
  | String "-" EmptyString => None
  | String "+" EmptyString => None
  | String "-" s' => parse_digits 0 s' ≫= (fun n => in_range (- n))
  | String "+" s' => parse_digits 0 s' ≫= in_range
  | _ => parse_digits 0 s ≫= in_range
  end.

(** [strconv.Itoa], [fmt]'s [%d] *)
Definition itoa (z : Z) : string := pretty z.

Definition hex_val (c : ascii) : option Z :=
  if is_digit c then Some (byte_val c - 48)
  else if (97 <=? byte_val c) && (byte_val c <=? 102) then Some (byte_val c - 87)
  else if (65 <=? byte_val c) && (byte_val c <=? 70) then Some (byte_val c - 55)
  else None.

Fixpoint parse_hex_digits (acc : Z) (s : string) : option Z :=
  match s with
  | EmptyString => Some acc
  | String c s' => match hex_val c with
                   | Some v => parse_hex_digits (acc * 16 + v) s'
                   | None => None
                   end
  end.

(** [strconv.ParseUint(s, 16, 32)] *)
Definition parse_uint_hex32 (s : string) : option Z :=
  match s with
  | EmptyString => None
  | _ => parse_hex_digits 0 s ≫= (fun n => if n <? 2 ^ 32 then Some n else None)
  end.

(** [strconv.ParseUint(s, 10, 32)] *)
Definition parse_uint_dec32 (s : string) : option Z :=
  match s with
  | EmptyString => None
  | _ => parse_digits 0 s ≫= (fun n => if n <? 2 ^ 32 then Some n else None)
  end.

Definition hex_digit (v : Z) : ascii := ascii_of_byte (if v <? 10 then 48 + v else 87 + v).

(** [%02x] of one byte, [%x] of one byte. *)
Definition hex2 (b : Z) : string := String (hex_digit (b / 16)) (String (hex_digit (b mod 16)) EmptyString).
Definition hex1 (b : Z) : string :=
  if b <? 16 then String (hex_digit b) EmptyString else hex2 b.

(** [%08x] of a 32-bit value *)
Definition hex8 (v : Z) : string :=
  (hex2 (v / 2 ^ 24 mod 256) +:+ hex2 (v / 2 ^ 16 mod 256) +:+
   hex2 (v / 2 ^ 8 mod 256) +:+ hex2 (v mod 256))%string.

(** ** Lemmas *)

Lemma string_app_assoc (a b c : string) : ((a +:+ b) +:+ c = a +:+ (b +:+ c))%string.
Proof. induction a; [done|]. unfold String.append in *. fold String.append in *. by f_equal. Qed.

Lemma string_app_nil_r (a : string) : (a +:+ EmptyString = a)%string.
Proof. induction a; [done|]. change (String a (a0 +:+ "") = String a a0)%string. by f_equal. Qed.

Lemma string_length_app (a b : string) : String.length (a +:+ b) = (String.length a + String.length b)%nat.
Proof. induction a; [done|]. change (S (String.length (a0 +:+ b)) = S (String.length a0 + String.length b))%nat. lia. Qed.

Lemma string_of_bytes_of_string (s : string) : string_of_bytes (bytes_of_string s) = s.
Proof.
  induction s as [|c s IH]; [done|]. cbn. unfold string_of_bytes in IH. rewrite IH.
  unfold ascii_of_byte, byte_val. by rewrite N2Z.id, ascii_N_embedding.
Qed.

Lemma length_bytes_of_string (s : string) : length (bytes_of_string s) = String.length s.
Proof. induction s as [|c s IH]; cbn; congruence. Qed.

Lemma split_on_cons (sep : ascii) (s : string) : exists w ws, split_on sep s = w :: ws.
Proof. destruct s as [|c s]; cbn; repeat case_match; eauto. Qed.

(** [strings.Join] undoes [strings.Split] on the same separator. *)
Lemma join_split (sep : ascii) (s : string) : join (String sep EmptyString) (split_on sep s) = s.
Proof.
  induction s as [|c s IH]; [done|]. destruct (split_on_cons sep s) as (w & ws & Hs).
  cbn [split_on]. rewrite Hs in *. destruct (decide (c = sep)) as [->|Hc].
  - cbn [join]. destruct ws; cbn in *; by rewrite <- IH.
  - destruct ws; cbn in *; by rewrite <- IH.
Qed.

Lemma has_prefix_app (p s : string) : has_prefix (p +:+ s) p = true.
Proof.
  induction p as [|a p IH]; [by destruct s|].
  change (has_prefix (String a (p +:+ s)) (String a p) = true). simpl.
  by rewrite decide_True.
Qed.

Lemma has_prefix_spec (s p : string) : has_prefix s p = true <-> exists t, s = (p +:+ t)%string.
Proof.
  split.
  - revert s. induction p as [|a p IH]; intros s H; [by exists s|].
    destruct s as [|b s]; [done|]. simpl in H. case_decide; [|done]. subst.
    destruct (IH s H) as [t ->]. by exists t.
  - intros [t ->]. apply has_prefix_app.
Qed.

Lemma drop_string_app (p s : string) : drop_string (String.length p) (p +:+ s) = s.
Proof. induction p; [done|]. apply IHp. Qed.

Lemma take_string_app (p s : string) : take_string (String.length p) (p +:+ s) = p.
Proof. induction p; [by destruct s|]. change (String a (take_string (String.length p) (p +:+ s)) = String a p). by f_equal. Qed.

Lemma trim_prefix_app (p s : string) : trim_prefix (p +:+ s) p = s.
Proof. unfold trim_prefix. rewrite has_prefix_app. apply drop_string_app. Qed.

Lemma take_drop_string n s : (take_string n s +:+ drop_string n s)%string = s.
Proof.
  revert s. induction n as [|n IH]; intros s; [by destruct s|].
  destruct s as [|c s]; [done|].
  change (String c (take_string n s +:+ drop_string n s) = String c s)%string. by f_equal.
Qed.

Lemma has_suffix_spec (s p : string) : has_suffix s p = true <-> exists t, s = (t +:+ p)%string.
Proof.
  unfold has_suffix. rewrite andb_true_iff, !bool_decide_eq_true. split.
  - intros [Hl Hd]. exists (take_string (String.length s - String.length p) s).
    rewrite <- Hd at 2. by rewrite take_drop_string.
  - intros [t ->]. rewrite string_length_app. split; [lia|].
    replace (String.length t + String.length p - String.length p)%nat with (String.length t) by lia.
    apply drop_string_app.
Qed.

Lemma trim_suffix_app (t p : string) : trim_suffix (t +:+ p) p = t.
Proof.
  unfold trim_suffix. destruct (has_suffix (t +:+ p) p) eqn:E.
  - rewrite string_length_app.
    replace (String.length t + String.length p - String.length p)%nat with (String.length t) by lia.
    apply take_string_app.
  - exfalso. assert (has_suffix (t +:+ p) p = true) by (apply has_suffix_spec; eauto). congruence.
Qed.

#[export] Hint Rewrite string_app_assoc trim_prefix_app trim_suffix_app : tbx.

(** *** Decimal round trip *)

Lemma digit_pretty (x : N) : (x < 10)%N ->
  is_digit (pretty_N_char x) = true /\ byte_val (pretty_N_char x) - 48 = Z.of_N x.
Proof.
  intros H. assert (x = 0 \/ x = 1 \/ x = 2 \/ x = 3 \/ x = 4 \/ x = 5 \/ x = 6 \/ x = 7 \/ x = 8 \/ x = 9)%N by lia.
  repeat (destruct H0 as [->|H0]; [by split|]). subst. by split.
Qed.

Lemma parse_digits_pretty_go (x : N) (s : string) :
  parse_digits 0 (pretty_N_go x s) = parse_digits (Z.of_N x) s.
Proof.
  revert s. induction (N.lt_wf_0 x) as [x _ IH]; intros s.
  destruct (decide (0 < x)%N) as [Hx|Hx].
  - rewrite pretty_N_go_step by done. rewrite IH by (apply N.div_lt; lia). simpl.
    destruct (digit_pretty (x mod 10)) as [-> Hv]; [apply N.mod_upper_bound; lia|].
    rewrite Hv. f_equal.
    rewrite <- (N2Z.inj_mul _ 10), <- N2Z.inj_add. f_equal.
    pose proof (N.div_mod' x 10). lia.
  - assert (x = 0)%N as -> by lia. by rewrite pretty_N_go_0.
Qed.

Lemma pretty_N_unfold (x : N) : pretty x = if decide (x = 0)%N then "0" else pretty_N_go x "".
Proof. reflexivity. Qed.

Lemma pretty_N_cons (x : N) : exists c s, pretty x = String c s /\ is_digit c = true.
Proof.
  rewrite pretty_N_unfold. case_decide; [subst; exists "0"%char, ""; done|].
  assert (forall s, (s = "" /\ (0 < x)%N) \/ (exists c t, s = String c t /\ is_digit c = true) ->
            exists c t, pretty_N_go x s = String c t /\ is_digit c = true) as Hgo.
  { clear H. induction (N.lt_wf_0 x) as [x _ IH]; intros s Hs.
    destruct (decide (0 < x)%N) as [Hx|Hx].
    - rewrite pretty_N_go_step by done. apply IH; [apply N.div_lt; lia|].
      right. eexists _, _. split; [done|].
      apply digit_pretty. apply N.mod_upper_bound. lia.
    - assert (x = 0)%N as -> by lia. rewrite pretty_N_go_0. destruct Hs as [[_ ?]|?]; [lia|done]. }
  apply Hgo. left. split; [done|lia].
Qed.

Lemma parse_digits_pretty (x : N) : parse_digits 0 (pretty x) = Some (Z.of_N x).
Proof.
  rewrite pretty_N_unfold. case_decide; [by subst|]. by rewrite parse_digits_pretty_go.
Qed.

Lemma itoa_nonneg (z : Z) : 0 <= z -> itoa z = pretty (Z.to_N z).
Proof. intros H. unfold itoa. destruct z; [done|done|lia]. Qed.

(** [strconv.Atoi] inverts [strconv.Itoa] on every non-negative [int]. *)
Lemma atoi_itoa (z : Z) : 0 <= z <= int64_max -> atoi (itoa z) = Some z.
Proof.
  intros H. rewrite itoa_nonneg by lia.
  destruct (pretty_N_cons (Z.to_N z)) as (c & s & E & Hc).
  pose proof (parse_digits_pretty (Z.to_N z)) as Hp. rewrite Z2N.id in Hp by lia.
  rewrite E in Hp |- *. unfold atoi.
  assert ((int64_min <=? z) && (z <=? int64_max) = true) as Hr
    by (unfold int64_min in *; apply andb_true_iff; split; apply Z.leb_le; lia).
  destruct c as [[] [] [] [] [] [] [] []]; try discriminate Hc;
    rewrite Hp; simpl; by rewrite Hr.
Qed.

Lemma itoa_inj (x y : Z) : itoa x = itoa y -> x = y.
Proof. apply (inj pretty). Qed.

(** *** Trimming *)

Fixpoint last_char (s : string) : option ascii :=
  match s with
  | EmptyString => None
  | String c EmptyString => Some c
  | String _ s' => last_char s'
  end.

Lemma last_char_app (t w : string) : w <> EmptyString -> last_char (t +:+ w) = last_char w.
Proof.
  intros Hw. induction t as [|c t IH]; [done|].
  change (last_char (String c (t +:+ w)) = last_char w). simpl.
  destruct (t +:+ w)%string eqn:E; [|done]. by destruct t, w.
Qed.

(** A byte no Unicode space starts or ends with. *)
Definition is_graph (c : ascii) : bool := (33 <=? byte_val c) && (byte_val c <=? 126).

Lemma spaces_first w : w ∈ spaces ->
  (match w with String a _ => negb (is_graph a) | _ => false end) = true.
Proof.
  assert (forallb (fun w => match w with String a _ => negb (is_graph a) | _ => false end) spaces = true)
    as H by (vm_compute; reflexivity).
  rewrite list_elem_of_In. rewrite forallb_forall in H. auto.
Qed.

Lemma spaces_last w : w ∈ spaces ->
  (match last_char w with Some a => negb (is_graph a) | None => false end) = true.
Proof.
  assert (forallb (fun w => match last_char w with Some a => negb (is_graph a) | _ => false end) spaces = true)
    as H by (vm_compute; reflexivity).
  rewrite list_elem_of_In. rewrite forallb_forall in H. apply H.
Qed.

Lemma trim_left_id n c s : is_graph c = true -> trim_left_n n (String c s) = String c s.
Proof.
  intros Hc. destruct n as [|n]; [done|]. cbn [trim_left_n].
  destruct (list_find _ spaces) as [[i w]|] eqn:E; [|done]. exfalso.
  apply list_find_Some in E as (Hw & Hp & _).
  apply list_elem_of_lookup_2, spaces_first in Hw.
  destruct w as [|a w]; [done|]. simpl in Hp. case_decide; [subst|done].
  by rewrite Hc in Hw.
Qed.

Lemma trim_right_id n s c : is_graph c = true -> last_char s = Some c -> trim_right_n n s = s.
Proof.
  intros Hc Hl. destruct n as [|n]; [done|]. cbn [trim_right_n].
  destruct (list_find _ spaces) as [[i w]|] eqn:E; [|done]. exfalso.
  apply list_find_Some in E as (Hw & Hp & _).
  apply list_elem_of_lookup_2, spaces_last in Hw.
  apply has_suffix_spec in Hp as [t ->]. rewrite last_char_app in Hl by (by intros ->).
  by rewrite Hl, Hc in Hw.
Qed.

(** Trimming leaves a string that starts and ends with a graphic byte alone. *)
Lemma trim_space_id c s d :
  is_graph c = true -> last_char (String c s) = Some d -> is_graph d = true ->
  trim_space (String c s) = String c s.
Proof.
  intros Hc Hl Hd. unfold trim_space. rewrite trim_left_id by done. by eapply trim_right_id.
Qed.

Lemma to_lower_ascii_idem c : to_lower_ascii (to_lower_ascii c) = to_lower_ascii c.
Proof. destruct c as [[] [] [] [] [] [] [] []]; vm_compute; reflexivity. Qed.

Lemma to_lower_idem s : to_lower (to_lower s) = to_lower s.
Proof. induction s as [|c s IH]; cbn; [done|]. by rewrite to_lower_ascii_idem, IH. Qed.
