(* ===== verification/GoNet.v ===== *)
(** * Go's [net] package as talosbox uses it

    A [net.IP], [net.IPMask] or [net.HardwareAddr] is a byte slice, modelled by
    a list of integers in 0..255; the empty list is [nil].  The parsers follow
    [net/netip.ParseAddr] and [net.ParseMAC] branch by branch. *)

From stdpp Require Import base list strings pretty.
From Stdlib Require Import Ascii ZArith Lia.
From S2P Require Import Prelude GoStrings.

Local Open Scope Z_scope.

Definition is_byte (z : Z) : Prop := 0 <= z < 256.

Abbreviation IP := (list Z) (only parsing).
Abbreviation HardwareAddr := (list Z) (only parsing).

Definition v4InV6Prefix : list Z := [0; 0; 0; 0; 0; 0; 0; 0; 0; 0; 255; 255].

(** [IP.To4] *)
Definition to4 (ip : IP) : IP :=
  match length ip with
  | 4%nat => ip
  | 16%nat => if decide (take 12 ip = v4InV6Prefix) then drop 12 ip else []
  | _ => []
  end.

(** [netip.parseIPv4Fields]: [val] and [digLen] are the octet being read. *)
Fixpoint v4_fields (val : Z) (digLen : nat) (fields : list Z) (s : string) : option (list Z) :=
  match s with
  | EmptyString => if decide (length fields < 3)%nat then None else Some (fields ++ [val])
  | String c s' =>
      if is_digit c then
        if bool_decide (digLen = 1%nat) && (val =? 0) then None
        else let val' := val * 10 + (byte_val c - 48) in
             if 255 <? val' then None else v4_fields val' (S digLen) fields s'
      else if decide (c = "."%char) then
        if bool_decide (digLen = 0%nat) || bool_decide (s' = EmptyString) then None
        else if decide (length fields = 3%nat) then None
        else v4_fields 0 0 (fields ++ [val]) s'
      else None
  end.

Definition parse_v4 (s : string) : option (list Z) := v4_fields 0 0 [] s.

(** The hexadecimal group at the head of [s]: digits read, value, rest. *)
Fixpoint v6_hex (off : nat) (acc : Z) (s : string) : option (nat * Z * string) :=
  match s with
  | EmptyString => Some (off, acc, EmptyString)
  | String c s' =>
      match hex_val c with
      | None => Some (off, acc, s)
      | Some v => if decide (3 < off)%nat then None else v6_hex (S off) (acc * 16 + v) s'
      end
  end.

(** The group loop of [netip.parseIPv6], at most eight groups: the bytes read,
    the position of the ellipsis, the unread rest. *)
Fixpoint v6_loop (n : nat) (bytes : list Z) (ellipsis : option nat) (s : string)
  : option (list Z * option nat * string) :=
  match n with
  | O => Some (bytes, ellipsis, s)
  | S n' =>
      match v6_hex 0 0 s with
      | None => None
      | Some (off, acc, rest) =>
          if decide (off = 0%nat) then None else
          let bytes' := bytes ++ [acc / 256; acc mod 256] in
          match rest with
          | String "." _ =>
              if bool_decide (ellipsis = None) && negb (bool_decide (length bytes = 12%nat)) then None
              else if decide (16 < length bytes + 4)%nat then None
              else match parse_v4 s with
                   | Some v4 => Some (bytes ++ v4, ellipsis, EmptyString)
                   | None => None
                   end
          | EmptyString => Some (bytes', ellipsis, EmptyString)
          | String ":" EmptyString => None
          | String ":" (String ":" rest2) =>
              match ellipsis with
              | Some _ => None
              | None => match rest2 with
                        | EmptyString => Some (bytes', Some (length bytes'), EmptyString)
                        | _ => v6_loop n' bytes' (Some (length bytes')) rest2
                        end
              end
          | String ":" rest1 => v6_loop n' bytes' ellipsis rest1
          | _ => None
          end
      end
  end.

(** [netip.parseIPv6] for an address without a zone; [net.ParseIP] refuses one
    with a zone. *)
Definition parse_v6 (s : string) : option (list Z) :=
  let leading := has_prefix s "::" in
  let body := if leading then drop_string 2 s else s in
  if leading && bool_decide (body = EmptyString) then Some (replicate 16 0)
  else match v6_loop 8 [] (if leading then Some 0%nat else None) body with
       | Some (bytes, ellipsis, EmptyString) =>
           if decide (length bytes < 16)%nat then
             match ellipsis with
             | None => None
             | Some e => Some (take e bytes ++ replicate (16 - length bytes) 0 ++ drop e bytes)
             end
           else match ellipsis with None => Some bytes | Some _ => None end
       | _ => None
       end.

(** The first of ['.'], [':'] and ['%'] decides the family ([netip.ParseAddr]). *)
Fixpoint addr_family (s : string) : option ascii :=
  match s with
  | EmptyString => None
  | String c s' =>
      if decide (c = "."%char \/ c = ":"%char \/ c = "%"%char) then Some c else addr_family s'
  end.

(** [net.ParseIP]: sixteen bytes, or [nil]. *)
Definition parse_ip (s : string) : IP :=
  match addr_family s with
  | Some "."%char => match parse_v4 s with Some v4 => v4InV6Prefix ++ v4 | None => [] end
  | Some ":"%char =>
      match cut "%"%char s with
      | Some _ => []
      | None => match parse_v6 s with Some ip => ip | None => [] end
      end
  | _ => []
  end.

(** [net.ParseIP(s).To4()] *)
Definition parse_ip4 (s : string) : IP := to4 (parse_ip s).

(** [IP.String] of a four-byte address *)
Definition ip_string (ip : IP) : string := join "." (itoa <$> ip).

(** [IP.Equal] *)
Definition ip_equal (a b : IP) : bool :=
  bool_decide (a = b) ||
  (bool_decide (length a = 4%nat) && bool_decide (b = v4InV6Prefix ++ a)) ||
  (bool_decide (length b = 4%nat) && bool_decide (a = v4InV6Prefix ++ b)).

(** ** Networks *)

Record IPNet := mkIPNet { net_ip : IP; net_mask : list Z }.

#[global] Instance IPNet_eq_dec : EqDecision IPNet.
Proof. solve_decision. Defined.

(** [net.CIDRMask(ones, 8 * len)] *)
Definition cidr_mask (ones : Z) (len : nat) : list Z :=
  (fun i : nat => let k := Z.max 0 (Z.min 8 (ones - 8 * Z.of_nat i)) in 256 - 2 ^ (8 - k)) <$> seq 0 len.

(** [simpleMaskLength]: the number of leading one bits, [None] when a one
    follows a zero. *)
Fixpoint byte_ones (fuel : nat) (b : Z) : Z :=
  match fuel with
  | O => 0
  | S f => if 128 <=? b then 1 + byte_ones f (b * 2 mod 256) else 0
  end.

Fixpoint simple_mask_length (mask : list Z) : option Z :=
  match mask with
  | [] => Some 0
  | b :: mask' =>
      if b =? 255 then (fun n => 8 + n) <$> simple_mask_length mask'
      else let n := byte_ones 8 b in
           if (b =? 256 - 2 ^ (8 - n)) && forallb (fun v => v =? 0) mask' then Some n else None
  end.

(** [IPMask.Size] *)
Definition mask_size (mask : list Z) : Z * Z :=
  match simple_mask_length mask with
  | Some ones => (ones, 8 * Z.of_nat (length mask))
  | None => (0, 0)
  end.

Definition and_bytes (a b : list Z) : list Z := zip_with Z.land a b.

(** [IP.Mask] *)
Definition ip_mask (ip : IP) (mask : list Z) : IP :=
  let mask' := if bool_decide (length mask = 16%nat) && bool_decide (length ip = 4%nat) &&
                  bool_decide (take 12 mask = replicate 12 255) then drop 12 mask else mask in
  let ip' := if bool_decide (length mask' = 4%nat) && bool_decide (length ip = 16%nat) &&
                bool_decide (take 12 ip = v4InV6Prefix) then drop 12 ip else ip in
  if decide (length ip' = length mask') then and_bytes ip' mask' else [].

Definition networkNumberAndMask (n : IPNet) : IP * list Z :=
  let ip := if decide (to4 (net_ip n) = []) then net_ip n else to4 (net_ip n) in
  if bool_decide (to4 (net_ip n) = []) && negb (bool_decide (length ip = 16%nat)) then ([], [])
  else match length (net_mask n) with
       | 4%nat => if decide (length ip = 4%nat) then (ip, net_mask n) else ([], [])
       | 16%nat => (ip, if decide (length ip = 4%nat) then drop 12 (net_mask n) else net_mask n)
       | _ => ([], [])
       end.

(** [IPNet.Contains] *)
Definition net_contains (n : IPNet) (ip : IP) : bool :=
  let '(nn, m) := networkNumberAndMask n in
  let x := if decide (to4 ip = []) then ip else to4 ip in
  if decide (length x = length nn) then bool_decide (and_bytes nn m = and_bytes x m) else false.

(** [net.ParseCIDR]: the address, and the network; the prefix length is
    decimal digits only. *)
Definition parse_cidr (s : string) : option (IP * IPNet) :=
  match cut "/"%char s with
  | None => None
  | Some (addr, bits) =>
      let ip := parse_ip addr in
      let len := match addr_family addr with Some "."%char => 4%nat | _ => 16%nat end in
      match parse_digits 0 bits with
      | Some n =>
          if bool_decide (ip <> []) && bool_decide (bits <> EmptyString) && (n <=? 8 * Z.of_nat len)
          then let m := cidr_mask n len in Some (ip, mkIPNet (ip_mask ip m) m)
          else None
      | None => None
      end
  end.

(** ** Hardware addresses *)

(** [xtoi2]: two hex digits, followed by [e] when more input follows. *)
Definition xtoi2 (s : string) (e : ascii) : option Z :=
  match s with
  | String a (String b rest) =>
      match rest with
      | String c _ => if decide (c = e) then
                        match hex_val a, hex_val b with
                        | Some x, Some y => Some (x * 16 + y)
                        | _, _ => None
                        end
                      else None
      | EmptyString => match hex_val a, hex_val b with
                       | Some x, Some y => Some (x * 16 + y)
                       | _, _ => None
                       end
      end
  | _ => None
  end.

(** The colon and dash forms: [n] octets, three characters apart. *)
Fixpoint parse_mac_colon (n : nat) (sep : ascii) (s : string) : option (list Z) :=
  match n with
  | O => Some []
  | S n' => match xtoi2 s sep with
            | Some b => (fun l => b :: l) <$> parse_mac_colon n' sep (drop_string 3 s)
            | None => None
            end
  end.

(** The dotted form: [n] groups of two octets, five characters apart. *)
Fixpoint parse_mac_dot (n : nat) (s : string) : option (list Z) :=
  match n with
  | O => Some []
  | S n' => match xtoi2 (take_string 2 s) "000"%char, xtoi2 (drop_string 2 s) "."%char with
            | Some a, Some b => (fun l => a :: b :: l) <$> parse_mac_dot n' (drop_string 5 s)
            | _, _ => None
            end
  end.

Definition byte_at (i : nat) (s : string) : option ascii := String.get i s.

(** [net.ParseMAC] *)
Definition parse_mac (s : string) : option HardwareAddr :=
  let len := String.length s in
  if decide (len < 14)%nat then None
  else match byte_at 2 s with
       | Some ":"%char | Some "-"%char =>
           let n := ((len + 1) / 3)%nat in
           if bool_decide ((len + 1) mod 3 = 0)%nat && bool_decide (n = 6 \/ n = 8 \/ n = 20)%nat
           then parse_mac_colon n (from_option id ":"%char (byte_at 2 s)) s else None
       | _ =>
           match byte_at 4 s with
           | Some "."%char =>
               let n := (2 * (len + 1) / 5)%nat in
               if bool_decide ((len + 1) mod 5 = 0)%nat && bool_decide (n = 6 \/ n = 8 \/ n = 20)%nat
               then parse_mac_dot (n / 2) s else None
           | _ => None
           end
       end.

(** [HardwareAddr.String] *)
Definition mac_string (mac : HardwareAddr) : string := join ":" (hex2 <$> mac).

(** ** Big-endian integers *)

Definition be16 (a b : Z) : Z := a * 256 + b.
Definition put16 (v : Z) : list Z := [v / 256 mod 256; v mod 256].
Definition put32 (v : Z) : list Z := [v / 2 ^ 24 mod 256; v / 2 ^ 16 mod 256; v / 2 ^ 8 mod 256; v mod 256].

(** ** Slices of a packet

    Every use in the components is behind a length check, so an index is never
    out of range where the source would panic. *)

Definition at_ (l : list Z) (i : nat) : Z := default 0 (l !! i).
Definition slice (l : list Z) (a b : nat) : list Z := take (b - a) (drop a l).
Definition u16 (l : list Z) (i : nat) : Z := be16 (at_ l i) (at_ l (S i)).
Definition u32 (l : list Z) (i : nat) : Z := u16 l i * 65536 + u16 l (i + 2).

(** [copy(dst[at:], src)] for [src] that fits. *)
Definition blit (l : list Z) (i : nat) (src : list Z) : list Z := take i l ++ src ++ drop (i + length src) l.

Lemma at_app (a b : list Z) i : (i < length a)%nat -> at_ (a ++ b) i = at_ a i.
Proof. intros H. unfold at_. by rewrite lookup_app_l. Qed.

Lemma slice_app (a b : list Z) i j : (i <= j <= length a)%nat -> slice (a ++ b) i j = slice a i j.
Proof.
  intros H. unfold slice. rewrite drop_app_le by lia. rewrite take_app_le; [done|]. rewrite length_drop. lia.
Qed.

Lemma at_app_ge (a b : list Z) i : (length a <= i)%nat -> at_ (a ++ b) i = at_ b (i - length a).
Proof. intros H. unfold at_. by rewrite lookup_app_r. Qed.

(** A word inside the middle part does not depend on the others. *)
Lemma u16_window (a b c : list Z) i :
  (length a <= i)%nat -> (S i < length a + length b)%nat -> u16 (a ++ b ++ c) i = u16 b (i - length a).
Proof.
  intros H1 H2. unfold u16. rewrite (at_app_ge a _ i), (at_app_ge a _ (S i)) by lia. replace (S i - length a)%nat with (S (i - length a)) by lia.
  by rewrite !at_app by lia.
Qed.

Lemma slice_app_ge (l1 l2 : list Z) a b :
  (length l1 <= a)%nat -> slice (l1 ++ l2) a b = slice l2 (a - length l1) (b - length l1).
Proof. intros H. unfold slice. rewrite drop_app_ge by done. f_equal. lia. Qed.

(** ** Round trips *)

(** The decimal form of an octet is one to three digits. *)
Lemma itoa_octet (n : Z) : is_byte n ->
  (n < 10 /\ itoa n = String (pretty_N_char (Z.to_N n)) "") \/
  (10 <= n < 100 /\ itoa n = String (pretty_N_char (Z.to_N n / 10)) (String (pretty_N_char (Z.to_N n mod 10)) "")) \/
  (100 <= n /\ itoa n = String (pretty_N_char (Z.to_N n / 100))
     (String (pretty_N_char (Z.to_N n / 10 mod 10)) (String (pretty_N_char (Z.to_N n mod 10)) ""))).
Proof.
  unfold is_byte. intros H. rewrite itoa_nonneg by lia. rewrite pretty_N_unfold.
  case_decide as E; [left; split; [lia|by rewrite E]|].
  assert (0 < Z.to_N n)%N by lia. rewrite pretty_N_go_step by done.
  destruct (decide (n < 10)).
  - left. split; [done|]. rewrite N.div_small, N.mod_small by lia. done.
  - right. assert (0 < Z.to_N n / 10)%N by (apply N.div_str_pos; lia).
    rewrite pretty_N_go_step by done. rewrite N.Div0.div_div.
    destruct (decide (n < 100)).
    + left. split; [lia|]. rewrite (N.div_small _ (10 * 10)) by lia.
      rewrite (N.mod_small (Z.to_N n / 10)) by (apply N.Div0.div_lt_upper_bound; lia). done.
    + right. split; [lia|]. assert (0 < Z.to_N n / (10 * 10))%N by (apply N.div_str_pos; lia).
      rewrite pretty_N_go_step by done. rewrite N.Div0.div_div.
      rewrite (N.div_small _ (10 * 10 * 10)) by lia.
      rewrite (N.mod_small (Z.to_N n / (10 * 10))) by (apply N.Div0.div_lt_upper_bound; lia). done.
Qed.

Lemma v4_fields_digit (k : N) (v : Z) (d : nat) (fields : list Z) (rest : string) :
  (k < 10)%N -> (d = 1%nat -> v <> 0) -> v * 10 + Z.of_N k <= 255 ->
  v4_fields v d fields (String (pretty_N_char k) rest) = v4_fields (v * 10 + Z.of_N k) (S d) fields rest.
Proof.
  intros Hk Hd Hv. simpl. destruct (digit_pretty k Hk) as [-> ->].
  replace (bool_decide (d = 1%nat) && (v =? 0)) with false.
  - rewrite (proj2 (Z.ltb_ge _ _)) by lia. done.
  - symmetry. apply andb_false_iff. destruct (decide (d = 1%nat)); [right; apply Z.eqb_neq; auto|left].
    by apply bool_decide_eq_false.
Qed.

(** Reading the decimal form of an octet from a fresh field. *)
Lemma v4_fields_octet (n : Z) (fields : list Z) (rest : string) :
  is_byte n -> exists d, v4_fields 0 0 fields (itoa n +:+ rest) = v4_fields n (S d) fields rest.
Proof.
  intros H. destruct (itoa_octet n H) as [[Hn ->]|[[Hn ->]|[Hn ->]]]; unfold is_byte in H.
  - exists 0%nat. change ((String ?a "" +:+ rest)%string) with (String a rest).
    rewrite v4_fields_digit by lia. f_equal; lia.
  - exists 1%nat. change ((String ?a (String ?b "") +:+ rest)%string) with (String a (String b rest)).
    assert (Z.to_N n / 10 <> 0)%N by (intros E; apply N.div_small_iff in E; lia).
    rewrite !v4_fields_digit by div_lia. f_equal. div_lia.
  - exists 2%nat.
    change ((String ?a (String ?b (String ?c "")) +:+ rest)%string) with (String a (String b (String c rest))).
    assert (Z.to_N n / 100 <> 0)%N by (intros E; apply N.div_small_iff in E; lia).
    rewrite !v4_fields_digit by div_lia. f_equal. div_lia.
Qed.

Lemma v4_fields_dot (n : Z) (d : nat) (fields : list Z) (c : ascii) (rest : string) :
  (length fields < 3)%nat ->
  v4_fields n (S d) fields (String "." (String c rest)) = v4_fields 0 0 (fields ++ [n]) (String c rest).
Proof. intros H. simpl. rewrite decide_False by lia. done. Qed.

Lemma itoa_cons (n : Z) : 0 <= n -> exists c s, itoa n = String c s /\ is_digit c = true.
Proof. intros H. rewrite itoa_nonneg by done. apply pretty_N_cons. Qed.

Lemma v4_fields_octet_dot (n m : Z) (fields : list Z) (rest : string) :
  is_byte n -> 0 <= m -> (length fields < 3)%nat ->
  v4_fields 0 0 fields (itoa n +:+ "." +:+ itoa m +:+ rest) =
  v4_fields 0 0 (fields ++ [n]) (itoa m +:+ rest).
Proof.
  intros Hn Hm Hf. destruct (v4_fields_octet n fields ("." +:+ itoa m +:+ rest) Hn) as [d ->].
  destruct (itoa_cons m Hm) as (c & s & -> & _). by apply v4_fields_dot.
Qed.

Lemma parse_v4_string (a b c d : Z) :
  is_byte a -> is_byte b -> is_byte c -> is_byte d ->
  parse_v4 (ip_string [a; b; c; d]) = Some [a; b; c; d].
Proof.
  unfold is_byte. intros Ha Hb Hc Hd.
  change (ip_string [a; b; c; d]) with
    (itoa a +:+ "." +:+ itoa b +:+ "." +:+ itoa c +:+ "." +:+ itoa d)%string.
  unfold parse_v4. rewrite <- (string_app_nil_r (itoa d)).
  rewrite !v4_fields_octet_dot by (unfold is_byte; simpl; lia).
  destruct (v4_fields_octet d ((([] ++ [a]) ++ [b]) ++ [c]) "" Hd) as [k ->]. done.
Qed.

Lemma addr_family_digit (k : N) (s : string) :
  (k < 10)%N -> addr_family (String (pretty_N_char k) s) = addr_family s.
Proof.
  intros Hk. simpl. destruct (digit_pretty k Hk) as [Hd _].
  rewrite decide_False; [done|]. intros [E|[E|E]]; rewrite E in Hd; discriminate Hd.
Qed.

Lemma addr_family_octet (n : Z) (s : string) : is_byte n -> addr_family (itoa n +:+ s) = addr_family s.
Proof.
  intros H. destruct (itoa_octet n H) as [[Hn ->]|[[Hn ->]|[Hn ->]]]; unfold is_byte in H.
  - change ((String ?a "" +:+ s)%string) with (String a s). apply addr_family_digit. lia.
  - change ((String ?a (String ?b "") +:+ s)%string) with (String a (String b s)).
    rewrite !addr_family_digit; [done|apply N.mod_upper_bound; lia|apply N.Div0.div_lt_upper_bound; lia].
  - change ((String ?a (String ?b (String ?c "")) +:+ s)%string) with (String a (String b (String c s))).
    rewrite !addr_family_digit; [done|apply N.mod_upper_bound; lia..|apply N.Div0.div_lt_upper_bound; lia].
Qed.

(** [net.ParseIP] inverts [IP.String] on IPv4 addresses. *)
Lemma parse_ip4_string (a b c d : Z) :
  is_byte a -> is_byte b -> is_byte c -> is_byte d ->
  parse_ip4 (ip_string [a; b; c; d]) = [a; b; c; d].
Proof.
  intros Ha Hb Hc Hd. unfold parse_ip4, parse_ip.
  assert (addr_family (ip_string [a; b; c; d]) = Some "."%char) as ->.
  { change (ip_string [a; b; c; d]) with (itoa a +:+ ("." +:+ itoa b +:+ "." +:+ itoa c +:+ "." +:+ itoa d))%string.
    by rewrite addr_family_octet. }
  by rewrite parse_v4_string.
Qed.

(** *** Hardware addresses *)

Lemma hex_digit_val (v : Z) : 0 <= v < 16 ->
  hex_val (hex_digit v) = Some v /\ is_graph (hex_digit v) = true.
Proof.
  intros H.
  assert (forallb (fun v => bool_decide (hex_val (hex_digit v) = Some v) && is_graph (hex_digit v))
            (Z.of_nat <$> seq 0 16) = true) as Hall by (vm_compute; reflexivity).
  rewrite forallb_forall in Hall. specialize (Hall v).
  rewrite andb_true_iff, bool_decide_eq_true in Hall. apply Hall, list_elem_of_In.
  rewrite <- (Z2Nat.id v) by lia. apply list_elem_of_fmap_2, elem_of_seq. lia.
Qed.

Lemma xtoi2_hex2 (b : Z) (e : ascii) (rest : string) :
  is_byte b -> (rest = EmptyString \/ exists r, rest = String e r) ->
  xtoi2 (hex2 b +:+ rest) e = Some b.
Proof.
  unfold is_byte. intros Hb Hr. unfold hex2.
  change ((String ?x (String ?y "") +:+ rest)%string) with (String x (String y rest)).
  destruct (hex_digit_val (b / 16)) as [H1 _]; [div_lia|].
  destruct (hex_digit_val (b mod 16)) as [H2 _]; [div_lia|].
  destruct Hr as [->|[r ->]]; simpl; rewrite H1, H2, ?decide_True by done; f_equal; div_lia.
Qed.

(** The canonical six-octet form. *)
Lemma mac_string_six (a b c d e f : Z) :
  mac_string [a; b; c; d; e; f] =
  (hex2 a +:+ ":" +:+ hex2 b +:+ ":" +:+ hex2 c +:+ ":" +:+ hex2 d +:+ ":" +:+ hex2 e +:+ ":" +:+ hex2 f)%string.
Proof. reflexivity. Qed.

Lemma parse_mac_colon_cons n b rest :
  is_byte b -> parse_mac_colon (S n) ":" (hex2 b +:+ ":" +:+ rest) =
               ((fun l => b :: l) <$> parse_mac_colon n ":" rest).
Proof.
  intros Hb. cbn [parse_mac_colon]. rewrite xtoi2_hex2 by (done || (right; by exists rest)). done.
Qed.

(** [net.ParseMAC] inverts [HardwareAddr.String] on six-octet addresses, and
    [strings.TrimSpace] leaves the canonical form alone. *)
Lemma parse_mac_string (m : HardwareAddr) :
  length m = 6%nat -> Forall is_byte m -> parse_mac (trim_space (mac_string m)) = Some m.
Proof.
  intros Hl Hm. do 6 (destruct m as [|? m]; [done|]). destruct m; [|done]. clear Hl.
  rewrite !Forall_cons in Hm. destruct Hm as (H1 & H2 & H3 & H4 & H5 & H6 & _).
  assert (trim_space (mac_string [z; z0; z1; z2; z3; z4]) = mac_string [z; z0; z1; z2; z3; z4]) as ->.
  { eapply (trim_space_id (hex_digit (z / 16)) _ (hex_digit (z4 mod 16))); try reflexivity;
      apply hex_digit_val; unfold is_byte in *; div_lia. }
  unfold parse_mac. rewrite decide_False by (simpl; lia).
  change (byte_at 2 _) with (Some ":"%char). cbv beta iota.
  change (String.length (mac_string [z; z0; z1; z2; z3; z4])) with 17%nat.
  change ((17 + 1) / 3)%nat with 6%nat. change ((17 + 1) mod 3)%nat with 0%nat.
  rewrite !bool_decide_eq_true_2 by auto. cbn [andb from_option id].
  rewrite mac_string_six.
  rewrite !parse_mac_colon_cons by done. cbn [parse_mac_colon].
  rewrite <- (string_app_nil_r (hex2 z4)). rewrite xtoi2_hex2 by (done || by left). done.
Qed.

Lemma mac_string_inj (m1 m2 : HardwareAddr) :
  length m1 = 6%nat -> length m2 = 6%nat -> Forall is_byte m1 -> Forall is_byte m2 ->
  mac_string m1 = mac_string m2 -> m1 = m2.
Proof.
  intros L1 L2 H1 H2 E. pose proof (parse_mac_string m1 L1 H1) as P.
  rewrite E, (parse_mac_string m2 L2 H2) in P. by injection P.
Qed.

Lemma hex_val_range c v : hex_val c = Some v -> 0 <= v < 16.
Proof.
  unfold hex_val, is_digit. intros H. repeat case_head_in H; simplify_eq; bool_to_prop; lia.
Qed.

Lemma xtoi2_byte s e v : xtoi2 s e = Some v -> is_byte v.
Proof.
  unfold xtoi2, is_byte. intros H. repeat case_head_in H; simplify_eq;
    repeat match goal with E : hex_val _ = Some _ |- _ => apply hex_val_range in E end; lia.
Qed.

Lemma parse_mac_bytes s m : parse_mac s = Some m -> Forall is_byte m.
Proof.
  assert (forall n sep s m, parse_mac_colon n sep s = Some m -> Forall is_byte m) as Hc.
  { induction n as [|n IH]; intros sep s0 m0; cbn [parse_mac_colon]; [intros [= <-]; constructor|].
    destruct (xtoi2 s0 sep) as [b|] eqn:E; [|done]. destruct (parse_mac_colon n sep _) as [l|] eqn:El; [|done].
    intros [= <-]. constructor; [by eapply xtoi2_byte|by eapply IH]. }
  assert (forall n s m, parse_mac_dot n s = Some m -> Forall is_byte m) as Hd.
  { induction n as [|n IH]; intros s0 m0; cbn [parse_mac_dot]; [intros [= <-]; constructor|].
    destruct (xtoi2 (take_string 2 s0) _) as [a|] eqn:Ea; [|done]. destruct (xtoi2 (drop_string 2 s0) _) as [b|] eqn:Eb; [|done].
    destruct (parse_mac_dot n _) as [l|] eqn:El; [|done].
    intros [= <-]. constructor; [by eapply xtoi2_byte|]. constructor; [by eapply xtoi2_byte|by eapply IH]. }
  unfold parse_mac. cbv zeta. intros H. repeat case_head_in H; try discriminate H; eauto.
Qed.
