(* ===== verification/Sha256.v ===== *)
(** * SHA-256 and FNV-1a, the digests the program derives names from

    [crypto/sha256.Sum256] and [hash/fnv.New32a], executable on 32-bit words. *)

From stdpp Require Import base list.
From Stdlib Require Import ZArith.
From S2P Require Import Prelude GoNet.

Local Open Scope Z_scope.

Definition w32 (z : Z) : Z := Z.land z 0xffffffff.
Definition rotr (n x : Z) : Z := Z.lor (Z.shiftr x n) (w32 (Z.shiftl x (32 - n))).

(** The constants are the first 32 bits of the fractional parts of the roots of
    the first primes (FIPS 180-4): cube roots for the rounds, square roots for the
    initial value.  [cube_root n bits] is the integer cube root, bit by bit. *)
Fixpoint cube_root (bits : nat) (acc n : Z) : Z :=
  match bits with
  | O => acc
  | S bits' => let try := acc + 2 ^ Z.of_nat bits' in
               cube_root bits' (if try * try * try <=? n then try else acc) n
  end.

Definition is_prime (n : nat) : bool := forallb (fun d => negb (Nat.eqb (n mod d) 0)) (seq 2 (n - 2)).
Definition primes : list Z := Z.of_nat <$> filter (fun n => is_prime n = true) (seq 2 310).

Definition sha_k : list Z := Eval vm_compute in (fun p => w32 (cube_root 36 0 (p * 2 ^ 96))) <$> primes.

Definition sha_init : list Z := Eval vm_compute in (fun p => w32 (Z.sqrt (p * 2 ^ 64))) <$> take 8 primes.

(** The message with its padding: 0x80, zeros, the bit length in 64 bits. *)
Definition sha_pad (msg : list Z) : list Z :=
  let n := Z.of_nat (length msg) in
  msg ++ 128 :: replicate (Z.to_nat ((55 - n) mod 64)) 0 ++ put32 (n * 8 / 2 ^ 32) ++ put32 (n * 8).

Fixpoint sha_words (bytes : list Z) : list Z :=
  match bytes with
  | a :: b :: c :: d :: rest => (a * 2 ^ 24 + b * 2 ^ 16 + c * 2 ^ 8 + d) :: sha_words rest
  | _ => []
  end.

(** The message schedule, newest word first. *)
Fixpoint sha_schedule (n : nat) (w : list Z) : list Z :=
  match n with
  | O => w
  | S n' =>
      let word i := default 0 (w !! i) in
      let s0 := Z.lxor (Z.lxor (rotr 7 (word 14%nat)) (rotr 18 (word 14%nat))) (Z.shiftr (word 14%nat) 3) in
      let s1 := Z.lxor (Z.lxor (rotr 17 (word 1%nat)) (rotr 19 (word 1%nat))) (Z.shiftr (word 1%nat) 10) in
      sha_schedule n' (w32 (word 15%nat + s0 + word 6%nat + s1) :: w)
  end.

Definition sha_round (h : list Z) (kw : Z * Z) : list Z :=
  match h with
  | [a; b; c; d; e; f; g; hh] =>
      let s1 := Z.lxor (Z.lxor (rotr 6 e) (rotr 11 e)) (rotr 25 e) in
      let ch := Z.lxor (Z.land e f) (Z.land (Z.lxor e 0xffffffff) g) in
      let t1 := w32 (hh + s1 + ch + kw.1 + kw.2) in
      let s0 := Z.lxor (Z.lxor (rotr 2 a) (rotr 13 a)) (rotr 22 a) in
      let maj := Z.lxor (Z.lxor (Z.land a b) (Z.land a c)) (Z.land b c) in
      let t2 := w32 (s0 + maj) in
      [w32 (t1 + t2); a; b; c; w32 (d + t1); e; f; g]
  | _ => h
  end.

Definition sha_block (h : list Z) (block : list Z) : list Z :=
  let w := reverse (sha_schedule 48 (reverse (sha_words block))) in
  zip_with (fun x y => w32 (x + y)) h (foldl sha_round h (zip sha_k w)).

Fixpoint sha_blocks (n : nat) (h : list Z) (bytes : list Z) : list Z :=
  match n with
  | O => h
  | S n' => sha_blocks n' (sha_block h (take 64 bytes)) (drop 64 bytes)
  end.

Definition sha256 (msg : list Z) : list Z :=
  let padded := sha_pad msg in
  concat (put32 <$> sha_blocks (length padded / 64) sha_init padded).

(** FNV-1a over 32 bits. *)
Definition fnv32a (msg : list Z) : Z :=
  foldl (fun h b => w32 (Z.lxor h b * 16777619)) 2166136261 msg.

Lemma put32_bytes v : Forall is_byte (put32 v) /\ length (put32 v) = 4%nat.
Proof. split; [|done]. unfold put32, is_byte. repeat constructor; apply Z.mod_pos_bound; lia. Qed.

Lemma sha256_bytes msg : Forall is_byte (sha256 msg).
Proof.
  unfold sha256. apply Forall_concat, Forall_fmap, Forall_forall. intros v _. apply put32_bytes.
Qed.

Lemma sha_block_length h block : length h = 8%nat -> length (sha_block h block) = 8%nat.
Proof.
  intros Hh. unfold sha_block. rewrite length_zip_with.
  assert (forall l h, length h = 8%nat -> length (foldl sha_round h l) = 8%nat) as Hf.
  { induction l as [|kw l IH]; intros h0 H0; [done|]. cbn [foldl]. apply IH.
    do 8 (destruct h0 as [|? h0]; [discriminate H0|]). by destruct h0. }
  rewrite Hf, Hh by done. done.
Qed.

Lemma sha256_length msg : length (sha256 msg) = 32%nat.
Proof.
  unfold sha256. assert (forall n h b, length h = 8%nat -> length (sha_blocks n h b) = 8%nat) as Hb.
  { induction n as [|n IH]; intros h b Hh; [done|]. apply IH. by apply sha_block_length. }
  specialize (Hb (length (sha_pad msg) / 64)%nat sha_init (sha_pad msg) eq_refl).
  set (l := sha_blocks _ _ _) in *. clearbody l.
  do 8 (destruct l as [|? l]; [discriminate Hb|]). by destruct l.
Qed.

(** The FIPS 180-2 test vector for "abc", and FNV-1a of "a". *)
Example sha256_abc :
  sha256 [97; 98; 99] = [186; 120; 22; 191; 143; 1; 207; 234; 65; 65; 64; 222; 93; 174; 34; 35;
                         176; 3; 97; 163; 150; 23; 122; 156; 180; 16; 255; 97; 242; 0; 21; 173].
Proof. vm_compute. reflexivity. Qed.

Example fnv32a_a : fnv32a [97] = 0xe40c292c.
Proof. vm_compute. reflexivity. Qed.
