(* ===== verification/Digest.v ===== *)
(** * Content digests and registry paths ([internal/mirror]: the references of mirror.go
      and check.go)

    SHA-512 next to [Sha256], the references that name content by its digest, and the
    request paths of the registry protocol.  The regular expressions of mirror.go are
    functions here: each says which strings match and what its groups hold. *)

From stdpp Require Import base list strings.
From Stdlib Require Import Ascii ZArith Lia.
From S2P Require Import Prelude GoStrings GoNet Sha256.

Local Open Scope Z_scope.

(** ** SHA-512 ([crypto/sha512.Sum512]) on 64-bit words *)

Module Sha512.

Definition w64 (z : Z) : Z := Z.land z 0xffffffffffffffff.
Definition rotr64 (n x : Z) : Z := Z.lor (Z.shiftr x n) (w64 (Z.shiftl x (64 - n))).
Definition put64 (v : Z) : list Z := put32 (v / 2 ^ 32) ++ put32 v.

(** The first 64 bits of the fractional parts of the roots of the first 80 primes *)
Definition primes : list Z := Z.of_nat <$> filter (fun n => is_prime n = true) (seq 2 408).
Definition k : list Z := Eval vm_compute in (fun p => w64 (cube_root 68 0 (p * 2 ^ 192))) <$> primes.
Definition init : list Z := Eval vm_compute in (fun p => w64 (Z.sqrt (p * 2 ^ 128))) <$> take 8 primes.

Definition pad (msg : list Z) : list Z :=
  let n := Z.of_nat (length msg) in
  msg ++ 128 :: replicate (Z.to_nat ((111 - n) mod 128)) 0 ++ put64 0 ++ put64 (n * 8).

Fixpoint words (bytes : list Z) : list Z :=
  match bytes with
  | a :: b :: c :: d :: e :: f :: g :: h :: rest =>
      (a * 2 ^ 56 + b * 2 ^ 48 + c * 2 ^ 40 + d * 2 ^ 32 + e * 2 ^ 24 + f * 2 ^ 16 + g * 2 ^ 8 + h) :: words rest
  | _ => []
  end.

(** The message schedule, newest word first *)
Fixpoint schedule (n : nat) (w : list Z) : list Z :=
  match n with
  | O => w
  | S n' =>
      let word i := default 0 (w !! i) in
      let s0 := Z.lxor (Z.lxor (rotr64 1 (word 14%nat)) (rotr64 8 (word 14%nat))) (Z.shiftr (word 14%nat) 7) in
      let s1 := Z.lxor (Z.lxor (rotr64 19 (word 1%nat)) (rotr64 61 (word 1%nat))) (Z.shiftr (word 1%nat) 6) in
      schedule n' (w64 (word 15%nat + s0 + word 6%nat + s1) :: w)
  end.

Definition round (h : list Z) (kw : Z * Z) : list Z :=
  match h with
  | [a; b; c; d; e; f; g; hh] =>
      let s1 := Z.lxor (Z.lxor (rotr64 14 e) (rotr64 18 e)) (rotr64 41 e) in
      let ch := Z.lxor (Z.land e f) (Z.land (Z.lxor e 0xffffffffffffffff) g) in
      let t1 := w64 (hh + s1 + ch + kw.1 + kw.2) in
      let s0 := Z.lxor (Z.lxor (rotr64 28 a) (rotr64 34 a)) (rotr64 39 a) in
      let maj := Z.lxor (Z.lxor (Z.land a b) (Z.land a c)) (Z.land b c) in
      let t2 := w64 (s0 + maj) in
      [w64 (t1 + t2); a; b; c; w64 (d + t1); e; f; g]
  | _ => h
  end.

Definition block (h : list Z) (b : list Z) : list Z :=
  let w := reverse (schedule 64 (reverse (words b))) in
  zip_with (fun x y => w64 (x + y)) h (foldl round h (zip k w)).

Fixpoint blocks (n : nat) (h : list Z) (bytes : list Z) : list Z :=
  match n with
  | O => h
  | S n' => blocks n' (block h (take 128 bytes)) (drop 128 bytes)
  end.

Definition sha512 (msg : list Z) : list Z :=
  let padded := pad msg in
  concat (put64 <$> blocks (length padded / 128) init padded).

(** The test vector of FIPS 180-4 for [abc] *)
Example sha512_abc : take 8 (sha512 [97; 98; 99]) = [221; 175; 53; 161; 147; 97; 122; 186] /\ length (sha512 [97; 98; 99]) = 64%nat.
Proof. vm_compute. done. Qed.

End Sha512.

Definition hex_of (bytes : list Z) : string := foldr (fun b s => (hex2 b +:+ s)%string) EmptyString bytes.

Definition manifestSHA256 (data : string) : string := hex_of (sha256 (bytes_of_string data)).
Definition manifestSHA512 (data : string) : string := hex_of (Sha512.sha512 (bytes_of_string data)).

(** ** References by digest *)

Fixpoint all_chars (f : ascii -> bool) (s : string) : bool := match s with EmptyString => true | String c s => f c && all_chars f s end.

Definition is_letter (c : ascii) : bool := is_lower c || is_upper c.
Definition is_alnum (c : ascii) : bool := is_letter c || is_digit c.
Definition is_hex (c : ascii) : bool := is_digit c || ((97 <=? byte_val c) && (byte_val c <=? 102)) || ((65 <=? byte_val c) && (byte_val c <=? 70)).

Definition is_joint (c : ascii) : bool := existsb (Ascii.eqb c) ["+"; "."; "_"; "-"]%char.

(** Components of letters and digits that start with a letter, joined by one of plus, dot,
    underscore and minus; [start] where a component begins *)
Fixpoint is_algorithm (start : bool) (s : string) : bool :=
  match s with
  | EmptyString => negb start
  | String c s =>
      if start then is_letter c && is_algorithm false s
      else if is_alnum c then is_algorithm false s
      else is_joint c && is_algorithm true s
  end.

(** [digestRefRe] *)
Definition splitDigestReference (reference : string) : option (string * string) :=
  match cut ":" reference with
  | Some (algorithm, encoded) =>
      if is_algorithm true algorithm && negb (String.eqb encoded "") && all_chars is_hex encoded then Some (to_lower algorithm, to_lower encoded) else None
  | None => None
  end.

Definition isDigestReference (reference : string) : bool := bool_decide (is_Some (splitDigestReference reference)).

(** Why a reference is not accepted *)
Inductive digest_error := InvalidReference | UnsupportedAlgorithm (algorithm : string) | ContentIs (digest : string).

(** The two algorithms the mirror verifies, with the length of their digests *)
Definition digest_of (algorithm data : string) : option string :=
  if String.eqb algorithm "sha256" then Some (manifestSHA256 data)
  else if String.eqb algorithm "sha512" then Some (manifestSHA512 data) else None.
Definition digest_length (algorithm : string) : option nat :=
  if String.eqb algorithm "sha256" then Some 64%nat else if String.eqb algorithm "sha512" then Some 128%nat else None.

Definition checkedSupportedDigest (reference : string) : result digest_error (string * string) :=
  match splitDigestReference reference with
  | None => Err InvalidReference
  | Some (algorithm, encoded) =>
      match digest_length algorithm with
      | None => Err (UnsupportedAlgorithm algorithm)
      | Some n => if bool_decide (String.length encoded = n) then Ok (algorithm, encoded) else Err InvalidReference
      end
  end.

Definition canonicalSupportedDigest (reference : string) : option string :=
  match splitDigestReference reference with
  | None => None
  | Some (algorithm, encoded) =>
      if bool_decide (digest_length algorithm = Some (String.length encoded)) then Some (algorithm +:+ ":" +:+ encoded)%string else None
  end.

Definition verifySupportedDigest (data reference : string) : result digest_error string :=
  match splitDigestReference reference with
  | None => Err InvalidReference
  | Some (algorithm, encoded) =>
      match digest_of algorithm data with
      | None => Err (UnsupportedAlgorithm algorithm)
      | Some actual => if String.eqb encoded actual then Ok (algorithm +:+ ":" +:+ encoded)%string else Err (ContentIs (algorithm +:+ ":" +:+ actual)%string)
      end
  end.

Definition digestOfAs (reference data : string) : string :=
  match splitDigestReference reference with
  | None => ""
  | Some (algorithm, _) => match digest_of algorithm data with Some actual => (algorithm +:+ ":" +:+ actual)%string | None => "" end
  end.

Definition cachedManifestDigest (data requestedReference storedDigest : string) : string :=
  let computed := ("sha256:" +:+ manifestSHA256 data)%string in
  let stored := if String.eqb storedDigest "" then computed
                else match verifySupportedDigest data storedDigest with Ok canonical => canonical | Err _ => computed end in
  if isDigestReference requestedReference then
    match verifySupportedDigest data requestedReference with Ok canonical => canonical | Err _ => stored end
  else stored.

(** ** Request paths *)

(** The last place where [sep] is followed by something *)
Fixpoint split_last (sep s : string) : option (string * string) :=
  match s with
  | EmptyString => None
  | String c s' =>
      match split_last sep s' with
      | Some (l, r) => Some (String c l, r)
      | None => if has_prefix s sep && negb (String.eqb (drop_string (String.length sep) s) "") then Some (EmptyString, drop_string (String.length sep) s) else None
      end
  end.

(** What [.] matches *)
Definition is_dot (c : ascii) : bool := negb (bool_decide (c = "010"%char)).

(** [/v2/(.+)SEP(.+)], anchored at both ends *)
Definition match_v2 (sep path : string) : option (string * string) :=
  if has_prefix path "/v2/" && all_chars is_dot path then
    match split_last sep (drop_string 4 path) with
    | Some (repository, rest) => if String.eqb repository "" then None else Some (repository, rest)
    | None => None
    end
  else None.

(** [manifestPathRe] *)
Definition manifest_match (path : string) : option (string * string) := match_v2 "/manifests/" path.

(** [blobPathRe]: the digest *)
Definition blob_digest (digest : string) : bool :=
  match cut ":" digest with
  | Some (algorithm, encoded) => bool_decide (digest_length algorithm = Some (String.length encoded)) && all_chars is_hex encoded
  | None => false
  end.
Definition blob_match (path : string) : option string :=
  match match_v2 "/blobs/" path with Some (_, digest) => if blob_digest digest then Some digest else None | None => None end.

Definition manifestReference (requestPath : string) : string := match manifest_match requestPath with Some (_, reference) => reference | None => "" end.

Definition manifestRequestPath (repository reference : string) : string := ("/v2/" +:+ repository +:+ "/manifests/" +:+ reference)%string.
Definition blobRequestPath (repository digest : string) : string := ("/v2/" +:+ repository +:+ "/blobs/" +:+ digest)%string.

Definition canonicalManifestRequestPath (requestPath : string) : string :=
  match manifest_match requestPath with
  | Some (repository, reference) =>
      match canonicalSupportedDigest reference with Some canonical => manifestRequestPath repository canonical | None => requestPath end
  | None => requestPath
  end.

Example digest_paths :
  manifest_match "/v2/library/nginx/manifests/1.27" = Some ("library/nginx", "1.27") /\
  manifest_match "/v2/a/manifests/b/manifests/c" = Some ("a/manifests/b", "c") /\
  manifest_match "/v2/a/manifests/" = None /\ manifest_match "/v2//manifests/x" = None /\
  splitDigestReference "SHA256:AbC" = Some ("sha256", "abc") /\ splitDigestReference "a+b.c:0" = Some ("a+b.c", "0") /\
  splitDigestReference "a+:0" = None /\ splitDigestReference "1a:0" = None /\ splitDigestReference "a:0:1" = None.
Proof. vm_compute. done. Qed.

(** ** Lemmas *)

Lemma all_chars_app f a b : all_chars f (a +:+ b) = all_chars f a && all_chars f b.
Proof.
  induction a as [|c a IH]; [done|]. change (f c && all_chars f (a +:+ b) = f c && all_chars f a && all_chars f b). by rewrite IH, andb_assoc.
Qed.

Lemma all_chars_mono (f g : ascii -> bool) s : (forall c, f c = true -> g c = true) -> all_chars f s = true -> all_chars g s = true.
Proof. intros H. induction s as [|c s IH]; [done|]. cbn. rewrite !andb_true_iff. intros [? ?]. auto. Qed.

(** Facts about one byte are decided by looking at all of them. *)
Definition ascii_all : list ascii := Eval vm_compute in ascii_of_nat <$> seq 0 256.

Lemma ascii_all_complete c : c ∈ ascii_all.
Proof.
  assert (ascii_all = ascii_of_nat <$> seq 0 256) as -> by (vm_compute; reflexivity).
  rewrite <- (ascii_nat_embedding c). apply list_elem_of_fmap_2, elem_of_seq. pose proof (nat_ascii_bounded c). lia.
Qed.

Lemma by_byte (P : ascii -> bool) : forallb P ascii_all = true -> forall c, P c = true.
Proof. rewrite forallb_forall. intros H c. apply H, list_elem_of_In, ascii_all_complete. Qed.

Definition is_lower_hex (c : ascii) : bool := is_digit c || ((97 <=? byte_val c) && (byte_val c <=? 102)).

Lemma lower_hex_hex c : is_lower_hex c = true -> is_hex c = true.
Proof. intros H. unfold is_hex. fold (is_lower_hex c). by rewrite H. Qed.

Lemma lower_of_hex c : is_hex c = true -> is_lower_hex (to_lower_ascii c) = true.
Proof.
  intros H. pose proof (by_byte (fun c => implb (is_hex c) (is_lower_hex (to_lower_ascii c)))) as B. specialize (B eq_refl c). cbv beta in B. by rewrite H in B.
Qed.

Lemma lower_hex_fixed c : is_lower_hex c = true -> to_lower_ascii c = c.
Proof.
  intros H. pose proof (by_byte (fun c => implb (is_lower_hex c) (bool_decide (to_lower_ascii c = c)))) as B. specialize (B eq_refl c). cbv beta in B.
  rewrite H in B. by apply bool_decide_eq_true in B.
Qed.

Lemma to_lower_hex s : all_chars is_hex s = true -> all_chars is_lower_hex (to_lower s) = true.
Proof. induction s as [|c s IH]; [done|]. cbn. rewrite !andb_true_iff. intros [? ?]. auto using lower_of_hex. Qed.

Lemma to_lower_fixed s : all_chars is_lower_hex s = true -> to_lower s = s.
Proof. induction s as [|c s IH]; [done|]. cbn. rewrite andb_true_iff. intros [? ?]. by rewrite lower_hex_fixed, IH. Qed.

Lemma lower_class (P : ascii -> bool) : forallb (fun c => bool_decide (P (to_lower_ascii c) = P c)) ascii_all = true -> forall c, P (to_lower_ascii c) = P c.
Proof. intros H c. pose proof (by_byte _ H c) as B. by apply bool_decide_eq_true in B. Qed.

Lemma lower_algorithm b s : is_algorithm b (to_lower s) = is_algorithm b s.
Proof.
  revert b. induction s as [|c s IH]; intros b; [done|]. cbn [is_algorithm to_lower].
  rewrite !IH, (lower_class is_letter eq_refl), (lower_class is_alnum eq_refl).
  by rewrite (lower_class is_joint eq_refl).
Qed.

Lemma cut_app sep a b : all_chars (fun c => negb (bool_decide (c = sep))) a = true -> cut sep (a +:+ String sep b) = Some (a, b).
Proof.
  induction a as [|c a IH]; intros H.
  - change (cut sep (String sep b) = Some (EmptyString, b)). cbn [cut]. by rewrite decide_True.
  - cbn [all_chars] in H. rewrite andb_true_iff, negb_true_iff, bool_decide_eq_false in H. destruct H as [? ?].
    change (cut sep (String c (a +:+ String sep b)) = Some (String c a, b)). cbn [cut]. by rewrite decide_False, IH.
Qed.

Lemma algorithm_no_colon b s : is_algorithm b s = true -> all_chars (fun c => negb (bool_decide (c = ":"%char))) s = true.
Proof.
  revert b. induction s as [|c s IH]; intros b; [done|]. cbn [is_algorithm all_chars]. intros H. rewrite andb_true_iff.
  assert (is_letter c || is_alnum c || is_joint c = true /\ exists b', is_algorithm b' s = true) as [Hc [b' Hs]].
  { destruct b; [apply andb_true_iff in H as [-> ?]; eauto|]. destruct (is_alnum c) eqn:E; [rewrite orb_true_r; eauto|].
    apply andb_true_iff in H as [-> ?]. rewrite orb_true_r. eauto. }
  split; [|by eapply IH]. pose proof (by_byte (fun c => implb (is_letter c || is_alnum c || is_joint c) (negb (bool_decide (c = ":"%char)))) eq_refl c) as B.
  cbv beta in B. by rewrite Hc in B.
Qed.

(** What a reference that is one looks like *)
Lemma splitDigest_spec reference algorithm encoded : splitDigestReference reference = Some (algorithm, encoded) ->
  is_algorithm true algorithm = true /\ encoded <> "" /\ all_chars is_lower_hex encoded = true /\ to_lower algorithm = algorithm.
Proof.
  unfold splitDigestReference. destruct (cut ":" reference) as [[a e]|]; [|done]. case_match eqn:E; [|done]. intros [= <- <-].
  apply andb_true_iff in E as [[Ea Ee]%andb_true_iff Eh]. rewrite lower_algorithm. split_and!; auto using to_lower_hex, to_lower_idem. by destruct e.
Qed.

(** A canonical reference reads back as itself. *)
Lemma splitDigest_canonical algorithm encoded :
  is_algorithm true algorithm = true -> encoded <> "" -> all_chars is_lower_hex encoded = true -> to_lower algorithm = algorithm ->
  splitDigestReference (algorithm +:+ ":" +:+ encoded) = Some (algorithm, encoded).
Proof.
  intros Ha He Hh Hl. unfold splitDigestReference. change (":" +:+ encoded)%string with (String ":" encoded).
  rewrite cut_app by eauto using algorithm_no_colon.
  rewrite Ha, Hl, (to_lower_fixed encoded) by done. rewrite (all_chars_mono _ _ _ lower_hex_hex Hh).
  by destruct encoded.
Qed.

Lemma splitDigest_again reference algorithm encoded : splitDigestReference reference = Some (algorithm, encoded) ->
  splitDigestReference (algorithm +:+ ":" +:+ encoded) = Some (algorithm, encoded).
Proof. intros H. destruct (splitDigest_spec _ _ _ H) as (? & ? & ? & ?). by apply splitDigest_canonical. Qed.

(** Content that passes for a reference passes for the canonical form of it. *)
Lemma verify_canonical data reference canonical :
  verifySupportedDigest data reference = Ok canonical -> verifySupportedDigest data canonical = Ok canonical.
Proof.
  unfold verifySupportedDigest. destruct (splitDigestReference reference) as [[a e]|] eqn:E; [|done].
  destruct (digest_of a data) as [h|] eqn:Eh; [|done]. destruct (String.eqb e h) eqn:Ee; [|done]. intros [= <-].
  by rewrite (splitDigest_again _ _ _ E), Eh, Ee.
Qed.

Lemma hex_digit_lower v : 0 <= v < 16 -> is_lower_hex (hex_digit v) = true.
Proof.
  intros H. assert (forallb (fun n => is_lower_hex (hex_digit (Z.of_nat n))) (seq 0 16) = true) as B by (vm_compute; reflexivity).
  rewrite forallb_forall in B. rewrite <- (Z2Nat.id v) by lia. apply B, in_seq. lia.
Qed.

Lemma hex_of_lower bytes : Forall is_byte bytes -> all_chars is_lower_hex (hex_of bytes) = true /\ String.length (hex_of bytes) = (2 * length bytes)%nat.
Proof.
  induction 1 as [|b bytes Hb _ [IH1 IH2]]; [done|]. unfold is_byte in Hb.
  change (hex_of (b :: bytes)) with (String (hex_digit (b / 16)) (String (hex_digit (b mod 16)) (hex_of bytes))).
  cbn [all_chars String.length length]. rewrite IH1, IH2, !hex_digit_lower; [split; [done|lia]| |].
  - apply Z.mod_pos_bound. lia.
  - split; [apply Z.div_pos; lia|apply Z.div_lt_upper_bound; lia].
Qed.

Lemma sha256_verifies data : verifySupportedDigest data ("sha256:" +:+ manifestSHA256 data) = Ok ("sha256:" +:+ manifestSHA256 data)%string.
Proof.
  destruct (hex_of_lower (sha256 (bytes_of_string data)) (sha256_bytes _)) as [Hh Hl]. rewrite sha256_length in Hl. fold (manifestSHA256 data) in Hh, Hl.
  unfold verifySupportedDigest. change ("sha256:" +:+ manifestSHA256 data)%string with ("sha256" +:+ ":" +:+ manifestSHA256 data)%string.
  rewrite (splitDigest_canonical "sha256" (manifestSHA256 data)); [|done| |done|done]; [|by intros E; rewrite E in Hl].
  change (digest_of "sha256" data) with (Some (manifestSHA256 data)). cbn iota. by rewrite String.eqb_refl.
Qed.

(** The digest a cached manifest is served with is always one of its content. *)
Lemma cachedManifestDigest_truthful data requested stored :
  verifySupportedDigest data (cachedManifestDigest data requested stored) = Ok (cachedManifestDigest data requested stored).
Proof.
  unfold cachedManifestDigest. repeat case_match; eauto using sha256_verifies, verify_canonical.
Qed.

(** ** Paths read back *)

Definition no_slash (s : string) : bool := all_chars (fun c => negb (bool_decide (c = "/"%char))) s.

Lemma no_slash_prefix r p : no_slash r = true -> no_slash p = false -> has_prefix r p = false.
Proof.
  intros Hr Hp. apply not_true_iff_false. intros [t ->]%has_prefix_spec. unfold no_slash in *. rewrite all_chars_app in Hr. by rewrite Hp in Hr.
Qed.

(** Nothing is split off before a slash. *)
Lemma split_last_skip sep w s : no_slash w = true -> split_last (String "/" sep) s = None -> split_last (String "/" sep) (w +:+ s) = None.
Proof.
  intros Hw Hs. induction w as [|c w IH]; [done|]. unfold no_slash in *. cbn [all_chars] in Hw. apply andb_true_iff in Hw as [Hc Hw].
  change (String c w +:+ s)%string with (String c (w +:+ s)%string). cbn [split_last]. rewrite IH by done. cbn [has_prefix].
  apply negb_true_iff, bool_decide_eq_false in Hc. by rewrite decide_False by congruence.
Qed.

Lemma split_last_app sep l r : no_slash sep = true -> no_slash r = true -> r <> "" ->
  split_last ("/" +:+ sep +:+ "/") (l +:+ ("/" +:+ sep +:+ "/") +:+ r) = Some (l, r).
Proof.
  intros Hsep Hr Hne. change ("/" +:+ sep +:+ "/")%string with (String "/" (sep +:+ "/")). set (p := (sep +:+ "/")%string).
  assert (split_last (String "/" p) r = None) as Hn.
  { rewrite <- (string_app_nil_r r). by apply split_last_skip. }
  assert (split_last (String "/" p) (p +:+ r) = None) as Hp.
  { unfold p at 2. rewrite string_app_assoc. apply split_last_skip; [done|]. change ("/" +:+ r)%string with (String "/" r). cbn [split_last].
    rewrite Hn. cbn [has_prefix]. rewrite decide_True by done. rewrite no_slash_prefix; [done|done|].
    unfold p, no_slash. rewrite all_chars_app. by apply andb_false_intro2. }
  induction l as [|c l IH].
  - change ("" +:+ String "/" p +:+ r)%string with (String "/" (p +:+ r)). cbn [split_last]. rewrite Hp.
    rewrite (has_prefix_app (String "/" p) r : has_prefix (String "/" (p +:+ r)) (String "/" p) = true).
    rewrite (drop_string_app (String "/" p) r : drop_string (String.length (String "/" p)) (String "/" (p +:+ r)) = r).
    by destruct r.
  - change (String c l +:+ String "/" p +:+ r)%string with (String c (l +:+ String "/" p +:+ r)). cbn [split_last]. by rewrite IH.
Qed.

Lemma match_v2_app sep repository r :
  no_slash sep = true -> no_slash r = true -> r <> "" -> repository <> "" -> all_chars is_dot (repository +:+ sep +:+ r) = true ->
  match_v2 ("/" +:+ sep +:+ "/") ("/v2/" +:+ repository +:+ ("/" +:+ sep +:+ "/") +:+ r) = Some (repository, r).
Proof.
  intros Hs Hr Hne Hrep Hd. unfold match_v2. rewrite has_prefix_app. rewrite !all_chars_app in *.
  apply andb_true_iff in Hd as [Hd1 [Hd2 Hd3]%andb_true_iff]. rewrite Hd1, Hd2, Hd3. cbn [andb].
  rewrite (drop_string_app "/v2/"), split_last_app by done. by destruct repository.
Qed.

Lemma manifest_match_request repository reference :
  no_slash reference = true -> reference <> "" -> repository <> "" -> all_chars is_dot (repository +:+ reference) = true ->
  manifest_match (manifestRequestPath repository reference) = Some (repository, reference).
Proof.
  intros Hr Hne Hrep Hd. apply (match_v2_app "manifests"); try done. rewrite !all_chars_app in *. by apply andb_true_iff in Hd as [-> ->].
Qed.

Lemma blob_match_request repository digest :
  blob_digest digest = true -> no_slash digest = true -> repository <> "" -> all_chars is_dot (repository +:+ digest) = true ->
  blob_match (blobRequestPath repository digest) = Some digest.
Proof.
  intros Hb Hr Hrep Hd. unfold blob_match.
  assert (digest <> "") as Hne by (by intros ->).
  assert (match_v2 "/blobs/" (blobRequestPath repository digest) = Some (repository, digest)) as ->; [|by rewrite Hb].
  apply (match_v2_app "blobs"); try done. rewrite !all_chars_app in *. by apply andb_true_iff in Hd as [-> ->].
Qed.

Lemma cut_last_app l r : no_slash r = true -> cut_last "/" (l +:+ String "/" r) = Some (l, r).
Proof.
  intros Hr. assert (cut_last "/" r = None) as Hn.
  { unfold no_slash in Hr. induction r as [|c r IH]; [done|]. cbn [all_chars] in Hr. apply andb_true_iff in Hr as [Hc Hr].
    cbn [cut_last]. rewrite IH by done. apply negb_true_iff, bool_decide_eq_false in Hc. by rewrite decide_False. }
  induction l as [|c l IH].
  - change ("" +:+ String "/" r)%string with (String "/" r). cbn [cut_last]. rewrite Hn. by rewrite decide_True.
  - change (String c l +:+ String "/" r)%string with (String c (l +:+ String "/" r)). cbn [cut_last]. by rewrite IH.
Qed.

Lemma split_last_spec sep s l r : split_last sep s = Some (l, r) -> s = (l +:+ sep +:+ r)%string.
Proof.
  revert l. induction s as [|c s IH]; intros l; [done|]. cbn [split_last]. destruct (split_last sep s) as [[l' r']|].
  - intros [= <- <-]. by rewrite (IH l' eq_refl).
  - destruct (has_prefix (String c s) sep) eqn:E; [|done]. case_match; [|done]. intros [= <- <-]. apply has_prefix_spec in E as [t E]. rewrite E.
    by rewrite drop_string_app.
Qed.

(** What a reference by digest is made of *)
Lemma digest_reference_chars reference algorithm encoded :
  splitDigestReference reference = Some (algorithm, encoded) -> no_slash reference = true /\ reference <> "" /\ all_chars is_dot reference = true.
Proof.
  unfold splitDigestReference. destruct (cut ":" reference) as [[a e]|] eqn:E; [|done].
  destruct (_ && all_chars is_hex e) eqn:H; [|done]. intros _. apply andb_true_iff in H as [[Ha He]%andb_true_iff Hh].
  assert (reference = (a +:+ String ":" e)%string) as ->.
  { clear -E. revert a E. induction reference as [|c s IH]; intros a E; [done|]. cbn [cut] in E. destruct (decide (c = ":"%char)) as [->|]; [by simplify_eq|].
    destruct (cut ":" s) as [[l r]|]; [|done]. simplify_eq. by rewrite (IH l eq_refl). }
  assert (forall P : ascii -> bool, forallb (fun c => implb (is_letter c || is_alnum c || is_joint c || is_hex c || Ascii.eqb c ":"%char) (P c)) ascii_all = true ->
    all_chars P (a +:+ String ":" e) = true) as HP.
  { intros P Hall. pose proof (by_byte _ Hall) as B. cbv beta in B. rewrite all_chars_app. cbn [all_chars]. rewrite !andb_true_iff. split_and!.
    - enough (forall b, is_algorithm b a = true -> all_chars P a = true) by eauto. clear -B. induction a as [|c a IH]; intros b Ha; [done|]. cbn [is_algorithm all_chars] in *.
      apply andb_true_iff. destruct b; [|destruct (is_alnum c) eqn:Ec].
      + apply andb_true_iff in Ha as [Hc Ha]. split; [|by eapply IH]. specialize (B c). by rewrite Hc in B.
      + split; [|by eapply IH]. specialize (B c). rewrite Ec in B. by destruct (is_letter c).
      + apply andb_true_iff in Ha as [Hc Ha]. split; [|by eapply IH]. specialize (B c). rewrite Hc in B. by destruct (is_letter c || is_alnum c).
    - exact (B ":"%char).
    - eapply all_chars_mono; [|exact Hh]. intros c Hc. specialize (B c). rewrite Hc in B. by destruct (is_letter c || is_alnum c || is_joint c). }
  split_and!; [apply HP; reflexivity|by destruct a|apply HP; reflexivity].
Qed.

Lemma blob_digest_no_slash digest : blob_digest digest = true -> no_slash digest = true /\ all_chars is_dot digest = true /\ isDigestReference digest = true.
Proof.
  intros H. assert (exists a e, splitDigestReference digest = Some (a, e)) as (a & e & E).
  { unfold blob_digest in H. unfold splitDigestReference. destruct (cut ":" digest) as [[a e]|]; [|done]. apply andb_true_iff in H as [Hl%bool_decide_eq_true Hh].
    rewrite Hh. unfold digest_length in Hl. destruct (String.eqb a "sha256") eqn:E1; [apply String.eqb_eq in E1 as ->|].
    - destruct e; [done|]. eauto.
    - destruct (String.eqb a "sha512") eqn:E2; [|done]. apply String.eqb_eq in E2 as ->. destruct e; [done|]. eauto. }
  destruct (digest_reference_chars _ _ _ E) as (? & ? & ?). split_and!; [done..|]. unfold isDigestReference. rewrite E. by apply bool_decide_eq_true.
Qed.

(** A manifest path is never one of a blob. *)
Lemma blob_match_manifest repository reference :
  no_slash reference = true -> blob_match (manifestRequestPath repository reference) = None.
Proof.
  intros Hr. destruct (blob_match _) as [digest|] eqn:E; [|done]. exfalso. unfold blob_match in E.
  destruct (match_v2 "/blobs/" _) as [[l d]|] eqn:Em; [|done]. destruct (blob_digest d) eqn:Hd; [|done]. simplify_eq.
  apply blob_digest_no_slash in Hd as (Hd & _). unfold match_v2 in Em. destruct (_ && _); [|done].
  destruct (split_last _ _) as [[l' d']|] eqn:Es; [|done]. destruct (String.eqb l' ""); [done|]. simplify_eq. apply split_last_spec in Es.
  unfold manifestRequestPath in Es. rewrite (drop_string_app "/v2/") in Es.
  pose proof (cut_last_app (repository +:+ "/manifests") reference Hr) as C1. pose proof (cut_last_app (l +:+ "/blobs") digest Hd) as C2.
  assert (((repository +:+ "/manifests") +:+ String "/" reference)%string = ((l +:+ "/blobs") +:+ String "/" digest)%string) as Eq.
  { rewrite !string_app_assoc. exact Es. }
  rewrite Eq, C2 in C1. injection C1 as C1 _.
  pose proof (cut_last_app repository "manifests" eq_refl) as D1. pose proof (cut_last_app l "blobs" eq_refl) as D2.
  change (String "/" "manifests") with "/manifests" in D1. change (String "/" "blobs") with "/blobs" in D2. rewrite <- C1, D2 in D1. done.
Qed.

(** ** Token scopes ([scopeOf] of upstream.go) *)

Fixpoint split_last_any (sep s : string) : option (string * string) :=
  match s with
  | EmptyString => None
  | String c s' =>
      match split_last_any sep s' with
      | Some (l, r) => Some (String c l, r)
      | None => if has_prefix s sep then Some (EmptyString, drop_string (String.length sep) s) else None
      end
  end.

(** [blobScopeRe]: the repository, before the last [/blobs/] that no line break precedes *)
Definition blob_scope_match (path : string) : option string :=
  if has_prefix path "/v2/" then
    match split_last_any "/blobs/" (match cut "010" (drop_string 4 path) with Some (line, _) => line | None => drop_string 4 path end) with
    | Some (repository, _) => if String.eqb repository "" then None else Some repository
    | None => None
    end
  else None.

Definition scopeOf (requestPath : string) : string :=
  let scope repository := ("repository:" +:+ repository +:+ ":pull")%string in
  match manifest_match requestPath with
  | Some (repository, _) => scope repository
  | None => match blob_scope_match requestPath with Some repository => scope repository | None => "" end
  end.

(** A repository with a component [manifests] gets the scope of another one for its blobs. *)
Lemma blob_scope_of_other_repository :
  scopeOf (blobRequestPath "org/app" "sha256:00") = "repository:org/app:pull" /\
  scopeOf (manifestRequestPath "org/manifests/app" "1.0") = "repository:org/manifests/app:pull" /\
  scopeOf (blobRequestPath "org/manifests/app" "sha256:00") = "repository:org:pull".
Proof. vm_compute. done. Qed.
