(* ===== verification/BalloonPlan.v ===== *)
(** * Balloon target planning ([internal/balloon/plan.go])

    [PlanTargets] shares a host-memory deficit over the running guests in
    proportion to their size, never below a floor, redistributing what a
    clamped guest could not give.  [Overcommit] is the create-time warning. *)

From stdpp Require Import base list gmap strings sorting.
From Stdlib Require Import ZArith Lia.
From S2P Require Import Prelude.

Local Open Scope Z_scope.
Local Open Scope int64_scope.

Record Node := mkNode { node_Name : string; ConfiguredMiB : Z }.

#[global] Instance Node_eq_dec : EqDecision Node.
Proof. solve_decision. Defined.

(** Reading a Go map: an absent key yields the zero value. *)
Definition get_target (targets : gmap string Z) (name : string) : Z := default 0 (targets !! name).

(** The loop variables of one redistribution round. *)
Record round_state := mkRound {
  r_targets : gmap string Z;
  r_active : gmap string Node;
  r_distributed : Z;
  r_clamped : bool
}.

(** [share := remaining * n.ConfiguredMiB / weight] *)
Definition share (remaining configured weight : Z) : Z := remaining *! configured /! weight.

(** The body of the inner [for _, name := range names]. *)
Definition round_step (remaining weight floorMiB : Z) (st : round_state) (name : string) : round_state :=
  let n := default (mkNode "" 0) (r_active st !! name) in
  let sh := share remaining (ConfiguredMiB n) weight in
  let target := get_target (r_targets st) name -! sh in
  if target <=? floorMiB then
    mkRound (<[name := floorMiB]> (r_targets st)) (delete name (r_active st))
      (r_distributed st +! (get_target (r_targets st) name -! floorMiB)) true
  else
    mkRound (<[name := target]> (r_targets st)) (r_active st) (r_distributed st +! sh) (r_clamped st).

(** [for _, n := range active { weight += n.ConfiguredMiB }] *)
Definition active_weight (active : gmap string Node) : Z :=
  map_fold (fun _ n acc => acc +! ConfiguredMiB n) 0 active.

Definition active_names (active : gmap string Node) : list string :=
  sort_strings ((map_to_list active).*1).

Definition round (targets : gmap string Z) (active : gmap string Node) (remaining floorMiB : Z) : round_state :=
  foldl (round_step remaining (active_weight active) floorMiB)
    (mkRound targets active 0 false) (active_names active).

(** The outer loop; [None] when the fuel runs out, which [plan_loop_ok]
    rules out for [S (size active)]. *)
Fixpoint plan_loop (fuel : nat) (targets : gmap string Z) (active : gmap string Node)
    (remaining floorMiB : Z) : option (gmap string Z) :=
  match fuel with
  | O => None
  | S fuel' =>
      if (0 <? remaining) && negb (bool_decide (size active = 0%nat)) then
        let st := round targets active remaining floorMiB in
        if r_clamped st
        then plan_loop fuel' (r_targets st) (r_active st) (remaining -! r_distributed st) floorMiB
        else Some (r_targets st)
      else Some targets
  end.

(** [targets[n.Name] = n.ConfiguredMiB] for every node, later entries winning. *)
Definition initial_targets (nodes : list Node) : gmap string Z :=
  foldl (fun m n => <[node_Name n := ConfiguredMiB n]> m) ∅ nodes.

Definition initial_active (nodes : list Node) (floorMiB : Z) : gmap string Node :=
  foldl (fun m n => if floorMiB <? ConfiguredMiB n then <[node_Name n := n]> m else m) ∅ nodes.

Definition PlanTargets (nodes : list Node) (deficitMiB floorMiB : Z) : gmap string Z :=
  let targets := initial_targets nodes in
  if deficitMiB <=? 0 then targets
  else default targets
         (plan_loop (S (length nodes)) targets (initial_active nodes floorMiB) deficitMiB floorMiB).

Definition Overcommit (plannedMiB hostRAMMiB reserveMiB : Z) : bool :=
  (hostRAMMiB -! reserveMiB) <? plannedMiB.

(** What the plan takes out of the guests. *)
Definition reclaimed (nodes : list Node) (targets : gmap string Z) : Z :=
  zsum (fun n => ConfiguredMiB n - get_target targets (node_Name n)) nodes.

(** The most a plan could take: everything above the floor. *)
Definition capacity (nodes : list Node) (floorMiB : Z) : Z :=
  zsum (fun n => Z.max 0 (ConfiguredMiB n - floorMiB)) nodes.

(** ** Proportional shares *)

Lemma share_exact remaining c w :
  0 <= remaining < 2 ^ 31 -> 0 <= c < 2 ^ 31 -> 0 < w -> share remaining c w = remaining * c / w.
Proof.
  intros Hr Hc Hw. unfold share.
  assert (0 <= remaining * c < 2 ^ 62) by nia.
  rewrite (wrap64_id (remaining * c)) by int64_lia.
  rewrite Z.quot_div_nonneg by lia.
  assert (remaining * c / w <= remaining * c) by (apply Z.div_le_upper_bound; nia).
  assert (0 <= remaining * c / w) by (apply Z.div_pos; lia).
  apply wrap64_id. int64_lia.
Qed.

Lemma shares_le {A} (f : A -> Z) (l : list A) remaining w :
  0 < w -> zsum (fun x => remaining * f x / w) l * w <= remaining * zsum f l.
Proof.
  intros Hw. induction l as [|x l IH]; [rewrite !Z.mul_0_r; done|]. rewrite !zsum_cons.
  pose proof (Z.mul_div_le (remaining * f x) w Hw). nia.
Qed.

Lemma shares_gt {A} (f : A -> Z) (l : list A) remaining w :
  0 < w -> l <> [] ->
  remaining * zsum f l < (zsum (fun x => remaining * f x / w) l + Z.of_nat (length l)) * w.
Proof.
  intros Hw. induction l as [|x l IH]; [done|]. intros _. rewrite !zsum_cons. cbn [length].
  pose proof (Z.mul_succ_div_gt (remaining * f x) w Hw).
  destruct l as [|y l]; [unfold zsum; simpl; lia|].
  assert (remaining * zsum f (y :: l) <
    (zsum (fun x => remaining * f x / w) (y :: l) + Z.of_nat (length (y :: l))) * w) by (apply IH; done).
  nia.
Qed.

(** ** One node's update of the total *)

Lemma get_target_insert targets k v j :
  get_target (<[k := v]> targets) j = if decide (k = j) then v else get_target targets j.
Proof. unfold get_target. rewrite lookup_insert. by case_decide. Qed.

Lemma reclaimed_insert_notin nodes targets k v :
  k ∉ (node_Name <$> nodes) -> reclaimed nodes (<[k := v]> targets) = reclaimed nodes targets.
Proof.
  intros H. apply zsum_ext. intros n Hn. rewrite get_target_insert, decide_False; [done|].
  intros ->. apply H, list_elem_of_fmap_2, Hn.
Qed.

Lemma reclaimed_insert nodes targets k v :
  NoDup (node_Name <$> nodes) -> k ∈ (node_Name <$> nodes) ->
  reclaimed nodes (<[k := v]> targets) = reclaimed nodes targets + (get_target targets k - v).
Proof.
  induction nodes as [|n nodes IH]; simpl; intros Hnd Hk; [set_solver|].
  apply NoDup_cons in Hnd as [Hn Hnd]. unfold reclaimed in *. rewrite !zsum_cons.
  rewrite get_target_insert. case_decide as E.
  - subst. pose proof (reclaimed_insert_notin nodes targets (node_Name n) v Hn) as Hr.
    unfold reclaimed in Hr. lia.
  - rewrite IH; [lia|done|]. by apply elem_of_cons in Hk as [->|].
Qed.

(** ** The loop invariant *)

Section Plan.
Context (nodes : list Node) (floorMiB : Z).
Hypothesis Hnodup : NoDup (node_Name <$> nodes).
Hypothesis Hpos : forall n, n ∈ nodes -> 0 <= ConfiguredMiB n.
Hypothesis Htotal : zsum ConfiguredMiB nodes < 2 ^ 31.
Hypothesis Hfloor : 0 <= floorMiB < 2 ^ 31.

(** A node still in the pool sits strictly above the floor; a node outside it
    has given all it can. *)
Definition node_ok (targets : gmap string Z) (active : gmap string Node) (n : Node) : Prop :=
  match active !! node_Name n with
  | Some n' => n' = n /\ floorMiB < get_target targets (node_Name n) <= ConfiguredMiB n
  | None => get_target targets (node_Name n) = Z.min (ConfiguredMiB n) floorMiB
  end.

Definition plan_inv (targets : gmap string Z) (active : gmap string Node) : Prop :=
  (forall n, n ∈ nodes -> node_ok targets active n) /\
  (forall k n, active !! k = Some n -> n ∈ nodes /\ node_Name n = k).

Lemma configured_bound n : n ∈ nodes -> 0 <= ConfiguredMiB n < 2 ^ 31.
Proof.
  intros Hn. split; [by apply Hpos|]. pose proof (zsum_elem_le ConfiguredMiB nodes n Hpos Hn). lia.
Qed.

Lemma node_name_inj n n' : n ∈ nodes -> n' ∈ nodes -> node_Name n = node_Name n' -> n = n'.
Proof.
  clear Hpos Htotal. induction nodes as [|m l IH]; simpl in *; [set_solver|].
  apply NoDup_cons in Hnodup as [Hm Hl]. rewrite !elem_of_cons. intros [->|H1] [->|H2] E; auto.
  - destruct Hm. rewrite E. by apply list_elem_of_fmap_2.
  - destruct Hm. rewrite <- E. by apply list_elem_of_fmap_2.
Qed.

(** What a step on the pooled node [n] does. *)
Lemma round_step_ok rem w st n :
  plan_inv (r_targets st) (r_active st) -> r_active st !! node_Name n = Some n ->
  0 <= rem < 2 ^ 31 -> 0 < w ->
  0 <= r_distributed st -> r_distributed st + rem * ConfiguredMiB n / w < 2 ^ 31 ->
  let st' := round_step rem w floorMiB st (node_Name n) in
  plan_inv (r_targets st') (r_active st') /\
  reclaimed nodes (r_targets st') = reclaimed nodes (r_targets st) + (r_distributed st' - r_distributed st) /\
  r_distributed st <= r_distributed st' <= r_distributed st + rem * ConfiguredMiB n / w /\
  ((r_clamped st' = true /\ r_active st' = delete (node_Name n) (r_active st)) \/
   (r_clamped st' = r_clamped st /\ r_active st' = r_active st /\
    r_distributed st' = r_distributed st + rem * ConfiguredMiB n / w)).
Proof.
  intros [Hok Hact] Hn Hrem Hw Hd Hb. destruct (Hact _ _ Hn) as [Hin _].
  pose proof (configured_bound n Hin) as Hc. pose proof (Hok n Hin) as Hon.
  unfold node_ok in Hon. rewrite Hn in Hon. destruct Hon as [_ Ht].
  assert (0 <= rem * ConfiguredMiB n / w) by (apply Z.div_pos; nia).
  unfold round_step. rewrite Hn. cbn [default from_option id].
  rewrite share_exact by lia. rewrite (wrap64_id (get_target _ _ - _)) by int64_lia.
  assert (node_Name n ∈ node_Name <$> nodes) by by apply list_elem_of_fmap_2.
  case_head; bool_to_prop; cbn [r_targets r_active r_distributed r_clamped];
    rewrite !wrap64_id by (try rewrite wrap64_id; int64_lia);
    rewrite reclaimed_insert by done.
  - split; [split|split; [lia|split; [lia|by left]]].
    + intros m Hm. specialize (Hok m Hm). unfold node_ok in *.
      rewrite get_target_insert, lookup_delete. case_decide as E; [|done].
      rewrite (node_name_inj n m Hin Hm E) in *. lia.
    + intros k m Hk. rewrite lookup_delete in Hk. case_decide; [done|]. by apply Hact.
  - split; [split; [|done]|split; [lia|split; [lia|by right]]].
    intros m Hm. specialize (Hok m Hm). unfold node_ok in *.
    rewrite get_target_insert. case_decide as E; [|done].
    rewrite (node_name_inj n m Hin Hm E) in *. rewrite Hn. split; [done|lia].
Qed.

(** A whole sweep over pooled names. *)
Lemma round_fold_ok rem w ns st :
  plan_inv (r_targets st) (r_active st) -> NoDup (node_Name <$> ns) ->
  (forall n, n ∈ ns -> r_active st !! node_Name n = Some n) ->
  0 <= rem < 2 ^ 31 -> 0 < w -> 0 <= r_distributed st ->
  r_distributed st + zsum (fun n => rem * ConfiguredMiB n / w) ns < 2 ^ 31 ->
  let st' := foldl (round_step rem w floorMiB) st (node_Name <$> ns) in
  plan_inv (r_targets st') (r_active st') /\
  reclaimed nodes (r_targets st') = reclaimed nodes (r_targets st) + (r_distributed st' - r_distributed st) /\
  r_distributed st <= r_distributed st' <= r_distributed st + zsum (fun n => rem * ConfiguredMiB n / w) ns /\
  (size (r_active st') <= size (r_active st))%nat /\
  (r_clamped st' = true -> r_clamped st = true \/ (size (r_active st') < size (r_active st))%nat) /\
  (r_clamped st' = false ->
     r_clamped st = false /\ r_distributed st' = r_distributed st + zsum (fun n => rem * ConfiguredMiB n / w) ns).
Proof.
  revert st. induction ns as [|n ns IH]; intros st Hinv Hnd Hact Hrem Hw Hd Hb;
    rewrite ?fmap_cons in *; cbn [foldl]; cbv zeta.
  { unfold zsum. simpl. split_and!; auto; try lia. intros ->. lia. }
  rewrite zsum_cons in *. apply NoDup_cons in Hnd as [Hn Hnd].
  assert (forall m, m ∈ ns -> 0 <= rem * ConfiguredMiB m / w) as Hsh.
  { intros m Hm. apply Z.div_pos; [|lia]. destruct Hinv as [_ Ha].
    assert (m ∈ nodes) as Hm' by (eapply Ha, Hact; by right). pose proof (Hpos m Hm'). nia. }
  pose proof (zsum_nonneg _ _ Hsh) as Hs0.
  assert (r_active st !! node_Name n = Some n) as Hl by (apply Hact; by left).
  destruct (round_step_ok rem w st n) as (Hi' & Hr' & Hd' & Hc'); auto; try lia.
  set (st1 := round_step rem w floorMiB st (node_Name n)) in *.
  assert (forall m, m ∈ ns -> r_active st1 !! node_Name m = Some m) as Hact'.
  { intros m Hm. assert (r_active st !! node_Name m = Some m) by (apply Hact; by right).
    destruct Hc' as [[_ ->]|(_ & -> & _)]; [|done]. rewrite lookup_delete_ne; [done|].
    intros E. apply Hn. rewrite E. by apply list_elem_of_fmap_2. }
  destruct (IH st1 Hi' Hnd Hact' Hrem Hw) as (Hi & Hr & Hd2 & Hsz & Ht & Hf); try lia.
  assert (size (r_active st) <> 0)%nat by (intros E; apply map_size_empty_inv in E; rewrite E in Hl; done).
  split; [done|]. split; [lia|]. split; [lia|].
  destruct Hc' as [[Hc Ha]|(Hc & Ha & He)]; rewrite Ha in *.
  - rewrite map_size_delete, Hl in *. cbn [is_Some] in *.
    split; [lia|]. split; [right; lia|]. intros E. destruct (Hf E). congruence.
  - split; [done|]. split; [intros E; rewrite <- Hc; auto|].
    intros E. destruct (Hf E). split; [congruence|lia].
Qed.

(** ** One round *)

Definition active_nodes (active : gmap string Node) : list Node := (map_to_list active).*2.

Lemma elem_of_active_nodes targets active n :
  plan_inv targets active -> n ∈ active_nodes active <-> active !! node_Name n = Some n.
Proof.
  intros [_ Ha]. unfold active_nodes. rewrite list_elem_of_fmap. split.
  - intros ([k m] & -> & H). apply elem_of_map_to_list in H. simpl.
    by destruct (Ha _ _ H) as [_ ->].
  - intros H. exists (node_Name n, n). split; [done|]. by apply elem_of_map_to_list.
Qed.

Lemma active_keys targets active :
  plan_inv targets active -> (map_to_list active).*1 = node_Name <$> active_nodes active.
Proof.
  intros [_ Ha]. unfold active_nodes. rewrite <- list_fmap_compose.
  apply list_fmap_ext. intros i [k n] H. simpl.
  apply list_elem_of_lookup_2, elem_of_map_to_list in H. by destruct (Ha _ _ H) as [_ ->].
Qed.

Lemma NoDup_active_names targets active :
  plan_inv targets active -> NoDup (node_Name <$> active_nodes active).
Proof. intros H. rewrite <- (active_keys targets) by done. apply NoDup_fst_map_to_list. Qed.

Lemma active_nodes_sub targets active : plan_inv targets active -> active_nodes active ⊆+ nodes.
Proof.
  intros H. apply NoDup_submseteq.
  - by eapply NoDup_fmap_1, NoDup_active_names.
  - intros n Hn. apply (elem_of_active_nodes targets active n H) in Hn. by apply H in Hn as [].
Qed.

Lemma active_weight_exact targets active :
  plan_inv targets active -> active_weight active = zsum ConfiguredMiB (active_nodes active).
Proof.
  intros H. unfold active_weight. rewrite map_fold_foldr. unfold active_nodes. rewrite zsum_map.
  rewrite <- (foldr_wrap_sum (fun kn => ConfiguredMiB kn.2)).
  - apply foldr_ext; [|done..]. by intros [].
  - intros [k n] Hkn. apply elem_of_map_to_list, H in Hkn as [Hn _]. by apply Hpos.
  - rewrite <- (zsum_map ConfiguredMiB snd).
    pose proof (zsum_submseteq ConfiguredMiB _ _ Hpos (active_nodes_sub _ _ H)).
    unfold active_nodes, int64_max in *. lia.
Qed.

Lemma round_ok targets active rem :
  plan_inv targets active -> size active <> 0%nat -> 0 < rem < 2 ^ 31 ->
  let st := round targets active rem floorMiB in
  plan_inv (r_targets st) (r_active st) /\
  reclaimed nodes (r_targets st) = reclaimed nodes targets + r_distributed st /\
  0 <= r_distributed st <= rem /\
  (r_clamped st = true -> (size (r_active st) < size active)%nat) /\
  (r_clamped st = false -> rem < r_distributed st + Z.of_nat (length nodes)).
Proof.
  intros Hinv Hsz Hrem. cbv zeta. unfold round.
  set (ans := active_nodes active). set (w := active_weight active).
  assert (w = zsum ConfiguredMiB ans) as Hw by by apply active_weight_exact with targets.
  assert (active_names active ≡ₚ node_Name <$> ans) as Hp.
  { unfold active_names. rewrite sort_strings_perm. by rewrite (active_keys targets). }
  apply Permutation_map_inv in Hp as (ns & -> & Hns).
  change (map node_Name ns) with (node_Name <$> ns).
  assert (ans <> []) as Hne.
  { intros E. apply Hsz. apply map_size_empty_iff, map_to_list_empty_iff.
    by apply fmap_nil_inv in E. }
  assert (forall n, n ∈ ans -> active !! node_Name n = Some n) as Hlook
    by (intros n; by apply (elem_of_active_nodes targets)).
  assert (forall n, n ∈ ans -> floorMiB < ConfiguredMiB n) as Hbig.
  { intros n Hn. pose proof (Hlook n Hn) as Hl. destruct Hinv as [Hok Ha].
    destruct (Ha _ _ Hl) as [Hin _]. specialize (Hok n Hin). unfold node_ok in Hok.
    rewrite Hl in Hok. lia. }
  assert (0 < w) as Hw0.
  { rewrite Hw. destruct ans as [|n ans'] eqn:E; [done|]. rewrite zsum_cons.
    pose proof (Hbig n ltac:(left)). assert (0 <= zsum ConfiguredMiB ans'); [|lia].
    apply zsum_nonneg. intros m Hm. pose proof (Hbig m ltac:(by right)). lia. }
  pose proof (shares_le ConfiguredMiB ns rem w Hw0) as Hle.
  rewrite <- Hns, <- Hw in Hle.
  assert (zsum (fun n => rem * ConfiguredMiB n / w) ns <= rem) as Hle' by (rewrite <- Hns in *; nia).
  assert (NoDup (node_Name <$> ns)) by (rewrite <- Hns; by eapply NoDup_active_names).
  assert (forall n, n ∈ ns -> active !! node_Name n = Some n) by (intros n; rewrite <- Hns; apply Hlook).
  destruct (round_fold_ok rem w ns (mkRound targets active 0 false)) as (Hi & Hr & Hd & _ & Ht & Hf);
    cbn [r_targets r_active r_distributed r_clamped] in *; auto; try lia.
  split; [done|]. split; [lia|]. split; [lia|]. split.
  - intros E. destruct (Ht E); [done|lia].
  - intros E. destruct (Hf E) as [_ ->].
    pose proof (shares_gt ConfiguredMiB ans rem w Hw0 Hne) as Hgt. rewrite <- Hw in Hgt.
    rewrite <- Hns. pose proof (submseteq_length _ _ (active_nodes_sub _ _ Hinv)) as Hlen.
    fold ans in Hlen. nia.
Qed.

(** ** The whole plan *)

Lemma plan_loop_ok fuel targets active rem :
  plan_inv targets active -> 0 <= rem < 2 ^ 31 -> (size active < fuel)%nat ->
  exists targets', plan_loop fuel targets active rem floorMiB = Some targets' /\
    (exists active', plan_inv targets' active' /\
     (active' = ∅ \/ rem < reclaimed nodes targets' - reclaimed nodes targets + Z.of_nat (length nodes)
      \/ rem = reclaimed nodes targets' - reclaimed nodes targets)) /\
    0 <= reclaimed nodes targets' - reclaimed nodes targets <= rem.
Proof.
  revert targets active rem. induction fuel as [|fuel IH]; intros targets active rem Hinv Hrem Hf; [lia|].
  cbn [plan_loop]. destruct (decide (0 < rem)) as [Hpos0|Hz].
  2:{ rewrite (proj2 (Z.ltb_ge 0 rem)) by lia. simpl. exists targets. split; [done|].
      split; [|lia]. exists active. split; [done|]. right. right. lia. }
  rewrite (proj2 (Z.ltb_lt 0 rem)) by done.
  destruct (decide (size active = 0%nat)) as [He|He].
  { rewrite bool_decide_eq_true_2 by done. simpl. exists targets. split; [done|]. split; [|lia].
    exists active. split; [done|]. left. by apply map_size_empty_iff. }
  rewrite bool_decide_eq_false_2 by done. cbn [andb negb].
  destruct (round_ok targets active rem Hinv He) as (Hi & Hr & Hd & Ht & Hc); [lia|].
  set (st := round targets active rem floorMiB) in *.
  destruct (r_clamped st).
  - rewrite wrap64_id by int64_lia. specialize (Ht eq_refl).
    destruct (IH (r_targets st) (r_active st) (rem - r_distributed st) Hi) as
      (t' & -> & (a' & Ha' & Hcase) & Hb); try lia.
    exists t'. split; [done|]. split; [|lia]. exists a'. split; [done|].
    destruct Hcase as [?|[?|?]]; [by left|right; left; lia|right; right; lia].
  - specialize (Hc eq_refl). exists (r_targets st). split; [done|]. split; [|lia].
    exists (r_active st). split; [done|]. right. left. lia.
Qed.

Lemma initial_ok : plan_inv (initial_targets nodes) (initial_active nodes floorMiB).
Proof.
  clear Hpos Htotal Hfloor. revert Hnodup. unfold plan_inv, node_ok, initial_targets, initial_active.
  induction nodes as [|a l IH] using rev_ind; intros Hnd; [split; [set_solver|done]|].
  rewrite fmap_app, NoDup_app in Hnd. destruct Hnd as (Hl & Hdisj & _).
  destruct (IH Hl) as [Hok Hact]. rewrite !foldl_app. cbn [foldl].
  split.
  - intros n [Hn| ->%list_elem_of_singleton]%elem_of_app.
    + assert (node_Name n <> node_Name a).
      { intros E. apply (Hdisj (node_Name n)); [by apply list_elem_of_fmap_2|].
        rewrite E. apply list_elem_of_fmap_2. by left. }
      rewrite get_target_insert, decide_False by done. specialize (Hok n Hn).
      destruct (floorMiB <? ConfiguredMiB a); [by rewrite lookup_insert_ne|done].
    + rewrite get_target_insert, decide_True by done. destruct (floorMiB <? ConfiguredMiB a) eqn:Ea; bool_to_prop.
      * rewrite lookup_insert_eq. split; [done|lia].
      * destruct (foldl _ ∅ l !! node_Name a) as [m|] eqn:E; [|lia].
        destruct (Hact _ _ E) as [Hm Hname]. exfalso.
        apply (Hdisj (node_Name a)); [|apply list_elem_of_fmap_2; by left].
        rewrite <- Hname. by apply list_elem_of_fmap_2.
  - intros k n. destruct (floorMiB <? ConfiguredMiB a);
      [rewrite lookup_insert; case_decide as E|]; intros Hk; simplify_eq.
    + split; [|done]. apply elem_of_app. right. by left.
    + destruct (Hact _ _ Hk). split; [|done]. apply elem_of_app. by left.
    + destruct (Hact _ _ Hk). split; [|done]. apply elem_of_app. by left.
Qed.

Lemma initial_reclaimed : reclaimed nodes (initial_targets nodes) = 0.
Proof.
  unfold reclaimed. rewrite (zsum_ext _ (fun _ => 0)).
  { clear. induction nodes; [done|]. by rewrite zsum_cons. }
  intros n Hn. clear Hpos Htotal Hfloor. unfold initial_targets.
  revert Hnodup n Hn. induction nodes as [|a l IH] using rev_ind; intros Hnd n Hn; [set_solver|].
  rewrite fmap_app, NoDup_app in Hnd. destruct Hnd as (Hl & Hdisj & _).
  rewrite foldl_app. cbn [foldl]. rewrite get_target_insert.
  apply elem_of_app in Hn as [Hn| ->%list_elem_of_singleton]; [|rewrite decide_True by done; lia].
  rewrite decide_False; [by apply IH|]. intros E. apply (Hdisj (node_Name n)).
  - by apply list_elem_of_fmap_2.
  - rewrite <- E. apply list_elem_of_fmap_2. by left.
Qed.

Lemma initial_active_size : (size (initial_active nodes floorMiB) <= length nodes)%nat.
Proof.
  unfold initial_active. clear. induction nodes as [|a l IH] using rev_ind; [done|].
  rewrite foldl_app, length_app. cbn [foldl length]. case_head; [|lia].
  pose proof (map_size_insert (node_Name a) a (foldl (fun m n => if floorMiB <? ConfiguredMiB n then <[node_Name n := n]> m else m) ∅ l)) as E.
  rewrite E. case_match; simpl; lia.
Qed.

(** Everything [PlanTargets] guarantees, for the shared hypotheses. *)
Lemma plan_ok deficit : 0 < deficit < 2 ^ 31 ->
  let targets := PlanTargets nodes deficit floorMiB in
  (exists active, plan_inv targets active /\
     (active = ∅ \/ deficit < reclaimed nodes targets + Z.of_nat (length nodes)
      \/ deficit = reclaimed nodes targets)) /\
  0 <= reclaimed nodes targets <= deficit.
Proof.
  intros Hd. cbv zeta. unfold PlanTargets. rewrite (proj2 (Z.leb_gt deficit 0)) by lia.
  pose proof initial_active_size as Hsz. pose proof initial_reclaimed as Hr0.
  destruct (plan_loop_ok (S (length nodes)) _ _ deficit initial_ok) as (t & -> & (a & Ha & Hc) & Hb); try lia.
  simpl. rewrite Hr0 in *. split; [|lia]. exists a. split; [done|].
  destruct Hc as [?|[?|?]]; [by left|right; left; lia|right; right; lia].
Qed.

Lemma plan_inv_capacity targets : plan_inv targets ∅ -> reclaimed nodes targets = capacity nodes floorMiB.
Proof.
  intros [Hok _]. apply zsum_ext. intros n Hn. specialize (Hok n Hn). unfold node_ok in Hok.
  rewrite lookup_empty in Hok. rewrite Hok. lia.
Qed.
End Plan.

(** ** The planned names *)

Lemma initial_targets_dom nodes : dom (initial_targets nodes) = list_to_set (node_Name <$> nodes).
Proof.
  unfold initial_targets. induction nodes as [|a l IH] using rev_ind; [set_solver|].
  rewrite foldl_app. cbn [foldl]. rewrite dom_insert_L, IH, fmap_app, list_to_set_app_L. set_solver.
Qed.

Lemma initial_active_dom nodes floorMiB :
  dom (initial_active nodes floorMiB) ⊆ (list_to_set (node_Name <$> nodes) : gset string).
Proof.
  unfold initial_active. induction nodes as [|a l IH] using rev_ind; [set_solver|].
  rewrite foldl_app. cbn [foldl]. rewrite fmap_app, list_to_set_app_L. case_head; set_solver.
Qed.

Lemma round_dom targets active rem floorMiB :
  dom active ⊆ dom targets ->
  let st := round targets active rem floorMiB in
  dom (r_targets st) = dom targets /\ dom (r_active st) ⊆ dom targets.
Proof.
  intros Hsub. cbv zeta. unfold round.
  assert (forall l st, (forall n, n ∈ l -> n ∈ dom targets) -> dom (r_targets st) = dom targets ->
    dom (r_active st) ⊆ dom targets ->
    let st' := foldl (round_step rem (active_weight active) floorMiB) st l in
    dom (r_targets st') = dom targets /\ dom (r_active st') ⊆ dom targets) as Hf.
  { induction l as [|n l IH]; intros st Hl Ht Ha; [done|]. cbn [foldl].
    assert (n ∈ dom targets) by set_solver.
    apply IH; [set_solver|unfold round_step; cbv zeta; case_head; cbn; set_solver..]. }
  apply Hf; [|done..]. intros n. unfold active_names. rewrite elem_of_sort_strings.
  intros ([k v] & -> & Hk)%list_elem_of_fmap. apply elem_of_map_to_list in Hk.
  apply Hsub, elem_of_dom. eauto.
Qed.

Lemma plan_loop_dom fuel targets active rem floorMiB t :
  dom active ⊆ dom targets -> plan_loop fuel targets active rem floorMiB = Some t -> dom t = dom targets.
Proof.
  revert targets active rem. induction fuel as [|fuel IH]; intros targets active rem Hsub; [done|].
  cbn [plan_loop]. destruct (round_dom targets active rem floorMiB Hsub) as [Ht Ha].
  repeat case_head; intros E; simplify_eq; try done.
  apply IH in E; [congruence|set_solver].
Qed.

(** A plan names exactly the guests it was given. *)
Lemma PlanTargets_dom nodes deficit floorMiB :
  dom (PlanTargets nodes deficit floorMiB) = list_to_set (node_Name <$> nodes).
Proof.
  unfold PlanTargets. case_head; [apply initial_targets_dom|].
  destruct (plan_loop _ _ _ _ _) as [t|] eqn:E; simpl; [|apply initial_targets_dom].
  apply plan_loop_dom in E; [by rewrite E, initial_targets_dom|].
  rewrite initial_targets_dom. apply initial_active_dom.
Qed.

(** ** Theorems *)

(** The guests of one host: distinct names, non-negative sizes, less than 2 PiB
    in total, and a floor below that. *)
Definition guest_set (nodes : list Node) (floorMiB : Z) : Prop :=
  NoDup (node_Name <$> nodes) /\ Forall (fun n => 0 <= ConfiguredMiB n) nodes /\
  zsum ConfiguredMiB nodes < 2 ^ 31 /\ 0 <= floorMiB < 2 ^ 31.

Lemma guest_set_plan_ok nodes floorMiB deficit :
  guest_set nodes floorMiB -> 0 < deficit < 2 ^ 31 ->
  let targets := PlanTargets nodes deficit floorMiB in
  (exists active, plan_inv nodes floorMiB targets active /\
     (active = ∅ \/ deficit < reclaimed nodes targets + Z.of_nat (length nodes)
      \/ deficit = reclaimed nodes targets)) /\
  0 <= reclaimed nodes targets <= deficit.
Proof.
  intros (Hnd & Hp & Ht & Hf) Hd. rewrite Forall_forall in Hp. by apply plan_ok.
Qed.

(** Asking for one MiB per guest more than is needed covers the residue of the
    proportional split. *)
Lemma plan_takes nodes deficit floorMiB :
  guest_set nodes floorMiB -> 0 < deficit -> deficit + Z.of_nat (length nodes) < 2 ^ 31 ->
  Z.min deficit (capacity nodes floorMiB) <=
    reclaimed nodes (PlanTargets nodes (deficit + Z.of_nat (length nodes)) floorMiB).
Proof.
  intros Hg Hd Hb. destruct (guest_set_plan_ok nodes floorMiB (deficit + Z.of_nat (length nodes)) Hg ltac:(lia))
    as [(a & Ha & Hc) _]. destruct Hc as [->|[?|?]]; [|lia..].
  rewrite (plan_inv_capacity nodes floorMiB _ Ha). lia.
Qed.

Lemma plan_bounds nodes deficit floorMiB n :
  guest_set nodes floorMiB -> deficit < 2 ^ 31 -> n ∈ nodes ->
  Z.min (ConfiguredMiB n) floorMiB <= get_target (PlanTargets nodes deficit floorMiB) (node_Name n)
    <= ConfiguredMiB n.
Proof.
  intros Hg Hd Hn. destruct (decide (0 < deficit)).
  - destruct (guest_set_plan_ok nodes floorMiB deficit Hg ltac:(lia)) as [(a & [Hok _] & _) _].
    specialize (Hok n Hn). unfold node_ok in Hok. case_match; lia.
  - unfold PlanTargets. rewrite (proj2 (Z.leb_le deficit 0)) by lia.
    destruct Hg as (Hnd & Hp & Ht & Hf). destruct (initial_ok nodes floorMiB Hnd) as [Hok _].
    specialize (Hok n Hn). unfold node_ok in Hok. case_match; lia.
Qed.

(** Whatever the deficit, no guest is planned below the per-node floor (or
    below its own size when that is smaller) nor above its configured size. *)
Theorem PlanTargets_bounds nodes deficit floorMiB n :
  guest_set nodes floorMiB -> deficit < 2 ^ 31 -> n ∈ nodes ->
  Z.min (ConfiguredMiB n) floorMiB <= get_target (PlanTargets nodes deficit floorMiB) (node_Name n)
    <= ConfiguredMiB n.
Proof. apply plan_bounds. Qed.

Lemma PlanTargets_bounds_witness :
  Z.min 4096 1024 <= get_target (PlanTargets [mkNode "a" 4096; mkNode "b" 1500] 3000 1024) "a" <= 4096.
Proof.
  refine (PlanTargets_bounds [mkNode "a" 4096; mkNode "b" 1500] 3000 1024 (mkNode "a" 4096) _ _ _).
  - split; [|split; [|split]].
    + apply (bool_decide_unpack _). vm_compute. exact I.
    + repeat constructor; simpl; lia.
    + reflexivity.
    + lia.
  - lia.
  - left.
Defined.

Lemma plan_water_filling nodes deficit floorMiB :
  guest_set nodes floorMiB -> 0 < deficit < 2 ^ 31 -> nodes <> [] ->
  0 <= reclaimed nodes (PlanTargets nodes deficit floorMiB) <= deficit /\
  Z.min deficit (capacity nodes floorMiB) <
    reclaimed nodes (PlanTargets nodes deficit floorMiB) + Z.of_nat (length nodes).
Proof.
  intros Hg Hd Hne. destruct (guest_set_plan_ok _ _ _ Hg Hd) as [(a & Ha & Hc) Hb].
  split; [done|]. assert (0 < Z.of_nat (length nodes)) by (destruct nodes; simpl; [done|lia]).
  destruct Hc as [->|[?|?]]; [|lia..].
  rewrite (plan_inv_capacity nodes floorMiB _ Ha). lia.
Qed.



Lemma initial_targets_lookup nodes k c :
  NoDup (node_Name <$> nodes) ->
  initial_targets nodes !! k = Some c <-> exists n, n ∈ nodes /\ node_Name n = k /\ ConfiguredMiB n = c.
Proof.
  unfold initial_targets. induction nodes as [|a l IH] using rev_ind; intros Hnd.
  { cbn [foldl]. rewrite lookup_empty. set_solver. }
  rewrite fmap_app, NoDup_app in Hnd. destruct Hnd as (Hl & Hdisj & _).
  rewrite foldl_app. cbn [foldl]. rewrite lookup_insert. setoid_rewrite elem_of_app.
  setoid_rewrite list_elem_of_singleton. case_decide as E.
  - split; [intros [= <-]; eauto|]. intros (n & [Hn| ->] & Hk & Hc); [|congruence].
    exfalso. apply (Hdisj k); [rewrite <- Hk; by apply list_elem_of_fmap_2|].
    rewrite <- E. apply list_elem_of_fmap_2. by left.
  - rewrite IH by done. naive_solver.
Qed.

Lemma initial_active_lookup nodes floorMiB k n :
  NoDup (node_Name <$> nodes) ->
  initial_active nodes floorMiB !! k = Some n <-> n ∈ nodes /\ node_Name n = k /\ floorMiB < ConfiguredMiB n.
Proof.
  unfold initial_active. induction nodes as [|a l IH] using rev_ind; intros Hnd.
  { cbn [foldl]. rewrite lookup_empty. set_solver. }
  rewrite fmap_app, NoDup_app in Hnd. destruct Hnd as (Hl & Hdisj & _).
  rewrite foldl_app. cbn [foldl]. rewrite elem_of_app, list_elem_of_singleton.
  destruct (floorMiB <? ConfiguredMiB a) eqn:Ea; bool_to_prop.
  - rewrite lookup_insert. case_decide as E.
    + split; [intros [= <-]; eauto|]. intros ([Hn| ->] & Hk & Hc); [|congruence].
      exfalso. apply (Hdisj k); [rewrite <- Hk; by apply list_elem_of_fmap_2|].
      rewrite <- E. apply list_elem_of_fmap_2. by left.
    + rewrite IH by done. naive_solver.
  - rewrite IH by done. split; [naive_solver|]. intros ([?| ->] & ? & ?); [naive_solver|lia].
Qed.

(** The plan does not depend on the order the guests are listed in, which
    in the callers is Go's randomised map iteration order. *)
Theorem PlanTargets_order_independent nodes nodes' deficit floorMiB :
  nodes ≡ₚ nodes' -> NoDup (node_Name <$> nodes) ->
  PlanTargets nodes deficit floorMiB = PlanTargets nodes' deficit floorMiB.
Proof.
  intros Hp Hnd. assert (NoDup (node_Name <$> nodes')) as Hnd' by by rewrite <- Hp.
  unfold PlanTargets. rewrite (Permutation_length Hp).
  replace (initial_targets nodes') with (initial_targets nodes).
  2:{ apply map_eq. intros k. apply option_eq. intros c.
      rewrite !initial_targets_lookup by done. by setoid_rewrite Hp. }
  replace (initial_active nodes' floorMiB) with (initial_active nodes floorMiB); [done|].
  apply map_eq. intros k. apply option_eq. intros c.
  rewrite !initial_active_lookup by done. by rewrite Hp.
Qed.

Lemma PlanTargets_order_independent_witness :
  PlanTargets [mkNode "a" 4096; mkNode "b" 1500] 3000 1024 =
  PlanTargets [mkNode "b" 1500; mkNode "a" 4096] 3000 1024.
Proof.
  apply (PlanTargets_order_independent [mkNode "a" 4096; mkNode "b" 1500] [mkNode "b" 1500; mkNode "a" 4096]).
  - constructor.
  - apply (bool_decide_unpack _). vm_compute. exact I.
Defined.

(** The second guest reaches its floor and the first one covers the rest. *)
Example PlanTargets_example :
  let targets := PlanTargets [mkNode "a" 4096; mkNode "b" 1500] 3000 1024 in
  get_target targets "a" = 1572 /\ get_target targets "b" = 1024.
Proof. vm_compute. split; reflexivity. Qed.
