(* ===== verification/BalloonManager.v ===== *)
(** * The balloon manager ([internal/balloon/manager.go])

    [Manager] keeps a ledger of applied targets and, once per poll, turns a
    host-memory sample into balloon targets for the running guests.  The guests
    are reached through the [Balloonable] interface, a class here: a world of
    guests that report a configured size, possibly a current target, and answer
    a retarget with one of the outcomes the manager distinguishes. *)

From stdpp Require Import base list gmap strings sorting.
From Stdlib Require Import ZArith Lia.
From S2P Require Import Prelude BalloonPlan.

Local Open Scope Z_scope.
Local Open Scope int64_scope.

(** ** Host-memory samples ([internal/hostmem/hostmem.go]) *)

Inductive Pressure := PressureUnknown | PressureNormal | PressureWarning | PressureCritical.

#[global] Instance Pressure_eq_dec : EqDecision Pressure.
Proof. solve_decision. Defined.

Record Snapshot := mkSnapshot {
  TotalMiB : Z;
  AvailableMiB : Z;
  CompressorMiB : Z;
  SwapTotalBytes : Z;
  SwapAvailableBytes : Z;
  SnapPressure : Pressure
}.

(** ** The guests *)

(** What [SetMemoryTargetMiB] answers: success, [ErrQuiesced],
    [ErrTargetPending], or any other error. *)
Inductive set_outcome := SetOk | SetQuiesced | SetPending | SetFailed.

Class Balloonable (W : Type) := {
  vm_ConfiguredMiB : W -> string -> Z;
  (** [None] when the guest is not a [CurrentTargeter]. *)
  vm_CurrentTargetMiB : W -> string -> option Z;
  vm_SetMemoryTargetMiB : W -> string -> Z -> set_outcome * W
}.

(** ** The manager's state *)

Record Manager := mkManager {
  last : gmap string Z;
  lastAppliedDeficit : Z;
  lastAppliedKnown : bool;
  lastAppliedHold : bool;
  lastRetarget : gmap string Z;
  retryPending : gset string;
  pendingLogged : gset string;
  devicePending : gset string;
  pressureLatched : bool;
  deadbandMiB : Z;
  minRetargetInterval : Z
}.

Definition defaultDeadbandMiB : Z := 256.
(** [time.Minute] in nanoseconds *)
Definition defaultMinRetargetInterval : Z := 60 * 10 ^ 9.

Definition NewManager : Manager :=
  mkManager ∅ 0 false false ∅ ∅ ∅ ∅ false defaultDeadbandMiB defaultMinRetargetInterval.

Definition with_last (f : gmap string Z -> gmap string Z) (m : Manager) : Manager :=
  mkManager (f (last m)) (lastAppliedDeficit m) (lastAppliedKnown m) (lastAppliedHold m) (lastRetarget m)
    (retryPending m) (pendingLogged m) (devicePending m) (pressureLatched m) (deadbandMiB m) (minRetargetInterval m).
Definition with_applied (d : Z) (k h : bool) (m : Manager) : Manager :=
  mkManager (last m) d k h (lastRetarget m) (retryPending m) (pendingLogged m) (devicePending m)
    (pressureLatched m) (deadbandMiB m) (minRetargetInterval m).
Definition with_lastRetarget (f : gmap string Z -> gmap string Z) (m : Manager) : Manager :=
  mkManager (last m) (lastAppliedDeficit m) (lastAppliedKnown m) (lastAppliedHold m) (f (lastRetarget m))
    (retryPending m) (pendingLogged m) (devicePending m) (pressureLatched m) (deadbandMiB m) (minRetargetInterval m).
Definition with_retryPending (f : gset string -> gset string) (m : Manager) : Manager :=
  mkManager (last m) (lastAppliedDeficit m) (lastAppliedKnown m) (lastAppliedHold m) (lastRetarget m)
    (f (retryPending m)) (pendingLogged m) (devicePending m) (pressureLatched m) (deadbandMiB m) (minRetargetInterval m).
Definition with_pendingLogged (f : gset string -> gset string) (m : Manager) : Manager :=
  mkManager (last m) (lastAppliedDeficit m) (lastAppliedKnown m) (lastAppliedHold m) (lastRetarget m)
    (retryPending m) (f (pendingLogged m)) (devicePending m) (pressureLatched m) (deadbandMiB m) (minRetargetInterval m).
Definition with_devicePending (f : gset string -> gset string) (m : Manager) : Manager :=
  mkManager (last m) (lastAppliedDeficit m) (lastAppliedKnown m) (lastAppliedHold m) (lastRetarget m)
    (retryPending m) (pendingLogged m) (f (devicePending m)) (pressureLatched m) (deadbandMiB m) (minRetargetInterval m).
Definition with_latch (b : bool) (m : Manager) : Manager :=
  mkManager (last m) (lastAppliedDeficit m) (lastAppliedKnown m) (lastAppliedHold m) (lastRetarget m)
    (retryPending m) (pendingLogged m) (devicePending m) b (deadbandMiB m) (minRetargetInterval m).

(** One telemetry line of [tbxd.log]. *)
Inductive log_entry :=
| LogError (name : string) (err : set_outcome)
| LogRestored (name : string) (target externalTarget : Z)
| LogTarget (name : string) (target configured hostFree reserve deficit compressor swapPercent : Z) (latched : bool)
| LogDeviceActive (name : string) (target : Z)
| LogPolled (name : string) (target configured hostFree reserve deficit : Z).

(** ** The pressure latch *)

Definition pressureArmSwapPercent : Z := 80.
Definition pressureClearSwapPercent : Z := 70.
Definition pressureArmCompressorPct : Z := 20.
Definition pressureClearCompressorPct : Z := 15.
Definition pressureArmCompressorMiB : Z := 4 * 1024.
Definition pressureClearCompressorMiB : Z := 3 * 1024.

(** Unsigned 64-bit arithmetic, as in the source. *)
Definition snapshotSwapPercent (sample : Snapshot) : Z :=
  if (SwapTotalBytes sample =? 0) || (SwapTotalBytes sample <=? SwapAvailableBytes sample) then 0
  else wrapu 64 ((SwapTotalBytes sample - SwapAvailableBytes sample) * 100) / SwapTotalBytes sample.

Definition elevated (p : Pressure) : bool :=
  match p with PressureWarning | PressureCritical => true | _ => false end.

Definition updatePressureLatch (sample : Snapshot) (m : Manager) : Manager :=
  let swapPercent := snapshotSwapPercent sample in
  let compressorArmed :=
    if 0 <? TotalMiB sample
    then TotalMiB sample *! pressureArmCompressorPct <=? CompressorMiB sample *! 100
    else pressureArmCompressorMiB <=? CompressorMiB sample in
  let compressorClear :=
    if 0 <? TotalMiB sample
    then CompressorMiB sample *! 100 <? TotalMiB sample *! pressureClearCompressorPct
    else CompressorMiB sample <? pressureClearCompressorMiB in
  if (pressureArmSwapPercent <=? swapPercent) || compressorArmed || elevated (SnapPressure sample)
  then with_latch true m
  else if (swapPercent <? pressureClearSwapPercent) && compressorClear && negb (elevated (SnapPressure sample))
  then with_latch false m
  else m.

Definition absInt (value : Z) : Z := if value <? 0 then 0 -! value else value.

Inductive applyOutcome := applyOutcomeSkipped | applyOutcomeApplied | applyOutcomePending | applyOutcomeFailed.

Section Manager.
Context {W : Type} `{Balloonable W}.

(** The manager together with what it acts on. *)
Record state := mkState { mgr : Manager; world : W; logs : list log_entry }.

Definition upd (f : Manager -> Manager) (s : state) : state := mkState (f (mgr s)) (world s) (logs s).
Definition log (e : log_entry) (s : state) : state := mkState (mgr s) (world s) (logs s ++ [e]).

(** The guest's reported target when it differs from the ledger's record. *)
Definition externallyMovedTarget (w : W) (name : string) (previous : option Z) : option Z :=
  match previous with
  | None => None
  | Some p => match vm_CurrentTargetMiB w name with
              | None => None
              | Some target => if target =? p then None else Some target
              end
  end.

Definition currentMiB (m : Manager) (w : W) (name : string) : Z :=
  let fallback := default (vm_ConfiguredMiB w name) (last m !! name) in
  match vm_CurrentTargetMiB w name with
  | Some target => if 0 <? target then target else fallback
  | None => fallback
  end.

Definition planActive (m : Manager) (w : W) (vms : gset string) (deficit floorMiB : Z) : gmap string Z :=
  let nodes := (fun name => mkNode name (vm_ConfiguredMiB w name)) <$> elements (vms ∖ devicePending m) in
  let targets := PlanTargets nodes deficit floorMiB in
  if pressureLatched m then
    map_imap (fun name target =>
      match last m !! name with
      | None => Some target
      | Some previous =>
          let ceiling := match vm_CurrentTargetMiB w name with
                         | Some cur => if (0 <? cur) && (cur <? previous) then cur else previous
                         | None => previous
                         end in
          Some (if ceiling <? target then ceiling else target)
      end) targets
  else targets.

(** The ledger's record of [name] unless the guest was moved behind its back. *)
Definition known_target (m : Manager) (w : W) (name : string) : option Z :=
  match externallyMovedTarget w name (last m !! name) with
  | Some _ => None
  | None => last m !! name
  end.

(** [changed], [hasUnappliedTarget]; a settled node's retry mark is cleared. *)
Definition classify (m : Manager) (w : W) (targets : gmap string Z) : bool * bool * Manager :=
  foldl (fun '(changed, unapplied, m') '(name, target) =>
      let known := known_target m w name in
      if bool_decide (known = Some target) then (changed, unapplied, with_retryPending (fun r => r ∖ {[name]}) m')
      else (true, unapplied || bool_decide (known = None) || bool_decide (name ∈ retryPending m), m'))
    (false, false, m) (map_to_list targets).

(** The per-node retry window is still open. *)
Definition in_window (m : Manager) (name : string) (now : Z) : bool :=
  match lastRetarget m !! name with
  | Some t => now - t <? minRetargetInterval m
  | None => false
  end.

Definition applyTarget (name : string) (target : Z) (holdSetsDeficit : bool) (sample : Snapshot)
    (reserveMiB deficit now : Z) (s : state) : applyOutcome * state :=
  let m := mgr s in
  let external := externallyMovedTarget (world s) name (last m !! name) in
  let known := known_target m (world s) name in
  if bool_decide (known = Some target) then (applyOutcomeSkipped, s)
  else if negb holdSetsDeficit && (bool_decide (external = None) || bool_decide (name ∈ retryPending m)) && in_window m name now
  then (applyOutcomeSkipped, upd (with_retryPending (fun r => r ∪ {[name]})) s)
  else
    let '(out, w') := vm_SetMemoryTargetMiB (world s) name target in
    let s := mkState m w' (logs s) in
    match out with
    | SetQuiesced => (applyOutcomeSkipped, s)
    | SetPending =>
        let s := if bool_decide (name ∈ pendingLogged m) then s
                 else upd (with_pendingLogged (fun r => r ∪ {[name]})) (log (LogError name SetPending) s) in
        (applyOutcomePending,
         upd (with_lastRetarget (insert name now))
           (upd (with_retryPending (fun r => r ∪ {[name]}))
             (upd (with_devicePending (fun r => r ∪ {[name]})) s)))
    | SetFailed =>
        (applyOutcomeFailed, upd (with_retryPending (fun r => r ∪ {[name]})) (log (LogError name SetFailed) s))
    | SetOk =>
        let s := upd (with_pendingLogged (fun r => r ∖ {[name]}))
                   (upd (with_retryPending (fun r => r ∖ {[name]}))
                     (upd (with_lastRetarget (insert name now))
                       (upd (with_last (insert name target)) s))) in
        (applyOutcomeApplied,
         match external with
         | Some ext => log (LogRestored name target ext) s
         | None => log (LogTarget name target (vm_ConfiguredMiB (world s) name) (AvailableMiB sample) reserveMiB
                          deficit (CompressorMiB sample) (snapshotSwapPercent sample) (pressureLatched m)) s
         end)
    end.

Definition probePendingDevice (vms : gset string) (now : Z) (s : state) (name : string) : state :=
  if negb (bool_decide (name ∈ vms)) then s
  else if in_window (mgr s) name now then s
  else
    let configured := vm_ConfiguredMiB (world s) name in
    let '(out, w') := vm_SetMemoryTargetMiB (world s) name configured in
    let s := mkState (mgr s) w' (logs s) in
    match out with
    | SetQuiesced => s
    | SetPending => upd (with_lastRetarget (insert name now)) s
    | SetFailed => upd (with_lastRetarget (insert name now)) (log (LogError name SetFailed) s)
    | SetOk =>
        log (LogDeviceActive name (vm_ConfiguredMiB w' name))
          (upd (with_last (insert name (vm_ConfiguredMiB w' name)))
            (upd (with_pendingLogged (fun r => r ∖ {[name]}))
              (upd (with_retryPending (fun r => r ∖ {[name]}))
                (upd (with_devicePending (fun r => r ∖ {[name]})) s))))
    end.

Definition probePendingDevices (vms : gset string) (now : Z) (s : state) : state :=
  foldl (probePendingDevice vms now) s (elements (devicePending (mgr s))).

Definition dropDeparted (vms : gset string) (m : Manager) : Manager :=
  let m := mkManager (filter (fun kv => kv.1 ∈ vms) (last m)) (lastAppliedDeficit m) (lastAppliedKnown m)
             (lastAppliedHold m) (filter (fun kv => kv.1 ∈ vms) (lastRetarget m)) (retryPending m ∩ vms)
             (pendingLogged m ∩ vms) (devicePending m ∩ vms) (pressureLatched m) (deadbandMiB m)
             (minRetargetInterval m) in
  if decide (size (last m) = 0%nat) then with_applied 0 false false m else m.

(** The variables a sweep over the planned names threads. *)
Record sweep := mkSweep { sw_state : state; sw_applied : gmap string Z; sw_any : bool; sw_pending : bool }.

Section Tick.
Context (vms : gset string) (sample : Snapshot) (reserveMiB floorMiB now deficit : Z) (holdSetsDeficit : bool).

Definition sweep_name (targets : gmap string Z) (reductions : bool) (sw : sweep) (name : string) : sweep :=
  let target := get_target targets name in
  let s := sw_state sw in
  if negb (Bool.eqb (target <? currentMiB (mgr s) (world s) name) reductions) then sw
  else if match sw_applied sw !! name with Some prior => prior <=? target | None => false end then sw
  else
    let '(out, s') := applyTarget name target holdSetsDeficit sample reserveMiB deficit now s in
    match out with
    | applyOutcomeApplied => mkSweep s' (<[name := target]> (sw_applied sw)) true (sw_pending sw)
    | applyOutcomePending => mkSweep s' (sw_applied sw) (sw_any sw) true
    | _ => mkSweep s' (sw_applied sw) (sw_any sw) (sw_pending sw)
    end.

(** Reductions first; a device found pending stops the releases. *)
Definition sweep_round (targets : gmap string Z) (sw : sweep) : sweep :=
  let names := sort_strings ((map_to_list targets).*1) in
  let sw := foldl (sweep_name targets true) sw names in
  if sw_pending sw then sw else foldl (sweep_name targets false) sw names.

(** [for round := 0; round <= len(vms); round++] *)
Fixpoint rounds (n : nat) (first : bool) (sw : sweep) : sweep :=
  match n with
  | O => sw
  | S n' =>
      let s := sw_state sw in
      let targets := planActive (mgr s) (world s) vms deficit floorMiB in
      let '(changed, hasUnapplied, m') := classify (mgr s) (world s) targets in
      let sw := mkSweep (mkState m' (world s) (logs s)) (sw_applied sw) (sw_any sw) false in
      if negb changed then sw
      else if first && negb holdSetsDeficit && negb (lastAppliedHold m') && lastAppliedKnown m' &&
              (absInt (deficit -! lastAppliedDeficit m') <? deadbandMiB m') && negb hasUnapplied
      then sw
      else
        let sw := sweep_round targets sw in
        if sw_pending sw then rounds n' false sw else sw
  end.
End Tick.

(** The deficit a tick works with, and whether the hold sets it. *)
Definition tick_deficit (m : Manager) (sample : Snapshot) (reserveMiB holdMiB : Z) : Z * bool :=
  let natural := reserveMiB -! AvailableMiB sample in
  let natural := if natural <? 0 then 0 else natural in
  let natural := if (0 <? natural) && (natural <? deadbandMiB m) then 0 else natural in
  ((if natural <? holdMiB then holdMiB else natural), (0 <? holdMiB) && (natural <=? holdMiB)).

Definition ReconcileSnapshot (vms : gset string) (sample : Snapshot) (reserveMiB floorMiB holdMiB now : Z)
    (s : state) : state :=
  let s := upd (updatePressureLatch sample) s in
  let '(deficit, holdSetsDeficit) := tick_deficit (mgr s) sample reserveMiB holdMiB in
  let s := probePendingDevices vms now s in
  let sw := rounds vms sample reserveMiB floorMiB now deficit holdSetsDeficit (S (size vms)) true
              (mkSweep s ∅ false false) in
  let s := if sw_any sw then upd (with_applied deficit true holdSetsDeficit) (sw_state sw) else sw_state sw in
  upd (dropDeparted vms) s.
End Manager.
Arguments state : clear implicits.
Arguments sweep : clear implicits.

(** ** The stateless entry point ([Manager.Reconcile]) *)

Section Reconcile.
Context {W : Type} `{Balloonable W}.

Definition reconcile_name (targets : gmap string Z) (hostFreeMiB reserveMiB deficit : Z) (s : state W) (name : string) : state W :=
  let target := get_target targets name in
  let '(out, w') := vm_SetMemoryTargetMiB (world s) name target in
  match out with
  | SetOk =>
      let s' := mkState (mgr s) w' (logs s) in
      let s' := if bool_decide (last (mgr s) !! name = Some target) then s'
                else log (LogPolled name target (vm_ConfiguredMiB w' name) hostFreeMiB reserveMiB deficit) s' in
      upd (with_last (insert name target)) s'
  | err => upd (with_last (delete name)) (log (LogError name err) (mkState (mgr s) w' (logs s)))
  end.

Definition Reconcile (vms : gset string) (hostFreeMiB reserveMiB floorMiB : Z) (s : state W) : state W :=
  let nodes := (fun name => mkNode name (vm_ConfiguredMiB (world s) name)) <$> elements vms in
  let deficit := reserveMiB -! hostFreeMiB in
  let deficit := if deficit <? 0 then 0 else deficit in
  let targets := PlanTargets nodes deficit floorMiB in
  let s := foldl (reconcile_name targets hostFreeMiB reserveMiB deficit) s (sort_strings (elements vms)) in
  upd (with_last (filter (fun kv => kv.1 ∈ vms))) s.
End Reconcile.

(** ** What the guests promise

    Retargeting one guest leaves its configured size, and everything about the
    other guests, as they were. *)

Class BalloonLaws (W : Type) `{Balloonable W} : Prop := {
  set_configured w n t m : vm_ConfiguredMiB (vm_SetMemoryTargetMiB w n t).2 m = vm_ConfiguredMiB w m;
  set_frame w n t m : m <> n -> vm_CurrentTargetMiB (vm_SetMemoryTargetMiB w n t).2 m = vm_CurrentTargetMiB w m
}.

(** A host whose guests are simulated: configured size, current target, and the
    answer to the next retarget. *)
Record sim_guest := mkGuest { g_configured : Z; g_current : Z; g_answer : set_outcome }.

#[global] Instance sim_balloonable : Balloonable (gmap string sim_guest) := {
  vm_ConfiguredMiB w n := match w !! n with Some g => g_configured g | None => 0 end;
  vm_CurrentTargetMiB w n := g_current <$> w !! n;
  vm_SetMemoryTargetMiB w n t :=
    match w !! n with
    | None => (SetFailed, w)
    | Some g => match g_answer g with
                | SetOk => (SetOk, <[n := mkGuest (g_configured g) t SetOk]> w)
                | o => (o, w)
                end
    end
}.

#[global] Instance sim_laws : BalloonLaws (gmap string sim_guest).
Proof.
  split; intros; simpl; destruct (w !! n) as [g|] eqn:E; try done; destruct (g_answer g); try done; simpl.
  - rewrite lookup_insert. case_decide; [subst; by rewrite E|done].
  - by rewrite lookup_insert_ne.
Qed.

(** ** Lemmas *)

Section Facts.
Context {W : Type} `{Balloonable W}.
Implicit Types (s : state W) (n : string).

(** What the invariants below speak about. *)
Definition core s :=
  (last (mgr s), lastRetarget (mgr s), devicePending (mgr s), pressureLatched (mgr s), minRetargetInterval (mgr s), world s).

Lemma core_inv s s' : core s = core s' ->
  last (mgr s) = last (mgr s') /\ lastRetarget (mgr s) = lastRetarget (mgr s') /\
  devicePending (mgr s) = devicePending (mgr s') /\ pressureLatched (mgr s) = pressureLatched (mgr s') /\
  minRetargetInterval (mgr s) = minRetargetInterval (mgr s') /\ world s = world s'.
Proof. by intros [= -> -> -> -> -> ->]. Qed.

(** The ledger changes only at the retargeted guest, and only to the target. *)
Lemma applyTarget_ledger name target hold sample reserve deficit now s :
  let s' := (applyTarget name target hold sample reserve deficit now s).2 in
  (last (mgr s') = last (mgr s) \/ last (mgr s') = <[name := target]> (last (mgr s))) /\
  pressureLatched (mgr s') = pressureLatched (mgr s) /\
  minRetargetInterval (mgr s') = minRetargetInterval (mgr s) /\
  (world s' = world s \/ world s' = (vm_SetMemoryTargetMiB (world s) name target).2).
Proof.
  cbv zeta. unfold applyTarget. repeat case_head; simpl; auto;
    repeat case_head; simpl; simplify_eq; rewrite ?H0; simpl; auto 6;
    match goal with E : vm_SetMemoryTargetMiB _ _ _ = _ |- _ => rewrite E; simpl; auto 6 end.
Qed.

Lemma probePendingDevice_other vms now s name n :
  n <> name -> let s' := probePendingDevice vms now s name in
  last (mgr s') !! n = last (mgr s) !! n /\ lastRetarget (mgr s') !! n = lastRetarget (mgr s) !! n.
Proof.
  intros Hn. cbv zeta. unfold probePendingDevice. repeat case_head; simpl; rewrite ?lookup_insert_ne by done; done.
Qed.

Lemma probe_effect vms now s name :
  let s' := probePendingDevice vms now s name in
  (world s' = world s \/ world s' = (vm_SetMemoryTargetMiB (world s) name (vm_ConfiguredMiB (world s) name)).2) /\
  (last (mgr s') = last (mgr s) \/ last (mgr s') = <[name := vm_ConfiguredMiB (world s') name]> (last (mgr s))).
Proof.
  cbv zeta. unfold probePendingDevice. repeat case_head; simpl; auto;
    match goal with E : vm_SetMemoryTargetMiB _ _ _ = _ |- _ => rewrite E; simpl; auto end.
Qed.

Lemma applyTarget_other name target hold sample reserve deficit now s n :
  n <> name -> let s' := (applyTarget name target hold sample reserve deficit now s).2 in
  last (mgr s') !! n = last (mgr s) !! n /\ lastRetarget (mgr s') !! n = lastRetarget (mgr s) !! n.
Proof.
  intros Hn. cbv zeta. unfold applyTarget. repeat case_head; simpl; rewrite ?lookup_insert_ne by done; done.
Qed.

Lemma probe_interval vms now s name :
  minRetargetInterval (mgr (probePendingDevice vms now s name)) = minRetargetInterval (mgr s).
Proof. unfold probePendingDevice. by repeat case_head. Qed.

Lemma updatePressureLatch_rest sample m :
  lastRetarget (updatePressureLatch sample m) = lastRetarget m /\
  minRetargetInterval (updatePressureLatch sample m) = minRetargetInterval m /\
  devicePending (updatePressureLatch sample m) = devicePending m.
Proof. unfold updatePressureLatch. by repeat case_head. Qed.

(** Inside its retry window a guest whose target nobody moved is left alone. *)
Lemma applyTarget_in_window name target sample reserve deficit now s :
  in_window (mgr s) name now = true -> externallyMovedTarget (world s) name (last (mgr s) !! name) = None ->
  core (applyTarget name target false sample reserve deficit now s).2 = core s.
Proof.
  intros Hw He. unfold applyTarget. cbv zeta. case_bool_decide; [done|].
  rewrite He, bool_decide_eq_true_2, Hw by done. done.
Qed.

Lemma probe_latch vms now s name :
  pressureLatched (mgr (probePendingDevice vms now s name)) = pressureLatched (mgr s).
Proof. unfold probePendingDevice. by repeat case_head. Qed.

Lemma updatePressureLatch_last sample m : last (updatePressureLatch sample m) = last m.
Proof. unfold updatePressureLatch. by repeat case_head. Qed.

Lemma classify_core m w targets s :
  m = mgr s -> w = world s -> core (mkState (classify m w targets).2 w (logs s)) = core s.
Proof.
  intros -> ->. unfold classify.
  assert (forall l acc, core (mkState acc.2 (world s) (logs s)) = core s ->
    core (mkState (foldl (fun '(changed, unapplied, m') '(name, target) =>
      let known := known_target (mgr s) (world s) name in
      if bool_decide (known = Some target) then (changed, unapplied, with_retryPending (fun r => r ∖ {[name]}) m')
      else (true, unapplied || bool_decide (known = None) || bool_decide (name ∈ retryPending (mgr s)), m'))
      acc l).2 (world s) (logs s)) = core s) as Hl; [|by apply Hl].
  induction l as [|[name target] l IH]; intros [[c u] m'] E; [done|].
  cbn [foldl]. apply IH. cbv zeta. by case_bool_decide.
Qed.

Section Invariant.
Context (vms : gset string) (sample : Snapshot) (reserveMiB floorMiB now deficit : Z) (hold : bool).
Context (I : state W -> Prop).

Lemma sweep_round_inv (targets : gmap string Z) (sw : sweep W) :
  (forall s name, I s -> name ∈ dom targets ->
    I (applyTarget name (get_target targets name) hold sample reserveMiB deficit now s).2) ->
  I (sw_state sw) -> I (sw_state (sweep_round sample reserveMiB now deficit hold targets sw)).
Proof.
  intros Hstep.
  assert (forall b l sw, (forall n, n ∈ l -> n ∈ dom targets) -> I (sw_state sw) ->
    I (sw_state (foldl (sweep_name sample reserveMiB now deficit hold targets b) sw l))) as Hf.
  { intros b l. induction l as [|n l IH]; intros sw' Hl HI; [done|]. cbn [foldl].
    apply IH; [set_solver|]. unfold sweep_name. specialize (Hstep (sw_state sw') n HI ltac:(set_solver)).
    destruct (applyTarget _ _ _ _ _ _ _ _) as [o s']. simpl in Hstep. repeat case_head; done. }
  assert (forall n, n ∈ sort_strings (map_to_list targets).*1 -> n ∈ dom targets) as Hn.
  { intros n. rewrite elem_of_sort_strings. intros ([k v] & -> & Hk)%list_elem_of_fmap.
    apply elem_of_map_to_list in Hk. apply elem_of_dom. eauto. }
  intros HI. unfold sweep_round. case_head; auto.
Qed.

Lemma rounds_inv (k : nat) first (sw : sweep W) :
  (forall s s', core s = core s' -> I s -> I s') ->
  (forall s0 s name, I s0 -> I s -> name ∈ dom (planActive (mgr s0) (world s0) vms deficit floorMiB) ->
    I (applyTarget name (get_target (planActive (mgr s0) (world s0) vms deficit floorMiB) name)
         hold sample reserveMiB deficit now s).2) ->
  I (sw_state sw) -> I (sw_state (rounds vms sample reserveMiB floorMiB now deficit hold k first sw)).
Proof.
  intros Hcore Hstep. revert first sw. induction k as [|k IH]; intros first sw HI; [done|].
  cbn [rounds]. set (targets := planActive _ _ _ _ _).
  pose proof (classify_core _ _ targets (sw_state sw) eq_refl eq_refl) as Hc.
  destruct (classify _ _ targets) as [[c u] m'] eqn:E. simpl in Hc.
  assert (I (mkState m' (world (sw_state sw)) (logs (sw_state sw)))) as HI' by by eapply Hcore.
  cbv zeta. destruct (negb c); [done|]. case_head; [done|].
  assert (I (sw_state (sweep_round sample reserveMiB now deficit hold targets
    (mkSweep (mkState m' (world (sw_state sw)) (logs (sw_state sw))) (sw_applied sw) (sw_any sw) false)))) as HI2.
  { apply sweep_round_inv; [|done]. intros s name Hs Hn. by apply (Hstep (sw_state sw)). }
  case_head; [by apply IH|done].
Qed.

Lemma probe_inv s :
  (forall s' name, I s' -> name ∈ vms -> name ∈ devicePending (mgr s) -> in_window (mgr s') name now = false ->
    I (probePendingDevice vms now s' name)) ->
  I s -> I (probePendingDevices vms now s).
Proof.
  unfold probePendingDevices. setoid_rewrite <- elem_of_elements.
  generalize (elements (devicePending (mgr s))) as l. intros l. revert s.
  induction l as [|n l IH]; intros s Hstep HI; [done|]. cbn [foldl].
  apply IH; [intros; apply Hstep; set_solver|].
  destruct (decide (n ∈ vms)) as [Hn|Hn];
    [destruct (in_window (mgr s) n now) eqn:Ew; [|apply Hstep; set_solver]|];
    unfold probePendingDevice; [rewrite Ew|]; repeat case_head; bool_to_prop; done.
Qed.
End Invariant.

(** A tick establishes what its parts preserve. *)
Lemma tick_inv (I : state W -> Prop) vms sample reserve floor hold now s :
  (forall s s', core s = core s' -> I s -> I s') ->
  let s1 := upd (updatePressureLatch sample) s in
  let '(deficit, holds) := tick_deficit (mgr s1) sample reserve hold in
  (forall s' name, I s' -> name ∈ vms -> name ∈ devicePending (mgr s) -> in_window (mgr s') name now = false ->
    I (probePendingDevice vms now s' name)) ->
  (forall s0 s name, I s0 -> I s -> name ∈ dom (planActive (mgr s0) (world s0) vms deficit floor) ->
    I (applyTarget name (get_target (planActive (mgr s0) (world s0) vms deficit floor) name)
         holds sample reserve deficit now s).2) ->
  I s1 ->
  exists s2, I s2 /\ (mgr (ReconcileSnapshot vms sample reserve floor hold now s)) = dropDeparted vms (mgr s2) /\
    world (ReconcileSnapshot vms sample reserve floor hold now s) = world s2.
Proof.
  intros Hcore s1. unfold ReconcileSnapshot. fold s1. destruct (tick_deficit _ _ _ _) as [deficit holds].
  intros Hprobe Hstep HI. assert (I (probePendingDevices vms now s1)) as HI2.
  { apply probe_inv; [|done]. intros s' name. subst s1. simpl.
    replace (devicePending (updatePressureLatch sample (mgr s))) with (devicePending (mgr s)); [apply Hprobe|].
    unfold updatePressureLatch. by repeat case_head. }
  pose proof (rounds_inv vms sample reserve floor now deficit holds I (S (size vms)) true
    (mkSweep (probePendingDevices vms now s1) ∅ false false) Hcore Hstep HI2) as HI3.
  cbv zeta. set (sw := rounds _ _ _ _ _ _ _ _ _ _) in *.
  destruct (sw_any sw); [|by exists (sw_state sw)].
  exists (upd (with_applied deficit true holds) (sw_state sw)). split; [|done].
  by eapply Hcore; [|exact HI3].
Qed.

Lemma dropDeparted_last vms m n :
  last (dropDeparted vms m) !! n = if decide (n ∈ vms) then last m !! n else None.
Proof.
  assert (last (dropDeparted vms m) = filter (fun kv => kv.1 ∈ vms) (last m)) as ->.
  { unfold dropDeparted. by case_match. }
  rewrite map_lookup_filter. destruct (last m !! n) as [t|]; simpl; repeat case_decide; simpl; repeat case_guard; done.
Qed.
End Facts.

Section Plans.
Context {W : Type} `{Balloonable W}.

(** The guests a plan covers. *)
Definition plan_nodes (m : Manager) (w : W) (vms : gset string) : list Node :=
  (fun name => mkNode name (vm_ConfiguredMiB w name)) <$> elements (vms ∖ devicePending m).

Lemma planActive_dom m w vms deficit floor :
  dom (planActive m w vms deficit floor) = vms ∖ devicePending m.
Proof.
  assert (dom (PlanTargets (plan_nodes m w vms) deficit floor) = vms ∖ devicePending m) as Hd.
  { rewrite PlanTargets_dom. unfold plan_nodes. rewrite <- list_fmap_compose.
    replace (node_Name ∘ (fun name => mkNode name (vm_ConfiguredMiB w name)) <$> elements (vms ∖ devicePending m))
      with (elements (vms ∖ devicePending m)) by (symmetry; apply list_fmap_id).
    by rewrite list_to_set_elements_L. }
  unfold planActive. cbv zeta. fold (plan_nodes m w vms). destruct (pressureLatched m); [|done].
  rewrite <- Hd. apply set_eq. intros n. rewrite !elem_of_dom, map_lookup_imap.
  destruct (PlanTargets _ _ _ !! n) as [t|]; simpl; [|done]. by destruct (last m !! n).
Qed.

(** A plan's target is the shared-out one, or below it under the latch. *)
Lemma planActive_le m w vms deficit floor n :
  n ∈ vms ∖ devicePending m ->
  get_target (planActive m w vms deficit floor) n <= get_target (PlanTargets (plan_nodes m w vms) deficit floor) n /\
  (pressureLatched m = false ->
   get_target (planActive m w vms deficit floor) n = get_target (PlanTargets (plan_nodes m w vms) deficit floor) n) /\
  (forall t, pressureLatched m = true -> last m !! n = Some t -> get_target (planActive m w vms deficit floor) n <= t).
Proof.
  intros Hn. rewrite <- (planActive_dom m w vms deficit floor) in Hn. apply elem_of_dom in Hn as [x Hx].
  unfold get_target. rewrite Hx. revert Hx. unfold planActive. cbv zeta. fold (plan_nodes m w vms).
  destruct (pressureLatched m); [|intros ->; split; [done|split; done]].
  rewrite map_lookup_imap. destruct (PlanTargets _ _ _ !! n) as [t|]; simpl; [|done].
  destruct (last m !! n) as [p|]; intros [= <-]; simpl; [|by repeat split].
  set (c := match vm_CurrentTargetMiB w n with Some _ => _ | None => _ end).
  assert (c <= p) by (subst c; repeat case_head; bool_to_prop; lia).
  split; [case_head; bool_to_prop; lia|]. split; [done|]. intros t' _ [= <-]. case_head; bool_to_prop; lia.
Qed.

Lemma plan_nodes_elem m w vms n :
  n ∈ vms ∖ devicePending m -> mkNode n (vm_ConfiguredMiB w n) ∈ plan_nodes m w vms.
Proof. intros Hn. apply list_elem_of_fmap. exists n. split; [done|]. by apply elem_of_elements. Qed.

(** The guests of a host: sizes that are not negative and fit in 2 PiB. *)
Definition host_ok (w : W) (vms : gset string) (floor : Z) : Prop :=
  (forall n, n ∈ vms -> 0 <= vm_ConfiguredMiB w n) /\
  zsum (vm_ConfiguredMiB w) (elements vms) < 2 ^ 31 /\ 0 <= floor < 2 ^ 31.

Lemma host_ok_guest_set m w vms floor : host_ok w vms floor -> guest_set (plan_nodes m w vms) floor.
Proof.
  intros (Hp & Ht & Hf). split; [|split; [|split; [|done]]].
  - unfold plan_nodes. rewrite <- list_fmap_compose.
    replace (node_Name ∘ (fun name => mkNode name (vm_ConfiguredMiB w name)) <$> elements (vms ∖ devicePending m))
      with (elements (vms ∖ devicePending m)) by (symmetry; apply list_fmap_id). apply NoDup_elements.
  - apply Forall_forall. intros n (k & -> & Hk)%list_elem_of_fmap. apply Hp. set_solver.
  - unfold plan_nodes. rewrite zsum_map. simpl. eapply Z.le_lt_trans; [|exact Ht].
    apply zsum_submseteq; [intros x Hx; apply Hp; set_solver|].
    apply NoDup_submseteq; [apply NoDup_elements|set_solver].
Qed.

Lemma planActive_range m w vms deficit floor n :
  host_ok w vms floor -> deficit < 2 ^ 31 -> n ∈ vms ∖ devicePending m ->
  get_target (planActive m w vms deficit floor) n <= vm_ConfiguredMiB w n /\
  (pressureLatched m = false -> Z.min (vm_ConfiguredMiB w n) floor <= get_target (planActive m w vms deficit floor) n).
Proof.
  intros Hh Hd Hn. destruct (planActive_le m w vms deficit floor n Hn) as (Hle & Heq & _).
  pose proof (plan_bounds (plan_nodes m w vms) deficit floor _ (host_ok_guest_set m w vms floor Hh) Hd
    (plan_nodes_elem m w vms n Hn)) as Hb. simpl in Hb.
  split; [lia|]. intros E. rewrite (Heq E). lia.
Qed.
End Plans.

(** ** The latch over a history of samples *)

(** The exact thresholds, in unbounded arithmetic. *)
Definition arms (sample : Snapshot) : Prop :=
  80 <= snapshotSwapPercent sample \/ elevated (SnapPressure sample) = true \/
  (if 0 <? TotalMiB sample then TotalMiB sample * 20 <= CompressorMiB sample * 100 else 4096 <= CompressorMiB sample).
Definition clears (sample : Snapshot) : Prop :=
  snapshotSwapPercent sample < 70 /\ elevated (SnapPressure sample) = false /\
  (if 0 <? TotalMiB sample then CompressorMiB sample * 100 < TotalMiB sample * 15 else CompressorMiB sample < 3072).

(** A sample a host can report: under 2^40 MiB of anything. *)
Definition sample_ok (sample : Snapshot) : Prop :=
  0 <= TotalMiB sample < 2 ^ 40 /\ 0 <= CompressorMiB sample < 2 ^ 40.

Definition latch_history (m : Manager) (samples : list Snapshot) : Manager :=
  foldl (fun m sample => updatePressureLatch sample m) m samples.

Lemma updatePressureLatch_spec sample m :
  sample_ok sample ->
  let m' := updatePressureLatch sample m in
  (arms sample -> pressureLatched m' = true) /\
  (clears sample -> pressureLatched m' = false) /\
  (~ arms sample -> ~ clears sample -> pressureLatched m' = pressureLatched m).
Proof.
  intros [Ht Hc]. cbv zeta. unfold updatePressureLatch, arms, clears, pressureArmSwapPercent, pressureClearSwapPercent,
    pressureArmCompressorPct, pressureClearCompressorPct, pressureArmCompressorMiB, pressureClearCompressorMiB.
  rewrite !wrap64_id by int64_lia. set (p := snapshotSwapPercent sample). clearbody p.
  destruct (elevated (SnapPressure sample)), (0 <? TotalMiB sample) eqn:E1; simpl;
    repeat case_head; bool_to_prop; simpl; intuition (try lia || congruence);
    repeat match goal with
      | H : _ || _ = true |- _ => apply orb_true_iff in H as [H|H]
      | H : _ && _ = false |- _ => apply andb_false_iff in H as [H|H]
      end; bool_to_prop; try lia; try congruence.
Qed.

Lemma arms_not_clears sample : 0 <= TotalMiB sample -> arms sample -> ~ clears sample.
Proof. unfold arms, clears. intros Ht Ha (H1 & H2 & H3).
  destruct (0 <? TotalMiB sample) eqn:E; bool_to_prop; intuition (congruence || lia). Qed.

(** Hysteresis.  After any history of samples the pressure latch is set
    exactly when some sample reached an arming threshold (swap 80%, compressor
    20% of memory, kernel pressure) and no later sample was below all the clear
    thresholds (70%, 15%), or it was set to begin with and none was. *)
Theorem pressure_latch_hysteresis m samples :
  Forall sample_ok samples ->
  pressureLatched (latch_history m samples) = true <->
  (exists before s after, samples = before ++ s :: after /\ arms s /\ Forall (fun x => ~ clears x) after) \/
  (pressureLatched m = true /\ Forall (fun x => ~ clears x) samples).
Proof.
  intros Hok. unfold latch_history. induction samples as [|s l IH] using rev_ind.
  { split; [by right|]. intros [(b & s & a & E & _)|[E _]]; [by destruct b|done]. }
  apply Forall_app in Hok as [Hl [Hs _]%Forall_cons]. specialize (IH Hl).
  rewrite foldl_app. cbn [foldl]. set (m1 := foldl _ m l) in *.
  destruct (updatePressureLatch_spec s m1 Hs) as (Ha & Hc & Hk).
  assert (arms s \/ ~ arms s) as [A|A].
  { unfold arms. destruct (elevated (SnapPressure s)), (0 <? TotalMiB s); lia || (left; tauto) || idtac. }
  - split; [|auto]. intros _. left. exists l, s, []. auto.
  - assert (clears s \/ ~ clears s) as [C|C].
    { unfold clears. destruct (elevated (SnapPressure s)), (0 <? TotalMiB s); lia || idtac. }
    + rewrite (Hc C). split; [done|]. intros [(b & x & a & E & Hx & Hf)|[_ Hf]].
      * destruct a as [|y a _] using rev_ind.
        { apply app_inj_tail in E as [_ ->]. done. }
        rewrite app_comm_cons, app_assoc in E. apply app_inj_tail in E as [_ ->].
        by apply Forall_app in Hf as [_ [? _]%Forall_cons].
      * by apply Forall_app in Hf as [_ [? _]%Forall_cons].
    + rewrite (Hk A C), IH. split.
      * intros [(b & x & a & -> & Hx & Hf)|[E Hf]]; [left|right].
        -- exists b, x, (a ++ [s]). rewrite <- app_assoc. repeat split; auto. apply Forall_app. auto.
        -- split; [done|]. apply Forall_app. auto.
      * intros [(b & x & a & E & Hx & Hf)|[E Hf]]; [left|right].
        -- destruct a as [|y a _] using rev_ind.
           { apply app_inj_tail in E as [_ ->]. done. }
           rewrite app_comm_cons, app_assoc in E. apply app_inj_tail in E as [-> ->].
           exists b, x, a. apply Forall_app in Hf as [? _]. auto.
        -- by apply Forall_app in Hf as [? _].
Qed.

Lemma pressure_latch_hysteresis_witness :
  pressureLatched (latch_history NewManager
    [mkSnapshot 1000 500 250 0 0 PressureNormal; mkSnapshot 1000 500 180 0 0 PressureNormal]) = true <->
  (exists before s after, [mkSnapshot 1000 500 250 0 0 PressureNormal; mkSnapshot 1000 500 180 0 0 PressureNormal]
     = before ++ s :: after /\ arms s /\ Forall (fun x => ~ clears x) after) \/
  (pressureLatched NewManager = true /\
   Forall (fun x => ~ clears x) [mkSnapshot 1000 500 250 0 0 PressureNormal; mkSnapshot 1000 500 180 0 0 PressureNormal]).
Proof. apply pressure_latch_hysteresis. repeat constructor; simpl; lia. Defined.

(** ** One tick *)

(** While the latch is set, a tick hands no memory back: the recorded target
    of every guest whose balloon device is up stays or shrinks. *)
Theorem latched_tick_never_releases {W} `{Balloonable W} vms sample reserve floor hold now (s : state W) n t t' :
  pressureLatched (updatePressureLatch sample (mgr s)) = true ->
  n ∉ devicePending (mgr s) -> last (mgr s) !! n = Some t ->
  last (mgr (ReconcileSnapshot vms sample reserve floor hold now s)) !! n = Some t' -> t' <= t.
Proof.
  intros Hl Hd Ht Ht'.
  pose proof (tick_inv (fun s : state W => pressureLatched (mgr s) = true /\ exists x, last (mgr s) !! n = Some x /\ x <= t)
    vms sample reserve floor hold now s) as Hi. cbv zeta in Hi.
  destruct (tick_deficit _ _ _ _) as [deficit holds].
  destruct Hi as (s2 & (_ & x & Hx & Hle) & Hm & _).
  - intros s1 s1' [= E1 E2 E3 E4 E5 E6]. by rewrite E1, E4.
  - intros s' name (HL & x & Hx & Hle) Hv Hp _. assert (n <> name) by (intros ->; by apply Hd).
    destruct (probePendingDevice_other vms now s' name n) as [E _]; [done|]. rewrite E, probe_latch. eauto.
  - intros s0 s' name (HL0 & x0 & Hx0 & Hle0) (HL & x & Hx & Hle). rewrite planActive_dom. intros Hn.
    destruct (applyTarget_ledger name (get_target (planActive (mgr s0) (world s0) vms deficit floor) name)
      holds sample reserve deficit now s') as (E & E2 & _). cbv zeta in *. rewrite E2. split; [done|].
    destruct E as [->| ->]; [eauto|]. rewrite lookup_insert. case_decide; [subst|eauto].
    destruct (planActive_le (mgr s0) (world s0) vms deficit floor n Hn) as (_ & _ & Hc).
    eexists. split; [done|]. specialize (Hc x0 HL0 Hx0). lia.
  - simpl. split; [done|]. rewrite updatePressureLatch_last. exists t. split; [done|lia].
  - rewrite Hm, dropDeparted_last in Ht'. case_decide; [|done]. simplify_eq. lia.
Qed.

(** A host with two guests, one of them idle. *)
Definition demo_world : gmap string sim_guest :=
  {[ "a" := mkGuest 4096 2048 SetOk; "b" := mkGuest 2048 2048 SetOk ]}.
Definition demo_state : state (gmap string sim_guest) :=
  mkState (with_last (fun _ => {[ "a" := 2048; "b" := 2048 ]}) NewManager) demo_world [].
Definition demo_vms : gset string := {[ "a"; "b" ]}.
Definition warning_sample : Snapshot := mkSnapshot 16384 8000 100 0 0 PressureWarning.

Lemma latched_tick_never_releases_witness :
  default 0 (last (mgr (ReconcileSnapshot demo_vms warning_sample 4096 1024 0 0 demo_state)) !! "a") <= 2048.
Proof.
  refine (latched_tick_never_releases demo_vms warning_sample 4096 1024 0 0 demo_state "a" 2048 _ _ _ _ _).
  - reflexivity.
  - apply (bool_decide_unpack _). vm_compute. exact I.
  - reflexivity.
  - vm_compute. reflexivity.
Defined.

(** Every target a tick records is at most the guest's configured size and,
    unless the latch is holding, at least the per-node floor (or the guest's
    size when that is smaller). *)
Theorem tick_targets_in_range {W} `{BalloonLaws W} vms sample reserve floor hold now (s : state W) n t :
  host_ok (world s) vms floor -> 0 <= reserve < 2 ^ 31 -> 0 <= AvailableMiB sample < 2 ^ 62 -> hold < 2 ^ 31 ->
  last (mgr (ReconcileSnapshot vms sample reserve floor hold now s)) !! n = Some t ->
  last (mgr s) !! n = Some t \/
  (t <= vm_ConfiguredMiB (world s) n /\
   (pressureLatched (updatePressureLatch sample (mgr s)) = false -> Z.min (vm_ConfiguredMiB (world s) n) floor <= t)).
Proof.
  intros Hh Hr Ha Hhold Ht. set (conf := vm_ConfiguredMiB (world s)).
  set (L := pressureLatched (updatePressureLatch sample (mgr s))).
  set (ok := fun n t => last (mgr s) !! n = Some t \/ (t <= conf n /\ (L = false -> Z.min (conf n) floor <= t))).
  assert (forall (s1 : state W), (forall m, vm_ConfiguredMiB (world s1) m = conf m) -> host_ok (world s1) vms floor) as Hhost.
  { intros s1 E. destruct Hh as (H1 & H2 & H3). split; [|split; [|done]].
    - intros m Hm. rewrite E. auto.
    - rewrite (zsum_ext _ conf); auto. }
  pose proof (tick_inv (fun s1 : state W => pressureLatched (mgr s1) = L /\
    (forall m, vm_ConfiguredMiB (world s1) m = conf m) /\ (forall n t, last (mgr s1) !! n = Some t -> ok n t))
    vms sample reserve floor hold now s) as Hi. cbv zeta in Hi.
  destruct (tick_deficit _ _ _ _) as [deficit holds] eqn:Ed.
  assert (deficit < 2 ^ 31) as Hdef.
  { unfold tick_deficit in Ed. rewrite wrap64_id in Ed by int64_lia.
    injection Ed as <- _. repeat case_head; bool_to_prop; lia. }
  destruct Hi as (s2 & (_ & _ & Hok) & Hm & _).
  - intros s1 s1' [= E1 E2 E3 E4 E5 E6]. by rewrite E1, E4, E6.
  - intros s' name (HL & Hc & Hok) Hv _ _. rewrite probe_latch. split; [done|].
    destruct (probe_effect vms now s' name) as (Ew & El). split.
    + intros m. destruct Ew as [->| ->]; [done|]. by rewrite set_configured.
    + intros k x Hx. destruct El as [El|El]; rewrite El in Hx; [auto|].
      rewrite lookup_insert in Hx. case_decide; [|auto]. subst. injection Hx as <-. right.
      destruct Ew as [->| ->]; rewrite ?set_configured, Hc; lia.
  - intros s0 s' name (HL0 & Hc0 & _) (HL & Hc & Hok). rewrite planActive_dom. intros Hn.
    destruct (applyTarget_ledger name (get_target (planActive (mgr s0) (world s0) vms deficit floor) name)
      holds sample reserve deficit now s') as (E & E2 & _ & Ew). cbv zeta in *. rewrite E2. split; [done|]. split.
    + intros m. destruct Ew as [->| ->]; [done|]. by rewrite set_configured.
    + intros k x Hx. destruct E as [E|E]; rewrite E in Hx; [auto|].
      rewrite lookup_insert in Hx. case_decide; [|auto]. subst. injection Hx as <-. right.
      destruct (planActive_range (mgr s0) (world s0) vms deficit floor k (Hhost _ Hc0) Hdef Hn) as [H1 H2].
      rewrite Hc0 in H1, H2. split; [done|]. intros EL. apply H2. congruence.
  - simpl. split; [done|]. split; [done|]. rewrite updatePressureLatch_last. intros k x Hx. by left.
  - rewrite Hm, dropDeparted_last in Ht. case_decide; [|done]. by apply Hok.
Qed.

Lemma tick_targets_in_range_witness :
  last (mgr demo_state) !! "a" = Some 2048 \/
  (2048 <= 4096 /\ (pressureLatched (updatePressureLatch warning_sample (mgr demo_state)) = false -> Z.min 4096 1024 <= 2048)).
Proof.
  refine (tick_targets_in_range demo_vms warning_sample 4096 1024 0 0 demo_state "a" 2048 _ _ _ _ _);
    [|simpl; lia..|vm_compute; reflexivity].
  split; [|split; [vm_compute; reflexivity|lia]].
  apply (bool_decide_unpack (set_Forall (fun n => 0 <= vm_ConfiguredMiB demo_world n) demo_vms)). vm_compute. exact I.
Defined.

(** Rate limiting.  When no hold is in force, a guest retargeted less than
    the minimum interval ago, and whose target nobody else moved since, is
    neither retargeted by the tick nor is its record changed, whatever the
    sample and whatever the other guests answer. *)
Theorem retry_window_respected {W} `{BalloonLaws W} vms sample reserve floor hold now (s : state W) n t :
  n ∈ vms -> lastRetarget (mgr s) !! n = Some t -> now - t < minRetargetInterval (mgr s) ->
  externallyMovedTarget (world s) n (last (mgr s) !! n) = None ->
  (tick_deficit (updatePressureLatch sample (mgr s)) sample reserve hold).2 = false ->
  let s' := ReconcileSnapshot vms sample reserve floor hold now s in
  last (mgr s') !! n = last (mgr s) !! n /\ vm_CurrentTargetMiB (world s') n = vm_CurrentTargetMiB (world s) n.
Proof.
  intros Hn Ht Hw He Hh. cbv zeta.
  pose proof (tick_inv (fun s1 : state W => last (mgr s1) !! n = last (mgr s) !! n /\
    in_window (mgr s1) n now = true /\ vm_CurrentTargetMiB (world s1) n = vm_CurrentTargetMiB (world s) n)
    vms sample reserve floor hold now s) as Hi. cbv zeta in Hi. cbn [mgr upd] in Hi.
  destruct (tick_deficit _ _ _ _) as [deficit holds] eqn:Ed. simpl in Hh. subst holds.
  destruct Hi as (s2 & (E1 & _ & E2) & Hm & Ew).
  - unfold in_window. intros s1 s1' [= F1 F2 F3 F4 F5 F6]. by rewrite F1, F2, F5, F6.
  - intros s' name (E1 & Ewin & E2) Hv _ Hwin. assert (n <> name) as Hne by congruence.
    destruct (probePendingDevice_other vms now s' name n Hne) as [F1 F2].
    destruct (probe_effect vms now s' name) as [F3 _].
    unfold in_window in *. rewrite F1, F2, probe_interval. repeat split; [done..|].
    destruct F3 as [->| ->]; [done|]. by rewrite set_frame.
  - intros s0 s' name _ (E1 & Ewin & E2) _. cbv beta. set (target := get_target _ name). clearbody target.
    destruct (decide (n = name)) as [<-|Hne].
    + assert (externallyMovedTarget (world s') n (last (mgr s') !! n) = None) as He'
        by (unfold externallyMovedTarget in *; by rewrite E1, E2).
      pose proof (applyTarget_in_window n target sample reserve deficit now s' Ewin He') as F.
      apply core_inv in F as (F1 & F2 & F3 & F4 & F5 & F6). unfold in_window in *. by rewrite F1, F2, F5, F6.
    + destruct (applyTarget_other name target false sample reserve deficit now s' n Hne) as [F1 F2].
      destruct (applyTarget_ledger name target false sample reserve deficit now s') as (_ & _ & F3 & F4).
      cbv zeta in *. unfold in_window in *. rewrite F1, F2, F3. repeat split; [done..|].
      destruct F4 as [->| ->]; [done|]. by rewrite set_frame.
  - destruct (updatePressureLatch_rest sample (mgr s)) as (F1 & F2 & _).
    unfold in_window. simpl. rewrite updatePressureLatch_last, F1, F2, Ht. repeat split. lia.
  - rewrite Hm, dropDeparted_last, decide_True, Ew by done. done.
Qed.

(** The first guest was retargeted at time 100. *)
Definition demo_recent : state (gmap string sim_guest) := upd (with_lastRetarget (insert "a" 100)) demo_state.

Definition demo_retried : state (gmap string sim_guest) := ReconcileSnapshot demo_vms warning_sample 9000 1024 0 200 demo_recent.

Lemma retry_window_respected_witness :
  last (mgr demo_retried) !! "a" = last (mgr demo_recent) !! "a" /\
  vm_CurrentTargetMiB (world demo_retried) "a" = vm_CurrentTargetMiB (world demo_recent) "a".
Proof.
  refine (retry_window_respected demo_vms warning_sample 9000 1024 0 200 demo_recent "a" 100 _ _ _ _ _).
  - apply (bool_decide_unpack _). vm_compute. exact I.
  - reflexivity.
  - vm_compute. reflexivity.
  - reflexivity.
  - reflexivity.
Defined.

(** ** A tick under a hold *)

Section Settles.
Context {W : Type} `{BalloonLaws W}.
Context (vms : gset string) (sample : Snapshot) (reserveMiB floorMiB now deficit : Z).

(** Guests that accept every target while [Good] lasts, and [Good] lasts. *)
Context (Good : W -> Prop).
Context (good_set : forall w n t, Good w -> n ∈ vms ->
  exists w', vm_SetMemoryTargetMiB w n t = (SetOk, w') /\ Good w').

Lemma apply_settles n target (s : state W) :
  Good (world s) -> n ∈ vms ->
  let '(o, s') := applyTarget n target true sample reserveMiB deficit now s in
  (o = applyOutcomeSkipped \/ o = applyOutcomeApplied) /\ Good (world s') /\ last (mgr s') !! n = Some target.
Proof.
  intros Hg Hn. unfold applyTarget. cbv zeta. case_bool_decide as Hk.
  - split; [by left|]. split; [done|]. unfold known_target in Hk. by case_head_in Hk.
  - cbn [negb andb]. destruct (good_set (world s) n target Hg Hn) as (w' & -> & Hg').
    split; [by right|]. case_head; simpl; rewrite lookup_insert_eq; done.
Qed.

Context (targets : gmap string Z) (targets_dom : dom targets ⊆ vms).

Definition settled (sw : sweep W) (n : string) : Prop :=
  last (mgr (sw_state sw)) !! n = Some (get_target targets n).

(** What the reductions leave of a name for the releases. *)
Definition half_settled (sw : sweep W) (n : string) : Prop :=
  settled sw n \/
  (currentMiB (mgr (sw_state sw)) (world (sw_state sw)) n <= get_target targets n /\ sw_applied sw !! n = None).

Let step := sweep_name sample reserveMiB now deficit true targets.

Lemma sweep_name_frame b sw n m :
  m <> n ->
  (settled sw m -> settled (step b sw n) m) /\ (half_settled sw m -> half_settled (step b sw n) m) /\
  sw_applied (step b sw n) !! m = sw_applied sw !! m.
Proof.
  intros Hne. unfold step, half_settled, settled, sweep_name. cbv zeta.
  case_head; [tauto|]. case_head; [tauto|].
  destruct (applyTarget_other n (get_target targets n) true sample reserveMiB deficit now (sw_state sw) m Hne) as [F1 _].
  destruct (applyTarget_ledger n (get_target targets n) true sample reserveMiB deficit now (sw_state sw)) as (_ & _ & _ & F2).
  destruct (applyTarget _ _ _ _ _ _ _ _) as [o s'] eqn:E. simpl in F1, F2.
  assert (currentMiB (mgr s') (world s') m = currentMiB (mgr (sw_state sw)) (world (sw_state sw)) m) as Hc.
  { unfold currentMiB. rewrite F1. destruct F2 as [->| ->]; [done|]. by rewrite set_configured, set_frame. }
  destruct o; simpl; rewrite ?lookup_insert_ne, F1, Hc by done; tauto.
Qed.

Lemma sweep_name_good b sw n :
  Good (world (sw_state sw)) -> n ∈ vms -> sw_pending sw = false ->
  Good (world (sw_state (step b sw n))) /\ sw_pending (step b sw n) = false.
Proof.
  intros Hg Hn Hp. unfold step, sweep_name. cbv zeta. case_head; [done|]. case_head; [done|].
  pose proof (apply_settles n (get_target targets n) (sw_state sw) Hg Hn) as Ha.
  destruct (applyTarget _ _ _ _ _ _ _ _) as [o s']. destruct Ha as ([->| ->] & Hg' & _); done.
Qed.

Lemma sweep_name_reduces sw n :
  Good (world (sw_state sw)) -> n ∈ vms -> sw_applied sw !! n = None -> half_settled (step true sw n) n.
Proof.
  intros Hg Hn Ha. unfold half_settled, settled, step, sweep_name. cbv zeta. rewrite Ha.
  destruct (_ <? _) eqn:Hlt; simpl; bool_to_prop; [|right; split; [lia|done]].
  pose proof (apply_settles n (get_target targets n) (sw_state sw) Hg Hn) as Hs.
  destruct (applyTarget _ _ _ _ _ _ _ _) as [o s']. destruct Hs as ([->| ->] & _ & E); left; done.
Qed.

Lemma sweep_name_releases sw n :
  Good (world (sw_state sw)) -> n ∈ vms -> half_settled sw n -> settled (step false sw n) n.
Proof.
  intros Hg Hn Hh. unfold half_settled, settled, step, sweep_name in *. cbv zeta.
  pose proof (apply_settles n (get_target targets n) (sw_state sw) Hg Hn) as Hs.
  destruct Hh as [Hh|[Hle Ha]].
  - case_head; [done|]. case_head; [done|].
    destruct (applyTarget _ _ _ _ _ _ _ _) as [o s']. destruct Hs as ([->| ->] & _ & E); done.
  - rewrite (proj2 (Z.ltb_ge _ _) Hle). simpl. rewrite Ha.
    destruct (applyTarget _ _ _ _ _ _ _ _) as [o s']. destruct Hs as ([->| ->] & _ & E); done.
Qed.

Lemma sweep_pass b (P : sweep W -> string -> Prop) (Q : sweep W -> string -> Prop) l sw :
  (forall sw n m, m <> n -> P sw m -> P (step b sw n) m) ->
  (forall sw n m, m <> n -> Q sw m -> Q (step b sw n) m) ->
  (forall sw n, Good (world (sw_state sw)) -> n ∈ vms -> P sw n -> Q (step b sw n) n) ->
  NoDup l -> (forall n, n ∈ l -> n ∈ vms) -> Good (world (sw_state sw)) -> sw_pending sw = false ->
  (forall n, n ∈ l -> P sw n) ->
  let sw' := foldl (step b) sw l in
  Good (world (sw_state sw')) /\ sw_pending sw' = false /\ (forall n, n ∈ l -> Q sw' n).
Proof.
  intros HP HQ Hstep. cbv zeta.
  assert (forall l sw x, x ∉ l -> Q sw x -> Q (foldl (step b) sw l) x) as Hkeep.
  { intros l0. induction l0 as [|y l0 IH]; intros sw0 x Hx HQx; [done|]. cbn [foldl].
    apply IH; [set_solver|]. apply HQ; [set_solver|done]. }
  revert sw. induction l as [|n l IH]; intros sw Hnd Hv Hg Hp HPl; [split; [done|split; [done|set_solver]]|].
  apply NoDup_cons in Hnd as [Hni Hnd]. cbn [foldl].
  destruct (sweep_name_good b sw n Hg ltac:(set_solver) Hp) as [Hg' Hp'].
  destruct (IH (step b sw n) Hnd ltac:(set_solver) Hg' Hp') as (H1 & H2 & H3).
  { intros m Hm. apply HP; [set_solver|]. apply HPl. by right. }
  split; [done|]. split; [done|]. intros m [->|Hm]%elem_of_cons; [|auto].
  apply Hkeep; [done|]. apply Hstep; [done|set_solver|]. apply HPl. by left.
Qed.

Lemma sweep_round_settles sw :
  Good (world (sw_state sw)) -> sw_pending sw = false -> sw_applied sw = ∅ ->
  let sw' := sweep_round sample reserveMiB now deficit true targets sw in
  sw_pending sw' = false /\ forall n, n ∈ dom targets -> settled sw' n.
Proof.
  intros Hg Hp Ha. cbv zeta. unfold sweep_round. fold (step true) (step false).
  set (names := sort_strings _).
  assert (forall n, n ∈ names <-> n ∈ dom targets) as Hnames.
  { intros n. unfold names. rewrite elem_of_sort_strings, list_elem_of_fmap, elem_of_dom. split.
    - intros ([k v] & -> & E%elem_of_map_to_list). eauto.
    - intros [v E]. exists (n, v). split; [done|]. by apply elem_of_map_to_list. }
  assert (NoDup names) as Hnd by (apply NoDup_sort_strings, NoDup_fst_map_to_list).
  assert (forall n, n ∈ names -> n ∈ vms) as Hv by (intros n; rewrite Hnames; set_solver).
  destruct (sweep_pass true (fun sw n => sw_applied sw !! n = None) half_settled names sw) as (Hg1 & Hp1 & Hh); try done.
  { intros s1 n m Hne E. by destruct (sweep_name_frame true s1 n m Hne) as (_ & _ & ->). }
  { intros s1 n m Hne. by destruct (sweep_name_frame true s1 n m Hne) as (_ & ? & _). }
  { intros s1 n. apply sweep_name_reduces. }
  { intros n _. by rewrite Ha. }
  rewrite Hp1.
  destruct (sweep_pass false half_settled settled names (foldl (step true) sw names)) as (_ & Hp2 & Hs); try done.
  { intros s1 n m Hne. by destruct (sweep_name_frame false s1 n m Hne) as (_ & ? & _). }
  { intros s1 n m Hne. by destruct (sweep_name_frame false s1 n m Hne) as (? & _). }
  { intros s1 n. apply sweep_name_releases. }
  split; [done|]. intros n. rewrite <- Hnames. apply Hs.
Qed.
End Settles.

Lemma classify_unchanged {W} `{Balloonable W} (m : Manager) (w : W) targets n t :
  (classify m w targets).1.1 = false -> targets !! n = Some t -> last m !! n = Some t.
Proof.
  intros Hc Ht. apply elem_of_map_to_list in Ht. revert Hc Ht. unfold classify.
  set (f := fun '(changed, unapplied, m') '(name, target) => _).
  assert (forall l acc, acc.1.1 = true -> (foldl f acc l).1.1 = true) as Hmono.
  { induction l as [|[k x] l IH]; intros [[c u] m'] E; [done|]. cbn [foldl]. apply IH.
    simpl in E. subst. simpl. by case_bool_decide. }
  generalize (map_to_list targets) as l. intros l. generalize (false, false, m) as acc.
  induction l as [|[k x] l IH]; intros acc Hc Hin; [set_solver|]. cbn [foldl] in Hc.
  apply elem_of_cons in Hin as [[= <- <-]|Hin]; [|by eapply IH].
  destruct acc as [[c u] m']. simpl in Hc. case_bool_decide as Hk.
  - unfold known_target in Hk. by case_head_in Hk.
  - rewrite Hmono in Hc by done. done.
Qed.

Lemma hold_tick_settled {W} `{BalloonLaws W} (Good : W -> Prop) vms sample reserve floor hold now (s : state W) deficit n :
  (forall w n t, Good w -> n ∈ vms -> exists w', vm_SetMemoryTargetMiB w n t = (SetOk, w') /\ Good w') ->
  Good (world s) -> devicePending (mgr s) = ∅ ->
  pressureLatched (updatePressureLatch sample (mgr s)) = false ->
  tick_deficit (updatePressureLatch sample (mgr s)) sample reserve hold = (deficit, true) -> n ∈ vms ->
  last (mgr (ReconcileSnapshot vms sample reserve floor hold now s)) !! n =
  Some (get_target (PlanTargets (plan_nodes (mgr s) (world s) vms) deficit floor) n).
Proof.
  intros Hset Hg Hd Hl Hdef Hn. unfold ReconcileSnapshot. cbv zeta. cbn [mgr upd]. rewrite Hdef.
  set (s1 := upd (updatePressureLatch sample) s).
  destruct (updatePressureLatch_rest sample (mgr s)) as (_ & _ & Hd1). rewrite Hd in Hd1.
  assert (probePendingDevices vms now s1 = s1) as ->.
  { unfold probePendingDevices, s1. simpl. by rewrite Hd1, elements_empty. }
  cbn [rounds sw_state]. set (T := planActive (mgr s1) (world s1) vms deficit floor).
  assert (dom T = vms) as HT by (unfold T; rewrite planActive_dom; simpl; rewrite Hd1; set_solver).
  assert (get_target T n = get_target (PlanTargets (plan_nodes (mgr s) (world s) vms) deficit floor) n) as <-.
  { destruct (planActive_le (mgr s1) (world s1) vms deficit floor n) as (_ & E & _).
    { simpl. rewrite Hd1. set_solver. }
    unfold T. rewrite (E Hl). unfold plan_nodes. simpl. by rewrite Hd1, Hd. }
  pose proof (classify_unchanged (mgr s1) (world s1) T n) as Hc.
  pose proof (classify_core (mgr s1) (world s1) T s1 eq_refl eq_refl) as Hcore.
  destruct (classify (mgr s1) (world s1) T) as [[changed u] m'] eqn:Ec. simpl in Hc, Hcore.
  apply core_inv in Hcore as (E1 & _). simpl in E1.
  assert (exists t, T !! n = Some t) as [t Ht] by (apply elem_of_dom; by rewrite HT).
  destruct changed; cbn [negb andb].
  2:{ simpl. rewrite dropDeparted_last, decide_True, E1 by done. rewrite (Hc t eq_refl Ht).
      unfold get_target. by rewrite Ht. }
  cbn [sw_applied sw_any].
  destruct (sweep_round_settles vms sample reserve now deficit Good Hset T ltac:(set_solver)
    (mkSweep (mkState m' (world s1) (logs s1)) ∅ false false)) as [Hp Hs]; try done.
  set (sw := sweep_round _ _ _ _ _ _ _) in *. rewrite Hp.
  specialize (Hs n ltac:(set_solver)). unfold settled in Hs.
  destruct (sw_any sw); simpl; rewrite dropDeparted_last, decide_True by done; done.
Qed.

(** A hold is applied in one tick.  When the hold sets the deficit, no
    pressure latch is set, every balloon device is up and the guests accept
    their targets, the ledger after one tick is exactly the shared-out plan:
    two passes (reductions, then releases) reach every guest. *)
Theorem hold_tick_settles {W} `{BalloonLaws W} (Good : W -> Prop) vms sample reserve floor hold now (s : state W) deficit n :
  (forall w n t, Good w -> n ∈ vms -> exists w', vm_SetMemoryTargetMiB w n t = (SetOk, w') /\ Good w') ->
  Good (world s) -> devicePending (mgr s) = ∅ ->
  pressureLatched (updatePressureLatch sample (mgr s)) = false ->
  tick_deficit (updatePressureLatch sample (mgr s)) sample reserve hold = (deficit, true) -> n ∈ vms ->
  last (mgr (ReconcileSnapshot vms sample reserve floor hold now s)) !! n =
  Some (get_target (PlanTargets (plan_nodes (mgr s) (world s) vms) deficit floor) n).
Proof. apply hold_tick_settled. Qed.

#[global] Instance set_outcome_eq_dec : EqDecision set_outcome.
Proof. solve_decision. Defined.

(** Every simulated guest of the host accepts targets. *)
Definition accepting (w : gmap string sim_guest) : Prop :=
  map_Forall (fun _ g => g_answer g = SetOk) w /\ demo_vms ⊆ dom w.

Lemma hold_tick_settles_witness :
  last (mgr (ReconcileSnapshot demo_vms (mkSnapshot 16384 8000 100 0 0 PressureNormal) 4096 1024 1500 0 demo_state)) !! "b" =
  Some (get_target (PlanTargets (plan_nodes (mgr demo_state) (world demo_state) demo_vms) 1500 1024) "b").
Proof.
  apply (hold_tick_settles accepting).
  - intros w n t [Hw Hd] Hn. assert (exists g, w !! n = Some g) as [g Hg] by (apply elem_of_dom; set_solver).
    simpl. rewrite Hg, (Hw n g Hg). eexists. split; [reflexivity|]. split.
    + by apply map_Forall_insert_2.
    + rewrite dom_insert. set_solver.
  - split; apply (bool_decide_unpack _); vm_compute; exact I.
  - reflexivity.
  - reflexivity.
  - reflexivity.
  - apply (bool_decide_unpack _). vm_compute. exact I.
Defined.
