(* ===== verification/RouterFrames.v ===== *)
(** * Frame parsing and rewriting of the cross-segment router ([internal/helper/router.go])

    The stateless half of the router: Ethernet, IPv4, ARP, UDP and DHCP header
    parsing, address classification, the Internet checksum, and the rewrite of
    a forwarded frame.  A packet is a list of bytes. *)

From stdpp Require Import base list strings.
From Stdlib Require Import Ascii ZArith Lia.
From S2P Require Import Prelude GoStrings GoNet.

Local Open Scope Z_scope.

Definition routerEthernetHeaderLen : nat := 14.
Definition routerEtherTypeIPv4 : Z := 2048.
Definition routerEtherTypeARP : Z := 2054.
Definition routerIPv4MinHeaderLen : nat := 20.
Definition routerIPProtocolUDP : Z := 17.
Definition routerIPv4FlagMoreFragments : Z := 8192.
Definition routerIPv4FragmentOffsetMask : Z := 8191.
Definition routerDHCPClientPort : Z := 68.
Definition routerDHCPServerPort : Z := 67.
Definition routerDHCPOptionMessageType : Z := 53.
Definition routerDHCPOptionRequestedIP : Z := 50.
Definition routerDHCPOptionServerID : Z := 54.
Definition routerDHCPOptionEnd : Z := 255.
Definition routerDHCPMessageRequest : Z := 3.
Definition routerDHCPMagicCookie : Z := 0x63825363.
Definition routerARPOpRequest : Z := 1.
Definition routerARPOpReply : Z := 2.

(** [routerIP] and [routerMAC] are the arrays [[4]byte] and [[6]byte]. *)
Abbreviation routerIP := (list Z) (only parsing).
Abbreviation routerMAC := (list Z) (only parsing).

(** ** Address classification *)

Definition talosboxSubnet (ip : IP) : option Z :=
  match to4 ip with
  | [a; b; c; _] => if (a =? 172) && (b =? 30) then Some c else None
  | _ => None
  end.

Definition belongsToSubnet (ip : IP) (subnet : Z) : bool :=
  match to4 ip with
  | [a; b; c; _] => (a =? 172) && (b =? 30) && (c =? subnet)
  | _ => false
  end.

Definition last_octet (ip : IP) : Z := at_ (to4 ip) 3.

Definition isNodeIP (ip : IP) (subnet : Z) : bool :=
  belongsToSubnet (to4 ip) subnet && (2 <=? last_octet ip) && (last_octet ip <=? 179).

Definition isVIP (ip : IP) (subnet : Z) : bool :=
  belongsToSubnet (to4 ip) subnet && (200 <=? last_octet ip) && (last_octet ip <=? 239).

Definition isOwnedTalosboxIP (ip : IP) (subnet : Z) : bool := isNodeIP ip subnet || isVIP ip subnet.

Definition routerIPKey (ip : IP) : option routerIP :=
  match to4 ip with [a; b; c; d] => Some [a; b; c; d] | _ => None end.

Definition isUnicastMAC (mac : routerMAC) : bool := Z.land (at_ mac 0) 1 =? 0.

Definition routerDHCPServerIDMatchesSubnet (serverIP : IP) (subnet : Z) : bool :=
  match to4 serverIP with
  | [a; b; c; d] => (a =? 172) && (b =? 30) && (c =? subnet) && (d =? 1)
  | _ => false
  end.

Definition routerGatewayMACKey (subnet : Z) : routerMAC := [0x02; 0x54; 0x30; 0x00; wrapu 8 subnet; 0x01].

(** ** The Internet checksum *)

(** The 32-bit sum of the big-endian words, an odd last byte padded with zero. *)
Fixpoint checksum_words (sum : Z) (payload : list Z) : Z :=
  match payload with
  | a :: b :: rest => checksum_words (wrapu 32 (sum + be16 a b)) rest
  | [a] => wrapu 32 (sum + wrapu 32 (Z.shiftl a 8))
  | [] => sum
  end.

(** [for sum > 0xffff]: two folds suffice for a 32-bit sum, [checksum_fold_small]
    shows the third iteration is never taken. *)
Fixpoint checksum_fold (fuel : nat) (sum : Z) : Z :=
  match fuel with
  | O => sum
  | S fuel' => if 65535 <? sum
               then checksum_fold fuel' (wrapu 32 (Z.shiftr sum 16 + Z.land sum 65535))
               else sum
  end.

Definition routerInternetChecksum (payload : list Z) : Z :=
  65535 - wrapu 16 (checksum_fold 3 (checksum_words 0 payload)).

(** ** Headers *)

Definition parseRouterEthernetFrame (frame : list Z) : option (routerMAC * routerMAC * Z * list Z) :=
  if decide (length frame < routerEthernetHeaderLen)%nat then None
  else Some (slice frame 0 6, slice frame 6 12, u16 frame 12, drop 14 frame).

Record ipv4_packet := mkIPv4 {
  ip_headerLen : nat;
  ip_ttl : Z;
  ip_protocol : Z;
  ip_fragmented : bool;
  ip_src : IP;
  ip_dst : IP;
  ip_payload : list Z
}.

Definition parseRouterIPv4Packet (payload : list Z) : option ipv4_packet :=
  if decide (length payload < routerIPv4MinHeaderLen)%nat then None
  else if negb (Z.shiftr (at_ payload 0) 4 =? 4) then None
  else
    let headerLen := Z.to_nat (Z.land (at_ payload 0) 15 * 4) in
    if decide (headerLen < routerIPv4MinHeaderLen \/ length payload < headerLen)%nat then None
    else
      let totalLen := Z.to_nat (u16 payload 2) in
      if decide (totalLen < headerLen \/ length payload < totalLen)%nat then None
      else if negb (routerInternetChecksum (take headerLen payload) =? 0) then None
      else
        let flagsOffset := u16 payload 6 in
        Some (mkIPv4 headerLen (at_ payload 8) (at_ payload 9)
          (negb (Z.land flagsOffset routerIPv4FlagMoreFragments =? 0) ||
           negb (Z.land flagsOffset routerIPv4FragmentOffsetMask =? 0))
          (to4 (slice payload 12 16)) (to4 (slice payload 16 20)) (slice payload headerLen totalLen)).

Definition parseRouterARP (payload : list Z) : option (Z * routerMAC * IP * IP) :=
  if decide (length payload < 28)%nat then None
  else if negb ((u16 payload 0 =? 1) && (u16 payload 2 =? routerEtherTypeIPv4) &&
                (at_ payload 4 =? 6) && (at_ payload 5 =? 4)) then None
  else Some (u16 payload 6, slice payload 8 14, to4 (slice payload 14 18), to4 (slice payload 24 28)).

Definition parseRouterUDP (payload : list Z) : option (Z * Z * list Z) :=
  if decide (length payload < 8)%nat then None
  else
    let len := Z.to_nat (u16 payload 4) in
    if decide (len < 8 \/ length payload < len)%nat then None
    else Some (u16 payload 0, u16 payload 2, slice payload 8 len).

Record dhcp_request := mkDHCP {
  requestedIP : IP;
  serverIP : IP;
  clientMAC : routerMAC;
  messageType : Z
}.

Definition with_option (option : Z) (value : list Z) (r : dhcp_request) : dhcp_request :=
  if option =? routerDHCPOptionMessageType then
    (if decide (length value = 1%nat) then mkDHCP (requestedIP r) (serverIP r) (clientMAC r) (at_ value 0) else r)
  else if option =? routerDHCPOptionRequestedIP then
    (if decide (length value = 4%nat) then mkDHCP (to4 value) (serverIP r) (clientMAC r) (messageType r) else r)
  else if option =? routerDHCPOptionServerID then
    (if decide (length value = 4%nat) then mkDHCP (requestedIP r) (to4 value) (clientMAC r) (messageType r) else r)
  else r.

(** The option loop over the unread bytes; the outer [None] is the fuel running
    out, the inner one a malformed option. *)
Fixpoint dhcp_options (fuel : nat) (rest : list Z) (r : dhcp_request) : option (option dhcp_request) :=
  match fuel with
  | O => None
  | S fuel' =>
      match rest with
      | [] => Some (Some r)
      | option :: rest =>
          if option =? 0 then dhcp_options fuel' rest r
          else if option =? routerDHCPOptionEnd then Some (Some r)
          else match rest with
               | [] => Some None
               | len :: rest =>
                   let n := Z.to_nat len in
                   if decide (length rest < n)%nat then Some None
                   else dhcp_options fuel' (drop n rest) (with_option option (take n rest) r)
               end
      end
  end.

(** [Some r] is a return with [ok] true; both ends of the loop demand a
    requested address. *)
Definition parseRouterDHCPRequest (payload : list Z) : option dhcp_request :=
  if decide (length payload < 240)%nat then None
  else if negb ((at_ payload 0 =? 1) && (at_ payload 1 =? 1) && (at_ payload 2 =? 6)) then None
  else if negb (u32 payload 236 =? routerDHCPMagicCookie) then None
  else
    let r := mkDHCP [] [] (slice payload 28 34) 0 in
    match default None (dhcp_options (S (length payload)) (drop 240 payload) r) with
    | Some r' => if bool_decide (requestedIP r' = []) then None else Some r'
    | None => None
    end.

(** [routedVIPPair]: a FIB write of the BGP speaker; an empty nexthop is a
    withdrawal and yields no nexthop. *)
Definition routedVIPPair (prefix nexthop : string) : option (routerIP * option routerIP) :=
  match cut "/"%char prefix with
  | None => None
  | Some (address, suffix) =>
      if negb (String.eqb suffix "32") then None
      else
        let vip := parse_ip4 address in
        match talosboxSubnet vip with
        | None => None
        | Some subnet =>
            if negb (isVIP vip subnet) then None
            else match routerIPKey vip with
                 | None => None
                 | Some vipIP =>
                     if String.eqb nexthop "" then Some (vipIP, None)
                     else
                       let node := parse_ip4 nexthop in
                       if negb (isNodeIP node subnet) then None
                       else match routerIPKey node with
                            | None => None
                            | Some nexthopIP => Some (vipIP, Some nexthopIP)
                            end
                 end
        end
  end.

(** ** Rewriting a forwarded frame *)

Definition rewrite_frame (frame : list Z) (targetMAC sourceMAC : routerMAC) (ttl : Z) (headerLen : nat) : list Z :=
  let forwarded := blit (blit frame 0 targetMAC) 6 sourceMAC in
  let forwarded := <[(routerEthernetHeaderLen + 8)%nat := wrapu 8 (ttl - 1)]> forwarded in
  let forwarded := <[(routerEthernetHeaderLen + 11)%nat := 0]> (<[(routerEthernetHeaderLen + 10)%nat := 0]> forwarded) in
  let header := slice forwarded routerEthernetHeaderLen (routerEthernetHeaderLen + headerLen) in
  blit forwarded (routerEthernetHeaderLen + 10) (put16 (routerInternetChecksum header)).

(** ** Lemmas on the checksum *)

Fixpoint word_sum (payload : list Z) : Z :=
  match payload with
  | a :: b :: rest => be16 a b + word_sum rest
  | [a] => a * 256
  | [] => 0
  end.

Lemma list_pair_ind {A} (P : list A -> Prop) :
  P [] -> (forall a, P [a]) -> (forall a b l, P l -> P (a :: b :: l)) -> forall l, P l.
Proof.
  intros H0 H1 H2 l. assert (P l /\ forall a, P (a :: l)) as [? _]; [|done].
  induction l as [|x l [IH1 IH2]]; [auto|]. split; [auto|]. intros a. by apply H2.
Qed.

Lemma word_sum_bound l : Forall is_byte l -> 0 <= word_sum l <= 65535 * Z.of_nat (length l).
Proof.
  induction l as [|a|a b l IH] using list_pair_ind; intros Hb; [simpl; lia|..].
  - apply Forall_cons in Hb as [Ha _]. unfold is_byte in Ha. simpl. lia.
  - apply Forall_cons in Hb as [Ha [Hb Hl]%Forall_cons]. specialize (IH Hl).
    unfold is_byte, be16 in *. simpl length. simpl word_sum. unfold be16. lia.
Qed.

Lemma checksum_words_exact l sum :
  Forall is_byte l -> 0 <= sum -> sum + 65535 * Z.of_nat (length l) < 2 ^ 32 ->
  checksum_words sum l = sum + word_sum l.
Proof.
  revert sum. induction l as [|a|a b l IH] using list_pair_ind; intros sum Hb H0 Hs; [simpl; lia|..].
  - apply Forall_cons in Hb as [Ha _]. unfold is_byte in Ha. simpl in *. unfold wrapu.
    rewrite Z.shiftl_mul_pow2 by lia. rewrite (Z.mod_small (a * 2 ^ 8)) by lia. rewrite Z.mod_small by lia. lia.
  - apply Forall_cons in Hb as [Ha [Hb Hl]%Forall_cons]. unfold is_byte in Ha, Hb. simpl in *.
    unfold wrapu. rewrite Z.mod_small by (unfold be16; lia). rewrite IH; [lia|done|unfold be16; lia..].
Qed.

(** Folding keeps the value modulo 65535 and its being zero. *)
Lemma checksum_fold_small s :
  0 <= s < 2 ^ 32 ->
  0 <= checksum_fold 3 s <= 65535 /\ checksum_fold 3 s mod 65535 = s mod 65535 /\ (checksum_fold 3 s = 0 <-> s = 0).
Proof.
  assert (forall t, 0 <= t < 2 ^ 32 -> wrapu 32 (Z.shiftr t 16 + Z.land t 65535) = t / 65536 + t mod 65536) as Hstep.
  { intros t Ht. rewrite Z.shiftr_div_pow2 by lia. change 65535 with (Z.ones 16). rewrite Z.land_ones by lia.
    change (2 ^ 16) with 65536. unfold wrapu. apply Z.mod_small. div_lia. }
  intros Hs. cbn [checksum_fold].
  destruct (65535 <? s) eqn:E1; bool_to_prop; [|div_lia]. rewrite Hstep by done.
  set (s1 := s / 65536 + s mod 65536).
  assert (0 < s1 <= 131070 /\ s1 mod 65535 = s mod 65535) as [B1 M1] by (subst s1; div_lia).
  clearbody s1. destruct (65535 <? s1) eqn:E2; bool_to_prop; [|div_lia]. rewrite Hstep by lia.
  set (s2 := s1 / 65536 + s1 mod 65536).
  assert (0 < s2 <= 65535 /\ s2 mod 65535 = s1 mod 65535) as [B2 M2] by (subst s2; div_lia).
  clearbody s2. rewrite (proj2 (Z.ltb_ge 65535 s2)) by lia. div_lia.
Qed.

(** A packet verifies when its words sum to a nonzero multiple of 65535. *)
Lemma checksum_zero l :
  Forall is_byte l -> Z.of_nat (length l) <= 60000 ->
  0 <= routerInternetChecksum l <= 65535 /\
  (routerInternetChecksum l = 0 <-> word_sum l mod 65535 = 0 /\ word_sum l <> 0) /\
  (word_sum l + routerInternetChecksum l) mod 65535 = 0 /\ word_sum l + routerInternetChecksum l <> 0.
Proof.
  intros Hb Hl. unfold routerInternetChecksum. rewrite checksum_words_exact by (done || lia).
  pose proof (word_sum_bound l Hb). rewrite Z.add_0_l.
  destruct (checksum_fold_small (word_sum l)) as (Hf & Hm & Hz); [lia|].
  set (f := checksum_fold 3 (word_sum l)) in *. clearbody f.
  unfold wrapu. rewrite (Z.mod_small f) by lia. set (w := word_sum l) in *. clearbody w.
  div_lia.
Qed.

Lemma word_sum_app a b : Nat.even (length a) = true -> word_sum (a ++ b) = word_sum a + word_sum b.
Proof.
  induction a as [|x|x y a IH] using list_pair_ind; intros He; [done..|].
  simpl. rewrite IH by done. lia.
Qed.

Lemma be16_put16 v : 0 <= v < 65536 -> word_sum (put16 v) = v /\ Forall is_byte (put16 v).
Proof.
  intros Hv. unfold put16. simpl. unfold be16. split; [div_lia|].
  repeat constructor; div_lia.
Qed.

(** Writing the checksum of a header whose checksum field is zero makes it verify. *)
Lemma checksum_sealed a b :
  Forall is_byte (a ++ [0; 0] ++ b) -> Nat.even (length a) = true -> Z.of_nat (length (a ++ [0; 0] ++ b)) <= 60000 ->
  routerInternetChecksum (a ++ put16 (routerInternetChecksum (a ++ [0%Z; 0%Z] ++ b)) ++ b) = 0.
Proof.
  intros Hb He Hl. destruct (checksum_zero _ Hb Hl) as (Hr & _ & Hm & Hn).
  set (c := routerInternetChecksum (a ++ [0; 0] ++ b)) in *.
  destruct (be16_put16 c) as [Hc Hcb]; [lia|].
  apply Forall_app in Hb as [Ha [_ Hb]%Forall_app].
  assert (Z.of_nat (length (a ++ put16 c ++ b)) <= 60000) as Hl'
    by (rewrite !length_app in Hl |- *; simpl in *; lia).
  destruct (checksum_zero (a ++ put16 c ++ b)) as (_ & Hz & _); [by rewrite !Forall_app|done|].
  apply Hz. rewrite !word_sum_app in Hm, Hn |- * by done. rewrite Hc.
  change (word_sum [0; 0]) with 0 in Hm, Hn. rewrite Z.add_0_l in Hm, Hn.
  replace (word_sum a + (c + word_sum b)) with (word_sum a + word_sum b + c) by lia. done.
Qed.

(** ** Lemmas on headers *)

Lemma length_ge_split {A} (n : nat) (l : list A) : (n <= length l)%nat -> exists a b, l = a ++ b /\ length a = n.
Proof.
  intros H. exists (take n l), (drop n l). rewrite take_drop. split; [done|]. rewrite length_take. lia.
Qed.

(** Name the elements of a list of known length. *)
Ltac name_bytes l H :=
  repeat (destruct l as [|? l]; [discriminate H|]); destruct l; [|discriminate H]; clear H.

(** The facts an accepted IPv4 packet satisfies. *)
Lemma parseRouterIPv4Packet_inv payload pkt :
  parseRouterIPv4Packet payload = Some pkt ->
  let headerLen := ip_headerLen pkt in
  let totalLen := Z.to_nat (u16 payload 2) in
  (20 <= headerLen <= totalLen /\ totalLen <= length payload)%nat /\
  Z.shiftr (at_ payload 0) 4 = 4 /\ headerLen = Z.to_nat (Z.land (at_ payload 0) 15 * 4) /\
  routerInternetChecksum (take headerLen payload) = 0.
Proof.
  unfold parseRouterIPv4Packet, routerIPv4MinHeaderLen. intros H. cbv zeta in *.
  repeat case_head_in H; try discriminate H. bool_to_prop. injection H as <-. simpl. repeat split; lia.
Qed.

Lemma parseRouterIPv4Packet_intro payload :
  let headerLen := Z.to_nat (Z.land (at_ payload 0) 15 * 4) in
  let totalLen := Z.to_nat (u16 payload 2) in
  (20 <= headerLen <= totalLen /\ totalLen <= length payload)%nat ->
  Z.shiftr (at_ payload 0) 4 = 4 -> routerInternetChecksum (take headerLen payload) = 0 ->
  parseRouterIPv4Packet payload = Some (mkIPv4 headerLen (at_ payload 8) (at_ payload 9)
    (negb (Z.land (u16 payload 6) routerIPv4FlagMoreFragments =? 0) ||
     negb (Z.land (u16 payload 6) routerIPv4FragmentOffsetMask =? 0))
    (to4 (slice payload 12 16)) (to4 (slice payload 16 20)) (slice payload headerLen totalLen)).
Proof.
  cbv zeta. intros Hl Hv Hc. unfold parseRouterIPv4Packet, routerIPv4MinHeaderLen. cbv zeta.
  rewrite decide_False, Hv by lia. cbn [negb Z.eqb Pos.eqb]. rewrite decide_False by lia.
  rewrite decide_False by lia. by rewrite Hc.
Qed.

(** The rewritten frame, byte by byte. *)
Lemma rewrite_frame_bytes m0 m1 m2 m3 m4 m5 m6 m7 m8 m9 m10 m11 m12 m13 b0 b1 b2 b3 b4 b5 b6 b7 b8 b9 b10 b11 b12 b13 b14 b15 b16 b17 b18 b19
    t0 t1 t2 t3 t4 t5 s0 s1 s2 s3 s4 s5 rest ttl k :
  let hd := [b0; b1; b2; b3; b4; b5; b6; b7; wrapu 8 (ttl - 1); b9] in
  let tl := [b12; b13; b14; b15; b16; b17; b18; b19] in
  rewrite_frame ([m0; m1; m2; m3; m4; m5; m6; m7; m8; m9; m10; m11; m12; m13] ++ [b0; b1; b2; b3; b4; b5; b6; b7; b8; b9; b10; b11; b12; b13; b14; b15; b16; b17; b18; b19] ++ rest)
    [t0; t1; t2; t3; t4; t5] [s0; s1; s2; s3; s4; s5] ttl (20 + k) =
  [t0; t1; t2; t3; t4; t5] ++ [s0; s1; s2; s3; s4; s5] ++ [m12; m13] ++
    hd ++ put16 (routerInternetChecksum (hd ++ [0; 0] ++ tl ++ take k rest)) ++ tl ++ rest.
Proof. reflexivity. Qed.

(** Rewriting leaves a frame that parses to the same packet with one hop less. *)
Lemma rewrite_frame_parses frame dst src etherType payload pkt tmac smac :
  Forall is_byte frame -> parseRouterEthernetFrame frame = Some (dst, src, etherType, payload) ->
  parseRouterIPv4Packet payload = Some pkt -> 0 < ip_ttl pkt -> length tmac = 6%nat -> length smac = 6%nat ->
  exists payload',
    parseRouterEthernetFrame (rewrite_frame frame tmac smac (ip_ttl pkt) (ip_headerLen pkt)) =
      Some (tmac, smac, etherType, payload') /\
    parseRouterIPv4Packet payload' =
      Some (mkIPv4 (ip_headerLen pkt) (ip_ttl pkt - 1) (ip_protocol pkt) (ip_fragmented pkt)
              (ip_src pkt) (ip_dst pkt) (ip_payload pkt)) /\
    drop (ip_headerLen pkt) payload' = drop (ip_headerLen pkt) payload.
Proof.
  intros Hb He Hp Ht Hl1 Hl2. pose proof (parseRouterIPv4Packet_inv _ _ Hp) as (Hlen & Hver & Hhl & Hck).
  pose proof (parseRouterIPv4Packet_intro payload) as Hin. cbv zeta in *. rewrite <- Hhl in Hin.
  rewrite (Hin ltac:(lia) Hver Hck) in Hp. clear Hin. injection Hp as Hp.
  unfold parseRouterEthernetFrame, routerEthernetHeaderLen in He.
  destruct (decide (length frame < 14)%nat) as [|Hf]; [done|]. injection He as _ _ Het Hpay.
  destruct (length_ge_split 14 frame ltac:(lia)) as (eth & p & -> & Hel).
  rewrite drop_app_length' in Hpay by done. subst p.
  destruct (length_ge_split 20 payload ltac:(lia)) as (h & rest & -> & Hhl20).
  apply Forall_app in Hb as [_ [Hhb Hrb]%Forall_app].
  name_bytes tmac Hl1. name_bytes smac Hl2. name_bytes eth Hel. name_bytes h Hhl20.
  rewrite length_app in Hlen. cbn [length] in Hlen.
  destruct (Nat.le_exists_sub 20 (ip_headerLen pkt) ltac:(lia)) as (k & Hk & _). rewrite Nat.add_comm in Hk.
  rewrite Hk in *. rewrite rewrite_frame_bytes.
  assert (0 <= ip_ttl pkt < 256) as Httl.
  { rewrite <- Hp. cbn [ip_ttl]. rewrite !Forall_cons in Hhb. unfold is_byte in Hhb. cbn. tauto. }
  assert (wrapu 8 (ip_ttl pkt - 1) = ip_ttl pkt - 1) as Hw by (unfold wrapu; rewrite Z.mod_small; lia).
  assert ((20 + k)%nat = Z.to_nat (Z.land z25 15 * 4)) as Hhl' by exact Hhl.
  assert (20 + k <= 60)%nat as H60.
  { rewrite Hhl'. change 15 with (Z.ones 4). rewrite Z.land_ones by lia. div_lia. }
  rewrite Hw. set (c := routerInternetChecksum _).
  eexists. split.
  { unfold parseRouterEthernetFrame. rewrite decide_False by (unfold routerEthernetHeaderLen; simpl; lia).
    rewrite <- Het. reflexivity. }
  cbn [drop app put16].
  assert (routerInternetChecksum (take (20 + k)
    (z25 :: z26 :: z27 :: z28 :: z29 :: z30 :: z31 :: z32 :: (ip_ttl pkt - 1) :: z34 :: c / 256 mod 256 :: c mod 256
     :: z37 :: z38 :: z39 :: z40 :: z41 :: z42 :: z43 :: z44 :: rest)) = 0) as Hc.
  { apply (checksum_sealed [z25; z26; z27; z28; z29; z30; z31; z32; ip_ttl pkt - 1; z34]
      ([z37; z38; z39; z40; z41; z42; z43; z44] ++ take k rest)); [|done|].
    - rewrite !Forall_cons in Hhb. rewrite !Forall_app, !Forall_cons, !Forall_nil.
      unfold is_byte in *. repeat split; try lia; try tauto. by apply Forall_take.
    - rewrite !length_app, length_take. cbn [length]. lia. }
  split; [|reflexivity].
  rewrite parseRouterIPv4Packet_intro.
  - rewrite <- Hp. change (at_ (z25 :: ?l) 0) with z25. rewrite <- Hhl'. reflexivity.
  - change (at_ (z25 :: ?l) 0) with z25. rewrite <- Hhl'. cbn [length]. exact Hlen.
  - exact Hver.
  - change (at_ (z25 :: ?l) 0) with z25. rewrite <- Hhl'. exact Hc.
Qed.

(** ** The DHCP option loop *)

(** [length] steps consume the options: the loop never runs out of fuel. *)
Lemma dhcp_options_total fuel rest r : (length rest < fuel)%nat -> is_Some (dhcp_options fuel rest r).
Proof.
  revert rest r. induction fuel as [|fuel IH]; intros rest r Hf; [lia|]. cbn [dhcp_options].
  destruct rest as [|o rest]; [eauto|]. simpl in Hf. case_head; [apply IH; lia|]. case_head; [eauto|].
  destruct rest as [|n rest]; [eauto|]. simpl in Hf. cbv zeta. case_head; [eauto|].
  apply IH. rewrite length_drop. lia.
Qed.

(** One option as it travels: code, length, value. *)
Definition encode_option (o : Z * list Z) : list Z := o.1 :: Z.of_nat (length o.2) :: o.2.

Definition option_ok (o : Z * list Z) : Prop := 0 < o.1 < 255 /\ (length o.2 < 256)%nat.

Lemma dhcp_options_encoded opts tail r fuel :
  Forall option_ok opts -> (length (concat (encode_option <$> opts)) < fuel)%nat ->
  dhcp_options fuel (concat (encode_option <$> opts) ++ 255 :: tail) r =
  Some (Some (foldl (fun r o => with_option o.1 o.2 r) r opts)).
Proof.
  revert r fuel. induction opts as [|[code value] opts IH]; intros r fuel Hok Hf.
  { destruct fuel; [simpl in Hf; lia|]. done. }
  apply Forall_cons in Hok as [[Hc Hv] Hok]. simpl in Hc, Hv.
  destruct fuel as [|fuel]; [lia|]. cbn [fmap list_fmap concat encode_option fst snd app dhcp_options] in *.
  simpl in Hf. rewrite length_app in Hf.
  rewrite (proj2 (Z.eqb_neq code 0)), (proj2 (Z.eqb_neq code routerDHCPOptionEnd)) by (unfold routerDHCPOptionEnd; lia).
  cbv zeta. rewrite Nat2Z.id, <- app_assoc, decide_False by (rewrite length_app; lia).
  rewrite drop_app_length, take_app_length. cbn [foldl fst snd]. apply IH; [done|lia].
Qed.

(** ** Theorems *)

(** C37: a forwarded frame is the received one with one hop less.  It carries the
    target's and the gateway's MACs, verifies the header checksum again, and
    parses to the same header length, protocol, fragmentation, addresses and
    payload, with nothing after the header touched. *)
Theorem forwarded_frame_sound frame dst src etherType payload pkt tmac smac :
  Forall is_byte frame -> parseRouterEthernetFrame frame = Some (dst, src, etherType, payload) ->
  parseRouterIPv4Packet payload = Some pkt -> 0 < ip_ttl pkt -> length tmac = 6%nat -> length smac = 6%nat ->
  exists payload',
    parseRouterEthernetFrame (rewrite_frame frame tmac smac (ip_ttl pkt) (ip_headerLen pkt)) =
      Some (tmac, smac, etherType, payload') /\
    parseRouterIPv4Packet payload' =
      Some (mkIPv4 (ip_headerLen pkt) (ip_ttl pkt - 1) (ip_protocol pkt) (ip_fragmented pkt)
              (ip_src pkt) (ip_dst pkt) (ip_payload pkt)) /\
    drop (ip_headerLen pkt) payload' = drop (ip_headerLen pkt) payload.
Proof. apply rewrite_frame_parses. Qed.

(** A minimal IPv4 packet with a correct checksum. *)
Definition sample_frame : list Z :=
  [2; 0; 0; 0; 0; 9; 2; 0; 0; 0; 0; 1; 8; 0] ++
  [69; 0; 0; 22; 0; 0; 0; 0; 64; 6] ++ [31; 154] ++ [172; 30; 1; 5] ++ [172; 30; 2; 7] ++ [1; 2].

Lemma forwarded_frame_sound_witness :
  exists payload',
    parseRouterEthernetFrame (rewrite_frame sample_frame [2; 0; 0; 0; 0; 2] (routerGatewayMACKey 2) 64 20) =
      Some ([2; 0; 0; 0; 0; 2], routerGatewayMACKey 2, 2048, payload') /\
    parseRouterIPv4Packet payload' = Some (mkIPv4 20 63 6 false [172; 30; 1; 5] [172; 30; 2; 7] [1; 2]) /\
    drop 20 payload' = [1; 2].
Proof.
  apply (forwarded_frame_sound sample_frame [2; 0; 0; 0; 0; 9] [2; 0; 0; 0; 0; 1] 2048 (drop 14 sample_frame)
    (mkIPv4 20 64 6 false [172; 30; 1; 5] [172; 30; 2; 7] [1; 2])).
  - repeat constructor; discriminate.
  - reflexivity.
  - vm_compute. reflexivity.
  - reflexivity.
  - reflexivity.
  - reflexivity.
Defined.

(** The DHCP parser reads what a client writes.  For any well-formed BOOTP
    header followed by any options and the end mark, it terminates and returns
    the last well-sized message type, requested address and server identifier,
    whatever follows the end mark; without a requested address it refuses. *)
Theorem dhcp_request_parsed header opts tail :
  length header = 240%nat -> at_ header 0 = 1 -> at_ header 1 = 1 -> at_ header 2 = 6 ->
  u32 header 236 = routerDHCPMagicCookie -> Forall option_ok opts ->
  parseRouterDHCPRequest (header ++ concat (encode_option <$> opts) ++ 255 :: tail) =
  let r := foldl (fun r o => with_option o.1 o.2 r) (mkDHCP [] [] (slice header 28 34) 0) opts in
  if bool_decide (requestedIP r = []) then None else Some r.
Proof.
  intros Hl H0 H1 H2 Hc Ho. unfold parseRouterDHCPRequest. cbv zeta.
  rewrite decide_False by (rewrite length_app; lia).
  rewrite !at_app, H0, H1, H2 by lia. cbn [negb andb Z.eqb Pos.eqb].
  assert (u32 (header ++ concat (encode_option <$> opts) ++ 255 :: tail) 236 = routerDHCPMagicCookie) as ->.
  { rewrite <- Hc. unfold u32, u16. by rewrite !at_app by lia. }
  rewrite Z.eqb_refl. cbn [negb]. rewrite slice_app by lia. rewrite drop_app_length' by done.
  rewrite dhcp_options_encoded; [reflexivity|done|]. rewrite !length_app. simpl. lia.
Qed.

(** A DHCPREQUEST for 172.30.1.5 from server 172.30.1.1. *)
Definition sample_header : list Z :=
  [1; 1; 6; 0] ++ replicate 24 0 ++ [2; 0; 0; 0; 0; 1] ++ replicate 202 0 ++ [99; 130; 83; 99].

Lemma dhcp_request_parsed_witness :
  parseRouterDHCPRequest (sample_header ++ concat (encode_option <$> [(53, [3]); (50, [172; 30; 1; 5]); (54, [172; 30; 1; 1])]) ++ 255 :: [0]) =
  Some (mkDHCP [172; 30; 1; 5] [172; 30; 1; 1] [2; 0; 0; 0; 0; 1] 3).
Proof.
  apply (dhcp_request_parsed sample_header [(53, [3]); (50, [172; 30; 1; 5]); (54, [172; 30; 1; 1])] [0]);
    first [reflexivity | repeat constructor; simpl; lia].
Defined.
