(* ===== verification/Router.v ===== *)
(** * The cross-segment frame router ([internal/helper/router.go], [router_darwin.go])

    [frameRouter] forwards IPv4 between the cluster segments of one host.  It
    learns which port owns an address from DHCP requests and ARP, and which node
    announces a VIP from the BGP speaker.  A [*routerPort] is an address into
    [heap], because removed ports stay reachable from frames in flight; the part
    of [route] that runs under the mutex is [route_locked], so that the window
    between unlocking and sending is a step of its own. *)

From stdpp Require Import base list gmap strings.
From Stdlib Require Import ZArith Lia.
From S2P Require Import Prelude GoStrings GoNet RouterFrames.

Local Open Scope Z_scope.

(** [mac] and [macSet] together are an option, so are [gateway] and [nodeIP]. *)
Record routerPort := mkPort {
  id : Z;
  subnet : Z;
  closed : bool;
  mac : option routerMAC;
  gateway : option routerMAC;
  nodeIP : option routerIP;
  ips : gset routerIP
}.

Record frameRouter := mkRouter {
  nextPort : Z;
  heap : gmap Z routerPort;
  ports : gmap Z Z;
  ipToPort : gmap routerIP Z;
  routedVIPs : gmap routerIP routerIP
}.

Definition newFrameRouter : frameRouter := mkRouter 0 ∅ ∅ ∅ ∅.

Definition upd_port (p : Z) (f : routerPort -> routerPort) (r : frameRouter) : frameRouter :=
  mkRouter (nextPort r) (alter f p (heap r)) (ports r) (ipToPort r) (routedVIPs r).
Definition with_ipToPort (f : gmap routerIP Z -> gmap routerIP Z) (r : frameRouter) : frameRouter :=
  mkRouter (nextPort r) (heap r) (ports r) (f (ipToPort r)) (routedVIPs r).
Definition with_routedVIPs (f : gmap routerIP routerIP -> gmap routerIP routerIP) (r : frameRouter) : frameRouter :=
  mkRouter (nextPort r) (heap r) (ports r) (ipToPort r) (f (routedVIPs r)).

Definition set_mac (m : routerMAC) (p : routerPort) : routerPort :=
  mkPort (id p) (subnet p) (closed p) (Some m) (gateway p) (nodeIP p) (ips p).
Definition set_gateway (m : routerMAC) (p : routerPort) : routerPort :=
  mkPort (id p) (subnet p) (closed p) (mac p) (Some m) (nodeIP p) (ips p).
Definition set_nodeIP (ip : routerIP) (p : routerPort) : routerPort :=
  mkPort (id p) (subnet p) (closed p) (mac p) (gateway p) (Some ip) (ips p).
Definition set_ips (f : gset routerIP -> gset routerIP) (p : routerPort) : routerPort :=
  mkPort (id p) (subnet p) (closed p) (mac p) (gateway p) (nodeIP p) (f (ips p)).
Definition set_closed (p : routerPort) : routerPort :=
  mkPort (id p) (subnet p) true (mac p) (gateway p) (nodeIP p) (ips p).

(** ** Ports *)

(** The new port lives at the address of its id. *)
Definition addPort (subnet : Z) (r : frameRouter) : Z * frameRouter :=
  let id := nextPort r + 1 in
  (id, mkRouter id (<[id := mkPort id subnet false None None None ∅]> (heap r)) (<[id := id]> (ports r))
         (ipToPort r) (routedVIPs r)).

(** [r.ports[port.id] == port] *)
Definition registered (r : frameRouter) (p : Z) : bool :=
  match heap r !! p with
  | Some port => bool_decide (ports r !! id port = Some p)
  | None => false
  end.

(** The critical section of [removePort]; [true] when it goes on to [closeSend]. *)
Definition removePort_locked (p : Z) (r : frameRouter) : bool * frameRouter :=
  match heap r !! p with
  | None => (false, r)
  | Some port =>
      if negb (registered r p) then (false, r)
      else (true, mkRouter (nextPort r) (heap r) (delete (id port) (ports r))
              (filter (fun kv => ~ (kv.1 ∈ ips port /\ kv.2 = p)) (ipToPort r)) (routedVIPs r))
  end.

Definition closeSend (p : Z) (r : frameRouter) : frameRouter := upd_port p set_closed r.

Definition removePort (p : Z) (r : frameRouter) : frameRouter :=
  let '(removed, r) := removePort_locked p r in
  if removed then closeSend p r else r.

(** ** Learning *)

Definition acceptPortSourceMAC (p : Z) (port : routerPort) (m : routerMAC) (r : frameRouter) : bool * frameRouter :=
  if negb (isUnicastMAC m) then (false, r)
  else match mac port with
       | None => (true, upd_port p (set_mac m) r)
       | Some own => (bool_decide (own = m), r)
       end.

Definition learnNodeIP (p : Z) (ip : IP) (r : frameRouter) : frameRouter :=
  match heap r !! p with
  | None => r
  | Some port =>
      let ip4 := to4 ip in
      if negb (isNodeIP ip4 (subnet port)) then r
      else match routerIPKey ip4 with
           | None => r
           | Some key =>
               if bool_decide (nodeIP port = Some key) then r
               else if match ipToPort r !! key with Some owner => negb (bool_decide (owner = p)) | None => false end then r
               else
                 let r := match nodeIP port with
                          | None => r
                          | Some old =>
                              let r := if bool_decide (ipToPort r !! old = Some p)
                                       then with_ipToPort (delete old) r else r in
                              upd_port p (set_ips (fun s => s ∖ {[old]})) r
                          end in
                 with_ipToPort (insert key p) (upd_port p (fun port => set_ips (union {[key]}) (set_nodeIP key port)) r)
           end
  end.

Definition learnVIPIP (p : Z) (ip : IP) (r : frameRouter) : frameRouter :=
  match heap r !! p with
  | None => r
  | Some port =>
      let ip4 := to4 ip in
      if negb (isVIP ip4 (subnet port)) then r
      else match routerIPKey ip4 with
           | None => r
           | Some key =>
               let r := match ipToPort r !! key with
                        | Some owner => if bool_decide (owner = p) then r
                                        else upd_port owner (set_ips (fun s => s ∖ {[key]})) r
                        | None => r
                        end in
               with_ipToPort (insert key p) (upd_port p (set_ips (union {[key]})) r)
           end
  end.

Definition learnARPSender (p : Z) (port : routerPort) (frameSrcMAC : routerMAC) (payload : list Z) (r : frameRouter) : frameRouter :=
  match parseRouterARP payload with
  | None => r
  | Some (op, senderMAC, senderIP, _) =>
      if negb (bool_decide (senderMAC = frameSrcMAC)) || negb (isVIP senderIP (subnet port)) then r
      else if (op =? routerARPOpRequest) || (op =? routerARPOpReply) then learnVIPIP p senderIP r
      else r
  end.

(** [port] is the record after [acceptPortSourceMAC]. *)
Definition learnDHCPRequestedIP (p : Z) (port : routerPort) (frameSrcMAC : routerMAC) (payload : list Z) (r : frameRouter) : frameRouter :=
  match parseRouterUDP payload with
  | None => r
  | Some (srcPort, dstPort, body) =>
      if negb (srcPort =? routerDHCPClientPort) || negb (dstPort =? routerDHCPServerPort) then r
      else match parseRouterDHCPRequest body with
           | None => r
           | Some d =>
               if negb (messageType d =? routerDHCPMessageRequest) ||
                  negb (bool_decide (clientMAC d = frameSrcMAC)) ||
                  negb (bool_decide (Some (clientMAC d) = mac port)) ||
                  negb (isNodeIP (requestedIP d) (subnet port)) ||
                  negb (routerDHCPServerIDMatchesSubnet (serverIP d) (subnet port))
               then r else learnNodeIP p (requestedIP d) r
           end
  end.

Definition learnRoutedVIP (prefix nexthop : string) (r : frameRouter) : frameRouter :=
  match routedVIPPair prefix nexthop with
  | None => r
  | Some (vipIP, nexthopIP) => with_routedVIPs (insert vipIP (default [0; 0; 0; 0] nexthopIP)) r
  end.

Definition forgetRoutedVIP (prefix : string) (r : frameRouter) : frameRouter :=
  match routedVIPPair prefix "" with
  | None => r
  | Some (vipIP, _) => with_routedVIPs (delete vipIP) r
  end.

(** ** Ownership *)

(** The port at [ip] when it is on [subnet]. *)
Definition port_on (r : frameRouter) (ip : routerIP) (sub : Z) : option Z :=
  match ipToPort r !! ip with
  | None => None
  | Some p => match heap r !! p with
              | Some port => if subnet port =? sub then Some p else None
              | None => None
              end
  end.

Definition owner (r : frameRouter) (ip : routerIP) (sub : Z) : option Z :=
  match port_on r ip sub with
  | Some p => Some p
  | None => match routedVIPs r !! ip with
            | Some nexthop => port_on r nexthop sub
            | None => None
            end
  end.

(** The target port and its learned MAC. *)
Definition targetFor (r : frameRouter) (ip : routerIP) (sub : Z) : option (Z * routerPort * routerMAC) :=
  match owner r ip sub with
  | None => None
  | Some p => match heap r !! p with
              | Some port => match mac port with Some m => Some (p, port, m) | None => None end
              | None => None
              end
  end.

Definition sourceMAC (port : routerPort) : routerMAC :=
  match gateway port with Some m => m | None => routerGatewayMACKey (subnet port) end.

(** ** Routing *)

(** What [route] has decided when it releases the mutex: not ours ([false]),
    consumed without sending ([true], an expired TTL), or a frame to send. *)
Inductive verdict :=
| NotRouted
| Expired
| Forward (target : Z) (frame : list Z).

Definition route_ipv4 (p : Z) (frame : list Z) (dstMAC srcMAC : routerMAC) (pkt : ipv4_packet) (r : frameRouter)
  : verdict * frameRouter :=
  match heap r !! p with
  | None => (NotRouted, r)
  | Some port =>
      let r := if (ip_protocol pkt =? routerIPProtocolUDP) && negb (ip_fragmented pkt)
               then learnDHCPRequestedIP p port srcMAC (ip_payload pkt) r else r in
      match routerIPKey (ip_src pkt), talosboxSubnet (ip_dst pkt), routerIPKey (ip_dst pkt) with
      | Some srcKey, Some dstSubnet, Some dstKey =>
          if negb (bool_decide (owner r srcKey (subnet port) = Some p)) then (NotRouted, r)
          else if (dstSubnet =? subnet port) || negb (isOwnedTalosboxIP (ip_dst pkt) dstSubnet) then (NotRouted, r)
          else
            let r := if isUnicastMAC dstMAC then upd_port p (set_gateway dstMAC) r else r in
            match targetFor r dstKey dstSubnet with
            | None => (NotRouted, r)
            | Some (t, target, targetMAC) =>
                if ip_ttl pkt <=? 1 then (Expired, r)
                else (Forward t (rewrite_frame frame targetMAC (sourceMAC target) (ip_ttl pkt) (ip_headerLen pkt)), r)
            end
      | _, _, _ => (NotRouted, r)
      end
  end.

(** [port] is read again after [acceptPortSourceMAC], which may have set its MAC. *)
Definition route_locked (p : Z) (frame : list Z) (r : frameRouter) : verdict * frameRouter :=
  match parseRouterEthernetFrame frame with
  | None => (NotRouted, r)
  | Some (dstMAC, srcMAC, etherType, payload) =>
      if negb (etherType =? routerEtherTypeARP) && negb (etherType =? routerEtherTypeIPv4) then (NotRouted, r)
      else
        let packet := if etherType =? routerEtherTypeIPv4 then parseRouterIPv4Packet payload else None in
        if (etherType =? routerEtherTypeIPv4) && bool_decide (packet = None) then (NotRouted, r)
        else match heap r !! p with
             | None => (NotRouted, r)
             | Some port =>
                 if negb (registered r p) then (NotRouted, r)
                 else
                   let '(accepted, r) := acceptPortSourceMAC p port srcMAC r in
                   if negb accepted then (NotRouted, r)
                   else match packet with
                        | Some pkt => route_ipv4 p frame dstMAC srcMAC pkt r
                        | None => (NotRouted, learnARPSender p port srcMAC payload r)
                        end
             end
  end.

Inductive send_error := PortClosed (id : Z) | SendFailed.

(** [send] is the port's callback; [true] is a nil error. *)
Definition sendFrame (send : list Z -> bool) (p : Z) (frame : list Z) (r : frameRouter) : result send_error unit :=
  match heap r !! p with
  | None => Err SendFailed
  | Some port => if closed port then Err (PortClosed (id port))
                 else if send frame then Ok tt else Err SendFailed
  end.

(** [route] without interference between its two halves: handled, error, state. *)
Definition route (send : Z -> list Z -> bool) (p : Z) (frame : list Z) (r : frameRouter)
  : bool * option send_error * frameRouter :=
  let '(v, r) := route_locked p frame r in
  match v with
  | NotRouted => (false, None, r)
  | Expired => (true, None, r)
  | Forward t forwarded =>
      (true, match sendFrame (send t) t forwarded r with Ok _ => None | Err e => Some e end, r)
  end.

(** ** Interleavings

    Goroutines pump frames while ports come and go: a system is the router, the
    frames between [route]'s unlock and its send, and what reached a segment. *)

Record system := mkSystem {
  router : frameRouter;
  inflight : list (Z * list Z);
  wire : list (Z * list Z)
}.

Inductive step : system -> system -> Prop :=
| step_add sub r fl w : 0 <= sub < 256 ->
    step (mkSystem r fl w) (mkSystem (addPort sub r).2 fl w)
| step_remove p r fl w :
    step (mkSystem r fl w) (mkSystem (removePort_locked p r).2 fl w)
| step_close p r fl w : registered r p = false ->
    step (mkSystem r fl w) (mkSystem (closeSend p r) fl w)
| step_route p frame v r r' fl w : Forall is_byte frame -> route_locked p frame r = (v, r') ->
    step (mkSystem r fl w) (mkSystem r' (match v with Forward t f => (t, f) :: fl | _ => fl end) w)
| step_send t f r fl1 fl2 w send :
    step (mkSystem r (fl1 ++ (t, f) :: fl2) w)
      (mkSystem r (fl1 ++ fl2) (match sendFrame send t f r with Ok _ => (t, f) :: w | Err _ => w end))
| step_learn prefix nexthop r fl w :
    step (mkSystem r fl w) (mkSystem (learnRoutedVIP prefix nexthop r) fl w)
| step_forget prefix r fl w :
    step (mkSystem r fl w) (mkSystem (forgetRoutedVIP prefix r) fl w).

Definition initial : system := mkSystem newFrameRouter [] [].

Definition reachable (s : system) : Prop := rtc step initial s.

(** ** Lemmas on addresses *)

Lemma to4_idemp ip : to4 (to4 ip) = to4 ip.
Proof.
  assert (length (to4 ip) = 4%nat \/ to4 ip = []) as [E|E].
  - unfold to4. do 17 (destruct ip as [|? ip]; [simpl; auto; case_decide; auto|]). simpl. auto.
  - unfold to4 at 1. by rewrite E.
  - by rewrite E.
Qed.

Lemma routerIPKey_spec ip key : routerIPKey ip = Some key -> key = to4 ip /\ to4 key = key /\ length key = 4%nat.
Proof.
  unfold routerIPKey. intros H. destruct (to4 ip) as [|a [|b [|c [|d [|]]]]] eqn:E; try discriminate H.
  injection H as <-. done.
Qed.

Lemma isNodeIP_to4 ip sub : isNodeIP (to4 ip) sub = isNodeIP ip sub.
Proof. unfold isNodeIP, last_octet. by rewrite !to4_idemp. Qed.

Lemma isVIP_to4 ip sub : isVIP (to4 ip) sub = isVIP ip sub.
Proof. unfold isVIP, last_octet. by rewrite !to4_idemp. Qed.

Lemma belongs_to4 ip sub : belongsToSubnet (to4 ip) sub = belongsToSubnet ip sub.
Proof. unfold belongsToSubnet. by rewrite to4_idemp. Qed.

Lemma isOwned_belongs ip sub : isOwnedTalosboxIP ip sub = true -> belongsToSubnet ip sub = true.
Proof.
  unfold isOwnedTalosboxIP, isNodeIP, isVIP. rewrite belongs_to4. destruct (belongsToSubnet ip sub); done.
Qed.

(** An address belongs to one subnet. *)
Lemma belongs_unique ip s1 s2 : belongsToSubnet ip s1 = true -> belongsToSubnet ip s2 = true -> s1 = s2.
Proof.
  unfold belongsToSubnet. destruct (to4 ip) as [|a [|b [|c [|d [|]]]]]; try done. intros. bool_to_prop. congruence.
Qed.

Lemma node_not_vip ip s1 s2 : isNodeIP ip s1 = true -> isVIP ip s2 = true -> False.
Proof. unfold isNodeIP, isVIP. intros. bool_to_prop. lia. Qed.

Lemma routedVIPPair_spec prefix nexthop vip nh :
  routedVIPPair prefix nexthop = Some (vip, nh) ->
  length vip = 4%nat /\ exists sub, isVIP vip sub = true /\ forall n, nh = Some n -> isNodeIP n sub = true.
Proof.
  unfold routedVIPPair. intros H. cbv zeta in H. repeat case_head_in H; try discriminate H; bool_to_prop;
    injection H as <- <-;
    repeat match goal with E : routerIPKey _ = Some _ |- _ => apply routerIPKey_spec in E as (-> & ? & ?) end;
    (split; [done|]); eexists; (split; [rewrite isVIP_to4; eassumption|]); intros n [= <-].
  by rewrite isNodeIP_to4.
Qed.

(** ** The routing-table invariant *)

Definition port_ok (r : frameRouter) (p : Z) (port : routerPort) : Prop :=
  id port = p /\ p <= nextPort r /\ 0 <= subnet port < 256 /\
  (forall m, mac port = Some m -> length m = 6%nat) /\ (forall m, gateway port = Some m -> length m = 6%nat) /\
  (forall ip, nodeIP port = Some ip -> isNodeIP ip (subnet port) = true).

Record router_inv (r : frameRouter) : Prop := {
  inv_heap p port : heap r !! p = Some port -> port_ok r p port;
  inv_ports i p : ports r !! i = Some p -> p = i /\ is_Some (heap r !! p);
  inv_owned ip p : ipToPort r !! ip = Some p -> exists port, heap r !! p = Some port /\ ports r !! p = Some p /\
    ip ∈ ips port /\ length ip = 4%nat /\ isOwnedTalosboxIP ip (subnet port) = true;
  inv_ips p port ip : ports r !! p = Some p -> heap r !! p = Some port -> ip ∈ ips port -> ipToPort r !! ip = Some p;
  inv_routed vip n : routedVIPs r !! vip = Some n -> length vip = 4%nat /\ exists sub, isVIP vip sub = true /\
    (n = [0; 0; 0; 0] \/ isNodeIP n sub = true)
}.

Lemma router_inv_new : router_inv newFrameRouter.
Proof. split; intros; simpl in *; rewrite lookup_empty in *; done. Qed.

Lemma router_inv_add sub r : 0 <= sub < 256 -> router_inv r -> router_inv (addPort sub r).2.
Proof.
  intros Hs [H1 H2 H3 H4 H5]. assert (heap r !! (nextPort r + 1) = None) as Hfresh.
  { destruct (heap r !! (nextPort r + 1)) eqn:E; [|done]. apply H1 in E as (_ & ? & _). lia. }
  assert (forall p, is_Some (heap r !! p) -> p <> nextPort r + 1) as Hne by (intros p [? ?] ->; congruence).
  split; simpl.
  - intros p port. rewrite lookup_insert. case_decide as E.
    + intros [= <-]. subst. unfold port_ok. simpl. repeat split; intros; done || lia.
    + intros (? & ? & ?)%H1. unfold port_ok. simpl. split; [done|]. split; [lia|done].
  - intros i p. rewrite !lookup_insert. case_decide; [intros [= <-]; subst; rewrite decide_True by done; eauto|].
    intros [-> Hi]%H2. split; [done|]. case_decide; [subst; eauto|done].
  - intros ip p (port & Hp & Hr & Hrest)%H3. exists port. assert (p <> nextPort r + 1) by eauto.
    rewrite !lookup_insert_ne by congruence. done.
  - intros p port ip. rewrite !lookup_insert. case_decide as E; [intros _ [= <-]; simpl; set_solver|]. apply H4.
  - done.
Qed.

Lemma router_inv_remove p r : router_inv r -> router_inv (removePort_locked p r).2.
Proof.
  intros Hi. pose proof Hi as [H1 H2 H3 H4 H5]. unfold removePort_locked.
  destruct (heap r !! p) as [port|] eqn:Ep; [|done]. destruct (H1 _ _ Ep) as (Hid & _).
  case_head; [done|]. split; simpl; rewrite ?Hid; [exact H1| | | |exact H5].
  - intros i q [_ Hq]%lookup_delete_Some. auto.
  - intros ip q [Hq Hn]%map_lookup_filter_Some. destruct (H3 _ _ Hq) as (port' & ? & ? & Hin & ?).
    exists port'. split; [done|]. split; [|done]. rewrite lookup_delete_ne; [done|].
    intros <-. apply Hn. simpl. simplify_eq. done.
  - intros q port' ip [Hne Hq]%lookup_delete_Some Hp Hin. apply map_lookup_filter_Some. split; [by eapply H4|].
    simpl. intros [_ E]. congruence.
Qed.

(** An update that keeps a port's identity, subnet and addresses keeps the invariant. *)
Lemma router_inv_upd p f r :
  (forall port, heap r !! p = Some port -> port_ok r p port -> port_ok r p (f port) /\ subnet (f port) = subnet port /\ ips (f port) = ips port) ->
  router_inv r -> router_inv (upd_port p f r).
Proof.
  intros Hf [H1 H2 H3 H4 H5].
  assert (forall q port', alter f p (heap r) !! q = Some port' -> exists port, heap r !! q = Some port /\
    ((q = p /\ port' = f port) \/ (q <> p /\ port' = port))) as Halt.
  { intros q port'. rewrite lookup_alter. case_decide; [subst|eauto 6].
    destruct (heap r !! q) eqn:E; simpl; [|done]. intros [= <-]. eauto. }
  split; simpl.
  - intros q port' (port & Hq & [[-> ->]|[? ->]])%Halt; [|by apply H1]. by apply Hf, H1.
  - intros i q [-> Hi]%H2. split; [done|]. rewrite lookup_alter. case_decide; [|done]. destruct Hi as [? E]. subst. rewrite E. eauto.
  - intros ip q (port & Hq & ? & ? & ? & ?)%H3. destruct (decide (q = p)) as [->|Hne].
    + exists (f port). rewrite lookup_alter_eq, Hq. destruct (Hf _ Hq (H1 _ _ Hq)) as (_ & -> & ->). done.
    + exists port. rewrite lookup_alter_ne by done. done.
  - intros q port' ip Hp (port & Hq & [[-> ->]|[? ->]])%Halt; [|by eapply H4].
    destruct (Hf _ Hq (H1 _ _ Hq)) as (_ & _ & ->). by eapply H4.
  - exact H5.
Qed.

Lemma router_inv_routed f r :
  (forall vip n, f (routedVIPs r) !! vip = Some n -> length vip = 4%nat /\ exists sub, isVIP vip sub = true /\
     (n = [0; 0; 0; 0] \/ isNodeIP n sub = true)) ->
  router_inv r -> router_inv (with_routedVIPs f r).
Proof. intros Hf [H1 H2 H3 H4 H5]. by split. Qed.

(** Moving addresses between ports. *)
Lemma router_inv_change (g : Z -> routerPort -> routerPort) r r' :
  ports r' = ports r -> nextPort r' = nextPort r -> routedVIPs r' = routedVIPs r ->
  (forall q, heap r' !! q = g q <$> heap r !! q) ->
  (forall q port, heap r !! q = Some port -> port_ok r q port -> port_ok r q (g q port) /\ subnet (g q port) = subnet port) ->
  (forall ip q, ipToPort r' !! ip = Some q -> exists port, heap r !! q = Some port /\ ports r !! q = Some q /\
     ip ∈ ips (g q port) /\ length ip = 4%nat /\ isOwnedTalosboxIP ip (subnet port) = true) ->
  (forall q port ip, ports r !! q = Some q -> heap r !! q = Some port -> ip ∈ ips (g q port) -> ipToPort r' !! ip = Some q) ->
  router_inv r -> router_inv r'.
Proof.
  intros Ep En Er Eh Hg Ho Hi [H1 H2 H3 H4 H5].
  assert (forall q port', heap r' !! q = Some port' -> exists port, heap r !! q = Some port /\ port' = g q port) as Hl.
  { intros q port'. rewrite Eh. destruct (heap r !! q); simpl; [|done]. intros [= <-]. eauto. }
  split.
  - intros q port' (port & Hq & ->)%Hl. unfold port_ok. rewrite En. by apply Hg, H1.
  - intros i q. rewrite Ep. intros [-> [x Hx]]%H2. split; [done|]. rewrite Eh, Hx. eauto.
  - intros ip q (port & Hq & Hr & Hin & Hlen & Hown)%Ho. exists (g q port). rewrite Eh, Hq, Ep.
    destruct (Hg _ _ Hq (H1 _ _ Hq)) as [_ ->]. done.
  - intros q port' ip. rewrite Ep. intros Hr (port & Hq & ->)%Hl. by eapply Hi.
  - intros vip n. rewrite Er. apply H5.
Qed.

Lemma router_inv_learnVIP p ip r : ports r !! p = Some p -> router_inv r -> router_inv (learnVIPIP p ip r).
Proof.
  intros Hreg Hinv. pose proof Hinv as [H1 H2 H3 H4 H5]. unfold learnVIPIP.
  destruct (heap r !! p) as [port|] eqn:Hp; [|done]. destruct (isVIP (to4 ip) (subnet port)) eqn:Hv; [|done].
  cbn [negb]. destruct (routerIPKey (to4 ip)) as [key|] eqn:Ek; [|done].
  apply routerIPKey_spec in Ek as (Ekey & Ek4 & Hlen). rewrite to4_idemp in Ekey.
  assert (isOwnedTalosboxIP key (subnet port) = true) as Hown
    by (unfold isOwnedTalosboxIP; rewrite Ekey, Hv; apply orb_true_r).
  cbv zeta.
  apply (router_inv_change (fun q port => if decide (q = p) then set_ips (union {[key]}) port
    else if decide (ipToPort r !! key = Some q) then set_ips (fun s => s ∖ {[key]}) port else port) r); try done.
  1-3: destruct (ipToPort r !! key) as [o|] eqn:Eo; [case_bool_decide|]; done.
  - intros q. destruct (ipToPort r !! key) as [o|] eqn:Eo; [case_bool_decide|]; simpl;
      rewrite !lookup_alter; repeat (case_decide; simplify_eq); destruct (heap r !! q); done.
  - intros q port' _ Hok. repeat case_decide; done.
  - intros ip' q. simpl. rewrite lookup_insert. case_decide as E.
    + intros [= <-]. exists port. rewrite decide_True by done. simpl. subst. repeat split; try done. set_solver.
    + replace (ipToPort _ !! ip') with (ipToPort r !! ip')
        by (destruct (ipToPort r !! key); [case_bool_decide|]; done).
      intros Hq. pose proof Hq as (port' & Hq' & ? & ? & ? & ?)%H3. exists port'. repeat split; try done.
      repeat case_decide; simpl; set_solver.
  - intros q port' ip' Hr Hq. simpl. rewrite lookup_insert.
    replace (ipToPort (match ipToPort r !! key with Some o => if bool_decide (o = p) then r else _ | None => r end) !! ip')
      with (ipToPort r !! ip') by (destruct (ipToPort r !! key); [case_bool_decide|]; done).
    destruct (decide (q = p)) as [->|Hqp]; simpl; [intros Hin; case_decide; [done|]; eapply H4; set_solver|].
    case_decide as Eo; simpl; intros Hin; (case_decide as E; [subst ip'|]).
    + set_solver.
    + eapply H4; set_solver.
    + exfalso. apply Eo. by eapply H4.
    + by eapply H4.
Qed.

Lemma router_inv_learnNode p ip r : ports r !! p = Some p -> router_inv r -> router_inv (learnNodeIP p ip r).
Proof.
  intros Hreg Hinv. pose proof Hinv as [H1 H2 H3 H4 H5]. unfold learnNodeIP.
  destruct (heap r !! p) as [port|] eqn:Hp; [|done]. destruct (isNodeIP (to4 ip) (subnet port)) eqn:Hv; [|done].
  cbn [negb]. destruct (routerIPKey (to4 ip)) as [key|] eqn:Ek; [|done].
  apply routerIPKey_spec in Ek as (Ekey & Ek4 & Hlen). rewrite to4_idemp in Ekey. rewrite <- Ekey in Hv.
  assert (isOwnedTalosboxIP key (subnet port) = true) as Hown by (unfold isOwnedTalosboxIP; by rewrite Hv).
  cbv zeta. case_bool_decide as Hsame; [done|]. case_head; [done|].
  assert (forall o, ipToPort r !! key = Some o -> o = p) as Hfree.
  { intros o Ho. rewrite Ho in *. bool_to_prop. done. }
  set (drop_old := fun s : gset routerIP => match nodeIP port with Some old => s ∖ {[old]} | None => s end).
  set (r1 := match nodeIP port with Some _ => _ | None => _ end).
  assert (forall ip', ipToPort r1 !! ip' = if decide (nodeIP port = Some ip' /\ ipToPort r !! ip' = Some p) then None else ipToPort r !! ip') as Eip.
  { intros ip'. subst r1. destruct (nodeIP port) as [old|]; [case_bool_decide as Eold|]; cbn [ipToPort with_ipToPort upd_port].
    - rewrite lookup_delete. repeat case_decide; naive_solver.
    - case_decide; naive_solver.
    - case_decide; naive_solver. }
  apply (router_inv_change (fun q port' => if decide (q = p)
    then set_ips (fun s => {[key]} ∪ drop_old s) (set_nodeIP key port') else port') r); try done.
  1-3: subst r1; destruct (nodeIP port); [case_bool_decide|]; done.
  - intros q. subst r1. unfold drop_old. destruct (nodeIP port) as [old|]; [case_bool_decide|]; simpl;
      rewrite !lookup_alter; repeat (case_decide; simplify_eq); destruct (heap r !! q); done.
  - intros q port' Hq (Ha & Hb & Hc & Hd & He & Hf). case_decide; [|done]. subst. split; [|done].
    unfold port_ok. simpl. repeat split; try done; try lia. intros ? [= <-]. congruence.
  - intros ip' q. simpl. rewrite lookup_insert. case_decide as E.
    + intros [= <-]. exists port. rewrite decide_True by done. simpl. subst. repeat split; try done. set_solver.
    + rewrite Eip. case_decide as Eold; [done|]. intros Hq. pose proof Hq as (port' & Hq' & ? & ? & ? & ?)%H3.
      exists port'. repeat split; try done. case_decide; [|done]. subst. simplify_eq. simpl.
      apply elem_of_union_r. unfold drop_old. destruct (nodeIP port) as [old|] eqn:En; [|done].
      apply elem_of_difference. split; [done|]. intros ->%elem_of_singleton. naive_solver.
  - intros q port' ip' Hr Hq. simpl. rewrite lookup_insert. case_decide as E; simpl.
    + subst q. simplify_eq. intros Hin. case_decide as Ei; [done|]. rewrite Eip.
      apply elem_of_union in Hin as [Hin|Hin]; [set_solver|]. unfold drop_old in Hin.
      assert (ip' ∈ ips port) as Hin' by (destruct (nodeIP port); set_solver).
      rewrite decide_False; [by eapply H4|]. intros [En _]. rewrite En in Hin. set_solver.
    + intros Hin. pose proof (H4 _ _ _ Hr Hq Hin) as Hq'. case_decide as Ei.
      * subst ip'. by rewrite (Hfree _ Hq').
      * rewrite Eip, decide_False; [done|]. intros [_ ?]. congruence.
Qed.

(** ** What a port never loses *)

Definition heap_mono (r r' : frameRouter) : Prop :=
  forall p port, heap r !! p = Some port -> exists port', heap r' !! p = Some port' /\ subnet port' = subnet port /\
    (forall m, mac port = Some m -> mac port' = Some m) /\ (closed port = true -> closed port' = true).
Definition heap_ext (r r' : frameRouter) : Prop := ports r' = ports r /\ heap_mono r r'.

#[global] Instance heap_ext_preorder : PreOrder heap_ext.
Proof.
  split.
  - intros r. split; [done|]. intros p port Hp. exists port. auto.
  - intros r1 r2 r3 [E1 H12] [E2 H23]. split; [congruence|]. intros p port Hp.
    destruct (H12 _ _ Hp) as (p2 & Hp2 & Hs & Hm & Hc). destruct (H23 _ _ Hp2) as (p3 & Hp3 & Hs' & Hm' & Hc').
    exists p3. split; [done|]. split; [congruence|]. auto.
Qed.

Lemma heap_ext_upd p f r :
  (forall port, heap r !! p = Some port -> subnet (f port) = subnet port /\
    (forall m, mac port = Some m -> mac (f port) = Some m) /\ (closed port = true -> closed (f port) = true)) ->
  heap_ext r (upd_port p f r).
Proof.
  intros Hf. split; [done|]. intros q port Hq. simpl. rewrite lookup_alter. case_decide; [subst|eauto].
  rewrite Hq. simpl. exists (f port). split; [done|]. by apply Hf.
Qed.

Lemma heap_ext_ipToPort f r : heap_ext r (with_ipToPort f r).
Proof. split; [done|]. intros p port Hp. exists port. auto. Qed.

Ltac solve_ext :=
  repeat (first [ reflexivity
    | (etransitivity; [|apply heap_ext_ipToPort])
    | (etransitivity; [|apply heap_ext_upd; intros; simpl; auto])
    | case_head ]).

Lemma learnVIPIP_ext p ip r : heap_ext r (learnVIPIP p ip r).
Proof. unfold learnVIPIP. cbv zeta. case_head; [|reflexivity]. case_head; [reflexivity|]. case_head; [|reflexivity]. solve_ext. Qed.

Lemma learnNodeIP_ext p ip r : heap_ext r (learnNodeIP p ip r).
Proof.
  unfold learnNodeIP. cbv zeta. case_head; [|reflexivity]. case_head; [reflexivity|]. case_head; [|reflexivity].
  case_head; [reflexivity|]. case_head; [reflexivity|].
  etransitivity; [|apply heap_ext_ipToPort]. etransitivity; [|apply heap_ext_upd; intros; simpl; auto].
  case_head; [|reflexivity]. etransitivity; [|apply heap_ext_upd; intros; simpl; auto].
  case_head; [apply heap_ext_ipToPort|reflexivity].
Qed.

Lemma learnDHCP_ext p port m payload r : heap_ext r (learnDHCPRequestedIP p port m payload r).
Proof. unfold learnDHCPRequestedIP. repeat (case_head; try reflexivity). apply learnNodeIP_ext. Qed.

Lemma learnDHCP_inv p port m payload r :
  ports r !! p = Some p -> router_inv r -> router_inv (learnDHCPRequestedIP p port m payload r).
Proof. intros Hp Hi. unfold learnDHCPRequestedIP. repeat (case_head; try done). by apply router_inv_learnNode. Qed.

Lemma learnARP_ext p port m payload r : heap_ext r (learnARPSender p port m payload r).
Proof. unfold learnARPSender. repeat (case_head; try reflexivity). apply learnVIPIP_ext. Qed.

Lemma learnARP_inv p port m payload r :
  ports r !! p = Some p -> router_inv r -> router_inv (learnARPSender p port m payload r).
Proof. intros Hp Hi. unfold learnARPSender. repeat (case_head; try done). by apply router_inv_learnVIP. Qed.

Lemma registered_spec r p : router_inv r -> registered r p = true <-> ports r !! p = Some p.
Proof.
  intros Hi. unfold registered. destruct (heap r !! p) as [port|] eqn:E.
  - destruct (inv_heap r Hi _ _ E) as (-> & _). apply bool_decide_eq_true.
  - split; [done|]. intros Hp. apply (inv_ports r Hi) in Hp as [_ [? ?]]. congruence.
Qed.

Lemma slice_length l a b : (a <= b <= length l)%nat -> length (slice l a b) = (b - a)%nat.
Proof. intros H. unfold slice. rewrite length_take, length_drop. lia. Qed.

Lemma acceptPortSourceMAC_spec p port m r b r' :
  heap r !! p = Some port -> length m = 6%nat -> router_inv r -> acceptPortSourceMAC p port m r = (b, r') ->
  router_inv r' /\ heap_ext r r' /\
  (b = true -> exists port', heap r' !! p = Some port' /\ subnet port' = subnet port /\ mac port' = Some m).
Proof.
  intros Hp Hm Hi. unfold acceptPortSourceMAC. case_head; [intros [= <- <-]; done|].
  destruct (mac port) as [own|] eqn:Em; intros [= <- <-].
  - split; [done|]. split; [done|]. intros ->%bool_decide_eq_true. eauto.
  - split; [|split].
    + apply router_inv_upd; [|done]. intros port0 E (Ha & Hb & Hc & Hd & He & Hf). unfold port_ok. simpl.
      repeat split; try done; try lia. by intros ? [= <-].
    + apply heap_ext_upd. intros port0 E. simpl. repeat split; try done. intros. simplify_eq.
    + intros _. simpl. rewrite lookup_alter_eq, Hp. simpl. eauto.
Qed.

Lemma port_on_spec r ip sub p : router_inv r -> port_on r ip sub = Some p ->
  exists port, heap r !! p = Some port /\ subnet port = sub /\ ports r !! p = Some p /\
    ipToPort r !! ip = Some p /\ isOwnedTalosboxIP ip sub = true.
Proof.
  intros Hi. unfold port_on. intros H. repeat case_head_in H; simplify_eq. bool_to_prop.
  destruct (inv_owned r Hi _ _ Heqo) as (port & Hp & Hr & _ & _ & Ho). simplify_eq. eauto 6.
Qed.

(** Only an address of the port's own subnet is ever owned by it. *)
Lemma owner_spec r ip sub p : router_inv r -> owner r ip sub = Some p ->
  exists port, heap r !! p = Some port /\ subnet port = sub /\ ports r !! p = Some p /\ isOwnedTalosboxIP ip sub = true.
Proof.
  intros Hi. unfold owner. destruct (port_on r ip sub) eqn:E.
  - intros [= ->]. destruct (port_on_spec _ _ _ _ Hi E) as (port & ? & ? & ? & _ & ?). eauto.
  - destruct (routedVIPs r !! ip) as [n|] eqn:En; [|done]. intros Hp.
    destruct (port_on_spec _ _ _ _ Hi Hp) as (port & Hp1 & Hsub & Hp2 & _ & Hp4).
    exists port. split; [done|]. split; [done|]. split; [done|]. apply isOwned_belongs in Hp4.
    destruct (inv_routed r Hi _ _ En) as (_ & s & Hv & [->|Hn]); [done|].
    assert (belongsToSubnet n s = true) as Hb by (apply isOwned_belongs; unfold isOwnedTalosboxIP; by rewrite Hn).
    rewrite (belongs_unique _ _ _ Hp4 Hb). unfold isOwnedTalosboxIP. rewrite Hv. apply orb_true_r.
Qed.

Lemma talosboxSubnet_belongs ip sub : talosboxSubnet ip = Some sub -> belongsToSubnet ip sub = true.
Proof.
  unfold talosboxSubnet, belongsToSubnet. destruct (to4 ip) as [|a [|b [|c [|d [|]]]]]; try done.
  case_head; [|done]. intros [= <-]. by rewrite Z.eqb_refl.
Qed.

(** A frame the router may put on the segment of port [t]: addressed to the
    port's learned MAC, a valid IPv4 packet for an address of that segment, from
    an address of another one, with hops left. *)
Definition frame_ok (r : frameRouter) (t : Z) (f : list Z) : Prop :=
  exists port m sm payload pkt sub,
    heap r !! t = Some port /\ mac port = Some m /\
    parseRouterEthernetFrame f = Some (m, sm, routerEtherTypeIPv4, payload) /\
    parseRouterIPv4Packet payload = Some pkt /\
    isOwnedTalosboxIP (ip_dst pkt) (subnet port) = true /\
    isOwnedTalosboxIP (ip_src pkt) sub = true /\ sub <> subnet port /\ 1 <= ip_ttl pkt.

Lemma frame_ok_mono r r' t f : heap_mono r r' -> frame_ok r t f -> frame_ok r' t f.
Proof.
  intros Hext (port & m & sm & payload & pkt & sub & Hp & Hm & H). destruct (Hext _ _ Hp) as (port' & Hp' & Hs & Hm' & _).
  exists port', m, sm, payload, pkt, sub. rewrite Hs. auto.
Qed.

Lemma key_owned ip key sub :
  routerIPKey ip = Some key -> isOwnedTalosboxIP key sub = true -> isOwnedTalosboxIP ip sub = true.
Proof.
  intros (-> & _)%routerIPKey_spec. unfold isOwnedTalosboxIP. by rewrite isNodeIP_to4, isVIP_to4.
Qed.

Lemma sourceMAC_length r p port : router_inv r -> heap r !! p = Some port -> length (sourceMAC port) = 6%nat.
Proof.
  intros Hi Hp. destruct (inv_heap r Hi _ _ Hp) as (_ & _ & _ & _ & Hg & _). unfold sourceMAC.
  destruct (gateway port); [by apply Hg|done].
Qed.

Lemma router_inv_gateway p m r : length m = 6%nat -> router_inv r -> router_inv (upd_port p (set_gateway m) r).
Proof.
  intros Hm Hi. apply router_inv_upd; [|done]. intros port _ (Ha & Hb & Hc & Hd & He & Hf). unfold port_ok. simpl.
  repeat split; try done; try lia. by intros ? [= <-].
Qed.

Lemma route_ipv4_spec p frame dst src payload pkt r v r' :
  Forall is_byte frame -> parseRouterEthernetFrame frame = Some (dst, src, routerEtherTypeIPv4, payload) ->
  parseRouterIPv4Packet payload = Some pkt -> length dst = 6%nat -> ports r !! p = Some p -> router_inv r ->
  route_ipv4 p frame dst src pkt r = (v, r') ->
  router_inv r' /\ heap_ext r r' /\ match v with Forward t f => frame_ok r' t f | _ => True end.
Proof.
  intros Hb He Hp Hd Hreg Hi. unfold route_ipv4. destruct (heap r !! p) as [port|] eqn:Hport; [|intros [= <- <-]; done].
  cbv zeta. set (r1 := if (ip_protocol pkt =? routerIPProtocolUDP) && negb (ip_fragmented pkt) then _ else r).
  assert (router_inv r1) as Hi1 by (subst r1; case_head; [by apply learnDHCP_inv|done]).
  assert (heap_ext r r1) as He1 by (subst r1; case_head; [apply learnDHCP_ext|done]).
  clearbody r1. destruct (routerIPKey (ip_src pkt)) as [sk|] eqn:Es; [|intros [= <- <-]; done].
  destruct (talosboxSubnet (ip_dst pkt)) as [ds|] eqn:Ed; [|intros [= <- <-]; done].
  destruct (routerIPKey (ip_dst pkt)) as [dk|] eqn:Edk; [|intros [= <- <-]; done].
  case_bool_decide as Hown; [|intros [= <- <-]; done]. cbn [negb].
  destruct (_ || _) eqn:Eg; [intros [= <- <-]; done|]. cbv zeta. bool_to_prop.
  set (r2 := if isUnicastMAC dst then _ else r1).
  assert (router_inv r2) as Hi2 by (subst r2; case_head; [by apply router_inv_gateway|done]).
  assert (heap_ext r1 r2) as He2 by (subst r2; case_head; [apply heap_ext_upd; intros; simpl; auto|done]).
  clearbody r2. destruct (targetFor r2 dk ds) as [[[t target] tm]|] eqn:Et; [|intros [= <- <-]; split; [done|split; [by etransitivity|done]]].
  case_head; bool_to_prop; intros [= <- <-]; (split; [done|split; [by etransitivity|]]); [done|].
  unfold targetFor in Et. destruct (owner r2 dk ds) as [t'|] eqn:Eo; [|done].
  destruct (owner_spec _ _ _ _ Hi2 Eo) as (port' & Hp' & Hsub & _ & _). rewrite Hp' in Et.
  destruct (mac port') as [tm'|] eqn:Em; [|done]. injection Et as <- <- <-.
  destruct (inv_heap r2 Hi2 _ _ Hp') as (_ & _ & _ & Hml & _).
  destruct (rewrite_frame_parses frame dst src routerEtherTypeIPv4 payload pkt tm' (sourceMAC port')) as (payload' & Hp1 & Hp2 & _);
    [done..|lia|by apply Hml|by eapply sourceMAC_length|].
  exists port', tm', (sourceMAC port'), payload'. eexists. exists (subnet port).
  split; [done|]. split; [done|]. split; [exact Hp1|]. split; [exact Hp2|]. simpl. rewrite Hsub.
  split; [done|]. split.
  - eapply key_owned; [done|]. by destruct (owner_spec _ _ _ _ Hi1 Hown) as (_ & _ & _ & _ & ?).
  - split; [congruence|lia].
Qed.

Lemma route_locked_spec p frame r v r' :
  Forall is_byte frame -> router_inv r -> route_locked p frame r = (v, r') ->
  router_inv r' /\ heap_ext r r' /\ match v with Forward t f => frame_ok r' t f | _ => True end.
Proof.
  intros Hb Hi. unfold route_locked.
  destruct (parseRouterEthernetFrame frame) as [[[[dst src] et] payload]|] eqn:Ee; [|intros [= <- <-]; done].
  assert (length dst = 6%nat /\ length src = 6%nat) as [Hd Hs].
  { unfold parseRouterEthernetFrame, routerEthernetHeaderLen in Ee. case_decide; [done|].
    injection Ee as <- <- _ _. rewrite !slice_length by lia. done. }
  case_head; [intros [= <- <-]; done|]. cbv zeta.
  destruct ((et =? routerEtherTypeIPv4) && _) eqn:E4; [intros [= <- <-]; done|].
  destruct (heap r !! p) as [port|] eqn:Hp; [|intros [= <- <-]; done].
  destruct (registered r p) eqn:Er; [|intros [= <- <-]; done]. cbn [negb].
  destruct (acceptPortSourceMAC p port src r) as [acc r1] eqn:Ea.
  destruct (acceptPortSourceMAC_spec _ _ _ _ _ _ Hp Hs Hi Ea) as (Hi1 & He1 & _).
  destruct acc; [|intros [= <- <-]; done]. cbn [negb]. apply registered_spec in Er; [|done].
  assert (ports r1 !! p = Some p) as Hr1 by (destruct He1 as [-> _]; done).
  destruct (if et =? routerEtherTypeIPv4 then parseRouterIPv4Packet payload else None) as [pkt|] eqn:Epkt.
  - destruct (et =? routerEtherTypeIPv4) eqn:Eet; [|done]. bool_to_prop. subst et. intros Hrt.
    destruct (route_ipv4_spec _ _ _ _ _ _ _ _ _ Hb Ee Epkt Hd Hr1 Hi1 Hrt) as (? & ? & ?).
    split; [done|]. split; [by etransitivity|done].
  - intros [= <- <-]. split; [by apply learnARP_inv|]. split; [|done]. etransitivity; [done|apply learnARP_ext].
Qed.

(** ** Runs *)

Lemma heap_mono_refl r : heap_mono r r.
Proof. intros p port Hp. eauto 6. Qed.

Lemma add_mono sub r : router_inv r -> heap_mono r (addPort sub r).2.
Proof.
  intros Hi p port Hp. simpl. exists port. rewrite lookup_insert_ne; [auto|].
  intros E. destruct (inv_heap r Hi _ _ Hp) as (_ & ? & _). lia.
Qed.

Lemma remove_mono p r : heap_mono r (removePort_locked p r).2.
Proof. intros q port Hq. unfold removePort_locked. repeat case_head; simpl; eauto 6. Qed.

Lemma close_mono p r : heap_mono r (closeSend p r).
Proof. apply heap_ext_upd. intros port _. simpl. auto. Qed.

Lemma closeSend_inv p r : router_inv r -> router_inv (closeSend p r).
Proof. apply router_inv_upd. intros port _ (?&?&?&?&?&?). unfold port_ok. simpl. auto 7. Qed.

Lemma learnRouted_inv prefix nexthop r : router_inv r -> router_inv (learnRoutedVIP prefix nexthop r).
Proof.
  intros Hi. unfold learnRoutedVIP. destruct (routedVIPPair prefix nexthop) as [[vip nh]|] eqn:E; [|done].
  apply router_inv_routed; [|done]. intros v n. rewrite lookup_insert. case_decide; [subst|by apply (inv_routed r Hi)].
  intros [= <-]. apply routedVIPPair_spec in E as (Hl & sub & Hv & Hn). split; [done|]. exists sub. split; [done|].
  destruct nh; simpl; [right; auto|by left].
Qed.

Lemma forgetRouted_inv prefix r : router_inv r -> router_inv (forgetRoutedVIP prefix r).
Proof.
  intros Hi. unfold forgetRoutedVIP. case_head; [|done]. case_head. apply router_inv_routed; [|done].
  intros v n [_ Hv]%lookup_delete_Some. by apply (inv_routed r Hi).
Qed.

Lemma routed_mono r f : heap_mono r (with_routedVIPs f r).
Proof. intros p port Hp. simpl. eauto 6. Qed.

(** One step keeps the invariant, what ports have, and moves only sound frames. *)
Lemma step_spec s s' : step s s' -> router_inv (router s) ->
  (forall t f, (t, f) ∈ inflight s -> frame_ok (router s) t f) ->
  router_inv (router s') /\ heap_mono (router s) (router s') /\
  (forall t f, (t, f) ∈ inflight s' -> frame_ok (router s') t f) /\
  (forall t f, (t, f) ∈ wire s' -> (t, f) ∈ wire s \/
    ((t, f) ∈ inflight s /\ forall port, heap (router s) !! t = Some port -> closed port = false)).
Proof.
  intros Hstep Hi Hf. destruct Hstep; cbn [router inflight wire] in *.
  - split; [by apply router_inv_add|]. pose proof (add_mono sub r Hi). split; [done|]. split; [intros; eapply frame_ok_mono; eauto|auto].
  - split; [by apply router_inv_remove|]. pose proof (remove_mono p r). split; [done|]. split; [intros; eapply frame_ok_mono; eauto|auto].
  - split; [by apply closeSend_inv|]. pose proof (close_mono p r). split; [done|]. split; [intros; eapply frame_ok_mono; eauto|auto].
  - destruct (route_locked_spec _ _ _ _ _ H Hi H0) as (Hi' & [_ He] & Hv). split; [done|]. split; [done|].
    split; [|auto]. intros t f. destruct v; try (intros; by eapply frame_ok_mono; eauto).
    intros [[= -> ->]|Hin]%elem_of_cons; [done|]. eapply frame_ok_mono; eauto.
  - split; [done|]. split; [apply heap_mono_refl|]. split; [set_solver|]. intros t' f'. unfold sendFrame.
    destruct (heap r !! t) as [port|] eqn:Ep; [|auto]. destruct (closed port) eqn:Ec; [auto|]. case_head; [|auto].
    intros [[= -> ->]|Hin]%elem_of_cons; [right|auto]. split; [set_solver|]. intros. simplify_eq. done.
  - split; [by apply learnRouted_inv|].
    assert (heap_mono r (learnRoutedVIP prefix0 nexthop r)) as Hm
      by (unfold learnRoutedVIP; repeat case_head; apply routed_mono || apply heap_mono_refl).
    split; [done|]. split; [intros; eapply frame_ok_mono; eauto|auto].
  - split; [by apply forgetRouted_inv|].
    assert (heap_mono r (forgetRoutedVIP prefix0 r)) as Hm
      by (unfold forgetRoutedVIP; repeat case_head; apply routed_mono || apply heap_mono_refl).
    split; [done|]. split; [intros; eapply frame_ok_mono; eauto|auto].
Qed.

Lemma reachable_spec s : reachable s ->
  router_inv (router s) /\ (forall t f, (t, f) ∈ inflight s -> frame_ok (router s) t f) /\
  (forall t f, (t, f) ∈ wire s -> frame_ok (router s) t f).
Proof.
  unfold reachable. revert s. apply (rtc_ind_r _ initial).
  - split; [apply router_inv_new|]. split; set_solver.
  - intros s1 s2 _ Hstep (Hi & Hf & Hw).
    destruct (step_spec _ _ Hstep Hi Hf) as (Hi' & Hm & Hf' & Hw'). split; [done|]. split; [done|].
    intros t f [Hin|[Hin _]]%Hw'; eapply frame_ok_mono; eauto.
Qed.

(** ** Theorems *)

(** C25: whatever frames arrive, ports come and go and routes are announced or
    withdrawn, in any interleaving, the address tables stay consistent: an
    address is bound to a registered port of its own subnet that lists it, every
    address a registered port lists is bound to it, so no two ports own one
    address, and a routed VIP and its next hop are of one subnet. *)
Theorem router_tables_consistent s : reachable s ->
  router_inv (router s) /\
  forall p q port port' ip, ports (router s) !! p = Some p -> ports (router s) !! q = Some q ->
    heap (router s) !! p = Some port -> heap (router s) !! q = Some port' ->
    ip ∈ ips port -> ip ∈ ips port' -> p = q.
Proof.
  intros (Hi & _)%reachable_spec. split; [done|]. intros p q port port' ip Hp Hq Hp' Hq' H1 H2.
  pose proof (inv_ips _ Hi _ _ _ Hp Hp' H1). pose proof (inv_ips _ Hi _ _ _ Hq Hq' H2). congruence.
Qed.

(** C1: isolation.  In every interleaving, each frame that reached a segment is
    addressed to the MAC learned on that port and is a checksum-valid IPv4 packet
    for a node or VIP address of that segment, from a node or VIP address of
    another segment, with hops left. *)
Theorem wire_isolation s t f : reachable s -> (t, f) ∈ wire s -> frame_ok (router s) t f.
Proof. intros (_ & _ & Hw)%reachable_spec. apply Hw. Qed.

(** Once [closeSend] has run, nothing more reaches the port's segment, even
    frames that had already been routed to it. *)
Theorem closed_port_silent s s' p port f :
  reachable s -> heap (router s) !! p = Some port -> closed port = true -> rtc step s s' ->
  (p, f) ∈ wire s' -> (p, f) ∈ wire s.
Proof.
  intros Hr Hp Hc Hs. destruct (reachable_spec _ Hr) as (Hi & Hf & _). clear Hr. revert port Hp Hc Hi Hf.
  induction Hs as [|s s1 s2 Hstep _ IH]; intros port Hp Hc Hi Hf; [done|].
  destruct (step_spec _ _ Hstep Hi Hf) as (Hi' & Hm & Hf' & Hw).
  destruct (Hm _ _ Hp) as (port' & Hp' & _ & _ & Hc'). intros Hin.
  specialize (IH port' Hp' (Hc' Hc) Hi' Hf' Hin). destruct (Hw _ _ IH) as [?|[_ Ho]]; [done|].
  specialize (Ho _ Hp). congruence.
Qed.

Lemma learnVIPIP_other q ip r node : length node = 4%nat -> (forall sub, isVIP node sub = false) ->
  ipToPort (learnVIPIP q ip r) !! node = ipToPort r !! node.
Proof.
  intros Hl Hn. unfold learnVIPIP. cbv zeta. case_head; [|done]. case_head; [done|]. case_head; [|done]. bool_to_prop.
  simpl. rewrite lookup_insert_ne; [repeat case_head; done|].
  intros ->. apply routerIPKey_spec in Heqo0 as (-> & _ & _).
  rewrite to4_idemp, isVIP_to4 in *. specialize (Hn (subnet r0)). rewrite isVIP_to4 in Hn. congruence.
Qed.

Lemma learnNodeIP_other q ip r node p : p <> q -> ipToPort r !! node = Some p ->
  ipToPort (learnNodeIP q ip r) !! node = Some p.
Proof.
  intros Hne Hp. unfold learnNodeIP. cbv zeta. case_head; [|done]. case_head; [done|]. case_head; [|done].
  case_head; [done|]. case_head; [done|]. cbn [ipToPort with_ipToPort upd_port].
  rewrite lookup_insert_ne.
  - destruct (nodeIP r0) as [old|]; [|exact Hp]. destruct (bool_decide (ipToPort r !! old = _)) eqn:Eb; [|exact Hp].
    bool_to_prop. cbn [ipToPort with_ipToPort upd_port]. rewrite lookup_delete_ne; [done|]. intros ->. congruence.
  - intros ->. rewrite Hp in *. bool_to_prop. congruence.
Qed.

(** A node's address cannot be taken over from another port: no frame that
    arrives on a different port changes the binding of a node address. *)
Theorem node_address_not_hijacked r p q ip sub frame v r' :
  ipToPort r !! ip = Some p -> length ip = 4%nat -> isNodeIP ip sub = true -> q <> p ->
  route_locked q frame r = (v, r') -> ipToPort r' !! ip = Some p.
Proof.
  intros Hp Hl Hn Hne. assert (forall s, isVIP ip s = false) as Hv.
  { intros s. destruct (isVIP ip s) eqn:E; [|done]. by destruct (node_not_vip ip sub s). }
  assert (forall port m r1, ipToPort r1 !! ip = Some p -> ipToPort (acceptPortSourceMAC q port m r1).2 !! ip = Some p) as Ha.
  { intros. unfold acceptPortSourceMAC. repeat case_head; done. }
  assert (forall port m pl r1, ipToPort r1 !! ip = Some p -> ipToPort (learnDHCPRequestedIP q port m pl r1) !! ip = Some p) as Hd.
  { intros. unfold learnDHCPRequestedIP. repeat case_head; try done. by apply learnNodeIP_other. }
  assert (forall dst src pkt r1 v1 r2, ipToPort r1 !! ip = Some p -> route_ipv4 q frame dst src pkt r1 = (v1, r2) ->
    ipToPort r2 !! ip = Some p) as Hr.
  { intros dst src pkt r1 v1 r2 H1. unfold route_ipv4. cbv zeta. intros H2.
    repeat case_head_in H2; injection H2 as _ <-; simpl; auto. }
  unfold route_locked. cbv zeta. intros H.
  case_head_in H; [|injection H as _ <-; done]. repeat case_head_in H; simplify_eq; try done;
    match goal with E : acceptPortSourceMAC q ?port ?m r = (?b, ?r1) |- _ =>
      pose proof (Ha port m r Hp) as Hacc; rewrite E in Hacc; simpl in Hacc end; eauto;
    unfold learnARPSender; repeat case_head; rewrite ?learnVIPIP_other; done.
Qed.

(** Delivery.  A checksum-valid packet with hops left, from a port that owns
    its source to an address whose owner on another segment has a known MAC, is
    forwarded to that owner and to nobody else. *)
Theorem route_delivers r p port t target tmac frame dst src payload pkt srcKey dstKey dstSubnet :
  parseRouterEthernetFrame frame = Some (dst, src, routerEtherTypeIPv4, payload) ->
  parseRouterIPv4Packet payload = Some pkt -> ip_protocol pkt <> routerIPProtocolUDP ->
  heap r !! p = Some port -> registered r p = true -> isUnicastMAC src = true -> mac port = Some src ->
  routerIPKey (ip_src pkt) = Some srcKey -> owner r srcKey (subnet port) = Some p ->
  talosboxSubnet (ip_dst pkt) = Some dstSubnet -> routerIPKey (ip_dst pkt) = Some dstKey ->
  isOwnedTalosboxIP (ip_dst pkt) dstSubnet = true -> dstSubnet <> subnet port ->
  owner r dstKey dstSubnet = Some t -> t <> p -> heap r !! t = Some target -> mac target = Some tmac ->
  1 < ip_ttl pkt ->
  (route_locked p frame r).1 =
    Forward t (rewrite_frame frame tmac (sourceMAC target) (ip_ttl pkt) (ip_headerLen pkt)).
Proof.
  intros He Hpk Hudp Hp Hreg Huni Hmac Hsk Hsown Hds Hdk Hdown Hdne Hown Htp Ht Htm Httl.
  unfold route_locked. rewrite He. cbn [negb andb routerEtherTypeIPv4 routerEtherTypeARP Z.eqb Pos.eqb].
  rewrite Hpk, bool_decide_eq_false_2 by done. cbn [andb]. rewrite Hp, Hreg. cbn [negb].
  unfold acceptPortSourceMAC. rewrite Huni, Hmac, bool_decide_eq_true_2 by done. cbn [negb].
  unfold route_ipv4. rewrite Hp, (proj2 (Z.eqb_neq _ _) Hudp). cbn [andb].
  rewrite Hsk, Hds, Hdk, Hsown, bool_decide_eq_true_2 by done. cbn [negb].
  rewrite (proj2 (Z.eqb_neq _ _) Hdne), Hdown. cbn [negb orb].
  set (r2 := if isUnicastMAC dst then _ else r).
  assert (forall ip sub, owner r2 ip sub = owner r ip sub) as Ho.
  { assert (forall ip sub, port_on r2 ip sub = port_on r ip sub) as Hpo.
    { intros ip sub. unfold port_on. subst r2. destruct (isUnicastMAC dst); [|done]. simpl.
      destruct (ipToPort r !! ip) as [z|]; [|done]. rewrite lookup_alter. case_decide; [subst z|done].
      by destruct (heap r !! p). }
    intros ip sub. unfold owner. rewrite !Hpo. replace (routedVIPs r2) with (routedVIPs r) by (subst r2; by destruct (isUnicastMAC dst)).
    case_match; [done|]. case_match; [apply Hpo|done]. }
  assert (heap r2 !! t = Some target) as Ht2 by (subst r2; destruct (isUnicastMAC dst); [simpl; by rewrite lookup_alter_ne|done]).
  unfold targetFor. rewrite Ho, Hown, Ht2, Htm. rewrite (proj2 (Z.leb_gt _ _)) by lia. done.
Qed.

(** ** A concrete run

    Two segments, a VIP announced on each by ARP, and one packet between them. *)

Definition macA : routerMAC := [2; 0; 0; 0; 0; 1].
Definition macB : routerMAC := [2; 0; 0; 0; 0; 2].
Definition vip (sub : Z) : IP := [172; 30; sub; 200].

Definition arp_frame (m : routerMAC) (ip : IP) : list Z :=
  replicate 6 255 ++ m ++ [8; 6] ++ [0; 1; 8; 0; 6; 4; 0; 2] ++ m ++ ip ++ replicate 6 0 ++ ip.

Definition ip_frame (m : routerMAC) (src dst : IP) : list Z :=
  let header ck := [69; 0; 0; 20; 0; 0; 0; 0; 64; 6] ++ ck ++ src ++ dst in
  macB ++ m ++ [8; 0] ++ header (put16 (routerInternetChecksum (header [0; 0]))).

Definition exec_route (p : Z) (frame : list Z) (s : system) : system :=
  let '(v, r') := route_locked p frame (router s) in
  mkSystem r' (match v with Forward t f => (t, f) :: inflight s | _ => inflight s end) (wire s).

Definition demo_ports : system := mkSystem (addPort 2 (addPort 1 newFrameRouter).2).2 [] [].
Definition demo_learned : system :=
  exec_route 2 (arp_frame macB (vip 2)) (exec_route 1 (arp_frame macA (vip 1)) demo_ports).
Definition demo_frame : list Z := ip_frame macA (vip 1) (vip 2).
Definition demo_sent : list Z := rewrite_frame demo_frame macB (routerGatewayMACKey 2) 64 20.
Definition demo_routed : system := exec_route 1 demo_frame demo_learned.
Definition demo_wire : system := mkSystem (router demo_routed) [] [(2, demo_sent)].

Lemma exec_route_step p frame s : forallb (fun b => (0 <=? b) && (b <? 256)) frame = true -> step s (exec_route p frame s).
Proof.
  intros Hb. destruct s as [r fl w]. unfold exec_route. simpl.
  destruct (route_locked p frame r) as [v r'] eqn:E. apply step_route with p frame; [|done].
  apply Forall_forall. intros b Hin. rewrite forallb_forall in Hb. apply list_elem_of_In in Hin.
  specialize (Hb b Hin). bool_to_prop. unfold is_byte. lia.
Qed.

Lemma demo_reachable : reachable demo_learned.
Proof.
  apply rtc_l with (mkSystem (addPort 1 newFrameRouter).2 [] []); [by apply step_add|].
  apply rtc_l with demo_ports; [by apply step_add|].
  eapply rtc_l; [apply (exec_route_step 1 (arp_frame macA (vip 1))); reflexivity|].
  apply rtc_once, (exec_route_step 2 (arp_frame macB (vip 2))). reflexivity.
Qed.

Lemma demo_wire_reachable : reachable demo_wire.
Proof.
  unfold reachable. transitivity demo_learned; [exact demo_reachable|].
  eapply rtc_l; [apply (exec_route_step 1 demo_frame); reflexivity|]. apply rtc_once.
  assert (exec_route 1 demo_frame demo_learned = mkSystem (router demo_routed) ([] ++ (2, demo_sent) :: []) []) as ->
    by (vm_compute; reflexivity).
  exact (step_send 2 demo_sent (router demo_routed) [] [] [] (fun _ => true)).
Qed.

Lemma router_tables_consistent_witness : router_inv (router demo_learned).
Proof. exact (proj1 (router_tables_consistent demo_learned demo_reachable)). Defined.

Lemma wire_isolation_witness : frame_ok (router demo_wire) 2 demo_sent.
Proof. apply (wire_isolation demo_wire 2 demo_sent); [exact demo_wire_reachable|left]. Defined.

(** One frame has been sent; the second port is removed and closed while another
    is in flight. *)
Definition demo_again : system := exec_route 1 demo_frame demo_wire.
Definition demo_closed : system := mkSystem (removePort 2 (router demo_again)) [(2, demo_sent)] [(2, demo_sent)].

Lemma demo_closed_reachable : reachable demo_closed.
Proof.
  unfold reachable. transitivity demo_wire; [exact demo_wire_reachable|].
  eapply rtc_l; [apply (exec_route_step 1 demo_frame); reflexivity|].
  assert (exec_route 1 demo_frame demo_wire = mkSystem (router demo_again) [(2, demo_sent)] [(2, demo_sent)]) as ->
    by (vm_compute; reflexivity).
  eapply rtc_l; [apply (step_remove 2)|]. apply rtc_once. apply (step_close 2). vm_compute. reflexivity.
Qed.

(** The pending send then fails: the port is closed. *)
Definition demo_after : system :=
  mkSystem (router demo_closed) []
    (match sendFrame (fun _ => true) 2 demo_sent (router demo_closed) with
     | Ok _ => [(2, demo_sent); (2, demo_sent)] | Err _ => [(2, demo_sent)] end).

Lemma closed_port_silent_witness : (2, demo_sent) ∈ wire demo_closed.
Proof.
  apply (closed_port_silent demo_closed demo_after 2 (default (mkPort 0 0 false None None None ∅) (heap (router demo_closed) !! 2)));
    [exact demo_closed_reachable| | | |].
  - vm_compute. reflexivity.
  - vm_compute. reflexivity.
  - apply rtc_once. exact (step_send 2 demo_sent (router demo_closed) [] [] [(2, demo_sent)] (fun _ => true)).
  - vm_compute. left.
Defined.

(** The first segment's node has its lease. *)
Definition demo_leased : frameRouter := learnNodeIP 1 [172; 30; 1; 5] (router demo_ports).

Lemma node_address_not_hijacked_witness :
  ipToPort (route_locked 2 (arp_frame macB (vip 2)) demo_leased).2 !! [172; 30; 1; 5] = Some 1.
Proof.
  apply (node_address_not_hijacked demo_leased 1 2 [172; 30; 1; 5] 1 (arp_frame macB (vip 2))
    (route_locked 2 (arp_frame macB (vip 2)) demo_leased).1);
    [vm_compute; reflexivity|reflexivity|reflexivity|discriminate|apply surjective_pairing].
Defined.

Lemma route_delivers_witness : (route_locked 1 demo_frame (router demo_learned)).1 = Forward 2 demo_sent.
Proof.
  apply (route_delivers (router demo_learned) 1 (mkPort 1 1 false (Some macA) None None {[vip 1]}) 2
    (mkPort 2 2 false (Some macB) None None {[vip 2]}) macB demo_frame macB macA (drop 14 demo_frame)
    (mkIPv4 20 64 6 false (vip 1) (vip 2) []) (vip 1) (vip 2) 2);
    first [discriminate | vm_compute; reflexivity].
Defined.
