(* ===== verification/Cluster.v ===== *)
(** * The cluster model ([internal/cluster]: cluster.go, node.go, reservation.go, provisioning.go, store.go)

    A [Cluster] is the persisted description of one Talos cluster: its /24, its
    nodes with their reserved addresses and derived MACs, and the provisioning
    intent.  A Go slice is shared by the copies of the struct that hold it, so
    the operations that write [item.Nodes[i].IP] return the nodes as every holder
    of the slice sees them, on error paths too. *)

From stdpp Require Import base list gmap strings pretty.
From Stdlib Require Import Ascii ZArith Lia.
From S2P Require Import Prelude GoStrings GoNet Sha256.

Local Open Scope Z_scope.

Definition DefaultMemoryMiB : Z := 2048.
Definition DefaultCPUs : Z := 2.
Definition DefaultDiskGiB : Z := 20.
Definition MaxSubnetIndex : Z := 255.
Definition firstNodeHost : Z := 2.
Definition lastNodeHost : Z := 179.
Definition LegacyImageArchitecture : string := "arm64".

(** [type Role string] *)
Abbreviation Role := string (only parsing).
Definition RoleControlPlane : Role := "control-plane".
Definition RoleWorker : Role := "worker".

Record NodeDefaults := mkDefaults { MemoryMiB : Z; CPUs : Z; DiskGiB : Z }.

Record Node := mkNode { n_Name : string; n_Role : Role; n_MAC : string; n_IP : string }.

Definition CNICilium : string := "cilium".
Definition CNIFlannel : string := "flannel".
Definition CSILonghorn : string := "longhorn".
Definition CSILocalPath : string := "local-path".

Record ProvisioningIntent := mkIntent {
  CNI : string;
  CSI : string;
  LB : bool;
  BGP : bool;
  Hubble : bool;
  DisableKubeletMemoryProtection : bool
}.

Record ProvisioningIntentInput := mkInput {
  in_CNI : string;
  in_CSI : string;
  in_LB : option bool;
  in_BGP : option bool;
  in_Hubble : option bool;
  in_KubeletMemoryProtection : option bool
}.

Definition no_intent : ProvisioningIntent := mkIntent "" "" false false false false.

Record Cluster := mkCluster {
  c_Name : string;
  c_Index : Z;
  c_SubnetIndex : Z;
  c_ControlPlanes : Z;
  c_Workers : Z;
  c_NodeDefaults : NodeDefaults;
  c_ControlPlaneDefaults : option NodeDefaults;
  c_WorkerDefaults : option NodeDefaults;
  c_Intent : ProvisioningIntent;
  c_Nodes : list Node;
  c_Schematic : string;
  c_TalosVersion : string;
  c_TalosExtensions : option (list string);
  c_BaseSchematic : string;
  c_ImageArchitecture : string;
  c_Hypervisor : string;
  c_Domain : string;
  c_AllowUnsafeDomain : bool;
  c_ConfigOrigin : string
}.

Definition with_nodes (nodes : list Node) (c : Cluster) : Cluster :=
  mkCluster (c_Name c) (c_Index c) (c_SubnetIndex c) (c_ControlPlanes c) (c_Workers c) (c_NodeDefaults c)
    (c_ControlPlaneDefaults c) (c_WorkerDefaults c) (c_Intent c) nodes (c_Schematic c) (c_TalosVersion c)
    (c_TalosExtensions c) (c_BaseSchematic c) (c_ImageArchitecture c) (c_Hypervisor c) (c_Domain c)
    (c_AllowUnsafeDomain c) (c_ConfigOrigin c).
Definition with_counts (cps workers : Z) (c : Cluster) : Cluster :=
  mkCluster (c_Name c) (c_Index c) (c_SubnetIndex c) cps workers (c_NodeDefaults c)
    (c_ControlPlaneDefaults c) (c_WorkerDefaults c) (c_Intent c) (c_Nodes c) (c_Schematic c) (c_TalosVersion c)
    (c_TalosExtensions c) (c_BaseSchematic c) (c_ImageArchitecture c) (c_Hypervisor c) (c_Domain c)
    (c_AllowUnsafeDomain c) (c_ConfigOrigin c).
Definition with_migration (subnetIndex : Z) (intent : ProvisioningIntent) (arch : string) (c : Cluster) : Cluster :=
  mkCluster (c_Name c) (c_Index c) subnetIndex (c_ControlPlanes c) (c_Workers c) (c_NodeDefaults c)
    (c_ControlPlaneDefaults c) (c_WorkerDefaults c) intent (c_Nodes c) (c_Schematic c) (c_TalosVersion c)
    (c_TalosExtensions c) (c_BaseSchematic c) arch (c_Hypervisor c) (c_Domain c)
    (c_AllowUnsafeDomain c) (c_ConfigOrigin c).

(** One constructor per error site of the package. *)
Inductive cluster_error :=
| EmptyName
| InvalidName (name : string)
| SubnetIndexRange
| NegativeCounts
| TooManyNodes
| NegativeDefaults
| InvalidRole (role : Role)
| InvalidNodeName (name : string) (err : cluster_error)
| NodeExists (name : string)
| NodeNotFound (name : string)
| InvalidReservation (node ip : string)
| ReservationTwice (ip : string)
| NoFreeReservation (subnet : Z)
| ClusterSubnetIndex (name : string) (index : Z)
| BadMAC (value : string)
| InvalidNodeMAC (cluster node : string) (err : cluster_error)
| InvalidNodeReservation (cluster node ip : string)
| MACTwice (mac : string) (previous : IP) (cluster node : string)
| IPTwice (ip previous cluster node : string)
| IntentError (which : string)
| LoadReservations (err : cluster_error).

(** ** Names *)

(** [filepath.Base] on a slash-separated path. *)
Fixpoint strip_trailing_slashes (rev : string) : string :=
  match rev with
  | String c r => if decide (c = "/"%char) then strip_trailing_slashes r else rev
  | EmptyString => EmptyString
  end.

Fixpoint take_until_slash (s : string) : string :=
  match s with
  | String c r => if decide (c = "/"%char) then EmptyString else String c (take_until_slash r)
  | EmptyString => EmptyString
  end.

Definition filepath_base (path : string) : string :=
  match path with
  | EmptyString => "."
  | _ => let r := strip_trailing_slashes (String.rev path) in
         match r with
         | EmptyString => "/"
         | _ => String.rev (take_until_slash r)
         end
  end.

Definition validName (name : string) : result cluster_error unit :=
  if String.eqb name "" then Err EmptyName
  else if negb (String.eqb (filepath_base name) name) || String.eqb name "." || String.eqb name ".."
  then Err (InvalidName name)
  else Ok tt.

(** ** Addresses *)

Definition Gateway (index : Z) : string := "172.30." +:+ itoa index +:+ ".1".
Definition SubnetCIDR (index : Z) : string := "172.30." +:+ itoa index +:+ ".0/24".
Definition reservationIP (subnetIndex host : Z) : string :=
  "172.30." +:+ itoa subnetIndex +:+ "." +:+ itoa host.

Definition validReservationIP (ip : IP) (subnetIndex : Z) : bool :=
  (0 <=? subnetIndex) && (subnetIndex <=? MaxSubnetIndex) &&
  match ip with
  | [a; b; c; d] => (a =? 172) && (b =? 30) && (c =? subnetIndex) && (firstNodeHost <=? d) && (d <=? lastNodeHost)
  | _ => false
  end.

Definition DeterministicMAC (clusterName nodeName : string) : string :=
  let digest := sha256 (bytes_of_string (clusterName +:+ "/" +:+ nodeName)) in
  mac_string (0x52 :: 0x54 :: 0x00 :: take 3 digest).

Definition canonicalMAC (value : string) : result cluster_error HardwareAddr :=
  match parse_mac (trim_space value) with
  | None => Err (BadMAC value)
  | Some mac => if decide (length mac = 6%nat) then Ok mac else Err (BadMAC value)
  end.

(** The loop over the hosts of [lowestFreeReservation]: [n] candidates from [host]. *)
Fixpoint free_host (n : nat) (host subnetIndex : Z) (used : gset string) : option string :=
  match n with
  | O => None
  | S n' => let candidate := reservationIP subnetIndex host in
            if decide (candidate ∈ used) then free_host n' (host + 1) subnetIndex used else Some candidate
  end.

Definition lowestFreeReservation (subnetIndex : Z) (used : gset string) : result cluster_error string :=
  match free_host (Z.to_nat (lastNodeHost - firstNodeHost + 1)) firstNodeHost subnetIndex used with
  | Some ip => Ok ip
  | None => Err (NoFreeReservation subnetIndex)
  end.

(** The first loop of [ensureNodeReservations]: the canonical addresses in use. *)
Fixpoint used_reservations (subnetIndex : Z) (used : gset string) (nodes : list Node) : result cluster_error (gset string) :=
  match nodes with
  | [] => Ok used
  | node :: rest =>
      if String.eqb (n_IP node) "" then used_reservations subnetIndex used rest
      else
        let ip := parse_ip4 (n_IP node) in
        if bool_decide (ip = []) || negb (validReservationIP ip subnetIndex)
        then Err (InvalidReservation (n_Name node) (n_IP node))
        else
          let key := ip_string ip in
          if decide (key ∈ used) then Err (ReservationTwice key)
          else used_reservations subnetIndex (used ∪ {[key]}) rest
  end.

Definition with_ip (ip : string) (n : Node) : Node := mkNode (n_Name n) (n_Role n) (n_MAC n) ip.

(** The second loop, over the shared slice: the nodes as left behind, and the outcome. *)
Fixpoint assign_reservations (subnetIndex : Z) (used : gset string) (migrated : bool) (nodes : list Node)
  : list Node * result cluster_error bool :=
  match nodes with
  | [] => ([], Ok migrated)
  | node :: rest =>
      if negb (String.eqb (n_IP node) "") then
        let '(rest', r) := assign_reservations subnetIndex used migrated rest in (node :: rest', r)
      else match lowestFreeReservation subnetIndex used with
           | Err e => (node :: rest, Err e)
           | Ok ip => let '(rest', r) := assign_reservations subnetIndex (used ∪ {[ip]}) true rest in
                      (with_ip ip node :: rest', r)
           end
  end.

Definition ensureNodeReservations (subnetIndex : Z) (nodes : list Node) : list Node * result cluster_error bool :=
  match used_reservations subnetIndex ∅ nodes with
  | Err e => (nodes, Err e)
  | Ok used => assign_reservations subnetIndex used false nodes
  end.

(** [nextReservationIP] also fills the missing addresses of the shared nodes. *)
Definition nextReservationIP (subnetIndex : Z) (nodes : list Node) : list Node * result cluster_error string :=
  let '(nodes', r) := ensureNodeReservations subnetIndex nodes in
  match r with
  | Err e => (nodes', Err e)
  | Ok _ => (nodes', lowestFreeReservation subnetIndex (list_to_set (n_IP <$> nodes')))
  end.

(** ** Clusters and nodes *)

Definition EffectiveDomain (c : Cluster) : string :=
  if String.eqb (c_Domain c) "" then c_Name c +:+ "." +:+ "k8s.test" else c_Domain c.

Definition DomainInUse (domain : string) (clusters : list Cluster) : bool :=
  existsb (fun item => String.eqb (EffectiveDomain item) domain) clusters.

Definition DefaultsFor (c : Cluster) (role : Role) : NodeDefaults :=
  let otherwise :=
    match c_WorkerDefaults c with
    | Some d => if String.eqb role RoleWorker then d else c_NodeDefaults c
    | None => c_NodeDefaults c
    end in
  match c_ControlPlaneDefaults c with
  | Some d => if String.eqb role RoleControlPlane then d else otherwise
  | None => otherwise
  end.

Definition newNode (clusterName nodeName : string) (role : Role) (ip : string) : Node :=
  mkNode nodeName role (DeterministicMAC clusterName nodeName) ip.

Definition applyDefaults (d : NodeDefaults) : NodeDefaults :=
  mkDefaults (if MemoryMiB d =? 0 then DefaultMemoryMiB else MemoryMiB d)
    (if CPUs d =? 0 then DefaultCPUs else CPUs d)
    (if DiskGiB d =? 0 then DefaultDiskGiB else DiskGiB d).

(** [for i := 1; i <= n; i++ { c.Nodes = append(...) }] *)
Fixpoint append_nodes (n : nat) (i : Z) (name label : string) (role : Role) (subnetIndex : Z) (nodes : list Node) : list Node :=
  match n with
  | O => nodes
  | S n' => append_nodes n' (i + 1) name label role subnetIndex
      (nodes ++ [newNode name (name +:+ "-" +:+ label +:+ "-" +:+ itoa i) role
                   (reservationIP subnetIndex (firstNodeHost + Z.of_nat (length nodes)))])
  end.

Definition New (name : string) (subnetIndex controlPlanes workers : Z) (defaults : NodeDefaults)
  : result cluster_error Cluster :=
  match validName name with
  | Err e => Err e
  | Ok _ =>
      if (subnetIndex <? 0) || (MaxSubnetIndex <? subnetIndex) then Err SubnetIndexRange
      else if (controlPlanes <? 0) || (workers <? 0) then Err NegativeCounts
      else if lastNodeHost - firstNodeHost + 1 <? wrap64 (controlPlanes + workers) then Err TooManyNodes
      else if (MemoryMiB defaults <? 0) || (CPUs defaults <? 0) || (DiskGiB defaults <? 0) then Err NegativeDefaults
      else
        let nodes := append_nodes (Z.to_nat controlPlanes) 1 name "cp" RoleControlPlane subnetIndex [] in
        let nodes := append_nodes (Z.to_nat workers) 1 name "worker" RoleWorker subnetIndex nodes in
        Ok (mkCluster name subnetIndex subnetIndex controlPlanes workers (applyDefaults defaults) None None
              no_intent nodes "" "" None "" "" "" "" false "")
  end.

Definition node_name_prefix (c : Cluster) (role : Role) : string :=
  let label := if String.eqb role RoleControlPlane then "cp" else "worker" in
  c_Name c +:+ "-" +:+ label +:+ "-".

Definition nextNodeName (c : Cluster) (role : Role) : string :=
  let prefix := node_name_prefix c role in
  let maxIndex := foldl (fun maxIndex node =>
    if negb (has_prefix (n_Name node) prefix) then maxIndex
    else match atoi (trim_prefix (n_Name node) prefix) with
         | Some index => if maxIndex <? index then index else maxIndex
         | None => maxIndex
         end) 0 (c_Nodes c) in
  prefix +:+ itoa (wrap64 (maxIndex + 1)).

(** [AddNode]: the cluster as the caller sees it afterwards, and the outcome. *)
Definition AddNode (c : Cluster) (role : Role) (name : string) : Cluster * result cluster_error Node :=
  if negb (String.eqb role RoleControlPlane) && negb (String.eqb role RoleWorker) then (c, Err (InvalidRole role))
  else
    let name := if String.eqb name "" then nextNodeName c role else name in
    match validName name with
    | Err e => (c, Err (InvalidNodeName name e))
    | Ok _ =>
        if existsb (fun node => String.eqb (n_Name node) name) (c_Nodes c) then (c, Err (NodeExists name))
        else
          let '(nodes, r) := nextReservationIP (c_SubnetIndex c) (c_Nodes c) in
          match r with
          | Err e => (with_nodes nodes c, Err e)
          | Ok ip =>
              let node := newNode (c_Name c) name role ip in
              let c := with_nodes (nodes ++ [node]) c in
              ((if String.eqb role RoleControlPlane then with_counts (wrap64 (c_ControlPlanes c + 1)) (c_Workers c) c
                else with_counts (c_ControlPlanes c) (wrap64 (c_Workers c + 1)) c), Ok node)
          end
    end.

(** The first node of that name and the others. *)
Fixpoint take_node (name : string) (nodes : list Node) : option (Node * list Node) :=
  match nodes with
  | [] => None
  | node :: rest =>
      if String.eqb (n_Name node) name then Some (node, rest)
      else match take_node name rest with
           | Some (found, rest') => Some (found, node :: rest')
           | None => None
           end
  end.

Definition RemoveNode (c : Cluster) (name : string) : Cluster * result cluster_error Node :=
  match take_node name (c_Nodes c) with
  | None => (c, Err (NodeNotFound name))
  | Some (node, rest) =>
      let c := with_nodes rest c in
      ((if String.eqb (n_Role node) RoleControlPlane then with_counts (wrap64 (c_ControlPlanes c - 1)) (c_Workers c) c
        else with_counts (c_ControlPlanes c) (wrap64 (c_Workers c - 1)) c), Ok node)
  end.

(** ** Provisioning intent *)

Definition ParseProvisioningIntent (cni csi : string) (lb bgp hubble kubeletMemoryProtection : option bool)
  : result cluster_error ProvisioningIntent :=
  if String.eqb cni "" then
    if negb (String.eqb csi "") then Err (IntentError "csi requires cni")
    else match lb, bgp, hubble, kubeletMemoryProtection with
         | Some _, _, _, _ => Err (IntentError "lb requires cni")
         | None, Some _, _, _ => Err (IntentError "bgp requires cni and lb")
         | None, None, Some _, _ => Err (IntentError "hubble requires cni")
         | None, None, None, Some _ => Err (IntentError "kubeletMemoryProtection requires cni")
         | None, None, None, None => Ok no_intent
         end
  else if negb (String.eqb cni CNICilium) && negb (String.eqb cni CNIFlannel) then Err (IntentError "cni")
  else if negb (String.eqb csi "") && negb (String.eqb csi CSILonghorn) && negb (String.eqb csi CSILocalPath)
  then Err (IntentError "csi")
  else
    let intent := mkIntent cni csi (default true lb) (default false bgp) (default false hubble)
                    (match kubeletMemoryProtection with Some b => negb b | None => false end) in
    if BGP intent && negb (LB intent) then Err (IntentError "bgp requires lb")
    else if BGP intent && negb (String.eqb (CNI intent) CNICilium) then Err (IntentError "bgp requires cilium")
    else if Hubble intent && negb (String.eqb (CNI intent) CNICilium) then Err (IntentError "hubble requires cilium")
    else Ok intent.

(** [ProvisioningIntentInput.Intent] *)
Definition Intent (i : ProvisioningIntentInput) : result cluster_error ProvisioningIntent :=
  ParseProvisioningIntent (in_CNI i) (in_CSI i) (in_LB i) (in_BGP i) (in_Hubble i) (in_KubeletMemoryProtection i).

(** [ProvisioningIntent.Input] *)
Definition Input (intent : ProvisioningIntent) : ProvisioningIntentInput :=
  if String.eqb (CNI intent) "" then mkInput "" "" None None None None
  else mkInput (CNI intent) (CSI intent) (Some (LB intent)) (Some (BGP intent)) (Some (Hubble intent))
         (if DisableKubeletMemoryProtection intent then Some false else None).

(** ** The reservation table *)

Record Reservation := mkReservation { r_MAC : HardwareAddr; r_IP : IP; r_SubnetIndex : Z }.

Abbreviation ReservationTable := (gmap string Reservation) (only parsing).

(** One node of one cluster: both indexes, or the error. *)
Definition reserve_node (item : Cluster) (acc : gmap string Reservation * gmap string string) (node : Node)
  : result cluster_error (gmap string Reservation * gmap string string) :=
  let '(byMAC, byIP) := acc in
  match canonicalMAC (n_MAC node) with
  | Err e => Err (InvalidNodeMAC (c_Name item) (n_Name node) e)
  | Ok mac =>
      let ip := parse_ip4 (n_IP node) in
      if bool_decide (ip = []) || negb (validReservationIP ip (c_SubnetIndex item))
      then Err (InvalidNodeReservation (c_Name item) (n_Name node) (n_IP node))
      else
        let key := mac_string mac in
        match byMAC !! key with
        | Some previous => Err (MACTwice key (r_IP previous) (c_Name item) (n_Name node))
        | None =>
            let ipKey := ip_string ip in
            match byIP !! ipKey with
            | Some previous => Err (IPTwice ipKey previous (c_Name item) (n_Name node))
            | None => Ok (<[key := mkReservation mac ip (c_SubnetIndex item)]> byMAC,
                          <[ipKey := c_Name item +:+ "/" +:+ n_Name node]> byIP)
            end
        end
  end.

Fixpoint reserve_nodes (item : Cluster) (acc : gmap string Reservation * gmap string string) (nodes : list Node)
  : result cluster_error (gmap string Reservation * gmap string string) :=
  match nodes with
  | [] => Ok acc
  | node :: rest => match reserve_node item acc node with
                    | Ok acc' => reserve_nodes item acc' rest
                    | Err e => Err e
                    end
  end.

Fixpoint reserve_clusters (acc : gmap string Reservation * gmap string string) (clusters : list Cluster)
  : result cluster_error (gmap string Reservation * gmap string string) :=
  match clusters with
  | [] => Ok acc
  | item :: rest =>
      if (c_SubnetIndex item <? 0) || (MaxSubnetIndex <? c_SubnetIndex item)
      then Err (ClusterSubnetIndex (c_Name item) (c_SubnetIndex item))
      else match reserve_nodes item acc (c_Nodes item) with
           | Ok acc' => reserve_clusters acc' rest
           | Err e => Err e
           end
  end.

Definition NewReservationTable (clusters : list Cluster) : result cluster_error ReservationTable :=
  match reserve_clusters (∅, ∅) clusters with Ok (byMAC, _) => Ok byMAC | Err e => Err e end.

Definition Lookup (t : ReservationTable) (mac : string) : option Reservation :=
  match canonicalMAC mac with
  | Err _ => None
  | Ok parsed => t !! mac_string parsed
  end.

Definition LookupIP (t : ReservationTable) (mac : string) : IP :=
  match Lookup t mac with Some r => r_IP r | None => [] end.

Definition lookupReservedIP (clusters : list Cluster) (mac : string) (subnetIndex : Z) : string :=
  match NewReservationTable clusters with
  | Err _ => ""
  | Ok table => match Lookup table mac with
                | None => ""
                | Some r => if r_SubnetIndex r =? subnetIndex then ip_string (r_IP r) else ""
                end
  end.

(** ** Loading persisted state

    [Load] after decoding: [has_*] say which keys the JSON object carries.  The
    boolean asks for the migrated state to be written back. *)
Definition load_migrate (has_subnetIndex has_bgp has_cni : bool) (c : Cluster) : Cluster * result cluster_error bool :=
  let arch := if String.eqb (c_ImageArchitecture c) "" then LegacyImageArchitecture else c_ImageArchitecture c in
  let subnet := if has_subnetIndex then c_SubnetIndex c else c_Index c in
  let legacy := has_bgp && negb has_cni && BGP (c_Intent c) in
  let intent := if legacy then mkIntent CNICilium "" true true false false else c_Intent c in
  let c := with_migration subnet intent arch c in
  let '(nodes, r) := ensureNodeReservations (c_SubnetIndex c) (c_Nodes c) in
  (with_nodes nodes c,
   match r with Ok migrated => Ok (legacy || migrated) | Err e => Err (LoadReservations e) end).

(** ** vmnet leases ([lease.go]) *)

(** [bufio.ScanLines] under the default token limit: a line of 64 KiB or more
    ends the scan. *)
Definition drop_cr (s : string) : string := trim_suffix s (String "013"%char EmptyString).

Fixpoint scan_lines (lines : list string) : list string :=
  match lines with
  | [] => []
  | [last] => if String.eqb last "" then [] else if Z.of_nat (String.length last) <? 65536 then [drop_cr last] else []
  | line :: rest => if Z.of_nat (String.length line) <? 65536 then drop_cr line :: scan_lines rest else []
  end.

Definition leaseMAC (mac : string) : option string :=
  match parse_mac mac with
  | Some hw => if decide (length hw = 6%nat) then Some (join ":" (hex1 <$> hw)) else None
  | None => None
  end.

Definition validLeaseIP (value : string) (subnetIndex : Z) : bool :=
  (0 <=? subnetIndex) && (subnetIndex <=? 255) &&
  match parse_ip4 value with
  | [a; b; c; d] => (a =? 172) && (b =? 30) && (c =? subnetIndex) && (2 <=? d) && (d <=? 179)
  | _ => false
  end.

Fixpoint lease_scan (want : string) (subnetIndex : Z) (ip : string) (lines : list string) : string :=
  match lines with
  | [] => ""
  | text :: rest =>
      let line := trim_space text in
      if String.eqb line "{" then lease_scan want subnetIndex "" rest
      else if has_prefix line "ip_address=" then lease_scan want subnetIndex (trim_prefix line "ip_address=") rest
      else if has_prefix line "hw_address=1," then
        let got := to_lower (trim_prefix line "hw_address=1,") in
        if negb (String.eqb ip "") && String.eqb got want && validLeaseIP ip subnetIndex then ip
        else lease_scan want subnetIndex ip rest
      else lease_scan want subnetIndex ip rest
  end.

Definition parseLeaseIP (data mac : string) (subnetIndex : Z) : string :=
  match leaseMAC mac with
  | None => ""
  | Some want => lease_scan want subnetIndex "" (scan_lines (split_on "010"%char data))
  end.

(** ** Lemmas on reservations *)

Lemma string_app_inj_l (p a b : string) : p +:+ a = p +:+ b -> a = b.
Proof. induction p as [|c p IH]; [done|]. cbn. intros H. apply IH. by injection H. Qed.

Lemma reservationIP_inj sub h h' : 0 <= h -> 0 <= h' -> reservationIP sub h = reservationIP sub h' -> h = h'.
Proof.
  unfold reservationIP. intros H0 H1 H. do 3 apply string_app_inj_l in H. by apply itoa_inj.
Qed.

Lemma ip_string_reservation sub h : ip_string [172; 30; sub; h] = reservationIP sub h.
Proof. reflexivity. Qed.

Lemma parse_reservation sub h : 0 <= sub <= 255 -> 0 <= h <= 255 -> parse_ip4 (reservationIP sub h) = [172; 30; sub; h].
Proof.
  intros Hs Hh. rewrite <- ip_string_reservation. apply parse_ip4_string; unfold is_byte; lia.
Qed.

Lemma reservation_nonempty sub h : reservationIP sub h <> "".
Proof. discriminate. Qed.

(** A node's address: none yet, or a canonical reservation of the subnet. *)
Definition ip_ok (sub : Z) (ip : string) : Prop :=
  ip = "" \/ exists h, firstNodeHost <= h <= lastNodeHost /\ ip = reservationIP sub h.

Definition assigned (nodes : list Node) : list string := filter (fun ip => ip <> "") (n_IP <$> nodes).

Definition ips_ok (sub : Z) (nodes : list Node) : Prop :=
  Forall (fun n => ip_ok sub (n_IP n)) nodes /\ NoDup (assigned nodes).

Lemma assigned_cons n nodes :
  assigned (n :: nodes) = if decide (n_IP n <> "") then n_IP n :: assigned nodes else assigned nodes.
Proof. unfold assigned. rewrite fmap_cons. by rewrite filter_cons. Qed.

Lemma used_reservations_ok sub used nodes :
  0 <= sub <= 255 -> ips_ok sub nodes -> (forall ip, ip ∈ assigned nodes -> ip ∉ used) ->
  used_reservations sub used nodes = Ok (used ∪ list_to_set (assigned nodes)).
Proof.
  intros Hs [Hf Hnd] Hd. revert used Hd. induction nodes as [|n nodes IH]; intros used Hd.
  { simpl. f_equal. set_solver. }
  apply Forall_cons in Hf as [Hip Hf]. rewrite assigned_cons in Hnd, Hd. rewrite assigned_cons. cbn [used_reservations].
  destruct (decide (n_IP n <> "")) as [Hne|He].
  - destruct (String.eqb_spec (n_IP n) ""); [done|]. destruct Hip as [?|(h & Hh & Eh)]; [done|].
    unfold firstNodeHost, lastNodeHost in Hh. cbv zeta.
    rewrite Eh, parse_reservation by lia. rewrite bool_decide_eq_false_2 by done. cbn [orb].
    assert (validReservationIP [172; 30; sub; h] sub = true) as ->.
    { unfold validReservationIP, MaxSubnetIndex, firstNodeHost, lastNodeHost. lia. }
    cbn [negb]. rewrite ip_string_reservation, <- Eh.
    apply NoDup_cons in Hnd as [Hni Hnd].
    rewrite decide_False by (apply Hd; left). rewrite IH; [f_equal; set_solver|done|done|].
    intros ip Hin. assert (ip <> n_IP n) by congruence. specialize (Hd ip ltac:(by right)). set_solver.
  - apply dec_stable in He. rewrite (proj2 (String.eqb_eq _ _) He). by apply IH.
Qed.

Lemma free_host_spec n host sub used :
  match free_host n host sub used with
  | Some ip => exists h, host <= h < host + Z.of_nat n /\ ip = reservationIP sub h /\ (ip ∉ used) /\
                 forall h', host <= h' < h -> reservationIP sub h' ∈ used
  | None => forall h, host <= h < host + Z.of_nat n -> reservationIP sub h ∈ used
  end.
Proof.
  revert host. induction n as [|n IH]; intros host; [simpl; lia|]. cbn [free_host]. cbv zeta. case_decide as Hin.
  - specialize (IH (host + 1)). destruct (free_host n (host + 1) sub used).
    + destruct IH as (h & Hh & -> & Hu & Hl). exists h. repeat split; try lia; try done.
      intros h' Hh'. destruct (decide (h' = host)) as [->|]; [done|]. apply Hl. lia.
    + intros h Hh. destruct (decide (h = host)) as [->|]; [done|]. apply IH. lia.
  - exists host. repeat split; try lia; try done.
Qed.

(** The lowest host address of the subnet that is not in [used]. *)
Definition lowest_free (sub : Z) (used : gset string) (ip : string) : Prop :=
  exists h, firstNodeHost <= h <= lastNodeHost /\ ip = reservationIP sub h /\ (ip ∉ used) /\
    forall h', firstNodeHost <= h' < h -> reservationIP sub h' ∈ used.

Lemma lowestFreeReservation_spec sub used :
  match lowestFreeReservation sub used with
  | Ok ip => lowest_free sub used ip
  | Err e => e = NoFreeReservation sub /\ forall h, firstNodeHost <= h <= lastNodeHost -> reservationIP sub h ∈ used
  end.
Proof.
  unfold lowestFreeReservation. pose proof (free_host_spec (Z.to_nat (lastNodeHost - firstNodeHost + 1)) firstNodeHost sub used) as H.
  destruct (free_host _ _ _ _) as [ip|].
  - destruct H as (h & Hh & -> & Hu & Hl). exists h. unfold lastNodeHost, firstNodeHost in *. repeat split; try lia; try done.
  - split; [done|]. intros h Hh. apply H. unfold lastNodeHost, firstNodeHost in *. lia.
Qed.

(** What the second loop does to the shared nodes. *)
Definition filled (before after : list Node) : Prop :=
  Forall2 (fun n n' => n_Name n' = n_Name n /\ n_Role n' = n_Role n /\ n_MAC n' = n_MAC n /\
    (n_IP n <> "" -> n_IP n' = n_IP n)) before after.

Lemma filled_refl nodes : filled nodes nodes.
Proof. apply Forall2_same_length_lookup_2; [done|]. intros i x y Hx Hy. simplify_eq. done. Qed.

Lemma assign_ok sub used migrated nodes :
  ips_ok sub nodes -> (forall ip, ip ∈ assigned nodes -> ip ∈ used) ->
  let '(nodes', r) := assign_reservations sub used migrated nodes in
  filled nodes nodes' /\ ips_ok sub nodes' /\
  (forall ip, ip ∈ assigned nodes' -> ip ∈ assigned nodes \/ ip ∉ used) /\
  (forall m, r = Ok m -> Forall (fun n => n_IP n <> "") nodes').
Proof.
  revert used migrated. induction nodes as [|n nodes IH]; intros used migrated [Hf Hnd] Hu.
  { simpl. split; [constructor|]. split; [split; constructor|]. split; [set_solver|]. constructor. }
  apply Forall_cons in Hf as [Hip Hf]. rewrite assigned_cons in Hnd, Hu. cbn [assign_reservations].
  destruct (decide (n_IP n <> "")) as [Hne|He].
  - rewrite (proj2 (String.eqb_neq _ _) Hne). cbn [negb]. apply NoDup_cons in Hnd as [Hni Hnd].
    specialize (IH used migrated (conj Hf Hnd) ltac:(set_solver)).
    destruct (assign_reservations sub used migrated nodes) as [nodes' r]. destruct IH as (H1 & [H2 H2'] & H3 & H4).
    split; [constructor; [done|done]|]. split; [split|].
    + constructor; done.
    + rewrite assigned_cons, decide_True by done. constructor; [|done]. intros Hin.
      destruct (H3 _ Hin); [done|]. specialize (Hu (n_IP n) ltac:(left)). done.
    + split; [|intros m Hm; constructor; eauto]. intros ip. rewrite !assigned_cons, !decide_True by done.
      intros [->|Hin]%elem_of_cons; [left; left|]. destruct (H3 _ Hin); [left; by right|by right].
  - apply dec_stable in He. rewrite (proj2 (String.eqb_eq _ _) He). cbn [negb].
    pose proof (lowestFreeReservation_spec sub used) as Hl. destruct (lowestFreeReservation sub used) as [ip|e].
    + destruct Hl as (h & Hh & Eip & Hnu & _).
      assert (ip <> "") as Hipne by (subst; apply reservation_nonempty).
      specialize (IH (used ∪ {[ip]}) true (conj Hf Hnd) ltac:(set_solver)).
      destruct (assign_reservations sub (used ∪ {[ip]}) true nodes) as [nodes' r]. destruct IH as (H1 & [H2 H2'] & H3 & H4).
      split; [constructor; [|done]; simpl; repeat split; congruence|]. split; [split|].
      * constructor; [|done]. simpl. right. eauto.
      * rewrite assigned_cons. simpl. rewrite decide_True by done. constructor; [|done].
        intros Hin. destruct (H3 _ Hin); [|set_solver]. apply Hnu, Hu. done.
      * split; [|intros m Hm; constructor; eauto]. intros ip'. rewrite !assigned_cons. simpl.
        rewrite decide_True, (decide_False (P := n_IP n <> "")) by (done || congruence).
        intros [->|Hin]%elem_of_cons; [by right|]. destruct (H3 _ Hin); [by left|right; set_solver].
    + split; [apply filled_refl|]. split; [split|split].
      * constructor; [by left|done].
      * by rewrite assigned_cons, decide_False by congruence.
      * auto.
      * done.
Qed.

Lemma ensure_ok sub nodes :
  0 <= sub <= 255 -> ips_ok sub nodes ->
  let '(nodes', r) := ensureNodeReservations sub nodes in
  filled nodes nodes' /\ ips_ok sub nodes' /\ (forall m, r = Ok m -> Forall (fun n => n_IP n <> "") nodes').
Proof.
  intros Hs Hok. unfold ensureNodeReservations. rewrite used_reservations_ok by (done || set_solver).
  pose proof (assign_ok sub (∅ ∪ list_to_set (assigned nodes)) false nodes Hok ltac:(set_solver)) as H.
  destruct (assign_reservations _ _ _ _) as [nodes' r]. destruct H as (? & ? & _ & ?). auto.
Qed.

(** ** The cluster invariant *)

Definition cp_count (nodes : list Node) : Z :=
  Z.of_nat (length (filter (fun n => n_Role n = RoleControlPlane) nodes)).

Record cluster_ok (c : Cluster) : Prop := {
  ok_subnet : 0 <= c_SubnetIndex c <= 255;
  ok_names : NoDup (n_Name <$> c_Nodes c);
  ok_ips : ips_ok (c_SubnetIndex c) (c_Nodes c);
  ok_roles : Forall (fun n => n_Role n = RoleControlPlane \/ n_Role n = RoleWorker) (c_Nodes c);
  ok_cps : c_ControlPlanes c = cp_count (c_Nodes c);
  ok_workers : c_Workers c = Z.of_nat (length (c_Nodes c)) - cp_count (c_Nodes c)
}.

Lemma filled_names before after : filled before after -> n_Name <$> after = n_Name <$> before.
Proof. induction 1 as [|n n' l l' (? & _) _ IH]; [done|]. rewrite !fmap_cons. congruence. Qed.

Lemma filled_roles before after : filled before after -> n_Role <$> after = n_Role <$> before.
Proof. induction 1 as [|n n' l l' (_ & ? & _) _ IH]; [done|]. rewrite !fmap_cons. congruence. Qed.

Lemma cp_count_roles a b : n_Role <$> a = n_Role <$> b -> cp_count a = cp_count b.
Proof.
  unfold cp_count. revert b. induction a as [|x a IH]; intros [|y b] H; try done.
  rewrite !fmap_cons in H. injection H as Hr H. specialize (IH b H). rewrite !filter_cons, Hr.
  case_decide; simpl; lia.
Qed.

Lemma cluster_ok_filled c nodes : cluster_ok c -> filled (c_Nodes c) nodes -> ips_ok (c_SubnetIndex c) nodes ->
  cluster_ok (with_nodes nodes c).
Proof.
  intros [H1 H2 H3 H4 H5 H6] Hf Hi. split; simpl.
  - done.
  - by rewrite (filled_names _ _ Hf).
  - done.
  - apply Forall_forall. intros n Hn. pose proof (filled_roles _ _ Hf) as Hr.
    assert (n_Role n ∈ n_Role <$> c_Nodes c) as Hin by (rewrite <- Hr; by apply list_elem_of_fmap_2).
    apply list_elem_of_fmap in Hin as (m & Em & Hm). rewrite Em. rewrite Forall_forall in H4. auto.
  - rewrite H5. symmetry. apply cp_count_roles, filled_roles, Hf.
  - rewrite H6, (Forall2_length _ _ _ Hf). f_equal. symmetry. apply cp_count_roles, filled_roles, Hf.
Qed.

Lemma assigned_all nodes : Forall (fun n => n_IP n <> "") nodes -> assigned nodes = n_IP <$> nodes.
Proof.
  induction 1 as [|n nodes Hn _ IH]; [done|]. rewrite assigned_cons, decide_True by done. by rewrite IH, fmap_cons.
Qed.

(** Every host address of a subnet. *)
Definition all_hosts (sub : Z) : list string := reservationIP sub <$> seqZ firstNodeHost 178.

(** A cluster whose nodes all have addresses has at most 178 of them. *)
Lemma ips_bound sub nodes : ips_ok sub nodes -> Forall (fun n => n_IP n <> "") nodes -> (length nodes <= 178)%nat.
Proof.
  intros [Hf Hnd] Hne. rewrite (assigned_all _ Hne) in Hnd.
  assert (n_IP <$> nodes ⊆+ all_hosts sub) as Hsub.
  { apply NoDup_submseteq; [done|]. intros ip (n & -> & Hn)%list_elem_of_fmap.
    rewrite Forall_forall in Hf, Hne. destruct (Hf n Hn) as [E|(h & Hh & ->)]; [by destruct (Hne n Hn)|].
    apply list_elem_of_fmap. exists h. split; [done|]. apply elem_of_seqZ.
    unfold firstNodeHost, lastNodeHost in *. lia. }
  apply submseteq_length in Hsub. rewrite length_fmap in Hsub. unfold all_hosts in Hsub.
  rewrite length_fmap, length_seqZ in Hsub. lia.
Qed.

Lemma cp_count_bound nodes : 0 <= cp_count nodes <= Z.of_nat (length nodes).
Proof. unfold cp_count. pose proof (length_filter (fun n => n_Role n = RoleControlPlane) nodes). lia. Qed.

Lemma cp_count_app a b : cp_count (a ++ b) = cp_count a + cp_count b.
Proof. unfold cp_count. rewrite filter_app, length_app. lia. Qed.

Lemma cp_count_one n : cp_count [n] = if String.eqb (n_Role n) RoleControlPlane then 1 else 0.
Proof.
  unfold cp_count. rewrite filter_cons, filter_nil.
  destruct (String.eqb_spec (n_Role n) RoleControlPlane); case_decide; done.
Qed.

(** Appending a node with a fresh name and a free address. *)
Lemma cluster_ok_append c nodes node c' :
  cluster_ok (with_nodes nodes c) -> Forall (fun n => n_IP n <> "") nodes ->
  lowest_free (c_SubnetIndex c) (list_to_set (n_IP <$> nodes)) (n_IP node) -> n_Name node ∉ n_Name <$> nodes ->
  (n_Role node = RoleControlPlane \/ n_Role node = RoleWorker) ->
  c' = (if String.eqb (n_Role node) RoleControlPlane
        then with_counts (wrap64 (c_ControlPlanes c + 1)) (c_Workers c) (with_nodes (nodes ++ [node]) c)
        else with_counts (c_ControlPlanes c) (wrap64 (c_Workers c + 1)) (with_nodes (nodes ++ [node]) c)) ->
  cluster_ok c'.
Proof.
  intros [H1 H2 [H3 H3'] H4 H5 H6] Hne (h & Hh & Eip & Hfree & _) Hname Hrole ->.
  simpl in *. pose proof (ips_bound _ _ (conj H3 H3') Hne). pose proof (cp_count_bound nodes).
  pose proof (cp_count_one node) as Hone.
  assert (ips_ok (c_SubnetIndex c) (nodes ++ [node])) as Hips.
  { split; [apply Forall_app; split; [done|]; apply Forall_singleton; right; eauto|].
    rewrite assigned_all.
    - rewrite fmap_app. apply NoDup_app. rewrite assigned_all in H3' by done. split; [done|].
      split; [|apply NoDup_singleton]. intros ip Hip ->%list_elem_of_singleton. apply Hfree. set_solver.
    - apply Forall_app. split; [done|]. apply Forall_singleton. rewrite Eip. apply reservation_nonempty. }
  assert (NoDup (n_Name <$> nodes ++ [node])) as Hnames.
  { rewrite fmap_app. apply NoDup_app. split; [done|]. split; [|apply NoDup_singleton].
    intros x Hx ->%list_elem_of_singleton. done. }
  assert (Forall (fun n => n_Role n = RoleControlPlane \/ n_Role n = RoleWorker) (nodes ++ [node])) as Hroles
    by (apply Forall_app; auto).
  destruct (String.eqb (n_Role node) RoleControlPlane); split; simpl; try done;
    rewrite ?length_app, ?cp_count_app, ?Hone; simpl; rewrite ?wrap64_id by int64_lia; lia.
Qed.

(** Adding a node keeps the cluster well formed (distinct names, distinct
    addresses inside the subnet, role counts) on success and on every error; on
    success the node gets the lowest free host address, the nodes persisted
    without an address get one too, and no existing address changes. *)
Theorem AddNode_allocates c role name c' r :
  cluster_ok c -> AddNode c role name = (c', r) ->
  cluster_ok c' /\
  match r with
  | Ok node => exists nodes, filled (c_Nodes c) nodes /\ c_Nodes c' = nodes ++ [node] /\
      Forall (fun n => n_IP n <> "") nodes /\
      lowest_free (c_SubnetIndex c) (list_to_set (n_IP <$> nodes)) (n_IP node) /\
      n_Role node = role /\ (name <> "" -> n_Name node = name)
  | Err _ => filled (c_Nodes c) (c_Nodes c')
  end.
Proof.
  intros Hok. unfold AddNode. destruct (negb _ && negb _) eqn:Erole.
  { intros [= <- <-]. split; [done|]. apply filled_refl. }
  cbv zeta. set (nm := if String.eqb name "" then _ else name).
  destruct (validName nm); [|intros [= <- <-]; split; [done|apply filled_refl]].
  destruct (existsb _ (c_Nodes c)) eqn:Ex; [intros [= <- <-]; split; [done|apply filled_refl]|].
  unfold nextReservationIP. pose proof (ensure_ok (c_SubnetIndex c) (c_Nodes c) (ok_subnet c Hok) (ok_ips c Hok)) as He.
  destruct (ensureNodeReservations _ _) as [nodes r0]. destruct He as (Hf & Hi & Hall).
  pose proof (cluster_ok_filled c nodes Hok Hf Hi) as Hok'.
  destruct r0 as [m|e]; [|intros [= <- <-]; done]. specialize (Hall m eq_refl).
  pose proof (lowestFreeReservation_spec (c_SubnetIndex c) (list_to_set (n_IP <$> nodes))) as Hl.
  destruct (lowestFreeReservation _ _) as [ip|e]; [|intros [= <- <-]; done].
  intros [= <- <-]. split.
  - eapply (cluster_ok_append c nodes (newNode (c_Name c) nm role ip)); try done.
    + simpl. rewrite (filled_names _ _ Hf). intros (n & En & Hn)%list_elem_of_fmap.
      assert (existsb (fun node => String.eqb (n_Name node) nm) (c_Nodes c) = true) as Hc; [|congruence].
      apply existsb_exists. exists n. split; [by apply list_elem_of_In|]. by apply String.eqb_eq.
    + simpl. apply andb_false_iff in Erole as [E|E]; apply negb_false_iff, String.eqb_eq in E; auto.
  - exists nodes. split; [done|]. split; [by case_head|]. split; [done|]. split; [done|]. split; [done|].
    intros Hn. subst nm. simpl. by rewrite (proj2 (String.eqb_neq _ _) Hn).
Qed.

(** ** Removing a node *)

Lemma take_node_spec name nodes :
  match take_node name nodes with
  | Some (node, rest) => exists before after, nodes = before ++ node :: after /\ rest = before ++ after /\
      n_Name node = name /\ name ∉ n_Name <$> before
  | None => name ∉ n_Name <$> nodes
  end.
Proof.
  induction nodes as [|n nodes IH]; [set_solver|]. cbn [take_node].
  destruct (String.eqb_spec (n_Name n) name) as [E|E].
  - exists [], nodes. set_solver.
  - destruct (take_node name nodes) as [[node rest]|].
    + destruct IH as (b & a & -> & -> & Hn & Hb). exists (n :: b), a. set_solver.
    + set_solver.
Qed.

Lemma assigned_app a b : assigned (a ++ b) = assigned a ++ assigned b.
Proof. unfold assigned. by rewrite fmap_app, filter_app. Qed.

Lemma cp_count_perm a b : a ≡ₚ b -> cp_count a = cp_count b.
Proof. intros H. unfold cp_count. by rewrite H. Qed.

(** Removing a node deletes exactly the node of that name, keeps the order
    and everything else of the others, and keeps the cluster well formed; an
    unknown name leaves the cluster as it was. *)
Theorem RemoveNode_removes c name c' r :
  cluster_ok c -> Z.of_nat (length (c_Nodes c)) < 2 ^ 62 -> RemoveNode c name = (c', r) ->
  cluster_ok c' /\
  match r with
  | Ok node => exists before after, c_Nodes c = before ++ node :: after /\ c_Nodes c' = before ++ after /\ n_Name node = name
  | Err e => e = NodeNotFound name /\ c' = c /\ name ∉ n_Name <$> c_Nodes c
  end.
Proof.
  intros Hok Hlen. unfold RemoveNode. pose proof (take_node_spec name (c_Nodes c)) as Ht.
  destruct (take_node name (c_Nodes c)) as [[node rest]|]; [|intros [= <- <-]; done].
  destruct Ht as (b & a & Hn & -> & Hname & _). intros [= <- <-].
  split; [|exists b, a; repeat split; try done; by case_head].
  destruct Hok as [H1 H2 [H3 H3'] H4 H5 H6].
  assert (c_Nodes c ≡ₚ node :: b ++ a) as Hp by (rewrite Hn; by rewrite Permutation_middle).
  pose proof (cp_count_bound (b ++ a)) as Hb. pose proof (cp_count_perm _ _ Hp) as Hc.
  change (node :: b ++ a) with ([node] ++ b ++ a) in Hc. rewrite cp_count_app, cp_count_one in Hc.
  rewrite (Permutation_length Hp) in H6, Hlen. simpl in H6, Hlen.
  assert (NoDup (n_Name <$> b ++ a)) as Hnames by (rewrite Hp in H2; by apply NoDup_cons in H2 as [_ ?]).
  assert (Forall (fun n => n_Role n = RoleControlPlane \/ n_Role n = RoleWorker) (b ++ a)) as Hroles
    by (rewrite Hp in H4; by apply Forall_cons in H4 as [_ ?]).
  assert (ips_ok (c_SubnetIndex c) (b ++ a)) as Hips.
  { split; [rewrite Hp in H3; by apply Forall_cons in H3 as [_ ?]|].
    rewrite Hn in H3'. rewrite assigned_app, assigned_cons in H3'. rewrite assigned_app. case_decide; [|done].
    rewrite <- Permutation_middle in H3'. by apply NoDup_cons in H3' as [_ ?]. }
  destruct (String.eqb (n_Role node) RoleControlPlane); split; simpl; try done;
    rewrite ?wrap64_id by int64_lia; lia.
Qed.

(** ** Building a cluster *)

Definition numbered (name label : string) (role : Role) (sub i : Z) (offset k : nat) : Node :=
  newNode name (name +:+ "-" +:+ label +:+ "-" +:+ itoa (i + Z.of_nat k)) role
    (reservationIP sub (firstNodeHost + Z.of_nat (offset + k))).

Lemma append_nodes_eq n i name label role sub nodes :
  append_nodes n i name label role sub nodes = nodes ++ (numbered name label role sub i (length nodes) <$> seq 0 n).
Proof.
  revert i nodes. induction n as [|n IH]; intros i nodes; [by rewrite app_nil_r|].
  cbn [append_nodes]. rewrite IH, <- app_assoc. f_equal. cbn [seq fmap list_fmap app]. unfold numbered at 2.
  rewrite Nat.add_0_r, Z.add_0_r. f_equal.
  rewrite length_app, <- (fmap_S_seq 0 n), <- list_fmap_compose. apply list_fmap_ext. intros _ k _.
  unfold numbered. simpl. do 2 f_equal; [|f_equal; lia]. do 4 f_equal. lia.
Qed.

Lemma numbered_names name label role sub i offset n :
  0 <= i -> NoDup (n_Name <$> (numbered name label role sub i offset <$> seq 0 n)).
Proof.
  intros Hi. rewrite <- list_fmap_compose. apply NoDup_fmap_2_strong; [|apply NoDup_seq].
  intros x y _ _ H. simpl in H. do 4 apply string_app_inj_l in H. apply itoa_inj in H. lia.
Qed.

Lemma numbered_ips name label role sub i offset n :
  n_IP <$> (numbered name label role sub i offset <$> seq 0 n) =
  (fun k => reservationIP sub (firstNodeHost + Z.of_nat k)) <$> seq offset n.
Proof.
  rewrite <- list_fmap_compose. revert offset. induction n as [|n IH]; intros offset; [done|].
  cbn [seq fmap list_fmap]. f_equal; [simpl; by rewrite Nat.add_0_r|].
  rewrite <- (fmap_S_seq 0 n), <- list_fmap_compose. unfold fmap in IH. rewrite <- IH.
  apply list_fmap_ext. intros _ k _. simpl. do 3 f_equal. lia.
Qed.

(** The nodes [New] builds. *)
Definition new_nodes (name : string) (sub cps workers : Z) : list Node :=
  (numbered name "cp" RoleControlPlane sub 1 0 <$> seq 0 (Z.to_nat cps)) ++
  (numbered name "worker" RoleWorker sub 1 (Z.to_nat cps) <$> seq 0 (Z.to_nat workers)).

Lemma new_nodes_ips name sub cps workers :
  n_IP <$> new_nodes name sub cps workers =
  (fun k => reservationIP sub (firstNodeHost + Z.of_nat k)) <$> seq 0 (Z.to_nat cps + Z.to_nat workers).
Proof. unfold new_nodes. by rewrite fmap_app, !numbered_ips, seq_app, fmap_app. Qed.

Lemma new_nodes_cp_count name sub cps workers : 0 <= cps -> cp_count (new_nodes name sub cps workers) = cps.
Proof.
  intros H. unfold new_nodes. rewrite cp_count_app.
  assert (forall i o n label, cp_count (numbered name label RoleControlPlane sub i o <$> seq 0 n) = Z.of_nat n) as ->.
  { intros i o n label. unfold cp_count. f_equal. generalize 0%nat. induction n as [|n IH]; intros k; [done|].
    cbn [seq fmap list_fmap]. rewrite filter_cons. simpl. f_equal. apply IH. }
  assert (forall i o n label, cp_count (numbered name label RoleWorker sub i o <$> seq 0 n) = 0) as ->; [|lia].
  intros i o n label. unfold cp_count. change 0 with (Z.of_nat 0). f_equal. generalize 0%nat at 1.
  induction n as [|n IH]; intros k; [done|]. cbn [seq fmap list_fmap]. rewrite filter_cons. simpl. apply IH.
Qed.

Lemma new_nodes_ok name sub cps workers :
  0 <= sub <= 255 -> 0 <= cps -> 0 <= workers -> cps + workers <= 178 ->
  NoDup (n_Name <$> new_nodes name sub cps workers) /\ ips_ok sub (new_nodes name sub cps workers) /\
  Forall (fun n => n_Role n = RoleControlPlane \/ n_Role n = RoleWorker) (new_nodes name sub cps workers).
Proof.
  intros Hs Hc Hw Ht. split; [|split; [split|]].
  - unfold new_nodes. rewrite fmap_app. apply NoDup_app. split; [by apply numbered_names|]. split; [|by apply numbered_names].
    intros x (n & -> & (k & -> & _)%list_elem_of_fmap)%list_elem_of_fmap (n' & E & (k' & -> & _)%list_elem_of_fmap)%list_elem_of_fmap.
    simpl in E. do 2 apply string_app_inj_l in E. discriminate E.
  - apply Forall_forall. intros n Hn. right.
    assert (n_IP n ∈ n_IP <$> new_nodes name sub cps workers) as Hin by by apply list_elem_of_fmap_2.
    rewrite new_nodes_ips in Hin. apply list_elem_of_fmap in Hin as (k & -> & Hk%elem_of_seq).
    exists (firstNodeHost + Z.of_nat k). split; [|done]. unfold firstNodeHost, lastNodeHost. lia.
  - assert (Forall (fun n => n_IP n <> "") (new_nodes name sub cps workers)) as Hne.
    { apply Forall_forall. intros n Hn.
      assert (n_IP n ∈ n_IP <$> new_nodes name sub cps workers) as Hin by by apply list_elem_of_fmap_2.
      rewrite new_nodes_ips in Hin. apply list_elem_of_fmap in Hin as (k & -> & _). apply reservation_nonempty. }
    rewrite (assigned_all _ Hne), new_nodes_ips. apply NoDup_fmap_2_strong; [|apply NoDup_seq].
    intros x y _ _ H. apply reservationIP_inj in H; unfold firstNodeHost in *; lia.
  - unfold new_nodes. apply Forall_app. split; apply Forall_fmap, Forall_forall; intros k _; simpl; auto.
Qed.

(** [New] accepts exactly the valid names, subnets 0..255, and 0..178 nodes
    with non-negative sizes, and what it builds is a well-formed cluster: cp-1..
    then worker-1.., holding the addresses .2, .3, ... in order. *)
Theorem New_builds name sub cps workers d :
  cps < 2 ^ 61 -> workers < 2 ^ 61 ->
  (is_ok (New name sub cps workers d) = true <->
    validName name = Ok tt /\ 0 <= sub <= 255 /\ 0 <= cps /\ 0 <= workers /\ cps + workers <= 178 /\
    0 <= MemoryMiB d /\ 0 <= CPUs d /\ 0 <= DiskGiB d) /\
  forall c, New name sub cps workers d = Ok c ->
    cluster_ok c /\ c_Nodes c = new_nodes name sub cps workers /\
    n_IP <$> c_Nodes c = (fun k => reservationIP sub (firstNodeHost + Z.of_nat k)) <$> seq 0 (Z.to_nat (cps + workers)).
Proof.
  intros Hc Hw. unfold New. destruct (validName name) as [[]|e]; [|split; [split; [done|intros (? & _); done]|done]].
  unfold MaxSubnetIndex, lastNodeHost, firstNodeHost.
  destruct ((sub <? 0) || (255 <? sub)) eqn:E1; [split; [split; [done|lia]|done]|].
  destruct ((cps <? 0) || (workers <? 0)) eqn:E2; [split; [split; [done|lia]|done]|]. bool_to_prop.
  rewrite wrap64_id by int64_lia. destruct (179 - 2 + 1 <? cps + workers) eqn:E3; [split; [split; [done|lia]|done]|].
  destruct ((MemoryMiB d <? 0) || (CPUs d <? 0) || (DiskGiB d <? 0)) eqn:E4; [split; [split; [done|lia]|done]|].
  bool_to_prop. split; [split; [intros _; repeat split; lia|done]|]. intros c [= <-].
  rewrite !append_nodes_eq. cbn [app]. rewrite length_fmap, length_seq. cbn [length]. fold (new_nodes name sub cps workers).
  destruct (new_nodes_ok name sub cps workers) as (? & ? & ?); [lia..|].
  pose proof (new_nodes_cp_count name sub cps workers ltac:(lia)) as Hcnt.
  split; [|split; [done|]].
  - split; simpl; try done; try lia. rewrite Hcnt. unfold new_nodes. rewrite length_app, !length_fmap, !length_seq. lia.
  - cbn [c_Nodes]. rewrite new_nodes_ips, Z2Nat.inj_add by lia. done.
Qed.

(** ** The reservation table *)

Lemma canonicalMAC_spec s m : canonicalMAC s = Ok m -> length m = 6%nat /\ Forall is_byte m.
Proof.
  unfold canonicalMAC. destruct (parse_mac (trim_space s)) as [m'|] eqn:E; [|done].
  case_decide; [|done]. intros [= <-]. eauto using parse_mac_bytes.
Qed.

(** [node] of [item] is indexed by its canonical MAC. *)
Definition node_reserved (item : Cluster) (node : Node) (t : ReservationTable) : Prop :=
  exists mac, canonicalMAC (n_MAC node) = Ok mac /\ validReservationIP (parse_ip4 (n_IP node)) (c_SubnetIndex item) = true /\
    t !! mac_string mac = Some (mkReservation mac (parse_ip4 (n_IP node)) (c_SubnetIndex item)).

Definition index_ok (acc : gmap string Reservation * gmap string string) : Prop :=
  (forall k r, acc.1 !! k = Some r -> is_Some (acc.2 !! ip_string (r_IP r))) /\
  (forall k1 k2 r1 r2, acc.1 !! k1 = Some r1 -> acc.1 !! k2 = Some r2 -> ip_string (r_IP r1) = ip_string (r_IP r2) -> k1 = k2).

Lemma reserve_node_spec item acc node acc' :
  reserve_node item acc node = Ok acc' -> index_ok acc ->
  index_ok acc' /\ acc.1 ⊆ acc'.1 /\ node_reserved item node acc'.1 /\
  (forall k r, acc'.1 !! k = Some r -> acc.1 !! k = Some r \/ (node_reserved item node acc'.1 /\
     exists mac, canonicalMAC (n_MAC node) = Ok mac /\ k = mac_string mac)).
Proof.
  destruct acc as [m i]. unfold reserve_node. destruct (canonicalMAC (n_MAC node)) as [mac|] eqn:Em; [|done]. cbv zeta.
  destruct (bool_decide _ || _) eqn:Ev; [done|]. bool_to_prop.
  destruct (m !! mac_string mac) as [p|] eqn:Ek; [done|].
  destruct (i !! ip_string (parse_ip4 (n_IP node))) as [p|] eqn:Ei; [done|].
  intros [= <-] [Ha Hb]. simpl in *.
  assert (node_reserved item node (<[mac_string mac := mkReservation mac (parse_ip4 (n_IP node)) (c_SubnetIndex item)]> m)) as Hr.
  { exists mac. rewrite lookup_insert_eq. auto. }
  split; [split; simpl|split; [by apply insert_subseteq|split; [done|]]].
  - intros k r. rewrite !lookup_insert. case_decide as E; [intros [= <-]; simpl; rewrite decide_True by done; eauto|].
    intros Hk. case_decide; [eauto|]. by eapply Ha.
  - intros k1 k2 r1 r2. rewrite !lookup_insert. do 2 case_decide; [congruence|..].
    + intros [= <-] Hk2 E. simpl in E. destruct (Ha _ _ Hk2) as [x Hx]. rewrite <- E in Hx. congruence.
    + intros Hk1 [= <-] E. simpl in E. destruct (Ha _ _ Hk1) as [x Hx]. rewrite E in Hx. congruence.
    + apply Hb.
  - intros k r. rewrite lookup_insert. case_decide; [intros _; right; eauto|auto].
Qed.

Lemma node_reserved_mono item node t t' : t ⊆ t' -> node_reserved item node t -> node_reserved item node t'.
Proof. intros Hs (mac & ? & ? & Hl). exists mac. repeat split; try done. by eapply lookup_weaken. Qed.

Lemma reserve_nodes_spec item nodes acc acc' :
  reserve_nodes item acc nodes = Ok acc' -> index_ok acc ->
  index_ok acc' /\ acc.1 ⊆ acc'.1 /\ (forall node, node ∈ nodes -> node_reserved item node acc'.1) /\
  (forall k r, acc'.1 !! k = Some r -> acc.1 !! k = Some r \/
     exists node mac, node ∈ nodes /\ canonicalMAC (n_MAC node) = Ok mac /\ k = mac_string mac).
Proof.
  revert acc. induction nodes as [|n nodes IH]; intros acc; cbn [reserve_nodes].
  { intros [= <-] Hi. split; [done|]. split; [done|]. split; [set_solver|auto]. }
  destruct (reserve_node item acc n) as [acc1|] eqn:E; [|done]. intros H Hi.
  destruct (reserve_node_spec _ _ _ _ E Hi) as (Hi1 & Hs1 & Hr1 & Ho1).
  destruct (IH _ H Hi1) as (Hi2 & Hs2 & Hr2 & Ho2). split; [done|]. split; [by etransitivity|]. split.
  - intros node [->|Hn]%elem_of_cons; [by eapply node_reserved_mono|auto].
  - intros k r [Hk|(node & mac & Hn & ? & ?)]%Ho2; [|right; exists node, mac; set_solver].
    destruct (Ho1 _ _ Hk) as [?|(_ & mac & ? & ?)]; [by left|right; exists n, mac; set_solver].
Qed.

Lemma reserve_clusters_spec clusters acc acc' :
  reserve_clusters acc clusters = Ok acc' -> index_ok acc ->
  index_ok acc' /\ acc.1 ⊆ acc'.1 /\
  (forall item node, item ∈ clusters -> node ∈ c_Nodes item -> node_reserved item node acc'.1) /\
  (forall k r, acc'.1 !! k = Some r -> acc.1 !! k = Some r \/
     exists item node mac, item ∈ clusters /\ node ∈ c_Nodes item /\ canonicalMAC (n_MAC node) = Ok mac /\ k = mac_string mac).
Proof.
  revert acc. induction clusters as [|c cs IH]; intros acc; cbn [reserve_clusters].
  { intros [= <-] Hi. split; [done|]. split; [done|]. split; [set_solver|auto]. }
  case_head; [done|]. destruct (reserve_nodes c acc (c_Nodes c)) as [acc1|] eqn:E; [|done]. intros H Hi.
  destruct (reserve_nodes_spec _ _ _ _ E Hi) as (Hi1 & Hs1 & Hr1 & Ho1).
  destruct (IH _ H Hi1) as (Hi2 & Hs2 & Hr2 & Ho2). split; [done|]. split; [by etransitivity|]. split.
  - intros item node [->|Hc]%elem_of_cons Hn; [eapply node_reserved_mono; eauto|eauto].
  - intros k r [Hk|(item & node & mac & Hc & Hn & ? & ?)]%Ho2; [|right; exists item, node, mac; set_solver].
    destruct (Ho1 _ _ Hk) as [?|(node & mac & ? & ? & ?)]; [by left|right; exists c, node, mac; set_solver].
Qed.

(** A reservation table answers for every persisted node and only for them:
    each node's MAC, however it is spelled, looks up to that node's own address
    and subnet, every entry comes from a node, and no two entries share an
    address. *)
Theorem NewReservationTable_sound clusters t :
  NewReservationTable clusters = Ok t ->
  (forall item node, item ∈ clusters -> node ∈ c_Nodes item ->
     exists mac, canonicalMAC (n_MAC node) = Ok mac /\ validReservationIP (parse_ip4 (n_IP node)) (c_SubnetIndex item) = true /\
       forall spelling, canonicalMAC spelling = Ok mac ->
         Lookup t spelling = Some (mkReservation mac (parse_ip4 (n_IP node)) (c_SubnetIndex item))) /\
  (forall spelling r, Lookup t spelling = Some r -> exists item node mac, item ∈ clusters /\ node ∈ c_Nodes item /\
     canonicalMAC (n_MAC node) = Ok mac /\ canonicalMAC spelling = Ok mac) /\
  (forall k1 k2 r1 r2, t !! k1 = Some r1 -> t !! k2 = Some r2 -> r_IP r1 = r_IP r2 -> k1 = k2).
Proof.
  unfold NewReservationTable. destruct (reserve_clusters (∅, ∅) clusters) as [[byMAC byIP]|] eqn:E; [|done].
  intros [= <-].
  destruct (reserve_clusters_spec _ _ _ E) as ([_ Hb] & _ & Hr & Ho).
  { split; intros *; simpl; rewrite lookup_empty; done. }
  simpl in *. split; [|split].
  - intros item node Hi Hn. destruct (Hr _ _ Hi Hn) as (mac & Hm & Hv & Hl). exists mac. split; [done|]. split; [done|].
    intros spelling Hsp. unfold Lookup. by rewrite Hsp.
  - intros spelling r. unfold Lookup. destruct (canonicalMAC spelling) as [mac|] eqn:Hm; [|done]. intros Hl.
    destruct (Ho _ _ Hl) as [Hx|(item & node & mac' & Hi & Hn & Hm' & Hk)]; [by rewrite lookup_empty in Hx|].
    exists item, node, mac'. repeat split; try done. f_equal.
    apply canonicalMAC_spec in Hm as [? ?]. apply canonicalMAC_spec in Hm' as [? ?]. by apply mac_string_inj.
  - intros k1 k2 r1 r2 H1 H2 Heq. eapply Hb; [done..|]. by rewrite Heq.
Qed.

(** ** Provisioning intent *)

(** Validation of an intent and of its input form. *)
Lemma Intent_Input i intent :
  Intent i = Ok intent ->
  Intent (Input intent) = Ok intent /\
  (BGP intent = true -> LB intent = true /\ CNI intent = CNICilium) /\
  (Hubble intent = true -> CNI intent = CNICilium) /\
  (CNI intent = "" -> intent = no_intent).
Proof.
  destruct i as [cni csi lb bgp hubble kmp]. unfold Intent. simpl. unfold ParseProvisioningIntent at 1.
  destruct (String.eqb_spec cni "") as [->|Hcni].
  { case_head; [done|]. destruct lb, bgp, hubble, kmp; intros [= <-]; simpl; repeat split; done. }
  destruct (negb _ && negb _) eqn:Ecni; [done|]. destruct (negb _ && negb _ && negb _) eqn:Ecsi; [done|]. cbv zeta. simpl.
  set (lbv := default true lb). set (bgpv := default false bgp). set (hv := default false hubble).
  set (kv := match kmp with Some b => negb b | None => false end).
  clearbody lbv bgpv hv kv. clear lb bgp hubble kmp.
  destruct (String.eqb_spec cni CNICilium) as [->|Hc]; cbn [negb andb] in *.
  - destruct bgpv, lbv; cbn [negb andb]; try done; (rewrite ?andb_false_r; intros [= <-]);
      (split; [|repeat split; simpl; done]); unfold Input, ParseProvisioningIntent; simpl;
      destruct kv; simpl; by rewrite Ecsi, ?andb_false_r.
  - apply negb_false_iff, String.eqb_eq in Ecni. subst cni.
    destruct bgpv; [destruct lbv; done|]. destruct hv; [done|]. cbn [negb andb]. intros [= <-].
    split; [|repeat split; simpl; done]. unfold Input, ParseProvisioningIntent. simpl. destruct kv; simpl; by rewrite Ecsi.
Qed.

(** An accepted intent is consistent (BGP needs a load balancer and Cilium,
    Hubble needs Cilium, storage and every knob need a CNI) and survives the wire:
    sending its input form and validating it again gives the same intent. *)
Theorem intent_roundtrip i intent :
  Intent i = Ok intent ->
  Intent (Input intent) = Ok intent /\
  (BGP intent = true -> LB intent = true /\ CNI intent = CNICilium) /\
  (Hubble intent = true -> CNI intent = CNICilium) /\
  (CNI intent = "" -> intent = no_intent).
Proof. apply Intent_Input. Qed.

(** ** Generated names *)

Lemma foldl_max_ge (f : Z -> Node -> Z) nodes m :
  (forall acc n, acc <= f acc n) -> m <= foldl f m nodes.
Proof. intros Hf. revert m. induction nodes as [|n nodes IH]; intros m; [done|]. cbn [foldl]. specialize (IH (f m n)). specialize (Hf m n). lia. Qed.

(** The name generated for an unnamed node is new, so adding it never fails
    with "already exists", while the numbers in use are below 2^62. *)
Theorem nextNodeName_fresh c role :
  Forall (fun node => default 0 (atoi (trim_prefix (n_Name node) (node_name_prefix c role))) < 2 ^ 62) (c_Nodes c) ->
  nextNodeName c role ∉ n_Name <$> c_Nodes c.
Proof.
  intros Hsmall. unfold nextNodeName. cbv zeta.
  set (prefix := node_name_prefix c role) in *. rewrite Forall_forall in Hsmall.
  set (f := fun maxIndex node => _).
  assert (forall acc n, acc <= f acc n) as Hmono by (intros acc n; subst f; simpl; repeat case_head; bool_to_prop; lia).
  assert (forall l m, 0 <= m < 2 ^ 62 -> (forall n, n ∈ l -> n ∈ c_Nodes c) -> 0 <= foldl f m l < 2 ^ 62) as Hbound.
  { induction l as [|n l IH]; intros m Hm Hl; [done|]. cbn [foldl]. apply IH; [|set_solver].
    pose proof (Hmono m n). split; [lia|]. specialize (Hsmall n (Hl n ltac:(left))).
    subst f. simpl in *. repeat case_head; simpl in Hsmall; lia. }
  pose proof (Hbound (c_Nodes c) 0 ltac:(lia) ltac:(auto)) as Hb.
  set (k := foldl f 0 (c_Nodes c)) in *. rewrite wrap64_id by int64_lia.
  intros (n & En & Hn)%list_elem_of_fmap.
  assert (k + 1 <= k); [|lia]. unfold k at 2.
  apply list_elem_of_split in Hn as (l1 & l2 & El). rewrite El, foldl_app. cbn [foldl].
  etransitivity; [|by apply foldl_max_ge]. subst f. simpl. rewrite <- En, has_prefix_app, trim_prefix_app. simpl.
  rewrite atoi_itoa by (unfold int64_max; lia). case_head; bool_to_prop; lia.
Qed.

(** ** Witnesses and counterexamples *)

Definition demo_cluster : Cluster :=
  match New "dev" 7 1 1 (mkDefaults 0 0 0) with
  | Ok c => c
  | Err _ => mkCluster "" 0 0 0 0 (mkDefaults 0 0 0) None None no_intent [] "" "" None "" "" "" "" false ""
  end.

Lemma New_builds_witness :
  cluster_ok demo_cluster /\ n_IP <$> c_Nodes demo_cluster = ["172.30.7.2"; "172.30.7.3"].
Proof.
  destruct (proj2 (New_builds "dev" 7 1 1 (mkDefaults 0 0 0) ltac:(lia) ltac:(lia)) demo_cluster) as (H1 & _ & H3);
    [vm_compute; reflexivity|]. split; [exact H1|exact H3].
Defined.

Lemma demo_cluster_ok : cluster_ok demo_cluster.
Proof.
  destruct (new_nodes_ok "dev" 7 1 1 ltac:(lia) ltac:(lia) ltac:(lia) ltac:(lia)) as (H1 & H2 & H3).
  assert (c_Nodes demo_cluster = new_nodes "dev" 7 1 1) as E by (vm_compute; reflexivity).
  split; rewrite ?E; try assumption; vm_compute; (split; discriminate) || reflexivity.
Qed.

Lemma AddNode_allocates_witness :
  cluster_ok (AddNode demo_cluster RoleWorker "").1 /\
  n_IP <$> c_Nodes (AddNode demo_cluster RoleWorker "").1 = ["172.30.7.2"; "172.30.7.3"; "172.30.7.4"] /\
  n_Name <$> c_Nodes (AddNode demo_cluster RoleWorker "").1 = ["dev-cp-1"; "dev-worker-1"; "dev-worker-2"].
Proof.
  split; [|vm_compute; split; reflexivity].
  exact (proj1 (AddNode_allocates demo_cluster RoleWorker "" _ _ demo_cluster_ok (surjective_pairing _))).
Defined.

Lemma RemoveNode_removes_witness :
  cluster_ok (RemoveNode demo_cluster "dev-cp-1").1 /\
  n_Name <$> c_Nodes (RemoveNode demo_cluster "dev-cp-1").1 = ["dev-worker-1"].
Proof.
  split; [|vm_compute; reflexivity].
  exact (proj1 (RemoveNode_removes demo_cluster "dev-cp-1" _ _ demo_cluster_ok ltac:(vm_compute; reflexivity) (surjective_pairing _))).
Defined.

Definition demo_table : ReservationTable :=
  match NewReservationTable [demo_cluster] with Ok t => t | Err _ => ∅ end.

Definition demo_first : Node := default (mkNode "" "" "" "") (head (c_Nodes demo_cluster)).

Lemma NewReservationTable_sound_witness :
  exists mac, canonicalMAC (n_MAC demo_first) = Ok mac /\
    Lookup demo_table (n_MAC demo_first) = Some (mkReservation mac [172; 30; 7; 2] 7).
Proof.
  destruct (NewReservationTable_sound [demo_cluster] demo_table) as (H & _ & _); [vm_compute; reflexivity|].
  destruct (H demo_cluster demo_first) as (mac & Hm & _ & Hl); [constructor|by left|].
  exists mac. split; [exact Hm|]. exact (Hl _ Hm).
Defined.

Lemma intent_roundtrip_witness :
  Intent (Input (mkIntent "cilium" "longhorn" true true false false)) = Ok (mkIntent "cilium" "longhorn" true true false false).
Proof. apply (intent_roundtrip (mkInput "cilium" "longhorn" None (Some true) None None)). reflexivity. Defined.

Lemma nextNodeName_fresh_witness : nextNodeName demo_cluster RoleWorker ∉ n_Name <$> c_Nodes demo_cluster.
Proof.
  apply (nextNodeName_fresh demo_cluster RoleWorker). apply (bool_decide_unpack _). vm_compute. exact I.
Defined.

(** A name of one slash is its own base name, so it passes validation; the
    directory [filepath.Join(root, "/")] of such a cluster is the clusters root. *)
Example validName_accepts_slash : validName "/" = Ok tt /\ validName "a/b" = Err (InvalidName "a/b").
Proof. split; vm_compute; reflexivity. Qed.

(** [nextReservationIP] compares addresses as text while [ensureNodeReservations]
    compares them parsed: a node persisted in IPv4-mapped notation passes
    validation, and adding a node then hands out its address a second time. *)
Example mapped_address_allocated_twice :
  let c := with_nodes [mkNode "a" RoleWorker "" "::ffff:172.30.7.2"] demo_cluster in
  match AddNode c RoleWorker "b" with
  | (c', Ok node) => (parse_ip4 <$> (n_IP <$> c_Nodes c')) = [[172; 30; 7; 2]; [172; 30; 7; 2]]
  | _ => False
  end.
Proof. vm_compute. reflexivity. Qed.
