(* ===== verification/Subnet.v ===== *)
(** * Subnet selection ([internal/cluster/subnet.go])

    Which 172.30.n.0/24 a new cluster may claim, given the other clusters and
    what the host reports about its interfaces and routes.  The host readers are
    parameters ([SubnetSources] is a struct of functions in the source); the
    messages are data. *)

From stdpp Require Import base list gmap strings.
From Stdlib Require Import Ascii ZArith Lia.
From S2P Require Import Prelude GoStrings GoNet Cluster.

Local Open Scope Z_scope.

(** The [net.Addr] implementations the code distinguishes, with the text form
    of any other. *)
Inductive Addr :=
| AddrIPNet (value : IPNet)
| AddrIPAddr (ip : IP)
| AddrOther (text : string).

Record HostInterface := mkInterface { i_Name : string; i_Addrs : list Addr }.

Record HostRoute := mkRoute {
  rt_Interface : string;
  rt_Network : option IPNet;
  rt_Metric : Z;
  LooksLikeTunnel : bool
}.

Definition LinuxBridgeName (index : Z) : string := "br-tbx" +:+ itoa index.
Definition LinuxBridgeAlias (index : Z) : string := "talos-box:bridge:" +:+ itoa index.

(** What stands in the way of a subnet. *)
Inductive conflict := InterfaceConflict (name : string) (address : Addr) | RouteConflict (network : IPNet) (name : string).

(** Errors; [E] is what the host readers fail with. *)
Inductive subnet_error (E : Type) :=
| AllAllocated
| AllOverlap
| IndexRange
| NoInterfaceSource
| NoRouteSource
| InspectInterfaces (err : E)
| InspectRoute (destination : IP) (err : E)
| IncompleteRoute (destination : IP)
| InvalidRouteMask (destination : IP)
| BadCIDR
| SubnetConflict (index : Z) (what : conflict).
Arguments AllAllocated {E}.
Arguments AllOverlap {E}.
Arguments IndexRange {E}.
Arguments NoInterfaceSource {E}.
Arguments NoRouteSource {E}.
Arguments InspectInterfaces {E}.
Arguments InspectRoute {E}.
Arguments IncompleteRoute {E}.
Arguments InvalidRouteMask {E}.
Arguments BadCIDR {E}.
Arguments SubnetConflict {E}.

(** [subnetRouteWarning]: the covered subnet and the interface. *)
Inductive warning := BroadRoute (index : Z) (name : string) | OwnedConflict (index : Z) (what : conflict).

Record subnetInspection := mkInspection { insp_conflict : option conflict; insp_warning : option warning }.

Definition clear : subnetInspection := mkInspection None None.

(** ** Interface names *)

Fixpoint all_digits (s : string) : bool :=
  match s with EmptyString => true | String c r => is_digit c && all_digits r end.

Definition isVMNetBridgeName (name : string) : bool :=
  let digits := trim_prefix name "bridge" in
  if String.eqb digits name || String.eqb digits "" then false
  else all_digits digits && match atoi digits with Some number => 100 <=? number | None => false end.

Definition isHostBridgeName (name : string) (index : Z) : bool :=
  String.eqb name (LinuxBridgeName index) || isVMNetBridgeName name.

Definition isTalosBoxBridgeName (name : string) (index : Z) : bool :=
  if String.eqb name (LinuxBridgeName index) then true
  else match atoi (trim_prefix name "bridge") with
       | Some bridgeIndex => has_prefix name "bridge" && (bridgeIndex =? 100 + index)
       | None => false
       end.

(** ** Networks *)

Definition ipv4Network (address : Addr) : option (IP * IPNet) :=
  match address with
  | AddrIPNet value =>
      let ip := to4 (net_ip value) in
      if bool_decide (ip = []) then None else Some (ip, mkIPNet (ip_mask ip (net_mask value)) (net_mask value))
  | AddrIPAddr a =>
      let ip := to4 a in
      if bool_decide (ip = []) then None else Some (ip, mkIPNet ip (cidr_mask 32 4))
  | AddrOther text =>
      match parse_cidr text with
      | Some (ip, network) => if bool_decide (to4 ip = []) then None else Some (to4 ip, network)
      | None => None
      end
  end.

Definition networksOverlap (left right : IPNet) : bool :=
  net_contains left (net_ip right) || net_contains right (net_ip left).

Definition isOwnBridgeAddress (ip : IP) (network : IPNet) (index : Z) : bool :=
  let '(ones, bits) := mask_size (net_mask network) in
  (bits =? 32) && (ones =? 24) && ip_equal ip (parse_ip (Gateway index)).

Definition isTalosBoxBridge (name : string) (ip : IP) (network : IPNet) (index : Z) : bool :=
  isOwnBridgeAddress ip network index && isTalosBoxBridgeName name index.

(** ** Inspection *)

Section Inspect.
Context {E : Type}.

Definition sources_Interfaces := option (result E (list HostInterface)).
Definition sources_Route := option (IP -> result E HostRoute).

Definition readHostInterfaces (src : sources_Interfaces) : result (subnet_error E) (list HostInterface) :=
  match src with
  | None => Err NoInterfaceSource
  | Some (Err e) => Err (InspectInterfaces e)
  | Some (Ok l) => Ok l
  end.

(** One interface: the bridges taken for the cluster's own so far, or a conflict. *)
Fixpoint inspect_addrs (index : Z) (candidate : IPNet) (name : string) (allowTalosBoxBridge attached : bool)
    (own : gset string) (addrs : list Addr) : gset string + conflict :=
  match addrs with
  | [] => inl own
  | address :: rest =>
      match ipv4Network address with
      | None => inspect_addrs index candidate name allowTalosBoxBridge attached own rest
      | Some (ip, network) =>
          if negb (networksOverlap candidate network)
          then inspect_addrs index candidate name allowTalosBoxBridge attached own rest
          else if allowTalosBoxBridge && isTalosBoxBridge name ip network index
          then inspect_addrs index candidate name allowTalosBoxBridge attached own rest
          else if attached && isOwnBridgeAddress ip network index && isHostBridgeName name index
          then inspect_addrs index candidate name allowTalosBoxBridge attached (own ∪ {[name]}) rest
          else inr (InterfaceConflict name address)
      end
  end.

Fixpoint inspect_interfaces (index : Z) (candidate : IPNet) (allowTalosBoxBridge attached : bool)
    (own : gset string) (interfaces : list HostInterface) : gset string + conflict :=
  match interfaces with
  | [] => inl own
  | current :: rest =>
      match inspect_addrs index candidate (i_Name current) allowTalosBoxBridge attached own (i_Addrs current) with
      | inl own' => inspect_interfaces index candidate allowTalosBoxBridge attached own' rest
      | inr c => inr c
      end
  end.

Definition inspect_route (index : Z) (candidate : IPNet) (allowTalosBoxBridge attached : bool) (own : gset string)
    (destination : IP) (route : HostRoute) : result (subnet_error E) subnetInspection :=
  match rt_Network route with
  | None => if String.eqb (rt_Interface route) "" then Ok clear else Err (IncompleteRoute destination)
  | Some network =>
      if String.eqb (rt_Interface route) "" then Err (IncompleteRoute destination)
      else if negb (networksOverlap candidate network) then Ok clear
      else if allowTalosBoxBridge && isTalosBoxBridgeName (rt_Interface route) index then Ok clear
      else if attached && bool_decide (rt_Interface route ∈ own) then Ok clear
      else
        let '(ones, bits) := mask_size (net_mask network) in
        if negb (bits =? 32) || (ones <? 0) then Err (InvalidRouteMask destination)
        else if ones =? 0 then
          (if LooksLikeTunnel route then Ok (mkInspection None (Some (BroadRoute index (rt_Interface route)))) else Ok clear)
        else if 24 <=? ones then Ok (mkInspection (Some (RouteConflict network (rt_Interface route))) None)
        else Ok (mkInspection None (Some (BroadRoute index (rt_Interface route))))
  end.

Definition inspectSubnet (index : Z) (interfaces : list HostInterface) (routeSource : sources_Route)
    (allowTalosBoxBridge attached : bool) : result (subnet_error E) subnetInspection :=
  match parse_cidr (SubnetCIDR index) with
  | None => Err BadCIDR
  | Some (_, candidate) =>
      match inspect_interfaces index candidate allowTalosBoxBridge attached ∅ interfaces with
      | inr c => Ok (mkInspection (Some c) None)
      | inl own =>
          match routeSource with
          | None => Err NoRouteSource
          | Some route_to =>
              let destination := parse_ip4 (reservationIP index 2) in
              match route_to destination with
              | Err e => Err (InspectRoute destination e)
              | Ok route => inspect_route index candidate allowTalosBoxBridge attached own destination route
              end
          end
      end
  end.

(** ** Choosing a subnet *)

(** [used[i]] of the slice [allocatedSubnetIndexes] returns. *)
Definition allocatedSubnetIndexes (clusters : list Cluster) : list bool :=
  foldl (fun used item => if (0 <=? c_SubnetIndex item) && (c_SubnetIndex item <=? MaxSubnetIndex)
                          then <[Z.to_nat (c_SubnetIndex item) := true]> used else used)
    (replicate (Z.to_nat (MaxSubnetIndex + 1)) false) clusters.

Fixpoint first_unallocated (index : Z) (used : list bool) : option Z :=
  match used with
  | [] => None
  | allocated :: rest => if allocated then first_unallocated (index + 1) rest else Some index
  end.

Definition LowestFreeSubnetIndex (clusters : list Cluster) : result (subnet_error E) Z :=
  match first_unallocated 0 (allocatedSubnetIndexes clusters) with
  | Some index => Ok index
  | None => Err AllAllocated
  end.

Fixpoint first_usable (interfaces : list HostInterface) (route : sources_Route) (index : Z) (used : list bool)
  : result (subnet_error E) (Z * option warning) :=
  match used with
  | [] => Err AllOverlap
  | allocated :: rest =>
      if allocated then first_usable interfaces route (index + 1) rest
      else match inspectSubnet index interfaces route false false with
           | Err e => Err e
           | Ok insp => match insp_conflict insp with
                        | None => Ok (index, insp_warning insp)
                        | Some _ => first_usable interfaces route (index + 1) rest
                        end
           end
  end.

Definition LowestUsableSubnetIndex (clusters : list Cluster) (ifaces : sources_Interfaces) (route : sources_Route)
  : result (subnet_error E) (Z * option warning) :=
  let used := allocatedSubnetIndexes clusters in
  if forallb id used then Err AllAllocated
  else match readHostInterfaces ifaces with
       | Err e => Err e
       | Ok interfaces => first_usable interfaces route 0 used
       end.

Definition CheckSubnetIndex (index : Z) (ifaces : sources_Interfaces) (route : sources_Route)
  : result (subnet_error E) (option warning) :=
  if (index <? 0) || (MaxSubnetIndex <? index) then Err IndexRange
  else match readHostInterfaces ifaces with
       | Err e => Err e
       | Ok interfaces =>
           match inspectSubnet index interfaces route true false with
           | Err e => Err e
           | Ok insp => match insp_conflict insp with
                        | Some c => Err (SubnetConflict index c)
                        | None => Ok (insp_warning insp)
                        end
           end
       end.

Definition AttachedSubnetWarning (index : Z) (ifaces : sources_Interfaces) (route : sources_Route)
  : result (subnet_error E) (option warning) :=
  if (index <? 0) || (MaxSubnetIndex <? index) then Err IndexRange
  else match readHostInterfaces ifaces with
       | Err e => Err e
       | Ok interfaces =>
           match inspectSubnet index interfaces route true true with
           | Err e => Err e
           | Ok insp => match insp_conflict insp with
                        | Some c => Ok (Some (OwnedConflict index c))
                        | None => Ok (insp_warning insp)
                        end
           end
       end.
End Inspect.

(** ** Route tables *)

Definition no_route : HostRoute := mkRoute "" None 0 false.

(** A route the loop considers: not ignored, covering, a proper IPv4 mask. *)
Definition eligible (destination : IP) (ignored : gset string) (route : HostRoute) : option Z :=
  match rt_Network route with
  | None => None
  | Some network =>
      if bool_decide (rt_Interface route ∈ ignored) || negb (net_contains network destination) then None
      else let '(prefix, bits) := mask_size (net_mask network) in
           if negb (bits =? 32) || (prefix <? 0) then None else Some prefix
  end.

Definition select_step (destination : IP) (ignored : gset string) (acc : HostRoute * Z) (route : HostRoute) : HostRoute * Z :=
  let '(selected, selectedPrefix) := acc in
  match eligible destination ignored route with
  | None => acc
  | Some prefix =>
      if prefix <? selectedPrefix then acc
      else if (selectedPrefix <? prefix) || (rt_Metric route <? rt_Metric selected) then (route, prefix)
      else if rt_Metric route =? rt_Metric selected
      then (mkRoute (rt_Interface selected) (rt_Network selected) (rt_Metric selected)
              (LooksLikeTunnel selected || LooksLikeTunnel route), selectedPrefix)
      else acc
  end.

Definition selectMostSpecificRoute (destination : IP) (routes : list HostRoute) (ignored : gset string) : HostRoute :=
  (foldl (select_step destination ignored) (no_route, -1) routes).1.

(** ** Parsing [route -n get] *)

Inductive route_error := NoInterfaceField | InvalidDestination (value : string) | OmittedMask | InvalidMask (value : string).

(** [nil] is the empty mask. *)
Definition parseRouteMask (value : string) : result route_error (list Z) :=
  if String.eqb value "" then Ok []
  else let parsed := parse_ip4 value in
       if bool_decide (parsed <> []) then Ok parsed
       else if has_prefix value "0x" then
         match parse_uint_hex32 (trim_prefix value "0x") with
         | Some v => Ok (put32 v)
         | None => Err (InvalidMask value)
         end
       else Err (InvalidMask value).

Definition route_fields (output : string) : gmap string string :=
  foldl (fun fields line =>
    match cut ":"%char (trim_space line) with
    | Some (key, value) => <[trim_space key := trim_space value]> fields
    | None => fields
    end) ∅ (split_on "010"%char output).

Definition parseHostRoute (output : string) (queried : IP) : result route_error HostRoute :=
  let fields := route_fields output in
  let field k := default "" (fields !! k) in
  if String.eqb (field "interface") "" then Err NoInterfaceField
  else
    let destination := field "destination" in
    if String.eqb destination "default"
    then Ok (mkRoute (field "interface") (Some (mkIPNet (v4InV6Prefix ++ [0; 0; 0; 0]) (cidr_mask 0 4))) 0 false)
    else
      let ip := parse_ip4 destination in
      if bool_decide (ip = []) then Err (InvalidDestination destination)
      else match parseRouteMask (field "mask") with
           | Err e => Err e
           | Ok mask =>
               if bool_decide (mask = []) then
                 if negb (ip_equal ip queried) then Err OmittedMask
                 else let mask := cidr_mask 32 4 in
                      Ok (mkRoute (field "interface") (Some (mkIPNet (ip_mask ip mask) mask)) 0 false)
               else Ok (mkRoute (field "interface") (Some (mkIPNet (ip_mask ip mask) mask)) 0 false)
           end.

(** ** Lemmas on networks *)

(** An IPv4 network with a contiguous mask. *)
Definition wf_net (n : IPNet) : Prop :=
  length (net_ip n) = 4%nat /\ exists p, 0 <= p <= 32 /\ net_mask n = cidr_mask p 4.

Definition candidate (index : Z) : IPNet := mkIPNet [172; 30; index; 0] [255; 255; 255; 0].

Lemma candidate_parsed index : 0 <= index <= 255 -> exists ip, parse_cidr (SubnetCIDR index) = Some (ip, candidate index).
Proof.
  intros Hi. assert (forallb (fun i => bool_decide (snd <$> parse_cidr (SubnetCIDR i) = Some (candidate i))) (seqZ 0 256) = true) as H
    by (vm_compute; reflexivity).
  rewrite forallb_forall in H. specialize (H index). rewrite <- list_elem_of_In, elem_of_seqZ in H.
  specialize (H ltac:(lia)). apply bool_decide_eq_true in H.
  destruct (parse_cidr (SubnetCIDR index)) as [[ip n]|]; [|done]. simpl in H. exists ip. congruence.
Qed.

Lemma candidate_wf index : wf_net (candidate index).
Proof. split; [done|]. exists 24. split; [lia|reflexivity]. Qed.

Lemma masks_nested p q : 0 <= p <= q -> q <= 32 -> and_bytes (cidr_mask q 4) (cidr_mask p 4) = cidr_mask p 4.
Proof.
  intros Hp Hq.
  assert (forallb (fun q => forallb (fun p => (q <? p) || bool_decide (and_bytes (cidr_mask q 4) (cidr_mask p 4) = cidr_mask p 4))
    (seqZ 0 33)) (seqZ 0 33) = true) as H by (vm_compute; reflexivity).
  rewrite forallb_forall in H. specialize (H q). rewrite <- list_elem_of_In, elem_of_seqZ in H. specialize (H ltac:(lia)).
  rewrite forallb_forall in H. specialize (H p). rewrite <- list_elem_of_In, elem_of_seqZ in H. specialize (H ltac:(lia)).
  apply orb_true_iff in H as [H|H]; bool_to_prop; [lia|done].
Qed.

Lemma and_bytes_assoc a b c : and_bytes (and_bytes a b) c = and_bytes a (and_bytes b c).
Proof.
  unfold and_bytes. revert b c. induction a as [|x a IH]; intros [|y b] [|z c]; try done. cbn. by rewrite IH, Z.land_assoc.
Qed.

Lemma net_contains_wf n ip : wf_net n -> length ip = 4%nat ->
  net_contains n ip = bool_decide (and_bytes (net_ip n) (net_mask n) = and_bytes ip (net_mask n)).
Proof.
  intros [Hl (p & Hp & Hm)] Hi. destruct n as [nip mask]. simpl in *. subst mask.
  assert (to4 nip = nip) as Ht by (unfold to4; by rewrite Hl).
  assert (to4 ip = ip) as Ht' by (unfold to4; by rewrite Hi).
  assert (nip <> [] /\ ip <> []) as [? ?] by (split; intros ->; done).
  unfold net_contains, networkNumberAndMask. simpl net_ip. simpl net_mask. rewrite Ht, Ht'.
  rewrite !(decide_False (P := nip = [])), (decide_False (P := ip = [])) by done.
  rewrite (bool_decide_eq_false_2 (nip = [])) by done. cbn [andb].
  replace (length (cidr_mask p 4)) with 4%nat by (unfold cidr_mask; by rewrite length_fmap).
  rewrite decide_True by done. rewrite decide_True by congruence. done.
Qed.

Lemma contains_nested n1 n2 x p1 p2 :
  0 <= p1 <= p2 -> p2 <= 32 -> net_mask n1 = cidr_mask p1 4 -> net_mask n2 = cidr_mask p2 4 ->
  and_bytes (net_ip n1) (net_mask n1) = and_bytes x (net_mask n1) ->
  and_bytes (net_ip n2) (net_mask n2) = and_bytes x (net_mask n2) ->
  and_bytes (net_ip n1) (net_mask n1) = and_bytes (net_ip n2) (net_mask n1).
Proof.
  intros Hp Hq E1 E2 H1 H2. pose proof (masks_nested p1 p2 Hp Hq) as Hm. rewrite <- E1, <- E2 in Hm.
  rewrite H1, <- Hm, <- !and_bytes_assoc, H2. done.
Qed.

Lemma overlap_common n1 n2 x : wf_net n1 -> wf_net n2 -> length x = 4%nat ->
  net_contains n1 x = true -> net_contains n2 x = true -> networksOverlap n1 n2 = true.
Proof.
  intros W1 W2 Hx H1 H2. pose proof W1 as [L1 (p1 & Hp1 & M1)]. pose proof W2 as [L2 (p2 & Hp2 & M2)].
  rewrite net_contains_wf in H1, H2 by done. bool_to_prop.
  unfold networksOverlap. rewrite !net_contains_wf, orb_true_iff, !bool_decide_eq_true by done.
  destruct (Z.le_ge_cases p1 p2); [left|right]; eapply contains_nested; try exact H1; try exact H2; try exact M1; try exact M2; lia.
Qed.

(** Two networks overlap, as the code decides it from their base addresses,
    exactly when they have an address in common. *)
Theorem networksOverlap_iff n1 n2 : wf_net n1 -> wf_net n2 ->
  networksOverlap n1 n2 = true <->
  exists x, length x = 4%nat /\ net_contains n1 x = true /\ net_contains n2 x = true.
Proof.
  intros W1 W2. split; [|intros (x & Hx & H1 & H2); by eapply overlap_common].
  unfold networksOverlap. rewrite orb_true_iff.
  intros [H|H]; [exists (net_ip n2)|exists (net_ip n1)]; (split; [apply W1 || apply W2|]); (split; [|]); try done;
    rewrite net_contains_wf by (done || apply W1 || apply W2); by apply bool_decide_eq_true.
Qed.

(** ** Lemmas on the scan *)

Lemma inspect_addrs_clear index cand name own addrs own' :
  inspect_addrs index cand name false false own addrs = inl own' ->
  forall a ip net, a ∈ addrs -> ipv4Network a = Some (ip, net) -> networksOverlap cand net = false.
Proof.
  revert own. induction addrs as [|a addrs IH]; intros own; cbn [inspect_addrs]; [set_solver|].
  intros H a' ip net [->|Hin]%elem_of_cons Ha; [rewrite Ha in H; destruct (networksOverlap cand net); [discriminate H|done]|].
  destruct (ipv4Network a) as [[ip0 net0]|]; [|by eapply IH]. cbn [andb] in H. case_head_in H; [by eapply IH|done].
Qed.

Lemma inspect_interfaces_clear index cand own ifaces own' :
  inspect_interfaces index cand false false own ifaces = inl own' ->
  forall i a ip net, i ∈ ifaces -> a ∈ i_Addrs i -> ipv4Network a = Some (ip, net) -> networksOverlap cand net = false.
Proof.
  revert own. induction ifaces as [|i0 ifaces IH]; intros own; cbn [inspect_interfaces]; [set_solver|].
  destruct (inspect_addrs _ _ _ _ _ _ _) as [own1|] eqn:E; [|done].
  intros H i a ip net [->|Hin]%elem_of_cons Ha Hn; [by eapply inspect_addrs_clear|by eapply IH].
Qed.

Lemma allocated_lookup clusters (i : Z) :
  0 <= i <= 255 ->
  allocatedSubnetIndexes clusters !! Z.to_nat i = Some (bool_decide (Exists (fun c => c_SubnetIndex c = i) clusters)).
Proof.
  intros Hi. unfold allocatedSubnetIndexes, MaxSubnetIndex. induction clusters as [|c cs IH] using rev_ind.
  { cbn [foldl]. rewrite lookup_replicate_2 by lia. rewrite bool_decide_eq_false_2; [done|]. intros Hx%Exists_nil. done. }
  rewrite foldl_app. cbn [foldl]. set (used := foldl _ _ cs) in *.
  assert (length used = 256%nat) as Hlen.
  { subst used. clear. generalize (replicate (Z.to_nat (255 + 1)) false) (length_replicate (Z.to_nat (255 + 1)) false).
    induction cs as [|c cs IH]; intros l Hl; [done|]. cbn [foldl]. apply IH. case_head; [by rewrite length_insert|done]. }
  assert (bool_decide (Exists (fun c0 => c_SubnetIndex c0 = i) (cs ++ [c])) =
    bool_decide (Exists (fun c0 => c_SubnetIndex c0 = i) cs) || (c_SubnetIndex c =? i)) as ->.
  { apply eq_bool_prop_intro. rewrite orb_True, !bool_decide_spec, Exists_app, Exists_cons, Exists_nil.
    rewrite Is_true_true, Z.eqb_eq. tauto. }
  destruct ((0 <=? c_SubnetIndex c) && (c_SubnetIndex c <=? 255)) eqn:E; bool_to_prop.
  - rewrite list_lookup_insert. destruct (Z.eqb_spec (c_SubnetIndex c) i) as [Heq|Hne].
    + rewrite decide_True by lia. by rewrite orb_true_r.
    + rewrite decide_False by lia. by rewrite orb_false_r.
  - rewrite IH. destruct (Z.eqb_spec (c_SubnetIndex c) i) as [Heq|Hne]; [lia|]. by rewrite orb_false_r.
Qed.

Lemma allocated_length clusters : length (allocatedSubnetIndexes clusters) = 256%nat.
Proof.
  unfold allocatedSubnetIndexes, MaxSubnetIndex.
  generalize (replicate (Z.to_nat (255 + 1)) false) (length_replicate (Z.to_nat (255 + 1)) false).
  induction clusters as [|c cs IH]; intros l Hl; [done|]. cbn [foldl]. apply IH. case_head; [by rewrite length_insert|done].
Qed.

(** The scan stops at the first free index without a conflict. *)
Lemma first_usable_spec {E} ifaces (route : sources_Route (E := E)) start used i w :
  first_usable ifaces route start used = Ok (i, w) ->
  exists k : nat, i = start + Z.of_nat k /\ used !! k = Some false /\
    inspectSubnet i ifaces route false false = Ok (mkInspection None w) /\
    forall j, (j < k)%nat -> used !! j = Some true \/
      (used !! j = Some false /\ exists insp c, inspectSubnet (start + Z.of_nat j) ifaces route false false = Ok insp /\ insp_conflict insp = Some c).
Proof.
  revert start. induction used as [|b used IH]; intros start; cbn [first_usable]; [done|].
  assert (forall k, start + 1 + Z.of_nat k = start + Z.of_nat (S k)) as Hs by lia.
  destruct b.
  - intros H. destruct (IH _ H) as (k & -> & Hk & Hi & Hj). exists (S k). rewrite <- Hs. repeat split; try done.
    intros [|j] Hlt; [by left|]. rewrite <- Hs. apply Hj. lia.
  - destruct (inspectSubnet start ifaces route false false) as [insp|e] eqn:Ei; [|done].
    destruct (insp_conflict insp) as [c|] eqn:Ec.
    + intros H. destruct (IH _ H) as (k & -> & Hk & Hi & Hj). exists (S k). rewrite <- Hs. repeat split; try done.
      intros [|j] Hlt; [right; rewrite Z.add_0_r; eauto|]. rewrite <- Hs. apply Hj. lia.
    + intros [= <- <-]. exists 0%nat. rewrite Z.add_0_r. repeat split; try done; try lia.
      rewrite Ei. destruct insp. simpl in *. congruence.
Qed.

Lemma inspectSubnet_clear {E} index ifaces (route : sources_Route (E := E)) w :
  0 <= index <= 255 -> inspectSubnet index ifaces route false false = Ok (mkInspection None w) ->
  (forall i a ip net, i ∈ ifaces -> a ∈ i_Addrs i -> ipv4Network a = Some (ip, net) -> networksOverlap (candidate index) net = false) /\
  (forall route_to rt net, route = Some route_to -> route_to (parse_ip4 (reservationIP index 2)) = Ok rt -> rt_Network rt = Some net ->
     networksOverlap (candidate index) net = true -> (mask_size (net_mask net)).1 < 24).
Proof.
  intros Hi. unfold inspectSubnet. destruct (candidate_parsed index Hi) as [ip0 ->].
  destruct (inspect_interfaces index (candidate index) false false ∅ ifaces) as [own|] eqn:Ei; [|done].
  intros H. split; [by eapply inspect_interfaces_clear|]. intros route_to rt net -> Hrt Hn Hov.
  rewrite Hrt in H. unfold inspect_route in H. rewrite Hn, Hov in H. cbn [negb andb] in H.
  case_head_in H; [done|]. destruct (mask_size (net_mask net)) as [ones bits]. simpl.
  case_head_in H; [done|]. destruct (ones =? 0) eqn:E0; bool_to_prop; [lia|].
  destruct (24 <=? ones) eqn:E24; bool_to_prop; [done|lia].
Qed.

(** The chosen subnet is free.  A successful allocation returns an index in
    0..255 that no cluster uses, whose /24 has no address in common with any
    address the host interfaces carry and is not routed by a /24 or narrower
    route; every lower index is taken or was found in conflict. *)
Theorem LowestUsableSubnetIndex_sound {E} clusters ifaces (route : sources_Route (E := E)) i w :
  LowestUsableSubnetIndex clusters (Some (Ok ifaces)) route = Ok (i, w) ->
  0 <= i <= 255 /\ (forall c, c ∈ clusters -> c_SubnetIndex c <> i) /\
  (forall iface a ip net x, iface ∈ ifaces -> a ∈ i_Addrs iface -> ipv4Network a = Some (ip, net) -> wf_net net ->
     length x = 4%nat -> net_contains net x = true -> net_contains (candidate i) x = false) /\
  (forall route_to rt net, route = Some route_to -> route_to (parse_ip4 (reservationIP i 2)) = Ok rt -> rt_Network rt = Some net ->
     networksOverlap (candidate i) net = true -> (mask_size (net_mask net)).1 < 24) /\
  (forall j, 0 <= j < i -> (exists c, c ∈ clusters /\ c_SubnetIndex c = j) \/
     exists insp c, inspectSubnet j ifaces route false false = Ok insp /\ insp_conflict insp = Some c).
Proof.
  unfold LowestUsableSubnetIndex. cbv zeta. case_head; [done|]. simpl. intros H.
  destruct (first_usable_spec _ _ _ _ _ _ H) as (k & -> & Hk & Hi & Hj).
  assert (k < 256)%nat as Hk256 by (apply lookup_lt_Some in Hk; by rewrite allocated_length in Hk).
  rewrite Z.add_0_l in *. split; [lia|].
  rewrite <- (Nat2Z.id k), allocated_lookup in Hk by lia. injection Hk as Hk. bool_to_prop.
  assert (0 <= Z.of_nat k <= 255) as Hr by lia.
  destruct (inspectSubnet_clear _ _ _ _ Hr Hi) as [Hclear Hroute].
  split; [|split; [|split; [done|]]].
  - intros c Hc Ec. apply Hk, Exists_exists. eauto.
  - intros iface a ip net x Hin Ha Hn Hwf Hx Hcn. specialize (Hclear _ _ _ _ Hin Ha Hn).
    destruct (net_contains (candidate (Z.of_nat k)) x) eqn:Ec; [|done]. exfalso.
    assert (networksOverlap (candidate (Z.of_nat k)) net = true); [|congruence].
    apply overlap_common with x; auto using candidate_wf.
  - intros j Hjk. specialize (Hj (Z.to_nat j) ltac:(lia)). rewrite Z.add_0_l, Z2Nat.id in Hj by lia.
    rewrite allocated_lookup in Hj by lia. destruct Hj as [Hj|[_ Hj]]; [left|right; done].
    injection Hj as Hj. bool_to_prop. apply Exists_exists in Hj as (c & Hc & Ec). eauto.
Qed.

(** ** Route selection *)

(** [route] is preferred over every eligible route of the list. *)
Definition preferred (destination : IP) (ignored : gset string) (routes : list HostRoute) (prefix metric : Z) : Prop :=
  forall r p, r ∈ routes -> eligible destination ignored r = Some p -> p < prefix \/ (p = prefix /\ metric <= rt_Metric r).

Definition select_inv (destination : IP) (ignored : gset string) (routes : list HostRoute) (acc : HostRoute * Z) : Prop :=
  let '(sel, prefix) := acc in
  (acc = (no_route, -1) /\ forall r, r ∈ routes -> eligible destination ignored r = None) \/
  (exists r, r ∈ routes /\ eligible destination ignored r = Some prefix /\
     rt_Interface sel = rt_Interface r /\ rt_Network sel = rt_Network r /\ rt_Metric sel = rt_Metric r /\
     preferred destination ignored routes prefix (rt_Metric r) /\
     (LooksLikeTunnel sel = true <-> exists r', r' ∈ routes /\ eligible destination ignored r' = Some prefix /\
        rt_Metric r' = rt_Metric r /\ LooksLikeTunnel r' = true)).

Lemma eligible_nonneg destination ignored r p : eligible destination ignored r = Some p -> 0 <= p.
Proof.
  unfold eligible. destruct (rt_Network r); [|done]. case_head; [done|]. case_head. case_head; [done|].
  intros [= <-]. bool_to_prop. lia.
Qed.

(** A newly preferred route starts the tunnel signal afresh. *)
Lemma select_fresh destination ignored routes r p :
  eligible destination ignored r = Some p ->
  (forall r' p', r' ∈ routes -> eligible destination ignored r' = Some p' -> p' < p \/ (p' = p /\ rt_Metric r < rt_Metric r')) ->
  select_inv destination ignored (routes ++ [r]) (r, p).
Proof.
  intros He Hlt. right. exists r. split; [apply elem_of_app; right; left|]. split; [done|]. do 3 (split; [done|]). split.
  - intros r' p' [Hr| ->%list_elem_of_singleton]%elem_of_app He'; [|right; simplify_eq; lia].
    destruct (Hlt _ _ Hr He'); [by left|right; lia].
  - split; [intros Ht; exists r; repeat split; auto; apply elem_of_app; right; left|].
    intros (r' & [Hr| ->%list_elem_of_singleton]%elem_of_app & He' & Hm & Ht); [|done].
    destruct (Hlt _ _ Hr He'); lia.
Qed.

Lemma select_step_inv destination ignored routes acc r :
  select_inv destination ignored routes acc ->
  select_inv destination ignored (routes ++ [r]) (select_step destination ignored acc r).
Proof.
  destruct acc as [sel prefix]. unfold select_step. destruct (eligible destination ignored r) as [p|] eqn:Er.
  - pose proof (eligible_nonneg _ _ _ _ Er). intros [[[= -> ->] Hnone]|(r0 & Hr0 & He0 & Hi & Hn & Hm & Hpref & Ht)].
    { rewrite (proj2 (Z.ltb_ge p (-1))), (proj2 (Z.ltb_lt (-1) p)) by lia. apply select_fresh; [done|].
      intros r' p' Hr'. by rewrite Hnone. }
    pose proof (eligible_nonneg _ _ _ _ He0). rewrite Hm.
    destruct (p <? prefix) eqn:E1; bool_to_prop.
    { right. exists r0. split; [apply elem_of_app; by left|]. do 4 (split; [done|]). split.
      - intros r' p' [?| ->%list_elem_of_singleton]%elem_of_app ?; [eauto|]. left. simplify_eq. lia.
      - rewrite Ht. split; [intros (r' & ? & ? & ? & ?); exists r'; repeat split; auto; apply elem_of_app; by left|]. intros (r' & [?| ->%list_elem_of_singleton]%elem_of_app & ? & ? & ?); [eauto 6|]. simplify_eq. lia. }
    destruct ((prefix <? p) || (rt_Metric r <? rt_Metric r0)) eqn:E2.
    { apply select_fresh; [done|]. intros r' p' Hr' He'. destruct (Hpref _ _ Hr' He');
      apply orb_true_iff in E2 as [E2|E2]; bool_to_prop; lia. }
    bool_to_prop. assert (p = prefix) as -> by lia. destruct (rt_Metric r =? rt_Metric r0) eqn:E3; bool_to_prop.
    + right. exists r0. split; [apply elem_of_app; by left|]. cbn [rt_Interface rt_Network rt_Metric LooksLikeTunnel].
      do 4 (split; [done|]). split.
      * intros r' p' [?| ->%list_elem_of_singleton]%elem_of_app ?; [eauto|]. right. simplify_eq. lia.
      * rewrite orb_true_iff, Ht. split.
        -- intros [(r' & ? & ? & ? & ?)|?]; [exists r'; repeat split; auto; apply elem_of_app; by left|exists r; repeat split; auto; apply elem_of_app; right; left].
        -- intros (r' & [?| ->%list_elem_of_singleton]%elem_of_app & ? & ? & ?); [left; eauto 6|by right].
    + right. exists r0. split; [apply elem_of_app; by left|]. do 4 (split; [done|]). split.
      * intros r' p' [?| ->%list_elem_of_singleton]%elem_of_app ?; [eauto|]. right. simplify_eq. lia.
      * rewrite Ht. split; [intros (r' & ? & ? & ? & ?); exists r'; repeat split; auto; apply elem_of_app; by left|]. intros (r' & [?| ->%list_elem_of_singleton]%elem_of_app & ? & ? & ?); [eauto 6|]. done.
  - intros [[[= -> ->] Hnone]|(r0 & Hr0 & He0 & Hi & Hn & Hm & Hpref & Ht)].
    + left. split; [done|]. intros r' [?| ->%list_elem_of_singleton]%elem_of_app; auto.
    + right. exists r0. split; [apply elem_of_app; by left|]. do 4 (split; [done|]). split.
      * intros r' p' [?| ->%list_elem_of_singleton]%elem_of_app ?; [eauto|congruence].
      * rewrite Ht. split; [intros (r' & ? & ? & ? & ?); exists r'; repeat split; auto; apply elem_of_app; by left|]. intros (r' & [?| ->%list_elem_of_singleton]%elem_of_app & ? & ? & ?); [eauto 6|congruence].
Qed.

(** Route selection picks what the kernel would: the longest prefix, then
    the lowest metric, over the routes that cover the destination on interfaces
    that are not ignored; the tunnel signal of any route tied on both survives,
    and with no such route the result is empty. *)
Theorem selectMostSpecificRoute_best destination routes ignored :
  exists prefix, select_inv destination ignored routes (selectMostSpecificRoute destination routes ignored, prefix).
Proof.
  unfold selectMostSpecificRoute.
  assert (select_inv destination ignored routes (foldl (select_step destination ignored) (no_route, -1) routes)) as H.
  { induction routes as [|r routes IH] using rev_ind; [left; split; [done|set_solver]|].
    rewrite foldl_app. by apply select_step_inv. }
  destruct (foldl _ _ _) as [sel p]. by exists p.
Qed.

(** ** Witnesses *)

Definition lan : IPNet := mkIPNet [192; 168; 1; 0] (cidr_mask 24 4).
Definition vpn : IPNet := mkIPNet [172; 30; 0; 0] (cidr_mask 16 4).
Definition demo_interfaces : list HostInterface :=
  [mkInterface "en0" [AddrIPNet (mkIPNet [192; 168; 1; 9] (cidr_mask 24 4))];
   mkInterface "docker0" [AddrIPNet (mkIPNet [172; 30; 0; 1] (cidr_mask 24 4))]].
Definition demo_route : sources_Route (E := unit) := Some (fun _ => Ok (mkRoute "utun3" (Some vpn) 0 true)).

Lemma networksOverlap_iff_witness :
  networksOverlap (candidate 7) vpn = true <->
  exists x, length x = 4%nat /\ net_contains (candidate 7) x = true /\ net_contains vpn x = true.
Proof.
  apply (networksOverlap_iff (candidate 7) vpn); [exact (candidate_wf 7)|].
  split; [reflexivity|]. exists 16. split; [lia|reflexivity].
Defined.

(** Index 0 is taken by docker0, 1 by a cluster; the VPN route is a warning. *)
Lemma LowestUsableSubnetIndex_sound_witness : 0 <= 2 <= 255.
Proof.
  refine (proj1 (LowestUsableSubnetIndex_sound [with_migration 1 no_intent "" demo_cluster] demo_interfaces demo_route 2
    (Some (BroadRoute 2 "utun3")) _)).
  vm_compute. reflexivity.
Defined.
