(* ===== verification/HelperState.v ===== *)
(** * The helper's reservation state ([internal/helper/state.go])

    The privileged helper keeps the reservations every local daemon pushed,
    partitioned by the pushing user.  The JSON file is modelled by the value it
    encodes; whether a write to it succeeds is a parameter of [Replace]. *)

From stdpp Require Import base list gmap strings sorting.
From Stdlib Require Import Ascii ZArith Lia.
From S2P Require Import Prelude GoStrings GoNet Cluster.

Local Open Scope Z_scope.

Record SyncedNode := mkSyncedNode { sn_Name : string; sn_MAC : string; sn_IP : string }.
Record SyncedCluster := mkSynced { sc_Name : string; sc_SubnetIndex : Z; sc_Nodes : list SyncedNode }.

(** [syncedState]: the owners by the decimal form of their uid. *)
Abbreviation syncedState := (gmap string (list SyncedCluster)) (only parsing).

(** What is at [s.path]: nothing, a file that cannot be read or decoded, or a state. *)
Inductive file := Missing | Unreadable | Stored (owners : syncedState).

Record State := mkState {
  partitions : gmap Z (list SyncedCluster);
  clusters : list Cluster;
  has_path : bool
}.

Inductive state_error :=
| SyncedInvalid (err : cluster_error)
| OwnerInvalid (owner : Z) (err : state_error)
| NameUsedTwice (name : string) (previous owner : Z)
| UnionInvalid (err : cluster_error)
| Collision (err : state_error)
| PersistFailed.

(** The directory, when [dir] is not empty. *)
Definition NewState (dir : string) : State := mkState ∅ [] (negb (String.eqb dir "")).

Definition helperStateDir (getenv : string -> string) : string :=
  let directories := getenv "STATE_DIRECTORY" in
  if negb (String.eqb directories "")
  then match cut ":"%char directories with Some (first, _) => first | None => directories end
  else getenv "TBX_HELPER_STATE_DIR".

Definition convert_node (n : SyncedNode) : Node := mkNode (sn_Name n) "" (sn_MAC n) (sn_IP n).

Definition convert (item : SyncedCluster) : Cluster :=
  mkCluster (sc_Name item) 0 (sc_SubnetIndex item) 0 0 (mkDefaults 0 0 0) None None no_intent
    (convert_node <$> sc_Nodes item) "" "" None "" "" "" "" false "".

Definition syncedClusters (in_ : list SyncedCluster) : result state_error (list Cluster) :=
  let converted := convert <$> in_ in
  match NewReservationTable converted with
  | Ok _ => Ok converted
  | Err e => Err (SyncedInvalid e)
  end.

(** The claim of each cluster name by its owner. *)
Fixpoint claim_names (owner : Z) (claimed : gmap string Z) (items : list Cluster) : result state_error (gmap string Z) :=
  match items with
  | [] => Ok claimed
  | item :: rest =>
      match claimed !! c_Name item with
      | Some previous => if previous =? owner then claim_names owner (<[c_Name item := owner]> claimed) rest
                         else Err (NameUsedTwice (c_Name item) previous owner)
      | None => claim_names owner (<[c_Name item := owner]> claimed) rest
      end
  end.

Fixpoint union_owners (parts : gmap Z (list SyncedCluster)) (owners : list Z) (union : list Cluster)
    (claimed : gmap string Z) : result state_error (list Cluster) :=
  match owners with
  | [] => Ok union
  | owner :: rest =>
      match syncedClusters (default [] (parts !! owner)) with
      | Err e => Err (OwnerInvalid owner e)
      | Ok items =>
          match claim_names owner claimed items with
          | Err e => Err e
          | Ok claimed' => union_owners parts rest (union ++ items) claimed'
          end
      end
  end.

Definition unionClusters (parts : gmap Z (list SyncedCluster)) : result state_error (list Cluster) :=
  match union_owners parts (sort_ints (map_to_list parts).*1) [] ∅ with
  | Err e => Err e
  | Ok union => match NewReservationTable union with
                | Ok _ => Ok union
                | Err e => Err (UnionInvalid e)
                end
  end.

(** [persist]: the file afterwards.  The rename is the last step, so a failed
    write leaves the old file. *)
Definition stored_form (parts : gmap Z (list SyncedCluster)) : syncedState := kmap itoa parts.

Definition persist (s : State) (write_ok : bool) (parts : gmap Z (list SyncedCluster)) (disk : file)
  : result state_error unit * file :=
  if negb (has_path s) then (Ok tt, disk)
  else if write_ok then (Ok tt, Stored (stored_form parts)) else (Err PersistFailed, disk).

Definition Replace (owner : Z) (in_ : list SyncedCluster) (write_ok : bool) (s : State) (disk : file)
  : result state_error unit * State * file :=
  match syncedClusters in_ with
  | Err e => (Err e, s, disk)
  | Ok _ =>
      let proposed := <[owner := in_]> (partitions s) in
      match unionClusters proposed with
      | Err e => (Err (Collision e), s, disk)
      | Ok union =>
          let '(r, disk') := persist s write_ok proposed disk in
          match r with
          | Err e => (Err e, s, disk')
          | Ok _ => (Ok tt, mkState proposed union (has_path s), disk')
          end
      end
  end.

(** The owners whose key is a uid. *)
Definition load_partitions (owners : syncedState) : gmap Z (list SyncedCluster) :=
  list_to_map (omap (fun '(key, synced) => (fun owner => (owner, synced)) <$> parse_uint_dec32 key) (map_to_list owners)).

(** [Load] never fails: anything unusable is an empty state. *)
Definition Load (s : State) (disk : file) : State :=
  let empty := mkState ∅ [] (has_path s) in
  if negb (has_path s) then empty
  else match disk with
       | Stored owners =>
           let parts := load_partitions owners in
           match unionClusters parts with
           | Ok union => mkState parts union (has_path s)
           | Err _ => empty
           end
       | _ => empty
       end.

Definition Partition (s : State) (owner : Z) : list SyncedCluster := default [] (partitions s !! owner).

Definition Clusters (s : State) : list Cluster := clusters s.

Definition SubnetIndexes (s : State) : list Z := compact (sort_ints (c_SubnetIndex <$> clusters s)).

(** ** Lemmas *)

(** The validated union of the partitions is what the state serves from. *)
Definition state_ok (s : State) : Prop := unionClusters (partitions s) = Ok (clusters s).

Lemma syncedClusters_ok in_ items : syncedClusters in_ = Ok items -> items = convert <$> in_.
Proof. unfold syncedClusters. cbv zeta. case_head; [|done]. by intros [= <-]. Qed.

Lemma claim_names_spec owner claimed items claimed' :
  claim_names owner claimed items = Ok claimed' ->
  (forall n o, claimed !! n = Some o -> claimed' !! n = Some o) /\
  (forall c, c ∈ items -> claimed' !! c_Name c = Some owner).
Proof.
  revert claimed. induction items as [|c items IH]; intros claimed; cbn [claim_names].
  { intros [= <-]. split; [done|set_solver]. }
  intros H. assert (claim_names owner (<[c_Name c := owner]> claimed) items = Ok claimed' /\
    forall o, claimed !! c_Name c = Some o -> o = owner) as [H' Ho].
  { destruct (claimed !! c_Name c) as [previous|] eqn:E; [|split; [done|done]].
    destruct (previous =? owner) eqn:Eo; [|done]. bool_to_prop. split; [done|]. congruence. }
  destruct (IH _ H') as [H1 H2]. split.
  - intros n o Hn. apply H1. rewrite lookup_insert. case_decide; [subst; f_equal; symmetry; eauto|done].
  - intros c' [->|Hc]%elem_of_cons; [|auto]. apply H1, lookup_insert_eq.
Qed.

Lemma union_owners_spec parts owners union claimed u :
  union_owners parts owners union claimed = Ok u ->
  u = union ++ mjoin ((fun o => convert <$> default [] (parts !! o)) <$> owners) /\
  exists claimed' : gmap string Z, (forall n o, claimed !! n = Some o -> claimed' !! n = Some o) /\
    forall o c, o ∈ owners -> c ∈ default [] (parts !! o) -> claimed' !! sc_Name c = Some o.
Proof.
  revert union claimed. induction owners as [|o owners IH]; intros union claimed; cbn [union_owners].
  { intros [= <-]. simpl. rewrite app_nil_r. split; [done|]. exists claimed. split; [done|set_solver]. }
  destruct (syncedClusters _) as [items|] eqn:Es; [|done]. apply syncedClusters_ok in Es.
  destruct (claim_names o claimed items) as [claimed1|] eqn:Ec; [|done]. intros H.
  destruct (claim_names_spec _ _ _ _ Ec) as [Hk Hc]. destruct (IH _ _ H) as (-> & claimed' & Hk' & Hc'). subst items.
  split; [cbn; by rewrite app_assoc|].
  exists claimed'. split; [auto|]. intros o' c [->|Ho]%elem_of_cons Hin; [|eauto].
  apply Hk'. apply (Hc (convert c)). by apply list_elem_of_fmap_2.
Qed.

Lemma unionClusters_spec parts u :
  unionClusters parts = Ok u ->
  (exists t, NewReservationTable u = Ok t) /\
  (forall c, c ∈ u <-> exists o sc, sc ∈ default [] (parts !! o) /\ c = convert sc) /\
  (forall o1 o2 c1 c2, c1 ∈ default [] (parts !! o1) -> c2 ∈ default [] (parts !! o2) -> sc_Name c1 = sc_Name c2 -> o1 = o2).
Proof.
  unfold unionClusters. destruct (union_owners _ _ _ _) as [union|] eqn:E; [|done].
  destruct (NewReservationTable union) as [t|] eqn:Et; [|done]. intros [= <-].
  apply union_owners_spec in E as (-> & claimed' & _ & Hc). simpl in *.
  assert (forall o sc, sc ∈ default [] (parts !! o) -> o ∈ sort_ints (map_to_list parts).*1) as Hin.
  { intros o sc Hsc. rewrite elem_of_sort_ints. destruct (parts !! o) as [l|] eqn:El; [|set_solver].
    apply list_elem_of_fmap. exists (o, l). split; [done|]. by apply elem_of_map_to_list. }
  split; [eauto|]. split.
  - intros c. split.
    + intros (l & Hl & (o & -> & _)%list_elem_of_fmap)%list_elem_of_join. apply list_elem_of_fmap in Hl as (sc & -> & Hsc). eauto.
    + intros (o & sc & Hsc & ->). apply list_elem_of_join. eexists. split; [by apply list_elem_of_fmap_2|].
      apply list_elem_of_fmap. eauto.
  - intros o1 o2 c1 c2 H1 H2 En. pose proof (Hc _ _ (Hin _ _ H1) H1) as E1. pose proof (Hc _ _ (Hin _ _ H2) H2) as E2.
    congruence.
Qed.

(** ** Theorems *)

(** A push changes the state only as a whole.  On success the pushed set is
    the owner's partition, every other owner's partition is as it was, the union
    is re-validated and is what the file holds; on any error (invalid push,
    collision, failed write) state and file are exactly as before. *)
Theorem Replace_atomic owner in_ write_ok s disk r s' disk' :
  state_ok s -> Replace owner in_ write_ok s disk = (r, s', disk') ->
  state_ok s' /\
  match r with
  | Ok _ => Partition s' owner = in_ /\ (forall o, o <> owner -> Partition s' o = Partition s o) /\
            disk' = (if has_path s then Stored (stored_form (partitions s')) else disk)
  | Err _ => s' = s /\ disk' = disk
  end.
Proof.
  intros Hok. unfold Replace, persist. destruct (syncedClusters in_) as [items|e]; [|intros [= <- <- <-]; done].
  cbv zeta. destruct (unionClusters _) as [union|e] eqn:Eu; [|intros [= <- <- <-]; done].
  destruct (has_path s) eqn:Ep; cbn [negb].
  - destruct write_ok; intros [= <- <- <-]; [|done]. split; [done|]. unfold Partition. simpl.
    rewrite lookup_insert_eq. split; [done|]. split; [|done]. intros o Ho. by rewrite lookup_insert_ne.
  - intros [= <- <- <-]. split; [done|]. unfold Partition. simpl.
    rewrite lookup_insert_eq. split; [done|]. split; [|done]. intros o Ho. by rewrite lookup_insert_ne.
Qed.

(** Users are isolated from each other.  In a validated state no two users
    share a cluster name, and the union of all users' clusters is one reservation
    table, so no address and no MAC is handed out by two of them. *)
Theorem users_isolated s :
  state_ok s ->
  (forall o1 o2 c1 c2, c1 ∈ Partition s o1 -> c2 ∈ Partition s o2 -> sc_Name c1 = sc_Name c2 -> o1 = o2) /\
  (exists t, NewReservationTable (Clusters s) = Ok t /\
     forall o c n, c ∈ Partition s o -> n ∈ sc_Nodes c ->
       exists mac, canonicalMAC (sn_MAC n) = Ok mac /\
         t !! mac_string mac = Some (mkReservation mac (parse_ip4 (sn_IP n)) (sc_SubnetIndex c))) /\
  SubnetIndexes s = compact (sort_ints (SubnetIndexes s)) /\
  (forall i, i ∈ SubnetIndexes s <-> exists o c, c ∈ Partition s o /\ sc_SubnetIndex c = i).
Proof.
  unfold state_ok. intros (Ht & Hu & Hn)%unionClusters_spec. split; [exact Hn|]. split; [|split].
  - destruct Ht as [t Ht]. exists t. split; [done|]. intros o c n Hc Hin.
    unfold NewReservationTable in Ht. destruct (reserve_clusters (∅, ∅) (clusters s)) as [[byMAC byIP]|] eqn:E; [|done].
    injection Ht as ->. destruct (reserve_clusters_spec _ _ _ E) as (_ & _ & Hr & _).
    { split; intros *; simpl; rewrite lookup_empty; done. }
    destruct (Hr (convert c) (convert_node n)) as (mac & Hm & _ & Hl).
    + apply Hu. eauto.
    + by apply list_elem_of_fmap_2.
    + exists mac. auto.
  - unfold SubnetIndexes. set (l := compact (sort_ints _)).
    assert (StronglySorted Z.lt l) as Hs by apply compact_sorted, sort_ints_sorted.
    apply sorted_lt_ext; [done|apply compact_sorted, sort_ints_sorted|].
    intros x. by rewrite elem_of_compact, elem_of_sort_ints.
  - intros i. unfold SubnetIndexes. rewrite elem_of_compact, elem_of_sort_ints. split.
    + intros (c & -> & (o & sc & Hsc & ->)%Hu)%list_elem_of_fmap. eauto.
    + intros (o & c & Hc & <-). apply list_elem_of_fmap. exists (convert c). split; [done|]. apply Hu. eauto.
Qed.

Lemma parse_uint_itoa z : 0 <= z < 2 ^ 32 -> parse_uint_dec32 (itoa z) = Some z.
Proof.
  intros Hz. rewrite itoa_nonneg by lia. unfold parse_uint_dec32.
  destruct (pretty_N_cons (Z.to_N z)) as (c & s & E & _). rewrite E, <- E, parse_digits_pretty.
  rewrite Z2N.id by lia. cbn. rewrite (proj2 (Z.ltb_lt _ _)) by lia. done.
Qed.

Lemma load_stored parts :
  (forall o, is_Some (parts !! o) -> 0 <= o < 2 ^ 32) -> load_partitions (stored_form parts) = parts.
Proof.
  intros Hr. unfold load_partitions, stored_form.
  set (f := fun '(key, synced) => _).
  assert (forall l : list (Z * list SyncedCluster), (forall o x, (o, x) ∈ l -> 0 <= o < 2 ^ 32) ->
    omap f (prod_map itoa id <$> l) = l) as Hl.
  { induction l as [|[o x] l IH]; intros Ho; [done|]. cbn. rewrite parse_uint_itoa by (eapply Ho; left).
    cbn. f_equal. apply IH. intros. eapply Ho. by right. }
  assert (omap f (map_to_list (kmap itoa parts)) ≡ₚ map_to_list parts) as Hp.
  { rewrite map_to_list_kmap by (intros ? ? ?; by apply itoa_inj). rewrite Hl; [done|].
    intros o x Hx. apply Hr. apply elem_of_map_to_list in Hx. eauto. }
  rewrite <- (list_to_map_to_list parts). apply list_to_map_proper; [|by rewrite list_to_map_to_list].
  rewrite list_to_map_to_list in *. rewrite Hp. apply NoDup_fst_map_to_list.
Qed.

(** A restart loses nothing.  After a push that was persisted, a helper that
    starts from the file serves exactly the same partitions and clusters. *)
Theorem restart_restores owner in_ s disk s' disk' s0 :
  has_path s = true -> has_path s0 = true -> 0 <= owner < 2 ^ 32 ->
  (forall o, is_Some (partitions s !! o) -> 0 <= o < 2 ^ 32) ->
  Replace owner in_ true s disk = (Ok tt, s', disk') -> Load s0 disk' = s'.
Proof.
  intros Hp Hp0 Ho Hr. unfold Replace, persist. destruct (syncedClusters in_) as [items|e]; [|done].
  cbv zeta. destruct (unionClusters _) as [union|e] eqn:Eu; [|done]. rewrite Hp. cbn [negb].
  intros [= <- <-]. unfold Load. rewrite Hp0. cbn [negb]. rewrite load_stored; [by rewrite Eu|].
  intros o [x Hx]. rewrite lookup_insert in Hx. case_decide; [by subst|]. apply Hr. eauto.
Qed.

(** ** Witnesses *)

Definition demo_synced : SyncedCluster :=
  mkSynced "dev" 7 [mkSyncedNode "dev-cp-1" "52:54:00:00:00:01" "172.30.7.2"].
Definition demo_state0 : State := NewState "/var/lib/tbx".
Definition demo_state1 : State := (Replace 501 [demo_synced] true demo_state0 Missing).1.2.

Lemma Replace_atomic_witness : state_ok (Replace 501 [demo_synced] true demo_state0 Missing).1.2.
Proof.
  refine (proj1 (Replace_atomic 501 [demo_synced] true demo_state0 Missing (Ok tt) _ (Stored {[ "501" := [demo_synced] ]}) _ _)).
  - reflexivity.
  - vm_compute. reflexivity.
Defined.

Definition demo_other : SyncedCluster :=
  mkSynced "lab" 9 [mkSyncedNode "lab-cp-1" "52:54:00:00:00:02" "172.30.9.2"].
Definition demo_state2 : State := (Replace 502 [demo_other] true demo_state1 Missing).1.2.

Lemma users_isolated_witness :
  7 ∈ SubnetIndexes demo_state2 /\ SubnetIndexes demo_state2 = compact (sort_ints (SubnetIndexes demo_state2)).
Proof.
  destruct (users_isolated demo_state2) as (_ & _ & Hs & Hi); [vm_compute; reflexivity|].
  split; [|exact Hs]. apply Hi. exists 501, demo_synced. split; [|reflexivity]. vm_compute. left.
Defined.

Lemma restart_restores_witness : Load demo_state0 (Stored {[ "501" := [demo_synced] ]}) = demo_state1.
Proof.
  apply (restart_restores 501 [demo_synced] demo_state0 Missing demo_state1 _ demo_state0).
  - reflexivity.
  - reflexivity.
  - lia.
  - intros o [x Hx]. vm_compute in Hx. discriminate Hx.
  - vm_compute. reflexivity.
Defined.
