(* ===== verification/LinuxNet.v ===== *)
(** * Linux host networking of the helper ([internal/helper/linux_network_model.go], [linux_nftables_model.go])

    Names and provenance of the links the helper owns, the preflight that gates
    a new subnet, and convergence of bridges, taps and nftables.  The netlink and
    nftables back ends are an interface in the source ([linuxNetworkOps],
    [linuxNFTConverger]) and a class here, over a host state [W]; the code that
    sequences their calls runs in a state-and-error monad. *)

From stdpp Require Import base list gmap strings sorting.
From Stdlib Require Import Ascii ZArith Lia.
From S2P Require Import Prelude GoStrings GoNet Sha256 Cluster Subnet.

Local Open Scope Z_scope.

(** ** Names *)

Record linuxLinkState := mkLink { l_Name : string; l_Alias : string; l_Addrs : list Addr }.

Definition linuxBridgePrefix : string := "br-tbx".
Definition linuxLinkAliasPrefix : string := "talos-box:".

Definition bridgeNameForSubnet (index : Z) : string := LinuxBridgeName index.
Definition bridgeAliasForSubnet (index : Z) : string := LinuxBridgeAlias index.
Definition tapAliasForSubnet (index : Z) : string := linuxLinkAliasPrefix +:+ "tap:" +:+ itoa index.

(** [tbx<index>-<FNV-1a of cluster, NUL, node>] *)
Definition tapNameForNode (subnetIndex : Z) (clusterName node : string) : string :=
  "tbx" +:+ itoa subnetIndex +:+ "-" +:+
    hex8 (fnv32a (bytes_of_string clusterName ++ [0] ++ bytes_of_string node)).

Definition in_range (index : Z) : bool := (0 <=? index) && (index <=? MaxSubnetIndex).

Definition subnetIndexFromTapName (name : string) : option Z :=
  if negb (has_prefix name "tbx") then None
  else match cut "-"%char (trim_prefix name "tbx") with
       | None => None
       | Some (indexText, hash) =>
           if negb (bool_decide (String.length hash = 8%nat)) then None
           else match atoi indexText with
                | None => None
                | Some index =>
                    if negb (in_range index) then None
                    else match parse_uint_hex32 hash with Some _ => Some index | None => None end
                end
       end.

Definition subnetIndexFromBridgeName (name : string) : option Z :=
  if negb (has_prefix name linuxBridgePrefix) then None
  else match atoi (trim_prefix name linuxBridgePrefix) with
       | Some index => if in_range index then Some index else None
       | None => None
       end.

(** The subnet a link belongs to, when its alias proves the helper made it. *)
Definition managed_index (link : linuxLinkState) : option Z :=
  let bridge := match subnetIndexFromBridgeName (l_Name link) with
                | Some index => if String.eqb (l_Alias link) (bridgeAliasForSubnet index) then Some index else None
                | None => None
                end in
  match bridge with
  | Some index => Some index
  | None => match subnetIndexFromTapName (l_Name link) with
            | Some index => if String.eqb (l_Alias link) (tapAliasForSubnet index) then Some index else None
            | None => None
            end
  end.

Definition managedSubnetIndexes (links : list linuxLinkState) : list Z := compact (sort_ints (omap managed_index links)).

Definition normalizeLinuxSubnetIndexes (indexes : list Z) : list Z :=
  compact (sort_ints (filter (fun i => in_range i = true) indexes)).

(** ** The nftables plan *)

Inductive linuxNFTRuleKind := linuxNFTRuleMasquerade | linuxNFTRuleForwardIn | linuxNFTRuleForwardOut.
Record linuxNFTRule := mkRule { kind : linuxNFTRuleKind; chain : string; bridge : string; sourceCIDR : string }.
Record linuxNFTPlan := mkPlan { tableFamily : string; tableName : string; subnetIndexes : list Z; rules : list linuxNFTRule }.

Definition subnet_rules (index : Z) : list linuxNFTRule :=
  [mkRule linuxNFTRuleMasquerade "postrouting" (bridgeNameForSubnet index) (SubnetCIDR index);
   mkRule linuxNFTRuleForwardIn "forward" (bridgeNameForSubnet index) "";
   mkRule linuxNFTRuleForwardOut "forward" (bridgeNameForSubnet index) ""].

Definition buildLinuxNFTPlan (indexes : list Z) : linuxNFTPlan :=
  let normalized := compact (sort_ints (filter (fun i => in_range i = true) indexes)) in
  mkPlan "inet" "tbx" normalized (normalized ≫= subnet_rules).

(** ** The back ends *)

Inductive net_error (E : Type) :=
| OpFailed (err : E)
| PreflightFailed (index : Z) (err : option (subnet_error E)) (hint : option Z)
| NoSafeSubnet
| SubnetPreflight (skipped : list Z)
| SubnetOutOfRange (index : Z).
Arguments OpFailed {E}.
Arguments PreflightFailed {E}.
Arguments NoSafeSubnet {E}.
Arguments SubnetPreflight {E}.
Arguments SubnetOutOfRange {E}.

Class linuxNetworkOps (W E F : Type) := {
  ListLinks : W -> result E (list linuxLinkState);
  Route : W -> IP -> result E HostRoute;
  EnsureIPv4Forwarding : W -> result E unit * W;
  EnsureInterfaceForwarding : string -> W -> result E unit * W;
  EnsureManagedTaps : list Z -> W -> result E unit * W;
  EnsureBridge : string -> W -> result E unit * W;
  DeleteBridge : string -> W -> result E bool * W;
  EnsureBridgeSTP : string -> bool -> W -> result E unit * W;
  EnsureBridgeAddress : string -> string -> W -> result E unit * W;
  EnsureLinkUp : string -> W -> result E unit * W;
  CreateTap : string -> string -> W -> result E F * W;
  NFTConverge : list Z -> W -> result E unit * W
}.

Section Ops.
Context {W E F : Type} `{linuxNetworkOps W E F}.

(** The state-and-error monad of the sequenced calls. *)
Definition net (A : Type) : Type := W -> result (net_error E) A * W.
Definition net_ret {A} (a : A) : net A := fun w => (Ok a, w).
Definition net_err {A} (e : net_error E) : net A := fun w => (Err e, w).
Definition net_bind {A B} (m : net A) (k : A -> net B) : net B :=
  fun w => match m w with (Ok a, w') => k a w' | (Err e, w') => (Err e, w') end.
Definition op {A} (f : W -> result E A * W) : net A :=
  fun w => let '(r, w') := f w in (map_err OpFailed r, w').
Local Notation "x ← m ; k" := (net_bind m (fun x => k)) (at level 20, m at level 100, k at level 200).
Local Notation "m ;; k" := (net_bind m (fun _ => k)) (at level 100, k at level 200).

(** ** The preflight *)

(** A link as the subnet inspection sees it: an owned bridge takes the name the
    inspection recognises. *)
Definition presented (link : linuxLinkState) : HostInterface :=
  let name := match subnetIndexFromBridgeName (l_Name link) with
              | Some index => if String.eqb (l_Alias link) (bridgeAliasForSubnet index)
                              then "bridge" +:+ itoa (100 + index) else l_Name link
              | None => l_Name link
              end in
  mkInterface name (l_Addrs link).

Definition owned_bridges (links : list linuxLinkState) : gmap string Z :=
  foldl (fun owned link =>
    match subnetIndexFromBridgeName (l_Name link) with
    | Some index => if String.eqb (l_Alias link) (bridgeAliasForSubnet index)
                    then <[l_Name link := index]> owned else owned
    | None => owned
    end) ∅ links.

Definition presented_route (owned : gmap string Z) (route : HostRoute) : HostRoute :=
  let name := match owned !! rt_Interface route with
              | Some index => "bridge" +:+ itoa (100 + index)
              | None => match subnetIndexFromBridgeName (rt_Interface route) with
                        | Some _ => "foreign:" +:+ rt_Interface route
                        | None => rt_Interface route
                        end
              end in
  mkRoute name (rt_Network route) (rt_Metric route) (LooksLikeTunnel route).

(** [linuxClusterSources] over one host state: the interface reader fills the
    bridge table the route reader consults. *)
Definition linux_interfaces (w : W) : sources_Interfaces (E := E) :=
  Some (match ListLinks w with Ok links => Ok (presented <$> links) | Err e => Err e end).
Definition linux_route (w : W) : sources_Route (E := E) :=
  Some (fun destination =>
    match Route w destination with
    | Err e => Err e
    | Ok route => Ok (presented_route (match ListLinks w with Ok links => owned_bridges links | Err _ => ∅ end) route)
    end).

Definition check_subnet (w : W) (index : Z) : result (subnet_error E) (option warning) :=
  CheckSubnetIndex index (linux_interfaces w) (linux_route w).

(** [err == nil && warning == ""] *)
Definition safe (w : W) (index : Z) : bool :=
  match check_subnet w index with Ok None => true | _ => false end.

Definition lowestSafeLinuxSubnet (w : W) (reserved : list Z) : result (net_error E) Z :=
  match ListLinks w with
  | Err e => Err (OpFailed e)
  | Ok links =>
      let managed := normalizeLinuxSubnetIndexes reserved ++ managedSubnetIndexes links in
      match filter (fun index => ~ (index ∈ managed) /\ safe w index = true) (seqZ 0 (MaxSubnetIndex + 1)) with
      | index :: _ => Ok index
      | [] => Err NoSafeSubnet
      end
  end.

Definition preflightLinuxSubnet (w : W) (index : Z) (reserved : list Z) : result (net_error E) unit :=
  if safe w index then Ok tt
  else
    let conflict := match check_subnet w index with Err e => Some e | Ok _ => None end in
    match lowestSafeLinuxSubnet w reserved with
    | Ok hint => if hint =? index then Err (PreflightFailed index conflict None)
                 else Err (PreflightFailed index conflict (Some hint))
    | Err _ => Err (PreflightFailed index conflict None)
    end.

(** ** Convergence *)

Definition ensureLinuxBridge (subnetIndex : Z) : net unit :=
  let name := bridgeNameForSubnet subnetIndex in
  op (EnsureBridge name) ;;
  op (EnsureBridgeSTP name false) ;;
  op (EnsureBridgeAddress name (Gateway subnetIndex +:+ "/24")) ;;
  op (EnsureLinkUp name) ;;
  op (EnsureInterfaceForwarding name).

Fixpoint ensure_bridges (desired : list Z) : net unit :=
  match desired with
  | [] => net_ret tt
  | index :: rest => ensureLinuxBridge index ;; ensure_bridges rest
  end.

Definition convergeLinuxSubnets (desired : list Z) : net unit :=
  op EnsureIPv4Forwarding ;;
  ensure_bridges desired ;;
  op (EnsureManagedTaps desired) ;;
  op (NFTConverge desired).

(** Which of the configured subnets are kept: owned ones whatever the preflight
    says, the others when it passes.  The preflight only reads the host. *)
Definition keeps (w : W) (reserved owned : list Z) (index : Z) : bool :=
  bool_decide (index ∈ owned) || is_ok (preflightLinuxSubnet w index reserved).

Definition convergeLinuxManagedState (configured : list Z) : net unit :=
  fun w =>
    let reserved := normalizeLinuxSubnetIndexes configured in
    match ListLinks w with
    | Err e => (Err (OpFailed e), w)
    | Ok links =>
        let owned := managedSubnetIndexes links in
        let desired := filter (fun i => keeps w reserved owned i = true) reserved in
        let skipped := filter (fun i => keeps w reserved owned i = false) reserved in
        (convergeLinuxSubnets desired ;;
         (if bool_decide (skipped = []) then net_ret tt else net_err (SubnetPreflight skipped))) w
    end.

Definition startLinuxAttachment (configured : list Z) (subnetIndex : Z) (clusterName node : string) : net F :=
  fun w =>
    match preflightLinuxSubnet w subnetIndex configured with
    | Err e => (Err e, w)
    | Ok _ =>
        (op EnsureIPv4Forwarding ;;
         ensureLinuxBridge subnetIndex ;;
         (let desired := normalizeLinuxSubnetIndexes configured in
          let desired := if bool_decide (subnetIndex ∈ desired) then desired else sort_ints (desired ++ [subnetIndex]) in
          op (NFTConverge desired) ;;
          op (CreateTap (tapNameForNode subnetIndex clusterName node) (bridgeNameForSubnet subnetIndex)))) w
    end.

Definition teardownLinuxBridge (subnetIndex : Z) : net bool :=
  if (subnetIndex <? 0) || (MaxSubnetIndex <? subnetIndex) then net_err (SubnetOutOfRange subnetIndex)
  else op (DeleteBridge (bridgeNameForSubnet subnetIndex)).
End Ops.

(** ** Lemmas on names *)

Fixpoint lacks (sep : ascii) (s : string) : bool :=
  match s with EmptyString => true | String c r => negb (bool_decide (c = sep)) && lacks sep r end.

Lemma cut_lacks sep a b : lacks sep a = true -> cut sep (a +:+ String sep b) = Some (a, b).
Proof.
  induction a as [|c a IH]; intros Ha.
  - change (cut sep (String sep b) = Some (EmptyString, b)). unfold cut. by rewrite decide_True.
  - cbn [lacks] in Ha. bool_to_prop. change (cut sep (String c (a +:+ String sep b)) = Some (String c a, b)).
    cbn [cut]. rewrite decide_False by done. by rewrite IH.
Qed.

(** Facts about the 256 index texts, by evaluation. *)
Lemma index_text index : 0 <= index <= 255 ->
  lacks "-"%char (itoa index) = true /\ (String.length (itoa index) <= 3)%nat /\ atoi (itoa index) = Some index.
Proof.
  intros Hi. split; [|split].
  - assert (forallb (fun i => lacks "-"%char (itoa i)) (seqZ 0 256) = true) as H by (vm_compute; reflexivity).
    rewrite forallb_forall in H. apply H, list_elem_of_In, elem_of_seqZ. lia.
  - assert (forallb (fun i => Nat.leb (String.length (itoa i)) 3) (seqZ 0 256) = true) as H by (vm_compute; reflexivity).
    rewrite forallb_forall in H. apply Nat.leb_le. apply H, list_elem_of_In, elem_of_seqZ. lia.
  - apply atoi_itoa. unfold int64_max. lia.
Qed.

Lemma parse_hex_hex2 acc b s : is_byte b -> parse_hex_digits acc (hex2 b +:+ s) = parse_hex_digits (acc * 256 + b) s.
Proof.
  intros Hb. change (hex2 b +:+ s) with (String (hex_digit (b / 16)) (String (hex_digit (b mod 16)) s)).
  cbn [parse_hex_digits].
  destruct (hex_digit_val (b / 16)) as [-> _]; [unfold is_byte in Hb; div_lia|].
  destruct (hex_digit_val (b mod 16)) as [-> _]; [unfold is_byte in Hb; div_lia|].
  f_equal. unfold is_byte in Hb. div_lia.
Qed.

Lemma parse_hex8 v : 0 <= v < 2 ^ 32 -> parse_uint_hex32 (hex8 v) = Some v /\ String.length (hex8 v) = 8%nat.
Proof.
  intros Hv. split; [|reflexivity]. unfold parse_uint_hex32, hex8.
  rewrite <- (string_app_nil_r (hex2 (v mod 256))).
  assert (forall k, 0 <= v / 2 ^ k mod 256 < 256) as Hb by (intros; apply Z.mod_pos_bound; lia).
  assert (0 <= v mod 256 < 256) by (apply Z.mod_pos_bound; lia).
  rewrite !parse_hex_hex2 by (apply Hb || done). cbn [parse_hex_digits].
  set (n := (((0 * 256 + _) * 256 + _) * 256 + _) * 256 + _).
  assert (n = v) as -> by (subst n; change (2 ^ 24) with 16777216; change (2 ^ 16) with 65536; change (2 ^ 8) with 256; div_lia).
  cbn. rewrite (proj2 (Z.ltb_lt _ _)) by lia. done.
Qed.

Lemma fnv32a_range msg : 0 <= fnv32a msg < 2 ^ 32.
Proof.
  assert (forall z, 0 <= w32 z < 2 ^ 32) as Hw.
  { intros z. unfold w32. change 0xffffffff with (Z.ones 32). rewrite Z.land_ones by lia. apply Z.mod_pos_bound. lia. }
  unfold fnv32a. destruct msg as [|b msg] using rev_ind; [cbn [foldl]; lia|]. rewrite foldl_app. apply Hw.
Qed.

(** A tap's name fits the kernel's 15 bytes and leads back to its subnet,
    whatever the cluster and node are called; so does a bridge's. *)
Theorem link_names_roundtrip index clusterName node : 0 <= index <= 255 ->
  subnetIndexFromTapName (tapNameForNode index clusterName node) = Some index /\
  (String.length (tapNameForNode index clusterName node) <= 15)%nat /\
  subnetIndexFromBridgeName (bridgeNameForSubnet index) = Some index /\
  (String.length (bridgeNameForSubnet index) <= 15)%nat.
Proof.
  intros Hi. destruct (index_text index Hi) as (Hl & Hlen & Hat).
  set (h := fnv32a (bytes_of_string clusterName ++ [0] ++ bytes_of_string node)).
  destruct (parse_hex8 h (fnv32a_range _)) as [Hp Hp8].
  assert (in_range index = true) as Hr by (unfold in_range, MaxSubnetIndex; lia).
  unfold subnetIndexFromTapName, tapNameForNode. fold h. split; [|split; [|split]].
  - rewrite has_prefix_app, trim_prefix_app. cbn [negb].
    change ("-" +:+ hex8 h) with (String "-"%char (hex8 h)). rewrite (cut_lacks _ _ _ Hl), Hp8, bool_decide_eq_true_2 by done. cbn [negb]. by rewrite Hat, Hr, Hp.
  - rewrite !string_length_app, Hp8. cbn. lia.
  - unfold subnetIndexFromBridgeName, bridgeNameForSubnet, LinuxBridgeName, linuxBridgePrefix.
    rewrite has_prefix_app, trim_prefix_app. cbn [negb]. by rewrite Hat, Hr.
  - unfold bridgeNameForSubnet, LinuxBridgeName. rewrite string_length_app. cbn. lia.
Qed.

Lemma normalize_spec indexes :
  StronglySorted Z.lt (normalizeLinuxSubnetIndexes indexes) /\
  forall i, i ∈ normalizeLinuxSubnetIndexes indexes <-> i ∈ indexes /\ 0 <= i <= 255.
Proof.
  split; [apply compact_sorted, sort_ints_sorted|]. intros i. unfold normalizeLinuxSubnetIndexes.
  rewrite elem_of_compact, elem_of_sort_ints, list_elem_of_filter. unfold in_range, MaxSubnetIndex.
  split; intros [H1 H2]; bool_to_prop; (split; [done || lia|done || lia]).
Qed.

(** The firewall plan is a function of the set of subnets: order, duplicates
    and out-of-range indexes make no difference, and the plan holds exactly the
    three rules (masquerade, forward in, forward out) of each subnet. *)
Theorem nft_plan_canonical l1 l2 :
  (forall i, 0 <= i <= 255 -> i ∈ l1 <-> i ∈ l2) ->
  buildLinuxNFTPlan l1 = buildLinuxNFTPlan l2 /\
  forall rule, rule ∈ rules (buildLinuxNFTPlan l1) <-> exists i, i ∈ l1 /\ 0 <= i <= 255 /\ rule ∈ subnet_rules i.
Proof.
  intros Heq. assert (normalizeLinuxSubnetIndexes l1 = normalizeLinuxSubnetIndexes l2) as En.
  { destruct (normalize_spec l1) as [S1 M1]. destruct (normalize_spec l2) as [S2 M2].
    apply sorted_lt_ext; [done..|]. intros i. rewrite M1, M2. split; intros [? ?]; split; auto; by apply Heq. }
  unfold normalizeLinuxSubnetIndexes in En. unfold buildLinuxNFTPlan. cbv zeta. rewrite En. split; [done|].
  intros rule. cbn [rules]. rewrite <- En. rewrite list_elem_of_bind. destruct (normalize_spec l1) as [_ M1].
  unfold normalizeLinuxSubnetIndexes in M1. setoid_rewrite M1. naive_solver.
Qed.

(** ** Sequencing *)

Section Sequencing.
Context {W E F : Type} `{linuxNetworkOps W E F}.

Lemma net_bind_ok {A B} (m : @net W E A) (k : A -> @net W E B) w b w' :
  net_bind m k w = (Ok b, w') -> exists a w1, m w = (Ok a, w1) /\ k a w1 = (Ok b, w').
Proof. unfold net_bind. destruct (m w) as [[a|e] w1]; [eauto|done]. Qed.

Lemma op_ok {A} (f : W -> result E A * W) w a w' : op f w = (Ok a, w') -> f w = (Ok a, w').
Proof. unfold op. destruct (f w) as [[x|e] w1]; simpl; [|done]. by intros [= -> ->]. Qed.

(** An operation can only fail as an operation. *)
Lemma op_err {A} (f : W -> result E A * W) w e w' : op f w = (Err e, w') -> exists e', e = OpFailed e'.
Proof. unfold op. destruct (f w) as [[x|e0] w1]; simpl; [done|]. intros [= <- _]. eauto. Qed.

Lemma net_bind_err {A B} (m : @net W E A) (k : A -> @net W E B) w e w' :
  net_bind m k w = (Err e, w') -> m w = (Err e, w') \/ exists a w1, m w = (Ok a, w1) /\ k a w1 = (Err e, w').
Proof. unfold net_bind. destruct (m w) as [[a|e0] w1]; [eauto|]. intros [= <- <-]. by left. Qed.

Lemma ensureLinuxBridge_err i w e w' : ensureLinuxBridge i w = (Err e, w') -> exists e', e = OpFailed e'.
Proof.
  unfold ensureLinuxBridge. cbv zeta.
  do 4 (intros [?|(? & ? & _ & Hn)]%net_bind_err; [by eapply op_err|revert Hn]). apply op_err.
Qed.

Lemma ensure_bridges_err l w e w' : ensure_bridges l w = (Err e, w') -> exists e', e = OpFailed e'.
Proof.
  revert w. induction l as [|i l IH]; intros w; cbn [ensure_bridges]; [done|].
  intros [?|(? & ? & _ & Hn)]%net_bind_err; [by eapply ensureLinuxBridge_err|by eapply IH].
Qed.

Lemma convergeLinuxSubnets_err l w e w' : convergeLinuxSubnets l w = (Err e, w') -> exists e', e = OpFailed e'.
Proof.
  unfold convergeLinuxSubnets. intros [?|(? & ? & _ & Hn)]%net_bind_err; [by eapply op_err|]. revert Hn.
  intros [?|(? & ? & _ & Hn)]%net_bind_err; [by eapply ensure_bridges_err|]. revert Hn.
  intros [?|(? & ? & _ & Hn)]%net_bind_err; by eapply op_err.
Qed.

Lemma convergeLinuxSubnets_ok l w w' : convergeLinuxSubnets l w = (Ok tt, w') -> exists w1, NFTConverge l w1 = (Ok tt, w').
Proof.
  unfold convergeLinuxSubnets. intros (? & ? & _ & Hn)%net_bind_ok. revert Hn.
  intros (? & ? & _ & Hn)%net_bind_ok. revert Hn. intros (? & w1 & _ & Hn)%net_bind_ok.
  apply op_ok in Hn. eauto.
Qed.

(** Convergence never strips a running cluster.  Unless a back-end operation
    fails, the firewall is converged to a list that contains every configured
    subnet whose bridge or tap the helper already owns, whatever the preflight
    says about it, and otherwise only subnets whose preflight passed; the
    subnets left out are exactly the ones the error names. *)
Theorem convergence_keeps_owned configured w r w' links :
  ListLinks w = Ok links -> convergeLinuxManagedState configured w = (r, w') ->
  (exists e, r = Err (OpFailed e)) \/
  exists w1 desired, NFTConverge desired w1 = (Ok tt, w') /\
    (forall i, i ∈ desired <-> (i ∈ configured /\ 0 <= i <= 255) /\
       (i ∈ managedSubnetIndexes links \/ exists u, preflightLinuxSubnet w i (normalizeLinuxSubnetIndexes configured) = Ok u)) /\
    ((r = Ok tt /\ forall i, i ∈ configured -> 0 <= i <= 255 -> i ∈ desired) \/
     exists skipped, r = Err (SubnetPreflight skipped) /\
       forall i, i ∈ skipped <-> (i ∈ configured /\ 0 <= i <= 255) /\ ~ i ∈ desired).
Proof.
  intros Hlinks. unfold convergeLinuxManagedState. cbv zeta. rewrite Hlinks.
  set (reserved := normalizeLinuxSubnetIndexes configured). set (owned := managedSubnetIndexes links).
  set (desired := filter (fun i => keeps w reserved owned i = true) reserved).
  set (skipped := filter (fun i => keeps w reserved owned i = false) reserved).
  destruct (normalize_spec configured) as [_ Hres]. fold reserved in Hres.
  assert (forall i, i ∈ desired <-> (i ∈ configured /\ 0 <= i <= 255) /\ keeps w reserved owned i = true) as Hdes
    by (intros i; unfold desired; rewrite list_elem_of_filter, Hres; tauto).
  assert (forall i, i ∈ skipped <-> (i ∈ configured /\ 0 <= i <= 255) /\ ~ i ∈ desired) as Hskip.
  { intros i. rewrite Hdes. unfold skipped. rewrite list_elem_of_filter, Hres. destruct (keeps w reserved owned i); naive_solver. }
  unfold net_bind. destruct (convergeLinuxSubnets desired w) as [[[]|e] w1] eqn:Ec.
  2:{ intros [= <- <-]. left. apply convergeLinuxSubnets_err in Ec as [e' ->]. eauto. }
  intros Hr. right. destruct (convergeLinuxSubnets_ok _ _ _ Ec) as [w2 Hnft].
  exists w2, desired. case_bool_decide as Hs; injection Hr as <- <-; (split; [done|]); (split; [|]).
  1,3: intros i; rewrite Hdes; unfold keeps; rewrite orb_true_iff, bool_decide_eq_true;
    destruct (preflightLinuxSubnet w i reserved) as [u|e]; simpl; naive_solver.
  - left. split; [done|]. intros i Hi Hr. destruct (decide (i ∈ desired)); [done|].
    assert (i ∈ skipped) as Hin by (apply Hskip; auto). rewrite Hs in Hin. by apply elem_of_nil in Hin.
  - right. eauto.
Qed.

(** An attachment is ordered.  A tap is handed out only after the preflight
    passed and the firewall was converged, last, to a sorted list that contains
    the subnet and all configured ones, and it is created on the subnet's own
    bridge under its own name. *)
Theorem attachment_ordered configured index clusterName node w f w' :
  startLinuxAttachment configured index clusterName node w = (Ok f, w') ->
  (exists u, preflightLinuxSubnet w index configured = Ok u) /\
  exists w1 w2 desired, NFTConverge desired w1 = (Ok tt, w2) /\ StronglySorted Z.le desired /\
    index ∈ desired /\ (forall i, i ∈ configured -> 0 <= i <= 255 -> i ∈ desired) /\
    CreateTap (tapNameForNode index clusterName node) (bridgeNameForSubnet index) w2 = (Ok f, w').
Proof.
  unfold startLinuxAttachment. destruct (preflightLinuxSubnet w index configured) as [u|e] eqn:Ep; [|done].
  intros (? & ? & _ & Hn)%net_bind_ok. revert Hn. intros (? & w1 & _ & Hn)%net_bind_ok. revert Hn. cbv zeta.
  set (reserved := normalizeLinuxSubnetIndexes configured). destruct (normalize_spec configured) as [Hsort Hmem]. fold reserved in Hsort, Hmem.
  set (desired := if bool_decide (index ∈ reserved) then reserved else sort_ints (reserved ++ [index])).
  intros ([] & w2 & Hnft & Htap)%net_bind_ok. apply op_ok in Hnft, Htap. split; [eauto|].
  exists w1, w2, desired. split; [done|]. split; [|split; [|split]].
  - subst desired. case_head; [|apply sort_ints_sorted].
    clear -Hsort. induction Hsort as [|a l Hl IH Ha]; constructor; [done|].
    eapply Forall_impl; [exact Ha|]. simpl. lia.
  - subst desired. case_bool_decide; [done|]. rewrite elem_of_sort_ints. set_solver.
  - intros i Hi Hr. assert (i ∈ reserved) by (by apply Hmem). subst desired. case_bool_decide; [done|].
    rewrite elem_of_sort_ints. set_solver.
  - done.
Qed.
End Sequencing.

(** ** Witnesses *)

(** A host that records the calls made on it and refuses none. *)
Definition call_log (name : string) (w : list string) : result unit unit * list string := (Ok tt, w ++ [name]).

#[global] Instance log_ops : linuxNetworkOps (list string) unit string := {
  ListLinks _ := Ok [mkLink "br-tbx7" "talos-box:bridge:7" [AddrIPNet (mkIPNet [172; 30; 7; 1] (cidr_mask 24 4))]];
  Route _ _ := Ok no_route;
  EnsureIPv4Forwarding := call_log "forwarding";
  EnsureInterfaceForwarding n := call_log n;
  EnsureManagedTaps _ := call_log "taps";
  EnsureBridge n := call_log n;
  DeleteBridge n w := (Ok true, w ++ [n]);
  EnsureBridgeSTP n _ := call_log n;
  EnsureBridgeAddress n a := call_log a;
  EnsureLinkUp n := call_log n;
  CreateTap n b w := (Ok n, w ++ [n]);
  NFTConverge _ := call_log "nft"
}.

Lemma link_names_roundtrip_witness :
  subnetIndexFromTapName (tapNameForNode 255 "a-rather-long-cluster-name" "worker-17") = Some 255 /\
  (String.length (tapNameForNode 255 "a-rather-long-cluster-name" "worker-17") <= 15)%nat.
Proof.
  destruct (link_names_roundtrip 255 "a-rather-long-cluster-name" "worker-17") as (H1 & H2 & _); [lia|]. split; [exact H1|exact H2].
Defined.

Lemma nft_plan_canonical_witness : buildLinuxNFTPlan [9; 7; 9; 300] = buildLinuxNFTPlan [7; 9].
Proof.
  apply (nft_plan_canonical [9; 7; 9; 300] [7; 9]). intros i Hi. rewrite !elem_of_cons, elem_of_nil. lia.
Defined.

Lemma convergence_keeps_owned_witness :
  (exists e, Ok tt = Err (OpFailed (E := unit) e)) \/
  exists w1 desired, NFTConverge desired w1 = (Ok tt, (convergeLinuxManagedState [9; 7] []).2) /\
    (forall i, i ∈ desired <-> (i ∈ [9; 7] /\ 0 <= i <= 255) /\
       (i ∈ managedSubnetIndexes [mkLink "br-tbx7" "talos-box:bridge:7" [AddrIPNet (mkIPNet [172; 30; 7; 1] (cidr_mask 24 4))]] \/
        exists u, preflightLinuxSubnet (W := list string) [] i (normalizeLinuxSubnetIndexes [9; 7]) = Ok u)) /\
    ((Ok (E := net_error unit) tt = Ok tt /\ forall i, i ∈ [9; 7] -> 0 <= i <= 255 -> i ∈ desired) \/
     exists skipped, Ok tt = Err (SubnetPreflight (E := unit) skipped) /\
       forall i, i ∈ skipped <-> (i ∈ [9; 7] /\ 0 <= i <= 255) /\ ~ i ∈ desired).
Proof.
  apply (convergence_keeps_owned (W := list string) [9; 7] [] (Ok tt) _); [reflexivity|].
  vm_compute. reflexivity.
Defined.

Lemma attachment_ordered_witness : exists u, preflightLinuxSubnet (W := list string) [] 9 [7] = Ok u.
Proof.
  refine (proj1 (attachment_ordered (W := list string) [7] 9 "dev" "dev-cp-1" [] _ _ _)). vm_compute. reflexivity.
Defined.
