(* ===== verification/Dhcp.v ===== *)
(** * DHCP service of the Linux helper ([internal/helper/dhcp.go], [dhcp_linux.go])

    [buildDHCPReply] answers a client from the reservation table; the packet
    library is a parameter, seen through the fields the code reads and sets.
    [linuxDHCPManager] keeps one listener per bridged subnet; sockets are ids in
    the set [open_], so that a leaked listener is visible. *)

From stdpp Require Import base list gmap strings sorting.
From Stdlib Require Import ZArith Lia.
From S2P Require Import Prelude GoStrings GoNet Cluster Subnet LinuxNet.

Local Open Scope Z_scope.

(** ** Replies *)

Inductive MessageType := Discover | Offer | Request | Decline | Ack | Nak | Release_ | Inform.

#[global] Instance MessageType_eq_dec : EqDecision MessageType.
Proof. solve_decision. Defined.

(** What the code reads of a request; an absent option is [nil]. *)
Record dhcp_packet := mkPacket {
  ClientHWAddr : HardwareAddr;
  p_MessageType : MessageType;
  ServerIdentifier : IP;
  RequestedIPAddress : IP;
  ClientIPAddr : IP
}.

(** What the code sets in a reply. *)
Record dhcp_reply := mkReply {
  r_MessageType : MessageType;
  r_YourIP : IP;
  r_ServerIP : IP;
  r_ServerIdentifier : IP;
  r_SubnetMask : option (list Z);
  r_Router : option IP;
  r_DNS : option IP;
  r_LeaseTime : option Z
}.

(** 24 h in nanoseconds *)
Definition dhcpLeaseDuration : Z := 24 * 3600 * 10 ^ 9.

Definition IPv4zero : IP := v4InV6Prefix ++ [0; 0; 0; 0].

Section Reply.
Context {E : Type}.
(** [dhcpv4.NewReplyFromRequest] fails or not. *)
Context (NewReplyFromRequest : dhcp_packet -> option E).

Definition newDHCPReply (request : dhcp_packet) (messageType : MessageType) (assignedIP gateway : IP) : result E dhcp_reply :=
  match NewReplyFromRequest request with
  | Some e => Err e
  | None =>
      if decide (messageType = Nak)
      then Ok (mkReply messageType assignedIP gateway gateway None None None None)
      else Ok (mkReply messageType assignedIP gateway gateway (Some (cidr_mask 24 4)) (Some gateway) (Some gateway)
                 (Some dhcpLeaseDuration))
  end.

(** [None] is no reply at all. *)
Definition buildDHCPReply (request : dhcp_packet) (reservations : ReservationTable) (subnetIndex : Z)
  : result E (option dhcp_reply) :=
  match Lookup reservations (mac_string (ClientHWAddr request)) with
  | None => Ok None
  | Some reservation =>
      if negb (r_SubnetIndex reservation =? subnetIndex) then Ok None
      else
        let gateway := parse_ip4 (Gateway subnetIndex) in
        match p_MessageType request with
        | Discover => Some <$> newDHCPReply request Offer (r_IP reservation) gateway
        | Request =>
            if negb (bool_decide (ServerIdentifier request = [])) && negb (ip_equal (ServerIdentifier request) gateway)
            then Ok None
            else
              let requested :=
                if bool_decide (RequestedIPAddress request = []) || ip_equal (RequestedIPAddress request) IPv4zero
                then ClientIPAddr request else RequestedIPAddress request in
              if negb (ip_equal requested (r_IP reservation))
              then Some <$> newDHCPReply request Nak IPv4zero gateway
              else Some <$> newDHCPReply request Ack (r_IP reservation) gateway
        | _ => Ok None
        end
  end.
End Reply.

(** ** Listeners *)

Record dhcpEntry := mkEntry { listener : Z; e_ifindex : Z }.

(** [open_] holds the sockets that are bound, [next] the next socket id. *)
Record linuxDHCPManager := mkManager { servers : gmap Z dhcpEntry; open_ : gset Z; next : Z }.

Definition newPlatformDHCPManager : linuxDHCPManager := mkManager ∅ ∅ 0.

Inductive dhcp_error := ReservationsInvalid (err : cluster_error) | StopFailed (subnet : Z) | ListenFailed (subnet : Z).

Section Manager.
(** The host: interface indexes, whether a bind succeeds, whether a close does. *)
Context (ifindex : string -> option Z) (listen_ok : Z -> bool) (close_ok : Z -> bool).

Definition with_servers (f : gmap Z dhcpEntry -> gmap Z dhcpEntry) (m : linuxDHCPManager) : linuxDHCPManager :=
  mkManager (f (servers m)) (open_ m) (next m).

(** A close that fails leaves the socket bound. *)
Definition closeDHCPListener (l : Z) (m : linuxDHCPManager) : bool * linuxDHCPManager :=
  if close_ok l then (true, mkManager (servers m) (open_ m ∖ {[l]}) (next m)) else (false, m).

Definition closeDHCPEntries (entries : gmap Z dhcpEntry) (m : linuxDHCPManager) : linuxDHCPManager :=
  foldl (fun m e => (closeDHCPListener (listener e) m).2) m (map_to_list entries).*2.

(** Bind a listener for [subnet] and note it among the started ones. *)
Definition start_listener (subnet index : Z) (started : gmap Z dhcpEntry) (m : linuxDHCPManager)
  : result dhcp_error (gmap Z dhcpEntry) * linuxDHCPManager :=
  if listen_ok subnet
  then (Ok (<[subnet := mkEntry (next m) index]> started), mkManager (servers m) (open_ m ∪ {[next m]}) (next m + 1))
  else (Err (ListenFailed subnet), closeDHCPEntries started m).

(** Close and forget the running listener of [subnet]. *)
Definition stop_listener (subnet : Z) (e : dhcpEntry) (started : gmap Z dhcpEntry) (m : linuxDHCPManager)
  : result dhcp_error unit * linuxDHCPManager :=
  let '(ok, m) := closeDHCPListener (listener e) m in
  if ok then (Ok tt, with_servers (delete subnet) m) else (Err (StopFailed subnet), closeDHCPEntries started m).

(** The body of the first loop. *)
Definition converge_subnet (subnet : Z) (started : gmap Z dhcpEntry) (m : linuxDHCPManager)
  : result dhcp_error (gmap Z dhcpEntry) * linuxDHCPManager :=
  match ifindex (bridgeNameForSubnet subnet) with
  | None =>
      match servers m !! subnet with
      | None => (Ok started, m)
      | Some e => let '(r, m) := stop_listener subnet e started m in
                  match r with Ok _ => (Ok started, m) | Err err => (Err err, m) end
      end
  | Some index =>
      match servers m !! subnet with
      | None => start_listener subnet index started m
      | Some e =>
          if e_ifindex e =? index then (Ok started, m)
          else let '(r, m) := stop_listener subnet e started m in
               match r with Ok _ => start_listener subnet index started m | Err err => (Err err, m) end
      end
  end.

Fixpoint converge_loop (desired : list Z) (started : gmap Z dhcpEntry) (m : linuxDHCPManager)
  : result dhcp_error (gmap Z dhcpEntry) * linuxDHCPManager :=
  match desired with
  | [] => (Ok started, m)
  | subnet :: rest =>
      let '(r, m) := converge_subnet subnet started m in
      match r with
      | Ok started => converge_loop rest started m
      | Err e => (Err e, m)
      end
  end.

(** The second loop, over the servers in some order: a listener no longer wanted
    is closed; an error returns at once. *)
Fixpoint drop_loop (desired : list Z) (entries : list (Z * dhcpEntry)) (m : linuxDHCPManager)
  : result dhcp_error unit * linuxDHCPManager :=
  match entries with
  | [] => (Ok tt, m)
  | (subnet, e) :: rest =>
      if decide (subnet ∈ desired) then drop_loop desired rest m
      else let '(ok, m) := closeDHCPListener (listener e) m in
           if ok then drop_loop desired rest (with_servers (delete subnet) m) else (Err (StopFailed subnet), m)
  end.

Definition desired_subnets (clusters : list Cluster) (extra : list Z) : list Z :=
  normalizeLinuxSubnetIndexes ((c_SubnetIndex <$> clusters) ++ extra).

Definition Converge (clusters : list Cluster) (extra : list Z) (m : linuxDHCPManager)
  : result dhcp_error unit * linuxDHCPManager :=
  match NewReservationTable clusters with
  | Err e => (Err (ReservationsInvalid e), m)
  | Ok _ =>
      let desired := desired_subnets clusters extra in
      let '(r, m) := converge_loop desired ∅ m in
      match r with
      | Err e => (Err e, m)
      | Ok started =>
          let '(r, m) := drop_loop desired (map_to_list (servers m)) m in
          match r with
          | Err e => (Err e, m)
          | Ok _ => (Ok tt, with_servers (fun s => started ∪ s) m)
          end
      end
  end.

Definition Release (subnet : Z) (m : linuxDHCPManager) : result dhcp_error unit * linuxDHCPManager :=
  match servers m !! subnet with
  | None => (Ok tt, m)
  | Some e =>
      let '(ok, m) := closeDHCPListener (listener e) (with_servers (delete subnet) m) in
      (if ok then Ok tt else Err (StopFailed subnet), m)
  end.

(** [Close] closes every listener and joins the errors: the subnets that failed. *)
Definition Close (m : linuxDHCPManager) : list Z * linuxDHCPManager :=
  foldl (fun '(failed, m) '(subnet, e) =>
    let '(ok, m) := closeDHCPListener (listener e) m in
    ((if ok then failed else failed ++ [subnet]), with_servers (delete subnet) m))
    ([], m) (map_to_list (servers m)).
End Manager.

(** ** Lemmas on listeners *)

(** The entries [U] account for the open sockets, one each. *)
Definition accounted (U : gmap Z dhcpEntry) (opened : gset Z) (nxt : Z) : Prop :=
  (forall l, l ∈ opened <-> exists i e, U !! i = Some e /\ listener e = l) /\
  (forall i j e e', U !! i = Some e -> U !! j = Some e' -> listener e = listener e' -> i = j) /\
  (forall l, l ∈ opened -> l < nxt).

Lemma accounted_delete U opened nxt i e :
  accounted U opened nxt -> U !! i = Some e -> accounted (delete i U) (opened ∖ {[listener e]}) nxt.
Proof.
  intros (Ha & Hinj & Hn) Hi. split; [|split].
  - intros l. rewrite elem_of_difference, elem_of_singleton, Ha. split.
    + intros ((j & e' & Hj & <-) & Hne). exists j, e'. split; [|done]. rewrite lookup_delete_ne; [done|].
      intros <-. simplify_eq.
    + intros (j & e' & [Hne Hj]%lookup_delete_Some & <-). split; [eauto|]. intros E. apply Hne. by eapply Hinj.
  - intros j k e1 e2 [_ Hj]%lookup_delete_Some [_ Hk]%lookup_delete_Some. eauto.
  - intros l [Hl _]%elem_of_difference. auto.
Qed.

Lemma accounted_insert U opened nxt i index :
  accounted U opened nxt -> U !! i = None ->
  accounted (<[i := mkEntry nxt index]> U) (opened ∪ {[nxt]}) (nxt + 1).
Proof.
  intros (Ha & Hinj & Hn) Hi.
  assert (forall j e, U !! j = Some e -> listener e < nxt) as Hlt by (intros j e Hj; apply Hn, Ha; eauto).
  split; [|split].
  - intros l. rewrite elem_of_union, elem_of_singleton, Ha. split.
    + intros [(j & e & Hj & <-)| ->].
      * exists j, e. split; [|done]. rewrite lookup_insert_ne; [done|]. intros <-. congruence.
      * exists i, (mkEntry nxt index). by rewrite lookup_insert_eq.
    + intros (j & e & Hj & <-). rewrite lookup_insert in Hj. case_decide; [injection Hj as <-; by right|]. left. eauto.
  - intros j k e1 e2. rewrite !lookup_insert. do 2 case_decide; subst; intros H1 H2 E; simplify_eq; try done.
    + apply Hlt in H2. simpl in E. lia.
    + apply Hlt in H1. simpl in E. lia.
    + eauto.
  - intros l [Hl| ->%elem_of_singleton]%elem_of_union; [|lia]. apply Hn in Hl. lia.
Qed.

Section ManagerFacts.
Context (ifindex : string -> option Z) (listen_ok : Z -> bool) (close_ok : Z -> bool).
Implicit Types (m : linuxDHCPManager) (started : gmap Z dhcpEntry).

Definition entries m started : gmap Z dhcpEntry := started ∪ servers m.
Definition loop_ok m started : Prop := started ##ₘ servers m /\ accounted (entries m started) (open_ m) (next m).

(** The subnet has an up-to-date listener exactly when its bridge exists. *)
Definition served (U : gmap Z dhcpEntry) (i : Z) : Prop :=
  match ifindex (bridgeNameForSubnet i) with
  | Some index => exists e, U !! i = Some e /\ e_ifindex e = index
  | None => U !! i = None
  end.

Lemma stop_listener_ok subnet e started m m' :
  loop_ok m started -> servers m !! subnet = Some e -> stop_listener close_ok subnet e started m = (Ok tt, m') ->
  loop_ok m' started /\ entries m' started = delete subnet (entries m started) /\ servers m' !! subnet = None.
Proof.
  intros [Hd Ha] Hs. unfold stop_listener, closeDHCPListener. destruct (close_ok (listener e)); [|done].
  intros [= <-]. assert (started !! subnet = None) as Hn by (eapply map_disjoint_Some_r; eauto).
  assert (entries (with_servers (delete subnet) (mkManager (servers m) (open_ m ∖ {[listener e]}) (next m))) started
    = delete subnet (entries m started)) as E.
  { unfold entries. simpl. rewrite delete_union, (delete_id started) by done. done. }
  split; [split|split; [exact E|simpl; apply lookup_delete_eq]].
  - simpl. by apply map_disjoint_delete_r.
  - rewrite E. simpl. apply accounted_delete; [done|]. unfold entries. by rewrite lookup_union_r.
Qed.

Lemma start_listener_ok subnet index started started' m m' :
  loop_ok m started -> entries m started !! subnet = None ->
  start_listener listen_ok close_ok subnet index started m = (Ok started', m') ->
  loop_ok m' started' /\ entries m' started' = <[subnet := mkEntry (next m) index]> (entries m started).
Proof.
  intros [Hd Ha] Hn. unfold start_listener. case_head; [|done]. intros [= <- <-].
  unfold entries in Hn. apply lookup_union_None in Hn as [Hn1 Hn2]. split; [split|].
  - simpl. by apply map_disjoint_insert_l_2.
  - unfold entries. simpl. rewrite <- insert_union_l. apply accounted_insert; [done|]. by apply lookup_union_None.
  - unfold entries. simpl. by rewrite <- insert_union_l.
Qed.

Lemma converge_subnet_ok subnet started started' m m' :
  loop_ok m started -> started !! subnet = None ->
  converge_subnet ifindex listen_ok close_ok subnet started m = (Ok started', m') ->
  loop_ok m' started' /\ served (entries m' started') subnet /\
  (forall i, i <> subnet -> entries m' started' !! i = entries m started !! i) /\
  (forall i, i <> subnet -> started' !! i = started !! i).
Proof.
  intros Hok Hns. unfold converge_subnet, served.
  assert (forall e, servers m !! subnet = Some e -> entries m started !! subnet = Some e) as Hent
    by (intros e He; unfold entries; by rewrite lookup_union_r).
  destruct (ifindex (bridgeNameForSubnet subnet)) as [index|].
  - destruct (servers m !! subnet) as [e|] eqn:Es.
    + destruct (e_ifindex e =? index) eqn:Ei; bool_to_prop.
      { intros [= <- <-]. split; [done|]. split; [eauto|]. auto. }
      destruct (stop_listener close_ok subnet e started m) as [[[]|err] m1] eqn:Est; [|done].
      destruct (stop_listener_ok _ _ _ _ _ Hok Es Est) as (Hok1 & E1 & _). intros Hst.
      assert (entries m1 started !! subnet = None) as Hn1 by (rewrite E1; apply lookup_delete_eq).
      destruct (start_listener_ok _ _ _ _ _ _ Hok1 Hn1 Hst) as [Hok2 E2]. split; [done|]. rewrite E2, E1.
      split; [eexists; split; [apply lookup_insert_eq|done]|]. split.
      * intros i Hi. by rewrite lookup_insert_ne, lookup_delete_ne.
      * intros i Hi. unfold start_listener in Hst. case_head_in Hst; [|done]. injection Hst as <- _. by rewrite lookup_insert_ne.
    + intros Hst. assert (entries m started !! subnet = None) as Hn by by apply lookup_union_None.
      destruct (start_listener_ok _ _ _ _ _ _ Hok Hn Hst) as [Hok2 E2]. split; [done|]. rewrite E2.
      split; [eexists; split; [apply lookup_insert_eq|done]|]. split.
      * intros i Hi. by rewrite lookup_insert_ne.
      * intros i Hi. unfold start_listener in Hst. case_head_in Hst; [|done]. injection Hst as <- _. by rewrite lookup_insert_ne.
  - destruct (servers m !! subnet) as [e|] eqn:Es.
    + destruct (stop_listener close_ok subnet e started m) as [[[]|err] m1] eqn:Est; [|done]. intros [= <- <-].
      destruct (stop_listener_ok _ _ _ _ _ Hok Es Est) as (Hok1 & E1 & _). split; [done|]. rewrite E1.
      split; [apply lookup_delete_eq|]. split; [|done]. intros i Hi. by rewrite lookup_delete_ne.
    + intros [= <- <-]. split; [done|]. split; [by apply lookup_union_None|]. auto.
Qed.

Lemma converge_loop_ok desired started started' m m' :
  NoDup desired -> (forall i, i ∈ desired -> started !! i = None) -> loop_ok m started ->
  converge_loop ifindex listen_ok close_ok desired started m = (Ok started', m') ->
  loop_ok m' started' /\ (forall i, i ∈ desired -> served (entries m' started') i) /\
  (forall i, i ∉ desired -> entries m' started' !! i = entries m started !! i) /\
  (forall i, i ∉ desired -> started' !! i = started !! i).
Proof.
  intros Hnd. revert started m. induction desired as [|i desired IH]; intros started m Hs Hok; cbn [converge_loop].
  { intros [= <- <-]. split; [done|]. split; [set_solver|auto]. }
  apply NoDup_cons in Hnd as [Hni Hnd].
  destruct (converge_subnet _ _ _ i started m) as [[started1|err] m1] eqn:Ec; [|done].
  destruct (converge_subnet_ok _ _ _ _ _ Hok (Hs i ltac:(left)) Ec) as (Hok1 & Hserved & Hfr & Hst). intros H.
  assert (forall j, j ∈ desired -> started1 !! j = None) as Hs1.
  { intros j Hj. assert (j <> i) by (intros ->; done). rewrite Hst by done. apply Hs. by right. }
  destruct (IH Hnd started1 m1 Hs1 Hok1 H) as (Hok2 & Hserved2 & Hfr2 & Hst2). split; [done|]. split; [|split].
  - intros j [->|Hj]%elem_of_cons; [|auto]. unfold served in *. by rewrite Hfr2.
  - intros j Hj. apply not_elem_of_cons in Hj as [? ?]. by rewrite Hfr2, Hfr.
  - intros j Hj. apply not_elem_of_cons in Hj as [? ?]. by rewrite Hst2, Hst.
Qed.

Lemma drop_loop_ok desired l started m m' :
  NoDup l.*1 -> (forall i e, (i, e) ∈ l -> servers m !! i = Some e) -> loop_ok m started ->
  drop_loop close_ok desired l m = (Ok tt, m') ->
  loop_ok m' started /\ forall i, servers m' !! i = if decide (i ∈ l.*1 /\ i ∉ desired) then None else servers m !! i.
Proof.
  revert m. induction l as [|[i e] l IH]; intros m Hnd Hl Hok; cbn [drop_loop].
  { intros [= <-]. split; [done|]. intros j. rewrite decide_False; [done|]. set_solver. }
  cbn in Hnd. apply NoDup_cons in Hnd as [Hni Hnd]. case_decide as Hd.
  - intros H. assert (forall j e', (j, e') ∈ l -> servers m !! j = Some e') as Hl' by (intros; apply Hl; by right).
    destruct (IH m Hnd Hl' Hok H) as [Hok' Hs]. split; [done|].
    intros j. rewrite Hs. change (((i, e) :: l).*1) with (i :: l.*1).
    destruct (decide (j ∈ l.*1 /\ j ∉ desired)) as [[H1 H2]|Hn];
      [rewrite decide_True by (split; [by right|done])|rewrite decide_False; [done|]]; [done|].
    intros [H1 H2]. apply Hn. split; [|done]. apply elem_of_cons in H1 as [->|]; [done|done].
  - pose proof (Hl i e ltac:(left)) as Hi.
    destruct (closeDHCPListener close_ok (listener e) m) as [ok m1] eqn:Ec. destruct ok; [|done]. intros H.
    destruct (stop_listener_ok i e started m (with_servers (delete i) m1) Hok Hi) as (Hok1 & _ & _).
    { unfold stop_listener. by rewrite Ec. }
    assert (servers m1 = servers m) as E1.
    { unfold closeDHCPListener in Ec. case_head_in Ec; [|done]. by injection Ec as <-. }
    destruct (IH (with_servers (delete i) m1) Hnd) as [Hok' Hs]; [|done|done|].
    { intros j e' Hj. simpl. rewrite E1, lookup_delete_ne; [apply Hl; by right|]. intros <-.
      apply Hni. apply list_elem_of_fmap. by exists (i, e'). }
    split; [done|]. intros j. rewrite Hs. cbn [servers with_servers]. rewrite E1, lookup_delete. change (((i, e) :: l).*1) with (i :: l.*1).
    destruct (decide (j = i)) as [->|Hne].
    + rewrite (decide_True (P := i ∈ i :: l.*1 /\ i ∉ desired)) by (split; [left|done]).
      rewrite (decide_True (P := i = i)) by done. by case_decide.
    + rewrite (decide_False (P := i = j)) by congruence.
      destruct (decide (j ∈ l.*1 /\ j ∉ desired)) as [[H1 H2]|Hn];
        [rewrite decide_True by (split; [by right|done])|rewrite decide_False; [done|]]; [done|].
      intros [H1 H2]. apply Hn. split; [|done]. by apply elem_of_cons in H1 as [|].
Qed.
End ManagerFacts.

(** ** Theorems *)

(** The running listeners are exactly the sockets that are open. *)
Definition manager_ok (m : linuxDHCPManager) : Prop := accounted (servers m) (open_ m) (next m).

(** A successful convergence leaves exactly one listener per wanted subnet
    whose bridge exists, bound to the bridge's current interface index, none for
    any other subnet, and no socket open that is not one of them, even where
    bridges vanished or were recreated. *)
Theorem Converge_exact ifindex listen_ok close_ok clusters extra m m' :
  manager_ok m -> Converge ifindex listen_ok close_ok clusters extra m = (Ok tt, m') ->
  manager_ok m' /\
  forall i, match servers m' !! i with
            | Some e => i ∈ desired_subnets clusters extra /\ ifindex (bridgeNameForSubnet i) = Some (e_ifindex e)
            | None => i ∈ desired_subnets clusters extra -> ifindex (bridgeNameForSubnet i) = None
            end.
Proof.
  intros Hm. unfold Converge. destruct (NewReservationTable clusters); [|done]. cbv zeta.
  set (desired := desired_subnets clusters extra).
  assert (NoDup desired) as Hnd by apply sorted_lt_NoDup, normalize_spec.
  assert (loop_ok m ∅) as Hok by (split; [apply map_disjoint_empty_l|unfold entries; by rewrite (left_id_L ∅ (∪))]).
  destruct (converge_loop _ _ _ desired ∅ m) as [[started|err] m1] eqn:Ec; [|done].
  destruct (converge_loop_ok ifindex listen_ok close_ok desired ∅ started m m1 Hnd ltac:(done) Hok Ec) as (Hok1 & Hserved & _ & Hst).
  destruct (drop_loop close_ok desired _ m1) as [[[]|err] m2] eqn:Ed; [|done].
  destruct (drop_loop_ok close_ok desired (map_to_list (servers m1)) started m1 m2) as (Hok2 & Hs2);
    [apply NoDup_fst_map_to_list|by intros i e; rewrite elem_of_map_to_list|done|done|].
  intros [= <-]. split; [exact (proj2 Hok2)|]. intros i. simpl. fold (entries m2 started).
  assert (forall j, j ∈ desired -> entries m2 started !! j = entries m1 started !! j) as Hsame.
  { intros j Hj. unfold entries. rewrite !lookup_union, Hs2, decide_False by tauto. done. }
  destruct (decide (i ∈ desired)) as [Hi|Hi].
  - rewrite Hsame by done. specialize (Hserved i Hi). unfold served in Hserved.
    destruct (ifindex (bridgeNameForSubnet i)) as [idx|]; [destruct Hserved as (e & -> & <-); split; done|by rewrite Hserved].
  - unfold entries. rewrite lookup_union, Hst, lookup_empty, Hs2 by done.
    destruct (servers m1 !! i) as [e|] eqn:Ei; [|case_decide; simpl; intros Hin; by destruct Hi].
    rewrite decide_True; [simpl; intros Hin; by destruct Hi|]. split; [|done]. apply list_elem_of_fmap. exists (i, e). split; [done|].
    by apply elem_of_map_to_list.
Qed.

(** A client gets the address reserved for it and nothing else.  A reply is
    sent only to a MAC of the table that is reserved on this very subnet; an
    offer answers a discover and an ack a request, both with the reserved
    address; a request for any other address is refused with a nak that assigns
    nothing; and a request meant for another server is left alone. *)
Theorem dhcp_reply_reserved {E} (NewReplyFromRequest : dhcp_packet -> option E) request t subnet reply :
  buildDHCPReply NewReplyFromRequest request t subnet = Ok (Some reply) ->
  exists res, Lookup t (mac_string (ClientHWAddr request)) = Some res /\ r_SubnetIndex res = subnet /\
    r_ServerIdentifier reply = parse_ip4 (Gateway subnet) /\
    let requested := if bool_decide (RequestedIPAddress request = []) || ip_equal (RequestedIPAddress request) IPv4zero
                     then ClientIPAddr request else RequestedIPAddress request in
    match r_MessageType reply with
    | Offer => p_MessageType request = Discover /\ r_YourIP reply = r_IP res
    | Ack => p_MessageType request = Request /\ r_YourIP reply = r_IP res /\ ip_equal requested (r_IP res) = true /\
             (ServerIdentifier request = [] \/ ip_equal (ServerIdentifier request) (parse_ip4 (Gateway subnet)) = true)
    | Nak => p_MessageType request = Request /\ r_YourIP reply = IPv4zero /\ ip_equal requested (r_IP res) = false
    | _ => False
    end.
Proof.
  unfold buildDHCPReply. destruct (Lookup t _) as [res|]; [|done]. destruct (r_SubnetIndex res =? subnet) eqn:Es; [|done].
  bool_to_prop. cbn [negb]. cbv zeta. intros H. exists res. split; [done|]. split; [done|].
  assert (forall ty ip, Some <$> newDHCPReply NewReplyFromRequest request ty ip (parse_ip4 (Gateway subnet)) = Ok (Some reply) ->
    r_ServerIdentifier reply = parse_ip4 (Gateway subnet) /\ r_MessageType reply = ty /\ r_YourIP reply = ip) as Hnew.
  { intros ty ip. unfold newDHCPReply. destruct (NewReplyFromRequest request); [done|]. case_decide; intros [= <-]; done. }
  destruct (p_MessageType request); try discriminate H.
  - apply Hnew in H as (-> & -> & ->). done.
  - destruct (negb _ && negb _) eqn:Esrv; [done|]. destruct (ip_equal _ (r_IP res)) eqn:Eq; cbn [negb] in H.
    + apply Hnew in H as (-> & -> & ->). repeat split; try done.
      apply andb_false_iff in Esrv as [Esrv|Esrv]; bool_to_prop; auto.
    + apply Hnew in H as (-> & -> & ->). done.
Qed.

(** ** Witnesses and a counterexample *)

Definition demo_ifindex (name : string) : option Z := if String.eqb name "br-tbx7" then Some 12 else None.

Lemma Converge_exact_witness :
  manager_ok (Converge demo_ifindex (fun _ => true) (fun _ => true) [demo_cluster] [9] newPlatformDHCPManager).2.
Proof.
  refine (proj1 (Converge_exact demo_ifindex (fun _ => true) (fun _ => true) [demo_cluster] [9] newPlatformDHCPManager _ _ _)).
  - split; [|split]; simpl.
    + intros l. split; [set_solver|]. intros (i & e & Hi & _). by rewrite lookup_empty in Hi.
    + intros i j e e' Hi. by rewrite lookup_empty in Hi.
    + set_solver.
  - vm_compute. reflexivity.
Defined.

Definition demo_reservations : ReservationTable :=
  {[ "52:54:00:00:00:01" := mkReservation [82; 84; 0; 0; 0; 1] [172; 30; 7; 2] 7 ]}.
Definition demo_request : dhcp_packet := mkPacket [82; 84; 0; 0; 0; 1] Request [] [172; 30; 7; 9] [].

(** The client asks for .9 and is refused. *)
Lemma dhcp_reply_reserved_witness :
  exists res, Lookup demo_reservations (mac_string (ClientHWAddr demo_request)) = Some res /\ r_SubnetIndex res = 7.
Proof.
  destruct (dhcp_reply_reserved (fun _ => None (A := unit)) demo_request demo_reservations 7
    (mkReply Nak IPv4zero [172; 30; 7; 1] [172; 30; 7; 1] None None None None)) as (res & H1 & H2 & _);
    [vm_compute; reflexivity|]. exists res. split; [exact H1|exact H2].
Defined.

(** A close that fails in the second loop returns with the listeners just
    started neither recorded nor closed: socket 1 stays open and no entry knows
    it, so the next convergence binds a second one. *)
Example Converge_leaks_started_listener :
  let m := mkManager {[ 3 := mkEntry 0 5 ]} {[ 0 ]} 1 in
  let '(r, m') := Converge demo_ifindex (fun _ => true) (fun l => negb (l =? 0)) [demo_cluster] [] m in
  is_ok r = false /\ 1 ∈ open_ m' /\ map_to_list (servers m') = [(3, mkEntry 0 5)].
Proof. vm_compute. repeat split; auto; discriminate. Qed.
