(* ===== verification/Dns.v ===== *)
(** * The DNS resolver ([internal/dns]: message.go, server.go, resolver.go, forward.go)

    A message is a list of bytes and a name a Go string.  [encodeQuery],
    [parseQuestion], [answer], [errorAnswer] and [parseAnswerIP] are the wire
    codec, [Authority], [zone] and [server_response] the per-query decision of
    the server, [Resolve] the lookup in the cluster list, and [SystemForward]
    the upstream path with the sockets as parameters.  The name loop of
    [parseQuestion] consumes at least one byte per round, so the length of the
    message is enough fuel ([parse_labels_total]). *)

From stdpp Require Import base list strings.
From Stdlib Require Import Ascii ZArith Lia.
From S2P Require Import Prelude GoStrings GoNet Cluster.

Local Open Scope Z_scope.

Definition typeA : Z := 1.
Definition typeSOA : Z := 6.
Definition classIN : Z := 1.
Definition negativeTTL : Z := 5.
Definition flagRecursionAvailable : Z := 0x0080.
Definition DefaultDomainSuffix : string := "k8s.test".

Inductive dns_error :=
| InvalidLabel (label : string)
| NotOneQuestion
| TruncatedName
| BadWireLabel
| TruncatedQuestion
| InvalidResponse
| InvalidAAnswer
| OutOfFuel.

Record question := mkQuestion { q_name : string; q_recordType : Z; q_class : Z; q_end : nat }.

(** ** The wire codec *)

(** One label of [encodeName]'s loop, then the rest. *)
Fixpoint encode_labels (labels : list string) : result dns_error (list Z) :=
  match labels with
  | [] => Ok [0]
  | label :: rest =>
      if bool_decide (String.length label = 0%nat) || bool_decide (63 < String.length label)%nat
      then Err (InvalidLabel label)
      else match encode_labels rest with
           | Ok encoded => Ok (Z.of_nat (String.length label) :: bytes_of_string label ++ encoded)
           | Err e => Err e
           end
  end.

Definition encodeName (name : string) : result dns_error (list Z) :=
  encode_labels (split_on "."%char (trim_suffix name ".")).

Definition encodeQuery (name : string) (id : Z) : result dns_error (list Z) :=
  match encodeName name with
  | Err e => Err e
  | Ok encoded => Ok (put16 id ++ put16 0x0100 ++ put16 1 ++ replicate 6 0 ++ encoded ++ [0; typeA; 0; classIN])
  end.

(** The label loop of [parseQuestion] on [message[offset:]]: the labels read and
    the offset after the root label. *)
Fixpoint parse_labels (fuel : nat) (rest : list Z) (offset : nat) : result dns_error (list string * nat) :=
  match fuel with
  | O => Err OutOfFuel
  | S fuel' =>
      match rest with
      | [] => Err TruncatedName
      | length_ :: rest' =>
          if length_ =? 0 then Ok ([], S offset)
          else if (63 <? length_) || bool_decide (length rest' < Z.to_nat length_)%nat then Err BadWireLabel
          else match parse_labels fuel' (drop (Z.to_nat length_) rest') (S offset + Z.to_nat length_) with
               | Err e => Err e
               | Ok (labels, end_) => Ok (string_of_bytes (take (Z.to_nat length_) rest') :: labels, end_)
               end
      end
  end.

Definition parseQuestion (message : list Z) : result dns_error question :=
  if bool_decide (length message < 12)%nat || negb (u16 message 4 =? 1) then Err NotOneQuestion
  else match parse_labels (S (length message)) (drop 12 message) 12 with
       | Err e => Err e
       | Ok (labels, offset) =>
           if bool_decide (length message < offset + 4)%nat then Err TruncatedQuestion
           else Ok (mkQuestion (join "." labels) (u16 message offset) (u16 message (offset + 2)) (offset + 4))
       end.

(** [nil] when the zone cannot be encoded. *)
Definition authoritySOA (zone : string) : option (list Z) :=
  match encodeName zone, encodeName ("hostmaster." +:+ zone) with
  | Ok owner, Ok mailbox =>
      let rdata := owner ++ mailbox ++ put32 1 ++ put32 3600 ++ put32 600 ++ put32 86400 ++ put32 negativeTTL in
      Some (owner ++ put16 typeSOA ++ put16 classIN ++ put32 negativeTTL ++
            put16 (wrapu 16 (Z.of_nat (length rdata))) ++ rdata)
  | _, _ => None
  end.

(** [PutUint16(message[i:], v)] *)
Definition set16 (message : list Z) (i : nat) (v : Z) : list Z := blit message i (put16 v).

(** The five header fields a response overwrites, counts first 1, 0, 0, 0. *)
Definition response_header (query : list Z) (end_ : nat) (flags : Z) : list Z :=
  set16 (set16 (set16 (set16 (set16 (take end_ query) 2 flags) 4 1) 6 0) 8 0) 10 0.

Definition answer (query : list Z) (lookup : string -> IP) (zone : string) : result dns_error (list Z) :=
  match parseQuestion query with
  | Err e => Err e
  | Ok q =>
      let ip := to4 (lookup (q_name q)) in
      let nameExists := negb (bool_decide (ip = [])) in
      let matched := (q_recordType q =? typeA) && (q_class q =? classIN) && nameExists in
      let flags := Z.lor (Z.lor 0x8400 flagRecursionAvailable) (Z.land (u16 query 2) 0x0100) in
      let flags := if negb matched && negb nameExists then Z.lor flags 3 else flags in
      let response := response_header query (q_end q) flags in
      if negb matched then
        if String.eqb zone "" then Ok response
        else match authoritySOA zone with
             | None => Ok response
             | Some soa => Ok (set16 response 8 1 ++ soa)
             end
      else Ok (set16 response 6 1 ++ [0xc0; 0x0c; 0; typeA; 0; classIN; 0; 0; 0; 30; 0; 4] ++ ip)
  end.

Definition errorAnswer (query : list Z) (rcode : Z) : result dns_error (list Z) :=
  match parseQuestion query with
  | Err e => Err e
  | Ok q =>
      Ok (response_header query (q_end q)
            (Z.lor (Z.lor (Z.lor 0x8000 flagRecursionAvailable) (Z.land (u16 query 2) 0x0100)) (Z.land rcode 0xf)))
  end.

(** The address ([nil] without an answer) and the rcode. *)
Definition parseAnswerIP (message : list Z) (id : Z) : result dns_error (IP * Z) :=
  if bool_decide (length message < 12)%nat || negb (u16 message 0 =? id) || (Z.land (u16 message 2) 0x8000 =? 0)
  then Err InvalidResponse
  else
    let rcode := Z.land (u16 message 2) 0xf in
    match parseQuestion message with
    | Err e => Err e
    | Ok q =>
        if u16 message 6 =? 0 then Ok ([], rcode)
        else
          let offset := q_end q in
          if bool_decide (length message < offset + 16)%nat || negb (at_ message offset =? 0xc0) ||
             negb (u16 message (offset + 2) =? typeA) || negb (u16 message (offset + 10) =? 4)
          then Err InvalidAAnswer
          else Ok (v4InV6Prefix ++ [at_ message (offset + 12); at_ message (offset + 13);
                                    at_ message (offset + 14); at_ message (offset + 15)], rcode)
    end.

(** ** The server *)

(** The predicate [Authority] builds; [domains] is the function it may be given. *)
Definition Authority (domains : option (unit -> list string)) (name : string) : bool :=
  let name := to_lower (trim_suffix name ".") in
  if String.eqb name DefaultDomainSuffix || has_suffix name ("." +:+ DefaultDomainSuffix) then true
  else match domains with
       | None => false
       | Some domains =>
           existsb (fun domain => String.eqb domain "*" || String.eqb name domain || has_suffix name ("." +:+ domain))
             (domains tt)
       end.

Section Server.
Context {E : Type}.

Record Server := mkServer {
  s_lookup : string -> IP;
  s_authoritative : string -> bool;
  s_forward : option (list Z -> result E (list Z))
}.

(** The candidates of [zone]'s loop, [i] from [n] down to 1. *)
Fixpoint zone_loop (authoritative : string -> bool) (labels : list string) (n : nat) : option string :=
  match n with
  | O => None
  | S n' =>
      let candidate := join "." (drop n labels) in
      if authoritative candidate then Some candidate else zone_loop authoritative labels n'
  end.

Definition zone (s : Server) (name : string) : string :=
  let name := to_lower (trim_suffix name ".") in
  let labels := split_on "."%char name in
  default name (zone_loop (s_authoritative s) labels (length labels - 2)).

Definition server_response (s : Server) (query : list Z) : result dns_error (list Z) :=
  match parseQuestion query with
  | Err e => Err e
  | Ok q =>
      if s_authoritative s (q_name q) then answer query (s_lookup s) (zone s (q_name q))
      else match s_forward s with
           | None => answer query (s_lookup s) ""
           | Some forward =>
               match forward query with
               | Err _ => errorAnswer query 2
               | Ok response => Ok response
               end
           end
  end.
End Server.
Arguments Server : clear implicits.
Arguments mkServer {E} _ _ _.

(** ** Lookup in the cluster list *)

Definition domain_of (c : Cluster) : string := to_lower (EffectiveDomain c).

Definition under (name domain : string) : bool := String.eqb name domain || has_suffix name ("." +:+ domain).

(** The owner search; [None] is the [nil] owner with domain [""]. *)
Fixpoint find_owner (name : string) (clusters : list Cluster) (owner : option Cluster) (ownerDomain : string)
  : option Cluster * string :=
  match clusters with
  | [] => (owner, ownerDomain)
  | item :: rest =>
      let domain := domain_of item in
      if bool_decide (String.length domain <= String.length ownerDomain)%nat then find_owner name rest owner ownerDomain
      else if under name domain then find_owner name rest (Some item) domain
      else find_owner name rest owner ownerDomain
  end.

Definition Resolve (name : string) (clusters : list Cluster) (lease : string -> Z -> string) : IP :=
  let name := to_lower (trim_suffix name ".") in
  match find_owner name clusters None "" with
  | (None, _) => []
  | (Some owner, ownerDomain) =>
      if String.eqb name ownerDomain then []
      else if (c_SubnetIndex owner <? 0) || (MaxSubnetIndex <? c_SubnetIndex owner) then []
      else match list_find (fun node => name = to_lower (n_Name node) +:+ "." +:+ ownerDomain) (c_Nodes owner) with
           | Some (_, node) => parse_ip4 (lease (n_MAC node) (c_SubnetIndex owner))
           | None => v4InV6Prefix ++ [172; 30; wrapu 8 (c_SubnetIndex owner); 200]
           end
  end.

(** ** Forwarding *)

(** The lines [bufio.Scanner] yields: a carriage return at the end of a line is
    dropped, a trailing empty line is not yielded, and a line of 64 KiB or more
    stops the scan. *)
Definition MaxScanTokenSize : Z := 65536.

Fixpoint scan_lines (lines : list string) : list string :=
  match lines with
  | [] => []
  | [line] => if String.eqb line "" then [] else
              if (MaxScanTokenSize <=? Z.of_nat (String.length line)) then []
              else [trim_suffix line (String "013" EmptyString)]
  | line :: rest =>
      if (MaxScanTokenSize <=? Z.of_nat (String.length line)) then []
      else trim_suffix line (String "013" EmptyString) :: scan_lines rest
  end.

(** Characters up to the next white space, and the rest. *)
Fixpoint take_field (s : string) : string * string :=
  match s with
  | EmptyString => (EmptyString, EmptyString)
  | String c s' =>
      if existsb (has_prefix s) spaces then (EmptyString, s)
      else let '(w, r) := take_field s' in (String c w, r)
  end.

(** [strings.Fields]; every round takes a byte at least. *)
Fixpoint fields_n (n : nat) (s : string) : list string :=
  match n with
  | O => []
  | S n' =>
      match trim_left_n (String.length s) s with
      | EmptyString => []
      | t => let '(w, r) := take_field t in w :: fields_n n' r
      end
  end.
Definition fields (s : string) : list string := fields_n (String.length s) s.

Definition nameserver_of (line : string) : option string :=
  match fields line with
  | keyword :: value :: _ =>
      if negb (String.eqb keyword "nameserver") || bool_decide (parse_ip value = []) then None else Some value
  | _ => None
  end.

Definition resolverNameServers (content : string) : list string :=
  omap nameserver_of (scan_lines (split_on "010"%char content)).

Inductive exchange_error (E : Type) :=
| InvalidUpstream
| QueryTooLarge
| Exchange (err : E)
| ShortRead.
Arguments InvalidUpstream {E}.
Arguments QueryTooLarge {E}.
Arguments Exchange {E} _.
Arguments ShortRead {E}.

Inductive forward_error (E : Type) :=
| ReadResolvConf (err : E)
| NoNameServers
| AllFailed (errs : list (string * exchange_error E)).
Arguments ReadResolvConf {E} _.
Arguments NoNameServers {E}.
Arguments AllFailed {E} _.

Section Forward.
Context {E : Type}.
(** The file and the two sockets: one datagram for a datagram, and the bytes a
    stream delivers after a frame was written. *)
Context (resolv_conf : result E string).
Context (udp tcp : string -> list Z -> result E (list Z)).

Definition validateForwardedResponse (query response : list Z) : result (exchange_error E) (list Z) :=
  if bool_decide (length query < 2)%nat || bool_decide (length response < 12)%nat ||
     negb (u16 response 0 =? u16 query 0) || (Z.land (u16 response 2) 0x8000 =? 0)
  then Err InvalidUpstream else Ok response.

Definition exchangeUDP (query : list Z) (address : string) : result (exchange_error E) (list Z) :=
  match udp address query with
  | Err e => Err (Exchange e)
  | Ok response => validateForwardedResponse query response
  end.

Definition exchangeTCP (query : list Z) (address : string) : result (exchange_error E) (list Z) :=
  if 65535 <? Z.of_nat (length query) then Err QueryTooLarge
  else match tcp address (put16 (Z.of_nat (length query)) ++ query) with
       | Err e => Err (Exchange e)
       | Ok stream =>
           if bool_decide (length stream < 2)%nat then Err ShortRead
           else let n := Z.to_nat (u16 stream 0) in
                if bool_decide (length stream < 2 + n)%nat then Err ShortRead
                else validateForwardedResponse query (slice stream 2 (2 + n))
       end.

Definition exchangeDNS (query : list Z) (address : string) : result (exchange_error E) (list Z) :=
  match exchangeUDP query address with
  | Err e => Err e
  | Ok response => if Z.land (u16 response 2) 0x0200 =? 0 then Ok response else exchangeTCP query address
  end.

(** [net.JoinHostPort(server, "53")] *)
Definition JoinHostPort53 (host : string) : string :=
  match cut ":"%char host with
  | Some _ => "[" +:+ host +:+ "]:53"
  | None => host +:+ ":53"
  end.

Fixpoint try_servers (query : list Z) (servers : list string) (failed : list (string * exchange_error E))
  : result (forward_error E) (list Z) :=
  match servers with
  | [] => Err (AllFailed failed)
  | server :: rest =>
      match exchangeDNS query (JoinHostPort53 server) with
      | Ok response => Ok response
      | Err e => try_servers query rest (failed ++ [(server, e)])
      end
  end.

Definition SystemForward (query : list Z) : result (forward_error E) (list Z) :=
  match resolv_conf with
  | Err e => Err (ReadResolvConf e)
  | Ok content =>
      let servers := resolverNameServers content in
      if bool_decide (length servers = 0%nat) then Err NoNameServers else try_servers query servers []
  end.
End Forward.

(** ** The label loop *)

(** The fuel is never what stops the loop. *)
Lemma parse_labels_total fuel rest offset : (length rest < fuel)%nat -> parse_labels fuel rest offset <> Err OutOfFuel.
Proof.
  revert rest offset. induction fuel as [|fuel IH]; intros rest offset H; [lia|]. cbn.
  destruct rest as [|n rest']; [done|]. cbn in H. repeat case_head; try done.
  specialize (IH (drop (Z.to_nat n) rest') (S (offset + Z.to_nat n))). rewrite length_drop in IH.
  intros ?. simplify_eq. apply IH; [lia|done].
Qed.

(** The loop reads a prefix and does not look past it. *)
Lemma parse_labels_extent fuel rest offset labels end_ :
  parse_labels fuel rest offset = Ok (labels, end_) ->
  exists pre post, rest = pre ++ post /\ end_ = (offset + length pre)%nat /\
    forall fuel' tail, (length pre <= fuel')%nat -> parse_labels fuel' (pre ++ tail) offset = Ok (labels, end_).
Proof.
  revert rest offset labels. induction fuel as [|fuel IH]; intros rest offset labels H; [done|]. cbn in H.
  destruct rest as [|n rest']; [done|]. destruct (n =? 0) eqn:Hn.
  - simplify_eq. exists [n], rest'. split; [done|]. split; [cbn; lia|].
    intros fuel' tail Hf. destruct fuel'; [cbn in Hf; lia|]. cbn. by rewrite Hn.
  - case_head_in H; [done|]. destruct (parse_labels fuel _ _) as [[ls e]|] eqn:Hp; [|done]. simplify_eq.
    apply IH in Hp as (pre & post & Hd & -> & Hx). bool_to_prop.
    exists (n :: take (Z.to_nat n) rest' ++ pre), post.
    rewrite <- (take_drop (Z.to_nat n) rest') at 1. rewrite Hd.
    assert (length (take (Z.to_nat n) rest') = Z.to_nat n) as Hl by (rewrite length_take; lia).
    split; [cbn; by rewrite <- app_assoc|]. split; [cbn; rewrite length_app; lia|].
    intros fuel' tail Hf. destruct fuel'; [cbn in Hf; lia|]. cbn in Hf |- *. rewrite length_app in Hf.
    replace (n =? 0) with false by lia. rewrite bool_decide_eq_false_2 by (rewrite !length_app; lia).
    replace (63 <? n) with false by lia. cbn [orb].
    rewrite <- app_assoc, drop_app_length', take_app_length' by done.
    by rewrite Hx by lia.
Qed.

Lemma encode_labels_parse labels encoded :
  encode_labels labels = Ok encoded ->
  forall fuel tail offset, (length labels < fuel)%nat ->
    parse_labels fuel (encoded ++ tail) offset = Ok (labels, (offset + length encoded)%nat).
Proof.
  revert encoded. induction labels as [|label labels IH]; intros encoded H fuel tail offset Hf; cbn in H.
  - simplify_eq. destruct fuel; [lia|]. cbn. do 2 f_equal. lia.
  - case_head_in H; [done|]. destruct (encode_labels labels) as [enc|]; [|done]. simplify_eq. bool_to_prop.
    destruct fuel as [|fuel]; [lia|]. cbn [parse_labels app].
    rewrite Nat2Z.id. replace (Z.of_nat (String.length label) =? 0) with false by lia.
    replace (63 <? Z.of_nat (String.length label)) with false by lia.
    rewrite <- (length_bytes_of_string label), <- app_assoc.
    rewrite bool_decide_eq_false_2 by (rewrite length_app; lia). cbn [orb].
    rewrite drop_app_length, take_app_length, (IH _ eq_refl) by (cbn in Hf; lia).
    rewrite string_of_bytes_of_string. do 2 f_equal. cbn. rewrite length_app. lia.
Qed.

Lemma encode_labels_length labels encoded : encode_labels labels = Ok encoded -> (length labels < length encoded)%nat.
Proof.
  revert encoded. induction labels as [|label labels IH]; intros encoded H; cbn in H; [simplify_eq; cbn; lia|].
  case_head_in H; [done|]. destruct (encode_labels labels) as [enc|]; [|done]. simplify_eq.
  specialize (IH _ eq_refl). cbn. rewrite length_app. lia.
Qed.

(** ** Questions *)

(** A question depends on the question section and the question count alone. *)
Lemma parseQuestion_shape query q :
  parseQuestion query = Ok q ->
  exists header section tail, query = header ++ section ++ tail /\ length header = 12%nat /\
    q_end q = (12 + length section)%nat /\ u16 header 4 = 1 /\
    forall header' tail', length header' = 12%nat -> u16 header' 4 = 1 ->
      parseQuestion (header' ++ section ++ tail') = Ok q.
Proof.
  unfold parseQuestion. intros H. case_head_in H; [done|]. bool_to_prop.
  destruct (parse_labels _ _ _) as [[labels off]|] eqn:Hp; [|done]. case_head_in H; [done|]. simplify_eq. bool_to_prop.
  apply parse_labels_extent in Hp as (pre & post & Hd & -> & Hx).
  assert (length (drop 12 query) = length pre + length post)%nat as Hl by (by rewrite Hd, length_app).
  rewrite length_drop in Hl.
  exists (take 12 query), (pre ++ take 4 post), (drop 4 post).
  assert (length (take 12 query) = 12%nat) as Ht by (rewrite length_take; lia).
  assert (query = take 12 query ++ pre ++ post) as Hq by (by rewrite <- Hd, take_drop).
  assert (length (take 4 post) = 4%nat) as H4 by (rewrite length_take; lia).
  split; [by rewrite <- app_assoc, take_drop|]. split; [done|]. split; [cbn; rewrite length_app; lia|].
  split; [rewrite Hq in H1; revert H1; unfold u16; rewrite !at_app by lia; done|].
  intros h' t' Hh Hu. rewrite bool_decide_eq_false_2 by (rewrite length_app; lia).
  replace (u16 (h' ++ (pre ++ take 4 post) ++ t') 4) with 1
    by (rewrite <- Hu; unfold u16; rewrite !at_app by lia; done).
  cbn [orb negb Z.eqb]. rewrite <- app_assoc, drop_app_length', Hx by (rewrite ?length_app; lia).
  rewrite bool_decide_eq_false_2 by (rewrite !length_app; lia).
  rewrite Hq. replace (take 12 query ++ pre ++ post) with ((take 12 query ++ pre) ++ take 4 post ++ drop 4 post)
    by (by rewrite take_drop, <- app_assoc).
  rewrite !(app_assoc h').
  rewrite !u16_window by (rewrite ?length_app; lia).
  by rewrite !length_app, Hh, Ht.
Qed.

(** The response header: the id is kept, the flags and counts are written. *)
Lemma response_header_eq a0 a1 a2 a3 a4 a5 a6 a7 a8 a9 a10 a11 section tail flags :
  response_header ([a0; a1; a2; a3; a4; a5; a6; a7; a8; a9; a10; a11] ++ section ++ tail) (12 + length section) flags =
  [a0; a1] ++ put16 flags ++ [0; 1; 0; 0; 0; 0; 0; 0] ++ section.
Proof.
  unfold response_header.
  replace (take (12 + length section) ([a0; a1; a2; a3; a4; a5; a6; a7; a8; a9; a10; a11] ++ section ++ tail))
    with ([a0; a1; a2; a3; a4; a5; a6; a7; a8; a9; a10; a11] ++ section) by (cbn; by rewrite take_app_length).
  done.
Qed.

Lemma land_bit8 x : Z.land x 0x0100 = 0 \/ Z.land x 0x0100 = 0x0100.
Proof.
  destruct (Z.testbit x 8) eqn:Hb; [right|left]; apply Z.bits_inj'; intros n Hn; rewrite Z.land_spec;
    change 256 with (2 ^ 8); rewrite Z.pow2_bits_eqb by lia; destruct (Z.eqb_spec 8 n) as [<-|]; rewrite ?Hb, ?Z.bits_0; auto using andb_false_r.
Qed.

(** What a client must see for a question. *)
Definition expected (ip : IP) (q : question) : IP * Z :=
  if decide (ip = []) then ([], 3)
  else if decide (q_recordType q = typeA /\ q_class q = classIN) then (v4InV6Prefix ++ ip, 0) else ([], 0).

Lemma to4_cases ip : to4 ip = [] \/ exists a b c d, to4 ip = [a; b; c; d].
Proof.
  unfold to4. do 17 (destruct ip as [|? ip]; [cbn; try case_decide; eauto 6|]); cbn; eauto.
Qed.

Ltac twelve l H := do 12 (destruct l as [|? l]; [discriminate H|]); destruct l; [|discriminate H].

(** A response without answers gives its rcode. *)
Lemma parse_miss a0 a1 f0 f1 ns rest q :
  parseQuestion ([a0; a1; f0; f1; 0; 1; 0; 0; 0; ns; 0; 0] ++ rest) = Ok q -> Z.land (be16 f0 f1) 0x8000 <> 0 ->
  parseAnswerIP ([a0; a1; f0; f1; 0; 1; 0; 0; 0; ns; 0; 0] ++ rest) (be16 a0 a1) = Ok ([], Z.land (be16 f0 f1) 0xf).
Proof.
  intros Hq Hf. unfold parseAnswerIP. rewrite Hq.
  rewrite (bool_decide_eq_false_2 (length _ < 12)%nat) by (rewrite length_app; cbn; lia).
  change (u16 _ 0) with (be16 a0 a1). change (u16 _ 2) with (be16 f0 f1). change (u16 _ 6) with 0.
  rewrite Z.eqb_refl. by replace (Z.land (be16 f0 f1) 0x8000 =? 0) with false by lia.
Qed.

(** A response with one compressed A record gives its address. *)
Lemma parse_hit a0 a1 f0 f1 sec a b c d q :
  let message := [a0; a1; f0; f1; 0; 1; 0; 1; 0; 0; 0; 0] ++ sec ++
                 [0xc0; 0x0c; 0; typeA; 0; classIN; 0; 0; 0; 30; 0; 4; a; b; c; d] in
  parseQuestion message = Ok q -> q_end q = (12 + length sec)%nat -> Z.land (be16 f0 f1) 0x8000 <> 0 ->
  parseAnswerIP message (be16 a0 a1) = Ok (v4InV6Prefix ++ [a; b; c; d], Z.land (be16 f0 f1) 0xf).
Proof.
  intros message Hq He Hf. unfold parseAnswerIP. rewrite Hq, He.
  assert (forall i, at_ message (12 + length sec + i) =
                    at_ [0xc0; 0x0c; 0; typeA; 0; classIN; 0; 0; 0; 30; 0; 4; a; b; c; d] i) as Hat.
  { intros i. unfold message. rewrite (at_app_ge [_; _; _; _; _; _; _; _; _; _; _; _]), (at_app_ge sec) by (cbn; lia).
    f_equal. cbn. lia. }
  unfold u16. rewrite <- !Nat.add_succ_r, !Hat. pose proof (Hat 0%nat) as H0. rewrite Nat.add_0_r in H0. rewrite H0.
  rewrite (bool_decide_eq_false_2 (length _ < 12)%nat), (bool_decide_eq_false_2 (length _ < _ + 16)%nat)
    by (unfold message; rewrite !length_app; cbn; lia).
  change (be16 (at_ message 0) (at_ message 1)) with (be16 a0 a1).
  change (be16 (at_ message 2) (at_ message 3)) with (be16 f0 f1).
  change (be16 (at_ message 6) (at_ message 7)) with 1.
  rewrite Z.eqb_refl. by replace (Z.land (be16 f0 f1) 0x8000 =? 0) with false by lia.
Qed.

Section Answers.
Context (z z0 : Z) (sec : list Z) (q : question) (zone : string).
Context (Hend : q_end q = (12 + length sec)%nat).
Context (Hsection : forall header tail, length header = 12%nat -> u16 header 4 = 1 ->
                      parseQuestion (header ++ sec ++ tail) = Ok q).
Context (flags rc : Z) (Hflags : put16 flags = [0x84; 0x80 + rc] \/ put16 flags = [0x85; 0x80 + rc]).

Let head := [z; z0] ++ put16 flags ++ [0; 1; 0; 0; 0; 0; 0; 0] ++ sec.

(** The three shapes of a miss. *)
Lemma miss_response :
  rc = 0 \/ rc = 3 ->
  exists response,
    (if String.eqb zone "" then Ok head
     else match authoritySOA zone with None => Ok head | Some soa => Ok (set16 head 8 1 ++ soa) end) = (Ok response : result dns_error _) /\
    parseAnswerIP response (be16 z z0) = Ok ([], rc) /\
    (forall soa, authoritySOA zone = Some soa -> zone <> "" -> u16 response 8 = 1 /\ drop (q_end q) response = soa).
Proof using Hend Hsection Hflags.
  intros Hrc.
  assert (forall ns tl, parseAnswerIP ([z; z0] ++ put16 flags ++ [0; 1; 0; 0; 0; ns; 0; 0] ++ sec ++ tl) (be16 z z0) =
                        Ok ([], rc)) as Hmiss.
  { intros ns tl. destruct Hflags as [-> | ->], Hrc as [-> | ->];
      (etransitivity; [apply (parse_miss z z0 _ _ ns (sec ++ tl) q);
                        [by apply (Hsection [_; _; _; _; _; _; _; _; _; _; _; _])|done]|done]). }
  assert (parseAnswerIP head (be16 z z0) = Ok ([], rc)) as Hh
    by (specialize (Hmiss 0 []); rewrite app_nil_r in Hmiss; exact Hmiss).
  destruct (String.eqb_spec zone "") as [|Hz]; [exists head; done|].
  destruct (authoritySOA zone) as [soa|] eqn:Hs; [|exists head; done].
  exists (set16 head 8 1 ++ soa). split; [done|].
  change (set16 head 8 1) with ([z; z0] ++ put16 flags ++ [0; 1; 0; 0; 0; 1; 0; 0] ++ sec).
  split; [rewrite <- !app_assoc; apply Hmiss|].
  intros ? [= <-] _. split; [done|]. by rewrite Hend, drop_app_length' by (rewrite !length_app; cbn; lia).
Qed.

Lemma hit_response a b c d :
  rc = 0 ->
  parseAnswerIP (set16 head 6 1 ++ [0xc0; 0x0c; 0; typeA; 0; classIN; 0; 0; 0; 30; 0; 4] ++ [a; b; c; d]) (be16 z z0) =
  Ok (v4InV6Prefix ++ [a; b; c; d], 0).
Proof using Hend Hsection Hflags.
  intros Hrc. rewrite Hrc in Hflags. unfold head. destruct Hflags as [-> | ->];
    match goal with |- parseAnswerIP ?m _ = _ => change m with
      ((take 12 m ++ sec) ++ [0xc0; 0x0c; 0; typeA; 0; classIN; 0; 0; 0; 30; 0; 4; a; b; c; d]) end;
    rewrite <- app_assoc;
    (etransitivity; [apply (parse_hit z z0 _ _ sec a b c d q);
                      [by apply (Hsection [_; _; _; _; _; _; _; _; _; _; _; _])|done|done]|done]).
Qed.
End Answers.

Lemma answer_resolves_aux query lookup zone q :
  parseQuestion query = Ok q ->
  exists response, answer query lookup zone = Ok response /\
    parseAnswerIP response (u16 query 0) = Ok (expected (to4 (lookup (q_name q))) q) /\
    (forall soa, authoritySOA zone = Some soa -> zone <> "" ->
       (expected (to4 (lookup (q_name q))) q).1 = [] -> u16 response 8 = 1 /\ drop (q_end q) response = soa).
Proof.
  intros Hq. unfold answer. rewrite Hq.
  apply parseQuestion_shape in Hq as (h & sec & tail & -> & Hh & He & Hu & Hx).
  twelve h Hh. rewrite He, response_header_eq, <- He. change (u16 (_ ++ sec ++ tail) 0) with (be16 z z0).
  pose proof (land_bit8 (u16 ([z; z0; z1; z2; z3; z4; z5; z6; z7; z8; z9; z10] ++ sec ++ tail) 2)) as Hb.
  unfold expected. destruct (to4_cases (lookup (q_name q))) as [-> | (a & b & c & d & ->)].
  - rewrite decide_True by done. rewrite bool_decide_eq_true_2 by done. rewrite andb_false_r. cbn [negb andb].
    edestruct (miss_response z z0 sec q zone He Hx) with (rc := 3) as (r & -> & Hp & Hs);
      [destruct Hb as [-> | ->]; [by left | by right]|by right|].
    exists r. eauto.
  - rewrite decide_False by done. rewrite bool_decide_eq_false_2 by done. rewrite andb_true_r, andb_false_r. cbn [negb].
    assert (let fl := Z.lor (Z.lor 0x8400 flagRecursionAvailable)
              (Z.land (u16 ([z; z0; z1; z2; z3; z4; z5; z6; z7; z8; z9; z10] ++ sec ++ tail) 2) 0x0100) in
            put16 fl = [0x84; 0x80 + 0] \/ put16 fl = [0x85; 0x80 + 0]) as Hf
      by (destruct Hb as [-> | ->]; [by left | by right]).
    case_decide as Hd.
    + destruct Hd as [-> ->]. cbn [Z.eqb negb andb typeA classIN Pos.eqb]. eexists. split; [done|].
      split; [by eapply hit_response|]. intros ? ? ?. done.
    + replace ((q_recordType q =? typeA) && (q_class q =? classIN)) with false
        by (destruct (Z.eqb_spec (q_recordType q) typeA), (Z.eqb_spec (q_class q) classIN); cbn; tauto).
      cbn [negb]. edestruct (miss_response z z0 sec q zone He Hx _ _ Hf) as (r & -> & Hp & Hs); [by left|].
      exists r. eauto.
Qed.

(** What a querier reads off an answer.  For every message with one question,
    whatever its type, class and extra sections, [answer] succeeds, and
    [parseAnswerIP] reads from it: rcode 3 and no address for a name the lookup
    does not know, the address and rcode 0 for an IN A question about a name it
    knows, rcode 0 and no address for any other type or class.  Both misses carry
    exactly one authority record, the SOA of the zone, right after the question. *)
Theorem answer_resolves query lookup zone q :
  parseQuestion query = Ok q ->
  exists response, answer query lookup zone = Ok response /\
    parseAnswerIP response (u16 query 0) = Ok (expected (to4 (lookup (q_name q))) q) /\
    (forall soa, authoritySOA zone = Some soa -> zone <> "" ->
       (expected (to4 (lookup (q_name q))) q).1 = [] -> u16 response 8 = 1 /\ drop (q_end q) response = soa).
Proof. apply answer_resolves_aux. Qed.

(** An AAAA question for [a.b], with an additional record count and a trailing byte. *)
Definition sample_query : list Z := [18; 52; 1; 0; 0; 1; 0; 0; 0; 0; 0; 1; 1; 97; 1; 98; 0; 0; 28; 0; 1; 99].

Lemma answer_resolves_witness :
  exists response, answer sample_query (fun _ => [172; 30; 4; 2]) "k8s.test" = Ok response /\
    parseAnswerIP response 4660 = Ok ([], 0).
Proof.
  destruct (answer_resolves sample_query (fun _ => [172; 30; 4; 2]) "k8s.test" (mkQuestion "a.b" 28 1 21)) as (r & Ha & Hp & _).
  - vm_compute. reflexivity.
  - exists r. split; [exact Ha|exact Hp].
Defined.

(** ** Queries *)

Lemma encodeQuery_parses name id message :
  encodeQuery name id = Ok message ->
  parseQuestion message = Ok (mkQuestion (trim_suffix name ".") typeA classIN (length message)) /\
  u16 message 0 = wrapu 16 id.
Proof.
  unfold encodeQuery, encodeName. destruct (encode_labels _) as [enc|] eqn:He; [|done].
  set (m := put16 id ++ put16 0x0100 ++ put16 1 ++ replicate 6 0 ++ enc ++ [0; typeA; 0; classIN]). intros Hmsg.
  assert (message = m) as -> by congruence. split.
  - unfold parseQuestion. assert (length m = 16 + length enc)%nat as Hm by (unfold m; rewrite !length_app; cbn; lia).
    rewrite (bool_decide_eq_false_2 (length m < 12)%nat) by lia. change (u16 m 4) with 1. cbn [Z.eqb Pos.eqb negb orb].
    change (drop 12 m) with (enc ++ [0; typeA; 0; classIN]).
    pose proof (encode_labels_length _ _ He).
    rewrite (encode_labels_parse _ _ He) by lia. rewrite bool_decide_eq_false_2 by lia.
    change m with ((put16 id ++ put16 0x0100 ++ put16 1 ++ replicate 6 0) ++ enc ++ [0; typeA; 0; classIN]).
    rewrite app_assoc, <- (app_nil_r [0; typeA; 0; classIN]), !u16_window by (rewrite length_app; cbn; lia).
    rewrite app_nil_r, (join_split "."%char), !length_app.
    replace (12 + length enc - _)%nat with 0%nat by (cbn; lia). replace (12 + length enc + 2 - _)%nat with 2%nat by (cbn; lia).
    do 2 f_equal; cbn; lia.
  - change (u16 _ 0) with (be16 (id / 256 mod 256) (id mod 256)). unfold be16, wrapu. div_lia.
Qed.

(** C38: a lookup over the wire gives what the table holds.  A query [encodeQuery]
    builds for a name the server is authoritative for is answered without the
    upstream, under the query's own id, and [parseAnswerIP] reads from the answer
    the address [lookup] has for the name (a trailing dot apart) with rcode 0, or
    rcode 3 when it has none. *)
Theorem authoritative_query_answered {E} (s : Server E) name id message :
  0 <= id < 65536 ->
  encodeQuery name id = Ok message ->
  s_authoritative s (trim_suffix name ".") = true ->
  exists response, server_response s message = Ok response /\
    parseAnswerIP response id =
      Ok (match to4 (s_lookup s (trim_suffix name ".")) with [] => ([], 3) | ip => (v4InV6Prefix ++ ip, 0) end).
Proof.
  intros Hid Hm Ha. apply encodeQuery_parses in Hm as [Hq Hu].
  destruct (answer_resolves_aux message (s_lookup s) (zone s (trim_suffix name ".")) _ Hq) as (r & Hr & Hp & _).
  exists r. unfold server_response. rewrite Hq. cbn [q_name]. rewrite Ha. split; [done|].
  rewrite Hu in Hp. unfold wrapu in Hp. rewrite Z.mod_small in Hp by done. rewrite Hp. unfold expected. cbn.
  by destruct (to4 _).
Qed.

Lemma authoritative_query_answered_witness :
  exists response,
    server_response (mkServer (E := unit) (fun _ => [172; 30; 4; 2]) (fun _ => true) None)
      [18; 52; 1; 0; 0; 1; 0; 0; 0; 0; 0; 0; 1; 97; 1; 98; 0; 0; 1; 0; 1] = Ok response /\
    parseAnswerIP response 4660 = Ok (v4InV6Prefix ++ [172; 30; 4; 2], 0).
Proof.
  apply (authoritative_query_answered (mkServer (fun _ => [172; 30; 4; 2]) (fun _ => true) None) "a.b." 4660); [lia | | ];
    vm_compute; reflexivity.
Defined.

(** ** Ownership *)

(** Names under a cluster domain stay local.  With [Authority] as the
    predicate, a question for [k8s.test], for a listed domain, or for a name below
    one of them, in any case and with or without the trailing dot, gets the same
    answer whatever the upstream is; any other name, when no ["*"] is listed, gets
    the upstream's answer, or SERVFAIL when the upstream fails. *)
Theorem local_names_never_forwarded {E} lookup domains (forward : list Z -> result E (list Z)) query q :
  parseQuestion query = Ok q ->
  let name := to_lower (trim_suffix (q_name q) ".") in
  let local := exists domain, (domain = DefaultDomainSuffix \/ domain ∈ domains) /\ under name domain = true in
  let serve f := server_response (mkServer (E := E) lookup (Authority (Some (fun _ => domains))) f) query in
  (local -> serve (Some forward) = serve None) /\
  (~ local -> "*" ∉ domains ->
     serve (Some forward) = match forward query with Ok response => Ok response | Err _ => errorAnswer query 2 end).
Proof.
  intros Hq name local serve.
  assert (Authority (Some (fun _ => domains)) (q_name q) = true <-> local \/ "*" ∈ domains) as Ha.
  { unfold Authority, local. fold name. change (String.eqb name DefaultDomainSuffix || _) with (under name DefaultDomainSuffix).
    destruct (under name DefaultDomainSuffix) eqn:Hu; [split; eauto|].
    rewrite existsb_exists. split.
    - intros (d & Hd%list_elem_of_In & Hm). rewrite <- orb_assoc in Hm. apply orb_true_iff in Hm as [->%String.eqb_eq | Hm];
        [by right|left; eauto].
    - intros [(d & [-> | Hd] & Hm) | Hd]; [congruence|exists d|exists "*"%string]; rewrite <- list_elem_of_In; split; try done.
      rewrite <- orb_assoc. apply orb_true_iff. by right. }
  unfold serve, server_response. rewrite Hq. cbn.
  destruct (Authority _ (q_name q)); split; intros Hl.
  - done.
  - intros Hs. destruct Hl. by destruct (proj1 Ha eq_refl).
  - by discriminate (proj2 Ha (or_introl Hl)).
  - intros _. by destruct (forward query).
Qed.

Lemma local_names_never_forwarded_witness :
  server_response (mkServer (E := unit) (fun _ => []) (Authority (Some (fun _ => ["b"]))) (Some (fun _ => Ok []))) sample_query =
  server_response (mkServer (E := unit) (fun _ => []) (Authority (Some (fun _ => ["b"]))) None) sample_query.
Proof.
  apply (local_names_never_forwarded (E := unit) (fun _ => []) ["b"] (fun _ => Ok []) sample_query (mkQuestion "a.b" 28 1 21)).
  - vm_compute. reflexivity.
  - exists "b". split; [right; constructor|vm_compute; reflexivity].
Defined.

(** The search keeps the owner so far, or takes a strictly longer matching domain. *)
Lemma find_owner_spec name clusters owner ownerDomain :
  let r := find_owner name clusters owner ownerDomain in
  (r = (owner, ownerDomain) \/
   exists c, c ∈ clusters /\ r = (Some c, domain_of c) /\ under name (domain_of c) = true /\
             (String.length ownerDomain < String.length (domain_of c))%nat) /\
  (forall c, c ∈ clusters -> under name (domain_of c) = true ->
     (String.length (domain_of c) <= String.length r.2)%nat) /\
  (String.length ownerDomain <= String.length r.2)%nat.
Proof.
  revert owner ownerDomain. induction clusters as [|item rest IH]; intros owner od; cbn.
  { split; [by left|]. split; [|lia]. intros c Hc. by apply not_elem_of_nil in Hc. }
  assert (forall o d, (String.length od <= String.length d)%nat ->
            (under name (domain_of item) = true -> (String.length (domain_of item) <= String.length d)%nat) ->
            ((o = owner /\ d = od) \/
             (o = Some item /\ d = domain_of item /\ under name (domain_of item) = true /\ (String.length od < String.length d)%nat)) ->
            let r := find_owner name rest o d in
            (r = (owner, od) \/ exists c, c ∈ item :: rest /\ r = (Some c, domain_of c) /\ under name (domain_of c) = true /\
                                 (String.length od < String.length (domain_of c))%nat) /\
            (forall c, c ∈ item :: rest -> under name (domain_of c) = true ->
               (String.length (domain_of c) <= String.length r.2)%nat) /\
            (String.length od <= String.length r.2)%nat) as Hstep.
  { intros o d Hd Hi Hor. destruct (IH o d) as (Hr & Hmax & Hge). cbn zeta in *. split_and!; [|..|lia].
    - destruct Hr as [-> | (c & Hc & -> & Hu & Hl)].
      + destruct Hor as [[-> ->] | (-> & -> & Hu & Hl)]; [by left|]. right. exists item. split_and!; by constructor || done.
      + right. exists c. split_and!; [by constructor|done..|lia].
    - intros c [-> | Hc]%elem_of_cons Hu; [specialize (Hi Hu); lia|by apply Hmax]. }
  repeat case_match; apply Hstep; bool_to_prop; try lia; try (intros; congruence); auto.
  right. split_and!; [done..|lia].
Qed.

(** The longest domain owns a name.  If [c] is in the list, the name is its
    domain or lies below it, and every other cluster whose domain also encloses
    the name has a strictly shorter one, then [Resolve] answers for [c] alone,
    wherever [c] stands in the list: nothing for the domain itself, the lease of
    the node whose label precedes the domain (the first node of that name), and
    the ingress address .200 of the cluster's subnet for every other name. *)
Theorem Resolve_longest_suffix name clusters lease c :
  c ∈ clusters ->
  under (to_lower (trim_suffix name ".")) (domain_of c) = true ->
  (forall c', c' ∈ clusters -> under (to_lower (trim_suffix name ".")) (domain_of c') = true ->
     c' = c \/ (String.length (domain_of c') < String.length (domain_of c))%nat) ->
  0 <= c_SubnetIndex c <= MaxSubnetIndex ->
  (to_lower (trim_suffix name ".") = domain_of c -> Resolve name clusters lease = []) /\
  (forall node before after, c_Nodes c = before ++ node :: after ->
     to_lower (trim_suffix name ".") = to_lower (n_Name node) +:+ "." +:+ domain_of c ->
     (forall other, other ∈ before -> to_lower (n_Name other) <> to_lower (n_Name node)) ->
     Resolve name clusters lease = parse_ip4 (lease (n_MAC node) (c_SubnetIndex c))) /\
  (to_lower (trim_suffix name ".") <> domain_of c ->
   (forall node, node ∈ c_Nodes c -> to_lower (trim_suffix name ".") <> to_lower (n_Name node) +:+ "." +:+ domain_of c) ->
   to4 (Resolve name clusters lease) = [172; 30; c_SubnetIndex c; 200]).
Proof.
  intros Hc Hu Hmax Hidx. unfold Resolve. set (nm := to_lower (trim_suffix name ".")) in *.
  assert (domain_of c <> "") as Hne.
  { unfold domain_of, EffectiveDomain. destruct (String.eqb_spec (c_Domain c) "") as [|Hd];
      [by destruct (c_Name c)|by destruct (c_Domain c)]. }
  assert (find_owner nm clusters None "" = (Some c, domain_of c)) as ->.
  { destruct (find_owner_spec nm clusters None "") as (Hr & Hge & _).
    destruct Hr as [Hr | (c' & Hc' & Hr & Hu' & _)]; rewrite Hr in *; specialize (Hge c Hc Hu); cbn in Hge.
    - destruct (domain_of c); [done|cbn in Hge; lia].
    - destruct (Hmax c' Hc' Hu') as [-> |]; [done|lia]. }
  assert ((c_SubnetIndex c <? 0) || (MaxSubnetIndex <? c_SubnetIndex c) = false) as -> by lia.
  split_and!.
  - intros ->. by rewrite String.eqb_refl.
  - intros node before after Hn Hnm Hb.
    destruct (String.eqb_spec nm (domain_of c)) as [Hx|_].
    { exfalso. rewrite Hnm in Hx. apply (f_equal String.length) in Hx. rewrite !string_length_app in Hx. cbn in Hx. lia. }
    rewrite (proj2 (list_find_Some _ _ (length before) node)); [done|].
    rewrite Hn. split_and!; [by rewrite list_lookup_middle|done|].
    intros j other Hj Hlt Heq. rewrite lookup_app_l in Hj by done. apply list_elem_of_lookup_2 in Hj.
    apply (Hb other Hj). rewrite Hnm in Heq. apply (f_equal (fun s => trim_suffix s ("." +:+ domain_of c))) in Heq.
    by rewrite !trim_suffix_app in Heq.
  - intros Hap Hno. destruct (String.eqb_spec nm (domain_of c)); [done|].
    rewrite (proj2 (list_find_None _ _)) by (by apply Forall_forall).
    cbn. unfold wrapu, MaxSubnetIndex in *. by rewrite Z.mod_small by lia.
Qed.

Definition sample_cluster (name : string) (subnet : Z) (domain : string) (nodes : list Node) : Cluster :=
  mkCluster name 0 subnet 1 0 (mkDefaults 0 0 0) None None no_intent nodes "" "" None "" "" "" domain false "".

Definition outer : Cluster := sample_cluster "lab" 3 "" [mkNode "x" RoleWorker "m0" ""].
Definition inner : Cluster := sample_cluster "n" 4 "X.lab.k8s.test" [mkNode "cp-1" RoleControlPlane "m1" ""].

Lemma Resolve_longest_suffix_witness :
  Resolve "CP-1.x.lab.k8s.test." [outer; inner] (fun mac _ => if String.eqb mac "m1" then "172.30.4.2" else "") = [172; 30; 4; 2].
Proof.
  edestruct (Resolve_longest_suffix "CP-1.x.lab.k8s.test." [outer; inner]) with (c := inner) as (_ & H & _).
  - by right; left.
  - vm_compute. reflexivity.
  - intros c' Hc _. repeat (apply elem_of_cons in Hc as [-> | Hc]); [right; vm_compute; lia|by left|by apply not_elem_of_nil in Hc].
  - cbn. unfold MaxSubnetIndex. lia.
  - rewrite (H (mkNode "cp-1" RoleControlPlane "m1" "") [] []); [vm_compute; reflexivity|reflexivity|vm_compute; reflexivity|].
    intros o Ho. by apply not_elem_of_nil in Ho.
Defined.

(** [zone] is the shortest authoritative suffix of two labels or more, made of
    whole labels of the name, and the name itself when there is none. *)
Lemma zone_shortest {E} (s : Server E) name :
  let labels := split_on "."%char (to_lower (trim_suffix name ".")) in
  exists i, zone s name = join "." (drop i labels) /\
    (i = 0%nat \/ (i <= length labels - 2)%nat /\ s_authoritative s (zone s name) = true) /\
    forall j, (i < j <= length labels - 2)%nat -> s_authoritative s (join "." (drop j labels)) = false.
Proof.
  intros labels. unfold zone. fold labels. generalize (length labels - 2)%nat as n. intros n.
  assert (match zone_loop (s_authoritative s) labels n with
          | Some z => exists i, (0 < i <= n)%nat /\ z = join "." (drop i labels) /\ s_authoritative s z = true /\
                        forall j, (i < j <= n)%nat -> s_authoritative s (join "." (drop j labels)) = false
          | None => forall j, (0 < j <= n)%nat -> s_authoritative s (join "." (drop j labels)) = false
          end) as H.
  { induction n as [|n IH]; cbn [zone_loop]; [lia|]. destruct (s_authoritative s (join "." (drop (S n) labels))) eqn:Ha.
    - exists (S n). split_and!; [lia..|done|done|lia].
    - assert (forall j, j = S n -> s_authoritative s (join "." (drop j labels)) = false) as HS by (by intros ? ->).
      destruct (zone_loop _ _ n).
      + destruct IH as (i & Hi & -> & Hz & Hj). exists i. split_and!; [lia..|done|done|].
        intros j Hr. destruct (decide (j = S n)); [by apply HS|apply Hj; lia].
      + intros j Hr. destruct (decide (j = S n)); [by apply HS|apply IH; lia]. }
  destruct (zone_loop _ _ _); cbn.
  - destruct H as (i & Hi & -> & Hz & Hj). exists i. split_and!; [done| |done]. right. split; [lia|done].
  - exists 0%nat. split_and!; [unfold labels; by rewrite drop_0, (join_split "."%char)|by left|done].
Qed.

Section ForwardFacts.
Context {E : Type} (udp tcp : string -> list Z -> result E (list Z)).

Definition valid_reply (query response : list Z) : Prop :=
  (12 <= length response)%nat /\ u16 response 0 = u16 query 0 /\ Z.testbit (u16 response 2) 15 = true.

Lemma validate_inv query response r :
  validateForwardedResponse (E := E) query response = Ok r -> r = response /\ valid_reply query r.
Proof.
  unfold validateForwardedResponse, valid_reply. intros H. case_head_in H; [done|]. simplify_eq. bool_to_prop.
  split_and!; [done|lia|lia|]. destruct (Z.testbit (u16 r 2) 15) eqn:Hb; [done|]. exfalso.
  match goal with Hn : Z.land _ 32768 <> 0 |- _ => apply Hn end.
  apply Z.bits_inj'. intros n Hn. rewrite Z.land_spec, Z.bits_0. change 32768 with (2 ^ 15).
  rewrite Z.pow2_bits_eqb by lia. destruct (Z.eqb_spec 15 n) as [<-|]; [by rewrite Hb|apply andb_false_r].
Qed.

Lemma exchangeDNS_valid query address r : exchangeDNS udp tcp query address = Ok r -> valid_reply query r.
Proof.
  unfold exchangeDNS, exchangeUDP, exchangeTCP. intros H.
  destruct (udp address query) as [u|]; [|done].
  destruct (validateForwardedResponse query u) as [v|] eqn:Hv; [|done].
  case_head_in H; [simplify_eq; by apply validate_inv in Hv as [_ ?]|].
  repeat (case_head_in H; try done). by apply validate_inv in H as [-> ?].
Qed.

Lemma try_servers_spec query servers failed :
  match try_servers udp tcp query servers failed with
  | Ok r => exists before server after, servers = before ++ server :: after /\
              exchangeDNS udp tcp query (JoinHostPort53 server) = Ok r /\
              Forall (fun s => is_ok (exchangeDNS udp tcp query (JoinHostPort53 s)) = false) before
  | Err _ => Forall (fun s => is_ok (exchangeDNS udp tcp query (JoinHostPort53 s)) = false) servers
  end.
Proof.
  revert failed. induction servers as [|server rest IH]; intros failed; cbn; [constructor|].
  destruct (exchangeDNS udp tcp query (JoinHostPort53 server)) as [r|e] eqn:Hx.
  - exists [], server, rest. split_and!; [done|done|constructor].
  - specialize (IH (failed ++ [(server, e)])). destruct (try_servers _ _ _ rest _).
    + destruct IH as (before & s & after & -> & Hs & Hb). exists (server :: before), s, after.
      split_and!; [done|done|]. constructor; [by rewrite Hx|done].
    + constructor; [by rewrite Hx|done].
Qed.

(** What is relayed from upstream.  Whatever resolv.conf holds and the sockets
    do, [SystemForward] relays the reply of the first listed name server whose
    exchange succeeds (over UDP or, when that reply is truncated, over TCP), and
    what it relays has a full header, the id of the query and the response bit; it
    fails only when no listed server succeeds. *)
Theorem SystemForward_first_valid content query :
  match SystemForward (Ok content) udp tcp query with
  | Ok r => valid_reply query r /\
            exists before server after, resolverNameServers content = before ++ server :: after /\
              exchangeDNS udp tcp query (JoinHostPort53 server) = Ok r /\
              Forall (fun s => is_ok (exchangeDNS udp tcp query (JoinHostPort53 s)) = false) before
  | Err _ => Forall (fun s => is_ok (exchangeDNS udp tcp query (JoinHostPort53 s)) = false) (resolverNameServers content)
  end.
Proof.
  unfold SystemForward. case_bool_decide as Hn.
  - apply length_zero_iff_nil in Hn. rewrite Hn. constructor.
  - pose proof (try_servers_spec query (resolverNameServers content) []) as Hs.
    destruct (try_servers _ _ _ _ _); [|done]. split; [|done].
    destruct Hs as (? & ? & ? & _ & Hx & _). by apply exchangeDNS_valid in Hx.
Qed.
End ForwardFacts.
