(* ===== verification/Config.v ===== *)
(** * The cluster description file ([internal/config], [internal/domain], [internal/hypervisor/registry.go])

    [Validate] is the domain policy, [Parse] the defaulting and validation of a
    decoded talosbox.yaml.  The YAML decoder is a parameter: it gives the raw
    document the source declares, in which a pointer field is an [option].  A Go
    [int] is a 64-bit integer; the product in [parseSizeMiB] wraps. *)

From stdpp Require Import base list gmap strings.
From Stdlib Require Import Ascii ZArith Lia.
From S2P Require Import Prelude GoStrings GoNet Cluster Dns.

Local Open Scope Z_scope.

(** ** Domains *)

Definition is_alnum (c : ascii) : bool := is_lower c || is_digit c.
Definition is_label_char (c : ascii) : bool := is_alnum c || bool_decide (c = "-"%char).

Fixpoint all_chars (p : ascii -> bool) (s : string) : bool :=
  match s with
  | EmptyString => true
  | String c s' => p c && all_chars p s'
  end.

(** The regular expression [^[a-z0-9]([a-z0-9-]*[a-z0-9])?$], the same for
    [labelRe] and [nameRe]. *)
Definition labelRe (s : string) : bool :=
  match s with
  | EmptyString => false
  | String c _ => is_alnum c && all_chars is_label_char s && match last_char s with Some d => is_alnum d | None => false end
  end.
Definition nameRe : string -> bool := labelRe.

Definition rejectedTLDs : list string := ["local"; "localhost"; "invalid"].

Definition Safe (name : string) : bool :=
  let tld := match cut_last "."%char name with Some (_, t) => t | None => name end in
  String.eqb tld "test" || String.eqb tld "internal" ||
  String.eqb name "home.arpa" || has_suffix name ".home.arpa".

Inductive domain_error :=
| DomainTooLong (name : string)
| TooFewLabels (name : string)
| LabelTooLong (label : string)
| InvalidDomainLabel (label : string)
| RejectedTLD (name : string)
| ReservedSuffix (name : string)
| UnsafeDomain (name : string).

Fixpoint check_labels (labels : list string) : result domain_error unit :=
  match labels with
  | [] => Ok tt
  | label :: rest =>
      if bool_decide (63 < String.length label)%nat then Err (LabelTooLong label)
      else if negb (labelRe label) then Err (InvalidDomainLabel label)
      else check_labels rest
  end.

Definition Validate (input : string) (allowUnsafe : bool) : result domain_error string :=
  let name := to_lower (trim_suffix input ".") in
  if bool_decide (253 < String.length name)%nat then Err (DomainTooLong name)
  else
    let labels := split_on "."%char name in
    if bool_decide (length labels < 2)%nat then Err (TooFewLabels name)
    else match check_labels labels with
         | Err e => Err e
         | Ok _ =>
             if bool_decide (default "" (last labels) ∈ rejectedTLDs) then Err (RejectedTLD name)
             else if String.eqb name DefaultDomainSuffix then Err (ReservedSuffix name)
             else if negb (Safe name) && negb allowUnsafe then Err (UnsafeDomain name)
             else Ok name
         end.

(** ** Hypervisor names *)

Definition NameVZ : string := "vz".
Definition NameQEMU : string := "qemu".

Definition ParseName (raw : string) : option string :=
  if String.eqb raw NameVZ || String.eqb raw NameQEMU then Some raw else None.

(** ** The file *)

Definition defaultNode : NodeDefaults := mkDefaults DefaultMemoryMiB DefaultCPUs DefaultDiskGiB.
Definition defaultControlPlanes : Z := 1.
Definition defaultWorkers : Z := 2.

Record TalosSpec := mkTalos { t_Version : string; t_Schematic : string; t_Extensions : option (list string) }.

(** [slices.Equal], after the test on [nil]. *)
Definition TalosSpec_Equal (t other : TalosSpec) : bool :=
  String.eqb (t_Version t) (t_Version other) && String.eqb (t_Schematic t) (t_Schematic other) &&
  Bool.eqb (bool_decide (t_Extensions t = None)) (bool_decide (t_Extensions other = None)) &&
  bool_decide (default [] (t_Extensions t) = default [] (t_Extensions other)).

Definition TalosSpec_IsZero (t : TalosSpec) : bool :=
  String.eqb (t_Version t) "" && String.eqb (t_Schematic t) "" && bool_decide (t_Extensions t = None).

Record ClusterSpec := mkSpec {
  sp_Name : string;
  sp_Hypervisor : string;
  sp_ControlPlanes : Z;
  sp_Workers : Z;
  sp_Intent : ProvisioningIntent;
  sp_Domain : string;
  sp_AllowUnsafeDomain : bool;
  sp_Node : NodeDefaults;
  sp_ControlPlane : option NodeDefaults;
  sp_Worker : option NodeDefaults;
  sp_Talos : TalosSpec
}.

Record Config := mkConfig { cfg_Talos : TalosSpec; cfg_Clusters : list ClusterSpec }.

Record rawTalos := mkRawTalos { rt_Version : string; rt_Schematic : string; rt_Extensions : option (list string) }.
Record rawNode := mkRawNode { rn_Memory : string; rn_CPUs : Z; rn_DiskSize : string }.

Record rawCluster := mkRawCluster {
  rc_Name : string;
  rc_Hypervisor : string;
  rc_ControlPlanes : option Z;
  rc_Workers : option Z;
  rc_Input : ProvisioningIntentInput;
  rc_Domain : string;
  rc_AllowUnsafeDomain : bool;
  rc_Node : rawNode;
  rc_ControlPlane : option rawNode;
  rc_Worker : option rawNode;
  rc_Talos : option rawTalos
}.

Record rawConfig := mkRawConfig { raw_Version : option Z; raw_Talos : rawTalos; raw_Clusters : list rawCluster }.

Inductive config_error (E : Type) :=
| DecodeError (err : E)
| MissingVersion
| UnsupportedVersion (version : Z)
| NoClusters
| InvalidClusterName (name : string)
| DuplicateName (name : string)
| BadHypervisor (name raw : string)
| BadIntent (name : string) (err : cluster_error)
| BadDomain (name : string) (err : domain_error)
| NoValidDomain (name : string)
| DomainTaken (name domain owner : string)
| NoControlPlane (name : string)
| NegativeWorkers (name : string)
| BadSize (name : string) (size : string)
| BadDiskSize (name : string) (size : string).
Arguments DecodeError {E} _.
Arguments MissingVersion {E}.
Arguments UnsupportedVersion {E} _.
Arguments NoClusters {E}.
Arguments InvalidClusterName {E} _.
Arguments DuplicateName {E} _.
Arguments BadHypervisor {E} _ _.
Arguments BadIntent {E} _ _.
Arguments BadDomain {E} _ _.
Arguments NoValidDomain {E} _.
Arguments DomainTaken {E} _ _ _.
Arguments NoControlPlane {E} _.
Arguments NegativeWorkers {E} _.
Arguments BadSize {E} _ _.
Arguments BadDiskSize {E} _ _.

(** [None] for every malformed size. *)
Definition parseSizeMiB (s : string) : option Z :=
  let parse mult num :=
    match atoi num with
    | Some n => if n <=? 0 then None else Some (wrap64 (n * mult))
    | None => None
    end in
  if has_suffix s "GiB" then parse 1024 (trim_suffix s "GiB")
  else if has_suffix s "MiB" then parse 1 (trim_suffix s "MiB")
  else None.

Definition sizeString (mib : Z) : string :=
  if Z.rem mib 1024 =? 0 then itoa (Z.quot mib 1024) +:+ "GiB" else itoa mib +:+ "MiB".

Section Parse.
Context {E : Type} (decode : string -> result E rawConfig).

Definition resolveTalos (base : TalosSpec) (raw : option rawTalos) : TalosSpec :=
  match raw with
  | None => base
  | Some raw =>
      mkTalos (if String.eqb (rt_Version raw) "" then t_Version base else rt_Version raw)
              (if String.eqb (rt_Schematic raw) "" then t_Schematic base else rt_Schematic raw)
              (match rt_Extensions raw with None => t_Extensions base | Some l => Some l end)
  end.

(** [name] is the cluster the error is reported for. *)
Definition resolveNode (name : string) (base : NodeDefaults) (raw : rawNode) : result (config_error E) NodeDefaults :=
  let memory := if String.eqb (rn_Memory raw) "" then Some (MemoryMiB base) else parseSizeMiB (rn_Memory raw) in
  match memory with
  | None => Err (BadSize name (rn_Memory raw))
  | Some memory =>
      let cpus := if rn_CPUs raw =? 0 then CPUs base else rn_CPUs raw in
      if String.eqb (rn_DiskSize raw) "" then Ok (mkDefaults memory cpus (DiskGiB base))
      else match parseSizeMiB (rn_DiskSize raw) with
           | None => Err (BadSize name (rn_DiskSize raw))
           | Some mib =>
               if negb (Z.rem mib 1024 =? 0) then Err (BadDiskSize name (rn_DiskSize raw))
               else Ok (mkDefaults memory cpus (Z.quot mib 1024))
           end
  end.

Definition resolveRole (name : string) (node : NodeDefaults) (raw : option rawNode) : result (config_error E) (option NodeDefaults) :=
  match raw with
  | None => Ok None
  | Some raw => match resolveNode name node raw with Ok n => Ok (Some n) | Err e => Err e end
  end.

(** The explicit domain, [""] when it is the default or absent. *)
Definition cluster_domain (rc : rawCluster) : result (config_error E) string :=
  if String.eqb (rc_Domain rc) "" then Ok ""
  else match Validate (rc_Domain rc) (rc_AllowUnsafeDomain rc) with
       | Err e => Err (BadDomain (rc_Name rc) e)
       | Ok canonical =>
           Ok (if String.eqb canonical (rc_Name rc +:+ "." +:+ DefaultDomainSuffix) then "" else canonical)
       end.

Definition effective_domain (name domain : string) : result (config_error E) string :=
  if String.eqb domain "" then
    let effective := name +:+ "." +:+ DefaultDomainSuffix in
    match Validate effective true with
    | Ok canonical => if String.eqb canonical effective then Ok effective else Err (NoValidDomain name)
    | Err _ => Err (NoValidDomain name)
    end
  else Ok domain.

(** The counts and the sizing of a cluster. *)
Definition resolve_spec (cfgTalos : TalosSpec) (rc : rawCluster) (hypervisor : string) (intent : ProvisioningIntent)
    (domain : string) : result (config_error E) ClusterSpec :=
  let controlPlanes := default defaultControlPlanes (rc_ControlPlanes rc) in
  let workers := default defaultWorkers (rc_Workers rc) in
  if controlPlanes <? 1 then Err (NoControlPlane (rc_Name rc))
  else if workers <? 0 then Err (NegativeWorkers (rc_Name rc))
  else match resolveNode (rc_Name rc) defaultNode (rc_Node rc) with
       | Err e => Err e
       | Ok node =>
           match resolveRole (rc_Name rc) node (rc_ControlPlane rc) with
           | Err e => Err e
           | Ok cp =>
               match resolveRole (rc_Name rc) node (rc_Worker rc) with
               | Err e => Err e
               | Ok w =>
                   Ok (mkSpec (rc_Name rc) hypervisor controlPlanes workers intent domain (rc_AllowUnsafeDomain rc)
                         node cp w (resolveTalos cfgTalos (rc_Talos rc)))
               end
           end
       end.

(** One round of the loop: the spec and the domain it takes. *)
Definition parse_cluster (cfgTalos : TalosSpec) (seen : gset string) (seenDomains : gmap string string) (rc : rawCluster)
  : result (config_error E) (ClusterSpec * string) :=
  if negb (nameRe (rc_Name rc)) then Err (InvalidClusterName (rc_Name rc))
  else if bool_decide (rc_Name rc ∈ seen) then Err (DuplicateName (rc_Name rc))
  else
    let hypervisor := if String.eqb (rc_Hypervisor rc) "" then Some "" else ParseName (rc_Hypervisor rc) in
    match hypervisor with
    | None => Err (BadHypervisor (rc_Name rc) (rc_Hypervisor rc))
    | Some hypervisor =>
        match Intent (rc_Input rc) with
        | Err e => Err (BadIntent (rc_Name rc) e)
        | Ok intent =>
            match cluster_domain rc with
            | Err e => Err e
            | Ok domain =>
                match effective_domain (rc_Name rc) domain with
                | Err e => Err e
                | Ok effective =>
                    match seenDomains !! effective with
                    | Some owner => Err (DomainTaken (rc_Name rc) effective owner)
                    | None =>
                        match resolve_spec cfgTalos rc hypervisor intent domain with
                        | Err e => Err e
                        | Ok spec => Ok (spec, effective)
                        end
                    end
                end
            end
        end
    end.

Fixpoint parse_clusters (cfgTalos : TalosSpec) (seen : gset string) (seenDomains : gmap string string)
    (clusters : list rawCluster) : result (config_error E) (list ClusterSpec) :=
  match clusters with
  | [] => Ok []
  | rc :: rest =>
      match parse_cluster cfgTalos seen seenDomains rc with
      | Err e => Err e
      | Ok (spec, effective) =>
          match parse_clusters cfgTalos ({[rc_Name rc]} ∪ seen) (<[effective := rc_Name rc]> seenDomains) rest with
          | Err e => Err e
          | Ok specs => Ok (spec :: specs)
          end
      end
  end.

Definition Parse (data : string) : result (config_error E) Config :=
  match decode data with
  | Err e => Err (DecodeError e)
  | Ok raw =>
      match raw_Version raw with
      | None => Err MissingVersion
      | Some version =>
          if negb (version =? 1) then Err (UnsupportedVersion version)
          else if bool_decide (length (raw_Clusters raw) = 0%nat) then Err NoClusters
          else
            let talos := resolveTalos (mkTalos "" "" None) (Some (raw_Talos raw)) in
            match parse_clusters talos ∅ ∅ (raw_Clusters raw) with
            | Err e => Err e
            | Ok specs => Ok (mkConfig talos specs)
            end
      end
  end.
End Parse.

(** ** Writing the file *)

(** The document [Marshal] prints, field by field: a key it leaves out is the
    absent value of the raw field.  The indentation and quoting of the text are
    the decoder's business. *)
Definition talos_fields (t : TalosSpec) : rawTalos := mkRawTalos (t_Version t) (t_Schematic t) (t_Extensions t).

Definition node_fields (n : NodeDefaults) : rawNode :=
  mkRawNode (sizeString (MemoryMiB n)) (CPUs n) (itoa (DiskGiB n) +:+ "GiB").

Definition intent_fields (i : ProvisioningIntent) : ProvisioningIntentInput :=
  if String.eqb (CNI i) "" then mkInput "" "" None None None None
  else mkInput (CNI i) (CSI i) (Some (LB i)) (if BGP i then Some true else None) (if Hubble i then Some true else None)
         (if DisableKubeletMemoryProtection i then Some false else None).

Definition cluster_fields (cfgTalos : TalosSpec) (c : ClusterSpec) : rawCluster :=
  mkRawCluster (sp_Name c) (sp_Hypervisor c) (Some (sp_ControlPlanes c)) (Some (sp_Workers c)) (intent_fields (sp_Intent c))
    (sp_Domain c) (sp_AllowUnsafeDomain c) (node_fields (sp_Node c)) (node_fields <$> sp_ControlPlane c)
    (node_fields <$> sp_Worker c)
    (if negb (TalosSpec_IsZero (sp_Talos c)) && negb (TalosSpec_Equal (sp_Talos c) cfgTalos)
     then Some (talos_fields (sp_Talos c)) else None).

Definition Marshal_document (cfg : Config) : rawConfig :=
  mkRawConfig (Some 1)
    (if TalosSpec_IsZero (cfg_Talos cfg) then mkRawTalos "" "" None else talos_fields (cfg_Talos cfg))
    (cluster_fields (cfg_Talos cfg) <$> cfg_Clusters cfg).

(** ** Sizes *)

Lemma atoi_pos_itoa n : 0 < n <= int64_max -> atoi (itoa n) = Some n.
Proof. intros H. apply atoi_itoa. lia. Qed.

Lemma has_suffix_app_ne (t p q : string) : String.length p = String.length q -> p <> q -> has_suffix (t +:+ p) q = false.
Proof.
  intros Hl Hne. destruct (has_suffix (t +:+ p) q) eqn:H; [|done]. exfalso.
  apply has_suffix_spec in H as [t' H]. apply Hne.
  assert (String.length t = String.length t') as Ht
    by (apply (f_equal String.length) in H; rewrite !string_length_app in H; lia).
  apply (f_equal (drop_string (String.length t))) in H. rewrite drop_string_app, Ht, drop_string_app in H. done.
Qed.

Lemma parseSize_GiB n : 0 < n <= int64_max / 1024 -> parseSizeMiB (itoa n +:+ "GiB") = Some (n * 1024).
Proof.
  intros H. unfold parseSizeMiB. rewrite (proj2 (has_suffix_spec _ _)) by eauto. rewrite trim_suffix_app.
  unfold int64_max in *. rewrite atoi_pos_itoa by (unfold int64_max; div_lia).
  replace (n <=? 0) with false by lia. rewrite wrap64_id; [done|]. unfold in_int64, int64_min, int64_max. div_lia.
Qed.

Lemma parseSize_MiB n : 0 < n <= int64_max -> parseSizeMiB (itoa n +:+ "MiB") = Some n.
Proof.
  intros H. unfold parseSizeMiB. rewrite has_suffix_app_ne by done. rewrite (proj2 (has_suffix_spec _ _)) by eauto.
  rewrite trim_suffix_app, atoi_pos_itoa by done. replace (n <=? 0) with false by lia. rewrite Z.mul_1_r, wrap64_id; [done|].
  unfold in_int64, int64_min, int64_max in *. lia.
Qed.

Lemma size_roundtrip n : 0 < n <= int64_max -> parseSizeMiB (sizeString n) = Some n.
Proof.
  intros H. unfold sizeString. destruct (Z.eqb_spec (Z.rem n 1024) 0) as [Hr|_]; [|by apply parseSize_MiB].
  rewrite Z.rem_mod_nonneg, Z.quot_div_nonneg in * by lia. unfold int64_max in *.
  rewrite parseSize_GiB by (unfold int64_max; div_lia). f_equal. div_lia.
Qed.

(** A size of 2^54 + 1 GiB wraps to 1 GiB instead of being refused. *)
Lemma parseSizeMiB_wraps : parseSizeMiB "18014398509481985GiB" = Some 1024.
Proof. vm_compute. reflexivity. Qed.

(** ** Domains *)

Lemma split_on_snoc sep t : split_on sep (t +:+ String sep EmptyString) = split_on sep t ++ [EmptyString].
Proof.
  induction t as [|c t IH].
  - change (EmptyString +:+ String sep EmptyString) with (String sep EmptyString). cbn [split_on]. by destruct (decide (sep = sep)).
  - change (String c t +:+ String sep EmptyString) with (String c (t +:+ String sep EmptyString)). cbn [split_on]. rewrite IH.
    destruct (split_on_cons sep t) as (w & ws & ->). by destruct (decide (c = sep)).
Qed.

Lemma check_labels_forall labels :
  check_labels labels = Ok tt <-> Forall (fun l => (String.length l <= 63)%nat /\ labelRe l = true) labels.
Proof.
  induction labels as [|l ls IH]; cbn; [split; [constructor|done]|]. rewrite Forall_cons, <- IH.
  case_bool_decide; [split; [done|lia]|]. destruct (labelRe l); cbn.
  - split; [intros ->; split_and!; [lia|done..]|by intros [_ ?]].
  - split; [done|by intros [[_ ?] _]].
Qed.

(** A validated domain is canonical: validating it again changes nothing. *)
Lemma Validate_idem input unsafe name : Validate input unsafe = Ok name -> Validate name unsafe = Ok name.
Proof.
  unfold Validate. intros H.
  assert (to_lower (trim_suffix name ".") = name) as Hn.
  { repeat (case_head_in H; try discriminate H). injection H as <-.
    set (n := to_lower (trim_suffix input ".")) in *. destruct (has_suffix n ".") eqn:Hs.
    - exfalso. apply has_suffix_spec in Hs as [t Ht]. match goal with
        Hc : check_labels _ = Ok ?u |- _ => destruct u; apply check_labels_forall in Hc; rename Hc into Hl end.
      rewrite Ht, split_on_snoc in Hl. apply Forall_app in Hl as [_ Hl]. apply Forall_cons in Hl as [[_ Hl] _]. done.
    - unfold trim_suffix. rewrite Hs. unfold n. apply to_lower_idem. }
  rewrite Hn. repeat (case_head_in H; try discriminate H). injection H as Heq. rewrite Heq in *.
  by repeat match goal with Hb : _ = _ |- _ => rewrite Hb end.
Qed.

Lemma Validate_unsafe input unsafe name : Validate input unsafe = Ok name -> Validate input true = Ok name.
Proof.
  unfold Validate. intros H. repeat (case_head_in H; try discriminate H). by rewrite andb_false_r.
Qed.

(** ** What an accepted file guarantees *)

Definition spec_domain (c : ClusterSpec) : string :=
  if String.eqb (sp_Domain c) "" then sp_Name c +:+ "." +:+ DefaultDomainSuffix else sp_Domain c.

Record spec_ok (c : ClusterSpec) : Prop := {
  ok_name : nameRe (sp_Name c) = true;
  ok_controlPlanes : 1 <= sp_ControlPlanes c;
  ok_workers : 0 <= sp_Workers c;
  ok_domain : sp_Domain c = "" \/ Validate (sp_Domain c) (sp_AllowUnsafeDomain c) = Ok (sp_Domain c);
  ok_effective : Validate (spec_domain c) true = Ok (spec_domain c);
  ok_hypervisor : sp_Hypervisor c ∈ [""; NameVZ; NameQEMU]
}.

Section Facts.
Context {E : Type}.
Implicit Types (decode : string -> result E rawConfig).

(** What one accepted round produced. *)
Lemma parse_cluster_inv talos seen seenDomains rc spec effective :
  parse_cluster (E := E) talos seen seenDomains rc = Ok (spec, effective) ->
  exists node cp w domain,
    spec = mkSpec (rc_Name rc) (rc_Hypervisor rc) (default defaultControlPlanes (rc_ControlPlanes rc))
             (default defaultWorkers (rc_Workers rc)) (sp_Intent spec) domain (rc_AllowUnsafeDomain rc) node cp w
             (resolveTalos talos (rc_Talos rc)) /\
    Intent (rc_Input rc) = Ok (sp_Intent spec) /\ nameRe (rc_Name rc) = true /\ (rc_Name rc ∉ seen) /\
    rc_Hypervisor rc ∈ [""; NameVZ; NameQEMU] /\
    (domain = "" \/ domain <> "" /\ domain <> rc_Name rc +:+ "." +:+ DefaultDomainSuffix /\
                    Validate domain (rc_AllowUnsafeDomain rc) = Ok domain) /\
    effective_domain (E := E) (rc_Name rc) domain = Ok effective /\ (seenDomains !! effective) = None /\
    1 <= default defaultControlPlanes (rc_ControlPlanes rc) /\ 0 <= default defaultWorkers (rc_Workers rc) /\
    resolveNode (E := E) (rc_Name rc) defaultNode (rc_Node rc) = Ok node /\
    resolveRole (E := E) (rc_Name rc) node (rc_ControlPlane rc) = Ok cp /\
    resolveRole (E := E) (rc_Name rc) node (rc_Worker rc) = Ok w.
Proof.
  unfold parse_cluster, resolve_spec. intros H.
  destruct (nameRe (rc_Name rc)) eqn:Hname; [|done]. cbn [negb] in H. case_bool_decide as Hseen; [done|].
  destruct (if String.eqb (rc_Hypervisor rc) "" then _ else _) as [hv|] eqn:Hhv; [|done].
  destruct (Intent (rc_Input rc)) as [intent|] eqn:Hi; [|done].
  destruct (cluster_domain rc) as [domain|] eqn:Hd; [|done].
  destruct (effective_domain (rc_Name rc) domain) as [eff|] eqn:He; [|done].
  destruct (seenDomains !! eff) eqn:Hsd; [done|].
  destruct (_ <? 1) eqn:Hcp; [done|]. destruct (_ <? 0) eqn:Hw; [done|].
  destruct (resolveNode _ _ _) as [node|] eqn:Hnode; [|done].
  destruct (resolveRole _ _ (rc_ControlPlane rc)) as [cp|] eqn:Hcpn; [|done].
  destruct (resolveRole _ _ (rc_Worker rc)) as [w|] eqn:Hwn; [|done]. injection H as <- <-.
  exists node, cp, w, domain. cbn [sp_Intent].
  assert (hv = rc_Hypervisor rc /\ rc_Hypervisor rc ∈ [""; NameVZ; NameQEMU]) as [-> Hhin].
  { unfold ParseName in Hhv. destruct (String.eqb_spec (rc_Hypervisor rc) "") as [->|]; [injection Hhv as <-; split; [done|constructor]|].
    destruct (String.eqb_spec (rc_Hypervisor rc) NameVZ) as [->|]; [injection Hhv as <-; split; [done|repeat constructor]|].
    destruct (String.eqb_spec (rc_Hypervisor rc) NameQEMU) as [->|]; [|done]. injection Hhv as <-. split; [done|]. repeat constructor. }
  split_and!; try done; try lia.
  unfold cluster_domain in Hd. destruct (String.eqb_spec (rc_Domain rc) "") as [|Hne]; [left; congruence|].
  destruct (Validate _ _) as [canonical|] eqn:Hv; [|done]. destruct (String.eqb_spec canonical (rc_Name rc +:+ "." +:+ DefaultDomainSuffix)) as [|Hnd];
    [left; congruence|]. injection Hd as <-. right. apply Validate_idem in Hv. split_and!; [|done|done]. by intros ->.
Qed.

Lemma effective_domain_inv name domain effective :
  effective_domain (E := E) name domain = Ok effective ->
  effective = (if String.eqb domain "" then name +:+ "." +:+ DefaultDomainSuffix else domain) /\
  (domain = "" -> Validate effective true = Ok effective).
Proof.
  unfold effective_domain. destruct (String.eqb_spec domain "") as [->|Hd].
  - destruct (Validate _ true) as [c|] eqn:Hv; [|done]. destruct (String.eqb_spec c (name +:+ "." +:+ DefaultDomainSuffix)) as [->|]; [|done].
    intros [= <-]. done.
  - intros [= <-]. done.
Qed.

Lemma parse_cluster_ok talos seen seenDomains rc spec effective :
  parse_cluster (E := E) talos seen seenDomains rc = Ok (spec, effective) ->
  spec_ok spec /\ sp_Name spec = rc_Name rc /\ effective = spec_domain spec.
Proof.
  intros (node & cp & w & domain & -> & Hi & Hn & Hs & Hh & Hd & He & _ & Hcp & Hw & _)%parse_cluster_inv.
  apply effective_domain_inv in He as [-> Hv]. split_and!; [|done..].
  constructor; cbn; try done; [tauto|]. unfold spec_domain. cbn.
  destruct Hd as [-> | (Hne & _ & Hd)]; [by apply Hv|]. destruct (String.eqb_spec domain ""); [done|]. by eapply Validate_unsafe.
Qed.

Lemma parse_clusters_ok talos seen seenDomains rcs specs :
  parse_clusters (E := E) talos seen seenDomains rcs = Ok specs ->
  (sp_Name <$> specs) = (rc_Name <$> rcs) /\ Forall spec_ok specs /\
  NoDup (sp_Name <$> specs) /\ NoDup (spec_domain <$> specs) /\
  (forall c, c ∈ specs -> (sp_Name c ∉ seen) /\ (seenDomains !! spec_domain c) = None).
Proof.
  revert seen seenDomains specs. induction rcs as [|rc rcs IH]; intros seen sd specs H; cbn in H.
  { injection H as <-. split_and!; try constructor; by apply not_elem_of_nil in H. }
  destruct (parse_cluster _ _ _ rc) as [[spec eff]|] eqn:Hp; [|done].
  destruct (parse_clusters _ _ _ rcs) as [specs'|] eqn:Hps; [|done]. injection H as <-.
  pose proof (parse_cluster_inv _ _ _ _ _ _ Hp) as (node & cp & w & domain & _ & _ & _ & Hs & _ & _ & _ & Hsd & _).
  apply parse_cluster_ok in Hp as (Hok & Hname & ->).
  apply IH in Hps as (Hnames & Hall & Hnd & Hdd & Hfresh). split_and!.
  - cbn. by rewrite Hname, Hnames.
  - by constructor.
  - cbn. constructor; [|done]. intros (c & Hc & Hin)%list_elem_of_fmap. apply Hfresh in Hin as [Hin _]. apply Hin.
    rewrite <- Hc, Hname. set_solver.
  - cbn. constructor; [|done]. intros (c & Hc & Hin)%list_elem_of_fmap. apply Hfresh in Hin as [_ Hin].
    by rewrite Hc, lookup_insert_eq in Hin.
  - intros c [-> | Hin]%elem_of_cons; [by rewrite Hname|]. apply Hfresh in Hin as [H1 H2]. split; [set_solver|].
    by apply lookup_insert_None in H2 as [? _].
Qed.

(** ** Writing and reading back *)

Definition size_ok (n : NodeDefaults) : Prop := 0 < MemoryMiB n <= int64_max /\ 0 < DiskGiB n <= int64_max / 1024.

Lemma itoa_nonempty n s : itoa n +:+ s <> "" \/ s = "".
Proof. destruct s; [by right|left]. by destruct (itoa n). Qed.

Lemma resolveNode_fields name base n :
  size_ok n -> CPUs n <> 0 -> resolveNode (E := E) name base (node_fields n) = Ok n.
Proof.
  intros [Hm Hd] Hc. unfold resolveNode, node_fields. cbn [rn_Memory rn_CPUs rn_DiskSize].
  assert (String.eqb (sizeString (MemoryMiB n)) "" = false) as ->.
  { apply String.eqb_neq. unfold sizeString. case_match; [by destruct (itoa_nonempty (Z.quot (MemoryMiB n) 1024) "GiB")|
      by destruct (itoa_nonempty (MemoryMiB n) "MiB")]. }
  rewrite size_roundtrip by done. replace (CPUs n =? 0) with false by lia.
  assert (String.eqb (itoa (DiskGiB n) +:+ "GiB") "" = false) as ->
    by (apply String.eqb_neq; by destruct (itoa_nonempty (DiskGiB n) "GiB")).
  rewrite parseSize_GiB by done. rewrite Z.rem_mul, Z.quot_mul by lia. cbn. by destruct n.
Qed.

Lemma resolveRole_fields name base o :
  (forall n, o = Some n -> size_ok n /\ CPUs n <> 0) -> resolveRole (E := E) name base (node_fields <$> o) = Ok o.
Proof.
  intros H. destruct o as [n|]; [|done]. destruct (H n eq_refl) as [Hs Hc]. cbn. by rewrite resolveNode_fields.
Qed.

Lemma resolveNode_cpus name base raw n : CPUs base <> 0 -> resolveNode (E := E) name base raw = Ok n -> CPUs n <> 0.
Proof.
  unfold resolveNode. intros Hb H. repeat (case_head_in H; try discriminate H); injection H as <-; cbn; lia.
Qed.

Lemma resolveRole_cpus name base raw o n :
  CPUs base <> 0 -> resolveRole (E := E) name base raw = Ok o -> o = Some n -> CPUs n <> 0.
Proof.
  unfold resolveRole. intros Hb H ->. destruct raw as [raw|]; [|done].
  destruct (resolveNode name base raw) as [n'|] eqn:Hn; [|done]. injection H as ->. by eapply resolveNode_cpus.
Qed.

Lemma TalosSpec_Equal_iff t other : TalosSpec_Equal t other = true <-> t = other.
Proof.
  destruct t as [v s e], other as [v' s' e']. unfold TalosSpec_Equal. cbn.
  rewrite !andb_true_iff, !String.eqb_eq, eqb_true_iff, bool_decide_eq_true.
  split; [|by intros [= -> -> ->]]. intros [[[-> ->] Hn] He]. revert Hn. repeat case_bool_decide; try done; intros _; subst; [done|].
  destruct e, e'; cbn in He; congruence.
Qed.

(** The stanza [Marshal] leaves out is the one the reader would inherit. *)
Lemma resolveTalos_fields base raw :
  let t := resolveTalos base raw in
  resolveTalos base (if negb (TalosSpec_IsZero t) && negb (TalosSpec_Equal t base) then Some (talos_fields t) else None) = t.
Proof.
  intros t. destruct (TalosSpec_Equal t base) eqn:He.
  { rewrite andb_false_r. by apply TalosSpec_Equal_iff in He as ->. }
  assert (t <> base) as Hne by (intros Heq; by apply TalosSpec_Equal_iff in Heq; rewrite Heq in He).
  rewrite andb_true_r. destruct raw as [[v s e]|]; [|done]. destruct base as [bv bs be]. unfold t, resolveTalos in *. cbn in *.
  destruct (TalosSpec_IsZero _) eqn:Hz; cbn.
  - destruct Hne. unfold TalosSpec_IsZero in Hz. cbn in Hz.
    apply andb_true_iff in Hz as [[H1%String.eqb_eq H2%String.eqb_eq]%andb_true_iff H3%bool_decide_eq_true].
    f_equal; [destruct (String.eqb_spec v "")|destruct (String.eqb_spec s "")|destruct e]; congruence.
  - f_equal; [destruct (String.eqb_spec v "") as [->|Hv]|destruct (String.eqb_spec s "") as [->|Hs]|by destruct e, be];
      match goal with |- context [String.eqb ?x ""] => by destruct (String.eqb_spec x "") end.
Qed.

Lemma intent_fields_roundtrip i intent : Intent i = Ok intent -> Intent (intent_fields intent) = Ok intent.
Proof.
  intros (Hi & _)%Intent_Input. rewrite <- Hi. unfold intent_fields, Input. destruct (String.eqb (CNI intent) ""); [done|].
  by destruct (BGP intent), (Hubble intent).
Qed.

Definition spec_sizes_ok (c : ClusterSpec) : Prop :=
  size_ok (sp_Node c) /\ (forall n, sp_ControlPlane c = Some n -> size_ok n) /\ (forall n, sp_Worker c = Some n -> size_ok n).

Lemma parse_cluster_roundtrip talos seen seenDomains rc spec effective :
  parse_cluster (E := E) talos seen seenDomains rc = Ok (spec, effective) -> spec_sizes_ok spec ->
  parse_cluster (E := E) talos seen seenDomains (cluster_fields talos spec) = Ok (spec, effective).
Proof.
  intros (node & cp & w & domain & Hspec & Hi & Hn & Hs & Hh & Hd & He & Hsd & Hcp & Hw & Hnode & Hcpn & Hwn)%parse_cluster_inv.
  intros (Hz & Hzcp & Hzw). rewrite Hspec in Hz, Hzcp, Hzw |- *. cbn in Hz, Hzcp, Hzw.
  assert (CPUs node <> 0) as Hc by (eapply resolveNode_cpus; [|done]; done).
  unfold parse_cluster, cluster_fields. cbn [rc_Name rc_Hypervisor rc_Input sp_Name sp_Hypervisor sp_Intent sp_Talos sp_Domain].
  rewrite Hn, bool_decide_eq_false_2 by done. cbn [negb].
  assert ((if String.eqb (rc_Hypervisor rc) "" then Some "" else ParseName (rc_Hypervisor rc)) = Some (rc_Hypervisor rc)) as ->.
  { repeat (apply elem_of_cons in Hh as [-> | Hh]; [done|]). by apply not_elem_of_nil in Hh. }
  rewrite (intent_fields_roundtrip _ _ Hi).
  match goal with |- context [cluster_domain ?r] => assert (cluster_domain (E := E) r = Ok domain) as -> end.
  { unfold cluster_domain. cbn. destruct Hd as [-> | (Hne & Hnd & Hv)]; [done|].
    rewrite (proj2 (String.eqb_neq _ _) Hne), Hv. by rewrite (proj2 (String.eqb_neq _ _) Hnd). }
  rewrite He, Hsd. unfold resolve_spec. cbn.
  replace (_ <? 1) with false by lia. replace (_ <? 0) with false by lia.
  rewrite resolveNode_fields by done.
  rewrite !resolveRole_fields; [|intros n Hn'; split; [by eauto|eauto using resolveRole_cpus]..].
  by rewrite resolveTalos_fields.
Qed.

Lemma parse_clusters_roundtrip talos seen seenDomains rcs specs :
  parse_clusters (E := E) talos seen seenDomains rcs = Ok specs -> Forall spec_sizes_ok specs ->
  parse_clusters (E := E) talos seen seenDomains (cluster_fields talos <$> specs) = Ok specs.
Proof.
  revert seen seenDomains specs. induction rcs as [|rc rcs IH]; intros seen sd specs H Hz; cbn in H; [by injection H as <-|].
  destruct (parse_cluster _ _ _ rc) as [[spec eff]|] eqn:Hp; [|done].
  destruct (parse_clusters _ _ _ rcs) as [specs'|] eqn:Hps; [|done]. injection H as <-. apply Forall_cons in Hz as [Hz Hzs].
  pose proof (parse_cluster_ok _ _ _ _ _ _ Hp) as (_ & Hname & _).
  cbn. rewrite (parse_cluster_roundtrip _ _ _ _ _ _ Hp Hz). cbn. by rewrite Hname, (IH _ _ _ Hps Hzs).
Qed.
End Facts.

(** An accepted talosbox.yaml is consistent.  The decoded document has version
    1; the clusters come out in file order with their names; the names are valid
    and pairwise different, the domains they are reachable under are canonical and
    pairwise different (the hypothesis name resolution needs), an explicit domain
    passed the policy under the cluster's own opt-in, and every cluster has a
    control plane, no negative worker count and a known hypervisor. *)
Theorem Parse_consistent {E} (decode : string -> result E rawConfig) data cfg :
  Parse decode data = Ok cfg ->
  exists raw, decode data = Ok raw /\ raw_Version raw = Some 1 /\
    cfg_Clusters cfg <> [] /\ (sp_Name <$> cfg_Clusters cfg) = (rc_Name <$> raw_Clusters raw) /\
    Forall spec_ok (cfg_Clusters cfg) /\
    NoDup (sp_Name <$> cfg_Clusters cfg) /\ NoDup (spec_domain <$> cfg_Clusters cfg).
Proof.
  unfold Parse. destruct (decode data) as [raw|] eqn:Hd; [|done]. destruct (raw_Version raw) as [v|] eqn:Hv; [|done].
  destruct (Z.eqb_spec v 1) as [->|]; [|done]. cbn [negb]. case_bool_decide as Hl; [done|].
  destruct (parse_clusters _ _ _ _) as [specs|] eqn:Hp; [|done]. intros [= <-]. cbn.
  apply parse_clusters_ok in Hp as (Hn & Hok & Hnd & Hdd & _). exists raw. split_and!; try done.
  intros ->. apply Hl. by rewrite <- (length_fmap rc_Name), <- Hn.
Qed.

Definition sample_raw : rawConfig :=
  mkRawConfig (Some 1) (mkRawTalos "v1.11.0" "" None)
    [mkRawCluster "lab" "" (Some 3) None (mkInput "cilium" "" None (Some true) None None) "" false
       (mkRawNode "4GiB" 0 "") (Some (mkRawNode "" 4 "40GiB")) None None;
     mkRawCluster "edge" "qemu" None (Some 0) (mkInput "" "" None None None None) "Edge.Home.arpa." false
       (mkRawNode "1536MiB" 0 "") None None (Some (mkRawTalos "" "s" (Some [])))].

Definition sample_config : Config :=
  match Parse (E := unit) (fun _ => Ok sample_raw) "" with Ok cfg => cfg | Err _ => mkConfig (mkTalos "" "" None) [] end.

Lemma Parse_consistent_witness : (sp_Name <$> cfg_Clusters sample_config) = ["lab"; "edge"].
Proof.
  destruct (Parse_consistent (E := unit) (fun _ => Ok sample_raw) "" sample_config) as (raw & [= <-] & _ & _ & -> & _);
    reflexivity.
Defined.

(** The printed file describes the same clusters.  Whatever [Parse] accepted,
    a decoder that reads the fields [Marshal] writes makes [Parse] return the very
    same configuration: keys left out (an inherited talos block, false flags, the
    default domain) come back as they were, the canonical domain is its own
    canonical form, and MiB and GiB sizes are read back exactly, provided the sizes
    are positive and fit a 64-bit MiB count. *)
Theorem Marshal_roundtrip {E} (decode reread : string -> result E rawConfig) data text cfg :
  Parse decode data = Ok cfg ->
  Forall spec_sizes_ok (cfg_Clusters cfg) ->
  reread text = Ok (Marshal_document cfg) ->
  Parse reread text = Ok cfg.
Proof.
  unfold Parse. destruct (decode data) as [raw|]; [|done]. destruct (raw_Version raw) as [v|]; [|done].
  destruct (negb _); [done|]. case_bool_decide as Hl; [done|].
  set (talos := resolveTalos _ _). destruct (parse_clusters talos _ _ _) as [specs|] eqn:Hp; [|done].
  intros [= <-] Hz ->. cbn [raw_Version raw_Talos raw_Clusters Marshal_document cfg_Talos cfg_Clusters] in *. cbn [Z.eqb Pos.eqb negb].
  pose proof (parse_clusters_ok _ _ _ _ _ Hp) as (Hn & _).
  rewrite bool_decide_eq_false_2 by (rewrite length_fmap, <- (length_fmap sp_Name), Hn, length_fmap; done).
  assert (resolveTalos (mkTalos "" "" None) (Some (if TalosSpec_IsZero talos then mkRawTalos "" "" None else talos_fields talos)) = talos) as ->.
  { destruct talos as [v' s' e']. unfold TalosSpec_IsZero, talos_fields, resolveTalos. cbn.
    destruct (String.eqb_spec v' "") as [->|], (String.eqb_spec s' "") as [->|], e'; cbn; try done;
      by rewrite ?(proj2 (String.eqb_neq _ _)) by done. }
  by rewrite (parse_clusters_roundtrip _ _ _ _ _ Hp Hz).
Qed.

Lemma Marshal_roundtrip_witness : Parse (E := unit) (fun _ => Ok (Marshal_document sample_config)) "text" = Ok sample_config.
Proof.
  apply (Marshal_roundtrip (fun _ => Ok sample_raw) (fun _ => Ok (Marshal_document sample_config)) "" "text"); [reflexivity| |reflexivity].
  let l := eval vm_compute in (cfg_Clusters sample_config) in change (cfg_Clusters sample_config) with l.
  unfold spec_sizes_ok, size_ok, int64_max.
  rewrite !Forall_cons, Forall_nil. cbn [sp_Node sp_ControlPlane sp_Worker]. split_and!; try done;
    try (intros n [= <-]); cbn [MemoryMiB DiskGiB]; split_and?; div_lia.
Defined.
