(* ===== verification/HostPressure.v ===== *)
(** * Host pressure ([internal/hostpressure]: pressure.go, provision.go)

    Two gates in front of every guest start: [Assess] judges the host as it stands,
    [AssessProvisionStart] the guests about to boot.  The percentage is computed in
    float64, with the binary64 operations of [SpecFloat].  A message is the list of
    clauses it is put together from, with the numbers they print. *)

From stdpp Require Import base list sets strings.
From Stdlib Require Import ZArith Lia SpecFloat.
From S2P Require Import Prelude.

Local Open Scope Z_scope.

Definition extremeSwapUsedPercent : Z := 90.
Definition steadySwapUsedPercent : Z := 80.
Definition extremeDataVolumeUsedPercent : Z := 95.
Definition bytesPerGiB : Z := Z.shiftl 1 30.
Definition lowFreeSwapBytes : Z := 3 * bytesPerGiB / 2.
Definition substantialSwapUsedPercent : Z := 75.
Definition provisionStartSwapUsedPercent : Z := 80.
Definition provisionStartSwapUsedBytes : Z := Z.shiftl 4 30.

(** Both fields are [uint64]. *)
Record Usage := mkUsage { TotalBytes : Z; AvailableBytes : Z }.

Inductive MemoryPressure :=
| MemoryPressureUnknown
| MemoryPressureNormal
| MemoryPressureWarning
| MemoryPressureCritical.

#[global] Instance MemoryPressure_eq_dec : EqDecision MemoryPressure.
Proof. solve_decision. Defined.

Record Snapshot := mkSnapshot {
  Swap : Usage;
  DataVolume : Usage;
  sn_MemoryPressure : MemoryPressure;
  FreeMemoryMiB : Z;
  TotalMemoryMiB : Z;
  sn_CompressorMiB : Z
}.

Inductive Severity := SeverityWarn | SeverityBlock.

#[global] Instance Severity_eq_dec : EqDecision Severity.
Proof. solve_decision. Defined.

(** ** Percentages *)

Definition UsedBytes (u : Usage) : Z :=
  if TotalBytes u <=? AvailableBytes u then 0 else TotalBytes u - AvailableBytes u.

(** [float64(z)] *)
Definition float64 (z : Z) : spec_float := binary_normalize 53 1024 z 0 false.

(** [int(f)], truncation towards zero, for the values that occur. *)
Definition int_of_float (f : spec_float) : Z :=
  match f with
  | S754_finite s m e =>
      let a := if 0 <=? e then Z.pos m * 2 ^ e else Z.pos m / 2 ^ (- e) in if s then - a else a
  | _ => 0
  end.

Definition percentUsed (u : Usage) : Z :=
  if TotalBytes u =? 0 then 0
  else int_of_float (SFdiv 53 1024 (SFmul 53 1024 (float64 (UsedBytes u)) (float64 100)) (float64 (TotalBytes u))).

(** ** Messages *)

Inductive clause :=
| PressureUnmeasured
| PressureIs (p : MemoryPressure)
| SwapUsage (percent used total available : Z)
| CompressorOf (compressor total : Z)
| Compressor (compressor : Z)
| FreeAgainst (free required : Z)
| FreeUnmeasuredAgainst (required : Z)
| SwapKeptWhileNormal
| MemoryConsequence
| DataVolumeUsed (percent available : Z)
| HeadroomShort (new running projected free reserve : Z)
| EvenAfterReclaiming (reclaimable : Z)
| SwapCeiling (percent used total running new : Z) (p : MemoryPressure)
| ArmedByPressure
| ArmedByFootprint.

Inductive remedy := memoryRemedy | storageRemedy.

Record Finding := mkFinding { f_Severity : Severity; Detail : list clause; Remedy : remedy }.

Definition pressure_clause (s : Snapshot) : clause :=
  if decide (sn_MemoryPressure s = MemoryPressureUnknown) then PressureUnmeasured else PressureIs (sn_MemoryPressure s).

Definition memoryDetail (s : Snapshot) (requiredFreeMiB : Z) (includeHeadroom : bool) : list clause :=
  if TotalBytes (Swap s) =? 0 then [pressure_clause s; MemoryConsequence]
  else
    let usage := [SwapUsage (percentUsed (Swap s)) (UsedBytes (Swap s)) (TotalBytes (Swap s)) (AvailableBytes (Swap s))] in
    let usage := usage ++ (if 0 <? TotalMemoryMiB s then [CompressorOf (sn_CompressorMiB s) (TotalMemoryMiB s)]
                           else if 0 <? sn_CompressorMiB s then [Compressor (sn_CompressorMiB s)] else []) in
    let usage := usage ++ (if includeHeadroom then
                             if 0 <? FreeMemoryMiB s then [FreeAgainst (FreeMemoryMiB s) requiredFreeMiB]
                             else [FreeUnmeasuredAgainst requiredFreeMiB]
                           else []) in
    match sn_MemoryPressure s with
    | MemoryPressureNormal => usage ++ [SwapKeptWhileNormal; MemoryConsequence]
    | _ => usage ++ [pressure_clause s; MemoryConsequence]
    end.

(** ** The host as it stands *)

Definition SteadySwapFinding (s : Snapshot) : option Finding :=
  if percentUsed (Swap s) <? steadySwapUsedPercent then None
  else Some (mkFinding SeverityWarn
               [SwapUsage (percentUsed (Swap s)) (UsedBytes (Swap s)) (TotalBytes (Swap s)) (AvailableBytes (Swap s))]
               memoryRemedy).

(** [None] is the zero severity. *)
Definition memoryFinding (s : Snapshot) (requiredFreeMiB : Z) : option Finding :=
  let swapEnabled := 0 <? TotalBytes (Swap s) in
  let swapExhausted := swapEnabled && (extremeSwapUsedPercent <=? percentUsed (Swap s)) in
  let swapNearlyFull := swapEnabled && (AvailableBytes (Swap s) <? lowFreeSwapBytes) &&
                        (substantialSwapUsedPercent <=? percentUsed (Swap s)) in
  let hasRequiredFreeMemory := (0 <? FreeMemoryMiB s) && (requiredFreeMiB <=? FreeMemoryMiB s) in
  let steady := match SteadySwapFinding s with Some _ => Some SeverityWarn | None => None end in
  let severity :=
    match sn_MemoryPressure s with
    | MemoryPressureCritical => Some SeverityBlock
    | MemoryPressureWarning =>
        if (swapExhausted || swapNearlyFull) && negb hasRequiredFreeMemory then Some SeverityBlock else Some SeverityWarn
    | MemoryPressureNormal => steady
    | MemoryPressureUnknown =>
        if swapExhausted then if negb hasRequiredFreeMemory then Some SeverityBlock else Some SeverityWarn else steady
    end in
  match severity with
  | None => None
  | Some severity =>
      let headroomDecidesSeverity :=
        (bool_decide (sn_MemoryPressure s = MemoryPressureWarning) && (swapExhausted || swapNearlyFull)) ||
        (bool_decide (sn_MemoryPressure s = MemoryPressureUnknown) && swapExhausted) in
      Some (mkFinding severity (memoryDetail s requiredFreeMiB headroomDecidesSeverity) memoryRemedy)
  end.

Definition Assess (s : Snapshot) (requiredFreeMiB : Z) : list Finding :=
  (match memoryFinding s requiredFreeMiB with Some f => [f] | None => [] end) ++
  (if extremeDataVolumeUsedPercent <=? percentUsed (DataVolume s)
   then [mkFinding SeverityBlock [DataVolumeUsed (percentUsed (DataVolume s)) (AvailableBytes (DataVolume s))] storageRemedy]
   else []).

Definition GuestHeadroomMiB (freeMiB reserveMiB : Z) : Z :=
  let roomMiB := wrap64 (freeMiB - reserveMiB) in if 0 <? roomMiB then roomMiB else 0.

(** ** The guests about to boot *)

Record ProvisionStart := mkStart {
  RunningVMMiB : Z;
  NewVMMiB : Z;
  HostFreeMiB : Z;
  HostTotalMiB : Z;
  ReserveMiB : Z;
  ReclaimableMiB : Z;
  ps_MemoryPressure : MemoryPressure;
  ps_Swap : Usage
}.

Record ProvisionStartPlan := mkPlan { Findings : list Finding; ReclaimMiB : Z }.

Definition ProvisionStartShortfallMiB (i : ProvisionStart) : Z :=
  if (RunningVMMiB i <=? 0) || (NewVMMiB i <=? 0) || (HostFreeMiB i <=? 0) then 0
  else wrap64 (ReserveMiB i - wrap64 (HostFreeMiB i - NewVMMiB i)).

Definition reclaimShortfallClause (i : ProvisionStart) : list clause :=
  if ReclaimableMiB i <=? 0 then [] else [EvenAfterReclaiming (ReclaimableMiB i)].

Definition provisionStartMemoryIsScarce (i : ProvisionStart) : bool :=
  if (HostFreeMiB i <=? 0) || (HostTotalMiB i <=? 0) then true else wrap64 (HostFreeMiB i * 2) <? HostTotalMiB i.

Definition swapBlocksProvisionStart (i : ProvisionStart) : bool :=
  if (TotalBytes (ps_Swap i) =? 0) || (percentUsed (ps_Swap i) <? provisionStartSwapUsedPercent) then false
  else if bool_decide (ps_MemoryPressure i = MemoryPressureCritical) then true
  else if (0 <? HostFreeMiB i) && (wrap64 (ReserveMiB i + NewVMMiB i) <=? HostFreeMiB i) then false
  else if negb (bool_decide (ps_MemoryPressure i = MemoryPressureNormal)) then true
  else (provisionStartSwapUsedBytes <=? UsedBytes (ps_Swap i)) && provisionStartMemoryIsScarce i.

Definition provisionStartSwapArmedBy (i : ProvisionStart) : clause :=
  if negb (bool_decide (ps_MemoryPressure i = MemoryPressureNormal)) then ArmedByPressure else ArmedByFootprint.

Definition headroom_finding (i : ProvisionStart) : Finding :=
  mkFinding SeverityBlock
    ([HeadroomShort (NewVMMiB i) (RunningVMMiB i) (wrap64 (HostFreeMiB i - NewVMMiB i)) (HostFreeMiB i) (ReserveMiB i)] ++
     reclaimShortfallClause i ++ [MemoryConsequence]) memoryRemedy.

Definition swap_finding (i : ProvisionStart) : Finding :=
  mkFinding SeverityBlock
    [SwapCeiling (percentUsed (ps_Swap i)) (UsedBytes (ps_Swap i)) (TotalBytes (ps_Swap i)) (RunningVMMiB i) (NewVMMiB i)
       (ps_MemoryPressure i); provisionStartSwapArmedBy i; MemoryConsequence] memoryRemedy.

Definition AssessProvisionStart (i : ProvisionStart) : ProvisionStartPlan :=
  if (RunningVMMiB i <=? 0) || (NewVMMiB i <=? 0) then mkPlan [] 0
  else
    let plan :=
      if 0 <? HostFreeMiB i then
        let shortfallMiB := ProvisionStartShortfallMiB i in
        if shortfallMiB <=? 0 then mkPlan [] 0
        else if shortfallMiB <=? ReclaimableMiB i then mkPlan [] shortfallMiB
        else mkPlan [headroom_finding i] 0
      else mkPlan [] 0 in
    if swapBlocksProvisionStart i then mkPlan (Findings plan ++ [swap_finding i]) (ReclaimMiB plan) else plan.

(** Percentages at and next to the thresholds, on an 8 GiB swap file. *)
Example percent_thresholds :
  percentUsed <$> [mkUsage 8589934592 858993460; mkUsage 8589934592 858993459; mkUsage 8589934592 0; mkUsage 5 1; mkUsage 0 0] =
  [89; 90; 100; 80; 0].
Proof. vm_compute. reflexivity. Qed.

(** ** The start gate *)

(** Memory amounts far from the ends of [int]. *)
Definition bounded (i : ProvisionStart) : Prop :=
  Forall (fun z => - 2 ^ 60 <= z <= 2 ^ 60)
    [RunningVMMiB i; NewVMMiB i; HostFreeMiB i; HostTotalMiB i; ReserveMiB i; ReclaimableMiB i].

Lemma bounded_fields i :
  bounded i -> - 2 ^ 60 <= NewVMMiB i <= 2 ^ 60 /\ - 2 ^ 60 <= HostFreeMiB i <= 2 ^ 60 /\
  - 2 ^ 60 <= HostTotalMiB i <= 2 ^ 60 /\ - 2 ^ 60 <= ReserveMiB i <= 2 ^ 60.
Proof. unfold bounded. rewrite !Forall_cons. tauto. Qed.

Lemma shortfall_exact i :
  bounded i -> 0 < RunningVMMiB i -> 0 < NewVMMiB i -> 0 < HostFreeMiB i ->
  ProvisionStartShortfallMiB i = ReserveMiB i + NewVMMiB i - HostFreeMiB i.
Proof.
  intros (H1 & H2 & H3 & H4)%bounded_fields ? ? ?. unfold ProvisionStartShortfallMiB.
  replace ((RunningVMMiB i <=? 0) || (NewVMMiB i <=? 0) || (HostFreeMiB i <=? 0)) with false by lia.
  rewrite (wrap64_id (HostFreeMiB i - NewVMMiB i)) by int64_lia. rewrite wrap64_id by int64_lia. lia.
Qed.

(** The swap rule with unbounded arithmetic. *)
Lemma swap_rule_exact i :
  bounded i ->
  swapBlocksProvisionStart i = true <->
  TotalBytes (ps_Swap i) <> 0 /\ provisionStartSwapUsedPercent <= percentUsed (ps_Swap i) /\
  (ps_MemoryPressure i = MemoryPressureCritical \/
   ~ (0 < HostFreeMiB i /\ ReserveMiB i + NewVMMiB i <= HostFreeMiB i) /\
   (ps_MemoryPressure i <> MemoryPressureNormal \/
    provisionStartSwapUsedBytes <= UsedBytes (ps_Swap i) /\
    (HostFreeMiB i <= 0 \/ HostTotalMiB i <= 0 \/ HostFreeMiB i * 2 < HostTotalMiB i))).
Proof.
  intros (H1 & H2 & H3 & H4)%bounded_fields.
  unfold swapBlocksProvisionStart, provisionStartMemoryIsScarce.
  rewrite (wrap64_id (ReserveMiB i + NewVMMiB i)), (wrap64_id (HostFreeMiB i * 2)) by int64_lia.
  generalize (percentUsed (ps_Swap i)) as pct, (UsedBytes (ps_Swap i)) as used. intros pct used.
  destruct ((TotalBytes (ps_Swap i) =? 0) || (pct <? provisionStartSwapUsedPercent)) eqn:E1; [split; [done|lia]|].
  destruct (decide (ps_MemoryPressure i = MemoryPressureCritical)) as [Hc|Hc];
    [rewrite bool_decide_eq_true_2 by done; split; [|done]; intros _; split_and!; [lia|lia|by left]|].
  rewrite bool_decide_eq_false_2 by done.
  destruct ((0 <? HostFreeMiB i) && (ReserveMiB i + NewVMMiB i <=? HostFreeMiB i)) eqn:E2;
    [split; [done|]; intros (_ & _ & [?|[Hn _]]); [done|lia]|].
  destruct (decide (ps_MemoryPressure i = MemoryPressureNormal)) as [Hn|Hn].
  - rewrite bool_decide_eq_true_2 by done. cbn [negb].
    destruct ((HostFreeMiB i <=? 0) || (HostTotalMiB i <=? 0)) eqn:E3.
    + split; [intros ?; split_and!; [lia|lia|right; split; [lia|right; lia]]|].
      intros (_ & _ & [?|[_ [?|?]]]); [done|done|lia].
    + split; [intros ?; split_and!; [lia|lia|right; split; [lia|right; lia]]|].
      intros (_ & _ & [?|[_ [?|?]]]); [done|done|lia].
  - rewrite bool_decide_eq_false_2 by done. cbn [negb]. split; [intros _|done].
    split_and!; [lia|lia|right; split; [lia|by left]].
Qed.

Lemma findings_differ i : headroom_finding i <> swap_finding i.
Proof. by intros [=]. Qed.

(** The start gate is exact.  While guests run and free memory is measured, the
    headroom refusal is given exactly when free memory, with all that the running
    guests can give back, does not cover the reserve and the new guests; the plan
    asks to reclaim exactly the shortfall, never more than is reclaimable; so a
    start without a finding leaves the reserve free once the reclaim is done.  The
    swap refusal is given exactly under the documented rule: swap at the ceiling and
    either critical pressure, or too little free memory together with pressure off
    normal or a multi-GiB swap footprint while less than half of memory is free.
    With no guest running, nothing is refused. *)
Theorem provision_gate_exact i :
  bounded i ->
  let plan := AssessProvisionStart i in
  let starting := 0 < RunningVMMiB i /\ 0 < NewVMMiB i in
  (headroom_finding i ∈ Findings plan <->
     starting /\ 0 < HostFreeMiB i /\ HostFreeMiB i + Z.max 0 (ReclaimableMiB i) < ReserveMiB i + NewVMMiB i) /\
  (swap_finding i ∈ Findings plan <-> starting /\ swapBlocksProvisionStart i = true) /\
  (forall f, f ∈ Findings plan -> f = headroom_finding i \/ f = swap_finding i) /\
  0 <= ReclaimMiB plan <= Z.max 0 (ReclaimableMiB i) /\
  (0 < ReclaimMiB plan -> HostFreeMiB i + ReclaimMiB plan = ReserveMiB i + NewVMMiB i) /\
  (Findings plan = [] -> starting -> 0 < HostFreeMiB i -> ReserveMiB i + NewVMMiB i <= HostFreeMiB i + ReclaimMiB plan).
Proof.
  intros Hb plan starting. unfold plan, AssessProvisionStart, starting. pose proof (findings_differ i) as Hd.
  destruct ((RunningVMMiB i <=? 0) || (NewVMMiB i <=? 0)) eqn:Es; cbn.
  { rewrite !elem_of_nil. split_and!; try (split; [done|lia]); try lia. by intros ? ?%elem_of_nil. }
  set (p := if 0 <? HostFreeMiB i then _ else _).
  assert ((Findings p = [] \/ Findings p = [headroom_finding i]) /\
          (Findings p = [headroom_finding i] <->
             0 < HostFreeMiB i /\ HostFreeMiB i + Z.max 0 (ReclaimableMiB i) < ReserveMiB i + NewVMMiB i) /\
          0 <= ReclaimMiB p <= Z.max 0 (ReclaimableMiB i) /\
          (0 < ReclaimMiB p -> HostFreeMiB i + ReclaimMiB p = ReserveMiB i + NewVMMiB i) /\
          (Findings p = [] -> 0 < HostFreeMiB i -> ReserveMiB i + NewVMMiB i <= HostFreeMiB i + ReclaimMiB p)) as (Hf & Hh & Hr & Hx & Ha).
  { unfold p. destruct (0 <? HostFreeMiB i) eqn:Ef; [|cbn; split_and!; try lia; [by left|split; [done|lia]]].
    pose proof (shortfall_exact i Hb ltac:(lia) ltac:(lia) ltac:(lia)) as ->.
    repeat case_match; cbn; (split_and!; [first [by left | by right]|split; intros; try done; lia|intros; try done; lia..]). }
  clearbody p.
  assert (Findings (if swapBlocksProvisionStart i then mkPlan (Findings p ++ [swap_finding i]) (ReclaimMiB p) else p) =
          Findings p ++ (if swapBlocksProvisionStart i then [swap_finding i] else [])) as ->
    by (case_match; [done|by rewrite app_nil_r]).
  replace (ReclaimMiB (if swapBlocksProvisionStart i then _ else p)) with (ReclaimMiB p) by (by case_match).
  split_and!; [| | |lia..| |].
  - rewrite elem_of_app. destruct Hf as [Hf|Hf]; rewrite Hf in *.
    + split; [|intros (_ & Hc); discriminate (proj2 Hh Hc)]. intros [?%elem_of_nil|Hs]; [done|]. case_match; [|by apply elem_of_nil in Hs].
      by apply list_elem_of_singleton in Hs.
    + split; [intros _; split; [lia|by apply Hh]|]. intros _. left. constructor.
  - rewrite elem_of_app. split.
    + intros [Hs|Hs]; [destruct Hf as [Hf|Hf]; rewrite Hf in Hs; set_solver|]. case_match; [split; [lia|done]|by apply elem_of_nil in Hs].
    + intros [_ ->]. right. constructor.
  - intros f [Hs|Hs]%elem_of_app; [destruct Hf as [Hf|Hf]; rewrite Hf in Hs; set_solver|]. case_match; set_solver.
  - done.
  - intros [Hn _]%app_nil _. by apply Ha.
Qed.

Definition demo_start : ProvisionStart :=
  mkStart 6144 6144 5000 32768 2048 4096 MemoryPressureNormal (mkUsage 8589934592 1288490188).

Lemma provision_gate_exact_witness :
  Findings (AssessProvisionStart demo_start) = [swap_finding demo_start] /\
  5000 + ReclaimMiB (AssessProvisionStart demo_start) = 2048 + 6144.
Proof.
  destruct (provision_gate_exact demo_start) as (_ & _ & _ & _ & H & _).
  - unfold bounded. rewrite !Forall_cons, Forall_nil. cbn. lia.
  - split; [vm_compute; reflexivity|]. apply H. vm_compute. reflexivity.
Defined.

(** ** The verdict on the host *)

(** How much a pressure reading weighs in the refusal rules. *)
Definition pressure_rank (p : MemoryPressure) : Z :=
  match p with
  | MemoryPressureNormal => 0
  | MemoryPressureUnknown => 1
  | MemoryPressureWarning => 2
  | MemoryPressureCritical => 3
  end.

Definition refuses (findings : list Finding) : bool :=
  existsb (fun f => bool_decide (f_Severity f = SeverityBlock)) findings.

(** The host verdict is monotone.  A refusal of [Assess] does not go away when
    the kernel reports more pressure, less memory is free, more is required, or the
    data volume is fuller, everything else equal; in particular an operator who frees
    memory or stops asking for guests never turns an admission into a refusal. *)
Theorem Assess_monotone s s' required required' :
  Swap s = Swap s' ->
  percentUsed (DataVolume s) <= percentUsed (DataVolume s') ->
  pressure_rank (sn_MemoryPressure s) <= pressure_rank (sn_MemoryPressure s') ->
  FreeMemoryMiB s' <= FreeMemoryMiB s -> required <= required' ->
  refuses (Assess s required) = true -> refuses (Assess s' required') = true.
Proof.
  intros Hswap Hvol Hp Hfree Hreq. unfold refuses, Assess. rewrite !existsb_app, !orb_true_iff.
  intros [Hm|Hd]; [left|right].
  - revert Hm. unfold memoryFinding, SteadySwapFinding. rewrite Hswap.
    generalize (percentUsed (Swap s')) as pct. intros pct.
    set (e := (0 <? TotalBytes (Swap s')) && (extremeSwapUsedPercent <=? pct)).
    set (n := (0 <? TotalBytes (Swap s')) && (AvailableBytes (Swap s') <? lowFreeSwapBytes) && (substantialSwapUsedPercent <=? pct)).
    assert (negb ((0 <? FreeMemoryMiB s) && (required <=? FreeMemoryMiB s)) = true ->
            negb ((0 <? FreeMemoryMiB s') && (required' <=? FreeMemoryMiB s')) = true) as Hmem by lia.
    revert Hmem. generalize (negb ((0 <? FreeMemoryMiB s) && (required <=? FreeMemoryMiB s))) as m.
    generalize (negb ((0 <? FreeMemoryMiB s') && (required' <=? FreeMemoryMiB s'))) as m'. intros m' m Hmem.
    destruct (pct <? steadySwapUsedPercent), (sn_MemoryPressure s), (sn_MemoryPressure s'); cbn in Hp; try lia;
      destruct e, n, m, m'; cbn; try done; by specialize (Hmem eq_refl).
  - revert Hd. destruct (extremeDataVolumeUsedPercent <=? percentUsed (DataVolume s)) eqn:E; [|done].
    by replace (extremeDataVolumeUsedPercent <=? percentUsed (DataVolume s')) with true by lia.
Qed.

Definition demo_host : Snapshot :=
  mkSnapshot (mkUsage 8589934592 858993459) (mkUsage 100 50) MemoryPressureUnknown 3000 32768 0.
Definition demo_worse : Snapshot :=
  mkSnapshot (mkUsage 8589934592 858993459) (mkUsage 100 40) MemoryPressureWarning 2000 32768 512.

Lemma Assess_monotone_witness : refuses (Assess demo_worse 4096) = true.
Proof.
  apply (Assess_monotone demo_host demo_worse 3072 4096); vm_compute; first [reflexivity | discriminate].
Defined.
