(* ===== verification/Bgp.v ===== *)
(** * BGP route reconciliation ([internal/bgp/reconcile.go])

    [Reconciler] drives the host routing table toward the routes learned over BGP.
    The table is the interface [FIB] of the source, a class here, with the laws the
    reconciler relies on in [FIBLaws].  Go ranges over a map in any order: the two
    loops take their order from functions that enumerate a map in some order. *)

From stdpp Require Import base list gmap strings sorting.
From Stdlib Require Import Lia.
From S2P Require Import Prelude.

Record Route := mkRoute { Prefix : string; Nexthop : string }.

Class FIB (W E : Type) := {
  AddHostRoute : string -> string -> W -> result E unit * W;
  DeleteHostRoute : string -> W -> result E unit * W
}.

(** A call that succeeds edits the one route it names; one that fails edits none. *)
Class FIBLaws (W E : Type) `{FIB W E} := {
  routes : W -> gmap string string;
  AddHostRoute_law prefix nexthop w :
    routes (AddHostRoute prefix nexthop w).2 =
      if is_ok (AddHostRoute prefix nexthop w).1 then <[prefix := nexthop]> (routes w) else routes w;
  DeleteHostRoute_law prefix w :
    routes (DeleteHostRoute prefix w).2 =
      if is_ok (DeleteHostRoute prefix w).1 then delete prefix (routes w) else routes w
}.

Section Reconciler.
Context {W E : Type} `{FIB W E}.

(** The reconciler and the host it acts on; [fails] collects the errors. *)
Record state := mkState { injected : gmap string string; host : W; fails : list (string * E) }.

Definition want (desired : list Route) : gmap string string :=
  foldl (fun m route => <[Prefix route := Nexthop route]> m) ∅ desired.

(** One round of the first loop: add, or replace when the next hop changed. *)
Definition add_one (s : state) (kv : string * string) : state :=
  let '(prefix, nexthop) := kv in
  if decide (injected s !! prefix = Some nexthop) then s
  else
    let s := match injected s !! prefix with
             | Some _ => mkState (delete prefix (injected s)) (DeleteHostRoute prefix (host s)).2 (fails s)
             | None => s
             end in
    match AddHostRoute prefix nexthop (host s) with
    | (Err e, w) => mkState (injected s) w (fails s ++ [(prefix, e)])
    | (Ok _, w) => mkState (<[prefix := nexthop]> (injected s)) w (fails s)
    end.

(** One round of the second loop. *)
Definition drop_one (wanted : gmap string string) (s : state) (kv : string * string) : state :=
  match wanted !! kv.1 with
  | Some _ => s
  | None => mkState (delete kv.1 (injected s)) (DeleteHostRoute kv.1 (host s)).2 (fails s)
  end.

Context (range1 range2 : gmap string string -> list (string * string)).

(** [fails] empty is the [nil] error. *)
Definition Reconcile (desired : list Route) (inj : gmap string string) (w : W) : state :=
  let wanted := want desired in
  let s := foldl add_one (mkState inj w []) (range1 wanted) in
  foldl (drop_one wanted) s (range2 (injected s)).

Definition Injected (inj : gmap string string) : list Route :=
  (fun p => mkRoute p (default "" (inj !! p))) <$> sort_strings ((map_to_list inj).*1).

Definition WithdrawAll (inj : gmap string string) (w : W) : gmap string string * W :=
  (∅, foldl (fun w kv => (DeleteHostRoute kv.1 w).2) w (range1 inj)).
End Reconciler.
Arguments state : clear implicits.

Section Facts.
Context {W E : Type} `{FIBLaws W E}.
Implicit Types (s : state W E).

Lemma delete_subseteq_step prefix s :
  injected s ⊆ routes (host s) -> delete prefix (injected s) ⊆ routes (DeleteHostRoute prefix (host s)).2.
Proof.
  intros Hs. rewrite DeleteHostRoute_law. case_match; [by apply delete_mono|]. etrans; [apply delete_subseteq|done].
Qed.

Lemma delete_other prefix p (w : W) : p <> prefix -> routes (DeleteHostRoute prefix w).2 !! p = routes w !! p.
Proof. intros Hp. rewrite DeleteHostRoute_law. case_match; [by rewrite lookup_delete_ne|done]. Qed.

(** One round of the first loop, seen at every prefix. *)
Lemma add_one_spec s prefix nexthop :
  injected s ⊆ routes (host s) ->
  let s' := add_one s (prefix, nexthop) in
  injected s' ⊆ routes (host s') /\
  (forall p, p <> prefix -> injected s' !! p = injected s !! p /\ routes (host s') !! p = routes (host s) !! p) /\
  (injected s !! prefix = Some nexthop -> s' = s) /\
  (injected s' !! prefix = Some nexthop /\ fails s' = fails s \/
   injected s' !! prefix = None /\ exists e, fails s' = fails s ++ [(prefix, e)]).
Proof.
  intros Hs. unfold add_one. case_decide as Hd; [cbn; eauto 10|].
  set (s1 := match injected s !! prefix with Some _ => _ | None => _ end).
  assert (injected s1 ⊆ routes (host s1) /\ injected s1 !! prefix = None /\ fails s1 = fails s /\
          forall p, p <> prefix -> injected s1 !! p = injected s !! p /\ routes (host s1) !! p = routes (host s) !! p)
    as (H1 & H2 & H3 & H4).
  { unfold s1. destruct (injected s !! prefix) eqn:Hp; cbn; [|done]. split_and!; [by apply delete_subseteq_step|apply lookup_delete_eq|done|].
    intros p Hne. rewrite lookup_delete_ne by done. split; [done|by apply delete_other]. }
  clearbody s1. pose proof (AddHostRoute_law prefix nexthop (host s1)) as Hl.
  destruct (AddHostRoute prefix nexthop (host s1)) as [[[]|e] w]; cbn in *; rewrite Hl; split_and!; try done.
  - by apply insert_mono.
  - intros p Hne. rewrite !lookup_insert_ne by done. by apply H4.
  - left. by rewrite lookup_insert_eq.
  - right. split; [done|]. exists e. by rewrite H3.
Qed.

Lemma add_loop_spec l s :
  NoDup l.*1 -> injected s ⊆ routes (host s) ->
  let s' := foldl add_one s l in
  injected s' ⊆ routes (host s') /\
  (forall p, p ∉ l.*1 -> injected s' !! p = injected s !! p /\ routes (host s') !! p = routes (host s) !! p) /\
  (forall p n, (p, n) ∈ l -> injected s !! p = Some n ->
     injected s' !! p = Some n /\ routes (host s') !! p = routes (host s) !! p) /\
  (exists new, fails s' = fails s ++ new /\ (forall p, p ∈ new.*1 -> p ∈ l.*1) /\
     forall p n, (p, n) ∈ l -> injected s' !! p = Some n /\ p ∉ new.*1 \/ injected s' !! p = None /\ p ∈ new.*1).
Proof.
  revert s. induction l as [|[prefix nexthop] l IH]; intros s Hnd Hs.
  { cbn. split_and!; [done|done|by intros ? ? ?%elem_of_nil|]. exists []. rewrite app_nil_r.
    split_and!; [done|by intros ? ?%elem_of_nil|by intros ? ? ?%elem_of_nil]. }
  apply NoDup_cons in Hnd as [Hni Hnd]. cbn [foldl fmap list_fmap fst] in *.
  destruct (add_one_spec s prefix nexthop Hs) as (H1 & H2 & H3 & H4).
  set (s1 := add_one s (prefix, nexthop)) in *. destruct (IH s1 Hnd H1) as (K1 & K2 & K3 & new & K4 & K5 & K6).
  set (s' := foldl add_one s1 l) in *. split_and!; [done| | |].
  - intros p [Hp Hl]%not_elem_of_cons. destruct (K2 p Hl) as [-> ->]. by apply H2.
  - intros p n [[= -> ->]|Hin]%elem_of_cons Hi.
    + destruct (K2 prefix Hni) as [-> ->]. by rewrite (H3 Hi).
    + assert (p <> prefix) as Hne by (intros ->; apply Hni; apply list_elem_of_fmap; by exists (prefix, n)).
      destruct (H2 p Hne) as [E1 E2]. rewrite <- E2. apply K3; [done|by rewrite E1].
  - destruct (K2 prefix Hni) as [E1 _].
    assert (prefix ∉ new.*1) as Hnn by (intros ?; by apply Hni, K5).
    destruct H4 as [[Hi Hf]|[Hi (e & Hf)]].
    + exists new. rewrite K4, Hf. split_and!; [done|intros p Hp; right; by apply K5|].
      intros p n [[= -> ->]|Hin]%elem_of_cons; [left; by rewrite E1|by apply K6].
    + exists ((prefix, e) :: new). rewrite K4, Hf, <- app_assoc. split_and!; [done| |].
      * intros p [->|Hp]%elem_of_cons; [by left|right; by apply K5].
      * intros p n [[= -> ->]|Hin]%elem_of_cons; [right; rewrite E1; split; [done|by left]|].
        destruct (K6 p n Hin) as [[? Hx]|[? ?]]; [left; split; [done|]|right; split; [done|by right]].
        intros [->|?]%elem_of_cons; [|done]. apply Hni, list_elem_of_fmap. by exists (prefix, n).
Qed.

(** The second loop removes what is not wanted and touches nothing else. *)
Lemma drop_loop_spec wanted l s :
  injected s ⊆ routes (host s) ->
  let s' := foldl (drop_one wanted) s l in
  injected s' ⊆ routes (host s') /\ fails s' = fails s /\
  (forall p, is_Some (wanted !! p) \/ p ∉ l.*1 ->
     injected s' !! p = injected s !! p /\ routes (host s') !! p = routes (host s) !! p) /\
  (forall p, p ∈ l.*1 -> wanted !! p = None -> injected s' !! p = None) /\
  ((forall p w, is_ok (DeleteHostRoute (E := E) p w).1 = true) ->
   forall p, p ∈ l.*1 -> wanted !! p = None -> routes (host s') !! p = None).
Proof.
  revert s. induction l as [|[prefix nh] l IH]; intros s Hs.
  { cbn. split_and!; [done..|by intros ? ?%elem_of_nil|by intros _ ? ?%elem_of_nil]. }
  cbn [foldl fmap list_fmap fst].
  assert (exists s1, drop_one wanted s (prefix, nh) = s1 /\ injected s1 ⊆ routes (host s1) /\ fails s1 = fails s /\
            (forall p, is_Some (wanted !! p) \/ p <> prefix ->
               injected s1 !! p = injected s !! p /\ routes (host s1) !! p = routes (host s) !! p) /\
            (wanted !! prefix = None -> injected s1 !! prefix = None) /\
            (is_ok (DeleteHostRoute (E := E) prefix (host s)).1 = true -> wanted !! prefix = None -> routes (host s1) !! prefix = None))
    as (s1 & -> & H1 & H2 & H3 & H4 & H5).
  { eexists. split; [done|]. unfold drop_one. cbn. destruct (wanted !! prefix) eqn:Hw; [done|]. cbn.
    split_and!; [by apply delete_subseteq_step|done| |intros; apply lookup_delete_eq|].
    - intros p Hp. assert (p <> prefix) as Hne by (intros ->; destruct Hp as [[? Hp]|]; congruence).
      rewrite lookup_delete_ne by done. split; [done|by apply delete_other].
    - intros Hok _. rewrite DeleteHostRoute_law, Hok. apply lookup_delete_eq. }
  destruct (IH s1 H1) as (K1 & K2 & K3 & K4 & K5). cbn zeta in *. split_and!; [done|congruence| | |].
  - intros p Hp. destruct (K3 p) as [-> ->]; [destruct Hp as [?|[? ?]%not_elem_of_cons]; by auto|].
    apply H3. destruct Hp as [?|[? ?]%not_elem_of_cons]; by auto.
  - intros p Hp Hw. destruct (decide (p ∈ l.*1)) as [|Hn]; [by apply K4|]. apply elem_of_cons in Hp as [->|]; [|done].
    destruct (K3 prefix) as [-> _]; [by right|by apply H4].
  - intros Hok p Hp Hw. destruct (decide (p ∈ l.*1)) as [|Hn]; [by apply K5|]. apply elem_of_cons in Hp as [->|]; [|done].
    destruct (K3 prefix) as [_ ->]; [by right|]. apply H5; [apply Hok|done].
Qed.
End Facts.

Section Converges.
Context {W E : Type} `{FIBLaws W E}.
Context (range1 range2 : gmap string string -> list (string * string)).
Context (range1_perm : forall m, range1 m ≡ₚ map_to_list m) (range2_perm : forall m, range2 m ≡ₚ map_to_list m).

Lemma range_keys range (m : gmap string string) p :
  (forall m', range m' ≡ₚ map_to_list m') -> p ∈ (range m).*1 <-> is_Some (m !! p).
Proof using.
  intros Hr. rewrite Hr, list_elem_of_fmap. split.
  - intros ([k v] & -> & Hin%elem_of_map_to_list). by exists v.
  - intros [v Hv]. exists (p, v). by rewrite elem_of_map_to_list.
Qed.

End Converges.

(** ** A routing table that refuses some prefixes *)

(** [AddHostRoute] fails on the prefixes of [refused], [DeleteHostRoute] on those of [stuck]. *)
Record sim := mkSim { table : gmap string string; refused : list string; stuck : list string }.

#[global] Instance sim_FIB : FIB sim unit := {
  AddHostRoute prefix nexthop w :=
    if decide (prefix ∈ refused w) then (Err tt, w)
    else (Ok tt, mkSim (<[prefix := nexthop]> (table w)) (refused w) (stuck w));
  DeleteHostRoute prefix w :=
    if decide (prefix ∈ stuck w) then (Err tt, w)
    else (Ok tt, mkSim (delete prefix (table w)) (refused w) (stuck w))
}.

#[global] Instance sim_FIBLaws : FIBLaws sim unit.
Proof.
  refine {| routes := table |}; intros; cbn; by case_decide.
Defined.


(** A deletion that fails is forgotten: the route stays in the table and no later
    run tries again. *)
Lemma failed_delete_forgotten :
  let s := Reconcile map_to_list map_to_list [] {["c" := "3"]} (mkSim {["c" := "3"]} [] ["c"]) in
  injected s = ∅ /\ fails s = [] /\ routes (host s) !! "c" = Some "3".
Proof. vm_compute. repeat split. Qed.

(** What [tbx bgp status] shows: the injected routes, once each, by prefix. *)
Lemma Injected_spec (inj : gmap string string) :
  (forall p n, mkRoute p n ∈ Injected inj <-> inj !! p = Some n) /\ NoDup (Prefix <$> Injected inj) /\
  Sorted String.le (Prefix <$> Injected inj).
Proof.
  unfold Injected. rewrite <- list_fmap_compose.
  assert ((Prefix ∘ (fun p => mkRoute p (default "" (inj !! p)))) <$> sort_strings (map_to_list inj).*1 = sort_strings (map_to_list inj).*1)
    as -> by apply list_fmap_id.
  split_and!.
  - intros p n. rewrite list_elem_of_fmap. setoid_rewrite elem_of_sort_strings. setoid_rewrite list_elem_of_fmap. split.
    + intros (k & [= -> Hn] & ([k' v] & -> & Hv%elem_of_map_to_list)). cbn in *. by rewrite Hv in Hn |- *; cbn in Hn; subst.
    + intros Hp. exists p. rewrite Hp. split; [done|]. exists (p, n). by rewrite elem_of_map_to_list.
  - apply NoDup_sort_strings, NoDup_fst_map_to_list.
  - apply Sorted_merge_sort, _.
Qed.
