(* ===== verification/NodePhase.v ===== *)
(** * Node phases and Talos services ([internal/daemon/phase.go], [operations.go])

    What one status reading says of a node: the phase derived from the VM and from a
    probe of its machine API, and the verdict on each Talos service.  Times are
    nanoseconds; the machine API's reports are records with the fields the code
    reads. *)

From stdpp Require Import base list gmap strings sorting.
From Stdlib Require Import ZArith Lia.
From S2P Require Import Prelude GoStrings Cluster.

Local Open Scope Z_scope.

Definition second : Z := 10 ^ 9.
Definition minute : Z := 60 * second.

(** ** Phases *)

Inductive Phase :=
| PhaseStopped | PhaseUnreachable | PhaseMaintenance | PhaseConfigured | PhaseRebooted | PhaseSuspended.

#[global] Instance Phase_eq_dec : EqDecision Phase.
Proof. solve_decision. Defined.

Definition Stopped (p : Phase) : bool := bool_decide (p = PhaseStopped) || bool_decide (p = PhaseSuspended).
Definition Configured (p : Phase) : bool := bool_decide (p = PhaseConfigured) || bool_decide (p = PhaseRebooted).

Record ProbeResult := mkProbe { Dialed : bool; TLS : bool; MaintenanceCert : bool }.

Definition ClassifyPhase (vmRunning : bool) (probe : ProbeResult) : Phase :=
  if negb vmRunning then PhaseStopped
  else if negb (Dialed probe) || negb (TLS probe) then PhaseUnreachable
  else if MaintenanceCert probe then PhaseMaintenance
  else PhaseConfigured.

(** ** Services *)

Inductive ServiceHealth :=
| ServiceHealthUnknown | ServiceHealthStarting | ServiceHealthHealthy | ServiceHealthUnhealthy | ServiceHealthCrashLooping.

#[global] Instance ServiceHealth_eq_dec : EqDecision ServiceHealth.
Proof. solve_decision. Defined.

Record NodeService := mkService {
  svc_Name : string;
  svc_State : string;
  svc_Health : ServiceHealth;
  svc_Message : string;
  svc_Restarts : Z;
  svc_Since : option Z
}.

Definition CrashLooping (s : NodeService) : bool := bool_decide (svc_Health s = ServiceHealthCrashLooping).
Definition Degraded (s : NodeService) : bool :=
  bool_decide (svc_Health s = ServiceHealthCrashLooping) || bool_decide (svc_Health s = ServiceHealthUnhealthy).

Record ServiceObservation := mkObservation {
  obs_State : string;
  obs_Healthy : bool;
  obs_HealthUnknown : bool;
  obs_Message : string;
  obs_Failures : Z;
  obs_Since : option Z
}.

Definition serviceStateRunning : string := "Running".
Definition serviceStateFailed : string := "Failed".
Definition crashLoopFailures : Z := 2.
Definition serviceMessageMaxLen : nat := 160.
Definition kubeletService : string := "kubelet".

(** [strings.EqualFold] *)
Definition equal_fold (a b : string) : bool := String.eqb (to_lower a) (to_lower b).

(** The ellipsis character in UTF-8. *)
Definition ellipsis : string := string_of_bytes [226; 128; 166].

Definition truncateServiceMessage (message : string) : string :=
  if (String.length message <=? serviceMessageMaxLen)%nat then message
  else (take_string serviceMessageMaxLen message +:+ ellipsis)%string.

Definition classifyService (name : string) (o : ServiceObservation) : NodeService :=
  let running := equal_fold (obs_State o) serviceStateRunning in
  let health :=
    if String.eqb (obs_State o) "" then ServiceHealthUnknown
    else if running && negb (obs_HealthUnknown o) && obs_Healthy o then ServiceHealthHealthy
    else if equal_fold (obs_State o) serviceStateFailed || (crashLoopFailures <=? obs_Failures o) then ServiceHealthCrashLooping
    else if negb running then ServiceHealthStarting
    else if obs_HealthUnknown o then ServiceHealthUnknown
    else ServiceHealthUnhealthy in
  mkService name (obs_State o) health (truncateServiceMessage (trim_space (obs_Message o))) (obs_Failures o) (obs_Since o).

(** The machine API's report of one service.  [ev_Ts] is [None] for a timestamp that
    is missing or invalid. *)
Record ServiceEvent := mkEvent { ev_State : string; ev_Msg : string; ev_Ts : option Z }.
Record Health := mkHealth { h_Healthy : bool; h_Unknown : bool; h_LastMessage : string }.
Record ServiceInfo := mkInfo { si_Id : string; si_State : string; si_Health : option Health; si_Events : list ServiceEvent }.

(** The newest transition into the current state that is not in the future. *)
Definition newer_since (state : string) (now : Z) (since : option Z) (e : ServiceEvent) : option Z :=
  if equal_fold (ev_State e) state then
    match ev_Ts e with
    | Some v => if (v <=? now) && (match since with None => true | Some t => t <? v end) then Some v else since
    | None => since
    end
  else since.

Definition observeServiceAt (info : option ServiceInfo) (now : Z) : ServiceObservation :=
  match info with
  | None => mkObservation "" false false "" 0 None
  | Some info =>
      let '(healthy, unknown, message) :=
        match si_Health info with
        | Some h => (h_Healthy h, h_Unknown h, h_LastMessage h)
        | None => (false, true, "")
        end in
      let since := foldl (newer_since (si_State info) now) None (si_Events info) in
      let failures := filter (fun e => equal_fold (ev_State e) serviceStateFailed = true) (si_Events info) in
      let failureMessage := match list.last failures with Some e => ev_Msg e | None => "" end in
      mkObservation (si_State info) healthy unknown
        (if String.eqb failureMessage "" then message else failureMessage)
        (Z.of_nat (length failures)) since
  end.

(** [sort.Slice] by name, and by age then name *)
Definition service_le (a b : NodeService) : Prop := String.le (svc_Name a) (svc_Name b).
#[global] Instance service_le_dec : RelDecision service_le.
Proof. intros a b. unfold service_le. apply _. Defined.
Definition sort_services (l : list NodeService) : list NodeService := merge_sort service_le l.

(** [probeNodeServicesLive] with the reply of the machine API: [None] is a failed
    request, the lists are the messages of the reply. *)
Inductive ServiceProbeStatus := ServiceProbeSucceeded | ServiceProbeMissingCredentials | ServiceProbeFailed.

#[global] Instance ServiceProbeStatus_eq_dec : EqDecision ServiceProbeStatus.
Proof. solve_decision. Defined.

Inductive credentials := NoContext | ContextBroken | ContextFound.

Definition probeNodeServicesLive (creds : credentials) (reply : option (list (list ServiceInfo))) (now : Z)
    : list NodeService * ServiceProbeStatus :=
  match creds with
  | NoContext => ([], ServiceProbeMissingCredentials)
  | ContextBroken => ([], ServiceProbeFailed)
  | ContextFound =>
      match reply with
      | None => ([], ServiceProbeFailed)
      | Some messages =>
          (sort_services ((fun info => classifyService (si_Id info) (observeServiceAt (Some info) now)) <$> concat messages),
           ServiceProbeSucceeded)
      end
  end.

(** ** Status of a node and of a cluster *)

Record StalledService := mkStalled { st_Service : string; st_State : string; st_Since : Z }.

Record NodeStatus := mkStatus {
  ns_Name : string;
  ns_Role : Role;
  ns_MAC : string;
  ns_IP : string;
  ns_APIDReachable : bool;
  ns_Phase : Phase;
  ns_Suspended : bool;
  ns_Kubelet : option NodeService;
  ns_Services : list NodeService;
  ns_StalledServices : list StalledService;
  ns_ServiceProbe : option ServiceProbeStatus;
  ns_StartedAt : option Z;
  ns_UnreachableSince : option Z;
  ns_RebootedAt : option Z
}.

Definition with_phase (p : Phase) (n : NodeStatus) : NodeStatus :=
  mkStatus (ns_Name n) (ns_Role n) (ns_MAC n) (ns_IP n) (ns_APIDReachable n) p (ns_Suspended n) (ns_Kubelet n)
    (ns_Services n) (ns_StalledServices n) (ns_ServiceProbe n) (ns_StartedAt n) (ns_UnreachableSince n) (ns_RebootedAt n).
Definition with_rebooted (p : Phase) (t : option Z) (n : NodeStatus) : NodeStatus :=
  mkStatus (ns_Name n) (ns_Role n) (ns_MAC n) (ns_IP n) (ns_APIDReachable n) p (ns_Suspended n) (ns_Kubelet n)
    (ns_Services n) (ns_StalledServices n) (ns_ServiceProbe n) (ns_StartedAt n) (ns_UnreachableSince n) t.
Definition with_unreachable (t : option Z) (n : NodeStatus) : NodeStatus :=
  mkStatus (ns_Name n) (ns_Role n) (ns_MAC n) (ns_IP n) (ns_APIDReachable n) (ns_Phase n) (ns_Suspended n) (ns_Kubelet n)
    (ns_Services n) (ns_StalledServices n) (ns_ServiceProbe n) (ns_StartedAt n) t (ns_RebootedAt n).
Definition with_services (kubelet : option NodeService) (l : list NodeService) (st : list StalledService)
    (probe : option ServiceProbeStatus) (n : NodeStatus) : NodeStatus :=
  mkStatus (ns_Name n) (ns_Role n) (ns_MAC n) (ns_IP n) (ns_APIDReachable n) (ns_Phase n) (ns_Suspended n) kubelet
    l st probe (ns_StartedAt n) (ns_UnreachableSince n) (ns_RebootedAt n).

Definition UnreachableFor (n : NodeStatus) (now : Z) : Z :=
  match ns_UnreachableSince n with
  | Some t => now - t
  | None => match ns_StartedAt n with Some t => now - t | None => 0 end
  end.

Definition suspendedPhase (n : NodeStatus) : NodeStatus :=
  if ns_Suspended n && bool_decide (ns_Phase n = PhaseStopped) then with_phase PhaseSuspended n else n.

Definition answeredSinceStart (n : NodeStatus) : bool := bool_decide (ns_UnreachableSince n <> None).

Definition nodeStatusWith (node : Node) (subnetIndex : Z) (vmRunning : bool) (lookupIP : string -> Z -> string)
    (probe : string -> ProbeResult) : NodeStatus :=
  let ip := lookupIP (n_MAC node) subnetIndex in
  let probeResult := if vmRunning && negb (String.eqb ip "") then probe ip else mkProbe false false false in
  mkStatus (n_Name node) (n_Role node) (n_MAC node) ip (Dialed probeResult) (ClassifyPhase vmRunning probeResult) false None
    [] [] None None None None.

Definition serviceStallThreshold : Z := 3 * minute.

(** [since], no older than the VM *)
Definition clamp_since (startedAt : option Z) (since : Z) : Z :=
  match startedAt with Some s => if since <? s then s else since | None => since end.

Definition stalled_one (startedAt : option Z) (now : Z) (s : NodeService) : option StalledService :=
  if negb (equal_fold (svc_State s) "Preparing") && negb (equal_fold (svc_State s) "Starting") then None
  else match svc_Since s with
       | None => None
       | Some since =>
           if now <? since then None
           else let since := clamp_since startedAt since in
                if now - since <=? serviceStallThreshold then None
                else Some (mkStalled (svc_Name s) (svc_State s) since)
       end.

Definition stalled_le (a b : StalledService) : Prop :=
  st_Since a < st_Since b \/ (st_Since a = st_Since b /\ String.le (st_Service a) (st_Service b)).
#[global] Instance stalled_le_dec : RelDecision stalled_le.
Proof. intros a b. unfold stalled_le. apply _. Defined.

Definition stalledServices (services : list NodeService) (startedAt : option Z) (now : Z) : list StalledService :=
  merge_sort stalled_le (omap (stalled_one startedAt now) services).

Definition applyNodeServices (n : NodeStatus) (services : list NodeService) (probe : ServiceProbeStatus) (now : Z) : NodeStatus :=
  let services := sort_services services in
  let services :=
    (fun s => mkService (svc_Name s) (svc_State s) (svc_Health s) (svc_Message s) (svc_Restarts s)
                (clamp_since (ns_StartedAt n) <$> svc_Since s)) <$> services in
  let kubelet := match list.last (filter (fun s => svc_Name s = kubeletService) services) with
                 | Some s => Some s
                 | None => ns_Kubelet n
                 end in
  with_services kubelet services (stalledServices services (ns_StartedAt n) now) (Some probe) n.

Inductive StoragePhase := StorageNone | StoragePhaseProvisioning | StoragePhaseLive | StoragePhaseFailed.

#[global] Instance StoragePhase_eq_dec : EqDecision StoragePhase.
Proof. solve_decision. Defined.

Record CapabilityStatus := mkCapability { cap_Name : string; cap_Supported : bool; cap_Reason : string }.

Record ClusterStatus := mkClusterStatus {
  cs_Name : string;
  cs_Domain : string;
  cs_AllowUnsafeDomain : bool;
  cs_TalosVersion : string;
  cs_Schematic : string;
  cs_BaseSchematic : string;
  cs_TalosExtensions : list string;
  cs_Intent : ProvisioningIntent;
  cs_BGP : bool;
  cs_Running : bool;
  cs_Suspended : bool;
  cs_SavedStateStale : bool;
  cs_KubernetesReady : bool;
  cs_KubernetesNotReadySince : option Z;
  cs_StoragePhase : StoragePhase;
  cs_StorageError : string;
  cs_StoragePending : string;
  cs_StorageGate : string;
  cs_VIP : string;
  cs_VIPLive : bool;
  cs_Nodes : list NodeStatus;
  cs_Capabilities : list CapabilityStatus;
  cs_ConfigOrigin : string;
  cs_subnetIndex : Z
}.

Definition with_node_statuses (l : list NodeStatus) (c : ClusterStatus) : ClusterStatus :=
  mkClusterStatus (cs_Name c) (cs_Domain c) (cs_AllowUnsafeDomain c) (cs_TalosVersion c) (cs_Schematic c) (cs_BaseSchematic c)
    (cs_TalosExtensions c) (cs_Intent c) (cs_BGP c) (cs_Running c) (cs_Suspended c) (cs_SavedStateStale c) (cs_KubernetesReady c)
    (cs_KubernetesNotReadySince c) (cs_StoragePhase c) (cs_StorageError c) (cs_StoragePending c) (cs_StorageGate c) (cs_VIP c)
    (cs_VIPLive c) l (cs_Capabilities c) (cs_ConfigOrigin c) (cs_subnetIndex c).
Definition with_not_ready_since (t : option Z) (c : ClusterStatus) : ClusterStatus :=
  mkClusterStatus (cs_Name c) (cs_Domain c) (cs_AllowUnsafeDomain c) (cs_TalosVersion c) (cs_Schematic c) (cs_BaseSchematic c)
    (cs_TalosExtensions c) (cs_Intent c) (cs_BGP c) (cs_Running c) (cs_Suspended c) (cs_SavedStateStale c) (cs_KubernetesReady c)
    t (cs_StoragePhase c) (cs_StorageError c) (cs_StoragePending c) (cs_StorageGate c) (cs_VIP c)
    (cs_VIPLive c) (cs_Nodes c) (cs_Capabilities c) (cs_ConfigOrigin c) (cs_subnetIndex c).

Definition kubernetesUnreadyFor (c : ClusterStatus) (now : Z) : Z :=
  match cs_KubernetesNotReadySince c with None => 0 | Some t => now - t end.

Definition unreadyEscalationWindow : Z := 2 * minute.

Definition KubernetesUnreadyBriefly (c : ClusterStatus) (now : Z) : bool :=
  bool_decide (cs_KubernetesNotReadySince c <> None) && (kubernetesUnreadyFor c now <? unreadyEscalationWindow).

(** ** Lemmas and theorems *)

(** The times of the events a service's age may be read from. *)
Definition transition_times (state : string) (now : Z) (events : list ServiceEvent) : list Z :=
  omap (fun e => if equal_fold (ev_State e) state
                 then match ev_Ts e with Some v => if v <=? now then Some v else None | None => None end else None) events.

Lemma newer_since_max state now events acc :
  let since := foldl (newer_since state now) acc events in
  (forall t, since = Some t -> acc = Some t \/ t ∈ transition_times state now events) /\
  (forall t, acc = Some t \/ t ∈ transition_times state now events -> exists t', since = Some t' /\ t <= t').
Proof.
  revert acc. induction events as [|e events IH]; intros acc; cbn.
  { split; [by left|]. intros t [->|Ht%elem_of_nil]; [by exists t|done]. }
  destruct (IH (newer_since state now acc e)) as [I1 I2]. clear IH.
  unfold newer_since in I1, I2 |- *.
  destruct (equal_fold (ev_State e) state); [|by split].
  destruct (ev_Ts e) as [v|]; [|by split].
  destruct (v <=? now); cbn [andb] in *; [|by split].
  destruct acc as [a|].
  - destruct (a <? v) eqn:E; bool_to_prop.
    + split; [intros t Ht; apply I1 in Ht as [[= ->]|Ht]; right; [left|by right]|].
      intros t [[= ->]|[->|Ht]%elem_of_cons].
      * destruct (I2 v ltac:(by left)) as (t' & -> & ?). exists t'. split; [done|lia].
      * destruct (I2 v ltac:(by left)) as (t' & -> & ?). by exists t'.
      * destruct (I2 t ltac:(by right)) as (t' & -> & ?). by exists t'.
    + split; [intros t Ht; apply I1 in Ht as [[= ->]|Ht]; [by left|right; by right]|].
      intros t [[= ->]|[->|Ht]%elem_of_cons].
      * destruct (I2 t ltac:(by left)) as (t' & -> & ?). by exists t'.
      * destruct (I2 a ltac:(by left)) as (t' & -> & ?). exists t'. split; [done|lia].
      * destruct (I2 t ltac:(by right)) as (t' & -> & ?). by exists t'.
  - split; [intros t Ht; apply I1 in Ht as [[= ->]|Ht]; right; [left|by right]|].
    intros t [?|[->|Ht]%elem_of_cons]; [done|..].
    + destruct (I2 v ltac:(by left)) as (t' & -> & ?). by exists t'.
    + destruct (I2 t ltac:(by right)) as (t' & -> & ?). by exists t'.
Qed.

(** The age a report gives a service: its newest past transition into its state. *)
Lemma observed_since info now t :
  obs_Since (observeServiceAt (Some info) now) = Some t <->
  t ∈ transition_times (si_State info) now (si_Events info) /\
  forall t', t' ∈ transition_times (si_State info) now (si_Events info) -> t' <= t.
Proof.
  pose proof (newer_since_max (si_State info) now (si_Events info) None) as [H1 H2].
  cbn. destruct (si_Health info); cbn.
  all: split; [intros Hs; destruct (H1 t Hs) as [?|Ht]; [done|]; split; [done|]; intros t' Ht';
                 destruct (H2 t' ltac:(by right)) as (t'' & E & ?); congruence|].
  all: intros [Ht Hm]; destruct (H2 t ltac:(by right)) as (t' & E & ?); rewrite E; f_equal;
    destruct (H1 t' E) as [?|Ht']; [done|]; specialize (Hm t' Ht'); lia.
Qed.

Lemma observed_state info now : obs_State (observeServiceAt (Some info) now) = si_State info.
Proof. cbn. by destruct (si_Health info). Qed.

Lemma elem_of_sort_services s l : s ∈ sort_services l <-> s ∈ l.
Proof. unfold sort_services. by rewrite merge_sort_Permutation. Qed.

(** The services of a reply. *)
Lemma elem_of_probed s messages now :
  s ∈ (probeNodeServicesLive ContextFound (Some messages) now).1 <->
  exists info, info ∈ concat messages /\ s = classifyService (si_Id info) (observeServiceAt (Some info) now).
Proof.
  unfold probeNodeServicesLive. cbn [fst]. rewrite elem_of_sort_services, list_elem_of_fmap. naive_solver.
Qed.

Lemma clamp_since_twice s t : clamp_since s (clamp_since s t) = clamp_since s t.
Proof. unfold clamp_since. destruct s as [s|]; [|done]. repeat case_match; bool_to_prop; lia. Qed.

Lemma stalled_one_Some startedAt now s x :
  stalled_one startedAt now s = Some x <->
  (equal_fold (svc_State s) "Preparing" = true \/ equal_fold (svc_State s) "Starting" = true) /\
  exists t, svc_Since s = Some t /\ t <= now /\ x = mkStalled (svc_Name s) (svc_State s) (clamp_since startedAt t) /\
    serviceStallThreshold < now - clamp_since startedAt t.
Proof.
  unfold stalled_one. destruct (equal_fold (svc_State s) "Preparing"), (equal_fold (svc_State s) "Starting"); cbn [negb andb].
  4: { split; [done|]. by intros [[?|?] _]. }
  all: destruct (svc_Since s) as [t|]; [|split; [done|by intros (_ & t & ? & _)]].
  all: destruct (now <? t) eqn:E1; bool_to_prop;
    [split; [done|]; intros (_ & t' & [= <-] & ? & _); lia|].
  all: destruct (now - clamp_since startedAt t <=? serviceStallThreshold) eqn:E2; bool_to_prop;
    [split; [done|]; intros (_ & t' & [= <-] & ? & -> & ?); lia|].
  all: split; [intros [= <-]; split; [tauto|]; exists t; by split_and!|by intros (_ & t' & [= <-] & _ & -> & _)].
Qed.

#[global] Instance stalled_le_total : Total stalled_le.
Proof.
  intros a b. unfold stalled_le. destruct (total String.le (st_Service a) (st_Service b)); destruct (Ztrichotomy (st_Since a) (st_Since b)) as [?|[?|?]];
    [left|left|right|left|right|right]; first [by left; lia | by right].
Qed.

(** Services reported as stalled.  From the machine API's reply, a node's list of
    stalled services holds exactly the services that are preparing or starting and whose
    newest past transition into that state, but not before the VM was launched, is more
    than three minutes old; the list is sorted by age, oldest first. *)
Theorem stalled_services_exact n messages now :
  let services := (probeNodeServicesLive ContextFound (Some messages) now).1 in
  let n' := applyNodeServices n services ServiceProbeSucceeded now in
  Sorted stalled_le (ns_StalledServices n') /\
  forall name state since,
    mkStalled name state since ∈ ns_StalledServices n' <->
    exists info t, info ∈ concat messages /\ si_Id info = name /\ si_State info = state /\
      (equal_fold state "Preparing" = true \/ equal_fold state "Starting" = true) /\
      (t ∈ transition_times state now (si_Events info) /\
       forall t', t' ∈ transition_times state now (si_Events info) -> t' <= t) /\
      since = clamp_since (ns_StartedAt n) t /\ serviceStallThreshold < now - since.
Proof.
  intros services n'. split; [apply Sorted_merge_sort; apply _|]. intros name state since.
  unfold n', applyNodeServices, stalledServices. cbn [with_services ns_StalledServices]. rewrite merge_sort_Permutation.
  rewrite list_elem_of_omap. split.
  - intros (s & Hs & Hx). apply stalled_one_Some in Hx as (Hst & t & Ht & Hle & Hx & Hage). injection Hx as -> -> ->.
    apply list_elem_of_fmap in Hs as (s0 & -> & Hs). rewrite elem_of_sort_services in Hs.
    apply elem_of_probed in Hs as (info & Hi & ->). cbn [svc_Since svc_State svc_Name classifyService] in *.
    apply fmap_Some in Ht as (t0 & Ht0 & ->). rewrite clamp_since_twice, observed_state in *.
    exists info, t0. split_and!; try done; by apply observed_since.
  - intros (info & t & Hi & <- & <- & Hst & Ht & -> & Hage).
    exists (let s := classifyService (si_Id info) (observeServiceAt (Some info) now) in
      mkService (svc_Name s) (svc_State s) (svc_Health s) (svc_Message s) (svc_Restarts s)
                (clamp_since (ns_StartedAt n) <$> svc_Since s)).
    split.
    + apply list_elem_of_fmap. eexists. split; [done|]. rewrite elem_of_sort_services. apply elem_of_probed. by exists info.
    + apply stalled_one_Some. cbn [svc_Since svc_State svc_Name classifyService]. rewrite observed_state. split; [done|].
      exists (clamp_since (ns_StartedAt n) t). rewrite (proj2 (observed_since info now t) Ht), clamp_since_twice.
      split_and!; try done. unfold serviceStallThreshold, minute, second in Hage. lia.
Qed.
