(* ===== verification/NodeTrackers.v ===== *)
(** * What the daemon remembers of its nodes ([internal/daemon]: node_stall.go, reboot.go, readiness_log.go)

    Four logs keyed by "cluster/node" (or cluster): when a node stopped answering,
    which stalls were reported, reboots seen in the boot time the machine API
    reports, and how long Kubernetes has been unready.  Status requests run
    concurrently, so the reboot log is a protocol: a probe is begun, runs outside the
    lock, and is completed in any order, possibly after the node was forgotten. *)

From stdpp Require Import base list gmap strings relations.
From Stdlib Require Import Ascii ZArith Lia.
From S2P Require Import Prelude GoStrings Cluster NodePhase.

Local Open Scope Z_scope.

(** The zero [time.Time]. *)
Definition zero_time : Z := 0.

Definition nodeKey (clusterName nodeName : string) : string := (clusterName +:+ "/" +:+ nodeName)%string.

Definition forgetPrefix {V} (entries : gmap string V) (prefix : string) : gmap string V :=
  filter (fun kv => has_prefix kv.1 prefix = false) entries.

(** ** Silence *)

Record nodeReachability := mkReach { answered : bool; since : Z }.

Abbreviation reachabilityLog := (gmap string nodeReachability) (only parsing).

Definition observe_reachability (key : string) (phase : Phase) (now : Z) (l : reachabilityLog) : option Z * reachabilityLog :=
  match phase with
  | PhaseStopped | PhaseSuspended => (None, delete key l)
  | PhaseUnreachable =>
      let entry := default (mkReach false zero_time) (l !! key) in
      if negb (answered entry) then (None, l)
      else if since entry =? zero_time then (Some now, <[key := mkReach (answered entry) now]> l)
      else (Some (since entry), l)
  | _ => (None, <[key := mkReach true zero_time]> l)
  end.

(** ** Stalls *)

Abbreviation stallLog := (gmap string Z) (only parsing).

(** crossed, age before the recovery, was stalled *)
Definition observe_stall (key : string) (stalled : bool) (age : Z) (l : stallLog) : (bool * Z * bool) * stallLog :=
  match stalled, l !! key with
  | true, None => ((true, 0, false), <[key := age]> l)
  | true, Some _ => ((false, 0, true), <[key := age]> l)
  | false, Some previous => ((false, previous, true), delete key l)
  | false, None => ((false, 0, false), l)
  end.

(** ** Reboots *)

Definition rebootNoticeTTL : Z := 15 * minute.

Record rebootObservation := mkReboot { BootTime : Z; RebootedAt : Z }.
Record rebootProbe := mkRebootProbe { rp_key : string; rp_generation : Z; rp_seq : Z }.
Record rebootState := mkRebootState { rs_observation : rebootObservation; rs_generation : Z; rs_nextSeq : Z; rs_appliedSeq : Z }.

Definition no_reboot : rebootObservation := mkReboot 0 zero_time.
Definition fresh_reboot : rebootState := mkRebootState no_reboot 0 0 0.

Abbreviation rebootLog := (gmap string rebootState) (only parsing).

Definition beginObserve (key : string) (l : rebootLog) : rebootProbe * rebootLog :=
  let state := default fresh_reboot (l !! key) in
  let seq := wrapu 64 (rs_nextSeq state + 1) in
  (mkRebootProbe key (rs_generation state) seq,
   <[key := mkRebootState (rs_observation state) (rs_generation state) seq (rs_appliedSeq state)]> l).

(** observation, previous boot time, changed, applied *)
Definition completeObserve (probe : rebootProbe) (bootTime now : Z) (l : rebootLog)
    : (rebootObservation * Z * bool * bool) * rebootLog :=
  match l !! rp_key probe with
  | None => ((no_reboot, 0, false, false), l)
  | Some state =>
      if negb (rp_generation probe =? rs_generation state) || (rp_seq probe <? rs_appliedSeq state) || (bootTime =? 0)
      then ((no_reboot, 0, false, false), l)
      else
        let previous := rs_observation state in
        let put (o : rebootObservation) :=
          <[rp_key probe := mkRebootState o (rs_generation state) (rs_nextSeq state) (rp_seq probe)]> l in
        if BootTime previous =? 0 then
          let o := mkReboot bootTime zero_time in ((o, 0, false, true), put o)
        else if BootTime previous =? bootTime then ((previous, BootTime previous, false, true), put previous)
        else let o := mkReboot bootTime now in ((o, BootTime previous, true, true), put o)
  end.

Definition current (key : string) (now : Z) (l : rebootLog) : option rebootObservation :=
  match l !! key with
  | None => None
  | Some state =>
      let o := rs_observation state in
      if (RebootedAt o =? zero_time) || (rebootNoticeTTL <=? now - RebootedAt o) then None else Some o
  end.

Definition forget_state (state : rebootState) : rebootState :=
  mkRebootState no_reboot (wrapu 64 (rs_generation state + 1)) (rs_nextSeq state) 0.

Definition forget_reboot (key : string) (l : rebootLog) : rebootLog :=
  <[key := forget_state (default fresh_reboot (l !! key))]> l.

Definition forgetPrefix_reboot (prefix : string) (l : rebootLog) : rebootLog :=
  map_imap (fun key state => Some (if has_prefix key prefix then forget_state state else state)) l.

Definition forgetAll_reboot (l : rebootLog) : rebootLog := forget_state <$> l.

(** ** Kubernetes readiness *)

Record unreadyRun := mkRun { run_since : Z; run_last : Z }.
Abbreviation readinessLog := (gmap string unreadyRun) (only parsing).

Definition unreadyRunAbandonWindow : Z := 10 * minute.

Definition observe_readiness (name : string) (ready : bool) (now : Z) (l : readinessLog) : option Z * readinessLog :=
  if ready then (None, delete name l)
  else
    let start :=
      match l !! name with
      | None => now
      | Some run => if (unreadyRunAbandonWindow <? now - run_last run) || (now <? run_since run) then now else run_since run
      end in
    (Some start, <[name := mkRun start now]> l).

(** ** The server's trackers *)

Record Trackers := mkTrackers {
  vmStarts : gmap string (gmap string Z);
  reachability : reachabilityLog;
  stalls : stallLog;
  reboots : rebootLog;
  readiness : readinessLog
}.

Definition recordVMStart (clusterName nodeName : string) (now : Z) (t : Trackers) : Trackers :=
  let key := nodeKey clusterName nodeName in
  let nodes := default ∅ (vmStarts t !! clusterName) in
  mkTrackers (<[clusterName := <[nodeName := now]> nodes]> (vmStarts t)) (delete key (reachability t)) (delete key (stalls t))
    (forget_reboot key (reboots t)) (readiness t).

Definition forgetNode (clusterName nodeName : string) (t : Trackers) : Trackers :=
  let key := nodeKey clusterName nodeName in
  let starts :=
    match vmStarts t !! clusterName with
    | None => vmStarts t
    | Some nodes => let nodes := delete nodeName nodes in
                    if decide (nodes = ∅) then delete clusterName (vmStarts t) else <[clusterName := nodes]> (vmStarts t)
    end in
  mkTrackers starts (delete key (reachability t)) (delete key (stalls t)) (forget_reboot key (reboots t)) (readiness t).

Definition forgetCluster (clusterName : string) (t : Trackers) : Trackers :=
  let prefix := (clusterName +:+ "/")%string in
  mkTrackers (delete clusterName (vmStarts t)) (forgetPrefix (reachability t) prefix) (forgetPrefix (stalls t) prefix)
    (forgetPrefix_reboot prefix (reboots t)) (delete clusterName (readiness t)).

Definition forgetAllNodeTracking (t : Trackers) : Trackers := mkTrackers ∅ ∅ ∅ (forgetAll_reboot (reboots t)) ∅.

Definition vmStartedAt (clusterName nodeName : string) (t : Trackers) : option Z :=
  nodes ← vmStarts t !! clusterName; nodes !! nodeName.

(** *** Observations of a status request *)

Definition nodeStallThreshold : Z := 3 * minute.

Inductive stall_line :=
| StoppedAnswering (cluster node : string) (age : Z)
| NeverAnswered (cluster node : string) (age : Z)
| AnsweredAgain (cluster node : string) (after : Z) (phase : Phase).

Definition log_node_stall (clusterName : string) (now : Z) (acc : list stall_line * stallLog) (n : NodeStatus) : list stall_line * stallLog :=
  let '(lines, l) := acc in
  let key := nodeKey clusterName (ns_Name n) in
  if Stopped (ns_Phase n) then (lines, delete key l)
  else
    let age := UnreachableFor n now in
    let stalled := bool_decide (ns_Phase n = PhaseUnreachable) && (nodeStallThreshold <? age) in
    let '((crossed, recoveredAfter, wasStalled), l) := observe_stall key stalled age l in
    (lines ++ (if crossed && answeredSinceStart n then [StoppedAnswering clusterName (ns_Name n) age]
               else if crossed then [NeverAnswered clusterName (ns_Name n) age]
               else if negb stalled && wasStalled then [AnsweredAgain clusterName (ns_Name n) recoveredAfter (ns_Phase n)]
               else []), l).

Definition logNodeStalls (statuses : list ClusterStatus) (now : Z) (l : stallLog) : list stall_line * stallLog :=
  foldl (fun acc c => foldl (log_node_stall (cs_Name c) now) acc (cs_Nodes c)) ([], l) statuses.

Definition applyNodeReboot (clusterName : string) (n : NodeStatus) (probe : rebootProbe) (bootTime : option Z) (now : Z)
    (l : rebootLog) : NodeStatus * rebootLog :=
  let key := nodeKey clusterName (ns_Name n) in
  let phase := if bool_decide (ns_Phase n = PhaseRebooted) then PhaseConfigured else ns_Phase n in
  let l := match bootTime with
           | Some b => if b =? 0 then l else (completeObserve probe b now l).2
           | None => l
           end in
  match current key now l with
  | Some active => (with_rebooted PhaseRebooted (Some (RebootedAt active)) n, l)
  | None => (with_rebooted phase None n, l)
  end.

Definition observeKubernetesReadiness (statuses : list ClusterStatus) (now : Z) (l : readinessLog)
    : list ClusterStatus * readinessLog :=
  foldl (fun '(out, l) c =>
    if String.eqb (CNI (cs_Intent c)) "" || negb (cs_Running c) then (out ++ [c], delete (cs_Name c) l)
    else let '(since, l) := observe_readiness (cs_Name c) (cs_KubernetesReady c) now l in
         (out ++ [with_not_ready_since since c], l)) ([], l) statuses.

(** The first pass of [refreshNodeStatusesNarrated] over one cluster's nodes. *)
Definition refresh_node (c : ClusterStatus) (lookupIP : string -> Z -> string) (probe : string -> ProbeResult) (now : Z)
    (acc : list NodeStatus * reachabilityLog) (snapshot : NodeStatus) : list NodeStatus * reachabilityLog :=
  let '(out, l) := acc in
  let node := mkNode (ns_Name snapshot) (ns_Role snapshot) (ns_MAC snapshot) "" in
  let r := nodeStatusWith node (cs_subnetIndex c) (negb (Stopped (ns_Phase snapshot))) lookupIP probe in
  let r := mkStatus (ns_Name r) (ns_Role r) (ns_MAC r) (ns_IP r) (ns_APIDReachable r) (ns_Phase r) (ns_Suspended snapshot)
             (ns_Kubelet r) (ns_Services r) (ns_StalledServices r) (ns_ServiceProbe r) (ns_StartedAt snapshot)
             (ns_UnreachableSince r) (ns_RebootedAt r) in
  let r := suspendedPhase r in
  let '(silent, l) := observe_reachability (nodeKey (cs_Name c) (n_Name node)) (ns_Phase r) now l in
  (out ++ [with_unreachable silent r], l).

Definition refresh_cluster (lookupIP : string -> Z -> string) (probe : string -> ProbeResult) (now : Z)
    (acc : list ClusterStatus * reachabilityLog) (c : ClusterStatus) : list ClusterStatus * reachabilityLog :=
  let '(out, l) := acc in
  let '(nodes, l) := foldl (refresh_node c lookupIP probe now) ([], l) (cs_Nodes c) in
  (out ++ [with_node_statuses nodes c], l).

(** ** The silence of a node, against its history *)

(** Operations on the reachability log, and what they mean for one key. *)
Inductive reach_op :=
| ObserveOp (key : string) (phase : Phase) (now : Z)
| ForgetOp (key : string)
| ForgetPrefixOp (prefix : string)
| ForgetAllOp.

Definition reach_step (l : reachabilityLog) (op : reach_op) : reachabilityLog :=
  match op with
  | ObserveOp key phase now => (observe_reachability key phase now l).2
  | ForgetOp key => delete key l
  | ForgetPrefixOp prefix => forgetPrefix l prefix
  | ForgetAllOp => ∅
  end.

Definition reach_run (ops : list reach_op) : reachabilityLog := foldl reach_step ∅ ops.

Inductive reach_event := Seen (phase : Phase) (now : Z) | Forgotten.

Definition event_of (key : string) (op : reach_op) : option reach_event :=
  match op with
  | ObserveOp k phase now => if decide (k = key) then Some (Seen phase now) else None
  | ForgetOp k => if decide (k = key) then Some Forgotten else None
  | ForgetPrefixOp prefix => if has_prefix key prefix then Some Forgotten else None
  | ForgetAllOp => Some Forgotten
  end.

Definition history (key : string) (ops : list reach_op) : list reach_event := omap (event_of key) ops.

Definition answering (p : Phase) : bool :=
  match p with PhaseMaintenance | PhaseConfigured | PhaseRebooted => true | _ => false end.

Definition unanswered (e : reach_event) : Prop := match e with Seen PhaseUnreachable _ => True | _ => False end.

(** The node answered last, and then only failed to: [t] is the first failure. *)
Definition silent_since (h : list reach_event) (t : Z) : Prop :=
  exists h1 p t0 h3, h = h1 ++ Seen p t0 :: Seen PhaseUnreachable t :: h3 /\ answering p = true /\ Forall unanswered h3.

Definition answering_last (h : list reach_event) : Prop :=
  exists h1 p t0, h = h1 ++ [Seen p t0] /\ answering p = true.

Lemma answering_last_snoc h e : answering_last (h ++ [e]) <-> exists p t0, e = Seen p t0 /\ answering p = true.
Proof.
  split.
  - intros (h1 & p & t0 & E & Hp). apply app_inj_tail in E as [_ ->]. by exists p, t0.
  - intros (p & t0 & -> & Hp). by exists h, p, t0.
Qed.

Lemma silent_since_snoc h e t :
  silent_since (h ++ [e]) t <-> unanswered e /\ (silent_since h t \/ answering_last h /\ e = Seen PhaseUnreachable t).
Proof.
  split.
  - intros (h1 & p & t0 & h3 & E & Hp & Hu). destruct h3 as [|x h3 _] using rev_ind.
    + change (h1 ++ [Seen p t0; Seen PhaseUnreachable t]) with (h1 ++ ([Seen p t0] ++ [Seen PhaseUnreachable t])) in E.
      rewrite app_assoc in E. apply app_inj_tail in E as [-> ->]. split; [done|]. right. split; [|done]. by exists h1, p, t0.
    + rewrite !app_comm_cons, app_assoc in E. apply app_inj_tail in E as [-> ->].
      apply Forall_app in Hu as [Hu Hx]. rewrite Forall_singleton in Hx. split; [done|]. left. by exists h1, p, t0, h3.
  - intros [Hu [(h1 & p & t0 & h3 & -> & Hp & Hf)|[(h1 & p & t0 & -> & Hp) ->]]].
    + exists h1, p, t0, (h3 ++ [e]). split; [by rewrite <- app_assoc|]. split; [done|]. apply Forall_app. by split; [|constructor].
    + exists h1, p, t0, []. split; [by rewrite <- app_assoc|]. by split.
Qed.

(** What the entry of a key says of its history. *)
Definition reach_ok (h : list reach_event) (entry : option nodeReachability) : Prop :=
  match entry with
  | Some e => answered e = true /\
              ((since e = zero_time /\ answering_last h /\ forall t, ~ silent_since h t) \/
               (since e <> zero_time /\ ~ answering_last h /\ forall t, silent_since h t <-> t = since e))
  | None => ~ answering_last h /\ forall t, ~ silent_since h t
  end.

Definition op_time_ok (op : reach_op) : Prop := match op with ObserveOp _ _ now => now <> zero_time | _ => True end.

Lemma reach_ok_forgotten h : reach_ok (h ++ [Forgotten]) None.
Proof.
  split; [rewrite answering_last_snoc; by intros (? & ? & ? & _)|]. intros t. rewrite silent_since_snoc. by intros [? _].
Qed.

(** One observation of a key: the entry it leaves and the answer it gives. *)
Lemma observe_reach_ok h key phase now l : now <> zero_time -> reach_ok h (l !! key) ->
  reach_ok (h ++ [Seen phase now]) ((observe_reachability key phase now l).2 !! key) /\
  (forall t, (observe_reachability key phase now l).1 = Some t <-> silent_since (h ++ [Seen phase now]) t).
Proof.
  intros Hnow Hok.
  assert (answering phase = true -> reach_ok (h ++ [Seen phase now]) (Some (mkReach true zero_time)) /\
          (forall t, None = Some t <-> silent_since (h ++ [Seen phase now]) t)) as Hans.
  { intros Ha. assert (forall t, ~ silent_since (h ++ [Seen phase now]) t) as Hn.
    { intros t. rewrite silent_since_snoc. intros [Hu _]. by destruct phase. }
    split; [|intros t; split; [done|by intros ?%Hn]]. split; [done|]. left. split; [done|]. split; [|done].
    apply answering_last_snoc. by exists phase, now. }
  assert (Stopped phase = true -> reach_ok (h ++ [Seen phase now]) None /\
          (forall t, None = Some t <-> silent_since (h ++ [Seen phase now]) t)) as Hstop.
  { intros Hs. assert (forall t, ~ silent_since (h ++ [Seen phase now]) t) as Hn.
    { intros t. rewrite silent_since_snoc. intros [Hu _]. by destruct phase. }
    split; [|intros t; split; [done|by intros ?%Hn]]. split; [|done].
    rewrite answering_last_snoc. intros (p & t0 & [= <- <-] & Ha). by destruct phase. }
  destruct phase; cbn; rewrite ?lookup_delete_eq, ?lookup_insert_eq; try (by apply Hstop); try (by apply Hans).
  clear Hans Hstop. assert (~ answering_last (h ++ [Seen PhaseUnreachable now])) as Hnl.
  { rewrite answering_last_snoc. by intros (p & t0 & [= <- <-] & ?). }
  destruct (l !! key) as [e|] eqn:E; cbn.
  - destruct Hok as [Ha Hok]. rewrite Ha. cbn. destruct Hok as [(Hz & Hl & Hn)|(Hz & Hl & Hn)].
    + rewrite Hz. cbn. rewrite lookup_insert_eq. split.
      * cbn. split; [done|]. right. split; [done|]. split; [done|]. intros t. rewrite silent_since_snoc.
        split; [intros [_ [?%Hn|[_ [= ->]]]]; done|intros ->; split; [done|right; by split]].
      * intros t. rewrite silent_since_snoc. split; [intros [= ->]; split; [done|right; by split]|intros [_ [?%Hn|[_ [= ->]]]]; done].
    + rewrite (proj2 (Z.eqb_neq _ _) Hz). cbn. rewrite E. split.
      * split; [done|]. right. split; [done|]. split; [done|]. intros t. rewrite silent_since_snoc, Hn.
        split; [by intros [_ [?|[? _]]]|intros ->; split; [done|by left]].
      * intros t. rewrite silent_since_snoc, Hn. split; [intros [= <-]; split; [done|by left]|by intros [_ [->|[? _]]]].
  - rewrite E. destruct Hok as [Hl Hn]. split.
    + split; [done|]. intros t. rewrite silent_since_snoc. by intros [_ [?%Hn|[? _]]].
    + intros t. rewrite silent_since_snoc. split; [done|by intros [_ [?%Hn|[? _]]]].
Qed.

Lemma observe_reach_other key key' phase now l : key' <> key ->
  (observe_reachability key' phase now l).2 !! key = l !! key.
Proof.
  intros Hne. destruct phase; cbn; rewrite ?lookup_delete_ne, ?lookup_insert_ne by done; try done.
  repeat case_match; cbn; rewrite ?lookup_insert_ne by done; done.
Qed.

Lemma reach_run_ok key ops : Forall op_time_ok ops -> reach_ok (history key ops) (reach_run ops !! key).
Proof.
  unfold reach_run, history. induction ops as [|op ops IH] using rev_ind; intros Hops.
  { split; [intros (h1 & p & t0 & E & _)|intros t (h1 & p & t0 & h3 & E & _)]; by destruct h1. }
  apply Forall_app in Hops as [Hops Hop]. rewrite Forall_singleton in Hop. specialize (IH Hops).
  rewrite foldl_app, omap_app. cbn [foldl]. set (l := foldl reach_step ∅ ops) in *.
  destruct op as [k phase now|k|prefix|]; cbn [omap list_omap event_of reach_step].
  - case_decide as Hk; [subst|]; [by apply observe_reach_ok|]. rewrite app_nil_r, observe_reach_other; done.
  - case_decide as Hk; [subst; rewrite lookup_delete_eq; apply reach_ok_forgotten|].
    rewrite app_nil_r, lookup_delete_ne; done.
  - destruct (has_prefix key prefix) eqn:E.
    + replace (forgetPrefix l prefix !! key) with (@None nodeReachability); [apply reach_ok_forgotten|].
      symmetry. apply map_lookup_filter_None. right. intros x _. cbn. by rewrite E.
    + rewrite app_nil_r. replace (forgetPrefix l prefix !! key) with (l !! key); [done|]. symmetry.
      unfold forgetPrefix. destruct (l !! key) as [x|] eqn:El; [by apply map_lookup_filter_Some|].
      apply map_lookup_filter_None. by left.
  - apply reach_ok_forgotten.
Qed.

(** How long a node has been silent.  After any sequence of observations of any
    nodes, stops and forgets, the time an observation reports is exactly the first of
    the uninterrupted failures since the node last answered; a node that has not
    answered since its VM was launched, stopped or forgotten has no such time. *)
Theorem silence_exact key ops phase now t :
  Forall op_time_ok ops -> now <> zero_time ->
  (observe_reachability key phase now (reach_run ops)).1 = Some t <->
  silent_since (history key (ops ++ [ObserveOp key phase now])) t.
Proof.
  intros Hops Hnow. unfold history. rewrite omap_app. cbn. rewrite decide_True by done.
  by apply observe_reach_ok; [|apply reach_run_ok].
Qed.

Lemma silence_exact_witness :
  (observe_reachability "a/n" PhaseUnreachable 9 (reach_run [ObserveOp "a/n" PhaseConfigured 1; ObserveOp "a/m" PhaseStopped 2;
     ObserveOp "a/n" PhaseUnreachable 3; ObserveOp "a/n" PhaseUnreachable 6])).1 = Some 3.
Proof.
  refine (proj2 (silence_exact "a/n" _ PhaseUnreachable 9 3 _ _) _); [repeat constructor; done|done|].
  exists [], PhaseConfigured, 1, [Seen PhaseUnreachable 6; Seen PhaseUnreachable 9]. repeat constructor.
Defined.

(** ** The reboot protocol, against the samples of one incarnation *)

(** A boot time read by the probe numbered [smp_seq], applied at [smp_now]. *)
Record sample := mkSample { smp_seq : Z; smp_boot : Z; smp_now : Z }.

(** What happened to a key: how often it was forgotten, and the samples applied since,
    newest first. *)
Record incarnation := mkIncarnation { epoch : nat; samples : list sample }.

(** The log with the probes in flight, each with the epoch it was begun in. *)
Record reboot_sys := mkSys { sys_log : rebootLog; sys_flights : list (rebootProbe * nat); sys_keys : string -> incarnation }.

Definition upd_key (key : string) (f : incarnation -> incarnation) (g : string -> incarnation) : string -> incarnation :=
  fun k => if decide (k = key) then f (g k) else g k.

Definition bump (i : incarnation) : incarnation := mkIncarnation (S (epoch i)) [].

Inductive reboot_step : reboot_sys -> reboot_sys -> Prop :=
| rb_begin key l fl g :
    reboot_step (mkSys l fl g) (mkSys (beginObserve key l).2 (((beginObserve key l).1, epoch (g key)) :: fl) g)
| rb_complete p e boot now l fl g : (p, e) ∈ fl ->
    reboot_step (mkSys l fl g)
      (mkSys (completeObserve p boot now l).2 fl
         (if (completeObserve p boot now l).1.2
          then upd_key (rp_key p) (fun i => mkIncarnation (epoch i) (mkSample (rp_seq p) boot now :: samples i)) g else g))
| rb_forget key l fl g : reboot_step (mkSys l fl g) (mkSys (forget_reboot key l) fl (upd_key key bump g))
| rb_forgetPrefix prefix l fl g :
    reboot_step (mkSys l fl g)
      (mkSys (forgetPrefix_reboot prefix l) fl
         (fun k => if decide (has_prefix k prefix = true /\ k ∈ dom l) then bump (g k) else g k))
| rb_forgetAll l fl g :
    reboot_step (mkSys l fl g) (mkSys (forgetAll_reboot l) fl (fun k => if decide (k ∈ dom l) then bump (g k) else g k)).

(** The observation a list of samples amounts to. *)
Fixpoint last_change (l : list sample) : Z :=
  match l with
  | x :: ((y :: _) as r) => if smp_boot x =? smp_boot y then last_change r else smp_now x
  | _ => zero_time
  end.

Definition observation_of (l : list sample) : rebootObservation :=
  match l with [] => no_reboot | x :: _ => mkReboot (smp_boot x) (last_change l) end.

Definition newest_seq (l : list sample) : Z := match l with [] => 0 | x :: _ => smp_seq x end.

Definition flights_of (key : string) (fl : list (rebootProbe * nat)) (P : rebootProbe -> nat -> Prop) : Prop :=
  forall p e, (p, e) ∈ fl -> rp_key p = key -> P p e.

Definition key_ok (n : Z) (fl : list (rebootProbe * nat)) (key : string) (i : incarnation) (st : option rebootState) : Prop :=
  match st with
  | None => i = mkIncarnation 0 [] /\ flights_of key fl (fun _ _ => False)
  | Some st =>
      rs_generation st = Z.of_nat (epoch i) /\ Z.of_nat (epoch i) <= n /\ 0 <= rs_nextSeq st <= n /\
      rs_observation st = observation_of (samples i) /\ rs_appliedSeq st = newest_seq (samples i) /\
      Forall (fun s => smp_boot s <> 0 /\ 0 < smp_seq s <= newest_seq (samples i)) (samples i) /\
      flights_of key fl (fun p e => (e <= epoch i)%nat /\ rp_generation p = Z.of_nat e /\ 0 < rp_seq p)
  end.

Definition reboot_inv (n : Z) (s : reboot_sys) : Prop :=
  forall key, key_ok n (sys_flights s) key (sys_keys s key) (sys_log s !! key).

Lemma key_ok_mono n n' fl key i st : n <= n' -> key_ok n fl key i st -> key_ok n' fl key i st.
Proof. unfold key_ok. destruct st; [|done]. intros Hn (H1 & H2 & H3 & H4 & H5 & H6 & H7). split_and!; try done; lia. Qed.

Lemma key_ok_forget n fl key i st : 0 <= n < 2 ^ 63 -> key_ok n fl key i (Some st) ->
  key_ok (n + 1) fl key (bump i) (Some (forget_state st)).
Proof.
  intros Hn (H1 & H2 & H3 & _ & _ & _ & H7). unfold key_ok, forget_state. cbn.
  rewrite H1. unfold wrapu. rewrite Z.mod_small by lia. split_and!; try done; try lia.
  intros p e Hp Hk. destruct (H7 p e Hp Hk) as (? & ? & ?). split_and!; [lia|done|done].
Qed.

Lemma key_ok_fresh n fl key : 0 <= n -> flights_of key fl (fun _ _ => False) ->
  key_ok n fl key (mkIncarnation 0 []) (Some fresh_reboot).
Proof. intros Hn Hf. unfold key_ok. cbn. split_and!; try done; try lia. intros p e Hp Hk. by destruct (Hf p e Hp Hk). Qed.

(** The state an operation finds for a key that may be missing. *)
Lemma key_ok_default n fl key i st : 0 <= n -> key_ok n fl key i st -> key_ok n fl key i (Some (default fresh_reboot st)).
Proof. intros Hn. destruct st as [st|]; [done|]. intros [-> Hf]. by apply key_ok_fresh. Qed.

Lemma key_ok_flight n fl key i st p e : rp_key p <> key -> key_ok n fl key i st -> key_ok n ((p, e) :: fl) key i st.
Proof.
  intros Hne. unfold key_ok. destruct st as [st|].
  - intros (H1 & H2 & H3 & H4 & H5 & H6 & H7). split_and!; try done; try lia.
    intros q e' [[= -> ->]|Hq]%elem_of_cons Hk; [done|]. by apply H7.
  - intros [-> Hf]. split; [done|]. intros q e' [[= -> ->]|Hq]%elem_of_cons Hk; [done|]. by apply (Hf q e').
Qed.

Lemma key_ok_begin n fl key i l : 0 <= n < 2 ^ 63 -> key_ok n fl key i (l !! key) ->
  key_ok (n + 1) (((beginObserve key l).1, epoch i) :: fl) key i ((beginObserve key l).2 !! key).
Proof.
  intros Hn Hok%key_ok_default; [|lia]. unfold beginObserve. cbn [fst snd]. rewrite lookup_insert_eq.
  set (st := default fresh_reboot (l !! key)) in *. destruct Hok as (H1 & H2 & H3 & H4 & H5 & H6 & H7).
  unfold wrapu. rewrite Z.mod_small by lia. unfold key_ok. cbn. split_and!; try done; try lia.
  intros q e' [[= -> ->]|Hq]%elem_of_cons Hk; [|by apply H7]. cbn. split_and!; [done|done|lia].
Qed.

(** Completing a probe of this key, case by case. *)
Lemma complete_spec n fl i p e boot now l :
  key_ok n fl (rp_key p) i (l !! rp_key p) -> (p, e) ∈ fl ->
  let newest := head (samples i) in
  let res := completeObserve p boot now l in
  (if decide (e = epoch i /\ newest_seq (samples i) <= rp_seq p /\ boot <> 0) then
     exists prev, res.1 = (observation_of (mkSample (rp_seq p) boot now :: samples i), prev,
                           match newest with Some x => negb (smp_boot x =? boot) | None => false end, true)
   else res = ((no_reboot, 0, false, false), l)) /\
  key_ok n fl (rp_key p)
    (if res.1.2 then mkIncarnation (epoch i) (mkSample (rp_seq p) boot now :: samples i) else i) (res.2 !! rp_key p) /\
  forall k, k <> rp_key p -> res.2 !! k = l !! k.
Proof.
  intros Hok Hp newest res. unfold res, completeObserve.
  destruct (l !! rp_key p) as [st|] eqn:El; [|by destruct Hok as [_ Hf]; destruct (Hf p e Hp eq_refl)].
  pose proof Hok as (H1 & H2 & H3 & H4 & H5 & H6 & H7). destruct (H7 p e Hp eq_refl) as (He & Hg & Hs).
  rewrite Hg, H1, H5. case_decide as Hd; last first.
  { replace (negb (Z.of_nat e =? Z.of_nat (epoch i)) || (rp_seq p <? newest_seq (samples i)) || (boot =? 0)) with true.
    - cbn. rewrite El. by split_and!.
    - symmetry. rewrite !orb_true_iff, negb_true_iff, Z.eqb_neq, Z.ltb_lt, Z.eqb_eq. lia. }
  destruct Hd as (-> & Hseq & Hb).
  replace (negb (Z.of_nat (epoch i) =? Z.of_nat (epoch i)) || (rp_seq p <? newest_seq (samples i)) || (boot =? 0)) with false.
  2: { symmetry. rewrite !orb_false_iff, negb_false_iff, Z.eqb_eq, Z.ltb_ge, Z.eqb_neq. lia. }
  rewrite H4. unfold newest.
  set (o := observation_of (mkSample (rp_seq p) boot now :: samples i)).
  assert (key_ok n fl (rp_key p) (mkIncarnation (epoch i) (mkSample (rp_seq p) boot now :: samples i))
      (Some (mkRebootState o (Z.of_nat (epoch i)) (rs_nextSeq st) (rp_seq p)))) as Hnew.
  { unfold key_ok. cbn. split_and!; try done; try lia. constructor; [cbn; lia|].
    eapply Forall_impl; [exact H6|]. cbn. intros x (? & ? & ?). split; [done|]. lia. }
  destruct (samples i) as [|x r] eqn:Es; cbn [observation_of no_reboot BootTime].
  - rewrite Z.eqb_refl. cbn. rewrite lookup_insert_eq. split_and!; [by eexists|exact Hnew|].
    intros k Hk. by rewrite lookup_insert_ne.
  - apply Forall_cons in H6 as [[Hx _] _]. rewrite (proj2 (Z.eqb_neq (smp_boot x) 0) Hx). cbn [head].
    assert (o = if smp_boot x =? boot then mkReboot (smp_boot x) (last_change (x :: r)) else mkReboot boot now) as Eo.
    { unfold o. cbn [observation_of smp_boot smp_now last_change]. rewrite (Z.eqb_sym boot).
      destruct (smp_boot x =? boot) eqn:E; [|done]. bool_to_prop. by rewrite E. }
    destruct (smp_boot x =? boot) eqn:E; cbn [fst snd negb].
    + rewrite <- Eo. rewrite lookup_insert_eq. split_and!; [by eexists|exact Hnew|].
      intros k Hk. by rewrite lookup_insert_ne.
    + rewrite <- Eo. rewrite lookup_insert_eq. split_and!; [by eexists|exact Hnew|].
      intros k Hk. by rewrite lookup_insert_ne.
Qed.

Lemma reboot_inv_step n s s' : 0 <= n < 2 ^ 63 -> reboot_inv n s -> reboot_step s s' -> reboot_inv (n + 1) s'.
Proof.
  intros Hn Hinv Hstep. destruct Hstep as [key l fl g|p e boot now l fl g Hp|key l fl g|prefix l fl g|l fl g];
    intros k; specialize (Hinv k); cbn in Hinv |- *.
  - destruct (decide (k = key)) as [->|Hk]; [by apply key_ok_begin|]. rewrite lookup_insert_ne by done.
    apply key_ok_flight; [done|]. by apply (key_ok_mono n); [lia|].
  - destruct (decide (k = rp_key p)) as [->|Hk].
    + destruct (complete_spec n fl (g (rp_key p)) p e boot now l Hinv Hp) as (_ & Hc & _).
      apply (key_ok_mono n); [lia|]. destruct (completeObserve p boot now l).1.2; [|done].
      unfold upd_key. by rewrite decide_True.
    + assert ((completeObserve p boot now l).2 !! k = l !! k) as ->.
      { unfold completeObserve. repeat case_match; cbn; rewrite ?lookup_insert_ne by done; done. }
      apply (key_ok_mono n); [lia|]. destruct (completeObserve p boot now l).1.2; [|done].
      unfold upd_key. by rewrite decide_False.
  - unfold forget_reboot, upd_key. destruct (decide (k = key)) as [->|Hk].
    + rewrite lookup_insert_eq. apply key_ok_forget; [done|]. by apply key_ok_default; [lia|].
    + rewrite lookup_insert_ne by done. by apply (key_ok_mono n); [lia|].
  - unfold forgetPrefix_reboot. rewrite map_lookup_imap. destruct (l !! k) as [st|] eqn:E; cbn.
    + destruct (has_prefix k prefix); [rewrite decide_True by (split; [done|]; apply elem_of_dom; by exists st)
        |rewrite decide_False by (by intros [? _])]; [by apply key_ok_forget|by apply (key_ok_mono n _ _ _ _ (Some st)); [lia|]].
    + rewrite decide_False by (by intros [_ [x Hx]%elem_of_dom]; congruence). done.
  - unfold forgetAll_reboot. rewrite lookup_fmap. destruct (l !! k) as [st|] eqn:E; cbn.
    + rewrite decide_True by (apply elem_of_dom; by exists st). by apply key_ok_forget.
    + rewrite decide_False by (intros [x Hx]%elem_of_dom; congruence). done.
Qed.

Definition reboot_start : reboot_sys := mkSys ∅ [] (fun _ => mkIncarnation 0 []).

Lemma reboot_reachable n s : Z.of_nat n < 2 ^ 63 -> nsteps reboot_step n reboot_start s -> reboot_inv (Z.of_nat n) s.
Proof.
  intros Hb. revert s Hb. induction n as [|n IH]; intros s Hb Hs.
  - inversion Hs; subst. intros key. cbn. split; [done|]. by intros p e ?%elem_of_nil.
  - apply nsteps_inv_r in Hs as (y & Hs & Hy). replace (Z.of_nat (S n)) with (Z.of_nat n + 1) by lia.
    apply (reboot_inv_step _ y); [lia| |done]. apply IH; [lia|done].
Qed.

(** C34: reboots are reported from the samples of one incarnation.  Probes are begun,
    completed in any order and any number of times, and nodes are forgotten in between,
    fewer than 2^63 times in all.  Completing a probe has an effect exactly when the
    node was not forgotten since the probe was begun, no probe begun later has been
    applied, and the boot time is known; otherwise the log is unchanged.  A reboot is
    reported exactly when the sample applied last in this incarnation had another boot
    time, and the notice then shown is the time of the last such change. *)
Theorem reboot_protocol n s p e boot now :
  Z.of_nat n < 2 ^ 63 -> nsteps reboot_step n reboot_start s -> (p, e) ∈ sys_flights s ->
  let i := sys_keys s (rp_key p) in
  let '((o, _, changed, applied), l') := completeObserve p boot now (sys_log s) in
  (applied = true <-> e = epoch i /\ Forall (fun x => smp_seq x <= rp_seq p) (samples i) /\ boot <> 0) /\
  (applied = false -> l' = sys_log s) /\
  (changed = true <-> applied = true /\ exists x, head (samples i) = Some x /\ smp_boot x <> boot) /\
  (applied = true -> o = observation_of (mkSample (rp_seq p) boot now :: samples i) /\
     forall now', current (rp_key p) now' l' =
       if (RebootedAt o =? zero_time) || (rebootNoticeTTL <=? now' - RebootedAt o) then None else Some o).
Proof.
  intros Hb Hs Hp i. pose proof (reboot_reachable n s Hb Hs (rp_key p)) as Hok. fold i in Hok.
  destruct (complete_spec (Z.of_nat n) (sys_flights s) i p e boot now (sys_log s) Hok Hp) as (Hres & Hok' & _).
  assert (newest_seq (samples i) <= rp_seq p <-> Forall (fun x => smp_seq x <= rp_seq p) (samples i)) as Hseq.
  { unfold key_ok in Hok. destruct (sys_log s !! rp_key p) as [st|]; [|by destruct Hok as [_ Hf]; destruct (Hf p e Hp eq_refl)].
    destruct Hok as (_ & _ & _ & _ & _ & H6 & H7). destruct (H7 p e Hp eq_refl) as (_ & _ & Hpos).
    destruct (samples i) as [|x r]; cbn in *; [split; [constructor|lia]|]. split.
    - intros Hle. eapply Forall_impl; [exact H6|]. cbn. lia.
    - by intros [? _]%Forall_cons. }
  case_decide as Hd.
  - destruct Hres as [prev Hres]. destruct (completeObserve p boot now (sys_log s)) as [[[[o pr] ch] ap] l']. cbn [fst snd] in *.
    injection Hres as -> -> -> ->. rewrite <- Hseq. split_and!; [done|done| |].
    + destruct (head (samples i)) as [x|] eqn:Eh; [|split; [done|by intros (_ & x & ? & _)]].
      rewrite negb_true_iff, Z.eqb_neq. split; [intros Hx; split; [done|by exists x]|by intros (_ & y & [= <-] & ?)].
    + intros _. split; [done|]. intros now'. unfold current. destruct (l' !! rp_key p) as [st|]; [|by destruct Hok' as [[=] _]].
      destruct Hok' as (_ & _ & _ & -> & _). done.
  - destruct (completeObserve p boot now (sys_log s)) as [[[[o pr] ch] ap] l']. injection Hres as -> -> -> -> ->.
    rewrite <- Hseq. split_and!; [by split|done|split; [done|by intros [? _]]|done].
Qed.

Definition demo_probe : rebootProbe := (beginObserve "a/n" ∅).1.
Definition demo_sys : reboot_sys :=
  mkSys (forget_reboot "a/n" (beginObserve "a/n" ∅).2) [(demo_probe, 0%nat)] (upd_key "a/n" bump (fun _ => mkIncarnation 0 [])).

Lemma reboot_protocol_witness : (completeObserve demo_probe 9 50 (sys_log demo_sys)).2 = sys_log demo_sys.
Proof.
  assert (nsteps reboot_step 2 reboot_start demo_sys) as Hs.
  { eapply nsteps_l; [apply (rb_begin "a/n" ∅ [] _)|]. eapply nsteps_l; [apply rb_forget|]. constructor. }
  pose proof (reboot_protocol 2 demo_sys demo_probe 0 9 50 ltac:(lia) Hs ltac:(left)) as H.
  destruct (completeObserve demo_probe 9 50 (sys_log demo_sys)) as [[[[o pr] ch] ap] l'] eqn:E.
  destruct H as (_ & H & _). apply H. vm_compute in E. by injection E as _ _ _ <- _.
Defined.

(** ** Lines about stalled nodes *)

(** The lines about one node in a run of the log, with its own observations and the
    moments it is forgotten; other nodes' operations may come in between. *)
Inductive stall_op :=
| StatusOp (cluster : string) (n : NodeStatus) (now : Z)
| StallForgetOp (key : string)
| StallForgetPrefixOp (prefix : string).

Inductive stall_event := Crossed (age : Z) | Recovered (after : Z) | StallForgotten.

Definition line_event (l : stall_line) : stall_event :=
  match l with
  | StoppedAnswering _ _ age | NeverAnswered _ _ age => Crossed age
  | AnsweredAgain _ _ after _ => Recovered after
  end.

(** One operation: the log after it and what it means for [key]. *)
Definition stall_step (key : string) (acc : list stall_event * stallLog) (op : stall_op) : list stall_event * stallLog :=
  let '(evs, l) := acc in
  match op with
  | StatusOp c n now =>
      let '(lines, l') := log_node_stall c now ([], l) n in
      if decide (nodeKey c (ns_Name n) = key) then
        (evs ++ (line_event <$> lines) ++ (if Stopped (ns_Phase n) then [StallForgotten] else []), l')
      else (evs, l')
  | StallForgetOp k => (if decide (k = key) then evs ++ [StallForgotten] else evs, delete k l)
  | StallForgetPrefixOp prefix => (if has_prefix key prefix then evs ++ [StallForgotten] else evs, forgetPrefix l prefix)
  end.

Definition stall_run (key : string) (ops : list stall_op) : list stall_event * stallLog := foldl (stall_step key) ([], ∅) ops.

(** A crossing only when no stall is open, a recovery only when one is. *)
Fixpoint well_paired (is_open : bool) (evs : list stall_event) : Prop :=
  match evs with
  | [] => True
  | Crossed age :: evs => is_open = false /\ nodeStallThreshold < age /\ well_paired true evs
  | Recovered after :: evs => is_open = true /\ nodeStallThreshold < after /\ well_paired false evs
  | StallForgotten :: evs => well_paired false evs
  end.

Definition open_after (is_open : bool) (evs : list stall_event) : bool :=
  foldl (fun o e => match e with Crossed _ => true | _ => false end) is_open evs.
Arguments open_after : simpl never.

Lemma open_after_snoc o evs e : open_after o (evs ++ [e]) = match e with Crossed _ => true | _ => false end.
Proof. unfold open_after. by rewrite foldl_app. Qed.

Lemma well_paired_app o a b : well_paired o (a ++ b) <-> well_paired o a /\ well_paired (open_after o a) b.
Proof.
  revert o. induction a as [|[age|after|] a IH]; intros o; [unfold open_after; cbn; tauto|cbn; rewrite IH; unfold open_after; cbn; tauto..].
Qed.

Definition stall_ok (key : string) (s : list stall_event * stallLog) : Prop :=
  well_paired false s.1 /\
  match s.2 !! key with
  | Some age => open_after false s.1 = true /\ nodeStallThreshold < age
  | None => open_after false s.1 = false
  end.

Lemma stall_ok_forgotten key evs l l' : stall_ok key (evs, l) -> l' !! key = None -> stall_ok key (evs ++ [StallForgotten], l').
Proof.
  intros [Hw _] E. split; cbn in *; [by apply well_paired_app|]. rewrite E. by rewrite open_after_snoc.
Qed.

Lemma stall_ok_status key c n now evs l : stall_ok key (evs, l) -> stall_ok key (stall_step key (evs, l) (StatusOp c n now)).
Proof.
  intros Hok. cbn. set (k := nodeKey c (ns_Name n)). unfold log_node_stall. fold k.
  destruct (Stopped (ns_Phase n)) eqn:Es.
  { case_decide as Hk; cbn.
    - subst key. apply (stall_ok_forgotten k evs l); [done|]. apply lookup_delete_eq.
    - destruct Hok as [Hw Hl]. split; [done|]. cbn in *. by rewrite lookup_delete_ne. }
  set (age := UnreachableFor n now). set (stalled := bool_decide _ && _).
  assert (stalled = true -> nodeStallThreshold < age) as Hage by (unfold stalled; intros ?; bool_to_prop; lia).
  destruct Hok as [Hw Hl]. cbn in Hw, Hl. unfold observe_stall.
  case_decide as Hk; [subst key|].
  - destruct stalled, (l !! k) as [prev|] eqn:El; cbn [andb negb app].
    + cbn. rewrite app_nil_r. split; [done|]. cbn. rewrite lookup_insert_eq. split; [by destruct Hl|by apply Hage].
    + assert (stall_ok k (evs ++ [Crossed age], <[k:=age]> l)) as Hc.
      { split; cbn; [apply well_paired_app; split; [done|]; cbn; rewrite Hl; split_and!; [done|by apply Hage|done]|].
        rewrite lookup_insert_eq. split; [unfold open_after; by rewrite foldl_app|by apply Hage]. }
      destruct (answeredSinceStart n); cbn; exact Hc.
    + cbn. destruct Hl as [Ho Hp]. split; cbn.
      * apply well_paired_app. split; [done|]. cbn. by rewrite Ho.
      * rewrite lookup_delete_eq. by rewrite open_after_snoc.
    + cbn. rewrite app_nil_r. split; [done|]. cbn. by rewrite El.
  - assert (forall l', l' !! key = l !! key -> stall_ok key (evs, l')) as Hother
      by (intros l' E; split; [done|]; cbn; by rewrite E).
    destruct stalled, (l !! k) as [prev|] eqn:El; apply Hother; cbn; rewrite ?lookup_insert_ne, ?lookup_delete_ne; done.
Qed.

(** The daemon's log pairs stalls with recoveries.  Over any history of statuses
    and forgets, the lines about a node alternate: a stall is reported only while none
    is open and only past the threshold, and a recovery only after a stall that was
    reported and not forgotten, with an age past the threshold; stopping or forgetting
    a node closes its stall silently. *)
Theorem stall_lines_paired key ops : well_paired false (stall_run key ops).1.
Proof.
  enough (stall_ok key (stall_run key ops)) as [Hw _] by done.
  unfold stall_run. induction ops as [|op ops IH] using rev_ind; [by split|].
  rewrite foldl_app. cbn [foldl]. destruct (foldl (stall_step key) ([], ∅) ops) as [evs l].
  destruct op as [c n now|k|prefix]; [by apply stall_ok_status| |]; cbn.
  - case_decide as Hk; [subst; apply (stall_ok_forgotten key evs l); [done|apply lookup_delete_eq]|].
    destruct IH as [Hw Hl]. split; [done|]. cbn in *. by rewrite lookup_delete_ne.
  - destruct (has_prefix key prefix) eqn:E.
    + apply (stall_ok_forgotten key evs l); [done|]. apply map_lookup_filter_None. right. intros x _. cbn. by rewrite E.
    + destruct IH as [Hw Hl]. split; [done|]. cbn in *. unfold forgetPrefix.
      destruct (l !! key) as [x|] eqn:El.
      * rewrite (proj2 (map_lookup_filter_Some _ _ _ _)) by (by split). done.
      * rewrite (proj2 (map_lookup_filter_None _ _ _)) by (by left). done.
Qed.

(** ** How long Kubernetes has been unready *)

Inductive ready_op := ReadyOp (name : string) (ready : bool) (now : Z) | ReadyForgetOp (name : string).

Definition ready_step (l : readinessLog) (op : ready_op) : readinessLog :=
  match op with
  | ReadyOp name ready now => (observe_readiness name ready now l).2
  | ReadyForgetOp name => delete name l
  end.

Definition ready_run (ops : list ready_op) : readinessLog := foldl ready_step ∅ ops.

(** What a cluster went through: [Some now] a failing probe, [None] a passing probe or
    a forget. *)
Definition ready_event (name : string) (op : ready_op) : option (option Z) :=
  match op with
  | ReadyOp n ready now => if decide (n = name) then Some (if ready then None else Some now) else None
  | ReadyForgetOp n => if decide (n = name) then Some None else None
  end.

Definition ready_history (name : string) (ops : list ready_op) : list (option Z) := omap (ready_event name) ops.

(** No run reaches [t] from before it: the last event is not a failure watched recently. *)
Definition run_broken (h : list (option Z)) (t : Z) : Prop :=
  match list.last h with Some (Some t') => unreadyRunAbandonWindow < t - t' | _ => True end.

(** A run of failures at the end of [h], the first at [first], the last at [last], with
    no unwatched gap longer than the window. *)
Inductive failing_run : list (option Z) -> Z -> Z -> Prop :=
| run_begins h t : run_broken h t -> failing_run (h ++ [Some t]) t t
| run_goes_on h first last t : failing_run h first last -> t - last <= unreadyRunAbandonWindow ->
    failing_run (h ++ [Some t]) first t.

Lemma failing_run_last h first last : failing_run h first last -> list.last h = Some (Some last).
Proof. intros []; by rewrite last_snoc. Qed.

Definition run_ok (h : list (option Z)) (run : option unreadyRun) : Prop :=
  match run with
  | Some r => failing_run h (run_since r) (run_last r) /\ run_since r <= run_last r
  | None => match list.last h with Some (Some _) => False | _ => True end
  end.

Lemma observe_readiness_ok h name now l : run_ok h (l !! name) ->
  (forall r, l !! name = Some r -> run_last r <= now) ->
  run_ok (h ++ [Some now]) ((observe_readiness name false now l).2 !! name) /\
  exists t, (observe_readiness name false now l).1 = Some t /\ failing_run (h ++ [Some now]) t now /\ t <= now.
Proof.
  intros Hok Hle. unfold observe_readiness. cbn [fst snd]. rewrite lookup_insert_eq. cbn.
  set (start := match l !! name with Some _ => _ | None => _ end).
  assert (failing_run (h ++ [Some now]) start now /\ start <= now) as [H1 H2]; [|split; [done|by exists start]].
  unfold start. destruct (l !! name) as [r|].
  - destruct Hok as [Hr Hs]. specialize (Hle r eq_refl). destruct (unreadyRunAbandonWindow <? now - run_last r) eqn:E; bool_to_prop; cbn [orb].
    + split; [|lia]. apply run_begins. unfold run_broken. rewrite (failing_run_last _ _ _ Hr). done.
    + rewrite (proj2 (Z.ltb_ge now (run_since r))) by lia. split; [|lia]. by eapply run_goes_on.
  - split; [|lia]. apply run_begins. unfold run_broken. unfold run_ok in Hok. by repeat case_match.
Qed.

(** The clock of one cluster's observations does not run backwards. *)
Definition clock_ok (name : string) (ops : list ready_op) : Prop :=
  forall a b t1 t2, ops = a ++ b -> Some t1 ∈ ready_history name a -> Some t2 ∈ ready_history name b -> t1 <= t2.

Lemma ready_run_ok name ops :
  clock_ok name ops -> run_ok (ready_history name ops) (ready_run ops !! name) /\
  (forall r, ready_run ops !! name = Some r -> Some (run_last r) ∈ ready_history name ops).
Proof.
  unfold clock_ok, ready_run, ready_history. induction ops as [|op ops IH] using rev_ind; intros Ht; [by split|].
  destruct IH as [IH IH'].
  { intros a b t1 t2 E H1 H2. apply (Ht a (b ++ [op]) t1 t2); [by rewrite E, app_assoc|done|].
    rewrite omap_app, elem_of_app. by left. }
  rewrite foldl_app, omap_app. cbn [foldl]. set (l := foldl ready_step ∅ ops) in *.
  destruct op as [n ready now|n]; cbn [omap list_omap ready_event ready_step].
  - case_decide as Hn; [subst n|].
    + destruct ready; cbn [fst snd observe_readiness].
      * rewrite lookup_delete_eq. split; [cbn; by rewrite last_snoc|done].
      * destruct (observe_readiness_ok _ name now l IH) as [Hok _].
        { intros r Hr. apply (Ht ops [ReadyOp name false now] _ _ eq_refl (IH' r Hr)). cbn. rewrite decide_True by done. left. }
        split; [done|]. intros r Hr. unfold observe_readiness in Hr. cbn in Hr. rewrite lookup_insert_eq in Hr.
        injection Hr as <-. cbn. apply elem_of_app. right. left.
    + rewrite app_nil_r. assert ((observe_readiness n ready now l).2 !! name = l !! name) as ->; [|by split].
      unfold observe_readiness. destruct ready; cbn; [by rewrite lookup_delete_ne|by rewrite lookup_insert_ne].
  - case_decide as Hn; [subst n; rewrite lookup_delete_eq; split; [cbn; by rewrite last_snoc|done]|].
    rewrite app_nil_r, lookup_delete_ne by done. by split.
Qed.

(** The unready clock counts watched time only.  When the clocks of a cluster's
    observations do not run backwards, a failing readiness probe reports the first
    failure of the run that ends with it: an uninterrupted sequence of failing probes
    without an unwatched gap longer than ten minutes, that cannot be extended
    backwards; a passing probe reports none. *)
Theorem unready_since_exact name ops ready now :
  let ops' := ops ++ [ReadyOp name ready now] in
  clock_ok name ops' ->
  match (observe_readiness name ready now (ready_run ops)).1 with
  | Some t => ready = false /\ failing_run (ready_history name ops') t now /\ t <= now
  | None => ready = true
  end.
Proof.
  intros ops' Ht. destruct (ready_run_ok name ops) as [Hok Hlast].
  { intros a b t1 t2 E H1 H2. apply (Ht a (b ++ [ReadyOp name ready now]) t1 t2); [unfold ops'; by rewrite E, app_assoc|done|].
    unfold ready_history. rewrite omap_app, elem_of_app. by left. }
  destruct ready; [done|]. destruct (observe_readiness_ok _ name now _ Hok) as [_ (t & -> & Hr & Hle)].
  { intros r Hr. apply (Ht ops [ReadyOp name false now] _ _ eq_refl (Hlast r Hr)). cbn. rewrite decide_True by done. left. }
  split_and!; [done| |done]. unfold ops', ready_history in *. rewrite omap_app. cbn. by rewrite decide_True by done.
Qed.

Lemma unready_since_exact_witness :
  failing_run (ready_history "c" ([ReadyOp "c" false 5; ReadyOp "d" true 6] ++ [ReadyOp "c" false 7])) 5 7.
Proof.
  refine (proj1 (proj2 (unready_since_exact "c" [ReadyOp "c" false 5; ReadyOp "d" true 6] false 7 _))).
  intros a b t1 t2 E H1 H2. assert (ready_history "c" a ++ ready_history "c" b = [Some 5; Some 7]) as Eh.
  { unfold ready_history. rewrite <- omap_app, <- E. reflexivity. }
  destruct (ready_history "c" a) as [|x [|y l]]; [by apply elem_of_nil in H1| |].
  - injection Eh as -> Eb. rewrite Eb in H2. set_solver by lia.
  - injection Eh as -> -> Eb. apply app_nil in Eb as [_ Eb]. rewrite Eb in H2. by apply elem_of_nil in H2.
Defined.

(** ** Forgetting a cluster *)

(** A cluster name is a single path element. *)
Definition no_slash (s : string) : Prop := cut "/"%char s = None.

Lemma prefix_same_cluster c c' n : no_slash c -> no_slash c' ->
  has_prefix (nodeKey c' n) (c +:+ "/") = true -> c' = c.
Proof.
  unfold nodeKey, no_slash. revert c'. induction c as [|a c IH]; intros [|a' c'] Hc Hc' Hp; [done|..].
  - change (has_prefix (String a' (c' +:+ "/" +:+ n)) "/" = true) in Hp. cbn in Hp, Hc'. repeat case_decide; simplify_eq; done.
  - change (has_prefix (String "/"%char n) (String a (c +:+ "/")) = true) in Hp. cbn in Hp, Hc. repeat case_decide; simplify_eq; done.
  - change (has_prefix (String a' (c' +:+ "/" +:+ n)) (String a (c +:+ "/")) = true) in Hp. cbn in Hp, Hc, Hc'.
    repeat case_decide; simplify_eq; try done. f_equal. apply IH; [by repeat case_match|by repeat case_match|done].
Qed.

Lemma prefix_own_cluster c n : has_prefix (nodeKey c n) (c +:+ "/") = true.
Proof. unfold nodeKey. rewrite <- string_app_assoc. apply has_prefix_app. Qed.

Lemma forgetPrefix_lookup {V} (m : gmap string V) prefix k :
  forgetPrefix m prefix !! k = if has_prefix k prefix then None else m !! k.
Proof.
  unfold forgetPrefix. destruct (has_prefix k prefix) eqn:E.
  - apply map_lookup_filter_None. right. intros x _. cbn. by rewrite E.
  - destruct (m !! k) as [x|] eqn:Em; [by apply map_lookup_filter_Some|]. apply map_lookup_filter_None. by left.
Qed.

(** Forgetting a cluster drops everything about its nodes, makes their probes in flight
    stale, and leaves every other cluster's entries alone. *)
Lemma forgetCluster_isolated c c' n t : no_slash c -> no_slash c' ->
  let t' := forgetCluster c t in
  let k := nodeKey c' n in
  if decide (c' = c) then
    (vmStartedAt c n t' = None /\ (reachability t' !! k) = None /\ (stalls t' !! k) = None /\ (readiness t' !! c) = None /\
     reboots t' !! k = forget_state <$> reboots t !! k)
  else (vmStartedAt c' n t' = vmStartedAt c' n t /\ reachability t' !! k = reachability t !! k /\ stalls t' !! k = stalls t !! k /\
        readiness t' !! c' = readiness t !! c' /\ reboots t' !! k = reboots t !! k).
Proof.
  intros Hc Hc' t' k. unfold t', forgetCluster, vmStartedAt. cbn [vmStarts reachability stalls readiness reboots].
  unfold forgetPrefix_reboot. rewrite !forgetPrefix_lookup, map_lookup_imap.
  case_decide as E; [subst c'|].
  - unfold k. rewrite (prefix_own_cluster c n), !lookup_delete_eq. split_and!; try done.
  - assert (has_prefix k (c +:+ "/") = false) as ->.
    { destruct (has_prefix k (c +:+ "/")) eqn:Hp; [|done]. by apply prefix_same_cluster in Hp. }
    rewrite !lookup_delete_ne by done. split_and!; try done. by destruct (reboots t !! k).
Qed.
