(* ===== verification/Hints.v ===== *)
(** * Next steps shown with a status ([internal/daemon/phase.go], [hintsAt])

    A status ends with hints: what to run next.  Which hints are given is modelled;
    a hint is a constructor with the values its sentence interpolates.  The parameters
    are the host platform and whether a cluster's browser-trust CA is installed. *)

From stdpp Require Import base list gmap strings.
From Stdlib Require Import ZArith Lia.
From S2P Require Import Prelude GoStrings Cluster NodePhase NodeTrackers.

Local Open Scope Z_scope.

Definition DefaultDomainSuffix : string := "k8s.test".
Definition OriginImperative : string := "imperative".
Definition nodeBootWindow : Z := minute.
Definition clusterSettleWindow : Z := 3 * minute.

(** ** Sentences *)

Inductive recovery :=
| CrashLoopRecovery (crashed : list NodeStatus)
| RerunUp
| TransientBlip (age : Z)
| DestroyAndRecreate (flags : list string).

Inductive storage_recovery := StorageUpOrRestart | StorageRestart.

Inductive storage_hint :=
| StorageFailedHint (error : string) (r : storage_recovery)
| StorageGateHint (gate error : string)
| StorageProbeFailed (error : string)
| StorageCleanup (pending : string)
| StorageWaiting
| StorageLive.

Inductive reason :=
| ReasonCSI (csi : string)
| ReasonVIP (vip : string)
| ReasonYoung (age : Z).

#[global] Instance reason_eq_dec : EqDecision reason.
Proof. solve_decision. Defined.

Inductive hint :=
| HintCredentials
| HintServiceStalled (node service state : string) (age : Z)
| HintRebooted (node : string) (at_ : Z)
| HintCapability (name reason : string)
| HintSuspendedStale
| HintSuspended
| HintStopped
| HintStorage (h : storage_hint)
| HintLonghornSingle
| HintProvisioning (cni : string) (r : recovery)
| HintProbeMaintenance (count : Z) (ip : string)
| HintGenConfig (endpoint : string) (bypassNote : bool)
| HintApplyConfig (ip : string)
| HintFlannelLive (vip : string)
| HintVIPSettling (announcer vip : string)
| HintNoLB (cni : string)
| HintCiliumLive (domain : string) (trust : bool)
| HintBootstrap (ip : string)
| HintDashboard (ip : string)
| HintSettling (reasons : list reason)
| HintBooting (count : Z)
| HintStalled (stalled : list (string * bool * Z)).

(** ** Facts *)

Definition missingTalosCredentials (c : ClusterStatus) : bool :=
  existsb (fun n => bool_decide (ns_ServiceProbe n = Some ServiceProbeMissingCredentials)) (cs_Nodes c).

Definition serviceStallHints (c : ClusterStatus) (now : Z) : list hint :=
  n ← cs_Nodes c;
  omap (fun s => let age := now - st_Since s in
                 if age <? 0 then None else Some (HintServiceStalled (ns_Name n) (st_Service s) (st_State s) age))
    (ns_StalledServices n).

Definition anyHealthyKubelet (nodes : list NodeStatus) : bool :=
  existsb (fun n => match ns_Kubelet n with Some k => bool_decide (svc_Health k = ServiceHealthHealthy) | None => false end) nodes.

Definition controlPlaneOr (c : ClusterStatus) (fallback : NodeStatus) : NodeStatus :=
  default fallback (head (filter (fun n => ns_Role n = RoleControlPlane) (cs_Nodes c))).

Definition effective_domain (c : ClusterStatus) : string :=
  if String.eqb (cs_Domain c) "" then (cs_Name c +:+ "." +:+ DefaultDomainSuffix)%string else cs_Domain c.

Definition nodeHost (c : ClusterStatus) (n : NodeStatus) : string := (ns_Name n +:+ "." +:+ effective_domain c)%string.

Definition storageNodeCount (c : ClusterStatus) : Z :=
  let workers := Z.of_nat (length (filter (fun n => ns_Role n = RoleWorker) (cs_Nodes c))) in
  if workers =? 0 then Z.of_nat (length (cs_Nodes c)) else workers.

Definition longhornSingleNodeHint (c : ClusterStatus) : option hint :=
  if String.eqb (CSI (cs_Intent c)) CSILonghorn && (storageNodeCount c =? 1) && cs_Running c &&
     bool_decide (cs_StoragePhase c = StoragePhaseLive)
  then Some HintLonghornSingle else None.

Definition storageRecoveryHint (c : ClusterStatus) : storage_recovery :=
  if negb (String.eqb (cs_ConfigOrigin c) OriginImperative) then StorageUpOrRestart else StorageRestart.

(** [storagePendingDetail] only rewords the pending note; the note itself is kept. *)
Definition storageHint (c : ClusterStatus) : option hint :=
  if String.eqb (CSI (cs_Intent c)) "" then None
  else match cs_StoragePhase c with
       | StoragePhaseFailed => Some (HintStorage (StorageFailedHint (cs_StorageError c) (storageRecoveryHint c)))
       | StoragePhaseProvisioning =>
           Some (HintStorage
             (if negb (String.eqb (cs_StorageGate c) "") then StorageGateHint (cs_StorageGate c) (cs_StorageError c)
              else if negb (String.eqb (cs_StorageError c) "") then StorageProbeFailed (cs_StorageError c)
              else if negb (String.eqb (cs_StoragePending c) "") then StorageCleanup (cs_StoragePending c)
              else StorageWaiting))
       | StoragePhaseLive => Some (HintStorage StorageLive)
       | StorageNone => None
       end.

Definition kubeletCrashLoopHint (c : ClusterStatus) : option recovery :=
  match filter (fun n => (match ns_Kubelet n with Some k => CrashLooping k | None => false end) = true) (cs_Nodes c) with
  | [] => None
  | crashed => Some (CrashLoopRecovery crashed)
  end.

Definition recordedIntentFlags (c : ClusterStatus) : list string :=
  let i := cs_Intent c in
  let controlPlanes := Z.of_nat (length (filter (fun n => ns_Role n = RoleControlPlane) (cs_Nodes c))) in
  let workers := Z.of_nat (length (filter (fun n => ns_Role n <> RoleControlPlane) (cs_Nodes c))) in
  ["--cni " +:+ CNI i] ++
  (if String.eqb (CSI i) "" then [] else ["--csi " +:+ CSI i]) ++
  (if LB i then [] else ["--lb=false"]) ++
  (if cs_BGP c then ["--bgp"] else []) ++
  (if Hubble i then ["--hubble"] else []) ++
  ["--cp " +:+ itoa controlPlanes; "--workers " +:+ itoa workers] ++
  (if negb (String.eqb (cs_Domain c) "") && negb (String.eqb (cs_Domain c) (cs_Name c +:+ "." +:+ DefaultDomainSuffix))
   then ["--domain " +:+ cs_Domain c] ++ (if cs_AllowUnsafeDomain c then ["--allow-unsafe-domain"] else []) else []) ++
  (if String.eqb (cs_TalosVersion c) "" then [] else ["--talos-version " +:+ cs_TalosVersion c]) ++
  match cs_TalosExtensions c with
  | [] => if String.eqb (cs_Schematic c) "" then [] else ["--schematic " +:+ cs_Schematic c]
  | exts => ["--extensions " +:+ join "," exts] ++
            (if String.eqb (cs_BaseSchematic c) "" then [] else ["--schematic " +:+ cs_BaseSchematic c])
  end.

Definition provisioningRecoveryHintAt (c : ClusterStatus) (now : Z) : recovery :=
  match kubeletCrashLoopHint c with
  | Some r => r
  | None =>
      if negb (String.eqb (cs_ConfigOrigin c) OriginImperative) then RerunUp
      else if KubernetesUnreadyBriefly c now then TransientBlip (kubernetesUnreadyFor c now)
      else DestroyAndRecreate (recordedIntentFlags c)
  end.

Definition vipConvergingReason (c : ClusterStatus) : option reason :=
  if negb (LB (cs_Intent c)) || String.eqb (cs_VIP c) "" || cs_VIPLive c then None else Some (ReasonVIP (cs_VIP c)).

Definition withoutReason (reasons : list reason) (drop : option reason) : list reason :=
  match drop with None => reasons | Some d => filter (fun r => r <> d) reasons end.

(** The [-1] that stands for "none yet" is any negative age. *)
Definition youngestNodeAge (c : ClusterStatus) (now : Z) : option Z :=
  let youngest :=
    foldl (fun y n => match ns_StartedAt n with
                      | None => y
                      | Some t => let age := now - t in if (y <? 0) || (age <? y) then age else y
                      end) (-1) (cs_Nodes c) in
  if (youngest <? 0) || (clusterSettleWindow <=? youngest) then None else Some youngest.

Definition convergingReasons (c : ClusterStatus) (now : Z) : list reason :=
  if negb (cs_Running c) || negb (cs_KubernetesReady c) then []
  else
    (if negb (String.eqb (CSI (cs_Intent c)) "") && negb (bool_decide (cs_StoragePhase c = StoragePhaseLive)) &&
        negb (bool_decide (cs_StoragePhase c = StoragePhaseFailed))
     then [ReasonCSI (CSI (cs_Intent c))] else []) ++
    option_list (vipConvergingReason c) ++
    match youngestNodeAge c now with Some age => [ReasonYoung age] | None => [] end.

Definition splitStalledNodes (unreachable : list NodeStatus) (now : Z) : list NodeStatus * list NodeStatus :=
  (filter (fun n => UnreachableFor n now <= nodeStallThreshold) unreachable,
   filter (fun n => nodeStallThreshold < UnreachableFor n now) unreachable).

Definition stalledNodesHint (stalled : list NodeStatus) (now : Z) : option hint :=
  match stalled with
  | [] => None
  | _ => Some (HintStalled ((fun n => (ns_Name n, answeredSinceStart n, UnreachableFor n now)) <$> stalled))
  end.

(** ** All hints *)

Section Hints.
Context (darwin : bool) (trustInstalled : string -> bool).

Definition in_phase (c : ClusterStatus) (f : Phase -> bool) : list NodeStatus := filter (fun n => f (ns_Phase n) = true) (cs_Nodes c).

(** The hints about a fully configured cluster, and whether they named the silent VIP. *)
Definition configured_hints (c : ClusterStatus) (provisioning : bool) : list hint * bool :=
  match cs_Nodes c with
  | [] => ([], false)
  | first :: _ =>
      let cp := controlPlaneOr c first in
      let i := cs_Intent c in
      let flannel := String.eqb (CNI i) CNIFlannel in
      let cilium := String.eqb (CNI i) CNICilium in
      let ready := cs_KubernetesReady c in
      let '(h1, v1) :=
        if flannel && LB i && ready then
          if cs_VIPLive c then ([HintFlannelLive (cs_VIP c)], false) else ([HintVIPSettling "MetalLB L2" (cs_VIP c)], true)
        else ([], false) in
      let h2 := if flannel && negb (LB i) && ready then [HintNoLB CNIFlannel] else [] in
      let '(h3, v3) :=
        if cilium && LB i && ready then
          if cs_VIPLive c then ([HintCiliumLive (effective_domain c) (negb (trustInstalled (cs_Name c)))], false)
          else ([HintVIPSettling "Cilium LB-IPAM" (cs_VIP c)], true)
        else ([], false) in
      let h4 := if cilium && negb (LB i) && ready then [HintNoLB CNICilium] else [] in
      let h5 := if ready then []
                else (if negb provisioning && negb (anyHealthyKubelet (cs_Nodes c)) then [HintBootstrap (ns_IP cp)] else []) ++
                     [HintDashboard (ns_IP cp)] in
      (h1 ++ h2 ++ h3 ++ h4 ++ h5, v1 || v3)
  end.

(** The hints given whatever the cluster is doing. *)
Definition standing_hints (c : ClusterStatus) (now : Z) : list hint :=
  (if missingTalosCredentials c then [HintCredentials] else []) ++
  serviceStallHints c now ++
  omap (fun n => if bool_decide (ns_Phase n = PhaseRebooted) then HintRebooted (ns_Name n) <$> ns_RebootedAt n else None) (cs_Nodes c) ++
  omap (fun cap => if cap_Supported cap then None else Some (HintCapability (cap_Name cap) (cap_Reason cap))) (cs_Capabilities c).

Definition maintenance_hints (c : ClusterStatus) (maintenance : list NodeStatus) : list hint :=
  match maintenance with
  | [] => []
  | first :: _ =>
      [HintProbeMaintenance (Z.of_nat (length maintenance)) (ns_IP first);
       HintGenConfig (nodeHost c (controlPlaneOr c first)) darwin;
       HintApplyConfig (ns_IP first)]
  end.

Definition hintsAt (c : ClusterStatus) (now : Z) : list hint :=
  let stopped := in_phase c Stopped in
  let unreachable := in_phase c (fun p => bool_decide (p = PhaseUnreachable)) in
  let maintenance := in_phase c (fun p => bool_decide (p = PhaseMaintenance)) in
  let configured := in_phase c Configured in
  let nodes := cs_Nodes c in
  let h0 := standing_hints c now in
  if bool_decide (nodes <> []) && (length stopped =? length nodes)%nat then
    h0 ++ [if cs_Suspended c then if cs_SavedStateStale c then HintSuspendedStale else HintSuspended else HintStopped]
  else
    let provisioning := negb (String.eqb (CNI (cs_Intent c)) "") && negb (cs_KubernetesReady c) in
    let '(hc, vipNoted) := if (length configured =? length nodes)%nat && bool_decide (nodes <> []) then configured_hints c provisioning
                           else ([], false) in
    let reasons := convergingReasons c now in
    let reasons := if vipNoted then withoutReason reasons (vipConvergingReason c) else reasons in
    let booting := (splitStalledNodes unreachable now).1 in
    let stalled := (splitStalledNodes unreachable now).2 in
    h0 ++ option_list (storageHint c) ++ option_list (longhornSingleNodeHint c) ++
    (if provisioning then [HintProvisioning (CNI (cs_Intent c)) (provisioningRecoveryHintAt c now)] else []) ++
    maintenance_hints c maintenance ++
    hc ++
    match reasons with [] => [] | _ => [HintSettling reasons] end ++
    match booting with [] => [] | _ => [HintBooting (Z.of_nat (length booting))] end ++
    option_list (stalledNodesHint stalled now).
End Hints.

(** ** Where a hint comes from *)

(** The part of the list a hint belongs to. *)
Inductive part := PStanding | PStopped | PStorage | PLonghorn | PProvisioning | PMaintenance | PConfigured | PSettling | PBooting | PStalled.

Definition part_of (h : hint) : part :=
  match h with
  | HintCredentials | HintServiceStalled _ _ _ _ | HintRebooted _ _ | HintCapability _ _ => PStanding
  | HintSuspendedStale | HintSuspended | HintStopped => PStopped
  | HintStorage _ => PStorage
  | HintLonghornSingle => PLonghorn
  | HintProvisioning _ _ => PProvisioning
  | HintProbeMaintenance _ _ | HintGenConfig _ _ | HintApplyConfig _ => PMaintenance
  | HintFlannelLive _ | HintVIPSettling _ _ | HintNoLB _ | HintCiliumLive _ _ | HintBootstrap _ | HintDashboard _ => PConfigured
  | HintSettling _ => PSettling
  | HintBooting _ => PBooting
  | HintStalled _ => PStalled
  end.

Lemma standing_part c now h : h ∈ standing_hints c now -> part_of h = PStanding.
Proof.
  unfold standing_hints. rewrite !elem_of_app. intros [Hh|[Hh|[Hh|Hh]]].
  - case_match; set_solver.
  - unfold serviceStallHints in Hh. apply list_elem_of_bind in Hh as (n & Hh & _).
    apply list_elem_of_omap in Hh as (s & _ & Hh). case_match; [done|]. by injection Hh as <-.
  - apply list_elem_of_omap in Hh as (n & _ & Hh). case_match; [|done]. apply fmap_Some in Hh as (t & _ & ->). done.
  - apply list_elem_of_omap in Hh as (cap & _ & Hh). case_match; [done|]. by injection Hh as <-.
Qed.

Lemma maintenance_part darwin c l h : h ∈ maintenance_hints darwin c l -> part_of h = PMaintenance.
Proof. unfold maintenance_hints. case_match; set_solver. Qed.

Lemma option_list_elem {A} (o : option A) x : x ∈ option_list o <-> o = Some x.
Proof. destruct o; cbn; set_solver. Qed.

Lemma longhorn_part c h : h ∈ option_list (longhornSingleNodeHint c) -> part_of h = PLonghorn.
Proof. rewrite option_list_elem. unfold longhornSingleNodeHint. case_match; [|done]. by intros [= <-]. Qed.

Lemma storage_part c h : h ∈ option_list (storageHint c) -> part_of h = PStorage.
Proof. rewrite option_list_elem. unfold storageHint. repeat case_match; try done; by intros [= <-]. Qed.

Lemma configured_part trust c p h : h ∈ (configured_hints trust c p).1 -> part_of h = PConfigured.
Proof.
  unfold configured_hints. destruct (cs_Nodes c) as [|first r]; [by intros ?%elem_of_nil|].
  repeat (case_match; simplify_eq/=); set_solver.
Qed.

Lemma vip_reason_only c now v : ReasonVIP v ∈ convergingReasons c now -> vipConvergingReason c = Some (ReasonVIP v).
Proof.
  unfold convergingReasons. case_match; [by intros ?%elem_of_nil|]. rewrite !elem_of_app, option_list_elem.
  intros [Hv|[Hv|Hv]]; [case_match; set_solver|done|case_match; set_solver].
Qed.

Section Consistency.
Context (darwin : bool) (trust : string -> bool) (c : ClusterStatus) (now : Z).

Definition all_stopped : bool := bool_decide (cs_Nodes c <> []) && (length (in_phase c Stopped) =? length (cs_Nodes c))%nat.
Definition is_provisioning : bool := negb (String.eqb (CNI (cs_Intent c)) "") && negb (cs_KubernetesReady c).
Definition all_configured : bool := (length (in_phase c Configured) =? length (cs_Nodes c))%nat && bool_decide (cs_Nodes c <> []).
Definition configured_part_hints : list hint * bool :=
  if all_configured then configured_hints trust c is_provisioning else ([], false).
Definition settling_reasons : list reason :=
  if configured_part_hints.2 then withoutReason (convergingReasons c now) (vipConvergingReason c) else convergingReasons c now.
Definition silent_nodes := splitStalledNodes (in_phase c (fun p => bool_decide (p = PhaseUnreachable))) now.

Lemma hints_stopped : all_stopped = true ->
  hintsAt darwin trust c now =
  standing_hints c now ++ [if cs_Suspended c then if cs_SavedStateStale c then HintSuspendedStale else HintSuspended else HintStopped].
Proof. unfold hintsAt. cbv zeta. fold all_stopped. by intros ->. Qed.

(** The list of a cluster that is not stopped, by parts. *)
Lemma hints_running : all_stopped = false ->
  hintsAt darwin trust c now =
  standing_hints c now ++ option_list (storageHint c) ++ option_list (longhornSingleNodeHint c) ++
  (if is_provisioning then [HintProvisioning (CNI (cs_Intent c)) (provisioningRecoveryHintAt c now)] else []) ++
  maintenance_hints darwin c (in_phase c (fun p => bool_decide (p = PhaseMaintenance))) ++
  configured_part_hints.1 ++
  match settling_reasons with [] => [] | _ => [HintSettling settling_reasons] end ++
  match silent_nodes.1 with [] => [] | _ => [HintBooting (Z.of_nat (length silent_nodes.1))] end ++
  option_list (stalledNodesHint silent_nodes.2 now).
Proof.
  unfold hintsAt. cbv zeta. fold all_stopped is_provisioning all_configured silent_nodes. intros ->.
  unfold settling_reasons. fold configured_part_hints. by destruct configured_part_hints.
Qed.

Lemma configured_part_part h : h ∈ configured_part_hints.1 -> part_of h = PConfigured.
Proof. unfold configured_part_hints. case_match; [apply configured_part|by intros ?%elem_of_nil]. Qed.

Lemma stalled_part h l : h ∈ option_list (stalledNodesHint l now) -> part_of h = PStalled.
Proof. rewrite option_list_elem. unfold stalledNodesHint. case_match; [done|]. by intros [= <-]. Qed.

(** Where the hints of the parts that matter below can only come from. *)
Lemma hint_origin h : h ∈ hintsAt darwin trust c now ->
  match part_of h with
  | PStopped => all_stopped = true
  | PProvisioning => all_stopped = false /\ is_provisioning = true /\ h = HintProvisioning (CNI (cs_Intent c)) (provisioningRecoveryHintAt c now)
  | PConfigured => h ∈ configured_part_hints.1
  | PSettling => h = HintSettling settling_reasons
  | PBooting => h = HintBooting (Z.of_nat (length silent_nodes.1))
  | PStalled => stalledNodesHint silent_nodes.2 now = Some h
  | _ => True
  end.
Proof.
  destruct all_stopped eqn:Es.
  - rewrite hints_stopped by done. rewrite elem_of_app. intros [Hh|Hh]; [rewrite (standing_part c now h Hh); exact I|].
    repeat case_match; set_solver.
  - rewrite hints_running by done. rewrite !elem_of_app.
    intros [H|[H|[H|[H|[H|[H|[H|[H|H]]]]]]]].
    + rewrite (standing_part c now h H). exact I.
    + rewrite (storage_part c h H). exact I.
    + rewrite (longhorn_part c h H). exact I.
    + destruct is_provisioning; [|by apply elem_of_nil in H]. apply list_elem_of_singleton in H as ->. done.
    + rewrite (maintenance_part _ _ _ h H). exact I.
    + by rewrite (configured_part_part h H).
    + destruct settling_reasons; [by apply elem_of_nil in H|]. by apply list_elem_of_singleton in H as ->.
    + destruct silent_nodes.1; [by apply elem_of_nil in H|]. by apply list_elem_of_singleton in H as ->.
    + rewrite (stalled_part h _ H). by apply option_list_elem.
Qed.

Lemma bootstrap_not_provisioning ip : HintBootstrap ip ∈ configured_part_hints.1 -> is_provisioning = false.
Proof.
  unfold configured_part_hints. destruct all_configured; [|by intros ?%elem_of_nil]. unfold configured_hints.
  destruct (cs_Nodes c) as [|first r]; [by intros ?%elem_of_nil|]. destruct is_provisioning; [|done].
  repeat (case_match; simplify_eq/=); set_solver.
Qed.

Lemma vip_hint_noted a v : HintVIPSettling a v ∈ configured_part_hints.1 -> configured_part_hints.2 = true /\ v = cs_VIP c.
Proof.
  unfold configured_part_hints. destruct all_configured; [|by intros ?%elem_of_nil]. unfold configured_hints.
  destruct (cs_Nodes c) as [|first r]; [by intros ?%elem_of_nil|].
  repeat (case_match; simplify_eq/=); intros Hin; first [split; [by rewrite ?orb_true_r|set_solver] | exfalso; set_solver].
Qed.

Lemma silent_nodes_split :
  (length silent_nodes.1 + length silent_nodes.2 = length (in_phase c (fun p => bool_decide (p = PhaseUnreachable))))%nat.
Proof.
  unfold silent_nodes, splitStalledNodes. cbn [fst snd]. generalize (in_phase c (fun p => bool_decide (p = PhaseUnreachable))).
  intros l. induction l as [|n l IH]; [done|]. rewrite !filter_cons. repeat case_decide; cbn; lia.
Qed.
End Consistency.

(** ** Theorems *)

(** The hints of one status do not contradict each other.  While tbx provisions a
    cluster it never also tells the operator to bootstrap it by hand; a VIP that is
    announced but silent is named once, never again among the reasons for settling; the
    start and resume hints are given exactly when every node is stopped, and then no
    hint presupposes a running cluster; and every unreachable node is counted either as
    booting or as stalled. *)
Theorem hints_consistent darwin trust c now :
  let hs := hintsAt darwin trust c now in
  (forall cni r ip, HintProvisioning cni r ∈ hs -> (HintBootstrap ip ∉ hs)) /\
  (forall a v rs v', HintVIPSettling a v ∈ hs -> HintSettling rs ∈ hs -> (ReasonVIP v' ∉ rs)) /\
  (forall h, h ∈ hs -> all_stopped c = true -> part_of h = PStanding \/ part_of h = PStopped) /\
  ((exists h, h ∈ hs /\ part_of h = PStopped) <-> all_stopped c = true) /\
  (all_stopped c = false -> forall b, HintBooting b ∈ hs -> forall l, HintStalled l ∈ hs ->
     b + Z.of_nat (length l) = Z.of_nat (length (in_phase c (fun p => bool_decide (p = PhaseUnreachable))))).
Proof.
  intros hs. split_and!.
  - intros cni r ip Hp%hint_origin Hb%hint_origin. cbn in Hp, Hb. destruct Hp as (_ & Hp & _).
    apply bootstrap_not_provisioning in Hb. congruence.
  - intros a v rs v' Hv%hint_origin Hs%hint_origin Hin. cbn in Hv, Hs. injection Hs as ->.
    apply vip_hint_noted in Hv as [Hn _]. unfold settling_reasons in Hin. rewrite Hn in Hin.
    unfold withoutReason in Hin. destruct (vipConvergingReason c) as [d|] eqn:Ed.
    + apply list_elem_of_filter in Hin as [Hd Hin]. apply vip_reason_only in Hin. congruence.
    + apply vip_reason_only in Hin. congruence.
  - intros h Hh Hs. unfold hs in Hh. rewrite hints_stopped in Hh by done. apply elem_of_app in Hh as [Hh|Hh].
    + left. by eapply standing_part.
    + right. repeat case_match; apply list_elem_of_singleton in Hh as ->; done.
  - split; [intros (h & Hh%hint_origin & Hp); by rewrite Hp in Hh|]. intros Hs. unfold hs. rewrite hints_stopped by done.
    eexists. split; [apply elem_of_app; right; constructor|]. by repeat case_match.
  - intros _ b Hb%hint_origin l Hl%hint_origin. cbn [part_of] in Hb, Hl.
    assert (b = Z.of_nat (length (silent_nodes c now).1)) as -> by congruence.
    unfold stalledNodesHint in Hl. destruct (silent_nodes c now).2 as [|x r] eqn:E; [done|]. injection Hl as <-.
    pose proof (silent_nodes_split c now) as Hs. rewrite E in Hs. cbn [length] in *. rewrite length_fmap. lia.
Qed.

(** Destroying a cluster is suggested only on evidence.  The advice to destroy and
    recreate is given only for a cluster created imperatively, whose Kubernetes is not
    ready, none of whose kubelets is crash-looping, and which the daemon has either
    watched failing for at least two minutes or never watched at all. *)
Theorem destroy_advice_needs_evidence darwin trust c now cni flags :
  HintProvisioning cni (DestroyAndRecreate flags) ∈ hintsAt darwin trust c now ->
  cs_ConfigOrigin c = OriginImperative /\ cs_KubernetesReady c = false /\
  (forall n k, n ∈ cs_Nodes c -> ns_Kubelet n = Some k -> CrashLooping k = false) /\
  (forall t, cs_KubernetesNotReadySince c = Some t -> unreadyEscalationWindow <= now - t) /\
  flags = recordedIntentFlags c.
Proof.
  intros (_ & Hp & E)%hint_origin. injection E as _ E. unfold provisioningRecoveryHintAt in E.
  destruct (kubeletCrashLoopHint c) eqn:Ek; [unfold kubeletCrashLoopHint in Ek; case_match; simplify_eq|].
  destruct (String.eqb (cs_ConfigOrigin c) OriginImperative) eqn:Eo; [|done]. apply String.eqb_eq in Eo. cbn [negb] in E.
  destruct (KubernetesUnreadyBriefly c now) eqn:Eb; [done|]. injection E as ->.
  unfold is_provisioning in Hp. bool_to_prop. split_and!; try done.
  - intros n k Hn Hk. unfold kubeletCrashLoopHint in Ek. case_match eqn:Ef; [|done].
    destruct (CrashLooping k) eqn:Ec; [|done]. exfalso. apply (elem_of_nil n). rewrite <- Ef.
    apply list_elem_of_filter. split; [|done]. by rewrite Hk.
  - intros t Ht. unfold KubernetesUnreadyBriefly, kubernetesUnreadyFor in Eb. rewrite Ht in Eb.
    rewrite bool_decide_eq_true_2 in Eb by done. cbn in Eb. by bool_to_prop.
Qed.

Definition demo_node : NodeStatus :=
  mkStatus "a-cp-1" RoleControlPlane "52:54:00:00:00:01" "172.30.1.2" true PhaseConfigured false None [] [] None (Some 0) None None.

Definition demo_status : ClusterStatus :=
  mkClusterStatus "a" "" false "" "" "" [] (mkIntent CNICilium "" true false false false) false true false false false
    (Some 0) StorageNone "" "" "" "" false [demo_node] [] OriginImperative 1.

Lemma destroy_advice_needs_evidence_witness : unreadyEscalationWindow <= 3 * minute - 0.
Proof.
  refine (proj1 (proj2 (proj2 (proj2 (destroy_advice_needs_evidence true (fun _ => false) demo_status (3 * minute)
    CNICilium (recordedIntentFlags demo_status) _)))) 0 _).
  - vm_compute. left.
  - reflexivity.
Defined.
