(* ===== verification/DaemonBalloon.v ===== *)
(** * Ballooning in the daemon ([internal/daemon/balloon.go])

    The server side of ballooning: which running nodes may be retargeted, the
    ledger of targets they accepted, the latch that parks ballooning during a
    teardown, the holds that keep a pre-balloon in place while new guests boot, and
    the gates in front of a start.  A snapshot of the server's machines implements
    the [Balloonable] interface of [BalloonManager]; the pre-balloon itself is
    written against that interface. *)

From stdpp Require Import base list gmap strings.
From Stdlib Require Import ZArith Lia.
From S2P Require Import Prelude GoStrings Cluster BalloonPlan BalloonManager HostPressure NodePhase.

Local Open Scope Z_scope.
Local Open Scope int64_scope.

(** [balloon.DefaultConfig], given the value of TBX_BALLOON_RESERVE_MIB *)
Definition ConfigReserveMiB (env : string) : Z :=
  if String.eqb env "" then 6144
  else match atoi env with
       | Some n => if 0 <? n then n else 6144
       | None => 6144
       end.
Definition ConfigFloorMiB : Z := 1024.

(** ** The hypervisor, as far as ballooning uses it *)

(** What [Machine.SetMemoryTargetMiB] answers: success, [ErrDeviceNotActive], any
    other error. *)
Inductive machine_answer := MachineOk | MachineNotActive | MachineFailed.

Class Machines (M W : Type) := {
  machine_Active : W -> M -> bool;
  machine_SetMemoryTargetMiB : W -> M -> Z -> machine_answer * W
}.

Record balloonHold := mkHold { reclaimMiB : Z; until : Z }.

Record balloonCandidate (M : Type) := mkCandidate {
  bc_key : string;
  bc_machine : M;
  bc_configuredMiB : Z;
  bc_currentTargetMiB : Z;
  bc_ip : string;
  bc_tolerateDeviceNotActive : bool;
  bc_balloonReadback : bool
}.
Arguments mkCandidate {M}.
Arguments bc_key {M}. Arguments bc_machine {M}. Arguments bc_configuredMiB {M}.
Arguments bc_currentTargetMiB {M}. Arguments bc_ip {M}.
Arguments bc_tolerateDeviceNotActive {M}. Arguments bc_balloonReadback {M}.

(** A machine as the balloon manager sees it.  [bm_key] stands for the two closures
    of the struct: the ledger entry [recordTarget] writes and the server whose latch
    [quiesced] reads. *)
Record balloonMachine (M : Type) := mkMachine {
  bm_key : string;
  bm_machine : M;
  bm_configuredMiB : Z;
  bm_currentTargetMiB : Z;
  bm_tolerateDeviceNotActive : bool
}.
Arguments mkMachine {M}.
Arguments bm_key {M}. Arguments bm_machine {M}. Arguments bm_configuredMiB {M}.
Arguments bm_currentTargetMiB {M}. Arguments bm_tolerateDeviceNotActive {M}.

(** The balloon fields of [Server]; [hyp] is the state of the hypervisor behind the
    machines. *)
Record Server (M W : Type) := mkServer {
  hyp : W;
  vms : gmap string (gmap string M);
  balloonTargets : gmap string Z;
  balloonHolds : list balloonHold;
  balloonTeardowns : Z;
  balloonShutdown : bool;
  balloonDisabled : bool
}.
Arguments mkServer {M W}.
Arguments hyp {M W}. Arguments vms {M W}. Arguments balloonTargets {M W}. Arguments balloonHolds {M W}.
Arguments balloonTeardowns {M W}. Arguments balloonShutdown {M W}. Arguments balloonDisabled {M W}.

(** What the gates read of the host and of the store, at the moment of the call:
    [None] is a failed reading. *)
Record Readings := mkReadings {
  hostFreeMemory : option Z;
  hostTotalMemory : option Z;
  hostPressure : option HostPressure.Snapshot;
  pressureUnsupported : bool;
  cluster_List : option (list Cluster);
  cluster_Load : string -> option Cluster;
  (** [hypervisorForCluster] and [Capabilities().BalloonReadback.Supported] *)
  balloonReadbackOf : Cluster -> option bool;
  nodeIPLookup : string -> Z -> string;
  nodeProbe : string -> ProbeResult;
  reserveEnv : string
}.

(** ** Sums at the width of [int] *)

Definition sum64 {A} (f : A -> Z) (l : list A) : Z := foldl (fun acc x => acc +! f x) 0 l.

Definition clusterMemoryMiB (item : Cluster) : Z :=
  sum64 (fun n => MemoryMiB (DefaultsFor item (n_Role n))) (c_Nodes item).

(** [if above := x; above > 0 { total += above }] *)
Definition above_zero (x : Z) : Z := if 0 <? x then x else 0.

(** ** The pre-balloon, against the interface *)

Inductive apply_error :=
| BalloonDown (name : string) (target : Z)
| ReclaimPending (pending : list string) (pendingMiB : Z).

Section Reclaim.
Context {W : Type} `{Balloonable W}.

Definition currentTargetMiB (w : W) (name : string) : Z :=
  match vm_CurrentTargetMiB w name with
  | Some target => if 0 <? target then target else vm_ConfiguredMiB w name
  | None => vm_ConfiguredMiB w name
  end.

Definition availableMiB (w : W) (names : list string) (floorMiB : Z) : Z :=
  sum64 (fun n => above_zero (currentTargetMiB w n -! floorMiB)) names.

Record apply_state := mkApply { heldMiB : Z; pendingMiB : Z; pending : list string; ap_world : W }.

(** The loop over the sorted names; the error is the early return. *)
Fixpoint apply_loop (targets : gmap string Z) (names : list string) (a : apply_state) : apply_state * option apply_error :=
  match names with
  | [] => (a, match pending a with [] => None | _ => Some (ReclaimPending (pending a) (pendingMiB a)) end)
  | name :: names =>
      let target := get_target targets name in
      let '(out, w') := vm_SetMemoryTargetMiB (ap_world a) name target in
      match out with
      | SetFailed => (mkApply (heldMiB a) (pendingMiB a) (pending a) w', Some (BalloonDown name target))
      | SetPending | SetQuiesced =>
          apply_loop targets names
            (mkApply (heldMiB a) (pendingMiB a +! (currentTargetMiB w' name -! target)) (pending a ++ [name]) w')
      | SetOk =>
          apply_loop targets names
            (mkApply (heldMiB a +! above_zero (vm_ConfiguredMiB w' name -! target)) (pendingMiB a) (pending a) w')
      end
  end.

Definition reclaim_nodes (w : W) (names : list string) : list BalloonPlan.Node :=
  (fun n => BalloonPlan.mkNode n (currentTargetMiB w n)) <$> names.

(** [balloonReclaim.apply]: what it held, its error, and the guests afterwards. *)
Definition apply (w : W) (names : list string) (floorMiB deficitMiB : Z) : Z * option apply_error * W :=
  let nodes := reclaim_nodes w names in
  let targets := PlanTargets nodes (deficitMiB +! Z.of_nat (length nodes)) floorMiB in
  let '(a, err) := apply_loop targets (sort_strings names) (mkApply 0 0 [] w) in
  (heldMiB a, err, ap_world a).
End Reclaim.
Arguments apply_state : clear implicits.

(** ** The server *)

Definition balloonReclaimHoldTTL : Z := 5 * 60 * 10 ^ 9.

Section Server.
Context {M W : Type} `{Machines M W}.
Implicit Types (s : Server M W) (r : Readings).

Definition with_hyp (w : W) s : Server M W :=
  mkServer w (vms s) (balloonTargets s) (balloonHolds s) (balloonTeardowns s) (balloonShutdown s) (balloonDisabled s).
Definition with_targets (t : gmap string Z) s : Server M W :=
  mkServer (hyp s) (vms s) t (balloonHolds s) (balloonTeardowns s) (balloonShutdown s) (balloonDisabled s).
Definition with_holds (h : list balloonHold) s : Server M W :=
  mkServer (hyp s) (vms s) (balloonTargets s) h (balloonTeardowns s) (balloonShutdown s) (balloonDisabled s).
Definition with_teardowns (n : Z) s : Server M W :=
  mkServer (hyp s) (vms s) (balloonTargets s) (balloonHolds s) n (balloonShutdown s) (balloonDisabled s).

(** *** The teardown latch *)

(** The latch is an [atomic.Int32]. *)
Definition quiesceBalloon s : Server M W := with_teardowns (wrapu 32 (balloonTeardowns s + 1 + 2 ^ 31) - 2 ^ 31) s.

(** The function [quiesceBalloon] returns, called for the first time or again. *)
Definition releaseBalloon (fired : bool) s : Server M W :=
  if fired then s else with_teardowns (wrapu 32 (balloonTeardowns s - 1 + 2 ^ 31) - 2 ^ 31) s.

Definition balloonQuiesced s : bool := balloonDisabled s || balloonShutdown s || (0 <? balloonTeardowns s).

Definition BalloonPaused s : bool := balloonQuiesced s.

(** *** The ledger of accepted targets *)

Definition recordBalloonTarget (key : string) (targetMiB : Z) s : Server M W :=
  with_targets (<[key := targetMiB]> (balloonTargets s)) s.

Definition balloonTargetMiB (key : string) s : Z := default 0 (balloonTargets s !! key).

Definition pruneBalloonTargets (live : gmap string (balloonCandidate M)) s : Server M W :=
  with_targets (filter (fun kv => is_Some (live !! kv.1)) (balloonTargets s)) s.

Definition SetMemoryTargetMiB (m : balloonMachine M) (targetMiB : Z) s : set_outcome * Server M W :=
  if balloonQuiesced s then (SetQuiesced, s)
  else
    let '(answer, w') := machine_SetMemoryTargetMiB (hyp s) (bm_machine m) targetMiB in
    let s := with_hyp w' s in
    match answer with
    | MachineOk => (SetOk, recordBalloonTarget (bm_key m) targetMiB s)
    | MachineNotActive => if bm_tolerateDeviceNotActive m then (SetPending, s) else (SetFailed, s)
    | MachineFailed => (SetFailed, s)
    end.

Definition bm_CurrentTargetMiB (m : balloonMachine M) : Z :=
  if 0 <? bm_currentTargetMiB m then bm_currentTargetMiB m else bm_configuredMiB m.

(** A snapshot of machines over the server they were taken from; the sizes are the
    snapshot's, the retarget goes through to the server. *)
#[export] Instance snapshot_balloonable : Balloonable (gmap string (balloonMachine M) * Server M W) := {
  vm_ConfiguredMiB w n := match w.1 !! n with Some m => bm_configuredMiB m | None => 0 end;
  vm_CurrentTargetMiB w n := bm_CurrentTargetMiB <$> w.1 !! n;
  vm_SetMemoryTargetMiB w n t :=
    match w.1 !! n with
    | Some m => let '(out, s') := SetMemoryTargetMiB m t w.2 in (out, (w.1, s'))
    | None => (SetFailed, w)
    end
}.

(** *** Who may be retargeted *)

Definition nodeRunning (clusterName nodeName : string) s : bool :=
  match vms s !! clusterName with
  | Some nodes => match nodes !! nodeName with Some m => machine_Active (hyp s) m | None => false end
  | None => false
  end.

Definition clusterRunning (name : string) s : bool :=
  match vms s !! name with
  | Some nodes => existsb (fun kv => machine_Active (hyp s) kv.2) (map_to_list nodes)
  | None => false
  end.

(** [byName[n.Name] = n] over the nodes: the last of a name wins. *)
Definition node_by_name (item : Cluster) (name : string) : option Cluster.Node :=
  list_to_map (M := gmap string Cluster.Node) (reverse ((fun n => (n_Name n, n)) <$> c_Nodes item)) !! name.

Definition candidate_of r s (clusterName : string) (item : Cluster) (readback : bool) (nodeName : string) (machine : M)
    : option (balloonCandidate M) :=
  match node_by_name item nodeName with
  | Some node =>
      if machine_Active (hyp s) machine then
        let key := (clusterName +:+ "/" +:+ nodeName)%string in
        Some (mkCandidate key machine (MemoryMiB (DefaultsFor item (n_Role node))) (balloonTargetMiB key s)
                (nodeIPLookup r (n_MAC node) (c_SubnetIndex item)) readback readback)
      else None
  | None => None
  end.

Definition cluster_candidates r s (clusterName : string) (nodes : gmap string M) : list (balloonCandidate M) :=
  match cluster_Load r clusterName with
  | None => []
  | Some item =>
      match balloonReadbackOf r item with
      | None => []
      | Some readback => omap (fun kv => candidate_of r s clusterName item readback kv.1 kv.2) (map_to_list nodes)
      end
  end.

Definition balloonCandidatesLocked r s : gmap string (balloonCandidate M) * Server M W :=
  let candidates :=
    list_to_map ((fun c => (bc_key c, c)) <$>
      (map_to_list (vms s) ≫= fun kv => cluster_candidates r s kv.1 kv.2)) in
  (candidates, pruneBalloonTargets candidates s).

Definition eligible (probe : string -> ProbeResult) (e : balloonCandidate M) : bool :=
  bc_balloonReadback e ||
  (negb (String.eqb (bc_ip e) "") && bool_decide (ClassifyPhase true (probe (bc_ip e)) = PhaseConfigured)).

Definition balloonablesFromWithProbe (candidates : gmap string (balloonCandidate M)) (probe : string -> ProbeResult)
    : gmap string (balloonMachine M) :=
  omap (fun e => if eligible probe e
                 then Some (mkMachine (bc_key e) (bc_machine e) (bc_configuredMiB e) (bc_currentTargetMiB e)
                              (bc_tolerateDeviceNotActive e))
                 else None) candidates.

Definition balloonablesLocked r s : gmap string (balloonMachine M) * Server M W :=
  let '(candidates, s) := balloonCandidatesLocked r s in (balloonablesFromWithProbe candidates (nodeProbe r), s).

Definition Balloonables r s : gmap string (balloonMachine M) * Server M W :=
  if balloonDisabled s then (∅, s) else balloonablesLocked r s.

(** *** Memory of the inventory *)

(** Nodes of the listed clusters, with the memory their role gives them. *)
Definition inventory r (f : Cluster -> Cluster.Node -> Z) : Z :=
  match cluster_List r with
  | None => 0
  | Some clusters => foldl (fun acc item => foldl (fun acc n => acc +! f item n) acc (c_Nodes item)) 0 clusters
  end.

Definition node_MemoryMiB (item : Cluster) (n : Cluster.Node) : Z := MemoryMiB (DefaultsFor item (n_Role n)).

Definition reclaimCeilingMiB r s (floorMiB : Z) : Z :=
  inventory r (fun item n => if nodeRunning (c_Name item) (n_Name n) s
                             then above_zero (node_MemoryMiB item n -! floorMiB) else 0).

Definition runningVMMemoryMiB r s : Z :=
  inventory r (fun item n => if nodeRunning (c_Name item) (n_Name n) s then node_MemoryMiB item n else 0).

Definition stoppedNodeMemoryMiB (item : Cluster) s : Z :=
  sum64 (fun n => if nodeRunning (c_Name item) (n_Name n) s then 0 else node_MemoryMiB item n) (c_Nodes item).

(** *** Holds *)

(** [now.Before(hold.until)] *)
Definition dropExpiredBalloonHoldsLocked (now : Z) s : Server M W :=
  with_holds (filter (fun h => now < until h) (balloonHolds s)) s.

Definition holdBalloonReclaim (reclaim now : Z) s : Server M W :=
  if reclaim <=? 0 then s
  else
    let s := dropExpiredBalloonHoldsLocked now s in
    with_holds (balloonHolds s ++ [mkHold reclaim (now + balloonReclaimHoldTTL)]) s.

(** The newest entry of a size: what is before it, it, what is after it. *)
Fixpoint newest_of_size (size : Z) (holds : list balloonHold) : option (list balloonHold * balloonHold * list balloonHold) :=
  match holds with
  | [] => None
  | h :: holds =>
      match newest_of_size size holds with
      | Some (before, x, after) => Some (h :: before, x, after)
      | None => if reclaimMiB h =? size then Some ([], h, holds) else None
      end
  end.

Definition rearmBalloonHold (reclaim now : Z) s : Server M W :=
  if reclaim <=? 0 then s
  else
    let s := dropExpiredBalloonHoldsLocked now s in
    let deadline := now + balloonReclaimHoldTTL in
    match newest_of_size reclaim (balloonHolds s) with
    | Some (before, h, after) => with_holds (before ++ mkHold (reclaimMiB h) deadline :: after) s
    | None => with_holds (balloonHolds s ++ [mkHold reclaim deadline]) s
    end.

Definition releaseBalloonHold (reclaim now : Z) s : Server M W :=
  if reclaim <=? 0 then s
  else
    let s := dropExpiredBalloonHoldsLocked now s in
    match newest_of_size reclaim (balloonHolds s) with
    | Some (before, _, after) => with_holds (before ++ after) s
    | None => s
    end.

Definition balloonHoldArmed (now : Z) s : bool * Server M W :=
  let s := dropExpiredBalloonHoldsLocked now s in (bool_decide (balloonHolds s <> []), s).

Definition largest_hold (holds : list balloonHold) : Z :=
  foldl (fun held h => if held <? reclaimMiB h then reclaimMiB h else held) 0 holds.

(** The clock is read twice, by [balloonHoldArmed] and again under the lock. *)
Definition BalloonHoldMiB r (now now' : Z) s : Z * Server M W :=
  let '(armed, s) := balloonHoldArmed now s in
  if negb armed then (0, s)
  else
    let ceiling := reclaimCeilingMiB r s ConfigFloorMiB in
    let s := dropExpiredBalloonHoldsLocked now' s in
    let held := largest_hold (balloonHolds s) in
    ((if ceiling <? held then ceiling else held), s).

(** *** Gates *)

Inductive warning :=
| WarnFinding (f : Finding)
| WarnForced (f : Finding)
| ProbeFailed
| Overcommitted (planned total reserve : Z)
| PreballoonFailedForced (reclaim running : Z) (err : apply_error)
| Preballooned (reclaim running add reserve free : Z).

Inductive gate_error :=
| Refused (blocking : list Finding)
| PreballoonFailed (reclaim running : Z) (err : apply_error)
| OvercommitRefused (planned total reserve : Z)
| ListFailed.

Definition applyPressureFindings (findings : list Finding) (force : bool) : result gate_error (list warning) :=
  let blocking := filter (fun f => f_Severity f = SeverityBlock) findings in
  let advisory := filter (fun f => f_Severity f <> SeverityBlock) findings in
  match blocking with
  | [] => Ok (WarnFinding <$> advisory)
  | _ => if negb force then Err (Refused blocking)
         else Ok ((WarnForced <$> blocking) ++ (WarnFinding <$> advisory))
  end.

Definition checkOvercommit r s (addMiB : Z) (force : bool) : result gate_error (option warning) :=
  match hostTotalMemory r with
  | None => Ok None
  | Some total =>
      let reserve := ConfigReserveMiB (reserveEnv r) in
      match cluster_List r with
      | None => Err ListFailed
      | Some clusters =>
          let planned := foldl (fun acc item => if clusterRunning (c_Name item) s then acc +! clusterMemoryMiB item else acc)
                           addMiB clusters in
          if negb (Overcommit planned total reserve) then Ok None
          else if negb force then Err (OvercommitRefused planned total reserve)
          else Ok (Some (Overcommitted planned total reserve))
      end
  end.

Definition with_free (free : Z) (sn : HostPressure.Snapshot) : HostPressure.Snapshot :=
  HostPressure.mkSnapshot (Swap sn) (DataVolume sn) (sn_MemoryPressure sn) free (TotalMemoryMiB sn) (sn_CompressorMiB sn).

Definition checkHostPressure r (incomingMiB : Z) (force : bool) : result gate_error (list warning) :=
  match hostPressure r with
  | None => Ok (if pressureUnsupported r then [] else [ProbeFailed])
  | Some sn =>
      let sn := match hostFreeMemory r with Some free => with_free free sn | None => sn end in
      applyPressureFindings (Assess sn (ConfigReserveMiB (reserveEnv r) +! incomingMiB)) force
  end.

(** The guests that can be shrunk and how much that is worth. *)
Record balloonReclaim_t := mkReclaim { br_vms : gmap string (balloonMachine M); br_availableMiB : Z; br_floorMiB : Z }.

Definition names_of (vms : gmap string (balloonMachine M)) : list string := elements (dom vms).

Definition balloonReclaim r s : balloonReclaim_t * Server M W :=
  let floorMiB := ConfigFloorMiB in
  if balloonDisabled s || (reclaimCeilingMiB r s floorMiB <=? 0) then (mkReclaim ∅ 0 floorMiB, s)
  else
    let '(vms, s) := balloonablesLocked r s in
    (mkReclaim vms (availableMiB (vms, s) (names_of vms) floorMiB) floorMiB, s).

Definition reclaim_apply (b : balloonReclaim_t) (deficitMiB : Z) s : Z * option apply_error * Server M W :=
  let '(held, err, w) := apply (br_vms b, s) (names_of (br_vms b)) (br_floorMiB b) deficitMiB in
  (held, err, w.2).

Definition start_input r s (addMiB : Z) : ProvisionStart :=
  mkStart (runningVMMemoryMiB r s) addMiB (default 0 (hostFreeMemory r)) (default 0 (hostTotalMemory r))
    (ConfigReserveMiB (reserveEnv r)) 0
    (match hostPressure r with Some sn => sn_MemoryPressure sn | None => MemoryPressureUnknown end)
    (match hostPressure r with Some sn => Swap sn | None => mkUsage 0 0 end).

Definition with_reclaimable (avail : Z) (i : ProvisionStart) : ProvisionStart :=
  mkStart (RunningVMMiB i) (NewVMMiB i) (HostFreeMiB i) (HostTotalMiB i) (HostPressure.ReserveMiB i) avail
    (ps_MemoryPressure i) (ps_Swap i).

Definition checkProvisionStart r (addMiB : Z) (force : bool) (now : Z) s
    : result gate_error (list warning * Z) * Server M W :=
  let i := start_input r s addMiB in
  let '(reclaim, i, s) :=
    if 0 <? ProvisionStartShortfallMiB i then
      let '(reclaim, s) := balloonReclaim r s in (reclaim, with_reclaimable (br_availableMiB reclaim) i, s)
    else (mkReclaim ∅ 0 0, i, s) in
  let plan := AssessProvisionStart i in
  match applyPressureFindings (Findings plan) force with
  | Err e => (Err e, s)
  | Ok warnings =>
      if ReclaimMiB plan =? 0 then (Ok (warnings, 0), s)
      else
        let '(held, err, s) := reclaim_apply reclaim (ReclaimMiB plan) s in
        match err with
        | Some e =>
            if negb force then (Err (PreballoonFailed (ReclaimMiB plan) (RunningVMMiB i) e), s)
            else
              let s := if 0 <? held then holdBalloonReclaim held now s else s in
              (Ok (warnings ++ [PreballoonFailedForced (ReclaimMiB plan) (RunningVMMiB i) e], held), s)
        | None =>
            (Ok (warnings ++ [Preballooned (ReclaimMiB plan) (RunningVMMiB i) addMiB (HostPressure.ReserveMiB i) (HostFreeMiB i)], held),
             holdBalloonReclaim held now s)
        end
  end.

(** The warning of [checkLonghornMemoryWarning]: projected free memory and reserve. *)
Definition checkLonghornMemoryWarning r (item : Cluster) : option (Z * Z) :=
  if negb (String.eqb (CSI (c_Intent item)) CSILonghorn) then None
  else match hostFreeMemory r with
       | None => None
       | Some freeMiB =>
           let reserve := ConfigReserveMiB (reserveEnv r) in
           let projected := freeMiB -! clusterMemoryMiB item in
           if reserve <=? projected then None
           else Some (if projected <? 0 then 0 else projected, reserve)
       end.

(** *** One poll of the manager ([balloon.RunWithLogger] as the daemon configures it) *)

Definition poll r (sample : option BalloonManager.Snapshot) (now : Z) (m : Manager) (logs : list log_entry) s
    : Manager * list log_entry * Server M W :=
  if BalloonPaused s then (m, logs, s)
  else match sample with
       | None => (m, logs, s)
       | Some sample =>
           let '(machines, s) := Balloonables r s in
           let '(hold, s) := BalloonHoldMiB r now now s in
           let st := ReconcileSnapshot (dom machines) sample (ConfigReserveMiB (reserveEnv r)) ConfigFloorMiB hold now
                       (mkState m (machines, s) logs) in
           (mgr st, BalloonManager.logs st, (world st).2)
       end.
End Server.

(** ** Lemmas *)

Lemma sum64_exact {A} (f : A -> Z) (l : list A) :
  (forall x, x ∈ l -> 0 <= f x) -> zsum f l < 2 ^ 62 -> sum64 f l = zsum f l.
Proof.
  unfold sum64. enough (forall acc, 0 <= acc -> (forall x, x ∈ l -> 0 <= f x) -> acc + zsum f l < 2 ^ 62 ->
    foldl (fun acc x => acc +! f x) acc l = acc + zsum f l) as Hg by (intros; by apply (Hg 0)).
  induction l as [|a l IH]; intros acc Ha Hp Hb; [rewrite zsum_nil; cbn; lia|]. rewrite zsum_cons in *.
  assert (0 <= zsum f l) by (apply zsum_nonneg; set_solver). assert (0 <= f a) by set_solver.
  cbn [foldl]. rewrite wrap64_id by int64_lia. rewrite IH; [lia|lia|set_solver|lia].
Qed.

Lemma above_zero_max x : above_zero x = Z.max 0 x.
Proof. unfold above_zero. destruct (0 <? x) eqn:E; bool_to_prop; lia. Qed.

(** *** The pre-balloon loop *)

Section Loop.
Context {W : Type} `{BalloonLaws W}.

(** An iteration that ends without an error had every guest accept. *)
Lemma apply_loop_pending targets names (a a' : apply_state W) :
  apply_loop targets names a = (a', None) -> pending a = [].
Proof.
  revert a. induction names as [|n names IH]; intros a Hl; cbn [apply_loop] in Hl.
  - by case_head_in Hl.
  - destruct (vm_SetMemoryTargetMiB (ap_world a) n (get_target targets n)) as [[] w'];
      try discriminate Hl; apply IH in Hl; cbn in Hl; try done; by destruct (pending a).
Qed.

(** The induction principle of an error-free run: whatever holds of the world and
    the amount held, and is kept by each accepted retarget, holds at the end. *)
Lemma apply_loop_ind (P : list string -> Z -> W -> Prop) targets names (a a' : apply_state W) :
  (forall n ns held w w', P (n :: ns) held w -> vm_SetMemoryTargetMiB w n (get_target targets n) = (SetOk, w') ->
     P ns (held +! above_zero (vm_ConfiguredMiB w' n -! get_target targets n)) w') ->
  P names (heldMiB a) (ap_world a) -> apply_loop targets names a = (a', None) -> P [] (heldMiB a') (ap_world a').
Proof.
  intros Hs. revert a. induction names as [|n names IH]; intros a Hp Hl.
  - cbn [apply_loop] in Hl. by injection Hl as ->.
  - cbn [apply_loop] in Hl. destruct (vm_SetMemoryTargetMiB (ap_world a) n (get_target targets n)) as [out w'] eqn:E.
    destruct out; [|apply apply_loop_pending in Hl; cbn in Hl; by destruct (pending a)..|done].
    eapply IH; [|exact Hl]. cbn. by eapply Hs.
Qed.
End Loop.

(** *** The pre-balloon of a server's machines *)

(** A size a guest holds, as far as the server knows: the recorded target, or the
    configured size of a guest nothing has ballooned. *)
Definition guest_size {M W} (m : balloonMachine M) (s : Server M W) : Z :=
  if 0 <? balloonTargetMiB (bm_key m) s then balloonTargetMiB (bm_key m) s else bm_configuredMiB m.

(** Sizes that are not negative and fit in 2 PiB, none above its configured size. *)
Definition machines_ok {M} (machines : gmap string (balloonMachine M)) : Prop :=
  map_Forall (fun n m => bm_key m = n /\ 0 <= bm_configuredMiB m /\ bm_CurrentTargetMiB m <= bm_configuredMiB m) machines /\
  zsum (fun kv : string * balloonMachine M => bm_configuredMiB kv.2) (map_to_list machines) < 2 ^ 31.

(** What a pre-balloon may change: the hypervisor and the ledger. *)
Definition same_rest {M W} (s s' : Server M W) : Prop :=
  vms s' = vms s /\ balloonHolds s' = balloonHolds s /\ balloonTeardowns s' = balloonTeardowns s /\
  balloonShutdown s' = balloonShutdown s /\ balloonDisabled s' = balloonDisabled s.

Lemma same_rest_trans {M W} (a b c : Server M W) : same_rest a b -> same_rest b c -> same_rest a c.
Proof. unfold same_rest. intuition congruence. Qed.

Section ServerFacts.
Context {M W : Type} `{Machines M W}.
Implicit Types (s : Server M W) (machines : gmap string (balloonMachine M)) (n : string).

Lemma SetMemoryTarget_rest m t s out s' : SetMemoryTargetMiB m t s = (out, s') ->
  same_rest s s' /\ (forall k, k <> bm_key m -> balloonTargets s' !! k = balloonTargets s !! k) /\
  (out = SetOk -> balloonTargets s' !! bm_key m = Some t) /\ (out <> SetOk -> balloonTargets s' = balloonTargets s).
Proof.
  unfold SetMemoryTargetMiB. destruct (balloonQuiesced s); [intros [= <- <-]; repeat split; done|].
  destruct (machine_SetMemoryTargetMiB _ _ _) as [[] w']; [| |intros [= <- <-]; repeat split; done].
  - intros [= <- <-]. repeat split; cbn; [|intros _; by rewrite lookup_insert_eq|done].
    intros k Hk. by rewrite lookup_insert_ne.
  - destruct (bm_tolerateDeviceNotActive m); intros [= <- <-]; repeat split; done.
Qed.

#[export] Instance snapshot_laws : BalloonLaws (gmap string (balloonMachine M) * Server M W).
Proof.
  split; intros [machines s]; intros; cbn; destruct (machines !! n) as [m'|] eqn:E; try done;
    by destruct (SetMemoryTargetMiB m' t s).
Qed.

Lemma machines_sum machines (f : string -> balloonMachine M -> Z) (g : string -> Z) :
  (forall n m, machines !! n = Some m -> g n = f n m) ->
  zsum g (names_of machines) = zsum (fun kv => f kv.1 kv.2) (map_to_list machines).
Proof.
  intros Hfg. unfold names_of. transitivity (zsum g (map_to_list machines).*1).
  - apply zsum_perm. apply NoDup_Permutation; [apply NoDup_elements|apply NoDup_fst_map_to_list|].
    intros k. rewrite elem_of_elements, elem_of_dom, list_elem_of_fmap. split.
    + intros [m Hm]. exists (k, m). by rewrite elem_of_map_to_list.
    + intros ([k' m] & -> & Hm%elem_of_map_to_list). by exists m.
  - rewrite zsum_map. apply zsum_ext. intros [k m] Hm%elem_of_map_to_list. by apply Hfg.
Qed.

Lemma snapshot_current machines s n m : machines !! n = Some m ->
  currentTargetMiB (machines, s) n = bm_CurrentTargetMiB m.
Proof.
  intros E. unfold currentTargetMiB. cbn. rewrite E. cbn. unfold bm_CurrentTargetMiB.
  destruct (0 <? bm_currentTargetMiB m) eqn:Et; [by rewrite Et|]. by case_match.
Qed.

Lemma current_nonneg m : 0 <= bm_configuredMiB m -> 0 <= @bm_CurrentTargetMiB M m.
Proof. unfold bm_CurrentTargetMiB. case_match; bool_to_prop; lia. Qed.

Lemma machines_current_sum machines s : machines_ok machines ->
  zsum (currentTargetMiB (machines, s)) (names_of machines) < 2 ^ 31.
Proof.
  intros [Hm Ht]. rewrite (machines_sum machines (fun _ => bm_CurrentTargetMiB)).
  2: { intros n m E. by apply snapshot_current. }
  eapply Z.le_lt_trans; [|exact Ht]. apply zsum_le. intros [n m] E%elem_of_map_to_list.
  by apply Hm in E as (_ & _ & ?).
Qed.

Lemma elem_names_of machines n : n ∈ names_of machines <-> is_Some (machines !! n).
Proof. unfold names_of. by rewrite elem_of_elements, elem_of_dom. Qed.

Lemma machines_guest_set machines s floor : machines_ok machines -> 0 <= floor < 2 ^ 31 ->
  guest_set (reclaim_nodes (machines, s) (names_of machines)) floor.
Proof.
  intros Hok Hf. split; [|split; [|split; [|done]]].
  - unfold reclaim_nodes. rewrite <- list_fmap_compose.
    rewrite (list_fmap_ext _ id) by done. rewrite list_fmap_id. apply NoDup_elements.
  - apply Forall_forall. intros x (k & -> & [m E]%elem_names_of)%list_elem_of_fmap. cbn.
    destruct Hok as [Hm _]. pose proof (Hm k m E) as (_ & ? & _). rewrite (snapshot_current machines s k m) by done.
    by apply current_nonneg.
  - unfold reclaim_nodes. rewrite zsum_map. by apply machines_current_sum.
Qed.

(** The sizes a plan takes out, counted from the configured ones. *)
Definition out_of machines (T : gmap string Z) (n : string) : Z :=
  match machines !! n with Some m => bm_configuredMiB m - get_target T n | None => 0 end.

Lemma apply_loop_server machines T names s (a' : apply_state (gmap string (balloonMachine M) * Server M W)) :
  map_Forall (fun n m => bm_key m = n) machines -> NoDup names -> (forall n, n ∈ names -> is_Some (machines !! n)) ->
  (forall n, n ∈ names -> 0 <= out_of machines T n) -> zsum (out_of machines T) names < 2 ^ 62 ->
  apply_loop T names (mkApply 0 0 [] (machines, s)) = (a', None) ->
  (forall n, n ∈ names -> balloonTargets (ap_world a').2 !! n = Some (get_target T n)) /\
  heldMiB a' = zsum (out_of machines T) names /\ same_rest s (ap_world a').2.
Proof.
  intros Hkey Hnd Hin Hpos Hsum Hl.
  enough ((ap_world a').1 = machines /\ same_rest s (ap_world a').2 /\ NoDup (A := string) [] /\ (forall n, n ∈ [] -> n ∈ names) /\
    (forall n, n ∈ names -> (n ∉ []) -> balloonTargets (ap_world a').2 !! n = Some (get_target T n)) /\
    heldMiB a' + zsum (out_of machines T) [] = zsum (out_of machines T) names /\ 0 <= heldMiB a')
    as (_ & ? & _ & _ & Hled & Hh & _).
  { split_and!; [|rewrite zsum_nil in Hh; lia|done]. intros n Hn. apply Hled; [done|]. by apply not_elem_of_nil. }
  refine (apply_loop_ind (fun ns held w => w.1 = machines /\ same_rest s w.2 /\ NoDup ns /\ (forall n, n ∈ ns -> n ∈ names) /\
    (forall n, n ∈ names -> (n ∉ ns) -> balloonTargets w.2 !! n = Some (get_target T n)) /\
    held + zsum (out_of machines T) ns = zsum (out_of machines T) names /\ 0 <= held) T names _ a' _ _ Hl).
  - intros n ns held [m1 s1] [m2 s2] (Hw & Hr & Hn & Hs & Hled & Hh & H0) Hset. cbn in Hw, Hr, Hled. subst m1.
    destruct (Hin n (Hs n ltac:(left))) as [m Em]. cbn in Hset. rewrite Em in Hset.
    destruct (SetMemoryTargetMiB m (get_target T n) s1) as [out s3] eqn:Eset. injection Hset as -> <- ->.
    apply SetMemoryTarget_rest in Eset as (Hr' & Hother & Hok & _). specialize (Hok eq_refl).
    rewrite (Hkey n m Em) in Hother, Hok. apply NoDup_cons in Hn as [Hnn Hn]. rewrite zsum_cons in Hh.
    pose proof (Hpos n (Hs n ltac:(left))) as Hp. assert (out_of machines T n = bm_configuredMiB m - get_target T n) as Eo
      by (unfold out_of; by rewrite Em).
    assert (0 <= zsum (out_of machines T) ns) by (apply zsum_nonneg; intros x Hx; apply Hpos, Hs; by right).
    assert (wrap64 (held + above_zero (wrap64 (bm_configuredMiB m - get_target T n))) = held + out_of machines T n) as Eh
      by (rewrite above_zero_max, (wrap64_id (bm_configuredMiB m - _)), wrap64_id; [lia|int64_lia..]).
    cbn [fst snd vm_ConfiguredMiB snapshot_balloonable]. rewrite Em, Eh.
    split_and!; [done|by eapply same_rest_trans|done|intros x Hx; apply Hs; by right| |lia|lia].
    intros x Hx Hxs. destruct (decide (x = n)) as [->|Hne]; [done|]. rewrite Hother by done. apply Hled; [done|].
    rewrite elem_of_cons. naive_solver.
  - by split_and!.
Qed.

(** An error-free pre-balloon: the ledger holds the plan, the plan takes what was
    asked or everything above the floor, and the amount held is counted from the
    configured sizes. *)
Lemma reclaim_apply_ok machines avail floor deficit s held s' :
  machines_ok machines -> 0 < deficit -> deficit + Z.of_nat (size machines) < 2 ^ 31 -> 0 <= floor < 2 ^ 31 ->
  reclaim_apply (mkReclaim machines avail floor) deficit s = (held, None, s') ->
  exists target : string -> Z,
    (forall n m, machines !! n = Some m -> balloonTargets s' !! n = Some (target n) /\
       Z.min (bm_CurrentTargetMiB m) floor <= target n <= bm_CurrentTargetMiB m) /\
    Z.min deficit (zsum (fun kv => Z.max 0 (bm_CurrentTargetMiB kv.2 - floor)) (map_to_list machines)) <=
      zsum (fun kv => bm_CurrentTargetMiB kv.2 - target kv.1) (map_to_list machines) /\
    held = zsum (fun kv => bm_configuredMiB kv.2 - target kv.1) (map_to_list machines) /\ same_rest s s'.
Proof.
  intros Hok Hd Hd' Hf Ha. unfold reclaim_apply, apply in Ha. cbn [br_vms br_floorMiB] in Ha.
  set (nodes := reclaim_nodes (machines, s) (names_of machines)) in *.
  assert (length nodes = size machines) as Hlen
    by (unfold nodes, reclaim_nodes, names_of; by rewrite length_fmap, <- size_dom).
  rewrite wrap64_id, Hlen in Ha by int64_lia.
  set (T := PlanTargets nodes (deficit + Z.of_nat (size machines)) floor) in *.
  pose proof (machines_guest_set machines s floor Hok Hf) as Hg.
  assert (forall n m, machines !! n = Some m ->
    Z.min (bm_CurrentTargetMiB m) floor <= get_target T n <= bm_CurrentTargetMiB m) as Hrange.
  { intros n m E. pose proof (plan_bounds nodes (deficit + Z.of_nat (size machines)) floor
      (BalloonPlan.mkNode n (currentTargetMiB (machines, s) n)) Hg Hd') as Hb.
    cbn in Hb. rewrite (snapshot_current machines s n m E) in Hb. apply Hb. apply list_elem_of_fmap. exists n.
    rewrite (snapshot_current machines s n m E). split; [done|]. apply elem_names_of. by exists m. }
  destruct (apply_loop T _ _) as [a err] eqn:El. injection Ha as <- -> <-.
  assert (forall n, n ∈ names_of machines -> 0 <= out_of machines T n) as Hpos.
  { intros n [m E]%elem_names_of. unfold out_of. rewrite E. pose proof (Hrange n m E).
    destruct Hok as [Hm _]. destruct (Hm n m E) as (_ & _ & ?). lia. }
  assert (zsum (out_of machines T) (names_of machines) =
          zsum (fun kv => bm_configuredMiB kv.2 - get_target T kv.1) (map_to_list machines)) as Eout.
  { apply (machines_sum machines (fun n m => bm_configuredMiB m - get_target T n)). intros n m E. unfold out_of. by rewrite E. }
  exists (get_target T). apply apply_loop_server in El as (Hled & Hheld & Hrest).
  - split_and!; [| |by rewrite Hheld, sort_strings_perm, Eout|done].
    + intros n m E. split; [|by apply Hrange]. apply Hled. rewrite elem_of_sort_strings. apply elem_names_of. by exists m.
    + pose proof (plan_takes nodes deficit floor Hg Hd) as Hp. rewrite Hlen in Hp. specialize (Hp Hd').
      unfold capacity, reclaimed in Hp. unfold nodes in Hp at 1 3. unfold reclaim_nodes in Hp. rewrite !zsum_map in Hp. cbn in Hp.
      rewrite (machines_sum machines (fun _ m => Z.max 0 (bm_CurrentTargetMiB m - floor))) in Hp
        by (intros n m E; by rewrite (snapshot_current machines s n m E)).
      rewrite (machines_sum machines (fun n m => bm_CurrentTargetMiB m - get_target T n)) in Hp
        by (intros n m E; by rewrite (snapshot_current machines s n m E)). done.
  - intros n m E. by apply Hok in E as (? & _).
  - apply NoDup_sort_strings, NoDup_elements.
  - intros n. rewrite elem_of_sort_strings. apply elem_names_of.
  - intros n. rewrite elem_of_sort_strings. apply Hpos.
  - rewrite sort_strings_perm, Eout.
    eapply Z.le_lt_trans; [apply (zsum_le _ (fun kv => bm_configuredMiB kv.2))|].
    + intros [n m] E%elem_of_map_to_list. cbn. pose proof (Hrange n m E). destruct Hok as [Hm _].
      destruct (Hm n m E) as (_ & ? & _). pose proof (current_nonneg m ltac:(done)). lia.
    + destruct Hok as [_ Ht]. lia.
Qed.

(** What the manager and the gate are handed: machines of running nodes under their
    own keys, at the size the ledger records. *)
Lemma balloonablesLocked_spec r s machines s1 : balloonablesLocked r s = (machines, s1) ->
  same_rest s s1 /\
  forall n m, machines !! n = Some m ->
    bm_key m = n /\ bm_currentTargetMiB m = balloonTargetMiB n s /\ balloonTargetMiB n s1 = balloonTargetMiB n s /\
    exists e, (bm_machine m = bc_machine e /\ bc_key e = n) /\ eligible (nodeProbe r) e = true.
Proof.
  unfold balloonablesLocked, balloonCandidatesLocked. intros [= <- <-]. split; [done|]. intros n m Hm.
  unfold balloonablesFromWithProbe in Hm. rewrite lookup_omap in Hm.
  apply bind_Some in Hm as (e & He & Hm). destruct (eligible (nodeProbe r) e) eqn:Hel; [|done]. injection Hm as <-.
  pose proof He as Hin. apply elem_of_list_to_map_2 in Hin.
  apply list_elem_of_fmap in Hin as (e' & [= -> <-] & Hin). apply list_elem_of_bind in Hin as ([cn nodes] & Hin & _).
  cbn. split_and!; [done| | |by exists e].
  - unfold cluster_candidates in Hin. cbn [fst snd] in Hin. destruct (cluster_Load r cn) as [item|]; [|by apply elem_of_nil in Hin].
    destruct (balloonReadbackOf r item) as [rb|]; [|by apply elem_of_nil in Hin].
    apply list_elem_of_omap in Hin as ([nn mach] & _ & Hc). unfold candidate_of in Hc. cbn in Hc.
    repeat case_head_in Hc; try done. by injection Hc as <-.
  - unfold balloonTargetMiB. f_equal. cbn. destruct (balloonTargets s !! bc_key e) as [t|] eqn:Et.
    + apply map_lookup_filter_Some. split; [done|]. cbn. by exists e.
    + apply map_lookup_filter_None. by left.
Qed.

Lemma admitted_plan i :
  bounded i -> 0 < RunningVMMiB i -> 0 < NewVMMiB i -> 0 < HostFreeMiB i ->
  (forall f, f ∈ Findings (AssessProvisionStart i) -> f_Severity f <> SeverityBlock) ->
  ReclaimMiB (AssessProvisionStart i) = Z.max 0 (HostPressure.ReserveMiB i + NewVMMiB i - HostFreeMiB i) /\
  ReclaimMiB (AssessProvisionStart i) <= Z.max 0 (ReclaimableMiB i).
Proof.
  intros Hb Hr Hn Hf. unfold AssessProvisionStart.
  replace ((RunningVMMiB i <=? 0) || (NewVMMiB i <=? 0)) with false by lia.
  rewrite (proj2 (Z.ltb_lt 0 (HostFreeMiB i)) Hf), (shortfall_exact i Hb Hr Hn Hf).
  destruct (swapBlocksProvisionStart i).
  { intros Hno. exfalso. apply (Hno (swap_finding i)); [|done]. cbn. apply elem_of_app. right. constructor. }
  repeat case_match; bool_to_prop; cbn; intros Hno; [lia..|].
  exfalso. by apply (Hno (headroom_finding i)); [constructor|].
Qed.

Lemma applyPressureFindings_ok findings ws :
  applyPressureFindings findings false = Ok ws -> forall f, f ∈ findings -> f_Severity f <> SeverityBlock.
Proof.
  unfold applyPressureFindings. destruct (filter _ findings) as [|x l] eqn:E; [|done].
  intros _ f Hf Hs. assert (f ∈ (@nil Finding)) as Hn; [|by apply elem_of_nil in Hn].
  rewrite <- E. by apply list_elem_of_filter.
Qed.

(** How an unforced start got through: either free memory covered it and nothing
    changed, or the running guests gave back the shortfall and it is held. *)
Lemma checkProvisionStart_cases r add now s ws held s' :
  checkProvisionStart r add false now s = (Ok (ws, held), s') ->
  bounded (start_input r s add) ->
  0 < runningVMMemoryMiB r s -> 0 < add -> 0 < default 0 (hostFreeMemory r) ->
  - 2 ^ 60 <= (balloonReclaim r s).1.(br_availableMiB) <= 2 ^ 60 ->
  let shortfall := ConfigReserveMiB (reserveEnv r) + add - default 0 (hostFreeMemory r) in
  (shortfall <= 0 /\ held = 0 /\ s' = s) \/
  (0 < shortfall <= Z.max 0 (br_availableMiB (balloonReclaim r s).1) /\ exists s2,
     reclaim_apply (balloonReclaim r s).1 shortfall (balloonReclaim r s).2 = (held, None, s2) /\
     s' = holdBalloonReclaim held now s2).
Proof.
  intros Hc Hb Hr Ha Hf Hav shortfall. unfold checkProvisionStart in Hc.
  set (i := start_input r s add) in *.
  pose proof (shortfall_exact i Hb Hr Ha Hf) as Hs. change (_ - _) with shortfall in Hs. rewrite Hs in Hc.
  destruct (0 <? shortfall) eqn:E; bool_to_prop.
  - right. destruct (balloonReclaim r s) as [reclaim s1]. cbn [fst snd] in *.
    set (i' := with_reclaimable (br_availableMiB reclaim) i) in *.
    assert (bounded i') as Hb'.
    { unfold bounded in *. rewrite !Forall_cons in *. cbn. naive_solver. }
    destruct (applyPressureFindings _ false) as [ws'|] eqn:Ef; [|discriminate Hc].
    destruct (admitted_plan i' Hb' Hr Ha Hf (applyPressureFindings_ok _ _ Ef)) as [E1 E2].
    change (HostPressure.ReserveMiB i' + NewVMMiB i' - HostFreeMiB i') with shortfall in E1.
    change (ReclaimableMiB i') with (br_availableMiB reclaim) in E2.
    assert (ReclaimMiB (AssessProvisionStart i') = shortfall) as E3 by lia. rewrite E3 in Hc, E2.
    split; [lia|]. rewrite (proj2 (Z.eqb_neq shortfall 0)) in Hc by lia.
    destruct (reclaim_apply reclaim shortfall s1) as [[h [e|]] s2]; [discriminate Hc|].
    injection Hc as _ <- <-. by exists s2.
  - left. destruct (applyPressureFindings _ false) as [ws'|] eqn:Ef; [|discriminate Hc].
    destruct (admitted_plan i Hb Hr Ha Hf (applyPressureFindings_ok _ _ Ef)) as [E1 _].
    change (HostPressure.ReserveMiB i + NewVMMiB i - HostFreeMiB i) with shortfall in E1.
    rewrite (proj2 (Z.eqb_eq (ReclaimMiB (AssessProvisionStart i)) 0)) in Hc by lia. by injection Hc as _ <- <-.
Qed.

Lemma balloonReclaim_cases r s :
  let b := balloonReclaim r s in
  b = (mkReclaim ∅ 0 ConfigFloorMiB, s) \/
  b = (mkReclaim (balloonablesLocked r s).1
         (availableMiB (balloonablesLocked r s) (names_of (balloonablesLocked r s).1) ConfigFloorMiB) ConfigFloorMiB,
       (balloonablesLocked r s).2).
Proof.
  cbv zeta. unfold balloonReclaim. destruct (_ || _); [by left|right]. by destruct (balloonablesLocked r s).
Qed.

Lemma available_exact machines s floor : machines_ok machines -> 0 <= floor < 2 ^ 31 ->
  availableMiB (machines, s) (names_of machines) floor =
  zsum (fun kv => Z.max 0 (bm_CurrentTargetMiB kv.2 - floor)) (map_to_list machines).
Proof.
  intros Hok Hf. pose proof (machines_current_sum machines s Hok) as Hsum.
  assert (forall n, n ∈ names_of machines -> 0 <= currentTargetMiB (machines, s) n) as Hp.
  { intros n [m E]%elem_names_of. rewrite (snapshot_current machines s n m E). apply current_nonneg.
    destruct Hok as [Hm _]. by destruct (Hm n m E) as (_ & ? & _). }
  assert (forall n, n ∈ names_of machines ->
    above_zero (currentTargetMiB (machines, s) n -! floor) = Z.max 0 (currentTargetMiB (machines, s) n - floor)) as Ez.
  { intros n Hn. pose proof (zsum_elem_le _ _ n Hp Hn). specialize (Hp n Hn). rewrite above_zero_max, wrap64_id; [done|int64_lia]. }
  unfold availableMiB. rewrite sum64_exact; [rewrite (zsum_ext _ _ _ Ez)|intros n Hn; rewrite Ez by done; lia|].
  - apply (machines_sum machines (fun _ m => Z.max 0 (bm_CurrentTargetMiB m - floor))).
    intros n m E. by rewrite (snapshot_current machines s n m E).
  - rewrite (zsum_ext _ _ _ Ez). eapply Z.le_lt_trans; [apply (zsum_le _ (currentTargetMiB (machines, s)))|lia].
    intros n Hn. specialize (Hp n Hn). lia.
Qed.
End ServerFacts.

(** ** Theorems *)

(** *** The start gate with the pre-balloon behind it *)

(** Readings far from the ends of [int]. *)
Definition readings_ok {M W} `{Machines M W} r (add : Z) (s : Server M W) : Prop :=
  0 < runningVMMemoryMiB r s < 2 ^ 30 /\ 0 < add < 2 ^ 29 /\ 0 < default 0 (hostFreeMemory r) < 2 ^ 30 /\
  - 2 ^ 60 <= default 0 (hostTotalMemory r) <= 2 ^ 60 /\ ConfigReserveMiB (reserveEnv r) < 2 ^ 29 /\
  machines_ok (balloonablesLocked r s).1 /\ Z.of_nat (size (balloonablesLocked r s).1) < 2 ^ 29.

Lemma ConfigReserveMiB_pos env : 0 < ConfigReserveMiB env.
Proof. unfold ConfigReserveMiB. repeat case_match; bool_to_prop; lia. Qed.

Lemma readings_bounded {M W} `{Machines M W} r add (s : Server M W) :
  readings_ok r add s -> bounded (start_input r s add).
Proof.
  intros (Hr & Ha & Hf & Ht & Hres & _). pose proof (ConfigReserveMiB_pos (reserveEnv r)).
  unfold bounded. rewrite !Forall_cons, Forall_nil. cbn. lia.
Qed.

Lemma guest_size_before {M W} `{Machines M W} r (s : Server M W) n m :
  (balloonablesLocked r s).1 !! n = Some m -> guest_size m s = bm_CurrentTargetMiB m.
Proof.
  destruct (balloonablesLocked r s) as [machines s1] eqn:E. intros Hm.
  apply balloonablesLocked_spec in E as [_ E]. destruct (E n m Hm) as (Hk & Hc & _).
  unfold guest_size, bm_CurrentTargetMiB. by rewrite Hc, Hk.
Qed.

Lemma hold_targets {M W} (held now : Z) (s : Server M W) : balloonTargets (holdBalloonReclaim held now s) = balloonTargets s.
Proof. unfold holdBalloonReclaim. by case_match. Qed.

(** What an admitted start that needed memory did to each guest and to the holds. *)
Lemma preballoon_effect {M W} `{Machines M W} r add now (s : Server M W) held s2 :
  let machines := (balloonablesLocked r s).1 in
  let shortfall := ConfigReserveMiB (reserveEnv r) + add - default 0 (hostFreeMemory r) in
  readings_ok r add s -> 0 < shortfall <= Z.max 0 (br_availableMiB (balloonReclaim r s).1) ->
  reclaim_apply (balloonReclaim r s).1 shortfall (balloonReclaim r s).2 = (held, None, s2) ->
  (forall n m, machines !! n = Some m ->
     Z.min (guest_size m s) ConfigFloorMiB <= guest_size m (holdBalloonReclaim held now s2) <= guest_size m s) /\
  shortfall <= zsum (fun kv => guest_size kv.2 s - guest_size kv.2 (holdBalloonReclaim held now s2)) (map_to_list machines) /\
  shortfall <= held /\ mkHold held (now + balloonReclaimHoldTTL) ∈ balloonHolds (holdBalloonReclaim held now s2).
Proof.
  intros machines shortfall (_ & Ha & Hf & _ & Hres & Hok & Hsz) Hs Happ. fold machines in Hok, Hsz.
  destruct (balloonReclaim_cases r s) as [Eb|Eb]; rewrite Eb in Hs, Happ; cbn [fst snd br_availableMiB] in Hs, Happ; [lia|].
  pose proof (guest_size_before r s) as Hbefore. fold machines in Hbefore, Hs, Happ.
  destruct (balloonablesLocked r s) as [ms s1] eqn:El. cbn [fst snd] in *. subst machines.
  rewrite available_exact in Hs by (done || unfold ConfigFloorMiB; lia).
  destruct (reclaim_apply_ok ms _ ConfigFloorMiB shortfall _ _ _ Hok ltac:(lia) ltac:(lia) ltac:(unfold ConfigFloorMiB; lia) Happ)
    as (target & Ht & Hsum & Hheld & Hrest).
  assert (forall n m, ms !! n = Some m -> guest_size m (holdBalloonReclaim held now s2) = target n) as Hafter.
  { intros n m E. destruct (Ht n m E) as [Et Hr]. destruct Hok as [Hm _]. destruct (Hm n m E) as (Hk & Hc & Hle).
    pose proof (current_nonneg m Hc). unfold guest_size, balloonTargetMiB. rewrite hold_targets, Hk, Et. cbn.
    unfold ConfigFloorMiB in Hr. unfold bm_CurrentTargetMiB in *. repeat case_match; bool_to_prop; lia. }
  assert (shortfall <= held).
  { transitivity (zsum (fun kv : string * balloonMachine M => bm_CurrentTargetMiB kv.2 - target kv.1) (map_to_list ms)); [lia|].
    rewrite Hheld. apply zsum_le. intros [n m] E%elem_of_map_to_list. cbn. destruct Hok as [Hm _].
    destruct (Hm n m E) as (_ & _ & ?). lia. }
  split_and!; [| |done|].
  - intros n m E. rewrite (Hafter n m E), (Hbefore n m E). by apply Ht.
  - rewrite (zsum_ext _ (fun kv => bm_CurrentTargetMiB kv.2 - target kv.1)); [lia|].
    intros [n m] E%elem_of_map_to_list. cbn. by rewrite (Hafter n m E), (Hbefore n m E).
  - unfold holdBalloonReclaim. rewrite (proj2 (Z.leb_gt held 0)) by lia. cbn. apply elem_of_app. right. constructor.
Qed.


(** A hypervisor whose machines run and accept every target. *)
#[export] Instance willing_machines : Machines string (gmap string Z) := {
  machine_Active _ _ := true;
  machine_SetMemoryTargetMiB w m t := (MachineOk, <[m := t]> w)
}.

Definition demo_guests : Cluster :=
  match New "alpha" 3 1 1 (mkDefaults 4096 2 20) with Ok c => c | Err _ => demo_cluster end.

Definition demo_readings : Readings :=
  mkReadings (Some 9000) (Some 32768) None true (Some [demo_guests]) (fun _ => Some demo_guests) (fun _ => Some true)
    (fun _ _ => "") (fun _ => mkProbe false false false) "".

Definition demo_server : Server string (gmap string Z) :=
  mkServer ∅ {[ "alpha" := {[ "alpha-cp-1" := "m1"; "alpha-worker-1" := "m2" ]} ]} ∅ [] 0 false false.

Definition demo_after : Server string (gmap string Z) := (checkProvisionStart demo_readings 4096 false 7 demo_server).2.

Lemma demo_readings_ok : readings_ok demo_readings 4096 demo_server.
Proof.
  unfold readings_ok. split_and!; try (vm_compute; reflexivity); try (vm_compute; discriminate).
  split; [|vm_compute; reflexivity]. apply (bool_decide_unpack _). vm_compute. exact I.
Qed.


(** *** Holds *)

(** The entries of a ledger that are live at an instant. *)
Definition live (now : Z) (holds : list balloonHold) : list balloonHold := filter (fun h => now < until h) holds.

Lemma live_live t t' holds : t <= t' -> live t' (live t holds) = live t' holds.
Proof.
  intros Ht. unfold live. induction holds as [|h holds IH]; [done|]. rewrite !filter_cons.
  repeat case_decide; rewrite ?filter_cons; repeat case_decide; try lia; congruence.
Qed.

Lemma live_app t a b : live t (a ++ b) = live t a ++ live t b.
Proof. apply filter_app. Qed.

Lemma newest_of_size_snoc x holds : newest_of_size (reclaimMiB x) (holds ++ [x]) = Some (holds, x, []).
Proof.
  induction holds as [|h holds IH]; cbn; [by rewrite Z.eqb_refl|]. by rewrite IH.
Qed.

(** The newest entry of a size is one of that size, with none of it after. *)
Lemma newest_of_size_spec size holds :
  match newest_of_size size holds with
  | Some (before, h, after) => holds = before ++ h :: after /\ reclaimMiB h = size /\ Forall (fun x => reclaimMiB x <> size) after
  | None => Forall (fun x => reclaimMiB x <> size) holds
  end.
Proof.
  induction holds as [|h holds IH]; cbn; [constructor|].
  destruct (newest_of_size size holds) as [[[before x] after]|].
  - destruct IH as (-> & ? & ?). done.
  - destruct (reclaimMiB h =? size) eqn:E; bool_to_prop; [by split_and!|by constructor].
Qed.

Lemma live_none t holds : Forall (fun h => until h <= t) holds -> live t holds = [].
Proof.
  unfold live. induction 1 as [|h holds Hh _ IH]; [done|]. rewrite filter_cons. case_decide; [lia|done].
Qed.

Lemma live_snoc t holds r d : t < d -> live t (holds ++ [mkHold r d]) = live t holds ++ [mkHold r d].
Proof.
  intros Hd. rewrite live_app. f_equal. unfold live. rewrite filter_cons. cbn. by case_decide.
Qed.

Lemma largest_hold_snoc holds h : largest_hold (holds ++ [h]) = Z.max (largest_hold holds) (reclaimMiB h).
Proof. unfold largest_hold. rewrite foldl_app. cbn. case_match; bool_to_prop; lia. Qed.

Section Holds.
Context {M W : Type}.
Implicit Types (s : Server M W).

Lemma hold_entries (held now : Z) s : 0 < held ->
  balloonHolds (holdBalloonReclaim held now s) = live now (balloonHolds s) ++ [mkHold held (now + balloonReclaimHoldTTL)].
Proof. intros Hh. unfold holdBalloonReclaim. by rewrite (proj2 (Z.leb_gt held 0)) by lia. Qed.

(** Rearming restarts the clock of the entry the admission appended, or appends it
    again once it has run out. *)
Lemma rearm_entries (held t0 t1 : Z) s : 0 < held -> t0 <= t1 ->
  Forall (fun h => until h <= t0 + balloonReclaimHoldTTL) (balloonHolds s) ->
  balloonHolds (rearmBalloonHold held t1 (holdBalloonReclaim held t0 s)) =
  live t1 (balloonHolds s) ++ [mkHold held (t1 + balloonReclaimHoldTTL)].
Proof.
  intros Hh Ht Hu. unfold rearmBalloonHold. rewrite (proj2 (Z.leb_gt held 0)) by lia. cbv zeta.
  unfold dropExpiredBalloonHoldsLocked at 1 2 3. cbn [balloonHolds with_holds]. rewrite hold_entries by done.
  change (filter (fun h => t1 < until h)) with (live t1).
  destruct (decide (t1 < t0 + balloonReclaimHoldTTL)) as [Hl|Hl].
  - rewrite live_snoc, live_live by done.
    rewrite (newest_of_size_snoc (mkHold held (t0 + balloonReclaimHoldTTL))). done.
  - rewrite live_app, live_live, (live_none t1 [_]), (live_none t1 (balloonHolds s)); [done|..|done].
    + eapply Forall_impl; [exact Hu|]. cbn. lia.
    + constructor; [cbn; lia|constructor].
Qed.

Lemma rearm_with (held now : Z) s : exists l, rearmBalloonHold held now s = with_holds l s.
Proof.
  unfold rearmBalloonHold. case_match; [by exists (balloonHolds s); destruct s|]. cbv zeta.
  destruct (newest_of_size _ _) as [[[b h] a]|]; by eexists.
Qed.

Lemma hold_with (held now : Z) s : exists l, holdBalloonReclaim held now s = with_holds l s.
Proof. unfold holdBalloonReclaim. case_match; [by exists (balloonHolds s); destruct s|]. by eexists. Qed.
End Holds.

(** The life of a hold.  A start admitted at [t0] with [held] MiB, launched at
    [t1] and given up at [t2], with nothing else starting in between: for the whole
    boot window after the launch the manager is told to keep out the largest
    outstanding hold, this one included, as far as the running guests could give it;
    and giving the start up leaves exactly the holds of the other starts that are
    still live, however long the launch took. *)
Theorem hold_lifecycle {M W} `{Machines M W} r held t0 t1 t2 t2' (s : Server M W) :
  0 < held -> t0 <= t1 -> t1 <= t2 <= t2' -> t2' < t1 + balloonReclaimHoldTTL ->
  Forall (fun h => until h <= t0 + balloonReclaimHoldTTL) (balloonHolds s) ->
  let launched := rearmBalloonHold held t1 (holdBalloonReclaim held t0 s) in
  (BalloonHoldMiB r t2 t2' launched).1 = Z.min (reclaimCeilingMiB r s ConfigFloorMiB)
     (Z.max (largest_hold (live t2' (balloonHolds s))) held) /\
  balloonHolds (releaseBalloonHold held t2 launched) = live t2 (balloonHolds s).
Proof.
  intros Hh Ht Ht2 Hw Hu launched. pose proof (rearm_entries held t0 t1 s Hh Ht Hu) as He.
  assert (exists l, launched = with_holds l s) as [l El].
  { unfold launched. destruct (rearm_with held t1 (holdBalloonReclaim held t0 s)) as [l ->].
    destruct (hold_with held t0 s) as [l' ->]. by exists l. }
  fold launched in He. clearbody launched. subst launched. cbn in He. subst l. split.
  - unfold BalloonHoldMiB, balloonHoldArmed, dropExpiredBalloonHoldsLocked. cbn [balloonHolds with_holds].
    change (filter (fun h => t2 < until h)) with (live t2). change (filter (fun h => t2' < until h)) with (live t2').
    rewrite (live_snoc t2), live_live by lia. rewrite bool_decide_eq_true_2 by (by destruct (live t2 _)).
    cbn [negb fst]. rewrite live_snoc, live_live, largest_hold_snoc by lia.
    change (reclaimCeilingMiB r (with_holds ?x ?y) ConfigFloorMiB) with (reclaimCeilingMiB r s ConfigFloorMiB).
    case_match; bool_to_prop; cbn in *; lia.
  - unfold releaseBalloonHold, dropExpiredBalloonHoldsLocked. rewrite (proj2 (Z.leb_gt held 0)) by lia. cbn [balloonHolds with_holds].
    change (filter (fun h => t2 < until h)) with (live t2). rewrite (live_snoc t2), live_live by lia.
    rewrite (newest_of_size_snoc (mkHold held _)). cbn. by rewrite app_nil_r.
Qed.

Lemma hold_lifecycle_witness :
  balloonHolds (releaseBalloonHold 500 50 (rearmBalloonHold 500 40 (holdBalloonReclaim 500 10
    (holdBalloonReclaim 500 5 demo_server)))) = [mkHold 500 (5 + balloonReclaimHoldTTL)].
Proof.
  refine (proj2 (hold_lifecycle demo_readings 500 10 40 50 60 (holdBalloonReclaim 500 5 demo_server) _ _ _ _ _)); try lia.
  - unfold balloonReclaimHoldTTL. lia.
  - repeat constructor. cbn. lia.
Defined.

(** *** Polls under a hold *)

Lemma tick_deficit_hold m sample reserve hold deficit :
  tick_deficit m sample reserve hold = (deficit, true) -> deficit = hold /\ 0 < hold.
Proof.
  unfold tick_deficit. cbv zeta. set (natural := if _ && _ then 0 else _). clearbody natural.
  intros [= <- E2]. bool_to_prop. split; [|done]. case_match; bool_to_prop; lia.
Qed.

Lemma BalloonHoldMiB_rest {M W} `{Machines M W} r now now' (s : Server M W) :
  exists l, (BalloonHoldMiB r now now' s).2 = with_holds l s.
Proof. unfold BalloonHoldMiB. cbv zeta. destruct (balloonHoldArmed now s) as [[] s1] eqn:E; injection E as _ <-; by eexists. Qed.

Lemma Balloonables_rest {M W} `{Machines M W} r (s : Server M W) : same_rest s (Balloonables r s).2.
Proof.
  unfold Balloonables. case_match; [done|]. destruct (balloonablesLocked r s) as [ms s1] eqn:E. cbn.
  by apply balloonablesLocked_spec in E as [? _].
Qed.

Lemma quiesced_rest {M W} (s s' : Server M W) : same_rest s s' -> balloonQuiesced s' = balloonQuiesced s.
Proof. intros (_ & _ & E1 & E2 & E3). unfold balloonQuiesced. by rewrite E1, E2, E3. Qed.

(** Machines that accept every target, behind a server that is not quiesced. *)
Lemma willing_set {M W} `{Machines M W} (ms : gmap string (balloonMachine M)) (w : gmap string (balloonMachine M) * Server M W) n t :
  (forall w x t, (machine_SetMemoryTargetMiB w x t).1 = MachineOk) ->
  w.1 = ms /\ balloonQuiesced w.2 = false -> n ∈ dom ms ->
  exists w', vm_SetMemoryTargetMiB w n t = (SetOk, w') /\ w'.1 = ms /\ balloonQuiesced w'.2 = false.
Proof.
  intros Hwill [<- Hq] [x Hx]%elem_of_dom. destruct w as [ms s]. cbn in *. rewrite Hx.
  destruct (SetMemoryTargetMiB x t s) as [out s'] eqn:E. pose proof E as (Hr & _)%SetMemoryTarget_rest.
  unfold SetMemoryTargetMiB in E. rewrite Hq in E. specialize (Hwill (hyp s) (bm_machine x) t).
  destruct (machine_SetMemoryTargetMiB _ _ _) as [a w']. cbn in Hwill. subst a. injection E as <- <-.
  eexists. split; [done|]. split; [done|]. cbn. by rewrite (quiesced_rest _ _ Hr).
Qed.

Lemma machines_host_ok {M W} `{Machines M W} ms (s : Server M W) floor :
  machines_ok ms -> 0 <= floor < 2 ^ 31 -> host_ok (ms, s) (dom ms) floor.
Proof.
  intros [Hm Ht] Hf. split_and!; [|cbn|lia..].
  - intros n [x Hx]%elem_of_dom. cbn. rewrite Hx. by apply Hm in Hx as (_ & ? & _).
  - eapply Z.le_lt_trans; [|exact Ht]. apply Z.eq_le_incl. apply (machines_sum ms (fun _ => bm_configuredMiB)).
    intros n x E. by rewrite E.
Qed.

(** The poll that follows does not hand a pre-balloon back.  While the hold sets
    the deficit, the pressure latch is clear, every balloon device is up and machines
    accept their targets, one poll of the manager leaves the whole hold out of the
    guests (or all they have above the floor), up to one MiB per guest. *)
Theorem poll_keeps_hold {M W} `{Machines M W} r sample now m logs (s : Server M W) deficit :
  (forall w x t, (machine_SetMemoryTargetMiB w x t).1 = MachineOk) ->
  let machines := (Balloonables r s).1 in
  let hold := (BalloonHoldMiB r now now (Balloonables r s).2).1 in
  BalloonPaused s = false -> devicePending m = ∅ -> pressureLatched (updatePressureLatch sample m) = false ->
  tick_deficit (updatePressureLatch sample m) sample (ConfigReserveMiB (reserveEnv r)) hold = (deficit, true) ->
  machines_ok machines -> machines <> ∅ -> hold < 2 ^ 31 ->
  let m' := (poll r (Some sample) now m logs s).1.1 in
  Z.min hold (zsum (fun kv => Z.max 0 (bm_configuredMiB kv.2 - ConfigFloorMiB)) (map_to_list machines)) <
  zsum (fun kv => bm_configuredMiB kv.2 - default 0 (last m' !! kv.1)) (map_to_list machines) + Z.of_nat (size machines).
Proof.
  intros Hwill machines hold Hp Hdev Hl Htd Hok Hne Hb m'. unfold m', poll. rewrite Hp.
  destruct (Balloonables r s) as [ms s1] eqn:EB. cbn [fst snd] in *. subst machines.
  destruct (BalloonHoldMiB r now now s1) as [h s2] eqn:EH. subst hold. cbn [fst snd] in *.
  destruct (tick_deficit_hold _ _ _ _ _ Htd) as [-> Hh].
  assert (balloonQuiesced s2 = false) as Hq2.
  { destruct (BalloonHoldMiB_rest r now now s1) as [l El]. rewrite EH in El. cbn in El. subst s2.
    pose proof (Balloonables_rest r s) as Hr. rewrite EB in Hr.
    change (balloonQuiesced s = false) in Hp. by rewrite <- (quiesced_rest _ _ Hr) in Hp. }
  set (st := mkState m (ms, s2) logs). pose proof (machines_host_ok ms s2 ConfigFloorMiB Hok ltac:(unfold ConfigFloorMiB; lia)) as Hho.
  pose proof (plan_water_filling _ h _ (host_ok_guest_set m (ms, s2) (dom ms) ConfigFloorMiB Hho) ltac:(lia)) as Hwf.
  set (nodes := plan_nodes m (ms, s2) (dom ms)) in *.
  assert (nodes = (fun n => BalloonPlan.mkNode n (vm_ConfiguredMiB (ms, s2) n)) <$> names_of ms) as En
    by (unfold nodes, plan_nodes, names_of; by rewrite Hdev, difference_empty_L).
  assert (length nodes = size ms) as Hlen by (rewrite En; unfold names_of; by rewrite length_fmap, <- size_dom).
  destruct Hwf as [_ Hwf]; [intros E; rewrite E in Hlen; by apply Hne, map_size_empty_inv|].
  rewrite Hlen in Hwf. unfold capacity, reclaimed in Hwf. rewrite En in Hwf at 1 2. rewrite !zsum_map in Hwf. cbn [BalloonPlan.ConfiguredMiB node_Name] in Hwf.
  rewrite (machines_sum ms (fun _ x => Z.max 0 (bm_configuredMiB x - ConfigFloorMiB))) in Hwf
    by (intros n x E; cbn; by rewrite E).
  rewrite (machines_sum ms (fun n x => bm_configuredMiB x - default 0
    (last (mgr (ReconcileSnapshot (dom ms) sample (ConfigReserveMiB (reserveEnv r)) ConfigFloorMiB h now st)) !! n))) in Hwf; [done|].
  intros n x E. cbn [vm_ConfiguredMiB snapshot_balloonable fst]. rewrite E. do 2 f_equal.
  rewrite (hold_tick_settled (fun w => w.1 = ms /\ balloonQuiesced w.2 = false) (dom ms) sample _ _ _ _ st h n); try done.
  - intros w k t Hg Hk. by apply willing_set.
  - apply elem_of_dom. by exists x.
Qed.

Definition roomy_sample : BalloonManager.Snapshot := BalloonManager.mkSnapshot 32768 7000 100 0 0 PressureNormal.

Definition demo_machines := (Balloonables demo_readings demo_after).1.
Definition demo_hold : Z := (BalloonHoldMiB demo_readings 8 8 (Balloonables demo_readings demo_after).2).1.

Lemma poll_keeps_hold_witness :
  Z.min demo_hold (zsum (fun kv => Z.max 0 (bm_configuredMiB kv.2 - ConfigFloorMiB)) (map_to_list demo_machines)) <
  zsum (fun kv => bm_configuredMiB kv.2 - default 0 (last (poll demo_readings (Some roomy_sample) 8 NewManager [] demo_after).1.1 !! kv.1))
    (map_to_list demo_machines) + Z.of_nat (size demo_machines).
Proof.
  refine (poll_keeps_hold demo_readings roomy_sample 8 NewManager [] demo_after 1242 _ _ _ _ _ _ _ _).
  - reflexivity.
  - vm_compute. reflexivity.
  - reflexivity.
  - vm_compute. reflexivity.
  - vm_compute. reflexivity.
  - split; [|vm_compute; reflexivity]. apply (bool_decide_unpack _). vm_compute. exact I.
  - intros E. apply (f_equal size) in E. vm_compute in E. discriminate E.
  - vm_compute. reflexivity.
Defined.

(** *** The teardown latch *)

(** Callers of [quiesceBalloon] by a number of their own, with whether the function
    they were given has been called; retargets from an earlier snapshot, holds and
    the shutdown happen in between in any order. *)
Record teardowns (M W : Type) := mkTeardowns { td_server : Server M W; td_callers : gmap nat bool }.
Arguments mkTeardowns {M W}. Arguments td_server {M W}. Arguments td_callers {M W}.

Inductive teardown_step {M W} `{Machines M W} : teardowns M W -> teardowns M W -> Prop :=
| step_quiesce s callers id : callers !! id = None ->
    teardown_step (mkTeardowns s callers) (mkTeardowns (quiesceBalloon s) (<[id := false]> callers))
| step_release s callers id fired : callers !! id = Some fired ->
    teardown_step (mkTeardowns s callers) (mkTeardowns (releaseBalloon fired s) (<[id := true]> callers))
| step_retarget s callers m t :
    teardown_step (mkTeardowns s callers) (mkTeardowns (SetMemoryTargetMiB m t s).2 callers)
| step_hold s callers held now :
    teardown_step (mkTeardowns s callers) (mkTeardowns (holdBalloonReclaim held now s) callers).

(** Callers still inside their teardown. *)
Definition inside (callers : gmap nat bool) : nat := size (filter (fun kv => kv.2 = false) callers).

Lemma inside_insert_true (callers : gmap nat bool) (id : nat) (fired : bool) : callers !! id = Some fired ->
  inside callers = (inside (<[id := true]> callers) + (if fired then 0 else 1))%nat.
Proof.
  intros Hid. unfold inside. rewrite map_filter_insert_False by done.
  destruct fired.
  - rewrite map_filter_delete_not; [lia|]. intros y Hy. rewrite Hid in Hy. by injection Hy as <-.
  - rewrite map_filter_delete, map_size_delete_Some; [|by exists false; apply map_lookup_filter_Some].
    assert (size (filter (fun kv : nat * bool => kv.2 = false) callers) <> 0%nat); [|lia].
    apply map_size_non_empty_iff. intros E. assert (filter (fun kv : nat * bool => kv.2 = false) callers !! id = None)
      as Hn by (by rewrite E). apply map_lookup_filter_None in Hn as [?|Hn]; [congruence|]. by apply (Hn false).
Qed.

(** The latch counts the callers inside, while they are fewer than 2^31. *)
Definition latch_inv {M W} (t : teardowns M W) : Prop :=
  Z.of_nat (size (td_callers t)) < 2 ^ 31 -> balloonTeardowns (td_server t) = Z.of_nat (inside (td_callers t)).

Lemma wrap32_id z : - 2 ^ 31 <= z < 2 ^ 31 -> wrapu 32 (z + 2 ^ 31) - 2 ^ 31 = z.
Proof. intros Hz. unfold wrapu. rewrite Z.mod_small; lia. Qed.

Lemma inside_le callers : (inside callers <= size callers)%nat.
Proof. unfold inside. apply map_size_filter. Qed.

Lemma latch_inv_step {M W} `{Machines M W} (t t' : teardowns M W) : teardown_step t t' -> latch_inv t -> latch_inv t'.
Proof.
  unfold latch_inv. intros [s callers id Hid|s callers id fired Hid|s callers m tg|s callers held now] Hinv; cbn in *; intros Hb.
  - rewrite map_size_insert_None in Hb by done. specialize (Hinv ltac:(lia)). pose proof (inside_le callers).
    unfold inside in *. rewrite map_filter_insert_True by done.
    rewrite map_size_insert_None by (apply map_lookup_filter_None; by left). rewrite wrap32_id, Hinv; lia.
  - rewrite map_size_insert_Some in Hb by (by exists fired). specialize (Hinv Hb). pose proof (inside_le callers).
    pose proof (inside_insert_true callers id fired Hid). destruct fired; cbn; [lia|].
    rewrite wrap32_id, Hinv; lia.
  - destruct (SetMemoryTargetMiB m tg s) as [out s'] eqn:E. apply SetMemoryTarget_rest in E as ((_ & _ & E & _) & _).
    cbn. rewrite E. by apply Hinv.
  - destruct (hold_with held now s) as [l ->]. by apply Hinv.
Qed.

(** While any caller is inside a teardown, nothing is retargeted.  However callers
    enter and leave, call their release twice, retarget from old snapshots and take
    holds, as long as one caller has not released the latch every retarget is answered
    "quiesced" and changes nothing, and a poll of the manager is skipped. *)
Theorem teardown_parks_ballooning {M W} `{Machines M W} (s0 : Server M W) t id m target r sample now mgr logs :
  balloonTeardowns s0 = 0 -> rtc teardown_step (mkTeardowns s0 ∅) t -> Z.of_nat (size (td_callers t)) < 2 ^ 31 ->
  td_callers t !! id = Some false ->
  SetMemoryTargetMiB m target (td_server t) = (SetQuiesced, td_server t) /\
  poll r sample now mgr logs (td_server t) = (mgr, logs, td_server t).
Proof.
  intros H0 Hr Hb Hid.
  assert (latch_inv t) as Hinv.
  { assert (latch_inv (mkTeardowns s0 ∅)) as Hi by (intros _; cbn; by rewrite H0).
    revert Hi. clear -Hr. induction Hr as [|x y z Hxy _ IH]; [done|]. intros Hx. by apply IH, (latch_inv_step x). }
  specialize (Hinv Hb). pose proof (inside_insert_true _ _ _ Hid) as Hin. cbv iota in Hin.
  assert (balloonQuiesced (td_server t) = true) as Hq.
  { unfold balloonQuiesced. rewrite (proj2 (Z.ltb_lt 0 (balloonTeardowns (td_server t)))) by lia. by rewrite orb_true_r. }
  split; [unfold SetMemoryTargetMiB; by rewrite Hq|]. unfold poll, BalloonPaused. by rewrite Hq.
Qed.

Lemma teardown_parks_ballooning_witness :
  SetMemoryTargetMiB (mkMachine "a" "m1" 4096 0 true) 2048 (quiesceBalloon demo_server) = (SetQuiesced, quiesceBalloon demo_server).
Proof.
  refine (proj1 (teardown_parks_ballooning demo_server (mkTeardowns (quiesceBalloon demo_server) {[ 1%nat := false ]}) 1
    (mkMachine "a" "m1" 4096 0 true) 2048 demo_readings None 0 NewManager [] _ _ _ _)).
  - reflexivity.
  - apply rtc_once. exact (step_quiesce demo_server ∅ 1 eq_refl).
  - reflexivity.
  - reflexivity.
Defined.
