(* ===== verification/TalosVersion.v ===== *)
(** * Talos versions ([internal/talosversion])

    Parsing of vMAJOR.MINOR.PATCH with an optional pre-release, the order on versions
    and the two decisions taken from it: the lowest version a cluster may be created
    with, and the warning for versions newer than the tested one. *)

From stdpp Require Import base list strings.
From Stdlib Require Import Ascii ZArith Lia.
From S2P Require Import Prelude GoStrings.

Local Open Scope Z_scope.

Definition Default : string := "v1.13.9".
Definition Min : string := "v1.12.0".

(** ** Parsing *)

(** The longest prefix of digits, and the rest. *)
Fixpoint span_digits (s : string) : string * string :=
  match s with
  | String c r => if is_digit c then let '(d, rest) := span_digits r in (String c d, rest) else (EmptyString, s)
  | EmptyString => (EmptyString, EmptyString)
  end.

(** One or more digits: [(\d+)] *)
Definition digits1 (s : string) : option (string * string) :=
  let '(d, rest) := span_digits s in if String.eqb d "" then None else Some (d, rest).

Definition expect (c : ascii) (s : string) : option string :=
  match s with String a r => if decide (a = c) then Some r else None | EmptyString => None end.

Definition is_ident_char (c : ascii) : bool := is_digit c || is_upper c || is_lower c || bool_decide (c = "-"%char).

Fixpoint all_ident (s : string) : bool :=
  match s with String c r => is_ident_char c && all_ident r | EmptyString => true end.

(** The rest of the pattern: nothing, or a dash and dot-separated identifiers.  Whether a
    pre-release is present, or no match. *)
Definition prerelease_shape (s : string) : option bool :=
  match s with
  | EmptyString => Some false
  | String c r =>
      if decide (c = "-"%char) then
        if forallb (fun w => negb (String.eqb w "") && all_ident w) (split_on "."%char r) then Some true else None
      else None
  end.

(** [versionShape.FindStringSubmatch] *)
Definition versionShape (version : string) : option (string * string * string * bool) :=
  s ← expect "v"%char version;
  '(major, s) ← digits1 s;
  s ← expect "."%char s;
  '(minor, s) ← digits1 s;
  s ← expect "."%char s;
  '(patch, s) ← digits1 s;
  pre ← prerelease_shape s;
  Some (major, minor, patch, pre).

Record parsedVersion := mkVersion { major : Z; minor : Z; patch : Z; prerelease : bool }.

Inductive version_error :=
| InvalidVersion (version : string)
| VersionField (version : string)
| BelowMinimum (version : string).

Definition parse (version : string) : result version_error parsedVersion :=
  match versionShape version with
  | None => Err (InvalidVersion version)
  | Some (a, b, c, pre) =>
      match atoi a with
      | None => Err (VersionField version)
      | Some a => match atoi b with
                  | None => Err (VersionField version)
                  | Some b => match atoi c with
                              | None => Err (VersionField version)
                              | Some c => Ok (mkVersion a b c pre)
                              end
                  end
      end
  end.

Definition less (v other : parsedVersion) : bool :=
  if negb (major v =? major other) then major v <? major other
  else if negb (minor v =? minor other) then minor v <? minor other
  else if negb (patch v =? patch other) then patch v <? patch other
  else prerelease v && negb (prerelease other).

(** [mustParse], which panics on a malformed constant *)
Definition mustParse (version : string) : parsedVersion :=
  match parse version with Ok v => v | Err _ => mkVersion 0 0 0 false end.

Definition floor : parsedVersion := mustParse Min.
Definition tested : parsedVersion := mustParse Default.

Definition ValidateVersion (version : string) : result version_error unit :=
  match parse version with
  | Err e => Err e
  | Ok requested => if less requested floor then Err (BelowMinimum version) else Ok tt
  end.

Definition NewerThanTestedWarning (version : string) : bool :=
  match parse version with Ok requested => less tested requested | Err _ => false end.

Example version_constants : (parse Min = Ok (mkVersion 1 12 0 false)) /\ (parse Default = Ok (mkVersion 1 13 9 false)).
Proof. split; reflexivity. Qed.

Example version_shapes :
  (is_ok ∘ parse) <$> ["v1.12.0"; "v1.14.0-beta.1"; "v1.12"; "1.12.0"; "v1.12.0-"; "v1.12.0-a..b"; "v1.12.0+meta"; "v1.99999999999999999999.0"] =
  [true; true; false; false; false; false; false; false].
Proof. reflexivity. Qed.

(** ** The order *)

(** Versions as tuples, a release above its pre-releases. *)
Definition rank (v : parsedVersion) : Z * Z * Z * Z := (major v, minor v, patch v, if prerelease v then 0 else 1).

Definition lex (a b : Z * Z * Z * Z) : Prop :=
  let '(a1, a2, a3, a4) := a in let '(b1, b2, b3, b4) := b in
  a1 < b1 \/ (a1 = b1 /\ (a2 < b2 \/ (a2 = b2 /\ (a3 < b3 \/ (a3 = b3 /\ a4 < b4))))).

Lemma less_lex v w : less v w = true <-> lex (rank v) (rank w).
Proof.
  unfold less, lex, rank. destruct v as [a b c p], w as [a' b' c' p']. cbn.
  destruct (a =? a') eqn:E1; bool_to_prop; cbn; [|rewrite Z.ltb_lt; lia].
  destruct (b =? b') eqn:E2; bool_to_prop; cbn; [|rewrite Z.ltb_lt; lia].
  destruct (c =? c') eqn:E3; bool_to_prop; cbn; [|rewrite Z.ltb_lt; lia].
  destruct p, p'; cbn; split; intros; try done; lia.
Qed.

Lemma less_irrefl v : less v v = false.
Proof. destruct (less v v) eqn:E; [|done]. apply less_lex in E. destruct v as [a b c []]; cbn in E; lia. Qed.

Lemma less_trans u v w : less u v = true -> less v w = true -> less u w = true.
Proof. rewrite !less_lex. destruct u as [? ? ? []], v as [? ? ? []], w as [? ? ? []]; cbn; lia. Qed.

(** Incomparability is an equivalence: the order is a strict weak order. *)
Lemma less_negative_trans u v w : less u w = true -> less u v = true \/ less v w = true.
Proof.
  rewrite !less_lex. destruct u as [? ? ? []], v as [? ? ? []], w as [? ? ? []]; cbn; lia.
Qed.

(** The version gate follows the order on versions.  The order is a strict weak
    order; a version is accepted exactly when it parses and is not below the minimum,
    so everything above an accepted version is accepted, and a pre-release of the
    minimum itself is not; versions that are warned about are accepted. *)
Theorem version_gate version v :
  parse version = Ok v ->
  (is_ok (ValidateVersion version) = true <-> ~ lex (rank v) (rank floor)) /\
  (forall other w, parse other = Ok w -> less v w = true -> is_ok (ValidateVersion version) = true -> is_ok (ValidateVersion other) = true) /\
  (NewerThanTestedWarning version = true -> is_ok (ValidateVersion version) = true) /\
  (major v = major floor -> minor v = minor floor -> patch v = patch floor ->
     is_ok (ValidateVersion version) = negb (prerelease v)).
Proof.
  intros Hv. unfold ValidateVersion, NewerThanTestedWarning. rewrite Hv.
  assert (is_ok (if less v floor then Err (BelowMinimum version) else Ok tt : result version_error unit) = negb (less v floor)) as Eok
    by (by destruct (less v floor)).
  rewrite Eok. split_and!.
  - rewrite <- less_lex, negb_true_iff. by destruct (less v floor).
  - intros other w Hw Hlt Hok. rewrite Hw. destruct (less w floor) eqn:Ew; [|done].
    apply negb_true_iff in Hok. by rewrite (less_trans v w floor Hlt Ew) in Hok.
  - intros Ht. apply negb_true_iff. destruct (less v floor) eqn:Ev; [|done].
    pose proof (less_trans _ _ _ Ht Ev) as Hc. discriminate Hc.
  - intros E1 E2 E3. unfold less. rewrite E1, E2, E3, !Z.eqb_refl. cbn. by destruct (prerelease v).
Qed.

Lemma version_gate_witness : is_ok (ValidateVersion "v1.12.0-rc.1") = negb true.
Proof.
  refine (proj2 (proj2 (proj2 (version_gate "v1.12.0-rc.1" (mkVersion 1 12 0 true) _))) _ _ _); reflexivity.
Defined.
