(* ===== verification/UpDown.v ===== *)
(** * tbx up and tbx down ([internal/daemon]: reconcile.go, updown.go)

    [up] compares the clusters of talosbox.yaml with the stored ones, validates every
    declarative rule first, persists the intents that change, and only then creates or
    starts clusters one by one.  The store is a map from names to clusters whose writes
    can fail; creating, starting and stopping a cluster, which drive the hypervisor, are
    parameters that act on the world behind the store. *)

From stdpp Require Import base list gmap strings.
From Stdlib Require Import ZArith Lia.
From S2P Require Import Prelude GoStrings Cluster Config TalosVersion.

Local Open Scope Z_scope.

Definition OriginManaged : string := "managed".

#[global] Instance ProvisioningIntent_eq_dec : EqDecision ProvisioningIntent.
Proof. solve_decision. Defined.

(** ** Plans ([reconcile.go]) *)

Record ClusterState := mkState { Exists : bool; Running : bool; Ready : bool }.

Inductive ActionKind := ActionCreate | ActionStart | ActionReconcile | ActionStop | ActionNone | ActionMissing.

#[global] Instance ActionKind_eq_dec : EqDecision ActionKind.
Proof. solve_decision. Defined.

Record Action := mkAction { a_Cluster : string; a_Kind : ActionKind; a_Warning : string; a_Warnings : list string }.

(** [existing[spec.Name]], the zero state for a name that is not there *)
Definition state_of (existing : gmap string ClusterState) (name : string) : ClusterState :=
  default (mkState false false false) (existing !! name).

Definition plan_up_one (existing : gmap string ClusterState) (spec : ClusterSpec) : Action :=
  let state := state_of existing (sp_Name spec) in
  mkAction (sp_Name spec)
    (if negb (Exists state) then ActionCreate else if negb (Ready state) then ActionStart else ActionNone) "" [].

Definition PlanUp (desired : list ClusterSpec) (existing : gmap string ClusterState) : list Action :=
  plan_up_one existing <$> desired.

Definition plan_down_one (existing : gmap string ClusterState) (spec : ClusterSpec) : Action :=
  let state := state_of existing (sp_Name spec) in
  mkAction (sp_Name spec)
    (if negb (Exists state) then ActionMissing else if Running state then ActionStop else ActionNone) "" [].

Definition PlanDown (desired : list ClusterSpec) (existing : gmap string ClusterState) : list Action :=
  plan_down_one existing <$> desired.

(** [warningList]: drop the empty and the repeated *)
Fixpoint warning_list (seen : list string) (warnings : list string) : list string :=
  match warnings with
  | [] => []
  | w :: ws => if String.eqb w "" || bool_decide (w ∈ seen) then warning_list seen ws else w :: warning_list (w :: seen) ws
  end.
Definition warningList : list string -> list string := warning_list [].

Definition addWarnings (a : Action) (warnings : list string) : Action :=
  let existing := match a_Warnings a with
                  | [] => if String.eqb (a_Warning a) "" then [] else [a_Warning a]
                  | l => l
                  end in
  let all := warningList (existing ++ warnings) in
  mkAction (a_Cluster a) (a_Kind a) (join "; " all) all.

Definition actionAfterProvision (action : ActionKind) (fullPass : bool) : ActionKind :=
  if bool_decide (action = ActionNone) && fullPass then ActionReconcile else action.

(** ** Rules for an existing cluster ([updown.go]) *)

Inductive up_error :=
| DecodeFailed
| ListFailed
| VersionRejected (cluster : string) (err : version_error)
| LoadFailed (cluster : string)
| HypervisorImmutable (cluster stored wanted : string)
| DomainImmutable (cluster stored wanted : string)
| CNINotMaintenance (cluster : string)
| CNIImmutable (cluster stored wanted : string)
| LBImmutable (cluster : string)
| CSIUnverified (cluster : string)
| CSIVolumes (cluster : string) (csi : string) (volumes : list string)
| StorageChanged (cluster : string)
| PersistFailed (cluster : string)
| CreateFailed (cluster : string)
| StartFailed (cluster : string)
| StopFailed (cluster : string).

Definition with_CSI (csi : string) (i : ProvisioningIntent) : ProvisioningIntent :=
  mkIntent (CNI i) csi (LB i) (BGP i) (Hubble i) (DisableKubeletMemoryProtection i).

Definition reconcileProvisioningIntentWithVolumes (item : Cluster) (spec : ClusterSpec) (allMaintenance : bool)
    (volumes : option (list string)) : result up_error (ProvisioningIntent * bool) :=
  let current := c_Intent item in
  let desired := sp_Intent spec in
  if String.eqb (CNI current) "" then
    if String.eqb (CNI desired) "" then Ok (current, false)
    else if negb allMaintenance then Err (CNINotMaintenance (c_Name item))
    else Ok (desired, true)
  else if negb (String.eqb (CNI desired) (CNI current)) then Err (CNIImmutable (c_Name item) (CNI current) (CNI desired))
  else if LB current && negb (LB desired) then Err (LBImmutable (c_Name item))
  else
    let lb := if negb (LB current) && LB desired then true else LB current in
    let next := mkIntent (CNI current) (CSI current) lb (BGP current) (Hubble current) (DisableKubeletMemoryProtection current) in
    let checked :=
      if negb (String.eqb (CSI desired) (CSI current)) then
        if negb (String.eqb (CSI current) "") then
          match volumes with
          | None => Err (CSIUnverified (c_Name item))
          | Some [] => Ok (with_CSI (CSI desired) next)
          | Some vs => Err (CSIVolumes (c_Name item) (CSI (c_Intent item)) vs)
          end
        else Ok (with_CSI (CSI desired) next)
      else Ok next in
    match checked with
    | Err e => Err e
    | Ok next =>
        let cilium := String.eqb (CNI current) CNICilium in
        let next := mkIntent (CNI next) (CSI next) (LB next) (if cilium then BGP desired else BGP next)
                      (if cilium then Hubble desired else Hubble next) (DisableKubeletMemoryProtection desired) in
        Ok (next, bool_decide (next <> current))
    end.

Definition storageVolumeListCap : nat := 5.

Definition storageVolumeList (volumes : list string) : string :=
  if (length volumes <=? storageVolumeListCap)%nat then join ", " volumes
  else (join ", " (take storageVolumeListCap volumes) +:+ ", and " +:+
        itoa (Z.of_nat (length volumes - storageVolumeListCap)) +:+ " more")%string.

(** Observations taken before the operation lock, and whether they still hold. *)
Record storageObservation := mkStorageObs { so_engine : string; so_volumes : list string; so_running : gmap string bool }.

Definition matches (o : storageObservation) (item : Cluster) (nodeRunning : string -> bool) : bool :=
  if negb (String.eqb (so_engine o) (CSI (c_Intent item))) || negb (size (so_running o) =? length (c_Nodes item))%nat then false
  else forallb (fun n => bool_decide (so_running o !! n_Name n = Some (nodeRunning (n_Name n)))) (c_Nodes item).

Inductive provision_phase := PUnknown | PMaintenance | PConfigured.
#[global] Instance provision_phase_eq_dec : EqDecision provision_phase.
Proof. solve_decision. Defined.

Record maintenanceObservation := mkMaintenanceObs { mo_running : gmap string bool; mo_phases : gmap string provision_phase }.

Definition sameSnapshot (o other : maintenanceObservation) : bool :=
  if negb (size (mo_running o) =? size (mo_running other))%nat || negb (size (mo_phases o) =? size (mo_phases other))%nat then false
  else forallb (fun kv => bool_decide (mo_running other !! kv.1 = Some kv.2)) (map_to_list (mo_running o)) &&
       forallb (fun kv => bool_decide (mo_phases other !! kv.1 = Some kv.2)) (map_to_list (mo_phases o)).

Definition allNodesMaintenance (o : maintenanceObservation) (item : Cluster) (nodeRunning : string -> bool) : bool :=
  if bool_decide (c_Nodes item = []) || negb (size (mo_running o) =? length (c_Nodes item))%nat ||
     negb (size (mo_phases o) =? length (c_Nodes item))%nat then false
  else forallb (fun n => bool_decide (mo_running o !! n_Name n = Some (nodeRunning (n_Name n))) &&
                         bool_decide (mo_phases o !! n_Name n = Some PMaintenance)) (c_Nodes item).

Definition specEffectiveDomain (spec : ClusterSpec) : string :=
  if negb (String.eqb (sp_Domain spec) "") then sp_Domain spec else (sp_Name spec +:+ ".k8s.test")%string.

Definition checkDomainUnchanged (item : Cluster) (spec : ClusterSpec) : result up_error unit :=
  if negb (String.eqb (specEffectiveDomain spec) (EffectiveDomain item))
  then Err (DomainImmutable (sp_Name spec) (EffectiveDomain item) (specEffectiveDomain spec)) else Ok tt.

Definition resolveSpecTalos (spec : ClusterSpec) (fileTalos : TalosSpec) : TalosSpec :=
  if TalosSpec_IsZero (sp_Talos spec) then fileTalos else sp_Talos spec.

Fixpoint validateSpecVersions (fileTalos : TalosSpec) (specs : list ClusterSpec) (actions : list Action) : result up_error unit :=
  match specs, actions with
  | spec :: specs, action :: actions =>
      let version := t_Version (resolveSpecTalos spec fileTalos) in
      if bool_decide (a_Kind action = ActionCreate) && negb (String.eqb version "") then
        match ValidateVersion version with
        | Err e => Err (VersionRejected (sp_Name spec) e)
        | Ok _ => validateSpecVersions fileTalos specs actions
        end
      else validateSpecVersions fileTalos specs actions
  | _, _ => Ok tt
  end.

Definition clusterReady (item : Cluster) (nodeActive : string -> bool) : bool :=
  if bool_decide (c_Nodes item = []) then false else forallb (fun n => nodeActive (n_Name n)) (c_Nodes item).

(** ** The world *)

(** The stored clusters; the daemon's machines are whether a node runs. *)
Record World := mkWorld { store : gmap string Cluster; running : gmap (string * string) bool }.

Definition nodeRunning (w : World) (clusterName nodeName : string) : bool := default false (running w !! (clusterName, nodeName)).

(** [clusterRunning]: some machine of the cluster runs. *)
Definition clusterRunning (w : World) (name : string) : bool :=
  existsb (fun kv => bool_decide (kv.1.1 = name) && kv.2) (map_to_list (running w)).

Definition existingStates (w : World) : gmap string ClusterState :=
  map_imap (fun name item => Some (mkState true (clusterRunning w (c_Name item)) (clusterReady item (nodeRunning w (c_Name item)))))
    (store w).

Section Up.
(** The compiled default hypervisor, and the clusters whose write fails. *)
Context (compiledDefault : string) (save_fails : Cluster -> bool).

Definition hypervisorNameForCluster (item : Cluster) : string :=
  if negb (String.eqb (c_Hypervisor item) "") then c_Hypervisor item else compiledDefault.

Definition checkHypervisorUnchanged (item : Cluster) (spec : ClusterSpec) : result up_error unit :=
  if String.eqb (sp_Hypervisor spec) "" then Ok tt
  else if negb (String.eqb (sp_Hypervisor spec) (hypervisorNameForCluster item))
       then Err (HypervisorImmutable (sp_Name spec) (hypervisorNameForCluster item) (sp_Hypervisor spec)) else Ok tt.

Definition with_intent (i : ProvisioningIntent) (origin : string) (c : Cluster) : Cluster :=
  mkCluster (c_Name c) (c_Index c) (c_SubnetIndex c) (c_ControlPlanes c) (c_Workers c) (c_NodeDefaults c)
    (c_ControlPlaneDefaults c) (c_WorkerDefaults c) i (c_Nodes c) (c_Schematic c) (c_TalosVersion c)
    (c_TalosExtensions c) (c_BaseSchematic c) (c_ImageArchitecture c) (c_Hypervisor c) (c_Domain c)
    (c_AllowUnsafeDomain c) origin.

(** One spec of the loop in [preflightUpWithStorage]: the update it contributes. *)
Definition preflight_one (w : World) (existing : gmap string ClusterState) (maintenance : gmap string maintenanceObservation)
    (storage : gmap string storageObservation) (spec : ClusterSpec) : result up_error (option Cluster) :=
  if negb (Exists (state_of existing (sp_Name spec))) then Ok None
  else match store w !! sp_Name spec with
  | None => Err (LoadFailed (sp_Name spec))
  | Some item =>
      _ ← checkHypervisorUnchanged item spec;
      _ ← checkDomainUnchanged item spec;
      let inMaintenance :=
        if String.eqb (CNI (c_Intent item)) "" && negb (String.eqb (CNI (sp_Intent spec)) "") then
          match maintenance !! c_Name item with
          | Some o => allNodesMaintenance o item (nodeRunning w (c_Name item))
          | None => false
          end
        else false in
      volumes ←
        (if negb (String.eqb (CSI (c_Intent item)) "") && negb (String.eqb (CSI (c_Intent item)) (CSI (sp_Intent spec))) then
           match storage !! c_Name item with
           | Some o => if matches o item (nodeRunning w (c_Name item)) then Ok (Some (so_volumes o)) else Err (StorageChanged (c_Name item))
           | None => Err (StorageChanged (c_Name item))
           end
         else Ok None);
      '(intent, changed) ← reconcileProvisioningIntentWithVolumes item spec inMaintenance volumes;
      let claimed := negb (String.eqb (c_ConfigOrigin item) OriginManaged) in
      Ok (if changed || claimed then Some (with_intent intent OriginManaged item) else None)
  end.

Fixpoint preflightUpWithStorage (w : World) (existing : gmap string ClusterState) (maintenance : gmap string maintenanceObservation)
    (storage : gmap string storageObservation) (specs : list ClusterSpec) : result up_error (list Cluster) :=
  match specs with
  | [] => Ok []
  | spec :: specs =>
      u ← preflight_one w existing maintenance storage spec;
      us ← preflightUpWithStorage w existing maintenance storage specs;
      Ok (option_list u ++ us)
  end.

(** Each write replaces the stored cluster of its name; the first failure stops. *)
Fixpoint persistIntentUpdates (updates : list Cluster) (w : World) : World * result up_error unit :=
  match updates with
  | [] => (w, Ok tt)
  | next :: updates =>
      if save_fails next then (w, Err (PersistFailed (c_Name next)))
      else persistIntentUpdates updates (mkWorld (<[c_Name next := next]> (store w)) (running w))
  end.

(** Creating, starting and stopping: the world after, and the warnings or a failure. *)
Context (createFromSpec : ClusterSpec -> bool -> World -> World * option (list string)).
Context (startCluster : string -> bool -> World -> World * option (list string)).
Context (stop : string -> World -> World * bool).

Definition with_talos (t : TalosSpec) (s : ClusterSpec) : ClusterSpec :=
  mkSpec (sp_Name s) (sp_Hypervisor s) (sp_ControlPlanes s) (sp_Workers s) (sp_Intent s) (sp_Domain s)
    (sp_AllowUnsafeDomain s) (sp_Node s) (sp_ControlPlane s) (sp_Worker s) t.

Definition warned (a : Action) (warnings : list string) : Action :=
  mkAction (a_Cluster a) (a_Kind a) (join "; " warnings) warnings.

(** The loop over the actions: those done, and the error that stopped it. *)
Fixpoint run_actions (fileTalos : TalosSpec) (force : bool) (pairs : list (ClusterSpec * Action)) (w : World)
    : World * list Action * option up_error :=
  match pairs with
  | [] => (w, [], None)
  | (spec, action) :: pairs =>
      let '(w, outcome) :=
        match a_Kind action with
        | ActionCreate =>
            let '(w, r) := createFromSpec (with_talos (resolveSpecTalos spec fileTalos) spec) force w in
            (w, match r with Some ws => Ok (warned action ws) | None => Err (CreateFailed (sp_Name spec)) end)
        | ActionStart =>
            let '(w, r) := startCluster (sp_Name spec) force w in
            (w, match r with Some ws => Ok (warned action ws) | None => Err (StartFailed (sp_Name spec)) end)
        | _ => (w, Ok action)
        end in
      match outcome with
      | Err e => (w, [], Some e)
      | Ok action => let '(w, done_, err) := run_actions fileTalos force pairs w in (w, action :: done_, err)
      end
  end.

Definition upWithObservations (fileTalos : TalosSpec) (specs : list ClusterSpec) (force : bool)
    (maintenance : gmap string maintenanceObservation) (storage : gmap string storageObservation) (w : World)
    : World * list Action * option up_error :=
  let existing := existingStates w in
  let actions := PlanUp specs existing in
  match validateSpecVersions fileTalos specs actions with
  | Err e => (w, [], Some e)
  | Ok _ =>
      match preflightUpWithStorage w existing maintenance storage specs with
      | Err e => (w, [], Some e)
      | Ok updates =>
          let '(w, r) := persistIntentUpdates updates w in
          match r with
          | Err e => (w, [], Some e)
          | Ok _ => run_actions fileTalos force (zip specs actions) w
          end
      end
  end.

Fixpoint run_stops (actions : list Action) (w : World) : World * list Action * option up_error :=
  match actions with
  | [] => (w, [], None)
  | action :: actions =>
      if bool_decide (a_Kind action = ActionStop) then
        let '(w, ok) := stop (a_Cluster action) w in
        if ok then let '(w, done_, err) := run_stops actions w in (w, action :: done_, err)
        else (w, [], Some (StopFailed (a_Cluster action)))
      else let '(w, done_, err) := run_stops actions w in (w, action :: done_, err)
  end.

Definition down (specs : list ClusterSpec) (w : World) : World * list Action * option up_error :=
  run_stops (PlanDown specs (existingStates w)) w.
End Up.

(** ** Theorems *)

Lemma intent_eta i : mkIntent (CNI i) (CSI i) (LB i) (BGP i) (Hubble i) (DisableKubeletMemoryProtection i) = i.
Proof. by destruct i. Qed.

Ltac string_cases :=
  repeat match goal with
    | H : String.eqb _ _ = true |- _ => apply String.eqb_eq in H
    | H : String.eqb _ _ = false |- _ => apply String.eqb_neq in H
    end.

(** The three ways a reconciliation of an intent succeeds. *)
Lemma reconcile_cases item spec m vols next changed :
  reconcileProvisioningIntentWithVolumes item spec m vols = Ok (next, changed) ->
  let current := c_Intent item in let desired := sp_Intent spec in
  (CNI current = "" /\ CNI desired = "" /\ next = current /\ changed = false) \/
  (CNI current = "" /\ CNI desired <> "" /\ m = true /\ next = desired /\ changed = true) \/
  (CNI current <> "" /\ CNI desired = CNI current /\ (LB current = true -> LB desired = true) /\
   (CSI desired = CSI current \/ CSI current = "" \/ vols = Some []) /\
   (next = if String.eqb (CNI current) CNICilium then desired
           else mkIntent (CNI desired) (CSI desired) (LB desired) (BGP current) (Hubble current) (DisableKubeletMemoryProtection desired)) /\
   changed = bool_decide (next <> current)).
Proof.
  cbv zeta. unfold reconcileProvisioningIntentWithVolumes. cbv zeta. set (c := c_Intent item). set (d := sp_Intent spec).
  destruct (String.eqb (CNI c) "") eqn:E1.
  { destruct (String.eqb (CNI d) "") eqn:E2; [|destruct m; [|done]]; intros [= <- <-]; string_cases; [by left|].
    right; left. by split_and!. }
  destruct (String.eqb (CNI d) (CNI c)) eqn:E2; [|done]. cbn [negb].
  destruct (LB c && negb (LB d)) eqn:E3; [done|].
  assert ((if negb (LB c) && LB d then true else LB c) = LB d) as -> by (by destruct (LB c), (LB d)).
  intros Hr. right; right. string_cases.
  assert (LB c = true -> LB d = true) as Hlb by (by destruct (LB c), (LB d)).
  assert ((CSI d = CSI c \/ CSI c = "" \/ vols = Some []) /\
    exists cs, cs = CSI d /\
      Ok (next, changed) = (let cilium := String.eqb (CNI c) CNICilium in
        let next := mkIntent (CNI c) cs (LB d) (if cilium then BGP d else BGP c) (if cilium then Hubble d else Hubble c)
                      (DisableKubeletMemoryProtection d) in
        Ok (E := up_error) (next, bool_decide (next <> c)))) as [Hc (cs & -> & Hn)].
  { destruct (String.eqb (CSI d) (CSI c)) eqn:E4; cbn [negb] in Hr; string_cases.
    { split; [by left|]. exists (CSI c). split; [done|]. by rewrite <- Hr. }
    destruct (String.eqb (CSI c) "") eqn:E5; cbn [negb] in Hr; string_cases.
    { split; [by right; left|]. exists (CSI d). split; [done|]. by rewrite <- Hr. }
    destruct vols as [[|v vs]|]; try done. split; [by right; right|]. exists (CSI d). split; [done|]. by rewrite <- Hr. }
  injection Hn as -> ->. split_and!; try done.
  destruct (String.eqb (CNI c) CNICilium); rewrite <- E2; [apply intent_eta|done].
Qed.

Lemma bool_decide_neq_same {A} `{EqDecision A} (x : A) : bool_decide (x <> x) = false.
Proof. apply bool_decide_eq_false_2. by intros []. Qed.

(** Reconciling again, against the intent that was reached, changes nothing. *)
Lemma reconcile_again item item' spec m vols next changed m' vols' :
  reconcileProvisioningIntentWithVolumes item spec m vols = Ok (next, changed) ->
  c_Intent item' = next -> reconcileProvisioningIntentWithVolumes item' spec m' vols' = Ok (next, false).
Proof.
  intros Hr%reconcile_cases E'. cbv zeta in Hr. unfold reconcileProvisioningIntentWithVolumes. rewrite E'. cbv zeta.
  destruct Hr as [(E1 & E2 & -> & _)|[(E1 & E2 & _ & -> & _)|(E1 & E2 & Hlb & _ & -> & _)]].
  - rewrite E1, E2. done.
  - rewrite (proj2 (String.eqb_neq _ _) E2), !String.eqb_refl. cbn [negb].
    rewrite andb_negb_r. cbn. replace (if negb (LB (sp_Intent spec)) && LB (sp_Intent spec) then true else LB (sp_Intent spec)) with (LB (sp_Intent spec)) by (by destruct (LB _)).
    destruct (String.eqb (CNI (sp_Intent spec)) CNICilium); rewrite intent_eta, bool_decide_neq_same; done.
  - set (d := sp_Intent spec) in *. rewrite <- E2 in *.
    assert (CNI (if String.eqb (CNI d) CNICilium then d else mkIntent (CNI d) (CSI d) (LB d) (BGP (c_Intent item)) (Hubble (c_Intent item))
      (DisableKubeletMemoryProtection d)) = CNI d /\
      CSI (if String.eqb (CNI d) CNICilium then d else mkIntent (CNI d) (CSI d) (LB d) (BGP (c_Intent item)) (Hubble (c_Intent item))
      (DisableKubeletMemoryProtection d)) = CSI d /\
      LB (if String.eqb (CNI d) CNICilium then d else mkIntent (CNI d) (CSI d) (LB d) (BGP (c_Intent item)) (Hubble (c_Intent item))
      (DisableKubeletMemoryProtection d)) = LB d) as (F1 & F2 & F3) by (by case_match).
    rewrite F1, F2, F3, (proj2 (String.eqb_neq _ _) E1), !String.eqb_refl. cbn [negb]. rewrite andb_negb_r. cbn.
    replace (if negb (LB d) && LB d then true else LB d) with (LB d) by (by destruct (LB d)).
    destruct (String.eqb (CNI d) CNICilium); cbn; rewrite ?intent_eta, bool_decide_neq_same; done.
Qed.

(** What tbx up may change of an existing cluster.  A reconciliation that succeeds
    reports a change exactly when the intent changes; it never replaces a CNI or turns
    off load balancing once provisioning began, gives a bare cluster a CNI only while
    all its nodes are in maintenance, and changes the storage engine only when the
    engine in use was verified to hold no volumes; the result is the desired intent,
    except that BGP and Hubble stay as they are without Cilium; and a second
    reconciliation changes nothing. *)
Theorem intent_reconciliation item spec m vols next changed :
  reconcileProvisioningIntentWithVolumes item spec m vols = Ok (next, changed) ->
  let current := c_Intent item in let desired := sp_Intent spec in
  (changed = true <-> next <> current) /\
  CNI next = CNI desired /\
  (CNI current <> "" -> CNI next = CNI current /\ (LB current = true -> LB next = true)) /\
  (CNI current = "" -> next <> current -> m = true) /\
  (CNI current <> "" -> CSI current <> "" -> CSI next <> CSI current -> vols = Some []) /\
  (CNI desired <> "" -> CSI next = CSI desired /\ LB next = LB desired /\
     DisableKubeletMemoryProtection next = DisableKubeletMemoryProtection desired /\
     (CNI desired = CNICilium \/ CNI current = "" -> next = desired)) /\
  forall item' m' vols', c_Intent item' = next -> reconcileProvisioningIntentWithVolumes item' spec m' vols' = Ok (next, false).
Proof.
  intros Hr. pose proof (reconcile_cases _ _ _ _ _ _ Hr) as Hc. cbv zeta in *.
  split_and!; [..|intros; by eapply reconcile_again]; clear Hr.
  all: destruct Hc as [(E1 & E2 & -> & ->)|[(E1 & E2 & -> & -> & ->)|(E1 & E2 & Hlb & Hcsi & -> & ->)]].
  all: rewrite ?bool_decide_eq_true; try (by intuition (auto; congruence)).
  - case_match; [done|]. done.
  - intros _. case_match; cbn; [split; [done|by auto]|split; [done|by auto]].
  - intros _ Hn Hch. destruct Hcsi as [Hs|[Hs|Hs]]; [|done|done]. exfalso. apply Hch. case_match; cbn; done.
  - intros Hd. destruct (String.eqb (CNI (c_Intent item)) CNICilium) eqn:Ec; [done|]. cbn. split_and!; try done.
    apply String.eqb_neq in Ec. intros [Hx|Hx]; congruence.
Qed.

Lemma intent_reconciliation_witness : CSI (mkIntent CNICilium CSILonghorn true false false false) = CSILonghorn.
Proof.
  refine (proj1 (proj1 (proj2 (proj2 (proj2 (proj2 (proj2 (intent_reconciliation
    (with_intent (mkIntent CNICilium "" true false false false) OriginManaged demo_cluster)
    (mkSpec "alpha" "" 1 1 (mkIntent CNICilium CSILonghorn true false false false) "" false (mkDefaults 0 0 0) None None (mkTalos "" "" None))
    false None (mkIntent CNICilium CSILonghorn true false false false) true _)))))) _)).
  - reflexivity.
  - discriminate.
Defined.

(** *** The whole preflight *)

(** Stored clusters are under their own names, and storage needs a CNI. *)
Definition store_ok (w : World) : Prop :=
  map_Forall (fun k c => c_Name c = k /\ (CNI (c_Intent c) = "" -> CSI (c_Intent c) = "")) (store w).

Lemma existing_exists w name : Exists (state_of (existingStates w) name) = bool_decide (is_Some (store w !! name)).
Proof.
  unfold state_of, existingStates. rewrite map_lookup_imap. by destruct (store w !! name) as [item|].
Qed.

Section Preflight.
Context (compiledDefault : string).

(** What one spec contributes: nothing when its cluster does not exist, otherwise the
    update unless the cluster is already as described. *)
Lemma preflight_one_cases w m st spec u :
  preflight_one compiledDefault w (existingStates w) m st spec = Ok u ->
  match store w !! sp_Name spec with
  | None => u = None
  | Some item =>
      checkHypervisorUnchanged compiledDefault item spec = Ok tt /\ checkDomainUnchanged item spec = Ok tt /\
      exists inMaintenance volumes intent changed,
        reconcileProvisioningIntentWithVolumes item spec inMaintenance volumes = Ok (intent, changed) /\
        match u with
        | Some next => next = with_intent intent OriginManaged item
        | None => changed = false /\ c_ConfigOrigin item = OriginManaged
        end
  end.
Proof.
  unfold preflight_one. rewrite existing_exists. destruct (store w !! sp_Name spec) as [item|]; cbn; [|by intros [= <-]].
  destruct (checkHypervisorUnchanged compiledDefault item spec) as [[]|]; [|done]. cbn.
  destruct (checkDomainUnchanged item spec) as [[]|]; [|done]. cbn. cbv zeta.
  match goal with |- mbind ?k ?v = _ -> _ => destruct v as [volumes|] eqn:Ev; [|done] end. cbn.
  match goal with |- context [reconcileProvisioningIntentWithVolumes item spec ?b volumes] => set (inm := b) end.
  destruct (reconcileProvisioningIntentWithVolumes item spec inm volumes) as [[intent changed]|] eqn:Er; [|done]. cbn.
  intros [= <-]. split_and!; [done|done|]. exists inm, volumes, intent, changed. split; [done|].
  destruct changed; cbn; [done|]. destruct (String.eqb (c_ConfigOrigin item) OriginManaged) eqn:Eo; cbn; [|done].
  apply String.eqb_eq in Eo. done.
Qed.

(** A spec whose cluster was brought up to date contributes nothing, whatever is
    observed then. *)
Lemma preflight_one_settled w w' m st m' st' spec u :
  store_ok w -> preflight_one compiledDefault w (existingStates w) m st spec = Ok u ->
  store w' !! sp_Name spec = (match u with Some next => Some next | None => store w !! sp_Name spec end) ->
  preflight_one compiledDefault w' (existingStates w') m' st' spec = Ok None.
Proof.
  intros Hok Hp E'. apply preflight_one_cases in Hp. unfold preflight_one. rewrite existing_exists, E'.
  destruct (store w !! sp_Name spec) as [item|] eqn:El; [|by subst u].
  destruct Hp as (Hh & Hd & inm & vols & intent & changed & Hr & Hu).
  assert (exists item', (match u with Some next => Some next | None => Some item end) = Some item' /\
    c_Name item' = c_Name item /\ c_Intent item' = intent /\ c_ConfigOrigin item' = OriginManaged /\
    checkHypervisorUnchanged compiledDefault item' spec = Ok tt /\ checkDomainUnchanged item' spec = Ok tt) as (item' & -> & En & Ei & Eo & Hh' & Hd').
  { destruct u as [next|].
    - exists next. subst next. by split_and!.
    - exists item. destruct Hu as [-> Ho]. split_and!; try done.
      pose proof (reconcile_cases _ _ _ _ _ _ Hr) as Hc. cbv zeta in Hc.
      destruct Hc as [(_ & _ & -> & _)|[(_ & _ & _ & _ & ?)|(_ & _ & _ & _ & _ & Hc)]]; [done|done|].
      symmetry in Hc. apply bool_decide_eq_false in Hc. destruct (decide (intent = c_Intent item)); [done|]. by destruct Hc. }
  cbn [negb]. rewrite bool_decide_eq_true_2 by (by eexists). cbn [negb]. rewrite Hh', Hd'. cbn. cbv zeta.
  assert (negb (String.eqb (CSI (c_Intent item')) "") && negb (String.eqb (CSI (c_Intent item')) (CSI (sp_Intent spec))) = false) as ->.
  { rewrite Ei. pose proof (reconcile_cases _ _ _ _ _ _ Hr) as Hc. cbv zeta in Hc. destruct (Hok _ _ El) as [_ Hcsi].
    destruct Hc as [(E1 & _ & -> & _)|[(_ & _ & _ & -> & _)|(_ & _ & _ & _ & -> & _)]].
    - by rewrite (Hcsi E1).
    - rewrite String.eqb_refl. by rewrite andb_false_r.
    - apply andb_false_iff. right. apply negb_false_iff, String.eqb_eq. by case_match. }
  cbn. rewrite (reconcile_again item item' spec inm vols intent changed _ _ Hr Ei). cbn. by rewrite Eo.
Qed.

(** The updates of a preflight, spec by spec. *)
Lemma preflight_updates w m st specs updates :
  preflightUpWithStorage compiledDefault w (existingStates w) m st specs = Ok updates ->
  exists us, Forall2 (fun spec u => preflight_one compiledDefault w (existingStates w) m st spec = Ok u) specs us /\
             updates = us ≫= option_list.
Proof.
  revert updates. induction specs as [|spec specs IH]; intros updates Hp; cbn in Hp.
  { injection Hp as <-. by exists []. }
  destruct (preflight_one _ _ _ _ _ spec) as [u|] eqn:E1; [|done]. cbn in Hp.
  destruct (preflightUpWithStorage _ _ _ _ _ specs) as [us'|]; [|done]. cbn in Hp. injection Hp as <-.
  destruct (IH us' eq_refl) as (us & Hf & ->). exists (u :: us). split; [by constructor|done].
Qed.

Lemma preflight_all w m st specs :
  Forall (fun spec => preflight_one compiledDefault w (existingStates w) m st spec = Ok None) specs ->
  preflightUpWithStorage compiledDefault w (existingStates w) m st specs = Ok [].
Proof. induction 1 as [|spec specs Hs _ IH]; [done|]. cbn. rewrite Hs. cbn. by rewrite IH. Qed.

(** A spec with an update has a stored cluster of its name, and keeps it. *)
Lemma preflight_one_name w m st spec next :
  store_ok w -> preflight_one compiledDefault w (existingStates w) m st spec = Ok (Some next) ->
  exists item intent, store w !! sp_Name spec = Some item /\ c_Name next = sp_Name spec /\ next = with_intent intent OriginManaged item.
Proof.
  intros Hok Hp. apply preflight_one_cases in Hp. destruct (store w !! sp_Name spec) as [item|] eqn:El; [|done].
  destruct Hp as (_ & _ & _ & _ & intent & _ & _ & ->). exists item, intent. split_and!; [done|by apply (Hok _ _ El)|done].
Qed.

Lemma preflight_update_names w m st specs us :
  store_ok w -> Forall2 (fun spec u => preflight_one compiledDefault w (existingStates w) m st spec = Ok u) specs us ->
  c_Name <$> (us ≫= option_list) `sublist_of` sp_Name <$> specs.
Proof.
  intros Hok. induction 1 as [|spec u specs us Hu _ IH]; [done|]. cbn. destruct u as [next|]; cbn.
  - destruct (preflight_one_name _ _ _ _ _ Hok Hu) as (_ & _ & _ & -> & _). by apply sublist_skip.
  - by apply sublist_cons.
Qed.

(** What persisting writes: each update under its name, nothing else. *)
Lemma persist_writes save_fails updates w w' :
  persistIntentUpdates save_fails updates w = (w', Ok tt) -> NoDup (c_Name <$> updates) ->
  running w' = running w /\
  (forall next, next ∈ updates -> store w' !! c_Name next = Some next) /\
  (forall k, k ∉ c_Name <$> updates -> store w' !! k = store w !! k).
Proof.
  revert w. induction updates as [|u updates IH]; intros w Hp Hnd; cbn in Hp.
  { injection Hp as <-. split_and!; [done| |done]. by intros next ?%not_elem_of_nil. }
  destruct (save_fails u); [done|]. apply NoDup_cons in Hnd as [Hnotin Hnd].
  destruct (IH _ Hp Hnd) as (Er & Hin & Hout). cbn in *. split_and!; [done| |].
  - intros next [->|Hn]%elem_of_cons; [|by apply Hin]. rewrite (Hout _ Hnotin). apply lookup_insert_eq.
  - intros k [Hk1 Hk2]%not_elem_of_cons. rewrite (Hout _ Hk2). by apply lookup_insert_ne.
Qed.

(** The specs and the updates of a preflight, in both directions. *)
Lemma preflight_sound w m st specs updates :
  store_ok w -> preflightUpWithStorage compiledDefault w (existingStates w) m st specs = Ok updates ->
  c_Name <$> updates `sublist_of` sp_Name <$> specs /\
  (forall spec, spec ∈ specs -> exists u, preflight_one compiledDefault w (existingStates w) m st spec = Ok u /\
     forall next, u = Some next -> next ∈ updates) /\
  (forall next, next ∈ updates -> exists spec, spec ∈ specs /\
     preflight_one compiledDefault w (existingStates w) m st spec = Ok (Some next)).
Proof.
  intros Hok (us & Hf & ->)%preflight_updates. split_and!.
  - by eapply preflight_update_names.
  - intros spec (i & Hi)%list_elem_of_lookup. destruct (Forall2_lookup_l _ _ _ _ _ Hf Hi) as (u & Hu & Hone).
    exists u. split; [done|]. intros next ->. apply list_elem_of_bind. exists (Some next). cbn.
    split; [by apply list_elem_of_singleton|by eapply list_elem_of_lookup_2].
  - intros next (u & Hn & (i & Hi)%list_elem_of_lookup)%list_elem_of_bind.
    destruct (Forall2_lookup_r _ _ _ _ _ Hf Hi) as (spec & Hs & Hone). exists spec. split; [by eapply list_elem_of_lookup_2|].
    destruct u as [n|]; cbn in Hn; [|by apply not_elem_of_nil in Hn]. by apply list_elem_of_singleton in Hn as ->.
Qed.

Lemma same_name_same_spec specs spec spec' :
  NoDup (sp_Name <$> specs) -> spec ∈ specs -> spec' ∈ specs -> sp_Name spec = sp_Name spec' -> spec = spec'.
Proof.
  intros Hnd (i & Hi)%list_elem_of_lookup (j & Hj)%list_elem_of_lookup E.
  assert (i = j) as <-.
  { eapply (NoDup_lookup _ i j (sp_Name spec) Hnd); rewrite list_lookup_fmap; [by rewrite Hi|rewrite Hj; cbn; by rewrite E]. }
  congruence.
Qed.

(** What persisting leaves of every stored cluster: all but its intent and origin. *)
Lemma persist_keeps save_fails w w' m st specs updates :
  store_ok w -> NoDup (sp_Name <$> specs) ->
  preflightUpWithStorage compiledDefault w (existingStates w) m st specs = Ok updates ->
  persistIntentUpdates save_fails updates w = (w', Ok tt) ->
  running w' = running w /\
  (forall spec, spec ∈ specs -> exists u, preflight_one compiledDefault w (existingStates w) m st spec = Ok u /\
     store w' !! sp_Name spec = match u with Some next => Some next | None => store w !! sp_Name spec end) /\
  forall k, store w' !! k = store w !! k \/
    exists item intent, store w !! k = Some item /\ store w' !! k = Some (with_intent intent OriginManaged item).
Proof.
  intros Hok Hnd Hpre Hp. destruct (preflight_sound _ _ _ _ _ Hok Hpre) as (Hsub & Hspec & Hupd).
  destruct (persist_writes _ _ _ _ Hp (sublist_NoDup _ _ Hnd Hsub)) as (Er & Hin & Hout). split_and!; [done| |].
  - intros spec Hs. destruct (Hspec _ Hs) as (u & Hone & Hu). exists u. split; [done|]. destruct u as [next|].
    + destruct (preflight_one_name _ _ _ _ _ Hok Hone) as (_ & _ & _ & <- & _). by apply Hin, Hu.
    + apply Hout. intros (next & E & (spec' & Hs' & Hone')%Hupd)%list_elem_of_fmap.
      destruct (preflight_one_name _ _ _ _ _ Hok Hone') as (_ & _ & _ & En & _).
      rewrite (same_name_same_spec specs spec spec') in Hone by congruence. congruence.
  - intros k. destruct (decide (k ∈ c_Name <$> updates)) as [(next & -> & Hn)%list_elem_of_fmap|Hk]; [right|left; by apply Hout].
    destruct (Hupd _ Hn) as (spec & _ & Hone). destruct (preflight_one_name _ _ _ _ _ Hok Hone) as (item & intent & Es & En & Enx).
    exists item, intent. rewrite En at 1. split; [done|]. rewrite (Hin _ Hn). by rewrite Enx at 1.
Qed.

Lemma existing_kept w w' :
  running w' = running w ->
  (forall k, store w' !! k = store w !! k \/
    exists item intent, store w !! k = Some item /\ store w' !! k = Some (with_intent intent OriginManaged item)) ->
  existingStates w' = existingStates w.
Proof.
  intros Er Hk. apply map_eq. intros k. unfold existingStates. rewrite !map_lookup_imap.
  unfold clusterRunning, nodeRunning. rewrite Er. destruct (Hk k) as [->|(item & intent & -> & ->)]; done.
Qed.

(** Tbx up is idempotent in what it stores.  After a preflight whose updates were all
    written, a preflight of the same description succeeds with nothing to write, whatever
    is observed by then; the updates left every stored cluster as it was but for its
    intent and its origin, and the plan of actions is the one made before. *)
Theorem preflight_idempotent save_fails w w' maintenance storage maintenance' storage' specs updates :
  store_ok w -> NoDup (sp_Name <$> specs) ->
  preflightUpWithStorage compiledDefault w (existingStates w) maintenance storage specs = Ok updates ->
  persistIntentUpdates save_fails updates w = (w', Ok tt) ->
  preflightUpWithStorage compiledDefault w' (existingStates w') maintenance' storage' specs = Ok [] /\
  PlanUp specs (existingStates w') = PlanUp specs (existingStates w) /\
  forall k, store w' !! k = store w !! k \/
    exists item intent, store w !! k = Some item /\ store w' !! k = Some (with_intent intent OriginManaged item).
Proof.
  intros Hok Hnd Hpre Hp. destruct (persist_keeps _ _ _ _ _ _ _ Hok Hnd Hpre Hp) as (Er & Hone & Hk). split_and!; [| |done].
  - apply preflight_all, Forall_forall. intros spec Hs. destruct (Hone _ Hs) as (u & Hu & E).
    by eapply preflight_one_settled.
  - by rewrite (existing_kept w w').
Qed.
End Preflight.

Definition up_spec : ClusterSpec :=
  mkSpec "dev" "" 1 1 (mkIntent CNICilium CSILonghorn true false false false) "" false (mkDefaults 0 0 0) None None (mkTalos "" "" None).

Definition up_world : World :=
  mkWorld {["dev" := with_intent (mkIntent CNICilium "" true false false false) "" demo_cluster]} ∅.

Lemma preflight_idempotent_witness :
  preflightUpWithStorage "vz" (mkWorld {["dev" := with_intent (sp_Intent up_spec) OriginManaged demo_cluster]} ∅)
    (existingStates (mkWorld {["dev" := with_intent (sp_Intent up_spec) OriginManaged demo_cluster]} ∅)) ∅ ∅ [up_spec] = Ok [].
Proof.
  refine (proj1 (preflight_idempotent "vz" (fun _ => false) up_world _ ∅ ∅ ∅ ∅ [up_spec]
    [with_intent (sp_Intent up_spec) OriginManaged demo_cluster] _ _ _ _)).
  - apply map_Forall_singleton. split; [reflexivity|discriminate].
  - apply NoDup_singleton.
  - reflexivity.
  - reflexivity.
Defined.
