(* ===== verification/Snapshot.v ===== *)
(** * Snapshots and disks ([internal/cluster]: snapshot.go, disk.go, clonefile_*.go;
    [internal/daemon]: snapshot.go, snapshot_restore_gate.go)

    The files of one cluster: its live directory and its snapshots.  Every call that
    touches the disk can fail, and a copy that fails can leave part of the file behind:
    the operations run in a monad that counts those calls, and a schedule of faults, a
    parameter, says which of them fail and how much a failing copy wrote.  Files are
    regular files, kept sparse as the code creates them: bytes, then zeros. *)

From stdpp Require Import base list gmap sorting strings.
From Stdlib Require Import Ascii ZArith Lia.
From S2P Require Import Prelude GoStrings Cluster.

Local Open Scope Z_scope.

(** ** Files *)

Record sparse := mkSparse { bytes : string; zeros : Z }.

#[global] Instance sparse_eq_dec : EqDecision sparse.
Proof. solve_decision. Defined.

Definition file_size (f : sparse) : Z := Z.of_nat (String.length (bytes f)) + zeros f.

(** [os.Truncate]: cut, or extend with zeros. *)
Definition truncate (size : Z) (f : sparse) : sparse :=
  let n := Z.of_nat (String.length (bytes f)) in
  if size <=? n then mkSparse (take_string (Z.to_nat size) (bytes f)) 0 else mkSparse (bytes f) (size - n).

(** What a name under snapshots/ is. *)
Inductive SnapEntry :=
| SnapDir (files : gmap string sparse) (modTime : Z)
| SnapOther.

(** The live directory, the snapshots, the files elsewhere that disks are made from,
    and the number of fallible calls so far. *)
Record St := mkSt { live : gmap string sparse; snaps : gmap string SnapEntry; cache : gmap string sparse; tick : nat }.

Inductive path := LiveFile (f : string) | SnapFile (dir f : string) | CacheFile (f : string).

Definition file_at (s : St) (p : path) : option sparse :=
  match p with
  | LiveFile f => live s !! f
  | SnapFile d f => match snaps s !! d with Some (SnapDir files _) => files !! f | _ => None end
  | CacheFile f => cache s !! f
  end.

(** Whether the directory of a path is there. *)
Definition parent_exists (s : St) (p : path) : bool :=
  match p with
  | LiveFile _ | CacheFile _ => true
  | SnapFile d _ => match snaps s !! d with Some (SnapDir _ _) => true | _ => false end
  end.

Definition with_live (l : gmap string sparse) (s : St) : St := mkSt l (snaps s) (cache s) (tick s).
Definition with_snaps (m : gmap string SnapEntry) (s : St) : St := mkSt (live s) m (cache s) (tick s).

Definition put_file (p : path) (c : sparse) (s : St) : St :=
  match p with
  | LiveFile f => with_live (<[f := c]> (live s)) s
  | SnapFile d f =>
      match snaps s !! d with
      | Some (SnapDir files t) => with_snaps (<[d := SnapDir (<[f := c]> files) t]> (snaps s)) s
      | _ => s
      end
  | CacheFile f => mkSt (live s) (snaps s) (<[f := c]> (cache s)) (tick s)
  end.

(** ** The monad *)

Inductive snap_error :=
| NameError (err : cluster_error)
| InvalidSnapshotName (name : string)
| SnapshotExists (name : string)
| NoSuchSnapshot (name : string)
| UnreadableState (name : string)
| MissingImage (name node : string)
| StrayImage (name image : string)
| InvalidDiskSize (gib : Z)
| NotExist
| IOFailed
| CreateExists.

Definition M (A : Type) : Type := St -> St * result snap_error A.

#[global] Instance M_ret : MRet M := fun A a s => (s, Ok a).
#[global] Instance M_bind : MBind M :=
  fun A B k m s => let '(s', r) := m s in match r with Ok a => k a s' | Err e => (s', Err e) end.

Definition fail {A} (e : snap_error) : M A := fun s => (s, Err e).
Definition get : M St := fun s => (s, Ok s).
Definition modify (f : St -> St) : M unit := fun s => (f s, Ok tt).
Definition lift {A} (r : result snap_error A) : M A := fun s => (s, r).

(** Run [m] and hand over its error as a value. *)
Definition attempt {A} (m : M A) : M (result snap_error A) := fun s => let '(s', r) := m s in (s', Ok r).

(** [for _, x := range l], stopping at the first error *)
Fixpoint each {A} (l : list A) (body : A -> M unit) : M unit :=
  match l with
  | [] => mret tt
  | x :: l => _ ← body x; each l body
  end.

Definition stateFile : string := "cluster.json".
Definition image (name : string) : string := (name +:+ ".img")%string.
Definition restoring (target : string) : string := (target +:+ ".restoring")%string.

(** [filepath.Ext(name) == ".img"] *)
Definition is_image (name : string) : bool := has_suffix name ".img".

(** [snapshotNameRe] *)
Definition is_alnum (c : ascii) : bool := is_lower c || is_upper c || is_digit c.
Fixpoint snapshot_tail (s : string) : bool :=
  match s with
  | EmptyString => true
  | String c r => (is_alnum c || bool_decide (c = "."%char) || bool_decide (c = "_"%char) || bool_decide (c = "-"%char)) && snapshot_tail r
  end.
Definition snapshotNameRe (s : string) : bool :=
  match s with EmptyString => false | String c r => is_alnum c && snapshot_tail r end.

(** Names in a directory, in the order [os.ReadDir] returns them *)
Definition names {A} (m : gmap string A) : list string := sort_strings (elements (dom m)).

Section Disk.
(** Which calls fail, how many bytes a failing copy had written, and whether the
    platform can clone files. *)
Context (fault : nat -> bool) (short : nat -> Z) (cloning : bool).

(** One fallible call: whether it fails. *)
Definition step : M bool := fun s => (mkSt (live s) (snaps s) (cache s) (S (tick s)), Ok (fault (tick s))).

Definition guard_io (e : snap_error) (b : bool) : M unit := if b then fail e else mret tt.

Definition cloneFile (source destination : path) : M unit :=
  if cloning then
    f ← step;
    s ← get;
    match file_at s source with
    | None => fail NotExist
    | Some c =>
        _ ← guard_io IOFailed (f || negb (parent_exists s destination));
        _ ← guard_io CreateExists (bool_decide (is_Some (file_at s destination)));
        modify (put_file destination c)
    end
  else fail IOFailed.

(** Open, create exclusively, copy, close: a failing copy leaves what it wrote. *)
Definition copyFile (source destination : path) : M unit :=
  f ← step;
  s ← get;
  match file_at s source with
  | None => fail NotExist
  | Some c =>
      _ ← guard_io IOFailed f;
      f ← step;
      _ ← guard_io IOFailed (f || negb (parent_exists s destination));
      _ ← guard_io CreateExists (bool_decide (is_Some (file_at s destination)));
      f ← step;
      if (f : bool) then _ ← modify (put_file destination (truncate (Z.min (short (tick s)) (file_size c)) c)); fail IOFailed
      else _ ← modify (put_file destination c); f ← step; guard_io IOFailed f
  end.

Definition cloneOrCopy (source destination : path) : M unit :=
  r ← attempt (cloneFile source destination);
  match r with Ok _ => mret tt | Err _ => copyFile source destination end.

(** [os.Remove] and [os.Rename] of live files *)
Definition remove (f : string) : M unit :=
  b ← step;
  s ← get;
  _ ← guard_io IOFailed b;
  match live s !! f with
  | None => fail NotExist
  | Some _ => modify (fun s => with_live (delete f (live s)) s)
  end.

Definition rename (from to : string) : M unit :=
  b ← step;
  s ← get;
  _ ← guard_io IOFailed b;
  match live s !! from with
  | None => fail NotExist
  | Some c => modify (fun s => with_live (<[to := c]> (delete from (live s))) s)
  end.

(** [_ = os.Remove(f)] *)
Definition remove_ignored (f : string) : M unit := _ ← attempt (remove f); mret tt.

(** ** Snapshots *)

(** [Dir], which also asks for the home directory *)
Definition Dir (clusterName : string) : M unit :=
  _ ← lift (map_err NameError (validName clusterName));
  f ← step; guard_io IOFailed f.

Definition snapshotDir (clusterName name : string) : M unit :=
  _ ← Dir clusterName;
  if negb (snapshotNameRe name) || String.eqb name "." || String.eqb name ".." then fail (InvalidSnapshotName name) else mret tt.

(** Reading a state file: what the bytes decode to is the JSON package's. *)
Context (unmarshal : sparse -> option (list Node)).

Definition readSnapshotState (clusterName name : string) : M (list Node) :=
  _ ← snapshotDir clusterName name;
  f ← step;
  s ← get;
  _ ← guard_io (NoSuchSnapshot name) (f || negb (bool_decide (is_Some (snaps s !! name))));
  f ← step;
  match file_at s (SnapFile name stateFile) with
  | None => fail (UnreadableState name)
  | Some data =>
      _ ← guard_io (UnreadableState name) f;
      match unmarshal data with Some nodes => mret nodes | None => fail (UnreadableState name) end
  end.

Definition SnapshotNodes : string -> string -> M (list Node) := readSnapshotState.

(** [os.ReadDir] of a snapshot *)
Definition read_snapshot_dir (name : string) : M (list string) :=
  f ← step;
  s ← get;
  match snaps s !! name with
  | Some (SnapDir files _) => _ ← guard_io IOFailed f; mret (names files)
  | _ => fail IOFailed
  end.

(** Each node takes its image out of the set; none may be left. *)
Fixpoint check_nodes (name : string) (nodes : list Node) (images : gset string) : result snap_error (gset string) :=
  match nodes with
  | [] => Ok images
  | node :: nodes =>
      if bool_decide (image (n_Name node) ∈ images) then check_nodes name nodes (images ∖ {[image (n_Name node)]})
      else Err (MissingImage name (n_Name node))
  end.

Definition checkSnapshotDisks (name : string) (nodes : list Node) : M unit :=
  entries ← read_snapshot_dir name;
  left ← lift (check_nodes name nodes (list_to_set (filter (fun e => is_image e = true) entries)));
  match sort_strings (elements left) with
  | [] => mret tt
  | stray :: _ => fail (StrayImage name stray)
  end.

Definition CreateSnapshot (now : Z) (suffix : string) (item : Cluster) (name : string) : M unit :=
  _ ← snapshotDir (c_Name item) name;
  f ← step;
  s ← get;
  _ ← guard_io (SnapshotExists name) (negb f && bool_decide (is_Some (snaps s !! name)));
  _ ← Dir (c_Name item);
  f ← step; _ ← guard_io IOFailed f;
  f ← step;
  s ← get;
  let tmp := (".snap-" +:+ suffix)%string in
  _ ← guard_io IOFailed (f || bool_decide (is_Some (snaps s !! tmp)));
  _ ← modify (fun s => with_snaps (<[tmp := SnapDir ∅ now]> (snaps s)) s);
  r ← attempt (
    _ ← each (c_Nodes item) (fun node => cloneOrCopy (LiveFile (image (n_Name node))) (SnapFile tmp (image (n_Name node))));
    _ ← copyFile (LiveFile stateFile) (SnapFile tmp stateFile);
    f ← step;
    s ← get;
    _ ← guard_io IOFailed f;
    match snaps s !! tmp, snaps s !! name with
    | Some d, None => modify (fun s => with_snaps (<[name := d]> (delete tmp (snaps s))) s)
    | Some d, Some (SnapDir files _) =>
        if decide (files = ∅) then modify (fun s => with_snaps (<[name := d]> (delete tmp (snaps s))) s) else fail IOFailed
    | _, _ => fail IOFailed
    end);
  f ← step;
  _ ← modify (fun s => if (f : bool) then s else with_snaps (delete tmp (snaps s)) s);
  lift r.

(** Stage every image beside its target: the staged targets, or the error with the
    ones staged so far removed. *)
Fixpoint stage (name : string) (entries : list string) (staged : list string) : M (list string) :=
  match entries with
  | [] => mret staged
  | entry :: entries =>
      if negb (is_image entry) then stage name entries staged
      else
        r ← attempt (cloneOrCopy (SnapFile name entry) (LiveFile (restoring entry)));
        match r with
        | Err e => _ ← each staged (fun t => remove_ignored (restoring t)); fail e
        | Ok _ => stage name entries (staged ++ [entry])
        end
  end.

Fixpoint swap (staged pending : list string) : M unit :=
  match pending with
  | [] => mret tt
  | target :: pending =>
      r ← attempt (rename (restoring target) target);
      match r with
      | Err e => _ ← each staged (fun t => remove_ignored (restoring t)); fail e
      | Ok _ => swap staged pending
      end
  end.

(** [liveEntries, _ := os.ReadDir(live)]: on error, the names read until then *)
Definition read_live_dir : M (list string) :=
  s ← get;
  f ← step;
  mret (if (f : bool) then take (Z.to_nat (short (tick s))) (names (live s)) else names (live s)).

Definition RestoreSnapshot (item : Cluster) (name : string) : M unit :=
  _ ← snapshotDir (c_Name item) name;
  nodes ← readSnapshotState (c_Name item) name;
  _ ← checkSnapshotDisks name nodes;
  _ ← Dir (c_Name item);
  entries ← read_snapshot_dir name;
  staged ← stage name entries [];
  _ ← swap staged staged;
  liveEntries ← read_live_dir;
  _ ← each liveEntries (fun e => if is_image e && negb (bool_decide (e ∈ staged)) then remove_ignored e else mret tt);
  r ← attempt (remove stateFile);
  _ ← match r with Err NotExist | Ok _ => mret tt | Err e => fail e end;
  copyFile (SnapFile name stateFile) (LiveFile stateFile).

Record SnapshotInfo := mkInfo { si_Name : string; si_Created : Z; si_Cluster : string }.

(** Later first. *)
Definition newer (a b : SnapshotInfo) : Prop := si_Created b <= si_Created a.

#[global] Instance newer_dec a b : Decision (newer a b).
Proof. unfold newer. apply _. Defined.

Definition hidden (name : string) : bool := match name with String c _ => bool_decide (c = "."%char) | _ => false end.

Definition list_entries (m : gmap string SnapEntry) : list SnapshotInfo :=
  omap (fun n => match m !! n with
                 | Some (SnapDir _ t) => if hidden n then None else Some (mkInfo n t "")
                 | _ => None
                 end) (names m).

Definition ListSnapshots (clusterName : string) : M (list SnapshotInfo) :=
  _ ← Dir clusterName;
  f ← step;
  s ← get;
  _ ← guard_io IOFailed f;
  mret (merge_sort newer (list_entries (snaps s))).

Definition DeleteSnapshot (clusterName name : string) : M unit :=
  _ ← snapshotDir clusterName name;
  f ← step;
  s ← get;
  _ ← guard_io (NoSuchSnapshot name) (negb f && negb (bool_decide (is_Some (snaps s !! name))));
  f ← step;
  _ ← guard_io IOFailed f;
  modify (fun s => with_snaps (delete name (snaps s)) s).

(** ** Node disks ([disk.go]) *)

Definition put_truncated (size : Z) (f : string) : M unit :=
  modify (fun s => with_live (alter (truncate size) f (live s)) s).

(** [provisionDisk]: keep an existing disk, growing it; otherwise build it in a
    temporary file and rename it into place.  [tmp] is the name [os.CreateTemp] chose. *)
Definition provisionDisk (source tmp destination : string) (size : Z) : M unit :=
  f ← step;
  s ← get;
  _ ← guard_io IOFailed f;
  match live s !! destination with
  | Some c =>
      if file_size c <? size then f ← step; _ ← guard_io IOFailed f; put_truncated size destination else mret tt
  | None =>
      f ← step;
      _ ← guard_io IOFailed (f || bool_decide (is_Some (live s !! tmp)));
      _ ← modify (put_file (LiveFile tmp) (mkSparse "" 0));
      f ← step;
      if (f : bool) then _ ← remove_ignored tmp; fail IOFailed
      else
        _ ← remove tmp;
        r ← attempt (
          c ← attempt (cloneFile (CacheFile source) (LiveFile tmp));
          _ ← match c with
              | Ok _ => mret tt
              | Err _ =>
                  removed ← attempt (remove tmp);
                  _ ← match removed with Err NotExist | Ok _ => mret tt | Err e => fail e end;
                  copyFile (CacheFile source) (LiveFile tmp)
              end;
          f ← step; _ ← guard_io IOFailed f;
          f ← step; _ ← guard_io IOFailed f;
          _ ← put_truncated size tmp;
          rename tmp destination);
        _ ← remove_ignored tmp;
        lift r
  end.

(** [ProvisionDisks]: [tmp] names the temporary of each node. *)
Definition ProvisionDisks (c : Cluster) (cachedDisk : string) (tmp : Node -> string) : M unit :=
  _ ← each [RoleControlPlane; RoleWorker] (fun role =>
        let gib := DiskGiB (DefaultsFor c role) in
        if (gib <=? 0) || (int64_max / 2 ^ 30 <? gib) then fail (InvalidDiskSize gib) else mret tt);
  _ ← Dir (c_Name c);
  f ← step; _ ← guard_io IOFailed f;
  each (c_Nodes c) (fun node =>
    _ ← lift (map_err NameError (validName (n_Name node)));
    provisionDisk cachedDisk (tmp node) (image (n_Name node)) (wrap64 (Z.shiftl (DiskGiB (DefaultsFor c (n_Role node))) 30))).
End Disk.

(** ** The restore gate ([snapshot_restore_gate.go]) *)

(** The live nodes a restore would delete. *)
Definition vanishingRestoreNodes (live captured : list Node) : list Node :=
  filter (fun n => existsb (fun candidate => String.eqb (n_Name candidate) (n_Name n)) captured = false) live.

(** What the observation of each vanishing node gave: a count, or nothing. *)
Fixpoint count_vanishing (count : Node -> option Z) (nodes : list Node) : list (string * Z) * list string * Z :=
  match nodes with
  | [] => ([], [], 0)
  | node :: nodes =>
      let '(counted, unverified, total) := count_vanishing count nodes in
      match count node with
      | None => (counted, n_Name node :: unverified, total)
      | Some c => if 0 <? c then ((n_Name node, c) :: counted, unverified, wrap64 (c + total)) else (counted, unverified, total)
      end
  end.

Inductive gate_outcome :=
| Silent
| Refuse (counted : list (string * Z)) (unverified : list string)
| WarnLoss (counted : list (string * Z)) (unverified : list string)
| WarnUnverified (nodes : list string).

(** [gateSnapshotRestore], from the loaded cluster and the captured nodes; [None] for
    either leaves the report to the locked handler. *)
Definition gateSnapshotRestore (item : option Cluster) (captured : option (list Node)) (running force : bool)
    (count : Node -> option Z) : gate_outcome :=
  match item with
  | None => Silent
  | Some item =>
      if String.eqb (CSI (c_Intent item)) "" then Silent
      else match captured with
      | None => Silent
      | Some captured =>
          let vanishing := vanishingRestoreNodes (c_Nodes item) captured in
          match vanishing with
          | [] => Silent
          | _ =>
              if negb running then WarnUnverified (n_Name <$> vanishing)
              else
                let '(counted, unverified, total) := count_vanishing count vanishing in
                if (0 <? total) && negb force then Refuse counted unverified
                else if 0 <? total then WarnLoss counted unverified
                else match unverified with [] => Silent | _ => WarnUnverified unverified end
          end
      end
  end.

Definition nodeUnit (nodes : list string) : string := match nodes with [_] => "node" | _ => "nodes" end.

Definition nodeVolumeList (counted : list (string * Z)) : string :=
  join ", " ((fun '(n, c) => (n +:+ " (" +:+ itoa c +:+ " " +:+ (if Z.eqb c 1 then "volume" else "volumes") +:+ ")")%string) <$> counted).

Definition unverifiedNodesSuffix (unverified : list string) : string :=
  match unverified with
  | [] => ""
  | _ => (" (volume data on " +:+ join ", " unverified +:+ " could not be verified)")%string
  end.

Definition restoreDataLossWarning (csi snapshot : string) (counted : list (string * Z)) (unverified : list string) : string :=
  ("restoring snapshot " +:+ snapshot +:+ " permanently deletes " +:+ csi +:+ " volume data on " +:+
   nodeVolumeList counted +:+ unverifiedNodesSuffix unverified)%string.

(** ** Running with the cluster stopped ([snapshot.go]) *)

(** What was done, in order: the two machine calls and the body. *)
Inductive stop_event := EStop | EBody | EStart.

Definition withClusterStopped {W} (running : bool) (stop start body : W -> W * bool) (w : W) : W * list stop_event * bool :=
  if negb running then let '(w, ok) := body w in (w, [EBody], ok)
  else
    let '(w, ok) := stop w in
    if negb ok then (w, [EStop], false)
    else
      let '(w, bodyOk) := body w in
      let '(w, startOk) := start w in
      (w, [EStop; EBody; EStart], bodyOk && startOk).

(** [listAllSnapshots]: every cluster's snapshots, tagged, newest first; an error of one
    cluster is the error of all. *)
Fixpoint gather (items : list (string * option (list SnapshotInfo))) : option (list SnapshotInfo) :=
  match items with
  | [] => Some []
  | (cluster, snapshots) :: items =>
      snapshots ← snapshots;
      rest ← gather items;
      Some (((fun i => mkInfo (si_Name i) (si_Created i) cluster) <$> snapshots) ++ rest)
  end.

Definition listAllSnapshots (items : list (string * option (list SnapshotInfo))) : option (list SnapshotInfo) :=
  merge_sort newer <$> gather items.

(** ** Reasoning about runs *)

(** From [s], [m] ends as [Q] says. *)
Definition runs {A} (s : St) (m : M A) (Q : St -> result snap_error A -> Prop) : Prop := Q (m s).1 (m s).2.

Section Runs.
Context {A B : Type}.

Lemma runs_conseq s (m : M A) (P Q : St -> result snap_error A -> Prop) :
  runs s m P -> (forall s' r, P s' r -> Q s' r) -> runs s m Q.
Proof. unfold runs. auto. Qed.

Lemma runs_bind s (m : M A) (k : A -> M B) Q :
  runs s m (fun s' r => match r with Ok a => runs s' (k a) Q | Err e => Q s' (Err e) end) -> runs s (m ≫= k) Q.
Proof. unfold runs, mbind, M_bind. by destruct (m s) as [s' [a|e]]. Qed.

Lemma runs_attempt s (m : M A) Q : runs s m (fun s' r => Q s' (Ok r)) -> runs s (attempt m) Q.
Proof. unfold runs, attempt. by destruct (m s). Qed.

Lemma runs_ret s (a : A) (Q : St -> result snap_error A -> Prop) : Q s (Ok a) -> runs s (mret a) Q.
Proof. done. Qed.
End Runs.

(** A loop that keeps an invariant ends in it, whichever iteration failed. *)
Lemma runs_each {A} (l : list A) (body : A -> M unit) (I : St -> Prop) s :
  I s -> (forall x s, x ∈ l -> I s -> runs s (body x) (fun s' r => I s' /\ r = Ok tt)) ->
  runs s (each l body) (fun s' r => I s' /\ r = Ok tt).
Proof.
  revert s. induction l as [|x l IH]; intros s Hs Hb; [done|]. apply runs_bind.
  eapply runs_conseq; [apply (Hb x s); [apply list_elem_of_here|done]|]. intros s' r [Hi ->].
  apply IH; [done|]. intros y s'' Hy. apply Hb. by apply list_elem_of_further.
Qed.

Section Proofs.
Context (fault : nat -> bool) (short : nat -> Z) (cloning : bool).

Abbreviation nofault := (forall n, fault n = false).

Lemma runs_step s Q : Q (mkSt (live s) (snaps s) (cache s) (S (tick s))) (Ok (fault (tick s))) -> runs s (step fault) Q.
Proof. done. Qed.

(** [s'] has the files of [s], but for the live ones in [P]. *)
Definition same_off (P : string -> Prop) (s s' : St) : Prop :=
  snaps s' = snaps s /\ cache s' = cache s /\ forall g, ~ P g -> live s' !! g = live s !! g.

Lemma same_off_refl P s s' : live s' = live s -> snaps s' = snaps s -> cache s' = cache s -> same_off P s s'.
Proof. intros E1 E2 E3. split_and!; [done|done|]. intros. by rewrite E1. Qed.

Lemma same_off_trans P1 P2 (P : string -> Prop) s1 s2 s3 :
  same_off P1 s1 s2 -> same_off P2 s2 s3 -> (forall g, P1 g \/ P2 g -> P g) -> same_off P s1 s3.
Proof.
  intros (A1 & A2 & A3) (B1 & B2 & B3) HP. split_and!; [congruence|congruence|].
  intros g Hg. rewrite B3, A3; auto.
Qed.

(** A clone or copy into the live directory: exclusive, whole when it succeeds, and it
    succeeds when nothing fails and the destination is free. *)
Definition copied (src : path) (t : string) (s s' : St) (r : result snap_error unit) : Prop :=
  same_off (fun g => g = t) s s' /\
  match r with
  | Ok _ => live s !! t = None /\ is_Some (file_at s src) /\ live s' !! t = file_at s src
  | Err _ => is_Some (live s !! t) -> live s' !! t = live s !! t
  end /\
  (nofault -> is_Some (file_at s src) -> live s !! t = None -> r = Ok tt).

Ltac run_step := apply runs_bind, runs_step; cbn beta iota.

Lemma copyFile_runs s src t : runs s (copyFile fault short src (LiveFile t)) (copied src t s).
Proof.
  unfold copyFile, runs, mbind, M_bind, get, step, guard_io, fail, modify, mret, M_ret, copied; cbn [fst snd live snaps cache tick file_at parent_exists].
  assert (forall n, file_at (mkSt (live s) (snaps s) (cache s) n) src = file_at s src) as -> by (by destruct src).
  destruct (file_at s src) as [c|] eqn:Ec; cbn.
  2: { split_and!; [by apply same_off_refl|done|]. by intros _ [? ?]. }
  destruct (fault (tick s)) eqn:F1; cbn.
  { split_and!; [by apply same_off_refl|done|]. intros Hn. by rewrite Hn in F1. }
  destruct (fault (S (tick s))) eqn:F2; cbn.
  { split_and!; [by apply same_off_refl|done|]. intros Hn. by rewrite Hn in F2. }
  case_bool_decide as Hd; cbn.
  { split_and!; [by apply same_off_refl|done|]. intros _ _ Hnone. rewrite Hnone in Hd. by destruct Hd. }
  apply eq_None_not_Some in Hd.
  assert (forall c' n, same_off (fun g => g = t) s (mkSt (<[t := c']> (live s)) (snaps s) (cache s) n)) as Hso.
  { intros c' n. split_and!; [done|done|]. cbn. intros g Hg. by apply lookup_insert_ne. }
  destruct (fault (S (S (tick s)))) eqn:F3; cbn.
  { split_and!; [apply Hso|by rewrite Hd; intros [? ?]|]. intros Hn. by rewrite Hn in F3. }
  destruct (fault (S (S (S (tick s))))) eqn:F4; cbn.
  { split_and!; [apply Hso|by rewrite Hd; intros [? ?]|]. intros Hn. by rewrite Hn in F4. }
  split_and!; [apply Hso|done|by eexists|apply lookup_insert_eq|done].
Qed.

Lemma cloneFile_runs s src t :
  runs s (cloneFile fault cloning src (LiveFile t)) (fun s' r =>
    same_off (fun g => g = t) s s' /\
    match r with
    | Ok _ => live s !! t = None /\ is_Some (file_at s src) /\ live s' !! t = file_at s src
    | Err _ => live s' = live s
    end).
Proof.
  unfold cloneFile. destruct cloning; [|split; [by apply same_off_refl|done]].
  unfold runs, mbind, M_bind, get, step, guard_io, fail, modify, mret, M_ret; cbn [fst snd live snaps cache tick file_at parent_exists].
  assert (forall n, file_at (mkSt (live s) (snaps s) (cache s) n) src = file_at s src) as -> by (by destruct src).
  destruct (file_at s src) as [c|] eqn:Ec; cbn; [|split; [by apply same_off_refl|done]].
  destruct (fault (tick s)); cbn; [split; [by apply same_off_refl|done]|].
  case_bool_decide as Hd; cbn; [split; [by apply same_off_refl|done]|]. apply eq_None_not_Some in Hd.
  split_and!; [split_and!; [done|done|]|done|by eexists|apply lookup_insert_eq]. cbn. intros g Hg. by apply lookup_insert_ne.
Qed.

Lemma cloneOrCopy_runs s src t : runs s (cloneOrCopy fault short cloning src (LiveFile t)) (copied src t s).
Proof.
  apply runs_bind, runs_attempt. eapply runs_conseq; [apply cloneFile_runs|]. intros s1 [[]|e] [Hs Hr].
  - destruct Hr as (H1 & H2 & H3). apply runs_ret. by split_and!.
  - destruct Hs as (S1 & S2 & S3). eapply runs_conseq; [apply copyFile_runs|].
    assert (file_at s1 src = file_at s src) as Ef by (destruct src; cbn; by rewrite ?S1, ?S2, ?Hr).
    unfold copied. rewrite Ef, Hr. intros s2 r (HO & H2 & H3). split_and!; [|done|done].
    eapply same_off_trans; [split_and!; [exact S1|exact S2|exact S3]|exact HO|tauto].
Qed.

Lemma remove_runs s f : runs s (remove fault f) (fun s' r =>
  same_off (fun g => g = f) s s' /\
  match r with
  | Ok _ => live s' !! f = None
  | Err e => live s' = live s /\ (e = NotExist -> live s !! f = None)
  end /\
  (nofault -> match r with Ok _ => True | Err e => e = NotExist end)).
Proof.
  unfold remove, runs, mbind, M_bind, get, step, guard_io, fail, modify, mret, M_ret; cbn.
  destruct (fault (tick s)) eqn:F; cbn.
  { split_and!; [by apply same_off_refl|done|done|]. intros Hn. by rewrite Hn in F. }
  destruct (live s !! f) as [c|] eqn:El; cbn; [|split_and!; [by apply same_off_refl|done|done|done]].
  split_and!; [split_and!; [done|done|]|apply lookup_delete_eq|done]. cbn. intros g Hg. by apply lookup_delete_ne.
Qed.

(** Ignoring the error, a removal is done or nothing happened. *)
Lemma remove_ignored_runs s f : runs s (remove_ignored fault f) (fun s' r =>
  r = Ok tt /\ same_off (fun g => g = f) s s' /\ (live s' !! f = live s !! f \/ live s' !! f = None) /\ (nofault -> live s' !! f = None)).
Proof.
  apply runs_bind, runs_attempt. eapply runs_conseq; [apply remove_runs|]. intros s1 [[]|e] (Hs & Hr & Hn); apply runs_ret.
  - split_and!; [done|done|by right|done].
  - destruct Hr as [Hr He]. split_and!; [done|done|left; by rewrite Hr|]. intros Hf. rewrite Hr. apply He. by apply Hn.
Qed.

Lemma rename_runs s from to : from <> to -> runs s (rename fault from to) (fun s' r =>
  same_off (fun g => g = from \/ g = to) s s' /\
  match r with
  | Ok _ => live s' !! to = live s !! from /\ live s' !! from = None
  | Err _ => live s' = live s
  end /\ (nofault -> is_Some (live s !! from) -> r = Ok tt)).
Proof.
  intros Hne. unfold rename, runs, mbind, M_bind, get, step, guard_io, fail, modify, mret, M_ret; cbn.
  destruct (fault (tick s)) eqn:F; cbn.
  { split_and!; [by apply same_off_refl|done|]. intros Hn. by rewrite Hn in F. }
  destruct (live s !! from) as [c|] eqn:El; cbn; [|split_and!; [by apply same_off_refl|done|by intros _ [? ?]]].
  split_and!; [split_and!; [done|done|]|apply lookup_insert_eq| |done]; cbn.
  - intros g Hg. rewrite lookup_insert_ne, lookup_delete_ne; [done|intros ->; tauto|intros ->; tauto].
  - rewrite lookup_insert_ne by done. apply lookup_delete_eq.
Qed.

(** Names: staging files and images are different, and each image has its own. *)
Lemma restoring_inj a b : restoring a = restoring b -> a = b.
Proof. unfold restoring. intros E. rewrite <- (trim_suffix_app a ".restoring"), E. apply trim_suffix_app. Qed.

Lemma restoring_not_image a b : is_image b = true -> restoring a <> b.
Proof.
  intros (t & ->)%has_suffix_spec E. unfold restoring in E.
  change ".restoring" with (".restorin" +:+ "g")%string in E. change ".img" with (".im" +:+ "g")%string in E.
  rewrite <- !string_app_assoc in E. apply (f_equal (fun x => trim_suffix x "g")) in E. rewrite !trim_suffix_app in E.
  apply (f_equal last_char) in E. rewrite !last_char_app in E by discriminate. discriminate E.
Qed.

Lemma restoring_not_state a : restoring a <> stateFile.
Proof.
  intros E. pose proof (f_equal last_char E) as E'. unfold restoring in E'. rewrite last_char_app in E' by discriminate. discriminate E'.
Qed.

Lemma state_not_image : is_image stateFile = false.
Proof. reflexivity. Qed.

Definition is_temp (g : string) : Prop := exists t, g = restoring t.

(** Removing the staged temporaries touches nothing else. *)
Lemma cleanup_runs s staged : runs s (each staged (fun t => remove_ignored fault (restoring t))) (fun s' r =>
  same_off is_temp s s' /\ r = Ok tt).
Proof.
  apply (runs_each _ _ (fun s' => same_off is_temp s s')); [by apply same_off_refl|].
  intros t s1 _ H1. eapply runs_conseq; [apply remove_ignored_runs|]. intros s2 r (-> & H2 & _). split; [|done].
  eapply same_off_trans; [exact H1|exact H2|]. intros g [Hg| ->]; [done|by eexists].
Qed.

(** The images of the snapshot that are staged, whole, beside their targets. *)
Definition staged_ok (files : gmap string sparse) (s : St) (l : list string) : Prop :=
  forall e, e ∈ l -> is_Some (files !! e) /\ live s !! restoring e = files !! e.

Lemma stage_runs name files t0 entries :
  forall staged s, snaps s !! name = Some (SnapDir files t0) -> staged_ok files s staged ->
  NoDup (staged ++ entries) ->
  runs s (stage fault short cloning name entries staged) (fun s' r =>
    same_off is_temp s s' /\
    match r with
    | Ok l => l = staged ++ filter (fun e => is_image e = true) entries /\ staged_ok files s' l
    | Err _ => True
    end /\
    (nofault -> (forall e, e ∈ entries -> is_Some (files !! e) /\ live s !! restoring e = None) -> is_ok r = true)).
Proof.
  induction entries as [|entry entries IH]; intros staged s Hd Hok Hnd; cbn [stage].
  { apply runs_ret. rewrite app_nil_r. split_and!; [by apply same_off_refl|done|done|done]. }
  rewrite filter_cons. destruct (is_image entry) eqn:Ei; cbn [negb].
  2: { destruct (decide (false = true)); [done|]. assert (NoDup (staged ++ entries)) as Hnd'.
    { rewrite NoDup_app in *. destruct Hnd as (N1 & N2 & N3). apply NoDup_cons in N3 as [_ N3]. split_and!; try done.
      intros x Hx Hin. apply (N2 x Hx). by apply list_elem_of_further. }
    eapply runs_conseq; [by apply IH|]. intros s' r (H1 & H2 & H3). split_and!; try done.
    intros Hn Hall. apply H3; [done|]. intros e He. apply Hall. by apply list_elem_of_further. }
  destruct (decide (true = true)); [|done].
  apply runs_bind, runs_attempt. eapply runs_conseq; [apply cloneOrCopy_runs|].
  assert (file_at s (SnapFile name entry) = files !! entry) as Ef by (cbn; by rewrite Hd).
  assert (entry ∉ staged) as Hni by (intros Hi; rewrite NoDup_app in Hnd; by apply (proj1 (proj2 Hnd) _ Hi), list_elem_of_here).
  intros s1 [[]|err]; unfold copied; rewrite Ef; intros (HO & Hr & Hn).
  - destruct Hr as (R1 & R2 & R3).
    assert (staged_ok files s1 (staged ++ [entry])) as Hok1.
    { intros x [Hx| ->%list_elem_of_singleton]%elem_of_app; [|done]. destruct (Hok x Hx) as [X1 X2]. split; [done|].
      destruct HO as (_ & _ & HO). rewrite HO; [done|]. by intros ->%restoring_inj. }
    eapply runs_conseq; [apply IH|].
    + destruct HO as (-> & _). done.
    + done.
    + by rewrite <- app_assoc.
    + intros s' r (H1 & H2 & H3). rewrite <- app_assoc in H2. split_and!; [|done|].
      * eapply same_off_trans; [exact HO|exact H1|]. intros g [->|Hg]; [by eexists|done].
      * intros Hnf Hall. apply H3; [done|]. intros x Hx. destruct (Hall x) as [X1 X2]; [by apply list_elem_of_further|].
        split; [done|]. destruct HO as (_ & _ & HO). rewrite HO; [done|]. intros ->%restoring_inj.
        apply NoDup_app in Hnd as (_ & _ & [Hx' _]%NoDup_cons). done.
  - apply runs_bind. eapply runs_conseq; [apply cleanup_runs|]. intros s2 r [H2 ->]. unfold runs, fail. cbn [fst snd].
    split_and!; [|done|].
    + eapply same_off_trans; [exact HO|exact H2|]. intros g [->|Hg]; [by eexists|done].
    + intros Hnf Hall. destruct (Hall entry) as [X1 X2]; [apply list_elem_of_here|]. discriminate (Hn Hnf X1 X2).
Qed.

(** The swap replaces targets in order: those of a prefix hold the snapshot's disks,
    every other file but the temporaries is as it was. *)
Lemma swap_runs files staged pending :
  forall s, staged_ok files s pending -> NoDup pending -> (forall e, e ∈ pending -> is_image e = true) ->
  runs s (swap fault staged pending) (fun s' r =>
    exists done_ rest, pending = done_ ++ rest /\
      same_off (fun g => is_temp g \/ g ∈ done_) s s' /\
      (forall e, e ∈ done_ -> live s' !! e = files !! e) /\
      (r = Ok tt -> rest = []) /\ (nofault -> r = Ok tt)).
Proof.
  induction pending as [|target pending IH]; intros s Hok Hnd Him; cbn [swap].
  { apply runs_ret. exists [], []. split_and!; [done|by apply same_off_refl|by intros e ?%not_elem_of_nil|done|done]. }
  assert (is_image target = true) as Ht by (apply Him, list_elem_of_here).
  destruct (Hok target (list_elem_of_here _ _)) as [O1 O2]. apply NoDup_cons in Hnd as [Hni Hnd].
  apply runs_bind, runs_attempt. eapply runs_conseq; [apply rename_runs, restoring_not_image, Ht|].
  intros s1 [[]|err] (HO & Hr & Hn).
  - destruct Hr as [R1 R2]. eapply runs_conseq; [apply IH|].
    + intros e He. destruct (Hok e (list_elem_of_further _ _ _ He)) as [X1 X2]. split; [done|].
      destruct HO as (_ & _ & HO). rewrite HO; [done|]. intros [->%restoring_inj|E]; [done|]. by apply restoring_not_image in E.
    + done.
    + intros e He. by apply Him, list_elem_of_further.
    + intros s2 r (done_ & rest & -> & S1 & S2 & S3 & S4). exists (target :: done_), rest. split_and!; [done| | |done|done].
      * eapply same_off_trans; [exact HO|exact S1|]. intros g [[->| ->]|[Hg|Hg]].
        -- left. by eexists.
        -- right. apply list_elem_of_here.
        -- by left.
        -- right. by apply list_elem_of_further.
      * intros e [->|He]%elem_of_cons; [|by apply S2]. destruct S1 as (_ & _ & S1). rewrite S1; [by rewrite R1|].
        intros [(t & E)|Hin]; [by eapply restoring_not_image|]. apply Hni, elem_of_app. by left.
  - apply runs_bind. eapply runs_conseq; [apply cleanup_runs|]. intros s2 r [H2 ->]. unfold runs, fail. cbn [fst snd].
    exists [], (target :: pending). split_and!; [done| |by intros e ?%not_elem_of_nil|done|].
    + eapply (same_off_trans (fun _ => False)); [|exact H2|by intros g [[]|Hg]; left].
      destruct HO as (? & ? & _). by apply same_off_refl.
    + intros Hnf. rewrite O2 in Hn. by discriminate (Hn Hnf O1).
Qed.

(** Removing the live images that were not captured. *)
Lemma remove_uncaptured_runs (staged entries : list string) s :
  runs s (each entries (fun e => if is_image e && negb (bool_decide (e ∈ staged)) then remove_ignored fault e else mret tt))
    (fun s' r => r = Ok tt /\ same_off (fun g => is_image g = true /\ g ∉ staged) s s' /\
      (forall g, live s' !! g = live s !! g \/ live s' !! g = None) /\
      (nofault -> forall g, g ∈ entries -> is_image g = true -> g ∉ staged -> live s' !! g = None)).
Proof.
  revert s. induction entries as [|entry entries IH]; intros s; cbn [each].
  { apply runs_ret. split_and!; [done|by apply same_off_refl|by left|by intros _ g ?%not_elem_of_nil]. }
  apply runs_bind. destruct (is_image entry && negb (bool_decide (entry ∈ staged))) eqn:Ei.
  - apply andb_prop in Ei as [Ei En]. apply negb_true_iff, bool_decide_eq_false in En.
    eapply runs_conseq; [apply remove_ignored_runs|]. intros s1 r (-> & R1 & R2 & R3).
    eapply runs_conseq; [apply IH|]. intros s2 r (-> & S1 & S2 & S3). split_and!; [done| | |].
    + eapply same_off_trans; [exact R1|exact S1|]. intros g [->|Hg]; done.
    + intros g. destruct (S2 g) as [->|Hg]; [|by right]. destruct (decide (g = entry)) as [->|Hne]; [done|].
      left. by apply R1.
    + intros Hnf g [->|Hg]%elem_of_cons Hi Hs; [|by apply S3]. destruct (S2 entry) as [->|Hg]; [by apply R3|done].
  - apply runs_ret. eapply runs_conseq; [apply IH|]. intros s2 r (-> & S1 & S2 & S3). split_and!; try done.
    intros Hnf g [->|Hg]%elem_of_cons Hi Hs; [|by apply S3].
    rewrite Hi, bool_decide_eq_false_2 in Ei by done. done.
Qed.

(** *** Reading a snapshot *)

(** Nothing was written. *)
Definition unwritten (s s' : St) : Prop := live s' = live s /\ snaps s' = snaps s /\ cache s' = cache s.

Lemma unwritten_trans s1 s2 s3 : unwritten s1 s2 -> unwritten s2 s3 -> unwritten s1 s3.
Proof. unfold unwritten. intuition congruence. Qed.

Lemma unwritten_off P s s' : unwritten s s' -> same_off P s s'.
Proof. intros (? & ? & ?). by apply same_off_refl. Qed.

Lemma Dir_runs clusterName s : runs s (Dir fault clusterName) (fun s' r =>
  unwritten s s' /\ (nofault -> validName clusterName = Ok tt -> r = Ok tt)).
Proof.
  unfold Dir, runs, lift, mbind, M_bind, step, guard_io, fail, mret, M_ret. destruct (validName clusterName) as [[]|]; cbn; [|done].
  destruct (fault (tick s)) eqn:F; cbn; (split; [done|]); [|done]. intros Hn. by rewrite Hn in F.
Qed.

(** A name a snapshot can have. *)
Definition good_name (clusterName name : string) : Prop := validName clusterName = Ok tt /\ snapshotNameRe name = true.

Lemma good_name_not_dots name : snapshotNameRe name = true -> String.eqb name "." || String.eqb name ".." = false.
Proof.
  intros Hn. apply orb_false_iff; split; apply String.eqb_neq; intros ->; discriminate Hn.
Qed.

Lemma snapshotDir_runs clusterName name s : runs s (snapshotDir fault clusterName name) (fun s' r =>
  unwritten s s' /\ (r = Ok tt -> snapshotNameRe name = true) /\ (nofault -> good_name clusterName name -> r = Ok tt)).
Proof.
  apply runs_bind. eapply runs_conseq; [apply Dir_runs|]. intros s1 [[]|e] [Hu Hn].
  - rewrite <- orb_assoc. destruct (snapshotNameRe name) eqn:Er; cbn [negb orb].
    + rewrite good_name_not_dots by done. apply runs_ret. done.
    + unfold runs, fail. cbn. split_and!; [done|done|]. by intros _ [_ ?]; congruence.
  - split_and!; [done|done|]. intros Hf [Hv _]. discriminate (Hn Hf Hv).
Qed.

Context (unmarshal : sparse -> option (list Node)).

(** What the snapshot's state file says of its nodes. *)
Definition captures (s : St) (name : string) (files : gmap string sparse) (nodes : list Node) : Prop :=
  (exists t, snaps s !! name = Some (SnapDir files t)) /\ exists data, files !! stateFile = Some data /\ unmarshal data = Some nodes.

Lemma readSnapshotState_runs clusterName name s : runs s (readSnapshotState fault unmarshal clusterName name) (fun s' r =>
  unwritten s s' /\ (forall nodes, r = Ok nodes -> exists files, captures s name files nodes) /\
  (nofault -> good_name clusterName name -> forall files nodes, captures s name files nodes -> r = Ok nodes)).
Proof.
  apply runs_bind. eapply runs_conseq; [apply snapshotDir_runs|]. intros s1 [[]|e] (Hu & _ & Hn).
  2: { split_and!; [done|done|]. intros Hf Hg. discriminate (Hn Hf Hg). }
  destruct Hu as (U1 & U2 & U3).
  unfold runs, mbind, M_bind, get, step, guard_io, fail, mret, M_ret; cbn. rewrite U2.
  assert (unwritten s (mkSt (live s1) (snaps s) (cache s1) (S (S (tick s1)))) /\ unwritten s (mkSt (live s1) (snaps s) (cache s1) (S (tick s1)))) as [Hu2 Hu1] by done.
  destruct (fault (tick s1)) eqn:F1; cbn.
  { split_and!; [done|done|]. intros Hf. by rewrite Hf in F1. }
  case_bool_decide as Hs; cbn.
  2: { split_and!; [done|done|]. intros _ _ files nodes [(t & Ht) _]. destruct Hs. by eexists. }
  destruct (snaps s !! name) as [[files t|]|] eqn:Es; cbn; [|split_and!; [done|done|]; intros _ _ f n [(t & Ht) _]; congruence..].
  destruct (files !! stateFile) as [data|] eqn:Ed; cbn.
  2: { split_and!; [done|done|]. intros _ _ f n [(t' & Ht) (d & Hd & _)]. congruence. }
  destruct (fault (S (tick s1))) eqn:F2; cbn.
  { split_and!; [done|done|]. intros Hf. by rewrite Hf in F2. }
  destruct (unmarshal data) as [nodes|] eqn:Eu; cbn.
  - split_and!; [done| |].
    + intros ? [= <-]. exists files. split; [by eexists|by eexists].
    + intros _ _ f n [(t' & Ht) (d & Hd & Hu)]. assert (f = files) as -> by congruence. assert (d = data) as -> by congruence. congruence.
  - split_and!; [done|done|]. intros _ _ f n [(t' & Ht) (d & Hd & Hu)].
    assert (f = files) as -> by congruence. assert (d = data) as -> by congruence. congruence.
Qed.

Lemma read_snapshot_dir_runs name s : runs s (read_snapshot_dir fault name) (fun s' r =>
  unwritten s s' /\ (forall l, r = Ok l -> exists files t, snaps s !! name = Some (SnapDir files t) /\ l = names files) /\
  (nofault -> forall files t, snaps s !! name = Some (SnapDir files t) -> r = Ok (names files))).
Proof.
  unfold read_snapshot_dir, runs, mbind, M_bind, get, step, guard_io, fail, mret, M_ret; cbn.
  destruct (snaps s !! name) as [[files t|]|] eqn:Es; cbn; [|by split_and!..].
  destruct (fault (tick s)) eqn:F; cbn.
  - split_and!; [done|done|]. intros Hf. by rewrite Hf in F.
  - split_and!; [done| |]; [intros ? [= <-]; eauto|]. by intros _ ? ? [= <- <-].
Qed.

(** Each captured node has its image, and each image its node. *)
Definition images_match (files : gmap string sparse) (nodes : list Node) : Prop :=
  NoDup (n_Name <$> nodes) /\ forall e, is_image e = true -> (is_Some (files !! e) <-> exists n, n ∈ nodes /\ e = image (n_Name n)).

Lemma image_inj a b : image a = image b -> a = b.
Proof. unfold image. intros E. rewrite <- (trim_suffix_app a ".img"), E. apply trim_suffix_app. Qed.

Lemma image_is_image a : is_image (image a) = true.
Proof. apply has_suffix_spec. by eexists. Qed.

Lemma check_nodes_spec name nodes : forall images left,
  check_nodes name nodes images = Ok left <->
  NoDup (n_Name <$> nodes) /\ (forall n, n ∈ nodes -> image (n_Name n) ∈ images) /\
  left = images ∖ list_to_set ((image ∘ n_Name) <$> nodes).
Proof.
  induction nodes as [|node nodes IH]; intros images left; cbn [check_nodes fmap list_fmap list_to_set].
  { rewrite difference_empty_L. split; [intros [= <-]|by intros (_ & _ & ->)]. split_and!; [apply NoDup_nil_2|by intros n ?%not_elem_of_nil|done]. }
  case_bool_decide as Hin.
  - rewrite IH, NoDup_cons. split.
    + intros (H1 & H2 & ->). split_and!; [|done| |set_solver].
      * intros (n & En & Hn)%list_elem_of_fmap. specialize (H2 n Hn). rewrite <- En in H2. set_solver.
      * intros n [->|Hn]%elem_of_cons; [done|]. specialize (H2 n Hn). set_solver.
    + intros ((H1 & H1') & H2 & ->). split_and!; [done| |set_solver]. intros n Hn. apply elem_of_difference. split; [apply H2; by apply list_elem_of_further|].
      intros E%elem_of_singleton%image_inj. apply H1. rewrite <- E. by apply list_elem_of_fmap_2.
  - split; [done|]. intros (_ & H2 & _). destruct Hin. apply H2, list_elem_of_here.
Qed.

Lemma elem_of_names {A} (m : gmap string A) e : e ∈ names m <-> is_Some (m !! e).
Proof. unfold names. by rewrite elem_of_sort_strings, elem_of_elements, elem_of_dom. Qed.

Lemma NoDup_names {A} (m : gmap string A) : NoDup (names m).
Proof. apply NoDup_sort_strings, NoDup_elements. Qed.

Lemma sort_strings_nil l : sort_strings l = [] <-> l = [].
Proof. split; [|by intros ->]. intros E. pose proof (sort_strings_perm l) as Hp. rewrite E in Hp. by apply Permutation_nil_l in Hp. Qed.

Lemma checkSnapshotDisks_runs name nodes s : runs s (checkSnapshotDisks fault name nodes) (fun s' r =>
  unwritten s s' /\ (r = Ok tt -> exists files t, snaps s !! name = Some (SnapDir files t) /\ images_match files nodes) /\
  (nofault -> forall files t, snaps s !! name = Some (SnapDir files t) -> images_match files nodes -> r = Ok tt)).
Proof.
  apply runs_bind. eapply runs_conseq; [apply read_snapshot_dir_runs|]. intros s1 [entries|e] (Hu & Hr & Hn).
  2: { split_and!; [done|done|]. intros Hf files t Hs. discriminate (Hn Hf files t Hs). }
  destruct (Hr _ eq_refl) as (files & t & Hs & ->). apply runs_bind. unfold runs at 1, lift. cbn [fst snd].
  set (images := list_to_set _).
  assert (forall e, e ∈ images <-> is_image e = true /\ is_Some (files !! e)) as Him.
  { intros e. unfold images. by rewrite elem_of_list_to_set, list_elem_of_filter, elem_of_names. }
  destruct (check_nodes name nodes images) as [left|err] eqn:Ec.
  - apply check_nodes_spec in Ec as (C1 & C2 & ->).
    assert (images ∖ list_to_set ((image ∘ n_Name) <$> nodes) = ∅ <-> images_match files nodes) as Hleft.
    { split.
      - intros E. split; [done|]. intros e He. split.
        + intros Hse. assert (e ∈ images) as H by (by apply Him). destruct (decide (e ∈ (image ∘ n_Name) <$> nodes)) as [(n & -> & Hi)%list_elem_of_fmap|Hni]; [eauto|]. set_solver.
        + intros (n & Hi & ->). by apply Him, C2.
      - intros [_ Hm]. apply set_eq. intros e. split; [|set_solver]. intros [[H1 H2]%Him H3]%elem_of_difference. destruct H3.
        apply Hm in H2 as (n & Hi & ->); [|done]. apply elem_of_list_to_set. by apply (list_elem_of_fmap_2 (image ∘ n_Name)). }
    destruct (sort_strings (elements _)) as [|stray l] eqn:Es; unfold runs; cbn.
    + apply sort_strings_nil, elements_empty_iff, leibniz_equiv_iff in Es. split_and!; [done| |done]. intros _. exists files, t. split; [done|]. by apply Hleft.
    + split_and!; [done|done|]. intros _ files' t' Hs' Hm. assert (files' = files) as -> by congruence. apply Hleft in Hm.
      rewrite Hm, elements_empty in Es. discriminate Es.
  - split_and!; [done|done|]. intros _ files' t' Hs' [Hm1 Hm2]. assert (files' = files) as -> by congruence.
    assert (check_nodes name nodes images = Ok (images ∖ list_to_set ((image ∘ n_Name) <$> nodes))) as Ec'; [|congruence].
    apply check_nodes_spec. split_and!; [done| |done]. intros n Hi. apply Him. split; [apply image_is_image|].
    apply Hm2; [apply image_is_image|eauto].
Qed.

(** *** Restoring *)

Lemma read_live_dir_runs s : runs s (read_live_dir fault short) (fun s' r =>
  unwritten s s' /\ exists l, r = Ok l /\ (nofault -> l = names (live s))).
Proof.
  unfold read_live_dir, runs, mbind, M_bind, get, step, mret, M_ret. cbn. split; [done|]. eexists. split; [done|].
  intros Hn. by rewrite Hn.
Qed.

(** Replacing the state file: the old one goes first. *)
Lemma restore_state_runs name s :
  runs s (r ← attempt (remove fault stateFile);
          _ ← match r with Err NotExist | Ok _ => mret tt | Err e => fail e end;
          copyFile fault short (SnapFile name stateFile) (LiveFile stateFile)) (fun s' r =>
    same_off (fun g => g = stateFile) s s' /\
    (r = Ok tt -> live s' !! stateFile = file_at s (SnapFile name stateFile)) /\
    (nofault -> is_Some (file_at s (SnapFile name stateFile)) -> r = Ok tt)).
Proof.
  apply runs_bind, runs_attempt. eapply runs_conseq; [apply remove_runs|]. intros s1 r (H1 & Hr & Hn).
  assert (forall s2, live s2 !! stateFile = None -> same_off (fun g => g = stateFile) s s2 -> runs s2 (copyFile fault short (SnapFile name stateFile) (LiveFile stateFile)) (fun s' r =>
    same_off (fun g => g = stateFile) s s' /\
    (r = Ok tt -> live s' !! stateFile = file_at s (SnapFile name stateFile)) /\
    (nofault -> is_Some (file_at s (SnapFile name stateFile)) -> r = Ok tt))) as Hcopy.
  { intros s2 E2 S2. eapply runs_conseq; [apply copyFile_runs|]. intros s3 r3 (C1 & C2 & C3).
    assert (file_at s2 (SnapFile name stateFile) = file_at s (SnapFile name stateFile)) as Ef by (cbn; by rewrite (proj1 S2)).
    rewrite Ef in *. split_and!; [eapply same_off_trans; [exact S2|exact C1|tauto]| |auto]. intros ->. apply C2. }
  destruct r as [[]|e].
  - apply runs_bind, runs_ret. by apply Hcopy.
  - destruct Hr as [Hl He]. apply runs_bind. destruct e; unfold runs at 1, fail, mret, M_ret; cbn [fst snd];
      try (split_and!; [done|done|by intros Hf; discriminate (Hn Hf)]). apply Hcopy; [rewrite Hl; by apply He|done].
Qed.

Lemma sound_captures s name files nodes : captures s name files nodes -> forall f t, snaps s !! name = Some (SnapDir f t) -> f = files.
Proof. intros [(t' & Ht) _] f t E. congruence. Qed.

Definition captured_images (files : gmap string sparse) : list string := filter (fun e => is_image e = true) (names files).

Lemma elem_of_captured files e : e ∈ captured_images files <-> is_image e = true /\ is_Some (files !! e).
Proof. unfold captured_images. by rewrite list_elem_of_filter, elem_of_names. Qed.

(** How far a restore got. *)
Inductive restore_reach (name : string) (files : gmap string sparse) (s s' : St) : result snap_error unit -> Prop :=
| StoppedBeforeSwap e : same_off is_temp s s' -> restore_reach name files s s' (Err e)
| StoppedInSwap e done_ rest : captured_images files = done_ ++ rest ->
    same_off (fun g => is_temp g \/ g ∈ done_) s s' -> (forall e, e ∈ done_ -> live s' !! e = files !! e) ->
    restore_reach name files s s' (Err e)
| Swapped r : same_off (fun g => is_temp g \/ is_image g = true \/ g = stateFile) s s' ->
    (forall e, e ∈ captured_images files -> live s' !! e = files !! e) ->
    (forall g, is_image g = true -> g ∉ captured_images files -> live s' !! g = live s !! g \/ live s' !! g = None) ->
    (r = Ok tt -> live s' !! stateFile = files !! stateFile) ->
    (nofault -> forall g, is_image g = true -> g ∉ captured_images files -> live s' !! g = None) ->
    restore_reach name files s s' r.

Definition restorable (s : St) (clusterName name : string) (files : gmap string sparse) (nodes : list Node) : Prop :=
  good_name clusterName name /\ captures s name files nodes /\ images_match files nodes /\
  forall e, is_Some (files !! e) -> live s !! restoring e = None.

(** The part of a restore after the swap. *)
Lemma restore_tail_runs name files t s0 s :
  snaps s0 !! name = Some (SnapDir files t) -> same_off (fun g => is_temp g \/ g ∈ captured_images files) s0 s ->
  (forall e, e ∈ captured_images files -> live s !! e = files !! e) ->
  runs s (liveEntries ← read_live_dir fault short;
          _ ← each liveEntries (fun e => if is_image e && negb (bool_decide (e ∈ captured_images files)) then remove_ignored fault e else mret tt);
          r ← attempt (remove fault stateFile);
          _ ← match r with Err NotExist | Ok _ => mret tt | Err e => fail e end;
          copyFile fault short (SnapFile name stateFile) (LiveFile stateFile)) (fun s' r =>
    restore_reach name files s0 s' r /\ (nofault -> is_Some (files !! stateFile) -> r = Ok tt)).
Proof.
  intros Hd H0 Hin. apply runs_bind. eapply runs_conseq; [apply read_live_dir_runs|]. intros s1 r1 ((U1 & U2 & U3) & l & -> & Hl).
  apply runs_bind. eapply runs_conseq; [apply remove_uncaptured_runs|]. intros s2 r2 (-> & R1 & R2 & R3).
  eapply runs_conseq; [apply restore_state_runs|]. intros s3 r3 (T1 & T2 & T3).
  assert (same_off (fun g => is_image g = true /\ g ∉ captured_images files) s s2) as R1' by (by eapply same_off_trans; [apply (unwritten_off (fun _ => False)); split_and!; eassumption|exact R1|intros g [[]|?]]).
  assert (file_at s2 (SnapFile name stateFile) = files !! stateFile) as Ef.
  { cbn. rewrite (proj1 R1'), (proj1 H0), Hd. done. }
  rewrite Ef in *. split; [|done]. apply Swapped.
  - eapply same_off_trans; [eapply same_off_trans; [exact H0|exact R1'|intros g Hg; exact Hg]|exact T1|].
    cbn. intros g [[[Hg|Hg%elem_of_captured]|Hg]| ->]; tauto.
  - intros e He. rewrite (proj2 (proj2 T1)), (proj2 (proj2 R1')); [by apply Hin|tauto|].
    intros ->. by apply elem_of_captured in He as [? _].
  - intros g Hg Hng. rewrite (proj2 (proj2 T1)) by (by intros ->). rewrite U1 in R2. destruct (R2 g) as [->|E]; [left|by right].
    apply H0. intros [(x & ->)|?]; [by eapply restoring_not_image|done].
  - done.
  - intros Hf g Hg Hng. rewrite (proj2 (proj2 T1)) by (by intros ->). destruct (live s1 !! g) as [c|] eqn:Eg.
    + apply R3; try done. rewrite (Hl Hf), <- U1. apply elem_of_names. by eexists.
    + destruct (R2 g) as [->|?]; done.
Qed.

(** The checks before anything is touched: what follows runs on a sound snapshot. *)
Lemma validated_runs item name s (k : list string -> M unit) Q :
  (forall s' e, unwritten s s' -> (nofault -> forall files nodes, restorable s (c_Name item) name files nodes -> False) -> Q s' (Err e)) ->
  (forall s' files t nodes, unwritten s s' -> captures s name files nodes -> snaps s !! name = Some (SnapDir files t) ->
     images_match files nodes -> runs s' (k (names files)) Q) ->
  runs s (_ ← snapshotDir fault (c_Name item) name;
          nodes ← readSnapshotState fault unmarshal (c_Name item) name;
          _ ← checkSnapshotDisks fault name nodes;
          _ ← Dir fault (c_Name item);
          entries ← read_snapshot_dir fault name;
          k entries) Q.
Proof.
  intros Herr Hk.
  apply runs_bind. eapply runs_conseq; [apply snapshotDir_runs|]. intros s1 [[]|e] (U1 & _ & N1).
  2: { apply Herr; [done|]. intros Hf files nodes (Hg & _). discriminate (N1 Hf Hg). }
  apply runs_bind. eapply runs_conseq; [apply readSnapshotState_runs|]. intros s2 [nodes|e] (U2 & R2 & N2).
  2: { apply Herr; [by eapply unwritten_trans|]. intros Hf files nodes (Hg & Hc & _).
       unfold captures in *. rewrite <- (proj1 (proj2 U1)) in Hc. discriminate (N2 Hf Hg _ _ Hc). }
  assert (unwritten s s2) as Hu2 by (by eapply unwritten_trans). destruct (R2 _ eq_refl) as (files & Hcap).
  assert (captures s name files nodes) as Hc by (unfold captures in *; by rewrite <- (proj1 (proj2 U1))).
  apply runs_bind. eapply runs_conseq; [apply checkSnapshotDisks_runs|]. intros s3 [[]|e] (U3 & R3 & N3).
  2: { apply Herr; [by eapply unwritten_trans|]. intros Hf files' nodes' (Hg & [(t & Ht) (d & Hd & Hm)] & Him & _).
       destruct Hc as [(t' & Ht') (d' & Hd' & Hm')]. assert (files' = files) as -> by congruence.
       assert (nodes' = nodes) as -> by congruence. rewrite <- (proj1 (proj2 Hu2)) in Ht. discriminate (N3 Hf _ _ Ht Him). }
  assert (unwritten s s3) as Hu3 by (by eapply unwritten_trans). destruct (R3 eq_refl) as (f3 & t & Ht & Him).
  rewrite (proj1 (proj2 Hu2)) in Ht. assert (f3 = files) as -> by (by eapply sound_captures).
  apply runs_bind. eapply runs_conseq; [apply Dir_runs|]. intros s4 [[]|e] [U4 N4].
  2: { apply Herr; [by eapply unwritten_trans|]. intros Hf ? ? ((Hv & _) & _). discriminate (N4 Hf Hv). }
  assert (unwritten s s4) as Hu4 by (by eapply unwritten_trans).
  apply runs_bind. eapply runs_conseq; [apply read_snapshot_dir_runs|]. intros s5 [entries|e] (U5 & R5 & N5).
  2: { apply Herr; [by eapply unwritten_trans|]. intros Hf f' n' (_ & [(t' & Ht') _] & _).
       rewrite <- (proj1 (proj2 Hu4)) in Ht'. discriminate (N5 Hf _ _ Ht'). }
  destruct (R5 _ eq_refl) as (f5 & t5 & Ht5 & ->). rewrite (proj1 (proj2 Hu4)) in Ht5.
  assert (f5 = files) as -> by (by eapply sound_captures). eapply Hk; [by eapply unwritten_trans|done|done|done].
Qed.

Lemma restore_runs item name s :
  runs s (RestoreSnapshot fault short cloning unmarshal item name) (fun s' r =>
    ((exists e, r = Err e) /\ unwritten s s' \/
     exists files nodes, captures s name files nodes /\ images_match files nodes /\ restore_reach name files s s' r) /\
    (nofault -> forall files nodes, restorable s (c_Name item) name files nodes -> r = Ok tt)).
Proof.
  apply validated_runs.
  { intros s' e Hu Hno. split; [left; eauto|]. intros Hf files nodes Hr. destruct (Hno Hf _ _ Hr). }
  intros s5 files t nodes Hu5 Hc Ht Him.
  apply runs_bind. eapply runs_conseq; [apply (stage_runs name files t)|].
  { by rewrite (proj1 (proj2 Hu5)). } { by intros e ?%not_elem_of_nil. } { cbn. apply NoDup_names. }
  intros s6 r6 (S1 & S2 & S3). rewrite (proj1 Hu5) in S3.
  assert (same_off is_temp s s6) as H6 by (by eapply same_off_trans; [apply (unwritten_off is_temp), Hu5|exact S1|tauto]).
  destruct r6 as [staged|e].
  2: { split; [right; exists files, nodes; split_and!; [done|done|by apply StoppedBeforeSwap]|]. intros Hf f' n' (_ & [(t' & Ht') _] & _ & Hfree).
       assert (f' = files) as -> by congruence. exfalso. cut (false = true); [done|]. apply S3; [done|]. intros x Hx%elem_of_names. split; [done|by apply Hfree]. }
  cbn [app] in S2. destruct S2 as [-> Hst]. fold (captured_images files) in *.
  apply runs_bind. eapply runs_conseq; [apply (swap_runs files); [done|apply NoDup_filter, NoDup_names|by intros x [? _]%elem_of_captured]|].
  intros s7 r7 (done_ & rest & Esp & W1 & W2 & W3 & W4).
  assert (same_off (fun g => is_temp g \/ g ∈ done_) s s7) as H7 by (by eapply same_off_trans; [exact H6|exact W1|tauto]).
  destruct r7 as [[]|e].
  2: { split; [right; exists files, nodes; split_and!; [done|done|by eapply StoppedInSwap]|]. intros Hf. discriminate (W4 Hf). }
  rewrite (W3 eq_refl), app_nil_r in Esp. rewrite <- Esp in *.
  eapply runs_conseq; [by apply (restore_tail_runs name files t s)|]. intros s8 r8 [Hr Hn]. split; [right; eauto|].
  intros Hf f' n' (_ & [(t' & Ht') (d & Hd & _)] & _). assert (f' = files) as -> by congruence. apply Hn; [done|by eexists].
Qed.

(** *** Creating *)

(** A copy of a live file into a directory under snapshots/: only that directory's file
    changes, and on success it is whole. *)
Definition copied_in (d f : string) (files : gmap string sparse) (t : Z) (s s' : St) (r : result snap_error unit) : Prop :=
  live s' = live s /\ (exists files', snaps s' = <[d := SnapDir files' t]> (snaps s) /\
    (r = Ok tt -> exists c, live s !! f = Some c /\ files' = <[f := c]> files)) /\
  (nofault -> is_Some (live s !! f) -> files !! f = None -> r = Ok tt).

Lemma copied_in_same d f files t s s' e :
  snaps s !! d = Some (SnapDir files t) -> live s' = live s -> snaps s' = snaps s ->
  (nofault -> is_Some (live s !! f) -> files !! f = None -> False) -> copied_in d f files t s s' (Err e).
Proof.
  intros Hd E1 E2 Hno. split_and!; [done| |intros H1 H2 H3; destruct (Hno H1 H2 H3)].
  exists files. split; [|done]. rewrite E2. symmetry. by apply insert_id.
Qed.

Lemma copyFile_in_runs d f files t s : snaps s !! d = Some (SnapDir files t) ->
  runs s (copyFile fault short (LiveFile f) (SnapFile d f)) (copied_in d f files t s).
Proof.
  intros Hd. unfold copyFile, runs, mbind, M_bind, get, step, guard_io, fail, modify, mret, M_ret; cbn.
  destruct (live s !! f) as [c|] eqn:Ec; cbn; [|apply copied_in_same; [done|done|done|]; by rewrite Ec; intros _ [? ?]].
  destruct (fault (tick s)) eqn:F1; cbn; [apply copied_in_same; [done|done|done|]; intros Hn; by rewrite Hn in F1|].
  rewrite Hd. destruct (fault (S (tick s))) eqn:F2; cbn; [apply copied_in_same; [done|done|done|]; intros Hn; by rewrite Hn in F2|].
  case_bool_decide as Hx; cbn; [apply copied_in_same; [done|done|done|]; intros _ _ E; rewrite E in Hx; by destruct Hx|].
  destruct (fault (S (S (tick s)))) eqn:F3; cbn; rewrite Hd; cbn.
  { split_and!; [done|eexists; by split|]. intros Hn. by rewrite Hn in F3. }
  destruct (fault (S (S (S (tick s))))) eqn:F4; cbn.
  { split_and!; [done|eexists; by split|]. intros Hn. by rewrite Hn in F4. }
  split_and!; [done| |done]. eexists. split; [done|]. intros _. by exists c.
Qed.

Lemma cloneFile_in_runs d f files t s : snaps s !! d = Some (SnapDir files t) ->
  runs s (cloneFile fault cloning (LiveFile f) (SnapFile d f)) (fun s' r =>
    match r with Ok _ => copied_in d f files t s s' r | Err _ => live s' = live s /\ snaps s' = snaps s end).
Proof.
  intros Hd. unfold cloneFile. destruct cloning; [|done].
  unfold runs, mbind, M_bind, get, step, guard_io, fail, modify, mret, M_ret; cbn.
  destruct (live s !! f) as [c|] eqn:Ec; cbn; [|done].
  rewrite Hd. destruct (fault (tick s)); cbn; [done|]. case_bool_decide as Hx; cbn; [done|]. rewrite Hd. cbn.
  split_and!; [done| |done]. eexists. split; [done|]. intros _. by exists c.
Qed.

Lemma cloneOrCopy_in_runs d f files t s : snaps s !! d = Some (SnapDir files t) ->
  runs s (cloneOrCopy fault short cloning (LiveFile f) (SnapFile d f)) (copied_in d f files t s).
Proof.
  intros Hd. apply runs_bind, runs_attempt. eapply runs_conseq; [by apply cloneFile_in_runs|]. intros s1 [[]|e] Hr; [done|].
  destruct Hr as [E1 E2]. eapply runs_conseq; [apply (copyFile_in_runs d f files t); by rewrite E2|].
  unfold copied_in. rewrite E1, E2. done.
Qed.

(** The files a complete snapshot of [nodes] holds, out of the live ones. *)
Definition cloned (fs : list string) (s : St) (files files' : gmap string sparse) : Prop :=
  (forall f, f ∈ fs -> is_Some (live s !! f)) /\
  forall g, files' !! g = if decide (g ∈ fs) then live s !! g else files !! g.

Lemma clone_nodes_runs d t nodes : forall s files, snaps s !! d = Some (SnapDir files t) ->
  runs s (each nodes (fun node => cloneOrCopy fault short cloning (LiveFile (image (n_Name node))) (SnapFile d (image (n_Name node))))) (fun s' r =>
    live s' = live s /\ (exists files', snaps s' = <[d := SnapDir files' t]> (snaps s) /\
      (r = Ok tt -> cloned ((image ∘ n_Name) <$> nodes) s files files')) /\
    (nofault -> (forall n, n ∈ nodes -> is_Some (live s !! image (n_Name n)) /\ files !! image (n_Name n) = None) ->
       NoDup (n_Name <$> nodes) -> r = Ok tt)).
Proof.
  induction nodes as [|node nodes IH]; intros s files Hd; cbn [each].
  { apply runs_ret. split_and!; [done| |done]. exists files. split; [by rewrite insert_id|]. intros _. split; [by intros f ?%not_elem_of_nil|].
    intros g. by destruct (decide (g ∈ _)) as [?%not_elem_of_nil|]. }
  apply runs_bind. eapply runs_conseq; [by apply cloneOrCopy_in_runs|]. intros s1 [[]|e] (E1 & (f1 & E2 & Hok) & Hn).
  2: { split_and!; [done|exists f1; by split|]. intros Hf Hall _. destruct (Hall node (list_elem_of_here _ _)). discriminate Hn; done. }
  destruct (Hok eq_refl) as (c & Hc & ->). eapply runs_conseq; [apply IH; rewrite E2; apply lookup_insert_eq|].
  rewrite E1, E2. intros s2 r (H1 & (f2 & H2 & H3) & H4). split_and!; [done| |].
  - exists f2. split; [by rewrite insert_insert_eq in H2|]. intros Hr. destruct (H3 Hr) as [C1 C2]. split.
    + cbn. intros f [->|Hf]%elem_of_cons; [by eexists|]. rewrite <- E1. by apply C1.
    + intros g. rewrite C2, E1. cbn. destruct (decide (g ∈ (image ∘ n_Name) <$> nodes)) as [Hg|Hg].
      * rewrite decide_True; [done|by apply list_elem_of_further].
      * destruct (decide (g = image (n_Name node))) as [->|Hne].
        -- rewrite lookup_insert_eq, decide_True; [done|apply list_elem_of_here].
        -- rewrite lookup_insert_ne by done. rewrite decide_False; [done|]. by intros [?|?]%elem_of_cons.
  - intros Hf Hall [Hnd1 Hnd2]%NoDup_cons. apply H4; [done| |done]. intros n Hin.
    destruct (Hall n (list_elem_of_further _ _ _ Hin)) as [A1 A2]. split; [done|]. rewrite lookup_insert_ne; [done|].
    intros E%image_inj. apply Hnd1. rewrite E. by apply list_elem_of_fmap_2.
Qed.

Definition snap_tmp (suffix : string) : string := (".snap-" +:+ suffix)%string.

Lemma name_not_tmp name suffix : snapshotNameRe name = true -> name <> snap_tmp suffix.
Proof. intros Hn ->. discriminate Hn. Qed.

(** A snapshot of [item] taken when the files were those of [s]. *)
Definition complete (item : Cluster) (s : St) (files : gmap string sparse) : Prop :=
  is_Some (live s !! stateFile) /\ cloned (stateFile :: ((image ∘ n_Name) <$> c_Nodes item)) s ∅ files.

Lemma complete_of_clones item s files c :
  cloned ((image ∘ n_Name) <$> c_Nodes item) s ∅ files -> live s !! stateFile = Some c -> complete item s (<[stateFile := c]> files).
Proof.
  intros [C1 C1'] Hc. split; [by eexists|]. split.
  - intros f [->|Hf]%elem_of_cons; [by eexists|by apply C1].
  - intros g. destruct (decide (g = stateFile)) as [->|Hne].
    + rewrite lookup_insert_eq, decide_True; [done|apply list_elem_of_here].
    + rewrite lookup_insert_ne, C1' by done. destruct (decide (g ∈ (image ∘ n_Name) <$> c_Nodes item)) as [Hg|Hg].
      * rewrite decide_True; [done|by apply list_elem_of_further].
      * rewrite decide_False; [done|]. by intros [?|?]%elem_of_cons.
Qed.

(** The work in the temporary directory, up to the rename. *)
Lemma create_body_runs now suffix item name s :
  snapshotNameRe name = true -> snaps s !! snap_tmp suffix = Some (SnapDir ∅ now) ->
  runs s (_ ← each (c_Nodes item) (fun node => cloneOrCopy fault short cloning (LiveFile (image (n_Name node))) (SnapFile (snap_tmp suffix) (image (n_Name node))));
    _ ← copyFile fault short (LiveFile stateFile) (SnapFile (snap_tmp suffix) stateFile);
    f ← step fault;
    s ← get;
    _ ← guard_io IOFailed f;
    match snaps s !! snap_tmp suffix, snaps s !! name with
    | Some d, None => modify (fun s => with_snaps (<[name := d]> (delete (snap_tmp suffix) (snaps s))) s)
    | Some d, Some (SnapDir files _) =>
        if decide (files = ∅) then modify (fun s => with_snaps (<[name := d]> (delete (snap_tmp suffix) (snaps s))) s) else fail IOFailed
    | _, _ => fail IOFailed
    end) (fun s' r =>
    live s' = live s /\ (forall d, d <> name -> d <> snap_tmp suffix -> snaps s' !! d = snaps s !! d) /\
    match r with
    | Ok _ => (snaps s !! name = None \/ exists t, snaps s !! name = Some (SnapDir ∅ t)) /\
              exists files, snaps s' !! name = Some (SnapDir files now) /\ complete item s files
    | Err _ => snaps s' !! name = snaps s !! name
    end /\
    (nofault -> (forall n, n ∈ c_Nodes item -> is_Some (live s !! image (n_Name n))) -> is_Some (live s !! stateFile) ->
       NoDup (n_Name <$> c_Nodes item) -> snaps s !! name = None -> r = Ok tt)).
Proof.
  intros Hre Hd. pose proof (name_not_tmp name suffix Hre) as Hnt.
  apply runs_bind. eapply runs_conseq; [by apply clone_nodes_runs|]. intros s1 r1 (L1 & (f1 & E1 & C1) & N1).
  assert (forall m, <[snap_tmp suffix := m]> (snaps s) !! name = snaps s !! name) as Hname by (intros; by apply lookup_insert_ne).
  assert (forall m d, d <> name -> d <> snap_tmp suffix -> <[snap_tmp suffix := m]> (snaps s) !! d = snaps s !! d) as Hoth by (intros; by apply lookup_insert_ne).
  destruct r1 as [[]|e].
  2: { rewrite E1. split_and!; [done|by apply Hoth|by apply Hname|]. intros Hf Hi _ Hnd _. discriminate N1; [done| |done]. intros n Hn. split; [by apply Hi|done]. }
  specialize (C1 eq_refl). destruct C1 as [C1 C1'].
  apply runs_bind. eapply runs_conseq; [apply (copyFile_in_runs (snap_tmp suffix) stateFile f1 now); rewrite E1; apply lookup_insert_eq|].
  intros s2 r2 (L2 & (f2 & E2 & C2) & N2). rewrite E1, insert_insert_eq in E2. rewrite L1 in *.
  assert (f1 !! stateFile = None) as Hfresh.
  { rewrite C1', decide_False; [done|]. intros (n & E & _)%list_elem_of_fmap. by pose proof (image_is_image (n_Name n)) as H; cbn in E; rewrite <- E in H. }
  destruct r2 as [[]|e].
  2: { rewrite ?E2. split_and!; [done|by apply Hoth|by apply Hname|]. intros Hf _ Hs _ _. discriminate N2; done. }
  destruct (C2 eq_refl) as (c & Hc & ->).
  unfold runs, mbind, M_bind, get, step, guard_io, fail, modify, mret, M_ret; cbn. rewrite E2.
  destruct (fault (tick s2)) eqn:F; cbn.
  { rewrite ?E2. split_and!; [done|by apply Hoth|by apply Hname|]. intros Hf. by rewrite Hf in F. }
  rewrite lookup_insert_eq, Hname.
  assert (complete item s (<[stateFile := c]> f1)) as Hcomp by (by apply complete_of_clones).
  assert (forall d, d <> name -> d <> snap_tmp suffix ->
    <[name := SnapDir (<[stateFile := c]> f1) now]> (delete (snap_tmp suffix) (<[snap_tmp suffix := SnapDir (<[stateFile := c]> f1) now]> (snaps s))) !! d = snaps s !! d) as Hoth2.
  { intros d H1 H2. by rewrite lookup_insert_ne, lookup_delete_ne, lookup_insert_ne by done. }
  destruct (snaps s !! name) as [[files tn|]|] eqn:En; cbn.
  - destruct (decide (files = ∅)) as [->|Hne]; cbn.
    + rewrite ?E2. split_and!; [done|done|right; by eexists| |done]. eexists. by rewrite lookup_insert_eq.
    + rewrite ?E2. split_and!; [done|by apply Hoth|by rewrite Hname|done].
  - rewrite ?E2. split_and!; [done|by apply Hoth|by rewrite Hname|done].
  - rewrite ?E2. split_and!; [done|done|by left| |done]. eexists. by rewrite lookup_insert_eq.
Qed.

(** What a creation leaves: the live files as they were, and under snapshots/ nothing
    changed but the temporary and, whole, the new snapshot. *)
Definition created (now : Z) (suffix : string) (item : Cluster) (name : string) (s s' : St) (r : result snap_error unit) : Prop :=
  live s' = live s /\ (forall d, d <> name -> d <> snap_tmp suffix -> snaps s' !! d = snaps s !! d) /\
  (snaps s' !! name = snaps s !! name \/
   (snaps s !! name = None \/ exists t, snaps s !! name = Some (SnapDir ∅ t)) /\
   exists files, snaps s' !! name = Some (SnapDir files now) /\ complete item s files) /\
  (r = Ok tt -> exists files, snaps s' !! name = Some (SnapDir files now) /\ complete item s files).

Lemma created_unwritten now suffix item name s s' e :
  unwritten s s' -> created now suffix item name s s' (Err e).
Proof. intros (E1 & E2 & _). unfold created. rewrite E1, E2. split_and!; [done|done|by left|done]. Qed.

Lemma create_runs now suffix item name s :
  runs s (CreateSnapshot fault short cloning now suffix item name) (fun s' r =>
    created now suffix item name s s' r /\
    (nofault -> good_name (c_Name item) name -> (forall n, n ∈ c_Nodes item -> is_Some (live s !! image (n_Name n))) ->
       is_Some (live s !! stateFile) -> NoDup (n_Name <$> c_Nodes item) -> snaps s !! name = None -> snaps s !! snap_tmp suffix = None ->
       r = Ok tt)).
Proof.
  apply runs_bind. eapply runs_conseq; [apply snapshotDir_runs|]. intros s1 [[]|e] (U1 & Hre & N1).
  2: { split; [by apply created_unwritten|]. intros Hf Hg. discriminate (N1 Hf Hg). }
  specialize (Hre eq_refl). pose proof (name_not_tmp name suffix Hre) as Hnt.
  apply runs_bind, runs_step. apply runs_bind. unfold runs at 1, get. cbn [fst snd]. apply runs_bind.
  destruct (negb (fault (tick s1)) && _) eqn:G1; unfold runs at 1, guard_io, fail, mret, M_ret; cbn [fst snd].
  { split; [by apply created_unwritten|]. intros _ _ _ _ _ Hno. cbn in G1. rewrite (proj1 (proj2 U1)), Hno in G1.
    rewrite bool_decide_eq_false_2, andb_false_r in G1; [done|by intros [? ?]]. }
  set (s2 := mkSt _ _ _ _). assert (unwritten s s2) as U2 by done. clear G1.
  apply runs_bind. eapply runs_conseq; [apply Dir_runs|]. intros s3 [[]|e] [U3 N3].
  2: { split; [apply created_unwritten; by eapply unwritten_trans|]. intros Hf [Hv _]. discriminate (N3 Hf Hv). }
  assert (unwritten s s3) as Hu3 by (by eapply unwritten_trans). clear U3 N3.
  apply runs_bind, runs_step, runs_bind.
  destruct (fault (tick s3)) eqn:F3; unfold runs at 1, guard_io, fail, mret, M_ret; cbn [fst snd].
  { split; [by apply created_unwritten|]. intros Hf. by rewrite Hf in F3. }
  apply runs_bind, runs_step, runs_bind. unfold runs at 1, get. cbn [fst snd]. cbv zeta. fold (snap_tmp suffix). apply runs_bind.
  destruct (fault _ || _) eqn:G2; unfold runs at 1, guard_io, fail, mret, M_ret; cbn [fst snd].
  { split; [by apply created_unwritten|]. intros Hf _ _ _ _ _ Hno. cbn in G2. rewrite Hf, (proj1 (proj2 Hu3)), Hno in G2.
    discriminate G2. }
  apply runs_bind. unfold runs at 1, modify. cbn [fst snd live snaps tick cache with_snaps].
  destruct Hu3 as (L3 & S3 & K3). rewrite L3, S3. set (s4 := with_snaps _ _).
  apply runs_bind, runs_attempt. eapply runs_conseq; [apply (create_body_runs now suffix); [done|apply lookup_insert_eq]|].
  intros s5 r5 (L5 & O5 & R5 & N5). apply runs_bind, runs_step, runs_bind. unfold runs at 1, modify. cbn [fst snd].
  unfold runs, lift. cbn [fst snd]. set (s6 := if fault _ then _ else _).
  assert (live s6 = live s /\ forall d, d <> snap_tmp suffix -> snaps s6 !! d = snaps s5 !! d) as [L6 O6].
  { unfold s6. match goal with |- context [if ?b then _ else _] => destruct b end; cbn; (split; [exact L5|]); [done|]. intros d Hdd. by apply lookup_delete_ne. }
  assert (forall d, d <> snap_tmp suffix -> snaps s4 !! d = snaps s !! d) as O4 by (intros d Hdd; cbn; by apply lookup_insert_ne).
  rewrite (O4 name Hnt) in *. split.
  - split_and!; [done|intros d H1 H2; by rewrite O6, O5, O4 by done| |].
    + rewrite O6 by done. destruct r5 as [[]|e]; [by right|by left].
    + intros ->. rewrite O6 by done. apply R5.
  - intros Hf _ H1 H2 H3 H4 _. by apply N5.
Qed.
End Proofs.

(** ** Theorems *)

Section Theorems.
Context (fault : nat -> bool) (short : nat -> Z) (cloning : bool) (unmarshal : sparse -> option (list Node)).

(** A snapshot appears whole or not at all, whatever fails.  Creating one never
    touches the live files nor another snapshot; under its own name there is afterwards
    what was there, or, where nothing was (or an empty directory), exactly the disks of
    the cluster's nodes and its state as they were when it started, and the latter when
    it reports success; the directory it works in is one that no listing shows. *)
Theorem snapshot_create_atomic now suffix item name s s' r :
  CreateSnapshot fault short cloning now suffix item name s = (s', r) ->
  live s' = live s /\
  (forall d, d <> name -> d <> snap_tmp suffix -> snaps s' !! d = snaps s !! d) /\
  hidden (snap_tmp suffix) = true /\
  (snaps s' !! name = snaps s !! name \/
   (snaps s !! name = None \/ exists t, snaps s !! name = Some (SnapDir ∅ t)) /\
   exists files, snaps s' !! name = Some (SnapDir files now) /\ complete item s files) /\
  (r = Ok tt -> exists files, snaps s' !! name = Some (SnapDir files now) /\ complete item s files).
Proof.
  intros E. pose proof (create_runs fault short cloning now suffix item name s) as Hc. unfold runs in Hc. rewrite E in Hc.
  cbn [fst snd] in Hc. destruct Hc as [(H1 & H2 & H3 & H4) _]. by split_and!.
Qed.

(** How a restore changes the images: each as it was, restored whole, or removed. *)
Lemma reach_image name files s s' r g :
  restore_reach fault name files s s' r -> is_image g = true ->
  live s' !! g = live s !! g \/ live s' !! g = files !! g.
Proof.
  intros Hr Hg. assert (~ is_temp g) as Hnt by (intros (t & ->); by apply (restoring_not_image t (restoring t))).
  destruct Hr as [e (_ & _ & H)|e done_ rest Es (_ & _ & H) Hd|r (_ & _ & _) Hin Hout _ _].
  - left. by apply H.
  - destruct (decide (g ∈ done_)); [right; by apply Hd|left; apply H; tauto].
  - destruct (decide (g ∈ captured_images files)) as [Hi|Hi]; [right; by apply Hin|]. destruct (Hout g Hg Hi) as [?|E]; [by left|right].
    rewrite E. symmetry. apply eq_None_not_Some. intros Hs. by apply Hi, elem_of_captured.
Qed.

(** When a live disk is gone or the state file changed, every captured disk is back. *)
Lemma reach_destructive name files s s' r :
  restore_reach fault name files s s' r ->
  live s' !! stateFile <> live s !! stateFile \/ (exists g, is_image g = true /\ is_Some (live s !! g) /\ live s' !! g = None) \/ r = Ok tt ->
  forall e, is_image e = true -> is_Some (files !! e) -> live s' !! e = files !! e.
Proof.
  assert (~ is_temp stateFile) as Hns by (by intros (t & E); symmetry in E; apply restoring_not_state in E).
  intros Hr Hc e He Hs. assert (e ∈ captured_images files) as Hin by (by apply elem_of_captured).
  assert (forall g, is_image g = true -> ~ is_temp g) as Hnt by (intros g Hg (t & ->); by apply (restoring_not_image t (restoring t))).
  destruct Hr as [err (_ & _ & H)|err done_ rest Es (_ & _ & H) Hd|r (_ & _ & H) H1 H2 _ _]; [| |by apply H1].
  - exfalso. destruct Hc as [Hc|[(g & Hg & [c Hgc] & Hgn)|?]]; [apply Hc; by apply H| |done]. rewrite H in Hgn by auto. congruence.
  - exfalso. destruct Hc as [Hc|[(g & Hg & [c Hgc] & Hgn)|?]]; [|destruct (decide (g ∈ done_)) as [Hi|Hi]|done].
    + apply Hc, H. intros [?|Hi]; [done|]. assert (stateFile ∈ captured_images files) as [? _]%elem_of_captured; [|done].
      rewrite Es. apply elem_of_app. by left.
    + rewrite (Hd _ Hi) in Hgn. assert (g ∈ captured_images files) as [_ [? ?]]%elem_of_captured; [|congruence].
      rewrite Es. apply elem_of_app. by left.
    + rewrite H in Hgn; [congruence|]. intros [?|?]; [by apply (Hnt g)|done].
Qed.


(** C31: a snapshot restores.  With nothing failing, creating a snapshot of a cluster whose
    disks and state are there succeeds, and restoring it, whatever happened to the live
    files since (short of a staging file left behind), succeeds and gives every node the
    disk it had and the state as it was, with no other disk left. *)
Theorem snapshot_roundtrip now suffix item name s s1 r s2 :
  (forall n, fault n = false) -> good_name (c_Name item) name -> NoDup (n_Name <$> c_Nodes item) ->
  (forall n, n ∈ c_Nodes item -> is_Some (live s !! image (n_Name n))) ->
  (exists data nodes, live s !! stateFile = Some data /\ unmarshal data = Some nodes /\ n_Name <$> nodes = n_Name <$> c_Nodes item) ->
  snaps s !! name = None -> snaps s !! snap_tmp suffix = None ->
  CreateSnapshot fault short cloning now suffix item name s = (s1, r) ->
  snaps s2 !! name = snaps s1 !! name -> (forall e, is_image e = true \/ e = stateFile -> live s2 !! restoring e = None) ->
  r = Ok tt /\
  exists s3, RestoreSnapshot fault short cloning unmarshal item name s2 = (s3, Ok tt) /\
    (forall n, n ∈ c_Nodes item -> live s3 !! image (n_Name n) = live s !! image (n_Name n)) /\
    (forall f, is_image f = true -> f ∉ (image ∘ n_Name) <$> c_Nodes item -> live s3 !! f = None) /\
    live s3 !! stateFile = live s !! stateFile.
Proof.
  intros Hf Hg Hnd Hdisks (data & nodes & Hdata & Hun & Hnames) Hno Htmp E Hsnap Hfree.
  pose proof (create_runs fault short cloning now suffix item name s) as Hc. unfold runs in Hc. rewrite E in Hc. cbn [fst snd] in Hc.
  destruct Hc as [(_ & _ & _ & Hcr) Hn]. assert (r = Ok tt) as -> by exact (Hn Hf Hg Hdisks (mk_is_Some _ _ Hdata) Hnd Hno Htmp). split; [done|].
  destruct (Hcr eq_refl) as (files & Hfiles & [_ [C1 C2]]). rewrite Hfiles in Hsnap.
  assert (captures unmarshal s2 name files nodes) as Hcap.
  { split; [by eexists|]. exists data. rewrite C2, decide_True by apply list_elem_of_here. done. }
  assert (forall e, is_image e = true -> (e ∈ stateFile :: ((image ∘ n_Name) <$> c_Nodes item) <-> e ∈ (image ∘ n_Name) <$> c_Nodes item)) as Himg.
  { intros e He. rewrite elem_of_cons. split; [|by right]. by intros [->|?]. }
  assert (forall e, e ∈ (image ∘ n_Name) <$> c_Nodes item <-> exists n, n ∈ nodes /\ e = image (n_Name n)) as Hnodes.
  { intros e. rewrite list_fmap_compose, <- Hnames. split.
    - intros (nm & -> & (n & -> & Hin)%list_elem_of_fmap)%list_elem_of_fmap. eauto.
    - intros (n & Hin & ->). by apply list_elem_of_fmap_2, list_elem_of_fmap_2. }
  assert (images_match files nodes) as Hm.
  { split; [by rewrite Hnames|]. intros e He. rewrite C2, <- Hnodes, <- (Himg e He). destruct (decide _) as [Hi|Hi]; [|by split; [intros [? ?]|]].
    split; [done|]. intros _. by apply C1. }
  pose proof (restore_runs fault short cloning unmarshal item name s2) as Hr. unfold runs in Hr.
  destruct (RestoreSnapshot fault short cloning unmarshal item name s2) as [s3 r3]. cbn [fst snd] in Hr. destruct Hr as [Hr Hok].
  assert (r3 = Ok tt) as ->.
  { apply (Hok Hf files nodes). split_and!; [done|done|done|]. intros e. rewrite C2. destruct (decide _) as [Hi|]; [|by intros [? ?]].
    intros _. apply Hfree. apply elem_of_cons in Hi as [->|(n & -> & _)%list_elem_of_fmap]; [by right|left; apply image_is_image]. }
  exists s3. split; [done|]. destruct Hr as [[(e & [=]) _]|(f' & n' & Hcap' & _ & Hr)].
  assert (f' = files) as -> by (by destruct Hcap' as [(t & ?) _]; congruence).
  inversion Hr as [| |r' _ Hin _ Hst Hout]; subst r'. split_and!.
  - intros n Hi. assert (image (n_Name n) ∈ (image ∘ n_Name) <$> c_Nodes item) as Hi' by (by apply (list_elem_of_fmap_2 (image ∘ n_Name))).
    rewrite Hin; [|apply elem_of_captured; split; [apply image_is_image|]]; rewrite C2, decide_True by (by apply list_elem_of_further); [done|].
    by apply Hdisks.
  - intros f Hif Hni. apply Hout; [done|done|]. intros [_ Hs]%elem_of_captured. rewrite C2, decide_False in Hs by (by rewrite Himg). by destruct Hs.
  - rewrite (Hst eq_refl), C2, decide_True by apply list_elem_of_here. done.
Qed.

(** The observation of the vanishing nodes, without overflow. *)
Lemma count_vanishing_spec count nodes counted unverified total :
  count_vanishing count nodes = (counted, unverified, total) ->
  zsum (fun n => Z.max 0 (default 0 (count n))) nodes <= int64_max ->
  total = zsum (fun n => Z.max 0 (default 0 (count n))) nodes /\
  forall n, n ∈ nodes -> count n = None -> n_Name n ∈ unverified.
Proof.
  revert counted unverified total. induction nodes as [|node nodes IH]; intros counted unverified total; cbn [count_vanishing].
  { intros [= <- <- <-] _. split; [done|]. by intros n ?%not_elem_of_nil. }
  destruct (count_vanishing count nodes) as [[counted' unverified'] total']. rewrite zsum_cons. intros E Hle.
  assert (0 <= zsum (fun n => Z.max 0 (default 0 (count n))) nodes) as Hpos by (apply zsum_nonneg; lia).
  destruct (IH _ _ _ eq_refl) as [Ht Hu]; [revert Hle Hpos; cbn; lia|]. destruct (count node) as [c|] eqn:Ec; cbn [default from_option id] in *.
  - assert (total = Z.max 0 c + total' /\ unverified = unverified') as [-> ->].
    { destruct (0 <? c) eqn:Hc; injection E as <- <- <-; apply Z.ltb_lt in Hc || apply Z.ltb_ge in Hc; (split; [|done]).
      - rewrite wrap64_id; [lia|]. unfold in_int64, int64_min. lia.
      - lia. }
    split; [by rewrite Ht|]. intros n [->|Hn]%elem_of_cons; [congruence|by apply Hu].
  - injection E as <- <- <-. split; [by rewrite Ht|]. intros n [->|Hn]%elem_of_cons Hc; [apply list_elem_of_here|].
    apply list_elem_of_further. by apply Hu.
Qed.

(** What a gate that does not refuse knows of each vanishing node. *)
Lemma gate_knows item captured running count n :
  n ∈ vanishingRestoreNodes (c_Nodes item) captured ->
  zsum (fun n => Z.max 0 (default 0 (count n))) (vanishingRestoreNodes (c_Nodes item) captured) <= int64_max ->
  let outcome := gateSnapshotRestore (Some item) (Some captured) running false count in
  CSI (c_Intent item) = "" \/ (running = true /\ exists c, count n = Some c /\ c <= 0) \/
  (exists counted unverified, outcome = Refuse counted unverified) \/ (exists l, outcome = WarnUnverified l /\ n_Name n ∈ l).
Proof.
  intros Hn Hle. cbv zeta. unfold gateSnapshotRestore. destruct (String.eqb (CSI (c_Intent item)) "") eqn:Ec.
  { left. by apply String.eqb_eq. }
  right. cbv zeta. destruct (vanishingRestoreNodes (c_Nodes item) captured) as [|v vs] eqn:Ev; [by apply not_elem_of_nil in Hn|].
  rewrite <- Ev in *. destruct running; cbn [negb].
  2: { right; right. eexists. split; [done|]. by apply list_elem_of_fmap_2. }
  destruct (count_vanishing count _) as [[counted unverified] total] eqn:Ecv. apply count_vanishing_spec in Ecv as [-> Hu]; [|done].
  rewrite andb_true_r. destruct (0 <? _) eqn:Hpos; [right; left; eauto|]. apply Z.ltb_ge in Hpos.
  destruct (count n) as [c|] eqn:Ecn.
  - left. split; [done|]. exists c. split; [done|].
    pose proof (zsum_elem_le (fun n => Z.max 0 (default 0 (count n))) _ n ltac:(intros; lia) Hn) as Hle'. cbn beta in Hle'. rewrite Ecn in Hle'. cbn [default from_option id] in Hle'. lia.
  - right; right. specialize (Hu n Hn Ecn). destruct unverified as [|u us]; [by apply not_elem_of_nil in Hu|]. eauto.
Qed.

(** The gate watches exactly the disks a restore deletes.  A node of the cluster whose
    disk a restore deleted, whatever failed in it, is one the gate counts as vanishing;
    so, unless the gate refused, the cluster has no storage engine, the node was verified
    to hold no volumes, or the warning names it. *)
Theorem restore_deletes_gated item name s s' r files captured n running count :
  RestoreSnapshot fault short cloning unmarshal item name s = (s', r) -> captures unmarshal s name files captured ->
  n ∈ c_Nodes item -> is_Some (live s !! image (n_Name n)) -> live s' !! image (n_Name n) = None ->
  zsum (fun n => Z.max 0 (default 0 (count n))) (vanishingRestoreNodes (c_Nodes item) captured) <= int64_max ->
  let outcome := gateSnapshotRestore (Some item) (Some captured) running false count in
  n ∈ vanishingRestoreNodes (c_Nodes item) captured /\
  (CSI (c_Intent item) = "" \/ (running = true /\ exists c, count n = Some c /\ c <= 0) \/
   (exists counted unverified, outcome = Refuse counted unverified) \/ (exists l, outcome = WarnUnverified l /\ n_Name n ∈ l)).
Proof.
  intros E Hc Hn [c Hl] Hgone Hle. cbv zeta.
  assert (n ∈ vanishingRestoreNodes (c_Nodes item) captured) as Hv; [|split; [done|by apply gate_knows]].
  pose proof (restore_runs fault short cloning unmarshal item name s) as Hr. unfold runs in Hr. rewrite E in Hr. cbn [fst snd] in Hr.
  destruct Hr as [[[_ (U1 & _)]|(files' & nodes' & Hc' & Hm & Hr)] _]; [congruence|].
  destruct (reach_image _ _ _ _ _ (image (n_Name n)) Hr (image_is_image _)) as [?|Ef]; [congruence|].
  destruct Hc as [(t & Ht) (d & Hd & Hu)], Hc' as [(t' & Ht') (d' & Hd' & Hu')].
  assert (files' = files) as -> by congruence. assert (nodes' = captured) as -> by congruence.
  unfold vanishingRestoreNodes. apply list_elem_of_filter. split; [|done]. apply not_true_is_false. intros Hex.
  apply existsb_exists in Hex as (cand & Hcand & Hname%String.eqb_eq). apply list_elem_of_In in Hcand.
  assert (is_Some (files !! image (n_Name n))) as [x Hx]; [|congruence].
  apply Hm; [apply image_is_image|]. exists cand. by rewrite Hname.
Qed.

End Theorems.

(** ** Node disks *)

Section NodeDisks.
Context (fault : nat -> bool) (short : nat -> Z) (cloning : bool).

(** What provisioning may do to a node's disk: nothing, growing it, or making it, whole,
    from the cached image. *)
Definition provisioned (source : option sparse) (size : Z) (before after : option sparse) : Prop :=
  after = before \/
  (exists c, before = Some c /\ file_size c < size /\ after = Some (truncate size c)) \/
  (before = None /\ exists c, source = Some c /\ after = Some (truncate size c)).

Definition disk_done (size : Z) (after : option sparse) : Prop := exists c, after = Some c /\ size <= file_size c.

Lemma file_size_truncate size f : 0 <= size -> file_size (truncate size f) = size.
Proof.
  intros Hs. unfold truncate. cbv zeta. destruct (size <=? _) eqn:E; unfold file_size; cbn [bytes zeros]; [|lia].
  apply Z.leb_le in E. assert (forall k s, (k <= String.length s)%nat -> String.length (take_string k s) = k) as Hlen.
  { intros k. induction k as [|k IH]; intros [|c s] Hk; cbn in *; try lia. rewrite IH by lia. done. }
  rewrite Hlen by lia. lia.
Qed.

(** Making the image in the temporary file, up to its rename. *)
Definition made (source tmp destination : string) (size : Z) (s s' : St) (r : result snap_error unit) : Prop :=
  same_off (fun g => g = tmp \/ g = destination) s s' /\
  match r with
  | Ok _ => exists c, cache s !! source = Some c /\ live s' !! destination = Some (truncate size c)
  | Err _ => live s' !! destination = live s !! destination
  end.

Lemma made_weak source tmp destination size s s' e :
  tmp <> destination -> same_off (fun g => g = tmp) s s' -> made source tmp destination size s s' (Err e).
Proof.
  intros Hne H. split; [|by apply H]. eapply same_off_trans; [exact H|apply (same_off_refl (fun _ => False)); reflexivity|].
  intros g [?|[]]. by left.
Qed.

Lemma provision_finish_runs source tmp destination size s s1 :
  tmp <> destination -> same_off (fun g => g = tmp) s s1 -> live s1 !! tmp = cache s !! source -> is_Some (cache s !! source) ->
  runs s1 (f ← step fault; _ ← guard_io IOFailed f; f ← step fault; _ ← guard_io IOFailed f; _ ← put_truncated size tmp; rename fault tmp destination)
    (made source tmp destination size s).
Proof.
  intros Hne H1 Ht [c Hc].
  apply runs_bind, runs_step, runs_bind. destruct (fault (tick s1)); unfold runs at 1; cbn [guard_io fail mret M_ret fst snd]; [by apply made_weak|].
  apply runs_bind, runs_step, runs_bind. match goal with |- context [guard_io _ ?b] => destruct b end;
    unfold runs at 1; cbn [guard_io fail mret M_ret fst snd]; [by apply made_weak|].
  apply runs_bind. unfold runs at 1, put_truncated, modify. cbn [fst snd]. set (s2 := with_live _ _).
  assert (same_off (fun g => g = tmp) s s2) as H2.
  { eapply same_off_trans; [exact H1| |intros g [E|E]; exact E]. split_and!; [done|done|]. intros g Hg. cbn. by apply lookup_alter_ne. }
  eapply runs_conseq; [by apply rename_runs|]. intros s3 r (R1 & R2 & _). split.
  - eapply same_off_trans; [exact H2|exact R1|]. tauto.
  - destruct r as [[]|e]; [|rewrite R2; by apply H2]. exists c. split; [done|]. rewrite (proj1 R2). cbn. by rewrite lookup_alter_eq, Ht, Hc.
Qed.

Lemma provision_tmp_runs source tmp destination size s :
  tmp <> destination -> live s !! tmp = None ->
  runs s (c ← attempt (cloneFile fault cloning (CacheFile source) (LiveFile tmp));
          _ ← match c with
              | Ok _ => mret tt
              | Err _ =>
                  removed ← attempt (remove fault tmp);
                  _ ← match removed with Err NotExist | Ok _ => mret tt | Err e => fail e end;
                  copyFile fault short (CacheFile source) (LiveFile tmp)
              end;
          f ← step fault; _ ← guard_io IOFailed f;
          f ← step fault; _ ← guard_io IOFailed f;
          _ ← put_truncated size tmp;
          rename fault tmp destination) (made source tmp destination size s).
Proof.
  intros Hne Hfree. apply runs_bind, runs_attempt. eapply runs_conseq; [apply cloneFile_runs|]. intros s1 [[]|e] [C1 C2].
  { apply runs_bind, runs_ret. destruct C2 as (_ & C2 & C3). by apply provision_finish_runs. }
  apply runs_bind, runs_bind, runs_attempt. eapply runs_conseq; [apply remove_runs|]. intros s2 r2 (R1 & _ & _).
  assert (same_off (fun g => g = tmp) s s2) as H2 by (by eapply same_off_trans; [exact C1|exact R1|tauto]). apply runs_bind.
  assert (r2 = Ok tt \/ r2 = Err NotExist \/ exists e2, match r2 with Err NotExist | Ok _ => mret tt | Err e => fail e end = fail (A := unit) e2) as Hcase
    by (destruct r2 as [[]|[]]; eauto).
  assert (runs s2 (copyFile fault short (CacheFile source) (LiveFile tmp)) (fun s' r => match r with
    | Ok _ => runs s' (f ← step fault; _ ← guard_io IOFailed f; f ← step fault; _ ← guard_io IOFailed f; _ ← put_truncated size tmp; rename fault tmp destination)
                (made source tmp destination size s)
    | Err e => made source tmp destination size s s' (Err e) end)) as Hcopy.
  { eapply runs_conseq; [apply copyFile_runs|]. intros s3 r3 (K1 & K2 & _).
    assert (same_off (fun g => g = tmp) s s3) as H3 by (by eapply same_off_trans; [exact H2|exact K1|tauto]).
    destruct r3 as [[]|e3]; [|by apply made_weak]. destruct K2 as (_ & K2 & K3). cbn in K2, K3. rewrite (proj1 (proj2 H2)) in K2, K3.
    by apply provision_finish_runs. }
  destruct Hcase as [-> |[-> |[e2 ->]]]; [by apply runs_ret|by apply runs_ret|]. unfold runs, fail. cbn. by apply made_weak.
Qed.

Lemma provisionDisk_runs source tmp destination size s :
  tmp <> destination -> 0 <= size ->
  runs s (provisionDisk fault short cloning source tmp destination size) (fun s' r =>
    same_off (fun g => g = tmp \/ g = destination) s s' /\
    provisioned (cache s !! source) size (live s !! destination) (live s' !! destination) /\
    (r = Ok tt -> disk_done size (live s' !! destination))).
Proof.
  intros Hne Hsz. apply runs_bind, runs_step, runs_bind. unfold runs at 1, get. cbn [fst snd]. apply runs_bind.
  destruct (fault (tick s)); unfold runs at 1; cbn [guard_io fail mret M_ret fst snd live].
  { split_and!; [by apply same_off_refl|by left|done]. }
  destruct (live s !! destination) as [c|] eqn:Ed.
  { destruct (file_size c <? size) eqn:Esz; [apply Z.ltb_lt in Esz|apply Z.ltb_ge in Esz].
    - apply runs_bind, runs_step, runs_bind. match goal with |- context [guard_io _ ?b] => destruct b end;
        unfold runs, put_truncated, modify; cbn; rewrite ?lookup_alter_eq, ?Ed.
      + split_and!; [by apply same_off_refl|by left|done].
      + split_and!; [|right; left; by exists c|].
        * split_and!; [done|done|]. cbn. intros g Hg. rewrite lookup_alter_ne; [done|]. intros ->. tauto.
        * intros _. eexists. split; [done|]. by rewrite file_size_truncate.
    - unfold runs; cbn. rewrite Ed. split_and!; [by apply same_off_refl|by left|]. intros _. by exists c. }
  apply runs_bind, runs_step, runs_bind. destruct (_ || _) eqn:G; unfold runs at 1; cbn [guard_io fail mret M_ret fst snd live].
  { rewrite Ed. split_and!; [by apply same_off_refl|by left|done]. }
  apply orb_false_iff in G as [_ G]. apply bool_decide_eq_false, eq_None_not_Some in G.
  apply runs_bind. unfold runs at 1, modify. cbn [fst snd put_file live]. set (s1 := with_live _ _).
  assert (same_off (fun g => g = tmp) s s1) as H1 by (split_and!; [done|done|]; intros g Hg; cbn; by apply lookup_insert_ne).
  apply runs_bind, runs_step. match goal with |- context [if ?b then _ else _] => destruct b end.
  { apply runs_bind. eapply runs_conseq; [apply remove_ignored_runs|]. intros s2 r2 (-> & R1 & _). unfold runs, fail. cbn [fst snd].
    assert (same_off (fun g => g = tmp) s s2) as H2 by (by eapply same_off_trans; [exact H1|exact R1|tauto]).
    destruct (made_weak source tmp destination size s s2 IOFailed Hne H2) as [M1 M2]. split_and!; [done|left; congruence|done]. }
  apply runs_bind. eapply runs_conseq; [apply remove_runs|]. intros s2 r2 (R1 & R2 & _).
  assert (same_off (fun g => g = tmp) s s2) as H2 by (by eapply same_off_trans; [exact H1|exact R1|tauto]).
  destruct r2 as [[]|e2].
  2: { destruct (made_weak source tmp destination size s s2 IOFailed Hne H2) as [M1 M2]. split_and!; [done|left; congruence|done]. }
  apply runs_bind, runs_attempt. eapply runs_conseq; [by apply provision_tmp_runs|]. intros s3 r3 [M1 M2].
  apply runs_bind. eapply runs_conseq; [apply remove_ignored_runs|]. intros s4 r4 (-> & K1 & _). unfold runs, lift. cbn [fst snd].
  assert (live s4 !! destination = live s3 !! destination) as -> by (by apply K1).
  rewrite (proj1 (proj2 H2)), (proj2 (proj2 H2)), Ed in M2 by done. split_and!.
  - eapply same_off_trans; [eapply same_off_trans; [exact H2|exact M1|intros g Hg; exact Hg]|exact K1|]. cbn. tauto.
  - destruct r3 as [[]|e3]; [|left; congruence]. destruct M2 as (c & Hc & ->). right; right. split; [done|]. by exists c.
  - intros ->. destruct M2 as (c & Hc & ->). eexists. split; [done|]. by rewrite file_size_truncate.
Qed.

Lemma valid_sizes c role : (DiskGiB (DefaultsFor c role) <=? 0) || (int64_max / 2 ^ 30 <? DiskGiB (DefaultsFor c role)) = false ->
  0 < DiskGiB (DefaultsFor c role) * 2 ^ 30 <= int64_max.
Proof. intros [E1 E2]%orb_false_iff. apply Z.leb_gt in E1. apply Z.ltb_ge in E2. change (int64_max / 2 ^ 30) with 8589934591 in E2. change (2 ^ 30) with 1073741824. change int64_max with 9223372036854775807. lia. Qed.

Lemma check_sizes_runs c roles s :
  runs s (each roles (fun role => let gib := DiskGiB (DefaultsFor c role) in
            if (gib <=? 0) || (int64_max / 2 ^ 30 <? gib) then fail (InvalidDiskSize gib) else mret tt)) (fun s' r =>
    s' = s /\ (r = Ok tt -> forall role, role ∈ roles ->
      (DiskGiB (DefaultsFor c role) <=? 0) || (int64_max / 2 ^ 30 <? DiskGiB (DefaultsFor c role)) = false)).
Proof.
  induction roles as [|role roles IH]; cbn [each]; [split; [done|by intros _ ? ?%not_elem_of_nil]|].
  apply runs_bind. cbv zeta. destruct (_ || _) eqn:E; [done|]. apply runs_ret. eapply runs_conseq; [exact IH|].
  intros s' r [-> Hr]. split; [done|]. intros ->. intros x [->|Hx]%elem_of_cons; [done|by apply Hr].
Qed.

(** The disk size of a node, in bytes. *)
Definition node_size (c : Cluster) (n : Node) : Z := wrap64 (Z.shiftl (DiskGiB (DefaultsFor c (n_Role n))) 30).

Lemma provision_nodes_runs c cachedDisk tmp nodes s :
  (forall n, is_image (tmp n) = false) -> (forall n, n ∈ nodes -> 0 <= node_size c n) -> NoDup (n_Name <$> nodes) ->
  runs s (each nodes (fun node => _ ← lift (map_err NameError (validName (n_Name node)));
            provisionDisk fault short cloning cachedDisk (tmp node) (image (n_Name node)) (node_size c node))) (fun s' r =>
    snaps s' = snaps s /\ cache s' = cache s /\
    (forall g, is_image g = true -> g ∉ (image ∘ n_Name) <$> nodes -> live s' !! g = live s !! g) /\
    (forall n, n ∈ nodes ->
       provisioned (cache s !! cachedDisk) (node_size c n) (live s !! image (n_Name n)) (live s' !! image (n_Name n)) /\
       (r = Ok tt -> disk_done (node_size c n) (live s' !! image (n_Name n))))).
Proof.
  intros Htmp. revert s. induction nodes as [|node nodes IH]; intros s Hsz Hnd; cbn [each].
  { apply runs_ret. split_and!; [done|done|done|by intros n ?%not_elem_of_nil]. }
  apply NoDup_cons in Hnd as [Hni Hnd].
  assert (forall g, is_image g = true -> g <> tmp node) as Hnt by (intros g Hg ->; by rewrite Htmp in Hg).
  assert (forall n, n ∈ nodes -> image (n_Name n) <> image (n_Name node)) as Hdist.
  { intros n Hn E%image_inj. apply Hni. rewrite <- E. by apply list_elem_of_fmap_2. }
  apply runs_bind, runs_bind. unfold runs at 1, lift. cbn [fst snd].
  destruct (validName (n_Name node)) as [[]|e]; cbn [map_err].
  2: { split_and!; [done|done|done|]. intros n _. split; [by left|done]. }
  eapply runs_conseq; [apply provisionDisk_runs; [apply not_eq_sym, Hnt, image_is_image|apply Hsz, list_elem_of_here]|].
  intros s1 r1 ((S1 & K1 & L1) & P1 & D1).
  assert (forall g, is_image g = true -> g <> image (n_Name node) -> live s1 !! g = live s !! g) as L1'.
  { intros g Hg Hne. apply L1. intros [->| ->]; [by apply (Hnt _ Hg)|done]. }
  destruct r1 as [[]|e1].
  2: { split_and!; [done|done| |].
       - intros g Hg Hng. apply L1'; [done|]. intros ->. apply Hng. cbn. apply list_elem_of_here.
       - intros n [->|Hn]%elem_of_cons; [done|]. split; [left; apply L1'; [apply image_is_image|by apply Hdist]|done]. }
  eapply runs_conseq; [apply IH; [intros n Hn; by apply Hsz, list_elem_of_further|done]|].
  rewrite S1, K1. intros s2 r2 (S2 & K2 & L2 & N2).
  assert (live s2 !! image (n_Name node) = live s1 !! image (n_Name node)) as Ehead.
  { apply L2; [apply image_is_image|]. intros (n & E & Hn)%list_elem_of_fmap. by apply (Hdist n Hn). }
  split_and!; [done|done| |].
  - cbn. intros g Hg [Hg1 Hg2]%not_elem_of_cons. by rewrite L2, L1' by done.
  - intros n [->|Hn]%elem_of_cons; [rewrite Ehead; split; [done|by intros _; apply D1]|].
    destruct (N2 n Hn) as [N3 N4]. rewrite L1' in N3 by (apply image_is_image || by apply Hdist). done.
Qed.

Definition all_provisioned (c : Cluster) (cachedDisk : string) (s s' : St) (r : result snap_error unit) : Prop :=
  snaps s' = snaps s /\ cache s' = cache s /\
  (forall g, is_image g = true -> g ∉ (image ∘ n_Name) <$> c_Nodes c -> live s' !! g = live s !! g) /\
  (forall n, n ∈ c_Nodes c ->
     let size := DiskGiB (DefaultsFor c (n_Role n)) * 2 ^ 30 in
     provisioned (cache s !! cachedDisk) size (live s !! image (n_Name n)) (live s' !! image (n_Name n)) /\
     (r = Ok tt -> disk_done size (live s' !! image (n_Name n)))).

(** Node disks are provisioned whole, and never lost.  Whatever fails, every node's
    disk is as it was, or it was too small and was grown in place, or there was none and
    it is the cached image at the node's full size; other disks, the snapshots and the
    cache are untouched; and when provisioning reports success, every node has a disk of
    at least its size. *)
Theorem disks_provisioned c cachedDisk tmp s s' r :
  (forall n, is_image (tmp n) = false) -> NoDup (n_Name <$> c_Nodes c) ->
  (forall n, n ∈ c_Nodes c -> n_Role n = RoleControlPlane \/ n_Role n = RoleWorker) ->
  ProvisionDisks fault short cloning c cachedDisk tmp s = (s', r) ->
  snaps s' = snaps s /\ cache s' = cache s /\
  (forall g, is_image g = true -> g ∉ (image ∘ n_Name) <$> c_Nodes c -> live s' !! g = live s !! g) /\
  (forall n, n ∈ c_Nodes c ->
     let size := DiskGiB (DefaultsFor c (n_Role n)) * 2 ^ 30 in
     provisioned (cache s !! cachedDisk) size (live s !! image (n_Name n)) (live s' !! image (n_Name n)) /\
     (r = Ok tt -> disk_done size (live s' !! image (n_Name n)))).
Proof.
  intros Htmp Hnd Hroles E. change (all_provisioned c cachedDisk s s' r). set (Q := all_provisioned c cachedDisk s).
  cut (runs s (ProvisionDisks fault short cloning c cachedDisk tmp) Q); [unfold runs; by rewrite E|]. clear E s' r.
  assert (forall s' e, unwritten s s' -> Q s' (Err e)) as Herr.
  { intros s' e (U1 & U2 & U3). unfold Q. unfold all_provisioned. rewrite U1, U2, U3. split_and!; [done|done|done|]. intros n _. split; [by left|done]. }
  apply runs_bind. eapply runs_conseq; [apply check_sizes_runs|]. intros s0 [[]|e] [-> Hok]; [|by apply Herr]. specialize (Hok eq_refl).
  assert (forall n, n ∈ c_Nodes c -> 0 < DiskGiB (DefaultsFor c (n_Role n)) * 2 ^ 30 <= int64_max) as Hsizes.
  { intros n Hn. apply valid_sizes, Hok. destruct (Hroles n Hn) as [-> | ->]; set_solver. }
  assert (forall n, n ∈ c_Nodes c -> node_size c n = DiskGiB (DefaultsFor c (n_Role n)) * 2 ^ 30) as Hnode.
  { intros n Hn. specialize (Hsizes n Hn). unfold node_size. rewrite Z.shiftl_mul_pow2 by lia. apply wrap64_id. unfold in_int64, int64_min. lia. }
  apply runs_bind. eapply runs_conseq; [apply Dir_runs|]. intros s1 [[]|e] [U1 _]; [|by apply Herr].
  apply runs_bind, runs_step, runs_bind. match goal with |- context [guard_io _ ?b] => destruct b end; unfold runs at 1; cbn [guard_io fail mret M_ret fst snd]; [by apply Herr|].
  eapply runs_conseq; [apply (provision_nodes_runs c cachedDisk tmp); [done|intros n Hn; rewrite Hnode by done; specialize (Hsizes n Hn); lia|done]|].
  destruct U1 as (U1 & U2 & U3). cbn. rewrite U1, U2, U3. intros s2 r2 (P1 & P2 & P3 & P4). unfold Q, all_provisioned. split_and!; [done|done|done|].
  intros n Hn. cbv zeta. rewrite <- (Hnode n Hn). by apply P4.
Qed.
End NodeDisks.

(** ** Witnesses *)

(** The cluster of the examples has two nodes; its snapshot "base" was taken when it had
    the first only. *)
Definition demo_nodes : list Node := c_Nodes demo_cluster.

Definition demo_state : sparse := mkSparse "{}" 0.

Definition demo_unmarshal (nodes : list Node) (data : sparse) : option (list Node) :=
  if decide (data = demo_state) then Some nodes else None.

Definition demo_image (i : nat) : string := image (nth i (n_Name <$> demo_nodes) "").

Definition demo_disks : gmap string sparse :=
  {[demo_image 0 := mkSparse "cp" 100; demo_image 1 := mkSparse "worker" 100; stateFile := demo_state]}.

Definition demo_live : St := mkSt demo_disks ∅ ∅ 0.

Definition demo_snapped : St :=
  mkSt demo_disks {["base" := SnapDir {[demo_image 0 := mkSparse "old" 50; stateFile := demo_state]} 1]} ∅ 0.

Definition never (n : nat) : bool := false.

Lemma snapshot_create_atomic_witness : exists files,
  snaps (CreateSnapshot never (fun _ => 0) false 5 "x" demo_cluster "base" demo_live).1 !! "base" = Some (SnapDir files 5) /\
  complete demo_cluster demo_live files.
Proof.
  refine (proj2 (proj2 (proj2 (proj2 (snapshot_create_atomic never (fun _ => 0) false 5 "x" demo_cluster "base" demo_live _ _ (surjective_pairing _))))) _).
  vm_compute. reflexivity.
Defined.


Lemma snapshot_roundtrip_witness :
  (CreateSnapshot never (fun _ => 0) false 5 "x" demo_cluster "base" demo_live).2 = Ok tt.
Proof.
  refine (proj1 (snapshot_roundtrip never (fun _ => 0) false (demo_unmarshal demo_nodes) 5 "x" demo_cluster "base" demo_live
    _ _ (mkSt ∅ (snaps (CreateSnapshot never (fun _ => 0) false 5 "x" demo_cluster "base" demo_live).1) ∅ 0)
    _ _ _ _ _ _ _ (surjective_pairing _) _ _)).
  - reflexivity.
  - split; reflexivity.
  - apply (bool_decide_unpack _). vm_compute. exact I.
  - apply Forall_forall. repeat constructor; vm_compute; by eexists.
  - exists demo_state, demo_nodes. split_and!; vm_compute; reflexivity.
  - reflexivity.
  - reflexivity.
  - vm_compute. reflexivity.
  - intros e _. apply lookup_empty.
Defined.

Lemma restore_deletes_gated_witness :
  exists n, n ∈ vanishingRestoreNodes demo_nodes (take 1 demo_nodes).
Proof.
  eexists. refine (proj1 (restore_deletes_gated never (fun _ => 0) false (demo_unmarshal (take 1 demo_nodes)) demo_cluster "base" demo_snapped
    _ _ {[demo_image 0 := mkSparse "old" 50; stateFile := demo_state]} (take 1 demo_nodes) (nth 1 demo_nodes (mkNode "" "" "" "")) true (fun _ => None)
    (surjective_pairing _) _ _ _ _ _)).
  - split; [by exists 1|]. exists demo_state. split; [reflexivity|reflexivity].
  - apply (list_elem_of_lookup_2 _ 1). vm_compute. reflexivity.
  - vm_compute. by eexists.
  - vm_compute. reflexivity.
  - vm_compute. discriminate.
Defined.

(** A restore whose copy fails leaves its staging file, and with it there the next
    restore of the same snapshot cannot stage, although nothing fails any more. *)
Example failed_restore_blocks_retry :
  let fails (n : nat) := bool_decide (n = 9%nat) in
  let restore fault s := RestoreSnapshot fault (fun _ => 1) false (demo_unmarshal (take 1 demo_nodes)) demo_cluster "base" s in
  let '(s1, r1) := restore fails demo_snapped in
  let '(s2, r2) := restore never s1 in
  r1 = Err IOFailed /\ live s1 !! restoring (demo_image 0) = Some (mkSparse "o" 0) /\
  r2 = Err CreateExists /\ live s2 !! demo_image 0 = live demo_snapped !! demo_image 0.
Proof. vm_compute. split_and!; reflexivity. Qed.

(** A disk to grow and a disk to make, at the default twenty GiB. *)
Definition demo_cached : St := mkSt {[demo_image 0 := mkSparse "cp" 100]} ∅ {["disk.raw" := mkSparse "talos" 10]} 0.

Lemma disks_provisioned_witness :
  snaps (ProvisionDisks never (fun _ => 0) true demo_cluster "disk.raw" (fun _ => ".disk-1") demo_cached).1 = snaps demo_cached.
Proof.
  refine (proj1 (disks_provisioned never (fun _ => 0) true demo_cluster "disk.raw" (fun _ => ".disk-1") demo_cached _ _ _ _ _ (surjective_pairing _))).
  - reflexivity.
  - apply (bool_decide_unpack _). vm_compute. exact I.
  - apply Forall_forall. repeat constructor; vm_compute; by (left + right).
Defined.
