(* ===== verification/Preempt.v ===== *)
(** * Handing over a cluster's lock ([internal/daemon/preempt.go])

    An operation that queues on a cluster's lock announces itself; the holder registers
    what it is willing to abandon.  Both run under a mutex, but the interrupts run after
    it is released, so announcements, registrations, removals and interrupts interleave:
    the step relation has one step per critical section and one per interrupt run. *)

From stdpp Require Import base list gmap strings relations.
From Stdlib Require Import ZArith Lia.
From S2P Require Import Prelude GoStrings.

Local Open Scope Z_scope.

Definition clusterKey (name : string) : string := to_lower name.

(** ** The shared state *)

(** An interrupt is named by its registration. *)
Record preemptions := mkPreemptions {
  sequence : Z;
  pending : gmap string Z;
  interrupts : gmap string (gset Z)
}.

Definition no_preemptions : preemptions := mkPreemptions 0 ∅ ∅.

Definition pending_of (p : preemptions) (key : string) : Z := default 0 (pending p !! key).
Definition interrupts_of (p : preemptions) (key : string) : gset Z := default ∅ (interrupts p !! key).

(** The critical section of [request]: the interrupts to run after it. *)
Definition request (name : string) (p : preemptions) : preemptions * list Z :=
  let key := clusterKey name in
  (mkPreemptions (sequence p) (<[key := pending_of p key + 1]> (pending p)) (interrupts p), elements (interrupts_of p key)).

(** The release that [request] returns, run once. *)
Definition release (key : string) (p : preemptions) : preemptions :=
  let n := pending_of p key - 1 in
  mkPreemptions (sequence p) (if n <=? 0 then delete key (pending p) else <[key := n]> (pending p)) (interrupts p).

(** The critical section of [register]: the registration, and whether to interrupt at once. *)
Definition register (name : string) (p : preemptions) : preemptions * Z * bool :=
  let key := clusterKey name in
  let id := wrapu 64 (sequence p + 1) in
  (mkPreemptions id (pending p) (<[key := interrupts_of p key ∪ {[id]}]> (interrupts p)), id, 0 <? pending_of p key).

(** The removal that [register] returns, run once. *)
Definition unregister (key : string) (id : Z) (p : preemptions) : preemptions :=
  let rest := interrupts_of p key ∖ {[id]} in
  mkPreemptions (sequence p) (pending p) (if decide (rest = ∅) then delete key (interrupts p) else <[key := rest]> (interrupts p)).

(** ** The operations around it *)

(** The waiters that have not released, the registrations not removed, the interrupts
    about to run and those that ran. *)
Record Sys := mkSys {
  pre : preemptions;
  waiters : gmap nat string;
  holders : gmap Z string;
  due : list Z;
  ran : list Z
}.

Definition quiet : Sys := mkSys no_preemptions ∅ ∅ [] [].

(** Interrupts that may run next. *)
Inductive fire : Sys -> Sys -> Prop :=
| Fire p w h l1 id l2 r : fire (mkSys p w h (l1 ++ id :: l2) r) (mkSys p w h (l1 ++ l2) (id :: r)).

Inductive step : Sys -> Sys -> Prop :=
| StepRequest name ticket p p' ids w h d r :
    request name p = (p', ids) -> w !! ticket = None ->
    step (mkSys p w h d r) (mkSys p' (<[ticket := clusterKey name]> w) h (d ++ ids) r)
| StepRelease ticket key p w h d r :
    w !! ticket = Some key ->
    step (mkSys p w h d r) (mkSys (release key p) (delete ticket w) h d r)
| StepRegister name p p' id queued w h d r :
    register name p = (p', id, queued) ->
    step (mkSys p w h d r) (mkSys p' w (<[id := clusterKey name]> h) (if queued : bool then d ++ [id] else d) r)
| StepUnregister id key p w h d r :
    h !! id = Some key ->
    step (mkSys p w h d r) (mkSys (unregister key id p) w (delete id h) d r)
| StepFire s s' : fire s s' -> step s s'.

(** ** The state is what the operations did *)

(** How many waiters a cluster has. *)
Definition waiting (w : gmap nat string) (key : string) : Z := Z.of_nat (size (filter (fun kv => kv.2 = key) w)).

(** The state follows from who waits and who holds; a registration of a cluster somebody
    waits for is interrupted, or about to be. *)
Record consistent (s : Sys) : Prop := {
  co_sequence : 0 <= sequence (pre s) < 2 ^ 64;
  co_pending : forall k, pending (pre s) !! k = (if waiting (waiters s) k =? 0 then None else Some (waiting (waiters s) k));
  co_interrupts : forall k id, id ∈ interrupts_of (pre s) k <-> holders s !! id = Some k;
  co_ids : forall id k, holders s !! id = Some k -> 0 < id <= sequence (pre s);
  co_told : forall id k, holders s !! id = Some k -> 0 < waiting (waiters s) k -> id ∈ due s \/ id ∈ ran s
}.

Lemma waiting_nonneg w k : 0 <= waiting w k.
Proof. unfold waiting. lia. Qed.

Lemma waiting_insert w ticket key k : w !! ticket = None ->
  waiting (<[ticket := key]> w) k = waiting w k + (if decide (key = k) then 1 else 0).
Proof.
  intros Hn. unfold waiting. rewrite map_filter_insert. cbn. destruct (decide (key = k)) as [->|Hne].
  - rewrite map_size_insert_None; [lia|]. apply map_lookup_filter_None. by left.
  - rewrite delete_id by done. lia.
Qed.

Lemma waiting_delete w ticket key k : w !! ticket = Some key ->
  waiting (delete ticket w) k = waiting w k - (if decide (key = k) then 1 else 0).
Proof.
  intros Hl. rewrite <- (insert_delete_id w ticket key Hl) at 2. rewrite waiting_insert by apply lookup_delete_eq. lia.
Qed.

Lemma pending_of_waiting s k : consistent s -> pending_of (pre s) k = waiting (waiters s) k.
Proof.
  intros Hs. unfold pending_of. rewrite (co_pending _ Hs). destruct (Z.eqb_spec (waiting (waiters s) k) 0) as [->|]; done.
Qed.

Lemma consistent_quiet : consistent quiet.
Proof.
  split; cbn.
  - done.
  - intros k. by rewrite lookup_empty.
  - intros k id. unfold interrupts_of. cbn. rewrite lookup_empty. cbn. split; [set_solver|done].
  - done.
  - done.
Qed.

Lemma consistent_request name ticket p p' ids w h d r :
  consistent (mkSys p w h d r) -> request name p = (p', ids) -> w !! ticket = None ->
  consistent (mkSys p' (<[ticket := clusterKey name]> w) h (d ++ ids) r).
Proof.
  intros Hs [= <- <-] Hn. pose proof (pending_of_waiting _ (clusterKey name) Hs) as Hp. cbn in Hp. split; cbn [pre waiters holders due ran sequence pending].
  - apply Hs.
  - intros k. rewrite waiting_insert by done. destruct (decide (clusterKey name = k)) as [<-|Hne].
    + rewrite lookup_insert_eq, Hp. pose proof (waiting_nonneg w (clusterKey name)).
      destruct (Z.eqb_spec (waiting w (clusterKey name) + 1) 0); [lia|done].
    + rewrite lookup_insert_ne by done. rewrite Z.add_0_r. apply (co_pending _ Hs).
  - apply Hs.
  - apply Hs.
  - intros id k Hh Hw. rewrite waiting_insert in Hw by done. destruct (decide (clusterKey name = k)) as [<-|Hne].
    + left. apply elem_of_app. right. apply elem_of_elements. by apply (co_interrupts _ Hs).
    + destruct (co_told _ Hs id k Hh) as [?|?]; [cbn; lia| |by right]. left. apply elem_of_app. by left.
Qed.

Lemma consistent_release ticket key p w h d r :
  consistent (mkSys p w h d r) -> w !! ticket = Some key -> consistent (mkSys (release key p) (delete ticket w) h d r).
Proof.
  intros Hs Hl. pose proof (pending_of_waiting _ key Hs) as Hp. cbn in Hp. split; cbn [pre waiters holders due ran].
  - apply Hs.
  - intros k. rewrite (waiting_delete _ _ _ _ Hl). unfold release. cbn. rewrite Hp. destruct (decide (key = k)) as [<-|Hne].
    + pose proof (waiting_nonneg (delete ticket w) key) as Hnn. rewrite (waiting_delete _ _ _ _ Hl), decide_True in Hnn by done.
      destruct (Z.leb_spec (waiting w key - 1) 0); destruct (Z.eqb_spec (waiting w key - 1) 0); try lia.
      * apply lookup_delete_eq.
      * apply lookup_insert_eq.
    + rewrite Z.sub_0_r. destruct (_ <=? 0); [rewrite lookup_delete_ne by done|rewrite lookup_insert_ne by done]; apply (co_pending _ Hs).
  - apply Hs.
  - apply Hs.
  - intros id k Hh Hw. apply (co_told _ Hs id k Hh). cbn. rewrite (waiting_delete _ _ _ _ Hl) in Hw. destruct (decide (key = k)); lia.
Qed.

Lemma consistent_register name p p' id queued w h d r :
  sequence p + 1 < 2 ^ 64 -> consistent (mkSys p w h d r) -> register name p = (p', id, queued) ->
  consistent (mkSys p' w (<[id := clusterKey name]> h) (if queued : bool then d ++ [id] else d) r) /\ sequence p' = sequence p + 1 /\ id = sequence p + 1.
Proof.
  intros Hlt Hs [= <- <- <-]. pose proof (co_sequence _ Hs) as Hseq. cbn in Hseq.
  assert (wrapu 64 (sequence p + 1) = sequence p + 1) as Hid by (unfold wrapu; apply Z.mod_small; lia). rewrite Hid.
  set (id := sequence p + 1) in *. pose proof (pending_of_waiting _ (clusterKey name) Hs) as Hp. cbn in Hp.
  assert (h !! id = None) as Hfresh.
  { destruct (h !! id) as [k|] eqn:E; [|done]. apply (co_ids _ Hs) in E. cbn in E. lia. }
  split; [|done]. split; cbn [pre waiters holders due ran sequence].
  - lia.
  - apply Hs.
  - intros k x. unfold interrupts_of at 1. cbn [interrupts]. destruct (decide (clusterKey name = k)) as [<-|Hne].
    + rewrite lookup_insert_eq. cbn. rewrite elem_of_union, elem_of_singleton, (co_interrupts _ Hs). cbn [holders].
      destruct (decide (x = id)) as [->|Hx]; [rewrite lookup_insert_eq; tauto|]. rewrite lookup_insert_ne by done. tauto.
    + rewrite lookup_insert_ne by done. fold (interrupts_of p k). rewrite (co_interrupts _ Hs). cbn [holders].
      destruct (decide (x = id)) as [->|Hx]; [|by rewrite lookup_insert_ne]. rewrite lookup_insert_eq, Hfresh. split; [done|]. by intros [= ?].
  - intros x k Hx. destruct (decide (x = id)) as [->|Hne]; [unfold id; lia|]. rewrite lookup_insert_ne in Hx by done.
    apply (co_ids _ Hs) in Hx. cbn in Hx. unfold id. lia.
  - intros x k Hx Hw. rewrite Hp. destruct (decide (x = id)) as [->|Hne].
    + rewrite lookup_insert_eq in Hx. injection Hx as <-. left. rewrite (proj2 (Z.ltb_lt _ _) Hw). apply elem_of_app. right. by apply list_elem_of_singleton.
    + rewrite lookup_insert_ne in Hx by done. destruct (co_told _ Hs x k Hx Hw) as [?|?]; [|by right]. left. cbn in *. case_match; [|done].
      apply elem_of_app. by left.
Qed.

Lemma consistent_unregister id key p w h d r :
  consistent (mkSys p w h d r) -> h !! id = Some key -> consistent (mkSys (unregister key id p) w (delete id h) d r).
Proof.
  intros Hs Hh. split; cbn [pre waiters holders due ran].
  - apply Hs.
  - apply Hs.
  - intros k x. assert (interrupts_of (unregister key id p) k = if decide (key = k) then interrupts_of p k ∖ {[id]} else interrupts_of p k) as ->.
    { unfold unregister, interrupts_of at 1. cbn [interrupts]. destruct (decide (interrupts_of p key ∖ {[id]} = ∅)) as [E|E]; destruct (decide (key = k)) as [<-|Hne].
      - by rewrite lookup_delete_eq, E.
      - by rewrite lookup_delete_ne.
      - by rewrite lookup_insert_eq.
      - by rewrite lookup_insert_ne. }
    destruct (decide (x = id)) as [->|Hx].
    + rewrite lookup_delete_eq. split; [|done]. destruct (decide (key = k)) as [<-|Hne]; [set_solver|].
      intros Hi%(co_interrupts _ Hs). cbn in Hi. congruence.
    + rewrite lookup_delete_ne, <- (co_interrupts _ Hs k x) by done. cbn. destruct (decide (key = k)); set_solver.
  - intros x k Hx. apply lookup_delete_Some in Hx as [_ Hx]. by apply (co_ids _ Hs) in Hx.
  - intros x k Hx Hw. apply lookup_delete_Some in Hx as [_ Hx]. by apply (co_told _ Hs x k).
Qed.

Lemma consistent_fire s s' : consistent s -> fire s s' -> consistent s'.
Proof.
  intros Hs Hf. destruct Hf. split; try apply Hs. cbn. intros x k Hx Hw.
  destruct (co_told _ Hs x k Hx Hw) as [Hin|Hin]; cbn in Hin; [|right; by apply list_elem_of_further].
  apply elem_of_app in Hin as [?|[->|?]%elem_of_cons]; [left; apply elem_of_app; by left|right; apply list_elem_of_here|left; apply elem_of_app; by right].
Qed.

Lemma consistent_step s s' :
  consistent s -> sequence (pre s) + 1 < 2 ^ 64 -> step s s' -> consistent s' /\ sequence (pre s') <= sequence (pre s) + 1.
Proof.
  intros Hs Hlt Hst. destruct Hst as [name ticket p p' ids w h d r E Hn|ticket key p w h d r Hl|name p p' id q w h d r E|id key p w h d r Hh|s s' Hf].
  - split; [by eapply consistent_request|]. injection E as <- <-. cbn. lia.
  - split; [by apply consistent_release|]. cbn. lia.
  - destruct (consistent_register _ _ _ _ _ _ _ _ _ Hlt Hs E) as (H1 & H2 & _).
    split; [done|].
    cbn [pre] in *. lia.
  - split; [by apply consistent_unregister|]. cbn. lia.
  - split; [by eapply consistent_fire|]. destruct Hf. cbn. lia.
Qed.

(** Any run of fewer than 2^64 steps. *)
Lemma consistent_run n s : nsteps step n quiet s -> Z.of_nat n < 2 ^ 64 - 1 -> consistent s /\ sequence (pre s) <= Z.of_nat n.
Proof.
  revert s. induction n as [|n IH]; intros s Hr Hn.
  { inversion Hr; subst. split; [apply consistent_quiet|done]. }
  apply nsteps_inv_r in Hr as (s0 & Hr & Hst). destruct (IH s0 Hr) as [Hs Hb]; [lia|].
  destruct (consistent_step _ _ Hs ltac:(lia) Hst) as [H1 H2]. split; [done|lia].
Qed.

(** ** Theorems *)

(** Running what is due takes that many steps, and no more. *)
Lemma fire_due s s' : fire s s' -> length (due s) = S (length (due s')).
Proof. intros []. cbn. rewrite !length_app. cbn. lia. Qed.

Lemma fire_all_exists n : forall s, length (due s) = n -> exists s', nsteps fire n s s' /\ due s' = [] /\ waiters s' = waiters s /\ holders s' = holders s.
Proof.
  induction n as [|n IH]; intros [p w h [|id d] r] Hl; cbn in Hl; try done.
  { exists (mkSys p w h [] r). split; [constructor|done]. }
  destruct (IH (mkSys p w h d (id :: r))) as (s' & H1 & H2 & H3 & H4); [cbn; lia|]. exists s'. split_and!; try done.
  econstructor; [|exact H1]. apply (Fire p w h [] id d r).
Qed.

Lemma fire_bounded n s s' : nsteps fire n s s' -> (n + length (due s') = length (due s))%nat.
Proof. induction 1 as [|n s1 s2 s3 Hf _ IH]; [done|]. apply fire_due in Hf. lia. Qed.

(** C35: an announcement reaches every holder, in any interleaving.  After any run of
    announcements, registrations, releases and removals, the interrupts due can run and
    run out: every run of them has at most as many steps as there are interrupts due, and
    the longest reaches a state in which each registered holder of a cluster somebody
    waits for has been interrupted. *)
Theorem preemption_delivered n s :
  nsteps step n quiet s -> Z.of_nat n < 2 ^ 64 - 1 ->
  (forall m s', nsteps fire m s s' -> (m <= length (due s))%nat) /\
  (exists s', nsteps fire (length (due s)) s s') /\
  forall s', nsteps fire (length (due s)) s s' ->
    due s' = [] /\ forall id k, holders s' !! id = Some k -> (exists t, waiters s' !! t = Some k) -> id ∈ ran s'.
Proof.
  intros Hr Hn. destruct (consistent_run n s Hr Hn) as [Hs _]. split_and!.
  - intros m s' Hf%fire_bounded. lia.
  - destruct (fire_all_exists _ s eq_refl) as (s' & H & _). by exists s'.
  - intros s' Hf. pose proof (fire_bounded _ _ _ Hf) as Hb. assert (due s' = []) as Hd by (apply nil_length_inv; lia). split; [done|].
    assert (consistent s') as Hs'.
    { clear Hb Hd Hr Hn. revert Hs. induction Hf as [|m s1 s2 s3 Hst _ IH]; [done|]. intros Hs. apply IH. by eapply consistent_fire. }
    intros id k Hh (t & Ht). destruct (co_told _ Hs' id k Hh) as [Hi|Hi]; [|rewrite Hd in Hi; by apply not_elem_of_nil in Hi|done].
    pose proof (waiting_nonneg (delete t (waiters s')) k) as Hw. rewrite (waiting_delete _ _ _ _ Ht), decide_True in Hw by done. lia.
Qed.

(** An interrupt that is due or ran was, at some point of the run, registered while
    somebody waited for its cluster. *)
Definition overlapped (id : Z) (s : Sys) : Prop := exists k t, holders s !! id = Some k /\ waiters s !! t = Some k.

Lemma waiting_pos_exists w k : 0 < waiting w k -> exists t : nat, w !! t = Some k.
Proof.
  unfold waiting. intros Hp. destruct (map_choose (filter (fun kv => kv.2 = k) w)) as (t & x & Hx).
  { intros E. rewrite E, map_size_empty in Hp. lia. }
  apply map_lookup_filter_Some in Hx as [Hx Hk]. cbn in Hk. subst x. by exists t.
Qed.

Lemma told_overlapped n s id : nsteps step n quiet s -> Z.of_nat n < 2 ^ 64 - 1 -> id ∈ due s \/ id ∈ ran s ->
  exists s0, rtc step quiet s0 /\ rtc step s0 s /\ overlapped id s0.
Proof.
  revert s. induction n as [|n IH]; intros s Hr Hn Hin.
  { inversion Hr; subst. cbn in Hin. destruct Hin as [H|H]; by apply not_elem_of_nil in H. }
  pose proof (rtc_nsteps_2 _ _ _ Hr) as Hall.
  apply nsteps_inv_r in Hr as (s1 & Hr & Hst). destruct (consistent_run n s1 Hr ltac:(lia)) as [Hs Hb].
  assert (id ∈ due s1 \/ id ∈ ran s1 \/ overlapped id s) as [Hold|[Hold|Hnew]].
  { clear IH Hall Hr. destruct Hst as [name ticket p p' ids w h d r E Hf|ticket key p w h d r Hl|name p p' x q w h d r E|x key p w h d r Hh|s1 s Hf]; cbn in *; try tauto.
    - destruct Hin as [[?|Hi]%elem_of_app|?]; [by left| |tauto]. injection E as <- <-. right; right.
      apply elem_of_elements in Hi. exists (clusterKey name), ticket. cbn. split; [by apply (co_interrupts _ Hs)|apply lookup_insert_eq].
    - destruct q; [|tauto]. destruct Hin as [[?| ->%list_elem_of_singleton]%elem_of_app|?]; [tauto| |tauto]. right; right.
      injection E as <- <- Hq. apply Z.ltb_lt in Hq. rewrite (pending_of_waiting _ _ Hs) in Hq. cbn in Hq.
      apply waiting_pos_exists in Hq as (t & Ht). exists (clusterKey name), t. cbn. split; [apply lookup_insert_eq|done].
    - destruct Hf as [p w h l1 x l2 r]. cbn in *. rewrite !elem_of_app, !elem_of_cons in *. tauto. }
  1, 2: destruct (IH s1 Hr ltac:(lia) ltac:(tauto)) as (s0 & H1 & H2 & H3); exists s0; split_and!; [done|eapply rtc_r; done|done].
  exists s. split_and!; [done|apply rtc_refl|done].
Qed.

(** Nobody is interrupted in vain.  An interrupt that ran was, at some point of the
    run, registered on a cluster that an operation was waiting for; in particular a
    holder that registered after the last waiter became the holder is not interrupted on
    its behalf, and no operation on one cluster interrupts another. *)
Theorem preemption_justified n s id :
  nsteps step n quiet s -> Z.of_nat n < 2 ^ 64 - 1 -> id ∈ ran s ->
  exists s0 k t, rtc step quiet s0 /\ rtc step s0 s /\ holders s0 !! id = Some k /\ waiters s0 !! t = Some k.
Proof.
  intros Hr Hn Hin. destruct (told_overlapped n s id Hr Hn (or_intror Hin)) as (s0 & H1 & H2 & k & t & H3 & H4).
  by exists s0, k, t.
Qed.

(** ** Witnesses *)

(** A holder registers, and an operation spelling the name differently announces itself. *)
Definition announced : Sys :=
  mkSys (mkPreemptions 1 {["demo" := 1]} {["demo" := {[1]}]}) {[7%nat := "demo"]} {[1 := "demo"]} [1] [].

Lemma announced_run : nsteps step 2 quiet announced.
Proof.
  econstructor; [|econstructor; [|constructor]].
  - refine (StepRegister "Demo" no_preemptions (mkPreemptions 1 ∅ {["demo" := {[1]}]}) 1 false ∅ ∅ [] [] _). vm_compute. reflexivity.
  - refine (StepRequest "demo" 7%nat (mkPreemptions 1 ∅ {["demo" := {[1]}]}) (pre announced) [1] ∅ {[1 := "demo"]} [] [] _ _); vm_compute; reflexivity.
Defined.

Lemma preemption_delivered_witness : exists s', nsteps fire (length (due announced)) announced s'.
Proof. refine (proj1 (proj2 (preemption_delivered 2 announced announced_run _))). reflexivity. Defined.

Lemma preemption_justified_witness : exists s0 k t,
  rtc step quiet s0 /\ rtc step s0 (mkSys (pre announced) (waiters announced) (holders announced) [] [1]) /\ holders s0 !! 1 = Some k /\ waiters s0 !! t = Some k.
Proof.
  refine (preemption_justified 3 _ 1 _ _ _).
  - eapply nsteps_r; [exact announced_run|]. apply StepFire. apply (Fire _ _ _ [] 1 [] []).
  - reflexivity.
  - apply list_elem_of_here.
Defined.
