(* ===== verification/Resolvers.v ===== *)
(** * Resolver files ([internal/resolverset/resolverset.go], [internal/helper/resolver_darwin.go])

    The files under /etc/resolver that point a cluster's custom domain at the daemon's
    DNS server, and the reload owed to mDNSResponder after a change.  Each write, removal
    and read can fail, and a failing write can leave part of the file: which do, and what
    is left, are parameters. *)

From stdpp Require Import base list gmap strings.
From Stdlib Require Import ZArith Lia.
From S2P Require Import Prelude GoStrings Config.

Local Open Scope Z_scope.

(** ** The plan *)

Definition Marker : string := "# managed by talosbox".
Definition newline : string := String (ascii_of_byte 10) EmptyString.

Definition Content (port : Z) : string :=
  (Marker +:+ newline +:+ "nameserver 127.0.0.1" +:+ newline +:+ "port " +:+ itoa port +:+ newline)%string.

Definition Managed (content : string) : bool := has_prefix content (Marker +:+ newline)%string.

(** Whether a wanted domain's file has to be written. *)
Definition drifted (want : string) (file : option string) : bool :=
  match file with None => true | Some content => Managed content && negb (String.eqb content want) end.

Definition Plan (customDomains : list string) (observed : gmap string string) (port : Z) : list string * list string :=
  let want := Content port in
  let create := filter (fun domain => drifted want (observed !! domain) = true) customDomains in
  let remove := filter (fun name => (negb (bool_decide (name ∈ customDomains)) && default false (Managed <$> observed !! name)) = true)
                  (elements (dom observed)) in
  (sort_strings create, sort_strings remove).

(** ** Converging the directory *)

Inductive Entry := Regular (content : string) | NonRegular.

#[global] Instance Entry_eq_dec : EqDecision Entry.
Proof. solve_decision. Defined.

(** The directory, whether a reload is owed, and how many were delivered. *)
Record Resolver := mkResolver { directory : gmap string Entry; pendingHUP : bool; reloads : nat }.

Inductive resolver_error :=
| PortRange (port : Z)
| DomainRefused (name : string)
| NotCanonical (name : string)
| ReadDirFailed
| ReadFailed (name : string)
| Squatted (name : string)
| MkdirFailed
| WriteFailed (name : string)
| RemoveFailed (name : string)
| SignalFailed.

Definition regular_files (dir : gmap string Entry) : gmap string string :=
  omap (fun e => match e with Regular c => Some c | NonRegular => None end) dir.

Section Sync.
(** What fails: reading the directory or a file, making the directory, a write (with what
    it leaves in the file), a removal, and the signal. *)
Context (readdir_fails mkdir_fails signal_fails : bool).
Context (unreadable : string -> bool) (write_fails : string -> option string) (remove_fails : string -> bool).

Fixpoint check_domains (domains : list string) : option resolver_error :=
  match domains with
  | [] => None
  | name :: domains =>
      match Validate name true with
      | Err _ => Some (DomainRefused name)
      | Ok canonical => if String.eqb canonical name then check_domains domains else Some (NotCanonical name)
      end
  end.

(** The first regular file, in directory order, that cannot be read *)
Definition first_unreadable (dir : gmap string Entry) : option string :=
  head (filter (fun name => unreadable name = true) (sort_strings (elements (dom (regular_files dir))))).

Definition create_one (port : Z) (nonRegular : gmap string Entry) (acc : gmap string Entry * list resolver_error) (name : string)
    : gmap string Entry * list resolver_error :=
  let '(dir, errs) := acc in
  if bool_decide (nonRegular !! name = Some NonRegular) then (dir, errs ++ [Squatted name])
  else if mkdir_fails then (dir, errs ++ [MkdirFailed])
  else match write_fails name with
       | Some partial => (<[name := Regular partial]> dir, errs ++ [WriteFailed name])
       | None => (<[name := Regular (Content port)]> dir, errs)
       end.

Definition remove_one (acc : gmap string Entry * list resolver_error) (name : string) : gmap string Entry * list resolver_error :=
  let '(dir, errs) := acc in
  if remove_fails name then (dir, errs ++ [RemoveFailed name]) else (delete name dir, errs).

(** [reloadResolverCache] *)
Definition reloadResolverCache (s : Resolver) : Resolver * list resolver_error :=
  if signal_fails then (mkResolver (directory s) true (reloads s), [SignalFailed]) else (mkResolver (directory s) false (S (reloads s)), []).

Definition syncDomainResolvers (domains : list string) (port : Z) (s : Resolver) : Resolver * list resolver_error :=
  if (port <? 1) || (65535 <? port) then (s, [PortRange port])
  else match check_domains domains with
  | Some e => (s, [e])
  | None =>
      if readdir_fails then (s, [ReadDirFailed])
      else match first_unreadable (directory s) with
      | Some name => (s, [ReadFailed name])
      | None =>
          let '(create, remove) := Plan domains (regular_files (directory s)) port in
          let pending := negb (bool_decide (create = [] /\ remove = [])) || pendingHUP s in
          let '(dir, errs) := foldl (create_one port (directory s)) (directory s, []) create in
          let '(dir, errs) := foldl remove_one (dir, errs) remove in
          let s := mkResolver dir pending (reloads s) in
          if pending then let '(s, e) := reloadResolverCache s in (s, errs ++ e) else (s, errs)
      end
  end.
End Sync.

(** ** Lemmas *)

Lemma Content_managed port : Managed (Content port) = true.
Proof. unfold Managed, Content. rewrite <- string_app_assoc. apply has_prefix_app. Qed.

Lemma lookup_regular dir name : regular_files dir !! name = match dir !! name with Some (Regular c) => Some c | _ => None end.
Proof. unfold regular_files. rewrite lookup_omap. by destruct (dir !! name) as [[]|]. Qed.

Lemma elem_of_create domains observed port name :
  name ∈ (Plan domains observed port).1 <-> name ∈ domains /\ drifted (Content port) (observed !! name) = true.
Proof. cbn. rewrite elem_of_sort_strings, list_elem_of_filter. tauto. Qed.

Lemma elem_of_remove domains observed port name :
  name ∈ (Plan domains observed port).2 <-> (name ∉ domains) /\ (exists c, observed !! name = Some c /\ Managed c = true).
Proof.
  cbn. rewrite elem_of_sort_strings, list_elem_of_filter, elem_of_elements, elem_of_dom, andb_true_iff, negb_true_iff, bool_decide_eq_false.
  destruct (observed !! name) as [c|]; cbn; split.
  - intros [[H1 H2] _]. split; [done|]. by exists c.
  - intros [H1 (c' & [= <-] & H2)]. split; [done|by eexists].
  - intros [_ [? ?]]. done.
  - intros [_ (? & ? & _)]. done.
Qed.

(** What the two loops do to one name. *)
Lemma create_loop mkdir_fails write_fails port before names : forall acc name,
  (foldl (create_one mkdir_fails write_fails port before) acc names).1 !! name =
  if bool_decide (name ∈ names) && negb (bool_decide (before !! name = Some NonRegular)) && negb mkdir_fails
  then Some (Regular (default (Content port) (write_fails name))) else acc.1 !! name.
Proof.
  induction names as [|x names IH]; intros [dir errs] name; cbn [foldl]; [done|]. rewrite IH. clear IH.
  assert ((create_one mkdir_fails write_fails port before (dir, errs) x).1 !! name =
    if bool_decide (name = x) && negb (bool_decide (before !! name = Some NonRegular)) && negb mkdir_fails
    then Some (Regular (default (Content port) (write_fails name))) else dir !! name) as ->.
  { unfold create_one. destruct (decide (name = x)) as [->|Hne].
    - rewrite (bool_decide_eq_true_2 (x = x)) by done. cbn [andb].
      case_bool_decide; [done|]. destruct mkdir_fails; [done|]. cbn. destruct (write_fails x); apply lookup_insert_eq.
    - rewrite (bool_decide_eq_false_2 (name = x)) by done. cbn [andb].
      case_bool_decide; [done|]. destruct mkdir_fails; [done|]. destruct (write_fails x); by apply lookup_insert_ne. }
  destruct (decide (name ∈ names)) as [Hin|Hin].
  - rewrite (bool_decide_eq_true_2 (name ∈ names)), (bool_decide_eq_true_2 (name ∈ x :: names)) by (done || by apply list_elem_of_further).
    destruct (bool_decide (before !! name = Some NonRegular)), mkdir_fails, (bool_decide (name = x)); done.
  - rewrite (bool_decide_eq_false_2 (name ∈ names)) by done. cbn [andb fst]. rewrite (bool_decide_ext (name ∈ x :: names) (name = x)); [done|].
    rewrite elem_of_cons. tauto.
Qed.

Lemma remove_loop remove_fails names : forall acc name,
  (foldl (remove_one remove_fails) acc names).1 !! name =
  if bool_decide (name ∈ names) && negb (remove_fails name) then None else acc.1 !! name.
Proof.
  induction names as [|x names IH]; intros [dir errs] name; cbn [foldl]; [done|]. rewrite IH. clear IH.
  unfold remove_one. destruct (decide (name = x)) as [->|Hne].
  - rewrite (bool_decide_eq_true_2 (x ∈ x :: names)) by apply list_elem_of_here. cbn [andb].
    destruct (remove_fails x) eqn:E; cbn [negb fst]; [by rewrite andb_false_r|]. rewrite lookup_delete_eq. by case_match.
  - rewrite (bool_decide_ext (name ∈ x :: names) (name ∈ names)) by (rewrite elem_of_cons; tauto).
    destruct (remove_fails x); cbn [fst]; [done|]. by rewrite lookup_delete_ne.
Qed.

Lemma create_errors mkdir_fails write_fails port before names : forall acc,
  (foldl (create_one mkdir_fails write_fails port before) acc names).2 = [] ->
  acc.2 = [] /\ forall name, name ∈ names -> before !! name <> Some NonRegular /\ mkdir_fails = false /\ write_fails name = None.
Proof.
  induction names as [|x names IH]; intros [dir errs] Hnil; cbn [foldl] in Hnil; [split; [done|by intros name ?%not_elem_of_nil]|].
  apply IH in Hnil as [H1 H2]. unfold create_one in H1. cbn [snd].
  case_bool_decide as Hb; [by destruct errs|]. destruct mkdir_fails; [by destruct errs|]. destruct (write_fails x) eqn:Ew; [by destruct errs|].
  split; [done|]. intros name [->|Hn]%elem_of_cons; [done|by apply H2].
Qed.

Lemma remove_errors remove_fails names : forall acc,
  (foldl (remove_one remove_fails) acc names).2 = [] -> acc.2 = [] /\ forall name, name ∈ names -> remove_fails name = false.
Proof.
  induction names as [|x names IH]; intros [dir errs] Hnil; cbn [foldl] in Hnil; [split; [done|by intros name ?%not_elem_of_nil]|].
  apply IH in Hnil as [H1 H2]. unfold remove_one in H1. cbn [snd]. destruct (remove_fails x) eqn:E; [by destruct errs|].
  split; [done|]. intros name [->|Hn]%elem_of_cons; [done|by apply H2].
Qed.

Section Theorems.
Context (readdir_fails mkdir_fails signal_fails : bool).
Context (unreadable : string -> bool) (write_fails : string -> option string) (remove_fails : string -> bool).
Abbreviation sync := (syncDomainResolvers readdir_fails mkdir_fails signal_fails unreadable write_fails remove_fails).

(** A sync stops before it touches anything, or runs the plan and the reload it owes. *)
Lemma sync_cases domains port s s' errs :
  sync domains port s = (s', errs) ->
  (s' = s /\ errs <> []) \/
  let plan := Plan domains (regular_files (directory s)) port in
  let owed := negb (bool_decide (plan.1 = [] /\ plan.2 = [])) || pendingHUP s in
  let created := foldl (create_one mkdir_fails write_fails port (directory s)) (directory s, []) plan.1 in
  let removed := foldl (remove_one remove_fails) created plan.2 in
  directory s' = removed.1 /\ (exists more, errs = removed.2 ++ more) /\
  (if owed then if signal_fails then pendingHUP s' = true else pendingHUP s' = false /\ reloads s' = S (reloads s)
   else pendingHUP s' = false /\ reloads s' = reloads s).
Proof.
  unfold syncDomainResolvers. destruct (_ || _); [intros [= <- <-]; by left|]. destruct (check_domains domains); [intros [= <- <-]; by left|].
  destruct readdir_fails; [intros [= <- <-]; by left|]. destruct (first_unreadable _ _); [intros [= <- <-]; by left|].
  intros E. right. cbv zeta. destruct (Plan domains (regular_files (directory s)) port) as [create remove]. cbn [fst snd].
  destruct (foldl (create_one _ _ _ _) _ create) as [dir1 errs1]. destruct (foldl (remove_one _) _ remove) as [dir2 errs2].
  cbn [fst snd]. set (owed := negb _ || _) in *. destruct owed.
  - unfold reloadResolverCache in E. destruct signal_fails; injection E as <- <-; cbn; split_and!; try done; by eexists.
  - injection E as <- <-. cbn. split_and!; try done. exists []. by rewrite app_nil_r.
Qed.

(** What a sync leaves under one name. *)
Lemma sync_lookup domains port s name :
  let plan := Plan domains (regular_files (directory s)) port in
  let created := foldl (create_one mkdir_fails write_fails port (directory s)) (directory s, []) plan.1 in
  (foldl (remove_one remove_fails) created plan.2).1 !! name =
  if bool_decide (name ∈ plan.2) && negb (remove_fails name) then None
  else if bool_decide (name ∈ plan.1) && negb (bool_decide (directory s !! name = Some NonRegular)) && negb mkdir_fails
       then Some (Regular (default (Content port) (write_fails name))) else directory s !! name.
Proof. cbv zeta. by rewrite remove_loop, create_loop. Qed.

(** The files of the user are never touched, and no reload is lost.  Whatever fails in
    a sync, a link, a device or a file without the marker stays exactly as it was, and a
    name that is not wanted is not created; and if the directory changed or a reload was
    owed, then afterwards a reload was delivered or is still owed. *)
Theorem resolver_sync_safe domains port s s' errs :
  sync domains port s = (s', errs) ->
  (forall name e, directory s !! name = Some e -> e = NonRegular \/ (exists c, e = Regular c /\ Managed c = false) ->
     directory s' !! name = Some e) /\
  (forall name, directory s !! name = None -> name ∉ domains -> directory s' !! name = None) /\
  (directory s' <> directory s \/ pendingHUP s = true -> pendingHUP s' = true \/ reloads s' = S (reloads s)).
Proof.
  intros [[-> _]|(Hd & _ & Hp)]%sync_cases; [split_and!; [done|done|intros [?|?]; [done|by left]]|].
  pose proof (fun name => elem_of_create domains (regular_files (directory s)) port name) as Hcr.
  pose proof (fun name => elem_of_remove domains (regular_files (directory s)) port name) as Hre.
  set (plan := Plan domains (regular_files (directory s)) port) in *. split_and!.
  - intros name e He Hkind. rewrite Hd. unfold plan. rewrite sync_lookup. fold plan. rewrite He.
    assert (regular_files (directory s) !! name = match e with Regular c => Some c | NonRegular => None end) as Er by (rewrite lookup_regular, He; by destruct e).
    rewrite (bool_decide_eq_false_2 (name ∈ plan.2)). 2: { rewrite Hre, Er. intros [_ (c & Hc & Hm)]. destruct Hkind as [->|(c' & -> & ?)]; [done|congruence]. }
    cbn [andb]. destruct Hkind as [->|(c & -> & Hm)].
    + rewrite (bool_decide_eq_true_2 (Some NonRegular = _)) by done. by rewrite andb_false_r.
    + rewrite (bool_decide_eq_false_2 (name ∈ plan.1)); [done|]. rewrite Hcr, Er. cbn. rewrite Hm. by intros [_ ?].
  - intros name He Hn. rewrite Hd. unfold plan. rewrite sync_lookup. fold plan. rewrite He.
    rewrite (bool_decide_eq_false_2 (name ∈ plan.1)) by (rewrite Hcr; tauto). by destruct (_ && _).
  - intros Hch. destruct (negb _ || _) eqn:Eo; [destruct signal_fails; [by left|by right; apply Hp]|].
    apply orb_false_iff in Eo as [Eo1 Eo2]. apply negb_false_iff, bool_decide_eq_true in Eo1 as [E1 E2]. exfalso. destruct Hch as [Hch|?]; [|congruence].
    apply Hch. rewrite Hd, E1, E2. done.
Qed.

(** A sync that succeeds has converged.  Every wanted domain then has the file that
    points at the port, or a file of the user's own; no other file with the marker is
    left; and a further sync of the same domains, whatever fails in it, changes no file. *)
Theorem resolver_sync_converges domains port s s' :
  sync domains port s = (s', []) ->
  (forall name, name ∈ domains -> exists c, directory s' !! name = Some (Regular c) /\ (c = Content port \/ Managed c = false)) /\
  (forall name c, directory s' !! name = Some (Regular c) -> Managed c = true -> name ∈ domains /\ c = Content port) /\
  Plan domains (regular_files (directory s')) port = ([], []).
Proof.
  intros [[_ ?]|(Hd & (more & He) & _)]%sync_cases; [done|]. cbv zeta in *.
  pose proof (fun name => elem_of_create domains (regular_files (directory s)) port name) as Hcr.
  pose proof (fun name => elem_of_remove domains (regular_files (directory s)) port name) as Hre.
  pose proof (sync_lookup domains port s) as Hl. cbv zeta in Hl.
  set (plan := Plan domains (regular_files (directory s)) port) in *. rewrite <- Hd in Hl.
  symmetry in He. apply app_nil in He as [He _]. apply remove_errors in He as [He Hrem]. apply create_errors in He as [_ Hcre].
  assert (forall name, name ∈ domains -> exists c, directory s' !! name = Some (Regular c) /\ (c = Content port \/ Managed c = false)) as H1.
  { intros name Hn. rewrite Hl. rewrite (bool_decide_eq_false_2 (name ∈ plan.2)) by (rewrite Hre; tauto). cbn [andb].
    destruct (decide (name ∈ plan.1)) as [Hin|Hin].
    - rewrite (bool_decide_eq_true_2 (name ∈ plan.1)) by done. destruct (Hcre _ Hin) as (C1 & -> & ->).
      rewrite (bool_decide_eq_false_2 _ C1). cbn. eexists. split; [done|by left].
    - rewrite (bool_decide_eq_false_2 (name ∈ plan.1)) by done. cbn [andb]. rewrite Hcr, lookup_regular in Hin.
      destruct (directory s !! name) as [[c|]|]; [|tauto|tauto]. exists c. split; [done|]. cbn in Hin.
      destruct (Managed c); [left|by right]. destruct (String.eqb c (Content port)) eqn:E; [by apply String.eqb_eq|tauto]. }
  assert (forall name c, directory s' !! name = Some (Regular c) -> Managed c = true -> name ∈ domains /\ c = Content port) as H2.
  { intros name c Hc Hm. assert (name ∈ domains) as Hn.
    { destruct (decide (name ∈ domains)) as [|Hn]; [done|exfalso]. rewrite Hl in Hc.
      rewrite (bool_decide_eq_false_2 (name ∈ plan.1)) in Hc by (rewrite Hcr; tauto). cbn [andb] in Hc.
      destruct (decide (name ∈ plan.2)) as [Hin|Hin].
      - rewrite (bool_decide_eq_true_2 (name ∈ plan.2)), (Hrem _ Hin) in Hc by done. done.
      - rewrite (bool_decide_eq_false_2 (name ∈ plan.2)) in Hc by done. cbn [andb] in Hc. apply Hin. rewrite Hre. split; [done|]. exists c. by rewrite lookup_regular, Hc. }
    split; [done|]. destruct (H1 name Hn) as (c' & Hc' & [->|?]); congruence. }
  split_and!; [done|done|]. assert (forall l : list string, (forall x, x ∉ l) -> l = []) as Hempty.
  { intros [|x l] Hx; [done|]. destruct (Hx x). apply list_elem_of_here. }
  rewrite (surjective_pairing (Plan domains (regular_files (directory s')) port)). f_equal; apply Hempty; intros name.
  - rewrite elem_of_create, lookup_regular. intros [Hn Hdr]. destruct (H1 name Hn) as (c & Hc & Hk). rewrite Hc in Hdr. cbn in Hdr.
    destruct Hk as [->|Hm]; [by rewrite String.eqb_refl, andb_false_r in Hdr|by rewrite Hm in Hdr].
  - rewrite elem_of_remove, lookup_regular. intros [Hn (c & Hc & Hm)]. destruct (directory s' !! name) as [[c'|]|] eqn:E; try done. injection Hc as ->.
    by destruct (H2 name c E Hm).
Qed.
End Theorems.

(** ** Witnesses *)

Definition works (name : string) : bool := false.
Definition written (name : string) : option string := None.

(** A stale file of ours, one of a cluster that is gone, and the user's own. *)
Definition demo_resolvers : Resolver :=
  mkResolver {["lab.internal" := Regular (Content 1); "gone.internal" := Regular (Content 5399); "corp.vpn" := Regular "nameserver 10.0.0.1"]} false 0.

Definition demo_synced : Resolver :=
  mkResolver {["lab.internal" := Regular (Content 5399); "corp.vpn" := Regular "nameserver 10.0.0.1"]} false 1.

Lemma resolver_sync_safe_witness : directory demo_synced !! "corp.vpn" = Some (Regular "nameserver 10.0.0.1").
Proof.
  refine (proj1 (resolver_sync_safe false false false works written works ["lab.internal"] 5399 demo_resolvers demo_synced [] _) "corp.vpn" _ _ _).
  - vm_compute. reflexivity.
  - reflexivity.
  - right. by eexists.
Defined.

Lemma resolver_sync_converges_witness : Plan ["lab.internal"] (regular_files (directory demo_synced)) 5399 = ([], []).
Proof.
  refine (proj2 (proj2 (resolver_sync_converges false false false works written works ["lab.internal"] 5399 demo_resolvers demo_synced _))).
  vm_compute. reflexivity.
Defined.

(** A write that fails before the marker is out leaves a file that later syncs take for
    the user's own: they report success, and the domain keeps an empty resolver file. *)
Example failed_write_is_never_repaired :
  let failing name := if String.eqb name "lab.internal" then Some "" else None in
  let '(s1, e1) := syncDomainResolvers false false false works failing works ["lab.internal"] 5399 (mkResolver ∅ false 0) in
  let '(s2, e2) := syncDomainResolvers false false false works written works ["lab.internal"] 5399 s1 in
  e1 = [WriteFailed "lab.internal"] /\ e2 = [] /\ directory s2 !! "lab.internal" = Some (Regular "").
Proof. vm_compute. split_and!; reflexivity. Qed.
