(* ===== verification/Utilities.v ===== *)
(** * Small packages: the console ring buffer ([internal/hypervisor/ring.go]), shell
    quoting ([internal/shellquote]), resolver files ([internal/resolverset]) and the
    curated extensions ([internal/extensions]). *)

From stdpp Require Import base list gmap sorting strings.
From Stdlib Require Import Ascii ZArith Lia.
From S2P Require Import Prelude GoStrings.

(** ** The ring buffer *)

Module Ring.
(** [data] is allocated once; [start] is the oldest byte and [size] how many there are. *)
Record ringBuffer := mkRing { data : list Z; start : nat; size : nat }.

Definition newRingBuffer (capacity : nat) : ringBuffer := mkRing (replicate capacity 0%Z) 0 0.

(** One iteration of the loop in [Write]. *)
Definition put (r : ringBuffer) (b : Z) : ringBuffer :=
  let capacity := length (data r) in
  let index := (start r + size r) mod capacity in
  let data := <[index := b]> (data r) in
  if size r <? capacity then mkRing data (start r) (S (size r)) else mkRing data ((start r + 1) mod capacity) (size r).

Definition Write (r : ringBuffer) (p : list Z) : ringBuffer :=
  let capacity := length (data r) in
  if capacity <=? length p then mkRing (drop (length p - capacity) p) 0 capacity
  else foldl put r p.

Definition Snapshot (r : ringBuffer) : list Z :=
  (fun i => nth ((start r + i) mod length (data r)) (data r) 0%Z) <$> seq 0 (size r).

(** The last [n] of a list. *)
Definition last_n {A} (n : nat) (l : list A) : list A := drop (length l - n) l.

(** What the fields of a ring buffer satisfy. *)
Definition ring_ok (r : ringBuffer) : Prop :=
  size r <= length (data r) /\ (start r < length (data r) \/ length (data r) = 0 /\ start r = 0).

Lemma length_Snapshot r : length (Snapshot r) = size r.
Proof. unfold Snapshot. by rewrite length_fmap, length_seq. Qed.

Lemma lookup_Snapshot r i : i < size r -> Snapshot r !! i = Some (nth ((start r + i) mod length (data r)) (data r) 0%Z).
Proof. intros Hi. unfold Snapshot. by rewrite list_lookup_fmap, lookup_seq_lt by lia. Qed.

Lemma mod_wrap a b c : 0 < c -> a < c -> b <= c -> (a + b) mod c = if decide (a + b < c) then a + b else a + b - c.
Proof.
  intros Hc Ha Hb. destruct (decide (a + b < c)); [by apply Nat.mod_small|].
  replace (a + b) with (a + b - c + 1 * c) at 1 by lia. rewrite Nat.Div0.mod_add. apply Nat.mod_small. lia.
Qed.

Lemma nth_insert (l : list Z) i j b : j < length l -> nth i (<[j := b]> l) 0%Z = if decide (i = j) then b else nth i l 0%Z.
Proof.
  intros Hj. rewrite !nth_lookup. destruct (decide (i = j)) as [->|Hne].
  - by rewrite list_lookup_insert_eq.
  - by rewrite list_lookup_insert_ne.
Qed.

Lemma put_ok r b : ring_ok r -> 0 < length (data r) ->
  ring_ok (put r b) /\ length (data (put r b)) = length (data r) /\ Snapshot (put r b) = last_n (length (data r)) (Snapshot r ++ [b]).
Proof.
  intros [Hs Hst] Hc. destruct Hst as [Hst|[? _]]; [|lia]. unfold put. cbv zeta.
  set (c := length (data r)) in *. assert ((start r + size r) mod c < c) as Hidx by (apply Nat.mod_upper_bound; lia).
  assert (length (<[(start r + size r) mod c := b]> (data r)) = c) as Hlen by apply length_insert.
  destruct (Nat.ltb_spec (size r) c) as [Hlt|Hge].
  - split_and!; [split; cbn; rewrite ?Hlen; lia|by cbn|]. unfold last_n. rewrite length_app, length_Snapshot. cbn [length].
    replace (size r + 1 - c) with 0 by lia. rewrite drop_0. apply list_eq_same_length with (S (size r)).
    { rewrite length_app, length_Snapshot. cbn. lia. } { by rewrite length_Snapshot. }
    intros i x y Hi. rewrite lookup_Snapshot by done. cbn [data start size]. rewrite Hlen, nth_insert by done.
    intros [= <-]. destruct (decide (i = size r)) as [->|Hne].
    + rewrite decide_True by done. rewrite list_lookup_middle by (by rewrite length_Snapshot). by intros [= <-].
    + rewrite lookup_app_l, lookup_Snapshot by (rewrite ?length_Snapshot; lia). intros [= <-].
      rewrite decide_False; [done|]. rewrite !mod_wrap by lia. repeat case_decide; lia.
  - assert (size r = c) as Es by lia. assert ((start r + 1) mod c < c) as Hst' by (apply Nat.mod_upper_bound; lia).
    split_and!; [split; cbn; rewrite ?Hlen; lia|by cbn|]. unfold last_n. rewrite length_app, length_Snapshot. cbn [length].
    replace (size r + 1 - c) with 1 by lia. apply list_eq_same_length with (size r).
    { rewrite length_drop, length_app, length_Snapshot. cbn. lia. } { by rewrite length_Snapshot. }
    intros i x y Hi. rewrite lookup_Snapshot by done. cbn [data start size]. rewrite Hlen, nth_insert, lookup_drop by done.
    intros [= <-]. destruct (decide (i = size r - 1)) as [->|Hne].
    + rewrite list_lookup_middle by (rewrite length_Snapshot; lia). intros [= <-]. rewrite decide_True; [done|].
      rewrite Es. rewrite Nat.Div0.add_mod_idemp_l. f_equal. lia.
    + rewrite lookup_app_l, lookup_Snapshot by (rewrite ?length_Snapshot; lia). intros [= <-].
      rewrite Nat.Div0.add_mod_idemp_l. replace (start r + 1 + i) with (start r + (1 + i)) by lia.
      rewrite decide_False; [done|]. rewrite Es. rewrite !mod_wrap by lia. repeat case_decide; lia.
Qed.

Lemma last_n_app {A} n (l m : list A) : last_n n (last_n n l ++ m) = last_n n (l ++ m).
Proof.
  unfold last_n. rewrite !length_app, length_drop. rewrite !drop_app, drop_drop, length_drop. f_equal; f_equal; lia.
Qed.

Lemma last_n_all {A} n (l : list A) : length l <= n -> last_n n l = l.
Proof. intros Hl. unfold last_n. by replace (length l - n) with 0 by lia. Qed.

Lemma put_all_ok p : forall r, ring_ok r -> 0 < length (data r) ->
  ring_ok (foldl put r p) /\ length (data (foldl put r p)) = length (data r) /\
  Snapshot (foldl put r p) = last_n (length (data r)) (Snapshot r ++ p).
Proof.
  induction p as [|b p IH]; intros r Hr Hc; cbn [foldl].
  { split_and!; [done|done|]. rewrite app_nil_r, last_n_all; [done|]. rewrite length_Snapshot. apply Hr. }
  destruct (put_ok r b Hr Hc) as (H1 & H2 & H3). rewrite <- H2 in Hc. destruct (IH _ H1 Hc) as (H4 & H5 & H6).
  split_and!; [done|congruence|]. rewrite H6, H2, H3, last_n_app. by rewrite <- app_assoc.
Qed.

Lemma Write_ok r p : ring_ok r ->
  ring_ok (Write r p) /\ length (data (Write r p)) = length (data r) /\ Snapshot (Write r p) = last_n (length (data r)) (Snapshot r ++ p).
Proof.
  intros Hr. unfold Write. cbv zeta. destruct (Nat.leb_spec (length (data r)) (length p)) as [Hle|Hlt]; [|apply put_all_ok; [done|lia]].
  set (c := length (data r)) in *. assert (length (drop (length p - c) p) = c) as Hlen by (rewrite length_drop; lia).
  split_and!; [split; cbn; rewrite ?Hlen; lia|done|]. unfold last_n at 1. rewrite length_app, drop_app_ge by lia.
  apply list_eq_same_length with c; [rewrite length_drop; lia|by rewrite length_Snapshot|].
  intros i x y Hi. rewrite lookup_Snapshot by done. cbn [data start size]. rewrite Hlen, Nat.add_0_l, Nat.mod_small by done. intros [= <-].
  rewrite lookup_drop, nth_lookup, lookup_drop. replace (length (Snapshot r) + length p - c - length (Snapshot r) + i) with (length p - c + i) by lia.
  intros ->. done.
Qed.

(** The console buffer is a window on everything written.  After any writes, of any
    lengths, what a snapshot returns is exactly the last [capacity] bytes written, oldest
    first, or all of them while there are fewer. *)
Theorem ring_keeps_last capacity writes :
  Snapshot (foldl Write (newRingBuffer capacity) writes) = last_n capacity (concat writes).
Proof.
  assert (forall ws r, ring_ok r -> length (data r) = capacity ->
    Snapshot (foldl Write r ws) = last_n capacity (Snapshot r ++ concat ws)) as Hgen.
  { induction ws as [|w ws IH]; intros r Hr Hc; cbn [foldl concat].
    - rewrite app_nil_r, last_n_all; [done|]. rewrite length_Snapshot, <- Hc. apply Hr.
    - destruct (Write_ok r w Hr) as (H1 & H2 & H3). rewrite IH by congruence. rewrite H3, Hc, last_n_app. by rewrite <- app_assoc. }
  rewrite Hgen; [done| |apply length_replicate]. split; cbn; rewrite length_replicate; lia.
Qed.
End Ring.

(** ** Extensions *)

Module Extensions.
(** [curated] *)
Definition curated : list (string * string) :=
  [("gvisor", "siderolabs/gvisor"); ("nfs-utils", "siderolabs/nfs-utils"); ("qemu-guest-agent", "siderolabs/qemu-guest-agent")].

Definition Ref (name : string) : option string := (list_to_map curated : gmap string string) !! name.

Definition Names : list string := sort_strings (fst <$> curated).

Definition GVisor : string := "gvisor".
Definition GuestAgent : string := "qemu-guest-agent".

Definition Requested (requested : list string) (name : string) : bool := existsb (fun item => String.eqb item name) requested.

Definition suggestionDistance : nat := 3.

(** Bytes of a name, compared one by one. *)
Fixpoint chars (s : string) : list ascii := match s with EmptyString => [] | String c s => c :: chars s end.

Definition minimum (a b c : nat) : nat := Nat.min (Nat.min a b) c.

(** One column of the inner loop: [current] is written in place. *)
Definition fill_column (left_char : ascii) (right : list ascii) (previous current : list nat) (column : nat) : list nat :=
  let substitution := nth (column - 1) previous 0 in
  let substitution := if bool_decide (nth (column - 1) right Ascii.zero = left_char) then substitution else S substitution in
  <[column := minimum substitution (nth column previous 0 + 1) (nth (column - 1) current 0 + 1)]> current.

(** One row, then the swap of the two arrays. *)
Definition fill_row (left right : list ascii) (arrays : list nat * list nat) (row : nat) : list nat * list nat :=
  let '(previous, current) := arrays in
  let current := <[0 := row]> current in
  let current := foldl (fill_column (nth (row - 1) left Ascii.zero) right previous) current (seq 1 (length right)) in
  (current, previous).

Definition editDistance (left right : string) : nat :=
  let l := chars left in
  let r := chars right in
  let '(previous, _) := foldl (fill_row l r) (seq 0 (length r + 1), replicate (length r + 1) 0) (seq 1 (length l)) in
  nth (length r) previous 0.

(** The candidates in order: a prefix wins at once, otherwise the first of the nearest. *)
Fixpoint suggest_loop (name best : string) (bestDistance : nat) (candidates : list string) : string :=
  match candidates with
  | [] => best
  | candidate :: candidates =>
      if (3 <=? String.length name) && has_prefix candidate name then candidate
      else
        let distance := editDistance name candidate in
        if distance <? bestDistance then suggest_loop name candidate distance candidates
        else suggest_loop name best bestDistance candidates
  end.

Definition suggest (name : string) : option string :=
  let best := suggest_loop name "" (suggestionDistance + 1) Names in
  if String.eqb best "" then None else Some best.

Inductive extension_error := EmptyExtension | UnknownExtension (name : string) (suggestion : option string).

Fixpoint resolve_loop (refs : list string) (requested : list string) : result extension_error (list string) :=
  match requested with
  | [] => Ok refs
  | name :: requested =>
      if String.eqb name "" then Err EmptyExtension
      else match Ref name with
           | None => Err (UnknownExtension name (suggest name))
           | Some ref => resolve_loop (if bool_decide (ref ∈ refs) then refs else refs ++ [ref]) requested
           end
  end.

Definition Resolve (requested : list string) : result extension_error (list string) := sort_strings <$> resolve_loop [] requested.

(** *** Edit distance *)

(** An edit script turning [l] into [r], with its cost. *)
Inductive edit : list ascii -> list ascii -> nat -> Prop :=
| EditDone : edit [] [] 0
| EditKeep a l r n : edit l r n -> edit (l ++ [a]) (r ++ [a]) n
| EditReplace a b l r n : edit l r n -> edit (l ++ [a]) (r ++ [b]) (S n)
| EditDelete a l r n : edit l r n -> edit (l ++ [a]) r (S n)
| EditInsert b l r n : edit l r n -> edit l (r ++ [b]) (S n).

Definition cheapest (l r : list ascii) (n : nat) : Prop := edit l r n /\ forall m, edit l r m -> n <= m.

Lemma edit_nil_l r n : edit [] r n -> n = length r.
Proof.
  intros He. remember [] as l eqn:El. induction He; try (by destruct l); [done|]. rewrite length_app. cbn. rewrite <- IHHe by done. lia.
Qed.

Lemma edit_nil_r l n : edit l [] n -> n = length l.
Proof.
  intros He. remember [] as r eqn:Er. induction He; try (by destruct r); [done|]. rewrite length_app. cbn. rewrite <- IHHe by done. lia.
Qed.

Lemma edit_inserts r : edit [] r (length r).
Proof. induction r as [|b r IH] using rev_ind; [constructor|]. rewrite length_app, Nat.add_1_r. by constructor. Qed.

Lemma edit_deletes l : edit l [] (length l).
Proof. induction l as [|a l IH] using rev_ind; [constructor|]. rewrite length_app, Nat.add_1_r. by constructor. Qed.

Lemma cheapest_nil_l r : cheapest [] r (length r).
Proof. split; [apply edit_inserts|]. intros m ->%edit_nil_l. done. Qed.

Lemma cheapest_nil_r l : cheapest l [] (length l).
Proof. split; [apply edit_deletes|]. intros m ->%edit_nil_r. done. Qed.

(** A script between nonempty names ends in one of the moves. *)
Lemma edit_snoc_inv a l b r n : edit (l ++ [a]) (r ++ [b]) n ->
  (exists m, edit l r m /\ (if bool_decide (b = a) then m else S m) <= n) \/
  (exists m, edit l (r ++ [b]) m /\ n = S m) \/ (exists m, edit (l ++ [a]) r m /\ n = S m).
Proof.
  intros He. remember (l ++ [a]) as l' eqn:El. remember (r ++ [b]) as r' eqn:Er. destruct He as [|c l0 r0 m He|c d l0 r0 m He|c l0 r0 m He|d l0 r0 m He].
  - by destruct l.
  - apply app_inj_tail in El as [-> ->], Er as [-> ->]. left. exists m. by rewrite bool_decide_true.
  - apply app_inj_tail in El as [-> ->], Er as [-> ->]. left. exists m. split; [done|]. case_bool_decide; lia.
  - apply app_inj_tail in El as [-> ->]. right; left. exists m. by subst.
  - apply app_inj_tail in Er as [-> ->]. right; right. exists m. by subst.
Qed.

(** The recurrence the table is filled by. *)
Lemma cheapest_snoc a l b r s d i :
  cheapest l r s -> cheapest l (r ++ [b]) d -> cheapest (l ++ [a]) r i ->
  cheapest (l ++ [a]) (r ++ [b]) (minimum (if bool_decide (b = a) then s else S s) (d + 1) (i + 1)).
Proof.
  intros [S1 S2] [D1 D2] [I1 I2]. unfold minimum. split.
  - set (sub := if bool_decide (b = a) then s else S s). assert (edit (l ++ [a]) (r ++ [b]) sub) as Hsub.
    { unfold sub. case_bool_decide as E; [subst b; by constructor|by constructor]. }
    destruct (Nat.min_dec (Nat.min sub (d + 1)) (i + 1)) as [->| ->]; [destruct (Nat.min_dec sub (d + 1)) as [->| ->]|]; [done| |].
    + rewrite Nat.add_1_r. by constructor.
    + rewrite Nat.add_1_r. by constructor.
  - intros m [(k & Hk & Hm)|[(k & Hk & ->)|(k & Hk & ->)]]%edit_snoc_inv.
    + specialize (S2 _ Hk). case_bool_decide; lia.
    + specialize (D2 _ Hk). lia.
    + specialize (I2 _ Hk). lia.
Qed.

(** A row of the table up to column [c]: the cheapest scripts between prefixes. *)
Definition row_upto (l r : list ascii) (i c : nat) (row : list nat) : Prop :=
  length row = length r + 1 /\ forall j, j <= c -> cheapest (take i l) (take j r) (nth j row 0).

Lemma nth_insert_nat (row : list nat) i j x : j < length row -> nth i (<[j := x]> row) 0 = if decide (i = j) then x else nth i row 0.
Proof.
  intros Hj. rewrite !nth_lookup. destruct (decide (i = j)) as [->|Hne]; [by rewrite list_lookup_insert_eq|by rewrite list_lookup_insert_ne].
Qed.

Lemma take_snoc (l : list ascii) i : i < length l -> take (S i) l = take i l ++ [nth i l Ascii.zero].
Proof. intros Hi. apply take_S_r. destruct (nth_lookup_or_length l i Ascii.zero); [done|lia]. Qed.

Lemma fill_columns l r i previous current c :
  i < length l -> c <= length r -> row_upto l r i (length r) previous -> row_upto l r (S i) 0 current ->
  row_upto l r (S i) c (foldl (fill_column (nth i l Ascii.zero) r previous) current (seq 1 c)).
Proof.
  intros Hi. revert current. induction c as [|c IH]; intros current Hc Hp Hcur; [done|].
  rewrite seq_S, foldl_app. cbn [foldl]. destruct (IH current ltac:(lia) Hp Hcur) as [Hlen Hrow].
  set (cur := foldl _ _ _) in *. unfold fill_column. cbv zeta. replace (1 + c - 1) with c by lia. cbn [Nat.add].
  split; [by rewrite length_insert|]. intros j Hj. rewrite nth_insert_nat by lia. destruct (decide (j = S c)) as [->|Hne]; [|apply Hrow; lia].
  rewrite !take_snoc by lia. destruct Hp as [_ Hp]. apply cheapest_snoc.
  - apply Hp. lia.
  - rewrite <- take_snoc by lia. apply Hp. lia.
  - rewrite <- take_snoc by lia. by apply Hrow.
Qed.

Lemma fill_rows l r n : n <= length l ->
  exists previous current,
    foldl (fill_row l r) (seq 0 (length r + 1), replicate (length r + 1) 0) (seq 1 n) = (previous, current) /\
    row_upto l r n (length r) previous /\ length current = length r + 1.
Proof.
  induction n as [|n IH]; intros Hn.
  - eexists _, _. split; [done|]. split; [|apply length_replicate]. split; [apply length_seq|]. intros j Hj.
    rewrite seq_nth by lia. pose proof (cheapest_nil_l (take j r)) as Hc. rewrite length_take in Hc. by replace (0 + j) with (Nat.min j (length r)) by lia.
  - destruct (IH ltac:(lia)) as (previous & current & E & Hp & Hc). rewrite seq_S, foldl_app, E. cbn [foldl fill_row].
    eexists _, _. split; [done|]. split; [|apply Hp]. replace (1 + n - 1) with n by lia. cbn [Nat.add]. apply fill_columns; [lia|done|done|].
    split; [by rewrite length_insert|]. intros j Hj. replace j with 0 by lia. rewrite nth_insert_nat by lia. rewrite decide_True by done.
    pose proof (cheapest_nil_r (take (S n) l)) as Hc0. rewrite length_take in Hc0. by replace (S n) with (Nat.min (S n) (length l)) at 2 by lia.
Qed.

(** The distance behind a suggestion is the edit distance: filling two arrays row by
    row computes the least number of insertions, deletions and replacements that turn one
    name into the other. *)
Theorem editDistance_cheapest left right : cheapest (chars left) (chars right) (editDistance left right).
Proof.
  unfold editDistance. cbv zeta. destruct (fill_rows (chars left) (chars right) (length (chars left)) (le_n _)) as (previous & current & E & [_ Hp] & _).
  rewrite E. specialize (Hp (length (chars right)) (le_n _)). by rewrite !firstn_all in Hp.
Qed.

(** *** Resolving *)

Lemma resolve_loop_spec requested : forall refs,
  match resolve_loop refs requested with
  | Ok out => (forall n, n ∈ requested -> n <> "" /\ is_Some (Ref n)) /\ (NoDup refs -> NoDup out) /\
              forall ref, ref ∈ out <-> ref ∈ refs \/ exists n, n ∈ requested /\ Ref n = Some ref
  | Err e => exists n, n ∈ requested /\ (n = "" \/ Ref n = None)
  end.
Proof.
  induction requested as [|name requested IH]; intros refs; cbn [resolve_loop].
  { split_and!; [by intros n ?%not_elem_of_nil|done|]. intros ref. split; [by left|]. intros [?|(n & ?%not_elem_of_nil & _)]; done. }
  destruct (String.eqb name "") eqn:E; [apply String.eqb_eq in E; exists name; split; [apply list_elem_of_here|by left]|]. apply String.eqb_neq in E.
  destruct (Ref name) as [ref|] eqn:Er; [|exists name; split; [apply list_elem_of_here|by right]].
  specialize (IH (if bool_decide (ref ∈ refs) then refs else refs ++ [ref])). destruct (resolve_loop _ requested) as [out|e].
  - destruct IH as (H1 & H2 & H3). split_and!.
    + intros n [->|Hn]%elem_of_cons; [by rewrite Er|by apply H1].
    + intros Hnd. apply H2. case_bool_decide; [done|]. apply NoDup_app. split_and!; [done| |apply NoDup_singleton].
      intros x Hx ->%list_elem_of_singleton. done.
    + intros x. rewrite H3. assert (x ∈ (if bool_decide (ref ∈ refs) then refs else refs ++ [ref]) <-> x ∈ refs \/ x = ref) as ->.
      { case_bool_decide; [split; [by left|intros [?| ->]; done]|]. rewrite elem_of_app, list_elem_of_singleton. done. }
      split; [intros [[?| ->]|(n & Hn & En)]; [by left|right; exists name; split; [apply list_elem_of_here|done]|right; exists n; split; [by apply list_elem_of_further|done]]|].
      intros [?|(n & [->|Hn]%elem_of_cons & En)]; [by left; left|left; right; congruence|right; by exists n].
  - destruct IH as (n & Hn & Hb). exists n. split; [by apply list_elem_of_further|done].
Qed.

(** A schematic is addressed by what was asked for, not how it was spelled.  Two
    requests for the same extensions, in any order and with any repeats, resolve to the
    same list, and a request resolves exactly when every name in it is a curated one;
    the list holds the references of the names asked for, sorted, each once. *)
Theorem Resolve_canonical l l' :
  (forall n, n ∈ l <-> n ∈ l') ->
  (is_ok (Resolve l) = true <-> forall n, n ∈ l -> n <> "" /\ is_Some (Ref n)) /\
  (forall refs, Resolve l = Ok refs -> Resolve l' = Ok refs /\ NoDup refs /\ Sorted String.le refs /\
     forall ref, ref ∈ refs <-> exists n, n ∈ l /\ Ref n = Some ref).
Proof.
  intros Hsame. pose proof (resolve_loop_spec l []) as Hl. pose proof (resolve_loop_spec l' []) as Hl'. unfold Resolve, fmap, result_fmap.
  destruct (resolve_loop [] l) as [out|e].
  - destruct Hl as (H1 & H2 & H3). split; [done|]. intros refs [= <-]. destruct (resolve_loop [] l') as [out'|e'].
    + destruct Hl' as (H1' & H2' & H3'). assert (out ≡ₚ out') as Hp.
      { apply NoDup_Permutation; [apply H2, NoDup_nil_2|apply H2', NoDup_nil_2|]. intros ref. rewrite H3, H3'. by setoid_rewrite Hsame. }
      split_and!; [by rewrite Hp|apply NoDup_sort_strings, H2, NoDup_nil_2|apply Sorted_merge_sort; apply _|].
      intros ref. rewrite elem_of_sort_strings, H3. split; [intros [?%not_elem_of_nil|?]; done|by right].
    + exfalso. destruct Hl' as (n & Hn%Hsame & Hb). destruct (H1 n Hn) as [H4 [x H5]]. destruct Hb; congruence.
  - destruct Hl as (n & Hn & Hb). split; [|done]. split; [done|]. intros Hall. destruct (Hall n Hn) as [H4 [x H5]]. destruct Hb; congruence.
Qed.
End Extensions.

(** ** Witness of the extensions *)

Lemma Resolve_canonical_witness :
  Extensions.Resolve ["nfs-utils"; "gvisor"] = Ok ["siderolabs/gvisor"; "siderolabs/nfs-utils"].
Proof.
  refine (proj1 (proj2 (Extensions.Resolve_canonical ["gvisor"; "nfs-utils"; "gvisor"] ["nfs-utils"; "gvisor"] _) _ _)).
  - intros n. set_solver.
  - vm_compute. reflexivity.
Defined.

(** ** Shell quoting *)

Module Shellquote.
Definition punctuation : list ascii := Extensions.chars "_@%+=:,./-".

Definition isSafe (c : ascii) : bool := is_lower c || is_upper c || is_digit c || bool_decide (c ∈ punctuation).

Fixpoint all_safe (s : string) : bool := match s with EmptyString => true | String c s => isSafe c && all_safe s end.

Definition squote : ascii := ascii_of_byte 39.
Definition dquote : ascii := ascii_of_byte 34.

(** [strings.ReplaceAll(value, "'", `'"'"'`)] *)
Fixpoint escape (s : string) : string :=
  match s with
  | EmptyString => EmptyString
  | String c s =>
      if bool_decide (c = squote)
      then String squote (String dquote (String squote (String dquote (String squote (escape s)))))
      else String c (escape s)
  end.

Definition Quote (value : string) : string :=
  if negb (String.eqb value "") && all_safe value then value
  else String squote (escape value +:+ String squote EmptyString)%string.

(** How a POSIX shell reads one word (XCU 2.2): outside quotes only the characters that
    are never special stand for themselves; single quotes preserve everything up to the
    next one, double quotes everything but the dollar sign, the backquote and the
    backslash.  [None] is a word that ends early, expands, or is not closed. *)
Inductive quoting := Plain | Single | Double.

Definition expands : list ascii := Extensions.chars "$`\".

Fixpoint read_word (q : quoting) (s : string) : option string :=
  match s with
  | EmptyString => match q with Plain => Some EmptyString | _ => None end
  | String c s =>
      match q with
      | Plain =>
          if bool_decide (c = squote) then read_word Single s
          else if bool_decide (c = dquote) then read_word Double s
          else if isSafe c then String c <$> read_word Plain s else None
      | Single => if bool_decide (c = squote) then read_word Plain s else String c <$> read_word Single s
      | Double =>
          if bool_decide (c = dquote) then read_word Plain s
          else if bool_decide (c ∈ expands) then None else String c <$> read_word Double s
      end
  end.

Lemma read_safe s : all_safe s = true -> read_word Plain s = Some s.
Proof.
  induction s as [|c s IH]; [done|]. cbn [all_safe]. intros [Hc Hs]%andb_prop. cbn [read_word].
  rewrite (bool_decide_eq_false_2 (c = squote)), (bool_decide_eq_false_2 (c = dquote)) by (intros ->; discriminate Hc).
  by rewrite Hc, (IH Hs).
Qed.

Lemma read_escaped s : read_word Single (escape s +:+ String squote EmptyString)%string = Some s.
Proof.
  induction s as [|c s IH]; [done|]. cbn [escape]. case_bool_decide as Hc.
  - subst c. change (String squote <$> read_word Single (escape s +:+ String squote EmptyString)%string = Some (String squote s)). by rewrite IH.
  - change ((if bool_decide (c = squote) then read_word Plain (escape s +:+ String squote EmptyString)%string
             else String c <$> read_word Single (escape s +:+ String squote EmptyString)%string) = Some (String c s)).
    rewrite (bool_decide_eq_false_2 _ Hc). by rewrite IH.
Qed.

(** A quoted name is read back as itself.  Whatever a name contains, quotes, spaces,
    newlines or dollar signs included, a shell reads the quoted form as one word that is
    exactly the name. *)
Theorem Quote_roundtrip value : read_word Plain (Quote value) = Some value.
Proof.
  unfold Quote. destruct (negb (String.eqb value "") && all_safe value) eqn:E.
  - apply andb_prop in E as [_ E]. by apply read_safe.
  - cbn [read_word]. rewrite bool_decide_eq_true_2 by done. apply read_escaped.
Qed.
End Shellquote.
