(* ===== verification/HelperServer.v ===== *)
(** * The privileged helper's server ([internal/helper]: server.go, dns.go, bgp_linux.go,
    authorization_*.go, networking.go)

    The helper serves every user's daemon over one socket: it creates and releases network
    interfaces, adopts pushed reservations and keeps DHCP and host networking converged to
    them.  The reservation state and the DHCP manager are the components of their own
    files; what the host does (starting and stopping interfaces, netlink, binding sockets)
    is an environment given per request, so that it can differ from one to the next. *)

From stdpp Require Import base list gmap strings sorting.
From Stdlib Require Import ZArith Lia.
From S2P Require Import Prelude GoStrings GoNet Cluster HelperState Dhcp Config.

Local Open Scope Z_scope.

(** ** State *)

(** [platformAttachment]; the descriptor names the interface while it is open. *)
Record Attachment := mkAttachment { FD : Z; Kind : string; subnetIndex : Z }.

#[global] Instance Attachment_eq_dec : EqDecision Attachment.
Proof. solve_decision. Defined.

(** Owner, cluster and node. *)
Abbreviation attachmentKey := (Z * string * string)%type (only parsing).

(** [live]: the interfaces the host holds for the helper. *)
Record Server := mkServer {
  attachments : gmap attachmentKey Attachment;
  pendingStops : gmap Z Attachment;
  speakers : gset string;
  dhcp : linuxDHCPManager;
  state : State;
  disk : file;
  live : gset Z
}.

(** The outcome of [close]: done, an error that keeps the interface, or one that does not. *)
Inductive stop_outcome := Stopped | StopRetained | StopLost.

#[global] Instance stop_outcome_eq_dec : EqDecision stop_outcome.
Proof. solve_decision. Defined.

Inductive host_outcome := HostConverged | HostPreflight | HostFailed.

Record Env := mkEnv {
  startInterface : list Z -> Z -> string -> string -> option (Z * string);
  stopInterface : Z -> stop_outcome;
  convergeHostNetworking : list Z -> host_outcome;
  teardownSubnet : Z -> option bool;
  ifindex : string -> option Z;
  listen_ok : Z -> bool;
  close_ok : Z -> bool;
  write_ok : bool;
  restore_write_ok : bool;
  startSpeaker : Z -> bool;
  bindDNS : list Z -> Z -> option Z;
  hostCall : bool
}.

Inductive server_error :=
| DecodeArguments
| ClusterNodeRequired
| ClusterRequired
| SubnetRequired
| SubnetRange (index : Z)
| SubnetInvalid
| AlreadyAttached (cluster node : string)
| StartFailed
| ConvergeFailed (err : dhcp_error)
| HostNetworkingFailed
| StateRejected (err : state_error)
| StopError
| TeardownFailed
| ReleaseFailed (err : dhcp_error)
| ZeroASN
| SpeakerFailed (cluster : string)
| DomainRejected
| DomainNotCanonical (name : string)
| BindFailed
| HostCallFailed
| UnknownOperation (op : string).

Inductive Request :=
| NetAttach (cluster : string) (index : option Z) (node : string)
| NetDetach (cluster node : string)
| NetTeardown (index : option Z)
| NetSync (clusters : list SyncedCluster)
| DnsListen (cluster domain : string) (index : option Z)
| DnsRegister (cluster domain : string) (index : option Z)
| DnsUnregister (index : option Z)
| HostRequest (op : string)
| BgpEnable (cluster : string) (index : option Z) (localASN peerASN : Z)
| BgpDisable (cluster : string)
| BgpStatus (cluster : string)
| Ping
| Undecodable (op : string)
| Unknown (op : string).

Inductive reply_data :=
| Empty
| Attached (cluster node kind : string)
| Removed (removed : bool)
| Registered (domain : string) (index : Z)
| SpeakerActive (active : bool)
| Pong.

(** [serverReply]: [cleanup] runs when the response could not be sent, [finalize] always. *)
Record Reply := mkReplyOf {
  response : result server_error reply_data;
  reply_fd : option Z;
  cleanup : option (attachmentKey * Attachment);
  finalize : option Z
}.

Definition failed (e : server_error) : Reply := mkReplyOf (Err e) None None None.
Definition answered (d : reply_data) : Reply := mkReplyOf (Ok d) None None None.

Definition with_attachments (f : gmap attachmentKey Attachment -> gmap attachmentKey Attachment) (s : Server) : Server :=
  mkServer (f (attachments s)) (pendingStops s) (speakers s) (dhcp s) (state s) (disk s) (live s).
Definition with_dhcp (m : linuxDHCPManager) (s : Server) : Server :=
  mkServer (attachments s) (pendingStops s) (speakers s) m (state s) (disk s) (live s).
Definition with_speakers (f : gset string -> gset string) (s : Server) : Server :=
  mkServer (attachments s) (pendingStops s) (f (speakers s)) (dhcp s) (state s) (disk s) (live s).
Definition with_state (st : State) (d : file) (s : Server) : Server :=
  mkServer (attachments s) (pendingStops s) (speakers s) (dhcp s) st d (live s).
Definition with_live (f : gset Z -> gset Z) (s : Server) : Server :=
  mkServer (attachments s) (pendingStops s) (speakers s) (dhcp s) (state s) (disk s) (f (live s)).
Definition with_pending (f : gmap Z Attachment -> gmap Z Attachment) (s : Server) : Server :=
  mkServer (attachments s) (f (pendingStops s)) (speakers s) (dhcp s) (state s) (disk s) (live s).

Definition NewServer (st : State) (d : file) : Server := mkServer ∅ ∅ ∅ newPlatformDHCPManager st d ∅.

(** ** Operations *)

Definition attachedSubnetIndexes (s : Server) : list Z :=
  compact (sort_ints ((fun kv => subnetIndex kv.2) <$> map_to_list (attachments s))).

Definition desiredSubnetIndexes (s : Server) : list Z :=
  compact (sort_ints (SubnetIndexes (state s) ++ attachedSubnetIndexes s)).

Definition isAuthorizedUID (uid : Z) (allowedUID : option Z) (allowAnyUID : bool) : bool :=
  (uid =? 0) || (match allowedUID with Some u => uid =? u | None => false end) ||
  (allowAnyUID && match allowedUID with None => true | Some _ => false end).

Section Handlers.
Context (env : Env).

(** [s.dhcp.Converge()] over the synced and the attached subnets *)
Definition convergeDHCP (s : Server) : result dhcp_error unit * Server :=
  let '(r, m) := Converge (ifindex env) (listen_ok env) (close_ok env) (Clusters (state s)) (attachedSubnetIndexes s) (dhcp s) in
  (r, with_dhcp m s).

(** [attachment.close()] *)
Definition stop (a : Attachment) (s : Server) : stop_outcome * Server :=
  let outcome := stopInterface env (FD a) in
  (outcome, match outcome with StopRetained => s | _ => with_live (fun l => l ∖ {[FD a]}) s end).

Definition attach (owner : Z) (cluster : string) (index : option Z) (node : string) (s : Server) : Server * Reply :=
  if String.eqb cluster "" || String.eqb node "" then (s, failed ClusterNodeRequired)
  else match index with
  | None => (s, failed SubnetRequired)
  | Some index =>
      if (index <? 0) || (255 <? index) then (s, failed (SubnetRange index))
      else
        let key := (owner, cluster, node) in
        if bool_decide (is_Some (attachments s !! key)) then (s, failed (AlreadyAttached cluster node))
        else match startInterface env (desiredSubnetIndexes s) index cluster node with
        | None => (s, failed StartFailed)
        | Some (fd, kind) =>
            let a := mkAttachment fd kind index in
            let s := with_live (fun l => l ∪ {[fd]}) s in
            let '(r, s) := convergeDHCP (with_attachments (<[key := a]>) s) in
            match r with
            | Err e =>
                let '(_, s) := stop a (with_attachments (delete key) s) in
                (s, failed (ConvergeFailed e))
            | Ok _ => (s, mkReplyOf (Ok (Attached cluster node kind)) (Some fd) (Some (key, a)) None)
            end
        end
  end.

(** The cleanup of an attachment whose descriptor never reached the caller. *)
Definition cleanup_attach (key : attachmentKey) (a : Attachment) (s : Server) : Server :=
  match attachments s !! key with
  | Some current =>
      if FD current =? FD a then
        let '(outcome, s) := stop a s in
        let s := with_attachments (delete key) s in
        match outcome with StopRetained => with_pending (<[FD a := a]>) s | _ => s end
      else s
  | None => s
  end.

Definition detach (owner : Z) (cluster node : string) (s : Server) : Server * Reply :=
  if String.eqb cluster "" || String.eqb node "" then (s, failed ClusterNodeRequired)
  else
    let key := (owner, cluster, node) in
    match attachments s !! key with
    | None => (s, answered Empty)
    | Some a =>
        let '(outcome, s) := stop a s in
        match outcome with
        | Stopped => (with_attachments (delete key) s, answered Empty)
        | StopRetained => (s, failed StopError)
        | StopLost => (with_attachments (delete key) s, failed StopError)
        end
    end.

Definition teardownNetwork (index : option Z) (s : Server) : Server * Reply :=
  match index with
  | None => (s, failed SubnetRequired)
  | Some index =>
      if (index <? 0) || (255 <? index) then (s, failed (SubnetRange index))
      else match teardownSubnet env index with
      | None => (s, failed TeardownFailed)
      | Some removed =>
          let '(r, m) := Release (close_ok env) index (dhcp s) in
          (with_dhcp m s, match r with Ok _ => answered (Removed removed) | Err e => failed (ReleaseFailed e) end)
      end
  end.

(** [convergeSynced]: a preflight failure is only logged. *)
Definition convergeSynced (s : Server) : result server_error unit * Server :=
  match convergeHostNetworking env (desiredSubnetIndexes s) with
  | HostFailed => (Err HostNetworkingFailed, s)
  | _ => let '(r, s) := convergeDHCP s in (map_err ConvergeFailed r, s)
  end.

(** A push is a transaction: a set the host could not converge is taken back. *)
Definition sync (owner : Z) (clusters : list SyncedCluster) (s : Server) : Server * Reply :=
  let previous := Partition (state s) owner in
  let '(r, st, d) := Replace owner clusters (write_ok env) (state s) (disk s) in
  let s := with_state st d s in
  match r with
  | Err e => (s, failed (StateRejected e))
  | Ok _ =>
      let '(r, s) := convergeSynced s in
      match r with
      | Ok _ => (s, answered Empty)
      | Err e =>
          let '(r, st, d) := Replace owner previous (restore_write_ok env) (state s) (disk s) in
          let s := with_state st d s in
          let s := match r with Err _ => s | Ok _ => (convergeSynced s).2 end in
          (s, failed e)
      end
  end.

Definition validateBGPEnableArgs (cluster : string) (index : option Z) (localASN peerASN : Z) : result server_error Z :=
  if String.eqb cluster "" then Err ClusterRequired
  else match index with
  | None => Err SubnetRequired
  | Some index =>
      if (index <? 0) || (255 <? index) then Err (SubnetRange index)
      else if (localASN =? 0) || (peerASN =? 0) then Err ZeroASN
      else Ok index
  end.

Definition enableBGP (cluster : string) (index : option Z) (localASN peerASN : Z) (s : Server) : Server * Reply :=
  match validateBGPEnableArgs cluster index localASN peerASN with
  | Err e => (s, failed e)
  | Ok index =>
      if bool_decide (cluster ∈ speakers s) then (s, answered Empty)
      else if startSpeaker env index then (with_speakers (fun l => l ∪ {[cluster]}) s, answered Empty)
      else (s, failed (SpeakerFailed cluster))
  end.

Definition disableBGP (cluster : string) (s : Server) : Server * Reply :=
  if String.eqb cluster "" then (s, failed ClusterRequired)
  else (with_speakers (fun l => l ∖ {[cluster]}) s, answered Empty).

Definition decodeDNSIdentity (cluster domain : string) (index : option Z) : result server_error (string * Z) :=
  if String.eqb cluster "" then Err ClusterRequired
  else match index with
  | None => Err SubnetRequired
  | Some index =>
      if (index <? 0) || (255 <? index) then Err (SubnetRange index)
      else
        let name := if String.eqb domain "" then (cluster +:+ ".k8s.test")%string else domain in
        match Validate name true with
        | Err _ => Err DomainRejected
        | Ok canonical => if String.eqb canonical name then Ok (name, index) else Err (DomainNotCanonical name)
        end
  end.

Definition dnsListenerReply (cluster domain : string) (index : option Z) (s : Server) : Server * Reply :=
  match decodeDNSIdentity cluster domain index with
  | Err e => (s, failed e)
  | Ok (name, index) =>
      match bindDNS env (desiredSubnetIndexes s) index with
      | None => (s, failed BindFailed)
      | Some fd => (s, mkReplyOf (Ok (Registered name index)) (Some fd) None (Some fd))
      end
  end.

Definition dispatchFrom (uid : Z) (request : Request) (s : Server) : Server * Reply :=
  match request with
  | DnsListen cluster domain index => dnsListenerReply cluster domain index s
  | NetAttach cluster index node => attach uid cluster index node s
  | NetDetach cluster node => detach uid cluster node s
  | NetTeardown index => teardownNetwork index s
  | NetSync clusters => sync uid clusters s
  | DnsRegister cluster domain index =>
      (s, match decodeDNSIdentity cluster domain index with Err e => failed e | Ok (name, index) => answered (Registered name index) end)
  | DnsUnregister index =>
      (s, match index with
          | None => failed SubnetInvalid
          | Some index => if (index <? 0) || (255 <? index) then failed SubnetInvalid
                          else if hostCall env then answered Empty else failed HostCallFailed
          end)
  | HostRequest op => (s, if hostCall env then answered Empty else failed HostCallFailed)
  | BgpEnable cluster index localASN peerASN => enableBGP cluster index localASN peerASN s
  | BgpDisable cluster => disableBGP cluster s
  | BgpStatus cluster => (s, if String.eqb cluster "" then failed ClusterRequired else answered (SpeakerActive (bool_decide (cluster ∈ speakers s))))
  | Ping => (s, answered Pong)
  | Undecodable _ => (s, failed DecodeArguments)
  | Unknown op => (s, failed (UnknownOperation op))
  end.

(** One turn of [serveConnection]: dispatch, send, clean up what was not delivered. *)
Definition serve (uid : Z) (request : Request) (delivered : bool) (s : Server) : Server * Reply :=
  let '(s, reply) := dispatchFrom uid request s in
  (match cleanup reply with
   | Some (key, a) => if delivered then s else cleanup_attach key a s
   | None => s
   end, reply).

(** The connection of a peer: refused at once, or its requests in order until a response
    cannot be sent. *)
Fixpoint serve_requests (uid : Z) (requests : list (Request * bool)) (s : Server) : Server * list Reply :=
  match requests with
  | [] => (s, [])
  | (request, delivered) :: requests =>
      let '(s, reply) := serve uid request delivered s in
      if (delivered : bool) then let '(s, replies) := serve_requests uid requests s in (s, reply :: replies) else (s, [])
  end.

Definition serveConnection (allowedUID : option Z) (allowAnyUID : bool) (uid : Z) (requests : list (Request * bool)) (s : Server)
    : Server * option (list Reply) :=
  if isAuthorizedUID uid allowedUID allowAnyUID
  then let '(s, replies) := serve_requests uid requests s in (s, Some replies)
  else (s, None).
End Handlers.

(** ** Shutdown *)

Definition shutdownStopMaxAttempts : nat := 5.

(** One attempt: every attachment is stopped, and kept only while it is retained. *)
Definition shutdown_attempt (outcome : Z -> stop_outcome) (s : Server) : Server :=
  let kept (a : Attachment) := bool_decide (outcome (FD a) = StopRetained) in
  let gone := list_to_set (FD <$> filter (fun a => kept a = false) ((map_to_list (attachments s)).*2 ++ (map_to_list (pendingStops s)).*2)) in
  mkServer (filter (fun kv => kept kv.2 = true) (attachments s)) (filter (fun kv => kept kv.2 = true) (pendingStops s))
    (speakers s) (dhcp s) (state s) (disk s) (live s ∖ gone).

(** The attempts made: until nothing is retained, at most [fuel] of them. *)
Fixpoint shutdown_loop (fuel attempt : nat) (outcome : nat -> Z -> stop_outcome) (s : Server) : Server * nat :=
  let s := shutdown_attempt (outcome attempt) s in
  match fuel with
  | O => (s, attempt)
  | S fuel =>
      if bool_decide (attachments s = ∅ /\ pendingStops s = ∅) then (s, attempt)
      else shutdown_loop fuel (S attempt) outcome s
  end.

(** [Shutdown], once the connections are gone *)
Definition Shutdown (close_ok : Z -> bool) (outcome : nat -> Z -> stop_outcome) (s : Server) : Server * nat :=
  let s := with_dhcp (Close close_ok (dhcp s)).2 (with_speakers (fun _ => ∅) s) in
  shutdown_loop (shutdownStopMaxAttempts - 1) 1 outcome s.

(** ** Interfaces are accounted for *)

(** Every interface the host holds is that of exactly one attachment or pending stop. *)
Record accounted_for (att : gmap attachmentKey Attachment) (pend : gmap Z Attachment) (l : gset Z) : Prop := {
  af_attached : forall k a, att !! k = Some a -> FD a ∈ l;
  af_pending : forall fd a, pend !! fd = Some a -> FD a = fd /\ fd ∈ l;
  af_unique : forall k1 k2 a1 a2, att !! k1 = Some a1 -> att !! k2 = Some a2 -> FD a1 = FD a2 -> k1 = k2;
  af_disjoint : forall k a, att !! k = Some a -> pend !! FD a = None;
  af_live : forall fd, fd ∈ l -> (exists k a, att !! k = Some a /\ FD a = fd) \/ is_Some (pend !! fd)
}.

Definition server_ok (s : Server) : Prop := accounted_for (attachments s) (pendingStops s) (live s).

Lemma accounted_start att pend l k a :
  accounted_for att pend l -> att !! k = None -> FD a ∉ l -> accounted_for (<[k := a]> att) pend (l ∪ {[FD a]}).
Proof.
  intros H Hk Hfd. split.
  - intros k' a' [[_ <-]|[_ Ha]]%lookup_insert_Some; [set_solver|]. apply (af_attached _ _ _ H) in Ha. set_solver.
  - intros fd b Hb. apply (af_pending _ _ _ H) in Hb as [? ?]. split; [done|set_solver].
  - intros k1 k2 a1 a2 [[<- <-]|[Hk1 H1]]%lookup_insert_Some [[<- <-]|[Hk2 H2]]%lookup_insert_Some E; [done| | |by eapply H].
    + apply (af_attached _ _ _ H) in H2. congruence.
    + apply (af_attached _ _ _ H) in H1. congruence.
  - intros k' a' [[_ <-]|[_ Ha]]%lookup_insert_Some; [|by eapply H]. destruct (pend !! FD a) eqn:E; [|done].
    apply (af_pending _ _ _ H) in E as [_ ?]. done.
  - intros fd [Hl| ->%elem_of_singleton]%elem_of_union.
    + apply (af_live _ _ _ H) in Hl as [(k' & a' & Ha & E)|?]; [|by right]. left. exists k', a'. split; [|done].
      rewrite lookup_insert_ne; [done|]. congruence.
    + left. exists k, a. by rewrite lookup_insert_eq.
Qed.

Lemma accounted_stop att pend l k a :
  accounted_for att pend l -> att !! k = Some a -> accounted_for (delete k att) pend (l ∖ {[FD a]}).
Proof.
  intros H Hk. split.
  - intros k' a' [Hne Ha]%lookup_delete_Some. apply elem_of_difference. split; [by eapply H|]. intros E%elem_of_singleton.
    apply Hne. by eapply (af_unique _ _ _ H).
  - intros fd b Hb. destruct (af_pending _ _ _ H _ _ Hb) as [E Hl]. split; [done|]. apply elem_of_difference. split; [done|].
    intros ->%elem_of_singleton. rewrite (af_disjoint _ _ _ H _ _ Hk) in Hb. done.
  - intros k1 k2 a1 a2 [_ H1]%lookup_delete_Some [_ H2]%lookup_delete_Some. by eapply H.
  - intros k' a' [_ Ha]%lookup_delete_Some. by eapply H.
  - intros fd [Hl Hne]%elem_of_difference. apply (af_live _ _ _ H) in Hl as [(k' & a' & Ha & E)|?]; [|by right].
    left. exists k', a'. split; [|done]. rewrite lookup_delete_ne; [done|]. intros <-. set_solver.
Qed.

Lemma accounted_pend att pend l k a :
  accounted_for att pend l -> att !! k = Some a -> accounted_for (delete k att) (<[FD a := a]> pend) l.
Proof.
  intros H Hk. split.
  - intros k' a' [_ Ha]%lookup_delete_Some. by eapply H.
  - intros fd b [[<- <-]|[_ Hb]]%lookup_insert_Some; [split; [done|by eapply H]|by apply (af_pending _ _ _ H)].
  - intros k1 k2 a1 a2 [_ H1]%lookup_delete_Some [_ H2]%lookup_delete_Some. by eapply H.
  - intros k' a' [Hne Ha]%lookup_delete_Some. rewrite lookup_insert_ne; [by eapply H|]. intros E. apply Hne. by eapply (af_unique _ _ _ H).
  - intros fd Hl. apply (af_live _ _ _ H) in Hl as [(k' & a' & Ha & E)|[b Hb]].
    + destruct (decide (k' = k)) as [->|Hne]; [right; assert (a' = a) as -> by congruence; rewrite <- E, lookup_insert_eq; by eexists|].
      left. exists k', a'. split; [by rewrite lookup_delete_ne|done].
    + right. destruct (decide (fd = FD a)) as [->|Hne]; [rewrite lookup_insert_eq; by eexists|rewrite lookup_insert_ne by done; by eexists].
Qed.

(** What an environment may do: a new interface has a new descriptor, and the platforms
    that can retain an interface (macOS) have no DHCP manager that could fail. *)
Definition host_ok (env : Env) (s : Server) : Prop :=
  (forall l i c n fd kind, startInterface env l i c n = Some (fd, kind) -> fd ∉ live s) /\
  forall fd, stopInterface env fd = StopRetained -> forall s', (convergeDHCP env s').1 = Ok tt.

(** The parts of the server that converging does not touch. *)
Definition same_ifaces (s s' : Server) : Prop :=
  attachments s' = attachments s /\ pendingStops s' = pendingStops s /\ live s' = live s.

Lemma same_ifaces_ok s s' : same_ifaces s s' -> server_ok s -> server_ok s'.
Proof. unfold server_ok. intros (-> & -> & ->). done. Qed.

Lemma convergeDHCP_frame env s : same_ifaces s (convergeDHCP env s).2 /\ state (convergeDHCP env s).2 = state s /\ disk (convergeDHCP env s).2 = disk s.
Proof. unfold convergeDHCP. destruct (Converge _ _ _ _ _ _). done. Qed.

Lemma convergeSynced_frame env s : same_ifaces s (convergeSynced env s).2 /\ state (convergeSynced env s).2 = state s /\ disk (convergeSynced env s).2 = disk s.
Proof.
  unfold convergeSynced. pose proof (convergeDHCP_frame env s) as Hf. destruct (convergeDHCP env s) as [r s']. destruct (convergeHostNetworking env _); done.
Qed.

Lemma sync_ifaces env owner clusters s : same_ifaces s (sync env owner clusters s).1.
Proof.
  unfold sync. destruct (Replace owner clusters _ _ _) as [[[[]|e] st] d]; [|done].
  pose proof (convergeSynced_frame env (with_state st d s)) as (Hf & _). destruct (convergeSynced env (with_state st d s)) as [[[]|e] s1]; [exact Hf|].
  destruct (Replace owner _ _ _ _) as [[[[]|e'] st'] d']; [|exact Hf]. cbn [fst].
  pose proof (convergeSynced_frame env (with_state st' d' s1)) as (Hf' & _). destruct Hf as (F1 & F2 & F3), Hf' as (G1 & G2 & G3).
  unfold same_ifaces. rewrite G1, G2, G3. done.
Qed.

(** What a request leaves of the other users' interfaces and of the reservations. *)
Definition others_kept (owner : Z) (s s' : Server) : Prop :=
  forall o c n, o <> owner -> attachments s' !! (o, c, n) = attachments s !! (o, c, n).

Lemma others_kept_same owner s s' : same_ifaces s s' -> others_kept owner s s'.
Proof. intros (E & _). unfold others_kept. by rewrite E. Qed.

Definition handled (owner : Z) (s s' : Server) (reply : Reply) : Prop :=
  server_ok s' /\ others_kept owner s s' /\
  match cleanup reply with Some (k, a) => k.1.1 = owner /\ attachments s' !! k = Some a | None => True end.

Lemma handled_same owner s s' reply : server_ok s -> same_ifaces s s' -> cleanup reply = None -> handled owner s s' reply.
Proof. intros Hs Hi Hc. split_and!; [by eapply same_ifaces_ok|by apply others_kept_same|by rewrite Hc]. Qed.

Lemma attach_handled env owner cluster index node s :
  server_ok s -> host_ok env s ->
  handled owner s (attach env owner cluster index node s).1 (attach env owner cluster index node s).2 /\
  state (attach env owner cluster index node s).1 = state s.
Proof.
  intros Hs [Hfresh Hret]. unfold attach.
  destruct (_ || _); [split; [by apply handled_same|done]|]. destruct index as [index|]; [|split; [by apply handled_same|done]].
  destruct (_ || _); [split; [by apply handled_same|done]|]. cbv zeta. case_bool_decide as Hk; [split; [by apply handled_same|done]|].
  apply eq_None_not_Some in Hk. destruct (startInterface _ _ _ _ _) as [[fd kind]|] eqn:Est; [|split; [by apply handled_same|done]].
  set (a := mkAttachment fd kind index). set (key := (owner, cluster, node)) in *. set (s1 := with_attachments _ _).
  assert (server_ok s1) as Hs1 by (apply (accounted_start (attachments s) (pendingStops s) (live s) key a Hs Hk); by eapply Hfresh).
  pose proof (convergeDHCP_frame env s1) as ((F1 & F2 & F3) & Fst & _). pose proof (fun fd H => Hret fd H s1) as Hret1.
  destruct (convergeDHCP env s1) as [r s2]. cbn [fst snd] in *.
  assert (others_kept owner s s1) as Ho by (intros o c n Hne; cbn; apply lookup_insert_ne; unfold key; congruence).
  assert (attachments s1 !! key = Some a) as Hka by (cbn; apply lookup_insert_eq).
  destruct r as [[]|e].
  - cbn [fst snd]. split; [|by rewrite Fst]. split_and!; [eapply same_ifaces_ok; [|exact Hs1]; done|unfold others_kept; by rewrite F1|]. cbn. split; [done|by rewrite F1].
  - unfold stop. specialize (Hret1 fd). destruct (stopInterface env (FD a)) eqn:Eo; cbn [FD] in Eo.
    2: { discriminate (Hret1 Eo). }
    all: cbn [fst snd]; split; [|cbn; by rewrite Fst]; (split_and!; [|intros o c n Hne; cbn; rewrite lookup_delete_ne, F1 by (unfold key; congruence); by apply Ho|done]);
      unfold server_ok; cbn; rewrite F1, F2, F3; apply (accounted_stop _ _ _ key a Hs1 Hka).
Qed.

Lemma cleanup_handled env key a s :
  server_ok s -> attachments s !! key = Some a ->
  server_ok (cleanup_attach env key a s) /\ others_kept key.1.1 s (cleanup_attach env key a s) /\ state (cleanup_attach env key a s) = state s.
Proof.
  intros Hs Hk. unfold cleanup_attach. rewrite Hk, Z.eqb_refl. unfold stop.
  assert (others_kept key.1.1 s (with_attachments (delete key) s)) as Ho.
  { intros o c n Hne. cbn. apply lookup_delete_ne. intros ->. done. }
  destruct (stopInterface env (FD a)); cbn; (split_and!; [|exact Ho|done]).
  - by apply accounted_stop.
  - by apply accounted_pend.
  - by apply accounted_stop.
Qed.

Lemma detach_handled env owner cluster node s :
  server_ok s -> handled owner s (detach env owner cluster node s).1 (detach env owner cluster node s).2 /\ state (detach env owner cluster node s).1 = state s.
Proof.
  intros Hs. unfold detach. destruct (_ || _); [split; [by apply handled_same|done]|]. cbv zeta.
  destruct (attachments s !! (owner, cluster, node)) as [a|] eqn:Hk; [|split; [by apply handled_same|done]].
  assert (others_kept owner s (with_attachments (delete (owner, cluster, node)) s)) as Ho.
  { intros o c n Hne. cbn. apply lookup_delete_ne. congruence. }
  unfold stop. destruct (stopInterface env (FD a)); cbn; (split; [|done]).
  - split_and!; [by apply accounted_stop|exact Ho|done].
  - by apply handled_same.
  - split_and!; [by apply accounted_stop|exact Ho|done].
Qed.

Lemma dispatch_handled env uid request s :
  server_ok s -> host_ok env s -> handled uid s (dispatchFrom env uid request s).1 (dispatchFrom env uid request s).2.
Proof.
  intros Hs Hh. destruct request; cbn [dispatchFrom fst snd]; try (by apply handled_same).
  - by apply attach_handled.
  - by apply detach_handled.
  - unfold teardownNetwork. destruct index as [index|]; [|by apply handled_same]. destruct (_ || _); [by apply handled_same|].
    destruct (teardownSubnet env index); [|by apply handled_same]. destruct (Release _ _ _) as [[[]|e] m]; by apply handled_same.
  - apply handled_same; [done|apply sync_ifaces|]. unfold sync. destruct (Replace _ _ _ _ _) as [[[[]|e] st] d]; [|done].
    destruct (convergeSynced _ _) as [[[]|e] s1]; [done|]. by destruct (Replace _ _ _ _ _) as [[[[]|e'] st'] d'].
  - unfold dnsListenerReply. destruct (decodeDNSIdentity _ _ _) as [[name i]|e]; [|by apply handled_same]. destruct (bindDNS _ _ _); by apply handled_same.
  - destruct (decodeDNSIdentity _ _ _) as [[name i]|e]; by apply handled_same.
  - apply handled_same; [done|done|]. destruct index; [|done]. by repeat case_match.
  - apply handled_same; [done|done|]. by case_match.
  - unfold enableBGP. destruct (validateBGPEnableArgs _ _ _ _); [|by apply handled_same]. repeat case_match; by apply handled_same.
  - unfold disableBGP. case_match; by apply handled_same.
  - apply handled_same; [done|done|]. by case_match.
Qed.

(** ** Reservations *)

Lemma Replace_cases owner in_ w st d r st' d' :
  Replace owner in_ w st d = (r, st', d') ->
  ((exists e, r = Err e) /\ st' = st /\ d' = d) \/
  (r = Ok tt /\ partitions st' = <[owner := in_]> (partitions st) /\ unionClusters (<[owner := in_]> (partitions st)) = Ok (clusters st') /\ has_path st' = has_path st).
Proof.
  unfold Replace, persist. destruct (syncedClusters in_) as [items|e]; [|intros [= <- <- <-]; left; eauto].
  cbv zeta. destruct (unionClusters _) as [union|e] eqn:Eu; [|intros [= <- <- <-]; left; eauto].
  destruct (has_path st) eqn:Ep; cbn [negb]; [destruct w|]; intros [= <- <- <-]; [right|left; eauto|right]; by split_and!.
Qed.

Lemma union_owners_ext parts parts' owners : forall union claimed,
  (forall o, o ∈ owners -> default [] (parts !! o) = default [] (parts' !! o)) ->
  union_owners parts owners union claimed = union_owners parts' owners union claimed.
Proof.
  induction owners as [|o owners IH]; intros union claimed Hext; [done|]. cbn [union_owners].
  rewrite (Hext o) by apply list_elem_of_here. destruct (syncedClusters _); [|done]. destruct (claim_names _ _ _); [|done].
  apply IH. intros o' Ho'. by apply Hext, list_elem_of_further.
Qed.

(** A user without reservations contributes nothing. *)
Lemma union_owners_nil parts o owners : forall union claimed, default [] (parts !! o) = [] ->
  union_owners parts owners union claimed = union_owners parts (filter (fun x => x <> o) owners) union claimed.
Proof.
  induction owners as [|x owners IH]; intros union claimed Ho; [done|]. rewrite filter_cons. destruct (decide (x <> o)) as [Hne|He].
  - cbn [union_owners]. destruct (syncedClusters _); [|done]. destruct (claim_names _ _ _); [|done]. by apply IH.
  - apply dec_stable in He as ->. cbn [union_owners]. rewrite Ho. cbn. rewrite app_nil_r. by apply IH.
Qed.

Lemma filter_keeps (o : Z) (l : list Z) : (forall x, x ∈ l -> x <> o) -> filter (fun x => x <> o) l = l.
Proof.
  induction l as [|x l IH]; intros Hx; [done|]. rewrite filter_cons_True by (apply Hx, list_elem_of_here). f_equal.
  apply IH. intros y Hy. by apply Hx, list_elem_of_further.
Qed.

Lemma filter_sort_ints o l : filter (fun x => x <> o) (sort_ints l) = sort_ints (filter (fun x => x <> o) l).
Proof.
  apply (StronglySorted_unique Z.le).
  - assert (StronglySorted Z.le (sort_ints l)) as Hs by apply sort_ints_sorted. induction Hs as [|x m Hm IH Hx]; [constructor|].
    rewrite filter_cons. destruct (decide _); [|done]. constructor; [done|]. apply Forall_forall. intros y [_ Hy]%list_elem_of_filter.
    rewrite Forall_forall in Hx. by apply Hx.
  - apply sort_ints_sorted.
  - rewrite !sort_ints_perm. done.
Qed.

Lemma union_insert_nil parts o : parts !! o = None -> unionClusters (<[o := []]> parts) = unionClusters parts.
Proof.
  intros Hn. unfold unionClusters.
  rewrite (union_owners_nil (<[o := []]> parts) o) by (by rewrite lookup_insert_eq).
  rewrite filter_sort_ints. replace (union_owners (<[o := []]> parts) (sort_ints (filter (fun x => x <> o) (map_to_list (<[o := []]> parts)).*1)) [] ∅)
    with (union_owners parts (sort_ints (map_to_list parts).*1) [] ∅); [done|].
  assert (sort_ints (filter (fun x => x <> o) (map_to_list (<[o := []]> parts)).*1) = sort_ints (map_to_list parts).*1) as ->.
  { apply (StronglySorted_unique Z.le); [apply sort_ints_sorted|apply sort_ints_sorted|]. rewrite !sort_ints_perm, map_to_list_insert by done.
    rewrite fmap_cons. cbn [fst]. rewrite filter_cons_False by tauto. rewrite filter_keeps; [done|].
    intros x (kv & -> & Hkv)%list_elem_of_fmap E. destruct kv as [k v]. apply elem_of_map_to_list in Hkv. cbn in E. congruence. }
  apply union_owners_ext. intros x Hx. rewrite lookup_insert_ne; [done|]. intros <-.
  rewrite elem_of_sort_ints in Hx. apply list_elem_of_fmap in Hx as (kv & Ek & Hkv). destruct kv as [k v]. cbn in Ek. subst k. apply elem_of_map_to_list in Hkv. congruence.
Qed.

(** Putting back the previous partition gives back the previous union. *)
Lemma Replace_back owner in_ w st d st1 d1 :
  state_ok st -> Replace owner in_ w st d = (Ok tt, st1, d1) ->
  exists d2 st2, Replace owner (Partition st owner) true st1 d1 = (Ok tt, st2, d2) /\ clusters st2 = clusters st /\
    forall o, Partition st2 o = Partition st o.
Proof.
  intros Hok [[[e [=]] _]|(_ & Hp & _ & Hpath)]%Replace_cases. unfold state_ok in Hok.
  assert (<[owner := Partition st owner]> (partitions st1) = <[owner := Partition st owner]> (partitions st)) as Eparts by (rewrite Hp; apply insert_insert_eq).
  assert (unionClusters (<[owner := Partition st owner]> (partitions st)) = Ok (clusters st)) as Hu.
  { unfold Partition. destruct (partitions st !! owner) as [l|] eqn:El; cbn; [by rewrite insert_id|by rewrite union_insert_nil]. }
  assert (exists items, syncedClusters (Partition st owner) = Ok items) as (items & Hs).
  { unfold Partition. destruct (partitions st !! owner) as [l|] eqn:El; cbn; [|by eexists].
    unfold unionClusters in Hok. destruct (union_owners _ _ _ _) as [u|] eqn:Eu; [|done]. clear Hok Hu Eparts.
    assert (owner ∈ sort_ints (map_to_list (partitions st)).*1) as Hin.
    { rewrite elem_of_sort_ints. apply list_elem_of_fmap. exists (owner, l). split; [done|]. by apply elem_of_map_to_list. }
    revert Eu. generalize (∅ : gmap string Z) ([] : list Cluster). revert Hin. generalize (sort_ints (map_to_list (partitions st)).*1).
    induction l0 as [|x l0 IH]; intros Hin claimed acc Eu; [by apply not_elem_of_nil in Hin|]. cbn [union_owners] in Eu.
    destruct (syncedClusters (default [] (partitions st !! x))) as [its|] eqn:Es; [|done]. destruct (claim_names _ _ _) as [c'|]; [|done].
    apply elem_of_cons in Hin as [->|Hin]; [rewrite El in Es; by eexists|by eapply IH]. }
  unfold Replace. rewrite Hs. cbv zeta. rewrite Eparts, Hu. unfold persist.
  assert (forall st2, partitions st2 = <[owner := Partition st owner]> (partitions st) -> forall o, Partition st2 o = Partition st o) as Hpart.
  { intros st2 E o. unfold Partition at 1. rewrite E. destruct (decide (o = owner)) as [->|Hne]; [by rewrite lookup_insert_eq|]. by rewrite lookup_insert_ne. }
  destruct (has_path st1); cbn [negb]; eexists _, _; (split; [done|]); (split; [done|]); by apply Hpart.
Qed.

(** ** Theorems *)

(** Every part of a server that requests preserve: its interfaces and its reservations. *)
Definition helper_ok (s : Server) : Prop := server_ok s /\ state_ok (state s).

Lemma sync_state env owner clusters s :
  state_ok (state s) ->
  state_ok (state (sync env owner clusters s).1) /\
  forall o, o <> owner -> Partition (state (sync env owner clusters s).1) o = Partition (state s) o.
Proof.
  intros Hok.
  assert (forall in_ w st d r st' d', state_ok st -> Replace owner in_ w st d = (r, st', d') ->
    state_ok st' /\ forall o, o <> owner -> Partition st' o = Partition st o) as HR.
  { intros in_ w st d r st' d' Hst [(_ & -> & _)|(_ & Hp & Hu & _)]%Replace_cases; [done|]. split; [unfold state_ok; by rewrite Hp|].
    intros o Hne. unfold Partition. rewrite Hp. by rewrite lookup_insert_ne. }
  unfold sync. destruct (Replace owner clusters _ _ _) as [[r1 st1] d1] eqn:E1. destruct (HR _ _ _ _ _ _ _ Hok E1) as [Hok1 Hp1].
  destruct r1 as [[]|e]; [|done]. pose proof (convergeSynced_frame env (with_state st1 d1 s)) as (_ & Hst & _).
  destruct (convergeSynced env (with_state st1 d1 s)) as [[[]|e] s1]; cbn [fst snd] in *; [by rewrite Hst|].
  destruct (Replace owner (Partition (state s) owner) _ _ _) as [[r2 st2] d2] eqn:E2. rewrite Hst in E2. cbn in E2. destruct (HR _ _ _ _ _ _ _ Hok1 E2) as [Hok2 Hp2].
  assert (forall o, o <> owner -> Partition st2 o = Partition (state s) o) as Hp by (intros o Hne; by rewrite Hp2, Hp1).
  destruct r2 as [[]|e']; cbn; [|done]. pose proof (convergeSynced_frame env (with_state st2 d2 s1)) as (_ & Hst' & _). by rewrite Hst'.
Qed.

Lemma dispatch_state env uid request s :
  server_ok s -> host_ok env s -> state_ok (state s) ->
  state_ok (state (dispatchFrom env uid request s).1) /\
  forall o, o <> uid -> Partition (state (dispatchFrom env uid request s).1) o = Partition (state s) o.
Proof.
  intros Hs Hh Hok. destruct request; cbn [dispatchFrom fst snd]; try done.
  - by rewrite (proj2 (attach_handled env uid cluster index node s Hs Hh)).
  - by rewrite (proj2 (detach_handled env uid cluster node s Hs)).
  - unfold teardownNetwork. destruct index; [|done]. destruct (_ || _); [done|]. destruct (teardownSubnet _ _); [|done]. by destruct (Release _ _ _).
  - by apply sync_state.
  - unfold dnsListenerReply. destruct (decodeDNSIdentity _ _ _) as [[? ?]|]; [|done]. by destruct (bindDNS _ _ _).
  - unfold enableBGP. destruct (validateBGPEnableArgs _ _ _ _); [|done]. by repeat case_match.
  - unfold disableBGP. by case_match.
Qed.

Lemma serve_ok env uid request delivered s :
  helper_ok s -> host_ok env s ->
  helper_ok (serve env uid request delivered s).1 /\ others_kept uid s (serve env uid request delivered s).1 /\
  forall o, o <> uid -> Partition (state (serve env uid request delivered s).1) o = Partition (state s) o.
Proof.
  intros [Hs Hst] Hh. unfold serve. pose proof (dispatch_handled env uid request s Hs Hh) as (H1 & H2 & H3).
  pose proof (dispatch_state env uid request s Hs Hh Hst) as [H4 H5]. destruct (dispatchFrom env uid request s) as [s1 reply]. cbn [fst snd] in *.
  destruct (cleanup reply) as [[key a]|]; [|done]. destruct delivered; [done|]. destruct H3 as [<- Hk].
  destruct (cleanup_handled env key a s1 H1 Hk) as (C1 & C2 & C3). split_and!; [split; [done|by rewrite C3]| |intros o Hne; rewrite C3; by apply H5].
  intros o c n Hne. rewrite C2 by done. by apply H2.
Qed.



(** The interfaces still held after an attempt were retained in it. *)
Lemma shutdown_attempt_ok outcome s : server_ok s ->
  server_ok (shutdown_attempt outcome s) /\
  forall fd, fd ∈ live (shutdown_attempt outcome s) <-> fd ∈ live s /\ outcome fd = StopRetained.
Proof.
  intros Hs. set (kept := fun a : Attachment => bool_decide (outcome (FD a) = StopRetained)).
  assert (forall fd, fd ∈ live (shutdown_attempt outcome s) <-> fd ∈ live s /\ outcome fd = StopRetained) as Hlive.
  { intros fd. cbn. rewrite elem_of_difference, elem_of_list_to_set, list_elem_of_fmap. split.
    - intros [Hl Hng]. split; [done|]. destruct (decide (outcome fd = StopRetained)) as [|Hn]; [done|exfalso]. apply Hng.
      assert (exists a, FD a = fd /\ a ∈ (map_to_list (attachments s)).*2 ++ (map_to_list (pendingStops s)).*2) as (a & Ea & Hin).
      { apply (af_live _ _ _ Hs) in Hl as [(k & a & Ha & E)|[a Ha]].
        - exists a. split; [done|]. apply elem_of_app. left. apply list_elem_of_fmap. exists (k, a). split; [done|by apply elem_of_map_to_list].
        - exists a. split; [by apply (af_pending _ _ _ Hs) in Ha as [? _]|]. apply elem_of_app. right. apply list_elem_of_fmap. exists (fd, a).
          split; [done|by apply elem_of_map_to_list]. }
      exists a. split; [done|]. apply list_elem_of_filter. split; [|done]. rewrite Ea. by apply bool_decide_eq_false.
    - intros [Hl Hr]. split; [done|]. intros (a & Ea & [Hk _]%list_elem_of_filter). rewrite <- Ea, Hr in *. by rewrite bool_decide_eq_true_2 in Hk. }
  split; [|done]. cbn [shutdown_attempt] in *. split; cbn [attachments pendingStops live shutdown_attempt].
  - intros k a [Ha Hk%bool_decide_eq_true]%map_lookup_filter_Some. apply Hlive. split; [by eapply Hs|done].
  - intros fd a [Ha Hk%bool_decide_eq_true]%map_lookup_filter_Some. destruct (af_pending _ _ _ Hs _ _ Ha) as [E Hl]. split; [done|].
    apply Hlive. cbn in Hk. rewrite E in Hk. done.
  - intros k1 k2 a1 a2 [H1 _]%map_lookup_filter_Some [H2 _]%map_lookup_filter_Some. by eapply Hs.
  - intros k a [Ha _]%map_lookup_filter_Some. apply map_lookup_filter_None. left. by eapply Hs.
  - intros fd [Hl Hr]%Hlive. apply (af_live _ _ _ Hs) in Hl as [(k & a & Ha & E)|[a Ha]].
    + left. exists k, a. split; [|done]. apply map_lookup_filter_Some. split; [done|]. cbn. apply bool_decide_eq_true. congruence.
    + right. exists a. apply map_lookup_filter_Some. split; [done|]. cbn. apply bool_decide_eq_true. by rewrite (proj1 (af_pending _ _ _ Hs _ _ Ha)).
Qed.

Lemma nothing_tracked_nothing_held s : server_ok s -> attachments s = ∅ -> pendingStops s = ∅ -> live s = ∅.
Proof.
  intros Hs E1 E2. apply set_eq. intros fd. split; [|set_solver]. intros Hl.
  apply (af_live _ _ _ Hs) in Hl as [(k & a & Ha & _)|[a Ha]]; [rewrite E1 in Ha|rewrite E2 in Ha]; by rewrite lookup_empty in Ha.
Qed.

Lemma shutdown_loop_ok fuel : forall attempt outcome s, server_ok s ->
  let '(s', n) := shutdown_loop fuel attempt outcome s in
  server_ok s' /\ (attempt <= n <= attempt + fuel)%nat /\
  forall fd, fd ∈ live s' -> fd ∈ live s /\ n = (attempt + fuel)%nat /\ forall i, (attempt <= i <= n)%nat -> outcome i fd = StopRetained.
Proof.
  induction fuel as [|fuel IH]; intros attempt outcome s Hs; cbn [shutdown_loop]; destruct (shutdown_attempt_ok (outcome attempt) s Hs) as [H1 H2].
  - split_and!; [done|lia|lia|]. intros fd [Hl Hr]%H2. split_and!; [done|lia|]. intros i Hi. by replace i with attempt by lia.
  - case_bool_decide as Hd.
    + destruct Hd as [E1 E2]. split_and!; [done|lia|lia|]. intros fd Hl. rewrite (nothing_tracked_nothing_held _ H1 E1 E2) in Hl. set_solver.
    + specialize (IH (S attempt) outcome _ H1). destruct (shutdown_loop fuel (S attempt) outcome _) as [s' n]. destruct IH as (I1 & I2 & I3).
      split_and!; [done|lia|lia|]. intros fd Hl. destruct (I3 fd Hl) as (J1 & J2 & J3). apply H2 in J1 as [J1 J1']. split_and!; [done|lia|].
      intros i Hi. destruct (decide (i = attempt)) as [->|Hne]; [done|]. apply J3. lia.
Qed.

(** Shutting down ends, and gives up only on what the host refuses to release.  It
    makes at most five attempts; what is held afterwards was retained in every one of
    five; so when each interface is let go in some attempt, nothing is held, and with
    nothing retained one attempt is all it takes. *)
Theorem shutdown_bounded close_ok outcome s s' n :
  helper_ok s -> Shutdown close_ok outcome s = (s', n) ->
  (1 <= n <= shutdownStopMaxAttempts)%nat /\ server_ok s' /\
  (forall fd, fd ∈ live s' -> n = shutdownStopMaxAttempts /\ forall i, (1 <= i <= 5)%nat -> outcome i fd = StopRetained) /\
  ((forall fd, fd ∈ live s -> exists i, (1 <= i <= 5)%nat /\ outcome i fd <> StopRetained) -> live s' = ∅ /\ attachments s' = ∅ /\ pendingStops s' = ∅).
Proof.
  intros [Hs _] E. unfold Shutdown in E. set (s0 := with_dhcp _ _) in E. assert (server_ok s0) as Hs0 by done.
  pose proof (shutdown_loop_ok (shutdownStopMaxAttempts - 1) 1 outcome s0 Hs0) as H. rewrite E in H. destruct H as (H1 & H2 & H3).
  unfold shutdownStopMaxAttempts in *. split_and!; [lia|lia|done| |].
  - intros fd Hl. destruct (H3 fd Hl) as (_ & -> & Hi). done.
  - intros Hall. assert (live s' = ∅) as El.
    { apply set_eq. intros fd. split; [|set_solver]. intros Hl. destruct (H3 fd Hl) as (Hl0 & -> & Hr). destruct (Hall fd Hl0) as (i & Hi & Hn).
      destruct (Hn (Hr i Hi)). }
    split_and!; [done| |]; apply map_empty; intros k; apply eq_None_not_Some; intros [a Ha].
    + apply (af_attached _ _ _ H1) in Ha. rewrite El in Ha. set_solver.
    + apply (af_pending _ _ _ H1) in Ha as [_ Ha]. rewrite El in Ha. set_solver.
Qed.

(** ** Witnesses *)

Definition demo_env : Env :=
  mkEnv (fun _ _ _ _ => Some (9, "tap-fd")) (fun _ => Stopped) (fun _ => HostFailed) (fun _ => Some true) (fun _ => None)
    (fun _ => true) (fun _ => true) true true (fun _ => true) (fun _ _ => None) true.

Definition demo_server : Server := NewServer (NewState "") Missing.

Lemma demo_server_ok : helper_ok demo_server.
Proof. split; [|reflexivity]. split; cbn; intros *; rewrite ?lookup_empty; done. Qed.

Lemma demo_host_ok : host_ok demo_env demo_server.
Proof. split; [|done]. intros. cbn. set_solver. Qed.



Lemma shutdown_bounded_witness : (1 <= (Shutdown (fun _ => true) (fun _ _ => Stopped) demo_server).2 <= shutdownStopMaxAttempts)%nat.
Proof.
  refine (proj1 (shutdown_bounded (fun _ => true) (fun _ _ => Stopped) demo_server _ _ _ (surjective_pairing _))).
  exact demo_server_ok.
Defined.
