(* ===== verification/Effects.v ===== *)
(** * Stateful code as state passing

    A Go method on a shared structure is a function from its state to its state and its
    results; errors are values, since almost every caller handles the error of its
    callee.  [runs w m Q]: from state [w], the computation [m] ends as [Q] says. *)

From stdpp Require Import base list.
From S2P Require Import Prelude.

Definition State (S A : Type) : Type := S -> S * A.

#[global] Instance State_ret (S : Type) : MRet (State S) := fun A a w => (w, a).
#[global] Instance State_bind (S : Type) : MBind (State S) := fun A B k m w => let '(w', a) := m w in k a w'.

Section Ops.
Context {S : Type}.

Definition get : State S S := fun w => (w, w).
Definition modify (f : S -> S) : State S unit := fun w => (f w, tt).

(** [for _, x := range l], collecting what each iteration appends *)
Fixpoint gather {A B} (l : list A) (body : A -> State S (list B)) : State S (list B) :=
  match l with
  | [] => mret []
  | x :: l => b ← body x; rest ← gather l body; mret (b ++ rest)
  end.

Definition runs {A} (w : S) (m : State S A) (Q : S -> A -> Prop) : Prop := Q (m w).1 (m w).2.

Section Rules.
Context {A B : Type}.

Lemma post_conseq w (m : State S A) (P Q : S -> A -> Prop) :
  runs w m P -> (forall w' a, P w' a -> Q w' a) -> runs w m Q.
Proof. unfold runs. auto. Qed.

Lemma post_bind w (m : State S A) (k : A -> State S B) Q : runs w m (fun w' a => runs w' (k a) Q) -> runs w (m ≫= k) Q.
Proof. unfold runs, mbind, State_bind. by destruct (m w). Qed.

Lemma post_ret w (a : A) (Q : S -> A -> Prop) : Q w a -> runs w (mret a) Q.
Proof. done. Qed.

(** Two facts about one run hold together. *)
Lemma post_and w (m : State S A) (P Q : S -> A -> Prop) : runs w m P -> runs w m Q -> runs w m (fun w' a => P w' a /\ Q w' a).
Proof. by split. Qed.
End Rules.

Lemma post_get w (Q : S -> S -> Prop) : Q w w -> runs w get Q.
Proof. done. Qed.

Lemma post_modify w f (Q : S -> unit -> Prop) : Q (f w) tt -> runs w (modify f) Q.
Proof. done. Qed.

(** A loop keeps an invariant of the items done and what they appended. *)
Lemma post_gather {A B} (l : list A) (body : A -> State S (list B)) (I : list A -> list B -> S -> Prop) w :
  I [] [] w ->
  (forall l1 x l2 bs w, l = l1 ++ x :: l2 -> I l1 bs w -> runs w (body x) (fun w' b => I (l1 ++ [x]) (bs ++ b) w')) ->
  runs w (gather l body) (fun w' bs => I l bs w').
Proof.
  intros H0 Hb. enough (Hg : forall l2 l1 bs w, l = l1 ++ l2 -> I l1 bs w ->
    runs w (gather l2 body) (fun w' b => I l (bs ++ b) w')).
  { eapply post_conseq; [apply (Hg l [] [] w eq_refl H0)|done]. }
  induction l2 as [|x l2 IH]; intros l1 bs w' -> Hi.
  - apply post_ret. by rewrite !app_nil_r in *.
  - apply post_bind. eapply post_conseq; [by eapply Hb|]. intros w1 b H1. apply post_bind.
    eapply post_conseq; [apply (IH (l1 ++ [x]) (bs ++ b)); [by rewrite <- app_assoc|done]|].
    intros w2 c H2. apply post_ret. by rewrite app_assoc.
Qed.

Lemma gather_fmap {A B C} (f : A -> B) l (body : B -> State S (list C)) w :
  gather (f <$> l) body w = gather l (fun x => body (f x)) w.
Proof.
  revert w. induction l as [|x l IH]; intros w; [done|]. simpl. unfold mbind, State_bind. destruct (body (f x) w) as [w1 b].
  rewrite IH. done.
Qed.

(** ** Calls that return an error

    [x ←! m; k]: the [if err != nil { return err }] after a call. *)
Section Errors.
Context {E : Type}.

Definition ok {A} (a : A) : State S (result E A) := mret (Ok a).
Definition fail {A} (e : E) : State S (result E A) := mret (Err e).

Definition try_bind {A B} (m : State S (result E A)) (k : A -> State S (result E B)) : State S (result E B) :=
  r ← m; match r with Ok a => k a | Err e => fail e end.

(** The same loop, returning at the first error *)
Fixpoint gather_try {A B} (l : list A) (body : A -> State S (result E (list B))) : State S (result E (list B)) :=
  match l with
  | [] => ok []
  | x :: l => try_bind (body x) (fun b => try_bind (gather_try l body) (fun rest => ok (b ++ rest)))
  end.

Lemma post_try {A B} w (m : State S (result E A)) (k : A -> State S (result E B)) Q :
  runs w m (fun w' r => match r with Ok a => runs w' (k a) Q | Err e => Q w' (Err e) end) -> runs w (try_bind m k) Q.
Proof.
  intros H. apply post_bind. eapply post_conseq; [exact H|]. intros w' [a|e] H'; [done|]. by apply post_ret.
Qed.

Lemma post_gather_try {A B} (l : list A) (body : A -> State S (result E (list B))) (I : list A -> list B -> S -> Prop)
    (J : E -> S -> Prop) w :
  I [] [] w ->
  (forall l1 x l2 bs w, l = l1 ++ x :: l2 -> I l1 bs w ->
    runs w (body x) (fun w' r => match r with Ok b => I (l1 ++ [x]) (bs ++ b) w' | Err e => J e w' end)) ->
  runs w (gather_try l body) (fun w' r => match r with Ok bs => I l bs w' | Err e => J e w' end).
Proof.
  intros H0 Hb. enough (Hg : forall l2 l1 bs w, l = l1 ++ l2 -> I l1 bs w ->
    runs w (gather_try l2 body) (fun w' r => match r with Ok b => I l (bs ++ b) w' | Err e => J e w' end)).
  { eapply post_conseq; [apply (Hg l [] [] w eq_refl H0)|]. by intros w' []. }
  induction l2 as [|x l2 IH]; intros l1 bs w' -> Hi.
  - apply post_ret. by rewrite !app_nil_r in *.
  - apply post_try. eapply post_conseq; [by eapply Hb|]. intros w1 [b|e] H1; [|done]. apply post_try.
    eapply post_conseq; [apply (IH (l1 ++ [x]) (bs ++ b)); [by rewrite <- app_assoc|done]|].
    intros w2 [c|e] H2; [|done]. apply post_ret. by rewrite app_assoc.
Qed.
End Errors.

(** ** Frames: a preorder between states that a computation stays inside *)
Section Frames.
Context (R : S -> S -> Prop) `{!PreOrder R}.

Definition stays {A} (m : State S A) : Prop := forall w, runs w m (fun w' _ => R w w').

Lemma stays_bind {A B} (m : State S A) (k : A -> State S B) : stays m -> (forall a, stays (k a)) -> stays (m ≫= k).
Proof.
  intros Hm Hk w. apply post_bind. eapply post_conseq; [apply Hm|]. intros w1 a H1.
  eapply post_conseq; [apply Hk|]. intros w2 b H2. etrans; [apply H1|apply H2].
Qed.

Lemma stays_ret {A} (a : A) : stays (mret a).
Proof. intros w. apply post_ret. reflexivity. Qed.

Lemma stays_get : stays get.
Proof. intros w. apply post_get. reflexivity. Qed.

Lemma stays_gather {A B} (l : list A) (body : A -> State S (list B)) : (forall x, stays (body x)) -> stays (gather l body).
Proof.
  intros Hb. induction l as [|x l IH]; simpl; [apply stays_ret|].
  apply stays_bind; [apply Hb|intros b]. apply stays_bind; [apply IH|intros c; apply stays_ret].
Qed.

Lemma stays_try {E A B} (m : State S (result E A)) (k : A -> State S (result E B)) :
  stays m -> (forall a, stays (k a)) -> stays (try_bind m k).
Proof. intros Hm Hk. apply stays_bind; [done|]. intros []; [apply Hk|apply stays_ret]. Qed.

Lemma stays_gather_try {E A B} (l : list A) (body : A -> State S (result E (list B))) :
  (forall x, stays (body x)) -> stays (gather_try l body).
Proof.
  intros Hb. induction l as [|x l IH]; simpl; [apply stays_ret|].
  apply stays_try; [apply Hb|intros b]. apply stays_try; [apply IH|intros c; apply stays_ret].
Qed.
End Frames.
End Ops.

Declare Scope effect_scope.
Delimit Scope effect_scope with effect.
Notation "x ←! m ; k" := (try_bind m (fun x => k)) (at level 20, m at level 100, k at level 200, right associativity) : effect_scope.

Create HintDb frame.
#[export] Hint Resolve stays_ret stays_get stays_gather stays_gather_try : frame.

(** Walk down a program, splitting its branches. *)
Ltac stays_step :=
  match goal with
  | |- stays _ (mbind _ _) => apply stays_bind; [typeclasses eauto| |intros ?]
  | |- stays _ (try_bind _ _) => apply stays_try; [typeclasses eauto| |intros ?]
  | |- stays _ (match ?x with _ => _ end) => destruct x
  | |- stays _ _ => solve [eauto with frame typeclass_instances]
  end.
Ltac stays_tac := repeat stays_step; eauto with frame typeclass_instances.
