(* ===== verification/Suspend.v ===== *)
(** * Suspend, resume and the run state of nodes ([internal/daemon]: suspend.go,
      node_runstate.go, the start and stop paths of operations.go and server.go)

    One cluster: the files of its directory that suspend writes, the machines the daemon
    tracks, and the disks underneath them.  The contract of a machine is the one of
    [internal/hypervisor] ([Machine], [Restore]): a schedule, a parameter, says which
    calls fail, what a failing call left behind and how a launch ends.  A disk has a
    version that moves whenever its guest runs, and a save records the version it was
    taken at, so that restoring memory onto a disk it does not match is visible. *)

From stdpp Require Import base list gmap sorting strings.
From Stdlib Require Import Ascii ZArith Lia.
From S2P Require Import Prelude GoStrings Cluster Effects.

Local Open Scope Z_scope.

(** ** State *)

(** Saved memory: the disk version it belongs to, and whether the guest had a balloon
    device. *)
Record Save := mkSave { sv_disk : nat; sv_balloon : bool }.

(** A file of the cluster directory. *)
Inductive File := FSave (sv : Save) (modTime : Z) | FText (content : string).

(** A machine: [Active], its device set, and the save it was restored from with the disk
    version that save was applied to, if it did not cold-boot. *)
Record Machine := mkMachine { m_active : bool; m_balloon : bool; m_memory : option (Save * nat) }.

(** The calls out of this component, in order. *)
Inductive event :=
| CancelProvision | InvalidateStorage | BindMirrors | UnbindMirrors | BeginProvision
| VMStarted (node : string) | ForgetNode (node : string) | ForgetCluster.

Record World := mkWorld {
  files : gmap string File;
  vms : gmap string Machine;
  disk : gmap string nat;
  holds : list Z;
  events : list event;
  tick : nat
}.

(** The process: whether it launches guests without a balloon device, and the token that
    names it ([daemonInstanceToken]). *)
Record Daemon := mkDaemon { balloonDisabled : bool; instanceToken : string }.

Inductive io_error := NotExist | IOFailed.

Inductive launch_outcome :=
| LaunchFails (incompatible : bool)
| Boots (restores : bool).

(** Which calls fail, by the number of calls made so far, and the clock. *)
Record Schedule := mkSchedule {
  s_remove : nat -> bool;
  s_stat : nat -> bool;
  s_glob : nat -> bool;
  s_write : nat -> bool;
  s_left : nat -> option string;
  s_machine : nat -> bool;
  s_partial : nat -> option Save;
  s_exits : nat -> bool;
  s_launch : nat -> launch_outcome;
  s_now : nat -> Z
}.

(** What the operator is told. *)
Inductive Warning :=
| GateWarning (text : string)
| ColdBoot (node : string) (saveMissing : bool)
| BalloonMismatch (node : string) (disabledNow : bool)
| StaleMarker (node : string)
| Discarded (subject : string)
| Undiscarded (subject : string)
| ClocksBehind (seconds : Z)
| Quorum (node : string) (remaining total : nat).

Inductive op_error :=
| Refused (gate : string)
| NotRunning
| AlreadyRunning
| SuspendUnsupported
| SuspendFailed (nodes : list string)
| ResumeFailed (node : string) (incompatible : bool) (unclosed : list string)
| ReleaseFailed (node : string)
| CreateFailed (node : string) (unclosed : list string) (undiscarded : list Warning)
| StopFailed (nodes : list string)
| NodeNameRequired
| NoSuchNode (name : string).

(** ** Operations on the state *)

Abbreviation M := (State World).

Definition with_files (f : gmap string File) (w : World) : World := mkWorld f (vms w) (disk w) (holds w) (events w) (tick w).
Definition with_vms (m : gmap string Machine) (w : World) : World := mkWorld (files w) m (disk w) (holds w) (events w) (tick w).
Definition with_disk (d : gmap string nat) (w : World) : World := mkWorld (files w) (vms w) d (holds w) (events w) (tick w).
Definition with_holds (h : list Z) (w : World) : World := mkWorld (files w) (vms w) (disk w) h (events w) (tick w).
Definition emit (e : event) : M unit := modify (fun w => mkWorld (files w) (vms w) (disk w) (holds w) (events w ++ [e]) (tick w)).

(** One call out: its number. *)
Definition call : M nat := fun w => (mkWorld (files w) (vms w) (disk w) (holds w) (events w) (S (tick w)), tick w).

Definition track (node : string) (m : Machine) : M unit := modify (fun w => with_vms (<[node := m]> (vms w)) w).
Definition untrack (node : string) : M unit := modify (fun w => with_vms (delete node (vms w)) w).
Definition version (w : World) (node : string) : nat := default 0%nat (disk w !! node).

(** ** File names *)

Definition saveStateSuffix : string := ".vzstate".
Definition saveStateOwnerSuffix : string := ".vzstate.owner".
Definition saveStateBalloonSuffix : string := ".vzstate.noballoon".
Definition saveStatePath (node : string) : string := (node +:+ saveStateSuffix)%string.
Definition saveStateOwnerPath (savePath : string) : string := (savePath +:+ ".owner")%string.
Definition saveStateBalloonPath (savePath : string) : string := (savePath +:+ ".noballoon")%string.
Definition nodeNameOfSave (savePath : string) : string := trim_suffix savePath saveStateSuffix.

(** [controlPlaneQuorumWarning] *)
Definition controlPlaneQuorumWarning (item : Cluster) (node : Node) (running : string -> bool) : list Warning :=
  if bool_decide (n_Role node = RoleControlPlane) then
    let members := filter (fun m => n_Role m = RoleControlPlane) (c_Nodes item) in
    let remaining := filter (fun m => n_Name m <> n_Name node /\ running (n_Name m) = true) members in
    [Quorum (n_Name node) (length remaining) (length members)]
  else [].

(** [clusterNode] *)
Definition clusterNode (item : Cluster) (name : string) : result op_error Node :=
  if bool_decide (name = EmptyString) then Err NodeNameRequired
  else match list_find (fun n => n_Name n = name) (c_Nodes item) with
       | Some (_, n) => Ok n
       | None => Err (NoSuchNode name)
       end.

Section Ops.
Context (sch : Schedule).

(** ** Calls to the file system *)

(** [os.Remove] *)
Definition remove (f : string) : M (option io_error) :=
  t ← call; w ← get;
  if s_remove sch t then mret (Some IOFailed)
  else match files w !! f with
       | None => mret (Some NotExist)
       | Some _ => _ ← modify (fun w => with_files (delete f (files w)) w); mret None
       end.

(** [os.Stat], and [os.ReadFile] *)
Definition read (f : string) : M (result io_error File) :=
  t ← call; w ← get;
  mret (if s_stat sch t then Err IOFailed
        else match files w !! f with None => Err NotExist | Some c => Ok c end).

(** [os.WriteFile]: a write that fails may leave a truncated file. *)
Definition writeFile (f content : string) : M (option io_error) :=
  t ← call;
  if s_write sch t then
    _ ← match s_left sch t with
        | Some part => modify (fun w => with_files (<[f := FText part]> (files w)) w)
        | None => mret tt
        end;
    mret (Some IOFailed)
  else _ ← modify (fun w => with_files (<[f := FText content]> (files w)) w); mret None.

(** [filepath.Glob("*" + suffix)], in order; it reports no error of the file system. *)
Definition glob (suffix : string) : M (list string) :=
  t ← call; w ← get;
  mret (if s_glob sch t then [] else filter (fun f => has_suffix f suffix = true) (sort_strings (elements (dom (files w))))).

(** ** The machine contract *)

(** [Machine.Suspend]: only an active machine can be saved; a failing one may have
    written the file, and may have left the guest running. *)
Definition Suspend (node savePath : string) : M bool :=
  t ← call; w ← get;
  match vms w !! node with
  | Some m =>
      if m_active m then
        if s_machine sch t then
          _ ← match s_partial sch t with
              | Some sv => modify (fun w => with_files (<[savePath := FSave sv (s_now sch t)]> (files w)) w)
              | None => mret tt
              end;
          mret false
        else
          _ ← modify (fun w => with_files (<[savePath := FSave (mkSave (version w node) (m_balloon m)) (s_now sch t)]> (files w)) w);
          mret true
      else mret false
  | None => mret false
  end.

Definition set_inactive (node : string) : M unit :=
  w ← get;
  match vms w !! node with
  | Some m => track node (mkMachine false (m_balloon m) (m_memory m))
  | None => mret tt
  end.

(** [stopMachine]: [Machine.Stop] within a time limit; whether it succeeded *)
Definition stopMachine (node : string) : M bool :=
  t ← call;
  if s_machine sch t then mret false else _ ← set_inactive node; mret true.

(** [Machine.Close]: whether it succeeded.  It may end the guest, and it may not. *)
Definition Close (node : string) : M bool :=
  t ← call;
  _ ← if s_exits sch t then set_inactive node else mret tt;
  mret (negb (s_machine sch t)).

Definition closeMachine (node : string) : M bool :=
  s ← stopMachine node; c ← Close node; mret (s && c).

(** [launchMachine], and the [Launch] it calls: with a [Restore] it falls back to a cold
    boot when the save is missing or cannot be used.  The guest runs from here, so its
    disk moves on. *)
Inductive launched :=
| LFailed (incompatible : bool)
| LMachine (m : Machine) (fellBack : bool).

Definition launchMachine (d : Daemon) (node : string) (restore : option string) : M launched :=
  t ← call; w ← get;
  match s_launch sch t with
  | LaunchFails i => mret (LFailed (bool_decide (restore <> None) && i))
  | Boots restores =>
      let memory :=
        match restore with
        | Some p => match files w !! p with
                    | Some (FSave sv _) => if restores then Some (sv, version w node) else None
                    | _ => None
                    end
        | None => None
        end in
      _ ← modify (fun w => with_disk (<[node := S (version w node)]> (disk w)) w);
      _ ← emit (VMStarted node);
      mret (LMachine (mkMachine true (negb (balloonDisabled d)) memory)
              (bool_decide (restore <> None) && bool_decide (memory = None)))
  end.

(** ** Save files *)

Definition recordSaveStateOwner (d : Daemon) (savePath : string) : M unit :=
  _ ← writeFile (saveStateOwnerPath savePath) (instanceToken d); mret tt.

Definition removeSaveStateBalloonMarker (savePath : string) : M (option io_error) :=
  r ← remove (saveStateBalloonPath savePath);
  mret (match r with Some NotExist => None | r => r end).

Definition recordSaveStateBalloon (savePath : string) (disabled : bool) : M (option io_error) :=
  if disabled then writeFile (saveStateBalloonPath savePath) EmptyString
  else
    r ← remove (saveStateBalloonPath savePath);
    mret (match r with Some NotExist => None | r => r end).

Definition savedWithoutBalloon (savePath : string) : M bool :=
  r ← read (saveStateBalloonPath savePath); mret (is_ok r).

Definition removeSaveStateFiles (paths : list string) : M (list Warning) :=
  gather paths (fun path =>
    _ ← remove path;
    _ ← remove (saveStateOwnerPath path);
    r ← removeSaveStateBalloonMarker path;
    mret (match r with Some _ => [StaleMarker (nodeNameOfSave path)] | None => [] end)).

(** [discardSavedState]: whether a save was discarded, and the warning *)
Definition discardSavedState (node : string) : M (bool * list Warning) :=
  let path := saveStatePath node in
  s ← read path;
  match s with
  | Err NotExist => mret (false, [])
  | Err _ => mret (false, [Undiscarded node])
  | Ok _ =>
      r ← remove path;
      match r with
      | Some _ => mret (false, [Undiscarded node])
      | None =>
          _ ← remove (saveStateOwnerPath path);
          b ← removeSaveStateBalloonMarker path;
          mret (true, match b with Some _ => [StaleMarker node] | None => [] end)
      end
  end.

(** [discardClusterSavedStates]: what each save leads to *)
Definition discardClusterSavedStates : M (bool * list Warning) :=
  matches ← glob saveStateSuffix;
  outcomes ← gather matches (fun path =>
    r ← remove path;
    match r with
    | Some NotExist => mret []
    | Some _ => mret [(false, [Undiscarded (nodeNameOfSave path)])]
    | None =>
        _ ← remove (saveStateOwnerPath path);
        b ← removeSaveStateBalloonMarker path;
        mret [(true, match b with Some _ => [StaleMarker (nodeNameOfSave path)] | None => [] end)]
    end);
  mret (existsb fst outcomes, mjoin (outcomes.*2)).

Definition nodeHasSavedState (node : string) : M bool := r ← read (saveStatePath node); mret (is_ok r).

Definition clusterHasSavedState : M bool := m ← glob saveStateSuffix; mret (bool_decide (m <> [])).

(** The loop of [savedStateOwnerReplaced] over the owner files *)
Fixpoint owner_replaced (self : string) (matches : list string) : M bool :=
  match matches with
  | [] => mret false
  | path :: rest =>
      s ← read (trim_suffix path ".owner");
      match s with
      | Err _ => owner_replaced self rest
      | Ok _ =>
          r ← read path;
          match r with
          | Ok (FText recorded) => if bool_decide (trim_space recorded <> self) then mret true else owner_replaced self rest
          | Ok (FSave _ _) => mret true
          | Err _ => owner_replaced self rest
          end
      end
  end.

Definition savedStateOwnerReplaced (d : Daemon) : M bool :=
  matches ← glob saveStateOwnerSuffix; owner_replaced (instanceToken d) matches.

(** [savedStateStale]: [survives] is the backend's [SuspendSurvivesDaemonRestart], [None]
    when the backend cannot be resolved *)
Definition savedStateStale (d : Daemon) (survives : option bool) : M bool :=
  match survives with
  | None => mret true
  | Some true => mret false
  | Some false => savedStateOwnerReplaced d
  end.

(** [clockDriftWarning]: the age of the oldest save, rounded to a second *)
Definition minReportedClockDrift : Z := 5.
Definition second : Z := 1000000000.
Definition round_seconds (ns : Z) : Z :=
  if ns <? 0 then - ((- ns + second / 2) / second) else (ns + second / 2) / second.

Fixpoint oldest (matches : list string) (suspendedAt : option Z) : M (option Z) :=
  match matches with
  | [] => mret suspendedAt
  | path :: rest =>
      r ← read path;
      match r with
      | Ok (FSave _ m) => oldest rest (Some (match suspendedAt with None => m | Some t => Z.min t m end))
      | _ => oldest rest suspendedAt
      end
  end.

Definition clockDriftWarning (now : Z) : M (list Warning) :=
  matches ← glob saveStateSuffix;
  at_ ← oldest matches None;
  mret (match at_ with
        | None => []
        | Some t => let drift := round_seconds (now - t) in
                    if drift <? minReportedClockDrift then [] else [ClocksBehind drift]
        end).

(** ** Run state *)

Definition nodeRunning (w : World) (node : string) : bool :=
  match vms w !! node with Some m => m_active m | None => false end.

Definition clusterRunning (w : World) : bool := existsb (fun p : string * Machine => m_active p.2) (map_to_list (vms w)).

(** [closeEach]: every Stop, then every Close; the names whose pair of calls did not both
    succeed *)
Definition closeEach (names : list string) : M (list string) :=
  stops ← gather names (fun n => s ← stopMachine n; mret [s]);
  gather (zip names stops) (fun p : string * bool => c ← Close p.1; mret (if p.2 && c then [] else [p.1])).

(** [closeNodes] *)
Definition closeNodes (names : list string) : M (list string) :=
  failed ← closeEach names;
  _ ← gather names (fun n =>
        if bool_decide (n ∈ failed) then mret []
        else _ ← untrack n; _ ← emit (ForgetNode n); mret ([] : list unit));
  w ← get;
  _ ← if bool_decide (vms w = ∅) then emit ForgetCluster else mret tt;
  mret failed.

(** [prepareSavedMachine]: whether the daemon keeps tracking the machine, and whether it
    was saved and stopped *)
Definition prepareSavedMachine (node savePath : string) : M (bool * bool) :=
  s ← Suspend node savePath;
  if negb s then c ← closeMachine node; mret (negb c, false)
  else
    st ← stopMachine node;
    if negb st then _ ← Close node; mret (true, false) else mret (true, true).

(** One iteration of [suspendCluster]: the nodes that failed *)
Definition suspendNode (d : Daemon) (name : string) : M (list string) :=
  let savePath := saveStatePath name in
  p ← prepareSavedMachine name savePath;
  q ← (if p.2 : bool then
         _ ← recordSaveStateOwner d savePath;
         r ← recordSaveStateBalloon savePath (balloonDisabled d);
         mret (match r with Some _ => (true, false) | None => (p.1, true) end)
       else mret p);
  if q.2 : bool then mret []
  else
    _ ← remove savePath;
    _ ← (if q.1 : bool then mret tt else untrack name);
    mret [name].

(** [suspendCluster]: [order] is the order in which Go's [range] visits the map of
    machines; [loaded] and [supported] are the outcomes of loading the cluster and of
    asking its backend. *)
Definition suspendCluster (d : Daemon) (loaded supported : bool) (order : list string) : M (result op_error unit) :=
  if negb loaded then mret (Err (Refused "load"))
  else
    w ← get;
    if negb (clusterRunning w) then mret (Err NotRunning)
    else if negb supported then mret (Err SuspendUnsupported)
    else
      _ ← emit CancelProvision;
      _ ← emit InvalidateStorage;
      failed ← gather order (suspendNode d);
      mret (if bool_decide (failed = []) then Ok tt else Err (SuspendFailed failed)).

(** One node of [resumeCluster], up to the entry of the batch it returns *)
Record resumedNode := mkResumed { r_savePath : string; r_warning : list Warning; r_restored : bool }.

Definition resumeNode (d : Daemon) (name : string) : M (result op_error resumedNode) :=
  let savePath := saveStatePath name in
  saved ← read savePath;
  without ← (if is_ok saved then savedWithoutBalloon savePath else mret (balloonDisabled d));
  let balloonMismatch := is_ok saved && negb (Bool.eqb without (balloonDisabled d)) in
  _ ← untrack name;
  l ← launchMachine d name (if balloonMismatch then None else Some savePath);
  match l with
  | LFailed incompatible => mret (Err (ResumeFailed name incompatible []))
  | LMachine m fellBack =>
      _ ← track name m;
      let warning := if balloonMismatch then [BalloonMismatch name (balloonDisabled d)]
                     else if fellBack then [ColdBoot name (negb (is_ok saved))] else [] in
      mret (Ok (mkResumed savePath warning (negb fellBack && negb balloonMismatch)))
  end.

(** [resumeNodeBatch]: [attempted] is what the closure appends for every node that came
    up, [savePaths], [warnings] and [restored] what the batch collects *)
Fixpoint resumeNodeBatch (d : Daemon) (names attempted savePaths : list string) (warnings : list Warning) (restored : bool)
  : M (result op_error (list Warning * bool)) :=
  match names with
  | [] => ws ← removeSaveStateFiles savePaths; mret (Ok (warnings ++ ws, restored))
  | name :: rest =>
      r ← resumeNode d name;
      match r with
      | Err (ResumeFailed n i _) => unclosed ← closeNodes attempted; mret (Err (ResumeFailed n i unclosed))
      | Err e => mret (Err e)
      | Ok res =>
          resumeNodeBatch d rest (attempted ++ [name]) (savePaths ++ [r_savePath res])
            (warnings ++ r_warning res) (restored || r_restored res)
      end
  end.

(** What the checks before a launch answered, [None] for a refusal: the reservations
    pushed to the helper, the memory and pressure gates with their warnings, the
    projected-start gate with what it pre-ballooned, the subnet inspection. *)
Record Admission := mkAdmission {
  a_item : option Cluster;
  a_sync : bool;
  a_overcommit : option (list string);
  a_booting : Z;
  a_pressure : option (list string);
  a_provision : option (list string * Z);
  a_subnet : option (list string)
}.

(** [releaseBalloonHold]: the newest hold of that size *)
Fixpoint drop_first (h : Z) (l : list Z) : list Z :=
  match l with
  | [] => []
  | x :: l => if x =? h then l else x :: drop_first h l
  end.
Definition releaseBalloonHold (h : Z) : M unit :=
  modify (fun w => if h <=? 0 then w else with_holds (rev (drop_first h (rev (holds w)))) w).

(** [checkProvisionStart]: what it pre-balloons is held until the boot is over *)
Definition hold (h : Z) : M unit := modify (fun w => if h <=? 0 then w else with_holds (holds w ++ [h]) w).

Definition gates (l : list string) : list Warning := GateWarning <$> l.

Definition resumeCluster (d : Daemon) (a : Admission) (now : Z) : M (result op_error (list Warning)) :=
  match a_item a with
  | None => mret (Err (Refused "load"))
  | Some item =>
      w ← get;
      if clusterRunning w then mret (Err AlreadyRunning)
      else if negb (a_sync a) then mret (Err (Refused "sync"))
      else
        match a_overcommit a, a_pressure a, (if 0 <? a_booting a then a_provision a else Some ([], 0)) with
        | None, _, _ => mret (Err (Refused "overcommit"))
        | Some _, None, _ => mret (Err (Refused "pressure"))
        | Some _, Some _, None => mret (Err (Refused "provision"))
        | Some o, Some p, Some (q, held) =>
            _ ← hold held;
            match a_subnet a with
            | None => _ ← releaseBalloonHold held; mret (Err (Refused "subnet"))
            | Some s =>
                drift ← clockDriftWarning now;
                r ← resumeNodeBatch d (n_Name <$> c_Nodes item) [] [] [] false;
                match r with
                | Err e => _ ← releaseBalloonHold held; mret (Err e)
                | Ok (warnings, restored) =>
                    _ ← emit BindMirrors;
                    mret (Ok (gates s ++ gates o ++ gates p ++ gates q ++ warnings ++ (if restored : bool then drift else [])))
                end
            end
        end
  end.

(** ** Starting and stopping *)

(** What [start] does with the machine it already tracks for a node: [Ok false] when it
    runs, so there is nothing to launch *)
Definition releaseInactive (name : string) : M (result op_error bool) :=
  w ← get;
  match vms w !! name with
  | Some m =>
      if m_active m then mret (Ok false)
      else
        c ← Close name;
        if negb c then mret (Err (ReleaseFailed name)) else _ ← untrack name; mret (Ok true)
  | None => mret (Ok true)
  end.

(** The launch loop of [start]: the nodes it launched *)
Fixpoint startLoop (d : Daemon) (names started : list string) : M (result op_error (list string)) :=
  match names with
  | [] => mret (Ok started)
  | name :: rest =>
      go ← releaseInactive name;
      match go with
      | Err e => mret (Err e)
      | Ok false => startLoop d rest started
      | Ok true =>
          l ← launchMachine d name None;
          match l with
          | LFailed _ =>
              unclosed ← closeNodes started;
              failures ← gather started (fun n => r ← discardSavedState n; mret r.2);
              mret (Err (CreateFailed name unclosed failures))
          | LMachine m _ => _ ← track name m; startLoop d rest (started ++ [name])
          end
      end
  end.

Definition start (d : Daemon) (item : Cluster) (sync : bool) (subnet : option (list string)) : M (result op_error (list Warning)) :=
  if negb sync then mret (Err (Refused "sync"))
  else match subnet with
  | None => mret (Err (Refused "subnet"))
  | Some s =>
      r ← startLoop d (n_Name <$> c_Nodes item) [];
      match r with
      | Err e => mret (Err e)
      | Ok started =>
          outcomes ← gather started (fun n => o ← discardSavedState n; mret [o]);
          _ ← emit BindMirrors;
          mret (Ok (gates s ++ (if existsb fst outcomes then [Discarded "the cluster"] else []) ++ mjoin (outcomes.*2)))
      end
  end.

(** [stop]: [loaded] says whether the cluster's state could be read; the nodes that did
    not stop *)
Definition stop (loaded : bool) : M (list string) :=
  _ ← emit CancelProvision;
  _ ← emit InvalidateStorage;
  _ ← (if loaded then emit UnbindMirrors else mret tt);
  w ← get;
  if bool_decide (vms w = ∅) then _ ← emit ForgetCluster; mret []
  else closeNodes (sort_strings (elements (dom (vms w)))).

(** [startNodeLocked]: [Ok None] is the no-op on a node that already runs *)
Definition startNodeLocked (d : Daemon) (a : Admission) (name : string) : M (result op_error (option (list Warning))) :=
  match a_item a with
  | None => mret (Err (Refused "load"))
  | Some item =>
      match clusterNode item name with
      | Err e => mret (Err e)
      | Ok node =>
          w ← get;
          if nodeRunning w (n_Name node) then mret (Ok None)
          else
            let firstNode := negb (clusterRunning w) in
            match a_overcommit a, (if firstNode then a_subnet a else Some []), a_pressure a, a_provision a with
            | None, _, _, _ => mret (Err (Refused "overcommit"))
            | Some _, None, _, _ => mret (Err (Refused "subnet"))
            | Some _, Some _, None, _ => mret (Err (Refused "pressure"))
            | Some _, Some _, Some _, None => mret (Err (Refused "provision"))
            | Some o, Some s, Some p, Some (q, held) =>
                _ ← hold held;
                released ← match vms w !! n_Name node with
                           | Some _ => c ← Close (n_Name node); _ ← (if c : bool then untrack (n_Name node) else mret tt); mret c
                           | None => mret true
                           end;
                if negb released then _ ← releaseBalloonHold held; mret (Err (ReleaseFailed (n_Name node)))
                else
                  l ← launchMachine d (n_Name node) None;
                  match l with
                  | LFailed _ => _ ← releaseBalloonHold held; mret (Err (CreateFailed (n_Name node) [] []))
                  | LMachine m _ =>
                      _ ← track (n_Name node) m;
                      o' ← discardSavedState (n_Name node);
                      _ ← (if firstNode then emit BindMirrors else mret tt);
                      _ ← emit BeginProvision;
                      mret (Ok (Some (gates o ++ gates p ++ gates q ++ gates s ++
                                      (if o'.1 : bool then [Discarded (n_Name node)] else []) ++ o'.2)))
                  end
            end
      end
  end.

(** [stopNodeLocked] *)
Definition stopNodeLocked (item : option Cluster) (name : string) : M (result op_error (option (list Warning))) :=
  match item with
  | None => mret (Err (Refused "load"))
  | Some item =>
      match clusterNode item name with
      | Err e => mret (Err e)
      | Ok node =>
          w ← get;
          if negb (nodeRunning w (n_Name node)) then mret (Ok None)
          else
            let quorumWarning := controlPlaneQuorumWarning item node (nodeRunning w) in
            failed ← closeNodes [n_Name node];
            if negb (bool_decide (failed = [])) then mret (Err (StopFailed failed))
            else
              _ ← emit InvalidateStorage;
              w ← get;
              _ ← (if negb (clusterRunning w) then _ ← emit CancelProvision; emit UnbindMirrors else mret tt);
              mret (Ok (Some quorumWarning))
      end
  end.

End Ops.

(** ** Reasoning about runs *)

Lemma post_call w (Q : World -> nat -> Prop) :
  Q (mkWorld (files w) (vms w) (disk w) (holds w) (events w) (S (tick w))) (tick w) -> runs w call Q.
Proof. done. Qed.

(** ** Names *)

Lemma saveStatePath_inj a b : saveStatePath a = saveStatePath b -> a = b.
Proof.
  intros H. rewrite <- (trim_suffix_app a saveStateSuffix), <- (trim_suffix_app b saveStateSuffix).
  by unfold saveStatePath in H; rewrite H.
Qed.

Lemma path_ends node :
  last_char (saveStatePath node) = Some "e"%char /\
  last_char (saveStateOwnerPath (saveStatePath node)) = Some "r"%char /\
  last_char (saveStateBalloonPath (saveStatePath node)) = Some "n"%char.
Proof. unfold saveStatePath, saveStateOwnerPath, saveStateBalloonPath. by rewrite !last_char_app. Qed.

Lemma owner_inj a b : saveStateOwnerPath (saveStatePath a) = saveStateOwnerPath (saveStatePath b) -> a = b.
Proof.
  intros H. apply saveStatePath_inj. unfold saveStateOwnerPath in H.
  rewrite <- (trim_suffix_app (saveStatePath a) ".owner"), H. by rewrite trim_suffix_app.
Qed.

Lemma marker_inj a b : saveStateBalloonPath (saveStatePath a) = saveStateBalloonPath (saveStatePath b) -> a = b.
Proof.
  intros H. apply saveStatePath_inj. unfold saveStateBalloonPath in H.
  rewrite <- (trim_suffix_app (saveStatePath a) ".noballoon"), H. by rewrite trim_suffix_app.
Qed.

(** The files suspend keeps for a node *)
Inductive side := SaveSide | OwnerSide | MarkerSide.
Definition path_of (k : side) (node : string) : string :=
  match k with
  | SaveSide => saveStatePath node
  | OwnerSide => saveStateOwnerPath (saveStatePath node)
  | MarkerSide => saveStateBalloonPath (saveStatePath node)
  end.

#[global] Instance side_eq_dec : EqDecision side.
Proof. solve_decision. Defined.

Lemma path_of_inj j k a b : path_of j a = path_of k b -> j = k /\ a = b.
Proof.
  destruct (path_ends a) as (Ea & Oa & Ma), (path_ends b) as (Eb & Ob & Mb).
  destruct j, k; simpl; intros H; try (exfalso; rewrite H in *; congruence); split; try done;
    first [by apply saveStatePath_inj | by apply owner_inj | by apply marker_inj].
Qed.

Lemma nodeNameOfSave_path node : nodeNameOfSave (saveStatePath node) = node.
Proof. apply trim_suffix_app. Qed.

(** ** What an operation on one node can change *)

Record touches (n : string) (w w' : World) : Prop := mkTouches {
  t_files : forall f, (forall k, f <> path_of k n) -> files w' !! f = files w !! f;
  t_vms : forall j, j <> n -> vms w' !! j = vms w !! j;
  t_disk : forall j, j <> n -> disk w' !! j = disk w !! j;
  t_holds : holds w' = holds w
}.

#[global] Instance touches_preorder n : PreOrder (touches n).
Proof.
  split.
  - by intros w.
  - intros w1 w2 w3 [F1 V1 D1 H1] [F2 V2 D2 H2]. split; intros.
    + by rewrite F2, F1.
    + by rewrite V2, V1.
    + by rewrite D2, D1.
    + congruence.
Qed.

Abbreviation local n := (stays (touches n)).

Lemma local_call n : local n call.
Proof. by intros w. Qed.

Lemma local_emit n e : local n (emit e).
Proof. by intros w. Qed.

Lemma local_track n m : local n (track n m).
Proof. intros w. apply post_modify. split; simpl; intros; try done. by apply lookup_insert_ne. Qed.

Lemma local_untrack n : local n (untrack n).
Proof. intros w. apply post_modify. split; simpl; intros; try done. by rewrite lookup_delete_ne. Qed.

Lemma local_insert n f c : (exists k, f = path_of k n) -> local n (modify (fun w => with_files (<[f := c]> (files w)) w)).
Proof.
  intros [k ->] w. apply post_modify. split; simpl; intros; try done. rewrite lookup_insert_ne; [done|].
  intros E. by apply (H k).
Qed.

Lemma local_delete n f : (exists k, f = path_of k n) -> local n (modify (fun w => with_files (delete f (files w)) w)).
Proof.
  intros [k ->] w. apply post_modify. split; simpl; intros; try done. rewrite lookup_delete_ne; [done|].
  intros E. by apply (H k).
Qed.

Lemma local_write n c : local n (modify (fun w => with_disk (<[n := c w]> (disk w)) w)).
Proof. intros w. apply post_modify. split; simpl; intros; try done. by rewrite lookup_insert_ne. Qed.

Lemma local_insert_save n c : local n (modify (fun w => with_files (<[saveStatePath n := c w]> (files w)) w)).
Proof.
  intros w. apply post_modify. split; simpl; intros; try done. rewrite lookup_insert_ne; [done|].
  intros E. by apply (H SaveSide).
Qed.

Lemma is_save_path n : exists k, saveStatePath n = path_of k n.
Proof. by exists SaveSide. Qed.
Lemma is_owner_path n : exists k, saveStateOwnerPath (saveStatePath n) = path_of k n.
Proof. by exists OwnerSide. Qed.
Lemma is_marker_path n : exists k, saveStateBalloonPath (saveStatePath n) = path_of k n.
Proof. by exists MarkerSide. Qed.

#[export] Hint Resolve local_call local_emit local_track local_untrack local_insert local_delete local_write local_insert_save
  is_save_path is_owner_path is_marker_path : frame.

Section Locality.
Context (sch : Schedule).

Lemma local_remove n f : (exists k, f = path_of k n) -> local n (remove sch f).
Proof. intros. unfold remove. stays_tac. Qed.

Lemma local_read n f : local n (read sch f).
Proof. unfold read. stays_tac. Qed.

Lemma local_writeFile n f c : (exists k, f = path_of k n) -> local n (writeFile sch f c).
Proof. intros. unfold writeFile. stays_tac. Qed.

Lemma local_set_inactive n : local n (set_inactive n).
Proof. unfold set_inactive. stays_tac. Qed.

#[local] Hint Resolve local_remove local_read local_writeFile local_set_inactive : frame.

Lemma local_stopMachine n : local n (stopMachine sch n).
Proof. unfold stopMachine. stays_tac. Qed.

Lemma local_Close n : local n (Close sch n).
Proof. unfold Close. stays_tac. Qed.

#[local] Hint Resolve local_stopMachine local_Close : frame.

Lemma local_Suspend n : local n (Suspend sch n (saveStatePath n)).
Proof. unfold Suspend. stays_tac. Qed.

Lemma local_launch d n r : local n (launchMachine sch d n r).
Proof. unfold launchMachine. stays_tac. Qed.

#[local] Hint Resolve local_Suspend local_launch : frame.

Lemma local_suspendNode d n : local n (suspendNode sch d n).
Proof.
  unfold suspendNode, prepareSavedMachine, closeMachine, recordSaveStateOwner, recordSaveStateBalloon. stays_tac.
Qed.

Lemma local_resumeNode d n : local n (resumeNode sch d n).
Proof. unfold resumeNode, savedWithoutBalloon. stays_tac. Qed.

Lemma local_discard n : local n (discardSavedState sch n).
Proof. unfold discardSavedState, removeSaveStateBalloonMarker. stays_tac. Qed.
End Locality.

#[export] Hint Resolve local_remove local_read local_writeFile local_set_inactive local_stopMachine local_Close local_Suspend local_launch
  local_suspendNode local_resumeNode local_discard : frame.

(** ** Coherent saves *)

(** The calls that take files away, or look at them, do not fail. *)
Definition reliable (sch : Schedule) : Prop :=
  (forall t, s_remove sch t = false) /\ (forall t, s_stat sch t = false) /\ (forall t, s_glob sch t = false).

(** What a save on disk and a tracked machine mean: the save matches the disk of a node
    that does not run and the marker tells its device set; the machine has the device
    set this daemon builds, and restored memory matched its disk and its devices. *)
Definition save_ok (w : World) (n : string) : Prop :=
  forall sv t, files w !! saveStatePath n = Some (FSave sv t) ->
  version w n = sv_disk sv /\ nodeRunning w n = false /\
  (is_Some (files w !! saveStateBalloonPath (saveStatePath n)) <-> sv_balloon sv = false).

Definition memory_ok (m : Machine) : Prop :=
  forall sv v, m_memory m = Some (sv, v) -> sv_disk sv = v /\ sv_balloon sv = m_balloon m.

Definition machine_ok (d : Daemon) (w : World) (n : string) : Prop :=
  forall m, vms w !! n = Some m -> m_balloon m = negb (balloonDisabled d) /\ memory_ok m.

Definition node_ok (d : Daemon) (w : World) (n : string) : Prop := save_ok w n /\ machine_ok d w n.

Definition coherent (d : Daemon) (w : World) : Prop := forall n, node_ok d w n.

(** A node that was suspended as it should be *)
Definition suspended (d : Daemon) (w : World) (n : string) : Prop :=
  (exists t, files w !! saveStatePath n = Some (FSave (mkSave (version w n) (negb (balloonDisabled d))) t)) /\
  (is_Some (files w !! saveStateBalloonPath (saveStatePath n)) <-> balloonDisabled d = true) /\
  nodeRunning w n = false.

(** Everything an operation on another node leaves alone *)
Lemma touches_ok d n j w w' : touches n w w' -> j <> n -> node_ok d w j -> node_ok d w' j.
Proof.
  intros [F V D _] Hj [Hs Hm].
  assert (Hp : forall k, files w' !! path_of k j = files w !! path_of k j).
  { intros k. apply F. intros k' E. apply path_of_inj in E as [_ E]. congruence. }
  split.
  - pose proof (Hp SaveSide) as H1. pose proof (Hp MarkerSide) as H2. simpl in H1, H2.
    intros sv t. rewrite H1, H2. intros H. apply Hs in H.
    unfold version, nodeRunning in *. by rewrite V, D.
  - intros m. rewrite V by done. apply Hm.
Qed.

Lemma coherent_touches d n w w' : coherent d w -> touches n w w' -> node_ok d w' n -> coherent d w'.
Proof. intros Hc Ht Hn j. destruct (decide (j = n)) as [->|]; [done|]. by eapply touches_ok. Qed.

Lemma save_not_owner n : saveStatePath n <> saveStateOwnerPath (saveStatePath n).
Proof. intros E. by apply (path_of_inj SaveSide OwnerSide) in E as [? _]. Qed.
Lemma save_not_marker n : saveStatePath n <> saveStateBalloonPath (saveStatePath n).
Proof. intros E. by apply (path_of_inj SaveSide MarkerSide) in E as [? _]. Qed.
Lemma owner_not_marker n : saveStateOwnerPath (saveStatePath n) <> saveStateBalloonPath (saveStatePath n).
Proof. intros E. by apply (path_of_inj OwnerSide MarkerSide) in E as [? _]. Qed.

#[export] Hint Resolve save_not_owner save_not_marker owner_not_marker : tbx.

(** ** Runs that launch nothing

    Files change only at the names in [P]; disks stay; machines keep their device set and
    memory, and none comes up. *)
Record calm (P : string -> Prop) (w w' : World) : Prop := mkCalm {
  c_files : forall f, ~ P f -> files w' !! f = files w !! f;
  c_disk : disk w' = disk w;
  c_holds : holds w' = holds w;
  c_vms : forall k m', vms w' !! k = Some m' -> exists m, vms w !! k = Some m /\ m_balloon m' = m_balloon m /\
            m_memory m' = m_memory m /\ (m_active m' = true -> m_active m = true)
}.

#[global] Instance calm_preorder P : PreOrder (calm P).
Proof.
  split.
  - intros w. split; naive_solver.
  - intros w1 w2 w3 [F1 D1 H1 V1] [F2 D2 H2 V2]. split; [|congruence..|].
    + intros f Hf. by rewrite F2, F1.
    + intros k m3 H3. apply V2 in H3 as (m2 & Hm2 & B2 & M2 & A2). apply V1 in Hm2 as (m1 & Hm1 & B1 & M1 & A1).
      exists m1. split_and!; [done|congruence..|auto].
Qed.

Lemma calm_weaken (P Q : string -> Prop) w w' : (forall f, P f -> Q f) -> calm P w w' -> calm Q w w'.
Proof. intros HPQ [F D H V]. split; [|done..]. intros f Hf. apply F. auto. Qed.

Abbreviation gentle P := (stays (calm P)).

Section Gentle.
Context (P : string -> Prop).

Lemma calm_same w w' : files w' = files w -> vms w' = vms w -> disk w' = disk w -> holds w' = holds w -> calm P w w'.
Proof. intros F V D H. split; try done; [by rewrite F|]. rewrite V. naive_solver. Qed.

Lemma gentle_call : gentle P call.
Proof. intros w. by apply calm_same. Qed.

Lemma gentle_emit e : gentle P (emit e).
Proof. intros w. by apply calm_same. Qed.

Lemma gentle_untrack n : gentle P (untrack n).
Proof.
  intros w. apply post_modify. split; simpl; try done. intros k m' [_ H]%lookup_delete_Some. naive_solver.
Qed.

Lemma gentle_set_inactive n : gentle P (set_inactive n).
Proof.
  intros w. unfold set_inactive. apply post_bind, post_get. destruct (vms w !! n) eqn:E; [|apply stays_ret, calm_preorder].
  apply post_modify. split; simpl; try done. intros k m'.
  rewrite lookup_insert_Some. naive_solver.
Qed.

Lemma gentle_insert f c : P f -> gentle P (modify (fun w => with_files (<[f := c w]> (files w)) w)).
Proof.
  intros Hf w. apply post_modify. split; simpl; try done; [|naive_solver].
  intros g Hg. rewrite lookup_insert_ne; [done|congruence].
Qed.

Lemma gentle_delete f : P f -> gentle P (modify (fun w => with_files (delete f (files w)) w)).
Proof.
  intros Hf w. apply post_modify. split; simpl; try done; [|naive_solver].
  intros g Hg. rewrite lookup_delete_ne; [done|congruence].
Qed.
End Gentle.

#[export] Hint Resolve gentle_call gentle_emit gentle_untrack gentle_set_inactive gentle_insert gentle_delete : frame.

Section Calls.
Context (sch : Schedule).

Lemma gentle_remove P f : P f -> gentle P (remove sch f).
Proof. intros. unfold remove. stays_tac. Qed.

Lemma gentle_read P f : gentle P (read sch f).
Proof. unfold read. stays_tac. Qed.

Lemma gentle_glob P f : gentle P (glob sch f).
Proof. unfold glob. stays_tac. Qed.

Lemma gentle_writeFile P f c : P f -> gentle P (writeFile sch f c).
Proof. intros. unfold writeFile. stays_tac. Qed.

Lemma gentle_stopMachine P n : gentle P (stopMachine sch n).
Proof. unfold stopMachine. stays_tac. Qed.

Lemma gentle_Close P n : gentle P (Close sch n).
Proof. unfold Close. stays_tac. Qed.

#[local] Hint Resolve gentle_remove gentle_read gentle_glob gentle_writeFile gentle_stopMachine gentle_Close : frame.

Lemma gentle_Suspend (P : string -> Prop) n p : P p -> gentle P (Suspend sch n p).
Proof. intros. unfold Suspend. stays_tac. Qed.

Lemma gentle_closeMachine P n : gentle P (closeMachine sch n).
Proof. unfold closeMachine. stays_tac. Qed.

Lemma gentle_closeNodes P names : gentle P (closeNodes sch names).
Proof.
  unfold closeNodes, closeEach. repeat stays_step.
  all: apply stays_gather; [typeclasses eauto|]; intros; stays_tac.
Qed.

Lemma gentle_marker (P : string -> Prop) p disabled : P (saveStateBalloonPath p) -> gentle P (recordSaveStateBalloon sch p disabled).
Proof. intros. unfold recordSaveStateBalloon. stays_tac. Qed.

Lemma gentle_owner (P : string -> Prop) d p : P (saveStateOwnerPath p) -> gentle P (recordSaveStateOwner sch d p).
Proof. intros. unfold recordSaveStateOwner. stays_tac. Qed.

Lemma gentle_removeMarker (P : string -> Prop) p : P (saveStateBalloonPath p) -> gentle P (removeSaveStateBalloonMarker sch p).
Proof. intros. unfold removeSaveStateBalloonMarker. stays_tac. Qed.
End Calls.

#[export] Hint Resolve gentle_remove gentle_read gentle_glob gentle_writeFile gentle_stopMachine gentle_Close
  gentle_Suspend gentle_closeMachine gentle_closeNodes gentle_marker gentle_owner gentle_removeMarker : frame.

(** Files keep their saves, so a run that launches nothing keeps the nodes coherent. *)
Lemma calm_machine_ok d P w w' n : calm P w w' -> machine_ok d w n -> machine_ok d w' n.
Proof.
  intros [_ _ _ V] Hm m' H. apply V in H as (m & H & B & E & _). apply Hm in H as [Hb Hmem].
  split; [congruence|]. intros sv v H'. rewrite E in H'. rewrite B. by apply Hmem.
Qed.

Lemma calm_nodeRunning P w w' n : calm P w w' -> nodeRunning w n = false -> nodeRunning w' n = false.
Proof.
  intros [_ _ _ V] Hn. unfold nodeRunning in *. destruct (vms w' !! n) as [m'|] eqn:E; [|done].
  apply V in E as (m & E & _ & _ & A). rewrite E in Hn. destruct (m_active m'); [|done]. rewrite A in Hn; done.
Qed.

Lemma calm_version P w w' n : calm P w w' -> version w' n = version w n.
Proof. intros H. unfold version. by rewrite (c_disk _ _ _ H). Qed.

Lemma calm_coherent d (P : string -> Prop) w w' : (forall f, ~ P f) -> calm P w w' -> coherent d w -> coherent d w'.
Proof.
  intros HP Hc Hw n. destruct (Hw n) as [Hs Hm]. split; [|by eapply calm_machine_ok].
  intros sv t. rewrite !(c_files _ _ _ Hc) by apply HP. rewrite (calm_version _ _ _ n Hc). intros H.
  apply Hs in H as (? & ? & ?). split_and!; [done| |done]. by eapply calm_nodeRunning.
Qed.

Lemma calm_full {A} w (m : M A) P : gentle P m -> runs w m (fun w' _ => calm P w w').
Proof. intros H. apply H. Qed.

Section Specs.
Context (sch : Schedule).

Lemma runs_Suspend n p w :
  runs w (Suspend sch n p) (fun w' ok => calm (fun f => f = p) w w' /\ (ok = true ->
    exists m t, vms w !! n = Some m /\ files w' !! p = Some (FSave (mkSave (version w n) (m_balloon m)) t))).
Proof.
  apply post_and; [by apply gentle_Suspend|]. unfold Suspend. apply post_bind, post_call, post_bind, post_get. cbn [vms].
  destruct (vms w !! n) as [m|] eqn:Hm; [|by apply post_ret].
  destruct (m_active m); [|by apply post_ret].
  destruct (s_machine sch (tick w)); apply post_bind;
    [by destruct (s_partial sch (tick w)); [apply post_modify|apply post_ret]; apply post_ret|].
  apply post_modify, post_ret. intros _. exists m, (s_now sch (tick w)). split; [done|]. simpl. by rewrite lookup_insert_eq.
Qed.

Lemma runs_stop n w :
  runs w (stopMachine sch n) (fun w' ok => calm (fun _ => False) w w' /\ (ok = true -> nodeRunning w' n = false)).
Proof.
  apply post_and; [by apply gentle_stopMachine|]. unfold stopMachine. apply post_bind, post_call.
  destruct (s_machine sch (tick w)); [by apply post_ret|]. apply post_bind. unfold set_inactive. apply post_bind, post_get.
  cbn [vms]. destruct (vms w !! n) as [m|] eqn:Hm.
  - apply post_modify, post_ret. intros _. unfold nodeRunning. simpl. by rewrite lookup_insert_eq.
  - apply post_ret, post_ret. intros _. unfold nodeRunning. cbn [vms]. by rewrite Hm.
Qed.

Lemma runs_launch d n r w :
  runs w (launchMachine sch d n r) (fun w' l => files w' = files w /\ vms w' = vms w /\ holds w' = holds w /\
    match l with
    | LFailed _ => disk w' = disk w
    | LMachine m fellBack =>
        disk w' = <[n := S (version w n)]> (disk w) /\ m_active m = true /\ m_balloon m = negb (balloonDisabled d) /\
        (forall sv v, m_memory m = Some (sv, v) -> v = version w n /\ exists p t, r = Some p /\ files w !! p = Some (FSave sv t)) /\
        fellBack = (bool_decide (r <> None) && bool_decide (m_memory m = None))
    end).
Proof.
  unfold launchMachine. apply post_bind, post_call, post_bind, post_get.
  destruct (s_launch sch (tick w)) as [i|restores]; [apply post_ret; done|].
  apply post_bind, post_modify, post_bind. unfold emit. apply post_modify, post_ret. cbn -[insert].
  repeat (split; [done|]). split; [|done]. intros sv v. destruct r as [p|]; [|done]. destruct (files w !! p) as [[sv' t|]|] eqn:E; [|done..].
  destruct restores; [|done]. intros [= -> <-]. eauto.
Qed.

Context (Hrel : reliable sch).

Lemma runs_remove f w :
  runs w (remove sch f) (fun w' r => calm (fun g => g = f) w w' /\ files w' !! f = None /\ (r = None \/ r = Some NotExist)).
Proof.
  apply post_and; [by apply gentle_remove|]. destruct Hrel as (Hr & _). unfold remove.
  apply post_bind, post_call, post_bind, post_get. rewrite Hr. cbn [files].
  destruct (files w !! f) eqn:E; [|apply post_ret; auto]. apply post_bind, post_modify, post_ret. simpl. rewrite lookup_delete_eq. auto.
Qed.

Lemma runs_read f w :
  runs w (read sch f) (fun w' r => calm (fun _ => False) w w' /\ r = match files w !! f with None => Err NotExist | Some c => Ok c end).
Proof.
  apply post_and; [by apply gentle_read|]. destruct Hrel as (_ & Hs & _). unfold read.
  apply post_bind, post_call, post_bind, post_get, post_ret. by rewrite Hs.
Qed.

Lemma runs_marker p disabled w :
  runs w (recordSaveStateBalloon sch p disabled) (fun w' r => calm (fun g => g = saveStateBalloonPath p) w w' /\
    (r = None -> (is_Some (files w' !! saveStateBalloonPath p) <-> disabled = true))).
Proof.
  apply post_and; [by apply gentle_marker|]. unfold recordSaveStateBalloon. destruct disabled.
  - unfold writeFile. apply post_bind, post_call. destruct (s_write sch (tick w)); apply post_bind.
    + by destruct (s_left sch (tick w)); [apply post_modify|apply post_ret]; apply post_ret.
    + apply post_modify, post_ret. simpl. rewrite lookup_insert_eq. intros _. split; [done|by eexists].
  - apply post_bind. eapply post_conseq; [apply runs_remove|]. intros w' r (_ & E & Hr). apply post_ret. intros _.
    rewrite E. split; [intros []; done|done].
Qed.
End Specs.

Section Coherence.
Context (sch : Schedule) (Hrel : reliable sch).

Lemma runs_prepare n w :
  runs w (prepareSavedMachine sch n (saveStatePath n)) (fun w' p => calm (fun f => f = saveStatePath n) w w' /\ (p.2 = true ->
    nodeRunning w' n = false /\
    exists m t, vms w !! n = Some m /\ files w' !! saveStatePath n = Some (FSave (mkSave (version w n) (m_balloon m)) t))).
Proof.
  apply post_and; [unfold prepareSavedMachine, closeMachine; apply calm_full; stays_tac|].
  unfold prepareSavedMachine. apply post_bind. eapply post_conseq; [apply runs_Suspend|]. intros w1 s [C1 H1].
  destruct s; cbn [negb].
  - apply post_bind. eapply post_conseq; [apply runs_stop|]. intros w2 st [C2 H2]. destruct st; cbn [negb].
    + apply post_ret. intros _. split; [auto|]. destruct (H1 eq_refl) as (m & t & Hm & Hf). exists m, t.
      split; [done|]. by rewrite (c_files _ _ _ C2 _ (fun H => H)).
    + apply post_bind. eapply post_conseq; [apply (gentle_Close sch (fun _ => True))|]. intros. by apply post_ret.
  - apply post_bind. eapply post_conseq; [apply (gentle_closeMachine sch (fun _ => True))|]. intros. by apply post_ret.
Qed.

(** Suspending a node ends with a complete save of a stopped machine, or with no save. *)
Lemma suspendNode_spec d n w : machine_ok d w n ->
  runs w (suspendNode sch d n) (fun w' failed =>
    failed = [] /\ suspended d w' n \/ failed = [n] /\ files w' !! saveStatePath n = None).
Proof.
  intros Hm. unfold suspendNode. apply post_bind. eapply post_conseq; [apply runs_prepare|].
  intros w1 [retain ok] [C1 H1]. cbn [fst snd] in *. apply post_bind.
  apply (post_conseq _ _ (fun w' q => q.2 = true -> suspended d w' n)); cycle 1.
  { intros w2 [retain' ok'] H2. cbn [fst snd] in *. destruct ok'; [left; auto|].
    apply post_bind. eapply post_conseq; [by apply runs_remove|]. intros w3 r (_ & H3 & _). apply post_bind.
    destruct retain'; [apply post_ret|apply post_modify]; apply post_ret; auto. }
  destruct ok; [|by apply post_ret]. destruct (H1 eq_refl) as (Hrun & m & t & Hv & Hf).
  apply post_bind. eapply post_conseq; [apply (gentle_owner sch (fun f => f = saveStateOwnerPath (saveStatePath n))); done|].
  intros w2 ? C2. apply post_bind. eapply post_conseq; [by apply runs_marker|]. intros w3 r [C3 H3]. apply post_ret.
  destruct r; [done|]. intros _. destruct (Hm _ Hv) as [Hb _].
  split_and!; [|by apply H3|by apply (calm_nodeRunning _ _ _ _ C3), (calm_nodeRunning _ _ _ _ C2)].
  exists t. rewrite (c_files _ _ _ C3), (c_files _ _ _ C2) by auto with tbx.
  by rewrite Hf, Hb, (calm_version _ _ _ n C3), (calm_version _ _ _ n C2), (calm_version _ _ _ n C1).
Qed.

Lemma gentle_suspendNode d n : gentle (fun _ => True) (suspendNode sch d n).
Proof. unfold suspendNode, prepareSavedMachine. stays_tac. Qed.

Lemma suspended_ok d w n : suspended d w n -> save_ok w n.
Proof.
  intros ([t Hf] & Hmk & Hr) sv t'. rewrite Hf. intros [= <- _]. split_and!; [done..|]. rewrite Hmk. simpl.
  by destruct (balloonDisabled d).
Qed.

Lemma no_save_ok w n : files w !! saveStatePath n = None -> save_ok w n.
Proof. intros H sv t. by rewrite H. Qed.

Lemma suspendNode_coherent d n w : coherent d w -> runs w (suspendNode sch d n) (fun w' _ => coherent d w').
Proof.
  intros Hc. eapply post_conseq.
  { apply post_and; [apply (suspendNode_spec d n w), Hc|]. apply post_and; [apply local_suspendNode|apply gentle_suspendNode]. }
  intros w' failed (Hs & Ht & Hg). eapply coherent_touches; [done..|]. split.
  - destruct Hs as [[_ Hs]|[_ Hs]]; [by eapply suspended_ok|by apply no_save_ok].
  - eapply calm_machine_ok; [done|]. apply Hc.
Qed.

Lemma suspend_coherent d loaded supported order w :
  coherent d w -> runs w (suspendCluster sch d loaded supported order) (fun w' _ => coherent d w').
Proof.
  intros Hc. unfold suspendCluster. destruct loaded; [|done]. cbn [negb]. apply post_bind, post_get.
  destruct (clusterRunning w); [|done]. destruct supported; [|done]. cbn [negb].
  apply post_bind. unfold emit at 1. apply post_modify. apply post_bind. unfold emit at 1. apply post_modify. apply post_bind.
  eapply post_conseq; [apply (post_gather order _ (fun _ _ => coherent d))|].
  - intros n. apply Hc.
  - intros l1 x l2 bs w1 _ H1. by apply suspendNode_coherent.
  - intros. by apply post_ret.
Qed.

(** *** Launches under way

    [done] came up since [w0]: their disks moved, and their saves are behind until they
    are taken away. *)
Record launching (d : Daemon) (w0 : World) (done : list string) (w : World) : Prop := mkLaunching {
  l_machine : forall n, machine_ok d w n;
  l_save : forall n, n ∉ done -> save_ok w n;
  l_grows : forall n, (version w0 n <= version w n)%nat;
  l_moved : forall n, n ∈ done -> (version w0 n < version w n)%nat
}.

Lemma launching_start d w : coherent d w -> launching d w [] w.
Proof. intros Hc. split; try done; intros n; [apply Hc|intros _; apply Hc|set_solver]. Qed.

Lemma launching_still d w0 done w : launching d w0 done w -> disk w = disk w0 -> coherent d w.
Proof.
  intros [Hm Hs _ Hv] E n. split; [|apply Hm]. apply Hs. intros Hn. apply Hv in Hn. unfold version in Hn. rewrite E in Hn. lia.
Qed.

Lemma launching_calm d w0 done w w' : launching d w0 done w -> calm (fun _ => False) w w' -> launching d w0 done w'.
Proof.
  intros [Hm Hs Hg Hv] Hc. split.
  - intros n. by eapply calm_machine_ok.
  - intros n Hn sv t. rewrite !(c_files _ _ _ Hc _ (fun H => H)), (calm_version _ _ _ n Hc). intros H.
    apply Hs in H as (? & ? & ?); [|done]. split_and!; [done| |done]. by eapply calm_nodeRunning.
  - intros n. by rewrite (calm_version _ _ _ n Hc).
  - intros n. rewrite (calm_version _ _ _ n Hc). apply Hv.
Qed.

Lemma launching_boot d w0 done w w' n m : launching d w0 done w ->
  files w' = files w -> vms w' = <[n := m]> (vms w) -> disk w' = <[n := S (version w n)]> (disk w) ->
  m_balloon m = negb (balloonDisabled d) -> memory_ok m -> launching d w0 (done ++ [n]) w'.
Proof.
  intros [Hm Hs Hg Hv] F V D Hb Hmem.
  assert (Hsame : forall k, k <> n -> version w' k = version w k).
  { intros k Hk. unfold version. by rewrite D, lookup_insert_ne. }
  assert (Hn : version w' n = S (version w n)) by (unfold version; by rewrite D, lookup_insert_eq).
  split.
  - intros k m'. rewrite V, lookup_insert_Some. intros [[-> <-]|[_ H]]; [done|by apply (Hm k)].
  - intros k Hk sv t. rewrite F, Hsame by set_solver. intros H. apply Hs in H; [|set_solver].
    unfold nodeRunning in *. by rewrite V, lookup_insert_ne by set_solver.
  - intros k. specialize (Hg k). destruct (decide (k = n)) as [->|]; [lia|]. by rewrite Hsame.
  - intros k [Hk|Hk%list_elem_of_singleton]%elem_of_app.
    + specialize (Hv k Hk). destruct (decide (k = n)) as [->|]; [lia|]. by rewrite Hsame.
    + subst. specialize (Hg n). lia.
Qed.

(** Taking every save of the nodes that came up away restores coherence. *)
Lemma discard_all {B} d (body : string -> M (list B)) done w :
  (forall n, local n (body n)) -> (forall n, gentle (fun _ => True) (body n)) ->
  (forall n w, runs w (body n) (fun w' _ => files w' !! saveStatePath n = None)) ->
  (forall n, machine_ok d w n) -> (forall n, n ∉ done -> save_ok w n) ->
  runs w (gather done body) (fun w' _ => coherent d w').
Proof.
  intros Hl Hg Hn Hm Hs.
  eapply post_conseq.
  { apply (post_gather done body (fun l1 _ w => (forall n, machine_ok d w n) /\ forall n, (n ∈ l1 \/ n ∉ done) -> save_ok w n)).
    - split; [done|]. intros n [?%not_elem_of_nil|?]; [done|by apply Hs].
    - intros l1 x l2 bs w1 E [Hm1 Hs1]. eapply post_conseq.
      { apply post_and; [apply Hl|]. apply post_and; [apply Hg|apply Hn]. }
      intros w2 b (Ht & Hc & Hx). split; [intros n; by eapply calm_machine_ok|].
      intros n Hn'. destruct (decide (n = x)) as [->|Hne]; [by apply no_save_ok|].
      apply (touches_ok d x n w1 w2); [done..|]. split; [|apply Hm1]. apply Hs1.
      destruct Hn' as [[?|?%list_elem_of_singleton]%elem_of_app|?]; auto; congruence. }
  intros w' bs [Hm' Hs'] n. split; [|apply Hm']. apply Hs'. destruct (decide (n ∈ done)); auto.
Qed.

(** Removing the owner and the marker of a save that is gone does not bring it back. *)
Lemma runs_sidecars {B} n (f : option io_error -> B) w : files w !! saveStatePath n = None ->
  runs w (_ ← remove sch (saveStateOwnerPath (saveStatePath n));
          b ← removeSaveStateBalloonMarker sch (saveStatePath n); mret (f b))
    (fun w' _ => files w' !! saveStatePath n = None).
Proof.
  intros E.
  apply post_bind. eapply post_conseq; [by apply runs_remove|]. intros w1 r1 (C1 & _).
  apply post_bind. eapply post_conseq; [apply (gentle_removeMarker sch (fun f => f = saveStateBalloonPath (saveStatePath n))); done|].
  intros w2 r2 C2. apply post_ret. rewrite (c_files _ _ _ C2), (c_files _ _ _ C1) by auto with tbx. done.
Qed.

Lemma runs_discard n w : runs w (discardSavedState sch n) (fun w' _ => files w' !! saveStatePath n = None).
Proof.
  unfold discardSavedState. apply post_bind. eapply post_conseq; [by apply runs_read|]. intros w1 r [C1 ->].
  pose proof (c_files _ _ _ C1 (saveStatePath n) (fun H => H)) as E1.
  destruct (files w !! saveStatePath n); [|by apply post_ret].
  apply post_bind. eapply post_conseq; [by apply runs_remove|]. intros w2 r (_ & E2 & [-> | ->]); [|by apply post_ret].
  by apply (runs_sidecars n (fun b => (true, match b with Some _ => [StaleMarker n] | None => [] end))).
Qed.

Lemma gentle_discard n : gentle (fun _ => True) (discardSavedState sch n).
Proof. unfold discardSavedState. stays_tac. Qed.

Lemma runs_removeSaves d w0 done w : launching d w0 done w ->
  runs w (removeSaveStateFiles sch (saveStatePath <$> done)) (fun w' _ => coherent d w').
Proof.
  intros Hl. unfold removeSaveStateFiles, runs. rewrite gather_fmap. destruct Hl as [Hm Hs _ _]. apply (discard_all d); [| | |done..].
  - intros n. unfold removeSaveStateBalloonMarker. stays_tac.
  - intros n. stays_tac.
  - intros n w1. apply post_bind. eapply post_conseq; [by apply runs_remove|]. intros w2 r2 (_ & E2 & _).
    by apply (runs_sidecars n (fun b => match b with Some _ => [StaleMarker (nodeNameOfSave (saveStatePath n))] | None => [] end)).
Qed.

(** Restored memory is a save that was still coherent, with the devices of its marker. *)
Lemma runs_resumeNode d w0 done n w : launching d w0 done w -> n ∉ done ->
  runs w (resumeNode sch d n) (fun w' r =>
    match r with
    | Ok res => launching d w0 (done ++ [n]) w' /\ r_savePath res = saveStatePath n
    | Err e => launching d w0 done w' /\ exists i, e = ResumeFailed n i []
    end).
Proof.
  intros Hl Hn. unfold resumeNode. apply post_bind. eapply post_conseq; [by apply runs_read|]. intros w1 saved [C1 Es].
  apply post_bind. apply (post_conseq _ _ (fun w2 without => calm (fun _ => False) w1 w2 /\
    (is_ok saved = true -> without = bool_decide (is_Some (files w !! saveStateBalloonPath (saveStatePath n)))))).
  { destruct (is_ok saved); [|apply post_ret; split; [reflexivity|done]]. unfold savedWithoutBalloon. apply post_bind.
    eapply post_conseq; [by apply runs_read|]. intros w2 r [C2 ->]. apply post_ret. split; [done|]. intros _.
    rewrite (c_files _ _ _ C1 _ (fun H => H)). case_bool_decide as E; [by destruct E as [? ->]|].
    destruct (files w !! saveStateBalloonPath (saveStatePath n)) eqn:E2; [|done]. exfalso. by apply E. }
  intros w2 without [C2 Hw]. apply post_bind. eapply post_conseq; [apply (gentle_untrack (fun _ => False))|]. intros w3 ? C3.
  assert (C : calm (fun _ => False) w w3) by (etrans; [apply C1|]; etrans; [apply C2|apply C3]).
  assert (Hl3 : launching d w0 done w3) by by eapply launching_calm.
  apply post_bind. eapply post_conseq; [apply runs_launch|]. intros w4 l (F4 & V4 & O4 & H4). destruct l as [i|m fellBack].
  { apply post_ret. split; [|eauto]. eapply launching_calm; [apply Hl3|]. by apply calm_same. }
  destruct H4 as (D4 & _ & Hb & Hmem & _). apply post_bind. unfold track. apply post_modify, post_ret. split; [|done].
  apply (launching_boot _ _ _ w3 _ n m); simpl; try done; [by rewrite V4|]. intros sv v Hm. apply Hmem in Hm as (-> & p & t & Hr & Hf).
  destruct (is_ok saved && _) eqn:Emis; [done|]. injection Hr as <-.
  destruct (l_save _ _ _ _ Hl3 n Hn sv t Hf) as (Hv & _ & Hmk). split; [done|]. rewrite Hb.
  rewrite (c_files _ _ _ C _ (fun H => H)) in Hf. rewrite (c_files _ _ _ C _ (fun H => H)) in Hmk. rewrite Hf in Es. rewrite Es in Emis, Hw. cbn [is_ok andb] in Emis, Hw.
  rewrite Hw in Emis by done. apply negb_false_iff, eqb_prop in Emis. rewrite <- Emis. case_bool_decide as Hi.
  - by apply Hmk.
  - destruct (sv_balloon sv) eqn:E; [done|]. exfalso. by apply Hi, Hmk.
Qed.

Lemma runs_batch d w0 names done ws restored w :
  launching d w0 done w -> NoDup (done ++ names) ->
  runs w (resumeNodeBatch sch d names done (saveStatePath <$> done) ws restored) (fun w' r =>
    is_ok r = true \/ disk w' = disk w0 -> coherent d w').
Proof.
  revert done ws restored w. induction names as [|n names IH]; intros done ws restored w Hl Hd; simpl; apply post_bind.
  - eapply post_conseq; [by eapply runs_removeSaves|]. intros w' ? H. by apply post_ret.
  - assert (n ∉ done) by (apply NoDup_app in Hd as (_ & Hd & _); intros Hn; apply (Hd n Hn); left).
    eapply post_conseq; [by eapply runs_resumeNode|]. intros w1 r Hr. destruct r as [res|e].
    + destruct Hr as [Hl1 ->]. change ((saveStatePath <$> done) ++ [saveStatePath n]) with ((saveStatePath <$> done) ++ (saveStatePath <$> [n])).
      rewrite <- fmap_app. apply IH; [done|by rewrite <- app_assoc].
    + destruct Hr as [Hl1 [i ->]]. apply post_bind. eapply post_conseq; [apply (gentle_closeNodes sch (fun _ => False))|].
      intros w2 u C2. apply post_ret. intros [?|E]; [done|]. eapply launching_still; [by eapply launching_calm|done].
Qed.

Lemma coherent_same d w w' : files w' = files w -> vms w' = vms w -> disk w' = disk w -> coherent d w -> coherent d w'.
Proof.
  intros F V D Hc n. destruct (Hc n) as [Hs Hm]. unfold node_ok, save_ok, machine_ok, version, nodeRunning in *.
  by rewrite F, V, D.
Qed.

Lemma runs_release h w Q : (forall w', files w' = files w -> vms w' = vms w -> disk w' = disk w -> Q w' tt) -> runs w (releaseBalloonHold h) Q.
Proof. intros H. apply post_modify. by destruct (h <=? 0); apply H. Qed.

Lemma runs_hold h w Q : (forall w', files w' = files w -> vms w' = vms w -> disk w' = disk w -> Q w' tt) -> runs w (hold h) Q.
Proof. intros H. apply post_modify. by destruct (h <=? 0); apply H. Qed.

Lemma gentle_oldest P matches s : gentle P (oldest sch matches s).
Proof. revert s. induction matches as [|p l IH]; intros s; simpl; stays_tac. Qed.

Lemma gentle_drift P now : gentle P (clockDriftWarning sch now).
Proof. unfold clockDriftWarning. pose proof gentle_oldest. stays_tac. Qed.

Lemma resume_coherent d a now w : coherent d w ->
  (forall item, a_item a = Some item -> NoDup (n_Name <$> c_Nodes item)) ->
  runs w (resumeCluster sch d a now) (fun w' r => is_ok r = true \/ disk w' = disk w -> coherent d w').
Proof.
  intros Hc Hd. unfold resumeCluster. destruct (a_item a) as [item|]; [|by apply post_ret].
  apply post_bind, post_get. destruct (clusterRunning w); [by apply post_ret|]. destruct (a_sync a); [cbn [negb]|by apply post_ret].
  destruct (a_overcommit a) as [o|], (a_pressure a) as [p|], (if 0 <? a_booting a then a_provision a else Some ([], 0)) as [[q held]|];
    try by apply post_ret.
  apply post_bind, runs_hold. intros w1 F1 V1 D1. destruct (a_subnet a) as [sub|].
  - apply post_bind. eapply post_conseq; [apply (gentle_drift (fun _ => False))|]. intros w2 drift C2.
    assert (Hc2 : coherent d w2) by (eapply (calm_coherent d _ w1 w2); [|exact C2|by eapply coherent_same]; tauto).
    apply post_bind. eapply post_conseq; [apply (runs_batch d w2 _ []); [by apply launching_start|by apply Hd]|].
    intros w3 r H3. destruct r as [[warnings restored]|e].
    + apply post_bind. unfold emit. apply post_modify, post_ret. intros _. eapply coherent_same; [..|apply H3; by left]; done.
    + apply post_bind, runs_release. intros w4 F4 V4 D4. apply post_ret. intros [?|E]; [done|].
      eapply coherent_same; [done..|]. apply H3. right. rewrite (c_disk _ _ _ C2). congruence.
  - apply post_bind, runs_release. intros w2 F2 V2 D2. apply post_ret. intros _. eapply coherent_same; [done..|by eapply coherent_same].
Qed.

Lemma gentle_releaseInactive P n : gentle P (releaseInactive sch n).
Proof. unfold releaseInactive. stays_tac. Qed.

Lemma runs_releaseInactive n w :
  runs w (releaseInactive sch n) (fun w' r => calm (fun _ => False) w w' /\ (forall e, r = Err e -> e = ReleaseFailed n)).
Proof.
  apply post_and; [apply gentle_releaseInactive|]. unfold releaseInactive. apply post_bind, post_get.
  destruct (vms w !! n) as [m|]; [|by apply post_ret]. destruct (m_active m); [by apply post_ret|].
  apply post_bind. eapply post_conseq; [apply (gentle_Close sch (fun _ => False))|]. intros w1 c _.
  destruct c; cbn [negb]; [apply post_bind, post_modify|]; apply post_ret; congruence.
Qed.

(** A cold boot: the machine has no restored memory. *)
Lemma runs_coldBoot d w0 done n w : launching d w0 done w ->
  runs w (launchMachine sch d n None) (fun w' l =>
    match l with
    | LFailed _ => launching d w0 done w'
    | LMachine m _ => runs w' (track n m) (fun w2 _ => launching d w0 (done ++ [n]) w2)
    end).
Proof.
  intros Hl. eapply post_conseq; [apply runs_launch|]. intros w1 l (F1 & V1 & O1 & H1). destruct l as [i|m fb].
  - eapply launching_calm; [done|]. by apply calm_same.
  - destruct H1 as (D1 & _ & Hb & Hmem & _). unfold track. apply post_modify.
    apply (launching_boot _ _ _ w _ n m); simpl; try done; [by rewrite V1|]. intros sv v Hm. by apply Hmem in Hm as (_ & p & t & ? & _).
Qed.

Lemma runs_discardEach {B} d w0 done (f : bool * list Warning -> list B) w : launching d w0 done w ->
  runs w (gather done (fun n => r ← discardSavedState sch n; mret (f r))) (fun w' _ => coherent d w').
Proof.
  intros [Hm Hs _ _]. apply (discard_all d); [| | |done..].
  - intros n. stays_tac.
  - intros n. pose proof gentle_discard. stays_tac.
  - intros n w1. apply post_bind. eapply post_conseq; [apply runs_discard|]. intros. by apply post_ret.
Qed.

Lemma runs_startLoop d w0 names done w : launching d w0 done w ->
  runs w (startLoop sch d names done) (fun w' r =>
    match r with
    | Ok started => launching d w0 started w'
    | Err (ReleaseFailed _) => disk w' = disk w0 -> coherent d w'
    | Err _ => coherent d w'
    end).
Proof.
  revert done w. induction names as [|n names IH]; intros done w Hl; simpl; [by apply post_ret|].
  apply post_bind. eapply post_conseq; [apply runs_releaseInactive|].
  intros w1 r [C1 Hr]. assert (Hl1 : launching d w0 done w1) by by eapply launching_calm. destruct r as [[|]|e].
  - apply post_bind. eapply post_conseq; [by apply runs_coldBoot|]. intros w2 l H2. destruct l as [i|m fb].
    + apply post_bind. eapply post_conseq; [apply (gentle_closeNodes sch (fun _ => False))|]. intros w3 u C3.
      apply post_bind. eapply post_conseq; [apply (runs_discardEach d w0 done snd); by eapply launching_calm|].
      intros w4 f H4. by apply post_ret.
    + apply post_bind. eapply post_conseq; [apply H2|]. intros w3 ? H3. by apply IH.
  - by apply IH.
  - rewrite (Hr e eq_refl). apply post_ret. intros E. by eapply launching_still.
Qed.

Lemma start_coherent d item sync subnet w : coherent d w ->
  runs w (start sch d item sync subnet) (fun w' r =>
    match r with Err (ReleaseFailed _) => disk w' = disk w -> coherent d w' | _ => coherent d w' end).
Proof.
  intros Hc. unfold start. destruct sync; [cbn [negb]|by apply post_ret]. destruct subnet as [s|]; [|by apply post_ret].
  apply post_bind. eapply post_conseq; [apply (runs_startLoop d w), launching_start, Hc|]. intros w1 r H1. destruct r as [started|e].
  - apply post_bind. eapply post_conseq; [apply (runs_discardEach d w started (fun o => [o])), H1|]. intros w2 o H2.
    apply post_bind. unfold emit. apply post_modify, post_ret. by eapply coherent_same.
  - apply post_ret. done.
Qed.

Lemma stop_coherent d loaded w : coherent d w -> runs w (stop sch loaded) (fun w' _ => coherent d w').
Proof.
  intros Hc. eapply post_conseq; [apply (calm_full w _ (fun _ => False)); unfold stop; stays_tac|].
  intros w' ? C. eapply calm_coherent; [|exact C|exact Hc]. tauto.
Qed.

Lemma stopNode_coherent d item name w : coherent d w -> runs w (stopNodeLocked sch item name) (fun w' _ => coherent d w').
Proof.
  intros Hc. eapply post_conseq; [apply (calm_full w _ (fun _ => False)); unfold stopNodeLocked; stays_tac|].
  intros w' ? C. eapply calm_coherent; [|exact C|exact Hc]. tauto.
Qed.

Lemma startNode_coherent d a name w : coherent d w -> runs w (startNodeLocked sch d a name) (fun w' _ => coherent d w').
Proof.
  intros Hc. unfold startNodeLocked. destruct (a_item a) as [item|]; [|by apply post_ret].
  destruct (clusterNode item name) as [node|]; [|by apply post_ret]. apply post_bind, post_get.
  destruct (nodeRunning w (n_Name node)); [by apply post_ret|].
  destruct (a_overcommit a) as [o|], (if negb (clusterRunning w) then a_subnet a else Some []) as [s|], (a_pressure a) as [p|],
    (a_provision a) as [[q held]|]; try by apply post_ret.
  apply post_bind, runs_hold. intros w1 F1 V1 D1. apply post_bind.
  eapply post_conseq; [apply (calm_full w1 _ (fun _ => False)); stays_tac|]. intros w2 released C2.
  assert (Hc2 : coherent d w2) by (eapply (calm_coherent d _ w1 w2); [|exact C2|by eapply coherent_same]; tauto).
  destruct released; cbn [negb]; [|apply post_bind, runs_release; intros w3 F3 V3 D3; apply post_ret; by eapply coherent_same].
  apply post_bind. eapply post_conseq; [by apply runs_coldBoot, launching_start|]. intros w3 l H3. destruct l as [i|m fb].
  - apply post_bind, runs_release. intros w4 F4 V4 D4. apply post_ret. eapply coherent_same; [done..|].
    split; [by apply (l_save _ _ _ _ H3), not_elem_of_nil|by apply (l_machine _ _ _ _ H3)].
  - apply post_bind. eapply post_conseq; [apply H3|]. intros w4 ? H4. apply post_bind.
    apply (post_conseq _ _ (fun w' _ => coherent d w')).
    { eapply post_conseq; [apply post_and; [apply local_discard|apply post_and; [apply gentle_discard|apply runs_discard]]|].
      intros w5 r5 (T5 & C5 & E5) j. destruct (decide (j = n_Name node)) as [->|Hj].
      - split; [by apply no_save_ok|]. eapply calm_machine_ok; [done|]. apply (l_machine _ _ _ _ H4).
      - eapply touches_ok; [done..|]. split; [apply (l_save _ _ _ _ H4); set_solver|apply (l_machine _ _ _ _ H4)]. }
    intros w5 r5 H5. apply post_bind. eapply post_conseq; [apply (calm_full w5 _ (fun _ => False)); stays_tac|]. intros w6 ? C6.
    apply post_bind. unfold emit. apply post_modify, post_ret. apply (coherent_same d w6); [done..|].
    eapply calm_coherent; [|exact C6|exact H5]. tauto.
Qed.

Lemma glob_spec suffix w : runs w (glob sch suffix) (fun w' l =>
  calm (fun _ => False) w w' /\ forall f, f ∈ l <-> is_Some (files w !! f) /\ has_suffix f suffix = true).
Proof.
  apply post_and; [apply gentle_glob|]. destruct Hrel as (_ & _ & Hg). unfold glob.
  apply post_bind, post_call, post_bind, post_get, post_ret. rewrite Hg. intros f. cbn [files].
  rewrite list_elem_of_filter, elem_of_sort_strings, elem_of_elements, elem_of_dom. tauto.
Qed.

Lemma is_saveStatePath f : has_suffix f saveStateSuffix = true -> f = saveStatePath (nodeNameOfSave f).
Proof. intros [t ->]%has_suffix_spec. unfold saveStatePath, nodeNameOfSave. by rewrite trim_suffix_app. Qed.

(** Dropping every save of the directory leaves none, whatever the disks hold. *)
Lemma discardCluster_coherent d w : (forall n, machine_ok d w n) ->
  runs w (discardClusterSavedStates sch) (fun w' _ => coherent d w').
Proof.
  intros Hm. unfold discardClusterSavedStates. apply post_bind. eapply post_conseq; [apply glob_spec|]. intros w1 matches [C1 H1].
  assert (Hp : matches = saveStatePath <$> (nodeNameOfSave <$> matches)).
  { rewrite <- list_fmap_compose. rewrite <- (list_fmap_id matches) at 1. apply list_fmap_ext. intros i f Hf.
    apply is_saveStatePath, H1. by eapply list_elem_of_lookup_2. }
  apply post_bind. apply (post_conseq _ _ (fun w' _ => coherent d w')); [|intros; by apply post_ret].
  rewrite Hp. unfold runs. rewrite gather_fmap. apply (discard_all d).
  - intros n. unfold removeSaveStateBalloonMarker. stays_tac.
  - intros n. stays_tac.
  - intros n w2. apply post_bind. eapply post_conseq; [by apply runs_remove|]. intros w3 r (_ & E & [-> | ->]); [|by apply post_ret].
    by apply (runs_sidecars n (fun b => [(true, match b with Some _ => [StaleMarker (nodeNameOfSave (saveStatePath n))] | None => [] end)])).
  - intros n. eapply calm_machine_ok; [exact C1|apply Hm].
  - intros n Hn. apply no_save_ok. rewrite (c_files _ _ _ C1 _ (fun H => H)). destruct (files w !! saveStatePath n) eqn:E; [|done].
    exfalso. apply Hn, list_elem_of_fmap. exists (saveStatePath n). rewrite nodeNameOfSave_path. split; [done|]. apply H1.
    split; [by rewrite E|]. apply has_suffix_spec. by exists n.
Qed.
End Coherence.

(** ** The life of a cluster

    A guest writes while it runs; the operations run one at a time; the daemon can be
    replaced, by one with other settings, and takes its machines with it; a snapshot
    restore rewrites the disks of a stopped cluster.  Two ways of failing are left out,
    and are what [rollback_leaves_stale_save] and [release_leaves_stale_save] show: a
    resume, or a start that cannot release an old machine, that fails after a guest came
    up. *)
Inductive step : Daemon * World -> Daemon * World -> Prop :=
| step_guest d w n m :
    vms w !! n = Some m -> m_active m = true ->
    step (d, w) (d, with_disk (<[n := S (version w n)]> (disk w)) w)
| step_suspend d w sch loaded supported order :
    reliable sch -> order ≡ₚ elements (dom (vms w)) -> step (d, w) (d, (suspendCluster sch d loaded supported order w).1)
| step_resume d w sch a now :
    reliable sch -> (forall item, a_item a = Some item -> NoDup (n_Name <$> c_Nodes item)) ->
    (is_ok (resumeCluster sch d a now w).2 = true \/ disk (resumeCluster sch d a now w).1 = disk w) ->
    step (d, w) (d, (resumeCluster sch d a now w).1)
| step_start d w sch item sync subnet :
    reliable sch ->
    (forall n, (start sch d item sync subnet w).2 = Err (ReleaseFailed n) -> disk (start sch d item sync subnet w).1 = disk w) ->
    step (d, w) (d, (start sch d item sync subnet w).1)
| step_stop d w sch loaded : reliable sch -> step (d, w) (d, (stop sch loaded w).1)
| step_start_node d w sch a name : reliable sch -> step (d, w) (d, (startNodeLocked sch d a name w).1)
| step_stop_node d w sch item name : reliable sch -> step (d, w) (d, (stopNodeLocked sch item name w).1)
| step_replaced d d' w : step (d, w) (d', with_vms ∅ w)
| step_restore d w sch disks :
    reliable sch -> clusterRunning w = false -> step (d, w) (d, (discardClusterSavedStates sch (with_disk disks w)).1).

Lemma step_coherent x y : step x y -> coherent x.1 x.2 -> coherent y.1 y.2.
Proof.
  intros Hs Hc. destruct Hs as [d w n m Hm Ha|d w sch loaded supported order Hr _|d w sch a now Hr Hd Hok|d w sch item sync subnet Hr Hok
    |d w sch loaded Hr|d w sch a name Hr|d w sch item name Hr|d d' w|d w sch disks Hr _]; simpl in *.
  - intros k. destruct (Hc k) as [Hs Hk]. split; [|done]. intros sv t Hf. destruct (Hs sv t Hf) as (Hv & Hn & Hmk).
    split; [|done]. rewrite <- Hv. unfold version. simpl. rewrite lookup_insert_ne; [done|].
    intros ->. unfold nodeRunning in Hn. rewrite Hm in Hn. congruence.
  - by apply suspend_coherent.
  - by apply resume_coherent.
  - pose proof (start_coherent sch Hr d item sync subnet w Hc) as H. unfold runs in H.
    destruct (start sch d item sync subnet w).2 as [|[]] eqn:E; try done. eapply H, Hok, eq_refl.
  - by apply stop_coherent.
  - by apply startNode_coherent.
  - by apply stopNode_coherent.
  - intros n. destruct (Hc n) as [Hs _]. split; [|by intros m; simpl; rewrite lookup_empty]. intros sv t Hf.
    destruct (Hs sv t Hf) as (Hv & _ & Hmk). split_and!; [done| |done]. unfold nodeRunning. simpl. by rewrite lookup_empty.
  - apply discardCluster_coherent; [done|]. intros n. apply Hc.
Qed.

(** A cluster that was just created: nothing tracked, no save. *)
Definition created (w : World) : Prop := vms w = ∅ /\ forall n, files w !! saveStatePath n = None.


(** ** On a cluster of two nodes *)

Definition healthy : Schedule :=
  mkSchedule (fun _ => false) (fun _ => false) (fun _ => false) (fun _ => false) (fun _ => None) (fun _ => false) (fun _ => None)
    (fun _ => false) (fun _ => Boots true) (fun t => Z.of_nat t * second).

(** The same, with the given machine calls failing and launches refused *)
Definition failing (calls launches : list nat) : Schedule :=
  mkSchedule (fun _ => false) (fun _ => false) (fun _ => false) (fun _ => false) (fun _ => None)
    (fun t => bool_decide (t ∈ calls)) (fun _ => None) (fun _ => false)
    (fun t => if bool_decide (t ∈ launches) then LaunchFails true else Boots true) (fun t => Z.of_nat t * second).

Definition demo_item : Cluster :=
  with_nodes [mkNode "a" RoleControlPlane "" ""; mkNode "b" "worker" "" ""] demo_cluster.
Definition demo_daemon : Daemon := mkDaemon false "7/1".
Definition demo_start : World := mkWorld ∅ ∅ ∅ [] [] 0.
Definition all_clear (item : Cluster) : Admission := mkAdmission (Some item) true (Some []) 4096 (Some []) (Some ([], 512)) (Some []).

Definition up : World := (start healthy demo_daemon demo_item true (Some []) demo_start).1.
Definition asleep : World := (suspendCluster healthy demo_daemon true true ["a"; "b"] up).1.
Definition resumed (sch : Schedule) (w : World) : World * result op_error (list Warning) :=
  resumeCluster sch demo_daemon (all_clear demo_item) 100000000000 w.
Definition awake : World := (resumed healthy asleep).1.

Lemma healthy_reliable : reliable healthy.
Proof. repeat split. Qed.


(** The memory a machine restored, and the disk version it was restored onto *)
Definition restored_onto (w : World) (n : string) : option (nat * nat) :=
  m ← vms w !! n; '(sv, v) ← m_memory m; Some (sv_disk sv, v).

Example healthy_resume_matches : restored_onto awake "a" = Some (1%nat, 1%nat) /\ restored_onto awake "b" = Some (1%nat, 1%nat).
Proof. vm_compute. auto. Qed.

(** A resume that restores [a] and cannot launch [b] rolls [a] back, but [a] ran in
    between, and its save is kept: the next resume restores memory of disk version 1 onto
    version 2. *)
Example rollback_leaves_stale_save :
  let '(w, r) := resumed (failing [] [20]%nat) asleep in
  r = Err (ResumeFailed "b" true []) /\ restored_onto (resumed healthy w).1 "a" = Some (1%nat, 2%nat).
Proof. vm_compute. auto. Qed.

(** A start that launches [a] and cannot release the old machine of [b] returns at once:
    [a] is left running with its save on disk, and a stop and a resume later that memory
    is restored onto the newer disk. *)
Example release_leaves_stale_save :
  let '(w, r) := start (failing [14]%nat []) demo_daemon demo_item true (Some []) asleep in
  r = Err (ReleaseFailed "b") /\ nodeRunning w "a" = true /\ is_Some (files w !! saveStatePath "a") /\
  restored_onto (resumed healthy (stop healthy true w).1).1 "a" = Some (1%nat, 2%nat).
Proof. vm_compute. eauto. Qed.

(** A suspend that saves [a] and not [b], tried again: the machine of [a] is no longer
    active, so its second suspend fails, and the cleanup removes the good save. *)
Example retried_suspend_loses_save :
  let '(w, r) := suspendCluster (failing [8; 9]%nat []) demo_daemon true true ["a"; "b"] up in
  let '(w', r') := suspendCluster healthy demo_daemon true true ["a"; "b"] w in
  r = Err (SuspendFailed ["b"]) /\ is_Some (files w !! saveStatePath "a") /\
  r' = Err (SuspendFailed ["a"]) /\ files w' !! saveStatePath "a" = None.
Proof. vm_compute. eauto. Qed.

(** ** A failed resume

    No schedule is assumed here: every call may fail. *)
Section FailedResume.
Context (sch : Schedule).

Lemma closeEach_calm P names : gentle P (closeEach sch names).
Proof. unfold closeEach. repeat stays_step. all: apply stays_gather; [typeclasses eauto|]; intros; stays_tac. Qed.

(** What [closeNodes] does not name is no longer tracked. *)
Lemma runs_closeNodes names w :
  runs w (closeNodes sch names) (fun w' failed => calm (fun _ => False) w w' /\ forall k, k ∈ names -> k ∉ failed -> vms w' !! k = None).
Proof.
  apply post_and; [apply gentle_closeNodes|]. unfold closeNodes. apply post_bind.
  eapply post_conseq; [apply (closeEach_calm (fun _ => False))|]. intros w1 failed _. apply post_bind.
  eapply post_conseq.
  { apply (post_gather names _ (fun l1 _ w' => forall k, k ∈ l1 -> k ∉ failed -> vms w' !! k = None)); [set_solver|].
    intros l1 x l2 bs w2 _ H2. case_bool_decide as Hx.
    - apply post_ret. intros k [Hk|Hk%list_elem_of_singleton]%elem_of_app Hf; [auto|congruence].
    - apply post_bind. unfold untrack. apply post_modify. apply post_bind. unfold emit. apply post_modify, post_ret. simpl.
      intros k Hk Hf. rewrite lookup_delete_None. apply elem_of_app in Hk as [Hk|Hk%list_elem_of_singleton]; naive_solver. }
  intros w2 bs H2. apply post_bind, post_get. apply post_bind.
  case_bool_decide; [unfold emit; apply post_modify|apply post_ret]; by apply post_ret.
Qed.

Definition steady (w w' : World) : Prop := files w' = files w /\ holds w' = holds w.

#[local] Instance steady_preorder : PreOrder steady.
Proof. split; [done|]. intros w1 w2 w3 [] []. split; congruence. Qed.

Lemma calm_steady w w' : calm (fun _ => False) w w' -> steady w w'.
Proof. intros [F _ H _]. split; [|done]. apply map_eq. intros f. apply (F f (fun H => H)). Qed.

Lemma calm_running w w' k : calm (fun _ => False) w w' -> nodeRunning w' k = true -> nodeRunning w k = true.
Proof. intros C H. destruct (nodeRunning w k) eqn:E; [done|]. by rewrite (calm_nodeRunning _ _ _ _ C E) in H. Qed.

Lemma runs_resumeNode_steady d n w :
  runs w (resumeNode sch d n) (fun w' r => steady w w' /\
    match r with
    | Ok _ => forall k, nodeRunning w' k = true -> nodeRunning w k = true \/ k = n
    | Err e => (forall k, nodeRunning w' k = true -> nodeRunning w k = true) /\ exists i, e = ResumeFailed n i []
    end).
Proof.
  unfold resumeNode. apply post_bind. eapply post_conseq; [apply (gentle_read sch (fun _ => False))|]. intros w1 saved C1.
  apply post_bind. eapply post_conseq; [apply (calm_full w1 _ (fun _ => False)); unfold savedWithoutBalloon; stays_tac|].
  intros w2 without C2. apply post_bind. eapply post_conseq; [apply (gentle_untrack (fun _ => False))|]. intros w3 ? C3.
  assert (C : calm (fun _ => False) w w3) by (etrans; [apply C1|]; etrans; [apply C2|apply C3]).
  apply post_bind. eapply post_conseq; [apply runs_launch|]. intros w4 l (F4 & V4 & O4 & H4). destruct l as [i|m fb].
  - assert (C4 : calm (fun _ => False) w w4) by (etrans; [apply C|by apply calm_same]).
    apply post_ret. split; [by apply calm_steady|]. split; [|eauto]. intros k. by apply calm_running.
  - apply post_bind. unfold track. apply post_modify, post_ret. split.
    + apply calm_steady in C as [Fw Hw]. split; simpl; congruence.
    + intros k Hk. destruct (decide (k = n)) as [->|Hne]; [by right|left]. apply (calm_running _ _ _ C). revert Hk.
      unfold nodeRunning. simpl. by rewrite lookup_insert_ne, V4.
Qed.

Lemma runs_batch_failed d names attempted paths ws restored w :
  (forall k, nodeRunning w k = true -> k ∈ attempted) ->
  runs w (resumeNodeBatch sch d names attempted paths ws restored) (fun w' r =>
    forall e, r = Err e -> steady w w' /\ exists n i u, e = ResumeFailed n i u /\ forall k, nodeRunning w' k = true -> k ∈ u).
Proof.
  revert attempted paths ws restored w. induction names as [|n names IH]; intros attempted paths ws restored w Hrun; simpl; apply post_bind.
  { eapply post_conseq; [apply (calm_full w _ (fun _ => True)); unfold removeSaveStateFiles; apply stays_gather; [typeclasses eauto|]; intros; stays_tac|].
    intros. by apply post_ret. }
  eapply post_conseq; [apply runs_resumeNode_steady|]. intros w1 r [S1 H1]. destruct r as [res|e].
  - eapply post_conseq; [apply IH|].
    + intros k Hk. apply elem_of_app. destruct (H1 k Hk) as [?| ->]; [by left; apply Hrun|right; by apply list_elem_of_singleton].
    + intros w2 r2 H2 e He. destruct (H2 e He) as [S2 HH]. split; [by etrans|done].
  - destruct H1 as [Hk1 [i ->]]. apply post_bind. eapply post_conseq; [apply runs_closeNodes|]. intros w2 u [C2 Hu].
    apply post_ret. intros e [= <-]. split; [etrans; [apply S1|by apply calm_steady]|]. exists n, i, u. split; [done|].
    intros k Hk. destruct (decide (k ∈ u)) as [|Hn]; [done|]. exfalso.
    assert (Ha : k ∈ attempted) by (apply Hrun, Hk1; by apply (calm_running _ _ _ C2)).
    unfold nodeRunning in Hk. by rewrite (Hu k Ha Hn) in Hk.
Qed.

Lemma drop_first_app h l : drop_first h (h :: l) = l.
Proof. simpl. by rewrite Z.eqb_refl. Qed.

Lemma hold_release h l : (if h <=? 0 then l else rev (drop_first h (rev (if h <=? 0 then l else l ++ [h])))) = l.
Proof. destruct (h <=? 0); [done|]. rewrite rev_app_distr. simpl. by rewrite Z.eqb_refl, rev_involutive. Qed.

Lemma clusterRunning_false w k : clusterRunning w = false -> nodeRunning w k = false.
Proof.
  unfold clusterRunning, nodeRunning. intros H. destruct (vms w !! k) as [m|] eqn:E; [|done].
  destruct (m_active m) eqn:A; [|done]. exfalso. assert (Ht : existsb (fun p : string * Machine => m_active p.2) (map_to_list (vms w)) = true); [|congruence].
  apply existsb_exists. exists (k, m). split; [|done]. apply list_elem_of_In. by apply elem_of_map_to_list.
Qed.
End FailedResume.

(** A resume that fails commits nothing.  Whatever calls fail, when [resumeCluster]
    returns an error every file is as it was (each save, its owner stamp and its marker),
    the balloon memory its admission took is handed back, and nothing is left running
    that was not running before, except nodes the error names as ones that could not be
    stopped. *)
Theorem failed_resume_commits_nothing sch d a now w w' e :
  resumeCluster sch d a now w = (w', Err e) ->
  files w' = files w /\ holds w' = holds w /\
  forall k, nodeRunning w' k = true ->
    nodeRunning w k = true \/ exists n i unclosed, e = ResumeFailed n i unclosed /\ k ∈ unclosed.
Proof.
  intros H. change w' with (w', @Err op_error (list Warning) e).1. rewrite <- H.
  assert (He : (resumeCluster sch d a now w).2 = Err e) by by rewrite H.
  revert He. clear H w'. revert e.
  apply (post_conseq w (resumeCluster sch d a now) (fun w' r => forall e, r = Err e -> files w' = files w /\ holds w' = holds w /\
    forall k, nodeRunning w' k = true -> nodeRunning w k = true \/ exists n i u, e = ResumeFailed n i u /\ k ∈ u)); [|done].
  unfold resumeCluster. destruct (a_item a) as [item|]; [|apply post_ret; auto].
  apply post_bind, post_get. destruct (clusterRunning w) eqn:Hrun; [apply post_ret; auto|].
  destruct (a_sync a); [cbn [negb]|apply post_ret; auto].
  destruct (a_overcommit a) as [o|], (a_pressure a) as [p|], (if 0 <? a_booting a then a_provision a else Some ([], 0)) as [[q held]|];
    try (apply post_ret; by auto).
  apply post_bind. unfold hold. apply post_modify. destruct (a_subnet a) as [sub|].
  - apply post_bind. eapply post_conseq; [apply (gentle_drift sch (fun _ => False))|]. intros w2 drift C2. apply post_bind.
    eapply post_conseq; [apply runs_batch_failed|].
    + intros k Hk. apply (calm_running _ _ _ C2) in Hk. exfalso. revert Hk. destruct (held <=? 0); by rewrite clusterRunning_false.
    + intros w3 r H3. destruct r as [[warnings restored]|e].
      { apply post_bind. unfold emit. apply post_modify, post_ret. done. }
      destruct (H3 e eq_refl) as [[F3 O3] (n & i & u & -> & Hu)]. apply post_bind. unfold releaseBalloonHold. apply post_modify, post_ret.
      intros ? [= <-]. apply calm_steady in C2 as [F2 O2]. pose proof (hold_release held (holds w)) as Hh.
      destruct (held <=? 0); simpl in *; split_and!; try congruence; eauto 10.
  - apply post_bind. unfold releaseBalloonHold. apply post_modify, post_ret. intros e _. pose proof (hold_release held (holds w)) as Hh.
    by destruct (held <=? 0); simpl in *; split_and!; auto.
Qed.

Lemma failed_resume_commits_nothing_witness :
  let w' := (resumed (failing [] [20]%nat) asleep).1 in
  (resumed (failing [] [20]%nat) asleep).2 = Err (ResumeFailed "b" true []) /\ files w' = files asleep /\ holds w' = holds asleep.
Proof.
  intros w'. assert (Hr : (resumed (failing [] [20]%nat) asleep).2 = Err (ResumeFailed "b" true [])) by (vm_compute; reflexivity).
  split; [exact Hr|].
  destruct (failed_resume_commits_nothing (failing [] [20]%nat) demo_daemon (all_clear demo_item) 100000000000 asleep w'
    (ResumeFailed "b" true [])) as (Hf & Hh & _).
  { rewrite <- Hr. apply surjective_pairing. }
  split; [exact Hf|exact Hh].
Defined.

(** ** Suspending a cluster *)

Lemma suspended_touches d n j w w' : touches n w w' -> j <> n -> suspended d w j -> suspended d w' j.
Proof.
  intros [F V D _] Hj ([t Hs] & Hm & Hr).
  assert (Hp : forall k, files w' !! path_of k j = files w !! path_of k j).
  { intros k. apply F. intros k' E. apply path_of_inj in E as [_ E]. congruence. }
  pose proof (Hp SaveSide) as H1. pose proof (Hp MarkerSide) as H2. simpl in H1, H2.
  unfold suspended, version, nodeRunning in *. rewrite H1, H2, V, D by done. eauto.
Qed.

Lemma save_touches n j w w' : touches n w w' -> j <> n -> files w' !! saveStatePath j = files w !! saveStatePath j.
Proof. intros [F _ _ _] Hj. apply F. intros k E. apply (path_of_inj SaveSide) in E as [_ E]. congruence. Qed.

Lemma runs_suspendCluster sch d order w :
  reliable sch -> (forall n, machine_ok d w n) -> NoDup order -> clusterRunning w = true ->
  runs w (suspendCluster sch d true true order) (fun w' r =>
  match r with
  | Ok _ => forall n, n ∈ order -> suspended d w' n
  | Err e => exists failed, e = SuspendFailed failed /\ failed <> [] /\ failed ⊆ order /\
      forall n, n ∈ order -> if bool_decide (n ∈ failed) then files w' !! saveStatePath n = None else suspended d w' n
  end).
Proof.
  intros Hrel Hm Hd Hrun. unfold suspendCluster. cbn [negb]. apply post_bind, post_get. rewrite Hrun. cbn [negb].
  apply post_bind. unfold emit at 1. apply post_modify. apply post_bind. unfold emit at 1. apply post_modify. apply post_bind.
  eapply post_conseq.
  { apply (post_gather order _ (fun l1 failed w' => (forall n, machine_ok d w' n) /\ failed ⊆ l1 /\
      forall n, n ∈ l1 -> if bool_decide (n ∈ failed) then files w' !! saveStatePath n = None else suspended d w' n)).
    - split_and!; [apply Hm|set_solver..].
    - intros l1 x l2 failed w1 -> (Hm1 & Hsub & H1).
      assert (Hx : x ∉ l1) by (apply NoDup_app in Hd as (_ & Hd & _); intros Hn; apply (Hd x Hn); left).
      eapply post_conseq; [apply post_and; [apply (suspendNode_spec sch Hrel d x w1), Hm1|apply post_and; [apply local_suspendNode|apply gentle_suspendNode]]|].
      intros w2 b (Hs & Ht & Hg). split; [intros n; by eapply calm_machine_ok|].
      split; [clear - Hsub Hs; destruct Hs as [[-> _]|[-> _]]; set_solver|].
      intros n Hn. destruct (decide (n = x)) as [->|Hne].
      + assert (x ∉ failed) by (clear - Hsub Hx; set_solver). destruct Hs as [[-> Hs]|[-> Hs]].
        * by rewrite app_nil_r, bool_decide_eq_false_2.
        * by rewrite bool_decide_eq_true_2 by (apply elem_of_app; right; by apply list_elem_of_singleton).
      + assert (Hn1 : n ∈ l1) by (clear - Hn Hne; set_solver). specialize (H1 n Hn1).
        rewrite (bool_decide_ext _ (n ∈ failed)) by (clear - Hs Hne; destruct Hs as [[-> _]|[-> _]]; set_solver).
        case_bool_decide; [by rewrite (save_touches x n w1 w2)|by eapply suspended_touches]. }
  intros w3 failed (_ & Hsub & Hall). apply post_ret. case_bool_decide as E.
  - subst. intros n Hn. specialize (Hall n Hn). rewrite bool_decide_eq_false_2 in Hall by set_solver. done.
  - eauto.
Qed.

(** Suspend is complete or says so.  When the files can be removed, every node of a
    running cluster ends either suspended (a save of its current disk and device set, a
    marker that says truly whether it has a balloon device, the machine stopped) or named
    in the error with no save left behind; success means all of them. *)
Theorem suspend_complete_or_named sch d order w w' r :
  reliable sch -> (forall n, machine_ok d w n) -> NoDup order -> clusterRunning w = true ->
  suspendCluster sch d true true order w = (w', r) ->
  match r with
  | Ok _ => forall n, n ∈ order -> suspended d w' n
  | Err e => exists failed, e = SuspendFailed failed /\ failed <> [] /\ failed ⊆ order /\
      forall n, n ∈ order -> if bool_decide (n ∈ failed) then files w' !! saveStatePath n = None else suspended d w' n
  end.
Proof.
  intros Hrel Hm Hd Hrun H. pose proof (runs_suspendCluster sch d order w Hrel Hm Hd Hrun) as G. unfold runs in G. by rewrite H in G.
Qed.

Lemma up_ok : forall n, machine_ok demo_daemon up n.
Proof. intros n m H. apply elem_of_map_to_list in H. vm_compute in H. set_unfold in H. by destruct H as [[= -> ->]|[[= -> ->]|[]]]. Qed.

(** The node that cannot be saved is named, and the other one is suspended. *)
Lemma suspend_complete_or_named_witness :
  let p := suspendCluster (failing [8; 9]%nat []) demo_daemon true true ["a"; "b"] up in
  p.2 = Err (SuspendFailed ["b"]) /\ suspended demo_daemon p.1 "a" /\ files p.1 !! saveStatePath "b" = None.
Proof.
  intros p. assert (Hr : p.2 = Err (SuspendFailed ["b"])) by (vm_compute; reflexivity). split; [exact Hr|].
  destruct (suspend_complete_or_named (failing [8; 9]%nat []) demo_daemon ["a"; "b"] up p.1 (Err (SuspendFailed ["b"]))) as (failed & E & _ & _ & H).
  - repeat split.
  - exact up_ok.
  - apply (bool_decide_unpack _). vm_compute. exact I.
  - vm_compute. reflexivity.
  - rewrite <- Hr. apply surjective_pairing.
  - injection E as <-. split; [apply (H "a"); set_solver|apply (H "b"); set_solver].
Defined.

(** ** Suspend, then resume *)

Lemma runs_remove_eq sch f w : reliable sch ->
  runs w (remove sch f) (fun w' r => files w' = delete f (files w) /\ vms w' = vms w /\ (r = None \/ r = Some NotExist)).
Proof.
  intros (Hr & _). unfold remove. apply post_bind, post_call, post_bind, post_get. rewrite Hr. cbn [files].
  destruct (files w !! f) eqn:E; [apply post_bind, post_modify, post_ret; auto|]. apply post_ret. simpl. rewrite delete_id; auto.
Qed.

(** The commit of a resume leaves none of the files of the nodes, and every other file. *)
Lemma runs_removeSaves_gone sch names w : reliable sch ->
  runs w (removeSaveStateFiles sch (saveStatePath <$> names)) (fun w' ws => ws = [] /\ vms w' = vms w /\
    (forall f, (forall k n, n ∈ names -> f <> path_of k n) -> files w' !! f = files w !! f) /\
    (forall k n, n ∈ names -> files w' !! path_of k n = None)).
Proof.
  intros Hrel. unfold removeSaveStateFiles, runs. rewrite gather_fmap.
  apply (post_gather names _ (fun l1 ws w' => ws = [] /\ vms w' = vms w /\
    (forall f, (forall k n, n ∈ l1 -> f <> path_of k n) -> files w' !! f = files w !! f) /\
    (forall k n, n ∈ l1 -> files w' !! path_of k n = None))).
  - split_and!; try done. set_solver.
  - intros l1 x l2 ws w1 _ (-> & V1 & F1 & N1). apply post_bind. eapply post_conseq; [by apply runs_remove_eq|]. intros w2 r2 (F2 & V2 & _).
    apply post_bind. eapply post_conseq; [by apply runs_remove_eq|]. intros w3 r3 (F3 & V3 & _).
    unfold removeSaveStateBalloonMarker. apply post_bind, post_bind. eapply post_conseq; [by apply runs_remove_eq|].
    intros w4 r4 (F4 & V4 & Hr4). apply post_ret, post_ret.
    assert (Fx : forall k, files w4 !! path_of k x = None) by (intros []; simpl; rewrite F4, F3, F2, ?lookup_delete_None; auto).
    assert (Fo : forall f, (forall k, f <> path_of k x) -> files w4 !! f = files w1 !! f).
    { intros f Hf. pose proof (Hf SaveSide). pose proof (Hf OwnerSide). pose proof (Hf MarkerSide). simpl in *.
      rewrite F4, F3, F2, !lookup_delete_ne by auto. done. }
    split_and!; [by destruct Hr4 as [-> | ->]|congruence| |].
    + intros f Hf. rewrite Fo; [apply F1; intros k n Hn; apply Hf; set_solver|]. intros k. apply Hf. set_solver.
    + intros k n Hn. destruct (decide (n = x)) as [->|Hne]; [apply Fx|]. rewrite Fo; [apply N1; set_solver|].
      intros k' [_ E]%path_of_inj. congruence.
Qed.

Lemma runs_suspendNode_healthy d n m w : vms w !! n = Some m -> m_active m = true -> runs w (suspendNode healthy d n) (fun _ failed => failed = []).
Proof.
  intros Hm Ha. unfold suspendNode, prepareSavedMachine, Suspend. apply post_bind, post_bind, post_bind, post_call, post_bind, post_get.
  cbn [vms]. rewrite Hm, Ha. cbn [s_machine healthy]. apply post_bind, post_modify, post_ret. cbn [negb]. unfold stopMachine.
  apply post_bind, post_bind, post_call. cbn [s_machine healthy]. apply post_bind.
  eapply post_conseq; [apply (gentle_set_inactive (fun _ => False))|]. intros w1 ? _. apply post_ret. cbn [negb]. apply post_ret. cbn [snd fst].
  unfold recordSaveStateOwner, recordSaveStateBalloon, writeFile.
  apply post_bind, post_bind, post_bind, post_bind, post_call. cbn [s_write healthy]. apply post_bind, post_modify, post_ret, post_ret.
  apply post_bind. destruct (balloonDisabled d).
  - apply post_bind, post_call. cbn [s_write healthy]. apply post_bind, post_modify, post_ret, post_ret. cbn [snd]. by apply post_ret.
  - apply post_bind. eapply post_conseq; [apply runs_remove_eq, healthy_reliable|]. intros w2 r (_ & _ & Hr). apply post_ret, post_ret.
    destruct Hr as [-> | ->]; cbn [snd]; by apply post_ret.
Qed.

(** A suspended node comes back with its memory, on the disk it was saved with. *)
Definition back (d : Daemon) (v : nat) (w : World) (n : string) : Prop :=
  vms w !! n = Some (mkMachine true (negb (balloonDisabled d)) (Some (mkSave v (negb (balloonDisabled d)), v))).

Lemma runs_resumeNode_healthy d n w : suspended d w n ->
  runs w (resumeNode healthy d n) (fun w' r => touches n w w' /\ files w' = files w /\ back d (version w n) w' n /\
    r = Ok (mkResumed (saveStatePath n) [] true)).
Proof.
  intros ([t Hs] & Hmk & _). apply post_and; [apply local_resumeNode|]. unfold resumeNode, read, savedWithoutBalloon, read.
  apply post_bind, post_bind, post_call, post_bind, post_get, post_ret. cbn [s_stat healthy files]. rewrite Hs. cbn [is_ok].
  apply post_bind, post_bind, post_bind, post_call, post_bind, post_get, post_ret, post_ret. cbn [s_stat healthy files].
  assert (E : is_ok match files w !! saveStateBalloonPath (saveStatePath n) with Some c => Ok c | None => Err NotExist end = balloonDisabled d).
  { destruct (files w !! saveStateBalloonPath _) eqn:Ef; simpl; [symmetry; by apply Hmk|].
    destruct (balloonDisabled d) eqn:Ed; [|done]. destruct (proj2 Hmk eq_refl). done. }
  rewrite E, eqb_reflx. cbn [negb andb]. apply post_bind. unfold untrack. apply post_modify. unfold launchMachine.
  apply post_bind, post_bind, post_call, post_bind, post_get. cbn [s_launch healthy files with_vms]. rewrite Hs.
  apply post_bind, post_modify, post_bind. unfold emit. apply post_modify, post_ret. apply post_bind. unfold track. apply post_modify, post_ret.
  split; [done|]. split; [|done]. unfold back. simpl. rewrite lookup_insert_eq. done.
Qed.

Lemma suspended_calm d n w w' : calm (fun _ => False) w w' -> suspended d w n -> suspended d w' n.
Proof.
  intros C (Hs & Hm & Hr). unfold suspended. rewrite !(c_files _ _ _ C _ (fun H => H)), (calm_version _ _ _ n C).
  split_and!; [done..|]. by eapply calm_nodeRunning.
Qed.

Lemma runs_drift sch now w : runs w (clockDriftWarning sch now) (fun w' l =>
  calm (fun _ => False) w w' /\ forall x, x ∈ l -> exists s, x = ClocksBehind s).
Proof.
  apply post_and; [apply gentle_drift|]. unfold clockDriftWarning. apply post_bind. eapply post_conseq; [apply (gentle_glob sch (fun _ => False))|].
  intros w1 l _. apply post_bind. eapply post_conseq; [apply (gentle_oldest sch (fun _ => False))|]. intros w2 o _. apply post_ret.
  destruct o as [t|]; [|set_solver]. destruct (round_seconds (now - t) <? minReportedClockDrift); [set_solver|].
  intros x ->%list_elem_of_singleton. by eexists.
Qed.

Lemma runs_batch_healthy d (ver : string -> nat) names done ws restored w :
  (forall n, n ∈ names -> suspended d w n /\ version w n = ver n) -> NoDup (done ++ names) -> (forall n, n ∈ done -> back d (ver n) w n) ->
  runs w (resumeNodeBatch healthy d names done (saveStatePath <$> done) ws restored) (fun w' r => (exists b, r = Ok (ws, b)) /\
    (forall n, n ∈ done ++ names -> back d (ver n) w' n) /\
    (forall f, (forall k n, n ∈ done ++ names -> f <> path_of k n) -> files w' !! f = files w !! f) /\
    (forall k n, n ∈ done ++ names -> files w' !! path_of k n = None)).
Proof.
  revert done ws restored w. induction names as [|n names IH]; intros done ws restored w Hs Hd Hb; simpl; apply post_bind.
  - eapply post_conseq; [apply runs_removeSaves_gone, healthy_reliable|]. intros w' wr (-> & V & F & N). apply post_ret.
    rewrite !app_nil_r. split_and!; [by eexists| |done..]. intros n Hn. unfold back. rewrite V. by apply Hb.
  - destruct (Hs n (list_elem_of_here _ _)) as [Hn Hv].
    assert (Hnd : (n ∉ done) /\ (n ∉ names)).
    { apply NoDup_app in Hd as (_ & Hd & Hn'). split; [intros H; apply (Hd n H); left|by apply NoDup_cons in Hn' as [? _]]. }
    eapply post_conseq; [by apply runs_resumeNode_healthy|]. intros w1 r (T1 & F1 & B1 & ->).
    change ((saveStatePath <$> done) ++ [r_savePath (mkResumed (saveStatePath n) [] true)]) with ((saveStatePath <$> done) ++ (saveStatePath <$> [n])).
    rewrite <- fmap_app. cbn [r_warning]. rewrite app_nil_r. eapply post_conseq; [apply IH|].
    + intros k Hk. destruct (Hs k (list_elem_of_further _ _ _ Hk)) as [Hk1 Hk2]. assert (k <> n) by (intros ->; tauto).
      split; [by eapply suspended_touches|]. unfold version in *. by rewrite (t_disk _ _ _ T1).
    + by rewrite <- app_assoc.
    + intros k [Hk|Hk%list_elem_of_singleton]%elem_of_app; [|subst; by rewrite <- Hv].
      unfold back. rewrite (t_vms _ _ _ T1) by (intros ->; tauto). by apply Hb.
    + intros w2 r2. rewrite <- !app_assoc. simpl. by rewrite F1.
Qed.

(** Suspending every node of a cluster that runs them all *)
Lemma runs_suspend_healthy d names order w :
  NoDup names -> names <> [] -> order ≡ₚ names -> (forall n, machine_ok d w n) ->
  (forall n, n ∈ names -> nodeRunning w n = true) -> (forall n, is_Some (vms w !! n) -> n ∈ names) ->
  runs w (suspendCluster healthy d true true order) (fun w' r => r = Ok tt /\ clusterRunning w' = false /\
    (forall n, n ∈ names -> suspended d w' n /\ version w' n = version w n) /\
    (forall f, (forall k n, n ∈ names -> f <> path_of k n) -> files w' !! f = files w !! f)).
Proof.
  intros Hd Hne Ho Hm Hrun Hall.
  assert (Hr : clusterRunning w = true).
  { destruct names as [|n names]; [done|]. apply dec_stable. intros E%not_true_is_false.
    pose proof (Hrun n (list_elem_of_here _ _)) as Hn. by rewrite clusterRunning_false in Hn. }
  apply (post_conseq _ _ (fun w' r => (r = Ok tt /\ calm (fun _ => True) w w' /\
    forall f, (forall k n, n ∈ names -> f <> path_of k n) -> files w' !! f = files w !! f) /\
    match r with
    | Ok _ => forall n, n ∈ order -> suspended d w' n
    | Err e => exists failed, e = SuspendFailed failed /\ failed <> [] /\ failed ⊆ order /\
        forall n, n ∈ order -> if bool_decide (n ∈ failed) then files w' !! saveStatePath n = None else suspended d w' n
    end)).
  2: { intros w' r ((-> & C & F) & Hs). split_and!; [done| | |done].
       - unfold clusterRunning. apply not_true_is_false. intros ([k m'] & Hin & Ha)%existsb_exists.
         apply list_elem_of_In, elem_of_map_to_list in Hin. simpl in Ha.
         destruct (c_vms _ _ _ C k m' Hin) as (m & Hk & _). assert (Hkn : k ∈ order) by (rewrite Ho; apply Hall; by eexists).
         destruct (Hs k Hkn) as (_ & _ & Hoff). unfold nodeRunning in Hoff. rewrite Hin in Hoff. congruence.
       - intros n Hn. split; [apply Hs; by rewrite Ho|]. by eapply calm_version. }
  apply post_and; [|apply runs_suspendCluster; [apply healthy_reliable|done|by rewrite Ho|done]].
  unfold suspendCluster. cbn [negb]. apply post_bind, post_get. rewrite Hr. cbn [negb].
  apply post_bind. unfold emit at 1. apply post_modify. apply post_bind. unfold emit at 1. apply post_modify. apply post_bind.
  eapply post_conseq.
  { apply (post_gather order _ (fun l1 failed w' => failed = [] /\ calm (fun _ => True) w w' /\
      (forall n, n ∉ l1 -> vms w' !! n = vms w !! n) /\ forall f, (forall k n, n ∈ names -> f <> path_of k n) -> files w' !! f = files w !! f)).
    - split_and!; try done. by apply calm_same.
    - intros l1 x l2 failed w1 Ho1 (-> & C1 & V1 & F1).
      assert (Hx : (x ∈ names) /\ (x ∉ l1)).
      { rewrite <- Ho in Hd |- *. rewrite Ho1 in Hd |- *. apply NoDup_app in Hd as (_ & Hd & _). split; [set_solver|].
        intros Hl. apply (Hd x Hl). left. }
      destruct Hx as [Hx Hxl]. specialize (Hrun x Hx). unfold nodeRunning in Hrun. rewrite <- (V1 x Hxl) in Hrun.
      destruct (vms w1 !! x) as [m|] eqn:Em; [|done].
      eapply post_conseq; [apply post_and; [by eapply runs_suspendNode_healthy|apply post_and; [apply local_suspendNode|apply gentle_suspendNode]]|].
      intros w2 b (-> & T2 & C2). split_and!; [done|by etrans| |].
      + intros n Hn. rewrite (t_vms _ _ _ T2) by set_solver. apply V1. set_solver.
      + intros f Hf. rewrite (t_files _ _ _ T2) by (intros k; by apply Hf). by apply F1. }
  intros w3 failed (-> & C3 & _ & F3). by apply post_ret.
Qed.

(** C33: Suspend and resume are inverse.  When no call fails, suspending a running cluster
    succeeds in whichever order its machines are visited, and resuming it succeeds with
    nothing to say but the clock drift: every node runs again from its own saved memory,
    on the disk version and with the devices it was saved with, none of the saves, owner
    stamps and markers is left, and every other file of the directory is as before. *)
Theorem suspend_resume_roundtrip d item order now w w1 w2 r1 r2 :
  let names := n_Name <$> c_Nodes item in
  NoDup names -> names <> [] -> order ≡ₚ names -> (forall n, machine_ok d w n) ->
  (forall n, n ∈ names -> nodeRunning w n = true) -> (forall n, is_Some (vms w !! n) -> n ∈ names) ->
  suspendCluster healthy d true true order w = (w1, r1) ->
  resumeCluster healthy d (all_clear item) now w1 = (w2, r2) ->
  r1 = Ok tt /\ (exists drift, r2 = Ok drift /\ forall x, x ∈ drift -> exists s, x = ClocksBehind s) /\
  (forall n, n ∈ names -> back d (version w n) w2 n) /\
  (forall k n, n ∈ names -> files w2 !! path_of k n = None) /\
  (forall f, (forall k n, n ∈ names -> f <> path_of k n) -> files w2 !! f = files w !! f).
Proof.
  intros names Hd Hne Ho Hm Hrun Hall H1 H2.
  pose proof (runs_suspend_healthy d names order w Hd Hne Ho Hm Hrun Hall) as G. unfold runs in G. rewrite H1 in G. cbn [fst snd] in G.
  destruct G as (-> & Hoff & Hs & F1). split; [done|].
  assert (G : runs w1 (resumeCluster healthy d (all_clear item) now) (fun w2 r2 =>
    (exists drift, r2 = Ok drift /\ forall x, x ∈ drift -> exists s, x = ClocksBehind s) /\
    (forall n, n ∈ names -> back d (version w n) w2 n) /\
    (forall k n, n ∈ names -> files w2 !! path_of k n = None) /\
    (forall f, (forall k n, n ∈ names -> f <> path_of k n) -> files w2 !! f = files w1 !! f))).
  { unfold resumeCluster. cbn [all_clear a_item a_sync a_overcommit a_pressure a_provision a_subnet a_booting Z.ltb Z.compare negb].
    apply post_bind, post_get. rewrite Hoff. apply post_bind, post_modify. cbn [Z.leb Z.compare]. apply post_bind.
    eapply post_conseq; [apply runs_drift|]. intros w3 drift [C3 Hdrift]. apply post_bind.
    eapply post_conseq; [apply (runs_batch_healthy d (version w) names []); [|done|set_solver]|].
    - intros n Hn. destruct (Hs n Hn) as [Hn1 Hn2]. split; [by eapply suspended_calm|]. by rewrite (calm_version _ _ _ n C3).
    - intros w4 r4 ([b ->] & Hb & F4 & N4). apply post_bind. unfold emit. apply post_modify, post_ret.
      split_and!; [|done..|].
      + eexists. split; [done|]. simpl. by destruct b; [|set_solver].
      + intros f Hf. simpl. rewrite F4 by done. apply (c_files _ _ _ C3 f (fun H => H)). }
  unfold runs in G. rewrite H2 in G. cbn [fst snd] in G. destruct G as (Hr & Hb & Hn & F2). split_and!; try done.
  intros f Hf. by rewrite F2, F1.
Qed.

Lemma suspend_resume_roundtrip_witness :
  back demo_daemon 1 awake "a" /\ back demo_daemon 1 awake "b" /\ files awake !! saveStatePath "a" = None.
Proof.
  destruct (suspend_resume_roundtrip demo_daemon demo_item ["a"; "b"] 100000000000 up asleep awake
    (suspendCluster healthy demo_daemon true true ["a"; "b"] up).2 (resumed healthy asleep).2) as (_ & _ & Hb & Hn & _).
  - apply (bool_decide_unpack _). vm_compute. exact I.
  - discriminate.
  - reflexivity.
  - exact up_ok.
  - intros n Hn. change (n ∈ ["a"; "b"]) in Hn. set_unfold in Hn. destruct Hn as [-> |[-> |[]]]; vm_compute; reflexivity.
  - intros n [m H]. apply elem_of_map_to_list in H. vm_compute in H. set_unfold in H. by destruct H as [[= -> ->]|[[= -> ->]|[]]]; vm_compute; set_solver.
  - apply surjective_pairing.
  - apply surjective_pairing.
  - assert (Ha : "a" ∈ n_Name <$> c_Nodes demo_item) by (change ("a" ∈ ["a"; "b"]); left).
    assert (Hb' : "b" ∈ n_Name <$> c_Nodes demo_item) by (change ("b" ∈ ["a"; "b"]); right; left).
    assert (Va : version up "a" = 1%nat) by (vm_compute; reflexivity).
    assert (Vb : version up "b" = 1%nat) by (vm_compute; reflexivity).
    pose proof (Hb "a" Ha) as Ba. rewrite Va in Ba. pose proof (Hb "b" Hb') as Bb. rewrite Vb in Bb.
    split; [exact Ba|]. split; [exact Bb|]. exact (Hn SaveSide "a" Ha).
Defined.

(** ** A start supersedes the saves it boots over

    No schedule is assumed here either. *)
Section Supersede.
Context (sch : Schedule).

Lemma runs_discard_any n w :
  runs w (discardSavedState sch n) (fun w' r => calm (fun f => exists k, f = path_of k n) w w' /\
    (files w' !! saveStatePath n = None \/ Undiscarded n ∈ r.2) /\ (files w !! saveStatePath n = None -> files w' !! saveStatePath n = None)).
Proof.
  apply post_and.
  { apply calm_full. unfold discardSavedState. pose proof (is_save_path n). pose proof (is_owner_path n). pose proof (is_marker_path n).
    stays_tac. }
  unfold discardSavedState, read. apply post_bind, post_bind, post_call, post_bind, post_get, post_ret. cbn [files].
  destruct (s_stat sch (tick w)); [apply post_ret; split; [right; by left|done]|].
  destruct (files w !! saveStatePath n) as [c|] eqn:E; [|apply post_ret; auto].
  unfold remove at 1. apply post_bind, post_bind, post_call, post_bind, post_get. cbn [tick files]. rewrite E.
  destruct (s_remove sch _); [apply post_ret, post_ret; split; [right; by left|done]|]. apply post_bind, post_modify, post_ret. cbv beta iota.
  apply post_bind. eapply post_conseq; [apply (gentle_remove sch (fun f => f = saveStateOwnerPath (saveStatePath n))); done|]. intros w1 r1 C1.
  apply post_bind. eapply post_conseq; [apply (gentle_removeMarker sch (fun f => f = saveStateBalloonPath (saveStatePath n))); done|].
  intros w2 r2 C2. apply post_ret. split; [left|done]. rewrite (c_files _ _ _ C2), (c_files _ _ _ C1) by auto with tbx. simpl. by rewrite lookup_delete_eq.
Qed.

(** What a discarding loop leaves, whatever it collects *)
Lemma runs_discards {B} (f : bool * list Warning -> list B) (tell : list B -> list Warning) done w :
  tell [] = [] -> (forall a b, tell (a ++ b) = tell a ++ tell b) -> (forall r, tell (f r) = r.2) ->
  runs w (gather done (fun n => r ← discardSavedState sch n; mret (f r))) (fun w' bs => disk w' = disk w /\
    (forall n, n ∈ done -> files w' !! saveStatePath n = None \/ Undiscarded n ∈ tell bs) /\
    (forall k n, n ∉ done -> files w' !! path_of k n = files w !! path_of k n)).
Proof.
  intros T0 Ta Tf. eapply post_conseq.
  { apply (post_gather done _ (fun l1 bs w' => disk w' = disk w /\
      (forall n, n ∈ l1 -> files w' !! saveStatePath n = None \/ Undiscarded n ∈ tell bs) /\
      (forall k n, n ∉ l1 -> files w' !! path_of k n = files w !! path_of k n))).
    - split_and!; [done|set_solver|done].
    - intros l1 x l2 bs w1 _ (D1 & H1 & F1). apply post_bind. eapply post_conseq; [apply runs_discard_any|].
      intros w2 r (C2 & Hx & Hgone). apply post_ret. rewrite Ta, Tf.
      assert (Ho : forall k n, n <> x -> files w2 !! path_of k n = files w1 !! path_of k n).
      { intros k n Hn. apply (c_files _ _ _ C2). intros [k' E]. apply path_of_inj in E as [_ E]. done. }
      split_and!; [by rewrite (c_disk _ _ _ C2)| |].
      + intros n Hn. destruct (decide (n = x)) as [->|Hne]; [destruct Hx; [by left|right; set_solver]|].
        destruct (H1 n) as [E|E]; [set_solver| |right; set_solver]. left. etrans; [apply (Ho SaveSide n Hne)|done].
      + intros k n Hn. rewrite Ho by set_solver. apply F1. set_solver. }
  done.
Qed.

(** The nodes a start launched are those whose disk moved. *)
Definition launched_since (w0 : World) (started : list string) (w : World) : Prop :=
  files w = files w0 /\ (forall n, (version w0 n <= version w n)%nat) /\ forall n, n ∈ started <-> version w n <> version w0 n.

Definition superseded (w w' : World) (told : list Warning) : Prop := forall n,
  (version w' n <> version w n -> files w' !! saveStatePath n = None \/ Undiscarded n ∈ told) /\
  (version w' n = version w n -> forall k, files w' !! path_of k n = files w !! path_of k n).

Lemma launched_calm w0 started w w' : launched_since w0 started w -> calm (fun _ => False) w w' -> launched_since w0 started w'.
Proof.
  intros (F & G & V) C. split_and!; [apply calm_steady in C as [? _]; congruence| |]; intros n; by rewrite (calm_version _ _ _ n C).
Qed.

Lemma launched_boot w0 started w w' n m : launched_since w0 started w ->
  files w' = files w -> vms w' = vms w -> disk w' = <[n := S (version w n)]> (disk w) ->
  runs w' (track n m) (fun w2 _ => launched_since w0 (started ++ [n]) w2).
Proof.
  intros (F & G & V) F' V' D'. unfold track. apply post_modify.
  assert (Hv : forall k, version (with_vms (<[n := m]> (vms w')) w') k = if decide (k = n) then S (version w n) else version w k).
  { intros k. unfold version at 1. simpl. rewrite D'. case_decide as E; [subst; by rewrite lookup_insert_eq|by rewrite lookup_insert_ne]. }
  split_and!; simpl; [congruence| |].
  - intros k. rewrite Hv. specialize (G k). case_decide; subst; lia.
  - intros k. rewrite Hv, elem_of_app, V, list_elem_of_singleton. specialize (G k). case_decide; subst; naive_solver lia.
Qed.

Lemma superseded_discards {B} (f : bool * list Warning -> list B) (tell : list B -> list Warning) w0 started w :
  tell [] = [] -> (forall a b, tell (a ++ b) = tell a ++ tell b) -> (forall r, tell (f r) = r.2) -> launched_since w0 started w ->
  runs w (gather started (fun n => r ← discardSavedState sch n; mret (f r))) (fun w' bs => superseded w0 w' (tell bs)).
Proof.
  intros T0 Ta Tf (F & G & V). eapply post_conseq; [by apply (runs_discards f tell)|]. intros w' bs (D & Hs & Ho) n.
  unfold version in *. rewrite D. split.
  - intros Hn. by apply Hs, V.
  - intros Hn k. rewrite Ho, F; [done|]. intros Hin%V. by apply Hin.
Qed.

Lemma runs_startLoop_any d w0 names started w : launched_since w0 started w ->
  runs w (startLoop sch d names started) (fun w' r =>
    match r with
    | Ok started => launched_since w0 started w'
    | Err (CreateFailed _ _ failures) => superseded w0 w' failures
    | Err (ReleaseFailed _) => True
    | Err _ => False
    end).
Proof.
  revert started w. induction names as [|n names IH]; intros started w Hl; simpl; [by apply post_ret|].
  apply post_bind. eapply post_conseq; [apply runs_releaseInactive|].
  intros w1 r [C1 Hr]. assert (Hl1 : launched_since w0 started w1) by by eapply launched_calm. destruct r as [[|]|e].
  - apply post_bind. eapply post_conseq; [apply runs_launch|]. intros w2 l (F2 & V2 & O2 & H2). destruct l as [i|m fb].
    + apply post_bind. eapply post_conseq; [apply (gentle_closeNodes sch (fun _ => False))|]. intros w3 u C3.
      apply post_bind. eapply post_conseq; [apply (superseded_discards snd id w0 started)|]; try done.
      eapply launched_calm; [done|]. etrans; [by apply calm_same|done].
    + apply post_bind. eapply post_conseq; [by eapply launched_boot; [..|apply H2]|]. intros w3 ? H3. by apply IH.
  - by apply IH.
  - rewrite (Hr e eq_refl). by apply post_ret.
Qed.
End Supersede.

(** What [start] tells, as warnings or inside its error *)
Definition told (r : result op_error (list Warning)) : list Warning :=
  match r with Ok ws => ws | Err (CreateFailed _ _ failures) => failures | Err _ => [] end.

(** A cold boot never leaves a stale save in silence.  Whatever calls fail, when
    [start] succeeds, or fails to launch a node and rolls back, each node it booted (its
    disk moved) has lost its save, or the operator is told that the save could not be
    discarded; each node it did not boot keeps its save, owner stamp and marker as they
    were. *)
Theorem start_supersedes sch d item sync subnet w w' r :
  start sch d item sync subnet w = (w', r) -> (forall n, r <> Err (ReleaseFailed n)) ->
  forall n,
    (version w' n <> version w n -> files w' !! saveStatePath n = None \/ Undiscarded n ∈ told r) /\
    (version w' n = version w n -> forall k, files w' !! path_of k n = files w !! path_of k n).
Proof.
  intros H Hr. assert (G : runs w (start sch d item sync subnet) (fun w' r => (forall n, r <> Err (ReleaseFailed n)) -> superseded w w' (told r))).
  { unfold start. destruct sync; [cbn [negb]|apply post_ret; by split]. destruct subnet as [s|]; [|apply post_ret; by split].
    apply post_bind. eapply post_conseq; [apply (runs_startLoop_any sch d w _ [] w); split_and!; set_solver|].
    intros w1 r1 H1. destruct r1 as [started|e].
    - apply post_bind. eapply post_conseq; [apply (superseded_discards sch (fun o => [o]) (fun l => mjoin (l.*2)) w started)|]; try done.
      + intros a b. by rewrite fmap_app, join_app.
      + intros o. simpl. by rewrite app_nil_r.
      + intros w2 os H2. apply post_bind. unfold emit. apply post_modify, post_ret. intros _ n. destruct (H2 n) as [A B].
        split; [|done]. intros Hn. destruct (A Hn) as [?|?]; [by left|right]. simpl. set_solver.
    - apply post_ret. intros Hn. destruct e; try done. by destruct (Hn node). }
  unfold runs in G. rewrite H in G. by apply G.
Qed.

(** The rollback of a start whose second launch fails discards the save of the node that
    had booted and keeps the other one's. *)
Lemma start_supersedes_witness :
  let p := start (failing [] [15]%nat) demo_daemon demo_item true (Some []) asleep in
  p.2 = Err (CreateFailed "b" [] []) /\ files p.1 !! saveStatePath "a" = None /\
  files p.1 !! saveStatePath "b" = files asleep !! saveStatePath "b".
Proof.
  intros p. assert (Hr : p.2 = Err (CreateFailed "b" [] [])) by (vm_compute; reflexivity). split; [exact Hr|].
  assert (Hs : start (failing [] [15]%nat) demo_daemon demo_item true (Some []) asleep = (p.1, p.2)) by apply surjective_pairing.
  assert (Hn : forall n, p.2 <> Err (ReleaseFailed n)) by (intros n; rewrite Hr; discriminate).
  destruct (start_supersedes (failing [] [15]%nat) demo_daemon demo_item true (Some []) asleep p.1 p.2 Hs Hn "a") as [Ha _].
  destruct (start_supersedes (failing [] [15]%nat) demo_daemon demo_item true (Some []) asleep p.1 p.2 Hs Hn "b") as [_ Hb].
  split.
  - destruct Ha as [Ha|Ha]; [vm_compute; discriminate|exact Ha|]. rewrite Hr in Ha. inversion Ha.
  - assert (V : version p.1 "b" = version asleep "b") by (vm_compute; reflexivity). exact (Hb V SaveSide).
Defined.

(** ** Whose save is it *)

Lemma is_ownerPath f : has_suffix f saveStateOwnerSuffix = true -> exists n, f = saveStateOwnerPath (saveStatePath n).
Proof.
  intros [t ->]%has_suffix_spec. exists t. unfold saveStateOwnerPath, saveStatePath. by rewrite string_app_assoc.
Qed.

(** The save of [n] carries the stamp of another process. *)
Definition disowned (d : Daemon) (w : World) (n : string) : Prop :=
  is_Some (files w !! saveStatePath n) /\
  match files w !! saveStateOwnerPath (saveStatePath n) with
  | Some (FText recorded) => trim_space recorded <> instanceToken d
  | Some (FSave _ _) => True
  | None => False
  end.

(** Status calls saved memory lost exactly when some save that is still there was stamped
    by another process; a save without a stamp is not judged. *)
Theorem savedStateOwnerReplaced_exact sch d w : reliable sch ->
  (savedStateOwnerReplaced sch d w).2 = true <-> exists n, disowned d w n.
Proof.
  intros Hrel. change (runs w (savedStateOwnerReplaced sch d) (fun _ b => b = true <-> exists n, disowned d w n)).
  unfold savedStateOwnerReplaced. apply post_bind. eapply post_conseq; [by apply glob_spec|]. intros w1 matches [C1 H1].
  assert (G : forall l w2, l ⊆ matches -> calm (fun _ => False) w w2 ->
    runs w2 (owner_replaced sch (instanceToken d) l) (fun _ b => b = true <-> exists n, saveStateOwnerPath (saveStatePath n) ∈ l /\ disowned d w n)).
  { induction l as [|f l IH]; intros w2 Hl C2; simpl.
    { apply post_ret. split; [done|]. set_solver. }
    destruct (is_ownerPath f) as [n ->]; [apply H1; set_solver|].
    assert (Hstep : forall w3, calm (fun _ => False) w w3 -> ~ disowned d w n -> runs w3 (owner_replaced sch (instanceToken d) l)
      (fun _ b => b = true <-> exists k, saveStateOwnerPath (saveStatePath k) ∈ saveStateOwnerPath (saveStatePath n) :: l /\ disowned d w k)).
    { intros w3 C3 Hn. eapply post_conseq; [apply IH; [set_solver|done]|]. intros w4 b ->. split; intros (k & Hk & Hdk); exists k; split; auto.
      - by right.
      - apply elem_of_cons in Hk as [E|Hk]; [|done]. apply owner_inj in E. congruence. }
    assert (Et : trim_suffix (saveStateOwnerPath (saveStatePath n)) ".owner" = saveStatePath n) by apply trim_suffix_app.
    rewrite Et. apply post_bind. eapply post_conseq; [by apply runs_read|]. intros w3 r [C3 ->].
    assert (C3' : calm (fun _ => False) w w3) by (etrans; [apply C2|apply C3]).
    rewrite (c_files _ _ _ C2 _ (fun H => H)). destruct (files w !! saveStatePath n) eqn:Es; cbv iota.
    2: { apply Hstep; [done|]. intros [[? E] _]. congruence. }
    apply post_bind. eapply post_conseq; [by apply runs_read|]. intros w4 r [C4 ->].
    assert (C4' : calm (fun _ => False) w w4) by (etrans; [apply C3'|apply C4]).
    rewrite (c_files _ _ _ C3' _ (fun H => H)). destruct (files w !! saveStateOwnerPath (saveStatePath n)) as [[sv t|recorded]|] eqn:Eo; cbv iota.
    - apply post_ret. split; [|done]. intros _. exists n. split; [left|]. split; [by rewrite Es|by rewrite Eo].
    - case_bool_decide as Hne.
      + apply post_ret. split; [|done]. intros _. exists n. split; [left|]. split; [by rewrite Es|by rewrite Eo].
      + apply Hstep; [done|]. intros [_ Hd]. by rewrite Eo in Hd.
    - apply Hstep; [done|]. intros [_ Hd]. by rewrite Eo in Hd. }
  eapply post_conseq; [by apply G|]. intros w5 b ->. split; [intros (n & _ & Hd); eauto|]. intros [n Hd]. exists n. split; [|done].
  apply H1. destruct Hd as [_ Hd]. split; [destruct (files w !! saveStateOwnerPath _) eqn:E; [by eexists|done]|].
  apply has_suffix_spec. exists n. unfold saveStateOwnerPath, saveStatePath. by rewrite string_app_assoc.
Qed.
