(* ===== verification/ImageCache.v ===== *)
(** * The image cache ([internal/imagecache]: cache.go, pin.go; [internal/daemon]:
      cache_reference.go and the prune handler of operations.go)

    The directory tree below the cache root, by path.  Every call to the file system can
    fail, as a schedule (a parameter) says; the Image Factory and the [xz] program are
    parameters.  Nothing below a symbolic link is part of the tree. *)

From stdpp Require Import base list gmap sorting strings.
From Stdlib Require Import Ascii ZArith Lia.
From S2P Require Import Prelude GoStrings Cluster TalosVersion Effects.

Local Open Scope Z_scope.
Local Open Scope effect_scope.

(** ** The tree *)

Abbreviation path := (list string).

(** A symbolic link shows, through [Stat], the regular file it leads to, if any. *)
Inductive inode :=
| Reg (data : string) (alloc : Z)
| Dir
| Link (leads : option (string * Z)) (len : Z)
| Other.

Record Fs := mkFs { nodes : gmap path inode; tick : nat }.

Inductive cache_error :=
| InvalidComponent (name value : string)
| UnsupportedArchitecture (a : string)
| RefuseRoot
| RefuseSymlink (p : path)
| RefuseNonDirectory (p : path)
| RefuseNonRegular (p : path)
| IOError
| BadStatus (code : Z)
| BlockPage
| DecompressFailed
| UnknownScope (scope : string).

Abbreviation M := (State Fs).
Abbreviation R A := (State Fs (result cache_error A)).

Definition with_nodes (m : gmap path inode) (w : Fs) : Fs := mkFs m (tick w).

Definition child (p q : path) : option string :=
  if bool_decide (take (length p) q = p) then match drop (length p) q with [n] => Some n | _ => None end else None.

(** The names in a directory, in the order [os.ReadDir] returns them *)
Definition children (m : gmap path inode) (p : path) : list string := sort_strings (omap (child p) (elements (dom m))).

(** A path that goes through something that is not a directory *)
Definition is_file (x : option inode) : bool := match x with Some (Reg _ _) | Some Other => true | _ => false end.
Definition blocked (m : gmap path inode) (p : path) : bool := existsb (fun i => is_file (m !! take i p)) (seq 0 (length p)).

Definition file_size (x : inode) : Z :=
  match x with Reg d _ => Z.of_nat (String.length d) | Link _ len => len | _ => 0 end.

(** ** The store *)

Definition Architecture := string.
Definition ArchitectureAMD64 : Architecture := "amd64".
Definition ArchitectureARM64 : Architecture := "arm64".
Definition pinMarkerName : string := "pinned".

Record Combination := mkCombination { Schematic : string; Version : string; Arch : Architecture }.

#[global] Instance Combination_eq_dec : EqDecision Combination.
Proof. solve_decision. Defined.

Record Entry := mkEntry { e_combination : Combination; e_Path : path; e_Size : Z; e_AllocatedSize : Z; e_Incomplete : bool }.

Record MirrorTotals := mkTotals { BlobCount : Z; BlobBytes : Z; ManifestCount : Z; ManifestBytes : Z }.

Record CachePruneResult := mkPruneResult {
  ImageCount : Z;
  ImageBytes : Z;
  KeptImages : Z;
  Images : list (Combination * Z);
  Mirror : MirrorTotals
}.

Definition no_totals : MirrorTotals := mkTotals 0 0 0 0.

Definition validateArchitecture (a : Architecture) : result cache_error unit :=
  if bool_decide (a = ArchitectureAMD64) || bool_decide (a = ArchitectureARM64) then Ok tt else Err (UnsupportedArchitecture a).

(** [filepath.Base(value) != value] for a value that is neither empty nor a dot name: it
    holds a separator. *)
Definition validateComponent (name value : string) : result cache_error unit :=
  if bool_decide (value = EmptyString) || bool_decide (value = ".") || bool_decide (value = "..") || bool_decide (is_Some (cut "/" value))
  then Err (InvalidComponent name value) else Ok tt.

Definition archive (a : Architecture) : string := ("metal-" +:+ a +:+ ".raw.xz")%string.

(** [knownDiskArtifactNames] *)
Definition knownDiskArtifactNames (a : Architecture) (includePin : bool) : list string :=
  ["disk.raw"; archive a] ++ (if includePin then [pinMarkerName] else []).

(** The prefixes of the temporary files of a download and of a decompression *)
Definition prefixes (a : Architecture) : list string := [".disk.raw-"; ("." +:+ archive a +:+ "-")%string].

Record pruneAction := mkAction { a_path : path; a_size : Z; a_temporary : bool }.
Record combinationPlan := mkPlan { p_combination : Combination; p_actions : list pruneAction }.

Definition reportable (p : combinationPlan) : bool := existsb (fun a => negb (a_temporary a)) (p_actions p).

Section Calls.
Context (fault : nat -> bool).

Definition lift {A} (r : result cache_error A) : R A := mret r.

(** One call: whether it fails *)
Definition call : M bool := fun w => (mkFs (nodes w) (S (tick w)), fault (tick w)).

(** [os.Lstat], a missing file as a value: [lstatPath] *)
Definition lstatPath (p : path) : R (option inode) :=
  f ← call; w ← get;
  if f : bool then fail IOError
  else match nodes w !! p with
       | Some x => ok (Some x)
       | None => if blocked (nodes w) p then fail IOError else ok None
       end.

(** [os.Stat] *)
Definition statPath (p : path) : R (option inode) :=
  x ←! lstatPath p;
  ok (match x with
      | Some (Link (Some (d, a)) _) => Some (Reg d a)
      | Some (Link None _) => None
      | x => x
      end).

(** [os.ReadDir]: [None] when the directory is not there *)
Definition readDir (p : path) : R (option (list (string * inode))) :=
  f ← call; w ← get;
  if f : bool then fail IOError
  else match nodes w !! p with
       | None => if blocked (nodes w) p then fail IOError else ok None
       | Some Dir => ok (Some (omap (fun n => x ← nodes w !! (p ++ [n]); Some (n, x)) (children (nodes w) p)))
       | Some _ => fail IOError
       end.

(** [os.ReadDir] where a missing directory is an error *)
Definition readDir_strict (p : path) : R (list (string * inode)) :=
  l ←! readDir p; match l with Some l => ok l | None => fail IOError end.

(** [os.Remove]; a directory must be empty.  [Ok false] when there was nothing. *)
Definition remove (p : path) : R bool :=
  f ← call; w ← get;
  if f : bool then fail IOError
  else match nodes w !! p with
       | None => if blocked (nodes w) p then fail IOError else ok false
       | Some Dir => if bool_decide (children (nodes w) p = []) then _ ← modify (fun w => with_nodes (delete p (nodes w)) w); ok true
                     else fail IOError
       | Some _ => _ ← modify (fun w => with_nodes (delete p (nodes w)) w); ok true
       end.

Definition fileReady (p : path) : M bool :=
  r ← statPath p;
  mret (match r with Ok (Some (Reg d a)) => 0 <? file_size (Reg d a) | _ => false end).

(** ** Checks before a prune *)

Definition requireDirectoryPath (p : path) : R unit :=
  x ←! lstatPath p;
  match x with
  | None => ok tt
  | Some (Link _ _) => fail (RefuseSymlink p)
  | Some Dir => ok tt
  | Some _ => fail (RefuseNonDirectory p)
  end.

(** [validateCacheRoot]: [slash] when the root is empty or the file system's root *)
Definition validateCacheRoot (slash : bool) : R unit := if slash then fail RefuseRoot else requireDirectoryPath [].

Definition pathExists (p : path) : R bool := x ←! lstatPath p; ok (bool_decide (is_Some x)).

(** ** Artifacts *)

Definition planKnownArtifact (p : path) (temporary : bool) : R (list pruneAction) :=
  x ←! lstatPath p;
  match x with
  | None => ok []
  | Some (Link _ _) => fail (RefuseSymlink p)
  | Some (Reg d a) => ok [mkAction p (file_size (Reg d a)) temporary]
  | Some _ => fail (RefuseNonRegular p)
  end.

Definition planKnownFiles (dir : path) (names pre : list string) : R (list pruneAction) :=
  entries ←! readDir_strict dir;
  gather_try entries (fun e =>
    if bool_decide (e.1 ∈ names) then planKnownArtifact (dir ++ [e.1]) false
    else if existsb (has_prefix e.1) pre then planKnownArtifact (dir ++ [e.1]) true
    else ok []).

(** [artifactStats]: the sizes of the named artifacts that are regular files *)
Definition artifactStats (dir : path) (names : list string) : R (list (Z * Z)) :=
  gather_try names (fun name =>
    x ←! lstatPath (dir ++ [name]);
    ok (match x with Some (Reg d a) => [(file_size (Reg d a), a)] | _ => [] end)).

Definition artifactsPresent (dir : path) (names : list string) : R bool :=
  l ←! artifactStats dir names; ok (bool_decide (l <> [])).

(** ** Pins *)

Definition pinMarkerPath (c : Combination) : result cache_error path :=
  _ ← validateComponent "schematic" (Schematic c);
  _ ← validateComponent "version" (Version c);
  _ ← validateArchitecture (Arch c);
  Ok [Schematic c; Version c; Arch c; pinMarkerName].

Definition Pinned (c : Combination) : R bool :=
  p ←! lift (pinMarkerPath c);
  x ←! lstatPath p;
  ok (match x with Some (Reg _ _) => true | _ => false end).

(** ** Listing *)

Definition cacheEntry (c : Combination) (p : path) : R (option Entry) :=
  x ←! statPath p;
  ok (match x with
      | Some (Reg d a) => if 0 <? file_size (Reg d a) then Some (mkEntry c p (file_size (Reg d a)) a false) else None
      | _ => None
      end).

(** [combinationDirs]: where a combination lives, with the names there *)
Definition combinationDirs (versionDir : path) (a : Architecture) : list (path * list string) :=
  (versionDir ++ [a], knownDiskArtifactNames a true) ::
  (if bool_decide (a = ArchitectureARM64) then [(versionDir, knownDiskArtifactNames a false)] else []).

(** The first loop of [combinationEntry]: the ready image *)
Fixpoint readyEntry (c : Combination) (dirs : list (path * list string)) : R (option Entry) :=
  match dirs with
  | [] => ok None
  | (p, _) :: rest =>
      e ←! cacheEntry c (p ++ ["disk.raw"]);
      match e with Some e => ok (Some e) | None => readyEntry c rest end
  end.

Definition combinationEntry (c : Combination) (dirs : list (path * list string)) : R (list Entry) :=
  ready ←! readyEntry c dirs;
  match ready with
  | Some e => ok [e]
  | None =>
      stats ←! gather_try dirs (fun d => l ←! artifactStats d.1 d.2; ok (if bool_decide (l = []) then [] else [(d.1, l)]));
      match stats with
      | [] => ok []
      | (p, _) :: _ =>
          let all := mjoin (stats.*2) in
          ok [mkEntry c p (zsum fst all) (zsum snd all) true]
      end
  end.

(** [List]; the order of the entries is that of the walk, which is the sorted one since
    [os.ReadDir] sorts and [amd64] precedes [arm64] *)
Definition list_version (s v : string) : R (list Entry) :=
  gather_try [ArchitectureAMD64; ArchitectureARM64] (fun a => combinationEntry (mkCombination s v a) (combinationDirs [s; v] a)).

Definition is_dir (x : inode) : bool := match x with Dir => true | _ => false end.

Definition List_ : R (list Entry) :=
  schematics ←! readDir [];
  match schematics with
  | None => ok []
  | Some schematics =>
      gather_try schematics (fun s =>
        if negb (is_dir s.2) then ok []
        else
          versions ←! readDir_strict [s.1];
          gather_try versions (fun v => if negb (is_dir v.2) then ok [] else list_version s.1 v.1))
  end.

(** ** Pruning disk images *)

(** [keep]: [None] is the nil function *)
Definition Keep := option (Combination -> R bool).

Definition keepCombination (keep : Keep) (c : Combination) : R bool :=
  match keep with None => ok false | Some k => k c end.

(** What the loop of [planKnownVersionPrune] adds for one architecture: the plans, the
    directory to clean up, whether the combination is kept and holds artifacts, whether
    the directory is there, and whether a full plan was added *)
Record ArchPlan := mkArchPlan {
  ap_plan : list combinationPlan;
  ap_cleanup : list path;
  ap_kept : bool;
  ap_touched : bool;
  ap_full : bool
}.

Definition planArch (keep : Keep) (s v : string) (a : Architecture) : R ArchPlan :=
  let archDir := [s; v; a] in
  exists_ ←! pathExists archDir;
  if negb exists_ then ok (mkArchPlan [] [] false false false)
  else
    let c := mkCombination s v a in
    kept ←! keepCombination keep c;
    if kept : bool then
      present ←! artifactsPresent archDir (knownDiskArtifactNames a true);
      _ ←! requireDirectoryPath archDir;
      temp ←! planKnownFiles archDir [] (prefixes a);
      ok (mkArchPlan (if bool_decide (temp = []) then [] else [mkPlan c temp]) [] present true false)
    else
      _ ←! requireDirectoryPath archDir;
      actions ←! planKnownFiles archDir (knownDiskArtifactNames a true) (prefixes a);
      ok (mkArchPlan [mkPlan c actions] [archDir] false true true).

Record VersionPlan := mkVersionPlan { vp_plan : list combinationPlan; vp_cleanup : list path; vp_kept : Z; vp_touched : bool }.

(** [plan[arm64PlanIndex].actions = append(..., legacyPlan...)]: the full plan of the
    last architecture is the last one *)
Definition append_actions (plans : list combinationPlan) (more : list pruneAction) : list combinationPlan :=
  match rev plans with
  | [] => []
  | p :: before => rev before ++ [mkPlan (p_combination p) (p_actions p ++ more)]
  end.

Definition addLegacy (plan : list combinationPlan) (full : bool) (legacy : Combination) (old : list pruneAction) : list combinationPlan :=
  if bool_decide (old = []) then plan
  else if full then append_actions plan old
  else plan ++ [mkPlan legacy old].

Definition planKnownVersionPrune (keep : Keep) (s v : string) : R VersionPlan :=
  amd ←! planArch keep s v ArchitectureAMD64;
  arm ←! planArch keep s v ArchitectureARM64;
  let legacy := mkCombination s v ArchitectureARM64 in
  let cleanup := ap_cleanup amd ++ ap_cleanup arm in
  let count := Z.b2z (ap_kept amd) + Z.b2z (ap_kept arm) in
  let touched := ap_touched amd || ap_touched arm in
  let plan := ap_plan amd ++ ap_plan arm in
  kept ←! keepCombination keep legacy;
  if kept : bool then
    temp ←! planKnownFiles [s; v] [] (prefixes ArchitectureARM64);
    let plan := plan ++ (if bool_decide (temp = []) then [] else [mkPlan legacy temp]) in
    present ←! artifactsPresent [s; v] (knownDiskArtifactNames ArchitectureARM64 false);
    ok (mkVersionPlan plan cleanup (count + Z.b2z (present && negb (ap_kept arm))) (touched || bool_decide (plan <> [])))
  else
    old ←! planKnownFiles [s; v] (knownDiskArtifactNames ArchitectureARM64 false) (prefixes ArchitectureARM64);
    let plan := addLegacy plan (ap_full arm) legacy old in
    ok (mkVersionPlan plan cleanup count (touched || bool_decide (plan <> []))).

(** What the walk of [pruneKnownDiskArtifacts] collects for one schematic *)
Record SchematicPlan := mkSchematicPlan { sp_plan : list combinationPlan; sp_cleanup : list path; sp_kept : Z }.

Definition planSchematic (keep : Keep) (s : string) : R SchematicPlan :=
  _ ←! requireDirectoryPath [s];
  versions ←! readDir_strict [s];
  plans ←! gather_try versions (fun v =>
    if negb (is_dir v.2) then ok []
    else
      _ ←! requireDirectoryPath [s; v.1];
      p ←! planKnownVersionPrune keep s v.1;
      ok [(v.1, p)]);
  let touched := filter (fun vp : string * VersionPlan => vp_touched vp.2 = true) plans in
  ok (mkSchematicPlan
        (touched ≫= fun vp => vp_plan vp.2)
        ((touched ≫= fun vp => vp_cleanup vp.2 ++ [[s; vp.1]]) ++ (if bool_decide (touched = []) then [] else [[s]]))
        (zsum (fun vp => vp_kept vp.2) plans)).

(** The loop that removes: what is reported of each combination *)
Definition executePlan (plan : list combinationPlan) : R (list (Combination * Z)) :=
  gather_try plan (fun p =>
    _ ←! gather_try (p_actions p) (fun a => _ ←! remove (a_path a); ok ([] : list unit));
    ok (if reportable p then [(p_combination p, zsum a_size (p_actions p))] else [])).

Definition removeIfEmpty (p : path) : R unit :=
  x ←! lstatPath p;
  match x with
  | None => ok tt
  | Some (Link _ _) => fail (RefuseSymlink p)
  | Some Dir =>
      entries ←! readDir_strict p;
      if bool_decide (entries <> []) then ok tt
      else
        removed ←! remove p;
        if removed : bool then ok tt else fail IOError
  | Some _ => fail (RefuseNonDirectory p)
  end.

(** The walk of [pruneKnownDiskArtifacts]: nothing is removed before it is over. *)
Definition planDisk (keep : Keep) : R (option (list SchematicPlan)) :=
  root ←! readDir [];
  match root with
  | None => ok None
  | Some root =>
      plans ←! gather_try root (fun s =>
        if bool_decide (s.1 = "mirror") || negb (is_dir s.2) then ok []
        else p ←! planSchematic keep s.1; ok [p]);
      ok (Some plans)
  end.

Definition executePrune (plans : list SchematicPlan) : R CachePruneResult :=
  images ←! executePlan (plans ≫= sp_plan);
  _ ←! gather_try (plans ≫= sp_cleanup) (fun p => _ ←! removeIfEmpty p; ok ([] : list unit));
  ok (mkPruneResult (Z.of_nat (length images)) (zsum snd images) (zsum sp_kept plans) images no_totals).

Definition pruneKnownDiskArtifacts (keep : Keep) : R CachePruneResult :=
  plans ←! planDisk keep;
  match plans with
  | None => ok (mkPruneResult 0 0 0 [] no_totals)
  | Some plans => executePrune plans
  end.

Definition PruneDiskExcept (slash : bool) (keep : Keep) : R CachePruneResult :=
  _ ←! validateCacheRoot slash; pruneKnownDiskArtifacts keep.

Definition PruneDisk (slash : bool) : R CachePruneResult := PruneDiskExcept slash None.

(** ** The registry mirror's files *)

(** What [walkMirrorObjects] visits below [root]: files that are not, and are not below,
    something partial *)
Definition below (root p : path) : option path := if bool_decide (take (length root) p = root) then Some (drop (length root) p) else None.

Definition visited (root : path) (ignored : list string) (p : path) (x : inode) : bool :=
  match below root p with
  | None => false
  | Some rel =>
      negb (is_dir x) && forallb (fun n => negb (has_prefix n ".partial")) rel &&
      match last p with Some n => negb (existsb (has_suffix n) ignored) | None => true end
  end.

Definition walkMirrorObjects (root : path) (ignored : list string) : R (list Z) :=
  f ← call; w ← get;
  if f : bool then fail IOError
  else ok ((fun q : path * inode => file_size q.2) <$> filter (fun q : path * inode => visited root ignored q.1 q.2 = true) (map_to_list (nodes w))).

Definition MirrorStats : R (list (string * MirrorTotals) * MirrorTotals) :=
  entries ←! readDir ["mirror"];
  match entries with
  | None => ok ([], no_totals)
  | Some entries =>
      stats ←! gather_try entries (fun e =>
        if negb (is_dir e.2) then ok []
        else
          blobs ←! walkMirrorObjects ["mirror"; e.1; "blobs"] [];
          manifests ←! walkMirrorObjects ["mirror"; e.1; "manifests"] [".meta"; ".ct"];
          ok [(e.1, mkTotals (Z.of_nat (length blobs)) (zsum id blobs) (Z.of_nat (length manifests)) (zsum id manifests))]);
      let total f := zsum (fun s : string * MirrorTotals => f s.2) stats in
      ok (stats, mkTotals (total BlobCount) (total BlobBytes) (total ManifestCount) (total ManifestBytes))
  end.

Definition planMirrorPrune : R MirrorTotals :=
  _ ←! requireDirectoryPath ["mirror"];
  st ←! MirrorStats;
  ok st.2.

(** [os.RemoveAll]: a run that fails may have removed some of the files. *)
Definition executeMirrorPrune (spared : path -> bool) : R unit :=
  f ← call;
  let gone p := bool_decide (is_Some (below ["mirror"] p)) && negb ((f : bool) && spared p) in
  _ ← modify (fun w => with_nodes (filter (fun q : path * inode => gone q.1 = false) (nodes w)) w);
  if f : bool then fail IOError else ok tt.

Definition PruneMirror (slash : bool) (spared : path -> bool) : R CachePruneResult :=
  _ ←! validateCacheRoot slash;
  totals ←! planMirrorPrune;
  _ ←! executeMirrorPrune spared;
  ok (mkPruneResult 0 0 0 [] totals).

Definition PruneAll (slash : bool) (spared : path -> bool) : R CachePruneResult :=
  _ ←! validateCacheRoot slash;
  totals ←! planMirrorPrune;
  disk ←! PruneDisk slash;
  _ ←! executeMirrorPrune spared;
  ok (mkPruneResult (ImageCount disk) (ImageBytes disk) (KeptImages disk) (Images disk) totals).

(** ** Why an image is kept ([cache_reference.go]) *)

Inductive CacheImageStatus := InUse | PinnedStatus | Default_ | Orphan.

#[global] Instance CacheImageStatus_eq_dec : EqDecision CacheImageStatus.
Proof. solve_decision. Defined.

Record Classifier := mkClassifier { cl_references : list (Combination * string); cl_default : option Combination }.

(** The clusters that boot from a combination: [references[combination]] *)
Definition references_of (cl : Classifier) (c : Combination) : list string :=
  (filter (fun r : Combination * string => r.1 = c) (cl_references cl)).*2.

Definition statuses (cl : Classifier) (c : Combination) : R (list CacheImageStatus * list string) :=
  pinned ←! Pinned c;
  let clusters := references_of cl c in
  let reasons := (if pinned : bool then [PinnedStatus] else []) ++ (if bool_decide (cl_default cl = Some c) then [Default_] else []) ++
                 (if bool_decide (clusters = []) then [] else [InUse]) in
  ok (if bool_decide (reasons = []) then ([Orphan], []) else (reasons, clusters)).

Definition primaryCacheImageStatus (reasons : list CacheImageStatus) : CacheImageStatus :=
  match list_find (fun want => want ∈ reasons) [InUse; PinnedStatus; Default_] with Some (_, want) => want | None => Orphan end.

Definition status (cl : Classifier) (c : Combination) : R (CacheImageStatus * list string) :=
  r ←! statuses cl c; ok (primaryCacheImageStatus r.1, r.2).

Definition keep (cl : Classifier) (c : Combination) : R bool :=
  s ←! status cl c; ok (bool_decide (s.1 <> Orphan)).

(** [clusterImageReferences] *)
Definition cluster_combination (defaultSchematic : string) (item : Cluster) : option Combination :=
  let schematic := if bool_decide (c_Schematic item = EmptyString) then defaultSchematic else c_Schematic item in
  if bool_decide (schematic = EmptyString) then None
  else
    let version := if bool_decide (c_TalosVersion item = EmptyString) then Default else c_TalosVersion item in
    let architecture := if bool_decide (c_ImageArchitecture item = EmptyString) then LegacyImageArchitecture else c_ImageArchitecture item in
    Some (mkCombination schematic version architecture).

Definition clusterImageReferences (items : list Cluster) (defaultSchematic : string) : list (Combination * string) :=
  omap (fun item => c ← cluster_combination defaultSchematic item; Some (c, c_Name item)) items.

(** [cacheImageClassifier]: [recorded] is the recorded default schematic, if there is one,
    [architecture] the backend's, [items] the clusters in the store *)
Definition cacheImageClassifier (recorded : result cache_error (option string)) (architecture : result cache_error Architecture)
    (items : result cache_error (list Cluster)) : result cache_error Classifier :=
  r ← recorded;
  default_ ← match r with
             | Some schematic => a ← architecture; Ok (Some (mkCombination schematic Default a))
             | None => Ok None
             end;
  l ← items;
  Ok (mkClassifier (clusterImageReferences l (default EmptyString r)) default_).

(** [pruneCache] *)
Definition CachePruneScopeImages : string := "images".
Definition CachePruneScopeMirror : string := "mirror".
Definition CachePruneScopeAll : string := "all".

Definition pruneCache (scope : string) (classifier : result cache_error Classifier) (slash : bool) (spared : path -> bool) : R CachePruneResult :=
  let scope := if bool_decide (scope = EmptyString) then CachePruneScopeImages else scope in
  if bool_decide (scope = CachePruneScopeImages) then
    cl ←! lift classifier; PruneDiskExcept slash (Some (keep cl))
  else if bool_decide (scope = CachePruneScopeMirror) then PruneMirror slash spared
  else if bool_decide (scope = CachePruneScopeAll) then PruneAll slash spared
  else fail (UnknownScope scope).

(** ** Filling the cache *)

(** An answer of the Image Factory: [resp_whole] when the body arrived to its end *)
Record response := mkResponse { resp_status : Z; resp_type : string; resp_body : string; resp_whole : bool }.

(** What a reader that follows symbolic links finds in a file *)
Definition contents (x : option inode) : option string :=
  match x with Some (Reg d _) | Some (Link (Some (d, _)) _) => Some d | _ => None end.

(** [url.PathEscape] *)
Definition hex_upper (v : Z) : ascii := ascii_of_byte (if v <? 10 then 48 + v else 55 + v).
Definition path_unreserved (c : ascii) : bool :=
  is_lower c || is_upper c || is_digit c || bool_decide (c ∈ ["-"; "_"; "."; "~"; "$"; "&"; "+"; ":"; "="; "@"]%char).
Fixpoint pathEscape (s : string) : string :=
  match s with
  | EmptyString => EmptyString
  | String c s =>
      if path_unreserved c then String c (pathEscape s)
      else String "%" (String (hex_upper (byte_val c / 16)) (String (hex_upper (byte_val c mod 16)) (pathEscape s)))
  end.

(** [strings.TrimRight(s, "/")] *)
Fixpoint trim_slashes (s : string) : string :=
  match s with
  | EmptyString => EmptyString
  | String c s => match trim_slashes s with
                  | EmptyString => if bool_decide (c = "/"%char) then EmptyString else String c EmptyString
                  | t => String c t
                  end
  end.

Definition assetURL (factoryURL : string) (c : Combination) : string :=
  (trim_slashes factoryURL +:+ "/image/" +:+ pathEscape (Schematic c) +:+ "/" +:+ pathEscape (Version c) +:+ "/" +:+ archive (Arch c))%string.

Section Fill.
Context (factoryURL : string) (http : string -> option response) (xz : string -> option string) (alloc : string -> Z) (suffix : nat -> string) (partial : nat -> string).

Definition put (p : path) (d : string) : M unit := modify (fun w => with_nodes (<[p := Reg d (alloc d)]> (nodes w)) w).

(** [os.MkdirAll] *)
Definition mkdirAll (p : path) : R unit :=
  f ← call; w ← get;
  if f : bool then fail IOError
  else if existsb (fun i => match nodes w !! take i p with None | Some Dir => false | _ => true end) (seq 0 (S (length p)))
  then fail IOError
  else _ ← modify (fun w => with_nodes (foldr (fun i m => <[take i p := Dir]> m) (nodes w) (seq 0 (S (length p)))) w); ok tt.

(** [os.CreateTemp] and the deferred [os.Remove] around [body] *)
Definition with_temp {A} (dir : path) (prefix : string) (body : path -> R A) : R A :=
  f ← call; w ← get;
  let t := dir ++ [(prefix +:+ suffix (tick w))%string] in
  if (f : bool) || bool_decide (is_Some (nodes w !! t)) then fail IOError
  else _ ← put t EmptyString; r ← body t; _ ← remove t; mret r.

(** Writing to the open temporary file, and closing it *)
Definition write_temp (t : path) (d : string) (whole : bool) : R unit :=
  f ← call; w ← get;
  if (f : bool) || negb whole then _ ← put t (partial (tick w)); fail IOError else _ ← put t d; ok tt.

Definition close_temp : R unit := f ← call; if f : bool then fail IOError else ok tt.

(** [os.Rename] *)
Definition rename (from to : path) : R unit :=
  f ← call; w ← get;
  if f : bool then fail IOError
  else match nodes w !! from, nodes w !! to with
       | None, _ => fail IOError
       | Some _, Some Dir => fail IOError
       | Some x, _ => _ ← modify (fun w => with_nodes (<[to := x]> (delete from (nodes w))) w); ok tt
       end.

Definition xzMagic : string := string_of_bytes [253; 55; 122; 88; 90; 0].

(** [strings.EqualFold] on the ASCII name it is compared with *)
Definition is_html (contentType : string) : bool :=
  bool_decide (to_lower (trim_space (match cut ";" contentType with Some (a, _) => a | None => contentType end)) = "text/html").

Definition download (url : string) (dir : path) (base : string) : R unit :=
  match http url with
  | None => fail IOError
  | Some r =>
      if (resp_status r <? 200) || (300 <=? resp_status r) then fail (BadStatus (resp_status r))
      else if is_html (resp_type r) then fail BlockPage
      else if bool_decide (String.length (resp_body r) < 6)%nat then fail IOError
      else if negb (has_prefix (resp_body r) xzMagic) then fail BlockPage
      else
        with_temp dir ("." +:+ base +:+ "-")%string (fun t =>
          _ ←! write_temp t (resp_body r) (resp_whole r);
          _ ←! close_temp;
          rename t (dir ++ [base]))
  end.

Definition decompress (source : path) (dir : path) : R unit :=
  with_temp dir ".disk.raw-" (fun t =>
    w ← get;
    _ ←! match contents (nodes w !! source) with
         | Some d => match xz d with
                             | Some out => write_temp t out true
                             | None => _ ← put t (partial (tick w)); fail DecompressFailed
                             end
         | None => fail DecompressFailed
         end;
    _ ←! close_temp;
    rename t (dir ++ ["disk.raw"])).

Definition migrateLegacyDisk (legacy destination : path) : R bool :=
  ready ← fileReady legacy;
  if negb ready then ok false
  else
    r ← rename legacy destination;
    match r with
    | Ok _ => ok true
    | Err e => there ← fileReady destination; if there : bool then ok true else fail e
    end.

Definition Ensure (c : Combination) : R path :=
  _ ←! lift (validateComponent "schematic" (Schematic c));
  _ ←! lift (validateComponent "version" (Version c));
  _ ←! lift (validateArchitecture (Arch c));
  let dir := [Schematic c; Version c; Arch c] in
  let diskPath := dir ++ ["disk.raw"] in
  ready ← fileReady diskPath;
  if ready : bool then ok diskPath
  else
    _ ←! mkdirAll dir;
    migrated ←! (if bool_decide (Arch c = ArchitectureARM64) then migrateLegacyDisk [Schematic c; Version c; "disk.raw"] diskPath else ok false);
    if migrated : bool then ok diskPath
    else
      fetched ← fileReady (dir ++ [archive (Arch c)]);
      _ ←! (if fetched : bool then ok tt
            else download (assetURL factoryURL c) dir (archive (Arch c)));
      _ ←! decompress (dir ++ [archive (Arch c)]) dir;
      ok diskPath.

(** [Pin] *)
Definition Pin (c : Combination) : R unit :=
  p ←! lift (pinMarkerPath c);
  _ ←! mkdirAll [Schematic c; Version c; Arch c];
  f ← call; w ← get;
  if f : bool then fail IOError
  else
    _ ←! match nodes w !! p with
         | None => _ ← put p EmptyString; ok tt
         | Some Dir => fail IOError
         | Some _ => ok tt
         end;
    close_temp.
End Fill.

End Calls.

(** ** Reading the tree *)

Lemma child_spec p q n : child p q = Some n <-> q = p ++ [n].
Proof.
  unfold child. case_bool_decide as E.
  - rewrite <- (take_drop (length p) q) at 2. rewrite E. split.
    + destruct (drop (length p) q) as [|a [|]]; congruence.
    + intros H%app_inv_head. by rewrite H.
  - split; [done|]. intros ->. exfalso. apply E. by rewrite take_app_length.
Qed.

Lemma elem_of_children m p n : n ∈ children m p <-> is_Some (m !! (p ++ [n])).
Proof.
  unfold children. rewrite elem_of_sort_strings, list_elem_of_omap. split.
  - intros (q & Hq & ->%child_spec). by apply elem_of_dom, elem_of_elements.
  - intros H. exists (p ++ [n]). split; [by apply elem_of_elements, elem_of_dom|by apply child_spec].
Qed.

Definition same (w w' : Fs) : Prop := nodes w' = nodes w.

#[global] Instance same_preorder : PreOrder same.
Proof. split; [done|]. unfold same. intros ???. congruence. Qed.

Section Reads.
Context (fault : nat -> bool).

Lemma post_fs_call w (Q : Fs -> bool -> Prop) : Q (mkFs (nodes w) (S (tick w))) (fault (tick w)) -> runs w (call fault) Q.
Proof. done. Qed.

Lemma same_call : stays same (call fault).
Proof. by intros w. Qed.

#[local] Hint Resolve same_call : frame.

Lemma same_lstat p : stays same (lstatPath fault p).
Proof. unfold lstatPath. stays_tac. Qed.

Lemma same_readDir p : stays same (readDir fault p).
Proof. unfold readDir. stays_tac. Qed.

#[local] Hint Resolve same_lstat same_readDir : frame.

Lemma same_stat p : stays same (statPath fault p).
Proof. unfold statPath. stays_tac. Qed.

Lemma post_lstat p w : runs w (lstatPath fault p) (fun w' r => same w w' /\ forall x, r = Ok x -> x = nodes w !! p).
Proof.
  apply post_and; [apply same_lstat|]. unfold lstatPath. apply post_bind, post_fs_call, post_bind, post_get.
  destruct (fault (tick w)); [by apply post_ret|]. cbn [nodes]. destruct (nodes w !! p) eqn:E.
  - apply post_ret. congruence.
  - destruct (blocked _ p); apply post_ret; congruence.
Qed.

Lemma post_readDir p w : runs w (readDir fault p) (fun w' r => same w w' /\
  match r with
  | Ok (Some l) => nodes w !! p = Some Dir /\ forall n x, (n, x) ∈ l <-> nodes w !! (p ++ [n]) = Some x
  | Ok None => nodes w !! p = None
  | Err _ => True
  end).
Proof.
  apply post_and; [apply same_readDir|]. unfold readDir. apply post_bind, post_fs_call, post_bind, post_get.
  destruct (fault (tick w)); [by apply post_ret|]. cbn [nodes]. destruct (nodes w !! p) as [[]|] eqn:E; try by apply post_ret.
  - apply post_ret. split; [done|]. intros n x. rewrite list_elem_of_omap. split.
    + intros (k & _ & H). destruct (nodes w !! (p ++ [k])) eqn:Ek; simpl in H; congruence.
    + intros H. exists n. rewrite H. split; [|done]. by apply elem_of_children.
  - destruct (blocked _ p); by apply post_ret.
Qed.

Lemma post_readDir_strict p w : runs w (readDir_strict fault p) (fun w' r => same w w' /\
  forall l, r = Ok l -> nodes w !! p = Some Dir /\ forall n x, (n, x) ∈ l <-> nodes w !! (p ++ [n]) = Some x).
Proof.
  unfold readDir_strict. apply post_try. eapply post_conseq; [apply post_readDir|]. intros w1 [[l|]|e] [H1 H2]; cbv iota.
  - apply post_ret. split; [done|]. by intros l' [= <-].
  - by apply post_ret.
  - done.
Qed.
End Reads.

#[export] Hint Resolve same_call same_lstat same_readDir same_stat : frame.

(** ** What a plan may hold *)

(** A file of the combination that a prune knows: in its own directory, or, for arm64, in
    the older layout one level up *)
Definition artifact_of (c : Combination) (p : path) : Prop :=
  (Arch c = ArchitectureAMD64 \/ Arch c = ArchitectureARM64) /\
  ((exists n, p = [Schematic c; Version c; Arch c; n] /\ n ∈ knownDiskArtifactNames (Arch c) true) \/
   (Arch c = ArchitectureARM64 /\ exists n, p = [Schematic c; Version c; n] /\ n ∈ knownDiskArtifactNames ArchitectureARM64 false)).

(** An abandoned temporary file of a download or decompression *)
Definition leftover (p : path) : Prop :=
  exists dir n a, p = dir ++ [n] /\ (a = ArchitectureAMD64 \/ a = ArchitectureARM64) /\ existsb (has_prefix n) (prefixes a) = true.

(** The contract between the prune and its caller: asked about a combination, [keep]
    changes nothing, and when it answers, it answers [verdict]. *)
Class Keeper (fault : nat -> bool) (k : Keep) (m : gmap path inode) (verdict : Combination -> bool) : Prop :=
  keeper_answers : forall c w, nodes w = m ->
    runs w (keepCombination k c) (fun w' r => nodes w' = m /\ forall b, r = Ok b -> b = verdict c).

(** The parent of everything is a directory. *)
Definition tree (m : gmap path inode) : Prop := forall p n x, m !! (p ++ [n]) = Some x -> m !! p = Some Dir.

Section Plans.
Context (fault : nat -> bool) (m : gmap path inode) (verdict : Combination -> bool).

(** An action on a regular file: a temporary one, or an artifact of [c], which is not
    kept *)
Definition action_ok (c : Combination) (a : pruneAction) : Prop :=
  (exists d al, m !! a_path a = Some (Reg d al) /\ a_size a = file_size (Reg d al)) /\
  if a_temporary a then leftover (a_path a) else artifact_of c (a_path a) /\ verdict c = false.

Definition plan_ok (s : string) (p : combinationPlan) : Prop :=
  Schematic (p_combination p) = s /\ forall a, a ∈ p_actions p -> action_ok (p_combination p) a.

(** [p] is in the plan, under [c]. *)
Definition planned (plans : list combinationPlan) (c : Combination) (p : path) : Prop :=
  exists cp a, cp ∈ plans /\ p_combination cp = c /\ a ∈ p_actions cp /\ a_path a = p /\ a_temporary a = false.

Lemma planned_app l1 l2 c p : planned (l1 ++ l2) c p <-> planned l1 c p \/ planned l2 c p.
Proof. unfold planned. setoid_rewrite elem_of_app. naive_solver. Qed.

(** What [planKnownFiles] finds in a directory *)
Definition files_ok (dir : path) (names pre : list string) (actions : list pruneAction) : Prop :=
  (forall a, a ∈ actions -> exists n d al, a_path a = dir ++ [n] /\ m !! (dir ++ [n]) = Some (Reg d al) /\ a_size a = file_size (Reg d al) /\
     if a_temporary a then existsb (has_prefix n) pre = true else n ∈ names) /\
  (forall n x, n ∈ names -> m !! (dir ++ [n]) = Some x -> exists a, a ∈ actions /\ a_path a = dir ++ [n] /\ a_temporary a = false).

Lemma post_artifact p temporary w : nodes w = m ->
  runs w (planKnownArtifact fault p temporary) (fun w' r => nodes w' = m /\
    forall l, r = Ok l -> match m !! p with
                          | Some (Reg d al) => l = [mkAction p (file_size (Reg d al)) temporary]
                          | Some _ => False
                          | None => l = []
                          end).
Proof.
  intros Hm. unfold planKnownArtifact. apply post_try. eapply post_conseq; [apply post_lstat|]. intros w1 [x|e] [H1 H2]; unfold same in H1; cycle 1.
  { split; [congruence|done]. }
  rewrite (H2 x eq_refl), Hm. assert (nodes w1 = m) by congruence. destruct (m !! p) as [[]|]; apply post_ret; split; try done; congruence.
Qed.

Lemma post_files dir names pre w : nodes w = m ->
  runs w (planKnownFiles fault dir names pre) (fun w' r => nodes w' = m /\ forall l, r = Ok l -> files_ok dir names pre l).
Proof.
  intros Hm. unfold planKnownFiles. apply post_try. eapply post_conseq; [apply post_readDir_strict|]. intros w1 [es|e] [H1 H2]; unfold same in H1; cycle 1.
  { split; [congruence|done]. }
  destruct (H2 es eq_refl) as [_ He]. rewrite Hm in He, H1. eapply post_conseq.
  { apply (post_gather_try es _ (fun l1 acts w' => nodes w' = m /\
      (forall a, a ∈ acts -> exists n d al, a_path a = dir ++ [n] /\ m !! (dir ++ [n]) = Some (Reg d al) /\ a_size a = file_size (Reg d al) /\
         if a_temporary a then existsb (has_prefix n) pre = true else n ∈ names) /\
      (forall n x, n ∈ names -> (n, x) ∈ l1 -> exists a, a ∈ acts /\ a_path a = dir ++ [n] /\ a_temporary a = false)) (fun _ w' => nodes w' = m)).
    - split_and!; [done|set_solver..].
    - intros l1 [n x] l2 acts w2 Hes (Hm2 & Hs & Hc). simpl.
      assert (Hx : m !! (dir ++ [n]) = Some x) by (apply He; rewrite Hes; set_solver).
      destruct (bool_decide (n ∈ names)) eqn:En; [|destruct (existsb (has_prefix n) pre) eqn:Ep].
      1,2: eapply post_conseq; [by apply post_artifact|]; intros w3 [l|e] [Hm3 Hl]; [|done];
        specialize (Hl l eq_refl); rewrite Hx in Hl; destruct x as [d al| | |]; [|done..]; subst l.
      + apply bool_decide_eq_true in En. split_and!; [done| |].
        * intros a [Ha|Ha%list_elem_of_singleton]%elem_of_app; [by apply Hs|]. subst a. exists n, d, al. done.
        * intros k y Hk [Hy|Hy%list_elem_of_singleton]%elem_of_app.
          -- destruct (Hc k y Hk Hy) as (a & ? & ?). exists a. set_solver.
          -- injection Hy as -> ->. eexists. split; [apply elem_of_app; right; by apply list_elem_of_singleton|done].
      + apply bool_decide_eq_false in En. split_and!; [done| |].
        * intros a [Ha|Ha%list_elem_of_singleton]%elem_of_app; [by apply Hs|]. subst a. exists n, d, al. done.
        * intros k y Hk [Hy|Hy%list_elem_of_singleton]%elem_of_app; [|by injection Hy as -> ->].
          destruct (Hc k y Hk Hy) as (a & ? & ?). exists a. set_solver.
      + apply bool_decide_eq_false in En. apply post_ret. rewrite app_nil_r. split_and!; [done..|].
        intros k y Hk [Hy|Hy%list_elem_of_singleton]%elem_of_app; [by eapply Hc|]. by injection Hy as -> ->. }
  intros w2 [l|e]; [|done]. intros (Hm2 & Hs & Hc). split; [done|]. intros l' [= <-]. split; [done|].
  intros n x Hn Hx. apply (Hc n x Hn). by apply He.
Qed.

Context (k : Keep) `{!Keeper fault k m verdict} (Htree : tree m).

Lemma sound_files c dir names pre l :
  files_ok dir names pre l -> (exists a, (a = ArchitectureAMD64 \/ a = ArchitectureARM64) /\ pre = prefixes a) ->
  (forall n, n ∈ names -> artifact_of c (dir ++ [n]) /\ verdict c = false) -> plan_ok (Schematic c) (mkPlan c l).
Proof.
  intros [Hs _] (ar & Har & ->) Hn. split; [done|]. intros a Ha. destruct (Hs a Ha) as (n & d & al & Hp & Hm & Hz & Ht). rewrite <- Hp in Hm.
  split; [by eauto|]. destruct (a_temporary a); rewrite Hp; [|by apply Hn]. exists dir, n, ar. done.
Qed.

(** Keep the state fixed through a call. *)
Lemma post_fixed {A} (mm : R A) w : stays same mm -> nodes w = m -> runs w mm (fun w' _ => nodes w' = m).
Proof. intros H Hw. eapply post_conseq; [apply H|]. unfold same. intros; congruence. Qed.

Lemma same_requireDirectory p : stays same (requireDirectoryPath fault p).
Proof. unfold requireDirectoryPath. stays_tac. Qed.

Lemma same_stats dir names : stays same (artifactStats fault dir names).
Proof. unfold artifactStats. apply stays_gather_try; [typeclasses eauto|]. intros. stays_tac. Qed.

Lemma same_present dir names : stays same (artifactsPresent fault dir names).
Proof. unfold artifactsPresent. apply stays_try; [typeclasses eauto|apply same_stats|]. intros. stays_tac. Qed.

Definition arch_plan_ok (c : Combination) (ap : ArchPlan) : Prop :=
  (forall cp, cp ∈ ap_plan ap -> plan_ok (Schematic c) cp) /\
  (forall n x, verdict c = false -> n ∈ knownDiskArtifactNames (Arch c) true -> m !! [Schematic c; Version c; Arch c; n] = Some x ->
     planned (ap_plan ap) c [Schematic c; Version c; Arch c; n]) /\
  (ap_full ap = true -> verdict c = false /\ exists acts, ap_plan ap = [mkPlan c acts]).

Lemma post_planArch s v a w : nodes w = m -> a = ArchitectureAMD64 \/ a = ArchitectureARM64 ->
  runs w (planArch fault k s v a) (fun w' r => nodes w' = m /\ forall ap, r = Ok ap -> arch_plan_ok (mkCombination s v a) ap).
Proof.
  intros Hw Ha. unfold planArch, pathExists. apply post_try, post_try. eapply post_conseq; [apply post_lstat|].
  intros w1 [x|e] [H1 Hx]; unfold same in H1; [|split; [congruence|done]]. apply post_ret. rewrite (Hx x eq_refl), Hw. rewrite Hw in H1.
  case_bool_decide as Hex; cbn [negb]; cycle 1.
  { apply post_ret. split; [done|]. intros ap [= <-]. split_and!; [set_solver| |done]. intros n y _ _ Hy. exfalso. apply Hex.
    eexists. by apply (Htree [s; v; a] n y). }
  apply post_try. eapply post_conseq; [by apply keeper_answers|]. intros w2 [kept|e] [H2 Hk]; [|done]. specialize (Hk kept eq_refl).
  destruct kept.
  - apply post_try. eapply post_conseq; [apply post_fixed; [apply same_present|done]|]. intros w3 [present|e] H3; [|done].
    apply post_try. eapply post_conseq; [apply post_fixed; [apply same_requireDirectory|done]|]. intros w4 [u|e] H4; [|done].
    apply post_try. eapply post_conseq; [by apply post_files|]. intros w5 [temp|e] [H5 Hf]; [|done]. apply post_ret. split; [done|].
    intros ap [= <-]. split_and!; [|congruence|done]. intros cp. cbn [ap_plan]. case_bool_decide; [set_solver|]. intros ->%list_elem_of_singleton.
    apply (sound_files (mkCombination s v a) [s; v; a] [] (prefixes a)); [by apply Hf|by eauto|set_solver].
  - apply post_try. eapply post_conseq; [apply post_fixed; [apply same_requireDirectory|done]|]. intros w3 [u|e] H3; [|done].
    apply post_try. eapply post_conseq; [by apply post_files|]. intros w4 [acts|e] [H4 Hf]; [|done]. apply post_ret. split; [done|].
    specialize (Hf acts eq_refl). intros ap [= <-]. split_and!.
    + intros cp ->%list_elem_of_singleton. apply (sound_files (mkCombination s v a) [s; v; a] (knownDiskArtifactNames a true) (prefixes a)); [done|by eauto|].
      intros n Hn. split; [|done]. split; [done|]. left. by exists n.
    + intros n y _ Hn Hy. destruct Hf as [_ Hf]. destruct (Hf n y Hn Hy) as (act & ? & ? & ?).
      exists (mkPlan (mkCombination s v a) acts), act. split_and!; try done. by apply list_elem_of_singleton.
    + intros _. split; [done|]. by eexists.
Qed.

Lemma append_actions_last before p more :
  append_actions (before ++ [p]) more = before ++ [mkPlan (p_combination p) (p_actions p ++ more)].
Proof. unfold append_actions. rewrite rev_app_distr. simpl. by rewrite rev_involutive. Qed.

(** Adding the actions of the older layout keeps what was planned. *)
Lemma addLegacy_ok legacy before arm old :
  (forall cp, cp ∈ before -> plan_ok (Schematic legacy) cp) -> (forall cp, cp ∈ ap_plan arm -> plan_ok (Schematic legacy) cp) ->
  plan_ok (Schematic legacy) (mkPlan legacy old) ->
  (ap_full arm = true -> verdict legacy = false /\ exists acts, ap_plan arm = [mkPlan legacy acts]) ->
  let plan := addLegacy (before ++ ap_plan arm) (ap_full arm) legacy old in
  (forall cp, cp ∈ plan -> plan_ok (Schematic legacy) cp) /\ (forall c p, planned (before ++ ap_plan arm) c p -> planned plan c p) /\
  (forall a, a ∈ old -> a_temporary a = false -> planned plan legacy (a_path a)).
Proof.
  intros Sb Sarm Hold Farm plan. subst plan. unfold addLegacy. case_bool_decide as Eold; [|destruct (ap_full arm) eqn:Ef].
  - split_and!; [|done|subst; set_solver]. intros cp [?|?]%elem_of_app; auto.
  - destruct (Farm eq_refl) as (_ & acts & Eacts). rewrite Eacts in *. rewrite append_actions_last. split_and!.
    + intros cp [?|Hcp%list_elem_of_singleton]%elem_of_app; [by apply Sb|]. subst cp. split; [done|]. intros a [Ha|Ha]%elem_of_app; [|by apply Hold].
      by apply (Sarm (mkPlan legacy acts) (proj2 (list_elem_of_singleton _ _) eq_refl)).
    + intros c p. rewrite !planned_app. intros [?|(cp & a & Hcp%list_elem_of_singleton & Hc & Ha & ?)]; [by left|right]. subst cp.
      exists (mkPlan legacy (acts ++ old)), a. simpl in *. split_and!; [by apply list_elem_of_singleton|done| |naive_solver..]. set_solver.
    + intros a Ha Ht. apply planned_app. right. exists (mkPlan legacy (acts ++ old)), a. split_and!; try done; [by apply list_elem_of_singleton|set_solver].
  - split_and!.
    + intros cp [[?|?]%elem_of_app|Hcp%list_elem_of_singleton]%elem_of_app; [by apply Sb|by apply Sarm|by subst].
    + intros c p Hp. apply planned_app. by left.
    + intros a Ha Ht. apply planned_app. right. exists (mkPlan legacy old), a. split_and!; try done. by apply list_elem_of_singleton.
Qed.

Definition version_plan_ok (s v : string) (vp : VersionPlan) : Prop :=
  (forall cp, cp ∈ vp_plan vp -> plan_ok s cp) /\
  (forall c p x, Schematic c = s -> Version c = v -> artifact_of c p -> verdict c = false -> m !! p = Some x -> planned (vp_plan vp) c p) /\
  (vp_touched vp = false -> vp_plan vp = []).

Lemma post_planVersion s v w : nodes w = m ->
  runs w (planKnownVersionPrune fault k s v) (fun w' r => nodes w' = m /\ forall vp, r = Ok vp -> version_plan_ok s v vp).
Proof.
  intros Hw. unfold planKnownVersionPrune. apply post_try. eapply post_conseq; [apply post_planArch; auto|]. intros w1 [amd|e] [H1 Hamd]; [|done].
  destruct (Hamd amd eq_refl) as (Samd & Camd & _). clear Hamd.
  apply post_try. eapply post_conseq; [apply post_planArch; auto|]. intros w2 [arm|e] [H2 Harm]; [|done].
  destruct (Harm arm eq_refl) as (Sarm & Carm & Farm). clear Harm. cbn [Arch Schematic Version] in *.
  apply post_try. eapply post_conseq; [by apply keeper_answers|]. intros w3 [kept|e] [H3 Hk]; [|done]. specialize (Hk kept eq_refl).
  assert (Harch : forall c n x, Schematic c = s -> Version c = v -> Arch c = ArchitectureAMD64 \/ Arch c = ArchitectureARM64 ->
    n ∈ knownDiskArtifactNames (Arch c) true -> verdict c = false -> m !! [s; v; Arch c; n] = Some x ->
    planned (ap_plan amd ++ ap_plan arm) c [s; v; Arch c; n]).
  { intros [cs cv ca] n x. simpl. intros -> -> [-> | ->] Hn Hv Hx; apply planned_app; [left; by eapply Camd|right; by eapply Carm]. }
  destruct kept.
  - apply post_try. eapply post_conseq; [by apply post_files|]. intros w4 [temp|e] [H4 Hf]; [|done]. specialize (Hf temp eq_refl).
    apply post_try. eapply post_conseq; [apply post_fixed; [apply same_present|done]|]. intros w5 [present|e] H5; [|done].
    apply post_ret. split; [done|]. intros vp [= <-]. split_and!; cbn [vp_plan vp_touched].
    + intros cp [[Hcp|Hcp]%elem_of_app|Hcp]%elem_of_app; [by apply Samd|by apply Sarm|]. case_bool_decide; [set_solver|].
      apply list_elem_of_singleton in Hcp as ->. apply (sound_files (mkCombination s v ArchitectureARM64) [s; v] [] (prefixes ArchitectureARM64)); [done|eauto|set_solver].
    + intros c p x Hs Hv [Hca [(n & -> & Hn)|(Ea & n & -> & Hn)]] Hver Hx.
      * apply planned_app. left. rewrite Hs, Hv in *. by eapply Harch.
      * exfalso. assert (c = mkCombination s v ArchitectureARM64) as -> by (destruct c; simpl in *; congruence). congruence.
    + intros [_ E]%orb_false_iff. apply bool_decide_eq_false in E. by apply dec_stable in E.
  - apply post_try. eapply post_conseq; [by apply post_files|]. intros w4 [old|e] [H4 Hf]; [|done]. specialize (Hf old eq_refl).
    apply post_ret. split; [done|]. intros vp [= <-]. set (legacy := mkCombination s v ArchitectureARM64) in *.
    assert (Hold : plan_ok s (mkPlan legacy old)).
    { apply (sound_files legacy [s; v] (knownDiskArtifactNames ArchitectureARM64 false) (prefixes ArchitectureARM64)); [done|eauto|].
      intros n Hn. split; [|done]. split; [by right|]. right. split; [done|]. by exists n. }
    destruct (addLegacy_ok legacy (ap_plan amd) arm old) as (Hsound & Hkeep & Hlegacy); [by intros ?; auto..|done|by apply Farm|].
    set (plan := addLegacy _ _ _ _) in *.
    split_and!; cbn [vp_plan vp_touched].
    + done.
    + intros c p x Hs Hv [Hca [(n & -> & Hn)|(Ea & n & -> & Hn)]] Hver Hx; [apply Hkeep; rewrite Hs, Hv in *; by eapply Harch|].
      assert (c = legacy) as -> by (destruct c; simpl in *; unfold legacy; congruence). destruct Hf as [_ Hf].
      destruct (Hf n x Hn Hx) as (a & Ha & Hp & Ht). change (planned plan legacy ([s; v] ++ [n])). rewrite <- Hp. by apply Hlegacy.
    + intros [_ E]%orb_false_iff. apply bool_decide_eq_false in E. by apply dec_stable in E.
Qed.

Lemma planned_bind {A} (f : A -> list combinationPlan) l x c p : x ∈ l -> planned (f x) c p -> planned (l ≫= f) c p.
Proof.
  intros Hx (cp & a & Hcp & H). exists cp, a. split; [|done]. apply list_elem_of_bind. eauto.
Qed.

Definition schematic_plan_ok (s : string) (sp : SchematicPlan) : Prop :=
  (forall cp, cp ∈ sp_plan sp -> plan_ok s cp) /\
  (forall c p x, Schematic c = s -> artifact_of c p -> verdict c = false -> m !! p = Some x -> planned (sp_plan sp) c p).

(** The directory of the version an artifact is in *)
Lemma artifact_version c p x : artifact_of c p -> m !! p = Some x -> m !! [Schematic c; Version c] = Some Dir /\ m !! [Schematic c] = Some Dir.
Proof.
  intros [_ [(n & -> & _)|(_ & n & -> & _)]] Hx.
  - apply (Htree [Schematic c; Version c; Arch c] n) in Hx. apply (Htree [Schematic c; Version c]) in Hx.
    split; [done|]. by apply (Htree [Schematic c]) in Hx.
  - apply (Htree [Schematic c; Version c]) in Hx. split; [done|]. by apply (Htree [Schematic c]) in Hx.
Qed.

Lemma post_planSchematic s w : nodes w = m ->
  runs w (planSchematic fault k s) (fun w' r => nodes w' = m /\ forall sp, r = Ok sp -> schematic_plan_ok s sp).
Proof.
  intros Hw. unfold planSchematic. apply post_try. eapply post_conseq; [apply post_fixed; [apply same_requireDirectory|done]|].
  intros w1 [u|e] H1; [|done]. apply post_try. eapply post_conseq; [apply post_readDir_strict|].
  intros w2 [vs|e] [H2 Hvs]; unfold same in H2; [|split; [congruence|done]]. rewrite H1 in H2. destruct (Hvs vs eq_refl) as [_ Hin]. rewrite H1 in Hin.
  apply post_try. eapply post_conseq.
  { apply (post_gather_try vs _ (fun l1 ps w' => nodes w' = m /\ (forall vp, vp ∈ ps -> version_plan_ok s vp.1 vp.2) /\
      (forall v, (v, Dir) ∈ l1 -> exists vp, (v, vp) ∈ ps)) (fun _ w' => nodes w' = m)).
    - split_and!; [done|set_solver..].
    - intros l1 [v x] l2 ps w3 _ (H3 & Hok & Hall). cbn [fst snd]. destruct x; cbn [is_dir negb].
      2: { apply post_try. eapply post_conseq; [apply post_fixed; [apply same_requireDirectory|done]|]. intros w4 [u4|e] H4; [|done].
           apply post_try. eapply post_conseq; [by apply post_planVersion|]. intros w5 [vp|e] [H5 Hvp]; [|done]. apply post_ret. split_and!; [done| |].
           - intros q [Hq|Hq%list_elem_of_singleton]%elem_of_app; [by apply Hok|]. subst q. by apply Hvp.
           - intros v' [Hv|Hv%list_elem_of_singleton]%elem_of_app; [destruct (Hall v' Hv) as [q Hq]; exists q; set_solver|].
             injection Hv as ->. exists vp. apply elem_of_app. right. by apply list_elem_of_singleton. }
      all: apply post_ret; rewrite app_nil_r; split_and!; [done..|]; intros v' [Hv|Hv%list_elem_of_singleton]%elem_of_app; [by apply Hall|done]. }
  intros w3 [ps|e]; [|done]. intros (H3 & Hok & Hall). apply post_ret. split; [done|]. intros sp [= <-]. split; cbn [sp_plan].
  - intros cp (vp & Hcp & [_ Hvp]%list_elem_of_filter)%list_elem_of_bind. by apply (Hok vp).
  - intros c p x Hs Ha Hv Hx. destruct (artifact_version c p x Ha Hx) as [Hd _]. rewrite Hs in Hd.
    destruct (Hall (Version c)) as [vp Hvp]; [by apply Hin|]. destruct (Hok _ Hvp) as (_ & Hc & Ht).
    assert (Hp : planned (vp_plan vp) c p) by (by eapply Hc). apply (planned_bind (fun vp => vp_plan vp.2) _ (Version c, vp)); [|exact Hp]. apply list_elem_of_filter. split; [|done].
    simpl in *. destruct (vp_touched vp); [done|]. destruct Hp as (cp & a & Hcp & _). rewrite Ht in Hcp by done. set_solver.
Qed.

(** The whole walk: everything planned may go, and every artifact that may go is planned *)
Lemma post_planDisk w : nodes w = m ->
  runs w (planDisk fault k) (fun w' r => nodes w' = m /\ forall plans, r = Ok plans ->
    match plans with
    | None => m !! [] = None
    | Some plans =>
        (forall cp, cp ∈ plans ≫= sp_plan -> exists s, s <> "mirror" /\ plan_ok s cp) /\
        (forall c p x, Schematic c <> "mirror" -> artifact_of c p -> verdict c = false -> m !! p = Some x -> planned (plans ≫= sp_plan) c p)
    end).
Proof.
  intros Hw. unfold planDisk. apply post_try. eapply post_conseq; [apply post_readDir|].
  intros w1 [[root|]|e] [H1 Hroot]; unfold same in H1; [|apply post_ret; split; [congruence|]; intros ? [= <-]; congruence|split; [congruence|done]].
  rewrite Hw in H1, Hroot. destruct Hroot as [_ Hin]. apply post_try. eapply post_conseq.
  { apply (post_gather_try root _ (fun l1 ps w' => nodes w' = m /\ (forall sp cp, sp ∈ ps -> cp ∈ sp_plan sp -> exists s, s <> "mirror" /\ plan_ok s cp) /\
      (forall s, (s, Dir) ∈ l1 -> s <> "mirror" -> exists sp, sp ∈ ps /\ schematic_plan_ok s sp)) (fun _ w' => nodes w' = m)).
    - split_and!; [done|set_solver..].
    - intros l1 [s x] l2 ps w2 _ (H2 & Hok & Hall). cbn [fst snd]. destruct (bool_decide (s = "mirror") || negb (is_dir x)) eqn:Eskip.
      + apply post_ret. rewrite app_nil_r. split_and!; [done..|]. intros s' [Hs|Hs%list_elem_of_singleton]%elem_of_app Hne; [by apply Hall|].
        injection Hs as -> <-. rewrite bool_decide_eq_false_2 in Eskip by done. done.
      + apply post_try. eapply post_conseq; [by apply post_planSchematic|]. intros w3 [sp|e] [H3 Hsp]; [|done]. specialize (Hsp sp eq_refl).
        apply post_ret. split_and!; [done| |].
        * intros sp' cp [Hq|Hq%list_elem_of_singleton]%elem_of_app; [by apply Hok|]. subst sp'. intros Hcp. exists s.
          apply orb_false_iff in Eskip as [Es _]. apply bool_decide_eq_false in Es. split; [done|by apply Hsp].
        * intros s' [Hs|Hs%list_elem_of_singleton]%elem_of_app Hne; [destruct (Hall s' Hs Hne) as (q & ? & ?); exists q; set_solver|].
          injection Hs as -> _. exists sp. split; [apply elem_of_app; right; by apply list_elem_of_singleton|done]. }
  intros w2 [ps|e]; [|done]. intros (H2 & Hok & Hall). apply post_ret. split; [done|]. intros plans [= <-]. split.
  - intros cp (sp & Hcp & Hsp)%list_elem_of_bind. by eapply Hok.
  - intros c p x Hne Ha Hv Hx. destruct (artifact_version c p x Ha Hx) as [_ Hd].
    destruct (Hall (Schematic c)) as (sp & Hsp & _ & Hc); [by apply Hin|done|]. eapply planned_bind; [done|]. by eapply Hc.
Qed.
End Plans.

(** ** Carrying out a plan *)

Section Execute.
Context (fault : nat -> bool).

Lemma post_remove p w : runs w (remove fault p) (fun w' r =>
  (nodes w' = nodes w \/ nodes w' = delete p (nodes w) /\ (nodes w !! p = Some Dir -> children (nodes w) p = [])) /\
  (is_ok r = true -> nodes w' !! p = None)).
Proof.
  unfold remove. apply post_bind, post_fs_call, post_bind, post_get. destruct (fault (tick w)); [apply post_ret; split; [by left|done]|]. cbn [nodes].
  destruct (nodes w !! p) as [[]|] eqn:E.
  2: { case_bool_decide; [|apply post_ret; split; [by left|done]]. apply post_bind, post_modify, post_ret. simpl. rewrite lookup_delete_eq. auto. }
  4: { destruct (blocked _ p); apply post_ret; (split; [by left|done]). }
  all: apply post_bind, post_modify, post_ret; simpl; rewrite lookup_delete_eq; split; [right; split; [done|congruence]|done].
Qed.

(** [w'] lost some entries of [w], each of them as [P] allows. *)
Definition loses (P : gmap path inode -> path -> Prop) (w w' : Fs) : Prop :=
  nodes w' ⊆ nodes w /\ forall p, nodes w !! p <> nodes w' !! p -> P (nodes w') p.

Definition report (p : combinationPlan) : list (Combination * Z) :=
  if reportable p then [(p_combination p, zsum a_size (p_actions p))] else [].

Lemma loses_step (P : path -> Prop) w w1 w2 p : loses (fun _ => P) w w1 -> P p ->
  nodes w2 = nodes w1 \/ nodes w2 = delete p (nodes w1) -> loses (fun _ => P) w w2.
Proof.
  intros [Hsub Hl] Hp [E|E]; (split; [rewrite E|intros q; rewrite E]); [done|apply Hl| |].
  - etrans; [apply delete_subseteq|done].
  - destruct (decide (q = p)) as [->|Hne]; [done|]. rewrite lookup_delete_ne by done. apply Hl.
Qed.

Lemma post_executePlan plan w :
  let P p := exists cp a, cp ∈ plan /\ a ∈ p_actions cp /\ a_path a = p in
  runs w (executePlan fault plan) (fun w' r => loses (fun _ => P) w w' /\
    forall images, r = Ok images -> images = plan ≫= report /\ forall p, P p -> nodes w' !! p = None).
Proof.
  intros P. unfold executePlan. eapply post_conseq.
  { apply (post_gather_try plan _ (fun l1 images w' => loses (fun _ => P) w w' /\ images = l1 ≫= report /\
      forall cp a, cp ∈ l1 -> a ∈ p_actions cp -> nodes w' !! a_path a = None) (fun _ w' => loses (fun _ => P) w w')).
    - split_and!; [|done|set_solver]. split; [done|]. done.
    - intros l1 cp l2 images w1 Hplan (H1 & -> & Hgone). apply post_try.
      eapply post_conseq.
      { apply (post_gather_try (p_actions cp) _ (fun a1 _ w' => loses (fun _ => P) w w' /\ nodes w' ⊆ nodes w1 /\
          forall a, a ∈ a1 -> nodes w' !! a_path a = None) (fun _ w' => loses (fun _ => P) w w')).
        - split_and!; [done|done|set_solver].
        - intros a1 a a2 us w2 Ha (H2 & Hs2 & Hg2). apply post_try. eapply post_conseq; [apply post_remove|]. intros w3 r [H3 Hok].
          assert (Hl : loses (fun _ => P) w w3).
          { eapply (loses_step _ _ w2 _ (a_path a)); [done| |destruct H3 as [?|[? _]]; auto]. exists cp, a. rewrite Hplan, Ha. split_and!; set_solver. }
          destruct r as [b|e]; [|done]. apply post_ret. assert (Hs3 : nodes w3 ⊆ nodes w2).
          { destruct H3 as [->|[-> _]]; [done|apply delete_subseteq]. }
          split_and!; [done|by etrans|]. intros a' [Ha'|Ha'%list_elem_of_singleton]%elem_of_app; [|subst; by apply Hok].
          apply (lookup_weaken_None _ (nodes w2)); [by apply Hg2|done]. }
      intros w2 [us|e]; [|done]. intros (H2 & Hs2 & Hg2). apply post_ret. split_and!; [done| |].
      + rewrite bind_app. simpl. by rewrite app_nil_r.
      + intros cp' a [Hcp|Hcp%list_elem_of_singleton]%elem_of_app Ha; [|subst; by apply Hg2].
        apply (lookup_weaken_None _ (nodes w1)); [by eapply Hgone|done]. }
  intros w1 [images|e]; [|done]. intros (H1 & -> & Hg). split; [done|]. intros i [= <-]. split; [done|]. intros p (cp & a & ? & ? & <-). by eapply Hg.
Qed.

Lemma children_mono m1 m2 p : m1 ⊆ m2 -> children m2 p = [] -> children m1 p = [].
Proof.
  intros Hs H. destruct (children m1 p) as [|n l] eqn:E; [done|]. assert (Hn : n ∈ children m1 p) by (rewrite E; left).
  apply elem_of_children in Hn as [x Hx]. assert (n ∈ children m2 p) by (apply elem_of_children; exists x; by eapply lookup_weaken). rewrite H in *. set_solver.
Qed.

Lemma post_removeIfEmpty p w : runs w (removeIfEmpty fault p) (fun w' _ =>
  nodes w' = nodes w \/ nodes w !! p = Some Dir /\ children (nodes w) p = [] /\ nodes w' = delete p (nodes w)).
Proof.
  unfold removeIfEmpty. apply post_try. eapply post_conseq; [apply post_lstat|]. intros w1 [x|e] [H1 Hx]; unfold same in H1; [|by left].
  specialize (Hx x eq_refl). destruct x as [[]|]; try (apply post_ret; by left). apply post_try.
  eapply post_conseq; [apply post_readDir_strict|]. intros w2 [es|e] [H2 _]; unfold same in H2; [|left; congruence].
  case_bool_decide; [apply post_ret; left; congruence|]. apply post_try. eapply post_conseq; [apply post_remove|]. intros w3 r [H3 _].
  rewrite H2, H1 in H3. assert (G : nodes w3 = nodes w \/ nodes w !! p = Some Dir /\ children (nodes w) p = [] /\ nodes w3 = delete p (nodes w)).
  { destruct H3 as [?|[? ?]]; [by left|right]. auto. }
  destruct r as [[]|]; [by apply post_ret..|done].
Qed.

Lemma post_cleanup dirs w : runs w (gather_try dirs (fun p => _ ←! removeIfEmpty fault p; ok ([] : list unit))) (fun w' _ =>
  loses (fun m p => nodes w !! p = Some Dir /\ children m p = []) w w').
Proof.
  eapply post_conseq.
  { apply (post_gather_try dirs _ (fun _ _ w' => loses (fun m p => nodes w !! p = Some Dir /\ children m p = []) w w')
      (fun _ w' => loses (fun m p => nodes w !! p = Some Dir /\ children m p = []) w w')).
    - split; done.
    - intros l1 p l2 us w1 _ [Hs Hl]. apply post_try. eapply post_conseq; [apply post_removeIfEmpty|]. intros w2 r H2.
      assert (G : loses (fun m p => nodes w !! p = Some Dir /\ children m p = []) w w2).
      { destruct H2 as [E|(Hd & Hc & E)]; [split; rewrite E; done|]. assert (Hsub : nodes w2 ⊆ nodes w1) by (rewrite E; apply delete_subseteq).
        split; [by etrans|]. intros q Hq. destruct (decide (q = p)) as [->|Hne].
        - split; [by eapply lookup_weaken|by eapply children_mono].
        - rewrite E, lookup_delete_ne in Hq by done. destruct (Hl q Hq) as [? Hq2]. split; [done|by eapply children_mono]. }
      destruct r; [by apply post_ret|done]. }
  by intros w1 [].
Qed.
End Execute.

(** ** Pruning as a whole *)

(** A combination that has something a prune knows *)
Definition stored (m : gmap path inode) (c : Combination) : Prop := exists p, artifact_of c p /\ is_Some (m !! p).

Section Prune.
Context (fault : nat -> bool) (k : Keep) (verdict : Combination -> bool) (w : Fs).
Context (Htree : tree (nodes w)) (Hkeep : Keeper fault k (nodes w) verdict).

Definition may_go (x : inode) (m' : gmap path inode) (p : path) : Prop :=
  (exists c d al, x = Reg d al /\ artifact_of c p /\ verdict c = false) \/ (exists d al, x = Reg d al /\ leftover p) \/ (x = Dir /\ children m' p = []).

Lemma post_executePrune plans w1 : nodes w1 = nodes w ->
  (forall cp, cp ∈ plans ≫= sp_plan -> exists s, s <> "mirror" /\ plan_ok (nodes w) verdict s cp) ->
  (forall c p x, Schematic c <> "mirror" -> artifact_of c p -> verdict c = false -> nodes w !! p = Some x -> planned (plans ≫= sp_plan) c p) ->
  runs w1 (executePrune fault plans) (fun w' r => nodes w' ⊆ nodes w /\
    (forall p x, nodes w !! p = Some x -> nodes w' !! p = None -> may_go x (nodes w') p) /\
    (forall res, r = Ok res -> Images res = (plans ≫= sp_plan) ≫= report /\
       ImageCount res = Z.of_nat (length (Images res)) /\ ImageBytes res = zsum snd (Images res) /\
       forall c p, Schematic c <> "mirror" -> artifact_of c p -> verdict c = false -> nodes w' !! p = None)).
Proof.
  intros H1 Hs Hc. unfold executePrune. apply post_try. eapply post_conseq; [apply post_executePlan|]. intros w2 r [[Hsub2 Hl2] Hok2].
  rewrite H1 in Hsub2, Hl2.
  assert (G2 : forall p x, nodes w !! p = Some x -> nodes w2 !! p = None ->
    (exists c d al, x = Reg d al /\ artifact_of c p /\ verdict c = false) \/ (exists d al, x = Reg d al /\ leftover p)).
  { intros p x Hx Hn. destruct (Hl2 p) as (cp & a & Hcp & Ha & <-); [congruence|]. destruct (Hs cp Hcp) as (s & _ & _ & Hact).
    destruct (Hact a Ha) as ((d & al & Hm & _) & Ht). rewrite Hm in Hx. injection Hx as <-.
    destruct (a_temporary a); [right; eauto|left; naive_solver]. }
  destruct r as [images|e]; cycle 1.
  { split_and!; [done| |done]. intros p x Hx Hn. destruct (G2 p x Hx Hn); [by left|by right; left]. }
  destruct (Hok2 images eq_refl) as [-> Hgone]. apply post_try. eapply post_conseq; [apply post_cleanup|]. intros w3 r [Hsub3 Hl3].
  assert (G : nodes w3 ⊆ nodes w /\ (forall p x, nodes w !! p = Some x -> nodes w3 !! p = None -> may_go x (nodes w3) p)).
  { split; [by etrans|]. intros p x Hx Hn. destruct (nodes w2 !! p) as [y|] eqn:Ey.
    - right. right. assert (Hy : nodes w !! p = Some y) by (by eapply lookup_weaken). destruct (Hl3 p) as [Hd Hch]; [congruence|]. split; [congruence|done].
    - destruct (G2 p x Hx Ey); [by left|by right; left]. }
  destruct r as [u|e]; [|destruct G; split_and!; done]. apply post_ret. destruct G as [G1 G3]. split_and!; [done..|].
  intros res [= <-]. cbn [Images ImageCount ImageBytes]. split_and!; [done..|]. intros c p Hne Ha Hv.
  apply (lookup_weaken_None _ (nodes w2)); [|done]. destruct (nodes w !! p) as [x|] eqn:Ex.
  - apply Hgone. destruct (Hc c p x Hne Ha Hv Ex) as (cp & a & ? & _ & ? & ? & _). eauto.
  - by apply (lookup_weaken_None _ (nodes w)).
Qed.

Lemma post_PruneDiskExcept slash : runs w (PruneDiskExcept fault slash k) (fun w' r => nodes w' ⊆ nodes w /\
  (forall p x, nodes w !! p = Some x -> nodes w' !! p = None -> may_go x (nodes w') p) /\
  (forall res, r = Ok res ->
     ImageCount res = Z.of_nat (length (Images res)) /\ ImageBytes res = zsum snd (Images res) /\
     (forall c p, Schematic c <> "mirror" -> artifact_of c p -> verdict c = false -> nodes w' !! p = None) /\
     (forall c, (exists b, (c, b) ∈ Images res) <-> Schematic c <> "mirror" /\ verdict c = false /\ stored (nodes w) c) /\
     (forall c p x, Schematic c <> "mirror" -> artifact_of c p -> verdict c = false -> nodes w !! p = Some x -> exists d al, x = Reg d al))).
Proof.
  unfold PruneDiskExcept. apply post_try. eapply post_conseq; [apply post_fixed; [|reflexivity]|].
  { unfold validateCacheRoot. destruct slash; [apply stays_ret; typeclasses eauto|apply same_requireDirectory]. }
  intros w1 [u|e] H1; [|split_and!; [by rewrite H1|congruence|done]]. unfold pruneKnownDiskArtifacts. apply post_try.
  eapply post_conseq; [by apply (post_planDisk fault (nodes w) verdict)|]. intros w2 [plans|e] [H2 Hp]; [|split_and!; [by rewrite H2|congruence|done]].
  specialize (Hp plans eq_refl). destruct plans as [plans|]; cycle 1.
  { apply post_ret. split_and!; [by rewrite H2|congruence|]. intros res [= <-]. rewrite H2.
    assert (Hno : forall c p, artifact_of c p -> nodes w !! p = None).
    { intros c p Ha. destruct (nodes w !! p) as [x|] eqn:Ex; [|done]. destruct (artifact_version (nodes w) Htree c p x Ha Ex) as [_ Hd].
      apply (Htree []) in Hd. congruence. }
    split_and!; [done..| | |].
    - intros c p _ Ha _. by eapply Hno.
    - intros c. split; [intros [b Hb]; set_solver|]. intros (_ & _ & p & Ha & Hx). rewrite (Hno c p Ha) in Hx. by destruct Hx.
    - intros c p x _ Ha _ Hx. rewrite (Hno c p Ha) in Hx. done. }
  destruct Hp as [Hs Hc]. eapply post_conseq; [by apply post_executePrune|]. intros w3 r (Hsub & Hgo & Hok). split_and!; [done..|].
  intros res Hr. destruct (Hok res Hr) as (Hi & Hn & Hb & Hg). split_and!; [done..| |].
  2: { intros c p x Hne Ha Hv Hx. destruct (Hc c p x Hne Ha Hv Hx) as (cp & a & Hcp & <- & Hin & <- & _).
       destruct (Hs cp Hcp) as (s & _ & _ & Hact). destruct (Hact a Hin) as ((d & al & Hm & _) & _). rewrite Hm in Hx. injection Hx as <-. eauto. }
  intros c. rewrite Hi. split.
  - intros [b (cp & Hcp & Hin)%list_elem_of_bind]. unfold report in Hcp. destruct (reportable cp) eqn:Er; [|set_solver].
    apply list_elem_of_singleton in Hcp. injection Hcp as -> _. destruct (Hs cp Hin) as (s & Hne & Hsch & Hact).
    apply existsb_exists in Er as (a & Ha%list_elem_of_In & Ht). destruct (Hact a Ha) as ((d & al & Hm & _) & Hart). apply negb_true_iff in Ht. rewrite Ht in Hart.
    destruct Hart as [Hart Hv]. split_and!; [congruence|done|]. exists (a_path a). split; [done|]. by rewrite Hm.
  - intros (Hne & Hv & p & Ha & [x Hx]). destruct (Hc c p x Hne Ha Hv Hx) as (cp & a & Hcp & <- & Hin & _ & Ht).
    exists (zsum a_size (p_actions cp)). apply list_elem_of_bind. exists cp. split; [|done]. unfold report.
    replace (reportable cp) with true; [by apply list_elem_of_singleton|]. symmetry. apply existsb_exists. exists a. split; [by apply list_elem_of_In|by rewrite Ht].
Qed.
End Prune.

(** Names of artifacts and of temporary files are apart. *)
Lemma artifact_inj c c' p : artifact_of c p -> artifact_of c' p -> c = c'.
Proof.
  destruct c, c'. intros [_ [(n & -> & _)|(Ea & n & -> & _)]] [_ [(n' & E & _)|(Ea' & n' & E & _)]]; simpl in *; congruence.
Qed.

Lemma artifact_not_leftover c p : artifact_of c p -> leftover p -> False.
Proof.
  intros Ha (dir & n & a & -> & Hca & Hp).
  assert (Hn : n ∈ ["disk.raw"; archive ArchitectureAMD64; archive ArchitectureARM64; pinMarkerName]).
  { destruct Ha as [Harch [(k & E & Hk)|(_ & k & E & Hk)]].
    - apply (app_inj_2 dir [_; _; _] [n] [k]) in E as [_ [= <-]]; [|done]. destruct Harch as [Ea|Ea]; rewrite Ea in Hk; set_solver.
    - apply (app_inj_2 dir [_; _] [n] [k]) in E as [_ [= <-]]; [|done]. set_solver. }
  destruct Hca as [-> | ->]; set_unfold in Hn; destruct Hn as [-> |[-> |[-> |[-> |[]]]]]; vm_compute in Hp; discriminate.
Qed.

Lemma kept_survives verdict w w' c p d al : nodes w' ⊆ nodes w ->
  (forall p x, nodes w !! p = Some x -> nodes w' !! p = None -> may_go verdict x (nodes w') p) ->
  verdict c = true -> artifact_of c p -> nodes w !! p = Some (Reg d al) -> nodes w' !! p = Some (Reg d al).
Proof.
  intros Hsub Hgo Hv Ha Hp. destruct (nodes w' !! p) as [y|] eqn:E.
  - assert (nodes w !! p = Some y) by (by eapply lookup_weaken). congruence.
  - exfalso. destruct (Hgo p _ Hp E) as [(c' & d' & al' & _ & Ha' & Hv')|[(d' & al' & _ & Hl)|[? _]]]; [|by eapply artifact_not_leftover|done].
    rewrite (artifact_inj c c' p Ha Ha') in Hv. congruence.
Qed.

(** C10: A prune deletes only what it was told nobody keeps.  Whatever calls fail, in
    whatever directory tree, the tree only shrinks, and what is gone is a regular file
    that is a known artifact of a combination [keep] rejected, an abandoned temporary
    file, or a directory that ended empty; every regular artifact of a kept combination
    is untouched. *)
Theorem prune_spares_kept fault k verdict slash w w' r :
  tree (nodes w) -> Keeper fault k (nodes w) verdict -> PruneDiskExcept fault slash k w = (w', r) ->
  nodes w' ⊆ nodes w /\
  (forall p x, nodes w !! p = Some x -> nodes w' !! p = None -> may_go verdict x (nodes w') p) /\
  (forall c p d al, verdict c = true -> artifact_of c p -> nodes w !! p = Some (Reg d al) -> nodes w' !! p = Some (Reg d al)).
Proof.
  intros Ht Hk H. pose proof (post_PruneDiskExcept fault k verdict w Ht Hk slash) as G. unfold runs in G. rewrite H in G. cbn [fst snd] in G.
  destruct G as (Hsub & Hgo & _). split_and!; [done..|]. intros c p d al. by apply kept_survives.
Qed.

(** A prune that succeeds is complete and reports exactly what it did: every known
    artifact of every combination that is not kept is gone, the report lists exactly
    those of these combinations that had an artifact, and its count and byte total are
    those of the list. *)
Theorem prune_complete fault k verdict slash w w' res :
  tree (nodes w) -> Keeper fault k (nodes w) verdict -> PruneDiskExcept fault slash k w = (w', Ok res) ->
  ImageCount res = Z.of_nat (length (Images res)) /\ ImageBytes res = zsum snd (Images res) /\
  (forall c p, Schematic c <> "mirror" -> artifact_of c p -> verdict c = false -> nodes w' !! p = None) /\
  (forall c, (exists b, (c, b) ∈ Images res) <-> Schematic c <> "mirror" /\ verdict c = false /\ stored (nodes w) c).
Proof.
  intros Ht Hk H. pose proof (post_PruneDiskExcept fault k verdict w Ht Hk slash) as G. unfold runs in G. rewrite H in G. cbn [fst snd] in G.
  destruct G as (_ & _ & Hok). destruct (Hok res eq_refl) as (? & ? & ? & ? & _). done.
Qed.

(** ** Who keeps an image *)

Section Kept.
Context (fault : nat -> bool).

Definition is_pinned (m : gmap path inode) (c : Combination) : bool :=
  match pinMarkerPath c with
  | Ok p => match m !! p with Some (Reg _ _) => true | _ => false end
  | Err _ => false
  end.

(** A combination carries a reason to exist. *)
Definition wanted (cl : Classifier) (m : gmap path inode) (c : Combination) : bool :=
  is_pinned m c || bool_decide (cl_default cl = Some c) || bool_decide (references_of cl c <> []).

Lemma post_Pinned c w : runs w (Pinned fault c) (fun w' r => same w w' /\ forall b, r = Ok b -> b = is_pinned (nodes w) c).
Proof.
  unfold Pinned, lift. apply post_try. apply post_ret. unfold is_pinned. destruct (pinMarkerPath c) as [p|e]; [|done].
  apply post_try. eapply post_conseq; [apply post_lstat|]. intros w1 [x|e] [H1 Hx]; [|done]. apply post_ret. split; [done|].
  intros b [= <-]. by rewrite (Hx x eq_refl).
Qed.

(** The daemon's classifier is a keeper: it answers [wanted]. *)
#[global] Instance classifier_keeper cl m : Keeper fault (Some (keep fault cl)) m (wanted cl m).
Proof.
  intros c w Hw. unfold keepCombination, keep, status, statuses. apply post_try, post_try, post_try.
  eapply post_conseq; [apply post_Pinned|]. intros w1 [b|e] [H1 Hb]; unfold same in H1; [|split; [congruence|done]].
  apply post_ret, post_ret, post_ret. split; [congruence|]. intros b' [= <-]. rewrite (Hb b eq_refl), Hw. unfold wanted, primaryCacheImageStatus.
  destruct (is_pinned m c), (bool_decide (cl_default cl = Some c)), (decide (references_of cl c = [])) as [E|E]; rewrite ?E; try reflexivity;
    rewrite (bool_decide_eq_false_2 (references_of cl c = []) E), ?(bool_decide_eq_true_2 (references_of cl c <> []) E); reflexivity.
Qed.

(** No function keeps nothing. *)
#[global] Instance nil_keeper m : Keeper fault None m (fun _ => false).
Proof. intros c w Hw. apply post_ret. split; [done|]. congruence. Qed.
End Kept.

Lemma referenced items default_ item c cl :
  cl_references cl = clusterImageReferences items default_ -> item ∈ items -> cluster_combination default_ item = Some c -> c_Name item ∈ references_of cl c.
Proof.
  intros Hcl Hi Hc. unfold references_of. rewrite Hcl. apply list_elem_of_fmap. exists (c, c_Name item). split; [done|].
  apply list_elem_of_filter. split; [done|]. unfold clusterImageReferences. apply list_elem_of_omap. exists item. split; [done|]. by rewrite Hc.
Qed.

(** The default prune never takes away an image somebody needs.  Whatever calls fail,
    the disk image, archive and pin of a combination that a stored cluster boots from,
    that carries a pin, or that is the default of this host are as before. *)
Theorem prune_keeps_needed_images fault recorded architecture items cl slash spared w w' r :
  tree (nodes w) -> cacheImageClassifier (Ok recorded) architecture (Ok items) = Ok cl ->
  pruneCache fault "" (Ok cl) slash spared w = (w', r) ->
  forall c p d al, artifact_of c p -> nodes w !! p = Some (Reg d al) ->
  is_pinned (nodes w) c = true \/ cl_default cl = Some c \/
    (exists item, item ∈ items /\ cluster_combination (default EmptyString recorded) item = Some c) ->
  nodes w' !! p = Some (Reg d al).
Proof.
  intros Ht Hcl H c p d al Ha Hp Hwhy. change (PruneDiskExcept fault slash (Some (keep fault cl)) w = (w', r)) in H.
  pose proof (post_PruneDiskExcept fault _ (wanted cl (nodes w)) w Ht _ slash) as G. unfold runs in G. rewrite H in G. cbn [fst snd] in G.
  destruct G as (Hsub & Hgo & _).
  assert (Hw : wanted cl (nodes w) c = true).
  { unfold wanted. destruct Hwhy as [E|[E|(item & Hi & E)]]; [by rewrite E|rewrite (bool_decide_eq_true_2 _ E); by rewrite orb_true_r|].
    rewrite (bool_decide_eq_true_2 (references_of cl c <> [])); [by rewrite orb_true_r|]. intros Hnil.
    assert (Hr : cl_references cl = clusterImageReferences items (default EmptyString recorded)).
    { unfold cacheImageClassifier in Hcl. simpl in Hcl. destruct recorded as [sch|]; [destruct architecture as [ar|]; [|done]|]; by injection Hcl as <-. }
    pose proof (referenced _ _ _ _ _ Hr Hi E) as Hin. rewrite Hnil in Hin. set_solver. }
  by eapply kept_survives.
Qed.

(** ** The listing is the preview of a prune *)

Section Listing.
Context (fault : nat -> bool) (m : gmap path inode) (Htree : tree m).

(** Where a combination lives: [combinationDirs] spells [artifact_of]. *)
Lemma dirs_artifacts s v a p : a = ArchitectureAMD64 \/ a = ArchitectureARM64 ->
  artifact_of (mkCombination s v a) p <-> exists dir names n, (dir, names) ∈ combinationDirs [s; v] a /\ n ∈ names /\ p = dir ++ [n].
Proof.
  intros Ha. unfold artifact_of, combinationDirs. simpl. split.
  - intros [_ [(n & -> & Hn)|(-> & n & -> & Hn)]].
    + exists [s; v; a], (knownDiskArtifactNames a true), n. split_and!; [left|done|done].
    + exists [s; v], (knownDiskArtifactNames ArchitectureARM64 false), n. split_and!; [right; left|done|done].
  - intros (dir & names & n & Hd & Hn & ->). split; [done|]. apply elem_of_cons in Hd as [[= -> ->]|Hd]; [left; by exists n|].
    case_bool_decide as E; [|set_solver]. apply list_elem_of_singleton in Hd. injection Hd as -> ->. right. subst a. split; [done|]. by exists n.
Qed.

Lemma disk_in_names a b : "disk.raw" ∈ knownDiskArtifactNames a b.
Proof. left. Qed.

(** A file [Stat] takes for a regular one *)
Definition looks_regular (x : option inode) : Prop := exists d al, x = Some (Reg d al) \/ exists l, x = Some (Link (Some (d, al)) l).

Lemma post_cacheEntry c p w : nodes w = m ->
  runs w (cacheEntry fault c p) (fun w' r => nodes w' = m /\ forall o, r = Ok o ->
    match o with Some e => e_combination e = c /\ looks_regular (m !! p) | None => True end).
Proof.
  intros Hw. unfold cacheEntry, statPath. apply post_try, post_try. eapply post_conseq; [apply post_lstat|].
  intros w1 [x|e] [H1 Hx]; unfold same in H1; [|split; [congruence|done]]. specialize (Hx x eq_refl). rewrite Hw in Hx, H1. apply post_ret, post_ret.
  split; [done|]. intros o [= <-]. rewrite <- Hx. unfold looks_regular. destruct x as [[d al| |[[d al]|] l|]|]; try done; destruct (0 <? _); try done; split; eauto 6.
Qed.

Definition regular (x : option inode) : option (Z * Z) := match x with Some (Reg d al) => Some (file_size (Reg d al), al) | _ => None end.
Definition stats_of (dir : path) (names : list string) : list (Z * Z) := omap (fun n => regular (m !! (dir ++ [n]))) names.

Lemma post_stats dir names w : nodes w = m ->
  runs w (artifactStats fault dir names) (fun w' r => nodes w' = m /\ forall l, r = Ok l -> l = stats_of dir names).
Proof.
  intros Hw. unfold artifactStats. eapply post_conseq.
  { apply (post_gather_try names _ (fun l1 l w' => nodes w' = m /\ l = stats_of dir l1) (fun _ w' => nodes w' = m)).
    - done.
    - intros l1 n l2 l w1 _ (H1 & ->). apply post_try. eapply post_conseq; [apply post_lstat|].
      intros w2 [x|e] [H2 Hx]; unfold same in H2; [|congruence]. specialize (Hx x eq_refl). rewrite H1 in Hx, H2. apply post_ret. split; [done|].
      unfold stats_of. rewrite omap_app. f_equal. simpl. rewrite Hx. by destruct (m !! (dir ++ [n])) as [[]|]. }
  intros w1 [l|e]; [|done]. intros [H1 ->]. split; [done|]. by intros ? [= <-].
Qed.

Lemma stats_of_some dir names : stats_of dir names <> [] -> exists n d al, n ∈ names /\ m !! (dir ++ [n]) = Some (Reg d al).
Proof.
  unfold stats_of. intros H. destruct (omap _ names) as [|z l] eqn:E; [done|].
  assert (Hin : z ∈ omap (fun n => regular (m !! (dir ++ [n]))) names) by (rewrite E; left).
  apply list_elem_of_omap in Hin as (n & Hn & Hz). destruct (m !! (dir ++ [n])) as [[d al| | |]|] eqn:Em; try done. eauto.
Qed.

Lemma stats_of_nil dir names : stats_of dir names = [] <-> forall n d al, n ∈ names -> m !! (dir ++ [n]) = Some (Reg d al) -> False.
Proof.
  unfold stats_of. split.
  - intros E n d al Hn Hm. assert (Hin : (file_size (Reg d al), al) ∈ omap (fun n => regular (m !! (dir ++ [n]))) names).
    { apply list_elem_of_omap. exists n. by rewrite Hm. } rewrite E in Hin. set_solver.
  - intros H. apply dec_stable. intros (n & d & al & Hn & Hm)%stats_of_some. by eapply H.
Qed.

Lemma post_ready c dirs w : nodes w = m ->
  runs w (readyEntry fault c dirs) (fun w' r => nodes w' = m /\ forall e, r = Ok (Some e) ->
    e_combination e = c /\ exists dir names, (dir, names) ∈ dirs /\ looks_regular (m !! (dir ++ ["disk.raw"]))).
Proof.
  revert w. induction dirs as [|[dir names] dirs IH]; intros w Hw; simpl; [by apply post_ret|].
  apply post_try. eapply post_conseq; [by apply post_cacheEntry|]. intros w1 [o|e] [H1 Ho]; [|done]. specialize (Ho o eq_refl). destruct o as [e|].
  - apply post_ret. split; [done|]. intros e' [= <-]. split; [by destruct Ho|]. exists dir, names. split; [left|by destruct Ho].
  - eapply post_conseq; [by apply IH|]. intros w2 r [H2 Hr]. split; [done|]. intros e He. destruct (Hr e He) as (? & d & n & ? & ?).
    split; [done|]. exists d, n. split; [by right|done].
Qed.

(** An entry is there for a combination with a regular artifact, and only for one that
    has a regular artifact, or an image [Stat] takes for one. *)
Definition listed_ok (c : Combination) (es : list Entry) : Prop :=
  (forall e, e ∈ es -> e_combination e = c) /\
  (es <> [] -> exists p, artifact_of c p /\ is_Some (m !! p)) /\
  (forall p d al, artifact_of c p -> m !! p = Some (Reg d al) -> es <> []).

Lemma post_combination s v a w : nodes w = m -> a = ArchitectureAMD64 \/ a = ArchitectureARM64 ->
  runs w (combinationEntry fault (mkCombination s v a) (combinationDirs [s; v] a)) (fun w' r => nodes w' = m /\
    forall es, r = Ok es -> listed_ok (mkCombination s v a) es).
Proof.
  intros Hw Ha. pose proof (dirs_artifacts s v a) as Hart. set (dirs := combinationDirs [s; v] a) in *. set (c := mkCombination s v a) in *.
  unfold combinationEntry. apply post_try. eapply post_conseq; [by apply post_ready|]. intros w1 [[e|]|e] [H1 Hr]; [| |done].
  { destruct (Hr e eq_refl) as (He & dir & names & Hin & Hd). apply post_ret. split; [done|]. intros es [= <-]. split_and!.
    - intros e' ->%list_elem_of_singleton. done.
    - intros _. exists (dir ++ ["disk.raw"]). split; [|destruct Hd as (d & al & [-> |[l ->]]); by eexists].
      apply Hart; [done|]. exists dir, names, "disk.raw". split_and!; [done| |done]. unfold dirs, combinationDirs in Hin.
      apply elem_of_cons in Hin as [[= _ ->]|Hin]; [apply disk_in_names|]. case_bool_decide; [|set_solver].
      apply list_elem_of_singleton in Hin. injection Hin as _ ->. apply disk_in_names.
    - done. }
  apply post_try. eapply post_conseq.
  { apply (post_gather_try dirs _ (fun l1 st w' => nodes w' = m /\ (forall q, q ∈ st -> exists names, (q.1, names) ∈ l1 /\ q.2 = stats_of q.1 names /\ q.2 <> []) /\
      (forall dir names, (dir, names) ∈ l1 -> stats_of dir names <> [] -> st <> [])) (fun _ w' => nodes w' = m)).
    - split_and!; [done|set_solver..].
    - intros l1 [dir names] l2 st w2 _ (H2 & Hs & Hc). apply post_try. eapply post_conseq; [by apply post_stats|]. intros w3 [l|e] [H3 Hl]; [|done].
      apply post_ret. rewrite (Hl l eq_refl). cbn [fst snd]. case_bool_decide as E.
      + rewrite app_nil_r. split_and!; [done| |].
        * intros q Hq. destruct (Hs q Hq) as (ns & ? & ?). exists ns. set_solver.
        * intros d' n' [Hd'|Hd'%list_elem_of_singleton]%elem_of_app Hn'; [by eapply Hc|]. injection Hd' as -> ->. done.
      + split_and!; [done| |by intros ???? [_ ?]%app_nil].
        intros q [Hq|Hq%list_elem_of_singleton]%elem_of_app; [destruct (Hs q Hq) as (ns & ? & ?); exists ns; set_solver|]. subst q.
        exists names. split_and!; [set_solver|done|done]. }
  intros w2 [st|e]; [|done]. intros (H2 & Hs & Hc). destruct st as [|[p l] st].
  - apply post_ret. split; [done|]. intros es [= <-]. split_and!; [set_solver|done|]. intros p d al (dir & names & n & Hin & Hn & ->)%Hart Hm; [|done].
    exfalso. eapply (Hc dir names); [done| |done]. intros E. eapply stats_of_nil; done.
  - apply post_ret. split; [done|]. intros es [= <-]. split_and!; [by intros e ->%list_elem_of_singleton| |done]. intros _.
    destruct (Hs (p, l) (list_elem_of_here _ _)) as (names & Hin & El & Hne). simpl in *.
    rewrite El in Hne. destruct (stats_of_some _ _ Hne) as (n & d & al & Hn & Hm). exists (p ++ [n]). split; [|by rewrite Hm]. apply Hart; eauto 6.
Qed.

Lemma post_listVersion s v w : nodes w = m ->
  runs w (list_version fault s v) (fun w' r => nodes w' = m /\ forall es, r = Ok es ->
    (forall e, e ∈ es -> stored m (e_combination e)) /\
    (forall c p d al, Schematic c = s -> Version c = v -> artifact_of c p -> m !! p = Some (Reg d al) -> exists e, e ∈ es /\ e_combination e = c)).
Proof.
  intros Hw. unfold list_version. eapply post_conseq.
  { apply (post_gather_try [ArchitectureAMD64; ArchitectureARM64] _ (fun l1 es w' => nodes w' = m /\ (forall e, e ∈ es -> stored m (e_combination e)) /\
      (forall c p d al, Schematic c = s -> Version c = v -> Arch c ∈ l1 -> artifact_of c p -> m !! p = Some (Reg d al) -> exists e, e ∈ es /\ e_combination e = c))
      (fun _ w' => nodes w' = m)).
    - split_and!; [done|set_solver..].
    - intros l1 a l2 es w1 El (H1 & Hs & Hc). assert (Ha : a = ArchitectureAMD64 \/ a = ArchitectureARM64).
      { assert (Hin : a ∈ [ArchitectureAMD64; ArchitectureARM64]) by (rewrite El; set_solver). set_solver. }
      eapply post_conseq; [by apply post_combination|]. intros w2 [es2|e] [H2 He]; [|done]. destruct (He es2 eq_refl) as (Hcomb & Hst & Hne).
      split_and!; [done| |].
      + intros e [Hin|Hin]%elem_of_app; [by apply Hs|]. rewrite (Hcomb e Hin). apply Hst. intros ->. set_solver.
      + intros c p d al Es Ev [Hin|Hin%list_elem_of_singleton]%elem_of_app Ha2 Hm.
        * destruct (Hc c p d al Es Ev Hin Ha2 Hm) as (e & ? & ?). exists e. set_solver.
        * assert (c = mkCombination s v a) as -> by (destruct c; simpl in *; congruence). specialize (Hne p d al Ha2 Hm).
          destruct es2 as [|e es2]; [done|]. exists e. split; [set_solver|]. apply Hcomb. left. }
  intros w1 [es|e]; [|done]. intros (H1 & Hs & Hc). split; [done|]. intros es' [= <-]. split; [done|].
  intros c p d al Es Ev Ha Hm. eapply Hc; try done. destruct Ha as [[-> | ->] _]; set_solver.
Qed.

Lemma post_List w : nodes w = m ->
  runs w (List_ fault) (fun w' r => nodes w' = m /\ forall es, r = Ok es ->
    (forall e, e ∈ es -> stored m (e_combination e)) /\
    (forall c p d al, artifact_of c p -> m !! p = Some (Reg d al) -> exists e, e ∈ es /\ e_combination e = c)).
Proof.
  intros Hw. unfold List_. apply post_try. eapply post_conseq; [apply post_readDir|].
  intros w1 [[root|]|e] [H1 Hr]; unfold same in H1; [| |split; [congruence|done]]; rewrite Hw in H1, Hr; cycle 1.
  { apply post_ret. split; [done|]. intros es [= <-]. split; [set_solver|]. intros c p d al Ha Hp.
    destruct (artifact_version m Htree c p _ Ha Hp) as [_ Hd]. apply (Htree []) in Hd. congruence. }
  destruct Hr as [_ Hin]. eapply post_conseq.
  { apply (post_gather_try root _ (fun l1 es w' => nodes w' = m /\ (forall e, e ∈ es -> stored m (e_combination e)) /\
      (forall c p d al, (Schematic c, Dir) ∈ l1 -> artifact_of c p -> m !! p = Some (Reg d al) -> exists e, e ∈ es /\ e_combination e = c))
      (fun _ w' => nodes w' = m)).
    - split_and!; [done|set_solver..].
    - intros l1 [s x] l2 es w2 _ (H2 & Hs & Hc). cbn [fst snd]. destruct (is_dir x) eqn:Ex; cbn [negb].
      + apply post_try. eapply post_conseq; [apply post_readDir_strict|]. intros w3 [vs|e] [H3 Hv]; unfold same in H3; [|congruence].
        rewrite H2 in H3, Hv. destruct (Hv vs eq_refl) as [_ Hvin]. eapply post_conseq.
        { apply (post_gather_try vs _ (fun v1 es2 w' => nodes w' = m /\ (forall e, e ∈ es2 -> stored m (e_combination e)) /\
            (forall c p d al, Schematic c = s -> (Version c, Dir) ∈ v1 -> artifact_of c p -> m !! p = Some (Reg d al) -> exists e, e ∈ es2 /\ e_combination e = c))
            (fun _ w' => nodes w' = m)).
          - split_and!; [done|set_solver..].
          - intros v1 [v y] v2 es2 w4 _ (H4 & Hs4 & Hc4). cbn [fst snd]. destruct (is_dir y) eqn:Ey; cbn [negb].
            + eapply post_conseq; [by apply post_listVersion|]. intros w5 [es5|e] [H5 He]; [|done]. destruct (He es5 eq_refl) as [Hs5 Hc5].
              split_and!; [done|intros e [?|?]%elem_of_app; auto|]. intros c p d al Es [Hv1|Hv1%list_elem_of_singleton]%elem_of_app Ha Hm.
              * destruct (Hc4 c p d al Es Hv1 Ha Hm) as (e & ? & ?). exists e. set_solver.
              * injection Hv1 as Ev _. destruct (Hc5 c p d al Es Ev Ha Hm) as (e & ? & ?). exists e. set_solver.
            + apply post_ret. rewrite app_nil_r. split_and!; [done..|]. intros c p d al Es [Hv1|Hv1%list_elem_of_singleton]%elem_of_app; [by apply Hc4|].
              injection Hv1 as _ <-. done. }
        intros w4 [es4|e]; [|done]. intros (H4 & Hs4 & Hc4). split_and!; [done|intros e [?|?]%elem_of_app; auto|].
        intros c p d al [Hl|Hl%list_elem_of_singleton]%elem_of_app Ha Hm.
        * destruct (Hc c p d al Hl Ha Hm) as (e & ? & ?). exists e. set_solver.
        * injection Hl as Es _. destruct (artifact_version m Htree c p _ Ha Hm) as [Hd _]. rewrite Es in Hd.
          destruct (Hc4 c p d al Es) as (e & ? & ?); [by apply Hvin|done..|]. exists e. set_solver.
      + apply post_ret. rewrite app_nil_r. split_and!; [done..|]. intros c p d al [Hl|Hl%list_elem_of_singleton]%elem_of_app; [by apply Hc|].
        injection Hl as _ <-. done. }
  intros w2 [es|e]; [|done]. intros (H2 & Hs & Hc). split; [done|]. intros es' [= <-]. split; [done|].
  intros c p d al Ha Hm. eapply Hc; [|done..]. destruct (artifact_version m Htree c p _ Ha Hm) as [_ Hd]. by apply Hin.
Qed.
End Listing.

(** The listing is the preview of a prune.  When both succeed on the same tree, the
    combinations [List] shows, other than the mirror's, are exactly those a prune of the
    whole disk cache reports as removed. *)
Theorem list_previews_prune fault1 fault2 slash w1 w2 w1' w2' es res :
  tree (nodes w1) -> nodes w2 = nodes w1 ->
  List_ fault1 w1 = (w1', Ok es) -> PruneDisk fault2 slash w2 = (w2', Ok res) ->
  forall c, Schematic c <> "mirror" -> ((exists e, e ∈ es /\ e_combination e = c) <-> (exists b, (c, b) ∈ Images res)).
Proof.
  intros Ht Hw H1 H2 c Hne. pose proof (post_List fault1 (nodes w1) Ht w1 eq_refl) as G1. unfold runs in G1. rewrite H1 in G1. cbn [fst snd] in G1.
  destruct G1 as [_ G1]. destruct (G1 es eq_refl) as [Hs Hc]. rewrite <- Hw in Ht.
  pose proof (post_PruneDiskExcept fault2 None (fun _ => false) w2 Ht _ slash) as G2. unfold runs in G2.
  change (PruneDiskExcept fault2 slash None) with (PruneDisk fault2 slash) in G2. rewrite H2 in G2. cbn [fst snd] in G2.
  destruct G2 as (_ & _ & G2). destruct (G2 res eq_refl) as (_ & _ & _ & Hi & Hreg). rewrite Hi, Hw in *. split.
  - intros (e & He & <-). split_and!; [done|done|by apply Hs].
  - intros (_ & _ & p & Ha & x & Hx). destruct (Hreg c p x Hne Ha eq_refl Hx) as (d & al & ->). by eapply Hc.
Qed.

(** ** Filling the cache is atomic *)

Section Filling.
Context (fault : nat -> bool) (factoryURL : string) (http : string -> option response) (xz : string -> option string) (alloc : string -> Z)
  (suffix partial : nat -> string).

(** A temporary file of [dir]: its name starts with a dot. *)
Definition temp_in (dir p : path) : Prop := exists n, p = dir ++ [String "." n].

(** Files outside [Q] are as they were. *)
Definition spares (Q : path -> Prop) (w w' : Fs) : Prop := forall p, ~ Q p -> nodes w' !! p = nodes w !! p.

#[global] Instance spares_preorder Q : PreOrder (spares Q).
Proof. split; [by intros w p|]. intros w1 w2 w3 H1 H2 p Hp. rewrite H2, H1; done. Qed.

Lemma same_spares Q w w' : same w w' -> spares Q w w'.
Proof. unfold same. intros E p _. by rewrite E. Qed.

Lemma spares_remove (Q : path -> Prop) p : Q p -> stays (spares Q) (remove fault p).
Proof.
  intros Hp w. eapply post_conseq; [apply post_remove|]. intros w' r [[E|[E _]] _] q Hq; rewrite E; [done|]. rewrite lookup_delete_ne; [done|congruence].
Qed.

Lemma spares_call Q : stays (spares Q) (call fault).
Proof. intros w. apply post_fs_call. by intros p. Qed.

Lemma spares_put (Q : path -> Prop) p d : Q p -> stays (spares Q) (put alloc p d).
Proof. intros Hp w. apply post_modify. intros q Hq. simpl. rewrite lookup_insert_ne; [done|congruence]. Qed.

#[local] Hint Resolve spares_remove spares_call spares_put : frame.

Lemma spares_rename (Q : path -> Prop) p q : Q p -> Q q -> stays (spares Q) (rename fault p q).
Proof.
  intros Hp Hq. unfold rename. apply stays_bind; [typeclasses eauto|apply spares_call|intros f].
  apply stays_bind; [typeclasses eauto|apply stays_get; typeclasses eauto|intros w0]. stays_tac.
  all: intros w; apply post_modify; intros t Ht; simpl; rewrite lookup_insert_ne, lookup_delete_ne by congruence; done.
Qed.

Lemma spares_write (Q : path -> Prop) t d whole : Q t -> stays (spares Q) (write_temp fault alloc partial t d whole).
Proof. intros. unfold write_temp. stays_tac. Qed.

Lemma post_rename t to d al w : nodes w !! t = Some (Reg d al) -> t <> to ->
  runs w (rename fault t to) (fun w' r => match r with Ok _ => nodes w' !! to = Some (Reg d al) | Err _ => same w w' end).
Proof.
  intros Ht Hne. unfold rename. apply post_bind, post_fs_call, post_bind, post_get. destruct (fault (tick w)); [by apply post_ret|]. cbn [nodes].
  rewrite Ht. destruct (nodes w !! to) as [[]|]; try (by apply post_ret); apply post_bind, post_modify, post_ret; simpl; by rewrite lookup_insert_eq.
Qed.

Lemma post_write t d whole w : runs w (write_temp fault alloc partial t d whole) (fun w' r =>
  spares (fun p => p = t) w w' /\ (is_ok r = true -> whole = true /\ nodes w' !! t = Some (Reg d (alloc d)))).
Proof.
  apply post_and; [by apply spares_write|]. unfold write_temp. apply post_bind, post_fs_call, post_bind, post_get.
  destruct (fault (tick w)); [apply post_bind, post_modify; by apply post_ret|]. destruct whole; [|apply post_bind, post_modify; by apply post_ret].
  apply post_bind, post_modify, post_ret. simpl. by rewrite lookup_insert_eq.
Qed.

Lemma post_close w : runs w (close_temp fault) (fun w' _ => same w w').
Proof. unfold close_temp. apply post_bind, post_fs_call. by destruct (fault (tick w)); apply post_ret. Qed.

(** Writing a file through a temporary one: the destination is untouched, or holds
    everything that was written. *)
Lemma post_with_temp (A : Type) dir prefix dest (body : path -> R A) (G : inode -> Prop) w :
  (forall p n, prefix = String "." p -> dest <> dir ++ [String "." n]) -> (exists p, prefix = String "." p) ->
  (forall t w1, temp_in dir t -> t <> dest -> nodes w1 !! dest = nodes w !! dest -> spares (fun p => p = t \/ p = dest) w w1 ->
     runs w1 (body t) (fun w2 r => spares (fun p => p = t \/ p = dest) w w2 /\
       match r with Ok _ => exists x, nodes w2 !! dest = Some x /\ G x | Err _ => nodes w2 !! dest = nodes w !! dest end)) ->
  runs w (with_temp fault alloc suffix dir prefix body) (fun w' r => spares (fun p => p = dest \/ temp_in dir p) w w' /\
    match r with Ok _ => exists x, nodes w' !! dest = Some x /\ G x | Err _ => nodes w' !! dest = nodes w !! dest end).
Proof.
  intros Hdest [pre ->] Hbody. unfold with_temp. apply post_bind, post_fs_call, post_bind, post_get. cbn [nodes tick].
  set (t := dir ++ [(String "." pre +:+ suffix (S (tick w)))%string]). destruct (fault (tick w) || _); [apply post_ret; split; [by intros p|done]|].
  assert (Ht : temp_in dir t) by by eexists. assert (Hne : t <> dest).
  { intros E. by apply (Hdest pre (pre +:+ suffix (S (tick w)))%string eq_refl). }
  apply post_bind, post_modify, post_bind. eapply post_conseq; [apply (Hbody t); [done|done| |]|].
  - simpl. by rewrite lookup_insert_ne.
  - intros p Hp. simpl. rewrite lookup_insert_ne; [done|naive_solver].
  - intros w2 r [Hs Hr]. apply post_bind. eapply post_conseq; [apply (spares_remove (fun p => p = t)); done|]. intros w3 b H3. apply post_ret.
    assert (E : nodes w3 !! dest = nodes w2 !! dest) by (apply H3; congruence). rewrite E. split; [|done].
    intros p Hp. rewrite (H3 p) by naive_solver. apply Hs. naive_solver.
Qed.

(** Write, close, rename: what was written, if all of it succeeds. *)
Lemma post_publish (write : R unit) (G : inode -> Prop) t dest w w1 : t <> dest ->
  nodes w1 !! dest = nodes w !! dest -> spares (fun p => p = t \/ p = dest) w w1 ->
  runs w1 write (fun w2 r => spares (fun p => p = t) w1 w2 /\ (is_ok r = true -> exists d al, nodes w2 !! t = Some (Reg d al) /\ G (Reg d al))) ->
  runs w1 (_ ←! write; _ ←! close_temp fault; rename fault t dest) (fun w2 r => spares (fun p => p = t \/ p = dest) w w2 /\
    match r with Ok _ => exists x, nodes w2 !! dest = Some x /\ G x | Err _ => nodes w2 !! dest = nodes w !! dest end).
Proof.
  intros Hne Hd Hs Hwrite. apply post_try. eapply post_conseq; [exact Hwrite|]. intros w2 r [S2 Hok].
  assert (Hs2 : spares (fun p => p = t \/ p = dest) w w2) by (intros p Hp; rewrite (S2 p) by naive_solver; by apply Hs).
  assert (Hd2 : nodes w2 !! dest = nodes w !! dest) by (rewrite (S2 dest) by congruence; done).
  destruct r as [u|e]; [|done]. destruct (Hok eq_refl) as (d & al & Ht & HG). apply post_try. eapply post_conseq; [apply post_close|].
  intros w3 r E3. unfold same in E3. destruct r as [u3|e]; [|split; [by intros p Hp; rewrite E3; apply Hs2|congruence]].
  rewrite <- E3 in Ht. eapply post_conseq; [apply post_and; [by apply (post_rename t dest d al)|apply (spares_rename (fun p => p = t \/ p = dest)); auto]|].
  intros w4 r [H4 S4]. split; [intros p Hp; rewrite (S4 p) by done; rewrite E3; by apply Hs2|]. destruct r as [u4|e]; [by eauto|].
  unfold same in H4. congruence.
Qed.

Lemma dot_apart dir base n : (forall b, base <> String "." b) -> dir ++ [base] <> dir ++ [String "." n].
Proof. intros Hb E. apply app_inv_head in E. injection E as E. by apply (Hb n). Qed.

(** A whole answer of the Image Factory that starts as an xz file *)
Definition fetched (url : string) (x : inode) : Prop :=
  exists resp, http url = Some resp /\ resp_whole resp = true /\ has_prefix (resp_body resp) xzMagic = true /\ x = Reg (resp_body resp) (alloc (resp_body resp)).

Lemma post_download url dir base w : (forall b, base <> String "." b) ->
  runs w (download fault http alloc suffix partial url dir base) (fun w' r =>
    spares (fun p => p = dir ++ [base] \/ temp_in dir p) w w' /\
    match r with Ok _ => exists x, nodes w' !! (dir ++ [base]) = Some x /\ fetched url x | Err _ => nodes w' !! (dir ++ [base]) = nodes w !! (dir ++ [base]) end).
Proof.
  intros Hb. assert (Hfail : forall e, runs w (fail e : R unit) (fun w' r => spares (fun p => p = dir ++ [base] \/ temp_in dir p) w w' /\
    match r with Ok _ => exists x, nodes w' !! (dir ++ [base]) = Some x /\ fetched url x | Err _ => nodes w' !! (dir ++ [base]) = nodes w !! (dir ++ [base]) end)).
  { intros e. apply post_ret. split; [by intros p|done]. }
  unfold download. destruct (http url) as [resp|] eqn:Eh; [|apply Hfail]. destruct (_ || _); [apply Hfail|]. destruct (is_html _); [apply Hfail|].
  case_bool_decide; [apply Hfail|]. destruct (has_prefix (resp_body resp) xzMagic) eqn:Em; [cbn [negb]|apply Hfail].
  apply post_with_temp; [intros; by apply dot_apart|by eexists|]. intros t w1 _ Hne Hd Hs. apply post_publish; [done..|].
  eapply post_conseq; [apply post_write|]. intros w2 r [S2 Hok]. split; [done|]. intros E. destruct (Hok E) as [Hw Ht].
  exists (resp_body resp), (alloc (resp_body resp)). split; [done|]. exists resp. done.
Qed.

(** What [xz] makes of the file at [source] *)
Definition unpacked (w : Fs) (source : path) (x : inode) : Prop :=
  exists d out, contents (nodes w !! source) = Some d /\ xz d = Some out /\ x = Reg out (alloc out).

Lemma post_decompress source dir w : source <> dir ++ ["disk.raw"] -> ~ temp_in dir source ->
  runs w (decompress fault xz alloc suffix partial source dir) (fun w' r =>
    spares (fun p => p = dir ++ ["disk.raw"] \/ temp_in dir p) w w' /\
    match r with Ok _ => exists x, nodes w' !! (dir ++ ["disk.raw"]) = Some x /\ unpacked w source x
            | Err _ => nodes w' !! (dir ++ ["disk.raw"]) = nodes w !! (dir ++ ["disk.raw"]) end).
Proof.
  intros Hsrc Htemp. unfold decompress. apply post_with_temp; [intros; by apply dot_apart|by eexists|]. intros t w1 Ht Hne Hd Hs.
  assert (Hsame : nodes w1 !! source = nodes w !! source) by (apply Hs; intros [-> | ->]; done).
  apply post_bind, post_get. apply post_publish; [done..|]. rewrite Hsame.
  destruct (contents (nodes w !! source)) as [d|] eqn:E; [|apply post_ret; split; [by intros p|done]].
  destruct (xz d) as [out|] eqn:Ex.
  - eapply post_conseq; [apply post_write|]. intros w2 r [S2 Hok]. split; [done|]. intros Er. destruct (Hok Er) as [_ Hw].
    exists out, (alloc out). split; [done|]. by exists d, out.
  - apply post_bind. eapply post_conseq; [apply (spares_put (fun p => p = t)); done|]. intros w2 ? S2. by apply post_ret.
Qed.

(** New directories on the way to [dir], and nothing else *)
Definition dirs_made (dir : path) (w w' : Fs) : Prop := forall q,
  nodes w' !! q = nodes w !! q \/ nodes w !! q = None /\ nodes w' !! q = Some Dir /\ exists i, q = take i dir.

Lemma lookup_dirs (m : gmap path inode) (dir q : path) l :
  (foldr (fun i m => <[take i dir := Dir]> m) m l !! q = m !! q) \/
  (foldr (fun i m => <[take i dir := Dir]> m) m l !! q = Some Dir /\ exists i, i ∈ l /\ q = take i dir).
Proof.
  induction l as [|i l IH]; [by left|]. cbn [foldr]. destruct (decide (take i dir = q)) as [E|Hne].
  - right. rewrite <- E, lookup_insert_eq. split; [done|]. exists i. split; [left|done].
  - rewrite lookup_insert_ne by done. destruct IH as [IH|(IH & j & Hj & Hq)]; [by left|]. right. split; [done|]. exists j. split; [by right|done].
Qed.

Lemma post_mkdirAll dir w : runs w (mkdirAll fault dir) (fun w' _ => dirs_made dir w w').
Proof.
  unfold mkdirAll. apply post_bind, post_fs_call, post_bind, post_get. cbn [nodes].
  destruct (fault (tick w)); [apply post_ret; by left|]. destruct (existsb _ _) eqn:Ex; [apply post_ret; by left|].
  apply post_bind, post_modify, post_ret. intros q. cbn [nodes with_nodes]. destruct (lookup_dirs (nodes w) dir q (seq 0 (S (length dir)))) as [E|(E & i & Hi & ->)]; [by left|].
  rewrite E. rewrite <- not_true_iff_false, existsb_exists in Ex. destruct (nodes w !! take i dir) as [x|] eqn:Hx; [|right; eauto].
  left. destruct x; [|done| |]; exfalso; apply Ex; exists i; (split; [by apply list_elem_of_In|by rewrite Hx]).
Qed.

Lemma post_ready_file p w : runs w (fileReady fault p) (fun w' b => same w w' /\ (b = true -> looks_regular (nodes w !! p))).
Proof.
  unfold fileReady, statPath. apply post_bind, post_try. eapply post_conseq; [apply post_lstat|]. intros w1 [x|e] [S1 Hx]; [|by apply post_ret].
  apply post_ret, post_ret. split; [done|]. intros Hb. rewrite <- (Hx x eq_refl). unfold looks_regular.
  destruct x as [[d al| |[[d al]|] len|]|]; try done; eauto.
Qed.

Definition at_disk (c : Combination) : path := [Schematic c; Version c; Arch c; "disk.raw"].
Definition at_archive (c : Combination) : path := [Schematic c; Version c; Arch c; archive (Arch c)].
Definition at_legacy (c : Combination) : path := [Schematic c; Version c; "disk.raw"].

(** The legacy image, moved or where it was *)
Definition moved (legacy dest : path) (w w' : Fs) (r : result cache_error bool) : Prop :=
  spares (fun p => p = legacy \/ p = dest) w w' /\
  (nodes w' !! dest = nodes w !! dest /\ nodes w' !! legacy = nodes w !! legacy \/
   nodes w' !! dest = nodes w !! legacy /\ nodes w' !! legacy = None) /\
  (r = Ok true -> looks_regular (nodes w' !! dest)) /\ (r = Ok false -> same w w').

Lemma moved_not legacy dest w w' r : nodes w' = nodes w -> (r = Ok true -> looks_regular (nodes w' !! dest)) -> moved legacy dest w w' r.
Proof. intros E Hr. split; [intros p _; by rewrite E|]. split; [left; by rewrite E|done]. Qed.

Lemma post_migrate legacy dest w : legacy <> dest -> runs w (migrateLegacyDisk fault legacy dest) (moved legacy dest w).
Proof.
  intros Hne. unfold migrateLegacyDisk. apply post_bind. eapply post_conseq; [apply post_ready_file|]. intros w1 ready [S1 Hr]. unfold same in S1.
  destruct ready; cbn [negb]; [|by apply post_ret, moved_not]. specialize (Hr eq_refl). apply post_bind.
  eapply post_conseq with (P := fun w2 r => match r with Err _ => nodes w2 = nodes w | Ok _ => exists x, nodes w !! legacy = Some x /\ nodes w2 = <[dest := x]> (delete legacy (nodes w)) end).
  - unfold rename. apply post_bind, post_fs_call, post_bind, post_get. cbn [nodes]. destruct (fault (tick w1)); [by apply post_ret|]. rewrite S1.
    destruct (nodes w !! legacy) as [x|] eqn:Hx; [|by apply post_ret].
    destruct (nodes w !! dest) as [[]|]; try (by apply post_ret); apply post_bind, post_modify, post_ret; cbn; eauto.
  - intros w2 [u|e] H2.
    + destruct H2 as (x & Hx & E2). apply post_ret. rewrite Hx in Hr. unfold moved. rewrite E2, Hx, lookup_insert_eq, lookup_insert_ne, lookup_delete_eq by done.
      split; [|split; [by right|done]]. intros p Hp. rewrite E2, lookup_insert_ne, lookup_delete_ne; [done|intros ->; apply Hp; by left|intros ->; apply Hp; by right].
    + apply post_bind. eapply post_conseq; [apply post_ready_file|]. intros w3 b [E3 Hb]. unfold same in E3. rewrite H2 in Hb, E3.
      destruct b; apply post_ret, moved_not; try congruence. intros _. rewrite E3. auto.
Qed.

(** Where [Ensure] may leave a change *)
Definition touched (c : Combination) (p : path) : Prop :=
  p = at_disk c \/ p = at_archive c \/ p = at_legacy c \/ temp_in [Schematic c; Version c; Arch c] p.

(** What [Ensure] makes of the tree: the archive is as it was or a whole download, and
    the image is as it was, the legacy one moved, or what [xz] makes of the archive. *)
Definition filled (c : Combination) (w w' : Fs) : Prop :=
  (forall p, ~ touched c p -> nodes w' !! p = nodes w !! p \/ nodes w !! p = None /\ nodes w' !! p = Some Dir /\ exists i, p = take i [Schematic c; Version c; Arch c]) /\
  (nodes w' !! at_archive c = nodes w !! at_archive c \/ exists x, nodes w' !! at_archive c = Some x /\ fetched (assetURL factoryURL c) x) /\
  (nodes w' !! at_legacy c = nodes w !! at_legacy c /\
     (nodes w' !! at_disk c = nodes w !! at_disk c \/ exists x, nodes w' !! at_disk c = Some x /\ unpacked w' (at_archive c) x) \/
   Arch c = ArchitectureARM64 /\ nodes w' !! at_disk c = nodes w !! at_legacy c /\ nodes w' !! at_legacy c = None).

Lemma at_apart c : Arch c = ArchitectureAMD64 \/ Arch c = ArchitectureARM64 ->
  at_archive c <> at_disk c /\ ~ temp_in [Schematic c; Version c; Arch c] (at_archive c) /\ ~ temp_in [Schematic c; Version c; Arch c] (at_disk c) /\
  ~ temp_in [Schematic c; Version c; Arch c] (at_legacy c) /\
  forall i, take i [Schematic c; Version c; Arch c] <> at_archive c /\ take i [Schematic c; Version c; Arch c] <> at_disk c /\ take i [Schematic c; Version c; Arch c] <> at_legacy c.
Proof.
  intros H. split; [intros E; injection E; discriminate|].
  repeat (split; [intros [n E]; injection E; discriminate|]).
  assert (Hl : forall q, length q <> 4%nat -> q <> at_archive c /\ q <> at_disk c) by (intros q Hq; split; intros ->; by apply Hq).
  intros i. destruct (Hl (take i [Schematic c; Version c; Arch c])) as [H1 H2]; [rewrite length_take; simpl; lia|]. split; [done|split; [done|]].
  intros E. assert (Hi : drop 2 (take i [Schematic c; Version c; Arch c]) = ["disk.raw"]) by by rewrite E. do 3 (destruct i as [|i]; [discriminate|]).
  injection Hi as Hi. destruct H as [H|H]; rewrite H in Hi; discriminate.
Qed.

Lemma dirs_made_keep dir w w' q : dirs_made dir w w' -> (forall i, take i dir <> q) -> nodes w' !! q = nodes w !! q.
Proof. intros H Hq. destruct (H q) as [E|(_ & _ & i & E)]; [done|]. by destruct (Hq i). Qed.

Section One.
Context (c : Combination) (Ha : Arch c = ArchitectureAMD64 \/ Arch c = ArchitectureARM64).
#[local] Abbreviation cdir := [Schematic c; Version c; Arch c].

Lemma dirs_made_filled w w' : dirs_made cdir w w' -> filled c w w'.
Proof.
  intros Hd. destruct (at_apart c Ha) as (_ & _ & _ & _ & Hp). split; [intros p _; apply Hd|].
  split; [left; apply (dirs_made_keep _ _ _ _ Hd); apply Hp|]. left. split; [|left]; apply (dirs_made_keep _ _ _ _ Hd); apply Hp.
Qed.

Lemma moved_filled w w1 w' r : Arch c = ArchitectureARM64 -> dirs_made cdir w w1 -> moved (at_legacy c) (at_disk c) w1 w' r -> filled c w w'.
Proof.
  intros Harm Hd (Hs & Hm & _). destruct (at_apart c Ha) as (Had & _ & _ & _ & Hp).
  assert (K : forall q, (forall i, take i cdir <> q) -> nodes w1 !! q = nodes w !! q) by (intros q; apply (dirs_made_keep _ _ _ _ Hd)).
  assert (Kd : nodes w1 !! at_disk c = nodes w !! at_disk c) by (apply K; apply Hp).
  assert (Kl : nodes w1 !! at_legacy c = nodes w !! at_legacy c) by (apply K; apply Hp).
  split; [intros p Hq; rewrite (Hs p); [apply Hd|unfold touched in Hq; naive_solver]|].
  split; [left; rewrite (Hs (at_archive c)); [apply K; apply Hp|intros [E|E]; [discriminate E|done]]|].
  rewrite <- Kd, <- Kl. naive_solver.
Qed.

Lemma fetched_filled w w1 w2 w' : dirs_made cdir w w1 ->
  spares (fun p => p = at_archive c \/ temp_in cdir p) w1 w2 ->
  (nodes w2 !! at_archive c = nodes w1 !! at_archive c \/ exists x, nodes w2 !! at_archive c = Some x /\ fetched (assetURL factoryURL c) x) ->
  spares (fun p => p = at_disk c \/ temp_in cdir p) w2 w' ->
  (nodes w' !! at_disk c = nodes w2 !! at_disk c \/ exists x, nodes w' !! at_disk c = Some x /\ unpacked w2 (at_archive c) x) ->
  filled c w w'.
Proof.
  intros Hd S1 Hf S2 Hu. destruct (at_apart c Ha) as (Had & Hta & Htd & Htl & Hp).
  assert (K : forall q, (forall i, take i cdir <> q) -> nodes w1 !! q = nodes w !! q) by (intros q; apply (dirs_made_keep _ _ _ _ Hd)).
  assert (Ea : nodes w' !! at_archive c = nodes w2 !! at_archive c) by (apply S2; naive_solver).
  assert (El : nodes w' !! at_legacy c = nodes w !! at_legacy c).
  { rewrite (S2 (at_legacy c)), (S1 (at_legacy c)), (K (at_legacy c)); [done|apply Hp| |]; (intros [E|E]; [discriminate E|done]). }
  split; [intros p Hq; unfold touched in Hq; rewrite (S2 p), (S1 p) by naive_solver; apply Hd|].
  split; [rewrite Ea; rewrite <- (K (at_archive c)) by apply Hp; done|]. left. split; [done|].
  destruct Hu as [Hu|(x & Hx & d & out & Hc & Hxz & ->)]; [left; rewrite Hu, (S1 (at_disk c)) by naive_solver; apply K; apply Hp|].
  right. eexists. split; [done|]. exists d, out. rewrite Ea. done.
Qed.

Lemma post_fill w w1 : dirs_made cdir w w1 ->
  runs w1 (fetched ← fileReady fault (cdir ++ [archive (Arch c)]);
      _ ←! (if fetched : bool then ok tt else download fault http alloc suffix partial (assetURL factoryURL c) cdir (archive (Arch c)));
      _ ←! decompress fault xz alloc suffix partial (cdir ++ [archive (Arch c)]) cdir;
      ok (cdir ++ ["disk.raw"])) (fun w' r => filled c w w' /\ forall p, r = Ok p -> p = at_disk c /\ looks_regular (nodes w' !! p)).
Proof.
  intros Hd. destruct (at_apart c Ha) as (Had & Hta & _). apply post_bind. eapply post_conseq; [apply post_ready_file|]. intros w2 b [E2 _]. unfold same in E2.
  assert (Hd2 : dirs_made cdir w w2) by (intros q; rewrite E2; apply Hd). apply post_try.
  eapply post_conseq with (P := fun w3 _ => spares (fun p => p = at_archive c \/ temp_in cdir p) w2 w3 /\
    (nodes w3 !! at_archive c = nodes w2 !! at_archive c \/ exists x, nodes w3 !! at_archive c = Some x /\ fetched (assetURL factoryURL c) x)).
  - destruct b; [apply post_ret; split; [by intros p|by left]|]. eapply post_conseq; [apply (post_download _ cdir (archive (Arch c)) w2); intros ? [=]|].
    intros w3 [u|e] [S3 H3]; (split; [exact S3|]); [right|left]; exact H3.
  - intros w3 r [S3 H3]. assert (Hfail : filled c w w3) by (eapply fetched_filled; [exact Hd2|exact S3|exact H3|by intros p|by left]).
    destruct r as [u|e]; [|by split]. apply post_try. eapply post_conseq; [apply (post_decompress (at_archive c) cdir w3 Had Hta)|].
    intros w4 r [S4 H4]. destruct r as [u'|e].
    + apply post_ret. split; [eapply fetched_filled; [exact Hd2|exact S3|exact H3|exact S4|right; exact H4]|].
      intros p [= <-]. split; [done|]. destruct H4 as (x & Hx & d & out & _ & _ & ->). exists out, (alloc out). left. exact Hx.
    + split; [|done]. eapply fetched_filled; [exact Hd2|exact S3|exact H3|exact S4|left; exact H4].
Qed.
End One.
End Filling.

(** C32: Filling the cache is atomic.  Whatever calls fail, whatever the Image Factory and
    [xz] return and wherever [Ensure] stops, the archive is what it was or a whole
    download that starts as an xz file, the disk image is what it was, the legacy image
    moved into place, or all of what [xz] makes of the archive, and apart from new
    directories and temporary files nothing else changes.  When [Ensure] returns a path,
    it is the image's and a regular file is there. *)
Theorem ensure_atomic fault factoryURL http xz alloc suffix partial c w w' r :
  Ensure fault factoryURL http xz alloc suffix partial c w = (w', r) ->
  filled factoryURL http xz alloc c w w' /\ (forall p, r = Ok p -> p = at_disk c /\ looks_regular (nodes w' !! p)).
Proof.
  intros H. enough (G : runs w (Ensure fault factoryURL http xz alloc suffix partial c)
    (fun w' r => filled factoryURL http xz alloc c w w' /\ (forall p, r = Ok p -> p = at_disk c /\ looks_regular (nodes w' !! p)))).
  { unfold runs in G. by rewrite H in G. }
  assert (Hnone : forall w', same w w' -> filled factoryURL http xz alloc c w w').
  { intros w1 E. unfold same in E. unfold filled. rewrite E. split; [by left|]. split; [by left|]. left. by split; [|left]. }
  unfold Ensure, lift. apply post_try, post_ret. destruct (validateComponent _ _); [|by split; [apply Hnone|]].
  apply post_try, post_ret. destruct (validateComponent _ _); [|by split; [apply Hnone|]].
  apply post_try, post_ret. unfold validateArchitecture. destruct (_ || _) eqn:Ea; [|by split; [apply Hnone|]].
  assert (Ha : Arch c = ArchitectureAMD64 \/ Arch c = ArchitectureARM64) by (apply orb_true_iff in Ea as [E|E]; apply bool_decide_eq_true in E; auto). clear Ea.
  apply post_bind. eapply post_conseq; [apply post_ready_file|]. intros w1 ready [E1 Hr]. destruct ready.
  { apply post_ret. split; [by apply Hnone|]. intros p [= <-]. split; [done|]. unfold same in E1. rewrite E1. auto. }
  apply post_try. eapply post_conseq; [apply post_mkdirAll|]. intros w2 r2 H2. cbv beta zeta in H2.
  assert (Hd : dirs_made [Schematic c; Version c; Arch c] w w2) by (unfold same in E1; intros q; specialize (H2 q); by rewrite E1 in H2).
  destruct r2; [|by split; [apply dirs_made_filled|]]. apply post_try. case_bool_decide as Harm; [|by apply post_ret, post_fill].
  eapply post_conseq; [apply (post_migrate fault (at_legacy c) (at_disk c) w2); discriminate|]. intros w3 r3 H3.
  pose proof (moved_filled factoryURL http xz alloc c Ha w w2 w3 r3 Harm Hd H3) as Hf. destruct H3 as (_ & _ & Ht & Hsame).
  destruct r3 as [b|]; [|by split]. destruct b; [apply post_ret; split; [done|]; intros p [= <-]; split; [done|]; by apply Ht|].
  apply post_fill; [done|]. intros q. rewrite (Hsame eq_refl). apply Hd.
Qed.

(** ** Small runs *)

(** A check of [tree] *)
Definition parent_ok (m : gmap path inode) (p : path) : bool :=
  match rev p with [] => true | _ :: q => match m !! rev q with Some Dir => true | _ => false end end.

Lemma tree_check m : forallb (fun kv => parent_ok m kv.1) (map_to_list m) = true -> tree m.
Proof.
  intros H p n x Hx. rewrite forallb_forall in H. specialize (H (p ++ [n], x)). rewrite <- list_elem_of_In, elem_of_map_to_list in H.
  specialize (H Hx). unfold parent_ok in H. cbn [fst] in H. rewrite rev_app_distr in H. cbn in H. rewrite rev_involutive in H.
  by destruct (m !! p) as [[]|].
Qed.

Definition quiet : nat -> bool := fun _ => false.
Definition demo_one : Combination := mkCombination "aa" "v1" "amd64".
Definition demo_two : Combination := mkCombination "bb" "v1" "arm64".

(** Two images; the first is pinned *)
Definition demo_fs : Fs := mkFs (list_to_map [
  ([], Dir); (["aa"], Dir); (["aa"; "v1"], Dir); (["aa"; "v1"; "amd64"], Dir);
  (at_disk demo_one, Reg "one" 4096); (["aa"; "v1"; "amd64"; pinMarkerName], Reg "" 0);
  (["aa"; "v1"; "amd64"; ".disk.raw-77"], Reg "o" 4096);
  (["bb"], Dir); (["bb"; "v1"], Dir); (["bb"; "v1"; "arm64"], Dir); (at_disk demo_two, Reg "two" 4096)]) 0.

Definition demo_cl : Classifier := mkClassifier [] None.

Lemma demo_tree : tree (nodes demo_fs).
Proof. apply tree_check. vm_compute. reflexivity. Qed.

Definition demo_prune : Fs * result cache_error CachePruneResult := PruneDiskExcept quiet false (Some (keep quiet demo_cl)) demo_fs.
Definition demo_result : CachePruneResult := mkPruneResult 1 3 1 [(demo_two, 3)] no_totals.

Lemma demo_prune_ok : demo_prune.2 = Ok demo_result.
Proof. vm_compute. reflexivity. Qed.

(** The pinned image stays. *)
Lemma prune_spares_kept_witness : nodes demo_prune.1 !! at_disk demo_one = Some (Reg "one" 4096).
Proof.
  destruct (prune_spares_kept quiet (Some (keep quiet demo_cl)) (wanted demo_cl (nodes demo_fs)) false demo_fs demo_prune.1 demo_prune.2
    demo_tree (classifier_keeper quiet demo_cl (nodes demo_fs)) (surjective_pairing demo_prune)) as (_ & _ & H).
  apply (H demo_one); [vm_compute; reflexivity| |vm_compute; reflexivity]. split; [by left|]. left. exists "disk.raw". split; [done|]. by left.
Defined.

(** The other goes. *)
Lemma prune_complete_witness : nodes demo_prune.1 !! at_disk demo_two = None.
Proof.
  destruct (prune_complete quiet (Some (keep quiet demo_cl)) (wanted demo_cl (nodes demo_fs)) false demo_fs demo_prune.1 demo_result
    demo_tree (classifier_keeper quiet demo_cl (nodes demo_fs))
    (eq_trans (surjective_pairing demo_prune) (f_equal (pair demo_prune.1) demo_prune_ok))) as (_ & _ & H & _).
  apply (H demo_two); [discriminate| |vm_compute; reflexivity]. split; [by right|]. left. exists "disk.raw". split; [done|]. by left.
Defined.

(** A default prune on a host whose default image is the second one *)
Definition demo_default : Combination := mkCombination "bb" Default "arm64".
Definition demo_fs2 : Fs := with_nodes (<[["bb"; Default] := Dir]> (<[["bb"; Default; "arm64"] := Dir]> (<[at_disk demo_default := Reg "def" 4096]> (nodes demo_fs)))) demo_fs.
Definition demo_daily : Fs * result cache_error CachePruneResult :=
  pruneCache quiet "" (Ok (mkClassifier [] (Some demo_default))) false (fun _ => false) demo_fs2.

Lemma prune_keeps_needed_images_witness : nodes demo_daily.1 !! at_disk demo_default = Some (Reg "def" 4096).
Proof.
  apply (prune_keeps_needed_images quiet (Some "bb") (Ok "arm64") [] (mkClassifier [] (Some demo_default)) false (fun _ => false) demo_fs2 demo_daily.1 demo_daily.2
    ltac:(apply tree_check; vm_compute; reflexivity) eq_refl (surjective_pairing demo_daily) demo_default).
  - split; [by right|]. left. exists "disk.raw". split; [done|]. by left.
  - vm_compute. reflexivity.
  - right. left. reflexivity.
Defined.

Definition demo_listing : list Entry := [mkEntry demo_one (at_disk demo_one) 3 4096 false; mkEntry demo_two (at_disk demo_two) 3 4096 false].

Lemma list_previews_prune_witness : exists b res, (demo_two, b) ∈ Images res /\ (PruneDisk quiet false demo_fs).2 = Ok res.
Proof.
  destruct (PruneDisk quiet false demo_fs) as [w' [res|e]] eqn:E; [|exfalso; revert E; vm_compute; discriminate].
  assert (EL : (List_ quiet demo_fs).2 = Ok demo_listing) by (vm_compute; reflexivity).
  destruct (proj1 (list_previews_prune quiet quiet false demo_fs demo_fs (List_ quiet demo_fs).1 w' demo_listing res demo_tree eq_refl
    (eq_trans (surjective_pairing _) (f_equal (pair _) EL)) E demo_two ltac:(discriminate))) as [b Hb].
  - eexists. split; [right; left|reflexivity].
  - exists b, res. by split.
Defined.

(** A first [Ensure] *)
Definition demo_factory (body : string) : string -> option response := fun url =>
  if bool_decide (url = "http://f/image/cc/v1/metal-amd64.raw.xz") then Some (mkResponse 200 "application/x-xz" body true) else None.
Definition demo_xz (d : string) : option string := if bool_decide (d = (xzMagic +:+ "good")%string) then Some "disk" else None.
Definition demo_three : Combination := mkCombination "cc" "v1" "amd64".
Definition demo_ensure (body : string) (w : Fs) : Fs * result cache_error path :=
  Ensure quiet "http://f//" (demo_factory body) demo_xz (fun _ => 4096) (fun n => itoa (Z.of_nat n)) (fun _ => "part") demo_three w.

Lemma ensure_atomic_witness :
  looks_regular (nodes (demo_ensure (xzMagic +:+ "good") demo_fs).1 !! at_disk demo_three) /\
  nodes (demo_ensure (xzMagic +:+ "good") demo_fs).1 !! at_disk demo_three = Some (Reg "disk" 4096).
Proof.
  assert (E : (demo_ensure (xzMagic +:+ "good") demo_fs).2 = Ok (at_disk demo_three)) by (vm_compute; reflexivity).
  split; [|vm_compute; reflexivity].
  apply (ensure_atomic quiet "http://f//" (demo_factory (xzMagic +:+ "good")) demo_xz (fun _ => 4096) (fun n => itoa (Z.of_nat n)) (fun _ => "part") demo_three demo_fs
    (demo_ensure (xzMagic +:+ "good") demo_fs).1 (Ok (at_disk demo_three)) (eq_trans (surjective_pairing _) (f_equal (pair _) E))). reflexivity.
Defined.

(** An archive that starts as an xz file and is not one stays in the cache: every later
    [Ensure] finds it there, never fetches it again, and fails the same way. *)
Theorem corrupt_archive_never_refetched :
  let w1 := (demo_ensure (xzMagic +:+ "truncated at the proxy") demo_fs).1 in
  (demo_ensure (xzMagic +:+ "truncated at the proxy") demo_fs).2 = Err DecompressFailed /\
  nodes w1 !! at_archive demo_three = Some (Reg (xzMagic +:+ "truncated at the proxy") 4096) /\
  (demo_ensure (xzMagic +:+ "good") w1).2 = Err DecompressFailed /\
  (demo_ensure (xzMagic +:+ "good") demo_fs).2 = Ok (at_disk demo_three).
Proof. vm_compute. done. Qed.
