(* ===== verification/MachineConfig.v ===== *)
(** * Machine configs ([internal/provision/reconcile.go], the rendered registry patch of
      [internal/manifests])

    A Talos machine config is YAML text.  Decoding and encoding belong to a library and
    are the operations of the class [Yaml], what the code relies on of them its laws; the
    config Talos generates is a parameter.  What talosbox changes in the text, and how it
    keeps the rest, is modelled on the decoded documents. *)

From stdpp Require Import base list gmap strings.
From Stdlib Require Import Ascii ZArith Lia.
From S2P Require Import Prelude GoStrings Cluster TalosVersion Utilities.

Local Open Scope Z_scope.

(** ** YAML values *)

(** [any] as the decoder fills it; [YOther] stands for the scalars nothing here reads. *)
#[warnings="-register-all"]
Inductive yaml :=
| YNull
| YBool (b : bool)
| YInt (z : Z)
| YString (s : string)
| YOther (s : string)
| YSeq (l : list yaml)
| YMap (m : gmap string yaml).

(** [map[string]any] *)
Abbreviation gomap := (gmap string yaml).

Inductive config_error :=
| DecodeError
| EncodeError
| MissingSection (name : string)
| NotAMapping (key : string)
| NilMap
| GenerateError
| NoControlPlane.

Definition line_feed : ascii := "010"%char.
Definition nl : string := String line_feed EmptyString.

(** The separator of two documents, as [bytes.Cut] is given it *)
Definition separator : string := (nl +:+ "---" +:+ nl)%string.

(** [bytes.Cut] *)
Fixpoint cut_string (sep s : string) : option (string * string) :=
  if has_prefix s sep then Some (EmptyString, drop_string (String.length sep) s)
  else match s with
       | EmptyString => None
       | String c s => match cut_string sep s with Some (a, b) => Some (String c a, b) | None => None end
       end.

(** The YAML library.  A document that is [null] or empty decodes to the nil map. *)
Class Yaml := {
  unmarshal : string -> option (option gomap);
  marshal : gomap -> option string
}.

(** What the code relies on: the encoder writes a mapping as one document, which ends in a
    line feed and holds no separator line, and the decoder reads it back, with or without
    that line feed. *)
Class YamlLaws `{Yaml} : Prop :=
  marshal_decodes : forall d s, marshal d = Some s ->
    exists t, s = (t +:+ nl)%string /\ cut_string separator s = None /\
    unmarshal t = Some (Some d) /\ unmarshal s = Some (Some d).

(** [value.(map[string]any)] *)
Definition section (v : option yaml) : option gomap := match v with Some (YMap m) => Some m | _ => None end.
Definition fields (v : option yaml) : gomap := default ∅ (section v).

(** A change inside the mapping under [key], which is created if there is none *)
Definition at_section (key : string) (f : gomap -> gomap) (d : gomap) : gomap := <[key := YMap (f (fields (d !! key)))]> d.

(** ** What talosbox owns in a node's config *)

Record ConfigTarget := mkTarget { Endpoint : string; ControlPlaneScheduling : bool; Workerless : bool }.
Record ConfigChanges := mkChanges { ch_Endpoint : bool; ch_Scheduling : bool }.

Definition no_changes : ConfigChanges := mkChanges false false.

Definition kubernetesEndpoint (ip : string) : string := ("https://" +:+ ip +:+ ":6443")%string.

Definition loadBalancerExclusionLabel : string := "node.kubernetes.io/exclude-from-external-load-balancers".

(** The document that is patched, and the documents after it *)
Definition documents (config : string) : string * option string :=
  match cut_string separator config with Some (first, rest) => (first, Some rest) | None => (config, None) end.

Definition rejoin (patched : string) (rest : option string) : string :=
  match rest with Some rest => (patched +:+ "---" +:+ nl +:+ rest)%string | None => patched end.

(** The current values *)
Definition endpoint_of (d : gomap) : string :=
  match fields (fields (d !! "cluster") !! "controlPlane") !! "endpoint" with Some (YString s) => s | _ => EmptyString end.
Definition schedulable_of (d : gomap) : bool :=
  match fields (d !! "cluster") !! "allowSchedulingOnControlPlanes" with Some (YBool b) => b | _ => false end.
Definition excluded_of (d : gomap) : bool :=
  bool_decide (is_Some (fields (fields (d !! "machine") !! "nodeLabels") !! loadBalancerExclusionLabel)).

Section Patches.
Context `{Yaml}.

Definition decode (config : string) : result config_error (option gomap) :=
  match unmarshal config with Some d => Ok d | None => Err DecodeError end.
Definition encode (d : gomap) : result config_error string :=
  match marshal d with Some s => Ok s | None => Err EncodeError end.

Definition require (name : string) (d : gomap) : result config_error gomap :=
  match section (d !! name) with Some m => Ok m | None => Err (MissingSection name) end.

(** [withControlPlaneEndpoint] *)
Definition set_endpoint (endpoint : string) (d : gomap) : gomap :=
  at_section "cluster" (at_section "controlPlane" (<["endpoint" := YString endpoint]>)) d.

Definition withControlPlaneEndpoint (config endpoint : string) : result config_error (string * bool) :=
  let '(first, rest) := documents config in
  document ← decode first;
  let d := default ∅ document in
  _ ← require "cluster" d;
  if bool_decide (endpoint_of d = endpoint) then Ok (config, false)
  else patched ← encode (set_endpoint endpoint d); Ok (rejoin patched rest, true).

(** [withControlPlaneScheduling] *)
Definition set_labels (workerless : bool) (machine : gomap) : gomap :=
  if workerless then
    match section (machine !! "nodeLabels") with
    | Some labels => <["nodeLabels" := YMap (delete loadBalancerExclusionLabel labels)]> machine
    | None => machine
    end
  else at_section "nodeLabels" (<[loadBalancerExclusionLabel := YString EmptyString]>) machine.

Definition set_scheduling (workerless : bool) (d : gomap) : gomap :=
  at_section "machine" (set_labels workerless)
    (at_section "cluster" (<["allowSchedulingOnControlPlanes" := YBool workerless]>) d).

Definition withControlPlaneScheduling (config : string) (workerless : bool) : result config_error (string * bool) :=
  let '(first, rest) := documents config in
  document ← decode first;
  let d := default ∅ document in
  _ ← require "machine" d;
  _ ← require "cluster" d;
  if bool_decide (schedulable_of d = workerless) && bool_decide (excluded_of d = negb workerless) then Ok (config, false)
  else patched ← encode (set_scheduling workerless d); Ok (rejoin patched rest, true).

Definition withConfigTarget (current : string) (target : ConfigTarget) : result config_error (string * ConfigChanges) :=
  e ← withControlPlaneEndpoint current (Endpoint target);
  if ControlPlaneScheduling target then
    s ← withControlPlaneScheduling e.1 (Workerless target); Ok (s.1, mkChanges e.2 s.2)
  else Ok (e.1, mkChanges e.2 false).

Definition withNodeHostname (config name : string) : result config_error string :=
  let '(first, rest) := documents config in
  document ← decode first;
  let d := default ∅ document in
  _ ← require "machine" d;
  patched ← encode (at_section "machine" (at_section "network" (<["hostname" := YString name]>)) d);
  Ok (rejoin patched rest).

(** ** Patches of a generated config *)

(** [mapping]: the section under [key], empty when there is none *)
Definition mapping (parent : gomap) (key : string) : result config_error gomap :=
  match parent !! key with
  | None => Ok ∅
  | Some (YMap m) => Ok m
  | Some _ => Err (NotAMapping key)
  end.

Definition setDefault (key : string) (value : yaml) (values : gomap) : gomap :=
  match values !! key with Some _ => values | None => <[key := value]> values end.

Definition reclaimMinFreeKiB (memoryMiB : Z) : Z :=
  let floorKiB := 16 * 1024 in
  let ceilingKiB := 256 * 1024 in
  if memoryMiB <=? Z.quot floorKiB 32 then floorKiB
  else if Z.quot ceilingKiB 32 <=? memoryMiB then ceilingKiB
  else memoryMiB * 32.

Definition kubeletMemoryProtectionMinMiB : Z := 2048.

Definition reclaim_sysctls (memoryMiB : Z) (sysctls : gomap) : gomap :=
  setDefault "vm.vfs_cache_pressure" (YString "50")
    (setDefault "vm.watermark_scale_factor" (YString "200")
      (setDefault "vm.min_free_kbytes" (YString (itoa (reclaimMinFreeKiB memoryMiB))) sysctls)).

Definition protect_kubelet (machineSection : gomap) : result config_error gomap :=
  kubelet ← mapping machineSection "kubelet";
  extraConfig ← mapping kubelet "extraConfig";
  evictionHard ← mapping extraConfig "evictionHard";
  let extraConfig := <["evictionHard" := YMap (setDefault "memory.available" (YString "300Mi") evictionHard)]> extraConfig in
  systemReserved ← mapping extraConfig "systemReserved";
  let extraConfig := <["systemReserved" := YMap (setDefault "memory" (YString "512Mi") systemReserved)]> extraConfig in
  Ok (<["kubelet" := YMap (<["extraConfig" := YMap extraConfig]> kubelet)]> machineSection).

(** Writing to the nil map, which an empty config decodes to, panics. *)
Definition withReclaimProtection (config : string) (memoryMiB : Z) (kubeletEnabled : bool) : result config_error string :=
  document ← decode config;
  d ← match document with Some d => Ok d | None => Err NilMap end;
  machineSection ← mapping d "machine";
  sysctls ← mapping machineSection "sysctls";
  let machineSection := <["sysctls" := YMap (reclaim_sysctls memoryMiB sysctls)]> machineSection in
  machineSection ← if kubeletEnabled && (kubeletMemoryProtectionMinMiB <=? memoryMiB) then protect_kubelet machineSection else Ok machineSection;
  encode (<["machine" := YMap machineSection]> d).

Definition withGVisorUserNamespaces (config : string) : result config_error string :=
  document ← decode config;
  let d := default ∅ document in
  _ ← require "machine" d;
  encode (at_section "machine" (at_section "sysctls" (<["user.max_user_namespaces" := YString "11255"]>)) d).

(** [manifests.Facts], as far as the machine config depends on it *)
Definition CatchAllPort : Z := 5059.
Definition hostIP (subnetIndex host : Z) : string := ("172.30." +:+ itoa subnetIndex +:+ "." +:+ itoa host)%string.
Definition quote : string := String "034"%char EmptyString.

Definition RegistryMirrors (subnetIndex : Z) : string :=
  ("machine:" +:+ nl +:+
   "  registries:" +:+ nl +:+
   "    mirrors:" +:+ nl +:+
   "      " +:+ quote +:+ "*" +:+ quote +:+ ":" +:+ nl +:+
   "        endpoints:" +:+ nl +:+
   "          - http://" +:+ hostIP subnetIndex 1 +:+ ":" +:+ itoa CatchAllPort +:+ nl +:+
   "        skipFallback: true" +:+ nl)%string.

Record KubeletExtraMount := mkMount { Destination : string; Type_ : string; Source : string; Options : list string }.

Definition LocalPathVolume : string := "/var/local-path-provisioner".
Definition longhornVolume : string := "/var/lib/longhorn".

Definition StoragePrerequisiteKubeletExtraMounts : list KubeletExtraMount :=
  (fun volume => mkMount volume "bind" volume ["bind"; "rshared"; "rw"]) <$> [LocalPathVolume; longhornVolume].

Definition extra_mounts : yaml :=
  YSeq ((fun mount => YMap (<["destination" := YString (Destination mount)]> (<["type" := YString (Type_ mount)]>
    (<["source" := YString (Source mount)]> {["options" := YSeq (YString <$> Options mount)]})))) <$> StoragePrerequisiteKubeletExtraMounts).

Definition applyProvisioningPrerequisites (config : string) (subnetIndex : Z) : result config_error string :=
  document ← decode config;
  let d := default ∅ document in
  _ ← require "machine" d;
  let d := at_section "machine" (at_section "kubelet" (<["extraMounts" := extra_mounts]>)) d in
  patch ← decode (RegistryMirrors subnetIndex);
  patchMachine ← require "machine" (default ∅ patch);
  registries ← require "registries" patchMachine;
  encode (at_section "machine" (<["registries" := YMap registries]>) d).

Definition disableKubeProxy (config : string) : result config_error string :=
  document ← decode config;
  let d := default ∅ document in
  _ ← require "cluster" d;
  encode (at_section "cluster" (<["proxy" := YMap {["disabled" := YBool true]}]>) d).

Definition catchAllMirrorDocument (subnetIndex : Z) : string :=
  ("apiVersion: v1alpha1" +:+ nl +:+
   "kind: RegistryMirrorConfig" +:+ nl +:+
   "name: " +:+ quote +:+ "*" +:+ quote +:+ nl +:+
   "endpoints:" +:+ nl +:+
   "  - url: http://172.30." +:+ itoa subnetIndex +:+ ".1:" +:+ itoa CatchAllPort +:+ nl +:+
   "skipFallback: true" +:+ nl)%string.

Definition addCatchAllMirror (config : string) (subnetIndex : Z) : string :=
  (config +:+ "---" +:+ nl +:+ catchAllMirrorDocument subnetIndex)%string.

Definition withoutLoadBalancerExclusion (config : string) : result config_error string :=
  document ← decode config;
  let d := default ∅ document in
  machineSection ← require "machine" d;
  match section (machineSection !! "nodeLabels") with
  | None => Ok config
  | Some labels =>
      encode (<["machine" := YMap (<["nodeLabels" := YMap (delete loadBalancerExclusionLabel labels)]> machineSection)]> d)
  end.

Definition machineCNIName (item : Cluster) : string := if String.eqb (CNI (c_Intent item)) CNIFlannel then CNIFlannel else "none".
Definition ciliumDisablesKubeProxy (item : Cluster) : bool := String.eqb (CNI (c_Intent item)) CNICilium.
Definition clusterHasWorkers (item : Cluster) : bool := existsb (fun n => String.eqb (n_Role n) RoleWorker) (c_Nodes item).

(** The patches of one role, in the order of [generateMachineConfigs] *)
Definition role_patches (item : Cluster) (role : Role) (config : string) : result config_error string :=
  config ← if ciliumDisablesKubeProxy item then disableKubeProxy config else Ok config;
  config ← applyProvisioningPrerequisites config (c_SubnetIndex item);
  config ← withReclaimProtection config (MemoryMiB (DefaultsFor item role)) (negb (DisableKubeletMemoryProtection (c_Intent item)));
  config ← if Extensions.Requested (default [] (c_TalosExtensions item)) Extensions.GVisor then withGVisorUserNamespaces config else Ok config;
  config ← if String.eqb role RoleControlPlane && negb (clusterHasWorkers item) then withoutLoadBalancerExclusion config else Ok config;
  Ok (addCatchAllMirror config (c_SubnetIndex item)).
End Patches.

(** ** Documents *)

(** A text without a separator line gains one only where it is appended. *)
Lemma cut_separator t rest : cut_string separator (t +:+ nl) = None -> cut_string separator (t +:+ separator +:+ rest) = Some (t, rest).
Proof.
  assert (Hunfold : forall s, cut_string separator s = if has_prefix s separator then Some (EmptyString, drop_string (String.length separator) s)
    else match s with EmptyString => None | String c s => match cut_string separator s with Some (a, b) => Some (String c a, b) | None => None end end).
  { by intros []. }
  induction t as [|c t IH]; intros Hn.
  - rewrite Hunfold. change (EmptyString +:+ separator +:+ rest)%string with (separator +:+ rest)%string.
    by rewrite has_prefix_app, drop_string_app.
  - rewrite Hunfold in Hn. destruct (has_prefix (String c t +:+ nl) separator) eqn:Hp; [done|]. change (String c t +:+ nl)%string with (String c (t +:+ nl)) in Hn.
    cbv iota in Hn. destruct (cut_string separator (t +:+ nl)) as [[]|]; [done|]. rewrite Hunfold.
    change (String c t +:+ separator +:+ rest)%string with (String c (t +:+ separator +:+ rest)). cbv iota. rewrite IH by done.
    destruct (has_prefix (String c (t +:+ separator +:+ rest)) separator) eqn:E; [exfalso|reflexivity]. apply has_prefix_spec in E as [u E]. injection E as -> E.
    do 3 (destruct t as [|? t]; [discriminate E|injection E as -> E]). destruct t as [|? t]; [by vm_compute in Hp|]. injection E as -> E.
    assert (has_prefix (separator +:+ (t +:+ nl)) separator = false) as Hno by exact Hp. by rewrite has_prefix_app in Hno.
Qed.

Section Documents.
Context `{YamlLaws}.

(** The patched text splits again into the encoded document and the rest. *)
Lemma documents_rejoin d s rest : marshal d = Some s -> exists first, documents (rejoin s rest) = (first, rest) /\ unmarshal first = Some (Some d).
Proof.
  intros Hs. destruct (marshal_decodes d s Hs) as (t & -> & Hcut & Ht & Hs'). unfold documents. destruct rest as [rest|]; cbn [rejoin].
  - rewrite string_app_assoc. change (nl +:+ "---" +:+ nl +:+ rest)%string with (separator +:+ rest)%string. rewrite cut_separator by done. eauto.
  - rewrite Hcut. eauto.
Qed.
End Documents.

(** ** Fields by path *)

Fixpoint lookup_path (d : gomap) (p : list string) : option yaml :=
  match p with
  | [] => Some (YMap d)
  | [k] => d !! k
  | k :: p => lookup_path (fields (d !! k)) p
  end.

(** Neither of two paths leads through the other. *)
Definition apart (p q : list string) : Prop := ~ p `prefix_of` q /\ ~ q `prefix_of` p.

Lemma apart_cons k p q : apart (k :: p) (k :: q) <-> apart p q.
Proof.
  unfold apart. split; intros [H1 H2]; (split; intros HH); try (by apply H1, prefix_cons); try (by apply H2, prefix_cons).
  - apply prefix_cons_inv_2 in HH. done.
  - apply prefix_cons_inv_2 in HH. done.
Qed.

Lemma apart_nil_r p : ~ apart p [].
Proof. intros [_ H]. apply H, prefix_nil. Qed.

Lemma lookup_path_cons d k p : p <> [] -> lookup_path d (k :: p) = lookup_path (fields (d !! k)) p.
Proof. by destruct p. Qed.

(** A change keeps the paths apart from [o]. *)
Definition keeps (o : list string) (f : gomap -> gomap) : Prop := forall d p, apart o p -> lookup_path (f d) p = lookup_path d p.

Lemma lookup_path_insert_ne k v d j p : j <> k -> lookup_path (<[k := v]> d) (j :: p) = lookup_path d (j :: p).
Proof. intros Hne. destruct p; simpl; by rewrite lookup_insert_ne. Qed.

Lemma keeps_insert k v : keeps [k] (<[k := v]>).
Proof.
  intros d [|j p] Ha; [by apply apart_nil_r in Ha|]. apply lookup_path_insert_ne. intros ->. apply (proj1 Ha). by apply prefix_cons, prefix_nil.
Qed.

Lemma keeps_section k o f : keeps o f -> keeps (k :: o) (at_section k f).
Proof.
  intros Hf d [|j p] Ha; [by apply apart_nil_r in Ha|]. unfold at_section. destruct (decide (j = k)) as [->|]; [|by apply lookup_path_insert_ne].
  apply apart_cons in Ha. destruct p as [|i p]; [by apply apart_nil_r in Ha|]. rewrite (lookup_path_cons d), (lookup_path_cons (<[k := _]> d)), lookup_insert_eq by done. apply (Hf (fields (d !! k))), Ha.
Qed.

(** Rules for the frame of a composed change *)
Create HintDb keeps.
#[export] Hint Resolve keeps_insert keeps_section : keeps.

(** The paths talosbox owns on a running node *)
Definition endpoint_path : list string := ["cluster"; "controlPlane"; "endpoint"].
Definition scheduling_path : list string := ["cluster"; "allowSchedulingOnControlPlanes"].
Definition exclusion_path : list string := ["machine"; "nodeLabels"; loadBalancerExclusionLabel].

Lemma fields_map m : fields (Some (YMap m)) = m.
Proof. done. Qed.

Lemma set_endpoint_reads e d : endpoint_of (set_endpoint e d) = e.
Proof. unfold endpoint_of, set_endpoint, at_section. by repeat (rewrite lookup_insert_eq || rewrite fields_map). Qed.

Lemma set_endpoint_keeps e : keeps endpoint_path (set_endpoint e).
Proof. apply keeps_section, keeps_section, keeps_insert. Qed.

(** Changes that keep a path agree on a reading of it. *)
Lemma set_scheduling_keeps w d p : apart scheduling_path p -> apart exclusion_path p -> lookup_path (set_scheduling w d) p = lookup_path d p.
Proof.
  intros H1 H2. unfold set_scheduling. assert (Hl : keeps ["nodeLabels"; loadBalancerExclusionLabel] (set_labels w)).
  { intros m q Hq. unfold set_labels. destruct w; [|apply (keeps_section "nodeLabels" [loadBalancerExclusionLabel]); [apply keeps_insert|done]].
    destruct (section (m !! "nodeLabels")) as [labels|] eqn:E; [|done].
    assert (Hd : keeps [loadBalancerExclusionLabel] (delete loadBalancerExclusionLabel)).
    { intros l [|j r] Hr; [by apply apart_nil_r in Hr|]. assert (loadBalancerExclusionLabel <> j) by (intros <-; apply (proj1 Hr); by apply prefix_cons, prefix_nil).
      destruct r; cbn [lookup_path]; by rewrite lookup_delete_ne. }
    pose proof (keeps_section "nodeLabels" _ _ Hd m q Hq) as G. unfold at_section, fields in G. by rewrite E in G. }
  rewrite (keeps_section "machine" _ _ Hl) by done. by apply (keeps_section "cluster" ["allowSchedulingOnControlPlanes"]); [apply keeps_insert|].
Qed.

Lemma set_scheduling_reads w d : schedulable_of (set_scheduling w d) = w /\ excluded_of (set_scheduling w d) = negb w.
Proof.
  unfold schedulable_of, excluded_of, set_scheduling, at_section.
  rewrite lookup_insert_eq, lookup_insert_ne, lookup_insert_eq, !fields_map, lookup_insert_eq by done. split; [done|].
  rewrite lookup_insert_ne by done. unfold set_labels. destruct w; [|unfold at_section; rewrite lookup_insert_eq, fields_map, lookup_insert_eq; by apply bool_decide_eq_true].
  apply bool_decide_eq_false. intros [x Hx]. destruct (section (fields (d !! "machine") !! "nodeLabels")) as [l|] eqn:E.
  - rewrite lookup_insert_eq, fields_map, lookup_delete_eq in Hx. done.
  - unfold fields at 1 in Hx. rewrite E in Hx. simpl in Hx. by rewrite lookup_empty in Hx.
Qed.

Lemma set_scheduling_endpoint w d : endpoint_of (set_scheduling w d) = endpoint_of d.
Proof.
  unfold endpoint_of, set_scheduling, at_section. rewrite lookup_insert_ne, lookup_insert_eq, fields_map, lookup_insert_ne by done. done.
Qed.

(** ** Repairs converge *)

Section Converge.
Context `{YamlLaws}.

Definition first_document (config : string) : option gomap := default ∅ <$> unmarshal (documents config).1.

Definition has_section (name : string) (d : gomap) : bool := bool_decide (is_Some (section (d !! name))).

Lemma require_spec name d : require name d = if has_section name d then Ok (fields (d !! name)) else Err (MissingSection name).
Proof. unfold require, has_section, fields. by destruct (section (d !! name)). Qed.

(** What a patch that reports drift makes of a config: [Some d'] the new first document *)
Definition patched_to (config : string) (d' : option gomap) (r : string * bool) : Prop :=
  match d' with
  | None => r = (config, false)
  | Some d' => r.2 = true /\ first_document r.1 = Some d' /\ (documents r.1).2 = (documents config).2
  end.

Lemma reencoded config d s : marshal d = Some s -> first_document (rejoin s (documents config).2) = Some d /\
  (documents (rejoin s (documents config).2)).2 = (documents config).2.
Proof. intros Hs. destruct (documents_rejoin d s (documents config).2 Hs) as (first & E & Hu). unfold first_document. rewrite E. cbn. by rewrite Hu. Qed.

Lemma endpoint_spec config e r : withControlPlaneEndpoint config e = Ok r ->
  exists d, first_document config = Some d /\ has_section "cluster" d = true /\
  patched_to config (if bool_decide (endpoint_of d = e) then None else Some (set_endpoint e d)) r.
Proof.
  unfold withControlPlaneEndpoint, first_document. pose proof (reencoded config) as Hre. destruct (documents config) as [first rest] eqn:Ed. cbn [fst snd] in *.
  unfold decode. destruct (unmarshal first) as [d|]; [|done]. cbn. rewrite require_spec. destruct (has_section "cluster" (default ∅ d)) eqn:Es; [|done]. cbn.
  intros Hr. exists (default ∅ d). split; [done|]. split; [done|]. revert Hr. case_bool_decide; cbn; [by intros [= <-]|].
  unfold encode. destruct (marshal _) as [s|] eqn:Em; [|done]. intros [= <-]. split; [done|]. rewrite Ed. by apply Hre.
Qed.

Lemma endpoint_settled config d : first_document config = Some d -> has_section "cluster" d = true ->
  withControlPlaneEndpoint config (endpoint_of d) = Ok (config, false).
Proof.
  unfold withControlPlaneEndpoint, first_document. destruct (documents config) as [first rest]. cbn [fst]. unfold decode.
  destruct (unmarshal first) as [o|]; [|done]. intros [= <-] Hs. cbn. rewrite require_spec, Hs. cbn. by rewrite bool_decide_eq_true_2.
Qed.

Lemma scheduling_spec config w r : withControlPlaneScheduling config w = Ok r ->
  exists d, first_document config = Some d /\ has_section "machine" d = true /\ has_section "cluster" d = true /\
  patched_to config (if bool_decide (schedulable_of d = w) && bool_decide (excluded_of d = negb w) then None else Some (set_scheduling w d)) r.
Proof.
  unfold withControlPlaneScheduling, first_document. pose proof (reencoded config) as Hre. destruct (documents config) as [first rest] eqn:Ed. cbn [fst snd] in *.
  unfold decode. destruct (unmarshal first) as [d|]; [|done]. cbn. rewrite !require_spec. destruct (has_section "machine" (default ∅ d)) eqn:Em; [|done].
  cbn. destruct (has_section "cluster" (default ∅ d)) eqn:Es; [|done]. cbn.
  intros Hr. exists (default ∅ d). split_and!; [done..|]. revert Hr. destruct (bool_decide _ && _); cbn; [by intros [= <-]|].
  unfold encode. destruct (marshal _) as [s|] eqn:Ems; [|done]. intros [= <-]. split; [done|]. rewrite Ed. by apply Hre.
Qed.

Lemma scheduling_settled config d : first_document config = Some d -> has_section "machine" d = true -> has_section "cluster" d = true ->
  excluded_of d = negb (schedulable_of d) -> withControlPlaneScheduling config (schedulable_of d) = Ok (config, false).
Proof.
  unfold withControlPlaneScheduling, first_document. destruct (documents config) as [first rest]. cbn [fst]. unfold decode.
  destruct (unmarshal first) as [o|]; [|done]. intros [= <-] Hm Hs Hx. cbn. rewrite !require_spec, Hm, Hs. cbn. by rewrite Hx, !bool_decide_eq_true_2.
Qed.

Lemma has_section_set k f d name : has_section name d = true -> has_section name (at_section k f d) = true.
Proof.
  unfold has_section, at_section. intros Hs. destruct (decide (name = k)) as [->|]; [|by rewrite lookup_insert_ne].
  rewrite lookup_insert_eq. by apply bool_decide_eq_true.
Qed.

(** One repaired field after the other, on the first document *)
Definition repaired (target : ConfigTarget) (d : gomap) : gomap :=
  let d := if bool_decide (endpoint_of d = Endpoint target) then d else set_endpoint (Endpoint target) d in
  if ControlPlaneScheduling target && negb (bool_decide (schedulable_of d = Workerless target) && bool_decide (excluded_of d = negb (Workerless target)))
  then set_scheduling (Workerless target) d else d.

Lemma target_spec current target patched ch : withConfigTarget current target = Ok (patched, ch) ->
  exists d, first_document current = Some d /\ first_document patched = Some (repaired target d) /\
  (documents patched).2 = (documents current).2 /\ (ch = no_changes -> patched = current) /\
  has_section "cluster" (repaired target d) = true /\ (ControlPlaneScheduling target = true -> has_section "machine" (repaired target d) = true).
Proof.
  unfold withConfigTarget, repaired. destruct (withControlPlaneEndpoint current (Endpoint target)) as [[p1 c1]|] eqn:E1; [|done]. cbn.
  destruct (endpoint_spec _ _ _ E1) as (d & Hd & Hc & Hp). set (d1 := if bool_decide (endpoint_of d = Endpoint target) then d else set_endpoint (Endpoint target) d).
  assert (H1 : first_document p1 = Some d1 /\ (documents p1).2 = (documents current).2 /\ (c1 = false -> p1 = current) /\ has_section "cluster" d1 = true).
  { unfold d1. destruct (bool_decide _); cbn in Hp; [injection Hp as -> ->; done|]. destruct Hp as (-> & -> & ->). split_and!; [done..|]. by apply has_section_set. }
  destruct H1 as (Hd1 & Hr1 & Hn1 & Hc1). destruct (ControlPlaneScheduling target); cbn [andb].
  - destruct (withControlPlaneScheduling p1 (Workerless target)) as [[p2 c2]|] eqn:E2; [|done]. cbn. intros [= <- <-].
    destruct (scheduling_spec _ _ _ E2) as (d' & Hd' & Hm & Hc' & Hp2). rewrite Hd1 in Hd'. injection Hd' as <-. exists d. fold d1. split; [done|].
    destruct (bool_decide (schedulable_of d1 = _) && _); cbn in Hp2 |- *; [injection Hp2 as -> ->|destruct Hp2 as (-> & -> & Hr2)].
    + split_and!; [done..| |done|done]. intros [= ->]. auto.
    + rewrite Hr2. split_and!; [done..| | |]; [done|by repeat apply has_section_set|intros _; by repeat apply has_section_set].
  - intros [= <- <-]. exists d. fold d1. split_and!; [done..| |done|done]. intros [= ->]. auto.
Qed.
End Converge.

(** A config that needs no repair names the endpoint. *)
Lemma config_target_endpoint `{YamlLaws} current target patched changes : withConfigTarget current target = Ok (patched, changes) ->
  exists d, first_document patched = Some d /\ endpoint_of d = Endpoint target.
Proof.
  intros Hw. destruct (target_spec _ _ _ _ Hw) as (d & _ & Hd' & _). exists (repaired target d). split; [done|]. unfold repaired.
  destruct (bool_decide (endpoint_of d = _)) eqn:E; [apply bool_decide_eq_true in E|]; destruct (_ && _); rewrite ?set_scheduling_endpoint; [done..| |]; apply set_endpoint_reads.
Qed.


(** ** A codec that satisfies the laws *)

Module Codec.

Fixpoint ysize (y : yaml) : nat :=
  match y with
  | YSeq l => S (sum_list_with ysize l)
  | YMap m => S (map_fold (fun _ v n => (ysize v + n)%nat) O m)
  | _ => 1%nat
  end.

Lemma ysize_map m k v : m !! k = Some v -> (ysize v < ysize (YMap m))%nat.
Proof.
  intros Hk. cbn [ysize]. rewrite (map_fold_delete_L (fun _ v n => (ysize v + n)%nat) O k v m) by (done || lia). lia.
Qed.

Lemma ysize_seq l y : y ∈ l -> (ysize y < ysize (YSeq l))%nat.
Proof. intros Hy. cbn [ysize]. apply (sum_list_with_in y ysize) in Hy. lia. Qed.

Lemma yaml_nested_ind (P : yaml -> Prop) :
  P YNull -> (forall b, P (YBool b)) -> (forall z, P (YInt z)) -> (forall s, P (YString s)) -> (forall s, P (YOther s)) ->
  (forall l, (forall y, y ∈ l -> P y) -> P (YSeq l)) -> (forall m, (forall k v, m !! k = Some v -> P v) -> P (YMap m)) -> forall y, P y.
Proof.
  intros H1 H2 H3 H4 H5 H6 H7 y. remember (ysize y) as n eqn:E. revert y E. induction (lt_wf n) as [n _ IH]. intros y ->.
  destruct y; try done; [apply H6; intros y Hy|apply H7; intros k y Hy]; eapply IH; try done; [by apply ysize_seq|by eapply ysize_map].
Qed.

Fixpoint to_tree (y : yaml) : gen_tree (string + Z) :=
  match y with
  | YNull => GenNode 0 []
  | YBool b => GenNode (if b then 1 else 2) []
  | YInt z => GenLeaf (inr z)
  | YString s => GenLeaf (inl s)
  | YOther s => GenNode 3 [GenLeaf (inl s)]
  | YSeq l => GenNode 4 (to_tree <$> l)
  | YMap m => GenNode 5 (map_fold (fun k v acc => GenLeaf (inl k) :: to_tree v :: acc) [] m)
  end.

Fixpoint of_tree (t : gen_tree (string + Z)) : yaml :=
  match t with
  | GenLeaf (inl s) => YString s
  | GenLeaf (inr z) => YInt z
  | GenNode 1 _ => YBool true
  | GenNode 2 _ => YBool false
  | GenNode 3 (GenLeaf (inl s) :: _) => YOther s
  | GenNode 4 l => YSeq (of_tree <$> l)
  | GenNode 5 l => YMap ((fix pairs (l : list (gen_tree (string + Z))) : gomap :=
      match l with GenLeaf (inl k) :: t :: l => <[k := of_tree t]> (pairs l) | _ => ∅ end) l)
  | _ => YNull
  end.

Lemma of_to_tree y : of_tree (to_tree y) = y.
Proof.
  induction y as [|[]| | | |l IH|m IH] using yaml_nested_ind; try done.
  - cbn. f_equal. induction l as [|y l IHl]; [done|]. cbn. f_equal; [apply IH; left|]. apply IHl. intros z Hz. apply IH. by right.
  - cbn. f_equal. revert IH. apply (map_fold_weak_ind (fun r m => (forall k v, m !! k = Some v -> of_tree (to_tree v) = v) -> _ r = m)); [done|].
    intros k v m' r Hk IHm Hv. cbn. rewrite (Hv k v) by (by rewrite lookup_insert_eq). f_equal. apply IHm. intros k' v' Hk'.
    apply (Hv k'). rewrite lookup_insert_ne; [done|]. intros ->. congruence.
Qed.

Fixpoint bits (p : positive) : string :=
  match p with xH => EmptyString | xO p => String "0" (bits p) | xI p => String "1" (bits p) end.
Fixpoint unbits (s : string) : positive :=
  match s with
  | String "0" s => xO (unbits s)
  | String "1" s => xI (unbits s)
  | _ => xH
  end.

Lemma unbits_bits p : unbits (bits p) = p /\ unbits (bits p +:+ nl) = p.
Proof. induction p as [p [IH1 IH2]|p [IH1 IH2]|]; [..|done]; cbn; rewrite IH1; (split; [done|]); cbn in IH2; by rewrite <- IH2 at 2. Qed.

Lemma cut_other c s : c <> line_feed -> cut_string separator s = None -> cut_string separator (String c s) = None.
Proof.
  intros Hc Hs. cbn [cut_string]. rewrite Hs. destruct (has_prefix (String c s) separator) eqn:E; [|done].
  apply has_prefix_spec in E as [u E]. injection E. congruence.
Qed.

Lemma bits_one_document p : cut_string separator (bits p +:+ nl) = None.
Proof. induction p as [p IH|p IH|]; [apply (cut_other "1")|apply (cut_other "0")|]; done. Qed.

Definition write (d : gomap) : string := bits (countable.encode (to_tree (YMap d))).

(** The one other text the code decodes: the registry patch *)
Definition mirrors_document : gomap := {["machine" := YMap {["registries" := YMap {["mirrors" := YNull]}]}]}.
Definition read (s : string) : option (option gomap) :=
  if has_prefix s "machine:" then Some (Some mirrors_document)
  else match of_tree <$> countable.decode (unbits s) with Some (YMap m) => Some (Some m) | _ => None end.

Lemma read_write d : read (write d) = Some (Some d) /\ read (write d +:+ nl) = Some (Some d).
Proof.
  assert (Hp : forall p t, (t = EmptyString \/ t = nl) -> has_prefix (bits p +:+ t) "machine:" = false) by (intros [] t [-> | ->]; done).
  unfold read, write. rewrite Hp by auto. specialize (Hp (countable.encode (to_tree (YMap d))) EmptyString (or_introl eq_refl)).
  rewrite string_app_nil_r in Hp. rewrite Hp. clear Hp. destruct (unbits_bits (countable.encode (to_tree (YMap d)))) as [-> ->]. rewrite decode_encode.
  cbn [fmap option_fmap option_map]. by rewrite of_to_tree.
Qed.

#[export] Instance demo_yaml : Yaml := {| unmarshal := read; marshal d := Some (write d +:+ nl)%string |}.

#[export] Instance demo_laws : YamlLaws.
Proof.
  intros d s [= <-]. exists (write d). destruct (read_write d). split; [done|]. split; [apply bits_one_document|]. by split.
Qed.
End Codec.

(** ** Generated configs *)

(** What [generate.NewInput] is given *)
Record GenInput := mkGenInput {
  gi_name : string;
  gi_endpoint : string;
  gi_version : string;
  gi_endpoints : list string;
  gi_cni : string;
  gi_schedulable : bool
}.

(** Talos: the secrets of a cluster and the config it generates for a role *)
Class Talos := {
  Bundle : Type;
  input_Config : Bundle -> GenInput -> Role -> option string
}.

(** What the code relies on: a generated config has its two sections and the endpoint it
    was generated for; a control plane's allows scheduling as asked for and carries the
    label that keeps it out of LoadBalancer announcements. *)
Class TalosLaws `{Yaml, Talos} : Prop :=
  generated_ok : forall b g role s, input_Config b g role = Some s ->
    exists d, unmarshal s = Some (Some d) /\ has_section "machine" d = true /\ has_section "cluster" d = true /\
    endpoint_of d = gi_endpoint g /\
    (role = RoleControlPlane -> schedulable_of d = gi_schedulable g /\ excluded_of d = true).

(** [clusterControlPlane]: the first control plane with an address, and the addresses *)
Definition controlPlanes (item : Cluster) : list Node := List.filter (fun n => String.eqb (n_Role n) RoleControlPlane) (c_Nodes item).
Definition clusterControlPlane (item : Cluster) : option Node * list string :=
  (List.find (fun n => negb (String.eqb (n_IP n) EmptyString)) (controlPlanes item), n_IP <$> controlPlanes item).

Section Generate.
Context `{Yaml, Talos}.

Definition gen_input (item : Cluster) (controlPlane : Node) : GenInput :=
  mkGenInput (c_Name item) (kubernetesEndpoint (n_IP controlPlane))
    (if String.eqb (c_TalosVersion item) EmptyString then Default else c_TalosVersion item)
    (clusterControlPlane item).2 (machineCNIName item) (negb (clusterHasWorkers item)).

(** The config of one role, in [generateMachineConfigs] *)
Definition role_config (b : Bundle) (item : Cluster) (role : Role) : result config_error string :=
  match (clusterControlPlane item).1 with
  | None => Err NoControlPlane
  | Some controlPlane =>
      match input_Config b (gen_input item controlPlane) role with
      | None => Err GenerateError
      | Some config => role_patches item role config
      end
  end.
End Generate.

Ltac read_tac :=
  unfold at_section; repeat (rewrite lookup_insert_eq || rewrite fields_map || rewrite lookup_insert_ne by done).

(** Two documents agree on what talosbox reads of a running node's config. *)
Definition agree (d d' : gomap) : Prop :=
  has_section "machine" d' = has_section "machine" d /\ has_section "cluster" d' = has_section "cluster" d /\
  endpoint_of d' = endpoint_of d /\ schedulable_of d' = schedulable_of d /\ excluded_of d' = excluded_of d.

#[global] Instance agree_preorder : PreOrder agree.
Proof. unfold agree. split; [by intros d|]. intros d1 d2 d3 ??. intuition congruence. Qed.

(** Changes of the machine section that leave the labels alone, and of the cluster
    section that leave endpoint and scheduling alone *)
Lemma agree_machine f d : has_section "machine" d = true -> (forall m, f m !! "nodeLabels" = m !! "nodeLabels") -> agree d (at_section "machine" f d).
Proof.
  intros Hm Hf. unfold agree, has_section, endpoint_of, schedulable_of, excluded_of in *. read_tac. rewrite Hf. by split_and!.
Qed.

Lemma agree_cluster f d : has_section "cluster" d = true ->
  (forall m, f m !! "controlPlane" = m !! "controlPlane" /\ f m !! "allowSchedulingOnControlPlanes" = m !! "allowSchedulingOnControlPlanes") ->
  agree d (at_section "cluster" f d).
Proof.
  intros Hc Hf. unfold agree, has_section, endpoint_of, schedulable_of, excluded_of in *. read_tac. destruct (Hf (fields (d !! "cluster"))) as [-> ->]. by split_and!.
Qed.

Lemma mapping_fields parent key m : mapping parent key = Ok m -> m = fields (parent !! key).
Proof. unfold mapping, fields. destruct (parent !! key) as [[]|]; cbn; congruence. Qed.

Section Generated.
Context `{YamlLaws}.

(** The text is the encoding of a document that agrees with [d]. *)
Definition derived (d : gomap) (config : string) : Prop := exists d', marshal d' = Some config /\ agree d d'.

Lemma encode_ok d s : encode d = Ok s -> marshal d = Some s.
Proof. unfold encode. destruct (marshal d); [|done]. by intros [= <-]. Qed.

Lemma encode_derived d d' s : agree d d' -> encode d' = Ok s -> derived d s.
Proof. intros Ha Hs. apply encode_ok in Hs. by exists d'. Qed.

Lemma require_ok name d m : require name d = Ok m -> has_section name d = true.
Proof. rewrite require_spec. by destruct (has_section name d). Qed.

(** A text that decodes to a document with both sections, which agrees with [d] *)
Definition holds (d : gomap) (config : string) : Prop := exists d', unmarshal config = Some (Some d') /\ agree d d'.

Lemma derived_holds d config : derived d config -> holds d config.
Proof. intros (d' & Hm & Ha). destruct (marshal_decodes _ _ Hm) as (t & -> & _ & _ & Hu). by exists d'. Qed.

Lemma disableKubeProxy_derived d config s : holds d config -> disableKubeProxy config = Ok s -> derived d s.
Proof.
  intros (d' & Hu & Ha). unfold disableKubeProxy, decode. rewrite Hu. cbn. destruct (require "cluster" d') eqn:Er; [|done]. cbn. apply encode_derived.
  etrans; [exact Ha|]. apply agree_cluster; [by eapply require_ok|]. intros m. by rewrite !lookup_insert_ne.
Qed.

Lemma prerequisites_derived d config subnet s : holds d config -> applyProvisioningPrerequisites config subnet = Ok s -> derived d s.
Proof.
  intros (d' & Hu & Ha). unfold applyProvisioningPrerequisites, decode. rewrite Hu. cbn. destruct (require "machine" d') eqn:Er; [|done]. cbn.
  destruct (unmarshal (RegistryMirrors subnet)) as [patch|]; [|done]. cbn. destruct (require "machine" (default ∅ patch)) as [pm|]; [|done]. cbn.
  destruct (require "registries" pm) as [reg|]; [|done]. cbn. apply require_ok in Er. apply encode_derived. etrans; [exact Ha|].
  etrans; [apply (agree_machine (at_section "kubelet" (<["extraMounts" := extra_mounts]>)))|apply agree_machine]; [done| |by apply has_section_set|];
    intros m; read_tac; done.
Qed.

Lemma protect_labels m m' : protect_kubelet m = Ok m' -> m' !! "nodeLabels" = m !! "nodeLabels".
Proof.
  unfold protect_kubelet. repeat (match goal with |- context [mapping ?p ?k] => destruct (mapping p k); [|done]; cbn end). intros [= <-]. by read_tac.
Qed.

Lemma reclaim_derived d config mem on s : has_section "machine" d = true -> holds d config -> withReclaimProtection config mem on = Ok s -> derived d s.
Proof.
  intros Hm (d' & Hu & Ha). unfold withReclaimProtection, decode. rewrite Hu. cbn. destruct (mapping d' "machine") as [m|] eqn:Em; [|done]. cbn.
  destruct (mapping m "sysctls") as [sys|]; [|done]. cbn. apply mapping_fields in Em. subst m.
  assert (Hm' : has_section "machine" d' = true) by (destruct Ha as [-> _]; done). set (m1 := <["sysctls" := _]> (fields (d' !! "machine"))).
  assert (H1 : m1 !! "nodeLabels" = fields (d' !! "machine") !! "nodeLabels") by (unfold m1; by read_tac).
  assert (Hgo : forall m2, m2 !! "nodeLabels" = fields (d' !! "machine") !! "nodeLabels" -> encode (<["machine" := YMap m2]> d') = Ok s -> derived d s).
  { intros m2 H2. apply encode_derived. etrans; [exact Ha|]. unfold agree, has_section, endpoint_of, schedulable_of, excluded_of in *. read_tac. rewrite H2. by split_and!. }
  destruct (on && _); [destruct (protect_kubelet m1) as [m2|] eqn:Ep; [|done]|]; cbn; apply Hgo; [|done]. by rewrite (protect_labels _ _ Ep).
Qed.

Lemma gvisor_derived d config s : holds d config -> withGVisorUserNamespaces config = Ok s -> derived d s.
Proof.
  intros (d' & Hu & Ha). unfold withGVisorUserNamespaces, decode. rewrite Hu. cbn. destruct (require "machine" d') eqn:Er; [|done]. cbn. apply encode_derived.
  etrans; [exact Ha|]. apply agree_machine; [by eapply require_ok|]. intros m. by read_tac.
Qed.

(** Without the exclusion label, and otherwise in agreement *)
Lemma exclusion_derived d config s : derived d config -> withoutLoadBalancerExclusion config = Ok s ->
  exists d', marshal d' = Some s /\ has_section "machine" d' = true /\ has_section "cluster" d' = has_section "cluster" d /\
  endpoint_of d' = endpoint_of d /\ schedulable_of d' = schedulable_of d /\ excluded_of d' = false.
Proof.
  intros (d' & Hs & Ha). destruct (marshal_decodes _ _ Hs) as (t & Et & _ & _ & Hu). unfold withoutLoadBalancerExclusion, decode. rewrite Hu. cbn.
  rewrite require_spec. destruct (has_section "machine" d') eqn:Em; [|done]. cbn. destruct (section _) as [labels|] eqn:El.
  - intros Ems%encode_ok. eexists. split; [exact Ems|].
    destruct Ha as (Ha1 & Ha2 & Ha3 & Ha4 & Ha5). unfold has_section, endpoint_of, schedulable_of, excluded_of in *. read_tac. split_and!; try done.
    rewrite lookup_delete_eq. done.
  - intros [= <-]. exists d'. destruct Ha as (Ha1 & Ha2 & Ha3 & Ha4 & Ha5). split_and!; try done.
    apply bool_decide_eq_false. unfold fields at 1. rewrite El. cbn. rewrite lookup_empty. by intros [? [=]].
Qed.

Lemma role_patches_spec item role config d r : unmarshal config = Some (Some d) -> has_section "machine" d = true ->
  role_patches item role config = Ok r ->
  exists d' s, marshal d' = Some s /\ r = rejoin s (Some (catchAllMirrorDocument (c_SubnetIndex item))) /\
  has_section "machine" d' = true /\ has_section "cluster" d' = has_section "cluster" d /\
  endpoint_of d' = endpoint_of d /\ schedulable_of d' = schedulable_of d /\
  excluded_of d' = (if String.eqb role RoleControlPlane && negb (clusterHasWorkers item) then false else excluded_of d).
Proof.
  intros Hu Hm. unfold role_patches. assert (Hh : holds d config) by (exists d; done).
  destruct (if ciliumDisablesKubeProxy item then _ else _) as [c1|] eqn:E1; [|done]. cbn.
  assert (H1 : holds d c1) by (destruct (ciliumDisablesKubeProxy item); [by eapply derived_holds, disableKubeProxy_derived|by injection E1 as <-]).
  destruct (applyProvisioningPrerequisites c1 _) as [c2|] eqn:E2; [|done]. cbn. apply (prerequisites_derived d) in E2; [|done].
  destruct (withReclaimProtection c2 _ _) as [c3|] eqn:E3; [|done]. cbn. apply (reclaim_derived d) in E3; [|done|by apply derived_holds].
  destruct (if Extensions.Requested _ _ then _ else _) as [c4|] eqn:E4; [|done]. cbn.
  assert (H4 : derived d c4) by (destruct (Extensions.Requested _ _); [eapply gvisor_derived; [by apply derived_holds|done]|by injection E4 as <-]).
  destruct (String.eqb role RoleControlPlane && negb (clusterHasWorkers item)).
  - destruct (withoutLoadBalancerExclusion c4) as [c5|] eqn:E5; [|done]. cbn. intros [= <-]. destruct (exclusion_derived d c4 c5 H4 E5) as (d' & ? & ? & ? & ? & ? & ?).
    by exists d', c5.
  - cbn. intros [= <-]. destruct H4 as (d' & ? & Ha1 & Ha2 & Ha3 & Ha4 & Ha5). exists d', c4. split_and!; try done. by rewrite Ha1.
Qed.

Lemma hostname_spec d s rest name r : marshal d = Some s -> withNodeHostname (rejoin s rest) name = Ok r ->
  exists s', marshal (at_section "machine" (at_section "network" (<["hostname" := YString name]>)) d) = Some s' /\ r = rejoin s' rest.
Proof.
  intros Hs. unfold withNodeHostname. destruct (documents_rejoin d s rest Hs) as (first & -> & Hu). unfold decode. rewrite Hu. cbn.
  destruct (require "machine" d) eqn:Er; [|done]. cbn. destruct (encode _) as [s'|] eqn:Ee; [|done]. cbn. intros [= <-]. apply encode_ok in Ee. by exists s'.
Qed.
End Generated.

(** Generation and repair agree.  The config a node in maintenance is given carries its
    name and the catch-all registry mirror, and needs no repair afterwards: the endpoint
    and the scheduling posture that are enforced on running nodes are the ones generated,
    so a freshly configured node is never patched, whatever its role and with or without
    workers in the cluster. *)
Theorem fresh_config_needs_no_repair `{YamlLaws, Talos, !TalosLaws} b item controlPlane role name config applied :
  (clusterControlPlane item).1 = Some controlPlane ->
  role_config b item role = Ok config -> withNodeHostname config name = Ok applied ->
  withConfigTarget applied (mkTarget (kubernetesEndpoint (n_IP controlPlane)) (String.eqb role RoleControlPlane) (negb (clusterHasWorkers item))) = Ok (applied, no_changes) /\
  (documents applied).2 = Some (catchAllMirrorDocument (c_SubnetIndex item)) /\
  exists d, first_document applied = Some d /\ lookup_path d ["machine"; "network"; "hostname"] = Some (YString name).
Proof.
  intros Hcp Hr Hn. unfold role_config in Hr. rewrite Hcp in Hr. destruct (input_Config b _ role) as [base|] eqn:Eg; [|done].
  destruct (generated_ok _ _ _ _ Eg) as (d0 & Hu & Hm & Hc & He & Hsched). destruct (role_patches_spec item role base d0 config Hu Hm Hr) as (d & s & Hs & -> & Hm1 & Hc1 & He1 & Hs1 & Hx1).
  destruct (hostname_spec d s _ name applied Hs Hn) as (s' & Hs' & ->). set (d2 := at_section "machine" _ d) in *.
  destruct (documents_rejoin d2 s' (Some (catchAllMirrorDocument (c_SubnetIndex item))) Hs') as (first & Ed & Hu2).
  assert (Hf : first_document (rejoin s' (Some (catchAllMirrorDocument (c_SubnetIndex item)))) = Some d2) by (unfold first_document; rewrite Ed; cbn; by rewrite Hu2).
  assert (Ha : agree d d2) by (apply agree_machine; [done|]; intros m; by read_tac). destruct Ha as (Ha1 & Ha2 & Ha3 & Ha4 & Ha5).
  assert (Ee : endpoint_of d2 = kubernetesEndpoint (n_IP controlPlane)) by (rewrite Ha3, He1, He; done).
  split_and!; [|by rewrite Ed|exists d2; split; [done|]; unfold d2; cbn [lookup_path]; by read_tac].
  unfold withConfigTarget. cbn [Endpoint ControlPlaneScheduling Workerless]. rewrite <- Ee, (endpoint_settled _ d2) by (done || congruence). cbn [mbind result_bind fst snd].
  destruct (String.eqb_spec role RoleControlPlane) as [Er|]; [|done]. destruct (Hsched Er) as [Hsc Hex].
  assert (Es : schedulable_of d2 = negb (clusterHasWorkers item)) by (rewrite Ha4, Hs1, Hsc; done).
  rewrite <- Es, (scheduling_settled _ d2); [done|done|congruence|congruence|]. rewrite Es, Ha5, Hx1. cbn [andb]. by destruct (clusterHasWorkers item).
Qed.

(** ** A cluster's configs *)

(** A generator that satisfies the laws *)
Module Generator.
Import Codec.

Definition demo_document (endpoint : string) (schedulable : bool) : gomap :=
  {["machine" := YMap {["nodeLabels" := YMap {[loadBalancerExclusionLabel := YString EmptyString]}]};
    "cluster" := YMap {["controlPlane" := YMap {["endpoint" := YString endpoint]}; "allowSchedulingOnControlPlanes" := YBool schedulable]}]}.

#[export] Instance demo_talos : Talos := {|
  Bundle := unit;
  input_Config _ g _ := marshal (demo_document (gi_endpoint g) (gi_schedulable g))
|}.

#[export] Instance demo_talos_laws : TalosLaws.
Proof.
  intros b g role s Hs. destruct (marshal_decodes _ _ Hs) as (t & -> & _ & _ & Hu). eexists. split; [exact Hu|].
  unfold demo_document, has_section, endpoint_of, schedulable_of, excluded_of.
  repeat (rewrite lookup_insert_eq || rewrite fields_map || rewrite lookup_singleton_eq || rewrite lookup_insert_ne by done). clear Hs Hu. by split_and!.
Qed.
End Generator.

Section Witnesses.
Import Codec Generator.

Definition demo_config (role : Role) (name : string) : string :=
  match role_config (tt : Bundle) demo_cluster role with
  | Ok config => match withNodeHostname config name with Ok applied => applied | Err _ => EmptyString end
  | Err _ => EmptyString
  end.
Definition demo_target : ConfigTarget := mkTarget (kubernetesEndpoint "172.30.7.99") true true.
Definition demo_patched : string * ConfigChanges := match withConfigTarget (demo_config RoleControlPlane "dev-cp-1") demo_target with Ok r => r | Err _ => (EmptyString, no_changes) end.


Definition demo_cp : Node := match (clusterControlPlane demo_cluster).1 with Some n => n | None => mkNode "" "" "" "" end.
Definition demo_base : string := match role_config (tt : Bundle) demo_cluster RoleControlPlane with Ok config => config | Err _ => EmptyString end.

Lemma demo_fresh_config : n_IP demo_cp = "172.30.7.2" /\
  withConfigTarget (demo_config RoleControlPlane "dev-cp-1")
    (mkTarget (kubernetesEndpoint (n_IP demo_cp)) (String.eqb RoleControlPlane RoleControlPlane) (negb (clusterHasWorkers demo_cluster)))
  = Ok (demo_config RoleControlPlane "dev-cp-1", no_changes).
Proof.
  split; [vm_compute; reflexivity|].
  assert (H1 : (clusterControlPlane demo_cluster).1 = Some demo_cp) by (vm_compute; reflexivity).
  assert (H2 : role_config (tt : Bundle) demo_cluster RoleControlPlane = Ok demo_base) by (vm_compute; reflexivity).
  assert (H3 : withNodeHostname demo_base "dev-cp-1" = Ok (demo_config RoleControlPlane "dev-cp-1")) by (vm_compute; reflexivity).
  exact (proj1 (fresh_config_needs_no_repair (tt : Bundle) demo_cluster demo_cp RoleControlPlane "dev-cp-1" demo_base _ H1 H2 H3)).
Defined.
End Witnesses.
