(* ===== verification/Provision.v ===== *)
(** * Provisioning ([internal/provision]: reconcile.go, gate.go)

    One provisioning pass brings a cluster's nodes from maintenance to a ready Kubernetes:
    it follows observations, polls until the context is over, and drives the Talos API,
    the host's BGP speaker and the Kubernetes reconcilers.  Those are parameters that
    answer by the number of the call; the world keeps the secrets file and the log of the
    calls, so that what was called, when, and with which arguments can be stated. *)

From stdpp Require Import base list gmap strings.
From Stdlib Require Import Ascii ZArith Lia.
From S2P Require Import Prelude GoStrings Cluster TalosVersion Utilities Effects MachineConfig.

Local Open Scope Z_scope.
Local Open Scope effect_scope.

(** ** Nodes as observed *)

Definition Phase := string.
Definition PhaseMaintenance : Phase := "maintenance".
Definition PhaseConfigured : Phase := "configured".

Record PNode := mkPNode { pn_Name : string; pn_Role : Role; pn_IP : string; pn_Phase : Phase }.

#[global] Instance PNode_eq_dec : EqDecision PNode.
Proof. solve_decision. Defined.

Definition no_ip (n : PNode) : bool := String.eqb (pn_IP n) EmptyString.

(** The lease of each node, the last observation of a name winning *)
Definition observed_ips (nodes : list PNode) : gmap string string :=
  foldl (fun m n => if no_ip n then m else <[pn_Name n := pn_IP n]> m) ∅ nodes.

Definition clusterWithObservedAddresses (item : Cluster) (nodes : list PNode) : Cluster :=
  with_nodes ((fun n => match observed_ips nodes !! n_Name n with
                        | Some ip => mkNode (n_Name n) (n_Role n) (n_MAC n) ip
                        | None => n
                        end) <$> c_Nodes item) item.

Definition leased (nodes : list PNode) : gmap string bool :=
  foldl (fun m n => <[pn_Name n := negb (no_ip n)]> m) ∅ nodes.

Definition unleasedControlPlanes (item : Cluster) (nodes : list PNode) : list string :=
  n_Name <$> List.filter (fun n => negb (default false (leased nodes !! n_Name n))) (controlPlanes item).

Definition unconfiguredNodes (nodes : list PNode) : list string :=
  (fun n => pn_Name n +:+ " (" +:+ pn_Phase n +:+ ")")%string <$> List.filter (fun n => negb (String.eqb (pn_Phase n) PhaseConfigured)) nodes.

Definition all_configured (nodes : list PNode) : bool := forallb (fun n => String.eqb (pn_Phase n) PhaseConfigured) nodes.

(** [configuredControlPlane] *)
Definition configuredControlPlane (nodes : list PNode) : option PNode :=
  if all_configured nodes then List.find (fun n => String.eqb (pn_Role n) RoleControlPlane && negb (no_ip n)) nodes else None.

Definition nodeNames (nodes : list PNode) : list string := pn_Name <$> nodes.

Definition roleConfigName (role : Role) : string := if String.eqb role RoleControlPlane then "controlplane" else "worker".

(** ** Narrated patches *)

Definition controlPlaneEndpointPatch (endpoint : string) : string :=
  let q := quote in
  ("{" +:+ q +:+ "cluster" +:+ q +:+ ":{" +:+ q +:+ "controlPlane" +:+ q +:+ ":{" +:+ q +:+ "endpoint" +:+ q +:+ ":" +:+ q +:+ endpoint +:+ q +:+ "}}}")%string.

Definition controlPlaneSchedulingPatch (workerless : bool) : string :=
  let q := quote in
  let exclusion := if workerless then ("{" +:+ q +:+ "$patch" +:+ q +:+ ":" +:+ q +:+ "delete" +:+ q +:+ "}")%string else (q +:+ q)%string in
  ("{" +:+ q +:+ "cluster" +:+ q +:+ ":{" +:+ q +:+ "allowSchedulingOnControlPlanes" +:+ q +:+ ":" +:+ (if workerless then "true" else "false") +:+
   "}," +:+ q +:+ "machine" +:+ q +:+ ":{" +:+ q +:+ "nodeLabels" +:+ q +:+ ":{" +:+ q +:+ loadBalancerExclusionLabel +:+ q +:+ ":" +:+ exclusion +:+ "}}}")%string.

Definition Patches (changes : ConfigChanges) (target : ConfigTarget) : list string :=
  (if ch_Endpoint changes then [controlPlaneEndpointPatch (Endpoint target)] else []) ++
  (if ch_Scheduling changes then [controlPlaneSchedulingPatch (Workerless target)] else []).

(** ** Calls *)

Inductive Gate := GateDHCPLease | GateMachineConfig | GateAPIServer | GateKubernetesReady.

(** An error of the Talos API: its status code and text *)
Inductive Code := Unavailable | DeadlineExceeded | Canceled | AlreadyExists | OtherCode.
Record rpc_error := mkRpc { rpc_code : Code; rpc_text : string }.

Definition transient (e : rpc_error) : bool := match rpc_code e with Unavailable | DeadlineExceeded | Canceled => true | _ => false end.

Definition contains (s sub : string) : bool := bool_decide (is_Some (cut_string sub s)).

Definition alreadyBootstrapped (e : rpc_error) : bool :=
  match rpc_code e with AlreadyExists => true | _ => contains (to_lower (rpc_text e)) "already bootstrapped" end.

(** One thing a pass asks of the outside.  An application carries the config as it was
    computed. *)
Inductive Step :=
| SApply (ip : string) (config : result config_error string)
| SPatch (ip : string) (target : ConfigTarget)
| SBootstrap (ip : string)
| SKubeconfig (ip : string)
| SWriteKubeconfig
| SIngressPKI
| SHostBGP
| SCilium
| SDisableBGP
| SReady (names : list string)
| SFlannelLB
| SStorage.

Inductive Entry := Observed (nodes : list PNode) | Called (s : Step) (succeeded : bool).

Inductive prov_error :=
| NoClient
| GenerateFailed (e : config_error)
| IOFailed
| ObserveFailed
| NoNodes
| LeaseTimeout (names : list string)
| UnknownRole (name : string)
| HostnameFailed (name : string) (e : config_error)
| ApplyFailed (name : string)
| Expired
| Unreachable (ip : string) (last : rpc_error)
| Permanent (ip : string) (e : rpc_error)
| PKIFailed
| MissingReconciler
| BGPFailed
| CiliumFailed
| DisableFailed
| FlannelFailed
| StorageStage (missing : bool)
| OutOfFuel.

(** [errors.Is(err, ErrStorageStage)] *)
Definition is_storage_stage (e : prov_error) : bool := match e with StorageStage _ => true | _ => false end.

Inductive StoragePhase := StoragePhaseNone | StoragePhaseProvisioning | StoragePhaseLive.

Record LoadBalancerResult := mkLB { lb_VIP : string; lb_Narration : list string }.
Record StorageResult := mkStorage { st_Phase : StoragePhase; st_Live : bool; st_Narration : list string; st_Warnings : list string }.

Record Result_ := mkResult {
  r_VIP : string;
  r_StoragePhase : StoragePhase;
  r_StorageLive : bool;
  r_Narration : list string;
  r_Warnings : list string
}.

(** The request: which of the optional reconcilers are there *)
Record Request := mkRequest {
  rq_Cluster : Cluster;
  rq_Client : bool;
  rq_LoadBalancer : bool;
  rq_Storage : bool;
  rq_BGP : bool;
  rq_Disabler : bool;
  rq_SkipStorage : bool
}.

Section Run.
Context `{Yaml, Talos}.

Record World := mkWorld { w_tick : nat; w_secrets : option Bundle; w_log : list Entry; w_gates : list Gate }.

Abbreviation M := (State World).
Abbreviation R A := (State World (result prov_error A)).

(** What the outside answers to the call of a number *)
Context (expired : nat -> bool) (fault : nat -> bool) (fresh : nat -> Bundle)
  (observe : nat -> option (list PNode))
  (talos_Apply : nat -> bool)
  (talos_ReconcileMachineConfig : nat -> string -> ConfigTarget -> result rpc_error ConfigChanges)
  (talos_Bootstrap : nat -> option rpc_error)
  (talos_Kubeconfig : nat -> result rpc_error string)
  (talos_KubernetesReady : nat -> bool)
  (pki_ok bgp_ok disable_ok : nat -> bool)
  (lb_Reconcile : nat -> option LoadBalancerResult)
  (storage_Reconcile : nat -> option StorageResult)
  (dir : string).

Definition now : M nat := fun w => (mkWorld (S (w_tick w)) (w_secrets w) (w_log w) (w_gates w), w_tick w).
Definition record (e : Entry) : M unit := modify (fun w => mkWorld (w_tick w) (w_secrets w) (w_log w ++ [e]) (w_gates w)).
Definition reportGate (g : Gate) : M unit := modify (fun w => mkWorld (w_tick w) (w_secrets w) (w_log w) (w_gates w ++ [g])).

(** A call, with its entry in the log *)
Definition ask {A} (s : Step) (answer : nat -> A) (good : A -> bool) : M A :=
  t ← now; _ ← record (Called s (good (answer t))); mret (answer t).

Definition io : R unit := t ← now; if fault t then fail IOFailed else ok tt.

(** [wait]: the poll interval is never zero here. *)
Definition wait : R unit := t ← now; if expired t then fail Expired else ok tt.

Fixpoint retryUnavailable {A} (fuel : nat) (gate : Gate) (node : string) (call : State World (result rpc_error A)) : R A :=
  match fuel with
  | O => fail OutOfFuel
  | S fuel =>
      r ← call;
      match r with
      | Ok value => ok value
      | Err e =>
          if transient e then
            _ ← reportGate gate;
            over ← wait;
            match over with Ok _ => retryUnavailable fuel gate node call | Err _ => fail (Unreachable node e) end
          else fail (Permanent node e)
      end
  end.

Definition kubeconfigWithRetry (fuel : nat) (node : string) : R string :=
  retryUnavailable fuel GateAPIServer node (ask (SKubeconfig node) talos_Kubeconfig (fun r => is_ok r)).

Definition machineConfigWithRetry (fuel : nat) (node : string) (target : ConfigTarget) : R ConfigChanges :=
  retryUnavailable fuel GateMachineConfig node (ask (SPatch node target) (fun t => talos_ReconcileMachineConfig t node target) (fun r => is_ok r)).

Definition bootstrap_answer (t : nat) : result rpc_error unit :=
  match talos_Bootstrap t with
  | Some e => if alreadyBootstrapped e then Ok tt else Err e
  | None => Ok tt
  end.

Definition bootstrapWithRetry (fuel : nat) (node : string) : R unit :=
  retryUnavailable fuel GateAPIServer node (ask (SBootstrap node) bootstrap_answer (fun r => is_ok r)).

(** ** Generation *)

(** The configs by role *)
Record generated := mkGenerated { g_controlPlane : string; g_worker : string }.

Definition config_for (g : generated) (role : Role) : option string :=
  if String.eqb role RoleControlPlane then Some (g_controlPlane g)
  else if String.eqb role RoleWorker then Some (g_worker g) else None.

Definition loadOrCreateSecrets : R Bundle :=
  t ← now; w ← get;
  if fault t then fail IOFailed
  else match w_secrets w with
       | Some b => ok b
       | None => _ ← modify (fun w => mkWorld (w_tick w) (Some (fresh t)) (w_log w) (w_gates w)); ok (fresh t)
       end.

Definition generateMachineConfigs (item : Cluster) : R generated :=
  _ ←! io;
  bundle ←! loadOrCreateSecrets;
  match role_config bundle item RoleControlPlane, role_config bundle item RoleWorker with
  | Ok controlPlane, Ok worker => _ ←! io; ok (mkGenerated controlPlane worker)
  | Err e, _ | _, Err e => fail (GenerateFailed e)
  end.

Definition talosconfigPath : string := (dir +:+ "/talosconfig")%string.
Definition kubeconfigPath : string := (dir +:+ "/kubeconfig")%string.

(** ** A pass *)

Definition result0 : Result_ := mkResult EmptyString StoragePhaseNone false [] [].
Definition narrate (lines : list string) (r : Result_) : Result_ :=
  mkResult (r_VIP r) (r_StoragePhase r) (r_StorageLive r) (r_Narration r ++ lines) (r_Warnings r).

Definition applied_line (node : PNode) : string :=
  ("machine config: ≈ talosctl apply-config --insecure --nodes " +:+ pn_IP node +:+ " --file " +:+ roleConfigName (pn_Role node) +:+ ".yaml")%string.

(** The loop over the nodes in maintenance: the lines narrated *)
Definition apply_node (g : generated) (node : PNode) : R (list string) :=
  if negb (String.eqb (pn_Phase node) PhaseMaintenance) then ok []
  else match config_for g (pn_Role node) with
       | None => fail (UnknownRole (pn_Name node))
       | Some config =>
           match withNodeHostname config (pn_Name node) with
           | Err e => fail (HostnameFailed (pn_Name node) e)
           | Ok config =>
               sent ← ask (SApply (pn_IP node) (Ok config)) talos_Apply id;
               if sent : bool then ok [applied_line node] else fail (ApplyFailed (pn_Name node))
           end
       end.

Definition target_for (request : Request) (controlPlane node : PNode) : ConfigTarget :=
  mkTarget (kubernetesEndpoint (pn_IP controlPlane)) (String.eqb (pn_Role node) RoleControlPlane) (negb (clusterHasWorkers (rq_Cluster request))).

Definition patch_node (fuel : nat) (request : Request) (controlPlane node : PNode) : R (list string) :=
  let target := target_for request controlPlane node in
  changes ←! machineConfigWithRetry fuel (pn_IP node) target;
  ok ((fun patch => "machine config: ≈ talosctl patch mc --mode auto --talosconfig " +:+ Shellquote.Quote talosconfigPath +:+ " --nodes " +:+ pn_IP node +:+
        " --endpoints " +:+ pn_IP node +:+ " --patch " +:+ Shellquote.Quote patch)%string <$> Patches changes target).

(** A reconciler of Kubernetes objects that answers with a result or fails *)
Definition reconciler {A} (s : Step) (answer : nat -> option A) (e : prov_error) : R A :=
  r ← ask s answer (fun r => bool_decide (is_Some r)); match r with Some a => ok a | None => fail e end.

Definition step (s : Step) (answer : nat -> bool) (e : prov_error) : R unit :=
  r ← ask s answer id; if r : bool then ok tt else fail e.

Definition name_of (request : Request) : string := c_Name (rq_Cluster request).
Definition intent_of (request : Request) : ProvisioningIntent := c_Intent (rq_Cluster request).

(** Cilium is the CNI: nodes are not ready before its chart is applied. *)
Definition cilium_stage (request : Request) (r : Result_) : R Result_ :=
  let intent := intent_of request in
  if negb (String.eqb (CNI intent) CNICilium) then ok r
  else
    _ ←! (if LB intent then step SIngressPKI pki_ok PKIFailed else ok tt);
    if negb (rq_LoadBalancer request) then fail MissingReconciler
    else
      r ←! (if BGP intent then
              if negb (rq_BGP request) then fail MissingReconciler
              else _ ←! step SHostBGP bgp_ok BGPFailed; ok (narrate [("host BGP: ≈ tbx bgp enable " +:+ name_of request)%string] r)
            else ok r);
      lb ←! reconciler SCilium lb_Reconcile CiliumFailed;
      r ←! (if LB intent && negb (BGP intent) && rq_BGP request && rq_Disabler request then
              _ ←! step SDisableBGP disable_ok DisableFailed; ok (narrate [("host BGP: ≈ tbx bgp disable " +:+ name_of request)%string] r)
            else ok r);
      ok (mkResult (lb_VIP lb) (r_StoragePhase r) (r_StorageLive r) (r_Narration r ++ lb_Narration lb) (r_Warnings r)).

Fixpoint await_ready (fuel : nat) (names : list string) : R unit :=
  match fuel with
  | O => fail OutOfFuel
  | S fuel =>
      ready ← ask (SReady names) talos_KubernetesReady id;
      if ready : bool then ok tt
      else _ ← reportGate GateKubernetesReady; _ ←! wait; await_ready fuel names
  end.

Definition flannel_stage (request : Request) (r : Result_) : R Result_ :=
  if negb (String.eqb (CNI (intent_of request)) CNIFlannel && LB (intent_of request)) then ok r
  else if negb (rq_LoadBalancer request) then fail MissingReconciler
  else
    lb ←! reconciler SFlannelLB lb_Reconcile FlannelFailed;
    ok (mkResult (lb_VIP lb) (r_StoragePhase r) (r_StorageLive r) (r_Narration r ++ lb_Narration lb) (r_Warnings r)).

Definition storage_stage (request : Request) (r : Result_) : R Result_ :=
  if String.eqb (CSI (intent_of request)) EmptyString || rq_SkipStorage request then ok r
  else if negb (rq_Storage request) then fail (StorageStage true)
  else
    st ←! reconciler SStorage storage_Reconcile (StorageStage false);
    ok (mkResult (r_VIP r) (st_Phase st) (st_Live st) (r_Narration r ++ st_Narration st) (r_Warnings r ++ st_Warnings st)).

Definition bootstrap_line (ip : string) : string :=
  ("bootstrap: ≈ talosctl bootstrap --talosconfig " +:+ Shellquote.Quote talosconfigPath +:+ " --nodes " +:+ ip +:+ " --endpoints " +:+ ip)%string.

Definition credential_lines (ip : string) : list string :=
  [("credentials: ≈ talosctl kubeconfig " +:+ Shellquote.Quote kubeconfigPath +:+ " --talosconfig " +:+ Shellquote.Quote talosconfigPath +:+
    " --nodes " +:+ ip +:+ " --endpoints " +:+ ip)%string;
   ("export TALOSCONFIG=" +:+ Shellquote.Quote talosconfigPath)%string;
   ("export KUBECONFIG=" +:+ Shellquote.Quote kubeconfigPath)%string].

(** The rest of the pass once every node is configured *)
Definition converge (fuel : nat) (request : Request) (nodes : list PNode) (controlPlane : PNode) (r : Result_) : R Result_ :=
  patches ←! gather_try nodes (patch_node fuel request controlPlane);
  _ ←! bootstrapWithRetry fuel (pn_IP controlPlane);
  _ ←! kubeconfigWithRetry fuel (pn_IP controlPlane);
  _ ←! step SWriteKubeconfig (fun t => negb (fault t)) IOFailed;
  r ←! cilium_stage request (narrate (patches ++ [bootstrap_line (pn_IP controlPlane)]) r);
  _ ←! await_ready fuel (nodeNames nodes);
  r ←! flannel_stage request (narrate (credential_lines (pn_IP controlPlane)) r);
  storage_stage request r.

(** One turn of the loop: another turn, with the configs and the addresses they were
    generated for, or the end *)
Inductive turn := Again (g : generated) (generatedFor : string) (r : Result_) | Finished (r : Result_).

Definition endpoint_key (item : Cluster) : string := join "," (clusterControlPlane item).2.

Definition pass (fuel : nat) (request : Request) (g : generated) (generatedFor : string) (r : Result_) : R turn :=
  t ← now;
  match observe t with
  | None => fail ObserveFailed
  | Some nodes =>
      _ ← record (Observed nodes);
      if bool_decide (nodes = []) then fail NoNodes
      else
        let unleased := unleasedControlPlanes (rq_Cluster request) nodes in
        if bool_decide (unleased <> []) then
          _ ← reportGate GateDHCPLease;
          over ← wait;
          match over with Err _ => fail (LeaseTimeout unleased) | Ok _ => ok (Again g generatedFor r) end
        else
          let observedCluster := clusterWithObservedAddresses (rq_Cluster request) nodes in
          g' ←! (if String.eqb (endpoint_key observedCluster) generatedFor then ok g
                 else g' ←! generateMachineConfigs observedCluster; _ ←! io; ok g');
          lines ←! gather_try nodes (apply_node g');
          if bool_decide (lines <> []) then _ ←! wait; ok (Again g' (endpoint_key observedCluster) (narrate lines r))
          else match configuredControlPlane nodes with
               | None => _ ← reportGate GateMachineConfig; _ ←! wait; ok (Again g' (endpoint_key observedCluster) r)
               | Some controlPlane => r ←! converge fuel request nodes controlPlane r; ok (Finished r)
               end
  end.

Fixpoint turns (fuel budget : nat) (request : Request) (g : generated) (generatedFor : string) (r : Result_) : R Result_ :=
  match fuel with
  | O => fail OutOfFuel
  | S fuel =>
      next ←! pass budget request g generatedFor r;
      match next with
      | Again g generatedFor r => turns fuel budget request g generatedFor r
      | Finished r => ok r
      end
  end.

Definition Reconcile (fuel : nat) (request : Request) : R Result_ :=
  let cni := CNI (intent_of request) in
  if negb (String.eqb cni CNIFlannel) && negb (String.eqb cni CNICilium) then ok result0
  else if negb (rq_Client request) then fail NoClient
  else
    g ←! generateMachineConfigs (rq_Cluster request);
    _ ←! io;
    turns fuel fuel request g (endpoint_key (rq_Cluster request)) result0.
End Run.

(** ** Polling ends with the context *)

#[global] Instance config_error_eq_dec : EqDecision config_error.
Proof. solve_decision. Defined.
#[global] Instance config_result_eq_dec : EqDecision (result config_error string).
Proof. solve_decision. Defined.
#[global] Instance ConfigTarget_eq_dec : EqDecision ConfigTarget.
Proof. solve_decision. Defined.
#[global] Instance Step_eq_dec : EqDecision Step.
Proof. solve_decision. Defined.

Section Ends.
Context `{Yaml, Talos}.
Context (expired fault : nat -> bool) (fresh : nat -> Bundle) (observe : nat -> option (list PNode)) (talos_Apply : nat -> bool)
  (talos_ReconcileMachineConfig : nat -> string -> ConfigTarget -> result rpc_error ConfigChanges)
  (talos_Bootstrap : nat -> option rpc_error) (talos_Kubeconfig : nat -> result rpc_error string) (talos_KubernetesReady : nat -> bool)
  (pki_ok bgp_ok disable_ok : nat -> bool) (lb_Reconcile : nat -> option LoadBalancerResult) (storage_Reconcile : nat -> option StorageResult) (dir : string).
Context (deadline : nat) (over : forall t, (deadline <= t)%nat -> expired t = true).

(** Time passes, and the fuel was enough. *)
Definition ends {A} (m : State World (result prov_error A)) : Prop :=
  forall w, runs w m (fun w' r => (w_tick w <= w_tick w')%nat /\ r <> Err OutOfFuel).

Definition later (w w' : World) : Prop := (w_tick w <= w_tick w')%nat.

#[local] Instance later_preorder : PreOrder later.
Proof. split; unfold later; [by intros w|]. intros w1 w2 w3. lia. Qed.

Lemma ends_try {A B} (m : State World (result prov_error A)) (k : A -> State World (result prov_error B)) :
  ends m -> (forall a, ends (k a)) -> ends (try_bind m k).
Proof.
  intros Hm Hk w. apply post_try. eapply post_conseq; [apply Hm|]. intros w1 [a|e] [H1 H2]; [|by split; [|congruence]].
  eapply post_conseq; [apply Hk|]. intros w2 r [H3 H4]. split; [lia|done].
Qed.

Lemma ends_bind {A B} (m : State World A) (k : A -> State World (result prov_error B)) : stays later m -> (forall a, ends (k a)) -> ends (m ≫= k).
Proof.
  intros Hm Hk w. apply post_bind. eapply post_conseq; [apply Hm|]. intros w1 a H1. eapply post_conseq; [apply Hk|]. unfold later in H1.
  intros w2 r [H3 H4]. split; [lia|done].
Qed.

Lemma ends_ok {A} (a : A) : ends (ok a).
Proof. intros w. by apply post_ret. Qed.

Lemma ends_fail {A} e : e <> OutOfFuel -> ends (fail e : State World (result prov_error A)).
Proof. intros He w. apply post_ret. split; [done|]. congruence. Qed.

Lemma ends_gather {A B} (l : list A) (body : A -> State World (result prov_error (list B))) : (forall x, ends (body x)) -> ends (gather_try l body).
Proof.
  intros Hb. induction l as [|x l IH]; [apply ends_ok|]. cbn [gather_try]. apply ends_try; [apply Hb|]. intros b. apply ends_try; [apply IH|]. intros c. apply ends_ok.
Qed.

Lemma later_now : stays later now.
Proof. intros w. unfold later, runs. cbn. lia. Qed.
Lemma later_record e : stays later (record e).
Proof. intros w. apply post_modify. unfold later. cbn. lia. Qed.
Lemma later_gate g : stays later (reportGate g).
Proof. intros w. apply post_modify. unfold later. cbn. lia. Qed.

Create HintDb ends.
#[local] Hint Resolve ends_ok ends_gather later_now later_record later_gate : ends.
#[local] Hint Extern 1 (ends (fail _)) => apply ends_fail; congruence : ends.

Lemma later_ask {A} s (answer : nat -> A) good : stays later (ask s answer good).
Proof.
  unfold ask. apply stays_bind; [apply later_preorder|apply later_now|intros t]. apply stays_bind; [apply later_preorder|apply later_record|intros u].
  apply stays_ret, later_preorder.
Qed.

#[local] Hint Resolve later_ask : ends.

(** Walk down a program. *)
Ltac ends_step :=
  match goal with
  | |- ends (try_bind _ _) => apply ends_try; [|intros ?]
  | |- ends (mbind _ _) => apply ends_bind; [|intros ?]
  | |- ends (match ?x with _ => _ end) => destruct x
  | |- stays later get => apply stays_get, later_preorder
  | |- stays later (modify _) => intros ?; apply post_modify; unfold later; cbn; lia
  | |- _ => solve [eauto with ends]
  end.
Ltac ends_tac := repeat ends_step.

Lemma ends_io : ends (io fault).
Proof. unfold io. ends_tac. Qed.

Lemma ends_step_call s answer e : e <> OutOfFuel -> ends (step s answer e).
Proof. intros. unfold step. ends_tac. Qed.

Lemma ends_reconciler {A} s (answer : nat -> option A) e : e <> OutOfFuel -> ends (reconciler s answer e).
Proof. intros. unfold reconciler. ends_tac. Qed.

#[local] Hint Resolve ends_io : ends.
#[local] Hint Extern 1 (ends (step _ _ _)) => apply ends_step_call; congruence : ends.
#[local] Hint Extern 1 (ends (reconciler _ _ _)) => apply ends_reconciler; congruence : ends.

(** [wait] succeeds only before the deadline. *)
Lemma post_wait w : runs w (wait expired) (fun w' r => w_tick w' = S (w_tick w) /\ r <> Err OutOfFuel /\ (is_ok r = true -> (w_tick w < deadline)%nat)).
Proof.
  unfold wait. apply post_bind. unfold now, runs. cbn. destruct (expired (w_tick w)) eqn:E; cbn; split_and!; try done; try lia.
  intros _. destruct (decide (deadline <= w_tick w)%nat) as [Hd|]; [|lia]. by rewrite over in E.
Qed.

Lemma ends_wait : ends (wait expired).
Proof. intros w. eapply post_conseq; [apply post_wait|]. intros w' r (E & Hr & _). split; [lia|done]. Qed.

(** A loop that waits between its turns has fuel left when it starts with enough. *)
Definition enough (fuel : nat) (w : World) : Prop := (1 <= fuel)%nat /\ (deadline < fuel + w_tick w)%nat.

Lemma enough_next fuel w w1 w2 : enough (S fuel) w -> (w_tick w <= w_tick w1)%nat -> w_tick w2 = S (w_tick w1) -> (w_tick w1 < deadline)%nat -> enough fuel w2.
Proof. unfold enough. lia. Qed.

Lemma ends_retry {A} fuel gate node (call : State World (result rpc_error A)) w : stays later call -> enough fuel w ->
  runs w (retryUnavailable expired fuel gate node call) (fun w' r => (w_tick w <= w_tick w')%nat /\ r <> Err OutOfFuel).
Proof.
  intros Hc. revert w. induction fuel as [|fuel IH]; intros w Hf; [destruct Hf; lia|]. cbn [retryUnavailable]. apply post_bind.
  eapply post_conseq; [apply Hc|]. intros w1 [a|e] H1; unfold later in H1; [by apply post_ret|]. destruct (transient e); [|by apply post_ret].
  apply post_bind, post_modify, post_bind. eapply post_conseq; [apply post_wait|]. cbn [w_tick]. intros w2 r (E2 & _ & Hok).
  destruct r; [|apply post_ret; split; [lia|done]]. eapply post_conseq; [apply IH|].
  - eapply (enough_next fuel w); [done| | |by apply Hok]; [done|]. done.
  - intros w3 r [H3 H4]. split; [lia|done].
Qed.

Lemma ends_ready fuel names w : enough fuel w ->
  runs w (await_ready expired talos_KubernetesReady fuel names) (fun w' r => (w_tick w <= w_tick w')%nat /\ r <> Err OutOfFuel).
Proof.
  revert w. induction fuel as [|fuel IH]; intros w Hf; [destruct Hf; lia|]. cbn [await_ready]. apply post_bind.
  eapply post_conseq; [apply later_ask|]. intros w1 b H1. unfold later in H1. destruct b; [by apply post_ret|].
  apply post_bind, post_modify, post_try. eapply post_conseq; [apply post_wait|]. cbn [w_tick]. intros w2 r (E2 & Hr & Hok).
  destruct r; [|split; [lia|congruence]]. eapply post_conseq; [apply IH|].
  - eapply (enough_next fuel w); [done| | |by apply Hok]; done.
  - intros w3 r [H3 H4]. split; [lia|done].
Qed.

Context (budget : nat) (Hb : (deadline < budget)%nat).

Lemma ends_retry_enough {A} gate node (call : State World (result rpc_error A)) : stays later call -> ends (retryUnavailable expired budget gate node call).
Proof. intros Hc w. apply ends_retry; [done|]. unfold enough. lia. Qed.

Lemma ends_ready_enough names : ends (await_ready expired talos_KubernetesReady budget names).
Proof. intros w. apply ends_ready. unfold enough. lia. Qed.

#[local] Hint Resolve ends_wait ends_retry_enough ends_ready_enough : ends.

Lemma ends_generate item : ends (generateMachineConfigs fault fresh item).
Proof. unfold generateMachineConfigs, loadOrCreateSecrets. ends_tac. Qed.

Lemma ends_apply g node : ends (apply_node talos_Apply g node).
Proof. unfold apply_node. ends_tac. Qed.

Lemma ends_patch request controlPlane node : ends (patch_node expired talos_ReconcileMachineConfig dir budget request controlPlane node).
Proof. unfold patch_node, machineConfigWithRetry. ends_tac. Qed.

#[local] Hint Resolve ends_generate ends_apply ends_patch : ends.

Lemma ends_converge request nodes controlPlane r :
  ends (converge expired fault talos_ReconcileMachineConfig talos_Bootstrap talos_Kubeconfig talos_KubernetesReady pki_ok bgp_ok disable_ok lb_Reconcile storage_Reconcile dir
    budget request nodes controlPlane r).
Proof. unfold converge, bootstrapWithRetry, kubeconfigWithRetry, cilium_stage, flannel_stage, storage_stage. ends_tac. Qed.

(** A turn that is followed by another one waited, and the deadline had not passed. *)
Definition turn_ends (m : State World (result prov_error turn)) : Prop :=
  forall w, runs w m (fun w' r => (w_tick w <= w_tick w')%nat /\ r <> Err OutOfFuel /\
    forall g key r', r = Ok (Again g key r') -> (w_tick w < w_tick w' <= deadline)%nat).

Lemma turn_wait (k : result prov_error unit -> State World (result prov_error turn)) :
  (forall u, exists t, k (Ok u) = ok t) -> (forall e, e <> OutOfFuel -> exists e', k (Err e) = fail e' /\ e' <> OutOfFuel) -> turn_ends (over ← wait expired; k over).
Proof.
  intros Hok Herr w. apply post_bind. eapply post_conseq; [apply post_wait|]. intros w1 [u|e] (E1 & He & Hlt).
  - destruct (Hok u) as [t ->]. apply post_ret. split_and!; [lia|done|]. intros g key r' _. specialize (Hlt eq_refl). lia.
  - destruct (Herr e ltac:(congruence)) as (e' & -> & ?). apply post_ret. split_and!; [lia|congruence|done].
Qed.

Lemma turn_bind {A} (m : State World A) (k : A -> State World (result prov_error turn)) : stays later m -> (forall a, turn_ends (k a)) -> turn_ends (m ≫= k).
Proof.
  intros Hm Hk w. apply post_bind. eapply post_conseq; [apply Hm|]. intros w1 a H1. eapply post_conseq; [apply Hk|]. unfold later in H1.
  intros w2 r (H3 & H4 & H5). split_and!; [lia|done|]. intros g key r' E. specialize (H5 _ _ _ E). lia.
Qed.

Lemma turn_try {A} (m : State World (result prov_error A)) (k : A -> State World (result prov_error turn)) : ends m -> (forall a, turn_ends (k a)) -> turn_ends (try_bind m k).
Proof.
  intros Hm Hk w. apply post_try. eapply post_conseq; [apply Hm|]. intros w1 [a|e] [H1 H2]; [|by split_and!; [|congruence|]].
  eapply post_conseq; [apply Hk|]. intros w2 r (H3 & H4 & H5). split_and!; [lia|done|]. intros g key r' E. specialize (H5 _ _ _ E). lia.
Qed.

Lemma turn_fail e : e <> OutOfFuel -> turn_ends (fail e).
Proof. intros He w. apply post_ret. split_and!; [done|congruence|done]. Qed.

Lemma turn_pass request g key r :
  turn_ends (pass expired fault fresh observe talos_Apply talos_ReconcileMachineConfig talos_Bootstrap talos_Kubeconfig talos_KubernetesReady pki_ok bgp_ok disable_ok
    lb_Reconcile storage_Reconcile dir budget request g key r).
Proof.
  unfold pass. apply turn_bind; [apply later_now|intros t]. destruct (observe t) as [nodes|]; [|by apply turn_fail].
  apply turn_bind; [apply later_record|intros _]. case_bool_decide; [by apply turn_fail|]. case_bool_decide.
  { apply turn_bind; [apply later_gate|intros _]. apply turn_wait; [by eexists|]. intros e _. by eexists. }
  apply turn_try; [ends_tac|intros g']. apply turn_try; [ends_tac|intros lines]. case_bool_decide.
  { apply turn_wait; [by eexists|]. intros e He. by eexists. }
  destruct (configuredControlPlane nodes) as [cp|].
  - apply turn_try; [apply ends_converge|intros r']. intros w. apply post_ret. by split_and!.
  - apply turn_bind; [apply later_gate|intros _]. apply turn_wait; [by eexists|]. intros e He. by eexists.
Qed.

Lemma turns_end fuel request g key r w : enough fuel w ->
  runs w (turns expired fault fresh observe talos_Apply talos_ReconcileMachineConfig talos_Bootstrap talos_Kubeconfig talos_KubernetesReady pki_ok bgp_ok disable_ok
    lb_Reconcile storage_Reconcile dir fuel budget request g key r) (fun w' r => r <> Err OutOfFuel).
Proof.
  revert g key r w. induction fuel as [|fuel IH]; intros g key r w Hf; [destruct Hf; lia|]. cbn [turns]. apply post_try.
  eapply post_conseq; [apply turn_pass|]. intros w1 [[g' key' r'|r']|e] (H1 & H2 & H3); [|by apply post_ret|congruence].
  apply IH. specialize (H3 _ _ _ eq_refl). unfold enough in *. lia.
Qed.
End Ends.

(** C14: A provisioning pass always comes back.  However the nodes, the Talos API and the
    reconcilers behave, once the context is over every poll of the pass, the retries of
    each call included, stops: with as many turns as calls fit before the deadline, the
    pass returns a result or an error of its own. *)
Theorem reconcile_returns `{Yaml, Talos} expired fault fresh observe apply_ patch_ boot kube ready pki bgp dis lb storage dir deadline fuel request w :
  (forall t, (deadline <= t)%nat -> expired t = true) -> (deadline < fuel)%nat ->
  (Reconcile expired fault fresh observe apply_ patch_ boot kube ready pki bgp dis lb storage dir fuel request w).2 <> Err OutOfFuel.
Proof.
  intros Hover Hf. enough (G : runs w (Reconcile expired fault fresh observe apply_ patch_ boot kube ready pki bgp dis lb storage dir fuel request)
    (fun _ r => r <> Err OutOfFuel)) by exact G.
  unfold Reconcile. destruct (_ && _); [by apply post_ret|]. destruct (negb (rq_Client request)); [by apply post_ret|].
  apply post_try. eapply post_conseq; [exact (ends_generate fault fresh deadline fuel Hf _ w)|]. intros w1 [g|e] [H1 H2]; [|congruence].
  apply post_try. eapply post_conseq; [apply ends_io|]. intros w2 [u|e] [H3 H4]; [|congruence].
  eapply turns_end; [exact Hover|exact Hf|]. unfold enough. lia.
Qed.

(** ** What a pass may do

    An observation determines, in order, every call that may follow it. *)

Section Plan.
Context `{Yaml, Talos} (b : Bundle) (request : Request).

Definition maintained (n : PNode) : bool := String.eqb (pn_Phase n) PhaseMaintenance.

(** The config for a node, generated for the addresses observed together with it *)
Definition node_config (nodes : list PNode) (n : PNode) : result config_error string :=
  config ← role_config b (clusterWithObservedAddresses (rq_Cluster request) nodes) (pn_Role n); withNodeHostname config (pn_Name n).

Definition cilium_plan : list Step :=
  let intent := intent_of request in
  if String.eqb (CNI intent) CNICilium then
    (if LB intent then [SIngressPKI] else []) ++ (if BGP intent then [SHostBGP] else []) ++ [SCilium] ++
    (if LB intent && negb (BGP intent) && rq_BGP request && rq_Disabler request then [SDisableBGP] else [])
  else [].

Definition flannel_plan : list Step := if String.eqb (CNI (intent_of request)) CNIFlannel && LB (intent_of request) then [SFlannelLB] else [].
Definition storage_plan : list Step := if String.eqb (CSI (intent_of request)) EmptyString || rq_SkipStorage request then [] else [SStorage].

Definition converge_plan (nodes : list PNode) (cp : PNode) : list Step :=
  ((fun n => SPatch (pn_IP n) (target_for request cp n)) <$> nodes) ++
  [SBootstrap (pn_IP cp); SKubeconfig (pn_IP cp); SWriteKubeconfig] ++
  cilium_plan ++ [SReady (nodeNames nodes)] ++ flannel_plan ++ storage_plan.

Definition plan (nodes : list PNode) : list Step :=
  if bool_decide (nodes = []) || bool_decide (unleasedControlPlanes (rq_Cluster request) nodes <> []) then []
  else match List.filter maintained nodes with
       | [] => match configuredControlPlane nodes with Some cp => converge_plan nodes cp | None => [] end
       | pending => (fun n => SApply (pn_IP n) (node_config nodes n)) <$> pending
       end.

(** Reading the log: what is left of the plan of the last observation.  A call must be the
    next one of the plan; one that fails may be made again; a new observation needs the
    plan done. *)
Fixpoint monitor (left : list Step) (log : list Entry) : option (list Step) :=
  match log with
  | [] => Some left
  | Observed nodes :: log => match left with [] => monitor (plan nodes) log | _ => None end
  | Called s succeeded :: log =>
      match left with
      | x :: left' => if decide (s = x) then monitor (if succeeded then left' else left) log else None
      | [] => None
      end
  end.

Lemma monitor_app left l1 l2 : monitor left (l1 ++ l2) = left' ← monitor left l1; monitor left' l2.
Proof.
  revert left. induction l1 as [|[nodes|s ok] l1 IH]; intros left; [done|..]; cbn; destruct left; try done; try apply IH. case_decide; [apply IH|done].
Qed.

(** The last observation *)
Definition last_observed (log : list Entry) : option (list PNode) := last (omap (fun e => match e with Observed nodes => Some nodes | _ => None end) log).

(** The state of the reading in a world whose secrets are [b] *)
Definition leaves (left : list Step) (w : World) : Prop := w_secrets w = Some b /\ monitor [] (w_log w) = Some left.

Lemma leaves_call s left ok w w' : leaves (s :: left) w -> w_secrets w' = w_secrets w -> w_log w' = w_log w ++ [Called s ok] -> leaves (if ok then left else s :: left) w'.
Proof.
  intros [Hs Hm] Es El. split; [congruence|]. rewrite El, monitor_app, Hm. cbn. rewrite decide_True by done. done.
Qed.

Lemma leaves_observed nodes w w' : leaves [] w -> w_secrets w' = w_secrets w -> w_log w' = w_log w ++ [Observed nodes] -> leaves (plan nodes) w'.
Proof. intros [Hs Hm] Es El. split; [congruence|]. rewrite El, monitor_app, Hm. done. Qed.

Lemma last_observed_call log s ok : last_observed (log ++ [Called s ok]) = last_observed log.
Proof. unfold last_observed. rewrite omap_app. cbn. by rewrite app_nil_r. Qed.

Lemma last_observed_new log nodes : last_observed (log ++ [Observed nodes]) = Some nodes.
Proof. unfold last_observed. rewrite omap_app. cbn. apply last_snoc. Qed.
End Plan.

Section Follows.
Context `{Yaml, Talos}.
Context (expired fault : nat -> bool) (fresh : nat -> Bundle) (observe : nat -> option (list PNode)) (talos_Apply : nat -> bool)
  (talos_ReconcileMachineConfig : nat -> string -> ConfigTarget -> result rpc_error ConfigChanges)
  (talos_Bootstrap : nat -> option rpc_error) (talos_Kubeconfig : nat -> result rpc_error string) (talos_KubernetesReady : nat -> bool)
  (pki_ok bgp_ok disable_ok : nat -> bool) (lb_Reconcile : nat -> option LoadBalancerResult) (storage_Reconcile : nat -> option StorageResult) (dir : string).
Context (b : Bundle) (request : Request).

#[local] Abbreviation leaves := (leaves b request).

(** The part of the log a computation reads and writes *)
Definition kept (w w' : World) : Prop := w_secrets w' = w_secrets w /\ w_log w' = w_log w.

(** From [left], [m] goes on to [left'], or stops with an error somewhere on the way; an
    error marked as one of storage stops right before the storage step. *)
Definition goes {A} (left left' : list Step) (m : State World (result prov_error A)) : Prop :=
  forall w, leaves left w -> runs w m (fun w' r => last_observed (w_log w') = last_observed (w_log w) /\
    match r with Ok _ => leaves left' w' | Err e => exists l, leaves l w' /\ (is_storage_stage e = true -> l = [SStorage]) end).

Lemma goes_ok {A} left (a : A) : goes left left (ok a).
Proof. intros w Hw. by apply post_ret. Qed.

Lemma goes_fail {A} left left' e : is_storage_stage e = false -> goes left left' (fail e : State World (result prov_error A)).
Proof. intros He w Hw. apply post_ret. split; [done|]. exists left. split; [done|]. by rewrite He. Qed.

Lemma goes_try {A B} l1 l2 l3 (m : State World (result prov_error A)) (k : A -> State World (result prov_error B)) :
  goes l1 l2 m -> (forall a, goes l2 l3 (k a)) -> goes l1 l3 (try_bind m k).
Proof.
  intros Hm Hk w Hw. apply post_try. eapply post_conseq; [by apply Hm|]. intros w1 [a|e] [H1 H2]; [|done].
  eapply post_conseq; [by apply Hk|]. intros w2 r [H3 H4]. split; [congruence|done].
Qed.

Lemma kept_leaves left w w' : kept w w' -> leaves left w -> leaves left w'.
Proof. intros [E1 E2] [H1 H2]. split; congruence. Qed.

Lemma goes_quiet {A} left (m : State World (result prov_error A)) :
  (forall w, runs w m (fun w' r => kept w w' /\ forall e, r = Err e -> is_storage_stage e = false)) -> goes left left m.
Proof.
  intros Hm w Hw. eapply post_conseq; [apply Hm|]. intros w' r [Hk He]. split; [by destruct Hk as [_ ->]|].
  destruct r as [a|e]; [by eapply kept_leaves|]. exists left. split; [by eapply kept_leaves|]. by rewrite (He e eq_refl).
Qed.

Lemma kept_wait w : runs w (wait expired) (fun w' r => kept w w' /\ forall e, r = Err e -> e = Expired).
Proof. unfold wait, now. apply post_bind. unfold runs at 1. cbn [fst snd]. destruct (expired (w_tick w)); apply post_ret; (split; [by split|]); congruence. Qed.

Lemma goes_wait left : goes left left (wait expired).
Proof. apply goes_quiet. intros w. eapply post_conseq; [apply kept_wait|]. intros w' r [Hk He]. split; [done|]. intros e E. by rewrite (He e E). Qed.

Lemma goes_io left : goes left left (io fault).
Proof. apply goes_quiet. intros w. unfold io, now. apply post_bind. unfold runs at 1. cbn [fst snd]. destruct (fault (w_tick w)); apply post_ret; (split; [by split|]); by intros e [= <-]. Qed.

(** A call moves the reading by one step if it succeeds. *)
Lemma post_ask {A} s left (answer : nat -> A) good w : leaves (s :: left) w -> runs w (ask s answer good) (fun w' a =>
  last_observed (w_log w') = last_observed (w_log w) /\ leaves (if good a then left else s :: left) w').
Proof.
  intros Hw. unfold ask. apply post_bind. unfold now at 1, runs at 1. cbn [fst snd]. apply post_bind, post_modify, post_ret. cbn [w_log w_tick w_secrets].
  split; [apply last_observed_call|]. by eapply leaves_call.
Qed.

Lemma goes_step s left answer e : (is_storage_stage e = true -> s :: left = [SStorage]) -> goes (s :: left) left (step s answer e).
Proof.
  intros He w Hw. unfold step. apply post_bind. eapply post_conseq; [by apply post_ask|]. intros w1 [] [H1 H2]; apply post_ret; (split; [done|]); [done|].
  exists (s :: left). by split.
Qed.

Lemma goes_reconciler {A} s left (answer : nat -> option A) e : (is_storage_stage e = true -> s :: left = [SStorage]) -> goes (s :: left) left (reconciler s answer e).
Proof.
  intros He w Hw. unfold reconciler. apply post_bind. eapply post_conseq; [by apply post_ask|]. intros w1 [a|] [H1 H2]; apply post_ret; (split; [done|]); [done|].
  exists (s :: left). by split.
Qed.

Lemma goes_retry {A} fuel gate node s left (answer : nat -> result rpc_error A) :
  goes (s :: left) left (retryUnavailable expired fuel gate node (ask s answer (fun r => is_ok r))).
Proof.
  induction fuel as [|fuel IH]; [by apply goes_fail|]. intros w Hw. cbn [retryUnavailable]. apply post_bind. eapply post_conseq; [by apply post_ask|].
  intros w1 [a|e] [H1 H2]; cbn [is_ok] in H2; [by apply post_ret|]. assert (Hstop : forall e', is_storage_stage e' = false ->
    exists l, leaves l w1 /\ (is_storage_stage e' = true -> l = [SStorage])) by (intros e' ->; by exists (s :: left)).
  destruct (transient e); [|apply post_ret; split; [done|]; by apply Hstop].
  apply post_bind, post_modify, post_bind. eapply post_conseq; [apply kept_wait|]. intros w2 r [[K1 K2] _]. cbn [w_secrets w_log] in *.
  assert (H2' : leaves (s :: left) w2) by (destruct H2; split; congruence). destruct r as [u|].
  - eapply post_conseq; [by apply IH|]. intros w3 r [H3 H4]. split; [congruence|done].
  - apply post_ret. split; [congruence|]. by exists (s :: left).
Qed.

Lemma goes_ready fuel names left : goes (SReady names :: left) left (await_ready expired talos_KubernetesReady fuel names).
Proof.
  induction fuel as [|fuel IH]; [by apply goes_fail|]. intros w Hw. cbn [await_ready]. apply post_bind. eapply post_conseq; [by apply post_ask|].
  intros w1 [] [H1 H2]; cbn [id] in H2; [by apply post_ret|]. apply post_bind, post_modify.
  eapply post_conseq; [apply (goes_try _ _ _ _ _ (goes_wait _) (fun _ => IH)); exact H2|]. intros w2 r [H3 H4]. cbn [w_log] in H3. split; [congruence|done].
Qed.

Lemma goes_gather {A B} (f : A -> list Step) (body : A -> State World (result prov_error (list B))) l left :
  (forall x left, goes (f x ++ left) left (body x)) -> goes ((l ≫= f) ++ left) left (gather_try l body).
Proof.
  intros Hb. induction l as [|x l IH]; [apply goes_ok|]. cbn [gather_try mbind list_bind]. rewrite <- app_assoc. eapply goes_try; [apply Hb|intros y].
  eapply goes_try; [apply IH|intros z; apply goes_ok].
Qed.

Create HintDb goes.
#[local] Hint Resolve goes_ok goes_wait goes_io goes_retry goes_ready : goes.
#[local] Hint Extern 1 (goes _ _ (fail _)) => apply goes_fail; reflexivity : goes.
#[local] Hint Extern 1 (goes _ _ (step _ _ _)) => apply goes_step; discriminate : goes.
#[local] Hint Extern 1 (goes _ _ (reconciler _ _ _)) => apply goes_reconciler; discriminate : goes.

Lemma goes_if {A} (c : bool) l left (m m' : State World (result prov_error A)) :
  goes (l ++ left) left m -> goes left left m' -> goes ((if c then l else []) ++ left) left (if c then m else m').
Proof. by destruct c. Qed.

Lemma goes_cilium r left : goes (cilium_plan request ++ left) left (cilium_stage pki_ok bgp_ok disable_ok lb_Reconcile request r).
Proof.
  unfold cilium_stage, cilium_plan. destruct (String.eqb _ _); cbn [negb]; [|apply goes_ok]. rewrite <- !app_assoc.
  eapply goes_try; [apply goes_if; [apply goes_step; discriminate|apply goes_ok]|intros _]. destruct (negb (rq_LoadBalancer request)); [by apply goes_fail|].
  eapply goes_try; [apply goes_if; [|apply goes_ok]|intros r1].
  { destruct (negb (rq_BGP request)); [by apply goes_fail|]. eapply goes_try; [apply goes_step; discriminate|intros _; apply goes_ok]. }
  eapply goes_try; [apply goes_reconciler; discriminate|intros lb].
  eapply goes_try; [apply goes_if; [|apply goes_ok]|intros r2; apply goes_ok].
  eapply goes_try; [apply goes_step; discriminate|intros _; apply goes_ok].
Qed.

Lemma goes_flannel r left : goes (flannel_plan request ++ left) left (flannel_stage lb_Reconcile request r).
Proof.
  unfold flannel_stage, flannel_plan. destruct (String.eqb _ _ && _); cbn [negb]; [|apply goes_ok]. destruct (negb (rq_LoadBalancer request)); [by apply goes_fail|].
  eapply goes_try; [apply goes_reconciler; discriminate|intros lb; apply goes_ok].
Qed.

Lemma goes_storage r : goes (storage_plan request) [] (storage_stage storage_Reconcile request r).
Proof.
  unfold storage_stage, storage_plan. destruct (_ || _); [apply goes_ok|]. destruct (negb (rq_Storage request)).
  - intros w Hw. apply post_ret. split; [done|]. by exists [SStorage].
  - eapply goes_try; [by apply goes_reconciler|intros st; apply goes_ok].
Qed.

Lemma goes_converge fuel nodes cp r :
  goes (converge_plan request nodes cp) [] (converge expired fault talos_ReconcileMachineConfig talos_Bootstrap talos_Kubeconfig talos_KubernetesReady pki_ok bgp_ok disable_ok
    lb_Reconcile storage_Reconcile dir fuel request nodes cp r).
Proof.
  unfold converge, converge_plan, machineConfigWithRetry, bootstrapWithRetry, kubeconfigWithRetry.
  eapply goes_try; [|intros patches; cbn [app]].
  { replace ((fun n => SPatch (pn_IP n) (target_for request cp n)) <$> nodes) with (nodes ≫= fun n => [SPatch (pn_IP n) (target_for request cp n)]).
    - apply goes_gather. intros n left. unfold patch_node, machineConfigWithRetry. eapply goes_try; [apply goes_retry|intros ch; apply goes_ok].
    - induction nodes as [|n nodes IH]; [done|]. cbn. by rewrite IH. }
  eapply goes_try; [apply goes_retry|intros _]. eapply goes_try; [apply goes_retry|intros _]. eapply goes_try; [apply goes_step; discriminate|intros _].
  eapply goes_try; [apply goes_cilium|intros r1]. eapply goes_try; [apply goes_ready|intros _]. eapply goes_try; [apply goes_flannel|intros r2]. apply goes_storage.
Qed.
End Follows.

(** ** Configs follow the addresses *)

Definition plain (s : string) : Prop := cut "," s = None.

Lemma cut_plain a x : plain a -> cut "," (a +:+ String "," x) = Some (a, x).
Proof.
  unfold plain. induction a as [|c a IH]; intros Ha; [done|].
  change (String c a +:+ String "," x)%string with (String c (a +:+ String "," x)). cbn [cut] in *. destruct (decide (c = ","%char)); [done|].
  destruct (cut "," a) as [[]|]; [done|]. by rewrite IH.
Qed.

Lemma join_inj l1 l2 : length l1 = length l2 -> Forall plain l1 -> Forall plain l2 -> join "," l1 = join "," l2 -> l1 = l2.
Proof.
  revert l2. induction l1 as [|a l1 IH]; intros [|b l2] Hl H1 H2 Hj; try done. apply Forall_cons in H1 as [Ha H1], H2 as [Hb H2]. injection Hl as Hl.
  destruct l1 as [|a' l1], l2 as [|b' l2]; try done; [cbn in Hj; by subst|]. cbn [join] in Hj.
  pose proof (cut_plain a (join "," (a' :: l1)) Ha) as C1. pose proof (cut_plain b (join "," (b' :: l2)) Hb) as C2.
  assert (Hj' : (a +:+ String "," (join "," (a' :: l1)))%string = (b +:+ String "," (join "," (b' :: l2)))%string) by exact Hj.
  rewrite Hj' in C1. rewrite C1 in C2. injection C2 as -> E. f_equal. by apply IH.
Qed.

(** The cluster with other addresses *)
Definition readdress (f : Node -> string) (item : Cluster) : Cluster :=
  with_nodes ((fun n => mkNode (n_Name n) (n_Role n) (n_MAC n) (f n)) <$> c_Nodes item) item.

Lemma readdress_id item : readdress n_IP item = item.
Proof.
  unfold readdress. replace (_ <$> c_Nodes item) with (c_Nodes item); [by destruct item|].
  induction (c_Nodes item) as [|[] l IH]; [done|]. cbn. by rewrite <- IH.
Qed.

Lemma observed_readdress item nodes : clusterWithObservedAddresses item nodes = readdress (fun n => default (n_IP n) (observed_ips nodes !! n_Name n)) item.
Proof.
  unfold clusterWithObservedAddresses, readdress. f_equal. apply list_fmap_ext. intros i n _. destruct (observed_ips nodes !! n_Name n); [done|]. by destruct n.
Qed.

Lemma readdress_controlPlanes f item : controlPlanes (readdress f item) = (fun n => mkNode (n_Name n) (n_Role n) (n_MAC n) (f n)) <$> controlPlanes item.
Proof. unfold controlPlanes. cbn [readdress with_nodes c_Nodes]. induction (c_Nodes item) as [|n l IH]; [done|]. cbn. destruct (String.eqb _ _); [cbn; by f_equal|done]. Qed.

Lemma readdress_endpoints f item : (clusterControlPlane (readdress f item)).2 = f <$> controlPlanes item.
Proof. unfold clusterControlPlane. rewrite readdress_controlPlanes. cbn [snd]. rewrite <- list_fmap_compose. done. Qed.

Lemma readdress_workers f item : clusterHasWorkers (readdress f item) = clusterHasWorkers item.
Proof. unfold clusterHasWorkers. cbn [readdress with_nodes c_Nodes]. induction (c_Nodes item) as [|n l IH]; [done|]. cbn. by rewrite IH. Qed.

Lemma readdress_first f g item : f <$> controlPlanes item = g <$> controlPlanes item ->
  n_IP <$> (clusterControlPlane (readdress f item)).1 = n_IP <$> (clusterControlPlane (readdress g item)).1.
Proof.
  unfold clusterControlPlane. rewrite !readdress_controlPlanes. cbn [fst]. induction (controlPlanes item) as [|n l IH]; [done|]. cbn.
  intros [= E El]. rewrite E. destruct (String.eqb (g n) EmptyString); cbn; [by apply IH|by rewrite ?E].
Qed.

(** Generation only depends on the addresses of the control planes. *)
Lemma role_config_readdress `{Yaml, Talos} b f g item role : f <$> controlPlanes item = g <$> controlPlanes item ->
  role_config b (readdress f item) role = role_config b (readdress g item) role.
Proof.
  intros E. pose proof (readdress_first f g item E) as E1. unfold role_config.
  assert (Hp : forall h config, role_patches (readdress h item) role config = role_patches item role config).
  { intros h config. unfold role_patches, ciliumDisablesKubeProxy. rewrite readdress_workers. done. }
  assert (Hg : forall n1 n2, n_IP n1 = n_IP n2 -> gen_input (readdress f item) n1 = gen_input (readdress g item) n2).
  { intros n1 n2 En. unfold gen_input. rewrite !readdress_workers, !readdress_endpoints, E, En. done. }
  destruct (clusterControlPlane (readdress f item)).1 as [n1|], (clusterControlPlane (readdress g item)).1 as [n2|]; try done.
  injection E1 as E1. rewrite (Hg n1 n2 E1). destruct (input_Config _ _ _); [|done]. by rewrite !Hp.
Qed.

Lemma observed_ips_plain nodes name ip : Forall (fun n => plain (pn_IP n)) nodes -> observed_ips nodes !! name = Some ip -> plain ip.
Proof.
  unfold observed_ips. intros Hn. assert (G : forall m : gmap string string, (forall k v, m !! k = Some v -> plain v) ->
    forall k v, foldl (fun m n => if no_ip n then m else <[pn_Name n := pn_IP n]> m) m nodes !! k = Some v -> plain v).
  { induction Hn as [|n l Hp Hn IH]; intros m Hm; [exact Hm|]. cbn [foldl]. apply IH. destruct (no_ip n); [done|]. intros k v.
    destruct (decide (pn_Name n = k)) as [<-|]; [rewrite lookup_insert_eq; by intros [= <-]|rewrite lookup_insert_ne by done; apply Hm]. }
  apply G. intros k v. by rewrite lookup_empty.
Qed.

(** ** A pass follows its plan *)

Section Passes.
Context `{Yaml, Talos}.
Context (expired fault : nat -> bool) (fresh : nat -> Bundle) (observe : nat -> option (list PNode)) (talos_Apply : nat -> bool)
  (talos_ReconcileMachineConfig : nat -> string -> ConfigTarget -> result rpc_error ConfigChanges)
  (talos_Bootstrap : nat -> option rpc_error) (talos_Kubeconfig : nat -> result rpc_error string) (talos_KubernetesReady : nat -> bool)
  (pki_ok bgp_ok disable_ok : nat -> bool) (lb_Reconcile : nat -> option LoadBalancerResult) (storage_Reconcile : nat -> option StorageResult) (dir : string).
Context (request : Request).

(** Addresses hold no comma, which the list of them is joined with. *)
Context (plain_observed : forall t nodes, observe t = Some nodes -> Forall (fun n => plain (pn_IP n)) nodes)
  (plain_planned : Forall (fun n => plain (n_IP n)) (c_Nodes (rq_Cluster request))).

#[local] Abbreviation item := (rq_Cluster request).

(** [g] holds the configs of the cluster at the addresses [f]. *)
Definition generated_at (b : Bundle) (g : generated) (f : Node -> string) : Prop :=
  role_config b (readdress f item) RoleControlPlane = Ok (g_controlPlane g) /\ role_config b (readdress f item) RoleWorker = Ok (g_worker g).

Definition current (b : Bundle) (g : generated) (key : string) : Prop :=
  exists f, generated_at b g f /\ key = endpoint_key (readdress f item) /\ Forall plain (f <$> controlPlanes item).

Definition observed_at (nodes : list PNode) (n : Node) : string := default (n_IP n) (observed_ips nodes !! n_Name n).

Lemma planes_in n : n ∈ controlPlanes item -> n ∈ c_Nodes item.
Proof. unfold controlPlanes. rewrite !list_elem_of_In, filter_In. tauto. Qed.

Lemma observed_plain nodes : Forall (fun n => plain (pn_IP n)) nodes -> Forall plain (observed_at nodes <$> controlPlanes item).
Proof.
  intros Hn. apply Forall_fmap, Forall_forall. intros n Hi. unfold compose, observed_at. destruct (observed_ips nodes !! n_Name n) as [ip|] eqn:E; cbn [default];
    [by eapply observed_ips_plain|]. rewrite Forall_forall in plain_planned. by apply plain_planned, planes_in.
Qed.

(** Where the addresses of the control planes are the same, so are the configs. *)
Lemma current_observed b g key nodes : current b g key -> Forall (fun n => plain (pn_IP n)) nodes ->
  endpoint_key (clusterWithObservedAddresses item nodes) = key -> generated_at b g (observed_at nodes).
Proof.
  intros (f & [Hc Hw] & -> & Hf) Hn Hk. rewrite observed_readdress in Hk. unfold endpoint_key in Hk. rewrite !readdress_endpoints in Hk.
  apply join_inj in Hk; [|by rewrite !length_fmap|by apply observed_plain|done].
  unfold generated_at. by rewrite !(role_config_readdress b (observed_at nodes) f) by done.
Qed.

Lemma post_generate left w b it : leaves b request left w -> runs w (generateMachineConfigs fault fresh it) (fun w' r =>
  kept w w' /\ (forall e, r = Err e -> is_storage_stage e = false) /\
  forall g, r = Ok g -> role_config b it RoleControlPlane = Ok (g_controlPlane g) /\ role_config b it RoleWorker = Ok (g_worker g)).
Proof.
  intros [Hb Hm]. unfold generateMachineConfigs, io, loadOrCreateSecrets, now. do 2 apply post_bind. unfold runs at 1. cbn [fst snd].
  destruct (fault (w_tick w)); [apply post_ret; split_and!; [by split|by intros e [= <-]|done]|].
  apply post_ret, post_bind, post_bind. unfold runs at 1. cbn [fst snd]. apply post_bind, post_get. destruct (fault _); [apply post_ret, post_ret; split_and!; [by split|by intros e [= <-]|done]|].
  cbn [w_secrets]. rewrite Hb. apply post_ret. destruct (role_config b it RoleControlPlane) as [c1|]; [|apply post_ret; split_and!; [by split|by intros e' [= <-]|done]].
  destruct (role_config b it RoleWorker) as [c2|]; [|apply post_ret; split_and!; [by split|by intros e' [= <-]|done]].
  do 2 apply post_bind. unfold runs at 1. cbn [fst snd]. destruct (fault _); [apply post_ret; apply post_ret; split_and!; [by split|by intros e [= <-]|done]|].
  do 2 apply post_ret. split_and!; [by split|done|]. by intros g [= <-].
Qed.

Definition apply_plan (b : Bundle) (nodes : list PNode) (n : PNode) : list Step := if maintained n then [SApply (pn_IP n) (node_config b request nodes n)] else [].

Lemma apply_plan_filter b nodes l : (l ≫= apply_plan b nodes) = (fun n => SApply (pn_IP n) (node_config b request nodes n)) <$> List.filter maintained l.
Proof. induction l as [|n l IH]; [done|]. unfold apply_plan at 1. cbn. fold (mbind (apply_plan b nodes) l). destruct (maintained n); cbn; by rewrite <- IH. Qed.

Lemma goes_apply b g nodes n left : generated_at b g (observed_at nodes) -> goes b request (apply_plan b nodes n ++ left) left (apply_node talos_Apply g n).
Proof.
  intros [Hc Hw]. unfold apply_node, apply_plan. fold (maintained n). destruct (maintained n); cbn [negb]; [|apply goes_ok].
  destruct (config_for g (pn_Role n)) as [config|] eqn:Ec; [|by apply goes_fail].
  assert (En : node_config b request nodes n = withNodeHostname config (pn_Name n)).
  { unfold node_config. rewrite observed_readdress. fold (observed_at nodes). unfold config_for in Ec.
    destruct (String.eqb_spec (pn_Role n) RoleControlPlane) as [->|]; [injection Ec as <-; by rewrite Hc|].
    destruct (String.eqb_spec (pn_Role n) RoleWorker) as [->|]; [injection Ec as <-; by rewrite Hw|done]. }
  rewrite En. destruct (withNodeHostname config (pn_Name n)) as [c|e]; [|by apply goes_fail].
  intros w Hl. apply post_bind. eapply post_conseq; [by apply post_ask|]. intros w1 [] [H1 H2]; apply post_ret; (split; [done|]); [done|]. by eexists.
Qed.

(** The lines narrated tell whether a node was in maintenance. *)
Lemma post_lines g nodes w : runs w (gather_try nodes (apply_node talos_Apply g)) (fun _ r => forall lines, r = Ok lines -> lines = applied_line <$> List.filter maintained nodes).
Proof.
  eapply post_conseq; [apply (post_gather_try nodes _ (fun l lines _ => lines = applied_line <$> List.filter maintained l) (fun _ _ => True)); [done|]|].
  - intros l1 n l2 lines w1 _ ->. rewrite List.filter_app, fmap_app. unfold apply_node. fold (maintained n). cbn [List.filter].
    destruct (maintained n); cbn [negb]; [|by apply post_ret]. destruct (config_for g _); [|by apply post_ret]. destruct (withNodeHostname _ _); [|by apply post_ret].
    apply post_bind. unfold ask. apply post_bind. unfold runs at 1. cbn. destruct (talos_Apply _); by apply post_ret.
  - intros w1 [a|e] Hr lines [= <-]. done.
Qed.

(** How a turn may end *)
Definition turned (b : Bundle) (w' : World) (r : result prov_error turn) : Prop :=
  match r with
  | Ok (Again g key _) => leaves b request [] w' /\ current b g key
  | Ok (Finished _) => leaves b request [] w' /\
      exists nodes cp, last_observed (w_log w') = Some nodes /\ unleasedControlPlanes item nodes = [] /\ configuredControlPlane nodes = Some cp
  | Err e => exists l, leaves b request l w' /\ (is_storage_stage e = true -> l = [SStorage])
  end.

Lemma configured_none_maintained nodes cp : configuredControlPlane nodes = Some cp -> List.filter maintained nodes = [].
Proof.
  unfold configuredControlPlane. destruct (all_configured nodes) eqn:E; [|done]. intros _. unfold all_configured in E. rewrite forallb_forall in E.
  induction nodes as [|n l IH]; [done|]. cbn. assert (Hn := E n (or_introl eq_refl)). apply String.eqb_eq in Hn. unfold maintained at 1. rewrite Hn. cbn.
  apply IH. intros x Hx. apply E. by right.
Qed.

Lemma stop b l w e : leaves b request l w -> is_storage_stage e = false -> exists l, leaves b request l w /\ (is_storage_stage e = true -> l = [SStorage]).
Proof. intros Hl ->. by exists l. Qed.

Lemma plan_maintained b nodes : nodes <> [] -> unleasedControlPlanes item nodes = [] -> List.filter maintained nodes <> [] -> plan b request nodes = nodes ≫= apply_plan b nodes.
Proof.
  intros Hn Hu Hm. unfold plan. rewrite apply_plan_filter, Hu, (bool_decide_eq_false_2 (nodes = [])) by done. rewrite bool_decide_eq_false_2 by (by intros []). cbn [orb].
  by destruct (List.filter maintained nodes).
Qed.

(** The configs at hand after the check of the addresses are those of the observation. *)
Lemma post_current b g key nodes w : leaves b request (plan b request nodes) w -> current b g key -> Forall (fun n => plain (pn_IP n)) nodes ->
  runs w (if String.eqb (endpoint_key (clusterWithObservedAddresses item nodes)) key then ok g
          else g' ←! generateMachineConfigs fault fresh (clusterWithObservedAddresses item nodes); _ ←! io fault; ok g') (fun w' r =>
    last_observed (w_log w') = last_observed (w_log w) /\
    match r with
    | Ok g' => leaves b request (plan b request nodes) w' /\ generated_at b g' (observed_at nodes)
    | Err e => exists l, leaves b request l w' /\ (is_storage_stage e = true -> l = [SStorage])
    end).
Proof.
  intros Hl Hc Hn. destruct (String.eqb_spec (endpoint_key (clusterWithObservedAddresses item nodes)) key) as [E|].
  { apply post_ret. split_and!; [done..|]. by eapply current_observed. }
  apply post_try. eapply post_conseq; [by eapply post_generate|]. intros w1 [g1|e] (Hk & He & Hg).
  - apply post_try. eapply post_conseq; [apply (goes_io fault b request (plan b request nodes) w1); by eapply kept_leaves|].
    intros w2 [u|e] [H1 H2]; [apply post_ret|]; (split; [by rewrite H1, (proj2 Hk)|]); [|done]. split; [done|].
    destruct (Hg g1 eq_refl) as [Hg1 Hg2]. rewrite observed_readdress in Hg1, Hg2. by split.
  - split; [by rewrite (proj2 Hk)|]. eapply stop; [by eapply kept_leaves|auto].
Qed.

Lemma current_now b g nodes : generated_at b g (observed_at nodes) -> Forall (fun n => plain (pn_IP n)) nodes ->
  current b g (endpoint_key (clusterWithObservedAddresses item nodes)).
Proof. intros Hg Hn. exists (observed_at nodes). rewrite observed_readdress. split_and!; [done..|]. by apply observed_plain. Qed.

Lemma post_pass b fuel g key r w : leaves b request [] w -> current b g key ->
  runs w (pass expired fault fresh observe talos_Apply talos_ReconcileMachineConfig talos_Bootstrap talos_Kubeconfig talos_KubernetesReady pki_ok bgp_ok disable_ok
    lb_Reconcile storage_Reconcile dir fuel request g key r) (turned b).
Proof.
  intros Hl Hc. unfold pass. apply post_bind. unfold runs at 1. cbn [now fst snd]. destruct (observe (w_tick w)) as [nodes|] eqn:Eo; [|by apply post_ret, (stop _ [])].
  pose proof (plain_observed _ _ Eo) as Hp. apply post_bind, post_modify. cbn [w_tick w_secrets w_log w_gates].
  set (w2 := mkWorld _ _ _ _). assert (H2 : leaves b request (plan b request nodes) w2) by (by eapply leaves_observed).
  assert (Hlast : last_observed (w_log w2) = Some nodes) by apply last_observed_new. clearbody w2.
  case_bool_decide as Hnil; [by apply post_ret, (stop _ (plan b request nodes))|]. case_bool_decide as Hu.
  { assert (Epl : plan b request nodes = []) by (unfold plan; by rewrite (bool_decide_eq_true_2 _ Hu), orb_true_r). rewrite Epl in H2.
    apply post_bind, post_modify, post_bind. eapply post_conseq; [apply kept_wait|]. intros w3 [u|e] [Hk _]; apply post_ret.
    - split; [|done]. by eapply (kept_leaves b request [] w2).
    - apply (stop _ []); [|done]. by eapply (kept_leaves b request [] w2). }
  assert (Hu' : unleasedControlPlanes item nodes = []) by (destruct (unleasedControlPlanes item nodes); [done|by destruct Hu]). clear Hu.
  apply post_try. eapply post_conseq; [by apply post_current|]. intros w3 [g'|e] [L3 H3]; [|done]. destruct H3 as [H3 Hg]. rewrite Hlast in L3.
  pose proof (current_now b g' nodes Hg Hp) as Hcur. apply post_try. destruct (decide (List.filter maintained nodes = [])) as [Em|Em].
  - eapply post_conseq; [apply post_and; [apply post_lines|]|].
    { apply (goes_gather b request (apply_plan b nodes) (apply_node talos_Apply g') nodes (plan b request nodes)); [intros n left; by apply goes_apply|].
      rewrite apply_plan_filter, Em. exact H3. }
    intros w4 [lines|e] [Hlines [L4 H4]]; [|done]. rewrite (Hlines lines eq_refl), Em. case_bool_decide; [done|]. rewrite L3 in L4.
    destruct (configuredControlPlane nodes) as [cp|] eqn:Ecp.
    + assert (Epl : plan b request nodes = converge_plan request nodes cp).
      { unfold plan. rewrite (bool_decide_eq_false_2 (nodes = [])), Hu', (bool_decide_eq_false_2 ([] <> [])), Em, Ecp by (done || by intros []). done. }
      rewrite Epl in H4. apply post_try. eapply post_conseq; [by apply goes_converge|]. intros w5 [r5|e] [L5 H5]; [|done]. apply post_ret. split; [done|].
      exists nodes, cp. split_and!; [congruence|done|done].
    + assert (Epl : plan b request nodes = []).
      { unfold plan. rewrite (bool_decide_eq_false_2 (nodes = [])), Hu', (bool_decide_eq_false_2 ([] <> [])), Em, Ecp by (done || by intros []). done. }
      rewrite Epl in H4. apply post_bind, post_modify, post_try. eapply post_conseq; [apply kept_wait|]. intros w5 [u|e] [Hk He].
      * apply post_ret. split; [|done]. by eapply (kept_leaves b request [] w4).
      * apply (stop _ []); [by eapply (kept_leaves b request [] w4)|]. by rewrite (He e eq_refl).
  - rewrite (plan_maintained b nodes Hnil Hu' Em), <- (app_nil_r (_ ≫= _)) in H3.
    eapply post_conseq; [apply post_and; [apply post_lines|apply (goes_gather b request (apply_plan b nodes) (apply_node talos_Apply g') nodes []); [intros n left; by apply goes_apply|exact H3]]|].
    intros w4 [lines|e] [Hlines [L4 H4]]; [|done]. rewrite (Hlines lines eq_refl). rewrite bool_decide_eq_true_2 by (by destruct (List.filter maintained nodes)).
    apply post_try. eapply post_conseq; [apply kept_wait|]. intros w5 [u|e] [Hk He].
    + apply post_ret. split; [|done]. by eapply (kept_leaves b request [] w4).
    + apply (stop _ []); [by eapply (kept_leaves b request [] w4)|]. by rewrite (He e eq_refl).
Qed.

(** What holds of the log when a run is over *)
Definition followed (b : Bundle) (w' : World) (r : result prov_error Result_) : Prop :=
  exists left, leaves b request left w' /\
    match r with
    | Ok _ => left = [] /\ exists nodes cp, last_observed (w_log w') = Some nodes /\ unleasedControlPlanes item nodes = [] /\ configuredControlPlane nodes = Some cp
    | Err e => is_storage_stage e = true -> left = [SStorage]
    end.

Lemma post_turns b fuel budget g key r w : leaves b request [] w -> current b g key ->
  runs w (turns expired fault fresh observe talos_Apply talos_ReconcileMachineConfig talos_Bootstrap talos_Kubeconfig talos_KubernetesReady pki_ok bgp_ok disable_ok
    lb_Reconcile storage_Reconcile dir fuel budget request g key r) (followed b).
Proof.
  revert g key r w. induction fuel as [|fuel IH]; intros g key r w Hl Hc; [apply post_ret; by exists []|]. cbn [turns]. apply post_try.
  eapply post_conseq; [by apply (post_pass b)|]. intros w1 [[g' key' r'|r']|e] H1; cbn in H1.
  - destruct H1. by apply IH.
  - apply post_ret. destruct H1. by exists [].
  - destruct H1 as (l & ? & ?). by exists l.
Qed.

(** The first generation of a run, which may create the secrets *)
Lemma post_first_generate w it : runs w (generateMachineConfigs fault fresh it) (fun w' r =>
  w_log w' = w_log w /\ (forall b, w_secrets w = Some b -> w_secrets w' = Some b) /\
  forall g, r = Ok g -> exists b, w_secrets w' = Some b /\ role_config b it RoleControlPlane = Ok (g_controlPlane g) /\ role_config b it RoleWorker = Ok (g_worker g)).
Proof.
  unfold generateMachineConfigs, io, loadOrCreateSecrets, now. do 2 apply post_bind. unfold runs at 1. cbn [fst snd].
  destruct (fault (w_tick w)); [by apply post_ret|]. apply post_ret, post_bind, post_bind. unfold runs at 1. cbn [fst snd]. apply post_bind, post_get.
  destruct (fault _); [by apply post_ret, post_ret|]. cbn [w_secrets]. set (t := w_tick _).
  assert (G : forall b w1, w_secrets w1 = Some b -> w_log w1 = w_log w -> (forall b, w_secrets w = Some b -> w_secrets w1 = Some b) ->
    runs w1 (match role_config b it RoleControlPlane, role_config b it RoleWorker with
             | Ok controlPlane, Ok worker => _ ←! io fault; ok (mkGenerated controlPlane worker)
             | Err e, _ | _, Err e => fail (GenerateFailed e) end) (fun w' r =>
      w_log w' = w_log w /\ (forall b, w_secrets w = Some b -> w_secrets w' = Some b) /\
      forall g, r = Ok g -> exists b, w_secrets w' = Some b /\ role_config b it RoleControlPlane = Ok (g_controlPlane g) /\ role_config b it RoleWorker = Ok (g_worker g))).
  { intros b w1 E1 E2 E3. destruct (role_config b it RoleControlPlane) as [c1|] eqn:R1; [|by apply post_ret]. destruct (role_config b it RoleWorker) as [c2|] eqn:R2; [|by apply post_ret].
    unfold io, now. do 2 apply post_bind. unfold runs at 1. cbn [fst snd]. destruct (fault _); [by do 2 apply post_ret|]. do 2 apply post_ret. split_and!; [done..|].
    intros g [= <-]. by exists b. }
  destruct (w_secrets w) as [b|] eqn:Eb.
  - apply post_ret. by apply G.
  - apply post_bind, post_modify, post_ret. by apply G.
Qed.

Lemma post_reconcile fuel w : w_log w = [] ->
  runs w (Reconcile expired fault fresh observe talos_Apply talos_ReconcileMachineConfig talos_Bootstrap talos_Kubeconfig talos_KubernetesReady pki_ok bgp_ok disable_ok
    lb_Reconcile storage_Reconcile dir fuel request) (fun w' r =>
    w_log w' = [] /\ (forall res, r = Ok res -> CNI (intent_of request) <> CNIFlannel /\ CNI (intent_of request) <> CNICilium) \/
    exists b, (forall b0, w_secrets w = Some b0 -> b0 = b) /\ followed b w' r).
Proof.
  intros Hlog. unfold Reconcile. destruct (_ && _) eqn:Ec.
  { apply post_ret. left. split; [done|]. intros _ _. apply andb_true_iff in Ec as [E1 E2]. apply negb_true_iff, String.eqb_neq in E1, E2. done. }
  destruct (negb (rq_Client request)); [apply post_ret; by left|]. apply post_try. eapply post_conseq; [apply post_first_generate|].
  intros w1 [g|e] (E1 & Es & Hg); [|left; split; [congruence|done]]. destruct (Hg g eq_refl) as (b & Eb & Hc & Hw).
  assert (Hl : leaves b request [] w1) by (split; [done|by rewrite E1, Hlog]).
  assert (Hcur : current b g (endpoint_key item)).
  { exists n_IP. rewrite readdress_id. split_and!; [by unfold generated_at; rewrite readdress_id|done|]. apply Forall_fmap, Forall_forall. intros n Hn.
    rewrite Forall_forall in plain_planned. by apply plain_planned, planes_in. }
  apply post_try. eapply post_conseq; [by apply goes_io|]. intros w2 [u|e] [_ H2].
  - eapply post_conseq; [by apply (post_turns b)|]. intros w3 r H3. right. exists b. split; [|done]. intros b0 E0. specialize (Es b0 E0). congruence.
  - right. exists b. split; [intros b0 E0; specialize (Es b0 E0); congruence|]. destruct H2 as (l & H2 & Hl'). by exists l.
Qed.
End Passes.

(** C12: A provisioning pass does what its observations call for, in order, and nothing
    else.  Whatever the outside answers and wherever the run stops, the log of its calls
    reads against the plan of each observation: nothing before every control plane has a
    lease; then each node in maintenance, and no other, is given the config of its role
    generated for the addresses just observed; once all are configured, every node's config
    is repaired, the first control plane bootstrapped, the kubeconfig fetched and written,
    then Cilium (the host's peer first, withdrawn only after), readiness of all nodes, the
    flannel LoadBalancer, storage.  Only a call that failed is repeated, a new observation
    starts from a finished plan, a run that succeeds finished a plan for configured nodes,
    and an error is marked as storage's only when storage was all that was left. *)
Theorem reconcile_follows_plan `{Yaml, Talos} expired fault fresh observe apply_ patch_ boot kube ready pki bgp dis lb storage dir fuel request w w' r :
  (forall t nodes, observe t = Some nodes -> Forall (fun n => plain (pn_IP n)) nodes) ->
  Forall (fun n => plain (n_IP n)) (c_Nodes (rq_Cluster request)) ->
  w_log w = [] ->
  Reconcile expired fault fresh observe apply_ patch_ boot kube ready pki bgp dis lb storage dir fuel request w = (w', r) ->
  w_log w' = [] /\ (forall res, r = Ok res -> CNI (intent_of request) <> CNIFlannel /\ CNI (intent_of request) <> CNICilium) \/
  exists b left, w_secrets w' = Some b /\ (forall b0, w_secrets w = Some b0 -> b0 = b) /\ monitor b request [] (w_log w') = Some left /\
    match r with
    | Ok _ => left = [] /\ exists nodes cp, last_observed (w_log w') = Some nodes /\
                unleasedControlPlanes (rq_Cluster request) nodes = [] /\ configuredControlPlane nodes = Some cp
    | Err e => is_storage_stage e = true -> left = [SStorage]
    end.
Proof.
  intros H1 H2 Hw Hr. pose proof (post_reconcile expired fault fresh observe apply_ patch_ boot kube ready pki bgp dis lb storage dir request H1 H2 fuel w Hw) as G.
  unfold runs in G. rewrite Hr in G. cbn [fst snd] in G. destruct G as [G|(b & Hb & rest & [Hs Hm] & G)]; [by left|]. right. by exists b, rest.
Qed.

(** ** What the plans imply *)

Section Consequences.
Context `{Yaml, Talos} (b : Bundle) (request : Request).

(** The steps that succeeded since the last observation *)
Definition accomplished (log : list Entry) : list Step :=
  foldl (fun acc e => match e with Observed _ => [] | Called s true => acc ++ [s] | Called _ false => acc end) [] log.

Lemma accomplished_snoc log e : accomplished (log ++ [e]) = match e with Observed _ => [] | Called s true => accomplished log ++ [s] | Called _ false => accomplished log end.
Proof. unfold accomplished. by rewrite foldl_app. Qed.

Lemma monitor_done log rest : monitor b request [] log = Some rest ->
  match last_observed log with Some nodes => plan b request nodes = accomplished log ++ rest | None => log = [] /\ rest = [] end.
Proof.
  revert rest. induction log as [|e log IH] using rev_ind; intros rest; [by intros [= <-]|]. rewrite monitor_app.
  destruct (monitor b request [] log) as [l|]; [|done]. specialize (IH l eq_refl). cbn. rewrite accomplished_snoc. destruct e as [nodes|s ok].
  - destruct l; [|done]. intros [= <-]. by rewrite last_observed_new.
  - rewrite last_observed_call. destruct l as [|x l]; [done|]. case_decide as E; [|done]. subst x. intros [= <-].
    destruct (last_observed log) as [nodes|]; [|by destruct IH]. destruct ok; [by rewrite <- app_assoc|done].
Qed.

Lemma monitor_next pre s ok post rest : monitor b request [] (pre ++ Called s ok :: post) = Some rest ->
  exists nodes l, last_observed pre = Some nodes /\ plan b request nodes = accomplished pre ++ s :: l.
Proof.
  rewrite monitor_app. destruct (monitor b request [] pre) as [l|] eqn:E; [|done]. cbn. destruct l as [|x l]; [done|]. case_decide as Es; [|done]. subst x. intros _.
  apply monitor_done in E. destruct (last_observed pre) as [nodes|]; [|by destruct E]. by exists nodes, l.
Qed.

Lemma plan_cases nodes s : s ∈ plan b request nodes ->
  unleasedControlPlanes (rq_Cluster request) nodes = [] /\
  (plan b request nodes = (fun n => SApply (pn_IP n) (node_config b request nodes n)) <$> List.filter maintained nodes \/
   exists cp, configuredControlPlane nodes = Some cp /\ plan b request nodes = converge_plan request nodes cp).
Proof.
  unfold plan. destruct (bool_decide (nodes = []) || _) eqn:E; [by intros ?%not_elem_of_nil|]. apply orb_false_iff in E as [_ E]. apply bool_decide_eq_false in E.
  intros Hs. split; [by destruct (unleasedControlPlanes _ _); [|destruct E]|]. destruct (List.filter maintained nodes) as [|n l]; [|by left].
  destruct (configuredControlPlane nodes) as [cp|]; [|by apply not_elem_of_nil in Hs]. right. by exists cp.
Qed.

Definition is_apply (s : Step) : bool := match s with SApply _ _ => true | _ => false end.
Definition is_bootstrap (s : Step) : bool := match s with SBootstrap _ => true | _ => false end.

(** The fixed part of a plan, by cases *)
Ltac each_step :=
  repeat (match goal with
          | |- Forall _ (if ?c then _ else _) => destruct c
          | |- Forall _ (_ ++ _) => apply Forall_app; split
          | |- Forall _ (_ :: _) => apply Forall_cons; split; [done|]
          | |- Forall _ [] => apply Forall_nil_2
          end).

Lemma converge_no_apply nodes cp s : s ∈ converge_plan request nodes cp -> is_apply s = false.
Proof.
  revert s. apply Forall_forall. unfold converge_plan, cilium_plan, flannel_plan, storage_plan. apply Forall_app. split; [apply Forall_fmap, Forall_forall; done|]. each_step.
Qed.

(** One marked element splits a list in one way. *)
Lemma split_unique {A} (P : A -> bool) l1 x l2 m1 y m2 : l1 ++ x :: l2 = m1 ++ y :: m2 -> P y = true ->
  Forall (fun z => P z = false) l1 -> Forall (fun z => P z = false) l2 -> m1 = l1 /\ y = x.
Proof.
  revert m1. induction l1 as [|a l1 IH]; intros [|c m1] E Hy H1 H2; cbn in E; [by injection E as -> ->| | |].
  - injection E as -> E. exfalso. rewrite Forall_forall in H2. assert (y ∈ l2) as Hin%H2 by (rewrite E; set_solver). congruence.
  - injection E as -> E. apply Forall_cons in H1 as [H1 _]. congruence.
  - injection E as -> E. apply Forall_cons in H1 as [_ H1]. destruct (IH m1 E Hy H1 H2) as [-> ->]. done.
Qed.

Lemma bootstrap_split nodes cp acc ip l : converge_plan request nodes cp = acc ++ SBootstrap ip :: l ->
  ip = pn_IP cp /\ acc = (fun n => SPatch (pn_IP n) (target_for request cp n)) <$> nodes.
Proof.
  intros E. unfold converge_plan in E. cbn [app] in E.
  destruct (split_unique is_bootstrap _ _ _ _ _ _ E eq_refl) as [-> [= ->]]; [apply Forall_fmap, Forall_forall; done| |done].
  unfold cilium_plan, flannel_plan, storage_plan. each_step.
Qed.
End Consequences.

(** A leased control plane has an observed address. *)
Lemma leased_observed nodes name : leased nodes !! name = Some true -> is_Some (observed_ips nodes !! name).
Proof.
  unfold leased, observed_ips. induction nodes as [|n nodes IH] using rev_ind; [cbn [foldl]; by rewrite lookup_empty|]. rewrite !foldl_app. cbn [foldl].
  destruct (decide (pn_Name n = name)) as [<-|Hne].
  - rewrite lookup_insert_eq. intros [= E]. apply negb_true_iff in E. rewrite E, lookup_insert_eq. by eexists.
  - rewrite lookup_insert_ne by done. intros Hl. destruct (no_ip n); [by apply IH|]. rewrite lookup_insert_ne by done. by apply IH.
Qed.

Lemma unleased_nil item nodes n : unleasedControlPlanes item nodes = [] -> n ∈ controlPlanes item -> is_Some (observed_ips nodes !! n_Name n).
Proof.
  unfold unleasedControlPlanes. intros E Hn. apply leased_observed. destruct (leased nodes !! n_Name n) as [[]|] eqn:El; [done|exfalso..];
    (assert (Hin : n ∈ List.filter (fun n => negb (default false (leased nodes !! n_Name n))) (controlPlanes item)) by
       (apply list_elem_of_In, filter_In; split; [by apply list_elem_of_In|by rewrite El]));
    apply (list_elem_of_fmap_2 n_Name) in Hin; rewrite E in Hin; by apply not_elem_of_nil in Hin.
Qed.

(** The endpoint generated for is the lease of a control plane. *)
Lemma observed_controlPlane item nodes cp : unleasedControlPlanes item nodes = [] ->
  (clusterControlPlane (clusterWithObservedAddresses item nodes)).1 = Some cp ->
  n_Role cp = RoleControlPlane /\ observed_ips nodes !! n_Name cp = Some (n_IP cp).
Proof.
  intros Hu Hcp. unfold clusterControlPlane in Hcp. rewrite observed_readdress, readdress_controlPlanes in Hcp. cbn [fst] in Hcp.
  apply List.find_some in Hcp as [Hin _]. apply list_elem_of_In, list_elem_of_fmap in Hin as (n & -> & Hn). cbn [n_Role n_Name n_IP].
  destruct (unleased_nil item nodes n Hu Hn) as [ip ->]. split; [|done]. unfold controlPlanes in Hn. apply list_elem_of_In, filter_In in Hn as [_ Hn]. by apply String.eqb_eq in Hn.
Qed.

(** C13: Bootstrap waits for the whole cluster.  Whenever a run calls bootstrap, the last
    observation had every control plane leased and every node configured, the call goes to
    the first configured control plane, and since that observation the config of every
    node was repaired to name exactly that control plane's endpoint. *)
Theorem bootstrap_after_repairs `{Yaml, Talos} expired fault fresh observe apply_ patch_ boot kube ready pki bgp dis lb storage dir fuel request w w' r pre ip ok_ post :
  (forall t nodes, observe t = Some nodes -> Forall (fun n => plain (pn_IP n)) nodes) ->
  Forall (fun n => plain (n_IP n)) (c_Nodes (rq_Cluster request)) ->
  w_log w = [] ->
  Reconcile expired fault fresh observe apply_ patch_ boot kube ready pki bgp dis lb storage dir fuel request w = (w', r) ->
  w_log w' = pre ++ Called (SBootstrap ip) ok_ :: post ->
  exists nodes cp, last_observed pre = Some nodes /\ unleasedControlPlanes (rq_Cluster request) nodes = [] /\
    configuredControlPlane nodes = Some cp /\ ip = pn_IP cp /\
    accomplished pre = (fun n => SPatch (pn_IP n) (mkTarget (kubernetesEndpoint ip) (String.eqb (pn_Role n) RoleControlPlane) (negb (clusterHasWorkers (rq_Cluster request))))) <$> nodes.
Proof.
  intros H1 H2 Hw Hr Hlog. pose proof (post_reconcile expired fault fresh observe apply_ patch_ boot kube ready pki bgp dis lb storage dir request H1 H2 fuel w Hw) as G.
  unfold runs in G. rewrite Hr in G. cbn [fst snd] in G. rewrite Hlog in G. destruct G as [[G _]|(b & _ & rest & [_ Hm] & _)]; [by destruct pre|]. rewrite Hlog in Hm.
  destruct (monitor_next b request _ _ _ _ _ Hm) as (nodes & l & Hn & Hp). destruct (plan_cases b request nodes (SBootstrap ip)) as (Hu & Hcase); [rewrite Hp; set_solver|].
  exists nodes. destruct Hcase as [E|(cp & Hcp & E)]; rewrite Hp in E.
  - exfalso. assert (Hin : SBootstrap ip ∈ (fun n => SApply (pn_IP n) (node_config b request nodes n)) <$> List.filter maintained nodes) by (rewrite <- E; set_solver).
    by apply list_elem_of_fmap in Hin as (n & ? & _).
  - symmetry in E. destruct (bootstrap_split request nodes cp _ _ _ E) as [-> ->]. by exists cp.
Qed.

(** A node is never configured for an address nothing answers on.  Whenever a run
    applies a config, it goes to a node the last observation saw in maintenance, and the
    endpoint it was generated for is the lease, in that same observation, of a control
    plane; with the config, the node is in the state the later repairs enforce for that
    endpoint: they report no drift. *)
Theorem applied_configs_settled `{YamlLaws, Talos, !TalosLaws} expired fault fresh observe apply_ patch_ boot kube ready pki bgp dis lb storage dir fuel request w w' r pre ip config ok_ post :
  (forall t nodes, observe t = Some nodes -> Forall (fun n => plain (pn_IP n)) nodes) ->
  Forall (fun n => plain (n_IP n)) (c_Nodes (rq_Cluster request)) ->
  w_log w = [] ->
  Reconcile expired fault fresh observe apply_ patch_ boot kube ready pki bgp dis lb storage dir fuel request w = (w', r) ->
  w_log w' = pre ++ Called (SApply ip (Ok config)) ok_ :: post ->
  exists nodes n cp, last_observed pre = Some nodes /\ n ∈ nodes /\ pn_Phase n = PhaseMaintenance /\ pn_IP n = ip /\
    n_Role cp = RoleControlPlane /\ observed_ips nodes !! n_Name cp = Some (n_IP cp) /\
    withConfigTarget config (mkTarget (kubernetesEndpoint (n_IP cp)) (String.eqb (pn_Role n) RoleControlPlane) (negb (clusterHasWorkers (rq_Cluster request)))) = Ok (config, no_changes).
Proof.
  intros Hpo Hpp Hw Hr Hlog. pose proof (post_reconcile expired fault fresh observe apply_ patch_ boot kube ready pki bgp dis lb storage dir request Hpo Hpp fuel w Hw) as G.
  unfold runs in G. rewrite Hr in G. cbn [fst snd] in G. rewrite Hlog in G. destruct G as [[G _]|(b & _ & rest & [_ Hm] & _)]; [by destruct pre|]. rewrite Hlog in Hm.
  destruct (monitor_next b request _ _ _ _ _ Hm) as (nodes & l & Hn & Hp). destruct (plan_cases b request nodes (SApply ip (Ok config))) as (Hu & Hcase); [rewrite Hp; set_solver|].
  destruct Hcase as [E|(cp & Hcp & E)]; rewrite Hp in E;
    [|assert (Hin : SApply ip (Ok config) ∈ converge_plan request nodes cp) by (rewrite <- E; set_solver); by apply converge_no_apply in Hin].
  assert (Hin : SApply ip (Ok config) ∈ (fun n => SApply (pn_IP n) (node_config b request nodes n)) <$> List.filter maintained nodes) by (rewrite <- E; set_solver).
  apply list_elem_of_fmap in Hin as (n & [= -> Hcfg] & Hin). apply list_elem_of_In, filter_In in Hin as [Hin Hmt]. apply String.eqb_eq in Hmt.
  unfold node_config in Hcfg. destruct (role_config b _ (pn_Role n)) as [base|] eqn:Eb; [|done]. cbn in Hcfg. symmetry in Hcfg.
  destruct (clusterControlPlane (clusterWithObservedAddresses (rq_Cluster request) nodes)).1 as [cp|] eqn:Ecp; [|unfold role_config in Eb; by rewrite Ecp in Eb].
  destruct (observed_controlPlane _ _ _ Hu Ecp) as [Hrole Hip]. exists nodes, n, cp. split_and!; try done; [by apply list_elem_of_In|].
  pose proof (fresh_config_needs_no_repair b _ cp (pn_Role n) (pn_Name n) base config Ecp Eb Hcfg) as [G _].
  rewrite observed_readdress, readdress_workers in G. exact G.
Qed.

(** ** A run *)

Module Demo.
Import Codec Generator.

Definition planned : list Node := [mkNode "dev-cp-1" RoleControlPlane "02:00:00:00:07:02" "172.30.7.2"; mkNode "dev-worker-1" RoleWorker "02:00:00:00:07:03" "172.30.7.3"].
Definition demo_item : Cluster :=
  mkCluster "dev" 0 7 1 1 (mkDefaults 2 4096 20) None None (mkIntent CNICilium "longhorn" true false true false) planned "" "" None "" "" "" "" false "".
Definition demo_request : Request := mkRequest demo_item true true true true true false.

(** The control plane leases an address other than the planned one, the nodes come up in
    maintenance, then configured. *)
Definition seen (phase : Phase) (cp : string) : list PNode := [mkPNode "dev-cp-1" RoleControlPlane cp phase; mkPNode "dev-worker-1" RoleWorker "172.30.7.3" phase].
Definition demo_observe (t : nat) : option (list PNode) :=
  Some (if bool_decide (t <= 5)%nat then seen PhaseMaintenance "" else if bool_decide (t <= 12)%nat then seen PhaseMaintenance "172.30.7.50" else seen PhaseConfigured "172.30.7.50").

Definition demo_expired (t : nat) : bool := bool_decide (200 <= t)%nat.
Definition never (t : nat) : bool := false.
Definition always (t : nat) : bool := true.
Definition demo_secrets (t : nat) : Bundle := tt.
Definition demo_patch (t : nat) (ip : string) (target : ConfigTarget) : result rpc_error ConfigChanges := Ok no_changes.
Definition demo_boot (t : nat) : option rpc_error :=
  if bool_decide (t <= 17)%nat then Some (mkRpc Unavailable "connection refused") else Some (mkRpc OtherCode "etcd is Already Bootstrapped").
Definition demo_kube (t : nat) : result rpc_error string := Ok "kubeconfig".
Definition demo_ready (t : nat) : bool := bool_decide (27 <= t)%nat.
Definition demo_lb (t : nat) : option LoadBalancerResult := Some (mkLB "172.30.7.200" []).
Definition demo_storage (t : nat) : option StorageResult := Some (mkStorage StoragePhaseLive true [] []).
Definition demo_start : World := mkWorld 0 (Some (tt : Bundle)) [] [].

#[local] Abbreviation demo_run := (Reconcile demo_expired never demo_secrets demo_observe always demo_patch demo_boot demo_kube demo_ready always always always
  demo_lb demo_storage "/c/dev" 201 demo_request demo_start).
Definition demo_end : World := demo_run.1.

(** The calls of the run; the config of an application is left out here. *)
Definition brief (e : Entry) : Entry := match e with Called (SApply ip _) good => Called (SApply ip (Err NilMap)) good | e => e end.

Example demo_log :
  let target role := mkTarget "https://172.30.7.50:6443" role false in
  brief <$> w_log demo_end =
    [Observed (seen PhaseMaintenance ""); Observed (seen PhaseMaintenance "172.30.7.50");
     Called (SApply "172.30.7.50" (Err NilMap)) true; Called (SApply "172.30.7.3" (Err NilMap)) true;
     Observed (seen PhaseConfigured "172.30.7.50");
     Called (SPatch "172.30.7.50" (target true)) true; Called (SPatch "172.30.7.3" (target false)) true;
     Called (SBootstrap "172.30.7.50") false; Called (SBootstrap "172.30.7.50") true;
     Called (SKubeconfig "172.30.7.50") true; Called SWriteKubeconfig true; Called SIngressPKI true; Called SCilium true; Called SDisableBGP true;
     Called (SReady ["dev-cp-1"; "dev-worker-1"]) false; Called (SReady ["dev-cp-1"; "dev-worker-1"]) true; Called SStorage true].
Proof. vm_compute. reflexivity. Qed.

Lemma demo_plain t nodes : demo_observe t = Some nodes -> Forall (fun n => plain (pn_IP n)) nodes.
Proof. unfold demo_observe. intros [= <-]. repeat case_bool_decide; repeat constructor. Qed.

Lemma demo_planned : Forall (fun n => plain (n_IP n)) (c_Nodes (rq_Cluster demo_request)).
Proof. repeat constructor. Qed.

Lemma demo_run_end : demo_run = (demo_end, demo_run.2).
Proof. exact (surjective_pairing _). Qed.

Lemma reconcile_returns_witness : demo_run.2 <> Err OutOfFuel.
Proof.
  apply (reconcile_returns demo_expired never demo_secrets demo_observe always demo_patch demo_boot demo_kube demo_ready always always always
    demo_lb demo_storage "/c/dev" 200 201 demo_request demo_start); [|lia]. intros t Ht. by apply bool_decide_eq_true.
Defined.

Lemma reconcile_follows_plan_witness : monitor (tt : Bundle) demo_request [] (w_log demo_end) = Some [].
Proof.
  destruct (reconcile_follows_plan demo_expired never demo_secrets demo_observe always demo_patch demo_boot demo_kube demo_ready always always always
    demo_lb demo_storage "/c/dev" 201 demo_request demo_start demo_end demo_run.2 demo_plain demo_planned eq_refl demo_run_end) as [[E _]|([] & rest & _ & _ & Hm & Hr)].
  - exfalso. assert (Hl : length (w_log demo_end) = 17%nat) by (vm_compute; reflexivity). rewrite E in Hl. discriminate Hl.
  - assert (Eok : is_ok demo_run.2 = true) by (vm_compute; reflexivity). destruct demo_run.2; [|discriminate Eok]. destruct Hr as [-> _]. exact Hm.
Defined.

Lemma bootstrap_after_repairs_witness : exists nodes, last_observed (take 7 (w_log demo_end)) = Some nodes /\ length (accomplished (take 7 (w_log demo_end))) = length nodes.
Proof.
  assert (El : w_log demo_end = take 7 (w_log demo_end) ++ Called (SBootstrap "172.30.7.50") false :: drop 8 (w_log demo_end)) by (vm_compute; reflexivity).
  destruct (bootstrap_after_repairs demo_expired never demo_secrets demo_observe always demo_patch demo_boot demo_kube demo_ready always always always
    demo_lb demo_storage "/c/dev" 201 demo_request demo_start demo_end demo_run.2 _ "172.30.7.50" false _ demo_plain demo_planned eq_refl demo_run_end El)
    as (nodes & cp & Hn & _ & _ & _ & E). exists nodes. split; [exact Hn|]. rewrite E. apply length_fmap.
Defined.

Definition demo_applied : string := match w_log demo_end !! 2%nat with Some (Called (SApply _ (Ok config)) _) => config | _ => EmptyString end.

Lemma applied_configs_settled_witness : exists target, Endpoint target = "https://172.30.7.50:6443" /\ withConfigTarget demo_applied target = Ok (demo_applied, no_changes).
Proof.
  assert (El : w_log demo_end = take 2 (w_log demo_end) ++ Called (SApply "172.30.7.50" (Ok demo_applied)) true :: drop 3 (w_log demo_end)) by (vm_compute; reflexivity).
  destruct (applied_configs_settled demo_expired never demo_secrets demo_observe always demo_patch demo_boot demo_kube demo_ready always always always
    demo_lb demo_storage "/c/dev" 201 demo_request demo_start demo_end demo_run.2 _ "172.30.7.50" demo_applied true _ demo_plain demo_planned eq_refl demo_run_end El)
    as (nodes & n & cp & Hn & _ & _ & _ & _ & Hip & G).
  exists (mkTarget (endpoint_of (default ∅ (first_document demo_applied))) (String.eqb (pn_Role n) RoleControlPlane) (negb (clusterHasWorkers (rq_Cluster demo_request)))).
  split; [vm_compute; reflexivity|]. destruct (config_target_endpoint _ _ _ _ G) as (d & Ed & Ee). rewrite Ed. change (default ∅ (Some d)) with d. rewrite Ee. exact G.
Defined.
End Demo.
