(* ===== verification/ProvisionTasks.v ===== *)
(** * Provisioning passes of the daemon ([internal/daemon]: provision.go, the BGP
      registration of bgp.go)

    Requests register passes over clusters, threads run them, status refreshes start
    storage probes, and stop, suspend, destroy and new requests cancel them, all at once.
    Everything they share is under one mutex, so the system is a sequence of the locked
    regions, in any order the threads allow. *)

From stdpp Require Import base list gmap strings relations.
From Stdlib Require Import ZArith Lia.
From S2P Require Import Prelude Cluster.

Local Open Scope Z_scope.

(** ** Shared state *)

Inductive StoragePhase := StoragePhaseProvisioning | StoragePhaseLive | StoragePhaseFailed.

#[global] Instance StoragePhase_eq_dec : EqDecision StoragePhase.
Proof. solve_decision. Defined.

Record activeProvision := mkActive { a_generation : nat; a_skipStorage : bool }.
Record provisionBlocker := mkBlocker { b_gate : string; b_message : string; b_at : Z }.
Record storageProbeFailure := mkProbeFailure { f_message : string; f_at : Z; f_pending : bool }.

Record Server := mkServer {
  provisions : gmap string activeProvision;
  cancelled : gset nat;
  provisionSequence : nat;
  storagePhases : gmap string StoragePhase;
  storageFailures : gmap string string;
  storageProbeFailures : gmap string storageProbeFailure;
  provisionBlockers : gmap string provisionBlocker;
  storageStatusProbes : gmap string nat;
  storageProbeSequence : nat
}.

Record provisionTask := mkTask { t_item : Cluster; t_generation : nat; t_skipStorage : bool }.
Definition t_name (t : provisionTask) : string := c_Name (t_item t).

Definition set_provisions (f : gmap string activeProvision -> gmap string activeProvision) (s : Server) : Server :=
  mkServer (f (provisions s)) (cancelled s) (provisionSequence s) (storagePhases s) (storageFailures s) (storageProbeFailures s) (provisionBlockers s)
    (storageStatusProbes s) (storageProbeSequence s).
Definition set_phases (f : gmap string StoragePhase -> gmap string StoragePhase) (s : Server) : Server :=
  mkServer (provisions s) (cancelled s) (provisionSequence s) (f (storagePhases s)) (storageFailures s) (storageProbeFailures s) (provisionBlockers s)
    (storageStatusProbes s) (storageProbeSequence s).
Definition set_failures (f : gmap string string -> gmap string string) (s : Server) : Server :=
  mkServer (provisions s) (cancelled s) (provisionSequence s) (storagePhases s) (f (storageFailures s)) (storageProbeFailures s) (provisionBlockers s)
    (storageStatusProbes s) (storageProbeSequence s).
Definition set_probeFailures (f : gmap string storageProbeFailure -> gmap string storageProbeFailure) (s : Server) : Server :=
  mkServer (provisions s) (cancelled s) (provisionSequence s) (storagePhases s) (storageFailures s) (f (storageProbeFailures s)) (provisionBlockers s)
    (storageStatusProbes s) (storageProbeSequence s).
Definition set_blockers (f : gmap string provisionBlocker -> gmap string provisionBlocker) (s : Server) : Server :=
  mkServer (provisions s) (cancelled s) (provisionSequence s) (storagePhases s) (storageFailures s) (storageProbeFailures s) (f (provisionBlockers s))
    (storageStatusProbes s) (storageProbeSequence s).
Definition set_probes (f : gmap string nat -> gmap string nat) (s : Server) : Server :=
  mkServer (provisions s) (cancelled s) (provisionSequence s) (storagePhases s) (storageFailures s) (storageProbeFailures s) (provisionBlockers s)
    (f (storageStatusProbes s)) (storageProbeSequence s).
Definition cancel (generation : nat) (s : Server) : Server :=
  mkServer (provisions s) ({[generation]} ∪ cancelled s) (provisionSequence s) (storagePhases s) (storageFailures s) (storageProbeFailures s) (provisionBlockers s)
    (storageStatusProbes s) (storageProbeSequence s).

(** ** Registering passes *)

Definition reconcilesCNI (item : Cluster) : bool := String.eqb (CNI (c_Intent item)) CNIFlannel || String.eqb (CNI (c_Intent item)) CNICilium.
Definition has_storage (item : Cluster) : bool := negb (String.eqb (CSI (c_Intent item)) EmptyString).

Definition invalidateStoragePhaseLocked (name : string) (s : Server) : Server :=
  set_probes (delete name) (set_blockers (delete name) (set_failures (delete name) (set_probeFailures (delete name) (set_phases (delete name) s)))).

Definition register (item : Cluster) (skipStorage : bool) (s : Server) : Server :=
  let generation := S (provisionSequence s) in
  mkServer (<[c_Name item := mkActive generation skipStorage]> (provisions s)) (cancelled s) generation (storagePhases s) (storageFailures s)
    (storageProbeFailures s) (provisionBlockers s) (storageStatusProbes s) (storageProbeSequence s).

Definition supersede (name : string) (s : Server) : Server := match provisions s !! name with Some active => cancel (a_generation active) s | None => s end.

Definition begin_one (skipStorage : bool) (st : Server * list provisionTask) (item : Cluster) : Server * list provisionTask :=
  let '(s, tasks) := st in
  if negb (reconcilesCNI item) then (s, tasks)
  else
    let s := if has_storage item && negb skipStorage then set_phases (<[c_Name item := StoragePhaseProvisioning]>) (invalidateStoragePhaseLocked (c_Name item) s) else s in
    let s := register item skipStorage (supersede (c_Name item) s) in
    (s, tasks ++ [mkTask item (provisionSequence s) skipStorage]).

Definition beginProvisionTasksScopedLocked (items : list Cluster) (skipStorage : bool) (s : Server) : Server * list provisionTask :=
  foldl (begin_one skipStorage) (s, []) items.

Definition beginProvisionTasksLocked (items : list Cluster) (s : Server) : Server * list provisionTask := beginProvisionTasksScopedLocked items false s.

Definition clusterIsProvisioned (item : Cluster) : bool := reconcilesCNI item.

(** [beginNodeMutationProvisionLocked]: the passes, and whether the reconcile was put off *)
Definition beginNodeMutationProvisionLocked (item : Cluster) (allNodesRunning : bool) (s : Server) : Server * list provisionTask * bool :=
  if negb allNodesRunning then
    (invalidateStoragePhaseLocked (c_Name item) s, [], clusterIsProvisioned item && negb (bool_decide (c_Nodes item = [])))
  else (beginProvisionTasksLocked [item] s, false).

(** A mode change of BGP takes over the storage work of the pass it cancels. *)
Definition beginBGPProvisionLocked (item : Cluster) (allNodesRunning : bool) (s : Server) : Server * list provisionTask * bool :=
  if negb allNodesRunning then (s, [], clusterIsProvisioned item && negb (bool_decide (c_Nodes item = [])))
  else
    let skipStorage := match provisions s !! c_Name item with Some active => a_skipStorage active | None => true end in
    (beginProvisionTasksScopedLocked [item] skipStorage s, false).

(** ** Ending and cancelling passes *)

Definition is_current (name : string) (generation : nat) (s : Server) : bool :=
  match provisions s !! name with Some active => bool_decide (a_generation active = generation) | None => false end.

Definition retire (name : string) (s : Server) : Server := set_blockers (delete name) (set_provisions (delete name) s).

Definition finishProvision (t : provisionTask) (s : Server) : Server :=
  if is_current (t_name t) (t_generation t) s then retire (t_name t) (cancel (t_generation t) s) else s.

Definition cancelProvisionLocked (name : string) (s : Server) : Server :=
  match provisions s !! name with Some active => retire name (cancel (a_generation active) s) | None => s end.

(** The locked part of [drainProvision]: the generation whose end is waited for *)
Definition drainProvision (name : string) (s : Server) : Server * option nat :=
  (cancelProvisionLocked name s, a_generation <$> provisions s !! name).

Definition cancelProvisionForHandover (name : string) (s : Server) : Server :=
  match provisions s !! name with Some active => cancel (a_generation active) s | None => s end.

Definition cancelAllProvisionsLocked (s : Server) : Server :=
  foldr cancelProvisionLocked s (fst <$> map_to_list (provisions s)).

(** ** What passes and probes record *)

Definition observeProvisionGate (name : string) (generation : nat) (gate message : string) (now : Z) (s : Server) : Server :=
  if is_current name generation s then set_blockers (<[name := mkBlocker gate message now]>) s else s.

(** An empty phase stands for [provisioning]. *)
Definition recordStoragePhaseLocked (name : string) (phase : option StoragePhase) (s : Server) : Server :=
  let phase := default StoragePhaseProvisioning phase in
  let s := if bool_decide (phase <> StoragePhaseFailed) then set_failures (delete name) s else s in
  set_phases (<[name := phase]>) s.

Definition recordStoragePhaseIfCurrentLocked (name : string) (generation : nat) (phase : option StoragePhase) (s : Server) : Server :=
  if is_current name generation s then recordStoragePhaseLocked name phase s else s.

Definition recordStorageFailureIfCurrentLocked (name : string) (generation : nat) (cause : string) (s : Server) : Server :=
  if is_current name generation s then
    let s := set_blockers (delete name) (set_probeFailures (delete name) (set_probes (delete name) s)) in
    recordStoragePhaseLocked name (Some StoragePhaseFailed) (set_failures (<[name := cause]>) s)
  else s.

(** What a pass came to: a phase or an error, which may be marked as one of storage *)
Inductive outcome := Passed (phase : option StoragePhase) | Aborted (storage : bool) (cause : string).

Definition failed (o : outcome) : bool := match o with Passed _ => false | Aborted _ _ => true end.

(** A phase a pass can have ([storagePhaseFromProvisionResult]) *)
Definition outcome_ok (o : outcome) : Prop := o <> Passed (Some StoragePhaseFailed).

(** The first locked region of [runProvisionTasks] after a pass *)
Definition record_outcome (t : provisionTask) (o : outcome) (s : Server) : Server :=
  if has_storage (t_item t) && negb (t_skipStorage t) then
    match o with
    | Aborted true cause => recordStorageFailureIfCurrentLocked (t_name t) (t_generation t) cause s
    | Aborted false _ => recordStoragePhaseIfCurrentLocked (t_name t) (t_generation t) None s
    | Passed phase => recordStoragePhaseIfCurrentLocked (t_name t) (t_generation t) phase s
    end
  else s.

Definition storageProbeRetryBackoff : Z := 60 * 1000000000.
Definition provisionBlockerFreshness : Z := 10 * 1000000000.

Definition backing_off (name : string) (now : Z) (s : Server) : bool :=
  match storageProbeFailures s !! name with Some f => now - f_at f <? storageProbeRetryBackoff | None => false end.

(** [beginStorageStatusProbe]: the generation of the probe, if one is started *)
Definition beginStorageStatusProbe (name : string) (clusterRunning : bool) (now : Z) (s : Server) : Server * option nat :=
  if negb clusterRunning || backing_off name now s || bool_decide (storagePhases s !! name = Some StoragePhaseLive)
    || bool_decide (storagePhases s !! name = Some StoragePhaseFailed) || bool_decide (is_Some (storageStatusProbes s !! name)) then (s, None)
  else
    let generation := S (storageProbeSequence s) in
    (mkServer (provisions s) (cancelled s) (provisionSequence s) (storagePhases s) (storageFailures s) (storageProbeFailures s) (provisionBlockers s)
       (<[name := generation]> (storageStatusProbes s)) generation, Some generation).

Inductive probe_result := ProbeLive | ProbePending (message : string) | ProbeFailed (message : string).

(** The locked region of [runStorageStatusProbe] *)
Definition runStorageStatusProbe (name : string) (generation : nat) (r : probe_result) (clusterRunning : bool) (now : Z) (s : Server) : Server :=
  if bool_decide (storageStatusProbes s !! name = Some generation) then
    let s := set_probes (delete name) s in
    if negb clusterRunning then s
    else match r with
         | ProbePending message => set_probeFailures (<[name := mkProbeFailure message now true]>) s
         | ProbeFailed message => set_probeFailures (<[name := mkProbeFailure message now false]>) s
         | ProbeLive => recordStoragePhaseLocked name (Some StoragePhaseLive) (set_probeFailures (delete name) s)
         end
  else s.

(** The storage part of a status ([refreshStoragePhases]) *)
Record storageStatus := mkStatus { ss_phase : option StoragePhase; ss_error : string; ss_pending : string; ss_gate : string; ss_probe : bool }.

Definition refreshStoragePhase (name : string) (csi running ready : bool) (now : Z) (s : Server) : storageStatus :=
  if negb csi || negb running then mkStatus None "" "" "" false
  else match storagePhases s !! name with
       | Some StoragePhaseLive => mkStatus (Some StoragePhaseLive) "" "" "" false
       | Some StoragePhaseFailed => mkStatus (Some StoragePhaseFailed) (default "" (storageFailures s !! name)) "" "" false
       | _ =>
           if bool_decide (is_Some (provisions s !! name)) || negb ready then
             match provisionBlockers s !! name with
             | Some b => if now - b_at b <? provisionBlockerFreshness then mkStatus (Some StoragePhaseProvisioning) (b_message b) "" (b_gate b) false
                         else mkStatus (Some StoragePhaseProvisioning) "" "" "" false
             | None => mkStatus (Some StoragePhaseProvisioning) "" "" "" false
             end
           else match storageProbeFailures s !! name with
                | Some f => if now - f_at f <? storageProbeRetryBackoff then
                              if f_pending f then mkStatus (Some StoragePhaseProvisioning) "" (f_message f) "" false
                              else mkStatus (Some StoragePhaseProvisioning) (f_message f) "" "" false
                            else mkStatus (Some StoragePhaseProvisioning) "" "" "" true
                | None => mkStatus (Some StoragePhaseProvisioning) "" "" "" true
                end
       end.

(** ** Threads

    [runProvisionTasks] runs the passes of one request in turn. Its locked regions and
    the closing of a pass's channel are steps of their own. *)

Inductive stage := Running | Recorded (err : bool) | Retired (err : bool) | Failing | Closing.

Record thread := mkThread { th_tasks : list provisionTask; th_stage : stage }.

Inductive run_event := RGate (gate message : string) (now : Z) | RRecord (o : outcome) | RRetire | RClose | RCancelPending.

(** One step of the loop: the server and the thread after it, and the channels it closed *)
Definition runProvisionTasks (e : run_event) (th : thread) (s : Server) : option (Server * thread * list nat) :=
  match th_stage th, th_tasks th, e with
  | Running, t :: rest, RGate gate message now => Some (observeProvisionGate (t_name t) (t_generation t) gate message now s, th, [])
  | Running, t :: rest, RRecord o => Some (record_outcome t o s, mkThread (t :: rest) (Recorded (failed o)), [])
  | Recorded err, t :: rest, RRetire => Some (finishProvision t s, mkThread (t :: rest) (Retired err), [])
  | Retired err, t :: rest, RClose => Some (s, mkThread rest (if err then Failing else Running), [t_generation t])
  | Failing, pending, RCancelPending => Some (foldr cancelProvisionLocked s (t_name <$> pending), mkThread pending Closing, [])
  | Closing, t :: rest, RClose => Some (s, mkThread rest Closing, [t_generation t])
  | _, _, _ => None
  end.

(** The passes a thread has yet to close, to take out of the server, and to record *)
Definition owed (th : thread) : list provisionTask := th_tasks th.
Definition unretired (th : thread) : list provisionTask :=
  match th_stage th with Running | Recorded _ | Failing => th_tasks th | Retired _ => tail (th_tasks th) | Closing => [] end.
Definition todo (th : thread) : list provisionTask :=
  match th_stage th with Running => th_tasks th | Recorded _ | Retired _ => tail (th_tasks th) | Failing | Closing => [] end.

Record System := mkSystem { server : Server; threads : list thread; closed : list nat }.

Inductive event :=
| EBegin (items : list Cluster) | EMutate (item : Cluster) (allNodesRunning : bool) | EBGP (item : Cluster) (allNodesRunning : bool)
| ERun (e : run_event) | ECancel (name : string) | EHandover (name : string) | ECancelAll | EInvalidate (name : string)
| EProbe (name : string) (clusterRunning : bool) (now : Z)
| EProbed (name : string) (generation : nat) (r : probe_result) (clusterRunning : bool) (now : Z).

Definition spawn (c : System) (st : Server * list provisionTask) : System := mkSystem (fst st) (mkThread (snd st) Running :: threads c) (closed c).
Definition with_server (c : System) (s : Server) : System := mkSystem s (threads c) (closed c).

Inductive step (c : System) : event -> System -> Prop :=
| step_begin items : step c (EBegin items) (spawn c (beginProvisionTasksLocked items (server c)))
| step_mutate item running : step c (EMutate item running) (spawn c (fst (beginNodeMutationProvisionLocked item running (server c))))
| step_bgp item running : step c (EBGP item running) (spawn c (fst (beginBGPProvisionLocked item running (server c))))
| step_run pre th post e s' th' cs : threads c = pre ++ th :: post -> (forall o, e = RRecord o -> outcome_ok o) ->
    runProvisionTasks e th (server c) = Some (s', th', cs) -> step c (ERun e) (mkSystem s' (pre ++ th' :: post) (cs ++ closed c))
| step_cancel name : step c (ECancel name) (with_server c (fst (drainProvision name (server c))))
| step_handover name : step c (EHandover name) (with_server c (cancelProvisionForHandover name (server c)))
| step_cancel_all : step c ECancelAll (with_server c (cancelAllProvisionsLocked (server c)))
| step_invalidate name : step c (EInvalidate name) (with_server c (invalidateStoragePhaseLocked name (server c)))
| step_probe name running now : step c (EProbe name running now) (with_server c (fst (beginStorageStatusProbe name running now (server c))))
| step_probed name generation r running now :
    step c (EProbed name generation r running now) (with_server c (runStorageStatusProbe name generation r running now (server c))).

Definition start : System := mkSystem (mkServer ∅ ∅ 0 ∅ ∅ ∅ ∅ ∅ 0) [] [].
Definition moves (c c' : System) : Prop := exists e, step c e c'.
Definition reachable (c : System) : Prop := rtc moves start c.

Definition storage_pass (t : provisionTask) : bool := has_storage (t_item t) && negb (t_skipStorage t).
Definition all_owed (c : System) : list provisionTask := threads c ≫= owed.

(** ** What the maps of the server say together *)

Record coherent (s : Server) : Prop := mkCoherent {
  failures_named : forall n, is_Some (storageFailures s !! n) <-> storagePhases s !! n = Some StoragePhaseFailed;
  failures_unprobed : forall n, storagePhases s !! n = Some StoragePhaseFailed -> storageStatusProbes s !! n = None;
  blockers_served : forall n, is_Some (provisionBlockers s !! n) -> is_Some (provisions s !! n)
}.

(** No pass appears, and no storage fails. *)
Record quiet (s s' : Server) : Prop := mkQuiet {
  quiet_sequence : provisionSequence s' = provisionSequence s;
  quiet_provisions : forall n a, provisions s' !! n = Some a -> provisions s !! n = Some a;
  quiet_phases : forall n, storagePhases s' !! n = Some StoragePhaseFailed -> storagePhases s !! n = Some StoragePhaseFailed
}.

Definition sticks (n : string) (s s' : Server) : Prop :=
  storagePhases s !! n = Some StoragePhaseFailed -> storagePhases s' !! n = Some StoragePhaseFailed /\ storageFailures s' !! n = storageFailures s !! n.

#[global] Instance quiet_preorder : PreOrder quiet.
Proof.
  split; [by intros s; split|]. intros s1 s2 s3 [E1 P1 F1] [E2 P2 F2]. split; [congruence|eauto|eauto].
Qed.

#[global] Instance sticks_preorder n : PreOrder (sticks n).
Proof. split; [by intros s ?|]. intros s1 s2 s3 H1 H2 F. destruct (H1 F) as [F1 E1]. destruct (H2 F1) as [F2 E2]. split; congruence. Qed.

(** The lookups of an updated map, by whether the key is the one updated *)
Ltac by_key n :=
  intros n; repeat match goal with
  | |- context [<[?k := _]> _ !! n] => destruct (decide (k = n)) as [->|]; simplify_map_eq
  | |- context [delete ?k _ !! n] => destruct (decide (k = n)) as [->|]; simplify_map_eq
  end.
Ltac by_cases := unfold is_Some in *; naive_solver.

Lemma cancel_coherent g s : coherent s -> coherent (cancel g s).
Proof. by intros [? ? ?]; split. Qed.

Lemma invalidate_coherent n s : coherent s -> coherent (invalidateStoragePhaseLocked n s).
Proof. intros [F P B]. split; simpl; by_key k; by_cases. Qed.

Lemma retire_coherent n s : coherent s -> coherent (retire n s).
Proof. intros [F P B]. split; simpl; [apply F|apply P|]. by_key k; by_cases. Qed.

Lemma cancelProvision_coherent n s : coherent s -> coherent (cancelProvisionLocked n s).
Proof. unfold cancelProvisionLocked. case_match; auto using retire_coherent, cancel_coherent. Qed.

Lemma finish_coherent t s : coherent s -> coherent (finishProvision t s).
Proof. unfold finishProvision. case_match; auto using retire_coherent, cancel_coherent. Qed.

Lemma cancels_coherent ns s : coherent s -> coherent (foldr cancelProvisionLocked s ns).
Proof. intros H. induction ns; simpl; auto using cancelProvision_coherent. Qed.

Lemma is_current_Some n g s : is_current n g s = true <-> exists a, provisions s !! n = Some a /\ a_generation a = g.
Proof. unfold is_current. case_match; [rewrite bool_decide_eq_true|]; naive_solver. Qed.

Lemma gate_coherent n g gate message now s : coherent s -> coherent (observeProvisionGate n g gate message now s).
Proof.
  intros [F P B]. unfold observeProvisionGate. case_match eqn:E; [|by split]. split; simpl; [apply F|apply P|].
  apply is_current_Some in E as (a & E & _). by_key k; eauto.
Qed.

Lemma recordPhase_coherent n phase s :
  coherent s -> phase <> Some StoragePhaseFailed -> coherent (recordStoragePhaseLocked n phase s).
Proof.
  intros [F P B] Hp. unfold recordStoragePhaseLocked. rewrite bool_decide_true by (destruct phase; naive_solver).
  split; simpl; [| |done]; by_key k; auto; destruct phase as [[]|]; simpl in *; by_cases.
Qed.

Lemma recordFailure_coherent n g cause s : coherent s -> coherent (recordStorageFailureIfCurrentLocked n g cause s).
Proof.
  intros [F P B]. unfold recordStorageFailureIfCurrentLocked. case_match; [|by split]. unfold recordStoragePhaseLocked. simpl.
  split; simpl; by_key k; by_cases.
Qed.

Lemma record_coherent t o s : coherent s -> outcome_ok o -> coherent (record_outcome t o s).
Proof.
  intros H Ho. unfold record_outcome, recordStoragePhaseIfCurrentLocked.
  repeat case_match; subst; auto using recordFailure_coherent; apply recordPhase_coherent; auto; try done. by intros ->.
Qed.

Lemma probe_coherent n running now s : coherent s -> coherent (fst (beginStorageStatusProbe n running now s)).
Proof.
  intros [F P B]. unfold beginStorageStatusProbe. case_match eqn:E; [by split|]. split; simpl; [done| |done].
  repeat (apply orb_false_iff in E as [E ?]). by_key k; auto. intros Hf. by rewrite Hf in *.
Qed.

Lemma probed_coherent n g r running now s : coherent s -> coherent (runStorageStatusProbe n g r running now s).
Proof.
  intros H. unfold runStorageStatusProbe. case_bool_decide; [|done].
  assert (coherent (set_probes (delete n) s)) as H'.
  { destruct H as [F P B]. split; simpl; [done| |done]. by_key k; auto. }
  repeat case_match; auto; try (destruct H' as [F P B]; by split).
  apply recordPhase_coherent; [|done]. destruct H' as [F P B]. by split.
Qed.

(** ** What each region leaves alone *)

Lemma cancel_quiet g s : quiet s (cancel g s).
Proof. by split. Qed.
Lemma retire_quiet n s : quiet s (retire n s).
Proof. split; simpl; [done| |done]. intros k a. rewrite lookup_delete_Some. by intros [? ?]. Qed.
Lemma invalidate_quiet n s : quiet s (invalidateStoragePhaseLocked n s).
Proof. split; simpl; [done|done|]. intros k. rewrite lookup_delete_Some. by intros [? ?]. Qed.
Lemma cancelProvision_quiet n s : quiet s (cancelProvisionLocked n s).
Proof. unfold cancelProvisionLocked. case_match; [|done]. etrans; [apply cancel_quiet|apply retire_quiet]. Qed.
Lemma finish_quiet t s : quiet s (finishProvision t s).
Proof. unfold finishProvision. case_match; [|done]. etrans; [apply cancel_quiet|apply retire_quiet]. Qed.
Lemma cancels_quiet ns s : quiet s (foldr cancelProvisionLocked s ns).
Proof. induction ns; simpl; [done|]. etrans; [eassumption|apply cancelProvision_quiet]. Qed.
Lemma gate_quiet n g gate message now s : quiet s (observeProvisionGate n g gate message now s).
Proof. unfold observeProvisionGate. by case_match. Qed.
Lemma recordPhase_quiet n phase s : phase <> Some StoragePhaseFailed -> quiet s (recordStoragePhaseLocked n phase s).
Proof.
  intros Hp. unfold recordStoragePhaseLocked. rewrite bool_decide_true by (destruct phase; naive_solver).
  split; simpl; [done|done|]. by_key k; destruct phase as [[]|]; naive_solver.
Qed.
Lemma probe_quiet n running now s : quiet s (fst (beginStorageStatusProbe n running now s)).
Proof. unfold beginStorageStatusProbe. by case_match. Qed.
Lemma probed_quiet n g r running now s : quiet s (runStorageStatusProbe n g r running now s).
Proof.
  unfold runStorageStatusProbe. repeat case_match; try done.
  etrans; [|by apply recordPhase_quiet]. by split.
Qed.

Lemma quiet_current n g s s' : quiet s s' -> is_current n g s' = true -> is_current n g s = true.
Proof. rewrite !is_current_Some. intros [_ P _] (a & Ha & ?). eauto. Qed.

(** A recorded outcome is quiet except that it may fail the storage of its own pass. *)
Lemma record_provisions t o s : provisions (record_outcome t o s) = provisions s /\ provisionSequence (record_outcome t o s) = provisionSequence s.
Proof.
  unfold record_outcome, recordStorageFailureIfCurrentLocked, recordStoragePhaseIfCurrentLocked, recordStoragePhaseLocked. by repeat case_match.
Qed.

Lemma record_fails t o s n :
  storagePhases (record_outcome t o s) !! n = Some StoragePhaseFailed -> storagePhases s !! n <> Some StoragePhaseFailed ->
  n = t_name t /\ is_current n (t_generation t) s = true.
Proof.
  intros Hf Hn. unfold record_outcome, recordStorageFailureIfCurrentLocked, recordStoragePhaseIfCurrentLocked in *.
  repeat case_match; try done; destruct (decide (t_name t = n)) as [<-|]; try done;
    unfold recordStoragePhaseLocked in Hf; case_bool_decide; by simplify_map_eq.
Qed.

(** The storage failure of a cluster stands through a record unless its own storage pass makes it. *)
Lemma record_sticks t o s n : (is_current (t_name t) (t_generation t) s = true -> storage_pass t = true -> t_name t <> n) -> sticks n s (record_outcome t o s).
Proof.
  intros Ht F. unfold record_outcome, recordStorageFailureIfCurrentLocked, recordStoragePhaseIfCurrentLocked, recordStoragePhaseLocked.
  fold (storage_pass t). destruct (storage_pass t); [|done]. repeat case_match; try done; simpl; rewrite ?lookup_insert_ne, ?lookup_delete_ne by auto; auto.
Qed.

Lemma sticks_same n s s' : storagePhases s' = storagePhases s -> storageFailures s' = storageFailures s -> sticks n s s'.
Proof. by intros E1 E2 ?; rewrite E1, E2. Qed.

Lemma invalidate_sticks n k s : k <> n -> sticks n s (invalidateStoragePhaseLocked k s).
Proof. intros Hk F. simpl. by rewrite !lookup_delete_ne. Qed.

Lemma cancelProvision_sticks n k s : sticks n s (cancelProvisionLocked k s).
Proof. unfold cancelProvisionLocked. case_match; by apply sticks_same. Qed.
Lemma cancels_sticks n ks s : sticks n s (foldr cancelProvisionLocked s ks).
Proof. induction ks; simpl; [done|]. etrans; [eassumption|apply cancelProvision_sticks]. Qed.

(** A probe that is still registered belongs to a cluster whose storage has not failed. *)
Lemma probed_sticks n k g r running now s : coherent s -> sticks n s (runStorageStatusProbe k g r running now s).
Proof.
  intros [_ P _] F. unfold runStorageStatusProbe. case_bool_decide as E; [|done].
  assert (k <> n) by (intros ->; rewrite P in E by done; done).
  repeat case_match; try done. unfold recordStoragePhaseLocked. simpl. by rewrite lookup_insert_ne, lookup_delete_ne.
Qed.

(** Passes that are cancelled are out of the server. *)
Lemma cancels_removed ns s n : n ∈ ns -> provisions (foldr cancelProvisionLocked s ns) !! n = None.
Proof.
  assert (forall k s, provisions (cancelProvisionLocked k s) !! k = None) as Hk.
  { intros k s'. unfold cancelProvisionLocked. case_match eqn:E; simpl; by simplify_map_eq. }
  induction ns as [|k ns IH]; [by intros ?%elem_of_nil|]. intros [->|Hn]%elem_of_cons; simpl; [apply Hk|].
  destruct (provisions (cancelProvisionLocked k _) !! n) as [a|] eqn:E; [|done].
  eapply quiet_provisions in E; [|apply cancelProvision_quiet]. by rewrite IH in E.
Qed.

Lemma finish_removed t s : is_current (t_name t) (t_generation t) (finishProvision t s) = false.
Proof. unfold finishProvision. case_match eqn:E; [|done]. unfold is_current. simpl. by rewrite lookup_delete_eq. Qed.

(** ** Registering *)

Record begun (items : list Cluster) (skip : bool) (s s' : Server) (ts : list provisionTask) : Prop := mkBegun {
  begun_items : forall t, t ∈ ts -> t_item t ∈ items /\ t_skipStorage t = skip /\ reconcilesCNI (t_item t) = true;
  begun_generations : t_generation <$> ts = seq (S (provisionSequence s)) (length ts);
  begun_sequence : provisionSequence s' = (provisionSequence s + length ts)%nat;
  begun_provisions : forall n a, provisions s' !! n = Some a ->
    (provisions s !! n = Some a /\ n ∉ t_name <$> ts) \/ exists t, t ∈ ts /\ t_name t = n /\ t_generation t = a_generation a;
  begun_phases : forall n, storagePhases s' !! n = Some StoragePhaseFailed -> storagePhases s !! n = Some StoragePhaseFailed;
  begun_storage : forall t, t ∈ ts -> storage_pass t = true -> storagePhases s' !! t_name t <> Some StoragePhaseFailed;
  begun_coherent : coherent s -> coherent s';
  begun_sticks : forall n, (forall t, t ∈ ts -> t_name t = n -> storage_pass t = false) -> sticks n s s'
}.

Lemma begun_refl items skip s : begun items skip s s [].
Proof. split; simpl; try done; try lia; set_solver. Qed.

(** The reset of the storage memo before a pass over storage *)
Definition reset_storage (item : Cluster) (skip : bool) (s : Server) : Server :=
  if has_storage item && negb skip then set_phases (<[c_Name item := StoragePhaseProvisioning]>) (invalidateStoragePhaseLocked (c_Name item) s) else s.

Lemma begin_one_eq skip s ts item : reconcilesCNI item = true ->
  begin_one skip (s, ts) item =
    (register item skip (supersede (c_Name item) (reset_storage item skip s)), ts ++ [mkTask item (S (provisionSequence s)) skip]).
Proof.
  intros H. unfold begin_one. rewrite H. unfold reset_storage, supersede. simpl. repeat (case_match; simpl; try done).
Qed.

Lemma reset_maps item skip s :
  provisions (reset_storage item skip s) = provisions s /\ provisionSequence (reset_storage item skip s) = provisionSequence s.
Proof. unfold reset_storage. by case_match. Qed.

Lemma register_maps item skip s :
  let s' := register item skip (supersede (c_Name item) s) in
  storagePhases s' = storagePhases s /\ storageFailures s' = storageFailures s /\ provisionSequence s' = S (provisionSequence s) /\
  provisions s' = <[c_Name item := mkActive (S (provisionSequence s)) skip]> (provisions s).
Proof. unfold supersede, register. by case_match. Qed.

Lemma register_coherent item skip s : coherent s -> coherent (register item skip (supersede (c_Name item) s)).
Proof.
  intros [F P B]. unfold supersede. case_match; split; simpl; auto; by_key k; eauto.
Qed.

Lemma reset_coherent item skip s : coherent s -> coherent (reset_storage item skip s).
Proof.
  intros H. unfold reset_storage. case_match; [|done]. apply (invalidate_coherent (c_Name item)) in H.
  destruct H as [F P B]. split; simpl in *; [| |apply B]; intros k; specialize (F k); specialize (P k); simpl in *;
    (destruct (decide (c_Name item = k)) as [<-|]; simplify_map_eq; by_cases).
Qed.

Lemma reset_phases item skip s n :
  storagePhases (reset_storage item skip s) !! n = Some StoragePhaseFailed ->
  storagePhases s !! n = Some StoragePhaseFailed /\ (has_storage item && negb skip = true -> c_Name item <> n).
Proof.
  unfold reset_storage. case_match; [|naive_solver]. simpl. destruct (decide (c_Name item = n)) as [<-|]; simplify_map_eq; naive_solver.
Qed.

Lemma reset_sticks item skip s n : (c_Name item = n -> has_storage item && negb skip = false) -> sticks n s (reset_storage item skip s).
Proof.
  intros H F. unfold reset_storage. case_match; [|done]. assert (c_Name item <> n) by naive_solver. simpl. by simplify_map_eq.
Qed.

Lemma begin_one_begun items skip s0 s ts item : item ∈ items ->
  begun items skip s0 s ts -> let st := begin_one skip (s, ts) item in begun items skip s0 (fst st) (snd st).
Proof.
  intros Hin [I G Sq Pr Ph St C K]. destruct (reconcilesCNI item) eqn:HC; [|unfold begin_one; rewrite HC; by split].
  rewrite begin_one_eq by done. simpl.
  destruct (reset_maps item skip s) as [RP RS].
  destruct (register_maps item skip (reset_storage item skip s)) as (EP & EF & ES & EV).
  set (s' := register _ _ _) in *. rewrite RP, RS in *. split; rewrite ?EP, ?ES, ?EV.
  - intros t. rewrite elem_of_app, list_elem_of_singleton. intros [Ht| ->]; auto.
  - rewrite fmap_app, length_app, G, seq_app, Sq. simpl. done.
  - rewrite length_app. simpl. lia.
  - intros n a. rewrite fmap_app. destruct (decide (c_Name item = n)) as [<-|Hn]; [rewrite lookup_insert_eq|rewrite lookup_insert_ne by done].
    + intros [= <-]. right. eexists. rewrite elem_of_app, list_elem_of_singleton. by split; [right|].
    + intros [[? ?]|(t & ? & ? & ?)]%Pr; [left|right; exists t; rewrite elem_of_app; auto].
      split; [done|]. unfold t_name at 2. set_solver.
  - intros n [H _]%reset_phases. auto.
  - intros t Ht Hs [F HF]%reset_phases. apply elem_of_app in Ht as [Ht|Ht]; [by eapply St|].
    apply list_elem_of_singleton in Ht as ->. unfold storage_pass in Hs. simpl in Hs. by apply HF.
  - intros H. apply register_coherent, reset_coherent, C, H.
  - intros n Hn. transitivity s; [apply K; intros; apply Hn; [apply elem_of_app; by left|done]|].
    etrans; [apply (reset_sticks item skip)|by apply sticks_same].
    intros Hi. apply (Hn (mkTask item (S (provisionSequence s)) skip)); [|done]. apply elem_of_app. right. by apply list_elem_of_singleton.
Qed.

Lemma begin_begun items skip s : let st := beginProvisionTasksScopedLocked items skip s in begun items skip s (fst st) (snd st).
Proof.
  unfold beginProvisionTasksScopedLocked. simpl. enough (forall l s' ts, (forall i, i ∈ l -> i ∈ items) -> begun items skip s s' ts ->
    begun items skip s (fst (foldl (begin_one skip) (s', ts) l)) (snd (foldl (begin_one skip) (s', ts) l))) as H by (apply H; [done|apply begun_refl]).
  induction l as [|item l IH]; intros s' ts Hl H; cbn [foldl]; [done|].
  apply (begin_one_begun _ _ _ _ _ item) in H; [|apply Hl; set_solver].
  destruct (begin_one skip (s', ts) item) as [s'' ts']. apply IH; [set_solver|done].
Qed.

(** ** The invariant of the whole *)

Record invariant (c : System) : Prop := mkInvariant {
  inv_coherent : coherent (server c);
  inv_counted : closed c ++ (t_generation <$> all_owed c) ≡ₚ seq 1 (provisionSequence (server c));
  inv_owned : forall n a, provisions (server c) !! n = Some a ->
    exists t, t ∈ threads c ≫= unretired /\ t_name t = n /\ t_generation t = a_generation a;
  inv_todo : forall t, t ∈ threads c ≫= todo -> storage_pass t = true -> is_current (t_name t) (t_generation t) (server c) = true ->
    storagePhases (server c) !! t_name t <> Some StoragePhaseFailed
}.

Lemma tail_subseteq {A} (l : list A) x : x ∈ tail l -> x ∈ l.
Proof. destruct l; simpl; [done|]. by right. Qed.

Lemma unretired_owed ths t : t ∈ ths ≫= unretired -> t ∈ ths ≫= owed.
Proof.
  rewrite !list_elem_of_bind. intros (th & Ht & Hth). exists th. split; [|done]. unfold unretired, owed in *.
  case_match; auto using tail_subseteq. by apply elem_of_nil in Ht.
Qed.
Lemma todo_owed ths t : t ∈ ths ≫= todo -> t ∈ ths ≫= owed.
Proof.
  rewrite !list_elem_of_bind. intros (th & Ht & Hth). exists th. split; [|done]. unfold todo, owed in *.
  case_match; auto using tail_subseteq; by apply elem_of_nil in Ht.
Qed.

Lemma owed_generation c t : invariant c -> t ∈ all_owed c -> (t_generation t <= provisionSequence (server c))%nat.
Proof.
  intros I Ht. assert (t_generation t ∈ seq 1 (provisionSequence (server c))) as H; [|apply elem_of_seq in H; lia].
  rewrite <- (inv_counted _ I), elem_of_app. right. by apply list_elem_of_fmap_2.
Qed.

(** No two passes share a generation. *)
Lemma head_unique c pre st t rest post : invariant c -> threads c = pre ++ mkThread (t :: rest) st :: post ->
  forall t', t' ∈ (pre ≫= owed) ++ rest ++ (post ≫= owed) -> t_generation t' <> t_generation t.
Proof.
  intros I E t' Ht' Heq.
  assert (NoDup (t_generation <$> all_owed c)) as ND.
  { eapply NoDup_app. rewrite (inv_counted _ I). apply NoDup_seq. }
  unfold all_owed in ND. rewrite E, bind_app, bind_cons in ND. unfold owed at 2 in ND. simpl in ND.
  rewrite Permutation_app_comm in ND. simpl in ND. rewrite NoDup_cons in ND. destruct ND as [ND _]. apply ND.
  rewrite <- Heq. apply list_elem_of_fmap_2. rewrite !elem_of_app in *. tauto.
Qed.

Lemma with_server_invariant c s : invariant c -> coherent s -> quiet (server c) s -> invariant (with_server c s).
Proof.
  intros [_ C O T] Hs Q. split; simpl; [done| | |].
  - by rewrite (quiet_sequence _ _ Q).
  - intros n a Ha. eapply O, quiet_provisions; eauto.
  - intros t Ht Hp Hc Hf. eapply T; eauto using quiet_current, quiet_phases.
Qed.

Lemma spawn_invariant c items skip s ts : invariant c -> begun items skip (server c) s ts -> invariant (spawn c (s, ts)).
Proof.
  intros I B. pose proof I as [Co C O T]. destruct B as [_ G Sq Pr Ph St Cb _]. unfold spawn. split; simpl; [auto| | |].
  - rewrite Sq, seq_app, <- C. unfold all_owed. simpl. rewrite fmap_app. unfold owed at 1. simpl. rewrite G. by rewrite (Permutation_app_comm (seq _ _)), app_assoc.
  - intros n a Ha. apply Pr in Ha as [[Ha _]|(t & Ht & ? & ?)]; [|exists t; rewrite elem_of_app; by eauto].
    apply O in Ha as (t & ? & ? & ?). exists t. rewrite elem_of_app. by eauto.
  - intros t. rewrite elem_of_app. intros [Ht|Ht] Hp Hc Hf; [by eapply St|]. eapply (T t); eauto.
    apply is_current_Some in Hc as (a & Ha & Hg). apply is_current_Some. apply Pr in Ha as [[Ha _]|(t' & Ht' & _ & Hg')]; [eauto|].
    apply (list_elem_of_fmap_2 t_generation) in Ht'. rewrite G, elem_of_seq in Ht'.
    apply todo_owed, (owed_generation _ _ I) in Ht. lia.
Qed.

Lemma elem_of_split (f : thread -> list provisionTask) pre th post t :
  t ∈ (pre ++ th :: post) ≫= f <-> t ∈ pre ≫= f \/ t ∈ f th \/ t ∈ post ≫= f.
Proof. by rewrite bind_app, bind_cons, !elem_of_app. Qed.

(** A thread moved and the server with it. *)
Lemma moved_invariant c pre th post s' th' cs :
  invariant c -> threads c = pre ++ th :: post -> coherent s' -> provisionSequence s' = provisionSequence (server c) ->
  t_generation <$> owed th = cs ++ (t_generation <$> owed th') ->
  (forall n a, provisions s' !! n = Some a -> provisions (server c) !! n = Some a) ->
  (forall t, t ∈ unretired th -> is_current (t_name t) (t_generation t) s' = true -> t ∈ unretired th') ->
  (forall t, t ∈ todo th' -> t ∈ todo th) ->
  (forall t, t ∈ (pre ≫= owed) \/ t ∈ todo th' \/ t ∈ (post ≫= owed) -> is_current (t_name t) (t_generation t) s' = true ->
     storagePhases s' !! t_name t = Some StoragePhaseFailed -> storagePhases (server c) !! t_name t = Some StoragePhaseFailed) ->
  invariant (mkSystem s' (pre ++ th' :: post) (cs ++ closed c)).
Proof.
  intros [_ C O T] E Hs Hq Ho Hp Hu Ht Hf. unfold all_owed in C. rewrite E in *. split; simpl; [done| | |].
  - rewrite Hq, <- C. unfold all_owed. simpl. rewrite !bind_app, !bind_cons, !fmap_app, Ho, <- !app_assoc.
    by rewrite (Permutation_app_swap_app (t_generation <$> (pre ≫= owed)) cs), (Permutation_app_swap_app (closed c) cs).
  - intros n a Ha. destruct (O n a) as (t & Hin & <- & Hg); [auto|]. exists t. split; [|done]. rewrite elem_of_split in *.
    destruct Hin as [?|[?|?]]; auto. right; left. apply Hu; [done|]. apply is_current_Some; eauto.
  - intros t Hin Hs' Hc Hfail. eapply (T t); eauto.
    + rewrite elem_of_split in *. naive_solver.
    + apply is_current_Some in Hc as (a & ? & ?). apply is_current_Some; eauto.
    + apply Hf; auto. rewrite elem_of_split in Hin. naive_solver eauto using todo_owed.
Qed.

Lemma moved_quiet c pre th post s' th' cs :
  invariant c -> threads c = pre ++ th :: post -> coherent s' -> quiet (server c) s' ->
  t_generation <$> owed th = cs ++ (t_generation <$> owed th') ->
  (forall t, t ∈ unretired th -> is_current (t_name t) (t_generation t) s' = true -> t ∈ unretired th') ->
  (forall t, t ∈ todo th' -> t ∈ todo th) -> invariant (mkSystem s' (pre ++ th' :: post) (cs ++ closed c)).
Proof. intros I E Hs [Q P F] Ho Hu Ht. eapply moved_invariant; eauto. Qed.

Lemma record_invariant c pre t rest post o :
  invariant c -> threads c = pre ++ mkThread (t :: rest) Running :: post -> outcome_ok o ->
  invariant (mkSystem (record_outcome t o (server c)) (pre ++ mkThread (t :: rest) (Recorded (failed o)) :: post) (closed c)).
Proof.
  intros I E Ho. pose proof (inv_coherent _ I) as Co. destruct (record_provisions t o (server c)) as [EP ES].
  eapply (moved_invariant c pre _ post _ _ []); eauto using record_coherent; [by rewrite EP|by right|].
  simpl. intros t' Ht' Hc Hf. destruct (decide (storagePhases (server c) !! t_name t' = Some StoragePhaseFailed)) as [|Hn]; [done|].
  destruct (record_fails _ _ _ _ Hf Hn) as [_ Hc']. exfalso. apply (head_unique c pre _ t rest post I E t').
  - rewrite !elem_of_app. exact Ht'.
  - apply is_current_Some in Hc as (a & Ha & <-), Hc' as (a' & Ha' & <-). rewrite EP in Ha. by simplify_eq.
Qed.

Lemma run_invariant c pre th post e s' th' cs :
  invariant c -> threads c = pre ++ th :: post -> (forall o, e = RRecord o -> outcome_ok o) ->
  runProvisionTasks e th (server c) = Some (s', th', cs) -> invariant (mkSystem s' (pre ++ th' :: post) (cs ++ closed c)).
Proof.
  intros I E He R. pose proof (inv_coherent _ I) as Co. destruct th as [ts st]. unfold runProvisionTasks in R. simpl in R.
  destruct st as [| | | |], ts as [|t rest], e; simplify_eq; auto using record_invariant.
  all: eapply (moved_quiet c); eauto using gate_quiet, gate_coherent, finish_coherent, finish_quiet, cancels_coherent, cancels_quiet; try done.
  all: try (by destruct err); intros t' Ht'.
  - intros Hc. apply elem_of_cons in Ht' as [->|Ht']; [|done]. by rewrite finish_removed in Hc.
  - destruct err; [by apply elem_of_nil in Ht'|done].
  - intros (a & Ha & _)%is_current_Some. rewrite cancels_removed in Ha; [done|]. by apply list_elem_of_fmap_2.
Qed.

Lemma begin_invariant c items skip : invariant c -> invariant (spawn c (beginProvisionTasksScopedLocked items skip (server c))).
Proof. intros I. pose proof (begin_begun items skip (server c)). destruct (beginProvisionTasksScopedLocked _ _ _). by eapply spawn_invariant. Qed.

Lemma idle_invariant c s : invariant c -> coherent s -> quiet (server c) s -> invariant (spawn c (s, [])).
Proof. intros I Hs Q. eapply (spawn_invariant (with_server c s) [] false); auto using with_server_invariant, begun_refl. Qed.

Lemma handover_quiet n s : quiet s (cancelProvisionForHandover n s).
Proof. unfold cancelProvisionForHandover. by case_match. Qed.
Lemma handover_coherent n s : coherent s -> coherent (cancelProvisionForHandover n s).
Proof. unfold cancelProvisionForHandover. case_match; auto using cancel_coherent. Qed.

Lemma step_invariant c e c' : invariant c -> step c e c' -> invariant c'.
Proof.
  intros I. pose proof (inv_coherent _ I) as Co. destruct 1; eauto using run_invariant.
  all: try (apply with_server_invariant; eauto using invalidate_coherent, invalidate_quiet, probe_coherent, probe_quiet, probed_coherent, probed_quiet,
    cancelProvision_coherent, cancelProvision_quiet, cancels_coherent, cancels_quiet, handover_coherent, handover_quiet).
  - apply begin_invariant; auto.
  - unfold beginNodeMutationProvisionLocked. destruct running; simpl; [by apply begin_invariant|].
    auto using idle_invariant, invalidate_coherent, invalidate_quiet.
  - unfold beginBGPProvisionLocked. destruct running; simpl; [by apply begin_invariant|by apply idle_invariant].
  - apply cancelProvision_coherent, Co.
  - apply cancelProvision_quiet.
Qed.

Lemma start_invariant : invariant start.
Proof. split; [|done|done|by intros t ?%elem_of_nil]. split; simpl; intros n; rewrite ?lookup_empty; by_cases. Qed.

Lemma reachable_invariant c : reachable c -> invariant c.
Proof. intros H. eapply (rtc_ind_r _ start); eauto using start_invariant. intros c1 c2 _ [e He] I. by eapply step_invariant. Qed.

(** ** What holds of any interleaving *)

(** C15: whatever requests, passes, probes and cancellations interleave, a storage phase is
    [failed] exactly when its cause is on record, a failed storage is not being probed,
    a blocker is only shown for a cluster with a pass, the pass on record for a cluster
    is one that a thread still has to retire, and no closed pass is on record. *)
Theorem provision_state_coherent (c : System) :
  reachable c ->
  (forall n, is_Some (storageFailures (server c) !! n) <-> storagePhases (server c) !! n = Some StoragePhaseFailed) /\
  (forall n, storagePhases (server c) !! n = Some StoragePhaseFailed -> storageStatusProbes (server c) !! n = None) /\
  (forall n, is_Some (provisionBlockers (server c) !! n) -> is_Some (provisions (server c) !! n)) /\
  (forall n a, provisions (server c) !! n = Some a ->
     (a_generation a ∉ closed c) /\ exists t, (t ∈ threads c ≫= unretired) /\ t_name t = n /\ t_generation t = a_generation a).
Proof.
  intros I%reachable_invariant. destruct (inv_coherent _ I) as [F P B]. do 3 (split; [done|]). intros n a Ha.
  destruct (inv_owned _ I _ _ Ha) as (t & Ht & ? & Hg). split; [|eauto]. rewrite <- Hg.
  pose proof (NoDup_seq 1 (provisionSequence (server c))) as ND. rewrite <- (inv_counted _ I), NoDup_app in ND.
  destruct ND as (_ & ND & _). intros Hc. apply (ND _ Hc), list_elem_of_fmap_2. by apply unretired_owed.
Qed.

(** Every pass ever registered has been closed exactly once or is owed by exactly one
    thread; when the threads are done each of them has been closed exactly once, so no
    drain waits for a pass that nobody will close. *)
Theorem passes_closed_once (c : System) :
  reachable c ->
  closed c ++ (t_generation <$> all_owed c) ≡ₚ seq 1 (provisionSequence (server c)) /\
  ((forall th, th ∈ threads c -> th_tasks th = []) -> closed c ≡ₚ seq 1 (provisionSequence (server c)) /\ provisions (server c) = ∅).
Proof.
  intros I%reachable_invariant. split; [apply I|]. intros Hd.
  assert (all_owed c = []) as E.
  { unfold all_owed. induction (threads c) as [|th ths IH]; [done|]. simpl. unfold owed at 1. rewrite Hd by set_solver. apply IH. set_solver. }
  split; [rewrite <- (inv_counted _ I), E; simpl; by rewrite app_nil_r|].
  apply map_empty. intros n. destruct (provisions (server c) !! n) as [a|] eqn:Ha; [|done].
  apply (inv_owned _ I) in Ha as (t & Ht & _). apply unretired_owed in Ht. unfold all_owed in E. rewrite E in Ht. by apply elem_of_nil in Ht.
Qed.

(** The events that start the storage of a cluster over *)
Definition restarts (s : Server) (e : event) (n : string) : Prop :=
  match e with
  | EBegin items => exists item, item ∈ items /\ c_Name item = n /\ reconcilesCNI item = true /\ has_storage item = true
  | EMutate item running => c_Name item = n /\ (running = false \/ reconcilesCNI item = true /\ has_storage item = true)
  | EBGP item running => c_Name item = n /\ running = true /\ has_storage item = true /\ exists a, provisions s !! n = Some a /\ a_skipStorage a = false
  | EInvalidate k => k = n
  | _ => False
  end.

Lemma begin_sticks items skip s n :
  ~ (exists item, item ∈ items /\ c_Name item = n /\ reconcilesCNI item = true /\ has_storage item = true /\ skip = false) ->
  sticks n s (fst (beginProvisionTasksScopedLocked items skip s)).
Proof.
  intros Hn. pose proof (begin_begun items skip s) as [I _ _ _ _ _ _ K]. apply K. intros t Ht En.
  destruct (storage_pass t) eqn:Hs; [|done]. exfalso. apply Hn. destruct (I t Ht) as (? & ? & ?).
  unfold storage_pass in Hs. apply andb_true_iff in Hs as [? Hk]. exists (t_item t). destruct (t_skipStorage t); naive_solver.
Qed.

Lemma run_sticks c pre th post e s' th' cs n :
  invariant c -> threads c = pre ++ th :: post -> runProvisionTasks e th (server c) = Some (s', th', cs) -> sticks n (server c) s'.
Proof.
  intros I E R F. destruct th as [ts st]. unfold runProvisionTasks in R. simpl in R.
  destruct st as [| | | |], ts as [|t rest], e; simplify_eq; revert F; try (apply cancels_sticks || done).
  - unfold observeProvisionGate. by case_match.
  - intros F. apply record_sticks; [|done]. intros Hc Hs <-. eapply (inv_todo _ I t); eauto. rewrite E, elem_of_split. right; left. by left.
  - unfold finishProvision. by case_match.
Qed.

(** C16: once the storage of a cluster has failed, it stays failed with the same cause
    through every step of every thread, probe and cancellation, until an operation
    starts that cluster's storage over. *)
Theorem terminal_failure_sticks (c : System) (e : event) (c' : System) (n : string) :
  reachable c -> step c e c' -> storagePhases (server c) !! n = Some StoragePhaseFailed -> ~ restarts (server c) e n ->
  storagePhases (server c') !! n = Some StoragePhaseFailed /\ storageFailures (server c') !! n = storageFailures (server c) !! n.
Proof.
  intros I%reachable_invariant St F Hn. pose proof (inv_coherent _ I) as Co. revert F. change (sticks n (server c) (server c')).
  destruct St; simpl in *; eauto using run_sticks, cancelProvision_sticks, cancels_sticks, invalidate_sticks, probed_sticks.
  - apply begin_sticks. naive_solver.
  - unfold beginNodeMutationProvisionLocked. destruct running; simpl; [apply begin_sticks|apply invalidate_sticks]; set_solver.
  - unfold beginBGPProvisionLocked. destruct running; simpl; [|done]. apply begin_sticks. intros (i & Hi & ? & ? & ? & Hk).
    apply list_elem_of_singleton in Hi as ->. apply Hn. case_match; [|done]. naive_solver.
  - unfold cancelProvisionForHandover. by case_match.
  - unfold beginStorageStatusProbe. by case_match.
Qed.

(** Generations only grow, and an entry is old or newer than all before it. *)
Definition grows (s s' : Server) : Prop :=
  (provisionSequence s <= provisionSequence s')%nat /\
  forall n a, provisions s' !! n = Some a -> provisions s !! n = Some a \/ (provisionSequence s < a_generation a)%nat.

#[global] Instance grows_preorder : PreOrder grows.
Proof.
  split; [by intros s; split; auto|]. intros s1 s2 s3 [L1 P1] [L2 P2]. split; [lia|]. intros n a [Ha|Ha]%P2; [auto|]. right. lia.
Qed.

Lemma quiet_grows s s' : quiet s s' -> grows s s'.
Proof. intros [Q P _]. split; [lia|eauto]. Qed.

Lemma begin_grows items skip s : grows s (fst (beginProvisionTasksScopedLocked items skip s)).
Proof.
  pose proof (begin_begun items skip s) as [_ G Sq Pr _ _ _ _]. split; [lia|]. intros n a [[? _]|(t & Ht & _ & <-)]%Pr; [by left|]. right.
  apply (list_elem_of_fmap_2 t_generation) in Ht. rewrite G, elem_of_seq in Ht. lia.
Qed.

Lemma run_grows e th s s' th' cs : runProvisionTasks e th s = Some (s', th', cs) -> grows s s'.
Proof.
  destruct th as [ts st]. unfold runProvisionTasks. simpl. destruct st as [| | | |], ts as [|t rest], e; intros; simplify_eq; try done;
    try (apply quiet_grows; apply gate_quiet || apply finish_quiet || apply (cancels_quiet (t_name <$> (t :: rest)))).
  destruct (record_provisions t o s) as [E1 E2]. split; [lia|]. rewrite E1. auto.
Qed.

Lemma step_grows c e c' : step c e c' -> grows (server c) (server c').
Proof.
  destruct 1; simpl; eauto using run_grows, quiet_grows, cancelProvision_quiet, cancels_quiet, handover_quiet, invalidate_quiet, probe_quiet, probed_quiet.
  - apply begin_grows.
  - unfold beginNodeMutationProvisionLocked. destruct running; simpl; auto using begin_grows, quiet_grows, invalidate_quiet. apply begin_grows.
  - unfold beginBGPProvisionLocked. destruct running; simpl; [apply begin_grows|done].
Qed.

(** A pass that is not the cluster's current one any more (superseded, cancelled or
    retired) never becomes current again, and at every later point its outcome, its gate
    observations and its retirement leave the server exactly as they find it. *)
Theorem superseded_pass_inert (c c' : System) (t : provisionTask) :
  reachable c -> t ∈ all_owed c -> is_current (t_name t) (t_generation t) (server c) = false -> rtc moves c c' ->
  is_current (t_name t) (t_generation t) (server c') = false /\
  (forall o, record_outcome t o (server c') = server c') /\
  (forall gate message now, observeProvisionGate (t_name t) (t_generation t) gate message now (server c') = server c') /\
  finishProvision t (server c') = server c'.
Proof.
  intros I%reachable_invariant Ht Hc R.
  assert (grows (server c) (server c')) as [_ P].
  { clear -R. induction R as [|c1 c2 c3 [e He] _ IH]; [done|]. etrans; [eapply step_grows, He|done]. }
  assert (is_current (t_name t) (t_generation t) (server c') = false) as Hc'.
  { apply not_true_iff_false. intros (a & Ha & Hg)%is_current_Some. apply owed_generation in Ht; [|done].
    apply P in Ha as [Ha|Ha]; [|lia]. assert (is_current (t_name t) (t_generation t) (server c) = true); [|congruence].
    apply is_current_Some. eauto. }
  unfold record_outcome, recordStorageFailureIfCurrentLocked, recordStoragePhaseIfCurrentLocked, observeProvisionGate, finishProvision.
  rewrite Hc'. split_and!; try done. intros o. by repeat case_match.
Qed.

(** ** A run of two requests

    [up] registers passes over two clusters; while the first runs, an [up] of the second
    alone registers a newer pass for it. *)

Module Demo.

Definition intent : ProvisioningIntent := mkIntent CNICilium "longhorn" false false false false.
Definition named (name : string) : Cluster := mkCluster name 0 0 1 0 (mkDefaults 2 2048 10) None None intent [] "" "" None "" "" "" "" false "".
Definition one : Cluster := named "one".
Definition two : Cluster := named "two".

Definition both : System := spawn start (beginProvisionTasksLocked [one; two] (server start)).
Definition again : System := spawn both (beginProvisionTasksLocked [two] (server both)).

Definition first : thread := mkThread [mkTask one 1 false; mkTask two 2 false] Running.
Definition newer : thread := mkThread [mkTask two 3 false] Running.

Lemma again_threads : threads again = [newer; first].
Proof. reflexivity. Qed.

Lemma again_reachable : reachable again.
Proof. eapply rtc_l; [eexists; exact (step_begin start [one; two])|]. apply rtc_once. eexists. exact (step_begin both [two]). Qed.

(** The thread of the first request moves. *)
Definition advance (e : run_event) (c : System) : System :=
  match threads c with
  | [th; th'] => match runProvisionTasks e th' (server c) with
                 | Some (s, th'', cs) => mkSystem s [th; th''] (cs ++ closed c)
                 | None => c
                 end
  | _ => c
  end.

Lemma advance_step e c th th' x : threads c = [th; th'] -> runProvisionTasks e th' (server c) = Some x ->
  (forall o, e = RRecord o -> outcome_ok o) -> step c (ERun e) (advance e c).
Proof. intros E H He. destruct x as [[s th''] cs]. unfold advance. rewrite E, H. by eapply (step_run c [th] th' [] e). Qed.

Lemma advance_reachable e c th th' x : reachable c -> threads c = [th; th'] -> runProvisionTasks e th' (server c) = Some x ->
  (forall o, e = RRecord o -> outcome_ok o) -> reachable (advance e c).
Proof. intros R E H He. eapply rtc_r; [exact R|]. eexists. by eapply advance_step. Qed.

Definition failed_first : System := advance (RRecord (Aborted true "no disk")) again.
Definition closed_first : System := advance RClose (advance RRetire failed_first).
Definition cancelled_newer : System := advance RCancelPending closed_first.

Lemma failed_first_reachable : reachable failed_first.
Proof. eapply advance_reachable; [exact again_reachable|reflexivity|reflexivity|]. by intros o [= <-]. Qed.

Lemma closed_first_reachable : reachable closed_first.
Proof.
  eapply advance_reachable; [|reflexivity|reflexivity|done].
  eapply advance_reachable; [exact failed_first_reachable|reflexivity|reflexivity|done].
Qed.

Lemma cancelled_newer_reachable : reachable cancelled_newer.
Proof. eapply advance_reachable; [exact closed_first_reachable|reflexivity|reflexivity|done]. Qed.

(** The failure of the first request's pass over one cluster cancels, by name, the pass
    that a later request registered for another: its own pass over that cluster had been
    superseded already. *)
Lemma failure_cancels_newer_pass :
  reachable closed_first /\ is_current "two" 3 (server closed_first) = true /\ (3%nat ∉ cancelled (server closed_first)) /\
  step closed_first (ERun RCancelPending) cancelled_newer /\
  is_current "two" 3 (server cancelled_newer) = false /\ (3%nat ∈ cancelled (server cancelled_newer)) /\ newer ∈ threads cancelled_newer.
Proof.
  split; [exact closed_first_reachable|]. split; [vm_compute; reflexivity|]. split; [by apply (bool_decide_unpack _); vm_compute|]. split.
  - eapply advance_step; [reflexivity|reflexivity|done].
  - split; [vm_compute; reflexivity|]. split; [by apply (bool_decide_unpack _); vm_compute|]. by left.
Qed.

Lemma provision_state_coherent_witness :
  is_current "one" 1 (server failed_first) = true /\ storagePhases (server failed_first) !! "one" = Some StoragePhaseFailed /\
  is_Some (storageFailures (server failed_first) !! "one").
Proof.
  split; [reflexivity|]. split; [reflexivity|].
  apply (proj1 (provision_state_coherent failed_first failed_first_reachable) "one"). reflexivity.
Defined.

Lemma passes_closed_once_witness : closed closed_first ++ (t_generation <$> all_owed closed_first) ≡ₚ [1; 2; 3]%nat.
Proof. exact (proj1 (passes_closed_once closed_first closed_first_reachable)). Defined.

Lemma terminal_failure_sticks_witness :
  storagePhases (server (advance RRetire failed_first)) !! "one" = Some StoragePhaseFailed.
Proof.
  apply (terminal_failure_sticks failed_first (ERun RRetire) (advance RRetire failed_first) "one" failed_first_reachable); [|reflexivity|exact (fun H => H)].
  eapply advance_step; [reflexivity|reflexivity|done].
Defined.

Lemma superseded_pass_inert_witness :
  record_outcome (mkTask two 2 false) (Passed (Some StoragePhaseLive)) (server again) = server again.
Proof.
  destruct (superseded_pass_inert again again (mkTask two 2 false) again_reachable) as (_ & H & _); [|reflexivity|reflexivity|apply H].
  change (mkTask two 2 false ∈ [mkTask two 3 false; mkTask one 1 false; mkTask two 2 false]). by do 3 constructor.
Defined.

End Demo.
