(* ===== verification/Mirror.v ===== *)
(** * The registry mirror ([internal/mirror]: mirror.go, completeness.go, manifest.go, check.go)

    A pull-through mirror of one upstream registry: the cache of blobs and manifests below
    its directory, the requests it answers, and the predicate that says whether an image
    can be pulled from the cache alone.  Requests run at once and share the cache, so
    between any two calls the other requests may have changed it, as an environment (a
    parameter) says; calls fail by a schedule; the upstream answers as it likes. *)

From stdpp Require Import base list gmap strings.
From Stdlib Require Import Ascii ZArith Lia.
From S2P Require Import Prelude GoStrings Effects Digest.

Local Open Scope Z_scope.
Local Open Scope effect_scope.

(** ** Manifests *)

Record manifestIndexDescriptor := mkIndexDescriptor { d_Digest : string; d_Architecture : string; d_OS : string }.

Record rawManifestGraph := mkRaw {
  raw_SchemaVersion : Z;
  raw_MediaType : string;
  raw_Manifests : option (list manifestIndexDescriptor);
  raw_Config : option string;
  raw_Layers : option (list string)
}.

Record cachedGraph := mkGraph {
  g_SchemaVersion : Z;
  g_MediaType : string;
  g_Manifests : list manifestIndexDescriptor;
  g_Config : string;
  g_Layers : list string
}.

Record manifestMetadata := mkMetadata {
  m_ContentType : string;
  m_ContentLength : Z;
  m_DockerContentDigest : string;
  m_Repository : string;
  m_Reference : string
}.

(** The text formats, which the program reads with encoding/json and mime *)
Class Wire := {
  json_valid : string -> bool;
  unmarshal_graph : string -> option rawManifestGraph;
  unmarshal_mediaType : string -> option string;
  unmarshal_metadata : string -> option manifestMetadata;
  marshal_metadata : manifestMetadata -> string;
  parse_media_type : string -> string * bool
}.

Fixpoint contains (s sub : string) : bool :=
  has_prefix s sub || match s with EmptyString => false | String _ s => contains s sub end.

Inductive graph_error :=
| NotDecoded
| WrongSchema (version : Z)
| NoManifests
| NoConfig
| NoLayers
| BadDescriptor (e : digest_error).

Definition manifestGraphIsIndex (graph : rawManifestGraph) : bool :=
  if contains (raw_MediaType graph) "index" || contains (raw_MediaType graph) "manifest.list" then true
  else if contains (raw_MediaType graph) "image.manifest" || contains (raw_MediaType graph) "manifest.v2" then false
  else bool_decide (is_Some (raw_Manifests graph)).

Definition validateManifestDigest (reference : string) : result graph_error unit :=
  match checkedSupportedDigest reference with Ok _ => Ok tt | Err e => Err (BadDescriptor e) end.

Fixpoint validate_all (references : list string) : result graph_error unit :=
  match references with
  | [] => Ok tt
  | reference :: rest => _ ← validateManifestDigest reference; validate_all rest
  end.

Definition validateManifestStructure (graph : rawManifestGraph) : result graph_error unit :=
  if negb (raw_SchemaVersion graph =? 2) then Err (WrongSchema (raw_SchemaVersion graph))
  else if manifestGraphIsIndex graph then
    match raw_Manifests graph with
    | None => Err NoManifests
    | Some manifests => validate_all (d_Digest <$> manifests)
    end
  else match raw_Config graph with
       | None => Err NoConfig
       | Some config =>
           if String.eqb config "" then Err NoConfig
           else
             _ ← validateManifestDigest config;
             match raw_Layers graph with
             | None => Err NoLayers
             | Some layers => validate_all layers
             end
       end.

(** A directory of the cache and a name in it; names hold no separator. *)
Abbreviation path := (string * string)%type.

Section Server.
Context `{Wire}.

Definition decodeManifestGraph (data : string) : result graph_error cachedGraph :=
  match unmarshal_graph data with
  | None => Err NotDecoded
  | Some raw =>
      _ ← validateManifestStructure raw;
      Ok (mkGraph (raw_SchemaVersion raw) (raw_MediaType raw) (default [] (raw_Manifests raw)) (default EmptyString (raw_Config raw)) (default [] (raw_Layers raw)))
  end.

Definition validateManifestBytes (data : string) : result graph_error unit :=
  match unmarshal_graph data with None => Err NotDecoded | Some raw => validateManifestStructure raw end.

(** ** Platforms *)

Record Platform := mkPlatform { p_OS : string; p_Architecture : string }.

Definition targetOS (platform : Platform) : string := if String.eqb (p_OS platform) "" then "linux" else p_OS platform.

Definition descriptorsForGraph (graph : cachedGraph) : list manifestIndexDescriptor := g_Manifests graph.

Definition matchingPlatformDescriptors (descriptors : list manifestIndexDescriptor) (platform : Platform) : list manifestIndexDescriptor :=
  List.filter (fun child => String.eqb (d_Architecture child) (p_Architecture platform) && (String.eqb (d_OS child) "" || String.eqb (d_OS child) (targetOS platform))) descriptors.

Definition selectPlatformDescriptor (descriptors : list manifestIndexDescriptor) (platform : Platform) : option manifestIndexDescriptor :=
  head (matchingPlatformDescriptors descriptors platform).

Definition isManifestIndex (graph : cachedGraph) : bool :=
  bool_decide (g_Manifests graph <> []) || contains (g_MediaType graph) "index" || contains (g_MediaType graph) "manifest.list".

(** ** The cache *)

Inductive inode := Regular (data : string) | Irregular.

Record Cache := mkCache { files : gmap path inode; tick : nat }.

Abbreviation M := (State Cache).

Fixpoint replace_char (a b : ascii) (s : string) : string :=
  match s with EmptyString => EmptyString | String c s => String (if Ascii.eqb c a then b else c) (replace_char a b s) end.

Definition blobPath (digest : string) : path := ("blobs", replace_char ":" "-" (default digest (canonicalSupportedDigest digest))).

Definition manifestPath (requestPath : string) : path := ("manifests", ("v2-" +:+ manifestSHA256 (canonicalManifestRequestPath requestPath))%string).

Definition legacyManifestPath (requestPath : string) : path := ("manifests", replace_char "/" "_" (trim_prefix (canonicalManifestRequestPath requestPath) "/v2/")).

Definition legacyManifestFallbackPath (requestPath : string) : option path :=
  match manifest_match (canonicalManifestRequestPath requestPath) with
  | Some (_, reference) => if isDigestReference reference then Some (legacyManifestPath requestPath) else None
  | None => None
  end.

Definition sidecar (p : path) (suffix : string) : path := (fst p, (snd p +:+ suffix)%string).

Definition maxManifestBytes : Z := 10 * 2 ^ 20.
Definition maxCachedManifestSidecarBytes : Z := 2 ^ 20.

Inductive read_error := NotExist | NotRegular | ReadFailed | TooLarge | DigestMismatch (e : digest_error).

Context (env : nat -> gmap path inode -> gmap path inode) (fault : nat -> bool) (offline : nat -> bool) (canceled : nat -> bool).

(** One call: the other requests go first, then it fails or not. *)
Definition call : M bool := fun w => (mkCache (env (tick w) (files w)) (S (tick w)), fault (tick w)).
Definition look (schedule : nat -> bool) : M bool := fun w => (mkCache (files w) (S (tick w)), schedule (tick w)).
Definition offlineEnabled : M bool := look offline.
Definition ctx_err : M bool := look canceled.

(** [openCheckedRegularFile]: what an open file holds does not change, since files are only
    ever replaced; a file replaced between the look at the path and the open is a failure. *)
Definition openCheckedRegularFile (p : path) : M (result read_error string) :=
  f ← call; w ← get;
  mret (if f : bool then Err ReadFailed
        else match files w !! p with None => Err NotExist | Some Irregular => Err NotRegular | Some (Regular data) => Ok data end).

Definition readCheckedRegularFile (p : path) (maxBytes : Z) : M (result read_error string) :=
  data ←! openCheckedRegularFile p;
  if maxBytes <? Z.of_nat (String.length data) then fail TooLarge
  else f ← call; if f : bool then fail ReadFailed else ok data.

Definition checkedCachedManifest (requestPath : string) : M (result read_error (string * path)) :=
  let p := manifestPath requestPath in
  r ← readCheckedRegularFile p maxManifestBytes;
  match r with
  | Ok data => ok (data, p)
  | Err NotExist =>
      match legacyManifestFallbackPath requestPath with
      | None => fail NotExist
      | Some legacyPath =>
          data ←! readCheckedRegularFile legacyPath maxManifestBytes;
          let reference := manifestReference requestPath in
          if isDigestReference reference then
            match verifySupportedDigest data reference with Ok _ => ok (data, legacyPath) | Err e => fail (DigestMismatch e) end
          else ok (data, legacyPath)
      end
  | Err e => fail e
  end.

(** ** What a cached manifest is served as *)

Definition manifestMediaTypes : list string :=
  ["application/json"; "application/vnd.docker.distribution.manifest.list.v2+json"; "application/vnd.docker.distribution.manifest.v2+json";
   "application/vnd.oci.image.index.v1+json"; "application/vnd.oci.image.manifest.v1+json"].
Definition is_manifest_type (mediaType : string) : bool := existsb (String.eqb (to_lower mediaType)) manifestMediaTypes.

Definition manifestContentType (data : string) : string :=
  match unmarshal_mediaType data with
  | None => ""
  | Some mediaType => let mediaType := trim_space mediaType in if is_manifest_type mediaType then mediaType else ""
  end.

Definition cachedLegacyManifestContentTypeAtPath (p : path) : M string :=
  r ← readCheckedRegularFile (sidecar p ".ct") maxCachedManifestSidecarBytes;
  mret (match r with Ok ct => ct | Err _ => "" end).

Definition cachedManifestContentTypeAtPath (p : path) (data : string) : M string :=
  let contentType := manifestContentType data in
  if negb (String.eqb contentType "") then mret contentType
  else
    legacy ← cachedLegacyManifestContentTypeAtPath p;
    mret (if negb (String.eqb legacy "") then legacy else "application/vnd.oci.image.manifest.v1+json").

Definition read_metadata (p : path) : M (option manifestMetadata) :=
  r ← readCheckedRegularFile (sidecar p ".meta") maxCachedManifestSidecarBytes;
  mret (match r with Ok raw => unmarshal_metadata raw | Err _ => None end).

Definition served_as (contentType : string) (data digest : string) : manifestMetadata :=
  mkMetadata contentType (Z.of_nat (String.length data)) digest "" "".

Definition cachedManifestMetadataAtPath (requestPath : string) (p : path) (data : string) : M manifestMetadata :=
  contentType ← cachedManifestContentTypeAtPath p data;
  stored ← read_metadata p;
  match stored with
  | None => mret (served_as contentType data (cachedManifestDigest data (manifestReference requestPath) ""))
  | Some stored =>
      contentType ← (match verifySupportedDigest data (m_DockerContentDigest stored) with
                     | Ok _ => mret (if String.eqb (m_ContentType stored) "" then contentType else m_ContentType stored)
                     | Err _ => legacy ← cachedLegacyManifestContentTypeAtPath p; mret (if String.eqb legacy "" then contentType else legacy)
                     end);
      mret (served_as contentType data (cachedManifestDigest data (manifestReference requestPath) (m_DockerContentDigest stored)))
  end.

Definition checkedCachedManifestMetadataAtPath (requestPath : string) (p : path) (data : string) : M manifestMetadata :=
  let contentType := "application/vnd.oci.image.manifest.v1+json" in
  stored ← read_metadata p;
  match stored with
  | Some stored =>
      mret (served_as (if String.eqb (m_ContentType stored) "" then contentType else m_ContentType stored) data
              (cachedManifestDigest data (manifestReference requestPath) (m_DockerContentDigest stored)))
  | None =>
      ct ← cachedLegacyManifestContentTypeAtPath p;
      mret (served_as (if String.eqb ct "" then contentType else ct) data (cachedManifestDigest data (manifestReference requestPath) ""))
  end.

(** ** Whether an image is complete in the cache *)

Record CacheTarget := mkTarget { ct_Repository : string; ct_Tag : string; ct_Digest : string; ct_Platform : Platform }.

Inductive CacheGapKind := GapTagMapping | GapRootManifest | GapPlatformManifest | GapConfig | GapLayer | GapCorrupt.

Inductive detail :=
| NoDetail
| ReadDetail (e : read_error)
| DigestDetail (e : digest_error)
| GraphDetail (e : graph_error)
| UnmatchedDigest
| MapsTo (mapped wanted : string)
| NoPlatform
| TooDeep
| Cycles
| Canceled
| NotLive
| NotTag.

Record CacheGap := mkGap { gap_Kind : CacheGapKind; gap_Path : string; gap_Digest : string; gap_Detail : detail }.

Record CacheStatus := mkStatus { cs_Target : CacheTarget; cs_RootDigest : string; cs_ManifestData : string; cs_Gaps : list CacheGap; cs_layerTotal : nat }.

Definition Complete (s : CacheStatus) : bool := bool_decide (cs_Gaps s = []).

Definition no_target : CacheTarget := mkTarget "" "" "" (mkPlatform "" "").
Definition add_gap (gap : CacheGap) (s : CacheStatus) : CacheStatus :=
  mkStatus (cs_Target s) (cs_RootDigest s) (cs_ManifestData s) (cs_Gaps s ++ [gap]) (cs_layerTotal s).
Definition with_root (digest : string) (s : CacheStatus) : CacheStatus :=
  mkStatus (cs_Target s) digest (cs_ManifestData s) (cs_Gaps s) (cs_layerTotal s).
Definition with_manifest (data : string) (s : CacheStatus) : CacheStatus :=
  mkStatus (cs_Target s) (cs_RootDigest s) data (cs_Gaps s) (cs_layerTotal s).
Definition with_layers (n : nat) (s : CacheStatus) : CacheStatus :=
  mkStatus (cs_Target s) (cs_RootDigest s) (cs_ManifestData s) (cs_Gaps s) n.

(** A file that is not there is a gap without a detail. *)
Definition cacheReadDetail (e : read_error) : detail := match e with NotExist => NoDetail | e => ReadDetail e end.

Definition cacheStatusCorrupted (s : CacheStatus) : bool :=
  existsb (fun gap => match gap_Kind gap with
                      | GapCorrupt => true
                      | GapTagMapping | GapRootManifest | GapPlatformManifest => match gap_Detail gap with NoDetail => false | _ => true end
                      | _ => false
                      end) (cs_Gaps s).

Definition verifyBlobFile (data digest : string) : result digest_error unit :=
  '(algorithm, encoded) ← checkedSupportedDigest digest;
  match digest_of algorithm data with
  | None => Err (UnsupportedAlgorithm algorithm)
  | Some actual => if String.eqb actual (to_lower encoded) then Ok tt else Err (ContentIs (algorithm +:+ ":" +:+ actual)%string)
  end.

Definition inspectBlob (kind : CacheGapKind) (digest : string) (deep : bool) (status : CacheStatus) : M CacheStatus :=
  over ← ctx_err;
  if over : bool then mret (add_gap (mkGap kind "" digest Canceled) status)
  else match checkedSupportedDigest digest with
       | Err e => mret (add_gap (mkGap kind "" digest (DigestDetail e)) status)
       | Ok _ =>
           r ← openCheckedRegularFile (blobPath digest);
           match r with
           | Err e => mret (add_gap (mkGap kind "" digest (cacheReadDetail e)) status)
           | Ok data =>
               if deep then
                 match verifyBlobFile data digest with
                 | Ok _ => mret status
                 | Err e => mret (add_gap (mkGap GapCorrupt (snd (blobPath digest)) digest (DigestDetail e)) status)
                 end
               else mret status
           end
       end.

Fixpoint inspect_layers (layers : list string) (deep : bool) (status : CacheStatus) : M CacheStatus :=
  match layers with
  | [] => mret status
  | layer :: rest => status ← inspectBlob GapLayer layer deep status; inspect_layers rest deep status
  end.

Definition inspectBlobs (graph : cachedGraph) (deep : bool) (status : CacheStatus) : M CacheStatus :=
  status ← (if String.eqb (g_Config graph) "" then mret status else inspectBlob GapConfig (g_Config graph) deep status);
  inspect_layers (g_Layers graph) deep (with_layers (length (g_Layers graph)) status).

Definition maxSelectedIndexDepth : nat := 4.

(** [inspectSelectedManifest]; [levels] is how many more manifests may be nested. *)
Fixpoint inspectSelectedManifest (levels : nat) (target : CacheTarget) (selected : manifestIndexDescriptor) (visited : list string) (status : CacheStatus) :
    M (result CacheStatus (cachedGraph * CacheStatus)) :=
  let digest := d_Digest selected in
  let gap p e := fail (add_gap (mkGap GapPlatformManifest p digest e) status) in
  match levels with
  | O => gap "" TooDeep
  | S levels =>
      match checkedSupportedDigest digest with
      | Err e => gap "" (DigestDetail e)
      | Ok _ =>
          if existsb (String.eqb digest) visited then gap "" Cycles
          else
            let childPath := manifestRequestPath (ct_Repository target) digest in
            r ← checkedCachedManifest childPath;
            match r with
            | Err e => gap childPath (cacheReadDetail e)
            | Ok (child, _) =>
                match verifySupportedDigest child digest with
                | Err e => gap childPath (DigestDetail e)
                | Ok _ =>
                    match decodeManifestGraph child with
                    | Err e => gap childPath (GraphDetail e)
                    | Ok decoded =>
                        if negb (isManifestIndex decoded) then ok (decoded, status)
                        else match selectPlatformDescriptor (descriptorsForGraph decoded) (ct_Platform target) with
                             | None => fail (add_gap (mkGap GapPlatformManifest "" "" NoPlatform) status)
                             | Some next => inspectSelectedManifest levels target next (digest :: visited) status
                             end
                    end
                end
            end
      end
  end.

(** The part of [InspectCached] after the tag: the root and what it selects *)
Definition inspect_root (target : CacheTarget) (rootDigest : string) (deep : bool) (status : CacheStatus) : M CacheStatus :=
  let status := with_root rootDigest status in
  let gap p e status := mret (add_gap (mkGap GapRootManifest p rootDigest e) status) in
  match checkedSupportedDigest rootDigest with
  | Err e => gap "" (DigestDetail e) status
  | Ok _ =>
      let rootPath := manifestRequestPath (ct_Repository target) rootDigest in
      r ← checkedCachedManifest rootPath;
      match r with
      | Err e => gap rootPath (cacheReadDetail e) status
      | Ok (root, _) =>
          match verifySupportedDigest root rootDigest with
          | Err e => gap rootPath (DigestDetail e) status
          | Ok _ =>
              let status := with_manifest root status in
              match decodeManifestGraph root with
              | Err e => gap rootPath (GraphDetail e) status
              | Ok manifest =>
                  match selectPlatformDescriptor (descriptorsForGraph manifest) (ct_Platform target) with
                  | Some selected =>
                      r ← inspectSelectedManifest maxSelectedIndexDepth target selected [rootDigest] status;
                      match r with
                      | Err status => mret status
                      | Ok (manifest, status) => inspectBlobs manifest deep status
                      end
                  | None =>
                      if isManifestIndex manifest then mret (add_gap (mkGap GapPlatformManifest "" "" NoPlatform) status)
                      else inspectBlobs manifest deep status
                  end
              end
          end
      end
  end.

Definition InspectCached (target : CacheTarget) (deep : bool) : M CacheStatus :=
  let status := mkStatus target "" "" [] 0 in
  over ← ctx_err;
  if over : bool then mret (add_gap (mkGap GapRootManifest "" (ct_Digest target) Canceled) status)
  else if String.eqb (ct_Tag target) "" then inspect_root target (ct_Digest target) deep status
  else
    let tagPath := manifestRequestPath (ct_Repository target) (ct_Tag target) in
    let gap digest e := mret (add_gap (mkGap GapTagMapping tagPath digest e) status) in
    r ← checkedCachedManifest tagPath;
    match r with
    | Err e => gap "" (cacheReadDetail e)
    | Ok (data, p) =>
        metadata ← checkedCachedManifestMetadataAtPath tagPath p data;
        match verifySupportedDigest data (m_DockerContentDigest metadata) with
        | Err _ => gap "" UnmatchedDigest
        | Ok mapped =>
            if negb (String.eqb (ct_Digest target) "") && negb (String.eqb mapped (ct_Digest target)) then gap mapped (MapsTo mapped (ct_Digest target))
            else match decodeManifestGraph data with
                 | Err e => gap mapped (GraphDetail e)
                 | Ok _ => inspect_root target mapped deep status
                 end
        end
    end.

(** ** Filling the cache *)

(** What the upstream answered; [u_whole] when its body could be read to the end *)
Record Upstream := mkUpstream { u_status : Z; u_type : string; u_digest : string; u_body : string; u_whole : bool }.

Inductive blob_error := BlobIO | BlobReference | BlobAlgorithm (algorithm : string) | BlobCut | BlobMismatch (got : string).

Definition io {E} (e : E) : M (result E unit) := f ← call; if f : bool then fail e else ok tt.

(** A rename over whatever is there *)
Definition publish {E} (p : path) (data : string) (e : E) : M (result E unit) :=
  _ ←! io e; _ ← modify (fun w => mkCache (<[p := Regular data]> (files w)) (tick w)); ok tt.

(** [cacheBlob]; nobody reads the staged file, so only its publication shows. *)
Definition cacheBlob (u : Upstream) (digest : string) : M (result blob_error unit) :=
  let digest := default digest (canonicalSupportedDigest digest) in
  _ ←! io BlobIO;
  _ ←! io BlobIO;
  match splitDigestReference digest with
  | None => fail BlobReference
  | Some (algorithm, encoded) =>
      match digest_of algorithm (u_body u) with
      | None => fail (BlobAlgorithm algorithm)
      | Some got =>
          _ ←! io BlobIO;
          if negb (u_whole u) then fail BlobCut
          else if negb (String.eqb got encoded) then fail (BlobMismatch got)
          else _ ←! io BlobIO; publish (blobPath digest) (u_body u) BlobIO
      end
  end.

Definition storeManifest (requestPath : string) (metadata : manifestMetadata) (data : string) : M (result read_error unit) :=
  let p := manifestPath requestPath in
  let metadata := match manifest_match (canonicalManifestRequestPath requestPath) with
                  | Some (repository, reference) => mkMetadata (m_ContentType metadata) (m_ContentLength metadata) (m_DockerContentDigest metadata) repository reference
                  | None => metadata
                  end in
  _ ←! io ReadFailed;
  _ ←! publish (sidecar p ".meta") (marshal_metadata metadata) ReadFailed;
  publish p data ReadFailed.

Inductive manifest_error :=
| BodyCut
| TooManyBytes
| BlockPage
| BadContentType
| UnsupportedType
| NotJSON
| BadManifest (e : graph_error)
| HeaderDigest (e : digest_error)
| PinnedDigestMismatch (pinned served : string)
| RequestedDigest (e : digest_error)
| DigestConflict (persisted requested : string).

(** The digest a fetched manifest is kept under: the last part of [validateManifest] *)
Definition persisted_digest (data header requestedReference pathReference : string) : result manifest_error string :=
  fromHeader ← (if String.eqb header "" then Ok ""
                else match verifySupportedDigest data header with Ok canonical => Ok canonical | Err e => Err (HeaderDigest e) end);
  persisted ← (if isDigestReference requestedReference then
                 match verifySupportedDigest data requestedReference with
                 | Err e =>
                     let served := digestOfAs requestedReference data in
                     if negb (String.eqb served "") && negb (isDigestReference pathReference) then Err (PinnedDigestMismatch requestedReference served)
                     else Err (RequestedDigest e)
                 | Ok canonical =>
                     if negb (String.eqb fromHeader "") && negb (String.eqb fromHeader canonical) then Err (DigestConflict fromHeader canonical) else Ok canonical
                 end
               else Ok fromHeader);
  Ok (if String.eqb persisted "" then ("sha256:" +:+ manifestSHA256 data)%string else persisted).

Definition validateManifest (u : Upstream) (requestedReference pathReference : string) : result manifest_error (string * manifestMetadata) :=
  if negb (u_whole u) && (Z.of_nat (String.length (u_body u)) <=? maxManifestBytes) then Err BodyCut
  else if maxManifestBytes <? Z.of_nat (String.length (u_body u)) then Err TooManyBytes
  else
    let data := u_body u in
    let '(mediaType, mediaTypeErr) := parse_media_type (u_type u) in
    if String.eqb (to_lower mediaType) "text/html" || has_prefix (trim_space data) "<" then Err BlockPage
    else if mediaTypeErr then Err BadContentType
    else if negb (is_manifest_type mediaType) then Err UnsupportedType
    else if negb (json_valid data) then Err NotJSON
    else match validateManifestBytes data with
         | Err e => Err (BadManifest e)
         | Ok _ =>
             digest ← persisted_digest data (trim_space (u_digest u)) requestedReference pathReference;
             Ok (data, mkMetadata (u_type u) (Z.of_nat (String.length data)) digest "" "")
         end.

(** ** Answering requests *)

Inductive Method := GET | HEAD | OtherMethod.

(** A request, with what its context carries: [None] for [rq_Validation] when the reference
    of the path is the one to check against *)
Record Request := mkRequest { rq_Method : Method; rq_Path : string; rq_Refresh : bool; rq_Validation : option string; rq_Staged : bool; rq_WarmBlob : bool }.

Definition guest (method : Method) (p : string) : Request := mkRequest method p false None false false.

Inductive reason := OfflineNotCached | OfflineCacheCorrupted | ServedStale | UpstreamManifestInvalid.

(** [r_body] is the content that was asked for; error messages are left out. *)
Record Response := mkResponse { r_status : Z; r_type : string; r_digest : string; r_reason : option reason; r_body : option string }.

Record stagedManifest := mkStaged { sm_requestPath : string; sm_data : string; sm_metadata : manifestMetadata }.

Definition error_response (status : Z) (why : option reason) : Response := mkResponse status "text/plain; charset=utf-8" "" why None.
Definition offline_miss : Response := error_response 404 (Some OfflineNotCached).
Definition corrupted : Response := error_response 503 (Some OfflineCacheCorrupted).
Definition is_get (r : Request) : bool := match rq_Method r with GET => true | _ => false end.

Definition manifestValidationReference (r : Request) (fallback : string) : string :=
  match rq_Validation r with Some value => if String.eqb value "" then fallback else value | None => fallback end.

Definition serveManifestBytes (r : Request) (data : string) (metadata : manifestMetadata) (why : option reason) : Response :=
  mkResponse 200 (m_ContentType metadata) (m_DockerContentDigest metadata) why (if is_get r then Some data else None).

Definition serveCachedBlob (r : Request) (digest : string) : M (option Response) :=
  let digest := default digest (canonicalSupportedDigest digest) in
  opened ← openCheckedRegularFile (blobPath digest);
  mret (match opened with
        | Err _ => None
        | Ok data => Some (mkResponse 200 "application/octet-stream" digest None (if is_get r then Some data else None))
        end).

Definition serveCachedManifest (r : Request) : M (option Response) :=
  cached ← checkedCachedManifest (rq_Path r);
  match cached with
  | Err _ => mret None
  | Ok (data, p) => metadata ← cachedManifestMetadataAtPath (rq_Path r) p data; mret (Some (serveManifestBytes r data metadata None))
  end.

Definition serveStaleManifest (r : Request) (status : CacheStatus) : M (option Response) :=
  cached ← checkedCachedManifest (rq_Path r);
  match cached with
  | Err _ => mret None
  | Ok (data, p) =>
      if negb (String.eqb data (cs_ManifestData status)) then mret None
      else metadata ← cachedManifestMetadataAtPath (rq_Path r) p data; mret (Some (serveManifestBytes r (cs_ManifestData status) metadata (Some ServedStale)))
  end.

(** What a look into the cache came to *)
Inductive replayed := Served (resp : Response) | Missed | Corrupt.

Definition with_digest (digest : string) (m : manifestMetadata) : manifestMetadata :=
  mkMetadata (m_ContentType m) (m_ContentLength m) digest (m_Repository m) (m_Reference m).

Definition serveCachedDigestManifest (r : Request) (requestedDigest : string) : M replayed :=
  cached ← checkedCachedManifest (rq_Path r);
  match cached with
  | Err e => off ← offlineEnabled; mret (if (off : bool) && match e with DigestMismatch _ => true | _ => false end then Corrupt else Missed)
  | Ok (data, p) =>
      match verifySupportedDigest data requestedDigest with
      | Err _ => off ← offlineEnabled; mret (if (off : bool) then Corrupt else Missed)
      | Ok canonical =>
          metadata ← cachedManifestMetadataAtPath (rq_Path r) p data;
          mret (Served (serveManifestBytes r data (with_digest canonical metadata) None))
      end
  end.

(** How the check of the upstream's address failed ([validateResolvedAuthority]) *)
Inductive vet_error := Unresolved | HostUnknown | NotPublic.

Definition shouldServeStaleOnValidationError (e : vet_error) : bool := match e with Unresolved => true | _ => false end.
Definition vet_status (e : vet_error) : Z := match e with NotPublic => 403 | _ => 502 end.

Context (hostArch : string) (vet : option (nat -> option vet_error)) (upstream : nat -> bool -> option Upstream).

Definition ask {A} (answer : nat -> A) : M A := fun w => (mkCache (env (tick w) (files w)) (S (tick w)), answer (tick w)).

Definition validateUpstream : M (option vet_error) := match vet with None => mret None | Some answer => ask answer end.

(** [fetch]; [immediate] when it is not to be tried again *)
Definition fetch (immediate : bool) : M (option Upstream) := ask (fun t => upstream t immediate).

Definition not_applicable (why : detail) : CacheStatus := mkStatus no_target "" "" [mkGap GapRootManifest "" "" why] 0.

Definition tag_target (repository tag : string) : CacheTarget := mkTarget repository tag "" (mkPlatform "linux" hostArch).

Definition cachedTagStatus (r : Request) : M CacheStatus :=
  match manifest_match (rq_Path r) with
  | None => mret (not_applicable NotTag)
  | Some (repository, reference) =>
      if isDigestReference reference then mret (not_applicable NotTag) else InspectCached (tag_target repository reference) false
  end.

Definition staleCandidate (r : Request) : M CacheStatus :=
  off ← offlineEnabled;
  if (off : bool) || rq_Refresh r then mret (not_applicable NotLive) else cachedTagStatus r.

Definition isTransientUpstreamStatus (status : Z) : bool := (status =? 429) || (500 <=? status) && (status <=? 599).

Definition is_manifest (r : Request) : bool := bool_decide (is_Some (manifest_match (rq_Path r))).

Definition replay_manifest (r : Request) : M replayed :=
  if negb (is_manifest r) then mret Missed
  else
    off ← (if rq_Refresh r then offlineEnabled else mret true);
    if rq_Refresh r && negb (off : bool) then mret Missed
    else
      let reference := manifestReference (rq_Path r) in
      if isDigestReference reference then serveCachedDigestManifest r reference
      else
        off ← offlineEnabled;
        if negb (off : bool) then mret Missed
        else
          status ← cachedTagStatus r;
          if negb (Complete status) then mret Missed
          else served ← serveCachedManifest r; mret (match served with Some resp => Served resp | None => Missed end).

Definition replayCache (r : Request) : M replayed :=
  blob ← (match blob_match (rq_Path r) with Some digest => serveCachedBlob r digest | None => mret None end);
  match blob with
  | Some resp => mret (Served resp)
  | None => replay_manifest r
  end.

Definition serveCacheIfAvailable (r : Request) : M replayed :=
  x ← replayCache r;
  match x with
  | Served resp => mret (Served resp)
  | _ =>
      off ← offlineEnabled;
      if (off : bool) && is_manifest r && negb (isDigestReference (manifestReference (rq_Path r))) then
        status ← cachedTagStatus r;
        mret (match x with Missed => if cacheStatusCorrupted status then Corrupt else Missed | x => x end)
      else mret x
  end.

Definition serveManifestCacheOnFetchFailure (r : Request) : M replayed :=
  if negb (is_manifest r) then mret Missed
  else
    let reference := manifestReference (rq_Path r) in
    if isDigestReference reference then serveCachedDigestManifest r reference else mret Missed.

Definition forwarded (u : Upstream) : Response := mkResponse (u_status u) (u_type u) (u_digest u) None (Some (u_body u)).

Definition answer_blob (r : Request) (digest : string) (u : Upstream) : M Response :=
  cached ← cacheBlob u digest;
  match cached with
  | Err _ => mret (error_response 502 None)
  | Ok _ =>
      if rq_WarmBlob r then mret (mkResponse 200 "" digest None None)
      else
        served ← serveCachedBlob r digest;
        mret (default (error_response 500 None) served)
  end.

Definition answer_manifest (r : Request) (u : Upstream) : M (Response * option stagedManifest) :=
  let pathReference := manifestReference (rq_Path r) in
  match validateManifest u (manifestValidationReference r pathReference) pathReference with
  | Err (PinnedDigestMismatch _ _) => mret (error_response 409 None, None)
  | Err _ => mret (error_response 502 (Some UpstreamManifestInvalid), None)
  | Ok (data, metadata) =>
      let resp := mkResponse (u_status u) (if String.eqb (m_ContentType metadata) "" then u_type u else m_ContentType metadata) (m_DockerContentDigest metadata) None (Some data) in
      if rq_Staged r then mret (resp, Some (mkStaged (rq_Path r) data metadata))
      else _ ← storeManifest (rq_Path r) metadata data; mret (resp, None)
  end.

(** From the upstream's answer on *)
Definition answer (r : Request) (stale : CacheStatus) (u : Upstream) : M (Response * option stagedManifest) :=
  if Complete stale && isTransientUpstreamStatus (u_status u) then
    served ← serveStaleManifest r stale; mret (default (error_response 502 None) served, None)
  else if is_get r && (u_status u =? 200) then
    match blob_match (rq_Path r) with
    | Some digest => resp ← answer_blob r digest u; mret (resp, None)
    | None => if is_manifest r then answer_manifest r u else mret (forwarded u, None)
    end
  else mret (forwarded u, None).

(** The upstream could not be reached. *)
Definition fetch_failed (r : Request) (stale : CacheStatus) : M Response :=
  served ← (if Complete stale then serveStaleManifest r stale else mret None);
  match served with
  | Some resp => mret resp
  | None =>
      x ← serveManifestCacheOnFetchFailure r;
      mret (match x with Served resp => resp | Corrupt => corrupted | Missed => error_response 502 None end)
  end.

(** [k] runs where the cache does not answer and the mirror is online. *)
Definition from_cache_or (r : Request) (k : M (Response * option stagedManifest)) : M (Response * option stagedManifest) :=
  x ← serveCacheIfAvailable r;
  match x with
  | Served resp => mret (resp, None)
  | Corrupt => mret (corrupted, None)
  | Missed => off ← offlineEnabled; if off : bool then mret (offline_miss, None) else k
  end.

Definition ServeHTTP (r : Request) : M (Response * option stagedManifest) :=
  match rq_Method r with
  | OtherMethod => mret (error_response 405 None, None)
  | _ =>
      if String.eqb (rq_Path r) "/v2/" then mret (mkResponse 200 "" "" None None, None)
      else
        from_cache_or r (
          stale ← staleCandidate r;
          vetted ← validateUpstream;
          match vetted with
          | Some e =>
              served ← (if Complete stale && shouldServeStaleOnValidationError e then serveStaleManifest r stale else mret None);
              mret (default (error_response (vet_status e) None) served, None)
          | None =>
              from_cache_or r (
                fetched ← fetch (Complete stale);
                match fetched with
                | None => resp ← fetch_failed r stale; mret (resp, None)
                | Some u => answer r stale u
                end)
          end)
  end.

(** ** Integrity

    What is published under the name of a digest has that digest, whatever the other
    requests do in between, as long as they keep to the same rule. *)

Definition verifies (data reference : string) : Prop := exists canonical, verifySupportedDigest data reference = Ok canonical.

Definition sound (fs : gmap path inode) : Prop :=
  forall digest data, blob_digest digest = true -> fs !! blobPath digest = Some (Regular data) -> verifies data digest.

Definition holds {A} (m : M A) (Q : A -> Prop) : Prop := forall w, sound (files w) -> runs w m (fun w' a => sound (files w') /\ Q a).

Context (env_sound : forall t fs, sound fs -> sound (env t fs)).

Lemma holds_bind {A B} (m : M A) (k : A -> M B) P Q : holds m P -> (forall a, P a -> holds (k a) Q) -> holds (m ≫= k) Q.
Proof.
  intros Hm Hk w Hw. apply post_bind. eapply post_conseq; [apply (Hm w Hw)|]. intros w' a [Hw' HP]. by apply Hk.
Qed.

Lemma holds_ret {A} (a : A) (Q : A -> Prop) : Q a -> holds (mret a) Q.
Proof. intros HQ w Hw. by apply post_ret. Qed.

Lemma holds_conseq {A} (m : M A) (P Q : A -> Prop) : holds m P -> (forall a, P a -> Q a) -> holds m Q.
Proof. intros Hm HPQ w Hw. eapply post_conseq; [apply (Hm w Hw)|]. intros w' a [? ?]. auto. Qed.

Lemma holds_try {E A B} (m : M (result E A)) (k : A -> M (result E B)) P Q :
  holds m P -> (forall a, P (Ok a) -> holds (k a) Q) -> (forall e, P (Err e) -> Q (Err e)) -> holds (try_bind m k) Q.
Proof. intros Hm Hk He. eapply holds_bind; [apply Hm|]. intros [a|e] HP; [by apply Hk|]. apply holds_ret. auto. Qed.

Lemma holds_look schedule : holds (look schedule) (fun _ => True).
Proof. by intros w Hw. Qed.

Lemma holds_ask {A} (answer : nat -> A) : holds (ask answer) (fun _ => True).
Proof. intros w Hw. split; [|done]. apply env_sound, Hw. Qed.

Lemma holds_call : holds call (fun _ => True).
Proof. intros w Hw. split; [|done]. apply env_sound, Hw. Qed.

(** What is read from the name of a blob is that blob. *)
Lemma holds_open p : holds (openCheckedRegularFile p) (fun r => forall data digest, r = Ok data -> p = blobPath digest -> blob_digest digest = true -> verifies data digest).
Proof.
  intros w Hw. unfold openCheckedRegularFile. apply post_bind. eapply post_conseq; [apply (holds_call w Hw)|]. intros w' f [Hw' _].
  apply post_bind, post_get, post_ret. split; [done|]. intros data digest E -> Hd. destruct f; [done|].
  destruct (files w' !! blobPath digest) as [[d|]|] eqn:El; simplify_eq. by apply (Hw' digest).
Qed.

Definition any {A} (a : A) : Prop := True.

Lemma holds_any {A} (m : M A) Q : holds m Q -> holds m any.
Proof. intros Hm. by eapply holds_conseq. Qed.

Ltac step_any :=
  match goal with
  | |- holds (mret _) any => by apply holds_ret
  | |- holds (ok _) any => by apply holds_ret
  | |- holds (fail _) any => by apply holds_ret
  | |- holds (openCheckedRegularFile _) any => eapply holds_any, holds_open
  | |- holds call any => eapply holds_any, holds_call
  | |- holds (look _) any => eapply holds_any, holds_look
  | |- holds (_ ≫= _) any => apply (holds_bind _ _ any); [|intros ? _]
  | |- holds (try_bind _ _) any => apply (holds_try _ _ any); [|intros ? _|by intros ? _]
  | |- holds (match ?x with _ => _ end) any => destruct x
  | |- holds (if ?x then _ else _) any => destruct x
  end.

Lemma any_read p n : holds (readCheckedRegularFile p n) any.
Proof. unfold readCheckedRegularFile. repeat step_any. Qed.

Lemma any_checked requestPath : holds (checkedCachedManifest requestPath) any.
Proof. unfold checkedCachedManifest. repeat (step_any || apply any_read). Qed.

Lemma any_legacy p : holds (cachedLegacyManifestContentTypeAtPath p) any.
Proof. unfold cachedLegacyManifestContentTypeAtPath. repeat (step_any || apply any_read). Qed.

Lemma any_read_metadata p : holds (read_metadata p) any.
Proof. unfold read_metadata. repeat (step_any || apply any_read). Qed.

Lemma any_metadata_checked requestPath p data : holds (checkedCachedManifestMetadataAtPath requestPath p data) any.
Proof. unfold checkedCachedManifestMetadataAtPath. repeat (step_any || apply any_read_metadata || apply any_legacy). Qed.

Lemma any_blob kind digest deep status : holds (inspectBlob kind digest deep status) any.
Proof. unfold inspectBlob, ctx_err. repeat step_any. Qed.

Lemma any_layers layers deep status : holds (inspect_layers layers deep status) any.
Proof. revert status. induction layers as [|l ls IH]; intros status; simpl; repeat (step_any || apply any_blob || apply IH). Qed.

Lemma any_blobs graph deep status : holds (inspectBlobs graph deep status) any.
Proof. unfold inspectBlobs. repeat (step_any || apply any_blob || apply any_layers). Qed.

Lemma any_selected levels target selected visited status : holds (inspectSelectedManifest levels target selected visited status) any.
Proof.
  revert selected visited status. induction levels as [|levels IH]; intros selected visited status; simpl; repeat (step_any || apply any_checked || apply IH).
Qed.

Lemma any_root target rootDigest deep status : holds (inspect_root target rootDigest deep status) any.
Proof. unfold inspect_root. repeat (step_any || apply any_checked || apply any_selected || apply any_blobs). Qed.

Lemma any_inspect target deep : holds (InspectCached target deep) any.
Proof. unfold InspectCached, ctx_err. repeat (step_any || apply any_checked || apply any_metadata_checked || apply any_root). Qed.

Lemma any_tagStatus r : holds (cachedTagStatus r) any.
Proof. unfold cachedTagStatus. repeat (step_any || apply any_inspect). Qed.

(** ** Names of blobs *)

Lemma verifies_split data d d' : splitDigestReference d = splitDigestReference d' -> verifies data d -> verifies data d'.
Proof. unfold verifies, verifySupportedDigest. by intros ->. Qed.

Lemma replace_app a b s t : replace_char a b (s +:+ t) = (replace_char a b s +:+ replace_char a b t)%string.
Proof.
  induction s as [|c s IH]; [done|]. change (String c s +:+ t)%string with (String c (s +:+ t)%string). cbn [replace_char]. by rewrite IH.
Qed.

Lemma replace_fixed a b s : all_chars (fun c => negb (Ascii.eqb c a)) s = true -> replace_char a b s = s.
Proof. induction s as [|c s IH]; [done|]. cbn [all_chars replace_char]. rewrite andb_true_iff. intros [Hc Hs]. rewrite IH by done. by destruct (Ascii.eqb c a). Qed.

(** What a digest that names a blob is *)
Lemma blob_digest_spec digest : blob_digest digest = true ->
  exists algorithm encoded, (algorithm = "sha256" \/ algorithm = "sha512") /\
    splitDigestReference digest = Some (algorithm, encoded) /\ canonicalSupportedDigest digest = Some (algorithm +:+ ":" +:+ encoded)%string /\
    blobPath digest = ("blobs", (algorithm +:+ "-" +:+ encoded)%string).
Proof.
  intros Hb. unfold blob_digest in Hb. destruct (cut ":" digest) as [[a e]|] eqn:E; [|done].
  apply andb_true_iff in Hb as [Hl%bool_decide_eq_true Hh].
  assert (a = "sha256" \/ a = "sha512") as Ha.
  { unfold digest_length in Hl. destruct (String.eqb a "sha256") eqn:E1; [left; by apply String.eqb_eq|].
    destruct (String.eqb a "sha512") eqn:E2; [right; by apply String.eqb_eq|done]. }
  assert (String.length (to_lower e) = String.length e) as Hlen by (clear; induction e; cbn; congruence).
  assert (splitDigestReference digest = Some (a, to_lower e)) as Hs.
  { unfold splitDigestReference. rewrite E, Hh. destruct e; [by destruct Ha as [-> | ->]|]. by destruct Ha as [-> | ->]. }
  assert (canonicalSupportedDigest digest = Some (a +:+ ":" +:+ to_lower e)%string) as Hc.
  { unfold canonicalSupportedDigest. rewrite Hs. by rewrite bool_decide_true by (rewrite Hlen; done). }
  exists a, (to_lower e). split_and!; [done..|]. unfold blobPath. rewrite Hc. unfold default, id. rewrite !replace_app. f_equal.
  rewrite (replace_fixed _ _ (to_lower e)); [by destruct Ha as [-> | ->]|].
  eapply all_chars_mono; [|by apply to_lower_hex]. intros c Hc'.
  pose proof (by_byte (fun c => implb (is_lower_hex c) (negb (Ascii.eqb c ":"%char))) eq_refl c) as B. cbv beta in B. by rewrite Hc' in B.
Qed.

Lemma append_inj_length s s' t t' : String.length s = String.length s' -> (s +:+ t)%string = (s' +:+ t')%string -> s = s' /\ t = t'.
Proof.
  revert s'. induction s as [|c s IH]; intros [|c' s'] Hl E; try done. injection Hl as Hl. injection E as -> E. by destruct (IH s' Hl E) as [-> ->].
Qed.

Lemma blobPath_inj d d' : blob_digest d = true -> blob_digest d' = true -> blobPath d = blobPath d' -> splitDigestReference d = splitDigestReference d'.
Proof.
  intros Hd Hd' E. destruct (blob_digest_spec d Hd) as (a & e & Ha & -> & _ & P), (blob_digest_spec d' Hd') as (a' & e' & Ha' & -> & _ & P').
  rewrite P, P' in E. injection E as E. apply append_inj_length in E as [-> E]; [by apply (append_inj_length "-" "-") in E as [_ ->]|]. by destruct Ha as [-> | ->], Ha' as [-> | ->].
Qed.

Lemma holds_io {E} (e : E) : holds (io e) any.
Proof. unfold io. repeat step_any. Qed.

Lemma holds_publish {E} p data (e : E) :
  (forall digest, blob_digest digest = true -> p = blobPath digest -> verifies data digest) -> holds (publish p data e) any.
Proof.
  intros Hp. unfold publish. apply (holds_try _ _ any); [apply holds_io|intros _ _|done]. intros w Hw. apply post_bind, post_modify, post_ret.
  split; [|done]. cbn [files]. intros digest data' Hd. rewrite lookup_insert_Some. intros [[Ep [= <-]]|[_ ?]]; [by apply Hp|by apply (Hw digest)].
Qed.

Lemma canonical_blobPath digest : blob_digest digest = true -> blobPath (default digest (canonicalSupportedDigest digest)) = blobPath digest.
Proof.
  intros Hd. destruct (blob_digest_spec digest Hd) as (a & e & Ha & Hs & Hc & P). unfold blobPath. rewrite Hc. unfold default at 2 3, id.
  pose proof Hc as Hc'. unfold canonicalSupportedDigest in Hc' |- *. rewrite (splitDigest_again _ _ _ Hs). rewrite Hs in Hc'. by rewrite Hc'.
Qed.

(** A fetched blob is published only when it has the digest it is published under. *)
Lemma holds_cacheBlob u digest : blob_digest digest = true -> holds (cacheBlob u digest) any.
Proof.
  intros Hd. destruct (blob_digest_spec digest Hd) as (a & e & Ha & Hs & Hc & _). unfold cacheBlob.
  rewrite canonical_blobPath by done. rewrite Hc. unfold default, id. rewrite (splitDigest_again _ _ _ Hs).
  repeat (apply (holds_try _ _ any); [apply holds_io|intros _ _|done]). destruct (digest_of a (u_body u)) as [got|] eqn:Eg; [|by apply holds_ret].
  apply (holds_try _ _ any); [apply holds_io|intros _ _|done]. repeat (case_match; [by apply holds_ret|]).
  apply (holds_try _ _ any); [apply holds_io|intros _ _|done]. apply holds_publish. intros d' Hd' Ep.
  apply (verifies_split _ digest); [by apply blobPath_inj|]. unfold verifies, verifySupportedDigest. rewrite Hs, Eg.
  match goal with H : negb (String.eqb got e) = false |- _ => apply negb_false_iff, String.eqb_eq in H as -> end. rewrite String.eqb_refl. eauto.
Qed.

Lemma holds_storeManifest requestPath metadata data : holds (storeManifest requestPath metadata data) any.
Proof.
  unfold storeManifest. apply (holds_try _ _ any); [apply holds_io|intros _ _|done].
  assert (forall p d e, p.1 = "manifests" -> holds (publish p d e) (@any (result read_error unit))) as Hp.
  { intros p d e' Em. apply holds_publish. intros digest Hd ->. done. }
  apply (holds_try _ _ any); [by apply Hp|intros _ _|done]. by apply Hp.
Qed.

(** ** What is served is what was asked for *)

(** A body with a digest of it in the header *)
Definition truthful (resp : Response) (data : string) : Prop := r_body resp = Some data /\ verifySupportedDigest data (r_digest resp) = Ok (r_digest resp).

Definition vouched (r : Request) (resp : Response) : Prop :=
  r_status resp = 200 ->
  (forall digest, blob_match (rq_Path r) = Some digest -> manifest_match (rq_Path r) = None -> exists data, r_body resp = Some data /\ verifies data digest) /\
  (forall repository reference, blob_match (rq_Path r) = None -> manifest_match (rq_Path r) = Some (repository, reference) ->
     exists data, truthful resp data /\ (isDigestReference reference = true -> verifies data reference)).

Lemma vouched_error r status why : status <> 200 -> vouched r (error_response status why).
Proof. by intros Hs ?. Qed.

Lemma vouched_manifest r resp data reference :
  is_manifest r = true -> manifestReference (rq_Path r) = reference -> truthful resp data -> (isDigestReference reference = true -> verifies data reference) -> vouched r resp.
Proof.
  intros Hm <- Ht Hv _. split.
  - intros digest _ E. unfold is_manifest in Hm. rewrite E in Hm. by apply bool_decide_eq_true in Hm as [? ?].
  - intros repository reference _ E. exists data. split; [done|]. unfold manifestReference in Hv. by rewrite E in Hv.
Qed.

Lemma blob_match_digest p digest : blob_match p = Some digest -> blob_digest digest = true.
Proof. unfold blob_match. repeat case_match; congruence. Qed.

Section Guest.
Context (r : Request) (r_get : rq_Method r = GET).

Lemma is_get_true : is_get r = true.
Proof. unfold is_get. by rewrite r_get. Qed.

Lemma holds_serveCachedBlob digest : blob_digest digest = true ->
  holds (serveCachedBlob r digest) (fun x => forall resp, x = Some resp -> exists data, r_body resp = Some data /\ verifies data digest).
Proof.
  intros Hd. unfold serveCachedBlob. rewrite canonical_blobPath by done. eapply holds_bind; [apply holds_open|]. intros opened Ho. apply holds_ret. intros resp.
  destruct opened as [data|]; [|done]. intros [= <-]. cbn [r_body]. rewrite is_get_true. exists data. split; [done|]. by apply (Ho data digest).
Qed.

Lemma holds_contentType p data : holds (cachedManifestContentTypeAtPath p data) any.
Proof. unfold cachedManifestContentTypeAtPath. repeat (step_any || apply any_legacy). Qed.

Lemma holds_metadata requestPath p data :
  holds (cachedManifestMetadataAtPath requestPath p data) (fun m => verifySupportedDigest data (m_DockerContentDigest m) = Ok (m_DockerContentDigest m)).
Proof.
  unfold cachedManifestMetadataAtPath. eapply holds_bind; [apply holds_contentType|]. intros ct _. eapply holds_bind; [apply any_read_metadata|]. intros stored _.
  destruct stored as [stored|]; [|by apply holds_ret, cachedManifestDigest_truthful].
  apply (holds_bind _ _ any); [repeat (step_any || apply any_legacy)|]. intros ct' _. apply holds_ret, cachedManifestDigest_truthful.
Qed.

Lemma holds_serveCachedManifest : holds (serveCachedManifest r) (fun x => forall resp, x = Some resp -> exists data, truthful resp data).
Proof.
  unfold serveCachedManifest. eapply holds_bind; [apply any_checked|]. intros [[data p]|] _; [|by apply holds_ret].
  eapply holds_bind; [apply holds_metadata|]. intros m Hm. apply holds_ret. intros resp [= <-]. exists data. split; [|done]. cbn. by rewrite is_get_true.
Qed.

Lemma holds_serveStale status : holds (serveStaleManifest r status) (fun x => forall resp, x = Some resp -> exists data, truthful resp data).
Proof.
  unfold serveStaleManifest. eapply holds_bind; [apply any_checked|]. intros [[data p]|] _; [|by apply holds_ret].
  case_match eqn:E; [by apply holds_ret|]. apply negb_false_iff, String.eqb_eq in E as <-.
  eapply holds_bind; [apply holds_metadata|]. intros m Hm. apply holds_ret. intros resp [= <-]. exists data. split; [|done]. cbn. by rewrite is_get_true.
Qed.

Lemma holds_serveDigest reference :
  holds (serveCachedDigestManifest r reference) (fun x => forall resp, x = Served resp -> exists data, truthful resp data /\ verifies data reference).
Proof.
  unfold serveCachedDigestManifest. eapply holds_bind; [apply any_checked|]. intros [[data p]|] _.
  - destruct (verifySupportedDigest data reference) as [canonical|] eqn:E; [|eapply holds_bind; [apply holds_look|]; intros off _; apply holds_ret; by destruct off].
    eapply holds_bind; [apply holds_metadata|]. intros m _. apply holds_ret. intros resp [= <-]. exists data. split; [|by exists canonical].
    split; cbn; [by rewrite is_get_true|by eapply verify_canonical].
  - eapply holds_bind; [apply holds_look|]. intros off _. apply holds_ret. intros resp. by destruct (_ && _).
Qed.

Lemma holds_replay_manifest : holds (replay_manifest r) (fun x => forall resp, x = Served resp -> vouched r resp).
Proof.
  unfold replay_manifest. destruct (is_manifest r) eqn:Hm; cbn [negb]; [|by apply holds_ret].
  apply (holds_bind _ _ any); [unfold offlineEnabled; destruct (rq_Refresh r); repeat step_any|]. intros off _. cbv beta.
  destruct (rq_Refresh r && negb off); [by apply holds_ret|].
  destruct (isDigestReference _) eqn:Hd.
  - eapply holds_conseq; [apply holds_serveDigest|]. cbv beta. intros x Hx resp E. destruct (Hx resp E) as (data & Ht & Hv). by eapply vouched_manifest.
  - eapply holds_bind; [apply holds_look|]. intros off' _. destruct (negb off'); [by apply holds_ret|]. eapply holds_bind; [apply any_tagStatus|]. intros status _.
    destruct (negb (Complete status)); [by apply holds_ret|]. eapply holds_bind; [apply holds_serveCachedManifest|]. intros served Hs. apply holds_ret. intros resp.
    destruct served as [resp'|]; [|done]. intros [= <-]. destruct (Hs resp' eq_refl) as (data & Ht). eapply vouched_manifest; eauto. congruence.
Qed.

Lemma holds_replayCache : holds (replayCache r) (fun x => forall resp, x = Served resp -> vouched r resp).
Proof.
  unfold replayCache. destruct (blob_match (rq_Path r)) as [digest|] eqn:Hb.
  - pose proof (blob_match_digest _ _ Hb) as Hd. eapply holds_bind; [by apply holds_serveCachedBlob|]. intros [resp|] Hs; [|apply holds_replay_manifest].
    apply holds_ret. intros resp' [= <-]. destruct (Hs resp eq_refl) as (data & ? & ?). intros _. split; intros; simplify_eq; eauto.
  - eapply (holds_bind _ _ (fun x => x = None)); [by apply holds_ret|]. intros ? ->. apply holds_replay_manifest.
Qed.

Lemma holds_serveCacheIfAvailable : holds (serveCacheIfAvailable r) (fun x => forall resp, x = Served resp -> vouched r resp).
Proof.
  unfold serveCacheIfAvailable. eapply holds_bind; [apply holds_replayCache|]. intros x Hx.
  destruct x as [resp| |]; [by apply holds_ret|..]; (eapply holds_bind; [apply holds_look|]); intros off _; cbv beta;
    (destruct (_ && _); [|by apply holds_ret]); (eapply holds_bind; [apply any_tagStatus|]); intros status _; apply holds_ret; cbv beta iota; [by case_match|done].
Qed.

(** A complete tag status is one of a tag. *)
Lemma holds_stale : holds (staleCandidate r) (fun s => Complete s = true -> is_manifest r = true /\ isDigestReference (manifestReference (rq_Path r)) = false).
Proof.
  unfold staleCandidate. eapply holds_bind; [apply holds_look|]. intros off _. cbv beta. destruct (_ || _); [by apply holds_ret|].
  unfold cachedTagStatus, is_manifest, manifestReference. destruct (manifest_match (rq_Path r)) as [[repository reference]|]; [|by apply holds_ret].
  destruct (isDigestReference reference) eqn:E; [by apply holds_ret|]. eapply holds_conseq; [apply any_inspect|]. by split; [apply bool_decide_eq_true|].
Qed.

Lemma stale_vouched status resp data :
  (Complete status = true -> is_manifest r = true /\ isDigestReference (manifestReference (rq_Path r)) = false) -> Complete status = true -> truthful resp data -> vouched r resp.
Proof. intros Hs Hc Ht. destruct (Hs Hc) as [Hm Hd]. eapply vouched_manifest; eauto. congruence. Qed.

Lemma holds_fetch_failed status :
  (Complete status = true -> is_manifest r = true /\ isDigestReference (manifestReference (rq_Path r)) = false) -> holds (fetch_failed r status) (vouched r).
Proof.
  intros Hs. unfold fetch_failed.
  apply (holds_bind _ _ (fun x => forall resp, x = Some resp -> vouched r resp)).
  - destruct (Complete status) eqn:Hc; [|by apply holds_ret]. eapply holds_conseq; [apply holds_serveStale|]. cbv beta. intros x Hx resp E.
    destruct (Hx resp E) as [data Ht]. by eapply stale_vouched; rewrite ?Hc.
  - intros [resp|] Hx; [by apply holds_ret, Hx|].
    apply (holds_bind _ _ (fun x => forall resp, x = Served resp -> vouched r resp)).
    + unfold serveManifestCacheOnFetchFailure. destruct (is_manifest r) eqn:Hm; cbn [negb]; [|by apply holds_ret].
      destruct (isDigestReference _) eqn:Hd; [|by apply holds_ret]. eapply holds_conseq; [apply holds_serveDigest|]. cbv beta. intros x Hx' resp E.
      destruct (Hx' resp E) as (data & Ht & Hv). by eapply vouched_manifest.
    + intros x Hx'. apply holds_ret. destruct x; [by apply Hx'|by apply vouched_error..].
Qed.

(** The digest a fetched manifest is kept under is one of its content, and the one asked
    for where one was. *)
Lemma persisted_digest_spec data header reference pathReference digest :
  persisted_digest data header reference pathReference = Ok digest ->
  verifySupportedDigest data digest = Ok digest /\ (isDigestReference reference = true -> verifies data reference).
Proof.
  unfold persisted_digest, mbind, result_bind, verifies. intros HP. repeat case_match; simplify_eq; split; intros; simplify_eq; eauto using sha256_verifies, verify_canonical.
Qed.

Lemma holds_answer_blob digest u : rq_WarmBlob r = false -> blob_match (rq_Path r) = Some digest -> holds (answer_blob r digest u) (vouched r).
Proof.
  intros Hw Hb. pose proof (blob_match_digest _ _ Hb) as Hd. unfold answer_blob. eapply holds_bind; [by apply holds_cacheBlob|].
  intros [|e] _; [|by apply holds_ret, vouched_error]. rewrite Hw. eapply holds_bind; [by apply holds_serveCachedBlob|]. intros served Hs. apply holds_ret.
  destruct served as [resp|]; [|by apply vouched_error]. destruct (Hs resp eq_refl) as (data & ? & ?). intros _. split; intros; simplify_eq/=; eauto.
Qed.

Lemma holds_answer_manifest u : rq_Validation r = None -> is_manifest r = true -> holds (answer_manifest r u) (fun x => vouched r x.1).
Proof.
  intros Hv Hm. unfold answer_manifest, manifestValidationReference. rewrite Hv.
  destruct (validateManifest u _ _) as [[data metadata]|e] eqn:E; [|destruct e; by apply holds_ret, vouched_error].
  assert (vouched r (mkResponse (u_status u) (if String.eqb (m_ContentType metadata) "" then u_type u else m_ContentType metadata) (m_DockerContentDigest metadata) None (Some data))) as Hr.
  { unfold validateManifest in E. destruct (parse_media_type (u_type u)) as [mt me]. do 6 (case_match; [done|]).
    destruct (validateManifestBytes (u_body u)) as [|]; [|done]. unfold mbind, result_bind in E. destruct (persisted_digest _ _ _ _) as [digest|] eqn:Ep; [|done].
    simplify_eq/=. apply persisted_digest_spec in Ep as [Ht Hd]. by eapply (vouched_manifest r _ (u_body u)). }
  destruct (rq_Staged r); [by apply holds_ret|]. apply (holds_bind _ _ any); [apply holds_storeManifest|]. intros _ _. by apply holds_ret.
Qed.

Lemma holds_answer status u : rq_WarmBlob r = false -> rq_Validation r = None ->
  (Complete status = true -> is_manifest r = true /\ isDigestReference (manifestReference (rq_Path r)) = false) -> holds (answer r status u) (fun x => vouched r x.1).
Proof.
  intros Hw Hv Hs. unfold answer. destruct (Complete status && isTransientUpstreamStatus (u_status u)) eqn:Hc.
  - apply andb_true_iff in Hc as [Hc _]. eapply holds_bind; [apply holds_serveStale|]. intros served Hx. apply holds_ret. destruct served as [resp|]; [|by apply vouched_error].
    destruct (Hx resp eq_refl) as [data Ht]. by eapply stale_vouched.
  - rewrite is_get_true. cbn [andb]. destruct (u_status u =? 200) eqn:Eu.
    + destruct (blob_match (rq_Path r)) as [digest|] eqn:Hb.
      * eapply holds_bind; [by apply holds_answer_blob|]. intros resp Hr. by apply holds_ret.
      * destruct (is_manifest r) eqn:Hm; [by apply holds_answer_manifest|]. apply holds_ret. intros _. split; intros; [by rewrite Hb in *|].
        unfold is_manifest in Hm. apply bool_decide_eq_false in Hm. exfalso. apply Hm. eauto.
    + apply holds_ret. intros E. cbn in E. lia.
Qed.

Lemma holds_from_cache k : holds k (fun x => vouched r x.1) -> holds (from_cache_or r k) (fun x => vouched r x.1).
Proof.
  intros Hk. unfold from_cache_or. eapply holds_bind; [apply holds_serveCacheIfAvailable|]. intros [resp| |] Hx.
  - apply holds_ret. by apply Hx.
  - eapply holds_bind; [apply holds_look|]. intros [|] _; [by apply holds_ret, vouched_error|done].
  - by apply holds_ret, vouched_error.
Qed.

Lemma holds_ServeHTTP : rq_WarmBlob r = false -> rq_Validation r = None -> holds (ServeHTTP r) (fun x => vouched r x.1).
Proof.
  intros Hw Hv. unfold ServeHTTP. rewrite r_get. destruct (String.eqb (rq_Path r) "/v2/") eqn:Ep.
  { apply holds_ret. apply String.eqb_eq in Ep. intros _. rewrite Ep. by split. }
  apply holds_from_cache. eapply holds_bind; [apply holds_stale|]. intros status Hs. cbv beta in Hs.
  apply (holds_bind _ _ any); [unfold validateUpstream; destruct vet; [eapply holds_any, holds_ask|by apply holds_ret]|]. intros [e|] _.
  - apply (holds_bind _ _ (fun x => forall resp, x = Some resp -> vouched r resp)).
    + destruct (Complete status && _) eqn:Hc; [|by apply holds_ret]. apply andb_true_iff in Hc as [Hc _]. eapply holds_conseq; [apply holds_serveStale|].
      cbv beta. intros x Hx resp E. destruct (Hx resp E) as [data Ht]. by eapply stale_vouched.
    + intros [resp|] Hx; apply holds_ret; [by apply Hx|]. apply vouched_error. by destruct e.
  - apply holds_from_cache. apply (holds_bind _ _ any); [eapply holds_any, holds_ask|]. intros [u|] _; [by apply holds_answer|].
    eapply holds_bind; [by apply holds_fetch_failed|]. intros resp Hr. by apply holds_ret.
Qed.

End Guest.

(** C17: whatever the upstream sends, whichever calls fail and whatever other requests do to
    the cache meanwhile, a [GET] that succeeds answers with the content that was asked for:
    a blob with the digest in the path, a manifest with the digest in its header, and with
    the digest in the path where there is one; and the cache stays sound. *)
Theorem served_content_verified (w : Cache) (p : string) (refresh staged : bool) :
  sound (files w) ->
  let '(w', (resp, _)) := ServeHTTP (mkRequest GET p refresh None staged false) w in
  sound (files w') /\
  (r_status resp = 200 ->
   (forall digest, blob_match p = Some digest -> manifest_match p = None -> exists data, r_body resp = Some data /\ verifies data digest) /\
   (forall repository reference, blob_match p = None -> manifest_match p = Some (repository, reference) ->
      exists data, truthful resp data /\ (isDigestReference reference = true -> verifies data reference))).
Proof.
  intros Hw. pose proof (holds_ServeHTTP (mkRequest GET p refresh None staged false) eq_refl eq_refl eq_refl w Hw) as Hr. unfold runs in Hr.
  destruct (ServeHTTP _ w) as [w' [resp st]]. exact Hr.
Qed.

(** ** Pulling offline

    Nothing else touches the cache, calls work, and the mirror is offline: what a
    computation comes to depends on the files alone. *)

Section Offline.
Context (quiet_env : forall t fs, env t fs = fs) (quiet_fault : forall t, fault t = false) (is_offline : forall t, offline t = true) (live : forall t, canceled t = false).
Context (fs : gmap path inode).

Definition yields {A} (m : M A) (a : A) : Prop := forall t, exists t', m (mkCache fs t) = (mkCache fs t', a).
Definition steady {A} (m : M A) : Prop := exists a, yields m a.

Lemma yields_ret {A} (a : A) : yields (mret a) a.
Proof. intros t. by exists t. Qed.

Lemma yields_bind {A B} (m : M A) (k : A -> M B) a b : yields m a -> yields (k a) b -> yields (m ≫= k) b.
Proof. intros Hm Hk t. destruct (Hm t) as [t1 E1]. destruct (Hk t1) as [t2 E2]. exists t2. unfold mbind, State_bind. by rewrite E1. Qed.

Lemma yields_det {A} (m : M A) a b : yields m a -> yields m b -> a = b.
Proof. intros Ha Hb. destruct (Ha 0%nat) as [t1 E1], (Hb 0%nat) as [t2 E2]. congruence. Qed.

(** What follows a computation whose value is known *)
Lemma yields_next {A B} (m : M A) (k : A -> M B) a b : yields m a -> steady (k a) -> yields (m ≫= k) b -> yields (k a) b.
Proof. intros Hm [c Hc] Hb. by rewrite (yields_det _ _ _ Hb (yields_bind _ _ _ _ Hm Hc)). Qed.

Lemma steady_ret {A} (a : A) : steady (mret a).
Proof. exists a. apply yields_ret. Qed.

Lemma steady_bind {A B} (m : M A) (k : A -> M B) : steady m -> (forall a, steady (k a)) -> steady (m ≫= k).
Proof. intros [a Ha] Hk. destruct (Hk a) as [b Hb]. exists b. by eapply yields_bind. Qed.

Lemma steady_try {E A B} (m : M (result E A)) (k : A -> M (result E B)) : steady m -> (forall a, steady (k a)) -> steady (try_bind m k).
Proof. intros Hm Hk. apply steady_bind; [done|]. intros [a|e]; [apply Hk|apply steady_ret]. Qed.

Lemma yields_offline : yields offlineEnabled true.
Proof. intros t. exists (S t). unfold offlineEnabled, look. cbn. by rewrite is_offline. Qed.

Lemma yields_live : yields ctx_err false.
Proof. intros t. exists (S t). unfold ctx_err, look. cbn. by rewrite live. Qed.

Lemma yields_call : yields call false.
Proof. intros t. exists (S t). unfold call. cbn. by rewrite quiet_env, quiet_fault. Qed.

Definition opened (p : path) : result read_error string :=
  match fs !! p with None => Err NotExist | Some Irregular => Err NotRegular | Some (Regular data) => Ok data end.

Lemma yields_open p : yields (openCheckedRegularFile p) (opened p).
Proof.
  unfold openCheckedRegularFile. eapply yields_bind; [apply yields_call|]. intros t. exists t. unfold mbind, State_bind, get. cbn. done.
Qed.

Ltac step_steady :=
  match goal with
  | |- steady (mret _) => apply steady_ret
  | |- steady (ok _) => apply steady_ret
  | |- steady (fail _) => apply steady_ret
  | |- steady (openCheckedRegularFile _) => eexists; apply yields_open
  | |- steady call => eexists; apply yields_call
  | |- steady offlineEnabled => eexists; apply yields_offline
  | |- steady ctx_err => eexists; apply yields_live
  | |- steady (_ ≫= _) => apply steady_bind; [|intros ?]
  | |- steady (try_bind _ _) => apply steady_try; [|intros ?]
  | |- steady (match ?x with _ => _ end) => destruct x
  | |- steady (if ?x then _ else _) => destruct x
  end.

Lemma steady_read p n : steady (readCheckedRegularFile p n).
Proof. unfold readCheckedRegularFile. repeat step_steady. Qed.

Lemma steady_checked requestPath : steady (checkedCachedManifest requestPath).
Proof. unfold checkedCachedManifest. repeat (step_steady || apply steady_read). Qed.

Lemma steady_legacy p : steady (cachedLegacyManifestContentTypeAtPath p).
Proof. unfold cachedLegacyManifestContentTypeAtPath. repeat (step_steady || apply steady_read). Qed.

Lemma steady_read_metadata p : steady (read_metadata p).
Proof. unfold read_metadata. repeat (step_steady || apply steady_read). Qed.

Lemma steady_metadata_checked requestPath p data : steady (checkedCachedManifestMetadataAtPath requestPath p data).
Proof. unfold checkedCachedManifestMetadataAtPath. repeat (step_steady || apply steady_read_metadata || apply steady_legacy). Qed.

Lemma steady_metadata requestPath p data : steady (cachedManifestMetadataAtPath requestPath p data).
Proof. unfold cachedManifestMetadataAtPath, cachedManifestContentTypeAtPath. repeat (step_steady || apply steady_read_metadata || apply steady_legacy). Qed.

Lemma steady_blob kind digest deep status : steady (inspectBlob kind digest deep status).
Proof. unfold inspectBlob. repeat step_steady. Qed.

Lemma steady_layers layers deep status : steady (inspect_layers layers deep status).
Proof. revert status. induction layers as [|l ls IH]; intros status; simpl; repeat (step_steady || apply steady_blob || apply IH). Qed.

Lemma steady_blobs graph deep status : steady (inspectBlobs graph deep status).
Proof. unfold inspectBlobs. repeat (step_steady || apply steady_blob || apply steady_layers). Qed.

Lemma steady_selected levels target selected visited status : steady (inspectSelectedManifest levels target selected visited status).
Proof.
  revert selected visited status. induction levels as [|levels IH]; intros selected visited status; simpl; repeat (step_steady || apply steady_checked || apply IH).
Qed.

Lemma steady_root target rootDigest deep status : steady (inspect_root target rootDigest deep status).
Proof. unfold inspect_root. repeat (step_steady || apply steady_checked || apply steady_selected || apply steady_blobs). Qed.

Lemma steady_inspect target deep : steady (InspectCached target deep).
Proof. unfold InspectCached. repeat (step_steady || apply steady_checked || apply steady_metadata_checked || apply steady_root). Qed.

(** A request that is answered with content *)
Definition pulls (p data : string) : Prop :=
  exists resp, yields (ServeHTTP (guest GET p)) (resp, None) /\ r_status resp = 200 /\ r_body resp = Some data.

Context (repository : string) (named : repository <> "" /\ all_chars is_dot repository = true).

Definition image_blobs (graph : cachedGraph) : list string := (if String.eqb (g_Config graph) "" then [] else [g_Config graph]) ++ g_Layers graph.

(** What a client pulls from a digest on: through the indexes to the image of its platform,
    then the configuration and the layers *)
Inductive pullable (platform : Platform) : string -> Prop :=
| pull_image digest data graph :
    pulls (manifestRequestPath repository digest) data -> verifies data digest -> decodeManifestGraph data = Ok graph -> isManifestIndex graph = false ->
    (forall blob, blob ∈ image_blobs graph -> blob_digest blob = true -> exists content, pulls (blobRequestPath repository blob) content) ->
    pullable platform digest
| pull_index digest data graph next :
    pulls (manifestRequestPath repository digest) data -> verifies data digest -> decodeManifestGraph data = Ok graph -> isManifestIndex graph = true ->
    selectPlatformDescriptor (descriptorsForGraph graph) platform = Some next -> pullable platform (d_Digest next) ->
    pullable platform digest.

Lemma supported_reference digest x : checkedSupportedDigest digest = Ok x ->
  isDigestReference digest = true /\ no_slash digest = true /\ manifest_match (manifestRequestPath repository digest) = Some (repository, digest) /\
  blob_match (manifestRequestPath repository digest) = None.
Proof.
  destruct named as [Hn Hd]. unfold checkedSupportedDigest. destruct (splitDigestReference digest) as [[a e]|] eqn:E; [|done]. intros _.
  destruct (digest_reference_chars _ _ _ E) as (Hs & Hne & Hdots). split_and!; [unfold isDigestReference; rewrite E; by apply bool_decide_eq_true|done| |].
  - apply manifest_match_request; auto. by rewrite all_chars_app, Hd, Hdots.
  - by apply blob_match_manifest.
Qed.

(** The cache answers first. *)
Lemma yields_served r resp : rq_Method r = GET -> String.eqb (rq_Path r) "/v2/" = false -> yields (replayCache r) (Served resp) -> yields (ServeHTTP r) (resp, None).
Proof.
  intros Hm Hp Hr. unfold ServeHTTP. rewrite Hm, Hp. unfold from_cache_or, serveCacheIfAvailable.
  eapply yields_bind; [eapply yields_bind; [apply Hr|apply yields_ret]|apply yields_ret].
Qed.

Lemma pulls_blob digest data : blob_digest digest = true -> fs !! blobPath digest = Some (Regular data) -> pulls (blobRequestPath repository digest) data.
Proof.
  intros Hd Hf. destruct named as [Hn Hdots]. destruct (blob_digest_no_slash _ Hd) as (Hs & Hdot & _).
  assert (blob_match (blobRequestPath repository digest) = Some digest) as Hb.
  { apply blob_match_request; auto. by rewrite all_chars_app, Hdots, Hdot. }
  eexists. split; [|split].
  - apply yields_served; [done| |].
    + cbn [rq_Path guest]. destruct (String.eqb _ "/v2/") eqn:E; [|done]. apply String.eqb_eq in E. by rewrite E in Hb.
    + unfold replayCache. cbn [rq_Path guest]. rewrite Hb. eapply yields_bind.
      * unfold serveCachedBlob. rewrite canonical_blobPath by done. eapply yields_bind; [apply yields_open|]. unfold opened. rewrite Hf. apply yields_ret.
      * apply yields_ret.
  - done.
  - done.
Qed.

Lemma manifest_path_not_ping reference : manifest_match (manifestRequestPath repository reference) = Some (repository, reference) ->
  String.eqb (manifestRequestPath repository reference) "/v2/" = false.
Proof. intros Hm. destruct (String.eqb _ "/v2/") eqn:E; [|done]. apply String.eqb_eq in E. by rewrite E in Hm. Qed.

Lemma pulls_manifest digest data p x : checkedSupportedDigest digest = Ok x ->
  yields (checkedCachedManifest (manifestRequestPath repository digest)) (Ok (data, p)) -> verifies data digest -> pulls (manifestRequestPath repository digest) data.
Proof.
  intros Hd Hc [canonical Hv]. destruct (supported_reference _ _ Hd) as (Hr & Hs & Hm & Hb).
  destruct (steady_metadata (manifestRequestPath repository digest) p data) as [metadata Hmeta].
  eexists. split; [|split].
  - apply yields_served; [done|by apply manifest_path_not_ping|]. unfold replayCache. cbn [rq_Path guest]. rewrite Hb.
    eapply yields_bind; [apply yields_ret|]. unfold replay_manifest, is_manifest, manifestReference. cbn [rq_Path rq_Refresh guest]. rewrite Hm, bool_decide_true by eauto. cbn [negb].
    eapply yields_bind; [apply yields_ret|]. cbn [andb]. rewrite Hr. unfold serveCachedDigestManifest. cbn [rq_Path guest].
    eapply yields_bind; [apply Hc|]. cbv beta iota. rewrite Hv. eapply yields_bind; [apply Hmeta|]. apply yields_ret.
  - done.
  - done.
Qed.

Lemma yields_mret {A} (a b : A) : yields (mret a) b -> b = a.
Proof. intros Hb. apply (yields_det _ _ _ Hb), yields_ret. Qed.

Lemma gap_incomplete gap status : Complete (add_gap gap status) = false.
Proof. unfold Complete, add_gap. cbn [cs_Gaps]. apply bool_decide_eq_false. by destruct (cs_Gaps status). Qed.

Ltac known m := match goal with Hy : yields (_ ≫= _) _ |- _ => eapply yields_next in Hy; [|apply m|]; [|cbv beta iota; repeat step_steady]; cbv beta iota in Hy end.

Lemma inspectBlob_complete kind digest status s : yields (inspectBlob kind digest false status) s -> Complete s = true ->
  s = status /\ exists data, fs !! blobPath digest = Some (Regular data).
Proof.
  intros Hy Hc. unfold inspectBlob in Hy. known yields_live. destruct (checkedSupportedDigest digest); [|apply yields_mret in Hy as ->; by rewrite gap_incomplete in Hc].
  known yields_open. unfold opened in Hy. destruct (fs !! blobPath digest) as [[data|]|]; apply yields_mret in Hy as ->; eauto; by rewrite gap_incomplete in Hc.
Qed.

Lemma inspect_layers_complete layers status s : yields (inspect_layers layers false status) s -> Complete s = true ->
  s = status /\ forall blob, blob ∈ layers -> exists data, fs !! blobPath blob = Some (Regular data).
Proof.
  revert status. induction layers as [|l ls IH]; intros status Hy Hc; simpl in Hy; [apply yields_mret in Hy as ->; split; [done|by intros ? ?%elem_of_nil]|].
  destruct (steady_blob GapLayer l false status) as [s1 H1]. eapply yields_next in Hy; [|apply H1|apply steady_layers]. destruct (IH s1 Hy Hc) as [-> Hls].
  destruct (inspectBlob_complete _ _ _ _ H1 Hc) as [-> Hl]. split; [done|]. intros blob [->|Hb]%elem_of_cons; auto.
Qed.

Lemma inspectBlobs_complete graph status s : yields (inspectBlobs graph false status) s -> Complete s = true ->
  Complete status = true /\ forall blob, blob ∈ image_blobs graph -> exists data, fs !! blobPath blob = Some (Regular data).
Proof.
  intros Hy Hc. unfold inspectBlobs in Hy.
  assert (exists s1, yields (if String.eqb (g_Config graph) "" then mret status else inspectBlob GapConfig (g_Config graph) false status) s1) as [s1 H1].
  { destruct (String.eqb (g_Config graph) ""); [apply steady_ret|apply steady_blob]. }
  eapply yields_next in Hy; [|apply H1|apply steady_layers]. destruct (inspect_layers_complete _ _ _ Hy Hc) as [-> Hls]. change (Complete s1 = true) in Hc.
  unfold image_blobs. destruct (String.eqb (g_Config graph) "").
  - apply yields_mret in H1 as ->. split; [done|]. by intros blob [?%elem_of_nil|?]%elem_of_app; [|apply Hls].
  - destruct (inspectBlob_complete _ _ _ _ H1 Hc) as [-> Hl]. split; [done|]. intros blob [->%list_elem_of_singleton|?]%elem_of_app; auto.
Qed.

Lemma blobs_pulled graph : (forall blob, blob ∈ image_blobs graph -> exists data, fs !! blobPath blob = Some (Regular data)) ->
  forall blob, blob ∈ image_blobs graph -> blob_digest blob = true -> exists content, pulls (blobRequestPath repository blob) content.
Proof. intros Hall blob Hb Hd. destruct (Hall blob Hb) as [data Hf]. exists data. by apply pulls_blob. Qed.

(** The walk to the image of the platform: where it gets there, everything on the way can be
    pulled. *)
Lemma inspectSelected_complete levels target selected visited status r : ct_Repository target = repository ->
  yields (inspectSelectedManifest levels target selected visited status) r ->
  match r with
  | Err s => Complete s = false
  | Ok (graph, s) => s = status /\
      ((forall blob, blob ∈ image_blobs graph -> blob_digest blob = true -> exists content, pulls (blobRequestPath repository blob) content) ->
       pullable (ct_Platform target) (d_Digest selected))
  end.
Proof.
  intros Hrep. revert selected visited status. induction levels as [|levels IH]; intros selected visited status Hy; cbn [inspectSelectedManifest] in Hy.
  { apply yields_mret in Hy as ->. apply gap_incomplete. }
  destruct (checkedSupportedDigest (d_Digest selected)) as [x|] eqn:Hd; [|apply yields_mret in Hy as ->; apply gap_incomplete].
  destruct (existsb _ visited); [apply yields_mret in Hy as ->; apply gap_incomplete|]. rewrite Hrep in Hy.
  destruct (steady_checked (manifestRequestPath repository (d_Digest selected))) as [c Hcache].
  eapply yields_next in Hy; [|apply Hcache|repeat (step_steady || apply steady_selected)]. cbv beta iota in Hy.
  destruct c as [[child p]|]; [|apply yields_mret in Hy as ->; apply gap_incomplete].
  destruct (verifySupportedDigest child (d_Digest selected)) as [canonical|] eqn:Hv; [|apply yields_mret in Hy as ->; apply gap_incomplete].
  destruct (decodeManifestGraph child) as [decoded|] eqn:Hg; [|apply yields_mret in Hy as ->; apply gap_incomplete].
  assert (pulls (manifestRequestPath repository (d_Digest selected)) child) as Hpull by (eapply pulls_manifest; eauto; by exists canonical).
  assert (verifies child (d_Digest selected)) as Hver by (by exists canonical).
  destruct (isManifestIndex decoded) eqn:Hi; cbn [negb] in Hy.
  - destruct (selectPlatformDescriptor _ _) as [next|] eqn:Hsel; [|apply yields_mret in Hy as ->; apply gap_incomplete].
    apply IH in Hy. destruct r as [[graph s]|s]; [|done]. destruct Hy as [-> Hy]. split; [done|]. intros Hb. eapply pull_index; eauto.
  - apply yields_mret in Hy as ->. split; [done|]. intros Hb. by eapply pull_image.
Qed.

Lemma inspect_root_complete target digest status s : ct_Repository target = repository ->
  yields (inspect_root target digest false status) s -> Complete s = true -> pullable (ct_Platform target) digest.
Proof.
  intros Hrep Hy Hc. unfold inspect_root in Hy. rewrite Hrep in Hy.
  destruct (checkedSupportedDigest digest) as [x|] eqn:Hd; [|apply yields_mret in Hy as ->; by rewrite gap_incomplete in Hc].
  destruct (steady_checked (manifestRequestPath repository digest)) as [c Hcache].
  eapply yields_next in Hy; [|apply Hcache|repeat (step_steady || apply steady_selected || apply steady_blobs)]. cbv beta iota in Hy.
  destruct c as [[root p]|]; [|apply yields_mret in Hy as ->; by rewrite gap_incomplete in Hc].
  destruct (verifySupportedDigest root digest) as [canonical|] eqn:Hv; [|apply yields_mret in Hy as ->; by rewrite gap_incomplete in Hc].
  destruct (decodeManifestGraph root) as [manifest|] eqn:Hg; [|apply yields_mret in Hy as ->; by rewrite gap_incomplete in Hc].
  assert (pulls (manifestRequestPath repository digest) root) as Hpull by (eapply pulls_manifest; eauto; by exists canonical).
  assert (verifies root digest) as Hver by (by exists canonical).
  destruct (selectPlatformDescriptor (descriptorsForGraph manifest) (ct_Platform target)) as [selected|] eqn:Hsel.
  - destruct (steady_selected maxSelectedIndexDepth target selected [digest] (with_manifest root (with_root digest status))) as [r Hr].
    eapply yields_next in Hy; [|apply Hr|repeat (step_steady || apply steady_blobs)]. cbv beta iota in Hy. apply inspectSelected_complete in Hr; [|done].
    destruct r as [[graph s']|s']; [|apply yields_mret in Hy as ->; congruence]. destruct Hr as [-> Hr].
    eapply pull_index; eauto.
    + unfold isManifestIndex. unfold selectPlatformDescriptor, descriptorsForGraph in Hsel. destruct (g_Manifests manifest); [done|]. done.
    + apply Hr, blobs_pulled. by eapply inspectBlobs_complete.
  - destruct (isManifestIndex manifest) eqn:Hi; [apply yields_mret in Hy as ->; by rewrite gap_incomplete in Hc|].
    eapply pull_image; eauto. apply blobs_pulled. by eapply inspectBlobs_complete.
Qed.

Context (tag : string) (tagged : tag <> "" /\ no_slash tag = true /\ all_chars is_dot tag = true /\ isDigestReference tag = false).

Lemma tag_request : manifest_match (manifestRequestPath repository tag) = Some (repository, tag) /\ blob_match (manifestRequestPath repository tag) = None.
Proof.
  destruct named as [Hn Hd], tagged as (Ht & Hs & Hdots & _). split; [|by apply blob_match_manifest].
  apply manifest_match_request; auto. by rewrite all_chars_app, Hd, Hdots.
Qed.

Lemma inspect_tag_complete status : yields (InspectCached (tag_target repository tag) false) status -> Complete status = true ->
  exists data p digest, yields (checkedCachedManifest (manifestRequestPath repository tag)) (Ok (data, p)) /\ verifies data digest /\
    pullable (mkPlatform "linux" hostArch) digest.
Proof.
  intros Hy Hc. unfold InspectCached in Hy. destruct tagged as (Ht & _).
  eapply yields_next in Hy; [|apply yields_live|cbv beta iota; repeat (step_steady || apply steady_checked || apply steady_metadata_checked || apply steady_root)]. cbv beta iota in Hy.
  cbn [ct_Tag ct_Digest ct_Repository tag_target] in Hy. destruct (String.eqb tag "") eqn:E; [by apply String.eqb_eq in E|].
  destruct (steady_checked (manifestRequestPath repository tag)) as [c Hcache].
  eapply yields_next in Hy; [|apply Hcache|repeat (step_steady || apply steady_metadata_checked || apply steady_root)]. cbv beta iota in Hy.
  destruct c as [[data p]|]; [|apply yields_mret in Hy as ->; by rewrite gap_incomplete in Hc].
  destruct (steady_metadata_checked (manifestRequestPath repository tag) p data) as [metadata Hmeta].
  eapply yields_next in Hy; [|apply Hmeta|repeat (step_steady || apply steady_root)]. cbv beta iota in Hy.
  destruct (verifySupportedDigest data (m_DockerContentDigest metadata)) as [mapped|] eqn:Hv; [|apply yields_mret in Hy as ->; by rewrite gap_incomplete in Hc].
  cbn [String.eqb negb andb] in Hy. destruct (decodeManifestGraph data); [|apply yields_mret in Hy as ->; by rewrite gap_incomplete in Hc].
  exists data, p, mapped. split; [done|]. split; [exists mapped; by eapply verify_canonical|]. by eapply (inspect_root_complete (tag_target repository tag)).
Qed.

(** What the mirror answers to a request for a tag while it is offline *)
Lemma offline_tag_answer status : yields (InspectCached (tag_target repository tag) false) status ->
  exists resp, yields (ServeHTTP (guest GET (manifestRequestPath repository tag))) (resp, None) /\ (r_status resp = 200 <-> Complete status = true) /\
    (Complete status = true -> exists data p, yields (checkedCachedManifest (manifestRequestPath repository tag)) (Ok (data, p)) /\ r_body resp = Some data).
Proof.
  intros Hs. destruct tag_request as [Hm Hb], tagged as (_ & _ & _ & Hd). set (r := guest GET (manifestRequestPath repository tag)).
  assert (yields (cachedTagStatus r) status) as Hts by (unfold cachedTagStatus; cbn [rq_Path r guest]; by rewrite Hm, Hd).
  destruct (Complete status) eqn:Hc.
  - destruct (inspect_tag_complete _ Hs Hc) as (data & p & digest & Hcache & _ & _).
    destruct (steady_metadata (manifestRequestPath repository tag) p data) as [metadata Hmeta].
    exists (serveManifestBytes r data metadata None). split; [|split; [by split|]].
    + apply yields_served; [done|by apply manifest_path_not_ping|]. unfold replayCache. cbn [rq_Path r guest]. rewrite Hb. eapply yields_bind; [apply yields_ret|].
      unfold replay_manifest, is_manifest, manifestReference. cbn [rq_Path rq_Refresh r guest]. rewrite Hm, bool_decide_true by eauto. cbn [negb].
      eapply yields_bind; [apply yields_ret|]. cbn [andb]. rewrite Hd. eapply yields_bind; [apply yields_offline|]. cbn [negb]. eapply yields_bind; [apply Hts|].
      rewrite Hc. cbn [negb]. apply (yields_bind _ _ (Some (serveManifestBytes r data metadata None))); [|apply yields_ret].
      unfold serveCachedManifest. cbn [rq_Path r guest]. eapply yields_bind; [apply Hcache|]. cbv beta iota. eapply yields_bind; [apply Hmeta|]. apply yields_ret.
    + intros _. exists data, p. by split.
  - assert (yields (replayCache r) Missed) as Hmiss.
    { unfold replayCache. cbn [rq_Path r guest]. rewrite Hb. eapply yields_bind; [apply yields_ret|].
      unfold replay_manifest, is_manifest, manifestReference. cbn [rq_Path rq_Refresh r guest]. rewrite Hm, bool_decide_true by eauto. cbn [negb].
      eapply yields_bind; [apply yields_ret|]. cbn [andb]. rewrite Hd. eapply yields_bind; [apply yields_offline|]. cbn [negb]. eapply yields_bind; [apply Hts|].
      rewrite Hc. apply yields_ret. }
    assert (yields (serveCacheIfAvailable r) (if cacheStatusCorrupted status then Corrupt else Missed)) as Hserve.
    { unfold serveCacheIfAvailable. eapply yields_bind; [apply Hmiss|]. cbv beta iota. eapply yields_bind; [apply yields_offline|].
      unfold is_manifest, manifestReference. cbn [rq_Path r guest]. rewrite Hm, bool_decide_true, Hd by eauto. cbn [andb negb]. eapply yields_bind; [apply Hts|]. apply yields_ret. }
    exists (if cacheStatusCorrupted status then corrupted else offline_miss). split; [|by destruct (cacheStatusCorrupted status)].
    unfold ServeHTTP. cbn [rq_Method rq_Path r guest]. rewrite manifest_path_not_ping by done. fold r. unfold from_cache_or at 1.
    eapply yields_bind; [apply Hserve|]. destruct (cacheStatusCorrupted status); cbv beta iota; [apply yields_ret|].
    eapply yields_bind; [apply yields_offline|]. apply yields_ret.
Qed.

End Offline.


End Server.

(** ** An image in the cache *)

Module Demo.

Definition digest (data : string) : string := ("sha256:" +:+ manifestSHA256 data)%string.

Definition image (layer : string) : rawManifestGraph := mkRaw 2 "" None (Some (digest "config")) (Some [layer]).
Definition index : rawManifestGraph :=
  mkRaw 2 "application/vnd.oci.image.index.v1+json" (Some [mkIndexDescriptor (digest "image") "arm64" "linux"; mkIndexDescriptor (digest "other") "amd64" "linux"]) None None.

(** The texts are names of what they stand for. *)
#[local] Instance wire : Wire := {|
  json_valid := fun _ => true;
  unmarshal_graph := fun s =>
    if String.eqb s "index" then Some index
    else if String.eqb s "image" then Some (image (digest "layer"))
    else if String.eqb s "loud" then Some (image ("SHA256:" +:+ manifestSHA256 "layer")%string)
    else None;
  unmarshal_mediaType := fun _ => None;
  unmarshal_metadata := fun _ => None;
  marshal_metadata := fun _ => "";
  parse_media_type := fun s => (s, false)
|}.

Definition still (t : nat) (fs : gmap path inode) : gmap path inode := fs.
Definition never (t : nat) : bool := false.
Definition always (t : nat) : bool := true.
Definition sends (data : string) (t : nat) (immediate : bool) : option Upstream :=
  Some (mkUpstream 200 "application/vnd.oci.image.index.v1+json" "" data true).

(** Online, with an upstream that sends one text whatever it is asked for *)
Definition online (data p : string) (w : Cache) : Cache * (Response * option stagedManifest) :=
  ServeHTTP still never never never "arm64" None (sends data) (guest GET p) w.

Definition empty : Cache := mkCache ∅ 0.
Definition manifest_at (reference : string) : string := manifestRequestPath "app" reference.
Definition blob_at (data : string) : string := blobRequestPath "app" (digest data).

(** What a client that pulls [app:1.0] has left in the cache *)
Definition pulled : Cache :=
  let w := (online "index" (manifest_at "1.0") empty).1 in
  let w := (online "index" (manifest_at (digest "index")) w).1 in
  let w := (online "image" (manifest_at (digest "image")) w).1 in
  let w := (online "config" (blob_at "config") w).1 in
  (online "layer" (blob_at "layer") w).1.

(** The same image, with the digest of its layer in other letters *)
Definition pulled_loud : Cache :=
  let w := (online "loud" (manifest_at "1.0") empty).1 in
  let w := (online "loud" (manifest_at (digest "loud")) w).1 in
  let w := (online "config" (blob_at "config") w).1 in
  (online "layer" (blob_at "layer") w).1.

Definition offline (p : string) (w : Cache) : Response :=
  (ServeHTTP still never always never "arm64" None (sends "") (guest GET p) w).2.1.

Lemma served_content_verified_witness :
  r_status (online "layer" (blob_at "layer") empty).2.1 = 200 /\ exists data, r_body (online "layer" (blob_at "layer") empty).2.1 = Some data /\ verifies data (digest "layer").
Proof.
  assert (r_status (online "layer" (blob_at "layer") empty).2.1 = 200) as E by (vm_compute; reflexivity). split; [exact E|].
  pose proof (served_content_verified still never never never "arm64" None (sends "layer") (fun t fs Hfs => Hfs) empty (blob_at "layer") false false) as T.
  assert (sound (files empty)) as S0 by (intros d data _; cbn [files empty]; by rewrite lookup_empty). specialize (T S0). fold (online "layer" (blob_at "layer") empty) in T.
  change (ServeHTTP still never never never "arm64" None (sends "layer") (mkRequest GET (blob_at "layer") false None false false) empty) with (online "layer" (blob_at "layer") empty) in T.
  destruct (online "layer" (blob_at "layer") empty) as [w' [resp st]]. destruct T as [_ T]. destruct (T E) as [T1 _]. apply T1; vm_compute; reflexivity.
Defined.


(** The predicate takes the digest of a layer in any letters, the blob route only a lower-case
    algorithm: the image counts as complete, its tag is served, and its layer is not. *)
Lemma loud_layer_not_served :
  Complete (InspectCached still never never (tag_target "arm64" "app" "1.0") false pulled_loud).2 = true /\
  r_status (offline (manifest_at "1.0") pulled_loud) = 200 /\
  r_status (offline (blobRequestPath "app" ("SHA256:" +:+ manifestSHA256 "layer")) pulled_loud) = 404 /\
  r_status (offline (blob_at "layer") pulled_loud) = 200.
Proof. vm_compute. done. Qed.

End Demo.
