(* ===== verification/Authority.v ===== *)
(** * Registries by name ([internal/mirror]: the authorities of manager.go, the guarded
      dialer of mirror.go)

    Guests name the registry they want: the name is brought to a canonical form, the cache
    of the registry is kept under a key derived from it, and connections are only made to
    addresses that are public and not the host's own. *)

From stdpp Require Import base sets list strings.
From Stdlib Require Import Ascii ZArith Lia Btauto.
From S2P Require Import Prelude GoStrings GoNet Digest.

Local Open Scope Z_scope.

(** ** Addresses ([net.IP]) *)

Definition ipv6loopback : IP := replicate 15 0 ++ [1].
Definition ipv4bcast : IP := v4InV6Prefix ++ [255; 255; 255; 255].
Definition ipv4zero : IP := v4InV6Prefix ++ [0; 0; 0; 0].
Definition ipv6unspecified : IP := replicate 16 0.

(** The bytes of [ip] as a four-byte address, or as a sixteen-byte one *)
Definition by_family (v4 v6 : IP -> bool) (ip : IP) : bool :=
  match to4 ip with
  | [] => bool_decide (length ip = 16%nat) && v6 ip
  | ip4 => v4 ip4
  end.

Definition IsUnspecified (ip : IP) : bool := ip_equal ip ipv4zero || ip_equal ip ipv6unspecified.

Definition IsLoopback (ip : IP) : bool :=
  by_family (fun ip4 => at_ ip4 0 =? 127) (fun ip => ip_equal ip ipv6loopback) ip.

Definition IsPrivate : IP -> bool :=
  by_family
    (fun ip4 => (at_ ip4 0 =? 10) || ((at_ ip4 0 =? 172) && (Z.land (at_ ip4 1) 0xf0 =? 16)) || ((at_ ip4 0 =? 192) && (at_ ip4 1 =? 168)))
    (fun ip => Z.land (at_ ip 0) 0xfe =? 0xfc).

Definition IsMulticast : IP -> bool :=
  by_family (fun ip4 => Z.land (at_ ip4 0) 0xf0 =? 0xe0) (fun ip => at_ ip 0 =? 0xff).

Definition IsLinkLocalMulticast : IP -> bool :=
  by_family (fun ip4 => (at_ ip4 0 =? 224) && (at_ ip4 1 =? 0) && (at_ ip4 2 =? 0))
            (fun ip => (at_ ip 0 =? 0xff) && (Z.land (at_ ip 1) 0x0f =? 2)).

Definition IsLinkLocalUnicast : IP -> bool :=
  by_family (fun ip4 => (at_ ip4 0 =? 169) && (at_ ip4 1 =? 254))
            (fun ip => (at_ ip 0 =? 0xfe) && (Z.land (at_ ip 1) 0xc0 =? 0x80)).

Definition IsGlobalUnicast (ip : IP) : bool :=
  bool_decide (length ip = 4%nat \/ length ip = 16%nat) && negb (ip_equal ip ipv4bcast) && negb (IsUnspecified ip) &&
  negb (IsLoopback ip) && negb (IsMulticast ip) && negb (IsLinkLocalUnicast ip).

Definition inCGNATRange (ip : IP) : bool :=
  match to4 ip with [] => false | ip4 => (at_ ip4 0 =? 100) && (Z.land (at_ ip4 1) 192 =? 64) end.

Definition namespaceIPBlocked (ip : IP) (hostIPs : list IP) : bool :=
  negb (IsGlobalUnicast ip) || IsLoopback ip || IsPrivate ip || IsLinkLocalUnicast ip || IsLinkLocalMulticast ip || inCGNATRange ip ||
  existsb (fun hostIP => ip_equal hostIP ip) hostIPs.

(** [IP.String]: the longest run of two or more zero groups, the first of those, is left out. *)
Definition groups (ip : IP) : list Z := (fun i => u16 ip (2 * i)) <$> seq 0 8.

Fixpoint zeros (l : list Z) : nat := match l with 0 :: l => S (zeros l) | _ => 0 end.

Definition zero_run (l : list Z) : nat * nat :=
  foldl (fun best i => let len := zeros (drop i l) in if decide (2 <= len /\ best.2 < len)%nat then (i, len) else best) (0, 0)%nat (seq 0 (length l)).

Fixpoint hex_nat (fuel : nat) (v : Z) : string :=
  match fuel with
  | O => EmptyString
  | S fuel => (if v <? 16 then EmptyString else hex_nat fuel (v / 16)) +:+ String (hex_digit (v mod 16)) EmptyString
  end.

(** A group has at most four digits. *)
Definition hex_group (v : Z) : string := hex_nat 4 v.

Definition ip6_string (ip : IP) : string :=
  let l := groups ip in
  let '(start, len) := zero_run l in
  match len with
  | O => join ":" (hex_group <$> l)
  | _ => (join ":" (hex_group <$> take start l) +:+ "::" +:+ join ":" (hex_group <$> drop (start + len) l))%string
  end.

Definition IP_String (ip : IP) : string :=
  match to4 ip with
  | [] => match ip with
          | [] => "<nil>"
          | _ => if decide (length ip = 16%nat) then ip6_string ip else ("?" +:+ foldr (fun b s => (hex2 b +:+ s)%string) EmptyString ip)%string
          end
  | ip4 => ip_string ip4
  end.

(** ** Hosts and ports ([net.SplitHostPort], [net.JoinHostPort]) *)

Definition has_any (chars : list ascii) (s : string) : bool := negb (all_chars (fun c => negb (existsb (Ascii.eqb c) chars)) s).

Definition SplitHostPort (hostport : string) : option (string * string) :=
  match cut_last ":" hostport with
  | None => None
  | Some (before, port) =>
      match hostport with
      | String "[" rest =>
          match cut "]" rest with
          | None => None
          | Some (host, after) =>
              (* the bracket must be followed by the last colon *)
              if String.eqb after (":" +:+ port) && negb (has_any ["["%char] rest) && negb (has_any ["]"%char] after) then Some (host, port) else None
          end
      | _ => if has_any [":"%char] before || has_any ["["%char; "]"%char] hostport then None else Some (before, port)
      end
  end.

Definition JoinHostPort (host port : string) : string :=
  if has_any [":"%char] host then ("[" +:+ host +:+ "]:" +:+ port)%string else (host +:+ ":" +:+ port)%string.

(** ** Authorities ([parseUpstreamAuthority]) *)

Definition validatePort (port : string) : bool :=
  negb (String.eqb port "") && all_chars is_digit port && match atoi port with Some value => (1 <=? value) && (value <=? 65535) | None => false end.

(** [None] stands for the error, which the caller replaces. *)
Definition splitAuthorityHostPort (raw : string) : option (string * string) :=
  match raw with
  | String "[" rest =>
      match cut "]" rest with
      | None => None
      | Some (host, EmptyString) => Some (host, "")
      | Some (host, String ":" port) => if validatePort port then Some (host, port) else None
      | Some (_, String _ _) => None
      end
  | _ =>
      match parse_ip raw with
      | [] =>
          match SplitHostPort raw with
          | Some (host, port) => if validatePort port then Some (host, port) else None
          | None => if has_suffix raw ":" then None else Some (raw, "")
          end
      | addr => Some (IP_String addr, "")
      end
  end.

Fixpoint label_chars (first : bool) (label : string) : bool :=
  match label with
  | EmptyString => true
  | String c rest =>
      (is_lower c || is_digit c || (bool_decide (c = "-"%char) && negb first && negb (String.eqb rest ""))) && label_chars false rest
  end.

Definition validDNSLabel (label : string) : bool :=
  negb (String.eqb label "") && bool_decide (String.length label <= 63)%nat && label_chars true label.

Fixpoint has_double_dot (s : string) : bool :=
  match s with
  | String c rest => has_prefix s ".." || has_double_dot rest
  | EmptyString => false
  end.

Definition canonicalizeAuthorityHost (host : string) : option string :=
  if String.eqb host "" || has_any [" "%char; "009"%char; "013"%char; "010"%char] host then None
  else match parse_ip host with
       | [] =>
           let canonical := trim_suffix (to_lower host) "." in
           if String.eqb canonical "" || has_double_dot canonical || has_any [":"%char] canonical then None
           else if decide (253 < String.length canonical)%nat then None
           else if forallb validDNSLabel (split_on "." canonical) then Some canonical else None
       | ip => Some (IP_String ip)
       end.

Definition canonicalURLHost (host port : string) : string :=
  if negb (String.eqb port "") then JoinHostPort host port
  else if has_any [":"%char] host then ("[" +:+ host +:+ "]")%string else host.

Fixpoint replace_byte (a b : ascii) (s : string) : string :=
  match s with EmptyString => EmptyString | String c s => String (if decide (c = a) then b else c) (replace_byte a b s) end.

Definition port_suffix (port : string) : string := if String.eqb port "" then "" else ("__port_" +:+ port)%string.

Definition safeCacheKey (host port : string) : string :=
  match parse_ip host with
  | [] => (host +:+ port_suffix port)%string
  | ip =>
      match to4 ip with
      | [] => ("__ipv6_" +:+ replace_byte ":" "-" host +:+ port_suffix port)%string
      | _ => ("__ipv4_" +:+ host +:+ port_suffix port)%string
      end
  end.

Record upstreamAuthority := mkAuthority {
  cacheKey : string;
  canonicalHost : string;
  canonicalAuthority : string;
  base : string;
  port : string
}.

Inductive authority_error := MissingNS | MalformedAuthority (raw : string).

(** The authority of a canonical host and a port *)
Definition authority_of (canonicalHost port : string) : upstreamAuthority :=
  let baseHost := if String.eqb canonicalHost "docker.io" then "registry-1.docker.io" else canonicalHost in
  mkAuthority (safeCacheKey canonicalHost port) canonicalHost
    (if negb (String.eqb port "") then JoinHostPort canonicalHost port else canonicalHost)
    ("https://" +:+ canonicalURLHost baseHost port)%string port.

(** A name with [://] contains a slash. *)
Definition parseUpstreamAuthority (raw : string) : result authority_error upstreamAuthority :=
  if String.eqb raw "" then Err MissingNS
  else if has_any ["/"%char; "?"%char; "#"%char; "@"%char] raw then Err (MalformedAuthority raw)
  else match splitAuthorityHostPort raw with
       | None => Err (MalformedAuthority raw)
       | Some (host, port) =>
           match canonicalizeAuthorityHost host with
           | None => Err (MalformedAuthority raw)
           | Some canonicalHost => Ok (authority_of canonicalHost port)
           end
       end.

(** ** Connections ([dialValidatedIP]) *)

Definition canonicalLookupHost (host : string) : string :=
  match parse_ip host with
  | [] => trim_suffix (to_lower host) "."
  | ip => IP_String ip
  end.

Inductive dial_error := BadAddress | ResolveFailed | HostIPsFailed | NoPublicAddress (host : string) | DialFailed.

Section Egress.
(** [egressDependencies]: name resolution, the host's addresses, and dialing, which says
    whether the connection was made. *)
Context (resolve : string -> option (list IP)) (hostIPs : option (list IP)) (dial : string -> bool).

(** The addresses that were dialed, in order, and what came of it *)
Fixpoint dial_first (port : string) (allowed : list IP) : list IP * result dial_error IP :=
  match allowed with
  | [] => ([], Err DialFailed)
  | ip :: rest =>
      if dial (JoinHostPort (IP_String ip) port) then ([ip], Ok ip)
      else let '(dialed, r) := dial_first port rest in (ip :: dialed, r)
  end.

Definition dialValidatedIP (address : string) : list IP * result dial_error IP :=
  match SplitHostPort address with
  | None => ([], Err BadAddress)
  | Some (host, port) =>
      match resolve (canonicalLookupHost host) with
      | None => ([], Err ResolveFailed)
      | Some ips =>
          match hostIPs with
          | None => ([], Err HostIPsFailed)
          | Some hostIPs =>
              match filter (fun ip => namespaceIPBlocked ip hostIPs = false) ips with
              | [] => ([], Err (NoPublicAddress host))
              | allowed => dial_first port allowed
              end
          end
      end
  end.

(** [validateResolvedAuthority]: the authority may be used, or why not *)
Inductive vetting := Vetted | ResolutionFailed | HostAddressesFailed | AddressNotPublic (ip : IP).

Definition validateResolvedAuthority (authority : upstreamAuthority) : vetting :=
  match resolve (canonicalHost authority) with
  | None => ResolutionFailed
  | Some ips =>
      match hostIPs with
      | None => HostAddressesFailed
      | Some hostIPs =>
          match list_find (fun ip => namespaceIPBlocked ip hostIPs = true) ips with
          | Some (_, ip) => AddressNotPublic ip
          | None => Vetted
          end
      end
  end.

End Egress.

(** [lookupNamespaceIPs] and the resolver of [defaultEgressDependencies]: an address is
    its own resolution. *)
Definition lookupNamespaceIPs (lookup : string -> option (list IP)) (host : string) : option (list IP) :=
  match parse_ip host with [] => lookup host | ip => Some [ip] end.

Example authority_docker : parseUpstreamAuthority "Docker.IO." =
  Ok (mkAuthority "docker.io" "docker.io" "docker.io" "https://registry-1.docker.io" "").
Proof. vm_compute. reflexivity. Qed.

Example authority_v6 : parseUpstreamAuthority "[2001:DB8:0:0::1]:5000" =
  Ok (mkAuthority "__ipv6_2001-db8--1__port_5000" "2001:db8::1" "[2001:db8::1]:5000" "https://[2001:db8::1]:5000" "5000").
Proof. vm_compute. reflexivity. Qed.

Example authority_mapped : parseUpstreamAuthority "::ffff:10.0.0.1" =
  Ok (mkAuthority "__ipv4_10.0.0.1" "10.0.0.1" "10.0.0.1" "https://10.0.0.1" "").
Proof. vm_compute. reflexivity. Qed.

(** ** Cache keys *)

(** Facts of the characters of a string, decided byte by byte *)
Lemma all_chars_imp (f g : ascii -> bool) s : forallb (fun c => implb (f c) (g c)) ascii_all = true -> all_chars f s = true -> all_chars g s = true.
Proof. intros H. apply all_chars_mono. intros c Hc. pose proof (by_byte _ H c) as B. cbv beta in B. by rewrite Hc in B. Qed.

Lemma all_chars_cons f c s : all_chars f (String c s) = f c && all_chars f s.
Proof. done. Qed.

Lemma all_chars_join f sep l : all_chars f sep = true -> Forall (fun s => all_chars f s = true) l -> all_chars f (join sep l) = true.
Proof.
  intros Hsep. induction 1 as [|s l Hs Hl IH]; [done|]. destruct l as [|s' l]; [done|].
  change (all_chars f (s +:+ sep +:+ join sep (s' :: l)) = true). by rewrite !all_chars_app, Hs, Hsep, IH.
Qed.

Definition host_char (c : ascii) : bool := is_lower c || is_digit c || existsb (Ascii.eqb c) ["."; ":"; "-"]%char.
Definition address_char (c : ascii) : bool := is_hex c || existsb (Ascii.eqb c) ["."; ":"]%char.

(** Facts of one byte value, decided by looking at all of them *)
Lemma by_value (n : nat) (P : Z -> bool) : forallb P (Z.of_nat <$> seq 0 n) = true -> forall v, 0 <= v < Z.of_nat n -> P v = true.
Proof.
  rewrite forallb_forall. intros H v Hv. apply H, list_elem_of_In. replace v with (Z.of_nat (Z.to_nat v)) by lia.
  apply list_elem_of_fmap_2, elem_of_seq. lia.
Qed.

(** What an IPv6 address is printed with *)
Definition group_char (c : ascii) : bool := host_char c && negb (Ascii.eqb c ".").

Lemma hex_digit_char v : 0 <= v < 16 -> group_char (hex_digit v) = true.
Proof. apply (by_value 16 (fun v => group_char (hex_digit v))). vm_compute. reflexivity. Qed.

Lemma itoa_digits v : is_byte v -> all_chars is_digit (itoa v) = true.
Proof. apply (by_value 256 (fun v => all_chars is_digit (itoa v))). vm_compute. reflexivity. Qed.

Lemma hex_nat_chars fuel v : all_chars group_char (hex_nat fuel v) = true.
Proof.
  revert v. induction fuel as [|fuel IH]; intros v; [done|]. cbn [hex_nat]. rewrite all_chars_app, all_chars_cons, hex_digit_char by (apply Z.mod_pos_bound; lia).
  case_match; [done|]. by rewrite IH.
Qed.

Lemma hex_groups_chars l : all_chars group_char (join ":" (hex_group <$> l)) = true.
Proof. apply all_chars_join; [done|]. apply Forall_fmap, Forall_forall. intros v _. apply hex_nat_chars. Qed.

Lemma ip6_string_chars ip : all_chars group_char (ip6_string ip) = true.
Proof.
  unfold ip6_string. destruct (zero_run _) as [start [|len]]; [apply hex_groups_chars|]. by rewrite !all_chars_app, !hex_groups_chars.
Qed.

(** *** What [net.ParseIP] reads *)

Lemma v4_fields_spec s val digLen fields r : v4_fields val digLen fields s = Some r -> is_byte val -> Forall is_byte fields -> (length fields <= 3)%nat ->
  Forall is_byte r /\ length r = 4%nat /\ all_chars (fun c => is_digit c || bool_decide (c = "."%char)) s = true.
Proof.
  revert val digLen fields. induction s as [|c s IH]; intros val digLen fields H Hv Hf Hl; cbn [v4_fields] in H.
  - case_decide; [done|]. injection H as <-. rewrite length_app, Forall_app, Forall_singleton. cbn. split_and!; auto. lia.
  - rewrite all_chars_cons. destruct (is_digit c) eqn:Ec.
    + destruct (bool_decide _ && _); [done|]. destruct (255 <? _) eqn:E2; [done|].
      apply IH in H as (? & ? & ->); [done| |done|done]. unfold is_digit in Ec. unfold is_byte in *. bool_to_prop. lia.
    + case_decide; [|done]. subst. destruct (bool_decide _ || _); [done|]. case_decide; [done|].
      apply IH in H as (? & ? & ->); [done|unfold is_byte; lia| |rewrite length_app; cbn; lia]. by apply Forall_app, conj, Forall_singleton.
Qed.

Lemma hex_val_hex c v : hex_val c = Some v -> is_hex c = true /\ 0 <= v < 16.
Proof.
  intros H. split; [|by eapply hex_val_range].
  pose proof (by_byte (fun c => implb (bool_decide (is_Some (hex_val c))) (is_hex c)) eq_refl c) as B. cbv beta in B.
  by rewrite H, bool_decide_true in B.
Qed.

(** A group is at most four digits of the string, and below 2^16. *)
Lemma v6_hex_spec s off acc off' acc' rest : v6_hex off acc s = Some (off', acc', rest) -> 0 <= acc < 16 ^ Z.of_nat off -> (off <= 4)%nat ->
  (off' <= 4)%nat /\ 0 <= acc' < 16 ^ Z.of_nat off' /\ exists digits, s = (digits +:+ rest)%string /\ all_chars is_hex digits = true.
Proof.
  revert off acc. induction s as [|c s IH]; intros off acc H Ha Ho; cbn [v6_hex] in H.
  - injection H as <- <- <-. split_and!; [lia..|]. by exists EmptyString.
  - destruct (hex_val c) as [v|] eqn:Ev.
    + case_decide; [done|]. apply hex_val_hex in Ev as [Hc Hv]. apply IH in H as (? & ? & digits & -> & Hd); [| |lia].
      * split_and!; [lia..|]. exists (String c digits). by rewrite all_chars_cons, Hc, Hd.
      * rewrite Nat2Z.inj_succ, Z.pow_succ_r by lia. lia.
    + injection H as <- <- <-. split_and!; [lia..|]. by exists EmptyString.
Qed.

Lemma group_bytes acc n : (n <= 4)%nat -> 0 <= acc < 16 ^ Z.of_nat n -> Forall is_byte [acc / 256; acc mod 256].
Proof.
  intros Hn H. assert (16 ^ Z.of_nat n <= 16 ^ 4) by (apply Z.pow_le_mono_r; lia). unfold is_byte. repeat constructor; div_lia.
Qed.

Lemma is_hex_address s : all_chars is_hex s = true -> all_chars address_char s = true.
Proof. apply all_chars_imp. vm_compute. reflexivity. Qed.

(** The three ways on from a group: an embedded IPv4 address, an ellipsis, the next group *)
Lemma after_group {A} c (x y z : A) :
  match c with "."%char => x | ":"%char => y | _ => z end = if Ascii.eqb c "." then x else if Ascii.eqb c ":" then y else z.
Proof. by destruct c as [[] [] [] [] [] [] [] []]. Qed.

Lemma v6_loop_cons n bytes ellipsis s off acc c rest : v6_hex 0 0 s = Some (off, acc, String c rest) -> off <> 0%nat ->
  let bytes' := bytes ++ [acc / 256; acc mod 256] in
  v6_loop (S n) bytes ellipsis s =
    if Ascii.eqb c "." then
      if bool_decide (ellipsis = None) && negb (bool_decide (length bytes = 12%nat)) then None
      else if decide (16 < length bytes + 4)%nat then None
      else match parse_v4 s with Some v4 => Some (bytes ++ v4, ellipsis, EmptyString) | None => None end
    else if Ascii.eqb c ":" then
      match rest with
      | EmptyString => None
      | String c2 rest2 =>
          if Ascii.eqb c2 ":" then
            match ellipsis with
            | Some _ => None
            | None => match rest2 with
                      | EmptyString => Some (bytes', Some (length bytes'), EmptyString)
                      | _ => v6_loop n bytes' (Some (length bytes')) rest2
                      end
            end
          else v6_loop n bytes' ellipsis rest
      end
    else None.
Proof.
  intros Hh Ho. cbn [v6_loop]. rewrite Hh, decide_False by done. cbn zeta.
  destruct c as [[] [] [] [] [] [] [] []]; try reflexivity. cbn. destruct rest as [|c2 rest2]; [done|].
  by destruct c2 as [[] [] [] [] [] [] [] []].
Qed.

Lemma v6_loop_spec n bytes ellipsis s bytes' ellipsis' rest :
  v6_loop n bytes ellipsis s = Some (bytes', ellipsis', rest) -> Forall is_byte bytes -> (length bytes + 2 * n <= 16)%nat ->
  all_chars address_char rest = true -> Forall is_byte bytes' /\ (length bytes' <= 16)%nat /\ all_chars address_char s = true.
Proof.
  revert bytes ellipsis s. induction n as [|n IH]; intros bytes ellipsis s H Hb Hl Hr.
  - cbn [v6_loop] in H. injection H as <- <- <-. split_and!; auto. lia.
  - destruct (v6_hex 0 0 s) as [[[off acc] rest1]|] eqn:Eh; [|by cbn [v6_loop] in H; rewrite Eh in H].
    destruct (decide (off = 0%nat)) as [E0|E0]; [by cbn [v6_loop] in H; rewrite Eh, decide_True in H|].
    pose proof Eh as (Ho & Ha & digits & Hs & Hd)%v6_hex_spec; [|cbn; lia..].
    pose proof (group_bytes _ _ Ho Ha) as Hg.
    assert (Forall is_byte (bytes ++ [acc / 256; acc mod 256])) by by apply Forall_app.
    assert (length (bytes ++ [acc / 256; acc mod 256]) = S (S (length bytes))) as HL by (rewrite length_app; cbn; lia).
    rewrite Hs, all_chars_app, (is_hex_address _ Hd), andb_true_l. destruct rest1 as [|c rest1].
    + cbn [v6_loop] in H. rewrite Eh, decide_False in H by done. injection H as <- <- <-. split_and!; auto. lia.
    + rewrite (v6_loop_cons _ _ _ _ _ _ _ _ Eh E0) in H. destruct (Ascii.eqb c ".") eqn:Ec.
      * destruct (bool_decide _ && _); [done|]. case_decide as H16; [done|]. destruct (parse_v4 s) as [v4|] eqn:E4; [|done]. injection H as <- <- <-.
        apply v4_fields_spec in E4 as (? & H4 & Hc); [|unfold is_byte; cbn; lia..|done|cbn; lia].
        split_and!; [by apply Forall_app|rewrite length_app; lia|].
        rewrite Hs, all_chars_app in Hc. apply andb_true_iff in Hc as [_ Hc]. revert Hc. apply all_chars_imp. vm_compute. reflexivity.
      * destruct (Ascii.eqb c ":") eqn:Ec'; [|done]. apply Ascii.eqb_eq in Ec' as ->. destruct rest1 as [|c2 rest2]; [done|].
        rewrite all_chars_cons. change (address_char ":") with true. rewrite andb_true_l.
        destruct (Ascii.eqb c2 ":") eqn:E2.
        -- apply Ascii.eqb_eq in E2 as ->. destruct ellipsis; [done|]. rewrite all_chars_cons. change (address_char ":") with true. rewrite andb_true_l.
           destruct rest2 as [|c3 rest3]; [injection H as <- <- <-; split_and!; auto; lia|]. eapply IH; [done..| |done]. lia.
        -- eapply IH; [done..| |done]. lia.
Qed.

Lemma v6_groups_spec ellipsis body ip :
  match v6_loop 8 [] ellipsis body with
  | Some (bytes, ellipsis, EmptyString) =>
      if decide (length bytes < 16)%nat then
        match ellipsis with None => None | Some e => Some (take e bytes ++ replicate (16 - length bytes) 0 ++ drop e bytes) end
      else match ellipsis with None => Some bytes | Some _ => None end
  | _ => None
  end = Some ip -> Forall is_byte ip /\ length ip = 16%nat /\ all_chars address_char body = true.
Proof.
  destruct (v6_loop 8 [] ellipsis body) as [[[bytes e] [|]]|] eqn:E; [|done..].
  apply v6_loop_spec in E as (Hb & Hl & Hc); [|done|cbn; lia|done]. case_decide.
  - destruct e as [e|]; [|done]. intros [= <-]. split_and!; [|rewrite !length_app, length_replicate, length_take, length_drop; lia|done].
    rewrite !Forall_app. split_and!; [by apply Forall_take|apply Forall_replicate; unfold is_byte; lia|by apply Forall_drop].
  - destruct e; [done|]. intros [= <-]. split_and!; auto. lia.
Qed.

Lemma parse_v6_spec s ip : parse_v6 s = Some ip -> Forall is_byte ip /\ length ip = 16%nat /\ all_chars address_char s = true.
Proof.
  unfold parse_v6. destruct (has_prefix s "::") eqn:Ep.
  - apply has_prefix_spec in Ep as [t ->]. change (drop_string 2 ("::" +:+ t)) with t. rewrite all_chars_app. cbn [andb].
    change (all_chars address_char "::") with true. rewrite andb_true_l.
    case_bool_decide as Et; [intros [= <-]; subst; split_and!; [|done..]; unfold is_byte; repeat constructor; lia|]. apply v6_groups_spec.
  - cbn [andb]. apply v6_groups_spec.
Qed.

(** An address that is read has sixteen bytes, and only the characters of addresses. *)
Lemma parse_ip_spec s : parse_ip s <> [] -> Forall is_byte (parse_ip s) /\ length (parse_ip s) = 16%nat /\ all_chars address_char s = true.
Proof.
  assert (parse_ip s = if bool_decide (addr_family s = Some "."%char) then match parse_v4 s with Some v4 => v4InV6Prefix ++ v4 | None => [] end
          else if bool_decide (addr_family s = Some ":"%char) then match cut "%"%char s with Some _ => [] | None => default [] (parse_v6 s) end else []) as ->.
  { unfold parse_ip. destruct (addr_family s) as [c|]; [|done]. by destruct c as [[] [] [] [] [] [] [] []]. }
  case_bool_decide.
  - destruct (parse_v4 s) as [v4|] eqn:E; [|done]. intros _. apply v4_fields_spec in E as (? & Hl & Hc); [|unfold is_byte; cbn; lia..|done|cbn; lia].
    split_and!; [apply Forall_app; split; [unfold is_byte; repeat constructor; lia|done]|by rewrite length_app, Hl|].
    revert Hc. apply all_chars_imp. vm_compute. reflexivity.
  - case_bool_decide; [|done]. destruct (cut _ s); [done|]. destruct (parse_v6 s) as [ip|] eqn:E; [|done]. intros _. cbn [default from_option id].
    by apply parse_v6_spec.
Qed.

(** ** Distinct registries have distinct caches *)

(** Not empty, and no dot in front *)
Definition headed (s : string) : Prop := exists c t, s = String c t /\ c <> "."%char.

Lemma headed_app s t : headed s -> headed (s +:+ t).
Proof. intros (c & u & -> & H). by exists c, (u +:+ t)%string. Qed.

Lemma headed_group s c t : all_chars group_char (s +:+ String c t) = true -> headed (s +:+ String c t).
Proof.
  destruct s as [|d s].
  - change (EmptyString +:+ String c t)%string with (String c t). rewrite all_chars_cons, andb_true_iff. intros [H _]. exists c, t. split; [done|]. by intros ->.
  - change (String d s +:+ String c t)%string with (String d (s +:+ String c t)). rewrite all_chars_cons, andb_true_iff. intros [H _].
    eexists d, _. split; [done|]. by intros ->.
Qed.

Lemma join_two sep a b l : join sep (a :: b :: l) = (a +:+ sep +:+ join sep (b :: l))%string.
Proof. done. Qed.

Lemma ip6_string_headed ip : all_chars group_char (ip6_string ip) = true -> headed (ip6_string ip).
Proof.
  unfold ip6_string. destruct (zero_run (groups ip)) as [start [|len]].
  - unfold groups. cbn [seq fmap list_fmap]. rewrite join_two. generalize (join ":"). intros f. apply headed_group.
  - apply headed_group.
Qed.

Lemma IP_String_chars s : parse_ip s <> [] -> all_chars host_char (IP_String (parse_ip s)) = true /\ headed (IP_String (parse_ip s)).
Proof.
  intros (Hb & Hl & _)%parse_ip_spec. unfold IP_String. destruct (to4 (parse_ip s)) as [|z l] eqn:E4.
  - destruct (parse_ip s) as [|z l] eqn:E; [done|]. rewrite decide_True by done. pose proof (ip6_string_chars (z :: l)) as Hc. split.
    + revert Hc. apply all_chars_imp. vm_compute. reflexivity.
    + by apply ip6_string_headed.
  - assert (Forall is_byte (z :: l)) as Hb4.
    { rewrite <- E4. unfold to4. rewrite Hl. by case_decide; [apply Forall_drop|]. }
    split.
    + apply all_chars_join; [done|]. apply Forall_fmap. eapply Forall_impl; [exact Hb4|]. intros v Hv. cbn.
      apply (all_chars_imp is_digit); [vm_compute; reflexivity|]. by apply itoa_digits.
    + assert (headed (itoa z)) as Hz.
      { destruct (itoa_cons z) as (c & u & -> & Hc); [inversion Hb4; unfold is_byte in *; lia|]. exists c, u. split; [done|]. by intros ->. }
      unfold ip_string. cbn [fmap list_fmap join]. destruct (itoa <$> l); [done|]. by apply headed_app.
Qed.

Lemma label_chars_host first label : label_chars first label = true -> all_chars host_char label = true.
Proof.
  revert first. induction label as [|c label IH]; intros first; [done|]. cbn [label_chars]. rewrite all_chars_cons, !andb_true_iff. intros [Hc Hl].
  split; [|by eapply IH]. unfold host_char. rewrite !orb_true_iff, !andb_true_iff, bool_decide_eq_true in Hc. rewrite !orb_true_iff.
  destruct Hc as [[?|?]|[[-> _] _]]; auto.
Qed.

Lemma dns_chars host : forallb validDNSLabel (split_on "." host) = true -> all_chars host_char host = true.
Proof.
  intros H. rewrite <- (join_split "." host). apply all_chars_join; [done|]. apply Forall_forall. intros l Hl%list_elem_of_In.
  rewrite forallb_forall in H. apply H in Hl. unfold validDNSLabel in Hl. apply andb_true_iff in Hl as [_ Hl]. by eapply label_chars_host.
Qed.

Lemma dns_headed host : host <> "" -> forallb validDNSLabel (split_on "." host) = true -> headed host.
Proof.
  destruct host as [|c host]; [done|]. intros _ H. exists c, host. split; [done|]. intros ->. cbn [split_on] in H. rewrite decide_True in H by done. done.
Qed.

Lemma canonical_host host canonical : canonicalizeAuthorityHost host = Some canonical -> all_chars host_char canonical = true /\ headed canonical.
Proof.
  unfold canonicalizeAuthorityHost. destruct (_ || _); [done|]. destruct (parse_ip host) as [|z l] eqn:E.
  - destruct (String.eqb_spec (trim_suffix (to_lower host) ".") ""); [done|]. cbn [orb]. destruct (_ || _); [done|]. case_decide; [done|].
    destruct (forallb _ _) eqn:Ef; [|done]. intros [= <-]. split; [by apply dns_chars|by apply dns_headed].
  - intros [= <-]. rewrite <- E. apply IP_String_chars. by rewrite E.
Qed.

(** A canonical host has no underscore, so the first one ends it. *)
Lemma no_underscore_split a b x y :
  all_chars host_char a = true -> all_chars host_char b = true -> (x = "" \/ exists x', x = String "_" x') -> (y = "" \/ exists y', y = String "_" y') ->
  (a +:+ x = b +:+ y)%string -> a = b /\ x = y.
Proof.
  assert (forall s, host_char "_" && all_chars host_char s = true -> False) as Hu by done.
  revert b. induction a as [|c a IH]; intros [|d b] Ha Hb Hx Hy H; cbn in H.
  - done.
  - destruct Hx as [->|[x' ->]]; [done|]. injection H as <- H. by apply Hu in Hb.
  - destruct Hy as [->|[y' ->]]; [done|]. injection H as -> H. by apply Hu in Ha.
  - injection H as -> H. rewrite all_chars_cons in Ha, Hb. apply andb_true_iff in Ha as [_ Ha], Hb as [_ Hb].
    by destruct (IH b Ha Hb Hx Hy H) as [-> ->].
Qed.

Lemma port_suffix_head p : port_suffix p = "" \/ exists s, port_suffix p = String "_" s.
Proof. unfold port_suffix. destruct (String.eqb p ""); eauto. Qed.

Lemma port_suffix_inj p q : port_suffix p = port_suffix q -> p = q.
Proof.
  unfold port_suffix. destruct (String.eqb_spec p "") as [->|], (String.eqb_spec q "") as [->|]; [done..|]. intros H. by injection H.
Qed.

Lemma replace_byte_chars a b s : host_char b = true -> all_chars host_char s = true -> all_chars host_char (replace_byte a b s) = true.
Proof.
  intros Hb. induction s as [|c s IH]; [done|]. cbn [replace_byte]. rewrite !all_chars_cons, !andb_true_iff. intros [Hc Hs]. case_decide; auto.
Qed.

Lemma replace_byte_inj a b s t : all_chars (fun c => negb (Ascii.eqb c b)) s = true -> all_chars (fun c => negb (Ascii.eqb c b)) t = true ->
  replace_byte a b s = replace_byte a b t -> s = t.
Proof.
  revert t. induction s as [|c s IH]; intros [|d t] Hs Ht H; [done..|]. cbn [replace_byte] in H. rewrite all_chars_cons in Hs, Ht.
  rewrite !andb_true_iff, !negb_true_iff, !Ascii.eqb_neq in Hs, Ht. injection H as Hc H. f_equal; [|naive_solver].
  repeat case_decide; subst; naive_solver.
Qed.

(** A key is a tag, the host, and the port. *)
Inductive key_of (host port : string) : string -> Prop :=
| key_name : key_of host port (host +:+ port_suffix port)
| key_v4 : key_of host port ("__ipv4_" +:+ host +:+ port_suffix port)
| key_v6 : all_chars address_char host = true -> key_of host port ("__ipv6_" +:+ replace_byte ":" "-" host +:+ port_suffix port).

Lemma safeCacheKey_of host port : key_of host port (safeCacheKey host port).
Proof.
  unfold safeCacheKey. destruct (parse_ip host) as [|z l] eqn:E; [constructor|]. destruct (to4 _); constructor.
  apply parse_ip_spec. by rewrite E.
Qed.

Lemma address_no_dash s : all_chars address_char s = true -> all_chars (fun c => negb (Ascii.eqb c "-")) s = true.
Proof. apply all_chars_imp. vm_compute. reflexivity. Qed.

Lemma name_not_tagged host rest x : all_chars host_char host = true -> host <> "" -> (host +:+ rest)%string <> String "_" x.
Proof. destruct host as [|c host]; [done|]. rewrite all_chars_cons, andb_true_iff. by intros [Hc _] _ [= -> _]. Qed.

Lemma safeCacheKey_inj h1 p1 h2 p2 : all_chars host_char h1 = true -> all_chars host_char h2 = true -> h1 <> "" -> h2 <> "" ->
  safeCacheKey h1 p1 = safeCacheKey h2 p2 -> h1 = h2 /\ p1 = p2.
Proof.
  intros C1 C2 N1 N2.
  assert (forall a b x y, all_chars host_char a = true -> all_chars host_char b = true ->
    (a +:+ port_suffix x = b +:+ port_suffix y)%string -> a = b /\ x = y) as Hinj.
  { intros a b x y Ha Hb H. apply no_underscore_split in H as [-> ->%port_suffix_inj]; auto using port_suffix_head. }
  destruct (safeCacheKey_of h1 p1) as [| |A1], (safeCacheKey_of h2 p2) as [| |A2]; intros H.
  all: try (by eapply name_not_tagged in H); try (by symmetry in H; eapply name_not_tagged in H); try (by injection H).
  - by apply Hinj.
  - injection H as H. by apply Hinj.
  - injection H as H. apply Hinj in H as [H ->]; [|by apply replace_byte_chars..]. split; [|done].
    by eapply replace_byte_inj in H; eauto using address_no_dash.
Qed.

Lemma validatePort_digits p : validatePort p = true -> all_chars is_digit p = true.
Proof. unfold validatePort. rewrite !andb_true_iff. tauto. Qed.

Lemma split_port raw host p : splitAuthorityHostPort raw = Some (host, p) -> all_chars is_digit p = true.
Proof.
  unfold splitAuthorityHostPort. intros H. repeat (case_match; try discriminate); injection H as <- <-; auto using validatePort_digits.
Qed.

Lemma parse_authority raw a : parseUpstreamAuthority raw = Ok a ->
  exists host p, a = authority_of host p /\ (all_chars host_char host = true /\ headed host) /\ all_chars is_digit p = true.
Proof.
  unfold parseUpstreamAuthority. case_match; [done|]. case_match; [done|]. destruct (splitAuthorityHostPort raw) as [[host p]|] eqn:Es; [|done].
  destruct (canonicalizeAuthorityHost host) as [canonical|] eqn:Ec; [|done]. intros [= <-]. eauto 7 using canonical_host, split_port.
Qed.

Lemma key_headed host p : headed host -> headed (safeCacheKey host p).
Proof. intros H. destruct (safeCacheKey_of host p); [by apply headed_app|by eexists _, _..]. Qed.

Lemma key_chars host p : all_chars host_char host = true -> all_chars is_digit p = true ->
  all_chars (fun c => negb (Ascii.eqb c "/")) (safeCacheKey host p) = true.
Proof.
  intros Hh Hp. assert (all_chars (fun c => negb (Ascii.eqb c "/")) (port_suffix p) = true) as Hs.
  { unfold port_suffix. destruct (String.eqb p ""); [done|]. rewrite all_chars_app. revert Hp. apply all_chars_imp. vm_compute. reflexivity. }
  assert (forall s, all_chars host_char s = true -> all_chars (fun c => negb (Ascii.eqb c "/")) s = true) as Hc.
  { intros s. apply all_chars_imp. vm_compute. reflexivity. }
  destruct (safeCacheKey_of host p); rewrite !all_chars_app, Hs, andb_true_r; [by apply Hc| |]; apply andb_true_iff; (split; [done|]); auto using replace_byte_chars.
Qed.

(** Two names a guest may use for a registry lead to the same cache directory only when
    they name the same host and port, and that directory is one path component below the
    cache root. *)
Theorem caches_isolated r1 r2 a1 a2 : parseUpstreamAuthority r1 = Ok a1 -> parseUpstreamAuthority r2 = Ok a2 ->
  (cacheKey a1 = cacheKey a2 -> a1 = a2) /\
  cacheKey a1 <> "" /\ cacheKey a1 <> "." /\ cacheKey a1 <> ".." /\ all_chars (fun c => negb (Ascii.eqb c "/")) (cacheKey a1) = true.
Proof.
  intros (h1 & p1 & -> & (C1 & H1) & P1)%parse_authority (h2 & p2 & -> & (C2 & H2) & P2)%parse_authority. cbn [cacheKey authority_of]. split.
  - intros [-> ->]%safeCacheKey_inj; [done..| |]; [by destruct H1 as (? & ? & -> & _)|by destruct H2 as (? & ? & -> & _)].
  - pose proof (key_headed h1 p1 H1) as (c & t & E & Hc). pose proof (key_chars h1 p1 C1 P1) as Hk. rewrite E in *. split_and!; try done; by intros [= -> _].
Qed.

(** ** Which addresses are refused *)

(** The networks nothing is fetched from: this host, private networks, the shared space of
    carriers, link-local networks, multicast and broadcast. *)
Definition refused_networks : list string :=
  ["0.0.0.0/32"; "10.0.0.0/8"; "100.64.0.0/10"; "127.0.0.0/8"; "169.254.0.0/16"; "172.16.0.0/12"; "192.168.0.0/16"; "224.0.0.0/4"; "255.255.255.255/32";
   "::/128"; "::1/128"; "fc00::/7"; "fe80::/10"; "ff00::/8"].

Definition refused (ip : IP) : bool := existsb (fun n => net_contains n ip) (omap (fun s => snd <$> parse_cidr s) refused_networks).

Lemma bool_decide_cons (x y : Z) l k : bool_decide (x :: l = y :: k) = (y =? x) && bool_decide (l = k).
Proof. repeat case_bool_decide; destruct (Z.eqb_spec y x); naive_solver. Qed.

Lemma land_byte a : is_byte a -> Z.land a 255 = a.
Proof. intros H. change 255 with (Z.ones 8). rewrite Z.land_ones by lia. apply Z.mod_small. unfold is_byte in H. lia. Qed.

(** The bytes [IPNet.Contains] compares, and the numbers and masks of the networks *)
Definition effective (ip : IP) : IP := if decide (to4 ip = []) then ip else to4 ip.

Definition in_net (number mask x : list Z) : bool := bool_decide (length x = length number) && bool_decide (number = and_bytes x mask).

Definition refused_numbers : list (list Z * list Z) := Eval vm_compute in
  (fun n => let '(nn, m) := networkNumberAndMask n in (and_bytes nn m, m)) <$> omap (fun s => snd <$> parse_cidr s) refused_networks.

Lemma refused_by_number ip : refused ip = existsb (fun '(nn, m) => in_net nn m (effective ip)) refused_numbers.
Proof.
  assert (refused_numbers = (fun n => let '(nn, m) := networkNumberAndMask n in (and_bytes nn m, m)) <$> omap (fun s => snd <$> parse_cidr s) refused_networks)
    as -> by (vm_compute; reflexivity).
  assert (Forall (fun n => length (networkNumberAndMask n).2 = length (networkNumberAndMask n).1) (omap (fun s => snd <$> parse_cidr s) refused_networks)) as Hl
    by (vm_compute; repeat constructor).
  unfold refused. induction Hl as [|n l Hn Hl IH]; [done|]. cbn [existsb fmap list_fmap]. rewrite IH. f_equal.
  unfold net_contains, in_net. fold (effective ip). destruct (networkNumberAndMask n) as [nn m]. cbn in Hn.
  replace (length (and_bytes nn m)) with (length nn) by (unfold and_bytes; rewrite length_zip_with; lia). case_decide as El; [by rewrite (bool_decide_eq_true_2 _ El)|by rewrite (bool_decide_eq_false_2 _ El)].
Qed.

Lemma effective_v4 a b c d : effective [a; b; c; d] = [a; b; c; d].
Proof. done. Qed.

Lemma refused_v4 a b c d : is_byte a -> is_byte b -> is_byte c -> is_byte d ->
  refused [a; b; c; d] =
    ((a =? 0) && (b =? 0) && (c =? 0) && (d =? 0)) || (a =? 10) || ((a =? 100) && (Z.land b 192 =? 64)) || (a =? 127) || ((a =? 169) && (b =? 254)) ||
    ((a =? 172) && (Z.land b 240 =? 16)) || ((a =? 192) && (b =? 168)) || (Z.land a 240 =? 224) ||
    ((a =? 255) && (b =? 255) && (c =? 255) && (d =? 255)).
Proof.
  intros Ha Hb Hc Hd. rewrite refused_by_number, effective_v4. unfold refused_numbers, in_net, and_bytes. cbn [existsb length zip_with].
  rewrite ?bool_decide_cons, !land_byte, ?Z.land_0_r by done.
  rewrite ?(bool_decide_true (4%nat = 4%nat)), ?(bool_decide_true ([] = [])), ?(bool_decide_false (4%nat = 16%nat)) by done.
  change (0 =? 0) with true. btauto.
Qed.

(** The tests of [net.IP] see an IPv4 address the same in both its forms. *)
Lemma ip_equal_v4 a b c d w x y z : is_byte a ->
  ip_equal [a; b; c; d] (v4InV6Prefix ++ [w; x; y; z]) = (a =? w) && (b =? x) && (c =? y) && (d =? z).
Proof.
  intros _. unfold ip_equal. rewrite (bool_decide_false (length (v4InV6Prefix ++ [w; x; y; z]) = 4%nat)) by done.
  rewrite (bool_decide_false ([a; b; c; d] = v4InV6Prefix ++ [w; x; y; z])) by done. rewrite (bool_decide_true (length [a; b; c; d] = 4%nat)) by done.
  cbn [orb andb app v4InV6Prefix]. rewrite !bool_decide_cons, (bool_decide_true ([] = [])) by done. change (0 =? 0) with true. change (255 =? 255) with true. btauto.
Qed.

Lemma blocked_v4 a b c d hosts : is_byte a -> is_byte b -> is_byte c -> is_byte d ->
  namespaceIPBlocked [a; b; c; d] hosts = refused [a; b; c; d] || existsb (fun h => ip_equal h [a; b; c; d]) hosts.
Proof.
  intros Ha Hb Hc Hd. rewrite refused_v4 by done. unfold namespaceIPBlocked. f_equal.
  unfold IsGlobalUnicast, IsUnspecified, IsLoopback, IsPrivate, IsMulticast, IsLinkLocalMulticast, IsLinkLocalUnicast, inCGNATRange, by_family.
  change (to4 [a; b; c; d]) with [a; b; c; d]. cbn [at_ lookup list_lookup default from_option id length].
  rewrite bool_decide_true by auto. unfold ipv4bcast, ipv4zero. rewrite !ip_equal_v4 by done.
  replace (ip_equal [a; b; c; d] ipv6unspecified) with false
    by (unfold ip_equal; by rewrite !bool_decide_false by done).
  destruct (Z.eqb_spec a 224) as [->|]; [change (Z.land 224 240 =? 224) with true|]; btauto.
Qed.

Lemma ip_equal_mapped h ip4 : length ip4 = 4%nat -> ip_equal h (v4InV6Prefix ++ ip4) = ip_equal h ip4.
Proof.
  intros Hl. unfold ip_equal. rewrite length_app, Hl. rewrite (bool_decide_false ((length v4InV6Prefix + 4)%nat = 4%nat)) by done.
  rewrite (bool_decide_true (4%nat = 4%nat)) by done. cbn [andb]. rewrite orb_false_r.
  destruct (decide (length h = 4%nat)) as [E|E].
  - rewrite (bool_decide_true (length h = 4%nat)) by done.
    rewrite (bool_decide_false (h = v4InV6Prefix ++ ip4)) by (intros ->; rewrite length_app, Hl in E; done).
    rewrite (bool_decide_false (ip4 = v4InV6Prefix ++ h)) by (intros ->; rewrite length_app, E in Hl; done).
    cbn [andb orb]. rewrite !orb_false_r. apply bool_decide_ext. split; [by intros ->%(inj (app v4InV6Prefix))|by intros ->].
  - rewrite (bool_decide_false (length h = 4%nat)) by done. rewrite (bool_decide_false (h = ip4)) by (by intros ->). cbn [andb orb]. by rewrite orb_false_r.
Qed.

Lemma ip_equal_comm a b : ip_equal a b = ip_equal b a.
Proof. unfold ip_equal. rewrite (bool_decide_ext (a = b) (b = a)) by naive_solver. btauto. Qed.

Lemma to4_mapped ip4 : length ip4 = 4%nat -> to4 (v4InV6Prefix ++ ip4) = ip4 /\ to4 ip4 = ip4.
Proof.
  intros Hl. unfold to4. rewrite length_app, Hl. cbn [length v4InV6Prefix]. split; [|done]. cbn. rewrite decide_True by done. done.
Qed.

Lemma blocked_mapped ip4 hosts : length ip4 = 4%nat -> namespaceIPBlocked (v4InV6Prefix ++ ip4) hosts = namespaceIPBlocked ip4 hosts.
Proof.
  intros Hl. pose proof (to4_mapped _ Hl) as [E1 E2].
  unfold namespaceIPBlocked, IsGlobalUnicast, IsUnspecified, IsLoopback, IsPrivate, IsMulticast, IsLinkLocalMulticast, IsLinkLocalUnicast, inCGNATRange, by_family.
  rewrite E1, E2. destruct ip4 as [|z l]; [done|].
  rewrite !(ip_equal_comm (v4InV6Prefix ++ z :: l)), !ip_equal_mapped, !(ip_equal_comm _ (z :: l)) by done.
  rewrite !bool_decide_true by (rewrite ?length_app, ?Hl; auto). f_equal. induction hosts as [|h hosts IH]; [done|]. cbn [existsb]. by rewrite ip_equal_mapped, IH.
Qed.

Lemma refused_mapped ip4 : length ip4 = 4%nat -> refused (v4InV6Prefix ++ ip4) = refused ip4.
Proof.
  intros Hl. rewrite !refused_by_number. unfold effective. pose proof (to4_mapped _ Hl) as [-> ->]. rewrite decide_False by (by destruct ip4).
  by rewrite decide_False by (by destruct ip4).
Qed.

Lemma ip_equal_long a b : length a = 16%nat -> length b = 16%nat -> ip_equal a b = bool_decide (a = b).
Proof. intros Ha Hb. unfold ip_equal. rewrite Ha, Hb. by rewrite (bool_decide_false (16%nat = 4%nat)), !orb_false_r by done. Qed.

Lemma not_mapped ip w x y z : length ip = 16%nat -> to4 ip = [] -> ip_equal ip (v4InV6Prefix ++ [w; x; y; z]) = false.
Proof.
  intros Hl H4. rewrite ip_equal_long by done. apply bool_decide_eq_false. intros ->. by destruct (to4_mapped [w; x; y; z] eq_refl) as [E _]; rewrite E in H4.
Qed.

Lemma and_ones l : Forall is_byte l -> and_bytes l (replicate (length l) 255) = l.
Proof. induction 1 as [|a l Ha Hl IH]; [done|]. cbn. rewrite land_byte by done. by f_equal. Qed.

Lemma and_zeros l n : length l = n -> zip_with Z.land l (replicate n 0) = replicate n 0.
Proof. intros <-. induction l as [|a l IH]; [done|]. cbn. by rewrite Z.land_0_r, IH. Qed.

Lemma blocked_v6 ip hosts : Forall is_byte ip -> length ip = 16%nat -> to4 ip = [] ->
  namespaceIPBlocked ip hosts = refused ip || existsb (fun h => ip_equal h ip) hosts.
Proof.
  intros Hb Hl H4. rewrite refused_by_number. unfold effective. rewrite decide_True by done. unfold namespaceIPBlocked. f_equal.
  unfold IsGlobalUnicast, IsUnspecified, IsLoopback, IsPrivate, IsMulticast, IsLinkLocalMulticast, IsLinkLocalUnicast, inCGNATRange, by_family.
  rewrite H4, Hl. unfold ipv4bcast, ipv4zero. rewrite !not_mapped by done. rewrite (bool_decide_true (16%nat = 4%nat \/ 16%nat = 16%nat)) by auto.
  rewrite (bool_decide_true (16%nat = 16%nat)) by done. rewrite !ip_equal_long by done.
  unfold refused_numbers, in_net. cbn [existsb]. rewrite Hl. cbn [length].
  rewrite (bool_decide_true (16%nat = 16%nat)), (bool_decide_false (16%nat = 4%nat)) by done. cbn [andb orb].
  change [255; 255; 255; 255; 255; 255; 255; 255; 255; 255; 255; 255; 255; 255; 255; 255] with (replicate 16 255). rewrite <- Hl, and_ones by done.
  destruct ip as [|a [|b ip]]; [done..|]. apply Forall_cons in Hb as [Ha [Hb Hip]%Forall_cons].
  assert (zip_with Z.land ip [0; 0; 0; 0; 0; 0; 0; 0; 0; 0; 0; 0; 0; 0] = [0; 0; 0; 0; 0; 0; 0; 0; 0; 0; 0; 0; 0; 0]) as Hz.
  { injection Hl as Hl. apply (and_zeros ip 14). lia. }
  unfold and_bytes. cbn [zip_with]. rewrite Hz, !bool_decide_cons, !land_byte, !Z.land_0_r by done.
  rewrite (bool_decide_ext (a :: b :: ip = ipv6unspecified) (ipv6unspecified = a :: b :: ip)) by naive_solver.
  rewrite (bool_decide_ext (a :: b :: ip = ipv6loopback) (ipv6loopback = a :: b :: ip)) by naive_solver.
  unfold ipv6unspecified, ipv6loopback. cbn [replicate app at_ lookup list_lookup default from_option id]. rewrite !bool_decide_cons.
  change (at_ (a :: b :: ip) 0) with a. change (at_ (a :: b :: ip) 1) with b. change (0 =? 0) with true.
  rewrite (bool_decide_true ([] = [])) by done. btauto.
Qed.

(** An address is refused exactly when it is in one of the networks above, or the host's own. *)
Lemma blocked_exactly ip hosts : Forall is_byte ip -> length ip = 4%nat \/ length ip = 16%nat ->
  namespaceIPBlocked ip hosts = refused ip || existsb (fun h => ip_equal h ip) hosts.
Proof.
  intros Hb Hl. assert (forall ip4, Forall is_byte ip4 -> length ip4 = 4%nat ->
    namespaceIPBlocked ip4 hosts = refused ip4 || existsb (fun h => ip_equal h ip4) hosts) as H4.
  { intros [|a [|b [|c [|d []]]]] H ?; try done. repeat apply Forall_cons in H as [? H]. by apply blocked_v4. }
  destruct Hl as [Hl|Hl]; [by apply H4|]. destruct (to4 ip) as [|z l] eqn:E; [by apply blocked_v6|].
  unfold to4 in E. rewrite Hl in E. case_decide as Et; [|done].
  rewrite <- (take_drop 12 ip), Et. assert (length (drop 12 ip) = 4%nat) as Hd by (rewrite length_drop; lia).
  rewrite blocked_mapped, refused_mapped by done. rewrite H4 by (auto using Forall_drop). f_equal. clear H4.
  induction hosts as [|h hosts IH]; [done|]. cbn [existsb]. by rewrite ip_equal_mapped, IH.
Qed.

(** ** The guard *)

(** What [net.IP] values of a resolver look like *)
Definition address (ip : IP) : Prop := Forall is_byte ip /\ (length ip = 4%nat \/ length ip = 16%nat).

(** Outside the refused networks, and not one of the host's own addresses *)
Definition public (hosts : list IP) (ip : IP) : Prop := refused ip = false /\ Forall (fun h => ip_equal h ip = false) hosts.

Lemma blocked_public ip hosts : address ip -> namespaceIPBlocked ip hosts = false <-> public hosts ip.
Proof.
  intros [Hb Hl]. rewrite blocked_exactly by done. rewrite orb_false_iff. unfold public. apply and_iff_compat_l.
  induction hosts as [|h hosts IH]; [done|]. cbn [existsb]. rewrite orb_false_iff, Forall_cons, IH. done.
Qed.

Lemma dial_first_spec dial port allowed dialed r : dial_first dial port allowed = (dialed, r) ->
  let accepts ip := dial (JoinHostPort (IP_String ip) port) in
  match r with
  | Ok ip => exists before after, dialed = before ++ [ip] /\ allowed = before ++ ip :: after /\ accepts ip = true /\ Forall (fun ip => accepts ip = false) before
  | Err e => dialed = allowed /\ Forall (fun ip => accepts ip = false) allowed
  end.
Proof.
  cbn zeta. revert dialed r. induction allowed as [|ip rest IH]; intros dialed r H; cbn [dial_first] in H.
  - injection H as <- <-. done.
  - destruct (dial (JoinHostPort (IP_String ip) port)) eqn:Ed; [injection H as <- <-; by exists [], rest|].
    destruct (dial_first dial port rest) as [dialed' r'] eqn:E. injection H as <- <-. specialize (IH _ _ eq_refl). destruct r' as [ip'|e].
    + destruct IH as (before & after & -> & -> & ? & ?). exists (ip :: before), after. auto.
    + destruct IH as [-> ?]. auto.
Qed.


Module AuthorityDemo.

Example caches_isolated_witness :
  parseUpstreamAuthority "GHCR.io" = Ok (authority_of "ghcr.io" "") /\ parseUpstreamAuthority "ghcr.io:5000" = Ok (authority_of "ghcr.io" "5000") /\
  cacheKey (authority_of "ghcr.io" "") <> cacheKey (authority_of "ghcr.io" "5000").
Proof.
  split; [reflexivity|]. split; [reflexivity|]. intros H.
  pose proof (caches_isolated "GHCR.io" "ghcr.io:5000" (authority_of "ghcr.io" "") (authority_of "ghcr.io" "5000") eq_refl eq_refl) as [Hi _].
  specialize (Hi H). discriminate Hi.
Defined.

(** A name that resolves to a metadata service and to a public address *)
Definition resolver (host : string) : option (list IP) := if String.eqb host "evil.example" then Some [[169; 254; 169; 254]; [93; 184; 216; 34]] else None.


End AuthorityDemo.
