(* ===== verification/MirrorManager.v ===== *)
(** * The mirror's manager ([internal/mirror/manager.go])

    The listeners on the gateways of running clusters, the servers for registries that
    guests name themselves (kept for the most recently used ones), and the catch-all port
    that routes a request to the registry it names.  The servers are those of [Mirror], the
    names those of [Authority]. *)

From stdpp Require Import base gmap sets list strings.
From Stdlib Require Import Ascii ZArith Lia.
From S2P Require Import Prelude GoStrings GoNet Effects Digest Authority Mirror.

Local Open Scope Z_scope.
Local Open Scope effect_scope.

(** ** Listeners ([Bind], [Unbind], [Close]) *)

Module Listeners.

Record portBinding := mkBinding { Upstream : string; Port : Z }.

(** A server is known by the address it listens on; [open] are the listeners of the
    manager, [tick] counts the calls of [net.Listen]. *)
Record Listening := mkListening { bound : gmap string (list (string * Z)); open : gset (string * Z); tick : nat }.

Section Bind.
Context (ports : list portBinding) (catchAllPort : Z).
(** What keeps the port from being listened on, besides a listener of the manager *)
Context (taken : nat -> bool).

Definition listen (gateway : string) (port : Z) (m : Listening) : Listening * bool :=
  if taken (tick m) || bool_decide ((gateway, port) ∈ open m) then (mkListening (bound m) (open m) (S (tick m)), false)
  else (mkListening (bound m) ({[ (gateway, port) ]} ∪ open m) (S (tick m)), true).

Definition close_all (servers : list (string * Z)) (m : Listening) : Listening := mkListening (bound m) (open m ∖ list_to_set servers) (tick m).

(** The listeners of one gateway, in order; [None] after a failure, with everything closed *)
Fixpoint bind_ports (gateway : string) (todo : list Z) (servers : list (string * Z)) (m : Listening) : Listening * option (list (string * Z)) :=
  match todo with
  | [] => (m, Some servers)
  | port :: todo =>
      let '(m, listening) := listen gateway port m in
      if listening then bind_ports gateway todo (servers ++ [(gateway, port)]) m else (close_all servers m, None)
  end.

Definition all_ports : list Z := (Port <$> ports) ++ (if catchAllPort =? 0 then [] else [catchAllPort]).

Definition Bind (gatewayIP : string) (m : Listening) : Listening * bool :=
  match bound m !! gatewayIP with
  | Some _ => (m, true)
  | None =>
      match bind_ports gatewayIP all_ports [] m with
      | (m, None) => (m, false)
      | (m, Some servers) => (mkListening (<[gatewayIP := servers]> (bound m)) (open m) (tick m), true)
      end
  end.

Definition Unbind (gatewayIP : string) (m : Listening) : Listening :=
  close_all (default [] (bound m !! gatewayIP)) (mkListening (delete gatewayIP (bound m)) (open m) (tick m)).

Definition Close (m : Listening) : Listening :=
  close_all (concat (snd <$> map_to_list (bound m))) (mkListening ∅ (open m) (tick m)).

Definition BoundGatewayIPs (m : Listening) : list string := sort_strings (elements (dom (bound m))).

(** *** The listeners are those of the bound gateways *)

(** A gateway is bound on all its ports, and nothing else is listened on. *)
Record settled (m : Listening) : Prop := {
  bound_ports gateway servers : bound m !! gateway = Some servers -> servers = pair gateway <$> all_ports;
  open_bound gateway port : (gateway, port) ∈ open m <-> is_Some (bound m !! gateway) /\ port ∈ all_ports
}.

Lemma bind_ports_spec gateway todo servers m m' r : bind_ports gateway todo servers m = (m', r) ->
  (forall x, x ∈ servers -> x ∈ open m) ->
  bound m' = bound m /\
  match r with
  | Some all => all = servers ++ (pair gateway <$> todo) /\ forall x, x ∈ open m' <-> x ∈ open m \/ x ∈ (pair gateway <$> todo)
  | None => forall x, x ∈ open m' <-> x ∈ open m /\ x ∉ servers
  end.
Proof.
  revert servers m. induction todo as [|port todo IH]; intros servers m H Hs; cbn [bind_ports] in H.
  - injection H as <- <-. split; [done|]. split; [by rewrite app_nil_r|set_solver].
  - unfold listen in H. destruct (taken (tick m) || _) eqn:Et.
    + injection H as <- <-. split; [done|]. intros x. cbn. set_solver.
    + apply orb_false_iff in Et as [_ Hn%bool_decide_eq_false]. apply IH in H as [Hb Hr]; [|cbn; set_solver]. split; [done|]. destruct r as [all|].
      * destruct Hr as [-> Ho]. split; [by rewrite <- app_assoc|]. intros x. rewrite Ho. cbn. set_solver.
      * intros x. rewrite Hr. cbn. rewrite elem_of_union, elem_of_singleton, not_elem_of_app, list_elem_of_singleton. split; [tauto|].
        intros [Hx Hnx]. split_and!; auto. by intros ->.
Qed.

(** After [Bind] a gateway is served on every port of the mirror, or on none: a failure
    closes what was opened for it; [Unbind] and [Close] close exactly what was bound.  No
    listener is ever left behind. *)
Theorem listeners_coherent m gateway : settled m ->
  (let '(m', ok) := Bind gateway m in
   settled m' /\ (if ok then dom (bound m') = {[ gateway ]} ∪ dom (bound m) else bound m' = bound m /\ open m' = open m)) /\
  (settled (Unbind gateway m) /\ bound (Unbind gateway m) = delete gateway (bound m)) /\
  open (Close m) = ∅.
Proof.
  intros [Hp Ho]. split; [|split].
  - unfold Bind. destruct (bound m !! gateway) as [servers|] eqn:Eb.
    { split; [done|]. apply elem_of_dom_2 in Eb. set_solver. }
    destruct (bind_ports gateway all_ports [] m) as [m' [servers|]] eqn:Eb'; apply bind_ports_spec in Eb' as [Hb Hr]; try by intros ? ?%elem_of_nil.
    + destruct Hr as [-> Hr]. cbn [app] in *. split; [split|cbn; rewrite Hb, dom_insert_L; done].
      * cbn. rewrite Hb. intros g s Hs. rewrite lookup_insert_Some in Hs. destruct Hs as [[<- <-]|[_ Hs]]; [done|by eauto].
      * cbn. intros g port. rewrite Hr, Ho, Hb, lookup_insert_is_Some, list_elem_of_fmap. split.
        -- intros [[? ?]|(p & [= -> ->] & ?)]; split; auto. destruct (decide (gateway = g)); auto.
        -- intros [[<-|[? ?]] ?]; [right; eauto|left; auto].
    + assert (open m' = open m) as Eo by (apply set_eq; intros x; rewrite Hr; split; [tauto|]; by intros ?; split; [|apply not_elem_of_nil]). split; [|done].
      destruct m'; cbn in *; subst. by split.
  - split; [|done]. assert (forall g port, (g, port) ∈ default [] (bound m !! gateway) <-> g = gateway /\ is_Some (bound m !! gateway) /\ port ∈ all_ports) as Hd.
    { intros g port. destruct (bound m !! gateway) as [s|] eqn:Eb; cbn.
      - rewrite (Hp _ _ Eb), list_elem_of_fmap. split; [intros (? & [= -> ->] & ?); eauto|intros (-> & _ & ?); eauto].
      - split; [by intros ?%elem_of_nil|by intros (_ & [? ?] & _)]. }
    split.
    + cbn. intros g s [_ Hs]%lookup_delete_Some. eauto.
    + cbn. intros g port. rewrite elem_of_difference, elem_of_list_to_set, Hd, Ho, lookup_delete_is_Some. split.
      * intros [[? ?] Hn]. split_and!; [by intros <-; apply Hn|done..].
      * intros [[Hne ?] ?]. split_and!; [done..|]. by intros [-> _].
  - apply set_eq. intros [g port]. cbn. rewrite elem_of_difference, Ho, elem_of_list_to_set. split; [|set_solver].
    intros [[[s Hs] Hport] Hn]. exfalso. apply Hn, list_elem_of_In, in_concat. exists s. rewrite <- !list_elem_of_In. split; [|rewrite (Hp _ _ Hs); by apply list_elem_of_fmap_2].
    change s with (g, s).2. by apply list_elem_of_fmap_2, elem_of_map_to_list.
Qed.

End Bind.

(** Another process has the third port. *)
Example listeners_coherent_witness :
  let ports := [mkBinding "docker.io" 5000; mkBinding "ghcr.io" 5001; mkBinding "quay.io" 5002] in
  let taken t := bool_decide (t = 2%nat) in
  settled ports 5010 (mkListening ∅ ∅ 0) /\ (Bind ports 5010 taken "10.5.0.1" (mkListening ∅ ∅ 0)).2 = false /\
  (let '(m', ok) := Bind ports 5010 taken "10.5.0.1" (mkListening ∅ ∅ 0) in
   settled ports 5010 m' /\ (if ok then dom (bound m') = {[ "10.5.0.1" ]} ∪ dom (∅ : gmap string (list (string * Z))) else bound m' = ∅ /\ open m' = ∅)).
Proof.
  intros ports taken. assert (settled ports 5010 (mkListening ∅ ∅ 0)) as Hc by (split; [done|cbn; intros; split; [set_solver|by intros [[? ?] _]]]).
  split; [done|]. split; [vm_compute; reflexivity|]. apply (proj1 (listeners_coherent ports 5010 taken (mkListening ∅ ∅ 0) "10.5.0.1" Hc)).
Defined.

End Listeners.

(** ** Servers for the registries guests name ([handlerAndServerForUpstream] and the rest) *)

Module Dynamic.

(** A server is known by a number; its closer closes its idle connections.  [closed] are the
    servers whose closers have run.  Elements of [dynamicOrder], a container/list, have an
    identity of their own. *)
Record Servers := mkServers {
  dynamic : gmap string nat;
  dynamicServers : gmap string nat;
  dynamicOrder : list (nat * string);
  dynamicLRUEntries : gmap string nat;
  dynamicClosers : gmap string nat;
  fresh : nat;
  closed : list nat
}.

Definition empty : Servers := mkServers ∅ ∅ [] ∅ ∅ 0 [].

Definition dynamicHandlerCap : nat := 64.

Definition effectiveDynamicCap (dynamicCap : nat) : nat := if decide (0 < dynamicCap)%nat then dynamicCap else dynamicHandlerCap.

Definition with_order (order : list (nat * string)) (m : Servers) : Servers :=
  mkServers (dynamic m) (dynamicServers m) order (dynamicLRUEntries m) (dynamicClosers m) (fresh m) (closed m).

Definition run_closers (closers : list nat) (m : Servers) : Servers :=
  mkServers (dynamic m) (dynamicServers m) (dynamicOrder m) (dynamicLRUEntries m) (dynamicClosers m) (fresh m) (closed m ++ closers).

(** [list.MoveToBack] and [list.Remove] *)
Definition move_to_back (element : nat) (order : list (nat * string)) : list (nat * string) :=
  filter (fun e => e.1 <> element) order ++ filter (fun e => e.1 = element) order.
Definition list_remove (element : nat) (order : list (nat * string)) : list (nat * string) := filter (fun e => e.1 <> element) order.

Definition touch (key : string) (m : Servers) : Servers :=
  match dynamicLRUEntries m !! key with Some element => with_order (move_to_back element (dynamicOrder m)) m | None => m end.

Definition dynamicHandler (key : string) (m : Servers) : Servers * option nat :=
  match dynamic m !! key with None => (m, None) | Some handler => (touch key m, Some handler) end.

Definition removeDynamicLocked (key : string) (m : Servers) : Servers * option nat :=
  let order := match dynamicLRUEntries m !! key with Some element => list_remove element (dynamicOrder m) | None => dynamicOrder m end in
  (mkServers (delete key (dynamic m)) (delete key (dynamicServers m)) order (delete key (dynamicLRUEntries m)) (delete key (dynamicClosers m)) (fresh m) (closed m),
   dynamicClosers m !! key).

Section Cap.
Context (dynamicCap : nat).
Abbreviation cap := (effectiveDynamicCap dynamicCap).

(** Each round removes an entry, so the number of entries is fuel enough. *)
Fixpoint evict_loop (fuel : nat) (m : Servers) : Servers * list nat :=
  match fuel with
  | O => (m, [])
  | S fuel =>
      if decide (cap < size (dynamic m))%nat then
        match dynamicOrder m with
        | [] => (m, [])
        | (_, key) :: _ =>
            let '(m, closer) := removeDynamicLocked key m in
            let '(m, closers) := evict_loop fuel m in
            (m, match closer with Some c => c :: closers | None => closers end)
        end
      else (m, [])
  end.

Definition evictDynamicLocked (m : Servers) : Servers * list nat := evict_loop (size (dynamic m)) m.

Definition handlerAndServerForUpstream (key : string) (m : Servers) : Servers * option nat :=
  match dynamic m !! key with
  | Some handler => (touch key m, Some handler)
  | None =>
      let server := fresh m in
      let m := mkServers (<[key := server]> (dynamic m)) (<[key := server]> (dynamicServers m)) (dynamicOrder m ++ [(fresh m, key)])
                 (<[key := fresh m]> (dynamicLRUEntries m)) (<[key := server]> (dynamicClosers m)) (S (fresh m)) (closed m) in
      let '(m, closers) := evictDynamicLocked m in
      (run_closers closers m, Some server)
  end.

(** [drainDynamicLocked] with the closers run, as [Close] does; any order of the keys *)
Definition drain (m : Servers) : Servers :=
  let '(m, closers) :=
    foldl (fun '(m, closers) key => let '(m, closer) := removeDynamicLocked key m in (m, closers ++ option_list closer)) (m, []) (map_to_list (dynamic m)).*1 in
  run_closers closers m.

(** *** What is kept is what was used last *)

(** The keys from the oldest to the newest use *)
Definition keys (m : Servers) : list string := (dynamicOrder m).*2.

Record coherent (m : Servers) : Prop := {
  order_ids : NoDup (dynamicOrder m).*1;
  order_keys : NoDup (keys m);
  order_fresh e : e ∈ dynamicOrder m -> (e.1 < fresh m)%nat;
  entries_order key id : dynamicLRUEntries m !! key = Some id <-> (id, key) ∈ dynamicOrder m;
  order_dynamic key : key ∈ keys m <-> is_Some (dynamic m !! key);
  servers_dynamic : dynamicServers m = dynamic m;
  closers_dynamic : dynamicClosers m = dynamic m
}.

Lemma keys_entry m key : coherent m -> key ∈ keys m -> exists id, dynamicLRUEntries m !! key = Some id /\ (id, key) ∈ dynamicOrder m.
Proof. intros Hc Hk. apply list_elem_of_fmap in Hk as ([id k] & -> & H). exists id. split; [|done]. by apply entries_order. Qed.

(** An element and its key name each other. *)
Lemma order_unique m id key e : coherent m -> (id, key) ∈ dynamicOrder m -> e ∈ dynamicOrder m -> e.1 = id <-> e.2 = key.
Proof.
  intros Hc H1 H2. apply list_elem_of_lookup in H1 as [i Hi], H2 as [j Hj]. destruct e as [id' key']. cbn. split; intros ->.
  - assert (i = j) as -> by (eapply (NoDup_lookup (dynamicOrder m).*1); [by apply order_ids|by rewrite list_lookup_fmap, Hi|by rewrite list_lookup_fmap, Hj]). congruence.
  - assert (i = j) as -> by (eapply (NoDup_lookup (keys m)); [by apply order_keys|by unfold keys; rewrite list_lookup_fmap, Hi|by unfold keys; rewrite list_lookup_fmap, Hj]). congruence.
Qed.

Lemma filter_keys (order : list (nat * string)) key : (filter (fun e => e.2 <> key) order).*2 = filter (fun k => k <> key) order.*2.
Proof. induction order as [|[id k] order IH]; [done|]. rewrite fmap_cons, !filter_cons. cbn [snd]. case_decide; rewrite ?fmap_cons; by rewrite IH. Qed.

Lemma filter_ext_in {A} (P Q : A -> Prop) `{!forall x, Decision (P x), !forall x, Decision (Q x)} (l : list A) :
  (forall x, x ∈ l -> P x <-> Q x) -> filter P l = filter Q l.
Proof.
  induction l as [|x l IH]; intros HPQ; [done|]. rewrite !filter_cons, IH by (intros y Hy; apply HPQ; by right).
  pose proof (HPQ x ltac:(left)). repeat case_decide; tauto || done.
Qed.

Lemma omap_ext_in {A B} (f g : A -> option B) (l : list A) : (forall x, x ∈ l -> f x = g x) -> omap f l = omap g l.
Proof. induction l as [|x l IH]; intros H; [done|]. cbn. rewrite (H x) by left. rewrite IH; [done|]. intros y Hy. apply H. by right. Qed.

Lemma filter_out_absent (key : string) (l : list string) : key ∉ l -> filter (fun k => k <> key) l = l.
Proof.
  intros H. induction l as [|x l IH]; [done|]. apply not_elem_of_cons in H as [? ?]. rewrite filter_cons, decide_True by done. by rewrite IH.
Qed.

Lemma element_by_key m id key : coherent m -> (id, key) ∈ dynamicOrder m ->
  filter (fun e => e.1 <> id) (dynamicOrder m) = filter (fun e => e.2 <> key) (dynamicOrder m).
Proof. intros Hc Hi. apply filter_ext_in. intros e He. by rewrite (order_unique _ _ _ _ Hc Hi He). Qed.

Lemma size_keys m : coherent m -> size (dynamic m) = length (keys m).
Proof.
  intros Hc. rewrite <- size_dom. assert (dom (dynamic m) = list_to_set (keys m)) as ->.
  { apply set_eq. intros k. by rewrite elem_of_dom, elem_of_list_to_set, order_dynamic. }
  apply size_list_to_set. by apply order_keys.
Qed.

Lemma removed m key m' closer : coherent m -> key ∈ keys m -> removeDynamicLocked key m = (m', closer) ->
  coherent m' /\ keys m' = filter (fun k => k <> key) (keys m) /\ closer = dynamic m !! key /\ dynamic m' = delete key (dynamic m) /\ closed m' = closed m /\ fresh m' = fresh m.
Proof.
  intros Hc Hk [= <- <-]. destruct (keys_entry _ _ Hc Hk) as (id & He & Hi). rewrite He. unfold list_remove. rewrite (element_by_key _ _ _ Hc Hi).
  pose proof (filter_keys (dynamicOrder m) key) as Ek. fold (keys m) in Ek.
  split_and!; [|done|by rewrite (closers_dynamic _ Hc)|done..]. split; cbn.
  - eapply sublist_NoDup; [apply (order_ids _ Hc)|]. apply fmap_sublist, sublist_filter.
  - rewrite Ek. apply NoDup_filter, Hc.
  - intros e [_ He']%list_elem_of_filter. by apply Hc.
  - intros k i. rewrite lookup_delete_Some, list_elem_of_filter, (entries_order _ Hc). cbn. naive_solver.
  - intros k. rewrite Ek, list_elem_of_filter, lookup_delete_is_Some, (order_dynamic _ Hc). naive_solver.
  - by rewrite (servers_dynamic _ Hc).
  - by rewrite (closers_dynamic _ Hc).
Qed.

Lemma evicted fuel m m' closers : coherent m -> (length (keys m) - cap <= fuel)%nat -> evict_loop fuel m = (m', closers) ->
  coherent m' /\ keys m' = drop (length (keys m) - cap) (keys m) /\ closed m' = closed m /\
  closers = omap (fun k => dynamic m !! k) (take (length (keys m) - cap) (keys m)) /\
  (forall k, k ∈ keys m' -> dynamic m' !! k = dynamic m !! k) /\
  closers ++ (map_to_list (dynamic m')).*2 ≡ₚ (map_to_list (dynamic m)).*2 /\ fresh m' = fresh m.
Proof.
  revert m m' closers. induction fuel as [|fuel IH]; intros m m' closers Hc Hf H; cbn [evict_loop] in H.
  - injection H as <- <-. by replace (length (keys m) - cap)%nat with 0%nat by lia.
  - rewrite size_keys in H by done. case_decide as Hcap; [|injection H as <- <-; by replace (length (keys m) - cap)%nat with 0%nat by lia].
    destruct (dynamicOrder m) as [|[id key] order] eqn:Eo; [unfold keys in Hcap; rewrite Eo in Hcap; cbn in Hcap; lia|].
    assert (keys m = key :: order.*2) as Ek by (unfold keys; by rewrite Eo). destruct (removeDynamicLocked key m) as [m1 closer] eqn:Er.
    destruct (evict_loop fuel m1) as [m2 closers2] eqn:Ee. injection H as <- <-.
    apply removed in Er as (Hc1 & Ek1 & -> & Ed & Ecl & Hfr); [|done|rewrite Ek; left].
    pose proof (order_keys _ Hc) as Hnd. rewrite Ek in Hnd. apply NoDup_cons in Hnd as [Hnk Hnd].
    rewrite Ek, filter_cons, decide_False, filter_out_absent in Ek1 by (done || auto). rewrite Ek in *. cbn [length] in *.
    apply IH in Ee as (Hc2 & Ek2 & Ecl2 & -> & Hsame & Hperm & Hfr2); [|done|rewrite Ek1; lia]. rewrite Ek1 in *.
    replace (S (length order.*2) - cap)%nat with (S (length order.*2 - cap)) by lia. cbn [drop take omap list_omap].
    assert (forall k, k ∈ order.*2 -> dynamic m1 !! k = dynamic m !! k) as Hd by (intros k Hin; rewrite Ed; apply lookup_delete_ne; by intros ->).
    assert (is_Some (dynamic m !! key)) as [v Hv] by (apply (order_dynamic _ Hc); rewrite Ek; left).
    split_and!; [done|done|by rewrite Ecl2| | | |congruence].
    + assert (omap (fun k => dynamic m1 !! k) (take (length order.*2 - cap) order.*2) = omap (fun k => dynamic m !! k) (take (length order.*2 - cap) order.*2)) as ->; [|done].
      apply omap_ext_in. intros k Hin. apply Hd. by eapply subseteq_take.
    + intros k Hin. rewrite Hsame by done. apply Hd. rewrite Ek2 in Hin. by eapply subseteq_drop.
    + rewrite Hv. cbn [app]. rewrite Hperm, Ed. by rewrite <- (map_to_list_delete (dynamic m) key v Hv).
Qed.

Lemma filter_one id key (order : list (nat * string)) : NoDup order.*1 -> (id, key) ∈ order -> filter (fun e => e.1 = id) order = [(id, key)].
Proof.
  induction order as [|[i k] order IH]; [by intros _ ?%elem_of_nil|]. rewrite fmap_cons. intros [Hn Hd]%NoDup_cons Hin. rewrite filter_cons. cbn [fst].
  apply elem_of_cons in Hin as [[= <- <-]|Hin].
  - rewrite decide_True by done. f_equal. destruct (filter _ order) as [|e l] eqn:E; [done|].
    assert (e ∈ filter (fun e => e.1 = id) order) as [<- He]%list_elem_of_filter by (rewrite E; left). exfalso. apply Hn. by apply (list_elem_of_fmap_2 fst) in He.
  - rewrite decide_False; [by apply IH|]. intros ->. apply Hn. by apply (list_elem_of_fmap_2 fst) in Hin.
Qed.

Lemma filter_partition {A} (P : A -> Prop) `{!forall x, Decision (P x)} (l : list A) : l ≡ₚ filter P l ++ filter (fun x => ~ P x) l.
Proof.
  induction l as [|x l IH]; [done|]. rewrite !filter_cons. destruct (decide (P x)) as [Hx|Hx].
  - rewrite decide_False by tauto. cbn. by rewrite <- IH.
  - rewrite decide_True by done. rewrite <- Permutation_middle. by rewrite <- IH.
Qed.

Lemma touched m key : coherent m -> key ∈ keys m -> coherent (touch key m) /\ keys (touch key m) = filter (fun k => k <> key) (keys m) ++ [key] /\
  dynamic (touch key m) = dynamic m /\ closed (touch key m) = closed m /\ fresh (touch key m) = fresh m.
Proof.
  intros Hc Hk. destruct (keys_entry _ _ Hc Hk) as (id & He & Hi). unfold touch. rewrite He.
  assert (move_to_back id (dynamicOrder m) = filter (fun e => e.2 <> key) (dynamicOrder m) ++ [(id, key)]) as Em.
  { unfold move_to_back. rewrite (element_by_key _ _ _ Hc Hi). f_equal. apply filter_one; [apply Hc|done]. }
  rewrite Em. pose proof (filter_keys (dynamicOrder m) key) as Ek. fold (keys m) in Ek.
  assert (dynamicOrder m ≡ₚ filter (fun e => e.2 <> key) (dynamicOrder m) ++ [(id, key)]) as Hp.
  { rewrite <- (filter_one id key (dynamicOrder m)), <- (element_by_key _ _ _ Hc Hi) by first [done | apply (order_ids _ Hc)].
    rewrite (filter_partition (fun e => e.1 = id)) at 1. by rewrite Permutation_app_comm. }
  split_and!; [|unfold keys; cbn; by rewrite fmap_app, Ek|done..]. split; cbn; try apply Hc.
  - rewrite <- Hp. apply Hc.
  - unfold keys. cbn. rewrite <- Hp. apply Hc.
  - intros e. rewrite <- Hp. apply Hc.
  - intros k i. rewrite <- Hp. apply Hc.
  - intros k. unfold keys. cbn. rewrite <- Hp. apply Hc.
Qed.

Definition added (key : string) (m : Servers) : Servers :=
  mkServers (<[key := fresh m]> (dynamic m)) (<[key := fresh m]> (dynamicServers m)) (dynamicOrder m ++ [(fresh m, key)])
    (<[key := fresh m]> (dynamicLRUEntries m)) (<[key := fresh m]> (dynamicClosers m)) (S (fresh m)) (closed m).

Lemma added_coherent m key : coherent m -> dynamic m !! key = None -> coherent (added key m) /\ keys (added key m) = keys m ++ [key].
Proof.
  intros Hc Hn. assert (key ∉ keys m) as Hk by (intros H; apply (order_dynamic _ Hc) in H as [? ?]; congruence).
  assert (keys (added key m) = keys m ++ [key]) as Ek by (unfold keys; cbn; by rewrite fmap_app). split; [|done]. split.
  - cbn. rewrite fmap_app. apply NoDup_app. split_and!; [apply Hc| |apply NoDup_singleton].
    intros id Hid. apply list_elem_of_fmap in Hid as (e & -> & He). apply (order_fresh _ Hc) in He. cbn. rewrite list_elem_of_singleton. lia.
  - rewrite Ek. apply NoDup_app. split_and!; [apply Hc| |apply NoDup_singleton]. intros k Hin ->%list_elem_of_singleton. done.
  - cbn. intros e [He| ->%list_elem_of_singleton]%elem_of_app; [|cbn; lia]. apply (order_fresh _ Hc) in He. lia.
  - cbn. intros k id. rewrite lookup_insert_Some, elem_of_app, list_elem_of_singleton, (entries_order _ Hc). split; [naive_solver|].
    intros [H|[= -> ->]]; [|by left]. right. split; [|done]. intros <-. apply Hk. by apply (list_elem_of_fmap_2 snd) in H.
  - intros k. rewrite Ek, elem_of_app, list_elem_of_singleton. cbn. rewrite lookup_insert_is_Some, (order_dynamic _ Hc). destruct (decide (key = k)); naive_solver.
  - cbn. by rewrite (servers_dynamic _ Hc).
  - cbn. by rewrite (closers_dynamic _ Hc).
Qed.

(** Every server that was made is in use or has been closed, once. *)
Definition accounted (m : Servers) : Prop := closed m ++ (map_to_list (dynamic m)).*2 ≡ₚ seq 0 (fresh m).

(** The keys after a use: the key is the newest, and the oldest beyond the cap are dropped. *)
Definition lru_use (key : string) (l : list string) : list string :=
  let l := filter (fun k => k <> key) l ++ [key] in drop (length l - cap) l.

Lemma cap_pos : (0 < cap)%nat.
Proof. unfold effectiveDynamicCap, dynamicHandlerCap. case_decide; lia. Qed.

Lemma used m key m' r : coherent m -> accounted m -> (length (keys m) <= cap)%nat -> handlerAndServerForUpstream key m = (m', r) ->
  coherent m' /\ accounted m' /\ keys m' = lru_use key (keys m) /\ r = Some (default (fresh m) (dynamic m !! key)) /\ r = dynamic m' !! key /\
  (forall k, k ∈ keys m' -> is_Some (dynamic m !! k) -> dynamic m' !! k = dynamic m !! k) /\
  fresh m' = match dynamic m !! key with Some _ => fresh m | None => S (fresh m) end.
Proof.
  intros Hc Ha Hl H. unfold handlerAndServerForUpstream in H. pose proof cap_pos as Hcap. destruct (dynamic m !! key) as [h|] eqn:Ed.
  - injection H as <- <-. assert (key ∈ keys m) as Hk by (apply order_dynamic; [done|]; rewrite Ed; eauto).
    destruct (touched m key Hc Hk) as (Hc' & Ek & Edy & Ecl & Hfr). unfold accounted. rewrite Edy, Ecl, Hfr, Ek, Ed. split_and!; auto.
    unfold lru_use. assert (length (filter (fun k => k <> key) (keys m) ++ [key]) <= cap)%nat as Hle; [|by replace (_ - cap)%nat with 0%nat by lia].
    rewrite <- Ek. rewrite <- (size_keys _ Hc'), Edy, (size_keys _ Hc). done.
  - fold (added key m) in H. destruct (evictDynamicLocked (added key m)) as [m1 closers] eqn:Ee. injection H as <- <-.
    destruct (added_coherent m key Hc Ed) as [Hc1 Ek1]. assert (key ∉ keys m) as Hk by (intros Hin; apply (order_dynamic _ Hc) in Hin as [? ?]; congruence).
    unfold evictDynamicLocked in Ee. rewrite size_keys in Ee by done. apply evicted in Ee as (Hc2 & Ek2 & Ecl & -> & Hsame & Hp & Hfr); [|done|lia].
    rewrite Ek1 in *. assert (key ∈ keys m1) as Hin.
    { rewrite Ek2, length_app. cbn [length]. rewrite drop_app_le by lia. apply elem_of_app. right. by left. }
    assert (dynamic m1 !! key = Some (fresh m)) as Hnew by (rewrite Hsame by done; cbn; apply lookup_insert_eq).
    split_and!.
    + by destruct Hc2; split.
    + unfold accounted in *. cbn [closed run_closers dynamic fresh]. rewrite Ecl, Hfr, <- app_assoc, Hp. cbn [closed added dynamic fresh].
      rewrite (map_to_list_insert (dynamic m) key (fresh m) Ed). cbn [fmap list_fmap]. rewrite <- Permutation_middle, Ha.
      rewrite seq_S. by rewrite Permutation_app_comm.
    + change (keys (run_closers _ m1)) with (keys m1). rewrite Ek2. unfold lru_use. by rewrite filter_out_absent.
    + done.
    + cbn. by rewrite Hnew.
    + intros k Hk' Hs. change (dynamic (run_closers _ m1)) with (dynamic m1). rewrite Hsame by done. cbn. rewrite lookup_insert_ne; [done|]. intros <-. by rewrite Ed in Hs; destruct Hs.
    + done.
Qed.

Lemma filter_reverse {A} (P : A -> Prop) `{!forall x, Decision (P x)} (l : list A) : filter P (reverse l) = reverse (filter P l).
Proof.
  induction l as [|x l IH]; [done|]. rewrite reverse_cons, filter_app, IH, !filter_cons, filter_nil. case_decide; [by rewrite reverse_cons|by rewrite app_nil_r].
Qed.

Lemma reverse_lru key l : reverse (lru_use key l) = take cap (key :: filter (fun k => k <> key) (reverse l)).
Proof.
  unfold lru_use. set (l' := filter (fun k => k <> key) l ++ [key]).
  assert (key :: filter (fun k => k <> key) (reverse l) = reverse l') as -> by (unfold l'; by rewrite reverse_app, filter_reverse).
  rewrite reverse_drop. destruct (decide (length l' <= cap)%nat).
  - rewrite !take_ge by (rewrite ?length_reverse; lia). done.
  - f_equal. lia.
Qed.

(** The distinct keys of a list, the first of each *)
Fixpoint distinct (l : list string) : list string := match l with [] => [] | k :: l => k :: filter (fun k' => k' <> k) (distinct l) end.

Lemma NoDup_distinct l : NoDup (distinct l).
Proof. induction l as [|k l IH]; [constructor|]. cbn [distinct]. constructor; [by intros [? _]%list_elem_of_filter|by apply NoDup_filter]. Qed.

Lemma take_filter_take key n (l : list string) : NoDup l -> take n (filter (fun k => k <> key) (take (S n) l)) = take n (filter (fun k => k <> key) l).
Proof.
  revert n. induction l as [|x l IH]; intros n; [by rewrite take_nil|]. intros [Hx Hl]%NoDup_cons. cbn [take]. rewrite !filter_cons. case_decide as Hk.
  - destruct n as [|n]; [done|]. rewrite !firstn_cons, IH; done.
  - subst x. rewrite filter_out_absent by (intros ?%subseteq_take; done). rewrite filter_out_absent by done. by rewrite take_take, Nat.min_id.
Qed.

Lemma length_lru key l : (length (lru_use key l) <= cap)%nat.
Proof. unfold lru_use. rewrite length_drop. lia. Qed.

Lemma elem_of_lru k key l : k ∈ lru_use key l -> k = key \/ k ∈ l.
Proof. intros [Hk|Hk]%subseteq_drop%elem_of_app; [right; by apply list_elem_of_filter in Hk as [_ ?]|left; by apply list_elem_of_singleton in Hk]. Qed.

Definition run (uses : list string) : Servers := foldl (fun m key => (handlerAndServerForUpstream key m).1) empty uses.

Lemma run_lru uses : coherent (run uses) /\ accounted (run uses) /\ reverse (keys (run uses)) = take cap (distinct (reverse uses)).
Proof.
  induction uses as [|key uses IH] using rev_ind.
  - split_and!; [|unfold accounted; cbn; by rewrite map_to_list_empty|by cbn; rewrite take_nil]. split; try (by constructor).
    + by intros e ?%elem_of_nil.
    + intros k id. split; [done|by intros ?%elem_of_nil].
    + intros k. split; [by intros ?%elem_of_nil|by intros [? ?]].
  - destruct IH as (Hc & Ha & Hr). assert (length (keys (run uses)) <= cap)%nat as Hl by (rewrite <- length_reverse, Hr, length_take; lia).
    unfold run. rewrite foldl_app. cbn [foldl]. fold (run uses). destruct (handlerAndServerForUpstream key (run uses)) as [m' r] eqn:E.
    apply used in E as (Hc' & Ha' & Ek & _); [|done..]. cbn [fst]. split_and!; [done..|].
    rewrite Ek, reverse_lru, Hr, reverse_app. change (reverse [key] ++ reverse uses) with (key :: reverse uses). cbn [distinct]. destruct cap as [|c] eqn:Ecap; [pose proof cap_pos; lia|].
    cbn [take]. f_equal. apply take_filter_take, NoDup_distinct.
Qed.

(** However guests name registries, the servers that are kept are those of the most
    recently used ones, up to the cap, each the one that was made when its registry was
    first used since it was last dropped; and every server that was made is either in use or
    has had its connections closed, exactly once. *)
Theorem dynamic_servers_lru uses key :
  coherent (run uses) /\
  reverse (keys (run uses)) = take cap (distinct (reverse uses)) /\
  NoDup (closed (run uses)) /\
  (forall server, (server < fresh (run uses))%nat -> server ∈ closed (run uses) <-> ~ exists k, dynamic (run uses) !! k = Some server) /\
  (let '(m', r) := handlerAndServerForUpstream key (run uses) in
   is_Some r /\ r = dynamic m' !! key /\ forall k, k ∈ keys m' -> is_Some (dynamic (run uses) !! k) -> dynamic m' !! k = dynamic (run uses) !! k).
Proof.
  assert (coherent (run uses) /\ accounted (run uses) /\ reverse (keys (run uses)) = take cap (distinct (reverse uses))) as (Hc & Ha & Hr).
  { apply run_lru. }
  pose proof Ha as Hp. unfold accounted in Hp.
  assert (length (keys (run uses)) <= cap)%nat as Hl by (rewrite <- length_reverse, Hr, length_take; lia).
  split; [done|]. split; [done|]. assert (NoDup (closed (run uses) ++ (map_to_list (dynamic (run uses))).*2)) as Hnd by (rewrite Hp; apply NoDup_seq).
  apply NoDup_app in Hnd as (Hn1 & Hdis & _). split; [done|]. split.
  - intros server Hs. assert (server ∈ closed (run uses) ++ (map_to_list (dynamic (run uses))).*2) as Hin by (rewrite Hp; apply elem_of_seq; lia).
    assert (server ∈ (map_to_list (dynamic (run uses))).*2 <-> exists k, dynamic (run uses) !! k = Some server) as Hv.
    { rewrite list_elem_of_fmap. split; [intros ([k v] & -> & H%elem_of_map_to_list); eauto|intros (k & H); exists (k, server); by rewrite elem_of_map_to_list]. }
    rewrite <- Hv. apply elem_of_app in Hin. split; [apply Hdis|]. tauto.
  - destruct (handlerAndServerForUpstream key (run uses)) as [m' r] eqn:E. apply used in E as (_ & _ & _ & -> & ? & ? & _); eauto.
Qed.

Lemma removed_all ks m acc m' closers : coherent m -> NoDup ks -> (forall k, k ∈ ks -> k ∈ keys m) ->
  foldl (fun '(m, closers) key => let '(m, closer) := removeDynamicLocked key m in (m, closers ++ option_list closer)) (m, acc) ks = (m', closers) ->
  closed m' = closed m /\ fresh m' = fresh m /\ closers ++ (map_to_list (dynamic m')).*2 ≡ₚ acc ++ (map_to_list (dynamic m)).*2 /\
  (forall k, is_Some (dynamic m' !! k) -> is_Some (dynamic m !! k) /\ k ∉ ks).
Proof.
  revert m acc. induction ks as [|key ks IH]; intros m acc Hc Hnd Hk H; [injection H as <- <-; split_and!; auto; intros k ?; split; [done|apply not_elem_of_nil]|].
  apply NoDup_cons in Hnd as [Hn Hnd]. assert (key ∈ keys m) as Hin by (apply Hk; left). cbn [foldl] in H. destruct (removeDynamicLocked key m) as [m1 closer] eqn:Er.
  apply removed in Er as (Hc1 & Ek & -> & Ed & Ecl & Hf); [|done..]. assert (is_Some (dynamic m !! key)) as [v Hv] by (by apply (order_dynamic _ Hc)).
  apply IH in H as (Hcl & Hfr & Hp & Hd); [|done..|].
  - rewrite Hcl, Hfr, Ecl, Hf. split_and!; [done..| |].
    + rewrite Hp, Hv, Ed. cbn [option_list]. rewrite <- app_assoc. by rewrite <- (map_to_list_delete (dynamic m) key v Hv).
    + intros k Hs. apply Hd in Hs as [Hs Hnk]. rewrite Ed, lookup_delete_is_Some in Hs. destruct Hs as [Hne Hs]. split; [done|].
      apply not_elem_of_cons. by split; [intros ->|].
  - intros k Hin'. rewrite Ek, list_elem_of_filter. split; [by intros ->|]. apply Hk. by right.
Qed.

(** Closing the manager closes the connections of every server it made. *)
Lemma drain_closes_all uses : dynamic (drain (run uses)) = ∅ /\ closed (drain (run uses)) ≡ₚ seq 0 (fresh (run uses)).
Proof.
  destruct (run_lru uses) as (Hc & Ha & _). unfold drain. destruct (foldl _ _ _) as [m' closers] eqn:E. apply removed_all in E as (Hcl & Hf & Hp & Hd); [|done|apply NoDup_fst_map_to_list|].
  - assert (dynamic m' = ∅) as He.
    { apply map_empty. intros k. destruct (dynamic m' !! k) as [v|] eqn:Ek; [|done]. exfalso. destruct (Hd k) as [[v' Hs] Hn]; [by rewrite Ek|].
      apply Hn. apply elem_of_map_to_list in Hs. by apply (list_elem_of_fmap_2 fst) in Hs. }
    split; [done|]. cbn. rewrite Hcl. rewrite He, map_to_list_empty, app_nil_r in Hp. cbn in Hp. rewrite Hp. apply Ha.
  - intros k Hk. apply (order_dynamic _ Hc). apply list_elem_of_fmap in Hk as ([k' v] & -> & Hkv%elem_of_map_to_list). by exists v.
Qed.

End Cap.
End Dynamic.

(** ** Which registry a request names ([routeCatchAllRequest]) *)

(** *** [net/url] *)

Definition is_unreserved (c : ascii) : bool := is_alnum c || existsb (Ascii.eqb c) ["-"; "_"; "."; "~"]%char.

(** [shouldEscape] in a path, and [validEncoded] *)
Definition escaped_in_path (c : ascii) : bool := negb (is_unreserved c || existsb (Ascii.eqb c) ["$"; "&"; "+"; ","; "/"; ":"; ";"; "="; "@"]%char).
Definition valid_in_path (c : ascii) : bool :=
  existsb (Ascii.eqb c) ["!"; "$"; "&"; "'"; "("; ")"; "*"; "+"; ","; ";"; "="; ":"; "@"; "["; "]"; "%"]%char || negb (escaped_in_path c).

Definition upper_hex (v : Z) : ascii := ascii_of_byte (if v <? 10 then 48 + v else 55 + v).

Fixpoint escape (escaped : ascii -> bool) (space_plus : bool) (s : string) : string :=
  match s with
  | EmptyString => EmptyString
  | String c s =>
      let rest := escape escaped space_plus s in
      if space_plus && Ascii.eqb c " " then String "+" rest
      else if escaped c then String "%" (String (upper_hex (byte_val c / 16)) (String (upper_hex (byte_val c mod 16)) rest))
      else String c rest
  end.

Fixpoint unescape (plus_space : bool) (s : string) : option string :=
  match s with
  | EmptyString => Some EmptyString
  | String "%" (String a (String b s)) =>
      match hex_val a, hex_val b with Some x, Some y => String (ascii_of_byte (x * 16 + y)) <$> unescape plus_space s | _, _ => None end
  | String "%" _ => None
  | String c s => String (if plus_space && Ascii.eqb c "+" then " "%char else c) <$> unescape plus_space s
  end.

Definition PathUnescape : string -> option string := unescape false.
Definition QueryUnescape : string -> option string := unescape true.
Definition QueryEscape : string -> string := escape (fun c => negb (is_unreserved c)) true.

Record URL := mkURL { Path : string; RawPath : string; RawQuery : string }.

Definition EscapedPath (u : URL) : string :=
  if negb (String.eqb (RawPath u) "") && all_chars valid_in_path (RawPath u) && bool_decide (PathUnescape (RawPath u) = Some (Path u)) then RawPath u
  else if String.eqb (Path u) "*" then "*" else escape escaped_in_path false (Path u).

(** [URL.Query]: the values of each key in order; pairs that cannot be read are left out. *)
Definition query_pair (pair : string) : option (string * string) :=
  if has_any [";"%char] pair || String.eqb pair "" then None
  else let '(key, value) := default (pair, "") (cut "=" pair) in
       match QueryUnescape key, QueryUnescape value with Some key, Some value => Some (key, value) | _, _ => None end.

Definition Query (raw : string) : list (string * string) := omap query_pair (split_on "&" raw).

Definition Get (query : list (string * string)) (key : string) : string :=
  match list_find (fun kv => kv.1 = key) query with Some (_, kv) => kv.2 | None => "" end.

(** [Values.Encode]: by key, the values of a key in order *)
Definition Encode (query : list (string * string)) : string :=
  join "&" (mjoin ((fun key => (fun kv => (QueryEscape kv.1 +:+ "=" +:+ QueryEscape kv.2)%string) <$> filter (fun kv => kv.1 = key) query)
                     <$> sort_strings (remove_dups query.*1))).

(** *** Routes *)

Inductive route_error := BadAuthority (e : authority_error) | MalformedPath | SlashInAuthority | NoOperation | EncodedSlash | NoNamespace.

Record catchAllRoute := mkRoute { Authority : upstreamAuthority; Target : URL }.

Definition cloneURLWithoutQueryValue (source : URL) (key : string) : URL :=
  mkURL (Path source) (RawPath source) (Encode (filter (fun kv => kv.1 <> key) (Query (RawQuery source)))).

Definition looksLikeUpstreamAuthority (segment : string) : bool := has_any ["."%char; ":"%char] segment.

(** [None] when the path does not start with an authority *)
Definition pathPrefixedAuthority (raw : URL) : result route_error (option (string * URL)) :=
  let escapedPath := EscapedPath raw in
  if negb (has_prefix escapedPath "/v2/") then Ok None
  else match cut "/" (trim_prefix escapedPath "/v2/") with
       | None => Ok None
       | Some (escapedAuthority, repositoryPath) =>
           if String.eqb escapedAuthority "" then Ok None
           else match PathUnescape escapedAuthority with
                | None => Err MalformedPath
                | Some authority =>
                    if has_any ["/"%char] authority then Err SlashInAuthority
                    else if negb (looksLikeUpstreamAuthority authority) then Ok None
                    else if String.eqb repositoryPath "" || has_prefix repositoryPath "/" then Err NoOperation
                    else if contains (to_lower repositoryPath) "%2f" then Err EncodedSlash
                    else let targetPath := ("/v2/" +:+ repositoryPath)%string in
                         match PathUnescape targetPath with
                         | None => Err MalformedPath
                         | Some decoded => Ok (Some (authority, mkURL decoded targetPath (RawQuery raw)))
                         end
                end
       end.

Definition named_route (name : string) (target : URL) : result route_error catchAllRoute :=
  match parseUpstreamAuthority name with Ok authority => Ok (mkRoute authority target) | Err e => Err (BadAuthority e) end.

Definition routeCatchAllRequest (raw : URL) : result route_error catchAllRoute :=
  let namespace := trim_space (Get (Query (RawQuery raw)) "ns") in
  if negb (String.eqb namespace "") then named_route namespace (cloneURLWithoutQueryValue raw "ns")
  else match pathPrefixedAuthority raw with
       | Err e => Err e
       | Ok None => Err NoNamespace
       | Ok (Some (authority, target)) => named_route authority target
       end.

Example route_query : routeCatchAllRequest (mkURL "/v2/org/app/manifests/1.0" "" "ns=ghcr.io&x=1%2F2") =
  Ok (mkRoute (authority_of "ghcr.io" "") (mkURL "/v2/org/app/manifests/1.0" "" "x=1%2F2")).
Proof. vm_compute. reflexivity. Qed.

Example route_prefix : routeCatchAllRequest (mkURL "/v2/ghcr.io:5000/org/app/manifests/1.0" "" "") =
  Ok (mkRoute (authority_of "ghcr.io" "5000") (mkURL "/v2/org/app/manifests/1.0" "/v2/org/app/manifests/1.0" "")).
Proof. vm_compute. reflexivity. Qed.

Example route_smuggled : routeCatchAllRequest (mkURL "/v2/ghcr.io/org/app/manifests/1.0" "/v2/ghcr.io/org%2Fapp/manifests/1.0" "") = Err EncodedSlash.
Proof. vm_compute. reflexivity. Qed.

(** *** An encoded slash cannot move the boundaries of a path *)

Lemma unescape_escaped plus a b s :
  unescape plus (String "%" (String a (String b s))) =
    match hex_val a, hex_val b with Some x, Some y => String (ascii_of_byte (x * 16 + y)) <$> unescape plus s | _, _ => None end.
Proof. done. Qed.

Lemma unescape_plain plus c s : c <> "%"%char ->
  unescape plus (String c s) = String (if plus && Ascii.eqb c "+" then " "%char else c) <$> unescape plus s.
Proof. intros H. destruct c as [[] [] [] [] [] [] [] []]; try reflexivity. done. Qed.

Lemma unescape_cut plus s : (String.length s < 2)%nat -> unescape plus (String "%" s) = None.
Proof. destruct s as [|a [|b s]]; [done..|]. cbn. lia. Qed.

Lemma slash_escape a b x y : hex_val a = Some x -> hex_val b = Some y -> ascii_of_byte (x * 16 + y) = "/"%char ->
  to_lower_ascii a = "2"%char /\ to_lower_ascii b = "f"%char.
Proof.
  intros Hx Hy H. pose proof (hex_val_range _ _ Hx). pose proof (hex_val_range _ _ Hy).
  assert (x * 16 + y = 47) as E.
  { assert (byte_val (ascii_of_byte (x * 16 + y)) = x * 16 + y) as <-; [|by rewrite H].
    unfold byte_val, ascii_of_byte. rewrite N_ascii_embedding by lia. lia. }
  assert (x = 2 /\ y = 15) as [-> ->] by lia.
  pose proof (by_byte (fun c => implb (bool_decide (hex_val c = Some 2)) (bool_decide (to_lower_ascii c = "2"%char))) eq_refl a) as Ba.
  pose proof (by_byte (fun c => implb (bool_decide (hex_val c = Some 15)) (bool_decide (to_lower_ascii c = "f"%char))) eq_refl b) as Bb. cbv beta in Ba, Bb.
  rewrite bool_decide_true in Ba by done. rewrite bool_decide_true in Bb by done. cbn in Ba, Bb. by rewrite bool_decide_eq_true in Ba, Bb.
Qed.

Definition segments (s d : string) : Prop := Forall2 (fun x y => unescape false x = Some y) (split_on "/" s) (split_on "/" d).

(** Prepending something that is not a slash, to both *)
Lemma segments_prepend a c s d : all_chars (fun c => negb (Ascii.eqb c "/")) a = true -> c <> "/"%char ->
  (forall w v, unescape false w = Some v -> unescape false (a +:+ w) = Some (String c v)) -> segments s d -> segments (a +:+ s) (String c d).
Proof.
  intros Ha Hc Hw. unfold segments. cbn [split_on]. rewrite decide_False by done. destruct (split_on_cons "/" s) as (w & ws & Ew), (split_on_cons "/" d) as (v & vs & ->).
  assert (split_on "/" (a +:+ s) = (a +:+ w) :: ws) as ->.
  { clear Hw. induction a as [|x a IH]; [done|]. rewrite all_chars_cons in Ha. apply andb_true_iff in Ha as [Hx Ha]. apply negb_true_iff, Ascii.eqb_neq in Hx.
    change (split_on "/" (String x (a +:+ s)) = String x (a +:+ w) :: ws). cbn [split_on]. by rewrite decide_False, IH. }
  rewrite Ew. intros [H1 H2]%Forall2_cons. constructor; auto.
Qed.

Lemma hex_no_slash c v : hex_val c = Some v -> negb (Ascii.eqb c "/") = true.
Proof. intros H. by destruct (Ascii.eqb_spec c "/") as [->|]. Qed.

(** The segments of the decoded path are the decoded segments of the path. *)
Lemma decoded_segments s d : contains (to_lower s) "%2f" = false -> PathUnescape s = Some d -> segments s d.
Proof.
  unfold PathUnescape. remember (String.length s) as n eqn:Hn. revert s d Hn. induction (lt_wf n) as [n _ IH]. intros s d -> Hc H.
  destruct s as [|c s]; [injection H as <-; by repeat constructor|].
  assert (contains (to_lower s) "%2f" = false) as Hs by (cbn [contains to_lower] in Hc; by apply orb_false_iff in Hc as [_ ?]).
  destruct (decide (c = "%"%char)) as [->|Hp].
  - destruct s as [|a [|b s]]; [done..|]. rewrite unescape_escaped in H. destruct (hex_val a) as [x|] eqn:Ex, (hex_val b) as [y|] eqn:Ey; try done.
    destruct (unescape false s) as [d'|] eqn:Ed; [|done]. injection H as <-.
    apply (segments_prepend (String "%" (String a (String b "")))).
    + cbn. by rewrite (hex_no_slash _ _ Ex), (hex_no_slash _ _ Ey).
    + intros E. destruct (slash_escape _ _ _ _ Ex Ey E) as [Ea Eb]. cbn [to_lower] in Hc. rewrite Ea, Eb in Hc.
      by destruct (to_lower s).
    + intros w v Hw. change (unescape false (String "%" (String a (String b w))) = Some (String (ascii_of_byte (x * 16 + y)) v)). rewrite unescape_escaped, Ex, Ey, Hw. done.
    + eapply (IH (String.length s)); [cbn; lia|done| |done]. cbn [contains to_lower] in Hs. apply orb_false_iff in Hs as [_ Hs]. by apply orb_false_iff in Hs as [_ ?].
  - rewrite unescape_plain in H by done. cbn in H. destruct (unescape false s) as [d'|] eqn:Ed; [|done]. injection H as <-.
    assert (segments s d') as Hsd by (eapply (IH (String.length s)); [cbn; lia|done..]). destruct (decide (c = "/"%char)) as [->|Hslash].
    + unfold segments in *. cbn [split_on]. rewrite !decide_True by done. by constructor.
    + apply (segments_prepend (String c "")); [|done| |done].
      * cbn. by destruct (Ascii.eqb_spec c "/").
      * intros w v Hw. change (unescape false (String c w) = Some (String c v)). by rewrite unescape_plain, Hw.
Qed.

(** ** The catch-all port ([serveCatchAll]) *)

(** The caches by key, the servers that are kept, and the authority each was made for; [now]
    counts the calls. *)
Record World := mkWorld {
  caches : gmap string (gmap path inode);
  table : Dynamic.Servers;
  made : gmap nat upstreamAuthority;
  now : nat
}.

Inductive outcome := Answered (resp : Response) | Redirected (scheme host : string) (target : URL) | Refused (e : route_error).

Section CatchAll.
Context `{Wire}.
(** Other requests change the cache of each registry, calls fail, the mirror goes offline,
    names resolve and registries answer as these say. *)
Context (env : string -> nat -> gmap path inode -> gmap path inode) (fault offline canceled : nat -> bool) (hostArch : string).
Context (resolve : nat -> string -> option (list IP)) (hostIPs : nat -> option (list IP)) (dynamicCap : nat).
(** The registries other requests use at the same time *)
Context (others : nat -> list upstreamAuthority).
Context (upstream : upstreamAuthority -> nat -> bool -> option Mirror.Upstream).

Abbreviation CM := (State World).

(** A computation on the cache of one registry *)
Definition on {A} (key : string) (m : State Cache A) : CM A := fun w =>
  let '(c, a) := m (mkCache (default ∅ (caches w !! key)) (now w)) in
  (mkWorld (<[key := files c]> (caches w)) (table w) (made w) (tick c), a).

(** [validateResolvedAuthority] as the servers use it *)
Definition vet_authority (a : upstreamAuthority) (t : nat) : option vet_error :=
  match validateResolvedAuthority (resolve t) (hostIPs t) a with
  | Vetted => None
  | ResolutionFailed => Some Unresolved
  | HostAddressesFailed => Some HostUnknown
  | AddressNotPublic _ => Some NotPublic
  end.

(** The server of [newDynamicMirrorServer] *)
Definition serve (a : upstreamAuthority) (r : Request) : State Cache Response :=
  x ← ServeHTTP (env (cacheKey a)) fault offline canceled hostArch (Some (vet_authority a)) (upstream a) r; mret (x.1).

Definition set_table (m : Dynamic.Servers) (w : World) : World := mkWorld (caches w) m (made w) (now w).

(** [handlerForUpstream]; a server that is made is made for this authority *)
Definition handlerForUpstream (a : upstreamAuthority) : CM (option nat) := fun w =>
  let '(m, handler) := Dynamic.handlerAndServerForUpstream dynamicCap (cacheKey a) (table w) in
  let made' := match Dynamic.dynamic (table w) !! cacheKey a with None => <[Dynamic.fresh (table w) := a]> (made w) | Some _ => made w end in
  (mkWorld (caches w) m made' (now w), handler).

(** The lock of the table was others' before it is ours. *)
Definition lock : CM unit := fun w => (foldl (fun w a => (handlerForUpstream a w).1) w (others (now w)), tt).

Definition find_handler (key : string) : CM (option nat) := fun w =>
  let '(m, handler) := Dynamic.dynamicHandler key (table w) in (set_table m w, handler).

(** The handler's own [ServeHTTP], on the cache it was made for.  A handler was always made
    ([handler_made] below); the answer without one is not a response. *)
Definition handle (handler : option nat) (r : Request) : CM Response := fun w =>
  match handler ≫= (made w !!.) with
  | Some a => on (cacheKey a) (serve a r) w
  | None => (w, error_response 0 None)
  end.

Definition redirectLoopbackAuthority (target : URL) (a : upstreamAuthority) : option outcome :=
  if String.eqb (canonicalHost a) "localhost" || IsLoopback (parse_ip (canonicalHost a)) then
    Some (Redirected (if negb (String.eqb (port a) "") && negb (String.eqb (port a) "443") then "http" else "https")
            (canonicalURLHost (canonicalHost a) (port a)) target)
  else None.

(** [probeCacheOnly]: what it served, or that it did not *)
Definition probeCacheOnly (a : upstreamAuthority) (r : Request) : State Cache (option Response) :=
  if String.eqb (rq_Path r) "/v2/" then mret None
  else
    x ← serveCacheIfAvailable (env (cacheKey a)) fault offline canceled hostArch r;
    match x with
    | Served resp => mret (Some resp)
    | Corrupt => mret (Some corrupted)
    | Missed => off ← offlineEnabled offline; mret (if off : bool then Some offline_miss else None)
    end.

(** A registry that is not in the table: its addresses are looked at first. *)
Definition vet_first (a : upstreamAuthority) (r : Request) (stale : CacheStatus) : State Cache (option Response) :=
  vetted ← validateUpstream (env (cacheKey a)) (Some (vet_authority a));
  match vetted with
  | None => mret None
  | Some e =>
      served ← (if Complete stale && shouldServeStaleOnValidationError e then serveStaleManifest (env (cacheKey a)) fault r stale else mret None);
      mret (Some (default (error_response (vet_status e) None) served))
  end.

Definition serve_route (a : upstreamAuthority) (r : Request) : CM Response :=
  probed ← on (cacheKey a) (probeCacheOnly a r);
  match probed with
  | Some resp => mret resp
  | None =>
      stale ← on (cacheKey a) (staleCandidate (env (cacheKey a)) fault offline canceled hostArch r);
      _ ← lock;
      handler ← find_handler (cacheKey a);
      match handler with
      | Some _ => handle handler r
      | None =>
          refused ← on (cacheKey a) (vet_first a r stale);
          match refused with
          | Some resp => mret resp
          | None => _ ← lock; handler ← handlerForUpstream a; handle handler r
          end
      end
  end.

Definition serveCatchAll (method : Method) (u : URL) : CM outcome :=
  match method with
  | OtherMethod => mret (Answered (error_response 405 None))
  | _ =>
      if String.eqb (Path u) "/v2/" then mret (Answered (mkResponse 200 "" "" None None))
      else match routeCatchAllRequest u with
           | Err e => mret (Refused e)
           | Ok route =>
               match redirectLoopbackAuthority (Target route) (Authority route) with
               | Some redirect => mret redirect
               | None => resp ← serve_route (Authority route) (guest method (Path (Target route))); mret (Answered resp)
               end
           end
  end.

(** *** Every handler in the table serves the registry of its key *)

Definition named (a : upstreamAuthority) : Prop := exists raw, parseUpstreamAuthority raw = Ok a.

Record serving (w : World) : Prop := {
  table_coherent : Dynamic.coherent (table w);
  table_accounted : Dynamic.accounted (table w);
  table_capped : (length (Dynamic.keys (table w)) <= Dynamic.effectiveDynamicCap dynamicCap)%nat;
  handler_made key id : Dynamic.dynamic (table w) !! key = Some id -> exists a, made w !! id = Some a /\ cacheKey a = key /\ named a;
  made_past id : is_Some (made w !! id) -> (id < Dynamic.fresh (table w))%nat;
  caches_sound key fs : caches w !! key = Some fs -> sound fs
}.

Lemma named_inj a b : named a -> named b -> cacheKey a = cacheKey b -> a = b.
Proof.
  intros [r1 (h1 & p1 & -> & (C1 & H1) & _)%parse_authority] [r2 (h2 & p2 & -> & (C2 & H2) & _)%parse_authority] Hk.
  apply safeCacheKey_inj in Hk as [-> ->]; [done..| |]; [by destruct H1 as (? & ? & -> & _)|by destruct H2 as (? & ? & -> & _)].
Qed.

Lemma handler_serving a w : named a -> serving w ->
  runs w (handlerForUpstream a) (fun w' h => serving w' /\ h ≫= (made w' !!.) = Some a /\ caches w' = caches w /\ (forall id b, made w !! id = Some b -> made w' !! id = Some b)).
Proof.
  intros Hn [Hc Ha Hl Hm Hp Hs]. unfold runs, handlerForUpstream. destruct (Dynamic.handlerAndServerForUpstream dynamicCap (cacheKey a) (table w)) as [m h] eqn:E.
  pose proof E as (Hc' & Ha' & Ek & -> & Eh & Hsame & Hf)%Dynamic.used; [|done..].
  assert (length (Dynamic.keys m) <= Dynamic.effectiveDynamicCap dynamicCap)%nat as Hl' by (rewrite Ek; apply Dynamic.length_lru).
  assert (forall k, k ∈ Dynamic.keys m -> k = cacheKey a \/ is_Some (Dynamic.dynamic (table w) !! k)) as Hk.
  { intros k Hin. rewrite Ek in Hin. apply Dynamic.elem_of_lru in Hin as [->|Hin]; [by left|right]. by apply (Dynamic.order_dynamic _ Hc). }
  cbn [fst snd]. destruct (Dynamic.dynamic (table w) !! cacheKey a) as [old|] eqn:Ed; cbn [default from_option id] in *.
  - destruct (Hm _ _ Ed) as (b & Hb & Hkey & Hnb). assert (b = a) as -> by (by apply named_inj).
    split_and!; [|by cbn; rewrite Hb|done|done]. split; cbn; try done.
    + intros key i Hi. assert (key ∈ Dynamic.keys m) as Hin by (apply (Dynamic.order_dynamic _ Hc'); eauto). apply Hm. rewrite <- Hsame; [done..|].
      destruct (Hk key Hin) as [->|]; [by rewrite Ed|done].
    + intros i Hi. rewrite Hf. by apply Hp.
  - assert (made w !! Dynamic.fresh (table w) = None) as Hnew by (apply eq_None_not_Some; intros Hsm%Hp; lia).
    split_and!; [|by cbn; rewrite lookup_insert_eq|done|intros i b Hib; cbn; rewrite lookup_insert_ne; [done|]; intros <-; congruence]. split; cbn; try done.
    + intros key i Hi. assert (key ∈ Dynamic.keys m) as Hin by (apply (Dynamic.order_dynamic _ Hc'); eauto). destruct (Hk key Hin) as [->|Hsome].
      * rewrite <- Eh in Hi. injection Hi as <-. exists a. by rewrite lookup_insert_eq.
      * rewrite Hsame in Hi by done. destruct (Hm _ _ Hi) as (b & Hb & ? & ?). exists b. rewrite lookup_insert_ne; [done|]. intros <-. congruence.
    + intros i Hi. rewrite Hf. destruct (decide (i = Dynamic.fresh (table w))) as [->|Hne]; [lia|]. rewrite lookup_insert_ne in Hi by done. apply Hp in Hi. lia.
Qed.

Context (others_named : forall t a, a ∈ others t -> named a) (env_sound : forall key t fs, sound fs -> sound (env key t fs)).

(** From a world in which the table is in order, the computation leaves one that is too, with
    the caches of other registries as they were. *)
Definition wholds {A} (a : upstreamAuthority) (m : CM A) (Q : World -> A -> Prop) : Prop := forall w, serving w ->
  runs w m (fun w' x => serving w' /\ (forall key, key <> cacheKey a -> caches w' !! key = caches w !! key) /\ Q w' x).

Lemma wholds_bind {A B} a (m : CM A) (k : A -> CM B) P Q :
  wholds a m P -> (forall x w, serving w -> P w x -> runs w (k x) (fun w' y => serving w' /\ (forall key, key <> cacheKey a -> caches w' !! key = caches w !! key) /\ Q w' y)) ->
  wholds a (m ≫= k) Q.
Proof.
  intros Hm Hk w Hw. apply post_bind. eapply post_conseq; [apply (Hm w Hw)|]. intros w1 x (Hw1 & Ho1 & HP). eapply post_conseq; [apply (Hk x w1 Hw1 HP)|].
  intros w2 y (Hw2 & Ho2 & HQ). split_and!; [done| |done]. intros key Hne. by rewrite Ho2, Ho1.
Qed.

Lemma wholds_seq {A B} a (m : CM A) (k : A -> CM B) (P : A -> Prop) Q :
  wholds a m (fun _ x => P x) -> (forall x, P x -> wholds a (k x) Q) -> wholds a (m ≫= k) Q.
Proof. intros Hm Hk. eapply wholds_bind; [apply Hm|]. intros x w Hw Hx. by apply Hk. Qed.

Lemma wholds_ret {A} a (x : A) (Q : A -> Prop) : Q x -> wholds a (mret x) (fun _ => Q).
Proof. intros HQ w Hw. by apply post_ret. Qed.

Lemma wholds_conseq {A} a (m : CM A) (P Q : World -> A -> Prop) : wholds a m P -> (forall w x, P w x -> Q w x) -> wholds a m Q.
Proof. intros Hm HPQ w Hw. eapply post_conseq; [apply (Hm w Hw)|]. naive_solver. Qed.

Lemma wholds_on {A} a (m : State Cache A) (Q : A -> Prop) : holds m Q -> wholds a (on (cacheKey a) m) (fun _ => Q).
Proof.
  intros Hm w [Hc Ha Hl Hh Hp Hs]. unfold runs, on.
  assert (sound (default ∅ (caches w !! cacheKey a))) as Hf.
  { destruct (caches w !! cacheKey a) as [fs|] eqn:E; [by eapply Hs|]. intros digest data _ Hd. cbn in Hd. by rewrite lookup_empty in Hd. }
  specialize (Hm (mkCache _ (now w)) Hf). unfold runs in Hm. destruct (m _) as [c x]. destruct Hm as [Hsnd HQ]. split_and!; [|cbn; intros; by rewrite lookup_insert_ne|done].
  split; cbn; try done. intros key fs. rewrite lookup_insert_Some. intros [[<- <-]|[_ ?]]; eauto.
Qed.

Lemma wholds_lock a : wholds a lock (fun _ _ => True).
Proof.
  intros w Hw. unfold runs, lock. cbn [fst snd]. assert (forall b, b ∈ others (now w) -> named b) as Hn by apply others_named.
  generalize dependent w. intros w. generalize (others (now w)). intros l Hw Hn. revert w Hw. induction l as [|b l IH]; intros w Hw; [done|]. cbn [foldl].
  destruct (handler_serving b w) as (Hw' & _ & Hc & _); [apply Hn; by left|done|]. destruct (IH ltac:(intros c Hc'; apply Hn; by right) _ Hw') as (? & Ho & _).
  split_and!; [done| |done]. intros key Hne. by rewrite Ho, Hc.
Qed.

Lemma wholds_handler a : named a -> wholds a (handlerForUpstream a) (fun w' h => h ≫= (made w' !!.) = Some a).
Proof. intros Hn w Hw. eapply post_conseq; [by apply handler_serving|]. cbv beta. intros w' h (? & ? & Hc & _). split_and!; [done| |done]. intros. by rewrite Hc. Qed.

Lemma wholds_dynamic a : named a -> wholds a (find_handler (cacheKey a)) (fun w' h => is_Some h -> h ≫= (made w' !!.) = Some a).
Proof.
  intros Hn w [Hc Ha Hl Hm Hp Hs]. unfold runs, find_handler, Dynamic.dynamicHandler. destruct (Dynamic.dynamic (table w) !! cacheKey a) as [i|] eqn:Ed; cbn [fst snd].
  - assert (cacheKey a ∈ Dynamic.keys (table w)) as Hk by (apply (Dynamic.order_dynamic _ Hc); eauto).
    destruct (Dynamic.touched _ _ Hc Hk) as (Hc' & Ek & Edy & Ecl & Hfr). split_and!; [|done|intros _; cbn].
    + split; cbn; rewrite ?Edy, ?Hfr; try done; [unfold Dynamic.accounted in *; by rewrite Edy, Ecl, Hfr|].
      rewrite <- (Dynamic.size_keys _ Hc'), Edy, (Dynamic.size_keys _ Hc). done.
    + destruct (Hm _ _ Ed) as (b & Hb & Hkey & Hnb). rewrite Hb. f_equal. by apply named_inj.
  - split_and!; [by destruct w|done|by intros [? ?]].
Qed.

Lemma holds_probe a p : holds (probeCacheOnly a (guest GET p)) (fun x => forall resp, x = Some resp -> vouched (guest GET p) resp).
Proof.
  unfold probeCacheOnly. case_match; [by apply holds_ret|]. eapply holds_bind; [apply holds_serveCacheIfAvailable; [apply env_sound|done]|]. intros [resp| |] Hx.
  - apply holds_ret. intros ? [= <-]. by apply Hx.
  - eapply holds_bind; [apply holds_look|]. intros [|] _; apply holds_ret; [|done]. intros ? [= <-]. by apply vouched_error.
  - apply holds_ret. intros ? [= <-]. by apply vouched_error.
Qed.

Lemma holds_vet_first a p stale : (Complete stale = true -> is_manifest (guest GET p) = true /\ isDigestReference (manifestReference p) = false) ->
  holds (vet_first a (guest GET p) stale) (fun x => forall resp, x = Some resp -> vouched (guest GET p) resp).
Proof.
  intros Hs. unfold vet_first, validateUpstream. apply (holds_bind _ _ any); [eapply holds_any, holds_ask, env_sound|]. intros [e|] _; [|by apply holds_ret].
  apply (holds_bind _ _ (fun x => forall resp, x = Some resp -> vouched (guest GET p) resp)).
  - destruct (Complete stale && _) eqn:Hc; [|by apply holds_ret]. apply andb_true_iff in Hc as [Hc _]. eapply holds_conseq; [apply holds_serveStale; [apply env_sound|done]|].
    cbv beta. intros x Hx resp E. destruct (Hx resp E) as [data Ht]. by eapply stale_vouched.
  - intros [resp|] Hx; apply holds_ret; intros ? [= <-]; [by apply Hx|]. apply vouched_error. by destruct e.
Qed.

Lemma wholds_handle a h p w : serving w -> h ≫= (made w !!.) = Some a ->
  runs w (handle h (guest GET p)) (fun w' resp => serving w' /\ (forall key, key <> cacheKey a -> caches w' !! key = caches w !! key) /\ vouched (guest GET p) resp).
Proof.
  intros Hw Hh. unfold runs, handle. rewrite Hh. apply (wholds_on a (serve a (guest GET p)) (vouched (guest GET p))); [|done].
  unfold serve. eapply holds_bind; [apply holds_ServeHTTP; [apply env_sound|done..]|]. intros x Hx. by apply holds_ret.
Qed.

Lemma wholds_serve_route a p : named a -> wholds a (serve_route a (guest GET p)) (fun _ => vouched (guest GET p)).
Proof.
  intros Hn. unfold serve_route. eapply wholds_seq; [apply wholds_on, holds_probe|]. intros [resp|] Hx; [apply wholds_ret; auto|].
  eapply wholds_seq; [apply wholds_on, holds_stale, env_sound|]. intros stale Hs. eapply wholds_seq; [apply (wholds_conseq _ _ _ (fun _ _ => True) (wholds_lock a)); done|].
  intros _ _. eapply wholds_bind; [by apply wholds_dynamic|]. intros [h|] w Hw Hh; [by apply wholds_handle, Hh|].
  revert w Hw Hh. cut (wholds a (refused ← on (cacheKey a) (vet_first a (guest GET p) stale);
    match refused with Some resp => mret resp | None => _ ← lock; handler ← handlerForUpstream a; handle handler (guest GET p) end) (fun _ => vouched (guest GET p))); [intros Hr w Hw _; by apply Hr|].
  eapply wholds_seq; [by apply wholds_on, holds_vet_first|]. intros [resp|] Hr; [apply wholds_ret; auto|].
  eapply wholds_seq; [apply (wholds_conseq _ _ _ (fun _ _ => True) (wholds_lock a)); done|]. intros _ _. eapply wholds_bind; [by apply wholds_handler|].
  intros h w Hw Hh. by apply wholds_handle.
Qed.

End CatchAll.

(** *** Only the registry that was named is asked *)

Section Asked.
Context `{Wire}.
Context (env : nat -> gmap path inode -> gmap path inode) (fault offline canceled : nat -> bool) (hostArch : string).

Lemma bind_ext {S A B} (m : State S A) (k1 k2 : A -> State S B) w : (forall a w', k1 a w' = k2 a w') -> (m ≫= k1) w = (m ≫= k2) w.
Proof. intros Hk. unfold mbind, State_bind. by destruct (m w). Qed.

Lemma from_cache_ext r k1 k2 c : (forall c, k1 c = k2 c) ->
  from_cache_or env fault offline canceled hostArch r k1 c = from_cache_or env fault offline canceled hostArch r k2 c.
Proof. intros Hk. unfold from_cache_or. apply bind_ext. intros [resp| |] c1; [done| |done]. apply bind_ext. by intros [|] c2. Qed.

Lemma ask_bind {A B} (answer : nat -> A) (k : A -> State Cache B) c :
  (ask env answer ≫= k) c = k (answer (tick c)) (mkCache (env (tick c) (files c)) (S (tick c))).
Proof. done. Qed.

Lemma ServeHTTP_asks vet up1 up2 r c : (forall t, vet t <> None) \/ (forall t b, up1 t b = up2 t b) ->
  ServeHTTP env fault offline canceled hostArch (Some vet) up1 r c = ServeHTTP env fault offline canceled hostArch (Some vet) up2 r c.
Proof.
  intros Hup. unfold ServeHTTP. destruct (rq_Method r); [| |done]; (case_match; [done|]); apply from_cache_ext; intros c1; apply bind_ext; intros stale c2.
  all: unfold validateUpstream; rewrite !ask_bind; destruct (vet (tick c2)) as [e|] eqn:Ev; [done|].
  all: apply from_cache_ext; intros c3; destruct Hup as [Hv|Hup]; [by apply Hv in Ev|].
  all: unfold fetch; rewrite !ask_bind; by rewrite Hup.
Qed.

End Asked.

Lemma route_named u route : routeCatchAllRequest u = Ok route -> named (Authority route).
Proof.
  unfold routeCatchAllRequest, named_route. intros Hr. repeat (case_match; try discriminate); injection Hr as <-; cbn; eexists; eassumption.
Qed.

Section SameAnswer.
Context `{Wire}.
Context (env : string -> nat -> gmap path inode -> gmap path inode) (fault offline canceled : nat -> bool) (hostArch : string).
Context (resolve : nat -> string -> option (list IP)) (hostIPs : nat -> option (list IP)) (dynamicCap : nat) (others : nat -> list upstreamAuthority).
Context (others_named : forall t a, a ∈ others t -> named a) (env_sound : forall key t fs, sound fs -> sound (env key t fs)).
Context (up1 up2 : upstreamAuthority -> nat -> bool -> option Mirror.Upstream) (a : upstreamAuthority) (a_named : named a).
Context (asked : (forall t b, up1 a t b = up2 a t b) \/ (forall t, vet_authority resolve hostIPs a t = Some NotPublic)).

Lemma wbind_ext {A B} (m : State World A) (k1 k2 : A -> State World B) P w : wholds dynamicCap a m P -> serving dynamicCap w ->
  (forall x w, serving dynamicCap w -> P w x -> k1 x w = k2 x w) -> (m ≫= k1) w = (m ≫= k2) w.
Proof.
  intros Hm Hw Hk. specialize (Hm w Hw). unfold runs in Hm. unfold mbind, State_bind. destruct (m w) as [w1 x]. destruct Hm as (? & _ & ?). by apply Hk.
Qed.

Lemma handle_ext h r w : h ≫= (made w !!.) = Some a ->
  handle env fault offline canceled hostArch resolve hostIPs up1 h r w = handle env fault offline canceled hostArch resolve hostIPs up2 h r w.
Proof.
  intros Hh. unfold handle. rewrite Hh. unfold on, serve, mbind, State_bind.
  rewrite (ServeHTTP_asks _ fault offline canceled hostArch (vet_authority resolve hostIPs a) (up1 a) (up2 a)); [done|].
  destruct asked as [Hu|Hv]; [by right|left]. intros t. by rewrite Hv.
Qed.

Lemma serve_route_ext p w : serving dynamicCap w ->
  serve_route env fault offline canceled hostArch resolve hostIPs dynamicCap others up1 a (guest GET p) w =
  serve_route env fault offline canceled hostArch resolve hostIPs dynamicCap others up2 a (guest GET p) w.
Proof.
  intros Hw. unfold serve_route. eapply wbind_ext; [apply wholds_on, holds_probe; done|done|]. intros [resp|] w1 Hw1 _; [done|].
  eapply wbind_ext; [apply wholds_on, holds_stale, env_sound|done|]. intros stale w2 Hw2 Hs.
  eapply wbind_ext; [by apply wholds_lock|done|]. intros _ w3 Hw3 _. eapply wbind_ext; [by apply wholds_dynamic|done|].
  intros [h|] w4 Hw4 Hh; [by apply handle_ext, Hh|]. eapply wbind_ext; [by apply wholds_on, holds_vet_first|done|]. intros [resp|] w5 Hw5 _; [done|].
  eapply wbind_ext; [by apply wholds_lock|done|]. intros _ w6 Hw6 _. eapply wbind_ext; [by apply wholds_handler|done|]. intros h w7 Hw7 Hm. by apply handle_ext.
Qed.

End SameAnswer.

(** C20: the catch-all port, with any upstreams, faults and concurrent requests.  A [GET] that
    succeeds answers with verified content of the registry it names; only that registry's
    cache is touched; no other registry is asked, and a registry whose addresses are not
    public is not asked at all.  A server found in the table is always one that was made for
    the registry that is named. *)
Theorem catch_all_isolated `{Wire} env fault offline canceled hostArch resolve hostIPs dynamicCap others upstream (w : World) (u : URL) :
  (forall t a, a ∈ others t -> named a) -> (forall key t fs, sound fs -> sound (env key t fs)) -> serving dynamicCap w ->
  let catch_all upstream := serveCatchAll env fault offline canceled hostArch resolve hostIPs dynamicCap others upstream GET u in
  let '(w', o) := catch_all upstream w in
  serving dynamicCap w' /\
  match o with
  | Refused e => routeCatchAllRequest u = Err e
  | Redirected _ _ target => exists route, routeCatchAllRequest u = Ok route /\ target = Target route
  | Answered resp => Path u = "/v2/" \/ exists route, routeCatchAllRequest u = Ok route /\
      vouched (guest GET (Path (Target route))) resp /\
      (forall key, key <> cacheKey (Authority route) -> caches w' !! key = caches w !! key) /\
      (forall upstream',
         (forall t b, upstream' (Authority route) t b = upstream (Authority route) t b) \/
         (forall t, vet_authority resolve hostIPs (Authority route) t = Some NotPublic) ->
         catch_all upstream' w = catch_all upstream w)
  end.
Proof.
  intros Hn He Hw. cbv zeta. unfold serveCatchAll. destruct (String.eqb (Path u) "/v2/") eqn:Ep.
  { apply String.eqb_eq in Ep. split; [done|]. by left. }
  destruct (routeCatchAllRequest u) as [route|e] eqn:Er; [|by split]. destruct (redirectLoopbackAuthority _ _) as [o|] eqn:El.
  { unfold redirectLoopbackAuthority in El. case_match; [|done]. injection El as <-. split; [done|]. by exists route. }
  pose proof (wholds_serve_route env fault offline canceled hostArch resolve hostIPs dynamicCap others upstream Hn He (Authority route) (Path (Target route)) (route_named u route Er) w Hw) as Hr.
  pose proof (fun upstream' => serve_route_ext env fault offline canceled hostArch resolve hostIPs dynamicCap others Hn He upstream' upstream (Authority route) (route_named u route Er)) as Hsame.
  unfold runs in Hr. unfold mbind, State_bind. destruct (serve_route _ _ _ _ _ _ _ _ _ upstream _ _ w) as [w' resp] eqn:Es. destruct Hr as (? & ? & ?).
  split; [done|]. right. exists route. split_and!; [done..|]. intros upstream' Hu. by rewrite (Hsame _ Hu _ _ Hw), Es.
Qed.

Module CatchAllDemo.
Import Mirror.Demo.

Lemma ok_inj {E A} (a b : A) : @Ok E A a = Ok b -> a = b.
Proof. by intros [= ->]. Qed.

Definition idle : World := mkWorld ∅ Dynamic.empty ∅ 0.

Lemma idle_serving cap : serving cap idle.
Proof.
  destruct (Dynamic.run_lru cap []) as (Hc & Ha & _). split; [done|done| |..]; cbn; [lia|by intros|by intros ? [? ?]|by intros].
Qed.

(** Public and private registries; every one that is asked sends the same layer. *)
Definition resolves (t : nat) (host : string) : option (list IP) :=
  lookupNamespaceIPs (fun host => if String.eqb host "ghcr.io" then Some [[140; 82; 121; 33]] else Some [[10; 0; 0; 7]]) host.

Definition layer_url : URL := mkURL (blob_at "layer") "" "ns=ghcr.io".

Definition ask_catch_all (u : URL) : World * outcome :=
  serveCatchAll (H := wire) (fun _ => still) never never never "arm64" resolves (fun _ => Some []) 0 (fun _ => []) (fun _ => sends "layer") GET u idle.

Definition status (o : outcome) : Z := match o with Answered resp => r_status resp | Redirected _ _ _ => 307 | Refused _ => 400 end.

Example catch_all_answers :
  status (ask_catch_all layer_url).2 = 200 /\ status (ask_catch_all (mkURL (blob_at "layer") "" "ns=intranet.example")).2 = 403 /\
  status (ask_catch_all (mkURL (blob_at "layer") "" "ns=localhost:5000")).2 = 307 /\ status (ask_catch_all (mkURL "/v2/app/tags/list" "" "")).2 = 400.
Proof. vm_compute. done. Qed.

Lemma catch_all_isolated_witness :
  exists resp, (ask_catch_all layer_url).2 = Answered resp /\ r_status resp = 200 /\
  (vouched (guest GET (blob_at "layer")) resp /\ forall key, key <> "ghcr.io" -> caches (ask_catch_all layer_url).1 !! key = (∅ : gmap string (gmap path inode)) !! key).
Proof.
  pose proof (catch_all_isolated (H := wire) (fun _ => still) never never never "arm64" resolves (fun _ => Some []) 0 (fun _ => []) (fun _ => sends "layer") idle layer_url
    (fun t a Ha => match not_elem_of_nil a Ha with end) (fun _ _ _ Hs => Hs) (idle_serving 0)) as T. cbv beta zeta in T. fold (ask_catch_all layer_url) in T.
  assert (exists resp, (ask_catch_all layer_url).2 = Answered resp /\ r_status resp = 200) as (resp & E & E200).
  { clear T. assert (status (ask_catch_all layer_url).2 = 200) as E by (vm_compute; reflexivity). revert E. generalize (ask_catch_all layer_url).2.
    intros [resp| |] E; [exists resp; split; [reflexivity|exact E]|discriminate E..]. }
  exists resp. split; [exact E|]. split; [exact E200|]. revert T E. generalize (ask_catch_all layer_url). intros [w' o] T E. cbn [snd] in E. subst o. destruct T as [_ [T|(route & Hr & Hv & Ho & _)]]; [exfalso; vm_compute in T; discriminate T|].
  assert (routeCatchAllRequest layer_url = Ok (mkRoute (authority_of "ghcr.io" "") (mkURL (blob_at "layer") "" ""))) as Hr' by (vm_compute; reflexivity).
  rewrite (ok_inj _ _ (eq_trans (eq_sym Hr) Hr')) in Hv, Ho. split; [exact Hv|]. intros key Hk. apply Ho. exact Hk.
Defined.

End CatchAllDemo.
