(* ===== verification/Upstream.v ===== *)
(** * Requests to the registries ([internal/mirror/upstream.go])

    The parsing of authentication challenges, the exchange and cache of bearer tokens,
    and the retries of rate-limited requests.  The HTTP client answers by a schedule: the
    n-th request made is answered by the n-th entry, and time passes by another; a sleep
    may be interrupted.  The schedule may let any request fail and any sleep be cut short,
    so the deadline of the token exchange and the end of the client's context are among
    its cases.  Parsing of URLs, of HTTP dates and of the token body are parameters. *)

From stdpp Require Import base list gmap strings.
From Stdlib Require Import Ascii ZArith Lia.
From S2P Require Import Prelude GoStrings Digest Effects.

Local Open Scope Z_scope.
Local Open Scope int64_scope.
Local Open Scope effect_scope.

(** ** Challenges *)

Record bearerChallenge := mkChallenge { ch_realm : string; ch_service : string; ch_scope : string }.

Definition quote : ascii := "034"%char.
Definition backslash : ascii := "092"%char.
Definition tab : ascii := "009"%char.

Definition snoc (s : string) (c : ascii) : string := (s +:+ String c EmptyString)%string.

(** The first loop of [splitChallenges]: [cur] is the segment so far. *)
Fixpoint segments (s : string) (quoted : bool) (cur : string) : list string :=
  match s with
  | EmptyString => [cur]
  | String c rest =>
      if Ascii.eqb c quote then segments rest (negb quoted) (snoc cur c)
      else if Ascii.eqb c backslash && quoted then
        match rest with
        | EmptyString => [snoc cur c]
        | String d rest => segments rest quoted (snoc (snoc cur c) d)
        end
      else if Ascii.eqb c ","%char && negb quoted then cur :: segments rest quoted EmptyString
      else segments rest quoted (snoc cur c)
  end.

Fixpoint has_char (c : ascii) (s : string) : bool :=
  match s with EmptyString => false | String d s => Ascii.eqb c d || has_char c s end.

(** [head] of a segment, before its first equals sign *)
Definition before_equals (segment : string) : string :=
  match cut "="%char segment with Some (head, _) => head | None => segment end.

(** One segment of the second loop: the challenges so far, and the current one *)
Definition join_segment (acc : list string * string) (segment : string) : list string * string :=
  let '(challenges, current) := acc in
  let segment := trim_space segment in
  if String.eqb segment "" then acc
  else
    let head := trim_space (before_equals segment) in
    if negb (String.eqb current "") && negb (has_char " "%char head || has_char tab head) && has_char "="%char segment
    then (challenges, (current +:+ ", " +:+ segment)%string)
    else ((if String.eqb current "" then challenges else challenges ++ [current]), segment).

Definition splitChallenges (header : string) : list string :=
  let '(challenges, current) := foldl join_segment ([], EmptyString) (segments header false EmptyString) in
  if String.eqb current "" then challenges else challenges ++ [current].

(** [challengeRe] at the head of the text, a key of letters, digits, underscores and
    hyphens, the equals sign and a quoted value: the key, the value and the rest *)
Definition is_key_char (c : ascii) : bool := is_digit c || is_lower c || is_upper c || Ascii.eqb c "_"%char || Ascii.eqb c "-"%char.

Fixpoint span_key (s : string) : string * string :=
  match s with
  | String c rest => if is_key_char c then let '(k, r) := span_key rest in (String c k, r) else (EmptyString, s)
  | EmptyString => (EmptyString, EmptyString)
  end.

Definition challenge_match (s : string) : option (string * string * string) :=
  match span_key s with
  | (EmptyString, _) => None
  | (key, String e (String q rest)) =>
      if Ascii.eqb e "="%char && Ascii.eqb q quote
      then match cut quote rest with Some (value, rest) => Some (key, value, rest) | None => None end
      else None
  | _ => None
  end.

(** [FindAllStringSubmatch]: from left to right.  Where a run of key characters does not
    match, no later start inside the run does, so the search goes on behind it. *)
Fixpoint find_params (fuel : nat) (s : string) : list (string * string) :=
  match fuel with
  | O => []
  | S fuel =>
      match s with
      | EmptyString => []
      | String c rest =>
          match challenge_match s with
          | Some (key, value, rest) => (key, value) :: find_params fuel rest
          | None => find_params fuel (if is_key_char c then (span_key s).2 else rest)
          end
      end
  end.

(** A later parameter of the same name wins. *)
Definition param (name : string) (params : list (string * string)) : string :=
  foldl (fun acc p => if String.eqb (to_lower p.1) name then p.2 else acc) EmptyString params.

Definition parseBearerChallenge (header : string) : option bearerChallenge :=
  match cut " "%char (trim_space header) with
  | Some (scheme, rest) =>
      if String.eqb (to_lower scheme) "bearer" then
        let params := find_params (S (String.length rest)) rest in
        Some (mkChallenge (param "realm" params) (param "service" params) (param "scope" params))
      else None
  | None => None
  end.

Fixpoint first_some {A B} (f : A -> option B) (l : list A) : option B :=
  match l with [] => None | x :: l => match f x with Some b => Some b | None => first_some f l end end.

Definition bearerChallengeFrom (headers : list string) : option bearerChallenge :=
  first_some (fun header => first_some parseBearerChallenge (splitChallenges header)) headers.

(** ** Time *)

(** [time.Duration]: nanoseconds *)
Definition Second : Z := 1000000000.
Definition Millisecond : Z := 1000000.
Definition defaultTokenLifetime : Z := 60 * Second.

(** [Time.Sub] saturates. *)
Definition sub_time (t u : Z) : Z := Z.max int64_min (Z.min int64_max (t - u)).

Definition tokenLifetime (expiresIn : Z) : Z :=
  let lifetime := if 0 <? expiresIn then expiresIn *! Second else defaultTokenLifetime in
  let skew := Z.quot lifetime 10 in
  let skew := if 30 * Second <? skew then 30 * Second else skew in
  lifetime -! skew.

Record retryPolicy := mkPolicy { MaxAttempts : Z; MaxDelay : Z }.

Definition defaultRequestPolicy : retryPolicy := mkPolicy 3 (30 * Second).
Definition immediateRequestPolicy : retryPolicy := mkPolicy 1 (MaxDelay defaultRequestPolicy).

Definition normalizedRetryPolicy (p : retryPolicy) : retryPolicy :=
  mkPolicy (if MaxAttempts p <=? 0 then 1 else MaxAttempts p) (if MaxDelay p <=? 0 then 30 * Second else MaxDelay p).

(** ** The client *)

Record tokenPayload := mkPayload { Token : string; AccessToken : string; ExpiresIn : Z }.

Record Response := mkResponse {
  StatusCode : Z;
  WWWAuthenticate : list string;
  RetryAfter : string;
  Body : option tokenPayload
}.

Inductive net_error :=
| RequestFailed | Interrupted | NoRealm | BadRealm (realm : string) | BadRequest | TokenStatus (code : Z) | BadTokenBody | NoToken | Unreachable.

(** What happened, in order: the requests with the bearer they carried and the time they
    were sent, the tokens obtained and when they expire, the sleeps *)
Inductive action :=
| Sent (path : string) (bearer : option string) (time : Z)
| AskedToken (realm service scope : string)
| Issued (scope bearer : string) (expires : Z)
| Slept (delay : Z).

Record Link := mkLink { tokens : gmap string (string * Z); clock : Z; log : list action; calls : nat }.

Abbreviation U := (State Link).

Record Client := mkClient {
  answer : nat -> option Response;
  passes : nat -> Z;
  sleeps : nat -> bool;
  valid_url : string -> bool;
  can_request : string -> string -> string -> bool;
  parse_time : string -> option Z
}.

Section Requests.
Context (cl : Client).

Definition record (a : action) : U unit := modify (fun w => mkLink (tokens w) (clock w) (log w ++ [a]) (calls w)).
Definition with_tokens (t : gmap string (string * Z)) (w : Link) : Link := mkLink t (clock w) (log w) (calls w).

(** [s.client.Do] *)
Definition Do (what : Z -> action) : U (result net_error Response) :=
  w ← get;
  _ ← record (what (clock w));
  w ← get;
  _ ← modify (fun w => mkLink (tokens w) (clock w + passes cl (calls w)) (log w) (S (calls w)));
  mret (match answer cl (calls w) with Some r => Ok r | None => Err RequestFailed end).

Definition parseRetryAfter (value : string) (now : Z) : option Z :=
  let value := trim_space value in
  let date := match parse_time cl value with
              | Some when => let delay := sub_time when now in Some (if delay <? 0 then 0 else delay)
              | None => None
              end in
  match atoi value with
  | Some seconds => if 0 <=? seconds then Some (seconds *! Second) else date
  | None => date
  end.

Definition retryDelay (p : retryPolicy) (header : string) (retry : nat) (now : Z) : Z :=
  match parseRetryAfter header now with
  | Some delay => if MaxDelay p <? delay then MaxDelay p else delay
  | None =>
      let delay := if (0 <? Z.of_nat retry) then Second else 500 * Millisecond in
      if MaxDelay p <? delay then MaxDelay p else delay
  end.

Definition Sleep (delay : Z) : U (result net_error unit) :=
  _ ← record (Slept delay);
  w ← get;
  _ ← modify (fun w => mkLink (tokens w) (clock w + Z.max 0 delay) (log w) (S (calls w)));
  mret (if sleeps cl (calls w) then Ok tt else Err Interrupted).

(** The loop of [doRegistryRequest] and of [doPlainRequest]: [remaining] attempts are left. *)
Fixpoint retry_loop (p : retryPolicy) (once : U (result net_error Response)) (remaining attempt : nat) : U (result net_error Response) :=
  match remaining with
  | O => fail Unreachable
  | S remaining =>
      resp ←! once;
      if negb (StatusCode resp =? 429) || bool_decide (remaining = 0%nat) then ok resp
      else
        w ← get;
        _ ←! Sleep (retryDelay p (RetryAfter resp) attempt (clock w));
        retry_loop p once remaining (S attempt)
  end.

Definition doPlainRequest (p : retryPolicy) (what : Z -> action) : U (result net_error Response) :=
  let retry := normalizedRetryPolicy p in
  retry_loop retry (Do what) (Z.to_nat (MaxAttempts retry)) 0.

(** ** Tokens *)

Definition cachedToken (scope : string) : U string :=
  w ← get;
  mret (match tokens w !! scope with
        | Some (value, expires) => if clock w <? expires then value else EmptyString
        | None => EmptyString
        end).

Definition forgetToken (scope : string) : U unit := modify (fun w => with_tokens (delete scope (tokens w)) w).

Definition negotiateToken (challenge : bearerChallenge) (requestScope : string) (p : retryPolicy) : U (result net_error string) :=
  if String.eqb (ch_realm challenge) "" then fail NoRealm
  else
    let scope := if String.eqb (ch_scope challenge) "" then requestScope else ch_scope challenge in
    if negb (valid_url cl (ch_realm challenge)) then fail (BadRealm (ch_realm challenge))
    else if negb (can_request cl (ch_realm challenge) (ch_service challenge) scope) then fail BadRequest
    else
      resp ←! doPlainRequest p (fun _ => AskedToken (ch_realm challenge) (ch_service challenge) scope);
      if negb (StatusCode resp =? 200) then fail (TokenStatus (StatusCode resp))
      else match Body resp with
      | None => fail BadTokenBody
      | Some payload =>
          let bearer := if String.eqb (Token payload) "" then AccessToken payload else Token payload in
          if String.eqb bearer "" then fail NoToken
          else
            w ← get;
            let expires := clock w + tokenLifetime (ExpiresIn payload) in
            _ ← record (Issued requestScope bearer expires);
            _ ← (if String.eqb requestScope "" then mret tt
                 else modify (fun w => with_tokens (<[requestScope := (bearer, expires)]> (filter (fun e => clock w < e.2.2) (tokens w))) w));
            ok bearer
      end.

Definition doRegistryAttempt (path : string) (p : retryPolicy) : U (result net_error Response) :=
  let scope := scopeOf path in
  bearer ← cachedToken scope;
  resp ←! Do (Sent path (if String.eqb bearer "" then None else Some bearer));
  if negb (StatusCode resp =? 401) then ok resp
  else match bearerChallengeFrom (WWWAuthenticate resp) with
  | None => ok resp
  | Some challenge =>
      _ ← forgetToken scope;
      bearer ←! negotiateToken challenge scope p;
      Do (Sent path (Some bearer))
  end.

Definition doRegistryRequest (path : string) (p : retryPolicy) : U (result net_error Response) :=
  let retry := normalizedRetryPolicy p in
  retry_loop retry (doRegistryAttempt path p) (Z.to_nat (MaxAttempts retry)) 0.
End Requests.

(** ** The cost of a request *)

Definition is_request (a : action) : bool := match a with Sent _ _ _ | AskedToken _ _ _ => true | _ => false end.
Definition requests (l : list action) : nat := length (filter (fun a => is_request a = true) l).
Definition naps (l : list action) : list Z := omap (fun a => match a with Slept d => Some d | _ => None end) l.

(** The time asked of the sleeps, a negative delay being none *)
Definition waited (l : list action) : Z := foldr (fun d acc => Z.max 0 d + acc) 0 (naps l).

(** [w'] is [w] with at most [a] requests and [b] sleeps of at most [m] more. *)
Definition spends (m : Z) (a b : nat) (w w' : Link) : Prop :=
  exists l, log w' = log w ++ l /\ (requests l <= a)%nat /\ (length (naps l) <= b)%nat /\ Forall (fun d => d <= m) (naps l).

Lemma spends_trans m a b a' b' w1 w2 w3 :
  spends m a b w1 w2 -> spends m a' b' w2 w3 -> spends m (a + a') (b + b') w1 w3.
Proof.
  intros (l & El & Ha & Hb & Hm) (l' & El' & Ha' & Hb' & Hm'). exists (l ++ l').
  unfold requests, naps in *. rewrite El', El, app_assoc, filter_app, omap_app, !length_app, Forall_app. split_and!; [done|lia|lia|done..].
Qed.

Lemma spends_mono m a b a' b' w w' : spends m a b w w' -> (a <= a')%nat -> (b <= b')%nat -> spends m a' b' w w'.
Proof. intros (l & El & Ha & Hb & Hm) ? ?. exists l. split_and!; [done|lia..|done]. Qed.

Lemma spends_same m w w' : log w' = log w -> spends m 0 0 w w'.
Proof. intros E. exists []. by rewrite app_nil_r. Qed.

Lemma spends_waited m a b w w' : 0 <= m -> spends m a b w w' ->
  exists l, log w' = log w ++ l /\ (requests l <= a)%nat /\ (length (naps l) <= b)%nat /\ waited l <= Z.of_nat b * m.
Proof.
  intros Hm (l & El & Ha & Hb & Hd). exists l. split_and!; [done..|]. unfold waited.
  enough (forall ds, Forall (fun d => d <= m) ds -> foldr (fun d acc => Z.max 0 d + acc) 0 ds <= Z.of_nat (length ds) * m) as H.
  { specialize (H _ Hd). nia. }
  induction 1 as [|d ds H1 _ IH]; cbn [foldr length]; lia.
Qed.

(** A computation spends at most so much, and never falls off its loop. *)
Definition costs {A} (m : Z) (a b : nat) (c : U (result net_error A)) : Prop :=
  forall w, runs w c (fun w' r => spends m a b w w' /\ r <> Err Unreachable).

Section Costs.
Context (cl : Client).

Lemma costs_try {A B} m a b a' b' (c : U (result net_error A)) (k : A -> U (result net_error B)) :
  costs m a b c -> (forall x, costs m a' b' (k x)) -> costs m (a + a') (b + b') (x ←! c; k x).
Proof.
  intros Hc Hk w. apply post_try. eapply post_conseq; [apply Hc|]. intros w1 [x|e] [H1 H2].
  - eapply post_conseq; [apply Hk|]. intros w2 r [H3 H4]. split; [by eapply spends_trans|done].
  - split; [eapply spends_mono; [done|lia..]|congruence].
Qed.

(** A computation without a request, a sleep or an error comes for free. *)
Lemma costs_quiet {A B} m a b (c : U A) (k : A -> U (result net_error B)) :
  (forall w, log (c w).1 = log w) -> (forall x, costs m a b (k x)) -> costs m a b (x ← c; k x).
Proof.
  intros Hc Hk w. apply post_bind. specialize (Hc w). unfold runs at 1. destruct (c w) as [w1 x]; cbn [fst snd] in *.
  eapply post_conseq; [apply Hk|]. intros w2 r [H1 H2]. split; [|done].
  apply (spends_trans m 0 0 a b w w1 w2); [by apply spends_same|done].
Qed.

Lemma costs_ok {A} m a b (x : A) : costs m a b (ok x).
Proof. intros w. split; [|done]. eapply spends_mono; [by apply spends_same|lia..]. Qed.

Lemma costs_fail {A} m a b e : e <> Unreachable -> costs m a b (@fail _ _ A e).
Proof. intros H w. split; [|cbn; congruence]. eapply spends_mono; [by apply spends_same|lia..]. Qed.

Lemma costs_mono {A} m a b a' b' (c : U (result net_error A)) :
  costs m a b c -> (a <= a')%nat -> (b <= b')%nat -> costs m a' b' c.
Proof. intros H ? ? w. eapply post_conseq; [apply H|]. intros w' r [Hs Hr]. split; [by eapply spends_mono|done]. Qed.

Lemma Do_run what w : Do cl what w =
  (mkLink (tokens w) (clock w + passes cl (calls w)) (log w ++ [what (clock w)]) (S (calls w)),
   match answer cl (calls w) with Some r => Ok r | None => Err RequestFailed end).
Proof. reflexivity. Qed.

Lemma Sleep_run d w : Sleep cl d w =
  (mkLink (tokens w) (clock w + Z.max 0 d) (log w ++ [Slept d]) (S (calls w)), if sleeps cl (calls w) then Ok tt else Err Interrupted).
Proof. reflexivity. Qed.

Lemma costs_Do m what : (forall t, is_request (what t) = true /\ naps [what t] = []) -> costs m 1 0 (Do cl what).
Proof.
  intros Hw w. destruct (Hw (clock w)) as [Hr Hn]. unfold runs. rewrite Do_run. split; [|by destruct (answer cl (calls w))].
  exists [what (clock w)]. rewrite Hn. unfold requests. split_and!; [done| |cbn; lia|constructor].
  rewrite filter_cons. case_decide; cbn; lia.
Qed.

Lemma costs_Sleep m d : d <= m -> costs m 0 1 (Sleep cl d).
Proof.
  intros Hd w. unfold runs. rewrite Sleep_run. split; [|by destruct (sleeps cl (calls w))].
  exists [Slept d]. split_and!; [done|reflexivity|reflexivity|by repeat constructor].
Qed.

Lemma retryDelay_capped p header retry now : retryDelay cl p header retry now <= MaxDelay p.
Proof. unfold retryDelay. destruct (parseRetryAfter cl header now); repeat case_match; lia. Qed.

(** Each turn of the loop costs its body and, when another follows, a sleep. *)
Lemma costs_retry_loop p a b once : costs (MaxDelay p) a b once -> forall remaining attempt,
  costs (MaxDelay p) (S remaining * a) (S remaining * b + remaining) (retry_loop cl p once (S remaining) attempt).
Proof.
  intros Ho. induction remaining as [|r IH]; intros attempt; cbn [retry_loop].
  - eapply costs_mono; [apply (costs_try _ a b 0 0); [done|]|lia..]. intros resp.
    rewrite bool_decide_true by done. rewrite orb_true_r. apply costs_ok.
  - eapply costs_mono; [apply (costs_try _ a b (S r * a) (S r * b + r + 1)); [done|]|lia..]. intros resp.
    destruct (_ || _); [apply costs_ok|]. apply costs_quiet; [done|]. intros w.
    eapply costs_mono; [apply (costs_try _ 0 1 (S r * a) (S r * b + r)); [apply costs_Sleep, retryDelay_capped|]|lia..].
    intros _. apply IH.
Qed.

(** The two ways of an early return *)
Ltac costs_guard := match goal with |- costs _ _ _ (if ?b then _ else _) => destruct b end.

Lemma normalized_attempts p : exists r, Z.to_nat (MaxAttempts (normalizedRetryPolicy p)) = S r.
Proof.
  exists (Nat.pred (Z.to_nat (MaxAttempts (normalizedRetryPolicy p)))). unfold normalizedRetryPolicy; cbn [MaxAttempts].
  case_match; lia.
Qed.

Lemma normalized_delay p : 0 < MaxDelay (normalizedRetryPolicy p).
Proof. unfold normalizedRetryPolicy, Second; cbn [MaxDelay]. case_match; lia. Qed.

Lemma costs_doPlainRequest p what : (forall t, is_request (what t) = true /\ naps [what t] = []) ->
  let n := Z.to_nat (MaxAttempts (normalizedRetryPolicy p)) in
  costs (MaxDelay (normalizedRetryPolicy p)) n (n - 1) (doPlainRequest cl p what).
Proof.
  intros Hw n. subst n. unfold doPlainRequest. destruct (normalized_attempts p) as [r ->].
  eapply costs_mono; [apply costs_retry_loop, costs_Do, Hw|lia..].
Qed.

Lemma costs_negotiateToken challenge scope p :
  let n := Z.to_nat (MaxAttempts (normalizedRetryPolicy p)) in
  costs (MaxDelay (normalizedRetryPolicy p)) n (n - 1) (negotiateToken cl challenge scope p).
Proof.
  intros n. unfold negotiateToken. do 3 (costs_guard; [by apply costs_fail|]).
  eapply costs_mono; [apply (costs_try _ n (n - 1) 0 0); [by apply costs_doPlainRequest|]|lia..]. intros resp.
  costs_guard; [by apply costs_fail|]. destruct (Body resp) as [payload|]; [|by apply costs_fail].
  costs_guard; [by apply costs_fail|]. intros w. cbn.
  destruct (String.eqb scope ""); (split; [|done]); eexists [_]; (split_and!; [reflexivity..|constructor]).
Qed.

Lemma costs_doRegistryAttempt path p :
  let n := Z.to_nat (MaxAttempts (normalizedRetryPolicy p)) in
  costs (MaxDelay (normalizedRetryPolicy p)) (n + 2) (n - 1) (doRegistryAttempt cl path p).
Proof.
  intros n. unfold doRegistryAttempt. apply costs_quiet; [done|]. intros bearer.
  eapply costs_mono; [apply (costs_try _ 1 0 (n + 1) (n - 1)); [by apply costs_Do|]|lia..]. intros resp.
  costs_guard; [apply costs_ok|]. destruct (bearerChallengeFrom _) as [challenge|]; [|apply costs_ok].
  apply costs_quiet; [done|]. intros _.
  eapply costs_mono; [apply (costs_try _ n (n - 1) 1 0); [apply costs_negotiateToken|]|lia..].
  intros token. by apply costs_Do.
Qed.

Lemma costs_doRegistryRequest path p :
  let n := Z.to_nat (MaxAttempts (normalizedRetryPolicy p)) in
  costs (MaxDelay (normalizedRetryPolicy p)) (n * (n + 2)) (n * n - 1) (doRegistryRequest cl path p).
Proof.
  intros n. subst n. unfold doRegistryRequest. pose proof (costs_doRegistryAttempt path p) as Ha.
  destruct (normalized_attempts p) as [r Er]. cbv zeta in Ha. rewrite Er in Ha |- *.
  eapply costs_mono; [apply costs_retry_loop, Ha|lia..].
Qed.
End Costs.

(** ** Tokens stay with their scope *)

(** A bearer of a request is a token obtained for the request's own scope, and either one
    that has not expired or the one obtained just before. *)
Definition justified (l : list action) : Prop := forall l1 path bearer time l2,
  l = l1 ++ Sent path (Some bearer) time :: l2 ->
  exists expires, Issued (scopeOf path) bearer expires ∈ l1 /\
    (time < expires \/ last l1 = Some (Issued (scopeOf path) bearer expires)).

Record tokens_sound (w : Link) : Prop := {
  sound_log : justified (log w);
  sound_cache : forall scope bearer expires, tokens w !! scope = Some (bearer, expires) -> scope <> "" /\ Issued scope bearer expires ∈ log w
}.

Lemma justified_snoc l a : justified l ->
  (forall path bearer time, a = Sent path (Some bearer) time -> exists expires, Issued (scopeOf path) bearer expires ∈ l /\
     (time < expires \/ last l = Some (Issued (scopeOf path) bearer expires))) ->
  justified (l ++ [a]).
Proof.
  intros Hl Ha l1 path bearer time l2. destruct l2 as [|x l2 _] using rev_ind; intros E.
  - apply app_inj_tail in E as [-> ->]. by eapply Ha.
  - rewrite app_comm_cons, app_assoc in E. apply app_inj_tail in E as [-> _]. by eapply Hl.
Qed.

(** A step that logs [a] and leaves the tokens alone *)
Lemma sound_logged w w' a : tokens_sound w -> log w' = log w ++ [a] -> tokens w' = tokens w ->
  (forall path bearer time, a = Sent path (Some bearer) time -> exists expires, Issued (scopeOf path) bearer expires ∈ log w /\
     (time < expires \/ last (log w) = Some (Issued (scopeOf path) bearer expires))) ->
  tokens_sound w'.
Proof.
  intros [Hj Hc] El Et Ha. split; [rewrite El; by apply justified_snoc|]. intros s b e. rewrite Et, El. intros H. apply Hc in H.
  set_solver.
Qed.

Definition keeps_sound (w w' : Link) : Prop := tokens_sound w -> tokens_sound w'.

#[export] Instance keeps_sound_preorder : PreOrder keeps_sound.
Proof. unfold keeps_sound. split; [by intros w|]. intros w1 w2 w3. auto. Qed.

Section Scopes.
Context (cl : Client).

Lemma sound_Do what w : tokens_sound w ->
  (forall path bearer time, what (clock w) = Sent path (Some bearer) time -> exists expires, Issued (scopeOf path) bearer expires ∈ log w /\
     (time < expires \/ last (log w) = Some (Issued (scopeOf path) bearer expires))) ->
  tokens_sound (Do cl what w).1.
Proof. intros Hw Ha. rewrite Do_run. by eapply sound_logged. Qed.

Lemma sound_retry_loop p once : stays keeps_sound once -> forall remaining attempt,
  stays keeps_sound (retry_loop cl p once remaining attempt).
Proof.
  intros Ho. induction remaining as [|r IH]; intros attempt; cbn [retry_loop]; [apply stays_ret, _|].
  apply stays_try; [apply _|done|]. intros resp. destruct (_ || _); [apply stays_ret, _|].
  apply stays_bind; [apply _|apply stays_get, _|]. intros w. apply stays_try; [apply _| |intros _; apply IH].
  intros w1 H1. rewrite Sleep_run. by eapply sound_logged.
Qed.

Lemma sound_doPlainRequest p realm service scope : stays keeps_sound (doPlainRequest cl p (fun _ => AskedToken realm service scope)).
Proof. apply sound_retry_loop. intros w Hw. by apply sound_Do. Qed.

(** The token of a negotiation is the last thing obtained, and was obtained for the scope
    of the request. *)
Lemma sound_negotiateToken challenge scope p w : tokens_sound w ->
  runs w (negotiateToken cl challenge scope p) (fun w' r => tokens_sound w' /\
    forall bearer, r = Ok bearer -> exists expires, last (log w') = Some (Issued scope bearer expires)).
Proof.
  intros Hw. unfold negotiateToken. do 3 (match goal with |- runs _ (if ?b then _ else _) _ => destruct b end; [by split|]).
  apply post_try. eapply post_conseq; [by eapply sound_doPlainRequest|]. intros w1 [resp|e] H1; [|by split; [apply H1|]].
  specialize (H1 Hw). destruct (negb _); [by split|]. destruct (Body resp) as [payload|]; [|by split].
  destruct (String.eqb (if _ : bool then _ else _) ""); [by split|]. set (bearer := if _ : bool then _ else _).
  set (expires := clock w1 + tokenLifetime (ExpiresIn payload)).
  assert (tokens_sound (mkLink (tokens w1) (clock w1) (log w1 ++ [Issued scope bearer expires]) (calls w1))) as Hi by by eapply sound_logged.
  unfold runs. cbn. split.
  - destruct (String.eqb_spec scope "") as [|Hs]; [done|]. destruct Hi as [Hj Hc]. split; [done|]. intros s b e H.
    change (<[scope := (bearer, expires)]> (filter (fun e : string * (string * Z) => clock w1 < e.2.2) (tokens w1)) !! s = Some (b, e)) in H.
    destruct (decide (s = scope)) as [->|Hn]; [rewrite lookup_insert_eq in H; injection H as <- <-; split; [done|apply elem_of_app; right; by left]|].
    rewrite lookup_insert_ne in H by done. apply map_lookup_filter_Some in H as [H _]. by apply Hc.
  - intros b. destruct (String.eqb scope ""); intros H; change (Ok (E := net_error) bearer = Ok b) in H; injection H as <-; exists expires; apply last_snoc.
Qed.

Lemma cachedToken_run scope w : exists b, cachedToken scope w = (w, b) /\
  (b <> "" -> exists expires, tokens w !! scope = Some (b, expires) /\ clock w < expires).
Proof.
  eexists. split; [reflexivity|]. destruct (tokens w !! scope) as [[b e]|]; [|done].
  destruct (Z.ltb_spec (clock w) e); [|done]. intros _. by exists e.
Qed.

Lemma sound_doRegistryAttempt path p : stays keeps_sound (doRegistryAttempt cl path p).
Proof.
  intros w Hw. change (runs w (doRegistryAttempt cl path p) (fun w' _ => tokens_sound w')). apply post_bind. destruct (cachedToken_run (scopeOf path) w) as (b & Er & Hb).
  unfold runs at 1. rewrite Er. cbn [fst snd]. apply post_try.
  assert (tokens_sound (Do cl (Sent path (if String.eqb b "" then None else Some b)) w).1) as H1.
  { apply sound_Do; [done|]. intros path' b' t. destruct (String.eqb_spec b "") as [|Hn]; intros [= <- <- <-].
    destruct (Hb Hn) as (e & He & Hlt). exists e. split; [by apply (sound_cache w Hw)|by left]. }
  unfold runs at 1. rewrite Do_run in *. set (w1 := fst _) in *. set (r := snd _) in *. destruct r as [resp|]; [|done].
  destruct (negb _); [done|]. destruct (bearerChallengeFrom _) as [challenge|]; [|done]. apply post_bind, post_modify.
  assert (tokens_sound (with_tokens (delete (scopeOf path) (tokens w1)) w1)) as H2.
  { split; [apply H1|]. intros s c e. cbn [tokens with_tokens]. rewrite lookup_delete_Some. intros [_ H]. by apply (sound_cache w1 H1). }
  apply post_try. eapply post_conseq; [by apply sound_negotiateToken|]. intros w3 [b3|e3] [H3 H4]; [|done].
  destruct (H4 b3 eq_refl) as [e He]. apply sound_Do; [done|]. intros path' b' t [= <- <- <-]. exists e.
  split; [|by right]. apply last_Some_elem_of in He. done.
Qed.

Lemma sound_doRegistryRequest path p : stays keeps_sound (doRegistryRequest cl path p).
Proof. apply sound_retry_loop, sound_doRegistryAttempt. Qed.
End Scopes.

(** Requests one after another, over the tokens they share *)
Definition serve (cl : Client) (p : retryPolicy) (paths : list string) : U (list (result net_error Response)) :=
  gather paths (fun path => r ← doRegistryRequest cl path p; mret [r]).

Definition fresh (now : Z) : Link := mkLink ∅ now [] 0.

Lemma fresh_sound now : tokens_sound (fresh now).
Proof. split; [|done]. intros l1 path b t l2 H. by apply app_cons_not_nil in H. Qed.

Lemma serve_sound cl p paths now : tokens_sound (serve cl p paths (fresh now)).1.
Proof.
  apply (stays_gather keeps_sound paths (fun path => r ← doRegistryRequest cl path p; mret [r])); [|apply fresh_sound].
  intros path. apply stays_bind; [apply _|apply sound_doRegistryRequest|]. intros r. apply stays_ret, _.
Qed.

(** ** Claims *)



(** ** Challenges read back *)

Definition clean (s : string) : bool := all_chars (fun c => negb (Ascii.eqb c quote || Ascii.eqb c backslash)) s.
Definition quoted (s : string) : string := String quote (s +:+ String quote "").

(** A challenge the way registries write it *)
Definition render (ch : bearerChallenge) : string :=
  "Bearer realm=" +:+ quoted (ch_realm ch) +:+ ",service=" +:+ quoted (ch_service ch) +:+ ",scope=" +:+ quoted (ch_scope ch).
Definition basic (realm : string) : string := "Basic realm=" +:+ quoted realm.
Definition clean_challenge (ch : bearerChallenge) : bool := clean (ch_realm ch) && clean (ch_service ch) && clean (ch_scope ch).

Lemma segments_quoted x rest cur : clean x = true -> segments (x +:+ rest) true cur = segments rest true (cur +:+ x).
Proof.
  revert cur. induction x as [|c x IH]; intros cur; [by rewrite string_app_nil_r|]. unfold clean. cbn [all_chars].
  intros [[Hq Hb]%negb_true_iff%orb_false_iff Hx]%andb_true_iff. change (String c x +:+ rest)%string with (String c (x +:+ rest)). cbn [segments]. rewrite Hq, Hb. cbn [andb negb].
  rewrite andb_false_r, IH by done. unfold snoc. by rewrite string_app_assoc.
Qed.

Lemma segments_plain p rest cur : all_chars (fun c => negb (Ascii.eqb c quote || Ascii.eqb c ","%char)) p = true ->
  segments (p +:+ rest) false cur = segments rest false (cur +:+ p).
Proof.
  revert cur. induction p as [|c p IH]; intros cur; [by rewrite string_app_nil_r|]. cbn [all_chars].
  intros [[Hq Hb]%negb_true_iff%orb_false_iff Hx]%andb_true_iff.
  change (String c p +:+ rest)%string with (String c (p +:+ rest)). cbn [segments]. rewrite Hq, Hb, andb_false_r. cbn [andb].
  rewrite IH by done. unfold snoc. by rewrite string_app_assoc.
Qed.

(** A field, a key and a quoted value, is never split. *)
Lemma segments_field p x rest cur : all_chars (fun c => negb (Ascii.eqb c quote || Ascii.eqb c ","%char)) p = true -> clean x = true ->
  segments (p +:+ quoted x +:+ rest) false cur = segments rest false (cur +:+ p +:+ quoted x).
Proof.
  intros Hp Hx. rewrite segments_plain by done. unfold quoted.
  change (String quote (x +:+ String quote "") +:+ rest)%string with (String quote ((x +:+ String quote "") +:+ rest)).
  rewrite string_app_assoc. change (segments (String quote ?s) false ?c) with (segments s true (snoc c quote)).
  rewrite segments_quoted by done. change (segments (String quote "" +:+ rest) true ?c) with (segments rest false (snoc c quote)).
  f_equal. unfold snoc. by rewrite !string_app_assoc.
Qed.

Lemma cut_clean x rest : clean x = true -> cut quote (x +:+ String quote rest) = Some (x, rest).
Proof.
  intros H. apply cut_app. eapply all_chars_mono; [|exact H]. intros c [Hq _]%negb_true_iff%orb_false_iff.
  apply Ascii.eqb_neq in Hq. by rewrite bool_decide_false.
Qed.

Lemma trim_quoted c s x : is_graph c = true -> trim_space (String c (s +:+ quoted x)) = String c (s +:+ quoted x).
Proof.
  intros Hc. apply (trim_space_id c _ quote); [done| |done]. unfold quoted.
  change (last_char (String c s +:+ (String quote x +:+ String quote "")) = Some quote). by rewrite !last_char_app by (by destruct x).
Qed.


(** One segment of a field: a key without blanks continues the challenge at hand, a scheme
    before the key starts another. *)
Lemma join_field c p x chs cur :
  is_graph c = true -> all_chars (fun c => negb (bool_decide (c = "="%char))) (String c p) = true ->
  let head := trim_space (String c p) in
  let segment := String c (p +:+ String "="%char (quoted x)) in
  join_segment (chs, cur) segment =
    if negb (String.eqb cur "") && negb (has_char " "%char head || has_char tab head) then (chs, (cur +:+ ", " +:+ segment)%string)
    else ((if String.eqb cur "" then chs else chs ++ [cur]), segment).
Proof.
  intros Hc Hp head segment. unfold join_segment.
  assert (trim_space segment = segment) as ->.
  { pose proof (trim_quoted c (p +:+ String "="%char "") x Hc) as H. by rewrite string_app_assoc in H. }
  assert (before_equals segment = String c p) as ->.
  { unfold before_equals, segment. change (String c (p +:+ String "=" (quoted x))) with (String c p +:+ String "=" (quoted x))%string. by rewrite cut_app. }
  assert (has_char "="%char segment = true) as ->; [|by rewrite andb_true_r].
  unfold segment. clear. cbn [has_char]. rewrite orb_true_iff. right. induction p as [|d p IH]; [done|].
  change (has_char "=" (String d (p +:+ String "=" (quoted x))) = true). cbn [has_char]. by rewrite IH, orb_true_r.
Qed.

Section Challenge.
Context (ch : bearerChallenge) (Hch : clean_challenge ch = true).

Definition joined : string :=
  "Bearer realm=" +:+ quoted (ch_realm ch) +:+ ", service=" +:+ quoted (ch_service ch) +:+ ", scope=" +:+ quoted (ch_scope ch).

Lemma clean_parts : clean (ch_realm ch) = true /\ clean (ch_service ch) = true /\ clean (ch_scope ch) = true.
Proof. revert Hch. unfold clean_challenge. rewrite !andb_true_iff. tauto. Qed.

Lemma segments_render rest cur :
  segments (render ch +:+ rest) false cur =
    (cur +:+ "Bearer realm=" +:+ quoted (ch_realm ch))%string :: ("service=" +:+ quoted (ch_service ch))%string ::
    segments rest false ("scope=" +:+ quoted (ch_scope ch)).
Proof.
  destruct clean_parts as (Hr & Hs & Hc). unfold render. rewrite !string_app_assoc. rewrite segments_field by done.
  change (",service=" +:+ ?s)%string with (String "," ("service=" +:+ s)).
  change (segments (String "," ?s) false ?c) with (c :: segments s false EmptyString). rewrite segments_field by done.
  change (",scope=" +:+ ?s)%string with (String "," ("scope=" +:+ s)).
  change (segments (String "," ?s) false ?c) with (c :: segments s false EmptyString). by rewrite segments_field.
Qed.

Lemma join_bearer x chs cur : join_segment (chs, cur) ("Bearer realm=" +:+ quoted x) =
  ((if String.eqb cur "" then chs else chs ++ [cur]), ("Bearer realm=" +:+ quoted x)%string).
Proof. etrans; [by apply (join_field "B"%char "earer realm")|]. by rewrite andb_false_r. Qed.

Lemma join_basic x chs cur : join_segment (chs, cur) (basic x) = ((if String.eqb cur "" then chs else chs ++ [cur]), basic x).
Proof. etrans; [by apply (join_field "B"%char "asic realm")|]. by rewrite andb_false_r. Qed.

Lemma join_service x chs d cur : let cur := String d cur in
  join_segment (chs, cur) ("service=" +:+ quoted x) = (chs, (cur +:+ ", service=" +:+ quoted x)%string).
Proof. by apply (join_field "s"%char "ervice"). Qed.

Lemma join_scope x chs d cur : let cur := String d cur in
  join_segment (chs, cur) ("scope=" +:+ quoted x) = (chs, (cur +:+ ", scope=" +:+ quoted x)%string).
Proof. by apply (join_field "s"%char "cope"). Qed.

(** The three segments of a rendered challenge make one challenge again. *)
Lemma join_rendered chs cur :
  foldl join_segment (chs, cur) ["Bearer realm=" +:+ quoted (ch_realm ch); "service=" +:+ quoted (ch_service ch); "scope=" +:+ quoted (ch_scope ch)]%string =
  ((if String.eqb cur "" then chs else chs ++ [cur]), joined).
Proof.
  cbn [foldl]. rewrite join_bearer. change ("Bearer realm=" +:+ ?x)%string with (String "B" ("earer realm=" +:+ x)).
  rewrite join_service. change (String "B" ?x +:+ ?y)%string with (String "B" (x +:+ y)). rewrite join_scope. unfold joined.
  f_equal. change (String "B" ?x +:+ ?y)%string with (String "B" (x +:+ y)). by rewrite !string_app_assoc.
Qed.

Lemma parse_basic x : parseBearerChallenge (basic x) = None.
Proof. unfold parseBearerChallenge, basic. rewrite (trim_quoted "B"%char "asic realm=" x eq_refl : trim_space ("Basic realm=" +:+ quoted x) = _). reflexivity. Qed.

Lemma find_field k v fuel rest : clean v = true -> span_key (k +:+ String "=" (quoted v +:+ rest)) = (k, String "=" (quoted v +:+ rest)) -> k <> "" ->
  find_params (S fuel) (k +:+ String "=" (quoted v +:+ rest)) = (k, v) :: find_params fuel rest.
Proof.
  intros Hv Hk Hn. cbn [find_params]. destruct (k +:+ _)%string as [|c s] eqn:E; [by destruct k|]. rewrite <- E in *.
  unfold challenge_match. rewrite Hk. destruct k as [|d k]; [done|]. unfold quoted.
  change (String quote (v +:+ String quote "") +:+ rest)%string with (String quote ((v +:+ String quote "") +:+ rest)).
  rewrite string_app_assoc. cbn [Ascii.eqb]. change (String quote "" +:+ rest)%string with (String quote rest). by rewrite cut_clean.
Qed.

Lemma parse_joined : parseBearerChallenge joined = Some ch.
Proof.
  destruct clean_parts as (Hr & Hs & Hc). unfold parseBearerChallenge.
  assert (trim_space joined = joined) as ->.
  { pose proof (trim_quoted "B"%char ("earer realm=" +:+ quoted (ch_realm ch) +:+ ", service=" +:+ quoted (ch_service ch) +:+ ", scope=")
      (ch_scope ch) eq_refl) as H. rewrite !string_app_assoc in H. exact H. }
  set (scope := ("scope" +:+ String "=" (quoted (ch_scope ch) +:+ ""))%string).
  set (service := ("service" +:+ String "=" (quoted (ch_service ch) +:+ String "," (String " " scope)))%string).
  set (realm := ("realm" +:+ String "=" (quoted (ch_realm ch) +:+ String "," (String " " service)))%string).
  assert (joined = ("Bearer" +:+ String " " realm)%string) as ->.
  { unfold realm, service, scope. by rewrite string_app_nil_r. }
  rewrite cut_app by done. change (String.eqb (to_lower "Bearer") "bearer") with true. cbv iota zeta.
  assert (exists k, S (String.length realm) = 7 + k)%nat as [k ->] by by eexists.
  assert (find_params (7 + k) realm = [("realm", ch_realm ch); ("service", ch_service ch); ("scope", ch_scope ch)]) as ->; [|by destruct ch].
  unfold realm. rewrite (find_field "realm" _ (6 + k)) by done.
  change (find_params (6 + k) (String "," (String " " service))) with (find_params (4 + k) service).
  unfold service. rewrite (find_field "service" _ (3 + k)) by done.
  change (find_params (3 + k) (String "," (String " " scope))) with (find_params (1 + k) scope).
  unfold scope. rewrite (find_field "scope" _ k) by done. by destruct k.
Qed.

Definition parts : list string :=
  ["Bearer realm=" +:+ quoted (ch_realm ch); "service=" +:+ quoted (ch_service ch); "scope=" +:+ quoted (ch_scope ch)]%string.

Lemma segments_rendered : segments (render ch) false EmptyString = parts.
Proof. rewrite <- (string_app_nil_r (render ch)), segments_render. reflexivity. Qed.

Lemma split_render : splitChallenges (render ch) = [joined].
Proof. unfold splitChallenges. rewrite segments_rendered. unfold parts. by rewrite join_rendered. Qed.

Lemma split_basic_first x : clean x = true -> splitChallenges (basic x +:+ "," +:+ render ch) = [basic x; joined].
Proof.
  intros Hx. unfold splitChallenges.
  assert (segments (basic x +:+ "," +:+ render ch) false EmptyString = basic x :: parts) as ->.
  { unfold basic. rewrite string_app_assoc, segments_field by done. rewrite <- segments_rendered. reflexivity. }
  cbn [foldl]. rewrite join_basic. unfold parts. by rewrite join_rendered.
Qed.

Lemma split_basic_last x : clean x = true -> splitChallenges (render ch +:+ "," +:+ basic x) = [joined; basic x].
Proof.
  intros Hx. unfold splitChallenges.
  assert (segments (render ch +:+ "," +:+ basic x) false EmptyString = parts ++ [basic x]) as ->.
  { rewrite segments_render. change (segments ("," +:+ ?s) false ?c) with (c :: segments s false EmptyString). unfold basic.
    rewrite <- (string_app_nil_r (quoted x)), segments_field by done. rewrite string_app_nil_r. reflexivity. }
  rewrite foldl_app. unfold parts. rewrite join_rendered. cbn [foldl]. by rewrite join_basic.
Qed.
End Challenge.

(** The challenge a registry writes is the challenge the proxy reads: for any realm,
    service and scope without quotes and backslashes (commas and blanks, as in a scope of
    several actions, are allowed), a rendered Bearer challenge is read back as it was,
    alone, behind a Basic challenge in the same header, and in front of one, whose realm it
    does not take. *)
Theorem challenge_roundtrip ch x : clean_challenge ch = true -> clean x = true ->
  bearerChallengeFrom [render ch] = Some ch /\
  bearerChallengeFrom [basic x +:+ "," +:+ render ch]%string = Some ch /\
  bearerChallengeFrom [render ch +:+ "," +:+ basic x]%string = Some ch.
Proof.
  intros Hch Hx. unfold bearerChallengeFrom. cbn [first_some].
  rewrite split_render, split_basic_first, split_basic_last by done. cbn [first_some]. by rewrite parse_basic, parse_joined.
Qed.

(** Short of the wrap, a token is dropped before it expires, and at most thirty seconds
    before. *)
Lemma tokenLifetime_range e : 0 < e <= 9223372036 ->
  0 < tokenLifetime e < e * Second /\ e * Second - 30 * Second <= tokenLifetime e.
Proof.
  intros He. unfold tokenLifetime. rewrite (proj2 (Z.ltb_lt 0 e)) by lia. unfold Second in *.
  rewrite (wrap64_id (e * _)) by (unfold in_int64, int64_min, int64_max; lia). rewrite Z.quot_div_nonneg by lia.
  pose proof (Z.div_mod (e * 1000000000) 10 ltac:(lia)) as Hd. pose proof (Z.mod_pos_bound (e * 1000000000) 10 ltac:(lia)) as Hm.
  destruct (Z.ltb_spec (30 * 1000000000) (e * 1000000000 / 10)); rewrite wrap64_id by (unfold in_int64, int64_min, int64_max; lia); lia.
Qed.

(** ** Witnesses and boundary cases *)
Module UpstreamDemo.

Definition challenge : bearerChallenge := mkChallenge "https://auth.example/token" "registry.example" "repository:org/app:pull,push".
Definition manifest : string := "/v2/org/app/manifests/v1".
Definition unauthorized : Response := mkResponse 401 [render challenge] "" None.
Definition limited : Response := mkResponse 429 [] "30" None.
Definition token : Response := mkResponse 200 [] "" (Some (mkPayload "t" "" 300)).
Definition found : Response := mkResponse 200 [] "" None.

(** A registry that challenges, a token endpoint that limits the rate twice, and then the
    registry does: eight calls, the sleeps included, over and over *)
Definition cycle : list Response := [unauthorized; limited; limited; limited; limited; token; limited; limited].
Definition slow : Client := mkClient (fun n => cycle !! (n mod 8)%nat) (fun _ => Second) (fun _ => true) (fun _ => true) (fun _ _ _ => true) (fun _ => None).

(** A registry that challenges the first request and serves the others *)
Definition plain : Client := mkClient (fun n => Some (default found ([unauthorized; token] !! n))) (fun _ => Second) (fun _ => true) (fun _ => true) (fun _ _ _ => true) (fun _ => None).

(** The bounds are reached: three attempts of five requests each, eight sleeps of thirty
    seconds. *)
Example slowest_request :
  let l := log (doRegistryRequest slow manifest defaultRequestPolicy (fresh 0)).1 in
  requests l = 15%nat /\ length (naps l) = 8%nat /\ waited l = 240 * Second.
Proof. vm_compute. auto. Qed.

(** A delay or a lifetime of more seconds than a duration holds wraps to the past. *)
Example retry_after_wraps : retryDelay plain defaultRequestPolicy "9223372037" 0 0 = -9223372036709551616.
Proof. vm_compute. reflexivity. Qed.

Example lifetime_wraps : tokenLifetime 9223372037 = -8301034833038596455.
Proof. vm_compute. reflexivity. Qed.


Lemma challenge_roundtrip_witness :
  bearerChallengeFrom [render challenge] = Some challenge /\
  bearerChallengeFrom [basic "registry" +:+ "," +:+ render challenge]%string = Some challenge /\
  bearerChallengeFrom [render challenge +:+ "," +:+ basic "registry"]%string = Some challenge.
Proof. apply challenge_roundtrip; vm_compute; reflexivity. Defined.
End UpstreamDemo.
