(* ===== verification/Warm.v ===== *)
(** * Warming the registry mirror ([internal/mirror]: warm.go, warm_pool.go)

    Fetching the images of a list into the cache: reading a reference, resolving its tag,
    walking to the image of the platform and fetching what it names, and publishing the tag
    once the image is complete.  One reference works on the cache of the registry it names,
    with the calls of [Mirror]; other references, guests and the downloads of the same image
    that run alongside are the environment between any two calls. *)

From stdpp Require Import base list gmap strings.
From Stdlib Require Import Ascii ZArith Lia.
From S2P Require Import Prelude GoStrings Effects Digest Mirror Authority.

Local Open Scope Z_scope.
Local Open Scope effect_scope.

(** ** References *)

Record warmReference := mkReference { wr_upstream : string; wr_repository : string; wr_listedRef : string; wr_pinnedDigest : string }.

Inductive warm_error :=
| BadReference
| BadRegistry (e : authority_error)
| WarmCanceled
| RequestError (path : string) (status : Z) (why : option reason)
| PinConflict
| WrongDigest (got want : string)
| GraphError (e : graph_error)
| NoPlatformManifest
| BlobFailed (path : string) (status : Z)
| TooNested
| NoManifest
| NotPublished (e : read_error)
| Incomplete (status : CacheStatus).

(** The tag behind the last colon, where no slash follows it, and the name before *)
Definition split_tag (name : string) : string * string :=
  match cut_last ":" name with
  | Some (before, tag) => if no_slash tag && negb (String.eqb tag "") then (before, tag) else (name, "")
  | None => (name, "")
  end.

Definition parseWarmReference (reference : string) : result warm_error warmReference :=
  let '(name, pinned) := match cut "@" reference with Some (name, digest) => (name, Some digest) | None => (reference, None) end in
  if bool_decide (pinned = Some "") then Err BadReference
  else
    let '(nameWithoutTag, tag) := split_tag name in
    match cut "/" nameWithoutTag with
    | None => Err BadReference
    | Some (host, remainder) =>
        if String.eqb host "" || String.eqb remainder "" then Err BadReference
        else match pinned with
             | None => Ok (mkReference host remainder tag "")
             | Some digest =>
                 match canonicalSupportedDigest digest with
                 | None => Err BadReference
                 | Some digest => Ok (mkReference host remainder (if String.eqb tag "" then digest else tag) digest)
                 end
             end
    end.

(** *** References read back *)

Definition free_of (sep : ascii) (s : string) : bool := all_chars (fun c => negb (bool_decide (c = sep))) s.

Lemma cut_free sep s : free_of sep s = true -> cut sep s = None.
Proof.
  induction s as [|c s IH]; [done|]. unfold free_of. cbn [all_chars cut]. intros [Hc Hs]%andb_true_iff. rewrite IH by done.
  by case_bool_decide; case_decide.
Qed.

Lemma cut_last_free sep s : free_of sep s = true -> cut_last sep s = None.
Proof.
  induction s as [|c s IH]; [done|]. unfold free_of. cbn [all_chars cut_last]. intros [Hc Hs]%andb_true_iff. rewrite IH by done.
  by case_bool_decide; case_decide.
Qed.

Lemma cut_last_at sep a b : free_of sep b = true -> cut_last sep (a +:+ String sep b) = Some (a, b).
Proof.
  intros Hb. induction a as [|c a IH].
  - change ("" +:+ ?s)%string with s. cbn [cut_last]. rewrite cut_last_free by done. by rewrite decide_True.
  - change (String c a +:+ ?s)%string with (String c (a +:+ s)). cbn [cut_last]. by rewrite IH.
Qed.

Lemma free_app sep a b : free_of sep (a +:+ b) = free_of sep a && free_of sep b.
Proof. apply all_chars_app. Qed.

(** A reference the way a list writes it *)
Definition write_reference (host repository tag : string) (pinned : option string) : string :=
  ((host +:+ String "/" (repository +:+ String ":" tag)) +:+ match pinned with Some digest => String "@" digest | None => "" end)%string.

(** A written reference is read back, whatever ports and colons its parts have, with the
    digest in canonical letters. *)
Theorem reference_roundtrip host repository tag pinned :
  host <> "" -> repository <> "" -> tag <> "" -> free_of "/" host = true -> free_of "/" tag = true -> free_of ":" tag = true ->
  free_of "@" host = true -> free_of "@" repository = true -> free_of "@" tag = true ->
  (forall digest, pinned = Some digest -> canonicalSupportedDigest digest = Some digest) ->
  parseWarmReference (write_reference host repository tag pinned) = Ok (mkReference host repository tag (default "" pinned)).
Proof.
  intros Hh Hr Ht Hhs Hts Htc Hha Hra Hta Hp. unfold parseWarmReference, write_reference.
  set (name := (host +:+ String "/" (repository +:+ String ":" tag))%string).
  assert (free_of "@" name = true) as Hn.
  { unfold name. rewrite free_app, Hha. change (free_of "@" (String "/" ?s)) with (free_of "@" s). rewrite free_app, Hra. done. }
  assert (match cut "@" (name +:+ match pinned with Some digest => String "@" digest | None => "" end) with Some (n, digest) => (n, Some digest) | None => ((name +:+ match pinned with Some digest => String "@" digest | None => "" end)%string, None) end = (name, pinned)) as ->.
  { destruct pinned as [digest|]; [by rewrite cut_app|]. rewrite string_app_nil_r. by rewrite cut_free. }
  assert (split_tag name = (host +:+ String "/" repository, tag)%string) as ->.
  { unfold split_tag, name. change (String "/" (repository +:+ String ":" tag)) with (String "/" repository +:+ String ":" tag)%string.
    rewrite <- string_app_assoc, cut_last_at by done. unfold no_slash. change (all_chars _ tag) with (free_of "/" tag). rewrite Hts.
    apply String.eqb_neq in Ht. by rewrite Ht. }
  rewrite cut_app by done. apply String.eqb_neq in Hh, Hr, Ht. rewrite Hh, Hr. destruct pinned as [digest|]; [|done].
  rewrite (Hp digest eq_refl). cbn [default]. rewrite bool_decide_false by (intros [= ->]; by specialize (Hp "" eq_refl)). by rewrite Ht.
Qed.

(** ** Results *)

Inductive WarmOutcome := Warmed | AlreadyComplete | FailedMissing | FailedRevalidate.

Record WarmResult := mkResult {
  res_Ref : string;
  res_AlreadyComplete : bool;
  res_Outcome : WarmOutcome;
  res_RefreshWarning : option Z;
  res_ReResolvedTag : bool;
  res_Error : option warm_error
}.

Record WarmSummary := mkSummary {
  Results : list WarmResult;
  sum_Warmed : nat;
  sum_AlreadyComplete : nat;
  sum_Failed : nat;
  sum_FailedMissing : nat;
  sum_FailedRevalidate : nat;
  sum_ReResolvedTags : nat
}.

Definition add (result : WarmResult) (s : WarmSummary) : WarmSummary :=
  let results := Results s ++ [result] in
  match res_Error result with
  | Some _ =>
      match res_Outcome result with
      | FailedRevalidate =>
          mkSummary results (sum_Warmed s) (sum_AlreadyComplete s) (S (sum_Failed s)) (sum_FailedMissing s) (S (sum_FailedRevalidate s)) (sum_ReResolvedTags s)
      | _ => mkSummary results (sum_Warmed s) (sum_AlreadyComplete s) (S (sum_Failed s)) (S (sum_FailedMissing s)) (sum_FailedRevalidate s) (sum_ReResolvedTags s)
      end
  | None =>
      let tags := if res_ReResolvedTag result then S (sum_ReResolvedTags s) else sum_ReResolvedTags s in
      match res_Outcome result with
      | AlreadyComplete => mkSummary results (sum_Warmed s) (S (sum_AlreadyComplete s)) (sum_Failed s) (sum_FailedMissing s) (sum_FailedRevalidate s) tags
      | _ => mkSummary results (S (sum_Warmed s)) (sum_AlreadyComplete s) (sum_Failed s) (sum_FailedMissing s) (sum_FailedRevalidate s) tags
      end
  end.

(** An error always comes with an outcome, so none is filled in. *)
Definition finishedWarmResult (reference : string) (r : result (WarmOutcome * warm_error) WarmResult) : WarmResult :=
  match r with
  | Ok result => result
  | Err (outcome, e) => mkResult reference false outcome None false (Some e)
  end.

Definition failedWarmResult (before : CacheStatus) : WarmOutcome := if Complete before then FailedRevalidate else FailedMissing.

Definition isTransientWarmError (e : warm_error) : bool :=
  match e with
  | RequestError _ status why =>
      match why with Some UpstreamManifestInvalid => false | _ => (status =? 429) || (500 <=? status) end
  | _ => false
  end.

(** The status in the warning, none where the upstream was not reached *)
Definition refreshWarning (e : warm_error) : Z := match e with RequestError _ status _ => status | _ => 0 end.

(** The end of [Warm]: the results in the order of the list, however the references ran *)
Definition summarize (results : list WarmResult) : WarmSummary := foldl (fun s r => add r s) (mkSummary [] 0 0 0 0 0 0) results.

(** Every reference is counted once, and every failure as one of its two kinds. *)
Lemma summarize_counts results : let s := summarize results in
  Results s = results /\ (sum_Warmed s + sum_AlreadyComplete s + sum_Failed s = length results)%nat /\
  (sum_FailedMissing s + sum_FailedRevalidate s = sum_Failed s)%nat /\
  sum_Failed s = length (filter (fun r => is_Some (res_Error r)) results).
Proof.
  induction results as [|r results IH] using rev_ind; [done|]. unfold summarize in *. rewrite foldl_app, filter_app, !length_app. cbn [foldl].
  set (s := foldl _ _ results) in *. destruct IH as (H1 & H2 & H3 & H4). rewrite filter_cons, filter_nil. unfold add.
  destruct (res_Error r) as [e|].
  - rewrite decide_True by eauto. destruct (res_Outcome r); cbn; rewrite H1; split_and!; done || lia.
  - rewrite decide_False by (by intros []). destruct (res_Outcome r), (res_ReResolvedTag r); cbn; rewrite H1; split_and!; done || lia.
Qed.

Section Warming.
Context `{Wire}.
(** As in [Mirror]; [late] says that a download starts before the failure of an earlier one
    is noticed. *)
Context (env : nat -> gmap path inode -> gmap path inode) (fault offline canceled : nat -> bool) (hostArch : string).
Context (vet : option (nat -> option vet_error)) (upstream : nat -> bool -> option Upstream) (late : nat -> bool).

Abbreviation M := (State Cache).
Abbreviation Serve := (ServeHTTP env fault offline canceled hostArch vet upstream).
Abbreviation Inspect := (InspectCached env fault canceled).

(** A lock or a slot, which others held before; the wait ends with the context. *)
Definition acquire : M (result warm_error unit) :=
  over ← ask env canceled; if over : bool then fail WarmCanceled else ok tt.

(** ** Requests of a warm *)

Definition manifestCached (p : string) : M bool :=
  r ← checkedCachedManifest env fault p; mret (match r with Ok _ => true | Err _ => false end).

Definition blobCached (digest : string) : M bool :=
  f ← call env fault; w ← get; mret (negb f && bool_decide (is_Some (files w !! blobPath digest))).

(** The body, the digest in the header, whether it was cached before, and what was staged *)
Definition warmManifestRequest (repository reference validateReference : string) (staged : bool) :
    M (result warm_error (string * string * bool * option stagedManifest)) :=
  let p := manifestRequestPath repository reference in
  cachedBefore ← manifestCached p;
  '(resp, st) ← Serve (mkRequest GET p true (Some validateReference) staged false);
  if r_status resp =? 200 then ok (default "" (r_body resp), r_digest resp, cachedBefore, st)
  else if r_status resp =? 409 then fail PinConflict
  else fail (RequestError p (r_status resp) (r_reason resp)).

Definition warmBlobRequest (repository digest : string) : M (result warm_error unit) :=
  let p := blobRequestPath repository digest in
  '(resp, _) ← Serve (mkRequest GET p false None false true);
  if r_status resp =? 200 then ok tt else fail (BlobFailed p (r_status resp)).

(** ** The image of a manifest *)

Inductive analyzed := AnIndex (children : list manifestIndexDescriptor) | AnImage (blobs : list string).

Definition analyzeWarmManifest (body : string) : result warm_error analyzed :=
  match decodeManifestGraph body with
  | Err e => Err (GraphError e)
  | Ok manifest => Ok (if isManifestIndex manifest then AnIndex (g_Manifests manifest) else AnImage (g_Config manifest :: g_Layers manifest))
  end.

(** The group of downloads: they start in order, and none after a failure that was noticed;
    the first error is kept. *)
Fixpoint warm_blobs (repository : string) (blobs seenBlobs : list string) (err : option warm_error) : M (option warm_error) :=
  match blobs with
  | [] => mret err
  | blob :: blobs =>
      if bool_decide (blob ∈ seenBlobs) then warm_blobs repository blobs seenBlobs err
      else
        let seenBlobs := blob :: seenBlobs in
        cached ← blobCached blob;
        if cached : bool then warm_blobs repository blobs seenBlobs err
        else
          locked ← acquire;
          match locked with
          | Err _ => mret err
          | Ok _ =>
              cached ← blobCached blob;
              if cached : bool then warm_blobs repository blobs seenBlobs err
              else
                slot ← acquire;
                unnoticed ← ask env late;
                if match slot, err with Ok _, None => true | Ok _, Some _ => unnoticed | Err _, _ => false end then
                  r ← warmBlobRequest repository blob;
                  warm_blobs repository blobs seenBlobs (match err, r with None, Err e => Some e | _, _ => err end)
                else mret err
          end
  end.

(** [wait]: the first error, or that of the context *)
Definition download (repository : string) (blobs : list string) : M (result warm_error unit) :=
  err ← warm_blobs repository blobs [] None;
  match err with
  | Some e => fail e
  | None => over ← ctx_err canceled; if over : bool then fail WarmCanceled else ok tt
  end.

(** One image is reached from a listed reference, so its blobs are the first ones seen.  An
    upstream can nest indexes as deep as it likes; [fuel] bounds how deep they are followed. *)
Fixpoint warmManifestGraph (fuel : nat) (repository body architecture : string) (seenManifests warmedHostManifests : list string) :
    M (result warm_error unit) :=
  match fuel with
  | O => fail TooNested
  | S fuel =>
      match analyzeWarmManifest body with
      | Err e => fail e
      | Ok (AnImage blobs) => download repository blobs
      | Ok (AnIndex children) =>
          match selectPlatformDescriptor children (mkPlatform "linux" architecture) with
          | None => fail NoPlatformManifest
          | Some child =>
              let digest := d_Digest child in
              let warmed := bool_decide (digest ∈ warmedHostManifests) in
              if bool_decide (digest ∈ seenManifests) && warmed then ok tt
              else
                child ←! warmManifestRequest repository digest digest false;
                if warmed then ok tt
                else warmManifestGraph fuel repository (child.1.1.1) architecture (digest :: seenManifests) (digest :: warmedHostManifests)
          end
      end
  end.

(** ** One reference *)

Definition target_of (parsed : warmReference) (architecture : string) : CacheTarget :=
  mkTarget (wr_repository parsed) (if isDigestReference (wr_listedRef parsed) then "" else wr_listedRef parsed) (wr_pinnedDigest parsed)
    (mkPlatform "linux" architecture).

Definition with_target_digest (digest : string) (t : CacheTarget) : CacheTarget := mkTarget (ct_Repository t) (ct_Tag t) digest (ct_Platform t).

Definition no_metadata : manifestMetadata := mkMetadata "" 0 "" "" "".

(** An error with the outcome of the reference *)
Definition orelse {E A} (m : M (result E A)) (outcome : WarmOutcome) (f : E -> warm_error) : M (result (WarmOutcome * warm_error) A) :=
  r ← m; mret (match r with Ok a => Ok a | Err e => Err (outcome, f e) end).

(** From the manifest of the listed reference on: what it names, and then its publication,
    the tag last *)
Definition warm_fetched (fuel : nat) (reference architecture : string) (target : CacheTarget) (before : CacheStatus)
    (body digest : string) (staged : option stagedManifest) : M (result (WarmOutcome * warm_error) WarmResult) :=
  let failed := failedWarmResult before in
  let repository := ct_Repository target in
  _ ←! orelse (warmManifestGraph fuel repository body architecture [digest] []) failed id;
  if String.eqb body "" then fail (failed, NoManifest)
  else
    let metadata := with_digest digest (match staged with Some st => sm_metadata st | None => no_metadata end) in
    _ ←! orelse acquire failed id;
    _ ←! orelse (storeManifest env fault (manifestRequestPath repository digest) metadata body) failed NotPublished;
    digestStatus ← Inspect (mkTarget repository "" digest (ct_Platform target)) false;
    if negb (Complete digestStatus) then fail (failed, Incomplete digestStatus)
    else
      let tagged := negb (String.eqb (ct_Tag target) "") in
      _ ←! (if tagged then orelse (storeManifest env fault (manifestRequestPath repository (ct_Tag target)) metadata body) failed NotPublished else ok tt);
      status ← Inspect (with_target_digest digest target) false;
      if negb (Complete status) then fail (failed, Incomplete status)
      else
        let already := Complete before && String.eqb (cs_RootDigest before) digest in
        ok (mkResult reference already (if already then AlreadyComplete else Warmed) None tagged None).

Definition complete_result (reference : string) (warning : option Z) : WarmResult := mkResult reference true AlreadyComplete warning false None.

(** [warmOne] on the cache of the registry; the manager always has a server for it. *)
Definition warm_parsed (fuel : nat) (reference architecture : string) (Refresh : bool) (parsed : warmReference) :
    M (result (WarmOutcome * warm_error) WarmResult) :=
  let target := target_of parsed architecture in
  before ← Inspect target false;
  let refresh := Refresh && negb (String.eqb (ct_Tag target) "") && String.eqb (wr_pinnedDigest parsed) "" in
  if Complete before && negb refresh then ok (complete_result reference None)
  else
    let pinned := negb (String.eqb (wr_pinnedDigest parsed) "") in
    let requestReference := if pinned then wr_pinnedDigest parsed else wr_listedRef parsed in
    r ← warmManifestRequest (wr_repository parsed) requestReference requestReference true;
    match r with
    | Err e =>
        if Complete before && refresh && isTransientWarmError e then ok (complete_result reference (Some (refreshWarning e)))
        else fail (failedWarmResult before, e)
    | Ok (body, digest, _, staged) =>
        if refresh && match staged with None => true | Some _ => false end then ok (complete_result reference (Some 0))
        else if pinned && negb (String.eqb digest (wr_pinnedDigest parsed)) then fail (failedWarmResult before, WrongDigest digest (wr_pinnedDigest parsed))
        else warm_fetched fuel reference architecture target before body digest staged
    end.

Definition warmOne (fuel : nat) (reference architecture : string) (Refresh : bool) : M (result (WarmOutcome * warm_error) WarmResult) :=
  match parseWarmReference reference with
  | Err e => fail (FailedMissing, e)
  | Ok parsed =>
      locked ← (if isDigestReference (wr_listedRef parsed) then ok tt else acquire);
      match locked with
      | Err e => fail (FailedMissing, e)
      | Ok _ =>
          match parseUpstreamAuthority (wr_upstream parsed) with
          | Err e => fail (FailedMissing, BadRegistry e)
          | Ok _ => warm_parsed fuel reference architecture Refresh parsed
          end
      end
  end.

Lemma warmManifestGraph_step fuel repository body architecture seen warmed : warmManifestGraph (S fuel) repository body architecture seen warmed =
  match analyzeWarmManifest body with
  | Err e => fail e
  | Ok (AnImage blobs) => download repository blobs
  | Ok (AnIndex children) =>
      match selectPlatformDescriptor children (mkPlatform "linux" architecture) with
      | None => fail NoPlatformManifest
      | Some child =>
          let digest := d_Digest child in
          if bool_decide (digest ∈ seen) && bool_decide (digest ∈ warmed) then ok tt
          else
            child ←! warmManifestRequest repository digest digest false;
            if bool_decide (digest ∈ warmed) then ok tt
            else warmManifestGraph fuel repository (child.1.1.1) architecture (digest :: seen) (digest :: warmed)
      end
  end.
Proof. reflexivity. Qed.

(** More fuel changes nothing where the walk came to an end. *)
Lemma warmManifestGraph_more fuel repository body architecture seen warmed w :
  (warmManifestGraph fuel repository body architecture seen warmed w).2 <> Err TooNested ->
  warmManifestGraph (S fuel) repository body architecture seen warmed w = warmManifestGraph fuel repository body architecture seen warmed w.
Proof.
  revert body seen warmed w. induction fuel as [|fuel IH]; intros body seen warmed w; [done|].
  rewrite (warmManifestGraph_step (S fuel)), (warmManifestGraph_step fuel).
  destruct (analyzeWarmManifest body) as [[children|blobs]|]; [|done..]. destruct (selectPlatformDescriptor _ _) as [child|]; [|done]. cbv zeta.
  destruct (_ && _); [done|]. unfold try_bind, mbind, State_bind. destruct (warmManifestRequest _ _ _ _ w) as [w1 [x|]]; [|done].
  destruct (bool_decide _); [done|]. apply IH.
Qed.

(** ** The target of an inspection

    The digest of a target with a tag only adds a check; the record of the target in a
    status does not matter. *)

Section Retarget.
Context (T : CacheTarget).

Definition aim (s : CacheStatus) : CacheStatus := mkStatus T (cs_RootDigest s) (cs_ManifestData s) (cs_Gaps s) (cs_layerTotal s).

Definition mapped {A B} (f : A -> B) (m : M A) (w : Cache) : Cache * B := let '(w', a) := m w in (w', f a).

(** The same steps, and then the value changes by [f] *)
Definition follows {A B} (f : A -> B) (m : M A) (m' : M B) : Prop := forall w, m' w = mapped f m w.

Lemma follows_bind {A B X Y} (f : A -> B) (g : X -> Y) (m : M X) (m' : M Y) (k : X -> M A) (k' : Y -> M B) :
  follows g m m' -> (forall x, follows f (k x) (k' (g x))) -> follows f (m ≫= k) (m' ≫= k').
Proof.
  intros Hm Hk w. unfold mapped, mbind, State_bind. rewrite (Hm w). unfold mapped. destruct (m w) as [w1 x]. rewrite (Hk x w1). done.
Qed.

Lemma follows_same {A} (m : M A) : follows id m m.
Proof. intros w. unfold mapped. by destruct (m w). Qed.

Lemma follows_ret {A B} (f : A -> B) a b : b = f a -> follows f (mret a) (mret b).
Proof. by intros -> w. Qed.

Ltac follow :=
  match goal with
  | |- follows _ (mret _) (mret _) => by apply follows_ret
  | |- follows _ (ok _) (ok _) => by apply follows_ret
  | |- follows _ (fail _) (fail _) => by apply follows_ret
  | |- follows _ (match ?x with _ => _ end) (match ?x with _ => _ end) => destruct x
  | |- follows _ (?m ≫= _) (?m ≫= _) => apply (follows_bind _ id); [apply follows_same|intros ?; unfold id]
  end.

Lemma blob_aimed kind digest deep s : follows aim (inspectBlob env fault canceled kind digest deep s) (inspectBlob env fault canceled kind digest deep (aim s)).
Proof. unfold inspectBlob. repeat follow. Qed.

Lemma layers_aimed layers deep s : follows aim (inspect_layers env fault canceled layers deep s) (inspect_layers env fault canceled layers deep (aim s)).
Proof.
  revert s. induction layers as [|l ls IH]; intros s; cbn [inspect_layers]; [follow|]. apply (follows_bind _ aim); [apply blob_aimed|apply IH].
Qed.

Lemma blobs_aimed graph deep s : follows aim (inspectBlobs env fault canceled graph deep s) (inspectBlobs env fault canceled graph deep (aim s)).
Proof.
  unfold inspectBlobs. apply (follows_bind _ aim); [destruct (String.eqb _ ""); [follow|apply blob_aimed]|]. intros s1.
  exact (layers_aimed _ _ (with_layers _ s1)).
Qed.

Definition aim_walk (r : result CacheStatus (cachedGraph * CacheStatus)) : result CacheStatus (cachedGraph * CacheStatus) :=
  match r with Ok (graph, s) => Ok (graph, aim s) | Err s => Err (aim s) end.

Context (target : CacheTarget) (same_repository : ct_Repository T = ct_Repository target) (same_platform : ct_Platform T = ct_Platform target).

Lemma walk_aimed levels selected visited s :
  follows aim_walk (inspectSelectedManifest env fault levels target selected visited s) (inspectSelectedManifest env fault levels T selected visited (aim s)).
Proof.
  revert selected visited s. induction levels as [|levels IH]; intros selected visited s; cbn [inspectSelectedManifest]; [follow|].
  rewrite same_repository, same_platform. repeat (follow || apply IH).
Qed.

Lemma root_aimed digest deep s :
  follows aim (inspect_root env fault canceled target digest deep s) (inspect_root env fault canceled T digest deep (aim s)).
Proof.
  unfold inspect_root. rewrite same_repository, same_platform. destruct (checkedSupportedDigest digest); [|follow].
  follow. destruct x as [[root p]|]; [|follow]. destruct (verifySupportedDigest root digest); [|follow].
  destruct (decodeManifestGraph root) as [manifest|]; [|follow]. destruct (selectPlatformDescriptor _ _) as [selected|].
  - apply (follows_bind _ aim_walk); [apply (walk_aimed _ _ _ (with_manifest root (with_root digest s)))|]. intros [[graph s1]|s1]; [apply blobs_aimed|by apply follows_ret].
  - destruct (isManifestIndex manifest); [by apply follows_ret|apply (blobs_aimed _ _ (with_manifest root (with_root digest s)))].
Qed.
End Retarget.

Lemma gap_never gap s : Complete (add_gap gap s) = true -> False.
Proof. by rewrite gap_incomplete. Qed.

(** A tag that is complete for a digest is complete. *)
Lemma inspect_without_digest target w : ct_Tag target <> "" ->
  Complete (Inspect target false w).2 = true ->
  Complete (Inspect (with_target_digest "" target) false w).2 = true /\ (Inspect (with_target_digest "" target) false w).1 = (Inspect target false w).1.
Proof.
  intros Ht. unfold InspectCached, mbind, State_bind. cbn [ct_Tag ct_Digest ct_Repository with_target_digest].
  destruct (ctx_err canceled w) as [w1 over]. destruct over; [done|]. destruct (String.eqb_spec (ct_Tag target) ""); [done|].
  destruct (checkedCachedManifest _ _ _ w1) as [w2 [[data p]|]]; [|done].
  destruct (checkedCachedManifestMetadataAtPath _ _ _ _ _ w2) as [w3 metadata].
  destruct (verifySupportedDigest data _) as [d|]; [|done]. cbn [String.eqb negb andb].
  destruct (negb (String.eqb (ct_Digest target) "") && _); [intros Hc; by destruct (gap_never _ _ Hc)|].
  destruct (decodeManifestGraph data); [|intros Hc; by destruct (gap_never _ _ Hc)].
  pose proof (root_aimed (with_target_digest "" target) target eq_refl eq_refl d false (mkStatus target "" "" [] 0) w3) as E.
  change (aim _ (mkStatus target "" "" [] 0)) with (mkStatus (with_target_digest "" target) "" "" [] 0) in E. rewrite E. unfold mapped.
  destruct (inspect_root _ _ _ target d false _ w3) as [w4 st]. intros Hc. by split.
Qed.

(** ** Success is the answer of an inspection *)

Lemma post_skip {E A B} w (m : M (result E A)) (k : A -> M (result E B)) (Q : Cache -> result E B -> Prop) :
  (forall w' a, runs w' (k a) Q) -> (forall w' e, Q w' (Err e)) -> runs w (try_bind m k) Q.
Proof. intros Hk He. apply post_try. unfold runs at 1. destruct (m w) as [w' [a|e]]; [apply Hk|apply He]. Qed.

(** A reference whose manifest was fetched ends with the inspection of its target. *)
Lemma warm_fetched_inspected fuel reference architecture target before body digest staged w :
  runs w (warm_fetched fuel reference architecture target before body digest staged) (fun w' r =>
    match r with
    | Ok _ => exists w1, (Inspect (with_target_digest digest target) false w1).1 = w' /\ Complete (Inspect (with_target_digest digest target) false w1).2 = true
    | Err _ => True
    end).
Proof.
  unfold warm_fetched. apply post_skip; [intros w1 _|done]. destruct (String.eqb body ""); [done|].
  apply post_skip; [intros w2 _|done]. apply post_skip; [intros w3 _|done]. apply post_bind. unfold runs at 1. destruct (Inspect _ false w3) as [w4 st].
  cbn [fst snd]. destruct (negb (Complete st)); [done|]. apply post_skip; [intros w5 _|done]. apply post_bind. unfold runs at 1.
  destruct (Inspect (with_target_digest digest target) false w5) as [w6 status] eqn:E. cbn [fst snd].
  destruct (Complete status) eqn:Hc; cbn [negb]; [|done]. apply post_ret. exists w5. by rewrite E.
Qed.

(** ** Quiet runs

    Nothing else touches the cache and calls work; the upstream, the resolver and the switch
    to offline do as they like. *)

Section Quiet.
Context (quiet_env : forall t fs, env t fs = fs) (quiet_fault : forall t, fault t = false) (live : forall t, canceled t = false).

Section Files.
Context (fs : gmap path inode).

(** The files stay, and the value is as [Q] says. *)
Definition ends {A} (m : M A) (Q : A -> Prop) : Prop := forall t, runs (mkCache fs t) m (fun w' a => files w' = fs /\ Q a).

Lemma ends_seq {A B} (m : M A) (k : A -> M B) P Q : ends m P -> (forall a, P a -> ends (k a) Q) -> ends (m ≫= k) Q.
Proof.
  intros Hm Hk t. apply post_bind. eapply post_conseq; [apply Hm|]. intros [fs' t'] a [Ef HP]. cbn in Ef. subst fs'. by apply Hk.
Qed.

Lemma ends_ret {A} (a : A) (Q : A -> Prop) : Q a -> ends (mret a) Q.
Proof. intros HQ t. by apply post_ret. Qed.

Lemma ends_yields {A} (m : M A) a : yields fs m a -> ends m (fun b => b = a).
Proof. intros Hy t. unfold runs. destruct (Hy t) as [t' ->]. done. Qed.

Lemma ends_any {A} (m : M A) Q : ends m Q -> ends m any.
Proof. intros Hm t. eapply post_conseq; [apply Hm|]. by intros w' a [? _]. Qed.

Lemma ends_look schedule : ends (look schedule) any.
Proof. by intros t. Qed.

Lemma ends_ask {A} (answer : nat -> A) : ends (ask env answer) any.
Proof. intros t. split; [|done]. apply quiet_env. Qed.

(** ** A tag is asked for again *)
Context (repository tag : string).
Context (named : repository <> "" /\ all_chars is_dot repository = true).
Context (tagged : tag <> "" /\ no_slash tag = true /\ all_chars is_dot tag = true /\ isDigestReference tag = false).
Context (status : CacheStatus) (inspected : yields fs (Inspect (tag_target hostArch repository tag) false) status).

Definition tag_again (validation : string) : Request := mkRequest GET (manifestRequestPath repository tag) true (Some validation) true false.

Section Tag.
Context (validation : string).
Abbreviation r := (tag_again validation).

Lemma tag_again_path : is_manifest r = true /\ isDigestReference (manifestReference (rq_Path r)) = false /\ blob_match (rq_Path r) = None.
Proof.
  destruct (tag_request repository named tag tagged) as [Hm Hb]. destruct tagged as (_ & _ & _ & Hd).
  unfold is_manifest, manifestReference. cbn [rq_Path tag_again]. rewrite Hm, Hd, Hb. split_and!; [by apply bool_decide_eq_true_2|done..].
Qed.

Lemma tag_again_status : yields fs (cachedTagStatus env fault canceled hostArch r) status.
Proof.
  unfold cachedTagStatus. destruct (tag_request repository named tag tagged) as [Hm _]. destruct tagged as (_ & _ & _ & Hd).
  cbn [rq_Path tag_again]. by rewrite Hm, Hd.
Qed.

(** The cache answers only where the image is complete. *)
Lemma tag_replayed : ends (replayCache env fault offline canceled hostArch r) (fun x => forall resp, x = Served resp -> Complete status = true).
Proof.
  destruct tag_again_path as (Hm & Hd & Hb). unfold replayCache. rewrite Hb.
  apply (ends_seq _ _ (fun x => x = None)); [by apply ends_ret|]. intros ? ->. unfold replay_manifest. rewrite Hm, Hd. cbn [negb rq_Refresh tag_again].
  eapply ends_seq; [apply ends_look|]. intros off _. cbv beta. destruct (true && negb off); [by apply ends_ret|].
  eapply ends_seq; [apply ends_look|]. intros off' _. cbv beta. destruct (negb off'); [by apply ends_ret|].
  eapply ends_seq; [apply ends_yields, tag_again_status|]. intros ? ->. destruct (Complete status) eqn:Hc; [|by apply ends_ret]. cbn [negb].
  apply (ends_seq _ _ any); [|intros served _; apply ends_ret; by intros].
  unfold serveCachedManifest. destruct (steady_checked env fault quiet_env quiet_fault fs (rq_Path r)) as [c Hcache].
  eapply ends_seq; [by apply ends_yields|]. intros ? ->. destruct c as [[data p]|]; [|by apply ends_ret].
  destruct (steady_metadata env fault quiet_env quiet_fault fs (rq_Path r) p data) as [metadata Hmeta].
  eapply ends_seq; [by apply ends_yields|]. intros ? ->. by apply ends_ret.
Qed.

Lemma tag_from_cache : ends (serveCacheIfAvailable env fault offline canceled hostArch r) (fun x => forall resp, x = Served resp -> Complete status = true).
Proof.
  unfold serveCacheIfAvailable. eapply ends_seq; [apply tag_replayed|]. intros x Hx. destruct x as [resp| |]; [by apply ends_ret|..];
    (eapply ends_seq; [apply ends_look|]); intros off _; cbv beta; (destruct (_ && _); [|by apply ends_ret]);
    (eapply ends_seq; [apply ends_yields, tag_again_status|]); intros ? ->; apply ends_ret; cbv beta iota; [by destruct (cacheStatusCorrupted status)|done].
Qed.

(** What the answer to [r] may be: content that was staged, content of a complete image, or
    an error *)
Definition tag_answer (x : Response * option stagedManifest) : Prop := x.2 = None -> r_status x.1 = 200 -> Complete status = true.

Lemma tag_from_cache_or k : ends k tag_answer -> ends (from_cache_or env fault offline canceled hostArch r k) tag_answer.
Proof.
  intros Hk. unfold from_cache_or. eapply ends_seq; [apply tag_from_cache|]. intros [resp| |] Hx.
  - apply ends_ret. intros _ _. by eapply Hx.
  - eapply ends_seq; [apply ends_look|]. intros [|] _; [|done]. apply ends_ret. by intros _ ?.
  - apply ends_ret. by intros _ ?.
Qed.

Lemma tag_fetched stale u : Complete stale = false -> ends (answer env fault r stale u) tag_answer.
Proof.
  intros Hc. destruct tag_again_path as (Hm & _ & Hb). unfold answer. rewrite Hc, Hb, Hm. cbn [andb is_get rq_Method tag_again].
  destruct (Z.eqb_spec (u_status u) 200) as [E|E]; [|apply ends_ret; by intros _ ?]. unfold answer_manifest.
  destruct (validateManifest u _ _) as [[data metadata]|[]]; apply ends_ret; by intros ? ?.
Qed.

Lemma tag_served : ends (Serve r) tag_answer.
Proof.
  destruct tag_again_path as (Hm & Hd & Hb). unfold ServeHTTP. cbn [rq_Method rq_Path tag_again].
  rewrite (manifest_path_not_ping repository tag) by apply (tag_request repository named tag tagged).
  apply tag_from_cache_or. apply (ends_seq _ _ (fun s => Complete s = false)).
  { unfold staleCandidate. eapply ends_seq; [apply ends_look|]. intros off _. cbv beta. rewrite orb_true_r. by apply ends_ret. }
  intros stale Hc. apply (ends_seq _ _ any); [unfold validateUpstream; destruct vet; [apply ends_ask|by apply ends_ret]|]. intros [e|] _.
  - rewrite Hc. cbn [andb]. apply (ends_seq _ _ (fun x => x = None)); [by apply ends_ret|]. intros ? ->. apply ends_ret. by destruct e.
  - apply tag_from_cache_or. apply (ends_seq _ _ any); [apply ends_ask|]. intros [u|] _; [by apply tag_fetched|].
    unfold fetch_failed. rewrite Hc. apply (ends_seq _ _ (fun x => r_status x = 502)); [|intros resp Hr; apply ends_ret; intros _ H200; cbn in H200; congruence].
    apply (ends_seq _ _ (fun x => x = None)); [by apply ends_ret|]. intros ? ->. apply (ends_seq _ _ (fun x => x = Missed)); [|intros ? ->; by apply ends_ret].
    unfold serveManifestCacheOnFetchFailure. rewrite Hm, Hd. by apply ends_ret.
Qed.

(** A tag that is fetched again without a manifest being staged was complete; the files
    stay. *)
Lemma tag_requested : ends (warmManifestRequest repository tag validation true) (fun r =>
  match r with Ok (_, _, _, None) => Complete status = true | _ => True end).
Proof.
  unfold warmManifestRequest. fold (tag_again validation). apply (ends_seq _ _ any).
  { unfold manifestCached. destruct (steady_checked env fault quiet_env quiet_fault fs (manifestRequestPath repository tag)) as [c Hcache].
    eapply ends_seq; [by apply ends_yields|]. intros ? ->. by apply ends_ret. }
  intros cachedBefore _. eapply ends_seq; [apply tag_served|]. intros [resp st] Hx. unfold tag_answer in Hx. cbn [fst snd] in Hx.
  destruct (Z.eqb_spec (r_status resp) 200) as [H200|_]; [apply ends_ret; destruct st; auto|].
  destruct (r_status resp =? 409); by apply ends_ret.
Qed.
End Tag.
End Files.

(** Inspecting leaves the files alone and sees the same again. *)
Lemma inspect_again target w t :
  (Inspect target false w).2 = (Inspect target false (mkCache (files w) t)).2 /\ files (Inspect target false w).1 = files w.
Proof.
  destruct w as [fs t0]. cbn [files]. destruct (steady_inspect env fault canceled quiet_env quiet_fault live fs target false) as [status Hs].
  destruct (Hs t0) as [t1 ->], (Hs t) as [t2 ->]. done.
Qed.

Section Reference.
Context (parsed : warmReference) (tag : string).
Abbreviation repository := (wr_repository parsed).
Context (listed : wr_listedRef parsed = tag).
Context (named : repository <> "" /\ all_chars is_dot repository = true).
Context (tagged : tag <> "" /\ no_slash tag = true /\ all_chars is_dot tag = true /\ isDigestReference tag = false).
Abbreviation target := (target_of parsed hostArch).

Lemma target_tag : target = mkTarget repository tag (wr_pinnedDigest parsed) (mkPlatform "linux" hostArch).
Proof. unfold target_of. rewrite listed. by destruct tagged as (_ & _ & _ & ->). Qed.

(** The files of [w'] hold the image, of the pinned digest where there is one. *)
Definition settled (w' : Cache) : Prop := exists d w1, (wr_pinnedDigest parsed <> "" -> d = wr_pinnedDigest parsed) /\
  files w1 = files w' /\ Complete (Inspect (with_target_digest d target) false w1).2 = true.
Definition success_settled (w' : Cache) (r : result (WarmOutcome * warm_error) WarmResult) : Prop :=
  match r with Ok _ => settled w' | Err _ => True end.

Lemma fetched_settled fuel reference before body digest staged w : (wr_pinnedDigest parsed <> "" -> digest = wr_pinnedDigest parsed) ->
  runs w (warm_fetched fuel reference hostArch target before body digest staged) success_settled.
Proof.
  intros Hd. eapply post_conseq; [apply warm_fetched_inspected|]. intros w' [result|]; [|done]. intros (w1 & E & Hc).
  exists digest, w1. split; [done|]. split; [|done]. rewrite <- E. symmetry. apply (inspect_again _ w1 0).
Qed.

Lemma before_settled w : Complete (Inspect target false w).2 = true -> settled (Inspect target false w).1.
Proof. intros Hc. exists (wr_pinnedDigest parsed), w. split; [done|]. split; [symmetry; apply (inspect_again target w 0)|done]. Qed.

(** A tag that is asked for again, with a manifest or without *)
Lemma refresh_settled fuel reference w : wr_pinnedDigest parsed = "" ->
  let before := (Inspect target false w).2 in
  runs (Inspect target false w).1 (warmManifestRequest repository tag tag true) (fun w' r =>
    match r with
    | Err _ => Complete before = true -> settled w'
    | Ok (body, digest, _, None) => settled w'
    | Ok (body, digest, _, Some staged) => runs w' (warm_fetched fuel reference hostArch target before body digest (Some staged)) success_settled
    end).
Proof.
  intros Hp before. destruct (inspect_again target w 0) as [_ Hf]. pose proof (before_settled w) as Hb. fold before in Hb.
  assert (target = tag_target hostArch repository tag) as Ht by by rewrite target_tag, Hp.
  destruct (Inspect target false w) as [[fs t1] b] eqn:Eb. cbn [fst snd files] in *. subst fs.
  destruct (steady_inspect env fault canceled quiet_env quiet_fault live (files w) (tag_target hostArch repository tag) false) as [status Hs].
  assert (before = status) as Hbs.
  { destruct w as [fs t]. destruct (Hs t) as [t' E]. cbn [files] in E. rewrite <- Ht, Eb in E. by injection E. }
  assert (forall w', files w' = files w -> Complete before = true -> settled w') as Hdone.
  { intros w' Ew Hc. destruct (Hb Hc) as (d & w1 & Hd & Ef & Hc1). exists d, w1. by rewrite Ew. }
  eapply post_conseq; [apply (tag_requested (files w) repository tag named tagged status Hs tag)|]. rewrite <- Hbs. intros w' r [Ef Hq].
  destruct r as [[[[body digest] cb] [st|]]|e]; [by apply fetched_settled; rewrite Hp|by apply Hdone..].
Qed.

(** A reference that is not refused is complete in the cache. *)
Lemma warm_parsed_settled fuel reference Refresh w : runs w (warm_parsed fuel reference hostArch Refresh parsed) success_settled.
Proof.
  unfold warm_parsed. apply post_bind. pose proof (before_settled w) as Hb. pose proof (refresh_settled fuel reference w) as Hr. unfold runs at 1.
  destruct (Inspect target false w) as [w1 before]. cbn [fst snd] in *. set (refresh := Refresh && _ && _).
  destruct (Complete before && negb refresh) eqn:E; [apply andb_true_iff in E as [Hc _]; by apply post_ret, Hb|].
  apply post_bind. destruct refresh eqn:Er; subst refresh.
  - apply andb_true_iff in Er as [_ Hp%String.eqb_eq]. rewrite Hp, listed. cbn [String.eqb negb andb]. eapply post_conseq; [by apply Hr|].
    intros w2 [[[[body digest] cb] [st|]]|e] H2; [done|by apply post_ret|]. rewrite andb_true_r.
    destruct (Complete before) eqn:Hc; cbn [andb]; [|done]. destruct (isTransientWarmError e); [|done]. by apply post_ret, H2.
  - unfold runs at 1. destruct (warmManifestRequest _ _ _ _ w1) as [w2 [[[[body digest] cb] st]|e]]; cbn [fst snd andb]; [|by rewrite andb_false_r].
    destruct (negb (String.eqb (wr_pinnedDigest parsed) "") && _) eqn:Ep; [done|]. apply fetched_settled. intros Hn.
    apply String.eqb_neq in Hn. rewrite Hn in Ep. cbn [negb andb] in Ep. by apply negb_false_iff, String.eqb_eq in Ep.
Qed.

Lemma warmOne_settled fuel reference Refresh w : parseWarmReference reference = Ok parsed ->
  runs w (warmOne fuel reference hostArch Refresh) success_settled.
Proof.
  intros Hp. unfold warmOne. rewrite Hp. apply post_bind.
  match goal with |- runs w ?lock _ => unfold runs at 1; destruct (lock w) as [w1 [[]|e]]; [|done] end.
  destruct (parseUpstreamAuthority _); [|done]. apply warm_parsed_settled.
Qed.

(** A complete target with a digest has a tag of that digest. *)
Lemma complete_pinned d w data p : d <> "" -> Complete (Inspect (with_target_digest d target) false w).2 = true ->
  yields (files w) (checkedCachedManifest env fault (manifestRequestPath repository tag)) (Ok (data, p)) -> verifies data d.
Proof.
  intros Hn Hc Hy. rewrite target_tag in Hc. unfold InspectCached, mbind, State_bind in Hc. cbn [ct_Tag ct_Digest ct_Repository with_target_digest] in Hc.
  destruct w as [fs t]. cbn [files] in Hy. destruct (Hy (S t)) as [t' E]. unfold ctx_err, look in Hc. rewrite live in Hc. cbn [tick files] in Hc.
  destruct (String.eqb_spec tag "") as [|_]; [by destruct tagged|]. rewrite E in Hc. destruct (checkedCachedManifestMetadataAtPath _ _ _ _ _ _) as [w3 metadata].
  destruct (verifySupportedDigest data _) as [mapped|] eqn:Ev; [|by destruct (gap_never _ _ Hc)]. apply String.eqb_neq in Hn. rewrite Hn in Hc. cbn [negb andb] in Hc.
  destruct (String.eqb_spec mapped d) as [->|]; [exists d; by eapply verify_canonical|by destruct (gap_never _ _ Hc)].
Qed.
End Reference.
End Quiet.

End Warming.

(** ** An image that is warmed *)
Module WarmDemo.
Import Mirror.Demo.
#[local] Existing Instance wire.

(** The upstream sends the index, the image, the configuration and the layer in turn. *)
Definition phased (t : nat) (immediate : bool) : option Upstream :=
  sends (if decide (t < 18)%nat then "index" else if decide (t < 30)%nat then "image" else if decide (t < 40)%nat then "config" else "layer") t immediate.

Definition warm (upstream : nat -> bool -> option Upstream) (offline : nat -> bool) (architecture : string) (Refresh : bool) (w : Cache) :=
  warmOne still never offline never "arm64" None upstream never 5 "docker.io/app:1.0" architecture Refresh w.

Definition warmed : Cache := (warm phased never "arm64" false empty).1.

Definition pull (p : string) : Response := (ServeHTTP still never (fun _ => true) never "arm64" None phased (guest GET p) warmed).2.1.


Lemma reference_roundtrip_witness :
  parseWarmReference (write_reference "localhost:5000" "org/app" "1.0" None) = Ok (mkReference "localhost:5000" "org/app" "1.0" "").
Proof. apply (reference_roundtrip "localhost:5000" "org/app" "1.0" None); done. Defined.

(** Asked for again while the mirror is offline, a tag that is complete for the daemon's own
    architecture counts as complete for another one too. *)
Example foreign_architecture_unchecked :
  (warm (sends "") always "amd64" true pulled).2 = Ok (mkResult "docker.io/app:1.0" true AlreadyComplete (Some 0) false None) /\
  Complete (InspectCached still never never (mkTarget "app" "1.0" "" (mkPlatform "linux" "amd64")) false pulled).2 = false.
Proof. vm_compute. done. Qed.
End WarmDemo.
