(* ===== verification/Qemu.v ===== *)
(** * The QEMU command line ([internal/hypervisor]: qemu_config.go, qemu_probe.go)

    The arguments a guest is started with, what a launch must satisfy first, the firmware
    and the variables of a guest, and the versions of QEMU that are accepted. *)

From stdpp Require Import base list gmap strings.
From Stdlib Require Import Ascii ZArith Lia.
From S2P Require Import Prelude GoStrings GoNet Effects Digest.

Local Open Scope Z_scope.
Local Open Scope effect_scope.

(** ** Versions *)

Record qemuVersion := mkVersion { Major : Z; Minor : Z; Patch : Z }.

Definition compareInt (left right : Z) : Z := if left <? right then -1 else if right <? left then 1 else 0.

Definition Compare (v other : qemuVersion) : Z :=
  if negb (Major v =? Major other) then compareInt (Major v) (Major other)
  else if negb (Minor v =? Minor other) then compareInt (Minor v) (Minor other)
  else compareInt (Patch v) (Patch other).

Definition qemuMinimumVersion : qemuVersion := mkVersion 6 2 0.
Definition qemuSuspendVersion : qemuVersion := mkVersion 8 2 0.

Record qemuProbe := mkProbe { p_Version : qemuVersion; p_Machines : list string; p_MachineAliases : list string }.

Inductive qemu_error :=
| Unsupported
| MachineRequired | AcceleratorRequired | CPURequired | CPUsRequired | MemoryRequired
| NegativeFD | FirmwareRequired | BadMAC | PathRequired | PathHasNUL | PathHasLineBreak | NegativeOffset
| IOFailed.

Definition validateQEMUProbe (probe : qemuProbe) (requiredMachine : string) : result qemu_error unit :=
  if Compare (p_Version probe) qemuMinimumVersion <? 0 then Err Unsupported
  else if existsb (String.eqb requiredMachine) (p_Machines probe) then Ok tt
  else if existsb (String.eqb requiredMachine) (p_MachineAliases probe) then Ok tt
  else Err Unsupported.

Record Capabilities := mkCapabilities { cap_BalloonReadback : bool; cap_GuestAgent : bool; cap_Suspend : bool; cap_SurvivesRestart : bool }.

Definition qemuCapabilities (version : qemuVersion) : Capabilities :=
  let suspends := 0 <=? Compare version qemuSuspendVersion in mkCapabilities true true suspends suspends.

(** ** A launch *)

Inductive Architecture := AMD64 | ARM64 | OtherArchitecture (name : string).
Inductive AttachmentKind := TapFD | DatagramFD | OtherAttachment (kind : string).

Record qemuSystem := mkSystem { sys_Binary : string; sys_Machine : string }.

Definition qemuSystemForArchitecture (arch : Architecture) : result qemu_error qemuSystem :=
  match arch with
  | AMD64 => Ok (mkSystem "qemu-system-x86_64" "q35")
  | ARM64 => Ok (mkSystem "qemu-system-aarch64" "virt")
  | OtherArchitecture _ => Err Unsupported
  end.

Record qemuFirmware := mkFirmware { CodePath : string; VarsPath : string }.

Record qemuLaunchConfig := mkLaunch {
  l_Architecture : Architecture;
  l_Machine : string;
  l_Accelerator : string;
  l_CPU : string;
  l_CPUs : Z;
  l_MemoryMiB : Z;
  l_DiskPath : string;
  l_MAC : string;
  l_NetworkKind : AttachmentKind;
  l_NetworkFD : Z;
  l_ConsoleFD : Z;
  l_GuestAgentFD : Z;
  l_DisableBalloon : bool;
  l_QMPSocketPath : string;
  l_Firmware : qemuFirmware;
  l_IncomingPath : string;
  l_IncomingOffset : Z
}.

Fixpoint string_has (P : ascii -> bool) (s : string) : bool :=
  match s with EmptyString => false | String c s => P c || string_has P s end.

Definition validateQEMUPath (path : string) : result qemu_error unit :=
  if String.eqb path "" then Err PathRequired
  else if string_has (Ascii.eqb "000"%char) path then Err PathHasNUL
  else if string_has (fun c => Ascii.eqb c "013"%char || Ascii.eqb c "010"%char) path then Err PathHasLineBreak
  else Ok tt.

Definition validateQEMULaunchConfig (cfg : qemuLaunchConfig) : result qemu_error unit :=
  if String.eqb (l_Machine cfg) "" then Err MachineRequired
  else if String.eqb (l_Accelerator cfg) "" then Err AcceleratorRequired
  else if String.eqb (l_CPU cfg) "" then Err CPURequired
  else if l_CPUs cfg <=? 0 then Err CPUsRequired
  else if l_MemoryMiB cfg <=? 0 then Err MemoryRequired
  else if l_NetworkFD cfg <? 0 then Err NegativeFD
  else if l_ConsoleFD cfg <? 0 then Err NegativeFD
  else if l_GuestAgentFD cfg <? 0 then Err NegativeFD
  else if String.eqb (CodePath (l_Firmware cfg)) "" then Err FirmwareRequired
  else if String.eqb (VarsPath (l_Firmware cfg)) "" then Err FirmwareRequired
  else match l_NetworkKind cfg with
  | OtherAttachment _ => Err Unsupported
  | _ =>
      match parse_mac (l_MAC cfg) with
      | None => Err BadMAC
      | Some _ =>
          _ ← validateQEMUPath (l_DiskPath cfg);
          _ ← validateQEMUPath (l_QMPSocketPath cfg);
          _ ← validateQEMUPath (CodePath (l_Firmware cfg));
          _ ← validateQEMUPath (VarsPath (l_Firmware cfg));
          if String.eqb (l_IncomingPath cfg) "" then Ok tt
          else
            _ ← validateQEMUPath (l_IncomingPath cfg);
            if l_IncomingOffset cfg <? 0 then Err NegativeOffset else Ok tt
      end
  end.

Definition qemuOption (parts : list string) : string := join "," parts.

(** [strings.ReplaceAll(value, comma, two commas)] *)
Fixpoint qemuOptionValue (value : string) : string :=
  match value with
  | EmptyString => EmptyString
  | String c rest => if Ascii.eqb c ","%char then String c (String c (qemuOptionValue rest)) else String c (qemuOptionValue rest)
  end.

Definition guestAgentPortName : string := "org.qemu.guest_agent.0".
Definition qemuIncomingOffset : Z := 2 ^ 20.

Definition balloon_args (cfg : qemuLaunchConfig) : list string :=
  if l_DisableBalloon cfg then [] else ["-device"; qemuOption ["virtio-balloon-pci"; "deflate-on-oom=on"; "free-page-reporting=on"]].

Definition agent_chardev (cfg : qemuLaunchConfig) : list string :=
  if l_GuestAgentFD cfg =? 0 then []
  else ["-chardev"; qemuOption ["socket"; "id=charqga"; "fd=" +:+ itoa (l_GuestAgentFD cfg); "server=on"; "wait=off"]].

Definition agent_device (cfg : qemuLaunchConfig) : list string :=
  if l_GuestAgentFD cfg =? 0 then [] else ["-device"; qemuOption ["virtserialport"; "chardev=charqga"; "name=" +:+ guestAgentPortName]].

Definition serial_ports (cfg : qemuLaunchConfig) : Z := if l_GuestAgentFD cfg =? 0 then 1 else 2.

Definition incoming_offset (cfg : qemuLaunchConfig) : Z := if l_IncomingOffset cfg =? 0 then qemuIncomingOffset else l_IncomingOffset cfg.

Definition incoming_args (cfg : qemuLaunchConfig) : list string :=
  if String.eqb (l_IncomingPath cfg) "" then []
  else ["-incoming"; "file:" +:+ qemuOptionValue (l_IncomingPath cfg) +:+ ",offset=" +:+ itoa (incoming_offset cfg)].

Definition netdev (cfg : qemuLaunchConfig) : string :=
  match l_NetworkKind cfg with
  | TapFD => qemuOption ["tap"; "id=net0"; "fd=" +:+ itoa (l_NetworkFD cfg)]
  | DatagramFD => qemuOption ["dgram"; "id=net0"; "local.type=fd"; "local.str=" +:+ itoa (l_NetworkFD cfg)]
  | OtherAttachment _ => ""
  end.

Definition base_args (cfg : qemuLaunchConfig) : list string :=
  ["-nodefaults"; "-display"; "none"; "-no-reboot"; "-S";
   "-machine"; l_Machine cfg; "-accel"; l_Accelerator cfg; "-cpu"; l_CPU cfg; "-smp"; itoa (l_CPUs cfg); "-m"; itoa (l_MemoryMiB cfg);
   "-drive"; qemuOption ["if=pflash"; "format=raw"; "unit=0"; "readonly=on"; "file=" +:+ qemuOptionValue (CodePath (l_Firmware cfg))];
   "-drive"; qemuOption ["if=pflash"; "format=raw"; "unit=1"; "file=" +:+ qemuOptionValue (VarsPath (l_Firmware cfg))];
   "-blockdev"; qemuOption ["driver=file"; "node-name=osdisk-file"; "filename=" +:+ qemuOptionValue (l_DiskPath cfg)];
   "-blockdev"; qemuOption ["driver=raw"; "node-name=osdisk"; "file=osdisk-file"];
   "-device"; qemuOption ["virtio-blk-pci"; "drive=osdisk"];
   "-netdev"; netdev cfg;
   "-device"; qemuOption ["virtio-net-pci"; "netdev=net0"; "mac=" +:+ qemuOptionValue (l_MAC cfg)];
   "-object"; qemuOption ["rng-random"; "id=rng0"; "filename=/dev/urandom"];
   "-device"; qemuOption ["virtio-rng-pci"; "rng=rng0"]]%string.

Definition buildQEMUArgv (cfg : qemuLaunchConfig) : result qemu_error (list string) :=
  system ← qemuSystemForArchitecture (l_Architecture cfg);
  _ ← validateQEMULaunchConfig cfg;
  Ok ([sys_Binary system] ++ base_args cfg ++ balloon_args cfg ++
      ["-chardev"; qemuOption ["socket"; "id=charconsole"; "fd=" +:+ itoa (l_ConsoleFD cfg)]]%string ++
      agent_chardev cfg ++
      ["-device"; qemuOption ["virtio-serial-pci"; "id=virtioconsole0"; "max_ports=" +:+ itoa (serial_ports cfg)];
       "-device"; qemuOption ["virtconsole"; "chardev=charconsole"]]%string ++
      agent_device cfg ++
      ["-qmp"; qemuOption ["unix:" +:+ qemuOptionValue (l_QMPSocketPath cfg); "server=on"; "wait=off"]]%string ++
      incoming_args cfg).

(** ** The command line as QEMU reads it

    QEMU separates the parts of an option by commas and takes two commas for one that
    belongs to a value. *)
Fixpoint read_options (s cur : string) : list string :=
  match s with
  | EmptyString => [cur]
  | String c rest =>
      if Ascii.eqb c ","%char then
        match rest with
        | EmptyString => [cur; EmptyString]
        | String d rest' =>
            if Ascii.eqb d ","%char then read_options rest' (cur +:+ ",") else cur :: read_options rest EmptyString
        end
      else read_options rest (cur +:+ String c EmptyString)
  end.

Definition takes_none (flag : string) : bool := existsb (String.eqb flag) ["-nodefaults"; "-no-reboot"; "-S"].
Definition takes_word (flag : string) : bool := existsb (String.eqb flag) ["-display"; "-machine"; "-accel"; "-cpu"; "-smp"; "-m"].

Fixpoint read_argv (args : list string) : list (string * list string) :=
  match args with
  | [] => []
  | flag :: rest =>
      if takes_none flag then (flag, []) :: read_argv rest
      else match rest with
           | [] => [(flag, [])]
           | value :: rest => (flag, if takes_word flag then [value] else read_options value EmptyString) :: read_argv rest
           end
  end.

(** The guest of a launch, every path and number as it is *)
Definition intended (cfg : qemuLaunchConfig) : list (string * list string) :=
  [("-nodefaults", []); ("-display", ["none"]); ("-no-reboot", []); ("-S", []);
   ("-machine", [l_Machine cfg]); ("-accel", [l_Accelerator cfg]); ("-cpu", [l_CPU cfg]);
   ("-smp", [itoa (l_CPUs cfg)]); ("-m", [itoa (l_MemoryMiB cfg)]);
   ("-drive", ["if=pflash"; "format=raw"; "unit=0"; "readonly=on"; "file=" +:+ CodePath (l_Firmware cfg)]);
   ("-drive", ["if=pflash"; "format=raw"; "unit=1"; "file=" +:+ VarsPath (l_Firmware cfg)]);
   ("-blockdev", ["driver=file"; "node-name=osdisk-file"; "filename=" +:+ l_DiskPath cfg]);
   ("-blockdev", ["driver=raw"; "node-name=osdisk"; "file=osdisk-file"]);
   ("-device", ["virtio-blk-pci"; "drive=osdisk"]);
   ("-netdev", match l_NetworkKind cfg with
               | TapFD => ["tap"; "id=net0"; "fd=" +:+ itoa (l_NetworkFD cfg)]
               | _ => ["dgram"; "id=net0"; "local.type=fd"; "local.str=" +:+ itoa (l_NetworkFD cfg)]
               end);
   ("-device", ["virtio-net-pci"; "netdev=net0"; "mac=" +:+ l_MAC cfg]);
   ("-object", ["rng-random"; "id=rng0"; "filename=/dev/urandom"]);
   ("-device", ["virtio-rng-pci"; "rng=rng0"])]%string ++
  (if l_DisableBalloon cfg then [] else [("-device", ["virtio-balloon-pci"; "deflate-on-oom=on"; "free-page-reporting=on"])]) ++
  [("-chardev", ["socket"; "id=charconsole"; "fd=" +:+ itoa (l_ConsoleFD cfg)])]%string ++
  (if l_GuestAgentFD cfg =? 0 then []
   else [("-chardev", ["socket"; "id=charqga"; "fd=" +:+ itoa (l_GuestAgentFD cfg); "server=on"; "wait=off"])]%string) ++
  [("-device", ["virtio-serial-pci"; "id=virtioconsole0"; "max_ports=" +:+ itoa (serial_ports cfg)]);
   ("-device", ["virtconsole"; "chardev=charconsole"])]%string ++
  (if l_GuestAgentFD cfg =? 0 then [] else [("-device", ["virtserialport"; "chardev=charqga"; "name=org.qemu.guest_agent.0"])]) ++
  [("-qmp", ["unix:" +:+ l_QMPSocketPath cfg; "server=on"; "wait=off"])]%string ++
  (if String.eqb (l_IncomingPath cfg) "" then []
   else [("-incoming", ["file:" +:+ l_IncomingPath cfg; "offset=" +:+ itoa (incoming_offset cfg)])]%string).

Lemma read_value v rest cur : read_options (qemuOptionValue v +:+ rest) cur = read_options rest (cur +:+ v).
Proof.
  revert cur. induction v as [|c v IH]; intros cur; [by rewrite string_app_nil_r|]. cbn [qemuOptionValue].
  destruct (Ascii.eqb_spec c ",") as [->|Hc].
  - change (String "," (String "," (qemuOptionValue v)) +:+ rest)%string with (String "," (String "," (qemuOptionValue v +:+ rest))).
    etrans; [apply (IH (cur +:+ ",")%string)|]. by rewrite string_app_assoc.
  - change (String c (qemuOptionValue v) +:+ rest)%string with (String c (qemuOptionValue v +:+ rest)). cbn [read_options].
    apply Ascii.eqb_neq in Hc. rewrite Hc, IH. by rewrite string_app_assoc.
Qed.

Definition starts_plain (s : string) : bool := match s with String c _ => negb (Ascii.eqb c ","%char) | EmptyString => false end.

(** The parts of an option are read back, whatever commas their values have. *)
Lemma read_parts r raws : forallb starts_plain raws = true -> read_options (qemuOption (qemuOptionValue <$> r :: raws)) EmptyString = r :: raws.
Proof.
  revert r. induction raws as [|r2 raws IH]; intros r Hr.
  - change (qemuOption _) with (qemuOptionValue r). by rewrite <- (string_app_nil_r (qemuOptionValue r)), read_value.
  - cbn [forallb] in Hr. apply andb_true_iff in Hr as [H2 Hr]. specialize (IH r2 Hr).
    change (qemuOption (qemuOptionValue <$> r :: r2 :: raws)) with (qemuOptionValue r +:+ String "," (qemuOption (qemuOptionValue <$> r2 :: raws)))%string.
    rewrite read_value. destruct r2 as [|c rest]; [done|]. apply negb_true_iff in H2.
    assert (exists s, qemuOption (qemuOptionValue <$> String c rest :: raws) = String c s) as [s E].
    { destruct raws; cbn [fmap list_fmap qemuOption join qemuOptionValue]; rewrite H2; by eexists. }
    rewrite E in IH |- *. cbn [read_options]. rewrite H2, (eq_refl : Ascii.eqb "," "," = true). f_equal. cbn [read_options] in IH. by rewrite H2 in IH.
Qed.

Lemma digits_plain acc s v : parse_digits acc s = Some v -> qemuOptionValue s = s.
Proof.
  revert acc. induction s as [|c s IH]; intros acc; [done|]. cbn [parse_digits qemuOptionValue]. destruct (is_digit c) eqn:Hc; [|done]. intros H.
  rewrite (IH _ H). by destruct (Ascii.eqb_spec c ",") as [->|].
Qed.

Lemma itoa_plain z : 0 <= z -> qemuOptionValue (itoa z) = itoa z.
Proof. intros Hz. rewrite itoa_nonneg by done. eapply digits_plain, parse_digits_pretty. Qed.

Lemma read_as parts r raws : parts = qemuOptionValue <$> r :: raws -> forallb starts_plain raws = true -> read_options (qemuOption parts) EmptyString = r :: raws.
Proof. intros -> Hr. by apply read_parts. Qed.

(** The numbers and the attachment of an accepted launch *)
Lemma validated cfg x : validateQEMULaunchConfig cfg = Ok x ->
  0 <= l_NetworkFD cfg /\ 0 <= l_ConsoleFD cfg /\ 0 <= l_GuestAgentFD cfg /\ (l_NetworkKind cfg = TapFD \/ l_NetworkKind cfg = DatagramFD) /\
  (l_IncomingPath cfg <> "" -> 0 <= l_IncomingOffset cfg).
Proof.
  unfold validateQEMULaunchConfig. do 5 (case_match; [done|]). do 3 (match goal with |- context [?a <? 0] => destruct (Z.ltb_spec a 0) end; [done|]).
  do 2 (case_match; [done|]). intros Hk.
  assert (l_NetworkKind cfg = TapFD \/ l_NetworkKind cfg = DatagramFD) as Hn by (destruct (l_NetworkKind cfg); auto; done).
  split_and!; [done..|]. intros Hp. apply String.eqb_neq in Hp.
  destruct (parse_mac (l_MAC cfg)) as [mac|]; [|by destruct Hn as [E|E]; rewrite E in Hk].
  destruct (Z.ltb_spec (l_IncomingOffset cfg) 0) as [Ho|]; [exfalso|done]. unfold mbind, result_bind in Hk. rewrite Hp in Hk.
  destruct Hn as [E|E]; rewrite E in Hk; repeat (destruct (validateQEMUPath _); [|done]); done.
Qed.

Lemma escape_number p z : 0 <= z -> qemuOptionValue p = p -> (p +:+ itoa z)%string = qemuOptionValue (p +:+ itoa z).
Proof.
  intros Hz Hp. rewrite <- (itoa_plain z Hz) at 1. rewrite <- Hp at 1. clear Hp. induction p as [|c p IH]; [done|].
  change (String c p +:+ itoa z)%string with (String c (p +:+ itoa z)). cbn [qemuOptionValue]. rewrite <- IH. by destruct (Ascii.eqb c ",").
Qed.

Lemma step_none flag rest tail : takes_none flag = true -> read_argv rest = tail -> read_argv (flag :: rest) = (flag, []) :: tail.
Proof. intros Hf <-. cbn [read_argv]. by rewrite Hf. Qed.

Lemma step_word flag value rest tail : takes_none flag = false -> takes_word flag = true -> read_argv rest = tail ->
  read_argv (flag :: value :: rest) = (flag, [value]) :: tail.
Proof. intros Hn Hw <-. cbn [read_argv]. by rewrite Hn, Hw. Qed.

Lemma step_option flag value rest parts tail : takes_none flag = false -> takes_word flag = false -> read_options value EmptyString = parts ->
  read_argv rest = tail -> read_argv (flag :: value :: rest) = (flag, parts) :: tail.
Proof. intros Hn Hw <- <-. cbn [read_argv]. by rewrite Hn, Hw. Qed.

(** One flag after another; the parts of an option are read back, its numbers have no comma. *)
Ltac reads_parts := apply read_as; [cbn [fmap list_fmap]; repeat (f_equal; try (by apply escape_number))|reflexivity].
Ltac reads :=
  first
    [ apply step_none; [reflexivity|]
    | apply step_word; [reflexivity|reflexivity|]
    | apply step_option; [reflexivity|reflexivity|try reads_parts|] ].

Lemma read_netdev cfg : 0 <= l_NetworkFD cfg -> l_NetworkKind cfg = TapFD \/ l_NetworkKind cfg = DatagramFD ->
  read_options (netdev cfg) EmptyString =
  (match l_NetworkKind cfg with
   | TapFD => ["tap"; "id=net0"; "fd=" +:+ itoa (l_NetworkFD cfg)]
   | _ => ["dgram"; "id=net0"; "local.type=fd"; "local.str=" +:+ itoa (l_NetworkFD cfg)]
   end)%string.
Proof. intros Hf [Hn|Hn]; unfold netdev; rewrite Hn; reads_parts. Qed.

Lemma read_base cfg x rest : validateQEMULaunchConfig cfg = Ok x ->
  read_argv (base_args cfg ++ rest) = take 18 (intended cfg) ++ read_argv rest.
Proof.
  intros Hv. destruct (validated cfg x Hv) as (Hf & _ & _ & Hn & _). unfold base_args, intended. cbn [app take].
  repeat reads; [by apply read_netdev|]. reflexivity.
Qed.

Lemma read_agent cfg x rest : validateQEMULaunchConfig cfg = Ok x ->
  read_argv (agent_chardev cfg ++ rest) =
    (if l_GuestAgentFD cfg =? 0 then []
     else [("-chardev", ["socket"; "id=charqga"; "fd=" +:+ itoa (l_GuestAgentFD cfg); "server=on"; "wait=off"])]%string) ++ read_argv rest /\
  read_argv (agent_device cfg ++ rest) =
    (if l_GuestAgentFD cfg =? 0 then [] else [("-device", ["virtserialport"; "chardev=charqga"; "name=org.qemu.guest_agent.0"])]) ++ read_argv rest.
Proof.
  intros Hv. destruct (validated cfg x Hv) as (_ & _ & Ha & _). unfold agent_chardev, agent_device. destruct (l_GuestAgentFD cfg =? 0); [done|].
  split; cbn [app]; repeat reads; reflexivity.
Qed.

Lemma read_incoming cfg x : validateQEMULaunchConfig cfg = Ok x ->
  read_argv (incoming_args cfg) =
    (if String.eqb (l_IncomingPath cfg) "" then []
     else [("-incoming", ["file:" +:+ l_IncomingPath cfg; "offset=" +:+ itoa (incoming_offset cfg)])]%string).
Proof.
  intros Hv. destruct (validated cfg x Hv) as (_ & _ & _ & _ & Ho). unfold incoming_args. destruct (String.eqb_spec (l_IncomingPath cfg) ""); [done|].
  apply step_option; [done..| |done].
  assert (0 <= incoming_offset cfg) as Hi by (unfold incoming_offset, qemuIncomingOffset; case_match; [lia|auto]).
  apply (read_as [("file:" +:+ qemuOptionValue (l_IncomingPath cfg))%string; ("offset=" +:+ itoa (incoming_offset cfg))%string]); [|done].
  cbn [fmap list_fmap]. repeat f_equal. by apply escape_number.
Qed.

Lemma read_balloon cfg rest : read_argv (balloon_args cfg ++ rest) =
  (if l_DisableBalloon cfg then [] else [("-device", ["virtio-balloon-pci"; "deflate-on-oom=on"; "free-page-reporting=on"])]) ++ read_argv rest.
Proof. unfold balloon_args. destruct (l_DisableBalloon cfg); [done|]. cbn [app]. reads. reflexivity. Qed.


(** ** Firmware *)

Definition qemuFirmwareCandidates (arch : Architecture) : list qemuFirmware :=
  match arch with
  | AMD64 =>
      [mkFirmware "/usr/share/OVMF/OVMF_CODE_4M.fd" "/usr/share/OVMF/OVMF_VARS_4M.fd";
       mkFirmware "/usr/share/OVMF/OVMF_CODE.fd" "/usr/share/OVMF/OVMF_VARS.fd";
       mkFirmware "/usr/share/edk2/ovmf/OVMF_CODE.fd" "/usr/share/edk2/ovmf/OVMF_VARS.fd";
       mkFirmware "/usr/share/edk2/x64/OVMF_CODE.4m.fd" "/usr/share/edk2/x64/OVMF_VARS.4m.fd";
       mkFirmware "/run/current-system/sw/share/qemu/edk2-x86_64-code.fd" "/run/current-system/sw/share/qemu/edk2-i386-vars.fd"]
  | ARM64 =>
      [mkFirmware "/usr/share/AAVMF/AAVMF_CODE_4M.fd" "/usr/share/AAVMF/AAVMF_VARS_4M.fd";
       mkFirmware "/usr/share/AAVMF/AAVMF_CODE.fd" "/usr/share/AAVMF/AAVMF_VARS.fd";
       mkFirmware "/usr/share/edk2/aarch64/QEMU_EFI.fd" "/usr/share/edk2/aarch64/vars-template-pflash.raw";
       mkFirmware "/usr/share/edk2/aarch64/QEMU_CODE.fd" "/usr/share/edk2/aarch64/QEMU_VARS.fd";
       mkFirmware "/run/current-system/sw/share/qemu/edk2-aarch64-code.fd" "/run/current-system/sw/share/qemu/edk2-arm-vars.fd"]
  | OtherArchitecture _ => []
  end.

Inductive stat_result := Present | Absent | StatFailed.

Fixpoint discover (stat : string -> stat_result) (candidates : list qemuFirmware) : result qemu_error qemuFirmware :=
  match candidates with
  | [] => Err Unsupported
  | candidate :: rest =>
      _ ← validateQEMUPath (CodePath candidate);
      _ ← validateQEMUPath (VarsPath candidate);
      match stat (CodePath candidate) with
      | Absent => discover stat rest
      | StatFailed => Err IOFailed
      | Present =>
          match stat (VarsPath candidate) with
          | Absent => discover stat rest
          | StatFailed => Err IOFailed
          | Present => Ok candidate
          end
      end
  end.

Definition discoverQEMUFirmware (stat : string -> stat_result) (arch : Architecture) (candidates : list qemuFirmware) : result qemu_error qemuFirmware :=
  discover stat (if decide (candidates = []) then qemuFirmwareCandidates arch else candidates).

Definition missing (stat : string -> stat_result) (c : qemuFirmware) : Prop := stat (CodePath c) = Absent \/ stat (VarsPath c) = Absent.

Definition first_present (stat : string -> stat_result) (candidates : list qemuFirmware) (firmware : qemuFirmware) : Prop :=
  exists l1 l2, candidates = l1 ++ firmware :: l2 /\ stat (CodePath firmware) = Present /\ stat (VarsPath firmware) = Present /\ Forall (missing stat) l1.

Lemma first_present_cons stat c cs firmware : missing stat c -> first_present stat cs firmware -> first_present stat (c :: cs) firmware.
Proof. intros Hc (l1 & l2 & -> & H1 & H2 & H3). exists (c :: l1), l2. split_and!; [done..|by constructor]. Qed.

(** The firmware found is the first pair of the list that is there. *)
Lemma discover_first stat candidates firmware : discover stat candidates = Ok firmware -> first_present stat candidates firmware.
Proof.
  induction candidates as [|c cs IH]; [done|]. cbn [discover]. unfold mbind, result_bind. repeat (destruct (validateQEMUPath _); [|done]).
  destruct (stat (CodePath c)) eqn:Ec; [destruct (stat (VarsPath c)) eqn:Ev|..]; try done; [| |].
  - intros [= <-]. by exists [], cs.
  - intros H. apply first_present_cons; [by right|auto].
  - intros H. apply first_present_cons; [by left|auto].
Qed.

(** ** The variables of a guest

    Other launches may write the same file between any two calls ([env]); calls fail by a
    schedule; [temporary] names the file of an attempt. *)
Section Vars.
Context (env : nat -> gmap string string -> gmap string string) (fault : nat -> bool) (temporary : nat -> string).

Record Host := mkHost { h_files : gmap string string; h_tick : nat }.
Abbreviation M := (State Host).

Definition call : M (result qemu_error (gmap string string)) := fun w =>
  let fs := env (h_tick w) (h_files w) in (mkHost fs (S (h_tick w)), if fault (h_tick w) then Err IOFailed else Ok fs).
Definition put (p data : string) : M unit := modify (fun w => mkHost (<[p := data]> (h_files w)) (h_tick w)).
Definition remove (p : string) : M (result qemu_error unit) :=
  _ ←! call; _ ← modify (fun w => mkHost (delete p (h_files w)) (h_tick w)); ok tt.

(** The attempts that are left; a name that is taken is passed over. *)
Fixpoint createQEMUTempFile (attempts : nat) : M (result qemu_error string) :=
  match attempts with
  | O => fail IOFailed
  | S attempts =>
      w ← get;
      let p := temporary (h_tick w) in
      fs ←! call;
      if bool_decide (is_Some (fs !! p)) then createQEMUTempFile attempts
      else _ ← put p ""; ok p
  end.

(** From the temporary file on: written, closed and linked to its name, unless others have
    linked theirs meanwhile.  A write that fails may leave part of the data. *)
Definition publish (tmp data vmVarsPath : string) (part : string) : M (result qemu_error bool) :=
  w ← get;
  _ ← put tmp (if fault (h_tick w) then part else data);
  _ ←! call;
  _ ←! call;
  fs ←! call;
  if bool_decide (is_Some (fs !! vmVarsPath)) then ok false
  else _ ← put vmVarsPath (default "" (fs !! tmp)); ok true.

Definition ensureQEMUVars (templatePath vmVarsPath part : string) : M (result qemu_error unit) :=
  match validateQEMUPath templatePath, validateQEMUPath vmVarsPath with
  | Err e, _ | _, Err e => fail e
  | Ok _, Ok _ =>
      fs ←! call;
      if bool_decide (is_Some (fs !! vmVarsPath)) then ok tt
      else
        fs ←! call;
        match fs !! templatePath with
        | None => fail IOFailed
        | Some data =>
            _ ←! call;
            tmp ←! createQEMUTempFile 16;
            published ← publish tmp data vmVarsPath part;
            match published with
            | Ok true => remove tmp
            | Ok false => _ ← remove tmp; ok tt
            | Err e => _ ← remove tmp; fail e
            end
        end
  end.

Section Whole.
Context (templatePath vmVarsPath part data : string) (old : option string).
Context (apart : forall n, temporary n <> vmVarsPath /\ temporary n <> templatePath).
Context (other : vmVarsPath <> templatePath).

(** The template is there; the variables are the old ones, or none, or the template's. *)
Definition whole (fs : gmap string string) : Prop :=
  fs !! templatePath = Some data /\
  match old with Some v => fs !! vmVarsPath = Some v | None => fs !! vmVarsPath = None \/ fs !! vmVarsPath = Some data end.

(** Other launches follow the same rules and leave the temporary files of this one alone. *)
Context (env_whole : forall t fs, whole fs -> whole (env t fs)).
Context (env_present : forall t fs, is_Some (fs !! vmVarsPath) -> is_Some (env t fs !! vmVarsPath)).
Context (env_temporary : forall t n fs, env t fs !! temporary n = fs !! temporary n).

Definition ends_in {A} (Q : A -> gmap string string -> Prop) (w' : Host) (r : result qemu_error A) : Prop :=
  whole (h_files w') /\ match r with Ok a => Q a (h_files w') | Err _ => True end.
Definition settles {A} (m : M (result qemu_error A)) (Q : A -> gmap string string -> Prop) : Prop := forall w, whole (h_files w) -> runs w m (ends_in Q).

Lemma whole_put n v fs : whole fs -> whole (<[temporary n := v]> fs).
Proof. intros [Ht Ho]. destruct (apart n) as [H1 H2]. unfold whole. by rewrite !lookup_insert_ne. Qed.

Lemma whole_delete n fs : whole fs -> whole (delete (temporary n) fs).
Proof. intros [Ht Ho]. destruct (apart n) as [H1 H2]. unfold whole. by rewrite !lookup_delete_ne. Qed.

Lemma whole_link fs : whole fs -> fs !! vmVarsPath = None -> whole (<[vmVarsPath := data]> fs).
Proof.
  intros [Ht Ho] Hn. unfold whole. rewrite lookup_insert_ne, lookup_insert_eq by done. split; [done|].
  destruct old; [congruence|by right].
Qed.

Lemma run_try {A B} (m : M (result qemu_error A)) (k : A -> M (result qemu_error B)) P Q w : whole (h_files w) ->
  settles m P -> (forall a w, whole (h_files w) -> P a (h_files w) -> runs w (k a) (ends_in Q)) -> runs w (try_bind m k) (ends_in Q).
Proof.
  intros Hw Hm Hk. apply post_try. eapply post_conseq; [by apply Hm|]. intros w' [a|e] [H1 H2]; [by apply Hk|by split].
Qed.

Lemma settles_call : settles (call) (fun fs fs' => fs = fs').
Proof. intros w Hw. unfold call, runs. cbn. split; [by apply env_whole|]. by destruct (fault (h_tick w)). Qed.

Lemma remove_keeps n w : whole (h_files w) -> runs w (remove (temporary n)) (fun w' _ =>
  whole (h_files w') /\ (is_Some (h_files w !! vmVarsPath) -> is_Some (h_files w' !! vmVarsPath))).
Proof.
  intros Hw. unfold remove, try_bind, call, runs, mbind, State_bind. cbn. destruct (fault (h_tick w)); cbn; [by auto|].
  split; [by apply whole_delete, env_whole|]. rewrite lookup_delete_ne by apply apart. auto.
Qed.

Lemma settles_temporary attempts : settles (createQEMUTempFile attempts) (fun p _ => exists n, p = temporary n).
Proof.
  induction attempts as [|attempts IH]; intros w Hw; [by apply post_ret|]. cbn [createQEMUTempFile]. apply post_bind, post_get, post_try.
  eapply post_conseq; [by apply settles_call|]. intros w1 [fs|e] [H1 _]; [|done]. case_bool_decide; [by apply IH|].
  apply post_bind, post_modify, post_ret. split; [by apply whole_put|by eexists].
Qed.

(** What is linked to the name is what the template holds. *)
Lemma settles_publish n : settles (publish (temporary n) data vmVarsPath part) (fun _ fs => is_Some (fs !! vmVarsPath)).
Proof.
  intros [fs t] Hw. unfold publish, try_bind, call, put, runs, mbind, State_bind. cbn. destruct (fault t) eqn:E; cbn; [split; [by apply env_whole, whole_put|done]|].
  set (fs1 := env t (<[temporary n := data]> fs)).
  assert (whole fs1 /\ fs1 !! temporary n = Some data) as [H1 E1] by (split; [by apply env_whole, whole_put|unfold fs1; by rewrite env_temporary, lookup_insert_eq]).
  destruct (fault (S t)); cbn; [split; [by apply env_whole|done]|]. destruct (fault (S (S t))); cbn; [split; [by apply env_whole, env_whole|done]|]. set (fs3 := env _ (env _ fs1)).
  assert (whole fs3 /\ fs3 !! temporary n = Some data) as [H3 E3] by (split; [by apply env_whole, env_whole|unfold fs3; by rewrite !env_temporary]).
  case_bool_decide as Hp; [done|]. cbn. rewrite E3.
  split; cbn [h_files fst default]; [|rewrite lookup_insert_eq; done]. apply whole_link; [done|].
  by destruct (fs3 !! vmVarsPath) eqn:Ev; [destruct Hp|].
Qed.

(** The variables of a guest appear whole or not at all: whatever fails and whatever other
    launches do meanwhile, existing variables stay as they are, new ones are those of the
    template, and they are there when the call succeeds. *)
Theorem vars_created_whole : settles (ensureQEMUVars templatePath vmVarsPath part) (fun _ fs => is_Some (fs !! vmVarsPath)).
Proof.
  intros w Hw. unfold ensureQEMUVars. destruct (validateQEMUPath templatePath); [|by split]. destruct (validateQEMUPath vmVarsPath); [|by split].
  eapply run_try; [done|apply settles_call|]. intros fs1 w1 H1 ->. case_bool_decide; [by split|].
  eapply run_try; [done|apply settles_call|]. intros fs2 w2 H2 ->. rewrite (proj1 H2).
  eapply run_try; [done|apply settles_call|]. intros _ w3 H3 _.
  eapply run_try; [done|apply settles_temporary|]. intros ? w4 H4 [n ->]. apply post_bind.
  eapply post_conseq; [by apply settles_publish|]. intros w5 [b|e] [H5 Hp].
  - assert (is_Some (h_files w5 !! vmVarsPath)) as H6 by done. destruct b.
    + eapply post_conseq; [by apply remove_keeps|]. intros w6 r [H7 Hk]. split; [done|]. by destruct r; auto.
    + apply post_bind. eapply post_conseq; [by apply remove_keeps|]. intros w6 r [H7 Hk]. split; [done|]. by apply Hk.
  - apply post_bind. eapply post_conseq; [by apply remove_keeps|]. intros w6 r [H6 _]. by split.
Qed.
End Whole.
End Vars.

(** ** Versions are ordered *)
Lemma Compare_antisym v w : Compare v w = - Compare w v.
Proof.
  unfold Compare, compareInt. repeat match goal with |- context [?a =? ?b] => destruct (Z.eqb_spec a b) end; try congruence; cbn [negb];
    repeat match goal with |- context [?a <? ?b] => destruct (Z.ltb_spec a b) end; lia.
Qed.

Module QemuDemo.
Definition guest : qemuLaunchConfig :=
  mkLaunch ARM64 "virt" "kvm" "host" 2 2048 "/data/a,readonly=on/disk.raw" "52:54:00:00:00:01" TapFD 3 4 5 false "/run/cp,1.qmp.sock"
    (mkFirmware "/usr/share/AAVMF/AAVMF_CODE.fd" "/data/vars.fd") "/data/save,1" 0.

End QemuDemo.
