(* ===== verification/QemuMachine.v ===== *)
(** * The life of a QEMU machine ([internal/hypervisor]: qemu_backend.go, qemu_save.go,
      qemu_process.go, spec.go)

    A machine owns a QEMU process, a monitor connection, a console and a network attachment;
    the back end keeps the machines of suspended guests by the path of their save.  Calls
    fail by a schedule, which also says which processes exit before a call, whether a
    command that failed took effect, and how a migration ends.  The memory of a guest is the
    number of the boot it comes from. *)

From stdpp Require Import base list gmap strings.
From Stdlib Require Import Ascii ZArith Lia.
From S2P Require Import Prelude GoStrings GoNet Effects Qemu.

Local Open Scope Z_scope.
Local Open Scope effect_scope.

(** ** State *)

Record Spec := mkSpec {
  sp_CPUs : Z;
  sp_MemoryMiB : Z;
  sp_DiskPath : string;
  sp_MAC : string;
  sp_EFIVarsPath : string;
  sp_ConsoleSocketPath : string;
  sp_GuestAgentSocketPath : string;
  sp_DisableBalloon : bool;
  sp_Restore : string
}.

Record qemuSaveMetadata := mkSaveMetadata { Schema : Z; Backend : string; QEMUVersion : string; sv_Architecture : string; sv_Machine : string }.

(** A save is its header and, once the migration is complete, the memory; a monitor socket
    belongs to a process. *)
Inductive content := SaveFile (metadata : qemuSaveMetadata) (memory : option nat) | Socket (pid : nat) | OtherContent.

Record Process := mkProcess { alive : bool; running : bool; memory : nat }.

Record qemuMachine := mkMachine {
  q_spec : Spec;
  q_attachment : option AttachmentKind;
  q_console : bool;
  q_guestAgent : bool;
  q_process : option nat;
  q_qmp : bool;
  q_qmpPath : string;
  q_closed : bool
}.

Record World := mkWorld {
  files : gmap string content;
  processes : gmap nat Process;
  machines : gmap nat qemuMachine;
  saved : gmap string nat;
  fresh : nat;
  tick : nat
}.

(** The back end ([qemuHypervisor]) *)
Record Owner := mkOwner {
  o_architecture : Architecture;
  o_architectureName : string;
  o_machine : string;
  o_accelerator : string;
  o_cpu : string;
  o_codePath : string;
  o_version : string;
  o_suspend : bool
}.

Record Schedule := mkSchedule {
  fails : nat -> bool;
  took : nat -> bool;
  dies : nat -> list nat;
  exits : nat -> bool;
  canceled : nat -> bool;
  attaches : nat -> AttachmentKind;
  temporary : nat -> string
}.

Inductive machine_error :=
| BadSpec | ContextDone | VarsFailed | AttachFailed | UnsupportedAttachment | ConsoleFailed | AgentFailed
| Closed | AlreadyActive | NotActive | StaleSocket | BuildFailed (e : qemu_error) | StartFailed | MonitorFailed | IncomingFailed | ExitedWhileStarting
| SuspendUnsupported | SavePathRequired | OwnedByAnother | SaveFailed | MigrationFailed | CommitFailed | QuitFailed
| KillFailed | MonitorCloseFailed | DetachFailed | IncompatibleSave | ReleaseFailed | TargetRequired.

Abbreviation M := (State World).

Definition with_files (f : gmap string content) (w : World) : World := mkWorld f (processes w) (machines w) (saved w) (fresh w) (tick w).
Definition with_processes (p : gmap nat Process) (w : World) : World := mkWorld (files w) p (machines w) (saved w) (fresh w) (tick w).
Definition with_machines (m : gmap nat qemuMachine) (w : World) : World := mkWorld (files w) (processes w) m (saved w) (fresh w) (tick w).
Definition with_saved (s : gmap string nat) (w : World) : World := mkWorld (files w) (processes w) (machines w) s (fresh w) (tick w).

Definition dead (p : Process) : Process := mkProcess false false (memory p).
Definition die (pids : list nat) (ps : gmap nat Process) : gmap nat Process := foldr (fun pid ps => alter dead pid ps) ps pids.
Definition is_alive (w : World) (pid : nat) : bool := match processes w !! pid with Some p => alive p | None => false end.

(** [activeLocked] *)
Definition active (q : qemuMachine) (w : World) : bool := negb (q_closed q) && match q_process q with Some pid => is_alive w pid | None => false end.

Section Ops.
Context (o : Owner) (sch : Schedule).

(** One call: processes may have exited before; then it fails or not. *)
Definition call : M bool := fun w =>
  (mkWorld (files w) (die (dies sch (tick w)) (processes w)) (machines w) (saved w) (fresh w) (S (tick w)), fails sch (tick w)).
Definition io (e : machine_error) : M (result machine_error unit) := f ← call; if f : bool then fail e else ok tt.
Definition ctx_err : M (result machine_error unit) := w ← get; _ ← call; if canceled sch (tick w) then fail ContextDone else ok tt.

Definition machine (m : nat) : M qemuMachine := w ← get; mret (default (mkMachine (mkSpec 0 0 "" "" "" "" "" false "") None false false None false "" true) (machines w !! m)).
Definition update (m : nat) (f : qemuMachine -> qemuMachine) : M unit := modify (fun w => with_machines (alter f m (machines w)) w).
Definition put_file (p : string) (c : content) : M unit := modify (fun w => with_files (<[p := c]> (files w)) w).
Definition remove_file (p : string) : M unit := f ← call; if f : bool then mret tt else modify (fun w => with_files (delete p (files w)) w).
Definition set_process (pid : nat) (f : Process -> Process) : M unit := modify (fun w => with_processes (alter f pid (processes w)) w).

(** [kill] and the wait for the end of the process; it fails only on one that is there. *)
Definition kill (pid : nat) : M bool := f ← call; w ← get; _ ← set_process pid dead; mret (f && is_alive w pid).

(** A command to the monitor *)
Definition execute (pid : nat) (effect : Process -> Process) (e : machine_error) : M (result machine_error unit) :=
  w0 ← get;
  f ← call;
  w ← get;
  if negb (is_alive w pid) then fail e
  else
    _ ← (if negb f || took sch (tick w0) then set_process pid effect else mret tt);
    if f : bool then fail e else ok tt.

Definition pause (p : Process) : Process := mkProcess (alive p) false (memory p).
Definition continue (p : Process) : Process := mkProcess (alive p) true (memory p).

Definition with_qmp (b : bool) (q : qemuMachine) : qemuMachine :=
  mkMachine (q_spec q) (q_attachment q) (q_console q) (q_guestAgent q) (q_process q) b (q_qmpPath q) (q_closed q).
Definition with_process (pid : nat) (p : string) (q : qemuMachine) : qemuMachine :=
  mkMachine (q_spec q) (q_attachment q) (q_console q) (q_guestAgent q) (Some pid) (q_qmp q) p (q_closed q).
Definition with_qmpPath (p : string) (q : qemuMachine) : qemuMachine :=
  mkMachine (q_spec q) (q_attachment q) (q_console q) (q_guestAgent q) (q_process q) (q_qmp q) p (q_closed q).
Definition with_spec (s : Spec) (q : qemuMachine) : qemuMachine :=
  mkMachine s (q_attachment q) (q_console q) (q_guestAgent q) (q_process q) (q_qmp q) (q_qmpPath q) (q_closed q).
Definition without_console (q : qemuMachine) : qemuMachine :=
  mkMachine (q_spec q) (q_attachment q) false false (q_process q) (q_qmp q) (q_qmpPath q) (q_closed q).
Definition detached (q : qemuMachine) : qemuMachine :=
  mkMachine (q_spec q) None (q_console q) (q_guestAgent q) (q_process q) (q_qmp q) (q_qmpPath q) (q_closed q).
Definition shut (q : qemuMachine) : qemuMachine :=
  mkMachine (q_spec q) (q_attachment q) (q_console q) (q_guestAgent q) (q_process q) (q_qmp q) (q_qmpPath q) true.

(** ** The machines of saves *)

Definition retain (path : string) (m : nat) : M (result machine_error unit) :=
  w ← get;
  match saved w !! path with
  | Some existing => if decide (existing = m) then _ ← modify (fun w => with_saved (<[path := m]> (saved w)) w); ok tt else fail OwnedByAnother
  | None => _ ← modify (fun w => with_saved (<[path := m]> (saved w)) w); ok tt
  end.

Definition takeSaved (path : string) : M (option nat) :=
  w ← get; _ ← modify (fun w => with_saved (delete path (saved w)) w); mret (saved w !! path).

Definition forgotten (m : nat) (w : World) : World := with_saved (filter (fun e => e.2 <> m) (saved w)) w.
Definition forget (m : nat) : M unit := modify (forgotten m).

(** ** Stopping *)

Definition forceStopLocked (m : nat) : M (result machine_error unit) :=
  q ← machine m;
  w ← get;
  match q_process q with
  | None => ok tt
  | Some pid =>
      if negb (active q w) then ok tt
      else
        _ ← (if q_qmp q then execute pid dead MonitorFailed else ok tt);
        w ← get;
        if negb (is_alive w pid) then ok tt
        else f ← kill pid; if f : bool then fail KillFailed else ok tt
  end.
Definition stopProcess : nat -> M (result machine_error unit) := forceStopLocked.

(** A process that has exited may be noticed only after the time for it is over. *)
Definition quitLocked (m : nat) : M (result machine_error unit) :=
  q ← machine m;
  w ← get;
  match q_process q with
  | None => ok tt
  | Some pid =>
      if negb (active q w) then ok tt
      else
        r ← execute pid dead QuitFailed;
        w ← get;
        if negb (is_alive w pid) && exits sch (tick w) then ok tt
        else
          f ← kill pid;
          match r with Err e => fail e | Ok _ => if f : bool then fail KillFailed else ok tt end
  end.

Definition Stop (m : nat) : M (result machine_error unit) :=
  q ← machine m;
  w ← get;
  match q_process q with
  | None => ok tt
  | Some pid =>
      if negb (active q w) then ok tt
      else
        r ← execute pid id MonitorFailed;
        match r with
        | Err _ => forceStopLocked m
        | Ok _ =>
            w ← get;
            if exits sch (tick w) then _ ← kill pid; ok tt else forceStopLocked m
        end
  end.

Definition SetMemoryTargetMiB (m : nat) (targetMiB : Z) : M (result machine_error unit) :=
  if targetMiB <=? 0 then fail TargetRequired
  else
    q ← machine m;
    w ← get;
    match q_process q with
    | Some pid => if negb (active q w) || negb (q_qmp q) then fail NotActive else execute pid id MonitorFailed
    | None => fail NotActive
    end.

(** Every fallible release first; the machine is closed, and forgotten, when none failed. *)
Definition Close (m : nat) : M (result machine_error unit) :=
  q ← machine m;
  if q_closed q then ok tt
  else
    stopped ← forceStopLocked m;
    f ← (if q_qmp q then call else mret false);
    _ ← update m (with_qmp false);
    match stopped with
    | Err e => fail e
    | Ok _ =>
        if f : bool then fail MonitorCloseFailed
        else
          _ ← (if q_guestAgent q then remove_file (sp_GuestAgentSocketPath (q_spec q)) else mret tt);
          _ ← update m without_console;
          _ ←! (match q_attachment q with Some _ => io DetachFailed | None => ok tt end);
          _ ← update m detached;
          _ ← (if String.eqb (q_qmpPath q) "" then mret tt else remove_file (q_qmpPath q));
          _ ← update m (with_qmpPath "");
          _ ← modify (fun w => forgotten m (with_machines (alter shut m (machines w)) w));
          ok tt
    end.

(** ** Saves *)

Definition qemuSaveSchema : Z := 1.
Definition qemuSaveBackend : string := "qemu".

Definition our_metadata : qemuSaveMetadata := mkSaveMetadata qemuSaveSchema qemuSaveBackend (o_version o) (o_architectureName o) (o_machine o).

(** The calls to make the directory and the file, to protect, write, extend and close it; the
    header is far shorter than the space reserved for it. *)
Definition prepareQEMUSave : M (result machine_error string) :=
  w ← get;
  let tmp := temporary sch (tick w) in
  _ ←! io SaveFailed;
  _ ←! io SaveFailed;
  _ ← put_file tmp OtherContent;
  written ← (_ ←! io SaveFailed; _ ←! io SaveFailed; _ ←! io SaveFailed; io SaveFailed);
  match written with
  | Err e => _ ← remove_file tmp; fail e
  | Ok _ => _ ← put_file tmp (SaveFile our_metadata None); ok tmp
  end.

Definition commitQEMUSave (tmp destination : string) : M (result machine_error unit) :=
  _ ←! io CommitFailed;
  _ ←! io CommitFailed;
  _ ←! io CommitFailed;
  _ ←! io CommitFailed;
  w ← get;
  match files w !! tmp with
  | None => fail CommitFailed
  | Some c => _ ← modify (fun w => with_files (<[destination := c]> (delete tmp (files w))) w);
      _ ←! io CommitFailed;
      _ ←! io CommitFailed;
      io CommitFailed
  end.

Definition readQEMUSave (path : string) : M (result machine_error (qemuSaveMetadata * option nat)) :=
  _ ←! io IncompatibleSave;
  w ← get;
  match files w !! path with
  | Some (SaveFile meta mem) =>
      if negb (Schema meta =? qemuSaveSchema) then fail IncompatibleSave
      else if String.eqb (Backend meta) "" || String.eqb (QEMUVersion meta) "" || String.eqb (sv_Architecture meta) "" || String.eqb (sv_Machine meta) "" then fail IncompatibleSave
      else ok (meta, mem)
  | _ => fail IncompatibleSave
  end.

Definition validateQEMUSave (meta : qemuSaveMetadata) : bool :=
  String.eqb (Backend meta) qemuSaveBackend && String.eqb (sv_Architecture meta) (o_architectureName o) && String.eqb (sv_Machine meta) (o_machine o).
Definition validateQEMUSaveVersion (meta : qemuSaveMetadata) : bool := String.eqb (QEMUVersion meta) (o_version o).

(** The migration into the file: when it is complete, the file has the memory. *)
Definition migrate (pid : nat) (tmp : string) : M (result machine_error unit) :=
  _ ←! execute pid id MigrationFailed;
  f ← call;
  w ← get;
  match processes w !! pid, files w !! tmp with
  | Some p, Some (SaveFile meta _) =>
      if (f : bool) || negb (alive p) then fail MigrationFailed else _ ← put_file tmp (SaveFile meta (Some (memory p))); ok tt
  | _, _ => fail MigrationFailed
  end.

Definition cleanupExitedQMP (m : nat) : M unit :=
  q ← machine m;
  _ ← (if q_qmp q then f ← call; if f : bool then mret tt else update m (with_qmp false) else mret tt);
  if String.eqb (q_qmpPath q) "" then mret tt
  else f ← call; if f : bool then mret tt else _ ← modify (fun w => with_files (delete (q_qmpPath q) (files w)) w); update m (with_qmpPath "").

(** From the pause on; the guest goes on where the migration did not complete. *)
Definition save_paused (m pid : nat) (tmp savePath : string) : M (result machine_error unit) :=
  migrated ← migrate pid tmp;
  match migrated with
  | Err e =>
      q ← machine m; w ← get;
      _ ← (if active q w then execute pid continue MonitorFailed else ok tt);
      _ ← remove_file tmp;
      fail e
  | Ok _ =>
      committed ← commitQEMUSave tmp savePath;
      match committed with
      | Err e => _ ← remove_file tmp; fail e
      | Ok _ => _ ←! quitLocked m; _ ← cleanupExitedQMP m; ok tt
      end
  end.

Definition save_retained (m pid : nat) (savePath : string) : M (result machine_error unit) :=
  tmp ←! prepareQEMUSave;
  stopped ← execute pid pause MonitorFailed;
  match stopped with
  | Err e => _ ← remove_file tmp; fail e
  | Ok _ => save_paused m pid tmp savePath
  end.

Definition Suspend (m : nat) (savePath : string) : M (result machine_error unit) :=
  if negb (o_suspend o) then fail SuspendUnsupported
  else
    _ ←! ctx_err;
    q ← machine m;
    w ← get;
    match q_process q with
    | None => fail NotActive
    | Some pid =>
        if negb (active q w) || negb (q_qmp q) then fail NotActive
        else if String.eqb savePath "" then fail SavePathRequired
        else
          _ ←! retain savePath m;
          r ← save_retained m pid savePath;
          match r with
          | Err e => _ ← forget m; fail e
          | Ok _ => ok tt
          end
    end.

(** ** Starting *)

Definition validateSpec (spec : Spec) : bool :=
  negb ((sp_CPUs spec <=? 0) || (sp_MemoryMiB spec <=? 0) || String.eqb (sp_DiskPath spec) "" || String.eqb (sp_MAC spec) "" ||
        String.eqb (sp_EFIVarsPath spec) "" || String.eqb (sp_ConsoleSocketPath spec) "").

(** [filepath.Ext]: from the last dot of the last element *)
Definition ext (p : string) : string :=
  let name := match cut_last "/" p with Some (_, name) => name | None => p end in
  match cut_last "." name with Some (_, e) => String "." e | None => "" end.

Definition qemuSocketPath (consolePath : string) : string :=
  let base := trim_suffix consolePath ".console.sock" in
  let base := if String.eqb base consolePath then trim_suffix consolePath (ext consolePath) else base in
  (base +:+ ".qmp.sock")%string.

Definition removeStaleQMPSocket (p : string) : M (result machine_error unit) :=
  f ← call;
  w ← get;
  match files w !! p with
  | None => if f : bool then fail StaleSocket else ok tt
  | Some (Socket pid) =>
      if (f : bool) || is_alive w pid then fail StaleSocket
      else _ ←! io StaleSocket; _ ← modify (fun w => with_files (delete p (files w)) w); ok tt
  | Some _ => fail StaleSocket
  end.

Definition launchConfig (q : qemuMachine) (qmpPath incoming : string) : qemuLaunchConfig :=
  let spec := q_spec q in
  mkLaunch (o_architecture o) (o_machine o) (o_accelerator o) (o_cpu o) (sp_CPUs spec) (sp_MemoryMiB spec) (sp_DiskPath spec) (sp_MAC spec)
    (default (OtherAttachment "") (q_attachment q)) 3 4 (if q_guestAgent q then 5 else 0) (sp_DisableBalloon spec) qmpPath
    (mkFirmware (o_codePath o) (sp_EFIVarsPath spec)) incoming qemuIncomingOffset.

(** The process of the machine, its CPUs stopped *)
Definition spawn (m : nat) (qmpPath : string) : M nat := fun w =>
  let pid := fresh w in
  (mkWorld (<[qmpPath := Socket pid]> (files w)) (<[pid := mkProcess true false (S pid)]> (processes w)) (alter (with_process pid qmpPath) m (machines w)) (saved w) (S (S pid)) (tick w), pid).

(** The incoming migration, after which the memory is that of the save *)
Definition restore (pid : nat) (incoming : string) : M (result machine_error unit) :=
  f ← call;
  w ← get;
  match files w !! incoming with
  | Some (SaveFile _ (Some mem)) =>
      if (f : bool) || negb (is_alive w pid) then fail IncomingFailed
      else _ ← set_process pid (fun p => mkProcess (alive p) (running p) mem); io IncomingFailed
  | _ => fail IncomingFailed
  end.

(** A step of the start; the process does not outlive one that fails. *)
Definition or_kill (pid : nat) (r : result machine_error unit) (k : M (result machine_error unit)) : M (result machine_error unit) :=
  match r with Ok _ => k | Err e => _ ← kill pid; fail e end.

Definition connect (pid : nat) : M (result machine_error unit) := f ← call; w ← get; if (f : bool) || negb (is_alive w pid) then fail MonitorFailed else ok tt.

(** From the process on: the monitor, the memory and then the CPUs *)
Definition bring_up (m pid : nat) (incoming : string) : M (result machine_error unit) :=
  r ← connect pid; or_kill pid r (
  r ← connect pid; or_kill pid r (
  r ← connect pid; or_kill pid r (
  _ ← update m (with_qmp true);
  r ← (if String.eqb incoming "" then ok tt else restore pid incoming); or_kill pid r (
  r ← execute pid continue MonitorFailed; or_kill pid r (
  w ← get; if is_alive w pid then ok tt else fail ExitedWhileStarting))))).

Definition start (m : nat) (incoming : string) : M (result machine_error unit) :=
  q ← machine m;
  w ← get;
  if q_closed q then fail Closed
  else if active q w then fail AlreadyActive
  else
    _ ← (if q_qmp q then _ ← call; update m (with_qmp false) else mret tt);
    _ ←! ctx_err;
    let qmpPath := qemuSocketPath (sp_ConsoleSocketPath (q_spec q)) in
    _ ←! removeStaleQMPSocket qmpPath;
    match buildQEMUArgv (launchConfig q qmpPath incoming) with
    | Err e => fail (BuildFailed e)
    | Ok _ => _ ←! io StartFailed; pid ← spawn m qmpPath; bring_up m pid incoming
    end.

(** A machine with its resources; what was acquired is released when a later one fails. *)
Definition newMachine (spec : Spec) : M (result machine_error nat) :=
  _ ←! io VarsFailed;
  w ← get;
  let kind := attaches sch (tick w) in
  _ ←! io AttachFailed;
  match kind with
  | OtherAttachment _ => _ ← call; fail UnsupportedAttachment
  | _ =>
      console ← io ConsoleFailed;
      match console with
      | Err e => _ ← call; fail e
      | Ok _ =>
          agent ← (if String.eqb (sp_GuestAgentSocketPath spec) "" then ok tt else io AgentFailed);
          match agent with
          | Err e => _ ← call; fail e
          | Ok _ =>
              w ← get;
              _ ← modify (fun w => mkWorld (files w) (processes w)
                     (<[fresh w := mkMachine spec (Some kind) true (negb (String.eqb (sp_GuestAgentSocketPath spec) "")) None false "" false]> (machines w)) (saved w) (S (fresh w)) (tick w));
              ok (fresh w)
          end
      end
  end.

(** The save a launch restores from: [None] for a cold boot *)
Definition choose_save (path : string) : M (result machine_error (option string)) :=
  if String.eqb path "" then ok None
  else
    r ← readQEMUSave path;
    match r with
    | Err _ => ok None
    | Ok (meta, _) =>
        if negb (validateQEMUSave meta) then
          retained ← takeSaved path;
          match retained with
          | None => fail IncompatibleSave
          | Some m =>
              c ← Close m;
              match c with
              | Ok _ => fail IncompatibleSave
              | Err _ => _ ← retain path m; fail ReleaseFailed
              end
          end
        else ok (if validateQEMUSaveVersion meta && o_suspend o then Some path else None)
    end.

Definition Launch (spec : Spec) : M (result machine_error nat) :=
  if negb (validateSpec spec) then fail BadSpec
  else
    _ ←! ctx_err;
    incoming ←! choose_save (sp_Restore spec);
    retained ← (if String.eqb (sp_Restore spec) "" then mret None else takeSaved (sp_Restore spec));
    m ←! (match retained with Some m => _ ← update m (with_spec spec); ok m | None => newMachine spec end);
    restored ← (match incoming with Some path => start m path | None => fail IncomingFailed end);
    match restored with
    | Ok _ => ok m
    | Err _ =>
        _ ← (match incoming with Some _ => stopProcess m | None => ok tt end);
        r ← start m "";
        match r with
        | Ok _ => ok m
        | Err e => _ ← Close m; fail e
        end
    end.
End Ops.

(** ** Ownership

    Every process that runs belongs to one machine, which is not closed; the machines kept
    for saves are open and do not run, each for one save. *)

Record owned (w : World) : Prop := {
  ow_process : forall pid, is_alive w pid = true -> exists m q, machines w !! m = Some q /\ q_process q = Some pid /\ q_closed q = false;
  ow_one : forall m m' q q' pid, machines w !! m = Some q -> machines w !! m' = Some q' -> q_process q = Some pid -> q_process q' = Some pid -> m = m';
  ow_saved : forall p m, saved w !! p = Some m -> exists q, machines w !! m = Some q /\ q_closed q = false /\ active q w = false;
  ow_saved_one : forall p p' m, saved w !! p = Some m -> saved w !! p' = Some m -> p = p';
  ow_fresh : (forall m q, machines w !! m = Some q -> (m < fresh w)%nat) /\ (forall pid, is_Some (processes w !! pid) -> (pid < fresh w)%nat) /\
    (forall m q pid, machines w !! m = Some q -> q_process q = Some pid -> (pid < fresh w)%nat)
}.

(** What of a machine matters to ownership *)
Definition stake (q : qemuMachine) : option nat * bool := (q_process q, q_closed q).

(** Processes exit, saves are taken or forgotten, and machines keep their stakes. *)
Record shrinks (w w' : World) : Prop := {
  sh_machines : forall m, stake <$> machines w' !! m = stake <$> machines w !! m;
  sh_alive : forall pid, is_alive w' pid = true -> is_alive w pid = true;
  sh_processes : forall pid, is_Some (processes w' !! pid) -> is_Some (processes w !! pid);
  sh_saved : forall p m, saved w' !! p = Some m -> saved w !! p = Some m;
  sh_fresh : fresh w' = fresh w
}.

#[export] Instance shrinks_preorder : PreOrder shrinks.
Proof.
  split; [by intros w; split|]. intros w1 w2 w3 [A1 B1 C1 D1 E1] [A2 B2 C2 D2 E2]. split; intros; auto; [by rewrite A2, A1|by rewrite E2, E1].
Qed.

(** The same machine before *)
Lemma shrinks_machine w w' m q' : shrinks w w' -> machines w' !! m = Some q' -> exists q, machines w !! m = Some q /\ stake q = stake q'.
Proof.
  intros Hs Hm. pose proof (sh_machines _ _ Hs m) as E. rewrite Hm in E. destruct (machines w !! m) as [q|]; [|done].
  exists q. split; [done|]. change (Some (stake q') = Some (stake q)) in E. congruence.
Qed.

Lemma shrinks_machine_after w w' m q : shrinks w w' -> machines w !! m = Some q -> exists q', machines w' !! m = Some q' /\ stake q = stake q'.
Proof.
  intros Hs Hm. pose proof (sh_machines _ _ Hs m) as E. rewrite Hm in E. destruct (machines w' !! m) as [q'|]; [|done].
  exists q'. split; [done|]. change (Some (stake q') = Some (stake q)) in E. congruence.
Qed.

Lemma shrinks_inactive w w' q q' : shrinks w w' -> stake q = stake q' -> active q w = false -> active q' w' = false.
Proof.
  intros Hs [= Ep Ec] Ha. unfold active in *. rewrite <- Ep, <- Ec. destruct (q_closed q); [done|]. cbn [negb andb] in *. destruct (q_process q) as [pid|]; [|done].
  destruct (is_alive w' pid) eqn:E; [|done]. apply (sh_alive _ _ Hs) in E. congruence.
Qed.

Lemma owned_shrinks w w' : shrinks w w' -> owned w -> owned w'.
Proof.
  intros Hs [A B C D (E1 & E2 & E3)]. split.
  - intros pid Ha. destruct (A pid (sh_alive _ _ Hs pid Ha)) as (m & q & Hm & Hp & Hc). destruct (shrinks_machine_after _ _ _ _ Hs Hm) as (q' & Hm' & Hq).
    injection Hq as Hp' Hc'. exists m, q'. split_and!; congruence.
  - intros m m' q q' pid H1 H2 P1 P2. destruct (shrinks_machine _ _ _ _ Hs H1) as (q1 & M1 & [= S1 _]), (shrinks_machine _ _ _ _ Hs H2) as (q2 & M2 & [= S2 _]).
    eapply B; [apply M1|apply M2|rewrite S1; apply P1|congruence].
  - intros p m Hsv. destruct (C p m (sh_saved _ _ Hs p m Hsv)) as (q & Hm & Hc & Ha). destruct (shrinks_machine_after _ _ _ _ Hs Hm) as (q' & Hm' & Hq).
    exists q'. split; [done|]. split; [injection Hq; congruence|by eapply shrinks_inactive].
  - intros p p' m H1 H2. by eapply (D p p' m); eapply sh_saved.
  - rewrite (sh_fresh _ _ Hs). split_and!.
    + intros m q' (q & Hm & _)%(shrinks_machine _ _ _ _ Hs). eauto.
    + intros pid Hp. by apply E2, (sh_processes _ _ Hs).
    + intros m q' pid (q & Hm & [= S1 _])%(shrinks_machine _ _ _ _ Hs) Hp. apply (E3 m q); congruence.
Qed.

(** ** Operations that only shrink *)

(** The processes of [ps'] were all in [ps], and alive there if they are. *)
Definition fewer (ps ps' : gmap nat Process) : Prop :=
  forall pid p', ps' !! pid = Some p' -> exists p, ps !! pid = Some p /\ (alive p' = true -> alive p = true).

Lemma fewer_refl ps : fewer ps ps.
Proof. intros pid p Hp. eauto. Qed.

Lemma fewer_trans ps1 ps2 ps3 : fewer ps1 ps2 -> fewer ps2 ps3 -> fewer ps1 ps3.
Proof. intros H1 H2 pid p3 H3. destruct (H2 pid p3 H3) as (p2 & E2 & A2). destruct (H1 pid p2 E2) as (p1 & E1 & A1). eauto. Qed.

Lemma fewer_alter f pid ps : (forall p, alive (f p) = true -> alive p = true) -> fewer ps (alter f pid ps).
Proof.
  intros Hf x p'. rewrite lookup_alter_Some. intros [(-> & p & Hp & ->)|[_ Hp]]; eauto.
Qed.

Lemma fewer_die pids ps : fewer ps (die pids ps).
Proof. induction pids as [|x pids IH]; [apply fewer_refl|]. eapply fewer_trans; [apply IH|]. by apply (fewer_alter dead). Qed.

Lemma shrinks_by (w : World) f ps ms sv t : fewer (processes w) ps -> (forall m, stake <$> ms !! m = stake <$> machines w !! m) ->
  (forall p m, sv !! p = Some m -> saved w !! p = Some m) -> shrinks w (mkWorld f ps ms sv (fresh w) t).
Proof.
  intros Hp Hm Hs. split; cbn; auto.
  - intros pid. unfold is_alive. cbn. destruct (ps !! pid) as [p'|] eqn:E; [|done]. destruct (Hp pid p' E) as (p & -> & Ha). done.
  - intros pid [p' E]. destruct (Hp pid p' E) as (p & -> & _). eauto.
Qed.

Section Shrinking.
Context (o : Owner) (sch : Schedule).

Lemma stays_call : stays shrinks (call sch).
Proof. intros w. apply shrinks_by; auto using fewer_die. Qed.

Lemma stays_files f : stays shrinks (modify (fun w => with_files (f w) w)).
Proof. intros w. apply shrinks_by; auto using fewer_refl. Qed.

Lemma stays_update m f : (forall q, stake (f q) = stake q) -> stays shrinks (update m f).
Proof.
  intros Hf w. apply shrinks_by; auto using fewer_refl. intros m'. destruct (decide (m = m')) as [->|Hn]; [|by rewrite lookup_alter_ne].
  rewrite lookup_alter_eq. destruct (machines w !! m') as [q|]; [|done]. cbn. by rewrite Hf.
Qed.

Lemma stays_set_process pid f : (forall p, alive (f p) = true -> alive p = true) -> stays shrinks (set_process pid f).
Proof. intros Hf w. apply shrinks_by; auto using fewer_alter. Qed.

Lemma stays_forget m : stays shrinks (forget m).
Proof. intros w. apply shrinks_by; auto using fewer_refl. intros p m'. rewrite map_lookup_filter_Some. by intros [? _]. Qed.

Lemma stays_take path : stays shrinks (takeSaved path).
Proof. intros w. apply shrinks_by; auto using fewer_refl. intros p m'. rewrite lookup_delete_Some. by intros [_ ?]. Qed.

#[local] Hint Resolve stays_call stays_files stays_forget stays_take : frame.
#[local] Hint Extern 1 (stays shrinks (update _ _)) => apply stays_update; done : frame.
#[local] Hint Extern 1 (stays shrinks (set_process _ _)) => apply stays_set_process; done : frame.
#[local] Hint Extern 1 (stays shrinks (put_file _ _)) => apply stays_files : frame.

Lemma stays_io e : stays shrinks (io sch e).
Proof. unfold io. stays_tac. Qed.
Lemma stays_ctx : stays shrinks (ctx_err sch).
Proof. unfold ctx_err. stays_tac. Qed.
Lemma stays_machine m : stays shrinks (machine m).
Proof. unfold machine. stays_tac. Qed.
Lemma stays_remove p : stays shrinks (remove_file sch p).
Proof. unfold remove_file. stays_tac. Qed.
Lemma stays_kill pid : stays shrinks (kill sch pid).
Proof. unfold kill. stays_tac. Qed.
#[local] Hint Resolve stays_io stays_ctx stays_machine stays_remove stays_kill : frame.

Lemma stays_execute pid f e : (forall p, alive (f p) = true -> alive p = true) -> stays shrinks (execute sch pid f e).
Proof. intros Hf. unfold execute. stays_tac. Qed.
#[local] Hint Extern 1 (stays shrinks (execute _ _ _ _)) => apply stays_execute; done : frame.

Lemma stays_forceStop m : stays shrinks (forceStopLocked sch m).
Proof. unfold forceStopLocked. stays_tac. Qed.
Lemma stays_quit m : stays shrinks (quitLocked sch m).
Proof. unfold quitLocked. stays_tac. Qed.
#[local] Hint Resolve stays_forceStop stays_quit : frame.
Lemma stays_Stop m : stays shrinks (Stop sch m).
Proof. unfold Stop. stays_tac. Qed.
Lemma stays_target m target : stays shrinks (SetMemoryTargetMiB sch m target).
Proof. unfold SetMemoryTargetMiB. stays_tac. Qed.
Lemma stays_prepare : stays shrinks (prepareQEMUSave o sch).
Proof. unfold prepareQEMUSave. stays_tac. Qed.
Lemma stays_commit tmp destination : stays shrinks (commitQEMUSave sch tmp destination).
Proof. unfold commitQEMUSave. stays_tac. Qed.
Lemma stays_read path : stays shrinks (readQEMUSave sch path).
Proof. unfold readQEMUSave. stays_tac. Qed.
Lemma stays_migrate pid tmp : stays shrinks (migrate sch pid tmp).
Proof. unfold migrate. stays_tac. Qed.
Lemma stays_cleanup m : stays shrinks (cleanupExitedQMP sch m).
Proof. unfold cleanupExitedQMP. stays_tac. Qed.
#[local] Hint Resolve stays_prepare stays_commit stays_read stays_migrate stays_cleanup : frame.
Lemma stays_save m pid savePath : stays shrinks (save_retained o sch m pid savePath).
Proof. unfold save_retained, save_paused. stays_tac. Qed.
Lemma stays_stale p : stays shrinks (removeStaleQMPSocket sch p).
Proof. unfold removeStaleQMPSocket. stays_tac. Qed.
Lemma stays_restore pid incoming : stays shrinks (restore sch pid incoming).
Proof. unfold restore. stays_tac. Qed.
Lemma stays_connect pid : stays shrinks (connect sch pid).
Proof. unfold connect. stays_tac. Qed.
#[local] Hint Resolve stays_stale stays_restore stays_connect : frame.
Lemma stays_bring_up m pid incoming : stays shrinks (bring_up sch m pid incoming).
Proof. unfold bring_up, or_kill. stays_tac. Qed.

(** *** Stopped machines *)

Definition inactive (m : nat) (w : World) : Prop := forall q, machines w !! m = Some q -> active q w = false.

Lemma inactive_shrinks m w w' : shrinks w w' -> inactive m w -> inactive m w'.
Proof. intros Hs Hi q' Hm. destruct (shrinks_machine _ _ _ _ Hs Hm) as (q & Hq & E). eapply shrinks_inactive; eauto. Qed.

Lemma inactive_dead m pid w w' q : shrinks w w' -> machines w !! m = Some q -> q_process q = Some pid -> is_alive w' pid = false -> inactive m w'.
Proof.
  intros Hs Hm Hp Hd q' Hm'. destruct (shrinks_machine _ _ _ _ Hs Hm') as (q0 & Hq & [= E _]). assert (q0 = q) as -> by congruence.
  unfold active. rewrite <- E, Hp, Hd. apply andb_false_r.
Qed.

Lemma kill_dead pid w : runs w (kill sch pid) (fun w' _ => is_alive w' pid = false).
Proof.
  unfold runs. change (kill sch pid w).1 with (with_processes (alter dead pid (die (dies sch (tick w)) (processes w))) (call sch w).1).
  unfold is_alive. cbn [processes with_processes]. rewrite lookup_alter_eq. by destruct (die _ _ !! pid).
Qed.

(** A run that ends where [P] holds of the process, the machine then being stopped *)
Lemma runs_machine {A} m (k : qemuMachine -> M A) w Q :
  (forall q, machines w !! m = Some q -> runs w (k q) Q) -> (machines w !! m = None -> forall q, q_process q = None -> q_closed q = true -> runs w (k q) Q) -> runs w (machine m ≫= k) Q.
Proof.
  intros H1 H2. apply post_bind. unfold machine. apply post_bind, post_get, post_ret. destruct (machines w !! m) as [q|] eqn:E; [by apply H1|by apply H2].
Qed.

Definition stopped_after (m : nat) (w' : World) (r : result machine_error unit) : Prop := match r with Ok _ => inactive m w' | Err _ => True end.

Lemma killed_stopped m pid w w1 q (k : bool -> M (result machine_error unit)) : shrinks w w1 -> machines w !! m = Some q -> q_process q = Some pid ->
  (forall f w2, inactive m w2 -> runs w2 (k f) (stopped_after m)) -> runs w1 (kill sch pid ≫= k) (stopped_after m).
Proof.
  intros Hs Hm Hp Hk. apply post_bind. eapply post_conseq; [apply post_and; [apply stays_kill|apply kill_dead]|]. intros w2 f [H2 Hd]. apply Hk.
  eapply inactive_dead; [etrans; [exact Hs|exact H2]|done..].
Qed.

Lemma forceStop_stops m w : runs w (forceStopLocked sch m) (stopped_after m).
Proof.
  unfold forceStopLocked. apply runs_machine; [|intros Hn q Hq _; apply post_bind, post_get; rewrite Hq; apply post_ret; intros q' ?; congruence].
  intros q Hm. apply post_bind, post_get. destruct (q_process q) as [pid|] eqn:Hp; [|apply post_ret; intros q' ?; unfold active; simplify_eq; rewrite Hp; apply andb_false_r].
  destruct (active q w) eqn:Ha; cbn [negb]; [|apply post_ret; intros q' ?; by simplify_eq].
  apply post_bind. eapply (post_conseq _ _ (fun w1 _ => shrinks w w1)).
  { destruct (q_qmp q); [by apply stays_execute|by apply stays_ret; apply _]. }
  intros w1 _ Hs. apply post_bind, post_get. destruct (is_alive w1 pid) eqn:Hd; cbn [negb]; [|apply post_ret; by eapply inactive_dead].
  eapply killed_stopped; [done..|]. intros f w2 H2. destruct f; by apply post_ret.
Qed.

Lemma quit_stops m w : runs w (quitLocked sch m) (stopped_after m).
Proof.
  unfold quitLocked. apply runs_machine; [|intros Hn q Hq _; apply post_bind, post_get; rewrite Hq; apply post_ret; intros q' ?; congruence].
  intros q Hm. apply post_bind, post_get. destruct (q_process q) as [pid|] eqn:Hp; [|apply post_ret; intros q' ?; unfold active; simplify_eq; rewrite Hp; apply andb_false_r].
  destruct (active q w) eqn:Ha; cbn [negb]; [|apply post_ret; intros q' ?; by simplify_eq].
  apply post_bind. eapply (post_conseq _ _ (fun w1 _ => shrinks w w1)); [by apply stays_execute|].
  intros w1 r Hs. apply post_bind, post_get. destruct (is_alive w1 pid) eqn:Hd; cbn [negb andb].
  - eapply killed_stopped; [done..|]. intros f w2 H2. by destruct r, f; apply post_ret.
  - destruct (exits sch (tick w1)); [apply post_ret; by eapply inactive_dead|].
    eapply killed_stopped; [done..|]. intros f w2 H2. by destruct r, f; apply post_ret.
Qed.

(** *** The steps that change stakes *)

Definition unretained (m : nat) (w : World) : Prop := forall p, saved w !! p <> Some m.

Lemma unretained_shrinks m w w' : shrinks w w' -> unretained m w -> unretained m w'.
Proof. intros Hs Hu p Hp. by apply (Hu p), (sh_saved _ _ Hs). Qed.

Lemma active_stake q q' w : stake q = stake q' -> active q w = active q' w.
Proof. intros [= Ep Ec]. unfold active. by rewrite Ep, Ec. Qed.

Definition closed_world (m : nat) (w : World) : World := forgotten m (with_machines (alter shut m (machines w)) w).

(** A machine that is closed *)
Lemma closed_machine m w m' q' : machines (closed_world m w) !! m' = Some q' ->
  exists q, machines w !! m' = Some q /\ q_process q' = q_process q /\ (m' <> m -> q' = q) /\ (m' = m -> q' = shut q).
Proof.
  unfold closed_world. cbn [machines forgotten with_saved with_machines]. rewrite lookup_alter_Some. intros [(<- & q & Hq & ->)|[Hn Hq]]; exists q' || exists q; by split_and!.
Qed.

Lemma owned_shut m w : owned w -> inactive m w -> owned (closed_world m w).
Proof.
  intros [A B C D (E1 & E2 & E3)] Hi. split.
  - intros pid Ha. destruct (A pid Ha) as (m0 & q & Hm & Hp & Hc). destruct (decide (m0 = m)) as [->|Hn].
    + specialize (Hi q Hm). unfold active in Hi. rewrite Hc, Hp in Hi. cbn in Hi. change (is_alive w pid = true) in Ha. congruence.
    + exists m0, q. split_and!; [|done..]. cbn [machines closed_world forgotten with_saved with_machines]. by rewrite lookup_alter_ne.
  - intros m1 m2 q1 q2 pid (q & H1 & P1 & _)%closed_machine (q' & H2 & P2 & _)%closed_machine Q1 Q2. apply (B m1 m2 q q' pid); congruence.
  - intros p m0 Hs. cbn [saved closed_world forgotten with_saved with_machines] in Hs. apply map_lookup_filter_Some in Hs as [Hs Hn]. cbn in Hn.
    destruct (C p m0 Hs) as (q & Hm & Hc & Ha). exists q. split_and!; [|done..]. cbn [machines closed_world forgotten with_saved with_machines]. by rewrite lookup_alter_ne.
  - intros p p' m0 H1 H2. cbn [saved closed_world forgotten with_saved with_machines] in *. apply map_lookup_filter_Some in H1 as [H1 _], H2 as [H2 _]. eauto.
  - split_and!; [|done|].
    + intros m0 q0 (q & Hm & _)%closed_machine. eauto.
    + intros m0 q0 pid (q & Hm & P & _)%closed_machine Q. apply (E3 m0 q); congruence.
Qed.

Lemma spawned_alive m p w pid : is_alive (spawn m p w).1 pid = true -> pid = fresh w \/ (pid <> fresh w /\ is_alive w pid = true).
Proof.
  unfold is_alive. cbn [fst spawn processes]. destruct (decide (pid = fresh w)) as [->|Hn]; [by left|]. rewrite lookup_insert_ne by done. by right.
Qed.

Lemma spawned_machine m p w m' q' : machines (spawn m p w).1 !! m' = Some q' ->
  exists q, machines w !! m' = Some q /\ q_closed q' = q_closed q /\ (m' <> m -> q' = q) /\ (m' = m -> q_process q' = Some (fresh w)).
Proof.
  cbn [fst spawn machines]. rewrite lookup_alter_Some. intros [(<- & q & Hq & ->)|[Hn Hq]]; exists q' || exists q; by split_and!.
Qed.

(** A machine that does not run and is kept for no save gets a process. *)
Lemma owned_spawn m p w q : owned w -> machines w !! m = Some q -> q_closed q = false -> active q w = false -> unretained m w -> owned (spawn m p w).1.
Proof.
  intros [A B C D (E1 & E2 & E3)] Hm Hc Ha Hu. split.
  - intros pid [->|[Hn Hal]]%spawned_alive.
    + exists m, (with_process (fresh w) p q). split_and!; [|done..]. cbn [fst spawn machines]. by rewrite lookup_alter_eq, Hm.
    + destruct (A pid Hal) as (m0 & q0 & Hm0 & Hp & Hc0). destruct (decide (m0 = m)) as [->|Hne].
      * assert (q0 = q) as -> by congruence. unfold active in Ha. rewrite Hc, Hp in Ha. cbn in Ha. congruence.
      * exists m0, q0. split_and!; [|done..]. cbn [fst spawn machines]. by rewrite lookup_alter_ne.
  - intros m1 m2 q1 q2 pid (r1 & H1 & _ & S1 & T1)%spawned_machine (r2 & H2 & _ & S2 & T2)%spawned_machine Q1 Q2.
    destruct (decide (m1 = m)) as [->|N1], (decide (m2 = m)) as [->|N2]; [done|..].
    + rewrite (S2 N2) in Q2. rewrite (T1 eq_refl) in Q1. pose proof (E3 m2 r2 pid H2 Q2). simplify_eq. lia.
    + rewrite (S1 N1) in Q1. rewrite (T2 eq_refl) in Q2. pose proof (E3 m1 r1 pid H1 Q1). simplify_eq. lia.
    + rewrite (S1 N1) in Q1. rewrite (S2 N2) in Q2. by apply (B m1 m2 r1 r2 pid).
  - intros s m0 Hs. destruct (C s m0 Hs) as (q0 & Hm0 & Hc0 & Ha0). assert (m0 <> m) as Hne by (intros ->; by apply (Hu s)).
    exists q0. split_and!; [cbn [fst spawn machines]; by rewrite lookup_alter_ne|done|].
    unfold active in *. rewrite Hc0 in *. cbn [negb andb] in *. destruct (q_process q0) as [pid|] eqn:Hp; [|done]. unfold is_alive. cbn [fst spawn processes].
    pose proof (E3 m0 q0 pid Hm0 Hp). by rewrite lookup_insert_ne by lia.
  - exact D.
  - cbn [fst spawn fresh]. split_and!.
    + intros m0 q0 (r & Hr & _)%spawned_machine. pose proof (E1 _ _ Hr). lia.
    + intros pid. cbn [fst spawn processes]. destruct (decide (pid = fresh w)) as [->|Hn]; [lia|]. rewrite lookup_insert_ne by done. intros Hp%E2. lia.
    + intros m0 q0 pid (r & Hr & _ & S1 & T1)%spawned_machine Hp. destruct (decide (m0 = m)) as [->|Hn]; [rewrite (T1 eq_refl) in Hp; simplify_eq; lia|].
      rewrite (S1 Hn) in Hp. pose proof (E3 _ _ _ Hr Hp). lia.
Qed.

Lemma active_same q w w' : processes w' = processes w -> active q w' = active q w.
Proof. intros E. unfold active, is_alive. by rewrite E. Qed.

Definition with_new (q : qemuMachine) (w : World) : World := mkWorld (files w) (processes w) (<[fresh w := q]> (machines w)) (saved w) (S (fresh w)) (tick w).

Lemma owned_new q w : owned w -> q_process q = None -> owned (with_new q w).
Proof.
  intros [A B C D (E1 & E2 & E3)] Hq.
  assert (forall m r, machines w !! m = Some r -> machines (with_new q w) !! m = Some r) as Hold.
  { intros m r Hm. cbn [with_new machines]. rewrite lookup_insert_ne; [done|]. pose proof (E1 _ _ Hm). lia. }
  assert (forall m r pid, machines (with_new q w) !! m = Some r -> q_process r = Some pid -> machines w !! m = Some r) as Hback.
  { intros m r pid. cbn [with_new machines]. rewrite lookup_insert_Some. intros [[_ <-]|[_ ?]]; [congruence|done]. }
  split.
  - intros pid Ha. destruct (A pid Ha) as (m & r & Hm & Hp & Hc). exists m, r. auto.
  - intros m1 m2 q1 q2 pid H1 H2 Q1 Q2. apply (B m1 m2 q1 q2 pid); eauto.
  - intros p m Hs. destruct (C p m Hs) as (r & Hm & Hc & Ha). exists r. by auto.
  - exact D.
  - cbn [with_new fresh]. split_and!.
    + intros m r. cbn [with_new machines]. rewrite lookup_insert_Some. intros [[<- _]|[_ Hm]]; [lia|]. pose proof (E1 _ _ Hm). lia.
    + intros pid Hp%E2. lia.
    + intros m r pid Hm Hp. pose proof (E3 _ _ _ (Hback _ _ _ Hm Hp) Hp). lia.
Qed.

(** A machine that does not run is kept for one save. *)
Lemma owned_retained path m w q : owned (forgotten m w) -> (forall p, saved w !! p = Some m -> p = path) ->
  machines w !! m = Some q -> q_closed q = false -> active q w = false -> owned w.
Proof.
  intros [A B C D E] Hs Hm Hc Ha.
  assert (forall p m', saved w !! p = Some m' -> m' = m \/ saved (forgotten m w) !! p = Some m') as Hcase.
  { intros p m' Hp. destruct (decide (m' = m)) as [->|Hn]; [by left|right]. cbn [saved forgotten with_saved]. by apply map_lookup_filter_Some. }
  split; [exact A|exact B| | |exact E].
  - intros p m' Hp. destruct (Hcase p m' Hp) as [->|Hp']; [by exists q|]. apply (C p m' Hp').
  - intros p p' m' H1 H2. destruct (Hcase _ _ H1) as [->|G1]; [by rewrite (Hs p), (Hs p')|]. destruct (Hcase _ _ H2) as [->|G2]; [by rewrite (Hs p), (Hs p')|]. eauto.
Qed.

(** *** Operations *)

(** A prefix that only shrinks *)
Lemma post_shrink {A B} w0 w (c : M A) (k : A -> M B) Q :
  shrinks w0 w -> stays shrinks c -> (forall w' a, shrinks w0 w' -> runs w' (k a) Q) -> runs w (c ≫= k) Q.
Proof. intros Hs Hc Hk. apply post_bind. eapply post_conseq; [apply Hc|]. intros w' a H'. apply Hk. etrans; [exact Hs|exact H']. Qed.

Lemma post_shrink_try {A B} w0 w (c : M (result machine_error A)) (k : A -> M (result machine_error B)) Q :
  shrinks w0 w -> stays shrinks c -> (forall w' a, shrinks w0 w' -> runs w' (k a) Q) -> (forall w' e, shrinks w0 w' -> Q w' (Err e)) -> runs w (try_bind c k) Q.
Proof. intros Hs Hc Hk He. eapply post_shrink; [done..|]. intros w' [a|e] H'; [by apply Hk|by apply He]. Qed.

(** A close that fails has only shrunk. *)
Definition closes (w w' : World) (r : result machine_error unit) : Prop := owned w' /\ match r with Err _ => shrinks w w' | Ok _ => True end.

Lemma closes_err w w' e : owned w -> shrinks w w' -> closes w w' (Err e).
Proof. intros Hw Hs. split; [by eapply owned_shrinks|done]. Qed.

Lemma Close_owned m w : owned w -> runs w (Close sch m) (closes w).
Proof.
  intros Hw. unfold Close. apply runs_machine; [|intros _ q _ Hc; rewrite Hc; by split]. intros q Hm. destruct (q_closed q); [by split|].
  apply post_bind. eapply post_conseq; [apply post_and; [apply stays_forceStop|apply forceStop_stops]|]. intros w1 r [H1 Hr].
  assert (forall w' e, shrinks w1 w' -> closes w w' (Err e)) as Herr by (intros; apply closes_err; [done|by etrans]).
  eapply (post_shrink w1 w1); [done|destruct (q_qmp q); stays_tac|]. intros w2 f H2. eapply post_shrink; [done|by apply stays_update|]. intros w3 _ H3.
  destruct r as [|e]; [|by apply Herr]. cbn [stopped_after] in Hr. destruct f; [by apply Herr|].
  eapply post_shrink; [done|destruct (q_guestAgent q); stays_tac|]. intros w4 _ H4. eapply post_shrink; [done|by apply stays_update|]. intros w5 _ H5.
  eapply post_shrink_try; [done|destruct (q_attachment q); stays_tac| |done]. intros w6 _ H6. eapply post_shrink; [done|by apply stays_update|]. intros w7 _ H7.
  eapply post_shrink; [done|destruct (String.eqb _ ""); stays_tac|]. intros w8 _ H8. eapply post_shrink; [done|by apply stays_update|]. intros w9 _ H9.
  apply post_bind, post_modify, post_ret. split; [|done]. apply owned_shut; [|by eapply inactive_shrinks]. eapply owned_shrinks; [|done]. by etrans.
Qed.

Lemma start_owned m incoming w : owned w -> unretained m w -> runs w (start o sch m incoming) (fun w' _ => owned w' /\ unretained m w').
Proof.
  intros Hw Hu. unfold start. apply runs_machine; [|intros _ q Hq Hc; apply post_bind, post_get; rewrite Hc; by split]. intros q Hm.
  apply post_bind, post_get. destruct (q_closed q) eqn:Hc; [by split|]. destruct (active q w) eqn:Ha; [by split|].
  assert (forall w', shrinks w w' -> owned w' /\ unretained m w') as Hstep by (intros; split; [by eapply owned_shrinks|by eapply unretained_shrinks]).
  eapply (post_shrink w w); [done|destruct (q_qmp q); stays_tac|]. intros w1 _ H1. eapply post_shrink_try; [done|apply stays_ctx| |auto]. intros w2 _ H2.
  eapply post_shrink_try; [done|apply stays_stale| |auto]. intros w3 _ H3. destruct (buildQEMUArgv _); [|by apply Hstep].
  eapply post_shrink_try; [done|apply stays_io| |auto]. intros w4 _ H4. apply post_bind.
  destruct (shrinks_machine_after _ _ _ _ H4 Hm) as (q' & Hm' & Hq). assert (q_closed q' = false) as Hc' by (injection Hq; congruence).
  destruct (Hstep w4 H4) as [Ho Hu4]. pose proof (shrinks_inactive _ _ _ _ H4 Hq Ha) as Ha4.
  pose proof (owned_spawn m (qemuSocketPath (sp_ConsoleSocketPath (q_spec q))) w4 q' Ho Hm' Hc' Ha4 Hu4) as Hs. unfold runs at 1.
  eapply post_conseq; [apply stays_bring_up|]. intros w6 r H6. split; [eapply owned_shrinks; [exact H6|exact Hs]|eapply unretained_shrinks; [exact H6|exact Hu4]].
Qed.

Lemma newMachine_owned spec w : owned w -> runs w (newMachine sch spec) (fun w' r => owned w' /\ forall m, r = Ok m -> unretained m w').
Proof.
  intros Hw. assert (forall w' e, shrinks w w' -> owned w' /\ forall m, @Err machine_error nat e = Ok m -> unretained m w') as Herr
    by (intros; split; [by eapply owned_shrinks|done]).
  unfold newMachine. eapply (post_shrink_try w w); [done|apply stays_io| |done]. intros w1 _ H1. apply post_bind, post_get.
  eapply post_shrink_try; [done|apply stays_io| |done]. intros w2 _ H2. set (kind := attaches sch (tick w1)).
  assert (forall w', shrinks w w' -> forall k, runs w' (_ ← call sch; fail k : M (result machine_error nat)) (fun w' r => owned w' /\ forall m, r = Ok m -> unretained m w')) as Hfail.
  { intros w' Hs k. eapply post_shrink; [done|apply stays_call|]. intros w'' _ H''. by apply Herr. }
  assert (forall w', shrinks w w' -> forall q, q_process q = None -> owned (with_new q w') /\ unretained (fresh w') (with_new q w')) as Hnew.
  { intros w' Hs q Hq. assert (owned w') as Ho by by eapply owned_shrinks. split; [by apply owned_new|]. intros p Hp.
    destruct (ow_saved _ Ho p (fresh w') Hp) as (r & Hr & _). pose proof (proj1 (ow_fresh _ Ho) _ _ Hr). lia. }
  assert (forall q, q_process q = None -> runs w2 (console ← io sch ConsoleFailed; match console with
    | Err e => _ ← call sch; fail e
    | Ok _ => agent ← (if String.eqb (sp_GuestAgentSocketPath spec) "" then ok tt else io sch AgentFailed);
        match agent with Err e => _ ← call sch; fail e | Ok _ => w ← get; _ ← modify (with_new q); ok (fresh w) end end)
    (fun w' r => owned w' /\ forall m, r = Ok m -> unretained m w')) as Hgo.
  { intros q Hq. eapply post_shrink; [done|apply stays_io|]. intros w3 [_|e] H3; [|by apply Hfail].
    eapply post_shrink; [done|destruct (String.eqb _ ""); stays_tac|]. intros w4 [_|e] H4; [|by apply Hfail].
    apply post_bind, post_get, post_bind, post_modify, post_ret. destruct (Hnew w4 H4 q Hq) as [? ?]. split; [done|]. by intros m [= <-]. }
  destruct kind; [apply (Hgo (mkMachine spec _ true _ None false "" false)); done..|by apply Hfail].
Qed.

(** A machine stays with its save until it is closed. *)
Lemma retain_owned path m w q : owned w -> unretained m w -> saved w !! path = None -> machines w !! m = Some q -> q_closed q = false -> active q w = false ->
  owned (retain path m w).1.
Proof.
  intros Hw Hu Hp Hm Hc Ha. unfold retain, mbind, State_bind, get. rewrite Hp. cbn.
  apply (owned_retained path m (with_saved (<[path := m]> (saved w)) w) q); [| |exact Hm|exact Hc|exact Ha].
  - apply (owned_shrinks w); [|exact Hw]. split; try done. intros p m'. cbn [saved with_saved forgotten]. rewrite map_lookup_filter_Some, lookup_insert_Some.
    intros [[[_ ->]|[_ ?]] Hn]; [done|done].
  - intros p. cbn [saved with_saved]. rewrite lookup_insert_Some. intros [[-> _]|[_ Hs]]; [done|]. by destruct (Hu p).
Qed.

Lemma choose_owned path w : owned w -> runs w (choose_save o sch path) (fun w' _ => owned w').
Proof.
  intros Hw. unfold choose_save. destruct (String.eqb path ""); [done|]. apply post_bind. eapply post_conseq; [apply stays_read|].
  intros w1 r H1. assert (owned w1) as Ho1 by (eapply owned_shrinks; [exact H1|exact Hw]). destruct r as [[meta mem]|]; [|done]. destruct (negb (validateQEMUSave o meta)); [|done].
  apply post_bind. unfold takeSaved. apply post_bind, post_get, post_bind, post_modify, post_ret.
  set (w2 := with_saved (delete path (saved w1)) w1). assert (shrinks w1 w2) as H2 by apply (stays_take path w1).
  assert (owned w2) as Ho2 by by eapply owned_shrinks. destruct (saved w1 !! path) as [m|] eqn:Hs; [|done].
  apply post_bind. eapply post_conseq; [by apply Close_owned|]. intros w3 [|e] [Ho3 Hc]; [done|].
  destruct (ow_saved _ Ho1 path m Hs) as (q & Hm & Hcl & Ha). assert (shrinks w1 w3) as H3 by by etrans.
  destruct (shrinks_machine_after _ _ _ _ H3 Hm) as (q' & Hm' & Hq). apply post_bind. unfold runs at 1.
  enough (owned (retain path m w3).1) as Hr by (by destruct (retain path m w3)).
  apply (retain_owned path m w3 q'); [done| | |done|injection Hq; congruence|by eapply shrinks_inactive].
  - intros p Hp. apply (sh_saved _ _ Hc) in Hp. cbn [w2 saved with_saved] in Hp. apply lookup_delete_Some in Hp as [Hn Hp].
    apply Hn. by eapply (ow_saved_one _ Ho1).
  - destruct (saved w3 !! path) as [m'|] eqn:E; [|done]. apply (sh_saved _ _ Hc) in E. cbn [w2 saved with_saved] in E. by rewrite lookup_delete_eq in E.
Qed.

Lemma shrinks_forgotten m w w' : shrinks w w' -> shrinks (forgotten m w) (forgotten m w').
Proof.
  intros [A B C D E]. split; [exact A|exact B|exact C| |exact E]. intros p m'. cbn [saved forgotten with_saved]. rewrite !map_lookup_filter_Some. intros [H ?]. eauto.
Qed.

Lemma cleanup_stopped m w : inactive m w -> runs w (cleanupExitedQMP sch m) (fun w' _ => inactive m w').
Proof. intros Hi. eapply post_conseq; [apply stays_cleanup|]. intros w' u Hs. eapply inactive_shrinks; [exact Hs|exact Hi]. Qed.

Lemma post_any {A B} w (c : M A) (k : A -> M B) Q : (forall w' a, runs w' (k a) Q) -> runs w (c ≫= k) Q.
Proof. intros Hk. apply post_bind. apply (post_conseq _ _ (fun _ _ => True)); auto. done. Qed.

(** A save that succeeds ends with the machine stopped. *)
Lemma save_stops m pid savePath w : runs w (save_retained o sch m pid savePath) (stopped_after m).
Proof.
  unfold save_retained. apply post_any. intros w1 [tmp|e]; [|done]. apply post_any. intros w2 [_|e]; [|by apply post_any].
  apply post_any. intros w3 [_|e]; [|by do 4 (apply post_any; intros)]. apply post_any. intros w4 [_|e]; [|by apply post_any].
  apply post_try. eapply post_conseq; [apply quit_stops|]. intros w5 [u|e] H5; [|done]. apply post_bind. eapply post_conseq; [by apply cleanup_stopped|]. done.
Qed.

Lemma active_unretained m w q : owned w -> machines w !! m = Some q -> active q w = true -> unretained m w.
Proof. intros Hw Hm Ha p Hp. destruct (ow_saved _ Hw p m Hp) as (q' & Hm' & _ & Ha'). congruence. Qed.

(** What a machine being kept for a save leaves owned *)
Lemma retain_ok path m w (Q : World -> result machine_error unit -> Prop) :
  (saved w !! path = None \/ saved w !! path = Some m -> Q (with_saved (<[path := m]> (saved w)) w) (Ok tt)) -> (forall e, Q w (Err e)) -> runs w (retain path m) Q.
Proof.
  intros H1 H2. unfold retain. apply post_bind, post_get. destruct (saved w !! path) as [m'|] eqn:E; [destruct (decide (m' = m)) as [->|]|].
  - apply post_bind, post_modify, post_ret. auto.
  - apply H2.
  - apply post_bind, post_modify, post_ret. auto.
Qed.

Lemma Suspend_owned m savePath w : owned w -> runs w (Suspend o sch m savePath) (fun w' _ => owned w').
Proof.
  intros Hw. unfold Suspend. destruct (negb (o_suspend o)); [done|]. apply post_try. eapply post_conseq; [apply stays_ctx|]. intros w1 r H1.
  assert (owned w1) as Ho by (eapply owned_shrinks; [exact H1|exact Hw]). destruct r as [_|e]; [|exact Ho].
  apply runs_machine; [|intros _ q Hq _; apply post_bind, post_get; rewrite Hq; exact Ho]. intros q Hm. apply post_bind, post_get.
  destruct (q_process q) as [pid|]; [|exact Ho]. destruct (active q w1) eqn:Ha; [|exact Ho]. destruct (q_qmp q); [|exact Ho]. cbn [negb orb].
  destruct (String.eqb savePath ""); [exact Ho|]. pose proof (active_unretained _ _ _ Ho Hm Ha) as Hu. apply post_try, retain_ok; [intros Hp|intros e; exact Ho].
  set (w2 := with_saved (<[savePath := m]> (saved w1)) w1). apply post_bind. eapply post_conseq; [apply post_and; [apply stays_save|apply save_stops]|]. intros w3 r [H3 Hr].
  assert (owned (forgotten m w3)) as Ho3.
  { eapply owned_shrinks; [apply shrinks_forgotten; exact H3|]. apply (owned_shrinks w1); [|exact Ho]. split; try done. intros p m'.
    cbn [saved with_saved forgotten w2]. rewrite map_lookup_filter_Some, lookup_insert_Some. intros [[[_ ->]|[_ ?]] Hn]; done. }
  destruct r as [u|e]; [|exact Ho3]. cbn [stopped_after] in Hr. destruct (shrinks_machine_after w2 w3 m q H3 Hm) as (q' & Hm' & Hq).
  apply (owned_retained savePath m w3 q'); [exact Ho3| |exact Hm'| |by apply Hr].
  - intros p Hs. apply (sh_saved _ _ H3) in Hs. cbn [saved with_saved w2] in Hs. apply lookup_insert_Some in Hs as [[-> _]|[_ Hs]]; [done|]. by destruct (Hu p).
  - injection Hq as _ Hc. rewrite <- Hc. unfold active in Ha. by destruct (q_closed q).
Qed.

Lemma Launch_owned spec w : owned w -> runs w (Launch o sch spec) (fun w' _ => owned w').
Proof.
  intros Hw. unfold Launch. destruct (negb (validateSpec spec)); [done|]. apply post_try. eapply post_conseq; [apply stays_ctx|]. intros w1 r H1.
  assert (owned w1) as Ho1 by (eapply owned_shrinks; [exact H1|exact Hw]). destruct r as [_|e]; [|exact Ho1].
  apply post_try. eapply post_conseq; [by apply choose_owned|]. intros w2 [incoming|e] Ho2; [|exact Ho2]. apply post_bind.
  eapply (post_conseq _ _ (fun w' r => owned w' /\ forall m, r = Some m -> unretained m w')).
  { destruct (String.eqb (sp_Restore spec) ""); [by split|]. unfold takeSaved. apply post_bind, post_get, post_bind, post_modify, post_ret.
    split; [eapply owned_shrinks; [apply (stays_take (sp_Restore spec))|exact Ho2]|]. intros m Hm p. cbn [saved with_saved]. rewrite lookup_delete_Some. intros [Hn Hp].
    apply Hn. by eapply (ow_saved_one _ Ho2). }
  intros w3 retained [Ho3 Hu3]. apply post_try. eapply (post_conseq _ _ (fun w' r => owned w' /\ forall m, r = Ok m -> unretained m w')).
  { destruct retained as [m|]; [|by apply newMachine_owned]. apply post_bind, post_modify, post_ret.
    pose proof (stays_update m (with_spec spec) (fun _ => eq_refl) w3) as Hs. unfold runs in Hs. cbn in Hs.
    split; [eapply owned_shrinks; [exact Hs|exact Ho3]|]. intros m' [= <-]. eapply unretained_shrinks; [exact Hs|by apply Hu3]. }
  intros w4 [m|e] [Ho4 Hu4]; [|exact Ho4]. specialize (Hu4 m eq_refl). apply post_bind. eapply (post_conseq _ _ (fun w' _ => owned w' /\ unretained m w')).
  { destruct incoming; [by apply start_owned|by split]. }
  intros w5 [u|e] [Ho5 Hu5]; [exact Ho5|]. apply post_bind. eapply (post_conseq _ _ (fun w' _ => owned w' /\ unretained m w')).
  { destruct incoming; [|by split]. eapply post_conseq; [apply stays_forceStop|]. intros w6 u H6. split; [eapply owned_shrinks; [exact H6|exact Ho5]|eapply unretained_shrinks; [exact H6|exact Hu5]]. }
  intros w6 _ [Ho6 Hu6]. apply post_bind. eapply post_conseq; [by apply start_owned|]. intros w7 [_|e'] [Ho7 _]; [exact Ho7|].
  apply post_bind. eapply post_conseq; [by apply Close_owned|]. by intros w8 _ [Ho8 _].
Qed.
End Shrinking.

(** ** Any sequence of operations *)

Inductive op := OLaunch (spec : Spec) | OSuspend (m : nat) (savePath : string) | OStop (m : nat) | OTarget (m : nat) (targetMiB : Z) | OClose (m : nat).

Definition perform (o : Owner) (sch : Schedule) (c : op) (w : World) : World :=
  match c with
  | OLaunch spec => (Launch o sch spec w).1
  | OSuspend m savePath => (Suspend o sch m savePath w).1
  | OStop m => (Stop sch m w).1
  | OTarget m targetMiB => (SetMemoryTargetMiB sch m targetMiB w).1
  | OClose m => (Close sch m w).1
  end.

(** The files there are when the back end starts *)
Definition started (f : gmap string content) : World := mkWorld f ∅ ∅ ∅ 0 0.

Lemma owned_started f : owned (started f).
Proof. split; try done. split_and!; try done. intros pid []. done. Qed.

Lemma perform_owned o sch c w : owned w -> owned (perform o sch c w).
Proof.
  intros Hw. destruct c as [spec|m path|m|m t|m]; cbn [perform].
  - by apply (Launch_owned o sch spec w).
  - by apply (Suspend_owned o sch m path w).
  - eapply owned_shrinks; [apply (stays_Stop sch m w)|done].
  - eapply owned_shrinks; [apply (stays_target sch m t w)|done].
  - by apply (Close_owned sch m w Hw).
Qed.

(** C26: After any sequence of launches, suspends, stops, memory targets and closes, whatever
    calls failed and whatever processes exited on their own, every QEMU process that runs
    belongs to exactly one machine, which is not closed, so no process outlives the machine
    it belongs to; and every machine kept for a save is open and not running, and is kept for
    that save only. *)
Theorem machines_owned o sch f cs : owned (foldl (fun w c => perform o sch c w) (started f) cs).
Proof.
  pose proof (owned_started f) as Hw. revert Hw. generalize (started f). induction cs as [|c cs IH]; intros w Hw; [done|]. apply IH. by apply perform_owned.
Qed.
