(* ===== verification/QemuSuspend.v ===== *)
(** * Suspending and resuming a QEMU guest ([internal/hypervisor]: qemu_backend.go, qemu_save.go)

    What a suspend leaves in the save, what memory a launch brings up, and that a guest that
    was suspended is resumed with the memory it had. *)

From stdpp Require Import base list gmap strings.
From Stdlib Require Import Ascii ZArith Lia.
From S2P Require Import Prelude GoStrings GoNet Effects Qemu QemuMachine.

Local Open Scope Z_scope.
Local Open Scope effect_scope.

(** ** Suspending *)

(** Processes keep their memory, machines their monitor's path, and one file and the machines
    kept for saves stay. *)
Record kept (path : string) (w w' : World) : Prop := {
  k_memory : forall pid, memory <$> processes w' !! pid = memory <$> processes w !! pid;
  k_file : files w' !! path = files w !! path;
  k_qmpPath : forall m, q_qmpPath <$> machines w' !! m = q_qmpPath <$> machines w !! m;
  k_saved : saved w' = saved w
}.

#[export] Instance kept_preorder path : PreOrder (kept path).
Proof.
  split; [by intros w; split|]. intros w1 w2 w3 [A1 B1 C1 D1] [A2 B2 C2 D2]. split; intros; [by rewrite A2, A1|by rewrite B2, B1|by rewrite C2, C1|by rewrite D2, D1].
Qed.

Lemma memory_alter (f : Process -> Process) pid ps x : (forall p, memory (f p) = memory p) -> memory <$> (alter f pid ps : gmap nat Process) !! x = memory <$> ps !! x.
Proof.
  intros Hf. destruct (decide (pid = x)) as [->|Hn]; [|by rewrite lookup_alter_ne]. rewrite lookup_alter_eq. destruct (ps !! x) as [p|]; [|done]. cbn. by rewrite Hf.
Qed.

Lemma memory_die pids ps x : memory <$> (die pids ps) !! x = memory <$> ps !! x.
Proof. induction pids as [|pid pids IH]; [done|]. cbn [die foldr]. rewrite memory_alter by done. apply IH. Qed.

Section Saving.
Context (o : Owner) (sch : Schedule) (path : string).

Lemma kept_call : stays (kept path) (call sch).
Proof. intros w. split; cbn; auto. intros. apply memory_die. Qed.

Lemma kept_update m f : (forall q, q_qmpPath (f q) = q_qmpPath q) -> stays (kept path) (update m f).
Proof.
  intros Hf w. split; [done..| |done]. intros x. cbn. destruct (decide (m = x)) as [->|Hn]; [|by rewrite lookup_alter_ne].
  rewrite lookup_alter_eq. destruct (machines w !! x) as [q|]; [|done]. cbn. by rewrite Hf.
Qed.

Lemma kept_set_process pid f : (forall p, memory (f p) = memory p) -> stays (kept path) (set_process pid f).
Proof. intros Hf w. split; [|done..]. intros x. by apply memory_alter. Qed.

Lemma kept_put p c : p <> path -> stays (kept path) (put_file p c).
Proof. intros Hp w. split; [done| |done..]. cbn. by rewrite lookup_insert_ne. Qed.

Lemma kept_delete p : p <> path -> stays (kept path) (modify (fun w => with_files (delete p (files w)) w)).
Proof. intros Hp w. split; [done| |done..]. cbn. by rewrite lookup_delete_ne. Qed.

#[local] Hint Resolve kept_call kept_put kept_delete : frame.
#[local] Hint Extern 1 (stays (kept _) (update _ _)) => apply kept_update; done : frame.
#[local] Hint Extern 1 (stays (kept _) (set_process _ _)) => apply kept_set_process; done : frame.

Lemma kept_io e : stays (kept path) (io sch e).
Proof. unfold io. stays_tac. Qed.
Lemma kept_ctx : stays (kept path) (ctx_err sch).
Proof. unfold ctx_err. stays_tac. Qed.
Lemma kept_machine m : stays (kept path) (machine m).
Proof. unfold machine. stays_tac. Qed.
Lemma kept_remove p : p <> path -> stays (kept path) (remove_file sch p).
Proof. intros Hp. unfold remove_file. stays_tac. Qed.
Lemma kept_kill pid : stays (kept path) (kill sch pid).
Proof. unfold kill. stays_tac. Qed.
Lemma kept_execute pid f e : (forall p, memory (f p) = memory p) -> stays (kept path) (execute sch pid f e).
Proof. intros Hf. unfold execute. stays_tac. Qed.
#[local] Hint Resolve kept_io kept_ctx kept_machine kept_remove kept_kill : frame.
#[local] Hint Extern 1 (stays (kept _) (execute _ _ _ _)) => apply kept_execute; done : frame.
Lemma kept_quit m : stays (kept path) (quitLocked sch m).
Proof. unfold quitLocked. stays_tac. Qed.
#[local] Hint Resolve kept_quit : frame.

Section Fresh.
Context (Htmp : forall n, temporary sch n <> path).

Lemma kept_prepare : stays (kept path) (prepareQEMUSave o sch).
Proof. unfold prepareQEMUSave. stays_tac. Qed.

Lemma prepare_header w : runs w (prepareQEMUSave o sch) (fun w' r => forall tmp, r = Ok tmp -> tmp <> path /\ files w' !! tmp = Some (SaveFile (our_metadata o) None)).
Proof.
  unfold prepareQEMUSave. apply post_any. intros w1 w0. do 2 (apply post_any; intros ? [_|?]; [|done]). apply post_any. intros w2 _. apply post_any.
  intros w3 [_|e]; [|by apply post_any]. apply post_bind, post_modify, post_ret. intros tmp [= <-]. split; [apply Htmp|]. cbn. apply lookup_insert_eq.
Qed.
End Fresh.

Lemma kept_migrate pid tmp : tmp <> path -> stays (kept path) (migrate sch pid tmp).
Proof. intros Ht. unfold migrate. stays_tac. Qed.

End Saving.

Section Outcome.
Context (o : Owner) (sch : Schedule).

(** A migration that completes has written the memory of the process. *)
Lemma migrate_memory pid tmp w meta mem p : files w !! tmp = Some (SaveFile meta mem) -> processes w !! pid = Some p ->
  runs w (migrate sch pid tmp) (fun w' r => r = Ok tt -> files w' !! tmp = Some (SaveFile meta (Some (memory p)))).
Proof.
  intros Hf Hp. unfold migrate. apply post_try. eapply post_conseq; [by apply (kept_execute sch tmp pid id)|]. intros w1 [u|e] H1; [|done].
  apply post_bind. eapply post_conseq; [apply (kept_call sch tmp)|]. intros w2 f H2. apply post_bind, post_get.
  assert (kept tmp w w2) as [Km Kf _ _] by (etrans; [exact H1|exact H2]). specialize (Km pid). rewrite Hp in Km. rewrite Kf, Hf.
  destruct (processes w2 !! pid) as [p'|]; [|done]. destruct (f || negb (alive p')); [done|]. apply post_bind, post_modify, post_ret. intros _. cbn. rewrite lookup_insert_eq.
  do 3 f_equal. cbn in Km. congruence.
Qed.

Definition same (w w' : World) : Prop := forall p, kept p w w'.

Lemma io_step {B} w0 w e (k : unit -> M (result machine_error B)) Q : same w0 w -> (forall w', same w0 w' -> runs w' (k tt) Q) ->
  (forall w' e, same w0 w' -> Q w' (Err e)) -> runs w (try_bind (io sch e) k) Q.
Proof.
  intros Hs Hk He. apply post_try. eapply (post_conseq _ _ (fun w' _ => same w w')); [intros p; apply kept_io|].
  intros w' r H'. assert (same w0 w') as H0 by (intros p; etrans; [apply Hs|apply H']). destruct r as [[]|e']; auto.
Qed.

(** A commit leaves the destination as it was or makes it the file. *)
Definition committed (tmp path : string) (w w' : World) (r : result machine_error unit) : Prop :=
  (forall p, p <> tmp -> p <> path -> kept p w w') /\ (forall pid, memory <$> processes w' !! pid = memory <$> processes w !! pid) /\ (forall m, q_qmpPath <$> machines w' !! m = q_qmpPath <$> machines w !! m) /\ saved w' = saved w /\
  (files w' !! path = files w !! path \/ files w' !! path = files w !! tmp) /\ (r = Ok tt -> files w' !! path = files w !! tmp).

Lemma commit_whole tmp path w : tmp <> path -> runs w (commitQEMUSave sch tmp path) (committed tmp path w).
Proof.
  intros Ht. assert (forall w' e, same w w' -> committed tmp path w w' (Err e)) as Herr.
  { intros w' e H'. split_and!; [by intros; apply H'|apply (H' path)|apply (H' path)|apply (H' path)|left; apply H'|done]. }
  unfold commitQEMUSave. eapply (io_step w w); [by intros p| |done]. intros w1 H1. eapply io_step; [exact H1| |done]. intros w2 H2. eapply io_step; [exact H2| |done]. intros w3 H3.
  eapply io_step; [exact H3| |done]. intros w4 H4. apply post_bind, post_get. destruct (files _ !! tmp) as [c|] eqn:Hc; [|by apply Herr].
  apply post_bind, post_modify. set (w5 := with_files _ _).
  assert (forall w' r, same w5 w' -> committed tmp path w w' r) as Hdone.
  { intros w' r H'. assert (files w' !! path = files w !! tmp) as E by (rewrite (k_file _ _ _ (H' path)); cbn; by rewrite lookup_insert_eq, <- Hc; apply (H4 tmp)).
    split_and!; [|intros; etrans; [apply (k_memory _ _ _ (H' path))|apply (H4 path)]|intros; etrans; [apply (k_qmpPath _ _ _ (H' path))|apply (H4 path)]|etrans; [apply (k_saved _ _ _ (H' path))|apply (H4 path)]|by right|done].
    intros p Np Nq. etrans; [apply H4|]. etrans; [|apply H']. split; [done| |done..]. cbn. by rewrite lookup_insert_ne, lookup_delete_ne. }
  eapply (io_step w5 w5); [by intros p| |auto]. intros w6 H6. eapply io_step; [exact H6| |auto]. intros w7 H7.
  apply (post_conseq _ _ (fun w' _ => same w7 w')); [intros p; apply kept_io|]. intros w' r H'. apply Hdone. intros p. etrans; [apply H7|apply H'].
Qed.

Lemma cleanup_file m path w : (forall q, machines w !! m = Some q -> q_qmpPath q <> path) -> path <> "" -> runs w (cleanupExitedQMP sch m) (fun w' _ => files w' !! path = files w !! path /\ saved w' = saved w).
Proof.
  intros Hq Hp. unfold cleanupExitedQMP. apply post_bind. unfold machine. apply post_bind, post_get, post_ret. set (q := default _ _).
  assert (q_qmpPath q <> path) as Hn by (unfold q; destruct (machines w !! m) eqn:E; [by apply Hq|done]).
  apply post_bind. eapply (post_conseq _ _ (fun w' _ => kept path w w')).
  { destruct (q_qmp q); [|apply post_ret; reflexivity]. apply post_bind. eapply post_conseq; [apply (kept_call sch path)|]. intros w1 f H1. destruct f; [exact H1|].
    eapply post_conseq; [by apply (kept_update path)|]. intros w2 u H2. etrans; [exact H1|exact H2]. }
  intros w1 u H1. destruct (String.eqb (q_qmpPath q) ""); [by destruct H1|]. apply post_bind. eapply post_conseq; [apply (kept_call sch path)|]. intros w2 f H2.
  assert (kept path w w2) as H02 by (etrans; [exact H1|exact H2]). destruct f; [by destruct H02|].
  apply post_bind, post_modify. eapply (post_conseq _ _ (fun w' _ => files w' = delete (q_qmpPath q) (files w2) /\ saved w' = saved w2)); [done|]. intros w3 v [-> ->].
  rewrite lookup_delete_ne by done. by destruct H02.
Qed.

Section Suspending.
Context (m pid : nat) (savePath : string) (p : Process) (Htmp : forall n, temporary sch n <> savePath).

Definition complete (w : World) : Prop := files w !! savePath = Some (SaveFile (our_metadata o) (Some (memory p))).

(** The save is as it was or complete, and complete when the suspend succeeds. *)
Definition save_safe (w w' : World) (r : result machine_error unit) : Prop := (files w' !! savePath = files w !! savePath \/ complete w') /\ (r = Ok tt -> complete w') /\ saved w' = saved w.

Lemma kept_safe w w' e : kept savePath w w' -> save_safe w w' (Err e).
Proof. intros [_ H _ Hs]. split_and!; [by left|done|done]. Qed.

Lemma save_paused_safe tmp w q : tmp <> savePath -> files w !! tmp = Some (SaveFile (our_metadata o) None) -> memory <$> processes w !! pid = Some (memory p) ->
  machines w !! m = Some q -> q_qmpPath q <> savePath -> savePath <> "" -> runs w (save_paused sch m pid tmp savePath) (save_safe w).
Proof.
  intros Ht Hf Hmem Hm Hq Hne. apply fmap_Some in Hmem as (p0 & Hp0 & Hmem). unfold save_paused. apply post_bind.
  eapply post_conseq; [apply post_and; [by apply (kept_migrate sch savePath)|eapply migrate_memory; [exact Hf|exact Hp0]]|]. intros w1 r [H1 Hr].
  destruct r as [[]|e].
  - specialize (Hr eq_refl). apply post_bind. eapply post_conseq; [by apply commit_whole|]. intros w2 c (_ & _ & Cq & Cs & Cf & Cok). rewrite Hr, <- Hmem in Cf, Cok.
    assert (saved w2 = saved w) as Cs2 by (rewrite Cs; apply H1).
    assert (files w2 !! savePath = files w !! savePath \/ complete w2) as Hor by (destruct Cf as [->|]; [left; apply H1|by right]).
    destruct c as [[]|e].
    + specialize (Cok eq_refl). apply post_try. eapply post_conseq; [apply (kept_quit sch savePath)|]. intros w3 r H3.
      assert (complete w3) as Hc3 by (unfold complete; by rewrite (k_file _ _ _ H3)). assert (saved w3 = saved w) as Cs3 by (rewrite (k_saved _ _ _ H3); done).
      destruct r as [u|e]; [|by split_and!; [right| |]].
      apply post_bind. eapply post_conseq; [apply cleanup_file; [|done]|].
      * intros q3 Hm3. pose proof (k_qmpPath _ _ _ H3 m) as E. rewrite Hm3, Cq, (k_qmpPath _ _ _ H1), Hm in E. cbn in E. congruence.
      * intros w4 v [E Es]. apply post_ret. split_and!; [right|intros _|congruence]; unfold complete; by rewrite E.
    + apply post_bind. eapply post_conseq; [by apply (kept_remove sch savePath)|]. intros w3 u H3. apply post_ret. split_and!; [|done|rewrite (k_saved _ _ _ H3); done]. destruct Hor as [E|E]; [left|right; unfold complete in *]; by rewrite (k_file _ _ _ H3).
  - apply post_bind. eapply post_conseq; [apply (kept_machine savePath)|]. intros w2 q2 H2. apply post_bind, post_get. apply post_bind.
    eapply (post_conseq _ _ (fun w' _ => kept savePath w2 w')); [destruct (active q2 w2); [by apply kept_execute|apply post_ret; reflexivity]|]. intros w3 u H3.
    apply post_bind. eapply post_conseq; [by apply (kept_remove sch savePath)|]. intros w4 v H4. apply kept_safe. etrans; [exact H1|]. etrans; [exact H2|]. etrans; [exact H3|exact H4].
Qed.

Lemma save_retained_safe w q : memory <$> processes w !! pid = Some (memory p) -> machines w !! m = Some q -> q_qmpPath q <> savePath -> savePath <> "" -> runs w (save_retained o sch m pid savePath) (save_safe w).
Proof.
  intros Hp Hm Hq Hne. unfold save_retained. apply post_try. eapply post_conseq; [apply post_and; [by apply (kept_prepare o sch savePath)|by apply (prepare_header o sch savePath)]|].
  intros w1 r [H1 Hr]. destruct r as [tmp|e]; [|by apply kept_safe]. destruct (Hr tmp eq_refl) as [Ht Hf]. apply post_bind.
  eapply post_conseq; [apply post_and; [by apply (kept_execute sch savePath)|by apply (kept_execute sch tmp)]|]. intros w2 r [H2 H2t].
  assert (kept savePath w w2) as H02 by (etrans; [exact H1|exact H2]). destruct r as [u|e].
  - pose proof (k_qmpPath _ _ _ H02 m) as E. rewrite Hm in E. apply fmap_Some in E as (q2 & Hm2 & E2).
    eapply post_conseq; [apply (save_paused_safe tmp w2 q2); [done| | |done|congruence|done]|].
    + by rewrite (k_file _ _ _ H2t).
    + by rewrite (k_memory _ _ _ H02), Hp.
    + intros w3 r (Hor & Hok & Hs). split_and!; [|done|rewrite Hs; apply H02]. destruct Hor as [->|]; [left; apply H02|by right].
  - apply post_bind. eapply post_conseq; [by apply (kept_remove sch savePath)|]. intros w3 v H3. apply kept_safe. etrans; [exact H02|exact H3].
Qed.

Definition suspend_outcome (w w' : World) (r : result machine_error unit) : Prop :=
  (files w' !! savePath = files w !! savePath \/ complete w') /\
  match r with
  | Ok _ => complete w' /\ saved w' !! savePath = Some m /\ is_alive w' pid = false
  | Err _ => forall s m', saved w' !! s = Some m' -> saved w !! s = Some m'
  end.

Lemma kept_outcome w w' e : kept savePath w w' -> suspend_outcome w w' (Err e).
Proof. intros [_ H _ Hs]. split; [by left|]. by rewrite Hs. Qed.

Lemma Suspend_outcome w q : machines w !! m = Some q -> q_process q = Some pid -> processes w !! pid = Some p -> q_qmpPath q <> savePath ->
  runs w (Suspend o sch m savePath) (suspend_outcome w).
Proof.
  intros Hm Hpid Hp Hq. unfold Suspend. destruct (negb (o_suspend o)); [by apply kept_outcome|]. apply post_try.
  eapply post_conseq; [apply post_and; [apply (kept_ctx sch savePath)|apply (stays_ctx sch)]|]. intros w1 r [H1 S1]. destruct r as [u|e]; [|by apply kept_outcome].
  destruct (shrinks_machine_after _ _ _ _ S1 Hm) as (q1 & Hm1 & [= Ep Ec]). pose proof (k_qmpPath _ _ _ H1 m) as E. rewrite Hm1, Hm in E. cbn in E.
  pose proof (k_memory _ _ _ H1 pid) as Ek. rewrite Hp in Ek.
  apply runs_machine; [|congruence]. intros q' Hm'. assert (q' = q1) as -> by congruence. apply post_bind, post_get. rewrite <- Ep, Hpid.
  destruct (active q1 w1) eqn:Ha; [|by apply kept_outcome]. destruct (q_qmp q1); [|by apply kept_outcome]. cbn [negb orb].
  destruct (String.eqb_spec savePath ""); [by apply kept_outcome|]. apply post_try, retain_ok; [intros _|intros e; by apply kept_outcome].
  set (w2 := with_saved (<[savePath := m]> (saved w1)) w1). apply post_bind.
  eapply post_conseq; [apply post_and; [apply (save_retained_safe w2 q1); [exact Ek|exact Hm1|congruence|done]|apply post_and; [apply stays_save|apply save_stops]]|].
  intros w3 r [(Hor & Hok & Hs) [S3 Hst]]. assert (files w3 !! savePath = files w !! savePath \/ complete w3) as Hor3.
  { destruct Hor as [->|]; [left; apply (k_file _ _ _ H1)|by right]. }
  destruct r as [[]|e].
  - apply post_ret. split; [done|]. split_and!; [by apply Hok|rewrite Hs; apply lookup_insert_eq|]. destruct (shrinks_machine_after w2 w3 m q1 S3 Hm1) as (q3 & Hm3 & [= Ep3 Ec3]).
    specialize (Hst q3 Hm3). unfold active in Ha, Hst. rewrite <- Ep3, <- Ec3, <- Ep, Hpid in Hst. by destruct (q_closed q1).
  - apply post_bind, post_modify, post_ret. split; [exact Hor3|]. intros s m'. cbn [saved forgotten with_saved]. rewrite map_lookup_filter_Some, Hs. cbn [saved with_saved w2].
    rewrite lookup_insert_Some, (k_saved _ _ _ H1). intros [[[_ ->]|[_ ?]] ?]; done.
Qed.
End Suspending.
End Outcome.

(** ** What stays of a machine that is suspended *)

(** All of a machine but its monitor *)
Definition core (q : qemuMachine) : qemuMachine := with_qmpPath "" (with_qmp false q).

Record rests (path : string) (w w' : World) : Prop := {
  r_core : forall m, core <$> machines w' !! m = core <$> machines w !! m;
  r_file : files w' !! path = files w !! path \/ files w' !! path = None
}.

#[export] Instance rests_preorder path : PreOrder (rests path).
Proof.
  split; [by intros w; split; [|left]|]. intros w1 w2 w3 [A1 B1] [A2 B2]. split; [intros; by rewrite A2, A1|]. destruct B2 as [->|]; auto.
Qed.

Section Resting.
Context (o : Owner) (sch : Schedule) (path : string).

Lemma rests_call : stays (rests path) (call sch).
Proof. intros w. by split; [|left]. Qed.

Lemma rests_update m f : (forall q, core (f q) = core q) -> stays (rests path) (update m f).
Proof.
  intros Hf w. split; [|by left]. intros x. cbn. destruct (decide (m = x)) as [->|Hn]; [|by rewrite lookup_alter_ne].
  rewrite lookup_alter_eq. destruct (machines w !! x) as [q|]; [|done]. cbn. by rewrite Hf.
Qed.

Lemma rests_files f : (forall w, files w !! path = f w !! path \/ f w !! path = None) -> stays (rests path) (modify (fun w => with_files (f w) w)).
Proof. intros Hf w. split; [done|]. destruct (Hf w); [left|right]; by cbn. Qed.

Lemma rests_put p c : p <> path -> stays (rests path) (put_file p c).
Proof. intros Hp. apply rests_files. intros w. left. by rewrite lookup_insert_ne. Qed.

Lemma rests_delete p : stays (rests path) (modify (fun w => with_files (delete p (files w)) w)).
Proof. apply rests_files. intros w. destruct (decide (p = path)) as [->|]; [right; apply lookup_delete_eq|left; by rewrite lookup_delete_ne]. Qed.

Lemma rests_other f : (forall w, machines (f w) = machines w /\ files (f w) = files w) -> stays (rests path) (modify f).
Proof. intros Hf w. destruct (Hf w) as [E1 E2]. split; cbn; rewrite ?E1, ?E2; auto. Qed.

#[local] Hint Resolve rests_call rests_put rests_delete : frame.
#[local] Hint Extern 1 (stays (rests _) (update _ _)) => apply rests_update; done : frame.
#[local] Hint Extern 2 (stays (rests _) (modify _)) => apply rests_other; done : frame.
#[local] Hint Extern 1 (stays (rests _) (set_process _ _)) => apply rests_other; done : frame.
#[local] Hint Extern 1 (stays (rests _) (forget _)) => apply rests_other; done : frame.

Lemma rests_commit tmp destination : destination <> path -> stays (rests path) (commitQEMUSave sch tmp destination).
Proof.
  intros Hd. unfold commitQEMUSave, io. stays_tac. apply rests_files. intros w. rewrite lookup_insert_ne by done.
  destruct (decide (tmp = path)) as [->|]; [right; apply lookup_delete_eq|left; by rewrite lookup_delete_ne].
Qed.
#[local] Hint Resolve rests_commit : frame.

Lemma rests_save m pid savePath : savePath <> path -> (forall n, temporary sch n <> path) -> stays (rests path) (save_retained o sch m pid savePath).
Proof.
  intros Hs Ht w. unfold save_retained. apply post_try. eapply (post_conseq _ _ (fun w' r => rests path w w' /\ forall tmp, r = Ok tmp -> tmp <> path)).
  { apply post_and; [|eapply post_conseq; [by apply (prepare_header o sch path)|]; intros w' r Hr tmp E; by destruct (Hr tmp E)].
    enough (stays (rests path) (prepareQEMUSave o sch)) as H by apply H. unfold prepareQEMUSave, remove_file, io. stays_tac. }
  intros w1 r [H1 Hr]. destruct r as [tmp|e]; [|exact H1]. specialize (Hr tmp eq_refl).
  eapply (post_conseq _ _ (fun w' _ => rests path w1 w')); [|intros w2 u H2; etrans; [exact H1|exact H2]].
  match goal with |- runs _ ?c _ => enough (stays (rests path) c) as H by apply H end.
  unfold save_paused, migrate, cleanupExitedQMP, quitLocked, execute, kill, remove_file, machine, io. stays_tac.
Qed.
#[local] Hint Resolve rests_save : frame.

Lemma rests_Suspend m savePath : savePath <> path -> (forall n, temporary sch n <> path) -> stays (rests path) (Suspend o sch m savePath).
Proof. intros Hs Ht. unfold Suspend, retain, ctx_err, machine. stays_tac. Qed.
End Resting.

(** ** Launching *)

(** Saves are only removed, machines keep what they were launched with. *)
Record carries (w w' : World) : Prop := {
  c_save : forall p meta mem, files w' !! p = Some (SaveFile meta mem) -> files w !! p = Some (SaveFile meta mem);
  c_spec : forall m q', machines w' !! m = Some q' -> exists q, machines w !! m = Some q /\ q_spec q = q_spec q';
  c_fresh : (fresh w <= fresh w')%nat
}.

#[export] Instance carries_preorder : PreOrder carries.
Proof.
  split; [intros w; split; eauto|]. intros w1 w2 w3 [A1 B1 C1] [A2 B2 C2]. split; [eauto| |lia].
  intros m q3 (q2 & H2 & E2)%B2. destruct (B1 m q2 H2) as (q1 & H1 & E1). exists q1. split; [done|congruence].
Qed.

Lemma spec_alter f m (ms : gmap nat qemuMachine) x q' : (forall q, q_spec (f q) = q_spec q) -> alter f m ms !! x = Some q' -> exists q, ms !! x = Some q /\ q_spec q = q_spec q'.
Proof. intros Hf. rewrite lookup_alter_Some. intros [(-> & q & Hq & ->)|[_ Hq]]; eauto. Qed.

Section Launching.
Context (o : Owner) (sch : Schedule).

Lemma carries_call : stays carries (call sch).
Proof. intros w. split; cbn; eauto. Qed.

Lemma carries_update m f : (forall q, q_spec (f q) = q_spec q) -> stays carries (update m f).
Proof. intros Hf w. split; [done| |done]. intros x q'. by apply spec_alter. Qed.

Lemma carries_delete p : stays carries (modify (fun w => with_files (delete p (files w)) w)).
Proof. intros w. split; cbn; [|eauto|done]. intros x meta mem. rewrite lookup_delete_Some. by intros [_ ?]. Qed.

Lemma carries_other f : (forall w, machines (f w) = machines w /\ files (f w) = files w /\ fresh (f w) = fresh w) -> stays carries (modify f).
Proof. intros Hf w. destruct (Hf w) as (E1 & E2 & E3). split; cbn; rewrite ?E1, ?E2, ?E3; eauto. Qed.

Lemma carries_spawn m p : stays carries (spawn m p).
Proof.
  intros w. split; cbn; [|intros x q'; by apply spec_alter|lia]. intros x meta mem. rewrite lookup_insert_Some. by intros [[_ [=]]|[_ ?]].
Qed.

#[local] Hint Resolve carries_call carries_delete carries_spawn : frame.
#[local] Hint Extern 1 (stays carries (update _ _)) => apply carries_update; done : frame.
#[local] Hint Extern 2 (stays carries (modify _)) => apply carries_other; done : frame.
#[local] Hint Extern 1 (stays carries (set_process _ _)) => apply carries_other; done : frame.
#[local] Hint Extern 1 (stays carries (takeSaved _)) => unfold takeSaved; stays_tac : frame.

Lemma carries_start m incoming : stays carries (start o sch m incoming).
Proof.
  unfold start, bring_up, or_kill, connect, restore, removeStaleQMPSocket, execute, kill, ctx_err, machine, io. stays_tac.
Qed.

Lemma carries_forceStop m : stays carries (forceStopLocked sch m).
Proof. unfold forceStopLocked, execute, kill, machine. stays_tac. Qed.

(** *** Bringing a process up *)

Lemma post_kept {A B} pid mem w (c : M A) (k : A -> M B) Q : (forall path, stays (kept path) c) -> memory <$> processes w !! pid = Some mem ->
  (forall w' a, same w w' -> memory <$> processes w' !! pid = Some mem -> runs w' (k a) Q) -> runs w (c ≫= k) Q.
Proof.
  intros Hc Hm Hk. apply post_bind. eapply (post_conseq _ _ (fun w' _ => same w w')); [intros path; apply Hc|]. intros w' a Hs. apply Hk; [done|].
  by rewrite (k_memory _ _ _ (Hs "")).
Qed.

Lemma kept_connect path pid : stays (kept path) (connect sch pid).
Proof. unfold connect. apply stays_bind; [apply _|apply kept_call|]. intros f. apply stays_bind; [apply _|apply stays_get; apply _|]. intros w. destruct (f || _); apply stays_ret; apply _. Qed.

(** A process that runs *)
Definition runs_with (pid mem : nat) (w : World) : Prop := exists p, processes w !! pid = Some p /\ alive p = true /\ running p = true /\ memory p = mem.

Lemma continue_up pid mem w : memory <$> processes w !! pid = Some mem -> runs w (execute sch pid continue MonitorFailed) (fun w' r => r = Ok tt -> runs_with pid mem w').
Proof.
  intros Hm. unfold execute. apply post_bind, post_get. apply (post_kept pid mem); [intros; apply kept_call|done|]. intros w1 f _ H1. apply post_bind, post_get.
  destruct (is_alive w1 pid) eqn:Ha; [cbn [negb]|done]. destruct f; [apply post_any; done|]. cbn [negb orb]. apply post_bind, post_modify, post_ret. intros _.
  apply fmap_Some in H1 as (p & Hp & ->). unfold is_alive in Ha. rewrite Hp in Ha. exists (continue p). cbn. by rewrite lookup_alter_eq, Hp.
Qed.

(** Where the memory of a guest comes from: its own boot or the save *)
Definition memory_of (incoming : string) (boot : nat) (f : gmap string content) (mem : nat) : Prop :=
  if String.eqb incoming "" then mem = boot else exists meta, f !! incoming = Some (SaveFile meta (Some mem)).

Lemma restore_memory pid incoming w mem0 : memory <$> processes w !! pid = Some mem0 -> runs w (restore sch pid incoming) (fun w' r => r = Ok tt ->
  exists mem meta, memory <$> processes w' !! pid = Some mem /\ files w !! incoming = Some (SaveFile meta (Some mem))).
Proof.
  intros Hm. unfold restore. apply (post_kept pid mem0); [intros; apply kept_call|done|]. intros w1 f S1 H1. apply post_bind, post_get. rewrite (k_file _ _ _ (S1 incoming)).
  destruct (files w !! incoming) as [[meta [mem|]| |]|] eqn:Hf; try done. destruct (f || negb (is_alive w1 pid)); [done|]. apply post_bind, post_modify.
  eapply post_conseq; [apply (kept_io sch "")|]. intros w2 r H2 _. exists mem, meta. split; [|done]. rewrite (k_memory _ _ _ H2). cbn. rewrite lookup_alter_eq.
  apply fmap_Some in H1 as (p & -> & _). done.
Qed.

Lemma bring_up_memory m pid incoming w mem0 : memory <$> processes w !! pid = Some mem0 -> runs w (bring_up sch m pid incoming) (fun w' r => r = Ok tt ->
  exists mem, runs_with pid mem w' /\ memory_of incoming mem0 (files w) mem).
Proof.
  intros Hm. unfold bring_up. apply (post_kept pid mem0); [intros; apply kept_connect|done|]. intros w1 [u|e] S1 H1; [|by apply post_any].
  apply (post_kept pid mem0); [intros; apply kept_connect|done|]. intros w2 [u2|e] S2 H2; [|by apply post_any].
  apply (post_kept pid mem0); [intros; apply kept_connect|done|]. intros w3 [u3|e] S3 H3; [|by apply post_any].
  apply (post_kept pid mem0); [intros; by apply kept_update|done|]. intros w4 u4 S4 H4. apply post_bind.
  eapply (post_conseq _ _ (fun w5 r => r = Ok tt -> exists mem, memory <$> processes w5 !! pid = Some mem /\ memory_of incoming mem0 (files w) mem)).
  { unfold memory_of. destruct (String.eqb incoming ""); [intros _; by exists mem0|]. eapply post_conseq; [by apply (restore_memory _ _ _ mem0)|].
    intros w5 r Hr E. destruct (Hr E) as (mem & meta & Hmem & Hf). exists mem. split; [done|]. exists meta.
    by rewrite (k_file _ _ _ (S4 _)), (k_file _ _ _ (S3 _)), (k_file _ _ _ (S2 _)), (k_file _ _ _ (S1 _)) in Hf. }
  intros w5 [[]|e] H5; [|by apply post_any]. destruct (H5 eq_refl) as (mem & Hmem & Ho). apply post_bind. eapply post_conseq; [by apply continue_up|].
  intros w6 [[]|e] H6; [|by apply post_any]. apply post_bind, post_get. destruct (is_alive w6 pid); [|done]. intros _. exists mem. auto.
Qed.

Definition up (m : nat) (spec : Spec) (pid mem : nat) (w : World) : Prop :=
  (exists q, machines w !! m = Some q /\ q_spec q = spec /\ q_closed q = false /\ q_process q = Some pid) /\ runs_with pid mem w.

(** Both frames, before the process is there *)
Definition waits (w w' : World) : Prop := shrinks w w' /\ carries w w'.

Lemma post_waits {A B} w0 w (c : M (result machine_error A)) (k : A -> M (result machine_error B)) Q : waits w0 w -> stays shrinks c -> stays carries c ->
  (forall w' a, waits w0 w' -> runs w' (k a) Q) -> (forall w' e, Q w' (Err e)) -> runs w (try_bind c k) Q.
Proof.
  intros [H1 H2] Hc1 Hc2 Hk He. apply post_try. eapply post_conseq; [apply post_and; [apply Hc1|apply Hc2]|]. intros w' [a|e] [S1 S2]; [|apply He].
  apply Hk. split; [etrans; [exact H1|exact S1]|etrans; [exact H2|exact S2]].
Qed.

Lemma start_up m incoming w : runs w (start o sch m incoming) (fun w' r => r = Ok tt ->
  exists q pid mem, machines w !! m = Some q /\ (fresh w <= pid)%nat /\ up m (q_spec q) pid mem w' /\ memory_of incoming (S pid) (files w) mem).
Proof.
  unfold start. apply runs_machine; [|intros _ q _ Hc; apply post_bind, post_get; rewrite Hc; done]. intros q Hm. apply post_bind, post_get.
  destruct (q_closed q) eqn:Hc; [done|]. destruct (active q w); [done|]. apply post_bind. eapply (post_conseq _ _ (fun w' _ => waits w w')).
  { destruct (q_qmp q); [|split; reflexivity]. split.
    - enough (stays shrinks (_ ← call sch; update m (with_qmp false))) as H by apply H. apply stays_bind; [apply _|apply stays_call|]. intros _. by apply stays_update.
    - enough (stays carries (_ ← call sch; update m (with_qmp false))) as H by apply H. stays_tac. }
  intros w1 u H1. eapply post_waits; [exact H1|apply stays_ctx|unfold ctx_err; stays_tac| |done]. intros w2 u2 H2.
  eapply post_waits; [exact H2|apply stays_stale|unfold removeStaleQMPSocket, io; stays_tac| |done]. intros w3 u3 H3.
  destruct (buildQEMUArgv _); [|done]. eapply post_waits; [exact H3|apply stays_io|unfold io; stays_tac| |done]. intros w4 u4 [S4 C4].
  destruct (shrinks_machine_after _ _ _ _ S4 Hm) as (q4 & Hm4 & [= _ Ec]). destruct (c_spec _ _ C4 _ _ Hm4) as (q' & Hm' & Es). assert (q' = q) as -> by congruence.
  apply post_bind. set (qmpPath := qemuSocketPath _). eapply (post_conseq _ _ (fun w5 pid => w5 = (spawn m qmpPath w4).1 /\ pid = fresh w4)); [by split|]. intros w5 pid [E5 E]. subst pid.
  assert (machines w5 !! m = Some (with_process (fresh w4) qmpPath q4)) as Hm5 by (subst w5; cbn; by rewrite lookup_alter_eq, Hm4).
  assert (processes w5 !! fresh w4 = Some (mkProcess true false (S (fresh w4)))) as Hp5 by (subst w5; cbn; by rewrite lookup_insert_eq).
  eapply post_conseq; [apply post_and; [apply (bring_up_memory m (fresh w4) incoming w5 (S (fresh w4))); by rewrite Hp5|apply post_and; [apply stays_bring_up|]]|].
  { enough (stays carries (bring_up sch m (fresh w4) incoming)) as H by apply H. unfold bring_up, or_kill, connect, restore, execute, kill, io. stays_tac. }
  intros w6 r [Hr [S6 C6]] ->. destruct (Hr eq_refl) as (mem & Hup & Ho). exists q, (fresh w4), mem. split_and!; [done|apply C4| |].
  - split; [|done]. destruct (shrinks_machine_after _ _ _ _ S6 Hm5) as (q6 & Hm6 & [= Ep6 Ec6]). destruct (c_spec _ _ C6 _ _ Hm6) as (q5 & Hq5 & Es5).
    rewrite Hm5 in Hq5. injection Hq5 as <-. exists q6. split_and!; [done| | |done]; cbn in *; congruence.
  - unfold memory_of in *. destruct (String.eqb incoming ""); [done|]. destruct Ho as (meta & Hf). exists meta. apply C4. subst w5. cbn in Hf.
    apply lookup_insert_Some in Hf as [[_ [=]]|[_ ?]]. done.
Qed.

Lemma read_header path w : runs w (readQEMUSave sch path) (fun w' r => carries w w' /\ forall meta mem, r = Ok (meta, mem) -> files w !! path = Some (SaveFile meta mem) /\ Schema meta = qemuSaveSchema).
Proof.
  unfold readQEMUSave. apply post_try. eapply (post_conseq _ _ (fun w' _ => carries w w')); [enough (stays carries (io sch IncompatibleSave)) as H by apply H; unfold io; stays_tac|].
  intros w1 [u|e] H1; [|by split]. apply post_bind, post_get. destruct (files w1 !! path) as [[meta mem| |]|] eqn:Hf; try by split.
  destruct (Z.eqb_spec (Schema meta) qemuSaveSchema) as [Hs|]; [|by split]. cbn [negb]. destruct (_ || _ || _ || _); [by split|]. split; [done|]. intros meta' mem' [= <- <-].
  split; [by apply H1|done].
Qed.

(** Metadata that passes both checks is what this back end writes. *)
Lemma metadata_validated meta : Schema meta = qemuSaveSchema -> validateQEMUSave o meta = true -> validateQEMUSaveVersion o meta = true -> meta = our_metadata o.
Proof.
  unfold validateQEMUSave, validateQEMUSaveVersion, our_metadata. destruct meta as [s b v a mc]. cbn. rewrite !andb_true_iff, !String.eqb_eq. by intros -> [[-> ->] ->] ->.
Qed.

Lemma choose_incoming path w : runs w (choose_save o sch path) (fun w' r => forall i, r = Ok i -> carries w w' /\
  forall p, i = Some p -> p = path /\ path <> "" /\ o_suspend o = true /\ exists mem, files w !! path = Some (SaveFile (our_metadata o) mem)).
Proof.
  unfold choose_save. destruct (String.eqb_spec path ""); [intros i [= <-]; by split; [reflexivity|]|]. apply post_bind. eapply post_conseq; [apply read_header|].
  intros w1 [[meta mem]|e] [H1 Hr]; [|intros i [= <-]; by split]. destruct (Hr meta mem eq_refl) as [Hf Hs]. destruct (validateQEMUSave o meta) eqn:Hv; cbn [negb].
  - intros i [= <-]. split; [done|]. intros p. destruct (validateQEMUSaveVersion o meta) eqn:Hver; [|done]. destruct (o_suspend o); [|done]. intros [= <-]. split_and!; [done..|].
    exists mem. by rewrite <- (metadata_validated meta).
  - apply post_any. intros w2 [m|]; [|done]. apply post_any. intros w3 [u|e]; [done|]. by apply post_any.
Qed.

(** The machine of a launch is for its specification. *)
Definition prepared (spec : Spec) (w w' : World) (m : nat) : Prop :=
  (forall q, machines w' !! m = Some q -> q_spec q = spec) /\ (forall p meta mem, files w' !! p = Some (SaveFile meta mem) -> files w !! p = Some (SaveFile meta mem)) /\ (fresh w <= fresh w')%nat.

Lemma newMachine_prepared spec w : runs w (newMachine sch spec) (fun w' r => forall m, r = Ok m -> prepared spec w w' m).
Proof.
  assert (forall A w0 w (c : M A), stays carries c -> carries w0 w -> runs w c (fun w' _ => carries w0 w')) as Hstep.
  { intros A w0 w1 c Hc H0. eapply post_conseq; [apply Hc|]. intros w' a H'. etrans; [exact H0|exact H']. }
  assert (forall e, stays carries (io sch e)) as Hio by (intros; unfold io; stays_tac).
  unfold newMachine. apply post_try. eapply post_conseq; [by apply (Hstep _ w)|]. intros w1 [u|e] H1; [|done]. apply post_bind, post_get.
  apply post_try. eapply post_conseq; [by apply (Hstep _ w)|]. intros w2 [u2|e] H2; [|done].
  assert (forall kind agent w4, carries w w4 -> runs w4 (w ← get; _ ← modify (fun w => mkWorld (files w) (processes w) (<[fresh w := mkMachine spec (Some kind) true agent None false "" false]> (machines w)) (saved w) (S (fresh w)) (tick w));
    ok (fresh w) : M (result machine_error nat)) (fun w' r => forall m, r = Ok m -> prepared spec w w' m)) as Hnew.
  { intros kind agent w4 H4. apply post_bind, post_get, post_bind, post_modify, post_ret. intros m [= <-]. split_and!.
    - intros q. cbn. rewrite lookup_insert_eq. by intros [= <-].
    - intros p meta mem Hf. by apply H4.
    - cbn. pose proof (c_fresh _ _ H4). lia. }
  destruct (attaches _ _); [..|by apply post_any].
  all: apply post_bind; eapply post_conseq; [by apply (Hstep _ w)|]; intros w3 [u3|e] H3; [|by apply post_any]; apply post_bind;
    eapply post_conseq; [apply (Hstep _ w); [destruct (String.eqb _ ""); [stays_tac|apply Hio]|exact H3]|]; intros w4 [u4|e] H4; [apply Hnew; exact H4|by apply post_any].
Qed.

Definition launched (spec : Spec) (w w' : World) (r : result machine_error nat) : Prop :=
  forall m, r = Ok m -> exists pid mem, (fresh w <= pid)%nat /\ up m spec pid mem w' /\
    (mem = S pid \/ o_suspend o = true /\ files w !! sp_Restore spec = Some (SaveFile (our_metadata o) (Some mem))).

Lemma Launch_launched spec w : runs w (Launch o sch spec) (launched spec w).
Proof.
  unfold Launch. destruct (negb (validateSpec spec)); [done|]. apply post_try. eapply (post_conseq _ _ (fun w' _ => carries w w')).
  { enough (stays carries (ctx_err sch)) as H by apply H. unfold ctx_err. stays_tac. }
  intros w1 [u|e] H1; [|done]. apply post_try. eapply post_conseq; [apply choose_incoming|]. intros w2 [incoming|e] Hch; [|done]. destruct (Hch incoming eq_refl) as [H2 Hi].
  assert (carries w w2) as H02 by (etrans; [exact H1|exact H2]). apply post_bind. eapply (post_conseq _ _ (fun w' _ => carries w w')).
  { destruct (String.eqb (sp_Restore spec) ""); [done|]. eapply post_conseq; [enough (stays carries (takeSaved (sp_Restore spec))) as H by apply H; unfold takeSaved; stays_tac|].
    intros w3 r H3. etrans; [exact H02|exact H3]. }
  intros w3 retained H3. apply post_try. eapply (post_conseq _ _ (fun w' r => forall m, r = Ok m -> prepared spec w w' m)).
  { destruct retained as [m|].
    - apply post_bind, post_modify, post_ret. intros m' [= <-]. split_and!; [|apply H3|apply H3]. intros q. cbn. rewrite lookup_alter_eq. destruct (machines w3 !! m); [|done]. by intros [= <-].
    - eapply post_conseq; [apply newMachine_prepared|]. intros w4 r Hr m E. destruct (Hr m E) as (A & B & C). split_and!; [done|intros; by apply H3, B|]. pose proof (c_fresh _ _ H3). lia. }
  intros w4 [m|e] H4; [|done]. destruct (H4 m eq_refl) as (Hspec & Hsave & Hfr). apply post_bind.
  assert (forall i w5 w6 pid mem, carries w4 w5 -> (exists q, machines w5 !! m = Some q /\ (fresh w5 <= pid)%nat /\ up m (q_spec q) pid mem w6 /\ memory_of i (S pid) (files w5) mem) ->
    (i = "" \/ incoming = Some i) -> launched spec w w6 (Ok m)) as Hup.
  { intros i w5 w6 pid mem H5 (q & Hq & Hf & Hu & Ho) Hi' m' [= <-]. exists pid, mem. split_and!; [pose proof (c_fresh _ _ H5); lia| |].
    - destruct (c_spec _ _ H5 _ _ Hq) as (q4 & Hq4 & E). by rewrite <- (Hspec q4 Hq4), E.
    - unfold memory_of in Ho. destruct Hi' as [->|Hinc]; [by left|]. destruct (Hi i Hinc) as (-> & Hne & Hsus & mem' & Hfile). apply String.eqb_neq in Hne. rewrite Hne in Ho.
      destruct Ho as (meta & Hm). right. split; [done|]. apply H5, Hsave in Hm. apply H1 in Hfile. congruence. }
  eapply (post_conseq _ _ (fun w5 r => carries w4 w5 /\ (r = Ok tt -> launched spec w w5 (Ok m)))).
  { destruct incoming as [path|]; [|by split]. apply post_and; [apply carries_start|]. eapply post_conseq; [apply start_up|]. intros w5 r Hr E.
    destruct (Hr E) as (q & pid & mem & ?). eapply (Hup path w4); [reflexivity|by exists q|by right]. }
  intros w5 [[]|e] [H5 Hr]; [by apply Hr|]. apply post_bind. eapply (post_conseq _ _ (fun w6 _ => carries w4 w6)).
  { destruct incoming; [|exact H5]. eapply post_conseq; [apply carries_forceStop|]. intros w6 u6 H6. etrans; [exact H5|exact H6]. }
  intros w6 u6 H6. apply post_bind. eapply post_conseq; [apply start_up|]. intros w7 [[]|e'] H7; [|by apply post_any].
  destruct (H7 eq_refl) as (q & pid & mem & ?). eapply (Hup "" w6); [exact H6|by exists q|by left].
Qed.
End Launching.

(** ** Resuming when no call fails *)

Record quiet (sch : Schedule) : Prop := {
  quiet_fails : forall n, fails sch n = false;
  quiet_dies : forall n, dies sch n = [];
  quiet_canceled : forall n, canceled sch n = false
}.

Section Quiet.
Context (o : Owner) (sch : Schedule) (Hquiet : quiet sch).

Definition ticked (w : World) : World := mkWorld (files w) (processes w) (machines w) (saved w) (fresh w) (S (tick w)).

Lemma call_quiet w : call sch w = (ticked w, false).
Proof. unfold call. by rewrite (quiet_fails _ Hquiet), (quiet_dies _ Hquiet). Qed.

Lemma post_quiet_call {A} w (k : bool -> M A) Q : runs (ticked w) (k false) Q -> runs w (call sch ≫= k) Q.
Proof. intros Hk. apply post_bind. unfold runs at 1. by rewrite call_quiet. Qed.

Lemma post_io {A} w e (k : unit -> M (result machine_error A)) Q : runs (ticked w) (k tt) Q -> runs w (try_bind (io sch e) k) Q.
Proof. intros Hk. apply post_try. unfold io. apply post_quiet_call. exact Hk. Qed.

Lemma post_ctx {A} w (k : unit -> M (result machine_error A)) Q : runs (ticked w) (k tt) Q -> runs w (try_bind (ctx_err sch) k) Q.
Proof. intros Hk. apply post_try. unfold ctx_err. apply post_bind, post_get, post_quiet_call. by rewrite (quiet_canceled _ Hquiet). Qed.

(** A process that is there, and the save to bring it up from *)
Definition ready (pid : nat) (path : string) (w : World) : Prop := is_alive w pid = true /\ exists meta mem, files w !! path = Some (SaveFile meta (Some mem)).

Lemma connect_quiet pid path w (k : M (result machine_error unit)) Q : ready pid path w -> (forall w', ready pid path w' -> runs w' k Q) -> runs w (r ← connect sch pid; or_kill sch pid r k) Q.
Proof. intros Hr Hk. apply post_bind. unfold connect. apply post_quiet_call, post_bind, post_get. cbn [orb]. destruct (Hr) as [Ha _]. change (is_alive (ticked w) pid) with (is_alive w pid). rewrite Ha. by apply Hk. Qed.

Lemma bring_up_quiet m pid path w : path <> "" -> ready pid path w -> runs w (bring_up sch m pid path) (fun _ r => r = Ok tt).
Proof.
  intros Hne Hr. unfold bring_up. do 3 (eapply connect_quiet; [done|]; clear w Hr; intros w Hr). apply post_bind, post_modify. apply String.eqb_neq in Hne. rewrite Hne.
  destruct Hr as [Ha (meta & mem & Hf)]. apply post_bind. unfold restore. apply post_quiet_call, post_bind, post_get. cbn [ticked files with_machines]. rewrite Hf. cbn [orb].
  change (is_alive (ticked _) pid) with (is_alive w pid). rewrite Ha. cbn [negb]. apply post_bind, post_modify. unfold io. apply post_quiet_call. apply post_ret. cbn [or_kill].
  apply post_bind. unfold execute. apply post_bind, post_get, post_quiet_call, post_bind, post_get.
  assert (forall f ps, (forall p, alive p = true -> alive (f p) = true) -> match ps !! pid with Some p => alive p | None => false end = true ->
    match (alter f pid ps : gmap nat Process) !! pid with Some p => alive p | None => false end = true) as Hal.
  { intros f ps Hal. rewrite lookup_alter_eq. destruct (ps !! pid); [by apply Hal|done]. }
  unfold is_alive. cbn [processes ticked with_processes with_machines]. unfold is_alive in Ha. rewrite Hal by done. cbn [negb orb]. apply post_bind, post_modify, post_ret. cbn [or_kill].
  apply post_bind, post_get. cbn [processes ticked with_processes with_machines]. by rewrite Hal by (try apply Hal; done).
Qed.

(** A monitor socket that a start may replace *)
Definition replaceable (p : string) (w : World) : Prop := files w !! p = None \/ exists pid, files w !! p = Some (Socket pid) /\ is_alive w pid = false.

Lemma stale_quiet p path w (k : unit -> M (result machine_error unit)) Q : replaceable p w -> p <> path ->
  (forall w', files w' !! path = files w !! path -> runs w' (k tt) Q) -> runs w (try_bind (removeStaleQMPSocket sch p) k) Q.
Proof.
  intros Hr Hn Hk. apply post_try. unfold removeStaleQMPSocket. apply post_quiet_call, post_bind, post_get. cbn [ticked files]. destruct Hr as [->|(pid & -> & Ha)].
  - apply post_ret. by apply Hk.
  - change (is_alive (ticked w) pid) with (is_alive w pid). rewrite Ha. apply post_io, post_bind, post_modify, post_ret, Hk. cbn. by rewrite lookup_delete_ne.
Qed.

Section Resume.
Context (m : nat) (q : qemuMachine) (spec : Spec) (mem : nat) (argv : list string).
Let path := sp_Restore spec.
Let qmpPath := qemuSocketPath (sp_ConsoleSocketPath spec).
Context (Hargv : buildQEMUArgv (launchConfig o (with_spec spec q) qmpPath path) = Ok argv) (Hqmp : qmpPath <> path) (Hne : path <> "").

Lemma start_quiet w : machines w !! m = Some (with_spec spec q) -> q_closed q = false -> active q w = false -> replaceable qmpPath w ->
  files w !! path = Some (SaveFile (our_metadata o) (Some mem)) -> runs w (start o sch m path) (fun _ r => r = Ok tt).
Proof.
  intros Hm Hc Ha Hrep Hf. unfold start. apply runs_machine; [|congruence]. intros q' Hm'. assert (q' = with_spec spec q) as -> by congruence. apply post_bind, post_get.
  change (q_closed (with_spec spec q)) with (q_closed q). change (active (with_spec spec q) w) with (active q w). rewrite Hc, Ha.
  apply post_bind. eapply (post_conseq _ _ (fun w' _ => files w' = files w /\ processes w' = processes w)).
  { destruct (q_qmp (with_spec spec q)); [|done]. apply post_quiet_call, post_modify. done. }
  intros w1 u [Ef Ep]. apply post_ctx. change (sp_ConsoleSocketPath _) with (sp_ConsoleSocketPath spec). fold qmpPath.
  apply (stale_quiet qmpPath path); [|done|].
  { destruct Hrep as [H|(pid & H & Hd)]; [left|right; exists pid]; cbn [ticked files]; rewrite Ef; [done|]. split; [done|]. unfold is_alive in *. cbn [ticked processes]. by rewrite Ep. }
  intros w2 E2. cbn [ticked files] in E2. rewrite Hargv. apply post_io, post_bind. unfold runs at 1. apply bring_up_quiet; [done|]. split.
  - unfold is_alive. cbn. by rewrite lookup_insert_eq.
  - exists (our_metadata o), mem. cbn. rewrite lookup_insert_ne by done. by rewrite E2, Ef.
Qed.

Lemma Launch_quiet w : validateSpec spec = true -> o_suspend o = true -> o_version o <> "" -> o_architectureName o <> "" -> o_machine o <> "" ->
  saved w !! path = Some m -> machines w !! m = Some q -> q_closed q = false -> active q w = false -> replaceable qmpPath w ->
  files w !! path = Some (SaveFile (our_metadata o) (Some mem)) ->
  runs w (Launch o sch spec) (fun w' r => r = Ok m /\ exists pid, (fresh w <= pid)%nat /\ up m spec pid mem w').
Proof.
  intros Hv Hs Ho1%String.eqb_neq Ho2%String.eqb_neq Ho3%String.eqb_neq Hsv Hm Hc Ha Hrep Hf. unfold Launch. rewrite Hv. apply post_ctx, post_try.
  fold path. unfold choose_save. pose proof Hne as Hne'. apply String.eqb_neq in Hne'. rewrite Hne'. apply post_bind. unfold readQEMUSave. apply post_io, post_bind, post_get.
  cbn [ticked files]. rewrite Hf. cbn [our_metadata Schema Backend QEMUVersion sv_Architecture sv_Machine]. rewrite Ho1, Ho2, Ho3. change (negb (qemuSaveSchema =? qemuSaveSchema)) with false. change (String.eqb qemuSaveBackend "") with false.
  cbn [orb]. apply post_ret. unfold validateQEMUSave, validateQEMUSaveVersion.
  cbn [our_metadata Backend QEMUVersion sv_Architecture sv_Machine]. rewrite !String.eqb_refl, Hs. cbn [andb negb]. unfold ok. apply post_ret.
  apply post_bind. unfold takeSaved. apply post_bind, post_get, post_bind, post_modify, post_ret. cbn [ticked saved]. rewrite Hsv. apply post_try, post_bind, post_modify, post_ret.
  set (w1 := with_machines _ _). assert (machines w1 !! m = Some (with_spec spec q)) as Hm1 by (unfold w1; cbn; by rewrite lookup_alter_eq, Hm).
  apply post_bind. eapply post_conseq; [apply post_and; [by apply start_quiet|apply start_up]|]. intros w2 r [-> Hr]. apply post_ret. split; [done|].
  destruct (Hr eq_refl) as (q' & pid & mem' & Hq' & Hfr & Hup & Hmo). assert (q' = with_spec spec q) as -> by congruence. exists pid. split; [done|].
  unfold memory_of in Hmo. rewrite Hne' in Hmo. destruct Hmo as (meta & Hf'). change (files w1 !! path) with (files w !! path) in Hf'. assert (mem' = mem) as -> by congruence. done.
Qed.
End Resume.
End Quiet.

(** ** The properties *)

(** C28: A suspend is all or nothing for the save file: whatever calls fail and whenever the
    process exits, afterwards the file is as it was or is a complete save with this back end's
    metadata and the memory the guest had.  When the suspend succeeds it is the complete save,
    the process has exited and the machine is kept for that save; when it fails, no save has a
    machine kept for it that had not before.  (Temporary files have names of their own, and
    the save is not the monitor's socket.) *)
Theorem suspend_saves o sch m pid savePath p q w : (forall n, temporary sch n <> savePath) ->
  machines w !! m = Some q -> q_process q = Some pid -> processes w !! pid = Some p -> q_qmpPath q <> savePath ->
  runs w (Suspend o sch m savePath) (suspend_outcome o m pid savePath p w).
Proof. intros Ht Hm Hpid Hp Hq. by apply (Suspend_outcome o sch m pid savePath p Ht w q). Qed.

Lemma launchConfig_core o spec q q1 p i : core q1 = core q -> launchConfig o (with_spec spec q1) p i = launchConfig o (with_spec spec q) p i.
Proof. intros E. unfold launchConfig. cbn. injection E as _ -> _ -> _ _. done. Qed.

Lemma Suspend_ok o sch m savePath w w1 : Suspend o sch m savePath w = (w1, Ok tt) -> o_suspend o = true /\ savePath <> "".
Proof.
  intros E. enough (runs w (Suspend o sch m savePath) (fun _ r => r = Ok tt -> o_suspend o = true /\ savePath <> "")) as H by (unfold runs in H; rewrite E in H; by apply H).
  unfold Suspend. destruct (o_suspend o); [cbn [negb]|done]. apply post_any. intros w2 [u|e]; [|done]. apply post_any. intros w3 q. apply post_any. intros w4 w5.
  destruct (q_process q); [|done]. destruct (_ || _); [done|]. destruct (String.eqb_spec savePath ""); [done|]. by split.
Qed.


Lemma with_result {A B} (x : A * B) b : x.2 = b -> x = (x.1, b).
Proof. by destruct x; intros <-. Qed.

(** A guest that is launched, suspended and resumed *)
Module SuspendDemo.
Definition owner : Owner := mkOwner ARM64 "arm64" "virt" "kvm" "host" "/usr/share/AAVMF/AAVMF_CODE.fd" "10.0.2" true.
Definition spec (save : string) : Spec := mkSpec 2 2048 "/data/disk.raw" "52:54:00:00:00:01" "/data/vars.fd" "/run/cp1.console.sock" "" false save.
Definition calls : Schedule := mkSchedule (fun _ => false) (fun _ => false) (fun _ => []) (fun _ => true) (fun _ => false) (fun _ => TapFD) (fun _ => "/data/.save-1").
Definition booted : World := (Launch owner calls (spec "") (started ∅)).1.
Definition machine0 : qemuMachine := mkMachine (spec "") (Some TapFD) true false (Some 1%nat) true "/run/cp1.qmp.sock" false.
Definition suspended : World := (Suspend owner calls 0 "/data/save" booted).1.

Lemma suspend_saves_witness : runs booted (Suspend owner calls 0 "/data/save") (suspend_outcome owner 0 1 "/data/save" (mkProcess true true 2) booted).
Proof. by apply (suspend_saves owner calls 0 1 "/data/save" (mkProcess true true 2) machine0 booted). Defined.

End SuspendDemo.
