(* ===== verification/ClusterOps.v ===== *)
(** * Cluster life cycle ([internal/daemon]: operations.go, helper_sync.go; [internal/cluster/store.go])

    The handlers that bring clusters and nodes into being and take them away, over one
    state: the directories under [~/.talosbox/clusters], the machines the daemon tracks,
    the balloon holds, and the reservation set the network helper was last given.  The
    machines of one cluster are the component of [Suspend], run here on its slice of the
    state ([within]).  What the handlers call and other components model is a parameter:
    the memory and pressure gates, the image cache, the backend registry; a schedule says
    which call to the file system and to the helper fails.

    [$HOME] is set.  The name "/" is left out: its directory is the root of all others. *)

From stdpp Require Import base list gmap sorting strings.
From Stdlib Require Import Ascii ZArith Lia.
From S2P Require Import Prelude GoStrings GoNet Cluster Subnet Dns Config TalosVersion DaemonBalloon Effects Suspend.

Local Open Scope Z_scope.
Local Open Scope int64_scope.
Local Open Scope effect_scope.

(** ** State *)

(** [cluster.json]: the keys that [Load] looks for, and the value *)
Record Stored := mkStored { st_subnetIndex : bool; st_bgp : bool; st_cni : bool; st_cluster : Cluster }.

(** A cluster's directory: the record, the nodes with a disk image, and the files that
    suspend writes *)
Record Dir := mkDir { d_record : option Stored; d_images : gset string; d_files : gmap string File }.

(** The calls out of the handlers, in order *)
Inductive op_event :=
| Guest (cluster : string) (e : Suspend.event)
| Pushed (set : list Cluster)
| ResolversSynced (domains : list string)
| BGPDisabled (cluster : string)
| DNSWithdrawn (index : Z)
| TornDown (index : Z).

Record Home := mkHome {
  h_dirs : gmap string Dir;
  h_vms : gmap string (gmap string Machine);
  h_versions : gmap string (gmap string nat);
  h_holds : list Z;
  h_helper : list Cluster;
  h_trace : list op_event;
  h_tick : nat
}.

Abbreviation D := (State Home).

Definition with_dirs (x : gmap string Dir) (w : Home) : Home :=
  mkHome x (h_vms w) (h_versions w) (h_holds w) (h_helper w) (h_trace w) (h_tick w).
Definition with_machines (x : gmap string (gmap string Machine)) (w : Home) : Home :=
  mkHome (h_dirs w) x (h_versions w) (h_holds w) (h_helper w) (h_trace w) (h_tick w).
Definition with_helper (x : list Cluster) (w : Home) : Home :=
  mkHome (h_dirs w) (h_vms w) (h_versions w) (h_holds w) x (h_trace w ++ [Pushed x]) (h_tick w).
Definition with_held (x : list Z) (w : Home) : Home :=
  mkHome (h_dirs w) (h_vms w) (h_versions w) x (h_helper w) (h_trace w) (h_tick w).
Definition note (e : op_event) : D unit :=
  modify (fun w => mkHome (h_dirs w) (h_vms w) (h_versions w) (h_holds w) (h_helper w) (h_trace w ++ [e]) (h_tick w)).

(** One call out: its number *)
Definition next : D nat :=
  fun w => (mkHome (h_dirs w) (h_vms w) (h_versions w) (h_holds w) (h_helper w) (h_trace w) (S (h_tick w)), h_tick w).

Inductive syscall :=
| Stat | ReadRecord | ReadDir | MkdirAll | WriteRecord | RemoveAll | RemoveFile | CloneDisk
| ConnectHelper | SyncCall | ResolverCall | BGPCall | UnregisterCall | TeardownCall.

Inductive store_error :=
| BadName (e : cluster_error) | RecordMissing | RecordUnreadable | BadReservations (e : cluster_error)
| MigrationFailed | ListFailed | SaveFailed | RemoveFailed.

Inductive sync_error := ListForSync (e : store_error) | HelperUnavailable | SyncRejected.

Inductive ops_error :=
| BadVersion (e : version_error) | BadIntent (e : cluster_error) | AlreadyExists (name : string) | StatFailed
| NoHypervisor | PressureRefused | HelperMissing | OvercommitRefused | StartRefused
| StoreError (e : store_error) | BadDomain (e : domain_error) | NameFormsNoDomain (name : string) | DomainTaken (domain : string)
| NoSubnet (e : subnet_error unit) | NotBuilt (e : cluster_error) | ImageFailed | DisksFailed
| SyncFailed (e : sync_error) | MachineError (e : op_error) | CreatedNotStarted (e : ops_error)
| AddedNotStarted (name : string) | NodeNotStopped (name : string) | NotStopped (nodes : list string)
| ForceRequired | ClusterMissing (name : string).

(** What the handlers call, and which calls fail *)
Record Env := mkEnv {
  e_daemon : Daemon;
  e_sched : Schedule;
  e_fault : syscall -> nat -> bool;
  (** a push whose answer was lost may have been taken *)
  e_taken : nat -> bool;
  (** what a failed [os.RemoveAll] leaves of a directory: nothing it did not hold *)
  e_leaves : nat -> bool * gset string * gset string;
  e_pressure : nat -> Z -> bool -> option (list string);
  e_ping : nat -> bool;
  e_overcommit : nat -> Z -> bool -> option (list string);
  e_provision : nat -> Z -> bool -> option (list string * Z);
  (** the backend of a requested name, with its architecture *)
  e_hypervisor : string -> option (string * string);
  e_interfaces : nat -> sources_Interfaces (E := unit);
  e_routes : nat -> sources_Route (E := unit);
  e_schematic : nat -> string -> string -> option (list string) -> option (string * string);
  e_ensure : nat -> string -> string -> string -> bool;
  e_cached : nat -> Cluster -> bool;
  e_advice : Cluster -> list string;
  e_subnetText : Subnet.warning -> string;
  e_linux : bool;
  e_snapshots : nat -> string -> option Z;
  e_bytes : nat -> string -> Z;
  e_bridge : nat -> Z -> bool
}.

(** ** One cluster's machines *)

Definition dir_files (name : string) (w : Home) : gmap string File :=
  match h_dirs w !! name with Some d => d_files d | None => ∅ end.

Definition slice (name : string) (w : Home) : World :=
  Suspend.mkWorld (dir_files name w) (default ∅ (h_vms w !! name)) (default ∅ (h_versions w !! name)) (h_holds w) [] (h_tick w).

(** A map without machines is the entry [s.vms] does not have. *)
Definition put_vms (name : string) (m : gmap string Machine) (l : gmap string (gmap string Machine)) :=
  if bool_decide (m = ∅) then delete name l else <[name := m]> l.

Definition unslice (name : string) (s : World) (w : Home) : Home :=
  mkHome (alter (fun d => mkDir (d_record d) (d_images d) (Suspend.files s)) name (h_dirs w))
    (put_vms name (Suspend.vms s) (h_vms w)) (<[name := Suspend.disk s]> (h_versions w))
    (Suspend.holds s) (h_helper w) (h_trace w ++ (Guest name <$> Suspend.events s)) (Suspend.tick s).

Definition within {A} (name : string) (m : Suspend.M A) : D A :=
  fun w => let '(s, a) := m (slice name w) in (unslice name s w, a).

Definition clusterRunning (w : Home) (name : string) : bool := Suspend.clusterRunning (slice name w).
Definition nodeRunning (w : Home) (name node : string) : bool := Suspend.nodeRunning (slice name w) node.

(** ** Memory *)

Definition memoryOr (mib fallback : Z) : Z := if 0 <? mib then mib else fallback.

Definition roleMemoryMiB (role : option NodeDefaults) (base : NodeDefaults) : Z :=
  let baseMiB := memoryOr (MemoryMiB base) DefaultMemoryMiB in
  match role with
  | Some r => memoryOr (MemoryMiB r) baseMiB
  | None => baseMiB
  end.

Definition stoppedNodeMemoryMiB (w : Home) (item : Cluster) : Z :=
  sum64 (fun n => if nodeRunning w (c_Name item) (n_Name n) then 0 else MemoryMiB (DefaultsFor item (n_Role n))) (c_Nodes item).

Section Ops.
Context (env : Env).

Definition fails (c : syscall) : D bool := t ← next; mret (e_fault env c t).

(** ** The store *)

(** What [json.MarshalIndent] writes of the keys that are left out when empty *)
Definition encode (c : Cluster) : Stored :=
  mkStored true (BGP (c_Intent c)) (negb (String.eqb (CNI (c_Intent c)) "")) c.

Definition empty_dir : Dir := mkDir None ∅ ∅.
Definition mkdir (name : string) (w : Home) : Home := with_dirs (<[name := default empty_dir (h_dirs w !! name)]> (h_dirs w)) w.
Definition set_record (c : Cluster) (d : Dir) : Dir := mkDir (Some (encode c)) (d_images d) (d_files d).

(** [Save]: the directory is made first; the record is written beside the old one and
    renamed over it, so a failure leaves the old record. *)
Definition Save (c : Cluster) : D (result store_error unit) :=
  match validName (c_Name c) with
  | Err e => fail (BadName e)
  | Ok _ =>
      f ← fails MkdirAll;
      if f : bool then fail SaveFailed
      else
        _ ← modify (mkdir (c_Name c));
        f ← fails WriteRecord;
        if f : bool then fail SaveFailed
        else _ ← modify (fun w => with_dirs (alter (set_record c) (c_Name c) (h_dirs w)) w); ok tt
  end.

Definition Load (name : string) : D (result store_error Cluster) :=
  match validName name with
  | Err e => fail (BadName e)
  | Ok _ =>
      f ← fails ReadRecord; w ← get;
      if f : bool then fail RecordUnreadable
      else match h_dirs w !! name ≫= d_record with
      | None => fail RecordMissing
      | Some s =>
          let '(c, r) := load_migrate (st_subnetIndex s) (st_bgp s) (st_cni s) (st_cluster s) in
          match r with
          | Err e => fail (BadReservations e)
          | Ok false => ok c
          | Ok true => saved ← Save c; match saved with Ok _ => ok c | Err _ => fail MigrationFailed end
          end
      end
  end.

(** The loop of [List] over the directory entries *)
Definition load_entry (name : string) : D (result store_error (list Cluster)) :=
  r ← Load name;
  match r with
  | Ok c => ok [c]
  | Err RecordMissing => ok []
  | Err e => fail e
  end.

Definition by_name (a b : Cluster) : Prop := String.le (c_Name a) (c_Name b).
#[global] Instance by_name_dec : RelDecision by_name := fun a b => String.le_dec (c_Name a) (c_Name b).

Definition List : D (result store_error (list Cluster)) :=
  f ← fails ReadDir; w ← get;
  if f : bool then fail ListFailed
  else
    clusters ←! gather_try (sort_strings (elements (dom (h_dirs w)))) load_entry;
    ok (merge_sort by_name clusters).

(** What a failed [os.RemoveAll] leaves *)
Definition leave (l : bool * gset string * gset string) (d : Dir) : Dir :=
  let '(record, images, files) := l in
  mkDir (if record : bool then d_record d else None) (d_images d ∩ images) (filter (fun p => p.1 ∈ files) (d_files d)).

Definition Destroy (name : string) : D (result store_error unit) :=
  match validName name with
  | Err e => fail (BadName e)
  | Ok _ =>
      t ← next;
      if e_fault env RemoveAll t
      then _ ← modify (fun w => with_dirs (alter (leave (e_leaves env t)) name (h_dirs w)) w); fail RemoveFailed
      else _ ← modify (fun w => with_dirs (delete name (h_dirs w)) w); ok tt
  end.

(** [ProvisionDisks] as [Snapshot] models it, at the grain of this state: the sizes are
    checked first, then the directory is made, then each node in turn keeps its image or
    gets one. *)
Definition provision_disk (name : string) (node : Node) : D (result ops_error (list unit)) :=
  match validName (n_Name node) with
  | Err _ => fail DisksFailed
  | Ok _ =>
      f ← fails CloneDisk;
      if f : bool then fail DisksFailed
      else
        _ ← modify (fun w => with_dirs (alter (fun d => mkDir (d_record d) ({[n_Name node]} ∪ d_images d) (d_files d)) name (h_dirs w)) w);
        ok []
  end.

Definition disk_size_ok (c : Cluster) : bool :=
  forallb (fun role => let gib := DiskGiB (DefaultsFor c role) in (0 <? gib) && (gib <=? int64_max / 2 ^ 30)) [RoleControlPlane; RoleWorker].

Definition provisionDisks (c : Cluster) : D (result ops_error unit) :=
  if negb (disk_size_ok c) then fail DisksFailed
  else
    f ← fails MkdirAll;
    if f : bool then fail DisksFailed
    else
      _ ← modify (mkdir (c_Name c));
      _ ←! gather_try (c_Nodes c) (provision_disk (c_Name c));
      ok tt.

(** [removeNodeFiles]: the image goes first, and the first failure ends it. *)
Definition removeNodeFiles (name node : string) : D (result store_error unit) :=
  match validName name with
  | Err e => fail (BadName e)
  | Ok _ =>
      f ← fails RemoveFile;
      if f : bool then fail RemoveFailed
      else
        _ ← modify (fun w => with_dirs (alter (fun d => mkDir (d_record d) (d_images d ∖ {[node]}) (d_files d)) name (h_dirs w)) w);
        _ ←! gather_try [".efi"; ".console.sock"; ".qga.sock"; saveStateSuffix; saveStateOwnerSuffix; saveStateBalloonSuffix] (fun suffix =>
          f ← fails RemoveFile;
          if f : bool then fail RemoveFailed
          else
            _ ← modify (fun w => with_dirs (alter (fun d => mkDir (d_record d) (d_images d) (delete (node +:+ suffix)%string (d_files d))) name (h_dirs w)) w);
            ok ([] : list unit));
        ok tt
  end.

(** ** The helper's copy *)

(** [SyncHelperClusters]: the helper checks the reservations of a set it takes, and keeps
    the old one when it refuses ([HelperServer.sync]). *)
Definition SyncHelperClusters (clusters : list Cluster) : D (result sync_error unit) :=
  f ← fails ConnectHelper;
  if f : bool then fail HelperUnavailable
  else
    t ← next;
    if negb (is_ok (NewReservationTable clusters)) then fail SyncRejected
    else if e_fault env SyncCall t then
      _ ← (if e_taken env t then modify (with_helper clusters) else mret tt); fail SyncRejected
    else _ ← modify (with_helper clusters); ok tt.

Definition listForSync : D (result sync_error (list Cluster)) :=
  r ← List; mret (map_err ListForSync r).

Definition SyncHelperState : D (result sync_error unit) :=
  clusters ←! listForSync; SyncHelperClusters clusters.

(** [TrySyncHelperState]: [busy] says that a handler holds the lock. *)
Definition TrySyncHelperState (busy : bool) : D (result sync_error unit) :=
  if busy then ok tt else SyncHelperState.

Definition replace_cluster (item : Cluster) (clusters : list Cluster) : list Cluster :=
  let replaced := existsb (fun c => String.eqb (c_Name c) (c_Name item)) clusters in
  ((fun c => if String.eqb (c_Name c) (c_Name item) then item else c) <$> clusters) ++ (if replaced then [] else [item]).

Definition proposedClusterSet (item : Cluster) : D (result sync_error (list Cluster)) :=
  clusters ←! listForSync; ok (replace_cluster item clusters).

Definition logHelperSyncFailure : D unit := _ ← SyncHelperState; mret tt.

Definition SyncResolverFiles : D (result sync_error unit) :=
  clusters ←! listForSync;
  f ← fails ConnectHelper;
  if f : bool then fail HelperUnavailable
  else
    let domains := filter (fun d => d <> EmptyString) (c_Domain <$> clusters) in
    f ← fails ResolverCall;
    if f : bool then fail SyncRejected else _ ← note (ResolversSynced domains); ok tt.

(** ** Gates *)

(** A call to another component that may refuse *)
Definition ask {A} (f : nat -> option A) (e : ops_error) : D (result ops_error A) :=
  t ← next; mret (match f t with Some a => Ok a | None => Err e end).

Definition lift {E A} (f : E -> ops_error) (m : D (result E A)) : D (result ops_error A) :=
  r ← m; mret (map_err f r).

Definition checkProvisionStart (addMiB : Z) (force : bool) : D (result ops_error (list string * Z)) :=
  p ←! ask (fun t => e_provision env t addMiB force) StartRefused;
  _ ← modify (fun w => if p.2 <=? 0 then w else with_held (h_holds w ++ [p.2]) w);
  ok p.

Definition releaseBalloonHold (h : Z) : D unit :=
  modify (fun w => if h <=? 0 then w else with_held (rev (drop_first h (rev (h_holds w)))) w).

(** [rearmBalloonHold]: a hold that is still there gets a new deadline. *)
Definition rearmBalloonHold (h : Z) : D unit :=
  modify (fun w => if h <=? 0 then w else if bool_decide (h ∈ h_holds w) then w else with_held (h_holds w ++ [h]) w).

Definition subnet_text (x : option Subnet.warning) : list string :=
  match x with Some x => [e_subnetText env x] | None => [] end.

Definition attachedSubnetWarning (index : Z) : D (result ops_error (list string)) :=
  t ← next;
  mret (subnet_text <$> map_err NoSubnet (AttachedSubnetWarning index (e_interfaces env t) (e_routes env t))).

(** ** Start and stop *)

Definition start (item : Cluster) : D (result ops_error (list Warning)) :=
  _ ←! lift SyncFailed SyncHelperState;
  subnetWarning ←! attachedSubnetWarning (c_SubnetIndex item);
  lift MachineError (within (c_Name item) (Suspend.start (e_sched env) (e_daemon env) item true (Some subnetWarning))).

Record startArgs := mkStartArgs { sa_Name : string; sa_Force : bool }.

Definition startCluster (args : startArgs) : D (result ops_error (Cluster * list Warning)) :=
  item ←! lift StoreError (Load (sa_Name args));
  w ← get;
  overcommitWarning ←! (if clusterRunning w (c_Name item) then ok []
                         else ask (fun t => e_overcommit env t (clusterMemoryMiB item) (sa_Force args)) OvercommitRefused);
  let bootingMiB := stoppedNodeMemoryMiB w item in
  hostPressureWarnings ←! ask (fun t => e_pressure env t bootingMiB (sa_Force args)) PressureRefused;
  gate ←! (if 0 <? bootingMiB then checkProvisionStart bootingMiB (sa_Force args) else ok ([], 0));
  started ← start item;
  match started with
  | Err e => _ ← releaseBalloonHold gate.2; fail e
  | Ok startWarnings =>
      ok (item, gates (overcommitWarning ++ hostPressureWarnings ++ gate.1 ++ e_advice env item) ++ startWarnings)
  end.

(** [stop]: the nodes that did not stop *)
Definition stop (name : string) : D (list string) :=
  item ← Load name;
  within name (Suspend.stop (e_sched env) (is_ok item)).

Definition stopCluster (name : string) : D (result ops_error Cluster) :=
  item ←! lift StoreError (Load name);
  failed ← stop (c_Name item);
  if bool_decide (failed = []) then ok item else fail (NotStopped failed).

(** ** Creation *)

Record createArgs := mkCreateArgs {
  ca_Name : string;
  ca_Hypervisor : string;
  ca_ControlPlanes : option Z;
  ca_Workers : option Z;
  ca_Node : NodeDefaults;
  ca_NodeDefaults : NodeDefaults;
  ca_ControlPlane : option NodeDefaults;
  ca_Worker : option NodeDefaults;
  ca_Intent : ProvisioningIntentInput;
  ca_Domain : string;
  ca_AllowUnsafeDomain : bool;
  ca_Force : bool;
  ca_Schematic : string;
  ca_Version : string;
  ca_TalosVersion : string;
  ca_Extensions : option (list string);
  ca_ConfigManaged : bool
}.

Definition zero_defaults (d : NodeDefaults) : bool := (MemoryMiB d =? 0) && (CPUs d =? 0) && (DiskGiB d =? 0).

(** The arguments after the handler has filled in what older clients send elsewhere *)
Definition create_node (a : createArgs) : NodeDefaults := if zero_defaults (ca_Node a) then ca_NodeDefaults a else ca_Node a.
Definition create_version (a : createArgs) : string := if String.eqb (ca_Version a) "" then ca_TalosVersion a else ca_Version a.
Definition create_controlPlanes (a : createArgs) : Z := default 1 (ca_ControlPlanes a).
Definition create_workers (a : createArgs) : Z := default 2 (ca_Workers a).

(** [addMiB] of [createCluster] *)
Definition create_MiB (a : createArgs) : Z :=
  (create_controlPlanes a *! roleMemoryMiB (ca_ControlPlane a) (create_node a)) +!
  (create_workers a *! roleMemoryMiB (ca_Worker a) (create_node a)).

(** The domain to store, and the one the cluster answers to *)
Definition create_domain (a : createArgs) : result ops_error (string * string) :=
  let own := (ca_Name a +:+ "." +:+ DefaultDomainSuffix)%string in
  canonicalDomain ← (if String.eqb (ca_Domain a) "" then Ok ""
                     else name ← map_err BadDomain (Validate (ca_Domain a) (ca_AllowUnsafeDomain a));
                          Ok (if String.eqb name own then "" else name));
  if String.eqb canonicalDomain "" then
    match Validate own true with
    | Ok canonical => if String.eqb canonical own then Ok ("", own) else Err (NameFormsNoDomain (ca_Name a))
    | Err _ => Err (NameFormsNoDomain (ca_Name a))
    end
  else Ok (canonicalDomain, canonicalDomain).

Definition OriginImperative : string := "imperative".
Definition OriginManaged : string := "managed".

(** The record of a new cluster, its image apart *)
Definition create_item (a : createArgs) (intent : ProvisioningIntent) (domain name arch : string) (item : Cluster) : Cluster :=
  mkCluster (c_Name item) (c_Index item) (c_SubnetIndex item) (c_ControlPlanes item) (c_Workers item) (c_NodeDefaults item)
    (ca_ControlPlane a) (ca_Worker a) intent (c_Nodes item) (c_Schematic item) (c_TalosVersion item)
    (c_TalosExtensions item) (c_BaseSchematic item) arch name domain
    (negb (String.eqb domain "") && ca_AllowUnsafeDomain a) (if ca_ConfigManaged a then OriginManaged else OriginImperative).

Definition with_image (a : createArgs) (schematic version : string) (item : Cluster) : Cluster :=
  mkCluster (c_Name item) (c_Index item) (c_SubnetIndex item) (c_ControlPlanes item) (c_Workers item) (c_NodeDefaults item)
    (c_ControlPlaneDefaults item) (c_WorkerDefaults item) (c_Intent item) (c_Nodes item) schematic version
    (ca_Extensions a)
    (if negb (String.eqb (ca_Schematic a) "") && negb (String.eqb schematic (ca_Schematic a)) then ca_Schematic a else c_BaseSchematic item)
    (c_ImageArchitecture item) (c_Hypervisor item) (c_Domain item) (c_AllowUnsafeDomain item) (c_ConfigOrigin item).

(** [createCluster] after the gates, up to the image: the record to store, its warnings *)
Definition plan_new (a : createArgs) (intent : ProvisioningIntent) (backend : string * string) : D (result ops_error (Cluster * list string)) :=
  clusters ←! lift StoreError List;
  domains ←! mret (create_domain a);
  if DomainInUse domains.2 clusters then fail (DomainTaken domains.2)
  else
    t ← next;
    subnet ←! mret (map_err NoSubnet (LowestUsableSubnetIndex clusters (e_interfaces env t) (e_routes env t)));
    item ←! mret (map_err NotBuilt (New (ca_Name a) subnet.1 (create_controlPlanes a) (create_workers a) (create_node a)));
    let item := create_item a intent domains.1 backend.1 backend.2 item in
    let advice := e_advice env item in
    image ←! ask (fun t => e_schematic env t (ca_Schematic a) (create_version a) (ca_Extensions a)) ImageFailed;
    let item := with_image a image.1 image.2 item in
    _ ←! ask (fun t => if e_ensure env t (c_Schematic item) (c_TalosVersion item) backend.2 then Some tt else None) ImageFailed;
    ok (item, advice ++ subnet_text subnet.2).

(** The disks and the record of a new cluster: a failure removes the directory. *)
Definition store_new (item : Cluster) : D (result ops_error unit) :=
  provisioned ← provisionDisks item;
  match provisioned with
  | Err e => _ ← Destroy (c_Name item); fail e
  | Ok _ =>
      saved ← Save item;
      match saved with
      | Err e => _ ← Destroy (c_Name item); fail (StoreError e)
      | Ok _ =>
          _ ← (if String.eqb (c_Domain item) "" then mret tt else _ ← SyncResolverFiles; mret tt);
          ok tt
      end
  end.

(** [createCluster] between the gates and the launch: the stored record and its warnings *)
Definition build (a : createArgs) (intent : ProvisioningIntent) (backend : string * string) : D (result ops_error (Cluster * list string)) :=
  planned ←! plan_new a intent backend;
  _ ←! store_new planned.1;
  ok planned.

(** [createCluster] from the projected-start gate on: the hold is handed back unless the
    cluster was launched. *)
Definition launch_new (a : createArgs) (intent : ProvisioningIntent) (backend : string * string) (held : Z)
  : D (result ops_error (Cluster * list string * list Warning)) :=
  built ← build a intent backend;
  match built with
  | Err e => _ ← releaseBalloonHold held; fail e
  | Ok (item, warnings) =>
      _ ← rearmBalloonHold held;
      started ← start item;
      match started with
      | Err e => _ ← releaseBalloonHold held; fail (CreatedNotStarted e)
      | Ok startWarnings => ok (item, warnings, startWarnings)
      end
  end.

Definition createCluster (a : createArgs) : D (result ops_error (Cluster * list Warning)) :=
  _ ←! (if String.eqb (create_version a) "" then ok tt else mret (map_err BadVersion (ValidateVersion (create_version a))));
  intent ←! mret (map_err BadIntent (Intent (ca_Intent a)));
  _ ←! mret (map_err (fun e => StoreError (BadName e)) (validName (ca_Name a)));
  f ← fails Stat; w ← get;
  if f : bool then fail StatFailed
  else if bool_decide (is_Some (h_dirs w !! ca_Name a)) then fail (AlreadyExists (ca_Name a))
  else match e_hypervisor env (ca_Hypervisor a) with
  | None => fail NoHypervisor
  | Some backend =>
      let addMiB := create_MiB a in
      hostPressureWarnings ←! ask (fun t => e_pressure env t addMiB (ca_Force a)) PressureRefused;
      _ ←! ask (fun t => if e_ping env t then Some tt else None) HelperMissing;
      overcommitWarning ←! ask (fun t => e_overcommit env t addMiB (ca_Force a)) OvercommitRefused;
      gate ←! checkProvisionStart addMiB (ca_Force a);
      created ←! launch_new a intent backend gate.2;
      let '(item, warnings, startWarnings) := created in
      let talosVersionWarning := if NewerThanTestedWarning (c_TalosVersion item) then ["untested Talos version"] else [] in
      ok (item, gates (talosVersionWarning ++ overcommitWarning ++ hostPressureWarnings ++ gate.1 ++ warnings) ++ startWarnings)
  end.

(** ** Destruction *)

Definition subnetAllocated (clusters : list Cluster) (subnetIndex : Z) : bool :=
  existsb (fun item => c_SubnetIndex item =? subnetIndex) clusters.

(** [releaseSubnetBridge]: the bridge it took down *)
Definition releaseSubnetBridge (subnetIndex : Z) : D (result sync_error string) :=
  clusters ←! listForSync;
  if subnetAllocated clusters subnetIndex then ok ""
  else
    f ← fails ConnectHelper;
    if f : bool then fail HelperUnavailable
    else
      f ← fails UnregisterCall;
      _ ← (if f : bool then mret tt else note (DNSWithdrawn subnetIndex));
      t ← next;
      if e_fault env TeardownCall t then fail SyncRejected
      else
        _ ← note (TornDown subnetIndex);
        ok (if e_bridge env t subnetIndex then LinuxBridgeName subnetIndex else "").

Record DestroySummary := mkDestroySummary {
  ds_Name : string;
  ds_Nodes : option Z;
  ds_Snapshots : Z;
  ds_DiskBytes : Z;
  ds_Domain : string;
  ds_ResolverWithdrawn : bool;
  ds_BridgeRemoved : string;
  ds_BridgeWarning : option sync_error
}.

Definition destroyCluster (name : string) (force : bool) : D (result ops_error DestroySummary) :=
  if negb force then fail ForceRequired
  else
    _ ← note (Guest name CancelProvision);
    _ ←! mret (map_err (fun e => StoreError (BadName e)) (validName name));
    f ← fails Stat; w ← get;
    if negb f && bool_decide (h_dirs w !! name = None) then fail (ClusterMissing name)
    else
      f ← fails BGPCall;
      _ ← (if f : bool then mret tt else note (BGPDisabled name));
      t ← next;
      let snapshots := default 0 (e_snapshots env t name) in
      let bytes := e_bytes env t name in
      item ← Load name;
      _ ←! match item with
           | Ok _ => failed ← stop name; if bool_decide (failed = []) then ok tt else fail (NotStopped failed)
           | Err _ => ok tt
           end;
      _ ←! lift StoreError (Destroy name);
      _ ← note (Guest name ForgetCluster);
      _ ← note (Guest name InvalidateStorage);
      _ ← logHelperSyncFailure;
      bridge ← match item with
               | Ok c => if e_linux env && (0 <=? c_SubnetIndex c) then releaseSubnetBridge (c_SubnetIndex c) else ok ""
               | Err _ => ok ""
               end;
      resolvers ← SyncResolverFiles;
      let customDomain := match item with Ok c => negb (String.eqb (c_Domain c) "") | Err _ => false end in
      ok (mkDestroySummary name
            (match item with Ok c => Some (Z.of_nat (length (c_Nodes c))) | Err _ => None end) snapshots bytes
            (match item with Ok c => EffectiveDomain c | Err _ => "" end)
            (is_ok resolvers && customDomain)
            (match bridge with Ok b => b | Err _ => "" end) (match bridge with Ok _ => None | Err e => Some e end)).

(** ** Nodes *)

Record nodeArgs := mkNodeArgs { na_Cluster : string; na_Name : string; na_Role : Role; na_Force : bool }.

(** [addNodeLocked] up to the committed record.  [AddNode] updates the caller's cluster;
    on every failure the files of the new node go again. *)
Definition commit_node (item : Cluster) (role : Role) (name : string) : D (result ops_error (Cluster * Node)) :=
  _ ←! ask (fun t => if e_cached env t item then Some tt else None) ImageFailed;
  let '(item, r) := AddNode item role name in
  node ←! mret (map_err NotBuilt r);
  let undo e : D (result ops_error (Cluster * Node)) := _ ← removeNodeFiles (c_Name item) (n_Name node); fail e in
  provisioned ← provisionDisks item;
  match provisioned with
  | Err e => undo e
  | Ok _ =>
      proposed ← proposedClusterSet item;
      match proposed with
      | Err e => undo (SyncFailed e)
      | Ok proposed =>
          synced ← SyncHelperClusters proposed;
          match synced with
          | Err e => undo (SyncFailed e)
          | Ok _ =>
              saved ← Save item;
              match saved with
              | Err e => _ ← removeNodeFiles (c_Name item) (n_Name node); _ ← logHelperSyncFailure; fail (StoreError e)
              | Ok _ => ok (item, node)
              end
          end
      end
  end.

(** The launch of the new node *)
Definition launch_node (item : Cluster) (node : Node) : D bool :=
  within (c_Name item) (
    l ← launchMachine (e_sched env) (e_daemon env) (n_Name node) None;
    match l with
    | LFailed _ => mret false
    | LMachine m _ => _ ← track (n_Name node) m; mret true
    end).

(** [addNodeLocked] from the committed record on *)
Definition finish_node (running : bool) (held : Z) (item : Cluster) (node : Node) : D (result ops_error unit) :=
  up ← (if running then _ ← rearmBalloonHold held; launch_node item node else mret true);
  if negb up then _ ← releaseBalloonHold held; fail (AddedNotStarted (n_Name node))
  else
    _ ← note (Guest (c_Name item) BeginProvision);
    _ ← (if running then mret tt else releaseBalloonHold held);
    ok tt.

(** The gates of [addNodeLocked]: the warnings and what was pre-ballooned *)
Definition admit_node (running force : bool) (addMiB : Z) : D (result ops_error (list string * Z)) :=
  hostPressureWarnings ←! ask (fun t => e_pressure env t (if running then addMiB else 0) force) PressureRefused;
  gate ←! (if running then checkProvisionStart addMiB force else ok ([], 0));
  ok (hostPressureWarnings ++ gate.1, gate.2).

Definition addNodeLocked (args : nodeArgs) : D (result ops_error (Node * list Warning)) :=
  let role := if String.eqb (na_Role args) "" then RoleWorker else na_Role args in
  item ←! lift StoreError (Load (na_Cluster args));
  let addMiB := MemoryMiB (DefaultsFor item role) in
  overcommitWarning ←! ask (fun t => e_overcommit env t addMiB (na_Force args)) OvercommitRefused;
  w ← get;
  let running := clusterRunning w (c_Name item) in
  gate ←! admit_node running (na_Force args) addMiB;
  subnetWarning ← (if running then attachedSubnetWarning (c_SubnetIndex item) else ok []);
  match subnetWarning with
  | Err e => _ ← releaseBalloonHold gate.2; fail e
  | Ok subnetWarning =>
      committed ← commit_node item role (na_Name args);
      match committed with
      | Err e => _ ← releaseBalloonHold gate.2; fail e
      | Ok (item, node) =>
          _ ←! finish_node running gate.2 item node;
          ok (node, gates (overcommitWarning ++ gate.1 ++ subnetWarning ++ e_advice env item))
      end
  end.

(** [removeNodeLocked] *)
Definition removeNodeLocked (clusterName name : string) : D (result ops_error Node) :=
  item ←! lift StoreError (Load clusterName);
  let '(item, r) := RemoveNode item name in
  node ←! mret (map_err NotBuilt r);
  w ← get;
  stopped ← (if bool_decide (is_Some (default ∅ (h_vms w !! c_Name item) !! n_Name node))
             then within (c_Name item) (c ← closeMachine (e_sched env) (n_Name node);
                                        _ ← (if c : bool then untrack (n_Name node) else mret tt); mret c)
             else mret true);
  if negb stopped then fail (NodeNotStopped (n_Name node))
  else
    _ ← note (Guest (c_Name item) (ForgetNode (n_Name node)));
    _ ←! lift StoreError (Save item);
    _ ← logHelperSyncFailure;
    _ ←! lift StoreError (removeNodeFiles (c_Name item) (n_Name node));
    _ ← note (Guest (c_Name item) BeginProvision);
    ok node.

(** ** The handlers of [Suspend] on a cluster of the store *)

Definition suspendCluster (name : string) (supported : bool) (order : list string) : D (result ops_error unit) :=
  item ←! lift StoreError (Load name);
  lift MachineError (within (c_Name item) (Suspend.suspendCluster (e_sched env) (e_daemon env) true supported order)).

Definition resumeCluster (name : string) (force : bool) (now : Z) : D (result ops_error (list Warning)) :=
  item ←! lift StoreError (Load name);
  w ← get;
  if clusterRunning w (c_Name item) then fail (MachineError AlreadyRunning)
  else
    _ ←! lift SyncFailed SyncHelperState;
    t ← next;
    let bootingMiB := stoppedNodeMemoryMiB w item in
    let a := mkAdmission (Some item) true (e_overcommit env t (clusterMemoryMiB item) force) bootingMiB
               (e_pressure env t bootingMiB force) (e_provision env t bootingMiB force)
               (match AttachedSubnetWarning (c_SubnetIndex item) (e_interfaces env t) (e_routes env t) with
                | Ok x => Some (subnet_text x) | Err _ => None end) in
    lift MachineError (within (c_Name item) (Suspend.resumeCluster (e_sched env) (e_daemon env) a now)).

(** [startNodeLocked]: no reservations are pushed here. *)
Definition startNodeLocked (name node : string) (force : bool) : D (result ops_error (option (list Warning))) :=
  item ←! lift StoreError (Load name);
  w ← get;
  t ← next;
  let mib := match clusterNode item node with Ok n => MemoryMiB (DefaultsFor item (n_Role n)) | Err _ => 0 end in
  let a := mkAdmission (Some item) true (e_overcommit env t (if clusterRunning w (c_Name item) then 0 else mib) force) mib
             (e_pressure env t mib force) (e_provision env t mib force)
             (match AttachedSubnetWarning (c_SubnetIndex item) (e_interfaces env t) (e_routes env t) with
              | Ok x => Some (subnet_text x) | Err _ => None end) in
  lift MachineError (within (c_Name item) (Suspend.startNodeLocked (e_sched env) (e_daemon env) a node)).

Definition stopNodeLocked (name node : string) : D (result ops_error (option (list Warning))) :=
  item ←! lift StoreError (Load name);
  lift MachineError (within (c_Name item) (Suspend.stopNodeLocked (e_sched env) (Some item) node)).
End Ops.
