(* ===== verification/Lifecycle.v ===== *)
(** * What the cluster life cycle guarantees ([ClusterOps])

    The invariant of the daemon's state through any sequence of handlers, what a failed
    handler leaves behind, the order of reservations and launches, and the memory a
    create is charged for. *)

From stdpp Require Import base list gmap sorting strings.
From Stdlib Require Import Ascii ZArith Lia.
From S2P Require Import Prelude GoStrings GoNet Cluster Subnet Dns Config TalosVersion DaemonBalloon Effects Suspend ClusterOps.

Local Open Scope Z_scope.

(** ** The machines of one cluster

    [boots h names]: a run that tracks and starts no machine outside [names], and, with
    [h], leaves the holds alone. *)
Record boots (h : bool) (names : gset string) (s s' : World) : Prop := mkBoots {
  b_vms : dom (Suspend.vms s') ⊆ dom (Suspend.vms s) ∪ names;
  b_events : exists es, Suspend.events s' = Suspend.events s ++ es /\ forall n, VMStarted n ∈ es -> n ∈ names;
  b_holds : h = true -> Suspend.holds s' = Suspend.holds s
}.

#[global] Instance boots_preorder h names : PreOrder (boots h names).
Proof.
  split.
  - intros s. split; [set_solver| |done]. exists []. rewrite app_nil_r. set_solver.
  - intros s1 s2 s3 [V1 (e1 & E1 & S1) H1] [V2 (e2 & E2 & S2) H2]. split; [set_solver| |].
    + exists (e1 ++ e2). rewrite E2, E1, app_assoc. split; [done|]. set_solver.
    + intros Hh. by rewrite H2, H1.
Qed.

Section Boots.
Context (h : bool) (names : gset string).

Lemma boots_same s s' : Suspend.vms s' = Suspend.vms s -> Suspend.events s' = Suspend.events s -> Suspend.holds s' = Suspend.holds s -> boots h names s s'.
Proof. intros V E H. split; [rewrite V; set_solver| |done]. exists []. rewrite app_nil_r. set_solver. Qed.

Lemma boots_call : stays (boots h names) Suspend.call.
Proof. intros s. by apply boots_same. Qed.

Lemma boots_files f : stays (boots h names) (modify (fun s => with_files (f s) s)).
Proof. intros s. by apply boots_same. Qed.

Lemma boots_disk f : stays (boots h names) (modify (fun s => with_disk (f s) s)).
Proof. intros s. by apply boots_same. Qed.

Lemma boots_emit e : (forall n, e = VMStarted n -> n ∈ names) -> stays (boots h names) (emit e).
Proof.
  intros He s. apply post_modify. split; simpl; [set_solver| |done]. exists [e]. split; [done|].
  intros n Hn%list_elem_of_singleton. auto.
Qed.

Lemma boots_track n m : n ∈ names -> stays (boots h names) (track n m).
Proof.
  intros Hn s. apply post_modify. split; simpl; [set_solver| |done]. exists []. rewrite app_nil_r. set_solver.
Qed.

Lemma boots_untrack n : stays (boots h names) (untrack n).
Proof. intros s. apply post_modify. split; simpl; [set_solver| |done]. exists []. rewrite app_nil_r. set_solver. Qed.

Lemma boots_set_inactive n : stays (boots h names) (set_inactive n).
Proof.
  intros s. unfold set_inactive. apply post_bind, post_get. destruct (Suspend.vms s !! n) as [m|] eqn:E; [|apply post_ret; reflexivity].
  apply post_modify. split; simpl; [|exists []; rewrite app_nil_r; set_solver|done].
  rewrite dom_insert. apply union_subseteq. split; [|set_solver]. apply elem_of_dom_2 in E. set_solver.
Qed.
End Boots.

#[export] Hint Resolve boots_call boots_files boots_disk boots_untrack boots_set_inactive boots_track : frame.
#[export] Hint Extern 2 (stays (boots _ _) (emit _)) => apply boots_emit; congruence : frame.

Section BootsCalls.
Context (h : bool) (names : gset string) (sch : Schedule).
#[local] Abbreviation bounded := (stays (boots h names)).

Lemma boots_remove f : bounded (remove sch f).
Proof. unfold remove. stays_tac. Qed.
Lemma boots_read f : bounded (read sch f).
Proof. unfold read. stays_tac. Qed.
Lemma boots_glob f : bounded (glob sch f).
Proof. unfold glob. stays_tac. Qed.
Lemma boots_write f c : bounded (writeFile sch f c).
Proof. unfold writeFile. stays_tac. Qed.
Lemma boots_stopMachine n : bounded (stopMachine sch n).
Proof. unfold stopMachine. stays_tac. Qed.
Lemma boots_Close n : bounded (Close sch n).
Proof. unfold Close. stays_tac. Qed.
Lemma boots_Suspend n p : bounded (Suspend sch n p).
Proof. unfold Suspend. stays_tac. Qed.
#[local] Hint Resolve boots_remove boots_read boots_glob boots_write boots_stopMachine boots_Close boots_Suspend : frame.

Lemma boots_closeMachine n : bounded (closeMachine sch n).
Proof. unfold closeMachine. stays_tac. Qed.
Lemma boots_marker p : bounded (removeSaveStateBalloonMarker sch p).
Proof. unfold removeSaveStateBalloonMarker. stays_tac. Qed.
Lemma boots_record p b : bounded (recordSaveStateBalloon sch p b).
Proof. unfold recordSaveStateBalloon. stays_tac. Qed.
Lemma boots_owner d p : bounded (recordSaveStateOwner sch d p).
Proof. unfold recordSaveStateOwner. stays_tac. Qed.
#[local] Hint Resolve boots_closeMachine boots_marker boots_record boots_owner : frame.

Lemma boots_launch d n r : n ∈ names -> bounded (launchMachine sch d n r).
Proof. intros Hn. unfold launchMachine. stays_tac. Qed.

Lemma boots_closeNodes l : bounded (closeNodes sch l).
Proof.
  unfold closeNodes, closeEach. repeat stays_step. all: apply stays_gather; [typeclasses eauto|]; intros; stays_tac.
Qed.

Lemma boots_discard n : bounded (discardSavedState sch n).
Proof. unfold discardSavedState. stays_tac. Qed.

Lemma boots_removeSaves l : bounded (removeSaveStateFiles sch l).
Proof. unfold removeSaveStateFiles. apply stays_gather; [typeclasses eauto|]. intros. stays_tac. Qed.
#[local] Hint Resolve boots_launch boots_closeNodes boots_discard boots_removeSaves : frame.

Lemma boots_suspendNode d n : bounded (suspendNode sch d n).
Proof. unfold suspendNode, prepareSavedMachine. stays_tac. Qed.

Lemma boots_suspend d loaded supported order : bounded (Suspend.suspendCluster sch d loaded supported order).
Proof.
  unfold Suspend.suspendCluster. repeat stays_step. apply stays_gather; [typeclasses eauto|]. intros. apply boots_suspendNode.
Qed.

Lemma boots_startLoop d l : forall started, (forall n, n ∈ l -> n ∈ names) -> bounded (startLoop sch d l started).
Proof.
  induction l as [|n l IH]; intros started Hl; cbn [startLoop]; [stays_tac|].
  assert (n ∈ names) by set_solver. assert (forall k, k ∈ l -> k ∈ names) as Hl' by set_solver. specialize (fun s => IH s Hl').
  unfold releaseInactive. repeat stays_step; eauto with frame. apply stays_gather; [typeclasses eauto|]. intros. stays_tac.
Qed.

Lemma boots_start d item sync subnet : (forall n, n ∈ c_Nodes item -> n_Name n ∈ names) -> bounded (Suspend.start sch d item sync subnet).
Proof.
  intros Hi. unfold Suspend.start. repeat stays_step.
  - apply boots_startLoop. intros n (x & -> & Hx)%list_elem_of_fmap. auto.
  - apply stays_gather; [typeclasses eauto|]. intros. stays_tac.
Qed.

Lemma boots_stop loaded : bounded (Suspend.stop sch loaded).
Proof. unfold Suspend.stop. stays_tac. Qed.

Lemma boots_stopNode item name : bounded (Suspend.stopNodeLocked sch item name).
Proof. unfold Suspend.stopNodeLocked. stays_tac. Qed.
End BootsCalls.

#[export] Hint Resolve boots_remove boots_read boots_glob boots_write boots_stopMachine boots_Close boots_Suspend boots_closeMachine
  boots_marker boots_record boots_owner boots_launch boots_closeNodes boots_discard boots_removeSaves : frame.

Section BootsHolds.
Context (names : gset string) (sch : Schedule).
#[local] Abbreviation bounded := (stays (boots false names)).

Lemma boots_hold x : bounded (hold x).
Proof. intros s. apply post_modify. split; [case_match; set_solver| |done]. exists []. rewrite app_nil_r. case_match; set_solver. Qed.

Lemma boots_release x : bounded (Suspend.releaseBalloonHold x).
Proof. intros s. apply post_modify. split; [case_match; set_solver| |done]. exists []. rewrite app_nil_r. case_match; set_solver. Qed.
#[local] Hint Resolve boots_hold boots_release : frame.

Lemma boots_oldest l : forall o, bounded (oldest sch l o).
Proof. induction l as [|p l IH]; intros o; cbn [oldest]; stays_tac. Qed.

Lemma boots_drift now : bounded (clockDriftWarning sch now).
Proof. unfold clockDriftWarning. repeat stays_step. apply boots_oldest. Qed.

Lemma boots_resumeNode d n : n ∈ names -> bounded (resumeNode sch d n).
Proof. intros Hn. unfold resumeNode, savedWithoutBalloon. stays_tac. Qed.

Lemma boots_batch d l : forall attempted paths ws r, (forall n, n ∈ l -> n ∈ names) ->
  bounded (resumeNodeBatch sch d l attempted paths ws r).
Proof.
  induction l as [|n l IH]; intros attempted paths ws r Hl; cbn [resumeNodeBatch]; [stays_tac|].
  assert (n ∈ names) by set_solver. pose proof (boots_resumeNode d n).
  assert (forall k, k ∈ l -> k ∈ names) as Hl' by set_solver.
  repeat stays_step; auto; apply IH; done.
Qed.

Lemma boots_resume d a now : (forall item n, a_item a = Some item -> n ∈ c_Nodes item -> n_Name n ∈ names) ->
  bounded (Suspend.resumeCluster sch d a now).
Proof.
  intros Hi. unfold Suspend.resumeCluster. destruct (a_item a) as [item|] eqn:Ei; [|stays_tac].
  pose proof boots_drift. pose proof (fun k => boots_batch d (n_Name <$> c_Nodes item) [] [] [] false k).
  assert (forall n, n ∈ n_Name <$> c_Nodes item -> n ∈ names) by (intros n (x & -> & Hx)%list_elem_of_fmap; eauto).
  repeat stays_step; auto.
Qed.

Lemma boots_startNode d a n : (forall item x, a_item a = Some item -> x ∈ c_Nodes item -> n_Name x ∈ names) ->
  bounded (Suspend.startNodeLocked sch d a n).
Proof.
  intros Hi. unfold Suspend.startNodeLocked. destruct (a_item a) as [item|] eqn:Ei; [|stays_tac].
  destruct (clusterNode item n) as [node|] eqn:En; [|stays_tac].
  assert (n_Name node ∈ names).
  { apply (Hi item); [done|]. unfold clusterNode in En. case_bool_decide; [done|].
    destruct (list_find _ _) as [[i x]|] eqn:Ef; [|done]. injection En as ->. apply list_find_Some in Ef as [Ef _].
    by eapply list_elem_of_lookup_2. }
  stays_tac.
Qed.
End BootsHolds.

(** ** The invariant *)

Definition stored (w : Home) (name : string) : option Stored := h_dirs w !! name ≫= d_record.
Definition tracked (w : Home) (name : string) : gset string := dom (default ∅ (h_vms w !! name)).
Definition node_names (c : Cluster) : gset string := list_to_set (n_Name <$> c_Nodes c).

(** A record under its own name, as [Save] writes it, with an address and the derived
    MAC for every node *)
Record record_ok (name : string) (s : Stored) : Prop := mkRecordOk {
  ro_cluster : cluster_ok (st_cluster s);
  ro_name : c_Name (st_cluster s) = name;
  ro_valid : validName name = Ok tt;
  ro_addresses : Forall (fun n => n_IP n <> EmptyString) (c_Nodes (st_cluster s));
  ro_macs : Forall (fun n => n_MAC n = DeterministicMAC name (n_Name n)) (c_Nodes (st_cluster s));
  ro_encoded : s = encode (st_cluster s);
  ro_intent : BGP (c_Intent (st_cluster s)) = true -> CNI (c_Intent (st_cluster s)) <> EmptyString
}.

(** Records are well formed; no two share a subnet or a domain; every machine the daemon
    tracks is a node of a stored cluster. *)
Record home_ok (w : Home) : Prop := mkHomeOk {
  ho_records : forall name s, stored w name = Some s -> record_ok name s;
  ho_distinct : forall n1 n2 s1 s2, stored w n1 = Some s1 -> stored w n2 = Some s2 -> n1 <> n2 ->
    c_SubnetIndex (st_cluster s1) <> c_SubnetIndex (st_cluster s2) /\ EffectiveDomain (st_cluster s1) <> EffectiveDomain (st_cluster s2);
  ho_tracked : forall name n, n ∈ tracked w name -> exists s, stored w name = Some s /\ n ∈ node_names (st_cluster s)
}.

Lemma home_ok_same w w' : (forall k, stored w' k = stored w k) -> (forall k, tracked w' k ⊆ tracked w k) -> home_ok w -> home_ok w'.
Proof.
  intros Hs Ht [R D T]. split.
  - intros name s. rewrite Hs. apply R.
  - intros n1 n2 s1 s2. rewrite !Hs. apply D.
  - intros name n Hn%Ht. rewrite Hs. auto.
Qed.

(** What [Load] answers for a well-formed record *)
Definition view (c : Cluster) : Cluster :=
  with_migration (c_SubnetIndex c) (c_Intent c)
    (if String.eqb (c_ImageArchitecture c) "" then LegacyImageArchitecture else c_ImageArchitecture c) c.

Lemma assign_none sub used m nodes : Forall (fun n => n_IP n <> EmptyString) nodes ->
  assign_reservations sub used m nodes = (nodes, Ok m).
Proof.
  induction 1 as [|n nodes Hn _ IH]; [done|]. cbn [assign_reservations]. rewrite (proj2 (String.eqb_neq _ _) Hn). cbn [negb].
  by rewrite IH.
Qed.

Lemma load_view name s : record_ok name s ->
  load_migrate (st_subnetIndex s) (st_bgp s) (st_cni s) (st_cluster s) = (view (st_cluster s), Ok false).
Proof.
  intros [Hc _ _ Ha _ He Hi]. rewrite He at 1 2 3. set (c := st_cluster s) in *. unfold load_migrate. cbn [st_subnetIndex st_bgp st_cni encode].
  assert ((BGP (c_Intent c) && negb (negb (String.eqb (CNI (c_Intent c)) "")) && BGP (c_Intent c)) = false) as ->.
  { destruct (BGP (c_Intent c)); [|done]. by rewrite (proj2 (String.eqb_neq _ _) (Hi eq_refl)). }
  cbv zeta. unfold ensureNodeReservations. simpl.
  rewrite used_reservations_ok; [|apply (ok_subnet c Hc)|apply (ok_ips c Hc)|set_solver].
  rewrite assign_none by done. by destruct c.
Qed.

(** ** Runs that leave the clusters alone *)

(** Nothing but the call counter *)
Definition quiet (w w' : Home) : Prop :=
  h_dirs w' = h_dirs w /\ h_vms w' = h_vms w /\ h_versions w' = h_versions w /\ h_holds w' = h_holds w /\
  h_helper w' = h_helper w /\ h_trace w' = h_trace w.

#[global] Instance quiet_preorder : PreOrder quiet.
Proof. split; [done|]. intros w1 w2 w3 (?&?&?&?&?&?) (?&?&?&?&?&?). unfold quiet. repeat split; congruence. Qed.

(** The set the helper holds after a trace *)
Fixpoint told (set : list Cluster) (evs : list op_event) : list Cluster :=
  match evs with
  | [] => set
  | Pushed l :: evs => told l evs
  | _ :: evs => told set evs
  end.

(** The helper serves [node] of cluster [name]: its MAC has the node's address. *)
Definition reserved (set : list Cluster) (name node : string) : Prop :=
  exists t item n mac, NewReservationTable set = Ok t /\ item ∈ set /\ c_Name item = name /\ n ∈ c_Nodes item /\ n_Name n = node /\
    Lookup t (n_MAC n) = Some (mkReservation mac (parse_ip4 (n_IP n)) (c_SubnetIndex item)).

(** Every machine starts with its reservation at the helper. *)
Fixpoint guarded (set : list Cluster) (evs : list op_event) : Prop :=
  match evs with
  | [] => True
  | Pushed l :: evs => guarded l evs
  | Guest name (VMStarted n) :: evs => reserved set name n /\ guarded set evs
  | _ :: evs => guarded set evs
  end.

Lemma told_app set a b : told set (a ++ b) = told (told set a) b.
Proof. revert set. induction a as [|[c e|l|l|c|i|i] a IH]; intros set; simpl; auto. Qed.

Lemma guarded_app set a b : guarded set (a ++ b) <-> guarded set a /\ guarded (told set a) b.
Proof.
  revert set. induction a as [|[c e|l|l|c|i|i] a IH]; intros set; simpl; [tauto| |apply IH..].
  destruct e; rewrite IH; tauto.
Qed.

(** What a run adds to the trace, with a condition on the bridges it took down *)
Definition ordered_with (P : Z -> Prop) (w w' : Home) : Prop :=
  exists evs, h_trace w' = h_trace w ++ evs /\ h_helper w' = told (h_helper w) evs /\ guarded (h_helper w) evs /\
    forall i, TornDown i ∈ evs -> P i.

#[global] Instance ordered_preorder P : PreOrder (ordered_with P).
Proof.
  split.
  - intros w. exists []. rewrite app_nil_r. set_solver.
  - intros w1 w2 w3 (a & Ta & Ha & Ga & Pa) (b & Tb & Hb & Gb & Pb). exists (a ++ b).
    rewrite Tb, Ta, app_assoc, told_app, guarded_app, <- Ha. split_and!; [done..|]. set_solver.
Qed.

Definition ordered : Home -> Home -> Prop := ordered_with (fun _ => False).
#[global] Instance ordered_is_preorder : PreOrder ordered := ordered_preorder _.

Lemma ordered_same P w w' : h_trace w' = h_trace w -> h_helper w' = h_helper w -> ordered_with P w w'.
Proof. intros E1 E2. exists []. rewrite app_nil_r. set_solver. Qed.

Lemma ordered_one P e w w' : h_trace w' = h_trace w ++ [e] -> h_helper w' = told (h_helper w) [e] ->
  (forall c n, e <> Guest c (VMStarted n)) -> (forall i, e = TornDown i -> P i) -> ordered_with P w w'.
Proof.
  intros E1 E2 E3 E4. exists [e]. split_and!; [done..| |].
  - destruct e as [c []| | | | |]; naive_solver.
  - intros i Hi%list_elem_of_singleton. auto.
Qed.

Lemma ordered_weaken (P Q : Z -> Prop) w w' : (forall i, P i -> Q i) -> ordered_with P w w' -> ordered_with Q w w'.
Proof. intros HPQ (evs & ? & ? & ? & ?). exists evs. naive_solver. Qed.

Definition synced (w w' : Home) : Prop :=
  h_dirs w' = h_dirs w /\ h_vms w' = h_vms w /\ h_versions w' = h_versions w /\ h_holds w' = h_holds w /\ ordered w w'.

#[global] Instance synced_preorder : PreOrder synced.
Proof.
  split; [intros w; repeat split; reflexivity|]. intros w1 w2 w3 (?&?&?&?&?) (?&?&?&?&?). repeat split; try congruence. by etrans.
Qed.

Lemma quiet_synced w w' : quiet w w' -> synced w w'.
Proof. intros (?&?&?&?&E&T). repeat split; try done. by apply ordered_same. Qed.

Lemma synced_stored w w' k : synced w w' -> stored w' k = stored w k.
Proof. intros (E&_). unfold stored. by rewrite E. Qed.

Lemma synced_tracked w w' k : synced w w' -> tracked w' k = tracked w k.
Proof. intros (_&E&_). unfold tracked. by rewrite E. Qed.

Lemma synced_ok w w' : synced w w' -> home_ok w -> home_ok w'.
Proof. intros H. apply home_ok_same; intros k; [by apply synced_stored|by rewrite (synced_tracked _ _ k H)]. Qed.

(** A note that starts nothing *)
Lemma synced_note e w : (forall c n, e <> Guest c (VMStarted n)) -> (forall l, e <> Pushed l) -> (forall i, e <> TornDown i) ->
  runs w (note e) (fun w' _ => synced w w').
Proof.
  intros H1 H2 H3. apply post_modify. repeat split. apply (ordered_one _ e); [done|by destruct e; try done; naive_solver|done|naive_solver].
Qed.

(** ** The store *)

(** The record of a stored cluster can always be read. *)
Definition readable (env : Env) : Prop := forall t, e_fault env ReadRecord t = false.

Section Store.
Context (env : Env).

Lemma post_fails c w (Q : Home -> bool -> Prop) : (forall w', quiet w w' -> Q w' (e_fault env c (h_tick w))) -> runs w (fails env c) Q.
Proof. intros H. by apply H. Qed.

Lemma post_next w (Q : Home -> nat -> Prop) : (forall w', quiet w w' -> Q w' (h_tick w)) -> runs w next Q.
Proof. intros H. by apply H. Qed.

Lemma quiet_stored w w' k : quiet w w' -> stored w' k = stored w k.
Proof. intros (E&_). unfold stored. by rewrite E. Qed.

Lemma Load_spec name w : home_ok w ->
  runs w (Load env name) (fun w' r => quiet w w' /\
    match r with
    | Ok c => exists s, stored w name = Some s /\ c = view (st_cluster s)
    | Err e => (e = RecordMissing \/ readable env) -> stored w name = None
    end).
Proof.
  intros Hw. unfold Load. destruct (validName name) as [[]|e] eqn:Ev.
  2:{ apply post_ret. split; [reflexivity|]. intros _. destruct (stored w name) as [s|] eqn:Es; [|done].
      apply (ho_records w Hw) in Es. by rewrite (ro_valid _ _ Es) in Ev. }
  apply post_bind, post_fails. intros w1 H1. apply post_bind, post_get. destruct (e_fault env ReadRecord (h_tick w)) eqn:Ef.
  { apply post_ret. split; [done|]. intros [?|Hr]; [done|]. by rewrite Hr in Ef. }
  fold (stored w1 name). rewrite (quiet_stored _ _ name H1).
  destruct (stored w name) as [s|] eqn:Es; [|by apply post_ret].
  rewrite (load_view name) by by apply (ho_records w Hw). apply post_ret. split; [done|]. eauto.
Qed.

Lemma quiet_ok w w' : quiet w w' -> home_ok w -> home_ok w'.
Proof. intros H. by apply synced_ok, quiet_synced. Qed.

Definition lists (w : Home) (l : list Cluster) : Prop :=
  forall c, c ∈ l <-> exists name s, stored w name = Some s /\ c = view (st_cluster s).

Lemma List_spec w : home_ok w ->
  runs w (List env) (fun w' r => quiet w w' /\ match r with Ok l => lists w l | Err _ => True end).
Proof.
  intros Hw. unfold List. apply post_bind, post_fails. intros w1 H1. apply post_bind, post_get.
  destruct (e_fault env ReadDir (h_tick w)); [by apply post_ret|].
  apply post_try. eapply post_conseq.
  { apply (post_gather_try _ _ (fun done l w' => quiet w w' /\ forall c, c ∈ l <-> exists name s, name ∈ done /\ stored w name = Some s /\ c = view (st_cluster s))
      (fun _ w' => quiet w w')); [split; [done|set_solver]|].
    intros l1 name l2 l w2 _ [H2 Hl]. unfold load_entry. apply post_bind.
    eapply post_conseq; [apply Load_spec; by eapply quiet_ok|]. intros w3 r [H3 Hr]. rewrite (quiet_stored _ _ _ H2) in Hr.
    assert (quiet w w3) by by etrans.
    assert (stored w name = None -> quiet w w3 /\ forall c, c ∈ l ++ [] <-> exists k s, k ∈ l1 ++ [name] /\ stored w k = Some s /\ c = view (st_cluster s)) as Hnone.
    { intros Hn. split; [done|]. intros c. rewrite app_nil_r, Hl. split; intros (k & s & Hk & Hs & ->); exists k, s; [set_solver|].
      apply elem_of_app in Hk as [Hk|Hk%list_elem_of_singleton]; [done|congruence]. }
    destruct r as [c|e].
    - destruct Hr as (s & Hs & ->). apply post_ret. split; [done|]. intros c. rewrite elem_of_app, list_elem_of_singleton, Hl.
      split; [intros [(k & s' & Hk & ?)| ->]; [exists k, s'|exists name, s]; set_solver|].
      intros (k & s' & [Hk|Hk%list_elem_of_singleton]%elem_of_app & Hs' & ->); [left; eauto|right; congruence].
    - destruct e; apply post_ret; try done. apply Hnone. auto. }
  intros w2 [l|e] Hq; [|done]. destruct Hq as [H2 Hl]. apply post_ret. split; [done|].
  intros c. rewrite (merge_sort_Permutation by_name l), Hl. setoid_rewrite elem_of_sort_strings. setoid_rewrite elem_of_elements.
  split; [naive_solver|]. intros (k & s & Hs & ->). exists k, s. split; [|done]. apply elem_of_dom. destruct H1 as (-> & _).
  unfold stored in Hs. destruct (h_dirs w !! k); [eauto|done].
Qed.

(** ** Pushing reservations *)

Lemma SyncHelperClusters_spec l w :
  runs w (SyncHelperClusters env l) (fun w' r => synced w w' /\ (r = Ok tt -> h_helper w' = l /\ is_ok (NewReservationTable l) = true)).
Proof.
  unfold SyncHelperClusters. apply post_bind, post_fails. intros w1 H1%quiet_synced.
  destruct (e_fault _ _ _); [by apply post_ret|]. apply post_bind, post_next. intros w2 H2%quiet_synced.
  assert (synced w w2) as Hs by by etrans.
  assert (synced w (with_helper l w2)) as Hp.
  { etrans; [done|]. repeat split. by apply (ordered_one _ (Pushed l)). }
  destruct (is_ok (NewReservationTable l)) eqn:Et; [|by apply post_ret]. cbn [negb].
  destruct (e_fault _ SyncCall _).
  - apply post_bind. destruct (e_taken _ _); [apply post_modify|apply post_ret]; by apply post_ret.
  - apply post_bind, post_modify, post_ret. done.
Qed.

Lemma listForSync_spec w : home_ok w ->
  runs w (listForSync env) (fun w' r => quiet w w' /\ match r with Ok l => lists w l | Err _ => True end).
Proof.
  intros Hw. unfold listForSync. apply post_bind. eapply post_conseq; [by apply List_spec|].
  intros w' [l|e] H; by apply post_ret.
Qed.

(** A taken set answers for each of its nodes. *)
Lemma table_answers l t item n : NewReservationTable l = Ok t -> item ∈ l -> n ∈ c_Nodes item -> reserved l (c_Name item) (n_Name n).
Proof.
  intros Ht Hi Hn. pose proof Ht as Ht'. unfold NewReservationTable in Ht'.
  destruct (reserve_clusters (∅, ∅) l) as [[byMAC byIP]|] eqn:E; [|done]. injection Ht' as <-.
  destruct (reserve_clusters_spec _ _ _ E) as (_ & _ & Hr & _).
  { split; intros *; simpl; rewrite lookup_empty; done. }
  destruct (Hr _ _ Hi Hn) as (mac & Hm & _ & Hl). exists byMAC, item, n, mac. split_and!; try done.
  unfold Lookup. by rewrite Hm.
Qed.

(** Every node of every stored cluster *)
Definition all_reserved (w : Home) (set : list Cluster) : Prop :=
  forall name s n, stored w name = Some s -> n ∈ node_names (st_cluster s) -> reserved set name n.

Lemma node_names_elem n c : n ∈ node_names c <-> exists x, x ∈ c_Nodes c /\ n_Name x = n.
Proof. unfold node_names. rewrite elem_of_list_to_set, list_elem_of_fmap. naive_solver. Qed.

Lemma SyncHelperState_spec w : home_ok w ->
  runs w (SyncHelperState env) (fun w' r => synced w w' /\ (r = Ok tt -> all_reserved w (h_helper w'))).
Proof.
  intros Hw. unfold SyncHelperState. apply post_try. eapply post_conseq; [by apply listForSync_spec|].
  intros w1 [l|e] [H1%quiet_synced Hl]; [|done]. eapply post_conseq; [apply SyncHelperClusters_spec|].
  intros w2 r [H2 Hr]. split; [by etrans|]. intros E. destruct (Hr E) as [-> Ht]. clear Hr E.
  destruct (NewReservationTable l) as [t|] eqn:Et; [|done]. intros name s n Hs (x & Hx & <-)%node_names_elem.
  rewrite <- (ro_name _ _ (ho_records w Hw _ _ Hs)). apply (table_answers l t (view (st_cluster s)) x); [done| |done].
  apply Hl. eauto.
Qed.

Lemma logHelperSyncFailure_spec w : home_ok w -> runs w (logHelperSyncFailure env) (fun w' _ => synced w w').
Proof.
  intros Hw. unfold logHelperSyncFailure. apply post_bind. eapply post_conseq; [by apply SyncHelperState_spec|].
  intros w' r [H _]. by apply post_ret.
Qed.

Lemma SyncResolverFiles_spec w : home_ok w -> runs w (SyncResolverFiles env) (fun w' _ => synced w w').
Proof.
  intros Hw. unfold SyncResolverFiles. apply post_try. eapply post_conseq; [by apply listForSync_spec|].
  intros w1 [l|e] [H1%quiet_synced _]; [|done]. apply post_bind, post_fails. intros w2 H2%quiet_synced.
  destruct (e_fault _ _ _); [apply post_ret; by etrans|]. apply post_bind, post_fails. intros w3 H3%quiet_synced.
  assert (synced w w3) by (etrans; [|done]; by etrans).
  destruct (e_fault _ _ _); [by apply post_ret|]. apply post_bind. eapply post_conseq; [by apply synced_note|].
  intros w4 u H4. apply post_ret. by etrans.
Qed.
End Store.

(** ** Writing one directory *)

(** Only the directory of [name] changes, and its record as [R] says. *)
Record files_of (name : string) (R : option Stored -> option Stored -> Prop) (w w' : Home) : Prop := mkFilesOf {
  fo_vms : h_vms w' = h_vms w;
  fo_versions : h_versions w' = h_versions w;
  fo_holds : h_holds w' = h_holds w;
  fo_helper : h_helper w' = h_helper w;
  fo_trace : h_trace w' = h_trace w;
  fo_others : forall k, k <> name -> h_dirs w' !! k = h_dirs w !! k;
  fo_record : R (stored w name) (stored w' name)
}.

#[global] Instance files_of_preorder name : PreOrder (files_of name eq).
Proof.
  split; [by intros w|]. intros w1 w2 w3 [] []. split; try congruence. intros k Hk. rewrite fo_others1; auto.
Qed.

Lemma quiet_files name w w' : quiet w w' -> files_of name eq w w'.
Proof. intros (E&?&?&?&?&?). split; try done; [by rewrite E|]. unfold stored. by rewrite E. Qed.

Lemma files_trans name R w1 w2 w3 : files_of name eq w1 w2 -> files_of name R w2 w3 -> files_of name R w1 w3.
Proof. intros [] []. split; try congruence. intros k Hk. by rewrite fo_others1, fo_others0. Qed.

Lemma files_stored name R w w' k : files_of name R w w' -> k <> name -> stored w' k = stored w k.
Proof. intros H Hk. unfold stored. by rewrite (fo_others _ _ _ _ H k Hk). Qed.

Lemma files_tracked name R w w' k : files_of name R w w' -> tracked w' k = tracked w k.
Proof. intros H. unfold tracked. by rewrite (fo_vms _ _ _ _ H). Qed.

Lemma files_ok name w w' : files_of name eq w w' -> home_ok w -> home_ok w'.
Proof.
  intros H. apply home_ok_same; intros k; [|by rewrite (files_tracked _ _ _ _ k H)].
  destruct (decide (k = name)) as [->|Hk]; [symmetry; apply H|by eapply files_stored].
Qed.

(** A change of the directory that keeps its record *)
Lemma files_alter name f w : (forall d, d_record (f d) = d_record d) -> files_of name eq w (with_dirs (alter f name (h_dirs w)) w).
Proof.
  intros Hf. split; try done; unfold stored; simpl.
  - intros k Hk. by rewrite lookup_alter_ne.
  - rewrite lookup_alter, decide_True by done. destruct (h_dirs w !! name); simpl; [by rewrite Hf|done].
Qed.

Lemma files_mkdir name w : files_of name eq w (mkdir name w).
Proof.
  split; try done; unfold stored; simpl.
  - intros k Hk. by rewrite lookup_insert_ne.
  - rewrite lookup_insert, decide_True by done. by destruct (h_dirs w !! name).
Qed.

Section Directory.
Context (env : Env).
#[local] Abbreviation local name := (stays (files_of name eq)).

Lemma local_fails name c : local name (fails env c).
Proof. intros w. apply post_fails. intros w' H. by apply quiet_files. Qed.

Lemma local_next name : local name next.
Proof. intros w. apply post_next. intros w' H. by apply quiet_files. Qed.

Lemma local_alter name f : (forall d, d_record (f d) = d_record d) -> local name (modify (fun w => with_dirs (alter f name (h_dirs w)) w)).
Proof. intros Hf w. apply post_modify. by apply files_alter. Qed.

Lemma local_mkdir name : local name (modify (mkdir name)).
Proof. intros w. apply post_modify, files_mkdir. Qed.
#[local] Hint Resolve local_fails local_next local_mkdir : frame.
#[local] Hint Extern 2 (stays (files_of _ _) (modify (fun _ => with_dirs (alter _ _ _) _))) => apply local_alter; done : frame.

Lemma local_provision name n : local name (provision_disk env name n).
Proof. unfold provision_disk. stays_tac. Qed.
#[local] Hint Resolve local_provision : frame.

Lemma provisionDisks_local c : local (c_Name c) (provisionDisks env c).
Proof. unfold provisionDisks. stays_tac. Qed.

Lemma removeNodeFiles_local name node : local name (removeNodeFiles env name node).
Proof.
  unfold removeNodeFiles. repeat stays_step. apply stays_gather_try; [typeclasses eauto|]. intros. stays_tac.
Qed.

(** Every node of a provisioned cluster has its image. *)
Lemma provisionDisks_images c w :
  runs w (provisionDisks env c) (fun w' r => r = Ok tt -> exists d, h_dirs w' !! c_Name c = Some d /\ node_names c ⊆ d_images d).
Proof.
  unfold provisionDisks. case_match; [by apply post_ret|]. apply post_bind, post_fails. intros w1 _.
  case_match; [by apply post_ret|]. apply post_bind, post_modify, post_try. eapply post_conseq.
  { apply (post_gather_try _ _ (fun done _ w' => exists d, h_dirs w' !! c_Name c = Some d /\ forall n, n ∈ done -> n_Name n ∈ d_images d)
      (fun _ _ => True)).
    - eexists. simpl. rewrite lookup_insert, decide_True by done. split; [done|set_solver].
    - intros l1 n l2 bs w2 _ (d & Hd & Hi). unfold provision_disk. case_match; [|by apply post_ret].
      apply post_bind, post_fails. intros w3 (E3 & _). case_match; [by apply post_ret|].
      apply post_bind, post_modify, post_ret. eexists. simpl. rewrite lookup_alter, decide_True, E3, Hd by done. split; [done|].
      simpl. intros x [Hx| ->%list_elem_of_singleton]%elem_of_app; [apply Hi in Hx|]; set_solver. }
  intros w2 [bs|e] Hd; [|done]. apply post_ret. intros _. destruct Hd as (d & Hd & Hi). exists d. split; [done|].
  intros n (x & Hx & <-)%node_names_elem. auto.
Qed.

Lemma Save_spec c w :
  runs w (Save env c) (fun w' r => match r with
    | Ok _ => files_of (c_Name c) (fun _ s => s = Some (encode c)) w w' /\
        forall d, h_dirs w !! c_Name c = Some d -> h_dirs w' !! c_Name c = Some (set_record c d)
    | Err _ => files_of (c_Name c) eq w w'
    end).
Proof.
  unfold Save. case_match; [|apply post_ret; reflexivity]. apply post_bind, post_fails. intros w1 Q1.
  pose proof (quiet_files (c_Name c) _ _ Q1) as H1. case_match; [by apply post_ret|]. apply post_bind, post_modify.
  pose proof (files_mkdir (c_Name c) w1) as Hm. apply post_bind, post_fails. intros w2 Q2.
  pose proof (quiet_files (c_Name c) _ _ Q2) as H2. assert (files_of (c_Name c) eq w w2) as H4 by (etrans; [|done]; by etrans).
  case_match; [by apply post_ret|]. apply post_bind, post_modify, post_ret. destruct Q1 as (E1 & _), Q2 as (E2 & _).
  cbn [mkdir with_dirs h_dirs] in E2. split.
  - eapply files_trans; [done|]. split; try done; unfold stored; simpl.
    + intros k Hk. by rewrite lookup_alter_ne.
    + by rewrite E2, lookup_alter, decide_True, lookup_insert, decide_True.
  - intros d Hd. simpl. by rewrite E2, lookup_alter, decide_True, lookup_insert, decide_True, E1, Hd.
Qed.

Lemma Destroy_spec name w :
  runs w (Destroy env name) (fun w' r => files_of name (fun old new => new = None \/ (is_ok r = false /\ new = old)) w w' /\
    (r = Ok tt -> h_dirs w' !! name = None) /\ (h_dirs w !! name = None -> h_dirs w' !! name = None)).
Proof.
  unfold Destroy. case_match; [|apply post_ret; split_and!; try done; split; try done; by right].
  apply post_bind, post_next. intros w1 Q. pose proof (quiet_files name _ _ Q) as H1. destruct Q as (E1 & _). case_match.
  - apply post_bind, post_modify, post_ret. split_and!; try done; simpl.
    + eapply files_trans; [done|]. split; try done; unfold stored; simpl.
      * intros k Hk. by rewrite lookup_alter_ne.
      * rewrite lookup_alter, decide_True by done. destruct (h_dirs w1 !! name) as [d|]; simpl; [|by left].
        unfold leave. destruct (e_leaves env (h_tick w)) as [[[] ?] ?]; simpl; [by right|by left].
    + intros Hn. by rewrite lookup_alter, decide_True, E1, Hn.
  - apply post_bind, post_modify, post_ret. split_and!; simpl.
    + eapply files_trans; [done|]. split; try done; unfold stored; simpl.
      * intros k Hk. by rewrite lookup_delete_ne.
      * left. by rewrite lookup_delete, decide_True.
    + intros _. by rewrite lookup_delete, decide_True.
    + intros _. by rewrite lookup_delete, decide_True.
Qed.
End Directory.

(** ** Running one cluster's machines *)

(** A run on the slice of [name] *)
Record inside (h : bool) (name : string) (names : gset string) (w w' : Home) : Prop := mkInside {
  in_dirs : forall k, k <> name -> h_dirs w' !! k = h_dirs w !! k;
  in_dir : (fun d => (d_record d, d_images d)) <$> h_dirs w' !! name = (fun d => (d_record d, d_images d)) <$> h_dirs w !! name;
  in_vms : forall k, k <> name -> h_vms w' !! k = h_vms w !! k;
  in_versions : forall k, k <> name -> h_versions w' !! k = h_versions w !! k;
  in_tracked : tracked w' name ⊆ tracked w name ∪ names;
  in_holds : h = true -> h_holds w' = h_holds w;
  in_helper : h_helper w' = h_helper w;
  in_trace : exists es, h_trace w' = h_trace w ++ (Guest name <$> es) /\ forall n, VMStarted n ∈ es -> n ∈ names
}.

Lemma tracked_unslice name s w : tracked (unslice name s w) name = dom (Suspend.vms s).
Proof.
  unfold tracked, unslice, put_vms. simpl. case_bool_decide as E.
  - rewrite lookup_delete, decide_True by done. rewrite E. by simpl.
  - by rewrite lookup_insert, decide_True.
Qed.

Lemma slice_unslice name s w : Suspend.vms (slice name (unslice name s w)) = Suspend.vms s.
Proof.
  unfold slice, unslice, put_vms. simpl. case_bool_decide as E.
  - rewrite lookup_delete, decide_True by done. by rewrite E.
  - by rewrite lookup_insert, decide_True.
Qed.

Lemma runs_within {A} h names name (m : Suspend.M A) Q w :
  runs (slice name w) m (fun s a => boots h names (slice name w) s /\ Q s a) ->
  runs w (within name m) (fun w' a => inside h name names w w' /\ exists s, Suspend.vms (slice name w') = Suspend.vms s /\ Q s a).
Proof.
  unfold runs, within. destruct (m (slice name w)) as [s a]. cbn [fst snd]. intros [[V (es & E & S) H] HQ].
  split; [|exists s; by rewrite slice_unslice]. split; try done.
  - intros k Hk. simpl. by rewrite lookup_alter_ne.
  - simpl. rewrite lookup_alter, decide_True by done. by destruct (h_dirs w !! name).
  - intros k Hk. simpl. unfold put_vms. case_bool_decide; [by rewrite lookup_delete_ne|by rewrite lookup_insert_ne].
  - intros k Hk. simpl. by rewrite lookup_insert_ne.
  - by rewrite tracked_unslice.
  - exists es. split; [|done]. simpl. by rewrite E.
Qed.

Lemma inside_stored h name names w w' k : inside h name names w w' -> stored w' k = stored w k.
Proof.
  intros H. unfold stored. destruct (decide (k = name)) as [->|Hk]; [|by rewrite (in_dirs _ _ _ _ _ H)].
  pose proof (in_dir _ _ _ _ _ H) as E. destruct (h_dirs w' !! name), (h_dirs w !! name); simplify_eq/=; congruence.
Qed.

Lemma inside_ok h name names w w' : inside h name names w w' -> home_ok w ->
  (forall n, n ∈ names -> exists s, stored w name = Some s /\ n ∈ node_names (st_cluster s)) -> home_ok w'.
Proof.
  intros H Hw Hn. pose proof (fun k => inside_stored _ _ _ _ _ k H) as Hs. split.
  - intros k s. rewrite Hs. apply (ho_records w Hw).
  - intros n1 n2 s1 s2. rewrite !Hs. apply (ho_distinct w Hw).
  - intros k n Hk. rewrite Hs. destruct (decide (k = name)) as [->|Hne].
    + apply (in_tracked _ _ _ _ _ H) in Hk. apply elem_of_union in Hk as [Hk|Hk]; [by apply (ho_tracked w Hw)|auto].
    + apply (ho_tracked w Hw). unfold tracked in *. by rewrite (in_vms _ _ _ _ _ H k Hne) in Hk.
Qed.

Lemma inside_ordered h name names w w' : inside h name names w w' -> (forall n, n ∈ names -> reserved (h_helper w) name n) -> ordered w w'.
Proof.
  intros H Hr. destruct (in_trace _ _ _ _ _ H) as (es & E & S). exists (Guest name <$> es). split; [done|]. rewrite (in_helper _ _ _ _ _ H).
  clear E H. induction es as [|e es IH]; [split_and!; [done..|set_solver]|].
  destruct IH as (I1 & I2 & I3); [set_solver|]. split_and!; [by destruct e| |set_solver].
  simpl. destruct e; simpl; auto. split; [|done]. apply Hr, S. left.
Qed.

(** ** What a start leaves running *)

Section StartLoop.
Context (sch : Schedule) (d : Daemon).

Lemma releaseInactive_vms n s :
  runs s (releaseInactive sch n) (fun s' r => (forall k, k <> n -> Suspend.vms s' !! k = Suspend.vms s !! k) /\
    match r with
    | Ok true => Suspend.vms s' !! n = None
    | Ok false => Suspend.nodeRunning s' n = true
    | Err _ => Suspend.vms s !! n <> None
    end).
Proof.
  unfold releaseInactive. apply post_bind, post_get. destruct (Suspend.vms s !! n) as [m|] eqn:E; [|by apply post_ret].
  destruct (m_active m) eqn:Em; [apply post_ret; split; [done|]; unfold Suspend.nodeRunning; by rewrite E|].
  apply post_bind. eapply post_conseq; [apply local_Close|]. intros s1 c [_ V _ _].
  destruct c; cbn [negb]; [|apply post_ret; split; [done|congruence]]. apply post_bind, post_modify, post_ret. simpl. split.
  - intros k Hk. rewrite lookup_delete_ne by done. auto.
  - by rewrite lookup_delete, decide_True.
Qed.

Lemma startLoop_up l : forall started s, NoDup l ->
  runs s (startLoop sch d l started) (fun s' r => is_ok r = true ->
    (forall n, n ∈ l -> Suspend.nodeRunning s' n = true) /\ forall k, k ∉ l -> Suspend.vms s' !! k = Suspend.vms s !! k).
Proof.
  induction l as [|n l IH]; intros started s Hnd; cbn [startLoop]; [apply post_ret; set_solver|].
  apply NoDup_cons in Hnd as [Hn Hnd]. apply post_bind. eapply post_conseq; [apply releaseInactive_vms|].
  assert (forall s1 s' : World, Suspend.nodeRunning s1 n = true -> (forall k, k <> n -> Suspend.vms s1 !! k = Suspend.vms s !! k) ->
    ((forall k, k ∈ l -> Suspend.nodeRunning s' k = true) /\ forall k, k ∉ l -> Suspend.vms s' !! k = Suspend.vms s1 !! k) ->
    (forall k, k ∈ n :: l -> Suspend.nodeRunning s' k = true) /\ forall k, k ∉ n :: l -> Suspend.vms s' !! k = Suspend.vms s !! k) as Hstep.
  { intros s1 s' Hr Hk [H1 H2]. split.
    - intros k [->|Hin]%elem_of_cons; [|auto]. unfold Suspend.nodeRunning in *. by rewrite H2.
    - intros k Hnin. rewrite H2, Hk; set_solver. }
  intros s1 r [Hk Hr]. destruct r as [[|]|e]; [|eapply post_conseq; [by apply IH|naive_solver]|by apply post_ret].
  apply post_bind. eapply post_conseq; [apply runs_launch|]. intros s2 r (_ & V2 & _ & Hl). destruct r as [i|m fb].
  - apply post_bind. eapply (post_conseq _ _ (fun _ _ => True)); [done|]. intros s3 u _.
    apply post_bind. eapply (post_conseq _ _ (fun _ _ => True)); [done|]. intros s4 f _. by apply post_ret.
  - destruct Hl as (_ & Ha & _). apply post_bind, post_modify. eapply post_conseq; [by apply IH|].
    intros s4 r4 H4 E4. eapply Hstep; [..|apply (H4 E4)]; simpl.
    + unfold Suspend.nodeRunning. simpl. by rewrite lookup_insert, decide_True.
    + intros k Hne. rewrite lookup_insert_ne by done. rewrite V2. auto.
Qed.

(** From nothing tracked, a failing start leaves only the machines it names. *)
Lemma startLoop_new l : forall started s, NoDup l -> (forall n, n ∈ l -> n ∉ started) -> dom (Suspend.vms s) ⊆ list_to_set started ->
  runs s (startLoop sch d l started) (fun s' r => match r with
    | Ok _ => True
    | Err (CreateFailed _ unclosed _) => dom (Suspend.vms s') ⊆ list_to_set unclosed
    | Err _ => False
    end).
Proof.
  induction l as [|n l IH]; intros started s Hnd Hd Hs; cbn [startLoop]; [by apply post_ret|].
  apply NoDup_cons in Hnd as [Hn Hnd]. apply post_bind.
  assert (Suspend.vms s !! n = None) as Hnone.
  { apply not_elem_of_dom. intros Hin%Hs. specialize (Hd n). set_solver. }
  eapply post_conseq; [apply (post_and _ _ (fun s' _ => calm (fun _ => False) s s')); [apply gentle_releaseInactive|apply releaseInactive_vms]|].
  intros s1 r [C1 [Hk Hr]]. assert (dom (Suspend.vms s1) ⊆ list_to_set started) as Hs1.
  { intros k (m & Hm)%elem_of_dom. apply (c_vms _ _ _ C1) in Hm as (m0 & Hm & _). apply Hs, elem_of_dom. eauto. }
  destruct r as [[|]|e]; [|apply IH; [done| |done]; set_solver|done].
  apply post_bind. eapply post_conseq; [apply runs_launch|]. intros s2 r (_ & V2 & _ & Hl). destruct r as [i|m fb].
  - apply post_bind. eapply post_conseq; [apply runs_closeNodes|]. intros s3 unclosed [C3 Hu]. apply post_bind.
    eapply post_conseq; [apply (stays_gather (calm (fun _ => True))); intros x; pose proof gentle_discard; stays_tac|].
    intros s4 f C4. apply post_ret. intros k (m & Hm)%elem_of_dom.
    apply (c_vms _ _ _ C4) in Hm as (m3 & Hm & _). destruct (decide (k ∈ unclosed)); [set_solver|].
    exfalso. pose proof Hm as Hm'. apply (c_vms _ _ _ C3) in Hm' as (m2 & Hm2 & _). rewrite V2 in Hm2.
    assert (k ∈ started) as Hin by (apply elem_of_dom_2 in Hm2; apply Hs1 in Hm2; set_solver). by rewrite Hu in Hm.
  - apply post_bind, post_modify. apply IH; [done| |].
    + intros k Hin Happ. apply elem_of_app in Happ as [?|Hx%list_elem_of_singleton]; [set_solver|]. by subst.
    + simpl. rewrite V2. set_solver.
Qed.

(** Files apart *)
Definition same_vms (s s' : World) : Prop := Suspend.vms s' = Suspend.vms s.
#[local] Instance same_vms_preorder : PreOrder same_vms.
Proof. split; [done|]. unfold same_vms. intros ???. congruence. Qed.

Lemma discard_vms n : stays same_vms (discardSavedState sch n).
Proof.
  assert (forall f, stays same_vms (remove sch f)) by (intros f; unfold remove; stays_tac; by intros ?).
  assert (forall f, stays same_vms (read sch f)) by (intros f; unfold read; stays_tac; by intros ?).
  unfold discardSavedState, removeSaveStateBalloonMarker. stays_tac.
Qed.

(** A start brings every node up, or, from nothing tracked, leaves only what it names. *)
Lemma start_leaves item subnet s : NoDup (n_Name <$> c_Nodes item) ->
  runs s (Suspend.start sch d item true (Some subnet)) (fun s' r => match r with
    | Ok _ => forall n, n ∈ node_names item -> Suspend.nodeRunning s' n = true
    | Err e => dom (Suspend.vms s) = ∅ -> exists n unclosed fs, e = CreateFailed n unclosed fs /\ dom (Suspend.vms s') ⊆ list_to_set unclosed
    end).
Proof.
  intros Hnd. unfold Suspend.start. cbn [negb]. apply post_bind.
  eapply post_conseq.
  { apply post_and with (Q := fun s' r => dom (Suspend.vms s) = ∅ ->
      match r with Ok _ => True | Err (CreateFailed _ u _) => dom (Suspend.vms s') ⊆ list_to_set u | Err _ => False end).
    - by apply startLoop_up.
    - destruct (decide (dom (Suspend.vms s) = ∅)) as [E|E]; [|by intros ?].
      eapply post_conseq; [apply (startLoop_new _ [] s); [done|set_solver|set_solver]|]. done. }
  intros s1 [started|e] [Hu Hn].
  - destruct (Hu eq_refl) as [Hu' _]. apply post_bind.
    eapply post_conseq; [apply (stays_gather same_vms); intros x; pose proof discard_vms; stays_tac|].
    intros s2 o V2. apply post_bind, post_modify, post_ret. intros n Hin. unfold same_vms in V2.
    assert (Suspend.nodeRunning s1 n = true) as Hr by (apply Hu'; unfold node_names in Hin; by apply elem_of_list_to_set in Hin).
    unfold Suspend.nodeRunning in *. simpl. by rewrite V2.
  - apply post_ret. intros E. specialize (Hn E). destruct e; try done. eauto.
Qed.
End StartLoop.

(** ** Handlers *)

(** The clusters other than [name] *)
Definition apart (name : string) (w w' : Home) : Prop :=
  forall k, k <> name -> h_dirs w' !! k = h_dirs w !! k /\ h_vms w' !! k = h_vms w !! k /\ h_versions w' !! k = h_versions w !! k.

#[global] Instance apart_preorder name : PreOrder (apart name).
Proof.
  split; [by intros w|]. intros w1 w2 w3 H1 H2 k Hk. destruct (H1 k Hk) as (?&?&?), (H2 k Hk) as (?&?&?). split_and!; congruence.
Qed.

Lemma synced_apart name w w' : synced w w' -> apart name w w'.
Proof. intros (E1&E2&E3&_) k _. by rewrite E1, E2, E3. Qed.

Lemma files_apart name R w w' : files_of name R w w' -> apart name w w'.
Proof. intros [E1 E2 _ _ _ E3 _] k Hk. rewrite E1, E2. auto. Qed.

Lemma inside_apart h name names w w' : inside h name names w w' -> apart name w w'.
Proof. intros [] k Hk. auto. Qed.

Lemma files_ordered name R w w' : files_of name R w w' -> ordered w w'.
Proof. intros []. by apply ordered_same. Qed.

(** The record and the disks of a cluster *)
Definition holdings (w : Home) (k : string) : option (option Stored * gset string) := (fun d => (d_record d, d_images d)) <$> h_dirs w !! k.

Lemma holdings_stored w w' k : holdings w' k = holdings w k -> stored w' k = stored w k.
Proof. unfold holdings, stored. destruct (h_dirs w' !! k), (h_dirs w !! k); intros E; simplify_eq/=; congruence. Qed.

(** A run of the handler of [name] that keeps every record and disk *)
Record ran (name : string) (w w' : Home) : Prop := mkRan {
  rn_ok : home_ok w';
  rn_apart : apart name w w';
  rn_ordered : ordered w w';
  rn_holds : h_holds w' = h_holds w;
  rn_disks : forall k, holdings w' k = holdings w k
}.

Lemma ran_trans name w1 w2 w3 : ran name w1 w2 -> ran name w2 w3 -> ran name w1 w3.
Proof. intros [] []. split; try done; try (by etrans); try congruence. Qed.

Lemma synced_ran name w w' : home_ok w -> synced w w' -> ran name w w'.
Proof.
  intros Hw H. split; [by eapply synced_ok|by apply synced_apart|apply H|apply H|]. intros k. unfold holdings. by destruct H as (-> & _).
Qed.

Lemma quiet_ran name w w' : home_ok w -> quiet w w' -> ran name w w'.
Proof. intros Hw H. by apply synced_ran, quiet_synced. Qed.

Lemma inside_ran name names w w' : inside true name names w w' -> home_ok w ->
  (forall n, n ∈ names -> exists s, stored w name = Some s /\ n ∈ node_names (st_cluster s)) ->
  (forall n, n ∈ names -> reserved (h_helper w) name n) -> ran name w w'.
Proof.
  intros H Hw Hn Hr. split.
  - by eapply inside_ok.
  - by eapply inside_apart.
  - by eapply inside_ordered.
  - by apply (in_holds _ _ _ _ _ H).
  - intros k. unfold holdings. destruct (decide (k = name)) as [->|Hk]; [apply (in_dir _ _ _ _ _ H)|by rewrite (in_dirs _ _ _ _ _ H)].
Qed.

(** The machines an error says may still run *)
Fixpoint unstopped (e : ops_error) : gset string :=
  match e with
  | MachineError (CreateFailed _ unclosed _) => list_to_set unclosed
  | CreatedNotStarted e => unstopped e
  | _ => ∅
  end.

Lemma runs_lift {E A} (f : E -> ops_error) (m : D (result E A)) w Q : runs w m (fun w' r => Q w' (map_err f r)) -> runs w (lift f m) Q.
Proof. intros H. apply post_bind. eapply post_conseq; [exact H|]. intros w' r Hr. by apply post_ret. Qed.

Lemma runs_ask {A} (f : nat -> option A) e w (Q : Home -> result ops_error A -> Prop) :
  (forall w', quiet w w' -> match f (h_tick w) with Some a => Q w' (Ok a) | None => Q w' (Err e) end) -> runs w (ask f e) Q.
Proof. intros H. apply post_bind, post_next. intros w' Hw. apply post_ret. specialize (H w' Hw). by destruct (f (h_tick w)). Qed.

Section Handlers.
Context (env : Env).

Lemma attachedSubnet_spec index w : runs w (attachedSubnetWarning env index) (fun w' _ => quiet w w').
Proof. apply post_bind, post_next. intros w' H. by apply post_ret. Qed.

Lemma start_spec item s w : home_ok w -> stored w (c_Name item) = Some s -> c_Nodes item = c_Nodes (st_cluster s) ->
  runs w (start env item) (fun w' r => ran (c_Name item) w w' /\ match r with
    | Ok _ => (forall n, n ∈ node_names item -> nodeRunning w' (c_Name item) n = true) /\ all_reserved w (h_helper w')
    | Err e => tracked w (c_Name item) = ∅ -> tracked w' (c_Name item) ⊆ unstopped e
    end).
Proof.
  intros Hw Hs Hn. unfold start. apply post_try, runs_lift. eapply post_conseq; [by apply SyncHelperState_spec|].
  intros w1 r [S1 Hr]. pose proof (synced_ran (c_Name item) _ _ Hw S1) as R1.
  assert (forall e', tracked w (c_Name item) = ∅ -> tracked w1 (c_Name item) ⊆ unstopped e') as Hnone.
  { intros e' E. rewrite (synced_tracked _ _ _ S1), E. set_solver. }
  destruct r as [[]|e]; [|split; [done|apply Hnone]]. specialize (Hr eq_refl). cbn [map_err].
  apply post_try. eapply post_conseq; [apply attachedSubnet_spec|]. intros w2 r Q2.
  pose proof (quiet_synced _ _ Q2) as S2. assert (ran (c_Name item) w w2) as R2 by (eapply ran_trans; [done|]; by apply quiet_ran, Q2; apply R1).
  destruct r as [subnet|e].
  2:{ split; [done|]. intros E. rewrite (synced_tracked _ _ _ S2). by apply Hnone. }
  apply runs_lift. assert (stored w2 (c_Name item) = Some s) as Hs2 by (rewrite <- Hs; apply holdings_stored, R2).
  assert (node_names item = node_names (st_cluster s)) as Hnn by (unfold node_names; by rewrite Hn).
  assert (h_helper w2 = h_helper w1) as Hh by apply Q2.
  eapply post_conseq.
  { apply (runs_within true (node_names item)). apply post_and; [|apply start_leaves].
    - apply boots_start. intros n Hin. apply node_names_elem. eauto.
    - rewrite Hn. apply (ok_names _ (ro_cluster _ _ (ho_records w Hw _ _ Hs))). }
  intros w3 r [I3 (s3 & V3 & H3)].
  assert (ran (c_Name item) w2 w3) as R3.
  { eapply inside_ran; [done|apply R2|rewrite Hnn; eauto|]. intros n Hin. rewrite Hh. apply (Hr _ s); [done|by rewrite <- Hnn]. }
  split; [by eapply ran_trans|]. destruct r as [ws|e]; cbn [map_err].
  - split; [|by rewrite (in_helper _ _ _ _ _ I3), Hh]. intros n Hin. unfold nodeRunning, Suspend.nodeRunning. rewrite V3. by apply H3.
  - intros E. destruct H3 as (n & u & fs & -> & Hu).
    { unfold slice. simpl. change (tracked w2 (c_Name item) = ∅). by rewrite (synced_tracked _ _ _ S2), (synced_tracked _ _ _ S1). }
    unfold tracked. unfold slice in V3. cbn [Suspend.vms] in V3. by rewrite V3.
Qed.

End Handlers.

(** What every handler of cluster [name] keeps *)
Definition safe (name : string) (w w' : Home) : Prop := home_ok w' /\ apart name w w' /\ ordered w w'.

Lemma safe_trans name w1 w2 w3 : safe name w1 w2 -> safe name w2 w3 -> safe name w1 w3.
Proof. intros (?&?&?) (?&?&?). split_and!; [done|by etrans..]. Qed.

Lemma ran_safe name w w' : ran name w w' -> safe name w w'.
Proof. by intros []. Qed.

Lemma quiet_safe name w w' : home_ok w -> quiet w w' -> safe name w w'.
Proof. intros. by apply ran_safe, quiet_ran. Qed.

Lemma synced_safe name w w' : home_ok w -> synced w w' -> safe name w w'.
Proof. intros. by apply ran_safe, synced_ran. Qed.

(** ** Creating a cluster *)

Lemma usable_unallocated {E} clusters ifaces (route : sources_Route (E := E)) i x :
  LowestUsableSubnetIndex clusters ifaces route = Ok (i, x) -> 0 <= i <= 255 /\ forall c, c ∈ clusters -> c_SubnetIndex c <> i.
Proof.
  unfold LowestUsableSubnetIndex. cbv zeta. case_head; [done|]. destruct (readHostInterfaces ifaces) as [interfaces|]; [|done]. intros Hf.
  destruct (first_usable_spec _ _ _ _ _ _ Hf) as (k & -> & Hk & _).
  assert (k < 256)%nat by (apply lookup_lt_Some in Hk; by rewrite allocated_length in Hk).
  rewrite <- (Nat2Z.id k), allocated_lookup in Hk by lia. injection Hk as Hk. bool_to_prop. split; [lia|].
  intros c Hc Ec. apply Hk, Exists_exists. exists c. split; [done|lia].
Qed.

Lemma cluster_ok_ext c c' : c_SubnetIndex c' = c_SubnetIndex c -> c_Nodes c' = c_Nodes c -> c_ControlPlanes c' = c_ControlPlanes c ->
  c_Workers c' = c_Workers c -> cluster_ok c -> cluster_ok c'.
Proof. intros E1 E2 E3 E4 []. split; rewrite ?E1, ?E2, ?E3, ?E4; done. Qed.

Lemma new_nodes_fresh name sub cps workers :
  Forall (fun n => n_IP n <> EmptyString) (new_nodes name sub cps workers) /\
  Forall (fun n => n_MAC n = DeterministicMAC name (n_Name n)) (new_nodes name sub cps workers).
Proof.
  split; apply Forall_forall; intros n [(k & -> & _)%list_elem_of_fmap|(k & -> & _)%list_elem_of_fmap]%elem_of_app; try done;
    apply reservation_nonempty.
Qed.

(** The counts a handler was asked for fit the width of [int] with room to add. *)
Definition counts_ok (a : createArgs) : Prop := create_controlPlanes a < 2 ^ 61 /\ create_workers a < 2 ^ 61.

(** The record a create builds *)
Record built (a : createArgs) (intent : ProvisioningIntent) (item : Cluster) : Prop := mkBuilt {
  bt_name : c_Name item = ca_Name a;
  bt_intent : c_Intent item = intent;
  bt_overrides : c_ControlPlaneDefaults item = ca_ControlPlane a /\ c_WorkerDefaults item = ca_Worker a;
  bt_defaults : c_NodeDefaults item = applyDefaults (create_node a) /\ 0 <= MemoryMiB (create_node a);
  bt_counts : 0 <= create_controlPlanes a /\ 0 <= create_workers a;
  bt_nodes : c_Nodes item = new_nodes (ca_Name a) (c_SubnetIndex item) (create_controlPlanes a) (create_workers a)
}.

Lemma create_record a intent backend domain schematic version sub c0 :
  Intent (ca_Intent a) = Ok intent -> counts_ok a ->
  New (ca_Name a) sub (create_controlPlanes a) (create_workers a) (create_node a) = Ok c0 ->
  let item := with_image a schematic version (create_item a intent domain backend.1 backend.2 c0) in
  record_ok (ca_Name a) (encode item) /\ built a intent item /\ c_SubnetIndex item = sub /\ c_Domain item = domain.
Proof.
  intros Hi [Hc Hw] Hnew item. destruct (New_builds (ca_Name a) sub (create_controlPlanes a) (create_workers a) (create_node a) Hc Hw) as [Hiff Hok].
  destruct (Hok c0 Hnew) as (Hco & Hnodes & _). rewrite Hnew in Hiff. destruct Hiff as [Hiff _].
  destruct (Hiff eq_refl) as (Hv & Hs & H1 & H2 & _ & H3 & _). clear Hiff Hok.
  assert (c_Name c0 = ca_Name a /\ c_SubnetIndex c0 = sub /\ c_NodeDefaults c0 = applyDefaults (create_node a)) as (En & Es & Ed).
  { unfold New in Hnew. rewrite Hv in Hnew. repeat (case_head_in Hnew; [done|]). by injection Hnew as <-. }
  assert (c_Nodes item = new_nodes (ca_Name a) sub (create_controlPlanes a) (create_workers a)) as Enodes by by rewrite <- Hnodes.
  destruct (new_nodes_fresh (ca_Name a) sub (create_controlPlanes a) (create_workers a)) as [Hip Hmac].
  split; [|split; [|done]].
  - split; try done.
    + eapply (cluster_ok_ext c0); done.
    + cbn [st_cluster encode]. by rewrite Enodes.
    + cbn [st_cluster encode]. by rewrite Enodes.
    + intros Hb. cbn in Hb |- *. destruct (Intent_Input _ _ Hi) as (_ & Hbgp & _). destruct (Hbgp Hb) as [_ ->]. done.
  - split; try done. by rewrite Enodes, <- Es.
Qed.

Lemma home_ok_save name s w w' : home_ok w -> files_of name (fun _ x => x = Some s) w w' -> record_ok name s ->
  (forall k s', stored w k = Some s' -> k <> name ->
     c_SubnetIndex (st_cluster s') <> c_SubnetIndex (st_cluster s) /\ EffectiveDomain (st_cluster s') <> EffectiveDomain (st_cluster s)) ->
  tracked w name ⊆ node_names (st_cluster s) -> home_ok w'.
Proof.
  intros Hw F Hr Hd Ht. pose proof (fo_record _ _ _ _ F) as E.
  assert (forall k x, stored w' k = Some x -> (k = name /\ x = s) \/ (k <> name /\ stored w k = Some x)) as Hst.
  { intros k x Hk. destruct (decide (k = name)) as [->|Hne]; [left; simplify_eq; split; congruence|right; by rewrite <- (files_stored _ _ _ _ k F)]. }
  split.
  - intros k x [[-> ->]|[_ Hx]]%Hst; [done|by apply (ho_records w Hw)].
  - intros k1 k2 x1 x2 [[-> ->]|[Hk1 H1]]%Hst [[-> ->]|[Hk2 H2]]%Hst Hne; [done| | |by apply (ho_distinct w Hw k1 k2)].
    + destruct (Hd _ _ H2 Hk2). split; congruence.
    + by destruct (Hd _ _ H1 Hk1).
  - intros k n Hn. rewrite (files_tracked _ _ _ _ k F) in Hn. destruct (decide (k = name)) as [->|Hne].
    + exists s. split; [done|]. by apply Ht.
    + destruct (ho_tracked w Hw k n Hn) as (x & Hx & Hin). exists x. by rewrite (files_stored _ _ _ _ k F).
Qed.

(** [os.RemoveAll] succeeds. *)
Definition removable (env : Env) : Prop := forall t, e_fault env RemoveAll t = false.

Section Create.
Context (env : Env).

Lemma Destroy_removes name w : removable env -> validName name = Ok tt -> runs w (Destroy env name) (fun w' _ => h_dirs w' !! name = None).
Proof.
  intros Hr Hv. unfold Destroy. rewrite Hv. apply post_bind, post_next. intros w1 _. rewrite Hr.
  apply post_bind, post_modify, post_ret. simpl. by rewrite lookup_delete, decide_True.
Qed.

(** What a build that failed leaves: nothing but, at most, a directory without a record. *)
Record unbuilt (name : string) (w w' : Home) : Prop := mkUnbuilt {
  ub_synced : synced w (with_dirs (h_dirs w) w');
  ub_others : forall k, k <> name -> h_dirs w' !! k = h_dirs w !! k;
  ub_record : stored w' name = None;
  ub_gone : removable env -> h_dirs w' !! name = None
}.

Lemma synced_unbuilt name w w' : h_dirs w !! name = None -> synced w w' -> unbuilt name w w'.
Proof.
  intros Hn S. destruct S as (E & ? & ? & ? & O). split; [done| |unfold stored|]; by rewrite ?E, ?Hn.
Qed.

Lemma cleanup_unbuilt name w w1 : validName name = Ok tt -> h_dirs w !! name = None -> stored w1 name = None ->
  files_of name (fun _ _ => True) w w1 -> runs w1 (Destroy env name) (fun w' _ => unbuilt name w w').
Proof.
  intros Hv Hn Hs F. eapply post_conseq; [apply post_and with (Q := fun w' _ => removable env -> h_dirs w' !! name = None); [apply Destroy_spec|]|].
  { unfold runs. intros Hr. by apply Destroy_removes. }
  intros w2 r [(F2 & _) Hg]. split; [|by intros k Hk; rewrite (fo_others _ _ _ _ F2 k Hk), (fo_others _ _ _ _ F k Hk)| |done].
  - destruct F, F2. repeat split; simpl; try congruence. apply ordered_same; simpl; congruence.
  - destruct (fo_record _ _ _ _ F2) as [?|[_ ->]]; done.
Qed.

Lemma unbuilt_quiet name w w1 w' : quiet w w1 -> unbuilt name w1 w' -> unbuilt name w w'.
Proof.
  intros Q [S O R G]. pose proof Q as (E & _). split; try done.
  - etrans; [by apply quiet_synced|]. rewrite <- E. done.
  - intros k Hk. by rewrite O, E.
Qed.

Lemma create_domain_effective a d : create_domain a = Ok d ->
  d.2 = if String.eqb d.1 "" then (ca_Name a +:+ "." +:+ "k8s.test")%string else d.1.
Proof.
  unfold create_domain. cbv zeta. unfold mbind, result_bind. destruct (if String.eqb (ca_Domain a) "" then _ else _) as [c|e]; [|done].
  destruct (String.eqb c "") eqn:E; [|intros [= <-]; simpl; by rewrite E].
  destruct (Validate _ true) as [x|]; [|done]. destruct (String.eqb x _); [|done]. intros [= <-]. done.
Qed.

(** The error of a cluster that exists but did not start *)
Definition started (e : ops_error) : bool := match e with CreatedNotStarted _ => true | _ => false end.

Lemma create_domain_err a e : create_domain a = Err e -> started e = false.
Proof.
  unfold create_domain. cbv zeta. unfold mbind, result_bind. intros Hc.
  destruct (if String.eqb (ca_Domain a) "" then _ else _) as [c|e'] eqn:Ec.
  - destruct (String.eqb c ""); [|done]. destruct (Validate _ true) as [x|]; [destruct (String.eqb x _)|]; by inversion Hc.
  - injection Hc as <-. destruct (String.eqb (ca_Domain a) ""); [done|]. destruct (Validate _ _); by inversion Ec.
Qed.

Lemma provisionDisks_err c w : runs w (provisionDisks env c) (fun _ r => forall e, r = Err e -> e = DisksFailed).
Proof.
  unfold provisionDisks. case_match; [apply post_ret; congruence|]. apply post_bind, post_fails. intros w1 _.
  case_match; [apply post_ret; congruence|]. apply post_bind, post_modify, post_try. eapply post_conseq.
  { apply (post_gather_try _ _ (fun _ _ _ => True) (fun e _ => e = DisksFailed)); [done|].
    intros l1 n l2 bs w2 _ _. unfold provision_disk. case_match; [|by apply post_ret]. apply post_bind, post_fails. intros w3 _.
    case_match; [by apply post_ret|]. by apply post_bind, post_modify, post_ret. }
  intros w2 [bs|e] He; [by apply post_ret|congruence].
Qed.

(** The subnet and the domain of a planned record are free. *)
Definition fresh_in (w : Home) (item : Cluster) : Prop :=
  forall k s, stored w k = Some s -> c_SubnetIndex (st_cluster s) <> c_SubnetIndex item /\ EffectiveDomain (st_cluster s) <> EffectiveDomain item.

Lemma plan_fresh a d w l ifaces (route : sources_Route (E := unit)) item x : lists w l -> create_domain a = Ok d -> DomainInUse d.2 l = false ->
  LowestUsableSubnetIndex l ifaces route = Ok (c_SubnetIndex item, x) -> c_Domain item = d.1 -> c_Name item = ca_Name a -> fresh_in w item.
Proof.
  intros Hl Ed Ein Esub Edom En k s Hk. assert (view (st_cluster s) ∈ l) as Hin by (apply Hl; eauto). split.
  - by apply (usable_unallocated _ _ _ _ _ Esub) in Hin.
  - intros E. assert (DomainInUse d.2 l = true) as Ht; [|congruence]. unfold DomainInUse. apply existsb_exists.
    exists (view (st_cluster s)). split; [by apply list_elem_of_In|]. apply String.eqb_eq.
    change (EffectiveDomain (view (st_cluster s))) with (EffectiveDomain (st_cluster s)). rewrite E, (create_domain_effective _ _ Ed).
    unfold EffectiveDomain. by rewrite Edom, En.
Qed.

Lemma plan_new_spec a intent backend w : home_ok w -> Intent (ca_Intent a) = Ok intent -> counts_ok a ->
  runs w (plan_new env a intent backend) (fun w' r => quiet w w' /\ match r with
    | Ok (item, _) => built a intent item /\ record_ok (ca_Name a) (encode item) /\ fresh_in w item
    | Err e => started e = false
    end).
Proof.
  intros Hw Hi Hc. unfold plan_new. apply post_try, runs_lift. eapply post_conseq; [by apply List_spec|].
  intros w1 r [Q1 Hl]. destruct r as [l|e]; cbn [map_err]; [|done].
  apply post_try, post_ret. destruct (create_domain a) as [dom|e] eqn:Ed; [|split; [done|by eapply create_domain_err]].
  destruct (DomainInUse dom.2 l) eqn:Ein; [by apply post_ret|]. apply post_bind, post_next. intros w2 Q2. assert (quiet w w2) by by etrans.
  apply post_try, post_ret. destruct (LowestUsableSubnetIndex l _ _) as [[sub warn]|e] eqn:Esub; cbn [map_err fst snd]; [|done].
  apply post_try, post_ret. destruct (New _ _ _ _ _) as [c0|e] eqn:Enew; cbn [map_err]; [|done].
  apply post_try, runs_ask. intros w3 Q3. assert (quiet w w3) by by etrans.
  destruct (e_schematic env _ _ _ _) as [[schematic version]|]; [|done]. cbn [fst snd].
  apply post_try, runs_ask. intros w4 Q4. assert (quiet w w4) by by etrans. destruct (e_ensure env _ _ _ _); [|done].
  destruct (create_record a intent backend dom.1 schematic version sub c0 Hi Hc Enew) as (Hrec & Hbuilt & Hsub & Hdom).
  apply post_ret. split_and!; try done. rewrite <- Hsub in Esub. by eapply plan_fresh; [..|apply Hbuilt].
Qed.

(** A stored record: the state it leaves *)
Definition stores (name : string) (w w' : Home) (item : Cluster) : Prop :=
  safe name w w' /\ h_vms w' = h_vms w /\ h_holds w' = h_holds w /\ stored w' name = Some (encode item) /\
  exists d, h_dirs w' !! name = Some d /\ node_names item ⊆ d_images d.

Lemma stores_intro name w w5 w6 w7 item d : home_ok w -> record_ok name (encode item) -> fresh_in w item -> stored w name = None ->
  files_of name eq w w5 -> files_of name (fun _ s => s = Some (encode item)) w5 w6 -> h_dirs w6 !! name = Some d -> node_names item ⊆ d_images d ->
  synced w6 w7 -> stores name w w7 item.
Proof.
  intros Hw Hrec Hf Hn F5 F6 Hd Him S7. assert (home_ok w6) as Hw6.
  { eapply (home_ok_save name (encode item) w5); [by eapply files_ok|done|done| |].
    - intros k s Hk Hne. rewrite (files_stored _ _ _ _ k F5) in Hk by done. by apply (Hf k).
    - intros n Hin. rewrite (files_tracked _ _ _ _ _ F5) in Hin. destruct (ho_tracked w Hw _ _ Hin) as (x & Hx & _). congruence. }
  pose proof (synced_safe name _ _ Hw6 S7) as (?&?&?). split; [split_and!|split_and!].
  - done.
  - etrans; [by eapply files_apart|]. by etrans; [eapply files_apart|].
  - etrans; [by eapply files_ordered|]. by etrans; [eapply files_ordered|].
  - destruct S7 as (_ & -> & _). by rewrite (fo_vms _ _ _ _ F6), (fo_vms _ _ _ _ F5).
  - destruct S7 as (_ & _ & _ & -> & _). by rewrite (fo_holds _ _ _ _ F6), (fo_holds _ _ _ _ F5).
  - rewrite (synced_stored _ _ _ S7). apply F6.
  - destruct S7 as (-> & _). eauto.
Qed.

Lemma store_new_spec name item w : home_ok w -> h_dirs w !! name = None -> record_ok name (encode item) -> fresh_in w item ->
  runs w (store_new env item) (fun w' r => match r with
    | Ok _ => stores name w w' item
    | Err e => unbuilt name w w' /\ started e = false
    end).
Proof.
  intros Hw Hdir Hrec Hf. pose proof (ro_name _ _ Hrec) as Hname. pose proof (ro_valid _ _ Hrec) as Hv. cbn [st_cluster encode] in Hname.
  assert (stored w name = None) as Hst by (unfold stored; by rewrite Hdir).
  unfold store_new. apply post_bind. eapply post_conseq.
  { apply post_and; [apply provisionDisks_local|]. apply post_and; [apply provisionDisks_images|apply provisionDisks_err]. }
  rewrite Hname. intros w5 r [F5 [Him Herr]]. assert (stored w5 name = None) as Hst5 by by rewrite <- (fo_record _ _ _ _ F5).
  destruct r as [[]|e].
  2:{ apply post_bind. eapply post_conseq; [apply cleanup_unbuilt; [done|done|done|]|].
      - destruct F5. by split.
      - intros w6 r6 U. apply post_ret. split; [done|]. by rewrite (Herr e eq_refl). }
  apply post_bind. eapply post_conseq; [apply Save_spec|]. rewrite Hname. intros w6 r Hsave. destruct r as [[]|e].
  2:{ apply post_bind. eapply post_conseq; [apply cleanup_unbuilt; [done|done| |]|].
      - by rewrite <- (fo_record _ _ _ _ Hsave).
      - destruct (files_trans _ _ _ _ _ F5 Hsave). by split.
      - intros w7 r7 U. by apply post_ret. }
  destruct Hsave as [F6 Hkeep]. destruct (Him eq_refl) as (d & Hd & Hsubset). specialize (Hkeep d Hd).
  assert (forall w7, synced w6 w7 -> stores name w w7 item) as Hend by (intros w7; by eapply stores_intro).
  apply post_bind. destruct (String.eqb (c_Domain item) "").
  - apply post_ret, post_ret, Hend. reflexivity.
  - destruct (Hend w6 ltac:(reflexivity)) as [[Hw6 _] _].
    apply post_bind. eapply post_conseq; [by apply SyncResolverFiles_spec|]. intros w7 r7 S7. apply post_ret, post_ret, Hend, S7.
Qed.

Lemma build_spec a intent backend w : home_ok w -> h_dirs w !! ca_Name a = None -> Intent (ca_Intent a) = Ok intent -> counts_ok a ->
  runs w (build env a intent backend) (fun w' r => match r with
    | Ok (item, _) => built a intent item /\ stores (ca_Name a) w w' item
    | Err e => unbuilt (ca_Name a) w w' /\ started e = false
    end).
Proof.
  intros Hw Hdir Hi Hc. unfold build. apply post_try. eapply post_conseq; [by apply plan_new_spec|].
  intros w1 r [Q1 Hr]. destruct r as [[item ws]|e]; [|split; [by apply synced_unbuilt, quiet_synced|done]].
  destruct Hr as (Hb & Hrec & Hf). assert (home_ok w1) as Hw1 by by eapply quiet_ok. pose proof Q1 as (E1 & _).
  apply post_try. eapply post_conseq; [apply (store_new_spec (ca_Name a)); [done|by rewrite E1|done|]|].
  - intros k s. rewrite (quiet_stored _ _ _ Q1). apply Hf.
  - intros w2 r Hr. destruct r as [[]|e]; [|destruct Hr; split; [by eapply unbuilt_quiet|done]].
    apply post_ret. split; [done|]. destruct Hr as (S2 & V2 & H2 & ? & ?). pose proof Q1 as (_&V1&_&H1&_).
    split; [eapply safe_trans; [by apply quiet_safe, Q1|done]|]. split_and!; [congruence..|done|done].
Qed.

(** ** Holds *)

Definition arm (h : Z) (l : list Z) : list Z := if h <=? 0 then l else l ++ [h].

Lemma release_spec h l w : h_holds w = arm h l ->
  runs w (releaseBalloonHold h) (fun w' _ => h_holds w' = l /\ quiet w (with_held (h_holds w) w')).
Proof.
  intros E. apply post_modify. pose proof (hold_release h l) as Hr. unfold arm in E. destruct (h <=? 0); [by rewrite E|].
  simpl. rewrite E. by split.
Qed.

Lemma rearm_spec h l w : h_holds w = arm h l -> runs w (rearmBalloonHold h) (fun w' _ => w' = w).
Proof.
  intros E. apply post_modify. unfold arm in E. destruct (h <=? 0); [done|]. by rewrite bool_decide_eq_true_2 by (rewrite E; set_solver).
Qed.

Lemma gate_spec mib force w :
  runs w (checkProvisionStart env mib force) (fun w' r => quiet w (with_held (h_holds w) w') /\ match r with
    | Ok p => h_holds w' = arm p.2 (h_holds w)
    | Err _ => h_holds w' = h_holds w
    end).
Proof.
  unfold checkProvisionStart. apply post_try, runs_ask. intros w1 Q. case_match; [|split; [by destruct Q as (?&?&?&?&?&?)|apply Q]].
  apply post_bind, post_modify, post_ret. unfold arm. destruct Q as (?&?&?&?&?&?). destruct (p.2 <=? 0); [by split|].
  simpl. split; [by split_and!|congruence].
Qed.

Lemma gate_err mib force w : runs w (checkProvisionStart env mib force) (fun _ r => forall e, r = Err e -> e = StartRefused).
Proof.
  unfold checkProvisionStart. apply post_try, runs_ask. intros w1 _. case_match; [|congruence]. by apply post_bind, post_modify, post_ret.
Qed.

(** The holds aside, nothing changed *)
Lemma held_ran name w w' : home_ok w -> quiet w (with_held (h_holds w) w') ->
  home_ok w' /\ apart name w w' /\ ordered w w' /\ h_dirs w' = h_dirs w /\ h_vms w' = h_vms w /\ h_helper w' = h_helper w.
Proof.
  intros Hw (E1&E2&E3&_&E5&E6). simpl in *. split_and!; try done.
  - eapply home_ok_same; [..|done]; intros k; [unfold stored; by rewrite E1|unfold tracked; by rewrite E2].
  - intros k _. by rewrite E1, E2, E3.
  - by apply ordered_same.
Qed.

Lemma held_safe name w w' : home_ok w -> quiet w (with_held (h_holds w) w') -> safe name w w'.
Proof. intros Hw H. destruct (held_ran name _ _ Hw H) as (?&?&?&_). done. Qed.

Lemma unbuilt_safe name w w' : home_ok w -> stored w name = None -> unbuilt name w w' -> safe name w w'.
Proof.
  intros Hw Hn [S O R _]. pose proof S as (_ & Ev & Er & _ & Oe). simpl in *. split_and!; [| |done].
  - eapply home_ok_same; [..|done]; intros k; [|unfold tracked; by rewrite Ev].
    destruct (decide (k = name)) as [->|Hk]; [congruence|]. unfold stored. by rewrite O.
  - intros k Hk. rewrite O, Ev, Er by done. done.
Qed.

Definition create_outcome (a : createArgs) (w w' : Home) (r : result ops_error Cluster) : Prop :=
  match r with
  | Ok item => (exists held, h_holds w' = arm held (h_holds w)) /\ (exists intent, built a intent item) /\
      stored w' (ca_Name a) = Some (encode item) /\
      (exists d, h_dirs w' !! ca_Name a = Some d /\ node_names item ⊆ d_images d) /\
      (forall n, n ∈ node_names item -> nodeRunning w' (ca_Name a) n = true /\ reserved (h_helper w') (ca_Name a) n)
  | Err (CreatedNotStarted e) => h_holds w' = h_holds w /\ is_Some (stored w' (ca_Name a)) /\ tracked w' (ca_Name a) ⊆ unstopped e
  | Err _ => h_holds w' = h_holds w /\ h_vms w' = h_vms w /\ stored w' (ca_Name a) = stored w (ca_Name a) /\
      (removable env -> h_dirs w' = h_dirs w)
  end.

Lemma launch_new_spec a intent backend held l w : home_ok w -> h_dirs w !! ca_Name a = None -> Intent (ca_Intent a) = Ok intent ->
  counts_ok a -> h_holds w = arm held l ->
  runs w (launch_new env a intent backend held) (fun w' r => safe (ca_Name a) w w' /\
    create_outcome a (with_held l w) w' (fst ∘ fst <$> r)).
Proof.
  intros Hw Hd Hi Hc Hh. assert (stored w (ca_Name a) = None) as Hst by (unfold stored; by rewrite Hd).
  unfold launch_new. apply post_bind. eapply post_conseq; [by apply build_spec|].
  intros w1 [[item ws]|e] H1.
  2:{ destruct H1 as [U He]. apply post_bind. pose proof (unbuilt_safe _ _ _ Hw Hst U) as S1. destruct U as [(_&Ev&_&Eh&_) O R G]. simpl in Ev, Eh.
      eapply post_conseq; [apply (release_spec _ l); congruence|]. intros w2 u [Hl Q2].
      destruct (held_ran (ca_Name a) _ _ (proj1 S1) Q2) as (H2 & A2 & O2 & D2 & V2 & _).
      apply post_ret. split; [eapply safe_trans; [done|by split_and!]|].
      assert (stored w2 (ca_Name a) = stored w (ca_Name a)) by (rewrite Hst, <- R; unfold stored; by rewrite D2).
      assert (h_holds w2 = l /\ h_vms w2 = h_vms w /\ stored w2 (ca_Name a) = stored w (ca_Name a) /\ (removable env -> h_dirs w2 = h_dirs w)).
      { split_and!; [done|congruence|done|]. intros Hr. rewrite D2. apply map_eq. intros k.
        destruct (decide (k = ca_Name a)) as [->|Hk]; [by rewrite Hd, G|auto]. }
      by destruct e. }
  destruct H1 as (B1 & (H1 & A1 & O1) & V1 & Eh1 & St1 & d & Hd1 & Him). apply post_bind.
  eapply post_conseq; [apply (rearm_spec _ l); congruence|]. intros w1' u ->. apply post_bind.
  pose proof (bt_name _ _ _ B1) as En.
  eapply post_conseq; [apply (start_spec env item (encode item)); [done|by rewrite En|done]|]. rewrite En.
  intros w2 r [R2 Hr]. assert (safe (ca_Name a) w w2) as S2 by (eapply safe_trans; [by split_and!|by apply ran_safe]).
  assert (stored w2 (ca_Name a) = Some (encode item)) as St2 by (rewrite <- St1; apply holdings_stored, R2).
  destruct r as [sw|e].
  - destruct Hr as [Hup Hres]. apply post_ret. split; [done|]. simpl. split_and!; [exists held; rewrite (rn_holds _ _ _ R2); congruence|eauto|done| |].
    + pose proof (rn_disks _ _ _ R2 (ca_Name a)) as E. unfold holdings in E. rewrite Hd1 in E.
      destruct (h_dirs w2 !! ca_Name a) as [d2|]; [|done]. exists d2. split; [done|]. injection E as _ ->. done.
    + intros n Hn. split; [by apply Hup|]. by apply (Hres _ (encode item)).
  - apply post_bind. eapply post_conseq; [apply (release_spec _ l); rewrite (rn_holds _ _ _ R2); congruence|]. intros w3 u' [Hl Q3].
    destruct (held_ran (ca_Name a) _ _ (rn_ok _ _ _ R2) Q3) as (H3 & A3 & O3 & D3 & V3 & _). apply post_ret.
    split; [eapply safe_trans; [done|by split_and!]|]. simpl. split_and!; [done| |].
    + unfold stored in *. rewrite D3, St2. eauto.
    + unfold tracked at 1. rewrite V3. apply Hr. apply leibniz_equiv, equiv_empty. intros n Hn. unfold tracked in Hn. rewrite V1 in Hn.
      destruct (ho_tracked w Hw _ _ Hn) as (x & Hx & _). congruence.
Qed.

(** A refusal before anything was built *)
Lemma refused a w w' e : home_ok w -> quiet w w' -> started e = false -> safe (ca_Name a) w w' /\ create_outcome a w w' (Err e).
Proof.
  intros Hw Q He. split; [by apply quiet_safe|]. assert (stored w' (ca_Name a) = stored w (ca_Name a)) by by apply quiet_stored.
  destruct Q as (?&?&?&?&?). by destruct e.
Qed.

Lemma outcome_same a w0 w w' r : h_dirs w0 = h_dirs w -> h_vms w0 = h_vms w -> h_holds w0 = h_holds w ->
  create_outcome a w0 w' r -> create_outcome a w w' r.
Proof.
  intros E1 E2 E3. unfold create_outcome, stored. rewrite E1, E2, E3. done.
Qed.

Lemma createCluster_spec a w : home_ok w -> counts_ok a ->
  runs w (createCluster env a) (fun w' r => safe (ca_Name a) w w' /\ create_outcome a w w' (fst <$> r)).
Proof.
  intros Hw Hc. unfold createCluster.
  assert (forall w' e, quiet w w' -> started e = false -> safe (ca_Name a) w w' /\ create_outcome a w w' (Err e)) as Href
    by (intros; by apply refused).
  apply post_try. eapply (post_conseq _ _ (fun w' r => w' = w /\ forall e, r = Err e -> started e = false)).
  { case_match; [by apply post_ret|]. apply post_ret. split; [done|]. destruct (ValidateVersion _); [done|]. by intros ? [= <-]. }
  intros w0 r [-> Hr]. destruct r as [[]|e]; [|apply Href; [done|auto]]. clear Hr.
  apply post_try, post_ret. destruct (Intent (ca_Intent a)) as [intent|e] eqn:Ei; cbn [map_err]; [|by apply Href].
  apply post_try, post_ret. destruct (validName (ca_Name a)) as [[]|e] eqn:Ev; cbn [map_err]; [|by apply Href].
  apply post_bind, post_fails. intros w1 Q1. apply post_bind, post_get. case_match; [by apply post_ret, Href|].
  case_bool_decide as Hd; [by apply post_ret, Href|]. destruct (e_hypervisor env (ca_Hypervisor a)) as [backend|]; [|by apply post_ret, Href].
  apply post_try, runs_ask. intros w2 Q2. assert (quiet w w2) by by etrans. case_match; [|by apply Href].
  apply post_try, runs_ask. intros w3 Q3. assert (quiet w w3) by by etrans. destruct (e_ping env _); [|by apply Href].
  apply post_try, runs_ask. intros w4 Q4. assert (quiet w w4) as Q by by etrans. case_match; [|by apply Href].
  assert (home_ok w4) as Hw4 by by eapply quiet_ok.
  apply post_try. eapply post_conseq; [apply post_and; [apply gate_spec|apply gate_err]|]. intros w5 r [[Q5 Hh] He].
  destruct (held_ran (ca_Name a) _ _ Hw4 Q5) as (H5 & A5 & O5 & D5 & V5 & _). destruct r as [p|e].
  2:{ apply Href; [|by rewrite (He e eq_refl)]. etrans; [exact Q|]. destruct Q5 as (?&?&?&_&?&?). by split_and!. }
  destruct Q as (E1&E2&E3&E4&E5&E6).
  apply post_try. eapply post_conseq; [apply (launch_new_spec _ _ _ _ (h_holds w4)); [done| |done|done|done]|].
  - rewrite D5, E1. destruct Q1 as (E1' & _). rewrite E1' in Hd. by apply eq_None_not_Some.
  - intros w6 r [S6 Hout]. assert (safe (ca_Name a) w w6) as S.
    { eapply safe_trans; [|exact S6]. eapply safe_trans; [by apply quiet_safe; [|split_and!]|by split_and!]. }
    assert (create_outcome a w w6 (fst ∘ fst <$> r)) as Hout' by (eapply outcome_same; [..|exact Hout]; simpl; congruence).
    destruct r as [[[item ws] sw]|e]; [by apply post_ret|done].
Qed.
End Create.

(** ** Starting and stopping *)

Section StartStop.
Context (env : Env).

(** A loaded cluster *)
Lemma loaded_name w name s : home_ok w -> stored w name = Some s -> c_Name (view (st_cluster s)) = name.
Proof. intros Hw Hs. apply (ro_name _ _ (ho_records w Hw _ _ Hs)). Qed.

Definition start_outcome (name : string) (w w' : Home) (r : result ops_error Cluster) : Prop :=
  (forall k, holdings w' k = holdings w k) /\
  match r with
  | Ok item => (exists held, h_holds w' = arm held (h_holds w)) /\ (exists s, stored w' name = Some s /\ item = view (st_cluster s)) /\
      forall n, n ∈ node_names item -> nodeRunning w' name n = true /\ reserved (h_helper w') name n
  | Err _ => h_holds w' = h_holds w
  end.

Lemma start_refused name w w' e : home_ok w -> quiet w w' -> safe name w w' /\ start_outcome name w w' (Err e).
Proof. intros Hw Q. pose proof (quiet_ran name _ _ Hw Q) as R. split; [by apply ran_safe|]. split; [apply R|apply Q]. Qed.

Lemma startCluster_spec args w : home_ok w ->
  runs w (startCluster env args) (fun w' r => safe (sa_Name args) w w' /\ start_outcome (sa_Name args) w w' (fst <$> r)).
Proof.
  intros Hw. unfold startCluster. apply post_try, runs_lift. eapply post_conseq; [by apply Load_spec|].
  intros w1 r [Q1 Hr]. destruct r as [item|e]; cbn [map_err]; [|by apply start_refused]. destruct Hr as (s & Hs & ->).
  pose proof (loaded_name _ _ _ Hw Hs) as En. set (item := view (st_cluster s)) in *.
  apply post_bind, post_get. apply post_try.
  eapply (post_conseq _ _ (fun w' _ => quiet w1 w')).
  { destruct (clusterRunning w1 (c_Name item)); [by apply post_ret|]. apply runs_ask. intros w' Q. by case_match. }
  intros w2 r Q2'. assert (quiet w w2) as Q2 by by etrans. destruct r as [ow|e]; [|by apply start_refused].
  apply post_try, runs_ask. intros w3 Q3'. assert (quiet w w3) as Q3 by by etrans. case_match; [|by apply start_refused].
  assert (home_ok w3) as Hw3 by by eapply quiet_ok.
  apply post_try. eapply (post_conseq _ _ (fun w' r => quiet w3 (with_held (h_holds w3) w') /\
    match r with Ok p => h_holds w' = arm p.2 (h_holds w3) | Err _ => h_holds w' = h_holds w3 end)).
  { case_match; [apply gate_spec|]. by apply post_ret. }
  intros w4 r [Q4 Hh]. destruct (held_ran (sa_Name args) _ _ Hw3 Q4) as (H4 & A4 & O4 & D4 & V4 & _).
  assert (safe (sa_Name args) w w4) as S4 by (eapply safe_trans; [by apply quiet_safe|by split_and!]).
  assert (h_holds w3 = h_holds w) as Hh3 by apply Q3.
  assert (forall k, holdings w4 k = holdings w k) as Hold4.
  { intros k. unfold holdings. rewrite D4. by destruct Q3 as (-> & _). }
  destruct r as [p|e]; [|split; [done|]; split; [done|congruence]].
  assert (stored w4 (c_Name item) = Some s) as Hs4 by (rewrite En, <- Hs; apply holdings_stored, Hold4).
  apply post_bind. eapply post_conseq; [by apply (start_spec env item s)|]. rewrite En. intros w5 r [R5 Hr].
  assert (safe (sa_Name args) w w5) as S5 by (eapply safe_trans; [done|by apply ran_safe]).
  assert (forall k, holdings w5 k = holdings w k) as Hold5 by (intros k; by rewrite (rn_disks _ _ _ R5)).
  destruct r as [sw|e].
  - apply post_ret. split; [done|]. split; [done|]. simpl. destruct Hr as [Hup Hres]. split_and!.
    + exists p.2. rewrite (rn_holds _ _ _ R5), Hh. congruence.
    + exists s. split; [|done]. rewrite <- Hs. by apply holdings_stored.
    + intros n Hn. split; [by apply Hup|]. apply (Hres _ s); [by rewrite <- En|done].
  - apply post_bind. eapply post_conseq; [apply (release_spec _ (h_holds w)); rewrite (rn_holds _ _ _ R5); congruence|].
    intros w6 u [Hl Q6]. destruct (held_ran (sa_Name args) _ _ (proj1 S5) Q6) as (H6 & A6 & O6 & D6 & _).
    apply post_ret. split; [eapply safe_trans; [done|by split_and!]|]. split; [|done].
    intros k. rewrite <- Hold5. unfold holdings. by rewrite D6.
Qed.

(** A stop that reports no failure leaves no machine tracked. *)
Lemma stop_leaves sch loaded s :
  runs s (Suspend.stop sch loaded) (fun s' failed => failed = [] -> Suspend.vms s' = ∅).
Proof.
  unfold Suspend.stop. do 2 (apply post_bind, post_modify). apply post_bind.
  eapply (post_conseq _ _ (fun s' _ => True)); [by destruct loaded|]. intros s1 _ _. apply post_bind, post_get.
  case_bool_decide as E; [by apply post_bind, post_modify, post_ret|].
  eapply post_conseq; [apply runs_closeNodes|]. intros s2 failed [C Hf] ->. apply map_eq. intros k. rewrite lookup_empty.
  destruct (Suspend.vms s2 !! k) as [m|] eqn:Em; [|done]. pose proof Em as Em'. apply (c_vms _ _ _ C) in Em' as (m0 & Hm0 & _).
  rewrite Hf in Em; [done| |set_solver]. apply elem_of_sort_strings, elem_of_elements, elem_of_dom. eauto.
Qed.

Lemma stop_spec name w : home_ok w ->
  runs w (stop env name) (fun w' failed => ran name w w' /\ (failed = [] -> tracked w' name = ∅)).
Proof.
  intros Hw. unfold stop. apply post_bind. eapply post_conseq; [by apply Load_spec|]. intros w1 r [Q1 _].
  pose proof (quiet_ran name _ _ Hw Q1) as R1. eapply post_conseq.
  { apply (runs_within true ∅). apply post_and; [apply boots_stop|apply stop_leaves]. }
  intros w2 failed [I2 (s2 & V2 & H2)]. split; [eapply ran_trans; [done|eapply inside_ran; [done|apply R1|set_solver..]]|].
  intros Hf. unfold tracked. unfold slice in V2. cbn [Suspend.vms] in V2. rewrite V2, H2 by done. by rewrite dom_empty_L.
Qed.

Lemma stopCluster_spec name w : home_ok w -> runs w (stopCluster env name) (fun w' r => ran name w w' /\ (is_ok r = true -> tracked w' name = ∅)).
Proof.
  intros Hw. unfold stopCluster. apply post_try, runs_lift. eapply post_conseq; [by apply Load_spec|].
  intros w1 r [Q1 Hr]. pose proof (quiet_ran name _ _ Hw Q1) as R1. destruct r as [item|e]; cbn [map_err]; [|by split].
  destruct Hr as (s & Hs & ->). rewrite (loaded_name _ _ _ Hw Hs). apply post_bind.
  eapply post_conseq; [apply stop_spec, R1|]. intros w2 failed [R2 Hf]. assert (ran name w w2) by by eapply ran_trans.
  case_bool_decide; apply post_ret; [|by split]. split; [done|]. auto.
Qed.
End StartStop.

(** ** Destroying a cluster *)

Section DestroyHandler.
Context (env : Env).

(** No stored cluster has the subnet. *)
Definition unallocated (w : Home) (i : Z) : Prop := forall k s, stored w k = Some s -> c_SubnetIndex (st_cluster s) <> i.

Lemma releaseSubnetBridge_spec i w : home_ok w ->
  runs w (releaseSubnetBridge env i) (fun w' _ =>
    h_dirs w' = h_dirs w /\ h_vms w' = h_vms w /\ h_versions w' = h_versions w /\ h_holds w' = h_holds w /\
    ordered_with (fun j => j = i /\ unallocated w i) w w').
Proof.
  intros Hw. unfold releaseSubnetBridge.
  assert (forall w', synced w w' -> h_dirs w' = h_dirs w /\ h_vms w' = h_vms w /\ h_versions w' = h_versions w /\ h_holds w' = h_holds w /\
    ordered_with (fun j => j = i /\ unallocated w i) w w') as Hs.
  { intros w' (?&?&?&?&O). split_and!; try done. by eapply ordered_weaken; [|exact O]. }
  apply post_try. eapply post_conseq; [by apply listForSync_spec|]. intros w1 r [Q1%quiet_synced Hl]. destruct r as [l|e]; [|auto].
  destruct (subnetAllocated l i) eqn:Ea; [apply post_ret; auto|].
  apply post_bind, post_fails. intros w2 Q2%quiet_synced. assert (synced w w2) by by etrans.
  case_match; [apply post_ret; auto|]. apply post_bind, post_fails. intros w3 Q3%quiet_synced. assert (synced w w3) by by etrans.
  apply post_bind. eapply (post_conseq _ _ (fun w' _ => synced w w')).
  { case_match; [by apply post_ret|]. eapply post_conseq; [by apply synced_note|]. intros w' u S. by etrans. }
  intros w4 u S4. apply post_bind, post_next. intros w5 Q5%quiet_synced. assert (synced w w5) as S5 by by etrans.
  case_match; [apply post_ret; auto|]. destruct (Hs _ S5) as (?&?&?&?&O5). apply post_bind. apply post_modify, post_ret. split_and!; try done.
  etrans; [exact O5|]. apply (ordered_one _ (TornDown i)); try done. intros j [= <-]. split; [done|]. intros k s Hk Ei.
  assert (subnetAllocated l i = true) as Ht; [|congruence]. unfold subnetAllocated. apply existsb_exists. exists (view (st_cluster s)).
  split; [apply list_elem_of_In, Hl; eauto|]. by apply Z.eqb_eq.
Qed.

(** The state after the machines are stopped and the directory is gone *)
Lemma home_ok_destroyed name w w' : home_ok w -> tracked w name = ∅ ->
  files_of name (fun old new => new = None \/ new = old) w w' -> home_ok w'.
Proof.
  intros Hw Ht F. assert (forall k x, stored w' k = Some x -> stored w k = Some x) as Hs.
  { intros k x Hx. destruct (decide (k = name)) as [->|Hk]; [|by rewrite <- (files_stored _ _ _ _ k F)].
    destruct (fo_record _ _ _ _ F) as [E|E]; congruence. }
  split.
  - intros k x Hx%Hs. by apply (ho_records w Hw).
  - intros k1 k2 x1 x2 H1%Hs H2%Hs. by apply (ho_distinct w Hw k1 k2).
  - intros k n Hn. rewrite (files_tracked _ _ _ _ k F) in Hn. destruct (decide (k = name)) as [->|Hk]; [rewrite Ht in Hn; set_solver|].
    rewrite (files_stored _ _ _ _ k F) by done. by apply (ho_tracked w Hw).
Qed.

Definition destroy_outcome (name : string) (w w' : Home) (r : result ops_error DestroySummary) : Prop :=
  home_ok w' /\ apart name w w' /\ h_holds w' = h_holds w /\
  ordered_with (fun i => (exists s, stored w name = Some s /\ c_SubnetIndex (st_cluster s) = i) /\ unallocated w' i) w w' /\
  (is_ok r = true -> h_dirs w' !! name = None /\ tracked w' name = ∅).

Lemma destroy_refused name w w' e : ran name w w' -> destroy_outcome name w w' (Err e).
Proof. intros []. split_and!; try done. by eapply ordered_weaken; [|exact rn_ordered0]. Qed.

(** Everything after the directory is gone *)
Lemma destroy_rest name w w5 (item : result store_error Cluster) :
  home_ok w5 -> apart name w w5 -> h_holds w5 = h_holds w -> ordered w w5 -> h_dirs w5 !! name = None -> tracked w5 name = ∅ ->
  (forall c, item = Ok c -> exists s, stored w name = Some s /\ c_SubnetIndex (st_cluster s) = c_SubnetIndex c) ->
  forall summary, runs w5 (_ ← note (Guest name ForgetCluster); _ ← note (Guest name InvalidateStorage); _ ← logHelperSyncFailure env;
    bridge ← match item with
             | Ok c => if e_linux env && (0 <=? c_SubnetIndex c) then releaseSubnetBridge env (c_SubnetIndex c) else ok ""
             | Err _ => ok ""
             end;
    resolvers ← SyncResolverFiles env; ok (summary bridge resolvers)) (destroy_outcome name w).
Proof.
  intros H5 A5 Hh5 O5 D5 T5 Hitem summary.
  apply post_bind. eapply post_conseq; [by apply synced_note|]. intros w6 u6 S6.
  apply post_bind. eapply post_conseq; [by apply synced_note|]. intros w7 u7 S7.
  apply post_bind. eapply post_conseq; [apply logHelperSyncFailure_spec, (synced_ok _ _ S7), (synced_ok _ _ S6), H5|]. intros w8 u8 S8.
  assert (synced w5 w8) as S by (etrans; [exact S6|etrans; [exact S7|exact S8]]). assert (home_ok w8) as H8 by by eapply synced_ok.
  apply post_bind. eapply (post_conseq _ _ (fun w' _ => h_dirs w' = h_dirs w8 /\ h_vms w' = h_vms w8 /\ h_versions w' = h_versions w8 /\
    h_holds w' = h_holds w8 /\ ordered_with (fun i => (exists s, stored w name = Some s /\ c_SubnetIndex (st_cluster s) = i) /\ unallocated w8 i) w8 w')).
  { assert (forall P, h_dirs w8 = h_dirs w8 /\ h_vms w8 = h_vms w8 /\ h_versions w8 = h_versions w8 /\ h_holds w8 = h_holds w8 /\ ordered_with P w8 w8)
      by (intros P; split_and!; done || reflexivity).
    destruct item as [c|e]; [|by apply post_ret]. case_match; [|by apply post_ret].
    eapply post_conseq; [by apply releaseSubnetBridge_spec|]. intros w' r (?&?&?&?&O). split_and!; try done.
    eapply ordered_weaken; [|exact O]. intros i [-> Hu]. split; [by apply Hitem|done]. }
  intros w9 b (D9 & V9 & E9 & Hh9 & O9).
  assert (home_ok w9) as H9 by (eapply home_ok_same; [..|exact H8]; intros k; [unfold stored; by rewrite D9|unfold tracked; by rewrite V9]).
  apply post_bind. eapply post_conseq; [by apply SyncResolverFiles_spec|]. intros w10 r S10. apply post_ret.
  assert (forall k, stored w10 k = stored w8 k) as Hst by (intros k; rewrite (synced_stored _ _ _ S10); unfold stored; by rewrite D9).
  pose proof S as (DS & VS & ES & HS & OS). destruct S10 as (D10 & V10 & E10 & H10 & O10). split_and!.
  - by eapply synced_ok; [|exact H9]; split_and!.
  - intros k Hk. destruct (A5 k Hk) as (?&?&?). rewrite D10, D9, DS, V10, V9, VS, E10, E9, ES. done.
  - congruence.
  - etrans; [by eapply ordered_weaken; [|exact O5]|]. etrans; [by eapply ordered_weaken; [|exact OS]|].
    etrans; [eapply ordered_weaken; [|exact O9]|by eapply ordered_weaken; [|exact O10]].
    intros i [? Hu]. split; [done|]. intros k s. rewrite Hst. apply Hu.
  - intros _. split; [by rewrite D10, D9, DS|]. unfold tracked in *. by rewrite V10, V9, VS.
Qed.

Lemma destroyCluster_spec name force w : home_ok w -> readable env ->
  runs w (destroyCluster env name force) (fun w' r => destroy_outcome name w w' r).
Proof.
  intros Hw Hread. unfold destroyCluster. destruct force; cbn [negb]; [|apply post_ret, destroy_refused, quiet_ran; done].
  apply post_bind. eapply post_conseq; [by apply synced_note|]. intros w1 u1 S1. pose proof (synced_ran name _ _ Hw S1) as R1.
  apply post_try, post_ret. destruct (validName name) as [[]|e]; cbn [map_err]; [|by apply destroy_refused].
  apply post_bind, post_fails. intros w2 Q2. assert (ran name w w2) as R2 by (eapply ran_trans; [done|]; by apply quiet_ran; [apply R1|]).
  apply post_bind, post_get. case_match; [by apply post_ret, destroy_refused|].
  apply post_bind, post_fails. intros w3 Q3. assert (ran name w w3) as R3 by (eapply ran_trans; [done|]; by apply quiet_ran; [apply R2|]).
  apply post_bind. eapply (post_conseq _ _ (fun w' _ => ran name w w')).
  { case_match; [by apply post_ret|]. eapply post_conseq; [by apply synced_note|]. intros w' u S. eapply ran_trans; [done|].
    by apply synced_ran; [apply R3|]. }
  intros w4 u4 R4. apply post_bind, post_next. intros w5 Q5. assert (ran name w w5) as R5 by (eapply ran_trans; [done|]; by apply quiet_ran; [apply R4|]).
  apply post_bind. eapply post_conseq; [apply Load_spec, R5|]. intros w6 item [Q6 Hitem].
  assert (ran name w w6) as R6 by (eapply ran_trans; [done|]; by apply quiet_ran; [apply R5|]).
  assert (stored w5 name = stored w name) as Est by (apply holdings_stored, R5). rewrite Est in Hitem.
  apply post_try. eapply (post_conseq _ _ (fun w' r => ran name w w' /\ (is_ok r = true -> tracked w' name = ∅))).
  { destruct item as [c|e].
    - apply post_bind. eapply post_conseq; [apply stop_spec, R6|]. intros w' failed [R' Hf]. assert (ran name w w') by by eapply ran_trans.
      destruct (bool_decide (failed = [])) eqn:Ef; apply post_ret; (split; [done|]); [|done]. intros _. by apply Hf, (bool_decide_eq_true_1 _).
    - apply post_ret. split; [done|]. intros _. apply leibniz_equiv, equiv_empty. intros n Hn.
      destruct (ho_tracked _ (rn_ok _ _ _ R6) _ _ Hn) as (x & Hx & _). rewrite (holdings_stored w w6) in Hx by apply R6.
      rewrite Hitem in Hx by auto. done. }
  intros w7 r [R7 Ht]. destruct r as [[]|e]; [|by apply destroy_refused]. specialize (Ht eq_refl).
  apply post_try, runs_lift. eapply post_conseq; [apply Destroy_spec|]. intros w8 r (F8 & Hgone & _).
  assert (files_of name (fun old new => new = None \/ new = old) w7 w8) as F8' by (destruct F8; split; try done; naive_solver).
  assert (home_ok w8) as H8 by (eapply home_ok_destroyed; [apply R7|done|done]).
  assert (apart name w w8) as A8 by (etrans; [apply R7|by eapply files_apart]).
  assert (h_holds w8 = h_holds w) as Hh8 by (rewrite (fo_holds _ _ _ _ F8); apply R7).
  assert (ordered w w8) as O8 by (etrans; [apply R7|by eapply files_ordered]).
  destruct r as [[]|e]; cbn [map_err].
  - apply (destroy_rest name w w8 item H8 A8 Hh8 O8 (Hgone eq_refl)).
    + by rewrite (files_tracked _ _ _ _ _ F8).
    + intros c ->. destruct Hitem as (s & Hs & ->). eauto.
  - split_and!; try done. by eapply ordered_weaken; [|exact O8].
Qed.
End DestroyHandler.

(** ** Nodes *)

Lemma filled_assigned before after : Forall (fun n => n_IP n <> EmptyString) before -> filled before after -> after = before.
Proof.
  intros Hf. induction 1 as [|[] [] l l' (?&?&?&Hip) _ IH]; [done|]. apply Forall_cons in Hf as [Hn Hf]. simpl in *.
  rewrite (Hip Hn), IH by done. congruence.
Qed.

(** A cluster with other nodes *)
Definition rest_same (c c' : Cluster) : Prop :=
  c_Name c' = c_Name c /\ c_SubnetIndex c' = c_SubnetIndex c /\ c_Domain c' = c_Domain c /\ c_Intent c' = c_Intent c.

Lemma AddNode_shape c role name c' node : AddNode c role name = (c', Ok node) ->
  rest_same c c' /\ n_MAC node = DeterministicMAC (c_Name c) (n_Name node).
Proof.
  unfold AddNode. case_head; [done|]. cbv zeta. destruct (validName _); [|done]. case_head; [done|].
  destruct (nextReservationIP _ _) as [nodes [ip|]]; [|done]. intros [= <- <-]. unfold rest_same. by case_head.
Qed.

Lemma RemoveNode_shape c name c' r : RemoveNode c name = (c', r) -> rest_same c c'.
Proof.
  unfold RemoveNode. destruct (take_node _ _) as [[node rest]|]; [|intros [= <- <-]; done]. intros [= <- <-].
  unfold rest_same. by case_head.
Qed.

(** The record of a loaded cluster whose nodes were changed *)
Lemma record_nodes w name s c' : home_ok w -> stored w name = Some s -> rest_same (view (st_cluster s)) c' -> cluster_ok c' ->
  Forall (fun n => n_IP n <> EmptyString /\ n_MAC n = DeterministicMAC name (n_Name n)) (c_Nodes c') ->
  record_ok name (encode c') /\ EffectiveDomain c' = EffectiveDomain (st_cluster s) /\ c_SubnetIndex c' = c_SubnetIndex (st_cluster s).
Proof.
  intros Hw Hs (E1 & E2 & E3 & E4) Hok Hn. destruct (ho_records w Hw _ _ Hs). apply Forall_and in Hn as [H1 H2].
  simpl in *. split; [|split; [|done]].
  - split; simpl; try done; [congruence|]. rewrite E4. done.
  - unfold EffectiveDomain. rewrite E1, E3. done.
Qed.

Lemma view_ok w name s : home_ok w -> stored w name = Some s ->
  cluster_ok (view (st_cluster s)) /\ Forall (fun n => n_IP n <> EmptyString /\ n_MAC n = DeterministicMAC name (n_Name n)) (c_Nodes (view (st_cluster s))).
Proof.
  intros Hw Hs. destruct (ho_records w Hw _ _ Hs). split; [by eapply cluster_ok_ext; [..|exact ro_cluster0]|]. by apply Forall_and.
Qed.

Lemma added_record w name s role node c' n : home_ok w -> stored w name = Some s -> AddNode (view (st_cluster s)) role node = (c', Ok n) ->
  record_ok name (encode c') /\ EffectiveDomain c' = EffectiveDomain (st_cluster s) /\ c_SubnetIndex c' = c_SubnetIndex (st_cluster s) /\
  c_Nodes c' = c_Nodes (st_cluster s) ++ [n].
Proof.
  intros Hw Hs Ha. destruct (view_ok _ _ _ Hw Hs) as [Hok Hn]. destruct (AddNode_shape _ _ _ _ _ Ha) as [Hr Hm].
  destruct (AddNode_allocates _ _ _ _ _ Hok Ha) as (Hok' & nodes & Hf & En & _ & (h & _ & Eip & _) & _).
  apply filled_assigned in Hf as ->; [|eapply Forall_impl; [exact Hn|]; naive_solver].
  destruct (record_nodes w name s c' Hw Hs Hr Hok') as (?&?&?); [|by split_and!].
  rewrite En. apply Forall_app. split; [done|]. apply Forall_singleton. split; [rewrite Eip; apply reservation_nonempty|].
  rewrite Hm. by rewrite (loaded_name _ _ _ Hw Hs).
Qed.

Lemma removed_record w name s node c' n : home_ok w -> stored w name = Some s -> RemoveNode (view (st_cluster s)) node = (c', Ok n) ->
  record_ok name (encode c') /\ EffectiveDomain c' = EffectiveDomain (st_cluster s) /\ c_SubnetIndex c' = c_SubnetIndex (st_cluster s) /\
  n_Name n = node /\ node_names (st_cluster s) ⊆ {[node]} ∪ node_names c'.
Proof.
  intros Hw Hs Ha. destruct (view_ok _ _ _ Hw Hs) as [Hok Hn]. pose proof (RemoveNode_shape _ _ _ _ Ha) as Hr.
  assert (length (c_Nodes (view (st_cluster s))) <= 178)%nat as Hlen.
  { eapply ips_bound; [apply (ok_ips _ Hok)|]. eapply Forall_impl; [exact Hn|]. naive_solver. }
  destruct (RemoveNode_removes _ _ _ _ Hok ltac:(lia) Ha) as (Hok' & before & after & E & En & Hname).
  destruct (record_nodes w name s c' Hw Hs Hr Hok') as (?&?&?).
  - rewrite En. rewrite E in Hn. apply Forall_app in Hn as [H1 H2]. apply Forall_cons in H2 as [_ H2]. by apply Forall_app.
  - split_and!; try done. change (c_Nodes (view (st_cluster s))) with (c_Nodes (st_cluster s)) in E. unfold node_names. rewrite E, En, !fmap_app, fmap_cons, Hname. set_solver.
Qed.

(** A run that keeps every record, machine and hold *)
Record kept (name : string) (w w' : Home) : Prop := mkKept {
  kp_safe : safe name w w';
  kp_vms : h_vms w' = h_vms w;
  kp_holds : h_holds w' = h_holds w;
  kp_stored : forall k, stored w' k = stored w k
}.

Lemma kept_trans name w1 w2 w3 : kept name w1 w2 -> kept name w2 w3 -> kept name w1 w3.
Proof. intros [] []. split; try congruence. by eapply safe_trans. Qed.

Lemma files_kept name w w' : home_ok w -> files_of name eq w w' -> kept name w w'.
Proof.
  intros Hw F. split; [split_and!; [by eapply files_ok|by eapply files_apart|by eapply files_ordered]|apply F|apply F|].
  intros k. destruct (decide (k = name)) as [->|Hk]; [symmetry; apply F|by eapply files_stored].
Qed.

Lemma synced_kept name w w' : home_ok w -> synced w w' -> kept name w w'.
Proof. intros Hw S. split; [by apply synced_safe|apply S|apply S|]. intros k. by apply synced_stored. Qed.

Lemma kept_ok name w w' : kept name w w' -> home_ok w'.
Proof. intros H. apply (kp_safe _ _ _ H). Qed.

Section Nodes.
Context (env : Env).

Lemma in_replaced item l c : c ∈ l -> c_Name c = c_Name item -> item ∈ replace_cluster item l.
Proof.
  intros Hc E. unfold replace_cluster. apply elem_of_app. left. apply list_elem_of_fmap. exists c. split; [|done].
  by rewrite (proj2 (String.eqb_eq _ _) E).
Qed.

Definition committed (name : string) (w w' : Home) (item : Cluster) (node : Node) : Prop :=
  safe name w w' /\ h_vms w' = h_vms w /\ h_holds w' = h_holds w /\ stored w' name = Some (encode item) /\ c_Name item = name /\
  n_Name node ∈ node_names item /\ reserved (h_helper w') name (n_Name node) /\
  exists d, h_dirs w' !! name = Some d /\ node_names item ⊆ d_images d.

Lemma proposedClusterSet_spec name s item w : home_ok w -> stored w name = Some s -> c_Name item = name ->
  runs w (proposedClusterSet env item) (fun w' r => quiet w w' /\ forall l, r = Ok l -> item ∈ l).
Proof.
  intros Hw Hs En. unfold proposedClusterSet. apply post_try. eapply post_conseq; [by apply listForSync_spec|].
  intros w' r [Q Hl]. destruct r as [l|e]; [|done]. apply post_ret. split; [done|]. intros ? [= <-].
  apply (in_replaced item l (view (st_cluster s))); [|by rewrite En, (loaded_name _ _ _ Hw Hs)]. apply Hl. eauto.
Qed.

(** The record with the new node is saved, and the helper holds a set with it. *)
Lemma committed_intro name s role node n item w w4 w5 l d : home_ok w -> stored w name = Some s ->
  AddNode (view (st_cluster s)) role node = (item, Ok n) -> kept name w w4 -> h_helper w4 = l -> is_ok (NewReservationTable l) = true -> item ∈ l ->
  files_of name (fun _ x => x = Some (encode item)) w4 w5 -> h_dirs w5 !! name = Some d -> node_names item ⊆ d_images d ->
  committed name w w5 item n.
Proof.
  intros Hw Hs Ea K4 Hset Htable Hin F5 Hd Him.
  destruct (added_record _ _ _ _ _ _ _ Hw Hs Ea) as (Hrec & Edom & Esub & Enodes). pose proof (ro_name _ _ Hrec) as En.
  cbn [st_cluster encode] in En. split_and!.
  - eapply safe_trans; [apply K4|]. split_and!; [|by eapply files_apart|by eapply files_ordered].
    eapply home_ok_save; [by eapply kept_ok|exact F5|done| |].
    + intros k s' Hk Hne. cbn [st_cluster encode]. rewrite Edom, Esub. rewrite (kp_stored _ _ _ K4) in Hk. by apply (ho_distinct w Hw k name).
    + intros k Hk. unfold tracked in Hk. rewrite (kp_vms _ _ _ K4) in Hk. destruct (ho_tracked w Hw _ _ Hk) as (x & Hx & Hkx).
      assert (x = s) as -> by congruence. cbn [st_cluster encode]. unfold node_names in *. rewrite Enodes. set_solver.
  - rewrite (fo_vms _ _ _ _ F5). apply K4.
  - rewrite (fo_holds _ _ _ _ F5). apply K4.
  - apply F5.
  - done.
  - apply node_names_elem. exists n. rewrite Enodes. set_solver.
  - rewrite (fo_helper _ _ _ _ F5), Hset. destruct (NewReservationTable l) as [t|] eqn:Et; [|done]. rewrite <- En.
    eapply table_answers; [done..|]. rewrite Enodes. set_solver.
  - eauto.
Qed.

Lemma commit_node_spec name s role node w : home_ok w -> stored w name = Some s ->
  runs w (commit_node env (view (st_cluster s)) role node) (fun w' r => match r with
    | Ok (item, n) => committed name w w' item n /\ c_Nodes item = c_Nodes (st_cluster s) ++ [n]
    | Err e => kept name w w' /\ forall x, e <> AddedNotStarted x
    end).
Proof.
  intros Hw Hs. unfold commit_node. apply post_try, runs_ask. intros w1 Q1.
  pose proof (synced_kept name _ _ Hw (quiet_synced _ _ Q1)) as K1. destruct (e_cached env _ _); [|by split].
  destruct (AddNode _ role node) as [item r] eqn:Ea. apply post_try, post_ret. destruct r as [n|e]; cbn [map_err]; [|by split].
  destruct (added_record _ _ _ _ _ _ _ Hw Hs Ea) as (Hrec & Edom & Esub & Enodes).
  pose proof (ro_name _ _ Hrec) as En. cbn [st_cluster encode] in En.
  assert (forall w1 e, kept name w w1 -> (forall x, e <> AddedNotStarted x) -> runs w1 (_ ← removeNodeFiles env name (n_Name n); fail e)
    (fun w' r => match r with Ok (item, n) => committed name w w' item n /\ c_Nodes item = c_Nodes (st_cluster s) ++ [n]
                            | Err e => kept name w w' /\ forall x, e <> AddedNotStarted x end)) as Hundo.
  { intros w' e K He. apply post_bind. eapply post_conseq; [apply removeNodeFiles_local|]. intros w'' u F. apply post_ret.
    split; [|done]. eapply kept_trans; [done|]. by apply files_kept; [eapply kept_ok|]. }
  apply post_bind. eapply post_conseq.
  { apply post_and; [apply provisionDisks_local|]. apply post_and; [apply provisionDisks_images|apply provisionDisks_err]. }
  rewrite En. intros w2 r [F2 [Him Herr]].
  assert (kept name w w2) as K2 by (eapply kept_trans; [done|]; by apply files_kept; [eapply kept_ok|]).
  destruct r as [[]|e]; [|apply Hundo; [done|by rewrite (Herr e eq_refl)]]. destruct (Him eq_refl) as (d & Hd & Himages).
  apply post_bind. eapply post_conseq; [apply (proposedClusterSet_spec name s); [by eapply kept_ok|by rewrite (kp_stored _ _ _ K2)|done]|].
  intros w3 r [Q3 Hin]. assert (kept name w w3) as K3.
  { eapply kept_trans; [done|]. apply synced_kept; [by eapply kept_ok|by apply quiet_synced]. }
  destruct r as [l|e]; [|by apply Hundo]. specialize (Hin l eq_refl).
  apply post_bind. eapply post_conseq; [apply SyncHelperClusters_spec|]. intros w4 r [S4 Hsync].
  assert (kept name w w4) as K4 by (eapply kept_trans; [done|]; apply synced_kept; [by eapply kept_ok|done]).
  destruct r as [[]|e]; [|by apply Hundo]. destruct (Hsync eq_refl) as [Hset Htable]. clear Hsync Hundo.
  apply post_bind. eapply post_conseq; [apply Save_spec|]. rewrite En. intros w5 r Hsave. destruct r as [[]|e].
  2:{ assert (kept name w w5) as K5 by (eapply kept_trans; [done|]; apply files_kept; [by eapply kept_ok|done]).
      apply post_bind. eapply post_conseq; [apply removeNodeFiles_local|]. intros w6 u F6.
      assert (kept name w w6) as K6 by (eapply kept_trans; [done|]; apply files_kept; [by eapply kept_ok|done]).
      apply post_bind. eapply post_conseq; [apply logHelperSyncFailure_spec; by eapply kept_ok|]. intros w7 u' S7. apply post_ret.
      split; [|done]. eapply kept_trans; [done|]. apply synced_kept; [by eapply kept_ok|done]. }
  destruct Hsave as [F5 Hkeep]. apply post_ret. split; [|done].
  assert (h_dirs w4 !! name = Some d) as Hd4 by (destruct S4 as (-> & _), Q3 as (-> & _); done).
  by eapply committed_intro; [..|apply Hkeep|].
Qed.

Lemma launch_node_spec item node w : home_ok w -> (exists s, stored w (c_Name item) = Some s /\ n_Name node ∈ node_names (st_cluster s)) ->
  reserved (h_helper w) (c_Name item) (n_Name node) ->
  runs w (launch_node env item node) (fun w' up => ran (c_Name item) w w' /\ h_helper w' = h_helper w /\
    if up : bool then nodeRunning w' (c_Name item) (n_Name node) = true else tracked w' (c_Name item) = tracked w (c_Name item)).
Proof.
  intros Hw Hs Hr. unfold launch_node. eapply post_conseq.
  { apply (runs_within true {[n_Name node]} _ _ (fun s' up => if up : bool then Suspend.nodeRunning s' (n_Name node) = true
      else Suspend.vms s' = Suspend.vms (slice (c_Name item) w))).
    assert (n_Name node ∈ ({[n_Name node]} : gset string)) by set_solver.
    apply post_and; [apply stays_bind; [typeclasses eauto|by apply boots_launch|intros []; stays_tac]|].
    apply post_bind. eapply post_conseq; [apply runs_launch|].
    intros s1 r (_ & V1 & _ & Hl). destruct r as [i|m fb]; [by apply post_ret|]. destruct Hl as (_ & Ha & _).
    apply post_bind, post_modify, post_ret. unfold Suspend.nodeRunning. simpl. by rewrite lookup_insert, decide_True. }
  intros w1 up [I1 (s1 & V1 & H1)]. split; [eapply inside_ran; [done..| |]; set_solver|]. split; [apply I1|].
  destruct up; [unfold nodeRunning, Suspend.nodeRunning in *; by rewrite V1|]. unfold tracked. unfold slice in V1. cbn [Suspend.vms] in V1.
  by rewrite V1, H1.
Qed.

Definition add_outcome (name : string) (w w' : Home) (r : result ops_error Node) : Prop :=
  match r with
  | Ok node => exists s item, stored w name = Some s /\ stored w' name = Some (encode item) /\ c_Nodes item = c_Nodes (st_cluster s) ++ [node] /\
      reserved (h_helper w') name (n_Name node) /\
      (exists d, h_dirs w' !! name = Some d /\ node_names item ⊆ d_images d) /\
      if clusterRunning w name then nodeRunning w' name (n_Name node) = true /\ exists held, h_holds w' = arm held (h_holds w)
      else h_vms w' = h_vms w /\ h_holds w' = h_holds w
  | Err (AddedNotStarted _) => h_holds w' = h_holds w /\ tracked w' name = tracked w name
  | Err _ => kept name w w'
  end.

Definition added (e : ops_error) : bool := match e with AddedNotStarted _ => true | _ => false end.

Lemma add_refused name w w' e : kept name w w' -> added e = false -> safe name w w' /\ add_outcome name w w' (Err e).
Proof. intros K He. split; [apply K|]. by destruct e. Qed.

Lemma kept_release name h l w w1 : kept name w (with_held (h_holds w) w1) -> l = h_holds w -> h_holds w1 = arm h l ->
  runs w1 (releaseBalloonHold h) (fun w' _ => kept name w w').
Proof.
  intros K -> Eh. eapply post_conseq; [by apply release_spec|]. intros w2 u [Hl Q]. destruct K as [(H1 & A1 & O1) V1 _ S1].
  destruct Q as (E1&E2&E3&_&E5&E6). simpl in *. split; [split_and!| | |]; try done; try congruence.
  - eapply home_ok_same; [..|exact H1]; intros k; unfold stored, tracked; simpl; by rewrite ?E1, ?E2.
  - intros k Hk. rewrite E1, E2, E3. by apply A1.
  - etrans; [exact O1|]. by apply ordered_same.
  - intros k. rewrite <- S1. unfold stored. simpl. by rewrite E1.
Qed.

Lemma with_held_id w : with_held (h_holds w) w = w.
Proof. by destruct w. Qed.

(** [w'] is [w] with the holds [l]. *)
Definition armed (name : string) (l : list Z) (w w' : Home) : Prop := kept name w (with_held (h_holds w) w') /\ h_holds w' = l.

Lemma armed_ok name l w w' : armed name l w w' -> safe name w w' /\ h_vms w' = h_vms w /\ forall k, stored w' k = stored w k.
Proof.
  intros [[(H1 & A1 & O1) V1 _ S1] _]. split; [split_and!|]; try done. eapply home_ok_same; [..|exact H1]; done.
Qed.

Lemma kept_armed name w w' : kept name w w' -> armed name (h_holds w) w w'.
Proof. intros K. split; [|apply K]. rewrite <- (kp_holds _ _ _ K), with_held_id. done. Qed.

Lemma armed_trans name l w w1 w2 : armed name l w w1 -> kept name w1 w2 -> armed name l w w2.
Proof.
  intros A [S2 V2 H2 T2]. destruct (armed_ok _ _ _ _ A) as (S1 & V1 & T1). destruct A as [_ Hl]. split; [|congruence].
  assert (safe name w w2) as (?&?&?) by by eapply safe_trans. split; [split_and!| | |]; simpl; try done; try congruence.
  - eapply home_ok_same; [..|eassumption]; done.
  - intros k. rewrite <- T1, <- T2. done.
Qed.

Lemma armed_release name h w w1 : armed name (arm h (h_holds w)) w w1 -> runs w1 (releaseBalloonHold h) (fun w' _ => kept name w w').
Proof. intros [K Hl]. by eapply kept_release. Qed.

Lemma gate_armed name mib force w : home_ok w -> runs w (checkProvisionStart env mib force) (fun w' r => match r with
  | Ok p => armed name (arm p.2 (h_holds w)) w w'
  | Err e => kept name w w' /\ e = StartRefused
  end).
Proof.
  intros Hw. eapply post_conseq; [apply post_and; [apply gate_spec|apply gate_err]|]. intros w' r [[Q Hh] He].
  pose proof (quiet_synced _ _ Q) as S. destruct r as [p|e].
  - split; [|done]. by apply synced_kept.
  - split; [|auto]. apply synced_kept; [done|]. rewrite <- Hh in S. by rewrite with_held_id in S.
Qed.

Lemma admit_node_spec name running force mib w : home_ok w ->
  runs w (admit_node env running force mib) (fun w' r => match r with
    | Ok p => armed name (arm p.2 (h_holds w)) w w' /\ (running = false -> p.2 = 0)
    | Err e => kept name w w' /\ added e = false
    end).
Proof.
  intros Hw. unfold admit_node. apply post_try, runs_ask. intros w1 Q1.
  pose proof (synced_kept name _ _ Hw (quiet_synced _ _ Q1)) as K1. case_match; [|done].
  assert (h_holds w1 = h_holds w) as Eh by apply Q1. apply post_try. destruct running.
  - eapply post_conseq; [apply (gate_armed name); by eapply kept_ok|]. intros w2 r Hg.
    destruct r as [p|e]; [|destruct Hg as [K2 ->]; split; [by eapply kept_trans|done]].
    destruct Hg as [K2 Hl]. rewrite Eh in Hl, K2. apply post_ret. split; [|done]. split; [|done]. by eapply kept_trans.
  - apply post_ret, post_ret. split; [|done]. by apply kept_armed.
Qed.

(** What a committed node becomes: [l] are the holds before the gates. *)
Definition finished (name : string) (running : bool) (l : list Z) (w w' : Home) (item : Cluster) (node : Node) (r : result ops_error unit) : Prop :=
  safe name w w' /\
  match r with
  | Ok _ => stored w' name = stored w name /\ h_helper w' = h_helper w /\ (exists d, h_dirs w' !! name = Some d /\ node_names item ⊆ d_images d) /\
      if running then nodeRunning w' name (n_Name node) = true /\ h_holds w' = h_holds w else h_vms w' = h_vms w /\ h_holds w' = l
  | Err e => added e = true /\ h_holds w' = l /\ tracked w' name = tracked w name
  end.

Lemma launch_added_spec name running held l item node w : home_ok w -> h_holds w = arm held l -> c_Name item = name ->
  stored w name = Some (encode item) -> n_Name node ∈ node_names item -> reserved (h_helper w) name (n_Name node) ->
  runs w (if running : bool then _ ← rearmBalloonHold held; launch_node env item node else mret true) (fun w' up =>
    ran name w w' /\ h_helper w' = h_helper w /\
    if running then if up : bool then nodeRunning w' name (n_Name node) = true else tracked w' name = tracked w name
    else up = true /\ h_vms w' = h_vms w).
Proof.
  intros Hw Hl <- Hs Hn Hr. destruct running; [|apply post_ret; split_and!; try done; by apply synced_ran; try reflexivity].
  apply post_bind. eapply post_conseq; [by apply (rearm_spec _ l)|]. intros w' u ->.
  eapply post_conseq; [by apply launch_node_spec; [|exists (encode item)|]|]. done.
Qed.

Lemma finish_node_spec name running held l item node w d : home_ok w -> h_holds w = arm held l -> c_Name item = name ->
  stored w name = Some (encode item) -> n_Name node ∈ node_names item -> reserved (h_helper w) name (n_Name node) ->
  h_dirs w !! name = Some d -> node_names item ⊆ d_images d ->
  runs w (finish_node env running held item node) (fun w' r => finished name running l w w' item node r).
Proof.
  intros Hw Hl En Hs Hn Hr Hd Him. unfold finish_node. apply post_bind. eapply post_conseq; [by apply (launch_added_spec name _ _ l)|].
  intros w1 up (R1 & Hh1 & Hup). assert (h_holds w1 = arm held l) as Hl1 by by rewrite (rn_holds _ _ _ R1).
  destruct up; cbn [negb].
  2:{ destruct running; [|by destruct Hup]. apply post_bind. eapply post_conseq; [by apply (release_spec _ l)|].
      intros w2 u [Hl2 Q2]. apply post_ret. destruct (held_ran name _ _ (rn_ok _ _ _ R1) Q2) as (H2 & A2 & O2 & D2 & V2 & _).
      split; [eapply safe_trans; [by apply ran_safe|by split_and!]|]. split_and!; [done..|]. unfold tracked in *. by rewrite V2. }
  apply post_bind. rewrite En.
  eapply (post_conseq _ _ (fun w' _ => synced w1 w' /\ h_helper w' = h_helper w1)); [apply post_and; [by apply synced_note|done]|].
  intros w2 u [S2 Eh2]. assert (ran name w w2) as R2 by (eapply ran_trans; [done|]; apply synced_ran; [apply R1|done]).
  pose proof S2 as (_ & V2 & _).
  assert (exists d', h_dirs w2 !! name = Some d' /\ node_names item ⊆ d_images d') as Himages.
  { pose proof (rn_disks _ _ _ R2 name) as E. unfold holdings in E. rewrite Hd in E.
    destruct (h_dirs w2 !! name) as [d2|]; [|done]. exists d2. split; [done|]. injection E as _ ->. done. }
  assert (stored w2 name = stored w name) as Hs2 by apply holdings_stored, R2. apply post_bind. destruct running.
  - apply post_ret, post_ret. split; [by apply ran_safe|]. split_and!; [done|congruence|done| |apply R2].
    unfold nodeRunning, Suspend.nodeRunning, slice in *. simpl in *. by rewrite V2.
  - eapply post_conseq; [apply (release_spec _ l); by rewrite (rn_holds _ _ _ R2)|]. intros w3 u3 [Hl3 Q3].
    destruct (held_ran name _ _ (rn_ok _ _ _ R2) Q3) as (H3 & A3 & O3 & D3 & V3 & Hh3). apply post_ret.
    split; [eapply safe_trans; [by apply ran_safe|by split_and!]|]. destruct Hup as [_ Hv].
    split_and!; [rewrite <- Hs2; unfold stored; by rewrite D3|congruence|by rewrite D3|congruence|done].
Qed.

Lemma addNodeLocked_spec args w : home_ok w ->
  runs w (addNodeLocked env args) (fun w' r => safe (na_Cluster args) w w' /\ add_outcome (na_Cluster args) w w' (fst <$> r)).
Proof.
  intros Hw. set (name := na_Cluster args). unfold addNodeLocked. cbv zeta. fold name.
  assert (forall w', quiet w w' -> kept name w w') as Hq by (intros w' Q; apply synced_kept; [done|by apply quiet_synced]).
  apply post_try, runs_lift. eapply post_conseq; [by apply Load_spec|]. intros w1 r [Q1 Hr].
  destruct r as [item|e]; cbn [map_err]; [|by apply add_refused; [apply Hq|]]. destruct Hr as (s & Hs & ->).
  pose proof (loaded_name _ _ _ Hw Hs) as En. set (item := view (st_cluster s)) in *. set (role := if String.eqb _ _ then _ else _).
  apply post_try, runs_ask. intros w2 Q2'. assert (quiet w w2) as Q2 by by etrans. case_match; [|by apply add_refused; [apply Hq|]].
  apply post_bind, post_get. rewrite En.
  assert (clusterRunning w2 name = clusterRunning w name) as ->.
  { unfold clusterRunning, Suspend.clusterRunning, slice. simpl. by destruct Q2 as (_ & -> & _). }
  set (running := clusterRunning w name). pose proof (Hq _ Q2) as K2. assert (h_holds w2 = h_holds w) as Eh2 by apply Q2.
  apply post_try. eapply post_conseq; [apply (admit_node_spec name); by eapply kept_ok|]. intros w4 r Hg.
  destruct r as [p|e]; [|destruct Hg; apply add_refused; [by eapply kept_trans|done]]. destruct Hg as [[K4 Hl4] Hp0]. rewrite Eh2 in K4, Hl4.
  assert (armed name (arm p.2 (h_holds w)) w w4) as A4 by (split; [by eapply kept_trans|done]). clear K4 Hl4.
  apply post_bind. eapply (post_conseq _ _ (fun w' r => quiet w4 w' /\ forall e, r = Err e -> added e = false)).
  { destruct running; [|by apply post_ret]. apply post_bind, post_next. intros w' Q. apply post_ret. split; [done|].
    destruct (AttachedSubnetWarning _ _ _); by intros ? [= <-]. }
  intros w5 r [Q5 Hsub]. assert (armed name (arm p.2 (h_holds w)) w w5) as A5.
  { eapply armed_trans; [done|]. apply synced_kept; [apply (armed_ok _ _ _ _ A4)|by apply quiet_synced]. }
  destruct r as [sw|e].
  2:{ apply post_bind. eapply post_conseq; [by apply armed_release|]. intros w6 u K6. apply post_ret. apply add_refused; auto. }
  destruct (armed_ok _ _ _ _ A5) as (S5 & V5 & T5). assert (stored w5 name = Some s) as Hs5 by by rewrite T5.
  apply post_bind. eapply post_conseq; [apply (commit_node_spec name); [apply S5|done]|]. intros w6 r Hc. destruct r as [[item' node]|e].
  2:{ destruct Hc as [K6 He]. apply post_bind. eapply post_conseq; [apply armed_release; by eapply armed_trans|].
      intros w7 u K7. apply post_ret, add_refused; [done|]. destruct e; try done. by destruct (He name0). }
  destruct Hc as [(S6 & V6 & Eh6 & T6 & En' & Hin & Hres & d & Hd & Him) Hnodes]. destruct A5 as [_ Hl].
  apply post_try. eapply post_conseq; [by apply (finish_node_spec name _ _ (h_holds w) _ _ _ d); [apply S6|congruence|..]|].
  intros w7 r [S7 Hf]. assert (safe name w w7) as S by (eapply safe_trans; [done|by eapply safe_trans]). destruct r as [[]|e].
  - destruct Hf as (Hs7 & Hh7 & Himg & Hrun). apply post_ret. split; [done|]. exists s, item'. split_and!; try done; [congruence|by rewrite Hh7|].
    fold running. destruct running; [split; [apply Hrun|exists p.2; destruct Hrun; congruence]|]. destruct Hrun. split; congruence.
  - destruct Hf as (He & Hl7 & Ht). split; [done|]. destruct e; try done. split; [done|]. unfold tracked in *. rewrite Ht. congruence.
Qed.

Lemma RemoveNode_name c name c' n : RemoveNode c name = (c', Ok n) -> c_Name c' = c_Name c.
Proof. intros H. by apply RemoveNode_shape in H as (-> & _). Qed.

(** The machine of a node that is removed *)
Lemma stop_removed name node w : home_ok w ->
  runs w (if bool_decide (is_Some (default ∅ (h_vms w !! name) !! node))
          then within name (c ← closeMachine (e_sched env) node; _ ← (if c : bool then untrack node else mret tt); mret c)
          else mret true) (fun w' stopped => ran name w w' /\ tracked w' name ⊆ tracked w name /\ (stopped = true -> node ∉ tracked w' name)).
Proof.
  intros Hw. destruct (bool_decide _) eqn:E.
  - eapply post_conseq.
    { apply (runs_within true ∅ _ _ (fun s' c => c = true -> node ∉ dom (Suspend.vms s'))).
      apply post_and; [apply (stays_bind (boots true ∅)); [apply boots_closeMachine|intros []; stays_tac]|].
      apply post_bind. eapply (post_conseq _ _ (fun _ _ => True)); [done|]. intros s1 c _. apply post_bind.
      destruct c; [apply post_modify, post_ret; simpl; intros _; rewrite dom_delete; set_solver|by apply post_ret, post_ret]. }
    intros w1 c [I1 (s1 & V1 & H1)]. split; [eapply inside_ran; [done..|set_solver|set_solver]|].
    split; [pose proof (in_tracked _ _ _ _ _ I1); set_solver|]. intros Hc. unfold tracked. unfold slice in V1. cbn [Suspend.vms] in V1.
    rewrite V1. auto.
  - apply post_ret. split; [apply synced_ran; [done|reflexivity]|]. split; [done|]. intros _ Hn. unfold tracked in Hn.
    apply elem_of_dom in Hn. apply bool_decide_eq_false_1 in E. done.
Qed.

Definition remove_outcome (name node : string) (w w' : Home) (r : result ops_error Node) : Prop :=
  h_holds w' = h_holds w /\
  match r with
  | Ok n => (node ∉ tracked w' name) /\ exists s c, stored w name = Some s /\ RemoveNode (view (st_cluster s)) node = (c, Ok n) /\
      stored w' name = Some (encode c)
  | Err _ => True
  end.

Lemma removeNodeLocked_spec name node w : home_ok w ->
  runs w (removeNodeLocked env name node) (fun w' r => safe name w w' /\ remove_outcome name node w w' r).
Proof.
  intros Hw. unfold removeNodeLocked.
  assert (forall w' e, ran name w w' -> safe name w w' /\ remove_outcome name node w w' (Err e)) as Href.
  { intros w' e R. split; [by apply ran_safe|]. split; [apply R|done]. }
  apply post_try, runs_lift. eapply post_conseq; [by apply Load_spec|]. intros w1 r [Q1 Hr].
  pose proof (quiet_ran name _ _ Hw Q1) as R1. destruct r as [item|e]; cbn [map_err]; [|by apply Href]. destruct Hr as (s & Hs & ->).
  destruct (RemoveNode _ node) as [item r] eqn:Er. apply post_try, post_ret. destruct r as [n|e]; cbn [map_err]; [|by apply Href].
  pose proof (RemoveNode_name _ _ _ _ Er) as En. rewrite (loaded_name _ _ _ Hw Hs) in En.
  destruct (removed_record _ _ _ _ _ _ Hw Hs Er) as (Hrec & Edom & Esub & Hn & Hsub). rewrite En, Hn.
  apply post_bind, post_get, post_bind. eapply post_conseq; [apply stop_removed, R1|]. intros w2 stopped (R2' & T2 & Hstop).
  assert (ran name w w2) as R2 by by eapply ran_trans. destruct stopped; cbn [negb]; [|by apply post_ret, Href]. specialize (Hstop eq_refl).
  apply post_bind. eapply post_conseq; [by apply synced_note|]. intros w3 u3 S3.
  assert (ran name w w3) as R3 by (eapply ran_trans; [done|]; apply synced_ran; [apply R2|done]).
  assert (tracked w3 name = tracked w2 name) as T3 by by apply synced_tracked.
  apply post_try, runs_lift. eapply post_conseq; [apply Save_spec|]. rewrite En. intros w4 r Hsave. destruct r as [[]|e]; cbn [map_err].
  2:{ split; [eapply safe_trans; [by apply ran_safe|]; apply files_kept; [apply R3|done]|]. split; [|done].
      rewrite (fo_holds _ _ _ _ Hsave). apply R3. }
  destruct Hsave as [F4 _].
  assert (home_ok w4) as H4.
  { eapply home_ok_save; [apply R3|exact F4|done| |].
    - intros k s' Hk Hne. cbn [st_cluster encode]. rewrite Edom, Esub. apply (ho_distinct w Hw k name); try done.
      rewrite <- Hk. symmetry. apply holdings_stored, R3.
    - cbn [st_cluster encode]. intros k Hk. rewrite T3 in Hk. assert (k <> node) by congruence. apply T2 in Hk.
      assert (k ∈ node_names (st_cluster s)); [|set_solver]. destruct (ho_tracked _ (rn_ok _ _ _ R1) _ _ Hk) as (x & Hx & Hkx).
      rewrite (holdings_stored w w1) in Hx by apply R1. congruence. }
  assert (safe name w w4) as S4 by (eapply safe_trans; [by apply ran_safe|]; split_and!; [done|by eapply files_apart|by eapply files_ordered]).
  apply post_bind. eapply post_conseq; [by apply logHelperSyncFailure_spec|]. intros w5 u5 S5.
  apply post_try, runs_lift. eapply post_conseq; [apply removeNodeFiles_local|]. intros w6 r F6.
  assert (kept name w4 w6) as K6.
  { eapply kept_trans; [apply synced_kept; [exact H4|exact S5]|]. apply files_kept; [apply (synced_ok _ _ S5 H4)|done]. }
  assert (safe name w w6) as S6 by (eapply safe_trans; [done|apply K6]).
  assert (h_holds w6 = h_holds w) as Hh by (rewrite (kp_holds _ _ _ K6), (fo_holds _ _ _ _ F4); apply R3).
  destruct r as [[]|e]; cbn [map_err]; [|by split; [|split]].
  apply post_bind. eapply post_conseq; [by apply synced_note|]. intros w7 u7 S7. apply post_ret.
  assert (kept name w4 w7) as K7 by (eapply kept_trans; [exact K6|]; apply synced_kept; [by eapply kept_ok|done]).
  split; [eapply safe_trans; [exact S4|apply K7]|]. split; [destruct S7 as (_&_&_&->&_); done|]. split.
  - unfold tracked. rewrite (kp_vms _ _ _ K7), (fo_vms _ _ _ _ F4). change (node ∉ tracked w3 name). by rewrite T3.
  - exists s, item. split_and!; [done..|]. rewrite (kp_stored _ _ _ K7). apply F4.
Qed.
End Nodes.

(** ** The handlers of [Suspend] *)

Section Lifted.
Context (env : Env).

Lemma inside_safe h name names w w' : inside h name names w w' -> home_ok w ->
  (forall n, n ∈ names -> exists s, stored w name = Some s /\ n ∈ node_names (st_cluster s)) ->
  home_ok w' /\ apart name w w' /\ ((forall n, n ∈ names -> reserved (h_helper w) name n) -> ordered w w').
Proof. intros I Hw Hn. split_and!; [by eapply inside_ok|by eapply inside_apart|by eapply inside_ordered]. Qed.

Lemma suspendCluster_spec name supported order w : home_ok w -> runs w (suspendCluster env name supported order) (fun w' _ => safe name w w').
Proof.
  intros Hw. unfold suspendCluster. apply post_try, runs_lift. eapply post_conseq; [by apply Load_spec|]. intros w1 r [Q1 Hr].
  assert (home_ok w1) as H1 by by eapply quiet_ok. pose proof (quiet_safe name _ _ Hw Q1) as S1. destruct r as [item|e]; cbn [map_err]; [|done].
  destruct Hr as (s & Hs & ->). rewrite (loaded_name _ _ _ Hw Hs). apply runs_lift.
  eapply post_conseq; [apply (runs_within true ∅ _ _ (fun _ _ => True)), post_and; [apply boots_suspend|done]|]. intros w2 r [I2 _].
  destruct (inside_safe _ _ _ _ _ I2 H1) as (?&?&O); [set_solver|]. eapply safe_trans; [done|]. split_and!; [done..|]. apply O. set_solver.
Qed.

Lemma stopNodeLocked_spec name node w : home_ok w -> runs w (stopNodeLocked env name node) (fun w' _ => safe name w w').
Proof.
  intros Hw. unfold stopNodeLocked. apply post_try, runs_lift. eapply post_conseq; [by apply Load_spec|]. intros w1 r [Q1 Hr].
  assert (home_ok w1) as H1 by by eapply quiet_ok. pose proof (quiet_safe name _ _ Hw Q1) as S1. destruct r as [item|e]; cbn [map_err]; [|done].
  destruct Hr as (s & Hs & ->). rewrite (loaded_name _ _ _ Hw Hs). apply runs_lift.
  eapply post_conseq; [apply (runs_within true ∅ _ _ (fun _ _ => True)), post_and; [apply boots_stopNode|done]|]. intros w2 r [I2 _].
  destruct (inside_safe _ _ _ _ _ I2 H1) as (?&?&O); [set_solver|]. eapply safe_trans; [done|]. split_and!; [done..|]. apply O. set_solver.
Qed.

Lemma startNodeLocked_spec name node force w : home_ok w -> runs w (startNodeLocked env name node force) (fun w' _ => home_ok w' /\ apart name w w').
Proof.
  intros Hw. unfold startNodeLocked. apply post_try, runs_lift. eapply post_conseq; [by apply Load_spec|]. intros w1 r [Q1 Hr].
  pose proof (quiet_safe name _ _ Hw Q1) as S1. destruct r as [item|e]; cbn [map_err]; [|split; apply S1].
  destruct Hr as (s & Hs & ->). rewrite (loaded_name _ _ _ Hw Hs). apply post_bind, post_get, post_bind, post_next. intros w2 Q2'.
  assert (quiet w w2) as Q2 by by etrans. pose proof (quiet_safe name _ _ Hw Q2) as S2. apply runs_lift.
  eapply post_conseq; [apply (runs_within false (node_names (st_cluster s)) _ _ (fun _ _ => True)), post_and; [apply boots_startNode|done]|].
  - intros item x [= <-] Hx. apply node_names_elem. eauto.
  - intros w3 r [I3 _]. destruct (inside_safe _ _ _ _ _ I3 (proj1 S2)) as (?&?&_); [|split; [done|by etrans; [apply S2|]]].
    intros n Hn. exists s. split; [|done]. by rewrite (quiet_stored _ _ _ Q2).
Qed.

Lemma resumeCluster_spec name force now w : home_ok w -> runs w (resumeCluster env name force now) (fun w' _ => safe name w w').
Proof.
  intros Hw. unfold resumeCluster. apply post_try, runs_lift. eapply post_conseq; [by apply Load_spec|]. intros w1 r [Q1 Hr].
  assert (home_ok w1) as H1 by by eapply quiet_ok. pose proof (quiet_safe name _ _ Hw Q1) as S1. destruct r as [item|e]; cbn [map_err]; [|done].
  destruct Hr as (s & Hs & ->). rewrite (loaded_name _ _ _ Hw Hs). apply post_bind, post_get. case_match; [by apply post_ret|].
  apply post_try, runs_lift. eapply post_conseq; [by apply SyncHelperState_spec|]. intros w2 r [S2 Hres].
  assert (safe name w w2) as S by (eapply safe_trans; [done|by apply synced_safe]). destruct r as [[]|e]; cbn [map_err]; [|done].
  specialize (Hres eq_refl). apply post_bind, post_next. intros w3 Q3.
  assert (safe name w w3) as S3 by (eapply safe_trans; [done|]; apply quiet_safe; [apply S|done]).
  assert (stored w1 name = Some s) as Hs1 by by rewrite (quiet_stored _ _ _ Q1).
  assert (stored w3 name = Some s) as Hs3 by by rewrite (quiet_stored _ _ _ Q3), (synced_stored _ _ _ S2).
  apply runs_lift.
  eapply post_conseq; [apply (runs_within false (node_names (st_cluster s)) _ _ (fun _ _ => True)), post_and; [apply boots_resume|done]|].
  - intros item x [= <-] Hx. apply node_names_elem. eauto.
  - intros w4 r [I4 _]. destruct (inside_safe _ _ _ _ _ I4 (proj1 S3)) as (?&?&O); [eauto|].
    eapply safe_trans; [done|]. split_and!; [done..|]. apply O. intros n Hn. destruct Q3 as (_&_&_&_&->&_). by eapply Hres.
Qed.
End Lifted.
