(* ===== verification/DaemonOps.v ===== *)
(** * The daemon's life-cycle requests as one machine

    Any sequence of the handlers of [ClusterOps], each under its own schedule of failures,
    interleaved with guests that exit and daemons that restart: the invariant that holds
    throughout, what a create leaves behind whatever fails, when a machine may start, and
    what a destroy takes away. *)

From stdpp Require Import base list gmap sorting strings.
From Stdlib Require Import Ascii ZArith Lia.
From S2P Require Import Prelude GoStrings GoNet Cluster Subnet Dns Config TalosVersion DaemonBalloon Effects Suspend ClusterOps Lifecycle.

Local Open Scope Z_scope.
Local Open Scope int64_scope.

(** ** Requests *)

Inductive request :=
| ClusterCreate (a : createArgs)
| ClusterStart (args : startArgs)
| ClusterStop (name : string)
| ClusterDestroy (name : string) (force : bool)
| ClusterSuspend (name : string) (supported : bool) (order : list string)
| ClusterResume (name : string) (force : bool) (now : Z)
| NodeAdd (args : nodeArgs)
| NodeRemove (name node : string)
| NodeStart (name node : string) (force : bool)
| NodeStop (name node : string)
| HelperSync (busy : bool).

Definition forget {A} (m : D A) : D unit := _ ← m; mret tt.

(** The handler of a request, its answer left out *)
Definition handle (env : Env) (q : request) : D unit :=
  match q with
  | ClusterCreate a => forget (createCluster env a)
  | ClusterStart args => forget (startCluster env args)
  | ClusterStop name => forget (stopCluster env name)
  | ClusterDestroy name force => forget (destroyCluster env name force)
  | ClusterSuspend name supported order => forget (ClusterOps.suspendCluster env name supported order)
  | ClusterResume name force now => forget (ClusterOps.resumeCluster env name force now)
  | NodeAdd args => forget (addNodeLocked env args)
  | NodeRemove name node => forget (removeNodeLocked env name node)
  | NodeStart name node force => forget (ClusterOps.startNodeLocked env name node force)
  | NodeStop name node => forget (ClusterOps.stopNodeLocked env name node)
  | HelperSync busy => forget (TrySyncHelperState env busy)
  end.

(** The cluster a request names *)
Definition target (q : request) : string :=
  match q with
  | ClusterCreate a => ca_Name a
  | ClusterStart args => sa_Name args
  | ClusterStop name | ClusterDestroy name _ | ClusterSuspend name _ _ | ClusterResume name _ _ => name
  | NodeAdd args => na_Cluster args
  | NodeRemove name _ | NodeStart name _ _ | NodeStop name _ => name
  | HelperSync _ => EmptyString
  end.

(** Requests the model covers: the counts of a create do not overflow [int] when added,
    and no cluster is called "/" ([Cluster.validName_accepts_slash]). *)
Definition covered (q : request) : Prop :=
  target q <> "/"%string /\ match q with ClusterCreate a => counts_ok a | _ => True end.

Definition launches_unpushed (q : request) : bool := match q with NodeStart _ _ _ => true | _ => false end.

Lemma runs_forget {A} (m : D A) w (Q : Home -> Prop) : runs w m (fun w' _ => Q w') -> runs w (forget m) (fun w' _ => Q w').
Proof. intros H. apply post_bind. eapply post_conseq; [exact H|]. intros w' a Hw. by apply post_ret. Qed.

(** Every handler keeps the invariant and the other clusters, and, but for node.start,
    starts no machine without its reservation.  A bridge it takes down belongs to no
    stored cluster. *)
Lemma handle_spec env q w : home_ok w -> readable env -> covered q ->
  runs w (handle env q) (fun w' _ => home_ok w' /\ apart (target q) w w' /\
    (launches_unpushed q = false -> ordered_with (unallocated w') w w')).
Proof.
  intros Hw Hr [_ Hc].
  assert (forall w', safe (target q) w w' -> home_ok w' /\ apart (target q) w w' /\ (launches_unpushed q = false -> ordered_with (unallocated w') w w')) as Hs.
  { intros w' (H1 & H2 & H3). split_and!; try done. intros _. by eapply ordered_weaken; [|exact H3]. }
  destruct q; cbn [handle target] in *; apply runs_forget.
  - eapply post_conseq; [by apply createCluster_spec|]. intros w' r [S _]. auto.
  - eapply post_conseq; [by apply startCluster_spec|]. intros w' r [S _]. auto.
  - eapply post_conseq; [by apply stopCluster_spec|]. intros w' r [R _]. by apply Hs, ran_safe.
  - eapply post_conseq; [by apply destroyCluster_spec|]. intros w' r (H1 & H2 & _ & H3 & _). split_and!; try done.
    intros _. eapply ordered_weaken; [|exact H3]. naive_solver.
  - eapply post_conseq; [by apply suspendCluster_spec|]. auto.
  - eapply post_conseq; [by apply resumeCluster_spec|]. auto.
  - eapply post_conseq; [by apply addNodeLocked_spec|]. intros w' r [S _]. auto.
  - eapply post_conseq; [by apply removeNodeLocked_spec|]. intros w' r [S _]. auto.
  - eapply post_conseq; [by apply startNodeLocked_spec|]. intros w' r [H1 H2]. split_and!; done.
  - eapply post_conseq; [by apply stopNodeLocked_spec|]. auto.
  - unfold TrySyncHelperState. destruct busy; [apply post_ret, Hs, quiet_safe; done|].
    eapply post_conseq; [by apply SyncHelperState_spec|]. intros w' r [S _]. apply Hs. by apply synced_safe.
Qed.

(** ** The machine *)

(** A guest that ends on its own *)
Definition exit_guest (name node : string) (w : Home) : Home :=
  with_machines (alter (alter (fun m => mkMachine false (m_balloon m) (m_memory m)) node) name (h_vms w)) w.

(** A new daemon: no machine tracked, no hold *)
Definition restart (w : Home) : Home := mkHome (h_dirs w) ∅ (h_versions w) [] (h_helper w) (h_trace w) (h_tick w).

Inductive step : Home -> Home -> Prop :=
| step_request env q w : readable env -> covered q -> step w (handle env q w).1
| step_exit name node w : step w (exit_guest name node w)
| step_restart w : step w (restart w).

Lemma step_ok w w' : step w w' -> home_ok w -> home_ok w'.
Proof.
  intros [env q w1 Hr Hc|name node w1|w1] Hw.
  - by apply (handle_spec env q w1).
  - eapply home_ok_same; [..|exact Hw]; intros k; [done|]. unfold tracked, exit_guest. simpl. rewrite lookup_alter. case_decide; [subst|done].
    destruct (h_vms w1 !! k); simpl; [by rewrite dom_alter_L|done].
  - eapply home_ok_same; [..|exact Hw]; intros k; [done|]. unfold tracked, restart. simpl. rewrite lookup_empty. set_solver.
Qed.

Lemma reservation_subnet sub sub' h h' : 0 <= sub <= 255 -> 0 <= sub' <= 255 -> 0 <= h <= 255 -> 0 <= h' <= 255 ->
  reservationIP sub h = reservationIP sub' h' -> sub = sub'.
Proof. intros ???? E. assert (parse_ip4 (reservationIP sub h) = parse_ip4 (reservationIP sub' h')) as P by by rewrite E. rewrite !parse_reservation in P by lia. congruence. Qed.

(** No two nodes of stored clusters have the same address. *)
Lemma addresses_distinct w n1 n2 s1 s2 x1 x2 : home_ok w -> stored w n1 = Some s1 -> stored w n2 = Some s2 ->
  x1 ∈ c_Nodes (st_cluster s1) -> x2 ∈ c_Nodes (st_cluster s2) -> n_IP x1 = n_IP x2 -> n1 = n2 /\ x1 = x2.
Proof.
  intros Hw H1 H2 Hx1 Hx2 E. destruct (ho_records w Hw _ _ H1) as [O1 _ _ A1 _ _ _], (ho_records w Hw _ _ H2) as [O2 _ _ A2 _ _ _].
  assert (forall s x, cluster_ok (st_cluster s) -> Forall (fun n => n_IP n <> EmptyString) (c_Nodes (st_cluster s)) -> x ∈ c_Nodes (st_cluster s) ->
    exists h, firstNodeHost <= h <= lastNodeHost /\ n_IP x = reservationIP (c_SubnetIndex (st_cluster s)) h) as Hip.
  { intros s x O A Hx. destruct (ok_ips _ O) as [F _]. rewrite Forall_forall in F, A. destruct (F x Hx) as [?|?]; [by destruct (A x Hx)|done]. }
  destruct (Hip s1 x1 O1 A1 Hx1) as (h1 & Hh1 & E1), (Hip s2 x2 O2 A2 Hx2) as (h2 & Hh2 & E2). unfold firstNodeHost, lastNodeHost in *.
  assert (n1 = n2) as ->.
  { destruct (decide (n1 = n2)) as [|Hne]; [done|]. destruct (ho_distinct w Hw _ _ _ _ H1 H2 Hne) as [Hsub _].
    destruct Hsub. apply (reservation_subnet _ _ h1 h2); [apply (ok_subnet _ O1)|apply (ok_subnet _ O2)|lia|lia|congruence]. }
  split; [done|]. assert (s2 = s1) as -> by congruence. destruct (ok_ips _ O1) as [_ Hnd]. rewrite assigned_all in Hnd by done.
  apply list_elem_of_lookup_1 in Hx1 as (i & Hi), Hx2 as (j & Hj).
  assert (i = j) as <-; [|congruence]. eapply NoDup_lookup; [exact Hnd|..]; rewrite list_lookup_fmap, ?Hi, ?Hj; simpl; [done|by rewrite E].
Qed.

(** ** Claims *)

(** C2: from a host without clusters, through any sequence of life-cycle requests, guests
    that exit and daemon restarts, with any calls failing but the read of a record: every
    record is well formed and stored under its own name, no two clusters share a subnet, a
    domain or an address, and every machine the daemon tracks is a node of a stored
    cluster. *)
Theorem lifecycle_invariant w0 w : h_dirs w0 = ∅ -> h_vms w0 = ∅ -> rtc step w0 w ->
  home_ok w /\
  forall n1 n2 s1 s2 x1 x2, stored w n1 = Some s1 -> stored w n2 = Some s2 -> x1 ∈ c_Nodes (st_cluster s1) -> x2 ∈ c_Nodes (st_cluster s2) ->
    n_IP x1 = n_IP x2 -> n1 = n2 /\ x1 = x2.
Proof.
  intros Hd Hv Hsteps. assert (home_ok w) as Hw.
  { assert (home_ok w0) as H0.
    { split; unfold stored, tracked; intros *; rewrite ?Hd, ?Hv, ?lookup_empty; [done..|]. simpl. set_solver. }
    clear Hd Hv. induction Hsteps as [|x y z Hxy _ IH]; [done|]. by apply IH, (step_ok x). }
  split; [done|]. intros *. by apply addresses_distinct.
Qed.


(** C4: every machine that create, start, resume or node.add launches starts with its
    reservation at the helper: the set delivered last before the launch holds the node,
    and its MAC looks up to the node's own address and subnet.  A host bridge is taken
    down only when no stored cluster has its subnet. *)
Theorem machines_start_reserved env q w : home_ok w -> readable env -> covered q -> launches_unpushed q = false ->
  exists evs, h_trace (handle env q w).1 = h_trace w ++ evs /\
    (forall before name n after, evs = before ++ Guest name (VMStarted n) :: after -> reserved (told (h_helper w) before) name n) /\
    (forall i k s, TornDown i ∈ evs -> stored (handle env q w).1 k = Some s -> c_SubnetIndex (st_cluster s) <> i).
Proof.
  intros Hw Hr Hc Hl. destruct (handle_spec env q w Hw Hr Hc) as (_ & _ & Ho). destruct (Ho Hl) as (evs & Ht & _ & Hg & Hd).
  exists evs. split_and!; [done| |].
  - intros before name n after ->. apply guarded_app in Hg as [_ [Hg _]]. done.
  - intros i k s Hi. by apply (Hd i Hi).
Qed.

(** C3: a create either succeeds completely (the record is stored, every node has its disk,
    runs and has its reservation at the helper, and the pre-balloon is held), or the cluster
    exists but did not start (the hold is handed back and the error names every machine that
    may still run), or nothing remains: no record, no machine, no hold, and no directory
    unless removing it failed. *)
Theorem create_all_or_nothing env a w w' r : home_ok w -> counts_ok a -> createCluster env a w = (w', r) ->
  match r with
  | Ok (item, _) => (exists held, h_holds w' = arm held (h_holds w)) /\ stored w' (ca_Name a) = Some (encode item) /\
      (exists d, h_dirs w' !! ca_Name a = Some d /\ node_names item ⊆ d_images d) /\
      (forall n, n ∈ node_names item -> nodeRunning w' (ca_Name a) n = true /\ reserved (h_helper w') (ca_Name a) n)
  | Err (CreatedNotStarted e) => h_holds w' = h_holds w /\ is_Some (stored w' (ca_Name a)) /\ tracked w' (ca_Name a) ⊆ unstopped e
  | Err _ => h_holds w' = h_holds w /\ h_vms w' = h_vms w /\ stored w' (ca_Name a) = stored w (ca_Name a) /\
      (removable env -> h_dirs w' = h_dirs w)
  end.
Proof.
  intros Hw Hc E. destruct (createCluster_spec env a w Hw Hc) as [_ Ho]. rewrite E in Ho. cbn [fst snd] in Ho.
  destruct r as [[item ws]|e]; [|by destruct e]. destruct Ho as (? & _ & ?). by split.
Qed.


(** ** The memory a create is charged *)


Lemma wrap64_add x y : wrap64 (wrap64 x + wrap64 y) = wrap64 (x + y).
Proof.
  unfold wrap64. f_equal. replace ((x + 2 ^ 63) mod 2 ^ 64 - 2 ^ 63 + ((y + 2 ^ 63) mod 2 ^ 64 - 2 ^ 63) + 2 ^ 63)
    with ((x + 2 ^ 63) mod 2 ^ 64 + ((y + 2 ^ 63) mod 2 ^ 64 - 2 ^ 63)) by lia.
  rewrite Zplus_mod_idemp_l. replace (x + 2 ^ 63 + ((y + 2 ^ 63) mod 2 ^ 64 - 2 ^ 63)) with ((y + 2 ^ 63) mod 2 ^ 64 + x) by lia.
  rewrite Zplus_mod_idemp_l. f_equal. lia.
Qed.

Lemma sum64_wraps {A} (f : A -> Z) l : sum64 f l = wrap64 (zsum f l).
Proof.
  unfold sum64. enough (forall acc, foldl (fun acc x => acc +! f x) (wrap64 acc) l = wrap64 (acc + zsum f l)) as H by apply (H 0).
  induction l as [|x l IH]; intros acc; [by rewrite zsum_nil, Z.add_0_r|]. cbn [foldl]. rewrite zsum_cons.
  replace (wrap64 acc +! f x) with (wrap64 (acc + f x)); [rewrite IH; f_equal; lia|].
  rewrite <- (wrap64_add acc (f x)), <- (wrap64_add (wrap64 acc) (f x)), (wrap64_id (wrap64 acc)) by apply wrap64_range. done.
Qed.

Lemma zsum_numbered (f : Role -> Z) name label role sub i o n :
  zsum (fun x => f (n_Role x)) (numbered name label role sub i o <$> seq 0 n) = Z.of_nat n * f role.
Proof.
  rewrite zsum_map. generalize 0%nat. induction n as [|n IH]; intros k; [done|]. cbn [seq]. rewrite zsum_cons, IH. unfold numbered at 1. cbn [n_Role newNode]. lia.
Qed.

Lemma built_memory a intent item (f : Role -> Z) : built a intent item ->
  zsum (fun x => f (n_Role x)) (c_Nodes item) = create_controlPlanes a * f RoleControlPlane + create_workers a * f RoleWorker.
Proof.
  intros B. destruct (bt_counts _ _ _ B). rewrite (bt_nodes _ _ _ B). unfold new_nodes.
  rewrite zsum_app, !zsum_numbered, !Z2Nat.id by done. done.
Qed.

(** A role override without its own memory is charged as the node default. *)
Definition sized (role : option NodeDefaults) : Prop := forall d, role = Some d -> 0 < MemoryMiB d.

Lemma role_memory a intent item : built a intent item -> sized (ca_ControlPlane a) -> sized (ca_Worker a) ->
  MemoryMiB (DefaultsFor item RoleControlPlane) = roleMemoryMiB (ca_ControlPlane a) (create_node a) /\
  MemoryMiB (DefaultsFor item RoleWorker) = roleMemoryMiB (ca_Worker a) (create_node a).
Proof.
  intros B Hc Hw. destruct (bt_overrides _ _ _ B) as [E1 E2], (bt_defaults _ _ _ B) as [E3 E4].
  unfold DefaultsFor, roleMemoryMiB, memoryOr. rewrite E1, E2, E3. unfold applyDefaults. cbn [MemoryMiB].
  split.
  - destruct (ca_ControlPlane a) as [d|]; simpl.
    + specialize (Hc d eq_refl). by rewrite (proj2 (Z.ltb_lt _ _) Hc).
    + destruct (ca_Worker a); simpl; repeat case_match; lia.
  - destruct (ca_Worker a) as [d|]; simpl.
    + specialize (Hw d eq_refl). rewrite (proj2 (Z.ltb_lt _ _) Hw). by destruct (ca_ControlPlane a).
    + destruct (ca_ControlPlane a); simpl; repeat case_match; lia.
Qed.


(** ** Witnesses *)

Module DaemonOpsDemo.

Definition no_faults (_ : syscall) (_ : nat) : bool := false.

(** A host where every call succeeds but those in [fault] *)
Definition env_with (fault : syscall -> nat -> bool) (sch : Schedule) : Env := {|
  e_daemon := demo_daemon; e_sched := sch; e_fault := fault; e_taken := fun _ => false; e_leaves := fun _ => (true, ∅, ∅);
  e_pressure := fun _ _ _ => Some []; e_ping := fun _ => true; e_overcommit := fun _ _ _ => Some [];
  e_provision := fun _ _ _ => Some ([], 512); e_hypervisor := fun _ => Some ("qemu", "amd64");
  e_interfaces := fun _ => Some (Ok []); e_routes := fun _ => Some (fun _ => Ok no_route);
  e_schematic := fun _ _ _ _ => Some ("schematic", "v1.13.9"); e_ensure := fun _ _ _ _ => true; e_cached := fun _ _ => true;
  e_advice := fun _ => []; e_subnetText := fun _ => "subnet"; e_linux := true; e_snapshots := fun _ _ => Some 0; e_bytes := fun _ _ => 0;
  e_bridge := fun _ _ => true |}.

Definition calm_env : Env := env_with no_faults healthy.

Definition create_args (name : string) (worker : option NodeDefaults) : createArgs := {|
  ca_Name := name; ca_Hypervisor := ""; ca_ControlPlanes := Some 1; ca_Workers := Some 1; ca_Node := mkDefaults 2048 2 20;
  ca_NodeDefaults := mkDefaults 0 0 0; ca_ControlPlane := None; ca_Worker := worker; ca_Intent := mkInput "" "" None None None None;
  ca_Domain := ""; ca_AllowUnsafeDomain := false; ca_Force := false; ca_Schematic := ""; ca_Version := ""; ca_TalosVersion := "";
  ca_Extensions := None; ca_ConfigManaged := false |}.

Definition home0 : Home := mkHome ∅ ∅ ∅ [] [] [] 0.
Definition home1 : Home := (handle calm_env (ClusterCreate (create_args "dev" None)) home0).1.

Definition home2 : Home := (handle calm_env (ClusterCreate (create_args "lab" None)) home1).1.

Lemma home0_ok : home_ok home0.
Proof. split; unfold stored, tracked; intros *; simpl; rewrite ?lookup_empty; [done..|]. simpl. set_solver. Qed.

Lemma args_ok name worker : counts_ok (create_args name worker).
Proof. split; vm_compute; done. Qed.

Lemma create_covered name worker : name <> "/"%string -> covered (ClusterCreate (create_args name worker)).
Proof. intros H. split; [done|apply args_ok]. Qed.

Lemma env_readable fault sch : (forall t, fault ReadRecord t = false) -> readable (env_with fault sch).
Proof. done. Qed.

Lemma home1_ok : home_ok home1.
Proof.
  destruct (handle_spec calm_env (ClusterCreate (create_args "dev" None)) home0 home0_ok) as [H _];
    [by apply env_readable|by apply create_covered|exact H].
Qed.

Lemma home2_ok : home_ok home2.
Proof.
  destruct (handle_spec calm_env (ClusterCreate (create_args "lab" None)) home1 home1_ok) as [H _];
    [by apply env_readable|by apply create_covered|exact H].
Qed.

Lemma create_step name w : name <> "/"%string -> step w (handle calm_env (ClusterCreate (create_args name None)) w).1.
Proof. intros H. apply step_request; [by apply env_readable|by apply create_covered]. Qed.

Lemma lifecycle_invariant_witness : home_ok home2.
Proof.
  refine (proj1 (lifecycle_invariant home0 home2 eq_refl eq_refl
    (rtc_l _ home0 home1 home2 (create_step "dev" home0 _) (rtc_l _ home1 home2 home2 (create_step "lab" home1 _) (rtc_refl _ _))))); done.
Defined.


Definition add_worker : request := NodeAdd (mkNodeArgs "dev" "" "" false).

Lemma machines_start_reserved_witness :
  exists evs, h_trace (handle calm_env add_worker home1).1 = h_trace home1 ++ evs /\
    (forall before name n after, evs = before ++ Guest name (VMStarted n) :: after -> reserved (told (h_helper home1) before) name n) /\
    nodeRunning (handle calm_env add_worker home1).1 "dev" "dev-worker-2" = true.
Proof.
  destruct (machines_start_reserved calm_env add_worker home1 home1_ok) as (evs & H1 & H2 & _); [by apply env_readable|by split|done|].
  exists evs. split; [exact H1|]. split; [exact H2|]. vm_compute. reflexivity.
Defined.

(** The third clone of a disk, the first of a second cluster, fails. *)
Definition broken : Env := env_with (fun c _ => match c with CloneDisk => true | _ => false end) healthy.

Lemma create_all_or_nothing_witness :
  (createCluster broken (create_args "lab" None) home1).2 = Err DisksFailed /\
  h_dirs (createCluster broken (create_args "lab" None) home1).1 = h_dirs home1.
Proof.
  split; [vm_compute; reflexivity|].
  refine (proj2 (proj2 (proj2 (create_all_or_nothing broken (create_args "lab" None) home1 (createCluster broken (create_args "lab" None) home1).1
    (Err DisksFailed) home1_ok (args_ok _ _) _))) _); [vm_compute; reflexivity|intros t; reflexivity].
Defined.


Definition dev : Cluster := match stored home1 "dev" with Some s => st_cluster s | None => Suspend.demo_item end.


(** ** What the model shows *)

(** A record that cannot be read: the destroy skips the stop, removes the directory and
    reports success while the machines run on. *)
Example destroy_unread_orphans :
  let env := env_with (fun c _ => match c with ReadRecord => true | _ => false end) healthy in
  let '(w, r) := destroyCluster env "dev" true home1 in
  is_ok r = true /\ h_dirs w !! "dev" = None /\ nodeRunning w "dev" "dev-cp-1" = true /\ nodeRunning w "dev" "dev-worker-1" = true.
Proof. vm_compute. done. Qed.

(** A create whose push fails leaves a cluster the helper never heard of; node.start then
    launches its node without telling the helper. *)
Example node_start_unreserved :
  let env := env_with (fun c _ => match c with SyncCall => true | _ => false end) healthy in
  let w := (createCluster env (create_args "dev" None) home0).1 in
  let '(w', r) := ClusterOps.startNodeLocked calm_env "dev" "dev-cp-1" false w in
  is_ok r = true /\ nodeRunning w' "dev" "dev-cp-1" = true /\ h_helper w' = [].
Proof. vm_compute. done. Qed.

(** A worker override that sets only the processors and the disk: the gates are charged
    the default memory, the record says none. *)
Example override_without_memory :
  let a := create_args "dev" (Some (mkDefaults 0 4 20)) in
  match (createCluster calm_env a home0).2 with
  | Ok (item, _) => create_MiB a = 4096 /\ clusterMemoryMiB item = 2048 /\ MemoryMiB (DefaultsFor item RoleWorker) = 0
  | Err _ => False
  end.
Proof. vm_compute. done. Qed.

End DaemonOpsDemo.
